(* ===== verification/_CoqProject ===== *)
-Q . S2P
Prelude.v
Words.v
Instruction.v
Evmc.v
VMState.v
VMOps.v
VMCases.v
VMCalls.v
VMExec.v
VMSpec.v
VMContract.v
VMCallsSpec.v
VMCode.v
VMRun.v
VMOptim.v
VMArith.v
TestHost.v
VMFacts.v
VMMemory.v
VMTheorems.v
Result.v
Rlp.v
RlpSpec.v
RlpRead.v
RlpTheorems.v
RlpInt.v
StateMonad.v
Account.v
State.v
StateSpec.v
StateReads.v
StateJournal.v
StateOps.v
World.v
StateCommit.v
TestDB.v
StateRefine.v
StateTheorems.v
Schedule.v
Transaction.v
SealEngine.v
Executive.v
ExecSpec.v
ExtVM.v
ExtVMSpec.v
TxSpec.v
ExecTheorems.v
TrieCommon.v
TrieKeys.v
NodeDB.v
MemoryDB.v
TrieDB.v
TrieItems.v
TrieSpec.v
TrieNodes.v
TrieTree.v
TrieOps.v
TrieDelete.v
TrieMap.v
MemoryDBLaws.v
TrieTheorems.v
TrieHash.v
TrieHashSpec.v
TrieHashTheorems.v
BlockHeader.v
Ethash.v
BlockChain.v
BlockQueue.v
BlockQueueSpec.v
TxQueue.v
TxCodec.v
HeaderCodec.v
HeaderTheorems.v
EthashTheorems.v
TxQueueSpec.v
TxQueueOps.v
TxQueueImport.v
TxQueueFuture.v
TxQueueTheorems.v
BlockQueueTheorems.v
