(* ===== verification/Prelude.v ===== *)
(** * Verification of the cpp-aec (cpp-aecmio) client

    The client executes an Ethereum-like chain: blocks of transactions are run
    by a virtual machine over a world state that is kept in Merkle tries and
    stored as RLP.  This library models the part of the client that decides
    what a transaction does, from the bytes of an account to the last
    instruction of a contract, and proves what makes it correct.

    ** The parts

    Foundations
    - Prelude: machine integers as [Z] with their truncations written out, and
      the list, option and arithmetic lemmas that several parts share; the
      order of unordered containers is some order ([UnorderedMaps]).
    - Words: [u256], [s256], [u512] and the byte codecs (libdevcore/Common.h,
      CommonData.h, FixedHash.h).
    - Result, StateMonad: what a C++ function returns (a value, an exception,
      an access outside of a buffer, no end), the monad of the member
      functions that change their object, and what the state and the tries
      throw.

    The interpreter (libevm)
    - Instruction: the opcodes and the table of VM metrics.
    - Evmc: the C interface between the interpreter and its host; the host is
      the class [EvmcHost].
    - VMState, VMOps, VMCases, VMCalls, VMExec: [class VM]; one definition per
      member function and per [CASE] of the switch, the optimiser, the loop,
      the trampoline and the C entry point.
    - VMSpec, VMContract, VMCallsSpec, VMCode, VMRun, VMOptim, VMArith,
      VMMemory, VMFacts, VMTheorems: the rules of the operations, the contract
      every case meets, the analysis of the code, the run as a whole, and the
      theorems; TestHost is a concrete host for the witnesses.

    Recursive length prefix encoding (libdevcore/RLP.h, RLP.cpp)
    - Rlp is the reader and the writer; RlpSpec, RlpRead, RlpInt and
      RlpTheorems relate them to the abstract items.

    Tries and their databases (libdevcore/TrieDB.h, TrieCommon, MemoryDB,
    OverlayDB, LevelDB)
    - TrieCommon: slices of nibbles and the hex-prefix encoding.
    - NodeDB: what a trie asks of its database, as a class with laws; the
      functions of a trie are programs over it ([prog]), [run] runs them, and
      [ends] is the logic of runs that do not write two nodes under one hash.
    - MemoryDB: [MemoryDB], [OverlayDB] and [LevelDB]; MemoryDBLaws shows that
      they keep the laws, and what a commit writes.
    - TrieDB: [GenericTrieDB] with every transformation of nodes.
    - TrieKeys, TrieItems, TrieSpec, TrieNodes, TrieTree, TrieOps, TrieDelete,
      TrieMap, TrieTheorems: keys as lists of nibbles, nodes as items, the tree a
      root stands for, the transformations, insertion and removal on trees, the
      proof that the code computes them, and tries as maps.  MemoryDBLaws ends
      with a concrete disk for the witnesses.
    - TrieHash (libdevcore/TrieHash): the root of an ordered map computed at
      once, as for the transactions of a block; TrieHashSpec, TrieHashTheorems:
      the entries of a tree in order, and that the root is the trie's.

    The world state (libaecereum/State, Account, CodeSizeCache)
    - Account, State: the account, the interface of the database with its laws
      ([StateDB], [StateDBLaws]), and the state with its caches and its log of
      changes.
    - StateSpec, StateReads, StateJournal, StateOps, StateCommit, StateRefine,
      StateTheorems: the views of the accounts, the effect of each operation on
      them, the log, the commit and the refinement; TestDB is a
      concrete database for the witnesses.

    Transactions (libaeccore, libaecereum/Executive, ExtVM, libevm/ExtVMFace)
    - Schedule: the gas schedules and the parameters of the chain.
    - Transaction: the members of a transaction, its RLP, sender and base gas.
    - SealEngine: the environment of a block, the precompiled contracts, and the
      checks of a transaction against the chain.
    - Executive: message calls, creations, and the life of a transaction from
      [initialize] to [finalize]; the machine that runs code is the record of
      operations [VMFace].
    - ExtVM: the callbacks of EVMC over the state, and the interpreter with them
      as a [VMFace], level of calls by level ([vm_at]).
    - World, ExecSpec, ExtVMSpec, TxSpec, ExecTheorems: what execution needs of a
      world and may do to one, the promise of a machine ([VMLaws]) from which
      the functions of [Executive] are proved, the proof that the interpreter
      keeps it at every level, the settlement of a transaction, the theorems.

    - TxCodec: what a transaction is on the wire, and that it is read back.

    Headers of blocks (libaeccore/BlockHeader, libaecashseal/Ethash)
    - BlockHeader: the members, RLP, hashes and checks of a header.
    - Ethash: the difficulty, the limit of the gas, the seal, what the engine
      requires of a header and what it puts into a new one; the aecash library
      is the class [AecashLib].
    - HeaderCodec, HeaderTheorems, EthashTheorems: headers on the wire, the
      check of a block against the trie of its transactions, and the agreement
      of the engine with itself.

    The transaction queue (libaecereum/TransactionQueue)
    - TxQueue: the members and every member function; the multiset with the
      comparison that can throw is the class [Multiset].
    - TxQueueSpec, TxQueueOps, TxQueueImport, TxQueueFuture, TxQueueTheorems: the
      invariant, what each operation does to what is current and what waits,
      the outcome of an import, sending back, the theorems; TxCodec has a
      multiset, a recovery of keys and transactions for the witnesses.

    The queue of blocks (libaecereum/BlockQueue, BlockChain::verifyBlock)
    - BlockChain: [verifyBlock], all the checks a block passes by itself; what is
      asked of the chain is the record [ChainView].
    - BlockQueue: the queues that count their bytes, the members and every member
      function; a verifier thread is two steps, taking a block and being done
      with it, and its work in between is one of the [jobs].
    - BlockQueueSpec, BlockQueueTheorems: the line of blocks from unverified to
      draining, what each operation does to it, the runs of threads and clients
      as step relations ([step]: all calls; [orderly_step]: with the chain and
      what it leaves out), the theorems, and concrete blocks.

    ** How the models correspond to the code

    A C++ function [f] is the definition [f] (a member function [C::f] too; a
    constructor or an operator has a descriptive name); its early returns and
    exceptions are in the order of the code.  The members of an object are the
    fields of a record with the names of the code.  The interpreter's effects
    are the monad [M] of VMState (members, host, exception, undefined
    behaviour), those of the state and of [Executive] the monad of StateMonad.
    Undefined behaviour is an outcome and never a default value, so that the
    safety theorems show its absence.  A pointer to a cached account is the
    address it is cached under, a [bytesConstRef] the bytes it refers to.

    The interpreter is proved against the class [EvmcHost] with its laws
    [EvmcHostLaws], which ExtVMSpec discharges for the environment of the client
    ([fnTable]); [Executive] against [VMLaws], which it discharges for the
    interpreter.  The state is proved against [StateDB] with [StateDBLaws], the
    tries against [NodeDB] with [NodeDBLaws], which MemoryDBLaws discharges.

    The code that is not in the tree is a parameter: Keccak ([Sha3]), secp256k1
    ([Secp256k1]), the proof of work ([AecashLib]), the cryptography of the precompiled contracts ([SealEngine]
    holds them as functions, [EngineLaws] says that prices are not negative and
    outputs are bytes), the random engine of the cache eviction and the order of
    unordered containers.  TestHost, TestDB and ExecTheorems instantiate them.

    ** What the theorems show

    - Transactions: the code of any account ends in any world, at any depth of
      calls, without undefined behaviour and within its gas (execution_total); a
      call or creation that fails leaves nothing behind (call_atomic,
      create_atomic); a transaction is rejected with no account changed, or
      paid for, run and settled (transaction_settles).
      What is written to the wire is read back (transaction_roundtrip), and what
      is accepted is in its types (transaction_parse_typed).
    - Queue: any calls keep the indices, the uniqueness of senders with nonces
      and the bounds (queue_consistent), without undefined behaviour
      (queue_calls_safe), as long as the signatures are somebody's; otherwise
      the queue stops (nobody_stops_the_queue).  An import does what import_outcome
      and import_contents say; what follows a mined transaction becomes current
      (mined_makes_current).
    - Headers: what is written is read back, alone and in a block
      (header_roundtrip), if number and time fit in 32 bits
      (header_time_truncated); what is read is in its types
      (header_parse_typed); a block is accepted exactly with the root of the
      trie of its transactions (block_body_checked); the engine accepts what was
      made from the headers it prepares (template_accepted); the difficulty is
      defined, bounded and does not grow with the time (difficulty_antitone).
    - Queue of blocks: whatever is called in whatever order, what is drained has
      been verified.  Over the orderly runs blocks are drained once and after
      their parents (drained_in_order), each has one status and is in one place
      (queue_accounted), and none gets stuck (nothing_stuck).  The orderly runs
      (orderly_step) interleave every call of every thread with a chain that
      grows, and leave out three things: that removeIf takes out a good block for
      a bad one that does not stand at the end of its queue, where the three
      properties fail (good_block_blamed); that the client calls blocks bad that
      are not draining; and that the queue is cleared while a verifier has a
      block.  A parent that the client has the queue take on trust (noteReady,
      retryAllUnknown, a drained block it neither put in the chain nor called bad)
      is named as such.  Marking what is bad ends, whatever the queue holds, and
      leaves no bad block in m_verified, in m_unverified or being verified
      (bad_spreads); the sizes of the maps wrap (unknown_size_wraps).  What is
      asked of Keccak is [hashes_apart]: no header has the hash zero or that of a
      list of uncles.
    - Interpreter: [execute] is total, reaches no undefined behaviour and ends
      within the fuel its gas gives (execute_total); the optimised interpreter
      is the plain one (execute_optimised); a static call changes nothing in
      the host (execute_static); jumps land on [JUMPDEST]s and control only
      reaches instructions; the instructions compute their mathematical
      functions on words; memory and call gas are as specified.
    - RLP: reading back what was written, one encoding per item, memory safety
      of the reader on every input, integers within their type, indexing
      independent of the cache.
    - Tries: a history of insertions and removals is the history on a map, and
      earlier roots keep what they hold (trie_refines_map); the root depends on
      the map alone (trie_root_canonical), and is what [hash256] and
      [orderedTrieRoot] compute at once (hash256_is_trie_root,
      ordered_root_is_trie_root); keys read back (hex_prefix_roundtrip);
      a commit writes the nodes with references (commit_writes_nodes), in one
      attempt (commit_tries_once).  Removal needs that no key is a prefix of
      another, as when all have one length; remove_prefix_fails shows what it
      does otherwise.
    - State: a client cannot tell the state from a map of accounts with saved
      copies (state_refines); a rollback restores the accounts of its
      savepoint (rollback_restores), but for what kill did and what clearStorage
      did to storage set since the last commit, which the log does not hold
      (clearStorage_not_undone, kill_not_undone); a transfer conserves the sum of
      the balances; a commit changes no account but those killed or empty.

    ** Bounds and fuel

    The loop of the interpreter takes fuel.  A gas limit is below [2^63], the
    [int64_t] of the C interface, and [2 * gas + 3] rounds are enough: every
    instruction that continues pays gas for its round, and a call or a creation
    takes one more on the trampoline (execute_total states it, execute_fuel that
    more changes nothing).  Code is shorter than [2^62] bytes and input shorter
    than [2^63], what an address space holds; gas bounds the memory of a frame
    long before [2^42].  The optimiser's constant pool has two-byte offsets, so
    the theorems with the optimiser ask for at most [7 * 2^16] bytes of code,
    more than a block's gas can deploy.  Calls nest at most 1024 deep, which
    [call] and [create] check, so 1025 levels of [vm_at] are the recursion.  The
    RLP reader takes the length of its data as fuel; an item is read only if its
    length fits.  A key of a trie has at most [2^27] bytes and a value at most
    [2^32], far more than the client stores; a trie function goes down at least
    one nibble in a round but for at most five ([key_fuel], [need_bound]), and
    [hash256rlp] in every call ([hash_fuel], writes_all).  The loops that mark
    blocks as bad or ready take the number of blocks that can leave
    ([collect_fuel], [update_fuel]), which bad_spreads and noteReady_total show to
    be enough.  A block and its header
    are shorter than [2^62] bytes.

    ** Not modelled

    EIP-615 and EIP-616 (VMSIMD.cpp, VMValidate.cpp, and the cases they
    enable) are switched off in VMConfig.h.  LegacyVM is the older copy of the
    same interpreter.  The path of [BLOCKHASH] through the block hash contract
    is modelled, but the theorems are about blocks before the fork that enables
    it ([EnvLaws]).  The state is not yet put on the tries: [StateDB] is its
    interface.  The iterators of the tries, blocks and the chain but for [verifyBlock], the
    miners, the network, the JSON-RPC server and the programs around them are left. *)
From Stdlib Require Import ZArith Lia Bool List.
From stdpp Require Import base tactics list list_numbers numbers gmap.

Open Scope Z_scope.

(** A closed decidable proposition, by computation. *)
Ltac decide_compute := refine (bool_decide_unpack _ _); vm_compute; exact I.

(** ** Machine integers

    Every C++ integer is a [Z]; the width of its type is written out where the
    code truncates.  [u64 z] is the value an [uint64_t] (or [size_t]) holds
    after being assigned [z], and so on. *)
Definition u8 (z : Z) : Z := z mod 2 ^ 8.
Definition u16 (z : Z) : Z := z mod 2 ^ 16.
Definition u32 (z : Z) : Z := z mod 2 ^ 32.
Definition u64 (z : Z) : Z := z mod 2 ^ 64.
Definition i64 (z : Z) : Z := (z + 2 ^ 63) mod 2 ^ 64 - 2 ^ 63.

Notation is_u64 z := (0 <= z < 2 ^ 64).
Notation is_byte z := (0 <= z < 256).
Notation is_u256 z := (0 <= z < 2 ^ 256).

Lemma u64_small z : is_u64 z -> u64 z = z.
Proof. apply Z.mod_small. Qed.

Lemma u64_range z : is_u64 (u64 z).
Proof. apply Z.mod_pos_bound. lia. Qed.

Lemma u8_range z : is_byte (u8 z).
Proof. apply Z.mod_pos_bound. lia. Qed.

Lemma u32_range z : 0 <= u32 z < 2 ^ 32.
Proof. apply Z.mod_pos_bound. lia. Qed.

Lemma u32_small z : 0 <= z < 2 ^ 32 -> u32 z = z.
Proof. apply Z.mod_small. Qed.

Lemma u32_le z : 0 <= z -> u32 z <= z.
Proof. intros. apply Z.mod_le; lia. Qed.

Lemma u64_le z : 0 <= z -> u64 z <= z.
Proof. intros. apply Z.mod_le; lia. Qed.

Lemma i64_small z : - 2 ^ 63 <= z < 2 ^ 63 -> i64 z = z.
Proof. intros. unfold i64. rewrite Z.mod_small; lia. Qed.

(** A shift followed by an "or" of the freed bits is an addition. *)
Lemma lor_shiftl_add r b n : 0 <= n -> 0 <= b < 2 ^ n -> Z.lor (Z.shiftl r n) b = r * 2 ^ n + b.
Proof.
  intros Hn Hb. rewrite <- Z.shiftl_mul_pow2, <- Z.add_lor_land by done.
  enough (Z.land (Z.shiftl r n) b = 0) by lia.
  apply Z.bits_inj'. intros i Hi. rewrite Z.land_spec, Z.shiftl_spec, Z.bits_0 by done.
  destruct (Z.lt_ge_cases i n).
  - by rewrite Z.testbit_neg_r by lia.
  - rewrite <- (Z.mod_small b (2 ^ n)), Z.mod_pow2_bits_high by lia. apply andb_false_r.
Qed.

(** ** Arrays indexed by machine integers

    [l @@ i] reads an array at a [Z] index; an index outside of it has no
    value.  [upd l i x] writes it, and is only used after a bounds check. *)
Definition getZ {A} (l : list A) (i : Z) : option A :=
  if i <? 0 then None else l !! Z.to_nat i.

Definition upd {A} (l : list A) (i : Z) (x : A) : list A := <[Z.to_nat i := x]> l.

Definition lenZ {A} (l : list A) : Z := Z.of_nat (length l).

Declare Scope aec_scope.
Delimit Scope aec_scope with aec.
Notation "l @@ i" := (getZ l i) (at level 20) : aec_scope.
Open Scope aec_scope.

Lemma lenZ_nonneg {A} (l : list A) : 0 <= lenZ l.
Proof. unfold lenZ. lia. Qed.

Lemma getZ_Some_range {A} (l : list A) i x : l @@ i = Some x -> 0 <= i < lenZ l.
Proof.
  unfold getZ, lenZ. destruct (Z.ltb_spec i 0); [done|].
  intros Hl%lookup_lt_Some. lia.
Qed.

Lemma getZ_lookup {A} (l : list A) i : 0 <= i < lenZ l -> exists x, l @@ i = Some x.
Proof.
  unfold getZ, lenZ. intros Hi. destruct (Z.ltb_spec i 0); [lia|].
  destruct (lookup_lt_is_Some_2 l (Z.to_nat i)) as [x Hx]; [lia|]. by exists x.
Qed.

Lemma getZ_nat {A} (l : list A) (i : nat) : l @@ (Z.of_nat i) = l !! i.
Proof. unfold getZ. destruct (Z.ltb_spec (Z.of_nat i) 0); [lia|]. by rewrite Nat2Z.id. Qed.

Lemma getZ_Forall {A} (P : A -> Prop) (l : list A) i x : Forall P l -> l @@ i = Some x -> P x.
Proof.
  unfold getZ. destruct (i <? 0); [done|]. intros Hall Hl. by eapply Forall_lookup_1.
Qed.

Lemma lenZ_upd {A} (l : list A) i x : lenZ (upd l i x) = lenZ l.
Proof. unfold lenZ, upd. by rewrite length_insert. Qed.

Lemma getZ_upd_eq {A} (l : list A) i x : 0 <= i < lenZ l -> upd l i x @@ i = Some x.
Proof.
  unfold getZ, upd, lenZ. intros. destruct (Z.ltb_spec i 0); [lia|].
  apply list_lookup_insert_eq. lia.
Qed.

Lemma getZ_upd_ne {A} (l : list A) i j x : 0 <= i -> i <> j -> upd l i x @@ j = l @@ j.
Proof.
  unfold getZ, upd. intros. destruct (Z.ltb_spec j 0); [done|].
  apply list_lookup_insert_ne. lia.
Qed.

Lemma Forall_upd {A} (P : A -> Prop) (l : list A) i x : Forall P l -> P x -> Forall P (upd l i x).
Proof. intros. by apply Forall_insert. Qed.

(** ** Byte buffers

    [slice off n l] is the bytes [l[off .. off+n)]; it has no value when the
    range leaves the buffer.  A range of size zero touches no byte. *)
Definition slice (off n : Z) (l : list Z) : option (list Z) :=
  if n =? 0 then Some []
  else if (0 <=? off) && (0 <=? n) && (off + n <=? lenZ l)
       then Some (take (Z.to_nat n) (drop (Z.to_nat off) l)) else None.

(** [blit off d l] overwrites [l[off .. off+|d|)] with [d] ([memcpy],
    [memset], [std::fill_n]). *)
Definition blit (off : Z) (d l : list Z) : option (list Z) :=
  if lenZ d =? 0 then Some l
  else if (0 <=? off) && (off + lenZ d <=? lenZ l)
       then Some (take (Z.to_nat off) l ++ d ++ drop (Z.to_nat off + length d) l) else None.

Lemma slice_Some off n l :
  0 <= off -> 0 <= n -> (n = 0 \/ off + n <= lenZ l) -> exists d, slice off n l = Some d /\ lenZ d = n.
Proof.
  intros Ho Hn Hr. unfold slice. destruct (Z.eqb_spec n 0) as [->|]; [by exists []|].
  destruct (Z.leb_spec 0 off), (Z.leb_spec 0 n), (Z.leb_spec (off + n) (lenZ l)); simpl; try lia.
  eexists; split; [done|]. unfold lenZ in *. rewrite length_take, length_drop. lia.
Qed.

Lemma slice_Forall P off n l d : Forall P l -> slice off n l = Some d -> Forall P d.
Proof.
  unfold slice. intros Hl. repeat case_match; intros [= <-]; auto using Forall_take, Forall_drop.
Qed.

Lemma slice_length off n l d : slice off n l = Some d -> lenZ d = n.
Proof.
  unfold slice, lenZ. destruct (Z.eqb_spec n 0); [by intros [= <-]|].
  destruct (Z.leb_spec 0 off), (Z.leb_spec 0 n), (Z.leb_spec (off + n) (Z.of_nat (length l)));
    simpl; try done.
  intros [= <-]. rewrite length_take, length_drop. lia.
Qed.

Lemma blit_Some off d l :
  0 <= off -> (lenZ d = 0 \/ off + lenZ d <= lenZ l) ->
  exists l', blit off d l = Some l' /\ lenZ l' = lenZ l.
Proof.
  intros Ho Hr. unfold blit. destruct (Z.eqb_spec (lenZ d) 0); [by exists l|].
  destruct (Z.leb_spec 0 off), (Z.leb_spec (off + lenZ d) (lenZ l)); simpl; try lia.
  eexists; split; [done|]. unfold lenZ in *.
  rewrite !length_app, length_take, length_drop. lia.
Qed.

Lemma blit_Forall P off d l l' : Forall P l -> Forall P d -> blit off d l = Some l' -> Forall P l'.
Proof.
  unfold blit. intros Hl Hd. repeat case_match; intros [= <-]; [done|].
  rewrite !Forall_app. auto using Forall_take, Forall_drop.
Qed.

Lemma blit_length off d l l' : blit off d l = Some l' -> lenZ l' = lenZ l.
Proof.
  unfold blit, lenZ. destruct (Z.eqb_spec (Z.of_nat (length d)) 0); [by intros [= <-]|].
  destruct (Z.leb_spec 0 off), (Z.leb_spec (off + Z.of_nat (length d)) (Z.of_nat (length l)));
    simpl; try done.
  intros [= <-]. rewrite !length_app, length_take, length_drop. lia.
Qed.

(** What was written is what is read back. *)
Lemma slice_blit off d l l' : lenZ d <> 0 -> blit off d l = Some l' -> slice off (lenZ d) l' = Some d.
Proof.
  intros Hd Hb. pose proof (blit_length _ _ _ _ Hb) as Hlen. revert Hb.
  unfold blit, slice. destruct (Z.eqb_spec (lenZ d) 0); [done|].
  destruct (Z.leb_spec 0 off), (Z.leb_spec (off + lenZ d) (lenZ l)); simpl; try done.
  intros [= <-]. pose proof (lenZ_nonneg d).
  destruct (Z.leb_spec 0 (lenZ d)); [|lia].
  rewrite Hlen. destruct (Z.leb_spec (off + lenZ d) (lenZ l)); [|lia]. simpl. f_equal.
  unfold lenZ in *. rewrite Nat2Z.id.
  rewrite drop_app_length'; [|rewrite length_take; lia]. by rewrite take_app_length.
Qed.

Lemma blit_eq off d l :
  0 <= off -> off + lenZ d <= lenZ l ->
  blit off d l = Some (take (Z.to_nat off) l ++ d ++ drop (Z.to_nat off + length d) l).
Proof.
  intros Ho Hr. unfold blit. destruct (Z.eqb_spec (lenZ d) 0) as [He|].
  - assert (d = []) as -> by (destruct d; [done|]; unfold lenZ in He; cbn in He; lia).
    cbn [length app]. by rewrite Nat.add_0_r, take_drop.
  - destruct (Z.leb_spec 0 off), (Z.leb_spec (off + lenZ d) (lenZ l)); done || lia.
Qed.

(** Writing two adjacent pieces is writing their concatenation. *)
Lemma blit_app off a b l m :
  0 <= off -> off + lenZ a + lenZ b <= lenZ l ->
  blit off a l = Some m -> blit (off + lenZ a) b m = blit off (a ++ b) l.
Proof.
  intros Ho Hr Hm. pose proof (blit_length _ _ _ _ Hm) as Hlen.
  pose proof (lenZ_nonneg a). pose proof (lenZ_nonneg b).
  assert (lenZ (a ++ b) = lenZ a + lenZ b) as Hab by (unfold lenZ; rewrite length_app; lia).
  rewrite blit_eq in Hm |- * by lia. rewrite blit_eq by lia. f_equal. injection Hm as <-.
  unfold lenZ in *. rewrite length_app. replace (Z.to_nat (off + Z.of_nat (length a))) with (Z.to_nat off + length a)%nat by lia.
  assert (length (take (Z.to_nat off) l) = Z.to_nat off) as Ht by (rewrite length_take; lia).
  rewrite take_app_ge, Ht by lia. replace (Z.to_nat off + length a - Z.to_nat off)%nat with (length a) by lia.
  rewrite take_app_length, <- !app_assoc. do 3 f_equal.
  rewrite drop_app_ge by (rewrite Ht; lia). rewrite Ht, drop_app_ge by lia. rewrite drop_drop. f_equal. lia.
Qed.

(** [resize n l]: [std::vector::resize] to a larger size, zero filled. *)
Definition resize (n : Z) (l : list Z) : list Z := l ++ replicate (Z.to_nat n - length l) 0.

Lemma resize_length n l : lenZ l <= n -> lenZ (resize n l) = n.
Proof. unfold lenZ, resize. intros. rewrite length_app, length_replicate. lia. Qed.

Lemma resize_Forall (P : Z -> Prop) n l : P 0 -> Forall P l -> Forall P (resize n l).
Proof. intros. unfold resize. apply Forall_app; split; [done|]. by apply Forall_replicate. Qed.

Lemma resize_id l : resize (lenZ l) l = l.
Proof. unfold resize, lenZ. rewrite Nat2Z.id, Nat.sub_diag. apply app_nil_r. Qed.

(** ** Automation

    [aec] is the hint database of the development: the facts about ranges,
    lengths and state invariants that close the routine goals. *)
Create HintDb aec.
#[export] Hint Resolve u64_range u8_range u32_range lenZ_nonneg : aec.
#[export] Hint Resolve Forall_upd resize_Forall : aec.


(** Split a boolean guard of the code into the proposition it decides. *)
Ltac zguard :=
  repeat match goal with
  | H : context [?a <? ?b] |- _ => destruct (Z.ltb_spec a b)
  | H : context [?a <=? ?b] |- _ => destruct (Z.leb_spec a b)
  | H : context [?a =? ?b] |- _ => destruct (Z.eqb_spec a b)
  | |- context [?a <? ?b] => destruct (Z.ltb_spec a b)
  | |- context [?a <=? ?b] => destruct (Z.leb_spec a b)
  | |- context [?a =? ?b] => destruct (Z.eqb_spec a b)
  end.

(** ** Unordered containers

    The order in which the standard library iterates over an unordered container
    is some order; nothing that is proved depends on which. *)

(** The order in which an [unordered_map] is iterated: some order. *)
Class UnorderedMaps := {
  iterate : forall {A : Type}, gmap Z A -> list (Z * A);
  iterate_perm : forall {A : Type} (m : gmap Z A), iterate m ≡ₚ map_to_list m
}.
