(* ===== verification/Words.v ===== *)
(** * 256-bit words (libdevcore/Common.h, CommonData.h, FixedHash.h, libevm)

    The numeric types of the client are boost [cpp_int]s.  [u256] and [u512]
    wrap modulo [2^256] and [2^512]; [s256] and [s512] are sign and magnitude
    with the magnitude wrapping.  This file holds the truncations, the two's
    complement conversions, the big-endian codecs and the arithmetic helpers
    of the interpreter, each with its mathematical meaning. *)
From stdpp Require Import base list.
From Stdlib Require Import ZArith Lia Zpow_facts.
From S2P Require Import Prelude.

Definition u256 (z : Z) : Z := z mod 2 ^ 256.
Definition u512 (z : Z) : Z := z mod 2 ^ 512.
Definition s256 (z : Z) : Z := Z.sgn z * (Z.abs z mod 2 ^ 256).
Definition s512 (z : Z) : Z := Z.sgn z * (Z.abs z mod 2 ^ 512).

(** [dev::u2s]: the two's complement reading of a word. *)
Definition u2s (u : Z) : Z :=
  let c_end := Z.shiftl 1 256 in
  if Z.testbit u 255 then s256 (- (c_end - u)) else s256 u.

(** [dev::s2u]: the two's complement word of a signed number. *)
Definition s2u (u : Z) : Z :=
  let c_end := Z.shiftl 1 256 in
  if 0 <=? u then u256 u else u256 (c_end + u).

(** [dev::toBigEndian]: the low [n] bytes of [val], most significant first.
    The loop fills the buffer from its end. *)
Fixpoint toBigEndian_loop (i : nat) (val : Z) (o_out : list Z) : list Z :=
  match i with
  | O => o_out
  | S i' => toBigEndian_loop i' (Z.shiftr val 8) (u8 (Z.land val 255) :: o_out)
  end.
Definition toBigEndian (n : nat) (val : Z) : list Z := toBigEndian_loop n val [].

(** [dev::fromBigEndian<u256>]. *)
Definition fromBigEndian (bytes : list Z) : Z :=
  foldl (fun ret i => u256 (Z.lor (Z.shiftl ret 8) i)) 0 bytes.

(** The bytes of an address and of a hash, which are carried as numbers. *)
Definition addr_bytes (a : Z) : list Z := toBigEndian 20 a.
Definition h256_bytes (h : Z) : list Z := toBigEndian 32 h.

(** [FixedHash::firstBitSet]: the index of the first bit set, counting from
    the most significant one, or the size in bits.  The inner loop runs at most
    eight times on a non-zero byte. *)
Fixpoint firstBitSet_byte (fuel : nat) (d ret : Z) : Z :=
  match fuel with
  | O => ret
  | S f => if negb (Z.land d 128 =? 0) then ret else firstBitSet_byte f (u8 (Z.shiftl d 1)) (ret + 1)
  end.
Fixpoint firstBitSet_loop (data : list Z) (ret : Z) : Z :=
  match data with
  | [] => ret
  | d :: ds => if negb (d =? 0) then firstBitSet_byte 8 d ret else firstBitSet_loop ds (ret + 8)
  end.
Definition firstBitSet (data : list Z) : Z := firstBitSet_loop data 0.

(** [VM::exp256]: exponentiation by squaring.  The exponent has 256 bits, so
    the loop ends within 256 rounds. *)
Fixpoint exp256_loop (fuel : nat) (base exponent result : Z) : Z :=
  match fuel with
  | O => result
  | S f =>
      if exponent =? 0 then result
      else
        let result := if negb (Z.land (u64 exponent) 1 =? 0) then u256 (result * base) else result in
        exp256_loop f (u256 (base * base)) (Z.shiftr exponent 1) result
  end.
Definition exp256 (base exponent : Z) : Z := exp256_loop 256 base exponent 1.

(** [divWorkaround] and [modWorkaround] divide in [s512]; the template
    argument is the type the result is converted back to. *)
Definition divWorkaround (S : Z -> Z) (a b : Z) : Z := S (Z.quot (s512 a) (s512 b)).
Definition modWorkaround (S : Z -> Z) (a b : Z) : Z := S (Z.rem (s512 a) (s512 b)).

(** [asAddress]: the low 160 bits of a stack item; [fromAddress] is its
    inverse on addresses. *)
Definition asAddress (item : Z) : Z := item mod 2 ^ 160.
Definition fromAddress (a : Z) : Z := a mod 2 ^ 160.

(** ** Ranges *)

Lemma u256_range z : is_u256 (u256 z).
Proof. apply Z.mod_pos_bound. lia. Qed.

Lemma u256_small z : is_u256 z -> u256 z = z.
Proof. apply Z.mod_small. Qed.

Lemma u512_small z : 0 <= z < 2 ^ 512 -> u512 z = z.
Proof. apply Z.mod_small. Qed.

Lemma s2u_range z : is_u256 (s2u z).
Proof. unfold s2u. case_match; apply u256_range. Qed.

Lemma fromAddress_range a : is_u256 (fromAddress a).
Proof. unfold fromAddress. pose proof (Z.mod_pos_bound a (2 ^ 160)). lia. Qed.

Lemma fromBigEndian_range bs : is_u256 (fromBigEndian bs).
Proof.
  enough (forall r, is_u256 r -> is_u256 (foldl (fun ret i => u256 (Z.lor (Z.shiftl ret 8) i)) r bs))
    as H by (apply H; lia).
  induction bs as [|b bs IH]; intros r Hr; [done|]. cbn [foldl]. apply IH, u256_range.
Qed.

Lemma exp256_range b e : is_u256 (exp256 b e).
Proof.
  enough (forall n r b e, is_u256 r -> is_u256 (exp256_loop n b e r)) as H by (apply H; lia).
  clear b e. intros n. induction n as [|n IH]; intros r b e Hr; [done|]. cbn [exp256_loop].
  case_match; [done|]. apply IH. case_match; [apply u256_range|done].
Qed.

(** Bit operations stay within the width. *)
Lemma bits_bound n x : 0 <= n -> 0 <= x -> (forall i, n <= i -> Z.testbit x i = false) -> x < 2 ^ n.
Proof.
  intros Hn Hx Hb. destruct (Z.eq_dec x 0) as [->|]; [lia|].
  apply Z.log2_lt_pow2; [lia|]. destruct (Z.lt_ge_cases (Z.log2 x) n) as [|Hge]; [done|].
  specialize (Hb _ Hge). rewrite Z.bit_log2 in Hb by lia. done.
Qed.

Lemma testbit_high n x i : 0 <= n -> 0 <= x < 2 ^ n -> n <= i -> Z.testbit x i = false.
Proof. intros. rewrite <- (Z.mod_small x (2 ^ n)) by lia. apply Z.mod_pow2_bits_high. lia. Qed.

Lemma land_u256 a b : is_u256 a -> is_u256 b -> is_u256 (Z.land a b).
Proof.
  intros Ha Hb. split; [apply Z.land_nonneg; lia|]. apply bits_bound; [lia|apply Z.land_nonneg; lia|].
  intros i Hi. rewrite Z.land_spec, (testbit_high 256 a) by lia. done.
Qed.

Lemma lor_u256 a b : is_u256 a -> is_u256 b -> is_u256 (Z.lor a b).
Proof.
  intros Ha Hb. split; [apply Z.lor_nonneg; lia|]. apply bits_bound; [lia|apply Z.lor_nonneg; lia|].
  intros i Hi. by rewrite Z.lor_spec, (testbit_high 256 a), (testbit_high 256 b) by lia.
Qed.

Lemma lxor_u256 a b : is_u256 a -> is_u256 b -> is_u256 (Z.lxor a b).
Proof.
  intros Ha Hb. split; [apply Z.lxor_nonneg; lia|]. apply bits_bound; [lia|apply Z.lxor_nonneg; lia|].
  intros i Hi. by rewrite Z.lxor_spec, (testbit_high 256 a), (testbit_high 256 b) by lia.
Qed.

Lemma shiftr_u256 a n : is_u256 a -> 0 <= n -> is_u256 (Z.shiftr a n).
Proof.
  intros Ha Hn. rewrite Z.shiftr_div_pow2 by done. split; [apply Z.div_pos; lia|].
  apply Z.div_lt_upper_bound; [lia|]. assert (0 < 2 ^ n) by (apply Z.pow_pos_nonneg; lia). nia.
Qed.

Lemma zero_u256 : is_u256 0. Proof. lia. Qed.
Lemma one_u256 : is_u256 1. Proof. lia. Qed.
Lemma byte_u256 b : is_byte b -> is_u256 b. Proof. lia. Qed.
Lemma u64_u256 z : is_u256 (u64 z). Proof. pose proof (u64_range z). lia. Qed.
Lemma if_u256 (b : bool) x y : is_u256 x -> is_u256 y -> is_u256 (if b then x else y).
Proof. by destruct b. Qed.
Lemma divWorkaround_range a b : is_u256 (divWorkaround u256 a b).
Proof. apply u256_range. Qed.
Lemma modWorkaround_range a b : is_u256 (modWorkaround u256 a b).
Proof. apply u256_range. Qed.
Lemma u32_nonneg z : 0 <= u32 z. Proof. apply u32_range. Qed.

#[export] Hint Resolve land_u256 lor_u256 lxor_u256 shiftr_u256 zero_u256 one_u256 byte_u256 u64_u256
  if_u256 divWorkaround_range modWorkaround_range u32_nonneg : aec.
#[export] Hint Resolve u256_range s2u_range fromAddress_range fromBigEndian_range exp256_range : aec.

(** ** Two's complement *)

(** The signed value of a word, as mathematics writes it. *)
Definition signed (w : Z) : Z := if w <? 2 ^ 255 then w else w - 2 ^ 256.

Lemma testbit_255 u : is_u256 u -> Z.testbit u 255 = (2 ^ 255 <=? u).
Proof.
  intros Hu. rewrite Z.testbit_eqb by lia. destruct (Z.leb_spec (2 ^ 255) u).
  - assert (u / 2 ^ 255 = 1) as -> by (symmetry; apply (Z.div_unique u _ 1 (u - 2 ^ 255)); lia). done.
  - rewrite Z.div_small by lia. done.
Qed.

Lemma s256_id z : - 2 ^ 256 < z < 2 ^ 256 -> s256 z = z.
Proof. intros. unfold s256. rewrite Z.mod_small by lia. lia. Qed.

Lemma s512_id z : - 2 ^ 512 < z < 2 ^ 512 -> s512 z = z.
Proof. intros. unfold s512. rewrite Z.mod_small by lia. lia. Qed.

Lemma u2s_signed u : is_u256 u -> u2s u = signed u.
Proof.
  intros. unfold u2s, signed. rewrite testbit_255 by done.
  change (Z.shiftl 1 256) with (2 ^ 256). zguard; try lia; rewrite s256_id; lia.
Qed.

Lemma signed_range u : is_u256 u -> - 2 ^ 255 <= signed u < 2 ^ 255.
Proof. unfold signed. intros. zguard; lia. Qed.

Lemma s2u_mod z : - 2 ^ 256 <= z -> s2u z = z mod 2 ^ 256.
Proof.
  intros. unfold s2u, u256. change (Z.shiftl 1 256) with (2 ^ 256). zguard; [done|].
  rewrite <- (Z.mod_add z 1) by lia. f_equal. lia.
Qed.

Lemma s2u_u2s u : is_u256 u -> s2u (u2s u) = u.
Proof.
  intros Hu. rewrite u2s_signed by done. pose proof (signed_range u Hu).
  rewrite s2u_mod by lia. unfold signed. zguard; [by apply Z.mod_small|].
  rewrite <- (Z.mod_add _ 1), Z.mod_small; lia.
Qed.

(** ** Division *)

Lemma divWorkaround_u256 a b : is_u256 a -> is_u256 b -> b <> 0 -> divWorkaround u256 a b = a / b.
Proof.
  intros. unfold divWorkaround. rewrite !s512_id by lia. rewrite Z.quot_div_nonneg by lia.
  apply u256_small. split; [apply Z.div_pos; lia|]. apply Z.div_lt_upper_bound; nia.
Qed.

Lemma modWorkaround_u256 a b : is_u256 a -> is_u256 b -> b <> 0 -> modWorkaround u256 a b = a mod b.
Proof.
  intros. unfold modWorkaround. rewrite !s512_id by lia. rewrite Z.rem_mod_nonneg by lia.
  apply u256_small. pose proof (Z.mod_pos_bound a b). lia.
Qed.

Lemma quot_abs_le a b : b <> 0 -> Z.abs (Z.quot a b) <= Z.abs a.
Proof.
  intros. rewrite <- Z.quot_abs by done. rewrite Z.quot_div_nonneg by lia.
  apply Z.div_le_upper_bound; nia.
Qed.

Lemma divWorkaround_s256 a b :
  - 2 ^ 255 <= a < 2 ^ 255 -> - 2 ^ 255 <= b < 2 ^ 255 -> b <> 0 ->
  divWorkaround s256 a b = Z.quot a b.
Proof.
  intros. unfold divWorkaround. rewrite !s512_id by lia. apply s256_id.
  pose proof (quot_abs_le a b). lia.
Qed.

Lemma modWorkaround_s256 a b :
  - 2 ^ 255 <= a < 2 ^ 255 -> - 2 ^ 255 <= b < 2 ^ 255 -> b <> 0 ->
  modWorkaround s256 a b = Z.rem a b.
Proof.
  intros. unfold modWorkaround. rewrite !s512_id by lia. apply s256_id.
  pose proof (Z.rem_bound_abs a b). lia.
Qed.

(** ** Exponentiation *)

Lemma u64_odd e : is_u256 e -> negb (Z.land (u64 e) 1 =? 0) = Z.odd e.
Proof.
  intros. change 1 with (Z.ones 1). rewrite Z.land_ones by lia. unfold u64.
  change (2 ^ 1) with 2. rewrite Zmod_odd.
  assert (Z.odd (e mod 2 ^ 64) = Z.odd e) as ->.
  { rewrite <- !Z.bit0_odd. apply Z.mod_pow2_bits_low. lia. }
  by destruct (Z.odd e).
Qed.

Lemma exp256_loop_spec (n : nat) b e r :
  0 <= e < 2 ^ Z.of_nat n -> (n <= 256)%nat ->
  exp256_loop n b e r mod 2 ^ 256 = (r * b ^ e) mod 2 ^ 256.
Proof.
  revert b e r. induction n as [|n IH]; intros b e r He Hn.
  { assert (e = 0) as -> by (change (2 ^ Z.of_nat 0) with 1 in He; lia).
    cbn [exp256_loop]. by rewrite Z.pow_0_r, Z.mul_1_r. }
  cbn [exp256_loop]. destruct (Z.eqb_spec e 0) as [->|Hne]; [by rewrite Z.pow_0_r, Z.mul_1_r|].
  assert (0 <= e < 2 ^ 256) as Hr.
  { split; [lia|]. eapply Z.lt_le_trans; [apply He|]. apply Z.pow_le_mono_r; lia. }
  rewrite u64_odd by done. rewrite Z.shiftr_div_pow2 by lia. change (2 ^ 1) with 2.
  assert (0 <= e / 2) by (apply Z.div_pos; lia).
  rewrite IH; [| |lia].
  - pose proof (Z.div_mod e 2 ltac:(lia)) as Hdm. rewrite Zmod_odd in Hdm.
    set (q := e / 2) in *. unfold u256. rewrite <- Z.mul_mod_idemp_r by lia.
    rewrite <- Zpower_mod by lia. rewrite Z.mul_mod_idemp_r by lia.
    rewrite Z.pow_mul_l. rewrite <- Z.pow_add_r by lia.
    destruct (Z.odd e); [rewrite Z.mul_mod_idemp_l by lia|]; f_equal; rewrite Hdm.
    + replace (2 * q + 1) with (Z.succ (q + q)) by lia. rewrite Z.pow_succ_r by lia. ring.
    + f_equal. f_equal. lia.
  - split; [done|]. apply Z.div_lt_upper_bound; [lia|].
    rewrite Nat2Z.inj_succ, Z.pow_succ_r in He by lia. lia.
Qed.

(** The loop of [VM::exp256] computes the power modulo [2^256]. *)
Lemma exp256_spec b e : is_u256 e -> exp256 b e = b ^ e mod 2 ^ 256.
Proof.
  intros He. rewrite <- (u256_small (exp256 b e)) by apply exp256_range.
  unfold u256, exp256. rewrite exp256_loop_spec by (change (Z.of_nat 256) with 256; lia).
  f_equal. ring.
Qed.

(** ** Big-endian codecs *)

Lemma toBigEndian_loop_app n v acc : toBigEndian_loop n v acc = toBigEndian_loop n v [] ++ acc.
Proof.
  revert v acc. induction n as [|n IH]; intros v acc; [done|]. cbn [toBigEndian_loop].
  rewrite IH, (IH _ [_]). by rewrite <- app_assoc.
Qed.

Lemma toBigEndian_S n v : toBigEndian (S n) v = toBigEndian n (Z.shiftr v 8) ++ [u8 (Z.land v 255)].
Proof. unfold toBigEndian. cbn [toBigEndian_loop]. apply toBigEndian_loop_app. Qed.

Lemma toBigEndian_length n v : length (toBigEndian n v) = n.
Proof.
  revert v. induction n as [|n IH]; intros v; [done|].
  rewrite toBigEndian_S, length_app, IH. cbn. lia.
Qed.

Lemma toBigEndian_bytes n v : Forall (fun b => is_byte b) (toBigEndian n v).
Proof.
  revert v. induction n as [|n IH]; intros v; [constructor|].
  rewrite toBigEndian_S. apply Forall_app. split; [done|]. constructor; [apply u8_range|done].
Qed.

(** The value of a byte string, most significant byte first. *)
Definition be_val (bs : list Z) : Z := foldl (fun r b => r * 256 + b) 0 bs.

Lemma be_val_snoc bs b : be_val (bs ++ [b]) = be_val bs * 256 + b.
Proof. unfold be_val. by rewrite foldl_app. Qed.

Lemma be_val_toBigEndian n v : 0 <= v -> be_val (toBigEndian n v) = v mod 2 ^ (8 * Z.of_nat n).
Proof.
  revert v. induction n as [|n IH]; intros v Hv; [by rewrite Z.mod_1_r|].
  rewrite toBigEndian_S, be_val_snoc, IH by (apply Z.shiftr_nonneg; lia).
  rewrite Z.shiftr_div_pow2 by lia. change 255 with (Z.ones 8). rewrite Z.land_ones by lia.
  unfold u8. rewrite Z.mod_mod by lia. change (2 ^ 8) with 256.
  replace (8 * Z.of_nat (S n)) with (8 + 8 * Z.of_nat n) by lia.
  rewrite Z.pow_add_r by lia. change (2 ^ 8) with 256. rewrite Z.rem_mul_r by lia. ring.
Qed.

Lemma be_val_range bs : Forall (fun b => is_byte b) bs -> 0 <= be_val bs < 2 ^ (8 * lenZ bs).
Proof.
  induction bs as [|b bs IH] using rev_ind; intros Hf; [by unfold lenZ|].
  apply Forall_app in Hf as [Hbs Hb]. apply Forall_cons_1 in Hb as [Hb _]. specialize (IH Hbs).
  rewrite be_val_snoc. unfold lenZ in *. rewrite length_app. cbn [length].
  replace (8 * Z.of_nat (length bs + 1)) with (8 * Z.of_nat (length bs) + 8) by lia.
  rewrite Z.pow_add_r by lia. change (2 ^ 8) with 256. lia.
Qed.

Lemma fromBigEndian_spec bs : Forall (fun b => is_byte b) bs -> fromBigEndian bs = be_val bs mod 2 ^ 256.
Proof.
  intros Hf. unfold fromBigEndian, be_val.
  enough (forall r r', r = r' mod 2 ^ 256 ->
    foldl (fun ret i => u256 (Z.lor (Z.shiftl ret 8) i)) r bs =
    foldl (fun r b => r * 256 + b) r' bs mod 2 ^ 256) as H by (by apply H).
  induction Hf as [|b bs Hb Hf IH]; intros r r' Hr; [done|]. cbn [foldl]. apply IH.
  unfold u256. rewrite lor_shiftl_add by (subst; lia). change (2 ^ 8) with 256. rewrite Hr.
  by rewrite <- Z.add_mod_idemp_l, Z.mul_mod_idemp_l, Z.add_mod_idemp_l by lia.
Qed.

Lemma fromBigEndian_toBigEndian v : is_u256 v -> fromBigEndian (toBigEndian 32 v) = v.
Proof.
  intros. rewrite fromBigEndian_spec by apply toBigEndian_bytes.
  rewrite be_val_toBigEndian by lia. rewrite Z.mod_mod by lia. by apply Z.mod_small.
Qed.

(** ** The first bit set *)

(** The number of bytes of the shortest big-endian form of [e]. *)
Definition byte_size (e : Z) : Z := if e =? 0 then 0 else Z.log2 e / 8 + 1.

Lemma firstBitSet_byte_add f d r : firstBitSet_byte f d r = r + firstBitSet_byte f d 0.
Proof.
  revert d r. induction f as [|f IH]; intros d r; cbn [firstBitSet_byte]; [lia|].
  case_match; [lia|]. rewrite IH, (IH _ (0 + 1)). lia.
Qed.

Lemma firstBitSet_byte_spec d r : 0 < d < 256 -> firstBitSet_byte 8 d r = r + (7 - Z.log2 d).
Proof.
  intros Hd. rewrite firstBitSet_byte_add. f_equal.
  assert (forallb (fun d => firstBitSet_byte 8 d 0 =? 7 - Z.log2 d) (map Z.of_nat (seq 1 255)) = true)
    as Hall by (vm_compute; done).
  rewrite forallb_forall in Hall. apply Z.eqb_eq, Hall, in_map_iff.
  exists (Z.to_nat d). split; [lia|]. apply in_seq. lia.
Qed.

Lemma firstBitSet_loop_spec bs r : Forall (fun b => is_byte b) bs ->
  firstBitSet_loop bs r =
    r + (if be_val bs =? 0 then 8 * lenZ bs else 8 * lenZ bs - 1 - Z.log2 (be_val bs)).
Proof.
  revert r. induction bs as [|b bs IH]; intros r Hf; [by unfold lenZ; cbn; rewrite Z.add_0_r|].
  apply Forall_cons_1 in Hf as [Hb Hf]. cbn [firstBitSet_loop].
  assert (be_val (b :: bs) = b * 2 ^ (8 * lenZ bs) + be_val bs) as ->.
  { clear. induction bs as [|c bs IH] using rev_ind; [unfold lenZ; cbn; lia|].
    change (b :: bs ++ [c]) with ((b :: bs) ++ [c]). rewrite !be_val_snoc, IH. unfold lenZ.
    rewrite length_app. cbn [length]. replace (8 * Z.of_nat (length bs + 1)) with (8 * Z.of_nat (length bs) + 8) by lia.
    rewrite Z.pow_add_r by lia. change (2 ^ 8) with 256. ring. }
  pose proof (be_val_range bs Hf) as Hr. assert (lenZ (b :: bs) = lenZ bs + 1) as -> by (unfold lenZ; cbn; lia).
  destruct (Z.eqb_spec b 0) as [->|Hb0]; cbn [negb].
  - rewrite IH by done. rewrite Z.mul_0_l, Z.add_0_l. zguard; lia.
  - rewrite firstBitSet_byte_spec by lia. pose proof (lenZ_nonneg bs).
    destruct (Z.eqb_spec (b * 2 ^ (8 * lenZ bs) + be_val bs) 0); [nia|].
    enough (Z.log2 (b * 2 ^ (8 * lenZ bs) + be_val bs) = Z.log2 b + 8 * lenZ bs) by lia.
    apply Z.log2_unique; [pose proof (Z.log2_nonneg b); lia|].
    pose proof (Z.log2_spec b ltac:(lia)) as [Hl1 Hl2].
    rewrite Z.pow_succ_r in * by (pose proof (Z.log2_nonneg b); lia).
    rewrite Z.pow_add_r by (pose proof (Z.log2_nonneg b); lia). nia.
Qed.

(** [32 - firstBitSet / 8] is the size of a word in bytes: the quantity the
    gas of [EXP] is proportional to. *)
Lemma firstBitSet_byte_size e :
  is_u256 e -> 32 - firstBitSet (toBigEndian 32 e) / 8 = byte_size e.
Proof.
  intros He. unfold firstBitSet, byte_size. rewrite firstBitSet_loop_spec by apply toBigEndian_bytes.
  rewrite be_val_toBigEndian by lia. rewrite Z.mod_small by (change (8 * Z.of_nat 32) with 256; lia).
  unfold lenZ. rewrite toBigEndian_length. change (8 * Z.of_nat 32) with 256.
  destruct (Z.eqb_spec e 0) as [->|]; [done|]. pose proof (Z.log2_nonneg e).
  assert (Z.log2 e < 256) by (apply Z.log2_lt_pow2; lia).
  Z.to_euclidean_division_equations. lia.
Qed.

Lemma byte_size_range e : is_u256 e -> 0 <= byte_size e <= 32.
Proof.
  intros He. unfold byte_size. destruct (Z.eqb_spec e 0); [lia|]. pose proof (Z.log2_nonneg e).
  assert (Z.log2 e < 256) by (apply Z.log2_lt_pow2; lia).
  assert (0 <= Z.log2 e / 8 < 32) by (split; [apply Z.div_pos|apply Z.div_lt_upper_bound]; lia). lia.
Qed.
