(* ===== verification/Instruction.v ===== *)
(** * The instruction set (libevm/Instruction.h, Instruction.cpp, VMConfig.h)

    The enumerators of [enum class Instruction: uint8_t] with their values, the
    table [c_instructionInfo] as [std::map] builds it, and the label table of
    the indirect-threaded dispatch.  An [Instruction] of the C++ code is any
    byte; [decode] is the enumerator a byte names, if it names one. *)
From stdpp Require Import base list strings.
From Stdlib Require Import ZArith Lia.
From S2P Require Import Prelude.

(** [enum class Instruction]. *)
Inductive Instruction : Set :=
  | STOP | ADD | MUL | SUB | DIV | SDIV | MOD | SMOD | ADDMOD | MULMOD | EXP | SIGNEXTEND | LT | GT
  | SLT | SGT | EQ | ISZERO | AND | OR | XOR | NOT | BYTE | SHL | SHR | SAR | SHA3 | ADDRESS
  | BALANCE | ORIGIN | CALLER | CALLVALUE | CALLDATALOAD | CALLDATASIZE | CALLDATACOPY | CODESIZE
  | CODECOPY | GASPRICE | EXTCODESIZE | EXTCODECOPY | RETURNDATASIZE | RETURNDATACOPY | BLOCKHASH
  | COINBASE | TIMESTAMP | NUMBER | DIFFICULTY | GASLIMIT | POP | MLOAD | MSTORE | MSTORE8 | SLOAD
  | SSTORE | JUMP | JUMPI | PC | MSIZE | GAS | JUMPDEST | PUSH1 | PUSH2 | PUSH3 | PUSH4 | PUSH5
  | PUSH6 | PUSH7 | PUSH8 | PUSH9 | PUSH10 | PUSH11 | PUSH12 | PUSH13 | PUSH14 | PUSH15 | PUSH16
  | PUSH17 | PUSH18 | PUSH19 | PUSH20 | PUSH21 | PUSH22 | PUSH23 | PUSH24 | PUSH25 | PUSH26
  | PUSH27 | PUSH28 | PUSH29 | PUSH30 | PUSH31 | PUSH32 | DUP1 | DUP2 | DUP3 | DUP4 | DUP5 | DUP6
  | DUP7 | DUP8 | DUP9 | DUP10 | DUP11 | DUP12 | DUP13 | DUP14 | DUP15 | DUP16 | SWAP1 | SWAP2
  | SWAP3 | SWAP4 | SWAP5 | SWAP6 | SWAP7 | SWAP8 | SWAP9 | SWAP10 | SWAP11 | SWAP12 | SWAP13
  | SWAP14 | SWAP15 | SWAP16 | LOG0 | LOG1 | LOG2 | LOG3 | LOG4 | PUSHC | JUMPC | JUMPCI | JUMPTO
  | JUMPIF | JUMPSUB | JUMPV | JUMPSUBV | BEGINSUB | BEGINDATA | RETURNSUB | PUTLOCAL | GETLOCAL
  | XADD | XMUL | XSUB | XDIV | XSDIV | XMOD | XSMOD | XLT | XGT | XSLT | XSGT | XEQ | XISZERO
  | XAND | XOOR | XXOR | XNOT | XSHL | XSHR | XSAR | XROL | XROR | XPUSH | XMLOAD | XMSTORE
  | XSLOAD | XSSTORE | XVTOWIDE | XWIDETOV | XGET | XPUT | XSWIZZLE | XSHUFFLE | CREATE | CALL
  | CALLCODE | RETURN | DELEGATECALL | STATICCALL | CREATE2 | REVERT | INVALID | SUICIDE.

(** The value of each enumerator. *)
Definition opcode (i : Instruction) : Z :=
  match i with
  | STOP => 0x00 | ADD => 0x01 | MUL => 0x02 | SUB => 0x03 | DIV => 0x04 | SDIV => 0x05
  | MOD => 0x06 | SMOD => 0x07 | ADDMOD => 0x08 | MULMOD => 0x09 | EXP => 0x0a | SIGNEXTEND => 0x0b
  | LT => 0x10 | GT => 0x11 | SLT => 0x12 | SGT => 0x13 | EQ => 0x14 | ISZERO => 0x15 | AND => 0x16
  | OR => 0x17 | XOR => 0x18 | NOT => 0x19 | BYTE => 0x1a | SHL => 0x1b | SHR => 0x1c | SAR => 0x1d
  | SHA3 => 0x20 | ADDRESS => 0x30 | BALANCE => 0x31 | ORIGIN => 0x32 | CALLER => 0x33
  | CALLVALUE => 0x34 | CALLDATALOAD => 0x35 | CALLDATASIZE => 0x36 | CALLDATACOPY => 0x37
  | CODESIZE => 0x38 | CODECOPY => 0x39 | GASPRICE => 0x3a | EXTCODESIZE => 0x3b
  | EXTCODECOPY => 0x3c | RETURNDATASIZE => 0x3d | RETURNDATACOPY => 0x3e | BLOCKHASH => 0x40
  | COINBASE => 0x41 | TIMESTAMP => 0x42 | NUMBER => 0x43 | DIFFICULTY => 0x44 | GASLIMIT => 0x45
  | POP => 0x50 | MLOAD => 0x51 | MSTORE => 0x52 | MSTORE8 => 0x53 | SLOAD => 0x54 | SSTORE => 0x55
  | JUMP => 0x56 | JUMPI => 0x57 | PC => 0x58 | MSIZE => 0x59 | GAS => 0x5a | JUMPDEST => 0x5b
  | PUSH1 => 0x60 | PUSH2 => 0x61 | PUSH3 => 0x62 | PUSH4 => 0x63 | PUSH5 => 0x64 | PUSH6 => 0x65
  | PUSH7 => 0x66 | PUSH8 => 0x67 | PUSH9 => 0x68 | PUSH10 => 0x69 | PUSH11 => 0x6a
  | PUSH12 => 0x6b | PUSH13 => 0x6c | PUSH14 => 0x6d | PUSH15 => 0x6e | PUSH16 => 0x6f
  | PUSH17 => 0x70 | PUSH18 => 0x71 | PUSH19 => 0x72 | PUSH20 => 0x73 | PUSH21 => 0x74
  | PUSH22 => 0x75 | PUSH23 => 0x76 | PUSH24 => 0x77 | PUSH25 => 0x78 | PUSH26 => 0x79
  | PUSH27 => 0x7a | PUSH28 => 0x7b | PUSH29 => 0x7c | PUSH30 => 0x7d | PUSH31 => 0x7e
  | PUSH32 => 0x7f | DUP1 => 0x80 | DUP2 => 0x81 | DUP3 => 0x82 | DUP4 => 0x83 | DUP5 => 0x84
  | DUP6 => 0x85 | DUP7 => 0x86 | DUP8 => 0x87 | DUP9 => 0x88 | DUP10 => 0x89 | DUP11 => 0x8a
  | DUP12 => 0x8b | DUP13 => 0x8c | DUP14 => 0x8d | DUP15 => 0x8e | DUP16 => 0x8f | SWAP1 => 0x90
  | SWAP2 => 0x91 | SWAP3 => 0x92 | SWAP4 => 0x93 | SWAP5 => 0x94 | SWAP6 => 0x95 | SWAP7 => 0x96
  | SWAP8 => 0x97 | SWAP9 => 0x98 | SWAP10 => 0x99 | SWAP11 => 0x9a | SWAP12 => 0x9b
  | SWAP13 => 0x9c | SWAP14 => 0x9d | SWAP15 => 0x9e | SWAP16 => 0x9f | LOG0 => 0xa0 | LOG1 => 0xa1
  | LOG2 => 0xa2 | LOG3 => 0xa3 | LOG4 => 0xa4 | PUSHC => 0xac | JUMPC => 0xad | JUMPCI => 0xae
  | JUMPTO => 0xb0 | JUMPIF => 0xb1 | JUMPSUB => 0xb2 | JUMPV => 0xb3 | JUMPSUBV => 0xb4
  | BEGINSUB => 0xb5 | BEGINDATA => 0xb6 | RETURNSUB => 0xb7 | PUTLOCAL => 0xb8 | GETLOCAL => 0xb9
  | XADD => 0xc1 | XMUL => 0xc2 | XSUB => 0xc3 | XDIV => 0xc4 | XSDIV => 0xc5 | XMOD => 0xc6
  | XSMOD => 0xc7 | XLT => 0xd0 | XGT => 0xd1 | XSLT => 0xd2 | XSGT => 0xd3 | XEQ => 0xd4
  | XISZERO => 0xd5 | XAND => 0xd6 | XOOR => 0xd7 | XXOR => 0xd8 | XNOT => 0xd9 | XSHL => 0xdb
  | XSHR => 0xdc | XSAR => 0xdd | XROL => 0xde | XROR => 0xdf | XPUSH => 0xe0 | XMLOAD => 0xe1
  | XMSTORE => 0xe2 | XSLOAD => 0xe4 | XSSTORE => 0xe5 | XVTOWIDE => 0xe6 | XWIDETOV => 0xe7
  | XGET => 0xe8 | XPUT => 0xe9 | XSWIZZLE => 0xea | XSHUFFLE => 0xeb | CREATE => 0xf0
  | CALL => 0xf1 | CALLCODE => 0xf2 | RETURN => 0xf3 | DELEGATECALL => 0xf4 | STATICCALL => 0xfa
  | CREATE2 => 0xfb | REVERT => 0xfd | INVALID => 0xfe | SUICIDE => 0xff
  end.

Definition enumerators : list Instruction :=
  [STOP; ADD; MUL; SUB; DIV; SDIV; MOD; SMOD; ADDMOD; MULMOD; EXP; SIGNEXTEND; LT; GT; SLT; SGT;
   EQ; ISZERO; AND; OR; XOR; NOT; BYTE; SHL; SHR; SAR; SHA3; ADDRESS; BALANCE; ORIGIN; CALLER;
   CALLVALUE; CALLDATALOAD; CALLDATASIZE; CALLDATACOPY; CODESIZE; CODECOPY; GASPRICE; EXTCODESIZE;
   EXTCODECOPY; RETURNDATASIZE; RETURNDATACOPY; BLOCKHASH; COINBASE; TIMESTAMP; NUMBER; DIFFICULTY;
   GASLIMIT; POP; MLOAD; MSTORE; MSTORE8; SLOAD; SSTORE; JUMP; JUMPI; PC; MSIZE; GAS; JUMPDEST;
   PUSH1; PUSH2; PUSH3; PUSH4; PUSH5; PUSH6; PUSH7; PUSH8; PUSH9; PUSH10; PUSH11; PUSH12; PUSH13;
   PUSH14; PUSH15; PUSH16; PUSH17; PUSH18; PUSH19; PUSH20; PUSH21; PUSH22; PUSH23; PUSH24; PUSH25;
   PUSH26; PUSH27; PUSH28; PUSH29; PUSH30; PUSH31; PUSH32; DUP1; DUP2; DUP3; DUP4; DUP5; DUP6;
   DUP7; DUP8; DUP9; DUP10; DUP11; DUP12; DUP13; DUP14; DUP15; DUP16; SWAP1; SWAP2; SWAP3; SWAP4;
   SWAP5; SWAP6; SWAP7; SWAP8; SWAP9; SWAP10; SWAP11; SWAP12; SWAP13; SWAP14; SWAP15; SWAP16; LOG0;
   LOG1; LOG2; LOG3; LOG4; PUSHC; JUMPC; JUMPCI; JUMPTO; JUMPIF; JUMPSUB; JUMPV; JUMPSUBV;
   BEGINSUB; BEGINDATA; RETURNSUB; PUTLOCAL; GETLOCAL; XADD; XMUL; XSUB; XDIV; XSDIV; XMOD; XSMOD;
   XLT; XGT; XSLT; XSGT; XEQ; XISZERO; XAND; XOOR; XXOR; XNOT; XSHL; XSHR; XSAR; XROL; XROR; XPUSH;
   XMLOAD; XMSTORE; XSLOAD; XSSTORE; XVTOWIDE; XWIDETOV; XGET; XPUT; XSWIZZLE; XSHUFFLE; CREATE;
   CALL; CALLCODE; RETURN; DELEGATECALL; STATICCALL; CREATE2; REVERT; INVALID; SUICIDE].

Definition decode (b : Z) : option Instruction :=
  List.find (fun i => opcode i =? b) enumerators.

(** [enum class Tier: unsigned]. *)
Inductive Tier : Set := Zero | Base | VeryLow | Low | Mid | High | Ext | Special | Invalid.

Definition Tier_index (t : Tier) : Z :=
  match t with
  | Zero => 0 | Base => 1 | VeryLow => 2 | Low => 3 | Mid => 4 | High => 5 | Ext => 6
  | Special => 7 | Invalid => 8
  end.

Record InstructionInfo := mkInfo { name : string; args : Z; ret : Z; gasPriceTier : Tier }.

(** [c_instructionInfo], the entries of the instructions of user code. *)
Definition c_instructionInfo_user : list (Instruction * InstructionInfo) :=
  [(STOP, mkInfo "STOP" 0 0 Zero); (ADD, mkInfo "ADD" 2 1 VeryLow);
   (SUB, mkInfo "SUB" 2 1 VeryLow); (MUL, mkInfo "MUL" 2 1 Low); (DIV, mkInfo "DIV" 2 1 Low);
   (SDIV, mkInfo "SDIV" 2 1 Low); (MOD, mkInfo "MOD" 2 1 Low); (SMOD, mkInfo "SMOD" 2 1 Low);
   (EXP, mkInfo "EXP" 2 1 Special); (NOT, mkInfo "NOT" 1 1 VeryLow); (LT, mkInfo "LT" 2 1 VeryLow);
   (GT, mkInfo "GT" 2 1 VeryLow); (SLT, mkInfo "SLT" 2 1 VeryLow); (SGT, mkInfo "SGT" 2 1 VeryLow);
   (EQ, mkInfo "EQ" 2 1 VeryLow); (ISZERO, mkInfo "ISZERO" 1 1 VeryLow);
   (AND, mkInfo "AND" 2 1 VeryLow); (OR, mkInfo "OR" 2 1 VeryLow); (XOR, mkInfo "XOR" 2 1 VeryLow);
   (BYTE, mkInfo "BYTE" 2 1 VeryLow); (SHL, mkInfo "SHL" 2 1 VeryLow);
   (SHR, mkInfo "SHR" 2 1 VeryLow); (SAR, mkInfo "SAR" 2 1 VeryLow);
   (ADDMOD, mkInfo "ADDMOD" 3 1 Mid); (MULMOD, mkInfo "MULMOD" 3 1 Mid);
   (SIGNEXTEND, mkInfo "SIGNEXTEND" 2 1 Low); (SHA3, mkInfo "SHA3" 2 1 Special);
   (ADDRESS, mkInfo "ADDRESS" 0 1 Base); (BALANCE, mkInfo "BALANCE" 1 1 Special);
   (ORIGIN, mkInfo "ORIGIN" 0 1 Base); (CALLER, mkInfo "CALLER" 0 1 Base);
   (CALLVALUE, mkInfo "CALLVALUE" 0 1 Base); (CALLDATALOAD, mkInfo "CALLDATALOAD" 1 1 VeryLow);
   (CALLDATASIZE, mkInfo "CALLDATASIZE" 0 1 Base);
   (CALLDATACOPY, mkInfo "CALLDATACOPY" 3 0 VeryLow); (CODESIZE, mkInfo "CODESIZE" 0 1 Base);
   (CODECOPY, mkInfo "CODECOPY" 3 0 VeryLow); (GASPRICE, mkInfo "GASPRICE" 0 1 Base);
   (EXTCODESIZE, mkInfo "EXTCODESIZE" 1 1 Special);
   (EXTCODECOPY, mkInfo "EXTCODECOPY" 4 0 Special);
   (RETURNDATASIZE, mkInfo "RETURNDATASIZE" 0 1 Base);
   (RETURNDATACOPY, mkInfo "RETURNDATACOPY" 3 0 VeryLow);
   (BLOCKHASH, mkInfo "BLOCKHASH" 1 1 Special); (COINBASE, mkInfo "COINBASE" 0 1 Base);
   (TIMESTAMP, mkInfo "TIMESTAMP" 0 1 Base); (NUMBER, mkInfo "NUMBER" 0 1 Base);
   (DIFFICULTY, mkInfo "DIFFICULTY" 0 1 Base); (GASLIMIT, mkInfo "GASLIMIT" 0 1 Base);
   (POP, mkInfo "POP" 1 0 Base); (MLOAD, mkInfo "MLOAD" 1 1 VeryLow);
   (MSTORE, mkInfo "MSTORE" 2 0 VeryLow); (MSTORE8, mkInfo "MSTORE8" 2 0 VeryLow);
   (SLOAD, mkInfo "SLOAD" 1 1 Special); (SSTORE, mkInfo "SSTORE" 2 0 Special);
   (JUMP, mkInfo "JUMP" 1 0 Mid); (JUMPI, mkInfo "JUMPI" 2 0 High); (PC, mkInfo "PC" 0 1 Base);
   (MSIZE, mkInfo "MSIZE" 0 1 Base); (GAS, mkInfo "GAS" 0 1 Base);
   (JUMPDEST, mkInfo "JUMPDEST" 0 0 Special); (PUSH1, mkInfo "PUSH1" 0 1 VeryLow);
   (PUSH2, mkInfo "PUSH2" 0 1 VeryLow); (PUSH3, mkInfo "PUSH3" 0 1 VeryLow);
   (PUSH4, mkInfo "PUSH4" 0 1 VeryLow); (PUSH5, mkInfo "PUSH5" 0 1 VeryLow);
   (PUSH6, mkInfo "PUSH6" 0 1 VeryLow); (PUSH7, mkInfo "PUSH7" 0 1 VeryLow);
   (PUSH8, mkInfo "PUSH8" 0 1 VeryLow); (PUSH9, mkInfo "PUSH9" 0 1 VeryLow);
   (PUSH10, mkInfo "PUSH10" 0 1 VeryLow); (PUSH11, mkInfo "PUSH11" 0 1 VeryLow);
   (PUSH12, mkInfo "PUSH12" 0 1 VeryLow); (PUSH13, mkInfo "PUSH13" 0 1 VeryLow);
   (PUSH14, mkInfo "PUSH14" 0 1 VeryLow); (PUSH15, mkInfo "PUSH15" 0 1 VeryLow);
   (PUSH16, mkInfo "PUSH16" 0 1 VeryLow); (PUSH17, mkInfo "PUSH17" 0 1 VeryLow);
   (PUSH18, mkInfo "PUSH18" 0 1 VeryLow); (PUSH19, mkInfo "PUSH19" 0 1 VeryLow);
   (PUSH20, mkInfo "PUSH20" 0 1 VeryLow); (PUSH21, mkInfo "PUSH21" 0 1 VeryLow);
   (PUSH22, mkInfo "PUSH22" 0 1 VeryLow); (PUSH23, mkInfo "PUSH23" 0 1 VeryLow);
   (PUSH24, mkInfo "PUSH24" 0 1 VeryLow); (PUSH25, mkInfo "PUSH25" 0 1 VeryLow);
   (PUSH26, mkInfo "PUSH26" 0 1 VeryLow); (PUSH27, mkInfo "PUSH27" 0 1 VeryLow);
   (PUSH28, mkInfo "PUSH28" 0 1 VeryLow); (PUSH29, mkInfo "PUSH29" 0 1 VeryLow);
   (PUSH30, mkInfo "PUSH30" 0 1 VeryLow); (PUSH31, mkInfo "PUSH31" 0 1 VeryLow);
   (PUSH32, mkInfo "PUSH32" 0 1 VeryLow); (DUP1, mkInfo "DUP1" 1 2 VeryLow);
   (DUP2, mkInfo "DUP2" 2 3 VeryLow); (DUP3, mkInfo "DUP3" 3 4 VeryLow);
   (DUP4, mkInfo "DUP4" 4 5 VeryLow); (DUP5, mkInfo "DUP5" 5 6 VeryLow);
   (DUP6, mkInfo "DUP6" 6 7 VeryLow); (DUP7, mkInfo "DUP7" 7 8 VeryLow);
   (DUP8, mkInfo "DUP8" 8 9 VeryLow); (DUP9, mkInfo "DUP9" 9 10 VeryLow);
   (DUP10, mkInfo "DUP10" 10 11 VeryLow); (DUP11, mkInfo "DUP11" 11 12 VeryLow);
   (DUP12, mkInfo "DUP12" 12 13 VeryLow); (DUP13, mkInfo "DUP13" 13 14 VeryLow);
   (DUP14, mkInfo "DUP14" 14 15 VeryLow); (DUP15, mkInfo "DUP15" 15 16 VeryLow);
   (DUP16, mkInfo "DUP16" 16 17 VeryLow); (SWAP1, mkInfo "SWAP1" 2 2 VeryLow);
   (SWAP2, mkInfo "SWAP2" 3 3 VeryLow); (SWAP3, mkInfo "SWAP3" 4 4 VeryLow);
   (SWAP4, mkInfo "SWAP4" 5 5 VeryLow); (SWAP5, mkInfo "SWAP5" 6 6 VeryLow);
   (SWAP6, mkInfo "SWAP6" 7 7 VeryLow); (SWAP7, mkInfo "SWAP7" 8 8 VeryLow);
   (SWAP8, mkInfo "SWAP8" 9 9 VeryLow); (SWAP9, mkInfo "SWAP9" 10 10 VeryLow);
   (SWAP10, mkInfo "SWAP10" 11 11 VeryLow); (SWAP11, mkInfo "SWAP11" 12 12 VeryLow)].

(** [c_instructionInfo], the entries of the extension and synthetic instructions. *)
Definition c_instructionInfo_ext : list (Instruction * InstructionInfo) :=
  [(SWAP12, mkInfo "SWAP12" 13 13 VeryLow); (SWAP13, mkInfo "SWAP13" 14 14 VeryLow);
   (SWAP14, mkInfo "SWAP14" 15 15 VeryLow); (SWAP15, mkInfo "SWAP15" 16 16 VeryLow);
   (SWAP16, mkInfo "SWAP16" 17 17 VeryLow); (LOG0, mkInfo "LOG0" 2 0 Special);
   (LOG1, mkInfo "LOG1" 3 0 Special); (LOG2, mkInfo "LOG2" 4 0 Special);
   (LOG3, mkInfo "LOG3" 5 0 Special); (LOG4, mkInfo "LOG4" 6 0 Special);
   (JUMPTO, mkInfo "JUMPTO" 1 0 VeryLow); (JUMPIF, mkInfo "JUMPIF" 2 0 Low);
   (JUMPV, mkInfo "JUMPV" 1 0 Mid); (JUMPSUB, mkInfo "JUMPSUB" 1 0 Low);
   (JUMPSUBV, mkInfo "JUMPSUBV" 1 0 Mid); (BEGINSUB, mkInfo "BEGINSUB" 0 0 Special);
   (BEGINDATA, mkInfo "BEGINDATA" 0 0 Special); (RETURNSUB, mkInfo "RETURNSUB" 1 0 Mid);
   (PUTLOCAL, mkInfo "PUTLOCAL" 1 0 VeryLow); (GETLOCAL, mkInfo "GETLOCAL" 0 1 VeryLow);
   (XADD, mkInfo "XADD" 0 0 Special); (XMUL, mkInfo "XMUL" 2 1 Special);
   (XSUB, mkInfo "XSUB" 2 1 Special); (XDIV, mkInfo "XDIV" 2 1 Special);
   (XSDIV, mkInfo "XSDIV" 2 1 Special); (XMOD, mkInfo "XMOD" 2 1 Special);
   (XSMOD, mkInfo "XSMOD" 2 1 Special); (XLT, mkInfo "XLT" 2 1 Special);
   (XGT, mkInfo "XGT" 2 1 Special); (XSLT, mkInfo "XSLT" 2 1 Special);
   (XSGT, mkInfo "XSGT" 2 1 Special); (XEQ, mkInfo "XEQ" 2 1 Special);
   (XISZERO, mkInfo "XISZERO" 2 1 Special); (XAND, mkInfo "XAND" 1 1 Special);
   (XOR, mkInfo "XOR" 2 1 Special); (XXOR, mkInfo "XXOR" 2 1 Special);
   (XNOT, mkInfo "XNOT" 2 1 Special); (XSHL, mkInfo "XSHL" 2 1 Special);
   (XSHR, mkInfo "XSHR" 2 1 Special); (XSAR, mkInfo "XSAR" 2 1 Special);
   (XROL, mkInfo "XROL" 2 1 Special); (XROR, mkInfo "XROR" 2 1 Special);
   (XPUSH, mkInfo "XPUSH" 1 1 VeryLow); (XMLOAD, mkInfo "XMLOAD" 1 1 VeryLow);
   (XMSTORE, mkInfo "XMSTORE" 2 0 VeryLow); (XSLOAD, mkInfo "XSLOAD" 1 1 Special);
   (XSSTORE, mkInfo "XSSTORE" 2 0 Special); (XVTOWIDE, mkInfo "XVTOWIDE" 1 1 VeryLow);
   (XWIDETOV, mkInfo "XWIDETOV" 1 1 VeryLow); (XPUT, mkInfo "XPUT" 3 1 Special);
   (XGET, mkInfo "XGET" 2 1 Special); (XSWIZZLE, mkInfo "XSWIZZLE" 2 1 Special);
   (XSHUFFLE, mkInfo "XSHUFFLE" 3 1 Special); (CREATE, mkInfo "CREATE" 3 1 Special);
   (CREATE2, mkInfo "CREATE2" 4 1 Special); (CALL, mkInfo "CALL" 7 1 Special);
   (CALLCODE, mkInfo "CALLCODE" 7 1 Special); (RETURN, mkInfo "RETURN" 2 0 Zero);
   (STATICCALL, mkInfo "STATICCALL" 6 1 Special);
   (DELEGATECALL, mkInfo "DELEGATECALL" 6 1 Special); (REVERT, mkInfo "REVERT" 2 0 Special);
   (INVALID, mkInfo "INVALID" 0 0 Zero); (SUICIDE, mkInfo "SUICIDE" 1 0 Special);
   (PUSHC, mkInfo "PUSHC" 0 1 VeryLow); (JUMPC, mkInfo "JUMPC" 1 0 Mid);
   (JUMPCI, mkInfo "JUMPCI" 2 0 High)].

Definition c_instructionInfo : list (Instruction * InstructionInfo) :=
  c_instructionInfo_user ++ c_instructionInfo_ext.

(** [instructionInfo]: a [std::map] built from a list keeps the first entry of
    a key; a key that is missing has the tier [Invalid]. *)
Definition instructionInfo (inst : Z) : InstructionInfo :=
  match List.find (fun e => opcode (fst e) =? inst) c_instructionInfo with
  | Some (_, i) => i
  | None => mkInfo "" 0 0 Invalid
  end.

(** The labels of the jump table of [EVM_JUMP_DISPATCH], opcodes 0x00 to 0x7f. *)
Definition jumpTable_lo : list Instruction :=
  [STOP; ADD; MUL; SUB; DIV; SDIV; MOD; SMOD; ADDMOD; MULMOD; EXP; SIGNEXTEND; INVALID; INVALID;
   INVALID; INVALID; LT; GT; SLT; SGT; EQ; ISZERO; AND; OR; XOR; NOT; BYTE; SHL; SHR; SAR; INVALID;
   INVALID; SHA3; INVALID; INVALID; INVALID; INVALID; INVALID; INVALID; INVALID; INVALID; INVALID;
   INVALID; INVALID; INVALID; INVALID; INVALID; INVALID; ADDRESS; BALANCE; ORIGIN; CALLER;
   CALLVALUE; CALLDATALOAD; CALLDATASIZE; CALLDATACOPY; CODESIZE; CODECOPY; GASPRICE; EXTCODESIZE;
   EXTCODECOPY; RETURNDATASIZE; RETURNDATACOPY; INVALID; BLOCKHASH; COINBASE; TIMESTAMP; NUMBER;
   DIFFICULTY; GASLIMIT; INVALID; INVALID; INVALID; INVALID; INVALID; INVALID; INVALID; INVALID;
   INVALID; INVALID; POP; MLOAD; MSTORE; MSTORE8; SLOAD; SSTORE; JUMP; JUMPI; PC; MSIZE; GAS;
   JUMPDEST; BEGINDATA; BEGINSUB; INVALID; INVALID; PUSH1; PUSH2; PUSH3; PUSH4; PUSH5; PUSH6;
   PUSH7; PUSH8; PUSH9; PUSH10; PUSH11; PUSH12; PUSH13; PUSH14; PUSH15; PUSH16; PUSH17; PUSH18;
   PUSH19; PUSH20; PUSH21; PUSH22; PUSH23; PUSH24; PUSH25; PUSH26; PUSH27; PUSH28; PUSH29; PUSH30;
   PUSH31; PUSH32].

(** The labels of the jump table, opcodes 0x80 to 0xff. *)
Definition jumpTable_hi : list Instruction :=
  [DUP1; DUP2; DUP3; DUP4; DUP5; DUP6; DUP7; DUP8; DUP9; DUP10; DUP11; DUP12; DUP13; DUP14; DUP15;
   DUP16; SWAP1; SWAP2; SWAP3; SWAP4; SWAP5; SWAP6; SWAP7; SWAP8; SWAP9; SWAP10; SWAP11; SWAP12;
   SWAP13; SWAP14; SWAP15; SWAP16; LOG0; LOG1; LOG2; LOG3; LOG4; INVALID; INVALID; INVALID;
   INVALID; INVALID; INVALID; INVALID; PUSHC; JUMPC; JUMPCI; INVALID; JUMPTO; JUMPIF; JUMPSUB;
   JUMPV; JUMPSUBV; BEGINSUB; BEGINDATA; RETURNSUB; PUTLOCAL; GETLOCAL; INVALID; INVALID; INVALID;
   INVALID; INVALID; INVALID; INVALID; XADD; XMUL; XSUB; XDIV; XSDIV; XMOD; XSMOD; INVALID;
   INVALID; INVALID; INVALID; INVALID; INVALID; INVALID; INVALID; XLT; XGT; XSLT; XSGT; XEQ;
   XISZERO; XAND; XOOR; XXOR; XNOT; INVALID; XSHL; XSHR; XSAR; XROL; XROR; XPUSH; XMLOAD; XMSTORE;
   INVALID; XSLOAD; XSSTORE; XVTOWIDE; XWIDETOV; XGET; XPUT; XSWIZZLE; XSHUFFLE; INVALID; INVALID;
   INVALID; INVALID; CREATE; CALL; CALLCODE; RETURN; DELEGATECALL; INVALID; INVALID; INVALID;
   INVALID; INVALID; STATICCALL; CREATE2; INVALID; REVERT; INVALID; SUICIDE].

Definition jumpTable : list Instruction := jumpTable_lo ++ jumpTable_hi.

(** ** Decoding *)

Lemma decode_opcode i : decode (opcode i) = Some i.
Proof. by destruct i. Qed.

Lemma decode_Some b i : decode b = Some i -> b = opcode i.
Proof. intros [_ H]%find_some. by apply Z.eqb_eq in H. Qed.

Lemma opcode_range i : is_byte (opcode i).
Proof. destruct i; cbn [opcode]; lia. Qed.

Lemma opcode_inj i j : opcode i = opcode j -> i = j.
Proof. intros H. apply (f_equal decode) in H. rewrite !decode_opcode in H. congruence. Qed.

#[export] Instance Instruction_eq_dec : EqDecision Instruction.
Proof.
  intros i j. destruct (Z.eq_dec (opcode i) (opcode j)) as [H|H].
  - left. by apply opcode_inj.
  - right. congruence.
Defined.

(** A property of all bytes is checked by evaluation. *)
Definition all_bytes (p : Z -> bool) : bool := forallb p (map Z.of_nat (seq 0 256)).

Lemma all_bytes_spec p b : all_bytes p = true -> is_byte b -> p b = true.
Proof.
  unfold all_bytes. rewrite forallb_forall. intros H Hb. apply H, in_map_iff.
  exists (Z.to_nat b). split; [lia|]. apply in_seq. lia.
Qed.

(** [m_OP] after [Instruction(m_code[m_PC])] selects the label a jump table
    entry names; the two disabled EIP-615 labels stand where no enumerator is. *)
Definition switch_label (b : Z) : Instruction := default INVALID (decode b).

Lemma jumpTable_length : length jumpTable = 256%nat.
Proof. done. Qed.

Lemma jumpTable_switch b l :
  is_byte b -> jumpTable @@ b = Some l ->
  l = switch_label b \/ (b = 0x5c /\ l = BEGINDATA) \/ (b = 0x5d /\ l = BEGINSUB).
Proof.
  intros Hb.
  assert (all_bytes (fun b => match jumpTable @@ b with
    | Some l => bool_decide (l = switch_label b) || (b =? 0x5c) && bool_decide (l = BEGINDATA)
                || (b =? 0x5d) && bool_decide (l = BEGINSUB)
    | None => false end) = true) as Hall by (vm_compute; done).
  pose proof (all_bytes_spec _ b Hall Hb) as H. cbn beta in H. intros Hl. rewrite Hl in H.
  apply orb_true_iff in H as [[H|H]%orb_true_iff|H].
  - left. by apply bool_decide_eq_true in H.
  - apply andb_true_iff in H as [?%Z.eqb_eq ?%bool_decide_eq_true]. auto.
  - apply andb_true_iff in H as [?%Z.eqb_eq ?%bool_decide_eq_true]. auto.
Qed.

(** Bounds of the metrics: no instruction takes more than 17 items, and an
    instruction never leaves more than one item above what it took. *)
Lemma instructionInfo_bounds b :
  is_byte b ->
  0 <= args (instructionInfo b) <= 17 /\ 0 <= ret (instructionInfo b) <= args (instructionInfo b) + 1.
Proof.
  intros Hb.
  assert (all_bytes (fun b => let i := instructionInfo b in
    (0 <=? args i) && (args i <=? 17) && (0 <=? ret i) && (ret i <=? args i + 1)) = true) as Hall
    by (vm_compute; done).
  pose proof (all_bytes_spec _ b Hall Hb) as H. cbn beta zeta in H.
  repeat (apply andb_true_iff in H as [H ?%Z.leb_le]). apply Z.leb_le in H. lia.
Qed.
