(* ===== verification/Evmc.v ===== *)
(** * The EVM-C interface as the client uses it

    The interpreter talks to its host through the C interface of EVMC (a
    submodule, not part of the tree).  Its data types appear here with the
    fields the client reads and writes; the host itself is a parameter, the
    class [EvmcHost].  An [evmc_uint256be] or an [evmc_address] is carried as
    the number it is the big-endian image of: [toEvmC] is then the identity
    and [fromEvmC] the truncation to the width of the type. *)
From stdpp Require Import base list.
From Stdlib Require Import ZArith Lia.
From S2P Require Import Prelude Words.

(** The revisions, oldest first. *)
Inductive evmc_revision : Set :=
| EVMC_FRONTIER | EVMC_HOMESTEAD | EVMC_TANGERINE_WHISTLE | EVMC_SPURIOUS_DRAGON
| EVMC_BYZANTIUM | EVMC_CONSTANTINOPLE.

Definition rev_index (r : evmc_revision) : Z :=
  match r with
  | EVMC_FRONTIER => 0 | EVMC_HOMESTEAD => 1 | EVMC_TANGERINE_WHISTLE => 2
  | EVMC_SPURIOUS_DRAGON => 3 | EVMC_BYZANTIUM => 4 | EVMC_CONSTANTINOPLE => 5
  end.

Definition rev_lt (a b : evmc_revision) : bool := rev_index a <? rev_index b.
Definition rev_ge (a b : evmc_revision) : bool := rev_index b <=? rev_index a.

Inductive evmc_call_kind : Set := EVMC_CALL | EVMC_DELEGATECALL | EVMC_CALLCODE | EVMC_CREATE.

Inductive evmc_status_code : Set :=
| EVMC_SUCCESS | EVMC_FAILURE | EVMC_REVERT | EVMC_OUT_OF_GAS | EVMC_UNDEFINED_INSTRUCTION
| EVMC_STACK_OVERFLOW | EVMC_STACK_UNDERFLOW | EVMC_BAD_JUMP_DESTINATION
| EVMC_STATIC_MODE_VIOLATION | EVMC_REJECTED | EVMC_INTERNAL_ERROR.

Definition EVMC_STATIC : Z := 1.

#[export] Instance evmc_revision_eq_dec : EqDecision evmc_revision.
Proof. solve_decision. Defined.
#[export] Instance evmc_call_kind_eq_dec : EqDecision evmc_call_kind.
Proof. solve_decision. Defined.
#[export] Instance evmc_status_code_eq_dec : EqDecision evmc_status_code.
Proof. solve_decision. Defined.

(** [evmc_message]; [msg_gas] is an [int64_t].  The input data is the bytes
    behind the pointer and the size. *)
Record evmc_message := mkMessage {
  kind : evmc_call_kind;
  flags : Z;
  depth : Z;
  msg_gas : Z;
  destination : Z;
  sender : Z;
  input_data : list Z;
  value : Z
}.

(** [evmc_message msg = {}]. *)
Definition zero_message : evmc_message := mkMessage EVMC_CALL 0 0 0 0 0 [] 0.

Definition is_static (m : evmc_message) : bool := negb (Z.land (flags m) EVMC_STATIC =? 0).

Record evmc_result := mkResult {
  status_code : evmc_status_code;
  gas_left : Z;
  output_data : list Z;
  create_address : Z
}.

Record evmc_tx_context := mkTxContext {
  tx_gas_price : Z;
  tx_origin : Z;
  block_coinbase : Z;
  block_number : Z;
  block_timestamp : Z;
  block_gas_limit : Z;
  block_difficulty : Z
}.

(** [fromEvmC] on the two big-endian types. *)
Definition fromEvmC_uint256 (n : Z) : Z := u256 n.
Definition fromEvmC_address (a : Z) : Z := asAddress a.

Lemma fromEvmC_uint256_range n : is_u256 (fromEvmC_uint256 n).
Proof. apply u256_range. Qed.
#[export] Hint Resolve fromEvmC_uint256_range : aec.

(** ** The host

    [evmc_context_fn_table]: every callback may change the state of the host
    (a read may fill a cache), so each one returns it.  [fn_copy_code] returns
    the bytes it writes into the buffer it is given. *)
Class EvmcHost (H : Type) := {
  fn_account_exists : Z -> H -> bool * H;
  fn_get_storage : Z -> Z -> H -> Z * H;
  fn_set_storage : Z -> Z -> Z -> H -> H;
  fn_get_balance : Z -> H -> Z * H;
  fn_get_code_size : Z -> H -> Z * H;
  fn_copy_code : Z -> Z -> Z -> H -> list Z * H;
  fn_selfdestruct : Z -> Z -> H -> H;
  fn_call : evmc_message -> H -> evmc_result * H;
  fn_get_tx_context : H -> evmc_tx_context * H;
  fn_get_block_hash : Z -> H -> Z * H;
  fn_emit_log : Z -> list Z -> list Z -> H -> H
}.

(** A message that code running in the frame of the message [ctx] may pass to
    [fn_call]: what the caller of [VM::exec] finds in it. *)
Record call_allowed (ctx m : evmc_message) : Prop := {
  ca_gas : 0 <= msg_gas m < 2 ^ 63;
  ca_depth : depth ctx < 1024;
  ca_input : Forall (fun b => is_byte b) (input_data m) /\ lenZ (input_data m) < 2 ^ 62;
  ca_static : (is_static ctx = true -> is_static m = true /\ kind m <> EVMC_CREATE) /\
    (is_static m = true -> kind m = EVMC_CALL -> value m = 0);
  ca_sender : kind m <> EVMC_DELEGATECALL -> sender m = destination ctx /\ is_u256 (value m);
  ca_delegate : kind m = EVMC_DELEGATECALL -> sender m = sender ctx /\ value m = value ctx
}.

(** The frame can pay for the value the message carries. *)
Definition funded `{EvmcHost H} (ctx m : evmc_message) (h : H) : Prop :=
  kind m <> EVMC_DELEGATECALL -> value m = 0 \/ value m <= fromEvmC_uint256 (fn_get_balance (destination ctx) h).1.

(** What a call gives back: no more gas than the message carried. *)
Record call_result_ok (m : evmc_message) (r : evmc_result) : Prop := {
  cr_gas : 0 <= gas_left r <= msg_gas m;
  cr_bytes : Forall (fun b => is_byte b) (output_data r);
  cr_size : lenZ (output_data r) < 2 ^ 63
}.

(** What the interpreter relies on while it runs the message [ctx], as the EVMC
    documentation states it.  [host_ok] is the invariant of the host's state:
    every callback the frame may use keeps it. *)
Class EvmcHostLaws (H : Type) `{EvmcHost H} (ctx : evmc_message) := {
  host_ok : H -> Prop;
  ok_account_exists : forall a h, host_ok h -> host_ok (fn_account_exists a h).2;
  ok_get_storage : forall k h, host_ok h -> host_ok (fn_get_storage (destination ctx) k h).2;
  ok_get_balance : forall a h, host_ok h -> host_ok (fn_get_balance a h).2;
  ok_get_code_size : forall a h, host_ok h -> host_ok (fn_get_code_size a h).2;
  ok_copy_code : forall a o n h, host_ok h -> host_ok (fn_copy_code a o n h).2;
  ok_get_tx_context : forall h, host_ok h -> host_ok (fn_get_tx_context h).2;
  ok_get_block_hash : forall n h, host_ok h -> host_ok (fn_get_block_hash n h).2;
  ok_set_storage : is_static ctx = false -> forall k v h,
    host_ok h -> host_ok (fn_set_storage (destination ctx) k v h);
  ok_selfdestruct : is_static ctx = false -> forall b h, host_ok h -> host_ok (fn_selfdestruct (destination ctx) b h);
  ok_emit_log : is_static ctx = false -> forall d t h, host_ok h -> host_ok (fn_emit_log (destination ctx) d t h);
  ok_call : forall m h, call_allowed ctx m -> funded ctx m h -> host_ok h -> host_ok (fn_call m h).2;
  balance_stable : forall a h, host_ok h -> (fn_get_balance a (fn_get_balance a h).2).1 = (fn_get_balance a h).1;
  copy_code_size : forall a off n h, 0 <= n -> host_ok h ->
    lenZ (fn_copy_code a off n h).1 <= n /\ Forall (fun b => is_byte b) (fn_copy_code a off n h).1;
  call_result : forall m h, call_allowed ctx m -> funded ctx m h -> host_ok h -> call_result_ok m (fn_call m h).1
}.
