(* ===== verification/VMState.v ===== *)
(** * The state of the interpreter and its effects (libevm/VM.h, VM.cpp)

    [VM] is the record of the members of [class VM] that the interpreter
    uses.  A member function is a computation [M A]: it threads the members
    and the state of the host, returns, throws a [VMException], or reaches
    behaviour C++ leaves undefined ([UB], an access outside of an array).
    [wp] is the weakest precondition calculus the proofs of the handlers use. *)
From stdpp Require Import base list.
From Stdlib Require Import ZArith Lia.
From S2P Require Import Prelude Words Instruction Evmc.

(** The member functions [m_bounce] points to. *)
Inductive Bounce : Set := Bounce_initEntry | Bounce_interpretCases | Bounce_caseCreate | Bounce_caseCall.

(** ** The members of the class *)

Record VM := mkVM {
  m_io_gas : Z;
  m_rev : evmc_revision;
  m_message : evmc_message;
  m_tx_context : option evmc_tx_context;
  m_bounce : option Bounce;
  m_output : list Z;
  m_mem : list Z;
  m_pCode : list Z;
  m_code : list Z;
  m_returnData : list Z;
  m_stack : list Z;
  m_pool : list Z;
  m_OP : Z;
  m_PC : Z;
  m_SP : Z;
  m_SPP : Z;
  m_runGas : Z;
  m_newMemSize : Z;
  m_copyMemSize : Z;
  m_jumpDests : list Z
}.

Definition set_m_io_gas (v : Z) (s : VM) : VM :=
  mkVM v (m_rev s) (m_message s) (m_tx_context s) (m_bounce s) (m_output s) (m_mem s) (m_pCode
    s) (m_code s) (m_returnData s) (m_stack s) (m_pool s) (m_OP s) (m_PC s) (m_SP s) (m_SPP s)
    (m_runGas s) (m_newMemSize s) (m_copyMemSize s) (m_jumpDests s).
Definition set_m_rev (v : evmc_revision) (s : VM) : VM :=
  mkVM (m_io_gas s) v (m_message s) (m_tx_context s) (m_bounce s) (m_output s) (m_mem s)
    (m_pCode s) (m_code s) (m_returnData s) (m_stack s) (m_pool s) (m_OP s) (m_PC s) (m_SP s)
    (m_SPP s) (m_runGas s) (m_newMemSize s) (m_copyMemSize s) (m_jumpDests s).
Definition set_m_message (v : evmc_message) (s : VM) : VM :=
  mkVM (m_io_gas s) (m_rev s) v (m_tx_context s) (m_bounce s) (m_output s) (m_mem s) (m_pCode s)
    (m_code s) (m_returnData s) (m_stack s) (m_pool s) (m_OP s) (m_PC s) (m_SP s) (m_SPP s)
    (m_runGas s) (m_newMemSize s) (m_copyMemSize s) (m_jumpDests s).
Definition set_m_tx_context (v : option evmc_tx_context) (s : VM) : VM :=
  mkVM (m_io_gas s) (m_rev s) (m_message s) v (m_bounce s) (m_output s) (m_mem s) (m_pCode s)
    (m_code s) (m_returnData s) (m_stack s) (m_pool s) (m_OP s) (m_PC s) (m_SP s) (m_SPP s)
    (m_runGas s) (m_newMemSize s) (m_copyMemSize s) (m_jumpDests s).
Definition set_m_bounce (v : option Bounce) (s : VM) : VM :=
  mkVM (m_io_gas s) (m_rev s) (m_message s) (m_tx_context s) v (m_output s) (m_mem s) (m_pCode
    s) (m_code s) (m_returnData s) (m_stack s) (m_pool s) (m_OP s) (m_PC s) (m_SP s) (m_SPP s)
    (m_runGas s) (m_newMemSize s) (m_copyMemSize s) (m_jumpDests s).
Definition set_m_output (v : list Z) (s : VM) : VM :=
  mkVM (m_io_gas s) (m_rev s) (m_message s) (m_tx_context s) (m_bounce s) v (m_mem s) (m_pCode
    s) (m_code s) (m_returnData s) (m_stack s) (m_pool s) (m_OP s) (m_PC s) (m_SP s) (m_SPP s)
    (m_runGas s) (m_newMemSize s) (m_copyMemSize s) (m_jumpDests s).
Definition set_m_mem (v : list Z) (s : VM) : VM :=
  mkVM (m_io_gas s) (m_rev s) (m_message s) (m_tx_context s) (m_bounce s) (m_output s) v
    (m_pCode s) (m_code s) (m_returnData s) (m_stack s) (m_pool s) (m_OP s) (m_PC s) (m_SP s)
    (m_SPP s) (m_runGas s) (m_newMemSize s) (m_copyMemSize s) (m_jumpDests s).
Definition set_m_pCode (v : list Z) (s : VM) : VM :=
  mkVM (m_io_gas s) (m_rev s) (m_message s) (m_tx_context s) (m_bounce s) (m_output s) (m_mem s)
    v (m_code s) (m_returnData s) (m_stack s) (m_pool s) (m_OP s) (m_PC s) (m_SP s) (m_SPP s)
    (m_runGas s) (m_newMemSize s) (m_copyMemSize s) (m_jumpDests s).
Definition set_m_code (v : list Z) (s : VM) : VM :=
  mkVM (m_io_gas s) (m_rev s) (m_message s) (m_tx_context s) (m_bounce s) (m_output s) (m_mem s)
    (m_pCode s) v (m_returnData s) (m_stack s) (m_pool s) (m_OP s) (m_PC s) (m_SP s) (m_SPP s)
    (m_runGas s) (m_newMemSize s) (m_copyMemSize s) (m_jumpDests s).
Definition set_m_returnData (v : list Z) (s : VM) : VM :=
  mkVM (m_io_gas s) (m_rev s) (m_message s) (m_tx_context s) (m_bounce s) (m_output s) (m_mem s)
    (m_pCode s) (m_code s) v (m_stack s) (m_pool s) (m_OP s) (m_PC s) (m_SP s) (m_SPP s)
    (m_runGas s) (m_newMemSize s) (m_copyMemSize s) (m_jumpDests s).
Definition set_m_stack (v : list Z) (s : VM) : VM :=
  mkVM (m_io_gas s) (m_rev s) (m_message s) (m_tx_context s) (m_bounce s) (m_output s) (m_mem s)
    (m_pCode s) (m_code s) (m_returnData s) v (m_pool s) (m_OP s) (m_PC s) (m_SP s) (m_SPP s)
    (m_runGas s) (m_newMemSize s) (m_copyMemSize s) (m_jumpDests s).
Definition set_m_pool (v : list Z) (s : VM) : VM :=
  mkVM (m_io_gas s) (m_rev s) (m_message s) (m_tx_context s) (m_bounce s) (m_output s) (m_mem s)
    (m_pCode s) (m_code s) (m_returnData s) (m_stack s) v (m_OP s) (m_PC s) (m_SP s) (m_SPP s)
    (m_runGas s) (m_newMemSize s) (m_copyMemSize s) (m_jumpDests s).
Definition set_m_OP (v : Z) (s : VM) : VM :=
  mkVM (m_io_gas s) (m_rev s) (m_message s) (m_tx_context s) (m_bounce s) (m_output s) (m_mem s)
    (m_pCode s) (m_code s) (m_returnData s) (m_stack s) (m_pool s) v (m_PC s) (m_SP s) (m_SPP s)
    (m_runGas s) (m_newMemSize s) (m_copyMemSize s) (m_jumpDests s).
Definition set_m_PC (v : Z) (s : VM) : VM :=
  mkVM (m_io_gas s) (m_rev s) (m_message s) (m_tx_context s) (m_bounce s) (m_output s) (m_mem s)
    (m_pCode s) (m_code s) (m_returnData s) (m_stack s) (m_pool s) (m_OP s) v (m_SP s) (m_SPP s)
    (m_runGas s) (m_newMemSize s) (m_copyMemSize s) (m_jumpDests s).
Definition set_m_SP (v : Z) (s : VM) : VM :=
  mkVM (m_io_gas s) (m_rev s) (m_message s) (m_tx_context s) (m_bounce s) (m_output s) (m_mem s)
    (m_pCode s) (m_code s) (m_returnData s) (m_stack s) (m_pool s) (m_OP s) (m_PC s) v (m_SPP s)
    (m_runGas s) (m_newMemSize s) (m_copyMemSize s) (m_jumpDests s).
Definition set_m_SPP (v : Z) (s : VM) : VM :=
  mkVM (m_io_gas s) (m_rev s) (m_message s) (m_tx_context s) (m_bounce s) (m_output s) (m_mem s)
    (m_pCode s) (m_code s) (m_returnData s) (m_stack s) (m_pool s) (m_OP s) (m_PC s) (m_SP s) v
    (m_runGas s) (m_newMemSize s) (m_copyMemSize s) (m_jumpDests s).
Definition set_m_runGas (v : Z) (s : VM) : VM :=
  mkVM (m_io_gas s) (m_rev s) (m_message s) (m_tx_context s) (m_bounce s) (m_output s) (m_mem s)
    (m_pCode s) (m_code s) (m_returnData s) (m_stack s) (m_pool s) (m_OP s) (m_PC s) (m_SP s)
    (m_SPP s) v (m_newMemSize s) (m_copyMemSize s) (m_jumpDests s).
Definition set_m_newMemSize (v : Z) (s : VM) : VM :=
  mkVM (m_io_gas s) (m_rev s) (m_message s) (m_tx_context s) (m_bounce s) (m_output s) (m_mem s)
    (m_pCode s) (m_code s) (m_returnData s) (m_stack s) (m_pool s) (m_OP s) (m_PC s) (m_SP s)
    (m_SPP s) (m_runGas s) v (m_copyMemSize s) (m_jumpDests s).
Definition set_m_copyMemSize (v : Z) (s : VM) : VM :=
  mkVM (m_io_gas s) (m_rev s) (m_message s) (m_tx_context s) (m_bounce s) (m_output s) (m_mem s)
    (m_pCode s) (m_code s) (m_returnData s) (m_stack s) (m_pool s) (m_OP s) (m_PC s) (m_SP s)
    (m_SPP s) (m_runGas s) (m_newMemSize s) v (m_jumpDests s).
Definition set_m_jumpDests (v : list Z) (s : VM) : VM :=
  mkVM (m_io_gas s) (m_rev s) (m_message s) (m_tx_context s) (m_bounce s) (m_output s) (m_mem s)
    (m_pCode s) (m_code s) (m_returnData s) (m_stack s) (m_pool s) (m_OP s) (m_PC s) (m_SP s)
    (m_SPP s) (m_runGas s) (m_newMemSize s) (m_copyMemSize s) v.

Definition m_codeSize (s : VM) : Z := lenZ (m_pCode s).

(** [VMSchedule]. *)
Module VMSchedule.
Definition stackLimit : Z := 1024.
Definition stepGas0 : Z := 0.
Definition stepGas1 : Z := 2.
Definition stepGas2 : Z := 3.
Definition stepGas3 : Z := 5.
Definition stepGas4 : Z := 8.
Definition stepGas5 : Z := 10.
Definition stepGas6 : Z := 20.
Definition sha3Gas : Z := 30.
Definition sha3WordGas : Z := 6.
Definition sloadGas : Z := 50.
Definition sstoreSetGas : Z := 20000.
Definition sstoreResetGas : Z := 5000.
Definition jumpdestGas : Z := 1.
Definition logGas : Z := 375.
Definition logDataGas : Z := 8.
Definition logTopicGas : Z := 375.
Definition createGas : Z := 32000.
Definition memoryGas : Z := 3.
Definition quadCoeffDiv : Z := 512.
Definition copyGas : Z := 3.
Definition valueTransferGas : Z := 9000.
Definition callStipend : Z := 2300.
Definition callNewAccount : Z := 25000.
End VMSchedule.

Create HintDb sched.
#[export] Hint Unfold VMSchedule.stackLimit VMSchedule.stepGas0 VMSchedule.stepGas1 VMSchedule.stepGas2
  VMSchedule.stepGas3 VMSchedule.stepGas4 VMSchedule.stepGas5 VMSchedule.stepGas6 VMSchedule.sha3Gas
  VMSchedule.sha3WordGas VMSchedule.sloadGas VMSchedule.sstoreSetGas VMSchedule.sstoreResetGas
  VMSchedule.jumpdestGas VMSchedule.logGas VMSchedule.logDataGas VMSchedule.logTopicGas VMSchedule.createGas
  VMSchedule.memoryGas VMSchedule.quadCoeffDiv VMSchedule.copyGas VMSchedule.valueTransferGas
  VMSchedule.callStipend VMSchedule.callNewAccount : sched.

(** A VM object before [exec]: the member initialisers of the class. *)
Definition VM_init : VM :=
  mkVM 0 EVMC_FRONTIER zero_message None None [] [] [] [] []
    (replicate 1024 0) [] 0 0 VMSchedule.stackLimit VMSchedule.stackLimit 0 0 0 [].

(** The exceptions derived from [VMException]. *)
Inductive VMException :=
| OutOfGas | BadInstruction | BadJumpDestination | OutOfStack | StackUnderflow
| DisallowedStateChange | BufferOverrun | RevertInstruction (output : list Z).

Inductive outcome (A : Type) :=
| Ret (a : A)
| Throw (e : VMException)
| UB
| NoFuel.
Arguments Ret {A} a.
Arguments Throw {A} e.
Arguments UB {A}.
Arguments NoFuel {A}.

Declare Scope vm_scope.
Delimit Scope vm_scope with vm.

Section Monad.
  Context {H : Type}.

Definition M (A : Type) : Type := VM -> H -> outcome A * VM * H.

Definition mret {A} (a : A) : M A := fun s h => (Ret a, s, h).

Definition mbind {A B} (m : M A) (f : A -> M B) : M B := fun s h =>
  match m s h with
  | (Ret a, s', h') => f a s' h'
  | (Throw e, s', h') => (Throw e, s', h')
  | (UB, s', h') => (UB, s', h')
  | (NoFuel, s', h') => (NoFuel, s', h')
  end.

Definition throw {A} (e : VMException) : M A := fun s h => (Throw e, s, h).
Definition ub {A} : M A := fun s h => (UB, s, h).
Definition nofuel {A} : M A := fun s h => (NoFuel, s, h).
Definition get {A} (f : VM -> A) : M A := fun s h => (Ret (f s), s, h).
Definition put (f : VM -> VM) : M unit := fun s h => (Ret tt, f s, h).

(** A value that only exists inside of an array. *)
Definition checked {A} (o : option A) : M A := match o with Some a => mret a | None => ub end.

(** A callback of the host, with or without a result. *)
Definition host {A} (f : H -> A * H) : M A := fun s h => (Ret (f h).1, s, (f h).2).
Definition host_ (f : H -> H) : M unit := fun s h => (Ret tt, s, f h).

End Monad.
Arguments M : clear implicits.

Notation "x <- m ;; k" := (mbind m (fun x => k))
  (at level 100, m at next level, right associativity) : vm_scope.
Notation "m ;; k" := (mbind m (fun _ => k)) (at level 100, right associativity) : vm_scope.
Open Scope vm_scope.

(** ** Weakest preconditions

    [wp m Q E]: the computation neither reaches undefined behaviour nor runs
    out of fuel; [Q] holds when it returns and [E] when it throws. *)
Section Wp.
  Context {H : Type}.

Definition wp {A} (m : M H A) (Q : A -> VM -> H -> Prop) (E : VMException -> VM -> H -> Prop)
    (s : VM) (h : H) : Prop :=
  match m s h with
  | (Ret a, s', h') => Q a s' h'
  | (Throw e, s', h') => E e s' h'
  | (UB, _, _) | (NoFuel, _, _) => False
  end.

Lemma wp_bind {A B} (m : M H A) (f : A -> M H B) Q E s h :
  wp m (fun a => wp (f a) Q E) E s h -> wp (mbind m f) Q E s h.
Proof. unfold wp, mbind. by destruct (m s h) as [[[a|e| |] s'] h']. Qed.

Lemma wp_bind_inv {A B} (m : M H A) (f : A -> M H B) Q E s h :
  wp (mbind m f) Q E s h -> wp m (fun a => wp (f a) Q E) E s h.
Proof. unfold wp, mbind. by destruct (m s h) as [[[a|e| |] s'] h']. Qed.

Lemma wp_ret {A} (a : A) Q E s h : Q a s h -> wp (mret a) Q E s h.
Proof. done. Qed.

Lemma wp_throw {A} (e : VMException) Q E s h : E e s h -> wp (A:=A) (throw e) Q E s h.
Proof. done. Qed.

Lemma wp_get {A} (f : VM -> A) Q E s h : Q (f s) s h -> wp (get f) Q E s h.
Proof. done. Qed.

Lemma wp_put f Q E s h : Q tt (f s) h -> wp (put f) Q E s h.
Proof. done. Qed.

Lemma wp_checked {A} (o : option A) a Q E s h : o = Some a -> Q a s h -> wp (checked o) Q E s h.
Proof. by intros ->. Qed.

Lemma wp_host {A} (f : H -> A * H) Q E s h : Q (f h).1 s (f h).2 -> wp (host f) Q E s h.
Proof. done. Qed.

Lemma wp_host_ f Q E s h : Q tt s (f h) -> wp (host_ f) Q E s h.
Proof. done. Qed.

Lemma wp_mono {A} (m : M H A) (Q Q' : A -> VM -> H -> Prop) (E E' : VMException -> VM -> H -> Prop) s h :
  (forall a s' h', Q a s' h' -> Q' a s' h') -> (forall e s' h', E e s' h' -> E' e s' h') ->
  wp m Q E s h -> wp m Q' E' s h.
Proof. unfold wp. destruct (m s h) as [[[a|e| |] s'] h']; auto. Qed.

Lemma wp_if {A} (b : bool) (m1 m2 : M H A) Q E s h :
  (b = true -> wp m1 Q E s h) -> (b = false -> wp m2 Q E s h) ->
  wp (if b then m1 else m2) Q E s h.
Proof. destruct b; auto. Qed.

End Wp.

(** Project fields out of updated states, and nothing else. *)
Ltac vm_cbn :=
  cbn [
    m_io_gas m_rev m_message m_tx_context m_bounce m_output m_mem m_pCode m_code
    m_returnData m_stack m_pool m_OP m_PC m_SP m_SPP m_runGas m_newMemSize m_copyMemSize
    m_jumpDests set_m_io_gas set_m_rev set_m_message set_m_tx_context set_m_bounce
    set_m_output set_m_mem set_m_pCode set_m_code set_m_returnData set_m_stack set_m_pool
    set_m_OP set_m_PC set_m_SP set_m_SPP set_m_runGas set_m_newMemSize set_m_copyMemSize
    set_m_jumpDests].
Tactic Notation "vm_cbn" "in" "*" :=
  cbn [
    m_io_gas m_rev m_message m_tx_context m_bounce m_output m_mem m_pCode m_code
    m_returnData m_stack m_pool m_OP m_PC m_SP m_SPP m_runGas m_newMemSize m_copyMemSize
    m_jumpDests set_m_io_gas set_m_rev set_m_message set_m_tx_context set_m_bounce
    set_m_output set_m_mem set_m_pCode set_m_code set_m_returnData set_m_stack set_m_pool
    set_m_OP set_m_PC set_m_SP set_m_SPP set_m_runGas set_m_newMemSize set_m_copyMemSize
    set_m_jumpDests] in *.
