(* ===== verification/VMOps.v ===== *)
(** * Stack, gas and memory operations of the interpreter (libevm/VM.cpp,
    VMCalls.cpp, VMOpt.cpp)

    The member functions the instruction cases are built from: the bounds
    checked stack adjustment, the gas accounting, the memory expansion, the
    fetch of an instruction and the jump destination lookup. *)
From stdpp Require Import base list.
From Stdlib Require Import ZArith Lia.
From S2P Require Import Prelude Words Instruction Evmc VMState.

(** The preprocessor configuration of libevm/VMConfig.h.  [EVM_OPTIMIZE] turns
    the constant pool and the constant jumps on, and is the default of the
    build; [EVM_JUMP_DISPATCH] is the default with GCC. *)
Class VMConfig := {
  EVM_OPTIMIZE : bool;
  EVM_JUMP_DISPATCH : bool
}.

Record InstructionMetric := mkMetric { metric_tier : Tier; metric_args : Z; metric_ret : Z }.

(** [VM::initMetrics]. *)
Definition c_metrics : list InstructionMetric :=
  Eval vm_compute in
  map (fun i => let op := instructionInfo (Z.of_nat i) in mkMetric (gasPriceTier op) (args op) (ret op))
      (seq 0 256).

Definition tierStepGas : list Z :=
  [VMSchedule.stepGas0; VMSchedule.stepGas1; VMSchedule.stepGas2; VMSchedule.stepGas3;
   VMSchedule.stepGas4; VMSchedule.stepGas5; VMSchedule.stepGas6; 0; 0].

(** [std::lower_bound] on a range of an array, and [std::binary_search]. *)
Fixpoint lower_bound (fuel : nat) (l : list Z) (first len v : Z) : Z :=
  match fuel with
  | O => first
  | S f =>
      if len <=? 0 then first
      else
        let half := len / 2 in
        match l @@ (first + half) with
        | Some x =>
            if x <? v then lower_bound f l (first + half + 1) (len - half - 1) v
            else lower_bound f l first half v
        | None => first
        end
  end.

Definition binary_search (l : list Z) (v : Z) : bool :=
  match l @@ (lower_bound (S (length l)) l 0 (lenZ l) v) with
  | Some x => negb (v <? x)
  | None => false
  end.

(** The size [copyDataToMemory] copies out of the data; the rest is zeroed. *)
Definition sizeToBeCopied (dataSize bigIndex index size : Z) : Z :=
  if dataSize <? s512 (bigIndex + size)
  then if dataSize <? bigIndex then 0 else u64 (dataSize - index)
  else size.

Section Ops.
  Context {H : Type} `{!EvmcHost H}.

Definition throwOutOfGas {A} : M H A := throw OutOfGas.
Definition throwBadInstruction {A} : M H A := throw BadInstruction.
Definition throwBadJumpDestination {A} : M H A := throw BadJumpDestination.
Definition throwDisallowedStateChange {A} : M H A := throw DisallowedStateChange.
Definition throwBufferOverrun {A} : M H A := throw BufferOverrun.
Definition throwRevertInstruction {A} (output : list Z) : M H A := throw (RevertInstruction output).

Definition throwBadStack {A} (removed added : Z) : M H A :=
  size <- get (fun s => VMSchedule.stackLimit - m_SPP s) ;;
  if size <? removed then throw StackUnderflow else throw OutOfStack.

Definition when (b : bool) (m : M H unit) : M H unit := if b then m else mret tt.

(** [m_SP[i]] and [m_SPP[i]]. *)
Definition SP (i : Z) : M H Z :=
  o <- get (fun s => m_stack s @@ (m_SP s + i)) ;; checked o.

Definition stack_write (j : Z) (v : Z) : M H unit :=
  o <- get (fun s => m_stack s @@ j) ;;
  checked o ;;
  put (fun s => set_m_stack (upd (m_stack s) j v) s).

Definition SPP_set (i v : Z) : M H unit := j <- get (fun s => m_SPP s + i) ;; stack_write j v.
Definition SP_set (i v : Z) : M H unit := j <- get (fun s => m_SP s + i) ;; stack_write j v.

Definition toInt63 (v : Z) : M H Z :=
  if 0x7FFFFFFFFFFFFFFF <? v then throwOutOfGas else mret (u64 v).

Definition memNeed (offset size : Z) : M H Z :=
  toInt63 (if negb (size =? 0) then u512 (offset + size) else 0).

(** [VM::adjustStack]: set SP to SP', move SP' by the items removed and added. *)
Definition adjustStack (removed added : Z) : M H unit :=
  put (fun s => set_m_SP (m_SPP s) s) ;;
  put (fun s => set_m_SPP (m_SPP s + removed) s) ;;
  spp <- get m_SPP ;;
  when (VMSchedule.stackLimit <? spp) (throwBadStack removed added) ;;
  put (fun s => set_m_SPP (m_SPP s - added) s) ;;
  spp <- get m_SPP ;;
  when (spp <? 0) (throwBadStack removed added).

Definition updateSSGas : M H unit :=
  key <- SP 0 ;;
  dest <- get (fun s => destination (m_message s)) ;;
  rawValue <- host (fn_get_storage dest key) ;;
  sp1 <- SP 1 ;;
  put (set_m_runGas (if (fromEvmC_uint256 rawValue =? 0) && negb (sp1 =? 0)
                     then VMSchedule.sstoreSetGas else VMSchedule.sstoreResetGas)).

Definition gasForMem (size : Z) : M H Z :=
  let s := size / 32 in
  toInt63 (u512 (u512 (VMSchedule.memoryGas * s) + u512 (s * s) / VMSchedule.quadCoeffDiv)).

Definition updateIOGas : M H unit :=
  io <- get m_io_gas ;;
  run <- get m_runGas ;;
  when (io <? run) throwOutOfGas ;;
  put (set_m_io_gas (io - run)).

Definition updateGas : M H unit :=
  new <- get m_newMemSize ;;
  cur <- get (fun s => lenZ (m_mem s)) ;;
  when (cur <? new)
    (gn <- gasForMem new ;;
     gc <- gasForMem cur ;;
     d <- toInt63 (u64 (gn - gc)) ;;
     put (fun s => set_m_runGas (u64 (m_runGas s + d)) s)) ;;
  put (fun s => set_m_runGas
         (u64 (m_runGas s + u64 (VMSchedule.copyGas * (u64 (m_copyMemSize s + 31) / 32)))) s) ;;
  io <- get m_io_gas ;;
  run <- get m_runGas ;;
  when (io <? run) throwOutOfGas.

Definition updateMem (newMem : Z) : M H unit :=
  put (set_m_newMemSize (u64 (u64 (newMem + 31) / 32 * 32))) ;;
  updateGas ;;
  put (fun s => if lenZ (m_mem s) <? m_newMemSize s
                then set_m_mem (resize (m_newMemSize s) (m_mem s)) s else s).

Definition logGasMem : M H unit :=
  op <- get m_OP ;;
  let n := u32 (op - opcode LOG0) in
  sp1 <- SP 1 ;;
  g <- toInt63 (u512 (VMSchedule.logGas + VMSchedule.logTopicGas * n
                      + u512 (VMSchedule.logDataGas * sp1))) ;;
  put (set_m_runGas g) ;;
  sp0 <- SP 0 ;;
  need <- memNeed sp0 sp1 ;;
  updateMem need.

Definition fetchInstruction : M H unit :=
  ob <- get (fun s => m_code s @@ m_PC s) ;;
  op <- checked ob ;;
  put (set_m_OP op) ;;
  metric <- checked (c_metrics @@ op) ;;
  adjustStack (metric_args metric) (metric_ret metric) ;;
  gas <- checked (tierStepGas @@ Tier_index (metric_tier metric)) ;;
  put (set_m_runGas gas) ;;
  put (fun s => set_m_newMemSize (lenZ (m_mem s)) s) ;;
  put (set_m_copyMemSize 0).

Definition getTxContext : M H evmc_tx_context :=
  c <- get m_tx_context ;;
  match c with
  | Some tx => mret tx
  | None =>
      tx <- host fn_get_tx_context ;;
      put (set_m_tx_context (Some tx)) ;;
      mret tx
  end.

(** Reads and writes of [m_mem] behind a pointer and a size. *)
Definition mem_read (off n : Z) : M H (list Z) := o <- get (fun s => slice off n (m_mem s)) ;; checked o.

Definition mem_write (off : Z) (d : list Z) : M H unit :=
  o <- get (fun s => blit off d (m_mem s)) ;; m <- checked o ;; put (set_m_mem m).

(** [VM::copyDataToMemory]. *)
Definition copyDataToMemory (data : list Z) : M H unit :=
  sp0 <- SP 0 ;;
  sp1 <- SP 1 ;;
  sp2 <- SP 2 ;;
  let offset := u64 sp0 in
  let bigIndex := s512 sp1 in
  let index := u64 bigIndex in
  let size := u64 sp2 in
  let n := sizeToBeCopied (lenZ data) bigIndex index size in
  when (0 <? n) (d <- checked (slice index n data) ;; mem_write offset d) ;;
  when (n <? size) (mem_write (offset + n) (replicate (Z.to_nat (size - n)) 0)).

(** [VM::verifyJumpDest]. *)
Definition verifyJumpDest_found (jumpDests : list Z) (dest : Z) : bool :=
  (dest <=? 0x7FFFFFFFFFFFFFFF) && binary_search jumpDests (u64 dest).

Definition verifyJumpDest (dest : Z) (throw_ : bool) : M H Z :=
  dests <- get m_jumpDests ;;
  if verifyJumpDest_found dests dest then mret (u64 dest)
  else if throw_ then throwBadJumpDestination else mret (-1).

End Ops.
