(* ===== verification/VMCases.v ===== *)
(** * The instruction cases of the interpreter (libevm/VM.cpp)

    One definition per [CASE] of [VM::interpretCases], for the configuration
    without EIP-615 and EIP-616 (the defaults).  A case ends with [NEXT]
    (advance the program counter), [CONTINUE] (the case has set it) or [BREAK]
    (leave the interpreter loop). *)
From stdpp Require Import base list.
From Stdlib Require Import ZArith Lia.
From S2P Require Import Prelude Words Instruction Evmc VMState VMOps.

Inductive ctl : Set := NEXT | CONTINUE | BREAK.

Section Cases.
  Context {H : Type} `{!EvmcHost H} {config : VMConfig}.
  (** Keccak-256, from libdevcrypto's bundled implementation. *)
  Context (sha3 : list Z -> list Z).

Definition bounce_to (b : option Bounce) : M H unit := put (set_m_bounce b).
Definition rev : M H evmc_revision := get m_rev.
Definition message : M H evmc_message := get m_message.
Definition setRunGas (g : Z) : M H unit := put (set_m_runGas g).
Definition setPC (pc : Z) : M H unit := put (set_m_PC pc).

(** [++m_PC] on an [uint64_t]. *)
Definition incPC : M H unit := put (fun s => set_m_PC (u64 (m_PC s + 1)) s).

(** [m_code[m_PC]]. *)
Definition code_at_PC : M H Z := o <- get (fun s => m_code s @@ m_PC s) ;; checked o.

(** ** Call-related instructions *)

Definition case_CREATE2 : M H ctl := throwBadInstruction.

Definition case_CREATE : M H ctl :=
  msg <- message ;;
  when (is_static msg) throwDisallowedStateChange ;;
  bounce_to (Some Bounce_caseCreate) ;;
  mret BREAK.

Definition case_CALLS : M H ctl :=
  op <- get m_OP ;;
  r <- rev ;;
  msg <- message ;;
  when ((op =? opcode DELEGATECALL) && rev_lt r EVMC_HOMESTEAD) throwBadInstruction ;;
  when ((op =? opcode STATICCALL) && rev_lt r EVMC_BYZANTIUM) throwBadInstruction ;;
  (if (op =? opcode CALL) && is_static msg
   then sp2 <- SP 2 ;; when (negb (sp2 =? 0)) throwDisallowedStateChange
   else mret tt) ;;
  bounce_to (Some Bounce_caseCall) ;;
  mret BREAK.

(** The range of memory that [RETURN] and [REVERT] take away. *)
Definition move_memory (b n : Z) : M H (list Z) :=
  out <- mem_read b n ;;
  put (set_m_mem []) ;;
  mret out.

Definition case_RETURN : M H ctl :=
  put (set_m_copyMemSize 0) ;;
  sp0 <- SP 0 ;; sp1 <- SP 1 ;;
  need <- memNeed sp0 sp1 ;;
  updateMem need ;;
  updateIOGas ;;
  out <- move_memory (u64 sp0) (u64 sp1) ;;
  put (set_m_output out) ;;
  bounce_to None ;;
  mret BREAK.

Definition case_REVERT : M H ctl :=
  r <- rev ;;
  when (rev_lt r EVMC_BYZANTIUM) throwBadInstruction ;;
  put (set_m_copyMemSize 0) ;;
  sp0 <- SP 0 ;; sp1 <- SP 1 ;;
  need <- memNeed sp0 sp1 ;;
  updateMem need ;;
  updateIOGas ;;
  out <- move_memory (u64 sp0) (u64 sp1) ;;
  throwRevertInstruction out.

Definition case_SUICIDE : M H ctl :=
  msg <- message ;;
  when (is_static msg) throwDisallowedStateChange ;;
  r <- rev ;;
  setRunGas (if rev_ge r EVMC_TANGERINE_WHISTLE then 5000 else 0) ;;
  sp0 <- SP 0 ;;
  let dest := asAddress sp0 in
  rawBalance <- host (fn_get_balance (destination msg)) ;;
  let balance := fromEvmC_uint256 rawBalance in
  when ((0 <? balance) || rev_lt r EVMC_SPURIOUS_DRAGON)
    (destinationExists <- host (fn_account_exists dest) ;;
     when (rev_ge r EVMC_TANGERINE_WHISTLE && negb destinationExists)
       (put (fun s => set_m_runGas (u64 (m_runGas s + VMSchedule.callNewAccount)) s))) ;;
  updateIOGas ;;
  host_ (fn_selfdestruct (destination msg) dest) ;;
  bounce_to None ;;
  mret BREAK.

Definition case_STOP : M H ctl :=
  updateIOGas ;;
  bounce_to None ;;
  mret BREAK.

(** ** Instructions potentially expanding memory *)

Definition case_MLOAD : M H ctl :=
  sp0 <- SP 0 ;;
  a <- toInt63 sp0 ;;
  updateMem (u64 (a + 32)) ;;
  updateIOGas ;;
  w <- mem_read (u32 sp0) 32 ;;
  SPP_set 0 (fromBigEndian w) ;;
  mret NEXT.

Definition case_MSTORE : M H ctl :=
  sp0 <- SP 0 ;;
  a <- toInt63 sp0 ;;
  updateMem (u64 (a + 32)) ;;
  updateIOGas ;;
  sp1 <- SP 1 ;;
  mem_write (u32 sp0) (toBigEndian 32 sp1) ;;
  mret NEXT.

Definition case_MSTORE8 : M H ctl :=
  sp0 <- SP 0 ;;
  a <- toInt63 sp0 ;;
  updateMem (u64 (a + 1)) ;;
  updateIOGas ;;
  sp1 <- SP 1 ;;
  mem_write (u32 sp0) [u8 (Z.land sp1 0xff)] ;;
  mret NEXT.

Definition case_SHA3 : M H ctl :=
  sp1 <- SP 1 ;;
  g <- toInt63 (u512 (VMSchedule.sha3Gas + u512 (u512 (sp1 + 31) / 32 * VMSchedule.sha3WordGas))) ;;
  setRunGas g ;;
  sp0 <- SP 0 ;;
  need <- memNeed sp0 sp1 ;;
  updateMem need ;;
  updateIOGas ;;
  d <- mem_read (u64 sp0) (u64 sp1) ;;
  SPP_set 0 (fromBigEndian (sha3 d)) ;;
  mret NEXT.

(** The common part of the five LOG cases. *)
Definition log_prologue : M H (list Z) :=
  msg <- message ;;
  when (is_static msg) throwDisallowedStateChange ;;
  logGasMem ;;
  updateIOGas ;;
  sp0 <- SP 0 ;; sp1 <- SP 1 ;;
  mem_read (u64 sp0) (u64 sp1).

Definition emit_log (data topics : list Z) : M H unit :=
  msg <- message ;; host_ (fn_emit_log (destination msg) data topics).

Definition case_LOG0 : M H ctl :=
  data <- log_prologue ;;
  emit_log data [] ;;
  mret NEXT.

Definition case_LOG1 : M H ctl :=
  data <- log_prologue ;;
  t2 <- SP 2 ;;
  emit_log data [t2] ;;
  mret NEXT.

Definition case_LOG2 : M H ctl :=
  data <- log_prologue ;;
  t2 <- SP 2 ;; t3 <- SP 3 ;;
  emit_log data [t2; t3] ;;
  mret NEXT.

Definition case_LOG3 : M H ctl :=
  data <- log_prologue ;;
  t2 <- SP 2 ;; t3 <- SP 3 ;; t4 <- SP 4 ;;
  emit_log data [t2; t3; t4] ;;
  mret NEXT.

Definition case_LOG4 : M H ctl :=
  data <- log_prologue ;;
  t2 <- SP 2 ;; t3 <- SP 3 ;; t4 <- SP 4 ;; t5 <- SP 5 ;;
  emit_log data [t2; t3; t4; t5] ;;
  mret NEXT.

Definition case_EXP : M H ctl :=
  expon <- SP 1 ;;
  r <- rev ;;
  let byteCost := if rev_ge r EVMC_SPURIOUS_DRAGON then 50 else 10 in
  g <- toInt63 (VMSchedule.stepGas5 + byteCost * (32 - firstBitSet (toBigEndian 32 expon) / 8)) ;;
  setRunGas g ;;
  updateIOGas ;;
  base <- SP 0 ;;
  SPP_set 0 (exp256 base expon) ;;
  mret NEXT.

(** ** Ordinary instructions *)

Definition case_ADD : M H ctl :=
  updateIOGas ;;
  sp0 <- SP 0 ;; sp1 <- SP 1 ;;
  SPP_set 0 (u256 (sp0 + sp1)) ;;
  mret NEXT.

Definition case_MUL : M H ctl :=
  updateIOGas ;;
  sp0 <- SP 0 ;; sp1 <- SP 1 ;;
  SPP_set 0 (u256 (sp0 * sp1)) ;;
  mret NEXT.

Definition case_SUB : M H ctl :=
  updateIOGas ;;
  sp0 <- SP 0 ;; sp1 <- SP 1 ;;
  SPP_set 0 (u256 (sp0 - sp1)) ;;
  mret NEXT.

Definition case_DIV : M H ctl :=
  updateIOGas ;;
  sp0 <- SP 0 ;; sp1 <- SP 1 ;;
  SPP_set 0 (if negb (sp1 =? 0) then divWorkaround u256 sp0 sp1 else 0) ;;
  mret NEXT.

(** [--m_SP] after the write has no effect: the next fetch sets SP to SP'. *)
Definition case_SDIV : M H ctl :=
  updateIOGas ;;
  sp0 <- SP 0 ;; sp1 <- SP 1 ;;
  SPP_set 0 (if negb (sp1 =? 0) then s2u (divWorkaround s256 (u2s sp0) (u2s sp1)) else 0) ;;
  put (fun s => set_m_SP (m_SP s - 1) s) ;;
  mret NEXT.

Definition case_MOD : M H ctl :=
  updateIOGas ;;
  sp0 <- SP 0 ;; sp1 <- SP 1 ;;
  SPP_set 0 (if negb (sp1 =? 0) then modWorkaround u256 sp0 sp1 else 0) ;;
  mret NEXT.

Definition case_SMOD : M H ctl :=
  updateIOGas ;;
  sp0 <- SP 0 ;; sp1 <- SP 1 ;;
  SPP_set 0 (if negb (sp1 =? 0) then s2u (modWorkaround s256 (u2s sp0) (u2s sp1)) else 0) ;;
  mret NEXT.

Definition case_NOT : M H ctl :=
  updateIOGas ;;
  sp0 <- SP 0 ;;
  SPP_set 0 (u256 (Z.lnot sp0)) ;;
  mret NEXT.

Definition case_LT : M H ctl :=
  updateIOGas ;;
  sp0 <- SP 0 ;; sp1 <- SP 1 ;;
  SPP_set 0 (if sp0 <? sp1 then 1 else 0) ;;
  mret NEXT.

Definition case_GT : M H ctl :=
  updateIOGas ;;
  sp0 <- SP 0 ;; sp1 <- SP 1 ;;
  SPP_set 0 (if sp1 <? sp0 then 1 else 0) ;;
  mret NEXT.

Definition case_SLT : M H ctl :=
  updateIOGas ;;
  sp0 <- SP 0 ;; sp1 <- SP 1 ;;
  SPP_set 0 (if u2s sp0 <? u2s sp1 then 1 else 0) ;;
  mret NEXT.

Definition case_SGT : M H ctl :=
  updateIOGas ;;
  sp0 <- SP 0 ;; sp1 <- SP 1 ;;
  SPP_set 0 (if u2s sp1 <? u2s sp0 then 1 else 0) ;;
  mret NEXT.

Definition case_EQ : M H ctl :=
  updateIOGas ;;
  sp0 <- SP 0 ;; sp1 <- SP 1 ;;
  SPP_set 0 (if sp0 =? sp1 then 1 else 0) ;;
  mret NEXT.

Definition case_ISZERO : M H ctl :=
  updateIOGas ;;
  sp0 <- SP 0 ;;
  SPP_set 0 (if negb (sp0 =? 0) then 0 else 1) ;;
  mret NEXT.

Definition case_AND : M H ctl :=
  updateIOGas ;;
  sp0 <- SP 0 ;; sp1 <- SP 1 ;;
  SPP_set 0 (Z.land sp0 sp1) ;;
  mret NEXT.

Definition case_OR : M H ctl :=
  updateIOGas ;;
  sp0 <- SP 0 ;; sp1 <- SP 1 ;;
  SPP_set 0 (Z.lor sp0 sp1) ;;
  mret NEXT.

Definition case_XOR : M H ctl :=
  updateIOGas ;;
  sp0 <- SP 0 ;; sp1 <- SP 1 ;;
  SPP_set 0 (Z.lxor sp0 sp1) ;;
  mret NEXT.

Definition case_BYTE : M H ctl :=
  updateIOGas ;;
  sp0 <- SP 0 ;; sp1 <- SP 1 ;;
  SPP_set 0 (if sp0 <? 32 then Z.land (Z.shiftr sp1 (u32 (u256 (8 * (31 - sp0))))) 0xff else 0) ;;
  mret NEXT.

Definition require_constantinople : M H unit :=
  r <- rev ;; when (rev_lt r EVMC_CONSTANTINOPLE) throwBadInstruction.

Definition case_SHL : M H ctl :=
  require_constantinople ;;
  updateIOGas ;;
  sp0 <- SP 0 ;; sp1 <- SP 1 ;;
  SPP_set 0 (if 256 <=? sp0 then 0 else u256 (Z.shiftl sp1 (u32 sp0))) ;;
  mret NEXT.

Definition case_SHR : M H ctl :=
  require_constantinople ;;
  updateIOGas ;;
  sp0 <- SP 0 ;; sp1 <- SP 1 ;;
  SPP_set 0 (if 256 <=? sp0 then 0 else Z.shiftr sp1 (u32 sp0)) ;;
  mret NEXT.

Definition hibit : Z := u256 (Z.shiftl 1 255).
Definition allbits : Z := 0xffffffffffffffffffffffffffffffffffffffffffffffffffffffffffffffff.

(** The word [SAR] leaves. *)
Definition sar_word (amount shiftee : Z) : Z :=
  if 256 <=? amount
  then if negb (Z.land shiftee hibit =? 0) then allbits else 0
  else
    let r := Z.shiftr shiftee (u32 amount) in
    if negb (Z.land shiftee hibit =? 0) then Z.lor r (u256 (Z.shiftl allbits (256 - u32 amount))) else r.

Definition case_SAR : M H ctl :=
  require_constantinople ;;
  updateIOGas ;;
  sp0 <- SP 0 ;; shiftee <- SP 1 ;;
  SPP_set 0 (sar_word sp0 shiftee) ;;
  mret NEXT.

Definition case_ADDMOD : M H ctl :=
  updateIOGas ;;
  sp0 <- SP 0 ;; sp1 <- SP 1 ;; sp2 <- SP 2 ;;
  SPP_set 0 (if negb (sp2 =? 0) then u256 (u512 (sp0 + sp1) mod sp2) else 0) ;;
  mret NEXT.

Definition case_MULMOD : M H ctl :=
  updateIOGas ;;
  sp0 <- SP 0 ;; sp1 <- SP 1 ;; sp2 <- SP 2 ;;
  SPP_set 0 (if negb (sp2 =? 0) then u256 (u512 (sp0 * sp1) mod sp2) else 0) ;;
  mret NEXT.

Definition case_SIGNEXTEND : M H ctl :=
  updateIOGas ;;
  sp0 <- SP 0 ;;
  (if sp0 <? 31
   then
     let testBit := u32 (u32 sp0 * 8 + 7) in
     number <- SP 1 ;;
     let mask := u256 (u256 (Z.shiftl 1 testBit) - 1) in
     if Z.testbit number testBit then SP_set 1 (Z.lor number (u256 (Z.lnot mask)))
     else SP_set 1 (Z.land number mask)
   else mret tt) ;;
  mret NEXT.

(** The instructions of EIP-615 and EIP-616, disabled. *)
Definition case_EIP615 : M H ctl := throwBadInstruction.
Definition case_EIP616 : M H ctl := throwBadInstruction.

Definition case_ADDRESS : M H ctl :=
  updateIOGas ;;
  msg <- message ;;
  SPP_set 0 (fromAddress (fromEvmC_address (destination msg))) ;;
  mret NEXT.

Definition case_ORIGIN : M H ctl :=
  updateIOGas ;;
  tx <- getTxContext ;;
  SPP_set 0 (fromAddress (fromEvmC_address (tx_origin tx))) ;;
  mret NEXT.

Definition case_BALANCE : M H ctl :=
  r <- rev ;;
  setRunGas (if rev_ge r EVMC_TANGERINE_WHISTLE then 400 else 20) ;;
  updateIOGas ;;
  sp0 <- SP 0 ;;
  rawBalance <- host (fn_get_balance (asAddress sp0)) ;;
  SPP_set 0 (fromEvmC_uint256 rawBalance) ;;
  mret NEXT.

Definition case_CALLER : M H ctl :=
  updateIOGas ;;
  msg <- message ;;
  SPP_set 0 (fromAddress (fromEvmC_address (sender msg))) ;;
  mret NEXT.

Definition case_CALLVALUE : M H ctl :=
  updateIOGas ;;
  msg <- message ;;
  SPP_set 0 (fromEvmC_uint256 (value msg)) ;;
  mret NEXT.

(** The word [CALLDATALOAD] builds when it straddles the end of the data. *)
Definition calldata_tail (data : list Z) (i0 : Z) : list Z :=
  let e := u64 (i0 + 32) in
  map (fun j => let i := i0 + Z.of_nat j in
                if i <? e then (if i <? lenZ data then default 0 (data @@ i) else 0) else 0)
      (seq 0 32).

Definition case_CALLDATALOAD : M H ctl :=
  updateIOGas ;;
  msg <- message ;;
  let data := input_data msg in
  let dataSize := lenZ data in
  sp0 <- SP 0 ;;
  (if u512 (sp0 + 31) <? dataSize
   then w <- checked (slice (u64 sp0) 32 data) ;; SP_set 0 (fromBigEndian w)
   else if dataSize <=? sp0 then SP_set 0 0
   else SP_set 0 (fromBigEndian (calldata_tail data (u64 sp0)))) ;;
  mret NEXT.

Definition case_CALLDATASIZE : M H ctl :=
  updateIOGas ;;
  msg <- message ;;
  SPP_set 0 (u256 (u64 (lenZ (input_data msg)))) ;;
  mret NEXT.

Definition case_RETURNDATASIZE : M H ctl :=
  r <- rev ;;
  when (rev_lt r EVMC_BYZANTIUM) throwBadInstruction ;;
  updateIOGas ;;
  n <- get (fun s => lenZ (m_returnData s)) ;;
  SPP_set 0 (u256 (u64 n)) ;;
  mret NEXT.

Definition case_CODESIZE : M H ctl :=
  updateIOGas ;;
  n <- get m_codeSize ;;
  SPP_set 0 (u256 (u64 n)) ;;
  mret NEXT.

Definition case_EXTCODESIZE : M H ctl :=
  r <- rev ;;
  setRunGas (if rev_ge r EVMC_TANGERINE_WHISTLE then 700 else 20) ;;
  updateIOGas ;;
  sp0 <- SP 0 ;;
  n <- host (fn_get_code_size (asAddress sp0)) ;;
  SPP_set 0 (u256 (u64 n)) ;;
  mret NEXT.

(** The gas and memory of the copy instructions that start at [m_SP]. *)
Definition copy_prologue : M H unit :=
  sp2 <- SP 2 ;;
  c <- toInt63 sp2 ;;
  put (set_m_copyMemSize c) ;;
  sp0 <- SP 0 ;;
  need <- memNeed sp0 sp2 ;;
  updateMem need ;;
  updateIOGas.

Definition case_CALLDATACOPY : M H ctl :=
  copy_prologue ;;
  msg <- message ;;
  copyDataToMemory (input_data msg) ;;
  mret NEXT.

Definition case_RETURNDATACOPY : M H ctl :=
  r <- rev ;;
  when (rev_lt r EVMC_BYZANTIUM) throwBadInstruction ;;
  sp1 <- SP 1 ;; sp2 <- SP 2 ;;
  n <- get (fun s => lenZ (m_returnData s)) ;;
  when (n <? sp1 + sp2) throwBufferOverrun ;;
  copy_prologue ;;
  d <- get m_returnData ;;
  copyDataToMemory d ;;
  mret NEXT.

Definition case_CODECOPY : M H ctl :=
  copy_prologue ;;
  d <- get m_pCode ;;
  copyDataToMemory d ;;
  mret NEXT.

Definition case_EXTCODECOPY : M H ctl :=
  r <- rev ;;
  setRunGas (if rev_ge r EVMC_TANGERINE_WHISTLE then 700 else 20) ;;
  sp3 <- SP 3 ;;
  copyMemSize <- toInt63 sp3 ;;
  put (set_m_copyMemSize copyMemSize) ;;
  sp1 <- SP 1 ;;
  need <- memNeed sp1 sp3 ;;
  updateMem need ;;
  updateIOGas ;;
  sp0 <- SP 0 ;;
  sp2 <- SP 2 ;;
  let memoryOffset := u64 sp1 in
  let codeOffset := if 2 ^ 64 - 1 <? sp2 then 2 ^ 64 - 1 else u64 sp2 in
  let size := copyMemSize in
  d <- host (fn_copy_code (asAddress sp0) codeOffset size) ;;
  mem_write memoryOffset d ;;
  mem_write (memoryOffset + lenZ d) (replicate (Z.to_nat (u64 (size - lenZ d))) 0) ;;
  mret NEXT.

Definition case_GASPRICE : M H ctl :=
  updateIOGas ;;
  tx <- getTxContext ;;
  SPP_set 0 (fromEvmC_uint256 (tx_gas_price tx)) ;;
  mret NEXT.

Definition case_BLOCKHASH : M H ctl :=
  setRunGas VMSchedule.stepGas6 ;;
  updateIOGas ;;
  tx <- getTxContext ;;
  let blockNumber := block_number tx in
  number <- SP 0 ;;
  (if (number <? blockNumber) && (Z.max 256 blockNumber - 256 <=? number)
   then hash <- host (fn_get_block_hash (i64 number)) ;; SPP_set 0 (fromEvmC_uint256 hash)
   else SPP_set 0 0) ;;
  mret NEXT.

Definition case_COINBASE : M H ctl :=
  updateIOGas ;;
  tx <- getTxContext ;;
  SPP_set 0 (fromAddress (fromEvmC_address (block_coinbase tx))) ;;
  mret NEXT.

Definition case_TIMESTAMP : M H ctl :=
  updateIOGas ;;
  tx <- getTxContext ;;
  SPP_set 0 (u256 (block_timestamp tx)) ;;
  mret NEXT.

Definition case_NUMBER : M H ctl :=
  updateIOGas ;;
  tx <- getTxContext ;;
  SPP_set 0 (u256 (block_number tx)) ;;
  mret NEXT.

Definition case_DIFFICULTY : M H ctl :=
  updateIOGas ;;
  tx <- getTxContext ;;
  SPP_set 0 (fromEvmC_uint256 (block_difficulty tx)) ;;
  mret NEXT.

Definition case_GASLIMIT : M H ctl :=
  updateIOGas ;;
  tx <- getTxContext ;;
  SPP_set 0 (u256 (block_gas_limit tx)) ;;
  mret NEXT.

Definition case_POP : M H ctl :=
  updateIOGas ;;
  put (fun s => set_m_SP (m_SP s - 1) s) ;;
  mret NEXT.

(** A two-byte offset into the constant pool, then the count of push bytes to
    skip. *)
Definition case_PUSHC : M H ctl :=
  if EVM_OPTIMIZE then
    updateIOGas ;;
    incPC ;;
    hi <- code_at_PC ;; incPC ;;
    lo <- code_at_PC ;; incPC ;;
    let off := Z.lor (u32 (Z.shiftl hi 8)) lo in
    skip <- code_at_PC ;;
    put (fun s => set_m_PC (u64 (m_PC s + skip)) s) ;;
    pool <- get m_pool ;;
    v <- checked (pool @@ off) ;;
    SPP_set 0 v ;;
    mret CONTINUE
  else throwBadInstruction.

Definition case_PUSH1 : M H ctl :=
  updateIOGas ;;
  incPC ;;
  b <- code_at_PC ;;
  SPP_set 0 b ;;
  incPC ;;
  mret CONTINUE.

(** [for (++m_PC; numBytes--; ++m_PC) m_SPP[0] = (m_SPP[0] << 8) | m_code[m_PC]] *)
Fixpoint push_loop (numBytes : nat) : M H unit :=
  match numBytes with
  | O => mret tt
  | S n =>
      j <- get m_SPP ;;
      o <- get (fun s => m_stack s @@ j) ;;
      v <- checked o ;;
      b <- code_at_PC ;;
      SPP_set 0 (Z.lor (u256 (Z.shiftl v 8)) b) ;;
      incPC ;;
      push_loop n
  end.

Definition case_PUSHN : M H ctl :=
  updateIOGas ;;
  op <- get m_OP ;;
  let numBytes := op - opcode PUSH1 + 1 in
  SPP_set 0 0 ;;
  incPC ;;
  push_loop (Z.to_nat numBytes) ;;
  mret CONTINUE.

Definition case_JUMP : M H ctl :=
  updateIOGas ;;
  sp0 <- SP 0 ;;
  pc <- verifyJumpDest sp0 true ;;
  setPC (u64 pc) ;;
  mret CONTINUE.

Definition case_JUMPI : M H ctl :=
  updateIOGas ;;
  sp1 <- SP 1 ;;
  (if negb (sp1 =? 0)
   then sp0 <- SP 0 ;; pc <- verifyJumpDest sp0 true ;; setPC (u64 pc)
   else incPC) ;;
  mret CONTINUE.

Definition case_JUMPC : M H ctl :=
  if EVM_OPTIMIZE then
    updateIOGas ;;
    sp0 <- SP 0 ;;
    setPC (u64 sp0) ;;
    mret CONTINUE
  else throwBadInstruction.

Definition case_JUMPCI : M H ctl :=
  if EVM_OPTIMIZE then
    updateIOGas ;;
    sp1 <- SP 1 ;;
    (if negb (sp1 =? 0) then sp0 <- SP 0 ;; setPC (u64 sp0) else incPC) ;;
    mret CONTINUE
  else throwBadInstruction.

Definition case_DUP : M H ctl :=
  updateIOGas ;;
  op <- get m_OP ;;
  let n := u32 (op - opcode DUP1) in
  v <- SP n ;;
  SPP_set 0 v ;;
  mret NEXT.

Definition case_SWAP : M H ctl :=
  updateIOGas ;;
  op <- get m_OP ;;
  let n := u32 (op - opcode SWAP1 + 1) in
  a <- SP 0 ;; b <- SP n ;;
  SP_set 0 b ;;
  SP_set n a ;;
  mret NEXT.

Definition case_SLOAD : M H ctl :=
  r <- rev ;;
  setRunGas (if rev_ge r EVMC_TANGERINE_WHISTLE then 200 else 50) ;;
  updateIOGas ;;
  key <- SP 0 ;;
  msg <- message ;;
  value <- host (fn_get_storage (destination msg) key) ;;
  SPP_set 0 (fromEvmC_uint256 value) ;;
  mret NEXT.

Definition case_SSTORE : M H ctl :=
  msg <- message ;;
  when (is_static msg) throwDisallowedStateChange ;;
  updateSSGas ;;
  updateIOGas ;;
  key <- SP 0 ;; value <- SP 1 ;;
  host_ (fn_set_storage (destination msg) key value) ;;
  mret NEXT.

Definition case_PC : M H ctl :=
  updateIOGas ;;
  pc <- get m_PC ;;
  SPP_set 0 (u256 pc) ;;
  mret NEXT.

Definition case_MSIZE : M H ctl :=
  updateIOGas ;;
  n <- get (fun s => lenZ (m_mem s)) ;;
  SPP_set 0 (u256 (u64 n)) ;;
  mret NEXT.

Definition case_GAS : M H ctl :=
  updateIOGas ;;
  g <- get m_io_gas ;;
  SPP_set 0 (u256 g) ;;
  mret NEXT.

Definition case_JUMPDEST : M H ctl :=
  setRunGas VMSchedule.jumpdestGas ;;
  updateIOGas ;;
  mret NEXT.

Definition case_INVALID : M H ctl := throwBadInstruction.

(** ** Dispatch *)

(** The code behind a label of the switch. *)
Definition case_of (label : Instruction) : M H ctl :=
  match label with
  | CREATE2 => case_CREATE2
  | CREATE => case_CREATE
  | DELEGATECALL | STATICCALL | CALL | CALLCODE => case_CALLS
  | RETURN => case_RETURN
  | REVERT => case_REVERT
  | SUICIDE => case_SUICIDE
  | STOP => case_STOP
  | MLOAD => case_MLOAD
  | MSTORE => case_MSTORE
  | MSTORE8 => case_MSTORE8
  | SHA3 => case_SHA3
  | LOG0 => case_LOG0 | LOG1 => case_LOG1 | LOG2 => case_LOG2 | LOG3 => case_LOG3 | LOG4 => case_LOG4
  | EXP => case_EXP
  | ADD => case_ADD | MUL => case_MUL | SUB => case_SUB | DIV => case_DIV | SDIV => case_SDIV
  | MOD => case_MOD | SMOD => case_SMOD | NOT => case_NOT
  | LT => case_LT | GT => case_GT | SLT => case_SLT | SGT => case_SGT | EQ => case_EQ
  | ISZERO => case_ISZERO | AND => case_AND | OR => case_OR | XOR => case_XOR | BYTE => case_BYTE
  | SHL => case_SHL | SHR => case_SHR | SAR => case_SAR
  | ADDMOD => case_ADDMOD | MULMOD => case_MULMOD | SIGNEXTEND => case_SIGNEXTEND
  | JUMPTO | JUMPIF | JUMPV | JUMPSUB | JUMPSUBV | RETURNSUB | BEGINSUB | BEGINDATA
  | GETLOCAL | PUTLOCAL => case_EIP615
  | XADD | XMUL | XSUB | XDIV | XSDIV | XMOD | XSMOD | XLT | XGT | XSLT | XSGT | XEQ | XISZERO
  | XAND | XOOR | XXOR | XNOT | XSHL | XSHR | XSAR | XROL | XROR | XMLOAD | XMSTORE | XSLOAD
  | XSSTORE | XVTOWIDE | XWIDETOV | XPUSH | XPUT | XGET | XSWIZZLE | XSHUFFLE => case_EIP616
  | ADDRESS => case_ADDRESS | ORIGIN => case_ORIGIN | BALANCE => case_BALANCE
  | CALLER => case_CALLER | CALLVALUE => case_CALLVALUE | CALLDATALOAD => case_CALLDATALOAD
  | CALLDATASIZE => case_CALLDATASIZE | RETURNDATASIZE => case_RETURNDATASIZE
  | CODESIZE => case_CODESIZE | EXTCODESIZE => case_EXTCODESIZE
  | CALLDATACOPY => case_CALLDATACOPY | RETURNDATACOPY => case_RETURNDATACOPY
  | CODECOPY => case_CODECOPY | EXTCODECOPY => case_EXTCODECOPY
  | GASPRICE => case_GASPRICE | BLOCKHASH => case_BLOCKHASH | COINBASE => case_COINBASE
  | TIMESTAMP => case_TIMESTAMP | NUMBER => case_NUMBER | DIFFICULTY => case_DIFFICULTY
  | GASLIMIT => case_GASLIMIT | POP => case_POP
  | PUSHC => case_PUSHC | PUSH1 => case_PUSH1
  | PUSH2 | PUSH3 | PUSH4 | PUSH5 | PUSH6 | PUSH7 | PUSH8 | PUSH9 | PUSH10 | PUSH11 | PUSH12
  | PUSH13 | PUSH14 | PUSH15 | PUSH16 | PUSH17 | PUSH18 | PUSH19 | PUSH20 | PUSH21 | PUSH22
  | PUSH23 | PUSH24 | PUSH25 | PUSH26 | PUSH27 | PUSH28 | PUSH29 | PUSH30 | PUSH31 | PUSH32 =>
      case_PUSHN
  | JUMP => case_JUMP | JUMPI => case_JUMPI | JUMPC => case_JUMPC | JUMPCI => case_JUMPCI
  | DUP1 | DUP2 | DUP3 | DUP4 | DUP5 | DUP6 | DUP7 | DUP8 | DUP9 | DUP10 | DUP11 | DUP12 | DUP13
  | DUP14 | DUP15 | DUP16 => case_DUP
  | SWAP1 | SWAP2 | SWAP3 | SWAP4 | SWAP5 | SWAP6 | SWAP7 | SWAP8 | SWAP9 | SWAP10 | SWAP11
  | SWAP12 | SWAP13 | SWAP14 | SWAP15 | SWAP16 => case_SWAP
  | SLOAD => case_SLOAD | SSTORE => case_SSTORE | PC => case_PC | MSIZE => case_MSIZE
  | GAS => case_GAS | JUMPDEST => case_JUMPDEST
  | INVALID => case_INVALID
  end.

(** [EVM_SWITCH_DISPATCH]: [switch (m_OP)], with [DEFAULT] for the bytes that
    are no enumerator. *)
Definition switch_dispatch : M H ctl :=
  op <- get m_OP ;;
  match decode op with Some i => case_of i | None => case_INVALID end.

(** [EVM_JUMP_DISPATCH]: [goto* jumpTable[(int)m_OP]]. *)
Definition jump_dispatch : M H ctl :=
  op <- get m_OP ;;
  label <- checked (jumpTable @@ op) ;;
  case_of label.

Definition dispatch : M H ctl := if EVM_JUMP_DISPATCH then jump_dispatch else switch_dispatch.

End Cases.
