(* ===== verification/VMCalls.v ===== *)
(** * The cases that call out (libevm/VMCalls.cpp)

    [CREATE] and the four calls leave the interpreter loop; the trampoline of
    [exec] then runs [caseCreate] or [caseCall]. *)
From stdpp Require Import base list.
From Stdlib Require Import ZArith Lia.
From S2P Require Import Prelude Words Instruction Evmc VMState VMOps VMCases.

Section Calls.
  Context {H : Type} `{!EvmcHost H}.

(** [VM::caseCreate]. *)
Definition caseCreate_args : M H (Z * Z * Z) :=
  endowment <- SP 0 ;;
  op <- get m_OP ;;
  if op =? opcode CREATE
  then initOff <- SP 1 ;; initSize <- SP 2 ;; mret (endowment, initOff, initSize)
  else initOff <- SP 2 ;; initSize <- SP 3 ;; mret (endowment, initOff, initSize).

Definition caseCreate : M H unit :=
  bounce_to (Some Bounce_interpretCases) ;;
  setRunGas VMSchedule.createGas ;;
  args <- caseCreate_args ;;
  let '(endowment, initOff, initSize) := args in
  need <- memNeed initOff initSize ;;
  updateMem need ;;
  updateIOGas ;;
  put (set_m_returnData []) ;;
  message <- message ;;
  rawBalance <- host (fn_get_balance (destination message)) ;;
  let balance := fromEvmC_uint256 rawBalance in
  (if (endowment <=? balance) && (depth message <? 1024)
   then
     io <- get m_io_gas ;;
     r <- rev ;;
     let gas0 := i64 io in
     let gas := if rev_ge r EVMC_TANGERINE_WHISTLE then gas0 - Z.quot gas0 64 else gas0 in
     let off := u64 initOff in
     let size := u64 initSize in
     init <- mem_read off size ;;
     let msg := mkMessage EVMC_CREATE 0 (depth message + 1) gas 0 (destination message) init endowment in
     result <- host (fn_call msg) ;;
     SPP_set 0 (if decide (status_code result = EVMC_SUCCESS)
                then fromAddress (fromEvmC_address (create_address result)) else 0) ;;
     put (set_m_returnData (output_data result)) ;;
     put (fun s => set_m_io_gas (u64 (m_io_gas s - (gas - gas_left result))) s)
   else SPP_set 0 0) ;;
  incPC.

(** The kind and the flags of the message of a call. *)
Definition call_kind (op : Z) : evmc_call_kind :=
  if op =? opcode CALLCODE then EVMC_CALLCODE
  else if op =? opcode DELEGATECALL then EVMC_DELEGATECALL
  else EVMC_CALL.

Definition call_flags (op : Z) (message : evmc_message) : Z :=
  if (op =? opcode STATICCALL) || is_static message then EVMC_STATIC else 0.

(** The cost of a call before memory and the gas it passes on. *)
Definition call_base_gas (r : evmc_revision) (op : Z) (destinationExists : bool) (haveValueArg : bool)
    (value : Z) : Z :=
  let g0 := if rev_ge r EVMC_TANGERINE_WHISTLE then 700 else 40 in
  let g1 := if (op =? opcode CALL) && negb destinationExists
               && ((0 <? value) || rev_lt r EVMC_SPURIOUS_DRAGON)
            then g0 + VMSchedule.callNewAccount else g0 in
  if haveValueArg && (0 <? value) then g1 + VMSchedule.valueTransferGas else g1.

(** [VM::caseCallSetup]: the message, and the output range of memory when the
    call is to be made. *)
Definition caseCallSetup : M H (evmc_message * option (Z * Z)) :=
  r <- rev ;;
  op <- get m_OP ;;
  message <- message ;;
  let kind := call_kind op in
  let flags := call_flags op message in
  let haveValueArg := (op =? opcode CALL) || (op =? opcode CALLCODE) in
  sp1 <- SP 1 ;;
  let dest := asAddress sp1 in
  destinationExists <- host (fn_account_exists dest) ;;
  sp2 <- SP 2 ;;
  setRunGas (call_base_gas r op destinationExists haveValueArg sp2) ;;
  let sizesOffset := if haveValueArg then 3 else 2 in
  inputOffset <- SP sizesOffset ;;
  inputSize <- SP (sizesOffset + 1) ;;
  outputOffset <- SP (sizesOffset + 2) ;;
  outputSize <- SP (sizesOffset + 3) ;;
  inputMemNeed <- memNeed inputOffset inputSize ;;
  outputMemNeed <- memNeed outputOffset outputSize ;;
  put (set_m_newMemSize (Z.max inputMemNeed outputMemNeed)) ;;
  updateMem (Z.max inputMemNeed outputMemNeed) ;;
  updateIOGas ;;
  sp0 <- SP 0 ;;
  io <- get m_io_gas ;;
  let callGas := if rev_ge r EVMC_TANGERINE_WHISTLE then Z.min sp0 (io - io / 64) else sp0 in
  gas <- toInt63 callGas ;;
  setRunGas gas ;;
  updateIOGas ;;
  input <- mem_read (u64 inputOffset) (u64 inputSize) ;;
  let msg0 := mkMessage kind flags 0 gas dest (destination message) input 0 in
  mb <- (if haveValueArg
         then
           if 0 <? sp2
           then
             rawBalance <- host (fn_get_balance (destination message)) ;;
             let balance := fromEvmC_uint256 rawBalance in
             mret (mkMessage kind flags 0 (i64 (gas + VMSchedule.callStipend)) dest
                     (destination message) input sp2, sp2 <=? balance)
           else mret (msg0, true)
         else if op =? opcode DELEGATECALL
         then mret (mkMessage kind flags 0 gas dest (sender message) input (value message), true)
         else mret (msg0, true)) ;;
  let '(msg, balanceOk) := mb in
  if balanceOk && (depth message <? 1024)
  then mret (msg, Some (u64 outputOffset, u64 outputSize))
  else mret (msg, None).

(** [VM::caseCall]. *)
Definition caseCall : M H unit :=
  bounce_to (Some Bounce_interpretCases) ;;
  put (set_m_returnData []) ;;
  setup <- caseCallSetup ;;
  let '(msg, output) := setup in
  match output with
  | Some (outOff, outSize) =>
      result <- host (fn_call msg) ;;
      put (set_m_returnData (output_data result)) ;;
      mem_write outOff (take (Z.to_nat outSize) (output_data result)) ;;
      SPP_set 0 (if decide (status_code result = EVMC_SUCCESS) then 1 else 0) ;;
      put (fun s => set_m_io_gas (u64 (m_io_gas s + gas_left result)) s)
  | None =>
      SPP_set 0 0 ;;
      put (fun s => set_m_io_gas (u64 (m_io_gas s + msg_gas msg)) s)
  end ;;
  incPC.

End Calls.
