(* ===== verification/VMExec.v ===== *)
(** * Code analysis, the interpreter loop and the entry points
    (libevm/VMOpt.cpp, VM.cpp)

    [optimize] copies the code with 33 zero bytes behind it, collects the jump
    destinations and, when [EVM_OPTIMIZE] is set, rewrites long pushes into
    constant pool references and constant jumps into verified jumps. *)
From stdpp Require Import base list.
From Stdlib Require Import ZArith Lia.
From S2P Require Import Prelude Words Instruction Evmc VMState VMOps VMCases VMCalls.

(** ** The analysis of the code

    The passes read and write the extended code; [None] is an access outside
    of it. *)

(** [VM::copyCode]. *)
Definition copyCode (pCode : list Z) (extraBytes : nat) : list Z := pCode ++ replicate extraBytes 0.

Definition is_push (op : Z) : bool := (opcode PUSH1 <=? op) && (op <=? opcode PUSH32).

(** The number of bytes pushed. *)
Definition push_bytes (op : Z) : Z := op - opcode PUSH1 + 1.

Definition is_synthetic (op : Z) : bool :=
  (op =? opcode PUSHC) || (op =? opcode JUMPC) || (op =? opcode JUMPCI).

(** First loop of [VM::optimize]: disable the synthetic opcodes of user code
    and build the table of jump destinations.  Each round advances [pc]. *)
Fixpoint jumpDestLoop (fuel : nat) (nBytes pc : Z) (code jumpDests : list Z)
    : option (list Z * list Z) :=
  match fuel with
  | O => Some (code, jumpDests)
  | S f =>
      if pc <? nBytes then
        match code @@ pc with
        | None => None
        | Some op =>
            let code' := if is_synthetic op then upd code pc (opcode INVALID) else code in
            if op =? opcode JUMPDEST then jumpDestLoop f nBytes (pc + 1) code' (jumpDests ++ [pc])
            else if is_push op then jumpDestLoop f nBytes (pc + push_bytes op + 1) code' jumpDests
            else jumpDestLoop f nBytes (pc + 1) code' jumpDests
        end
      else Some (code, jumpDests)
  end.

(** The value of the bytes pushed: [val = m_code[pc+1]], then
    [for (i = pc+2, n = nPush; --n; ++i) val = (val << 8) | m_code[i]]. *)
Fixpoint push_value_loop (n : nat) (i : Z) (code : list Z) (val : Z) : option Z :=
  match n with
  | O => Some val
  | S n' =>
      match code @@ i with
      | None => None
      | Some b => push_value_loop n' (i + 1) code (Z.lor (u256 (Z.shiftl val 8)) b)
      end
  end.

Definition push_value (pc nPush : Z) (code : list Z) : option Z :=
  match code @@ (pc + 1) with
  | None => None
  | Some b => push_value_loop (Z.to_nat (nPush - 1)) (pc + 2) code b
  end.

(** [EVM_USE_CONSTANT_POOL]: [PUSHn] with more than five bytes becomes
    [PUSHC], the offset in the pool and the count of bytes that remain. *)
Definition use_constant_pool (pc nPush val : Z) (code pool : list Z) : option (list Z * list Z) :=
  if 5 <? nPush then
    let pool_off := u16 (lenZ pool) in
    if pc + 3 <? lenZ code then
      let code := upd code pc (opcode PUSHC) in
      let code := upd code (pc + 3) (u8 (nPush - 2)) in
      let code := upd code (pc + 2) (Z.land pool_off 0xff) in
      let code := upd code (pc + 1) (u8 (Z.shiftr pool_off 8)) in
      Some (code, pool ++ [val])
    else None
  else Some (code, pool).

(** [EVM_REPLACE_CONST_JUMP]: a jump right after the push of a valid
    destination needs no check at run time. *)
Definition replace_const_jump (i val : Z) (jumpDests code : list Z) : option (list Z) :=
  match code @@ i with
  | None => None
  | Some op =>
      if op =? opcode JUMP then
        Some (if verifyJumpDest_found jumpDests val then upd code i (opcode JUMPC) else code)
      else if op =? opcode JUMPI then
        Some (if verifyJumpDest_found jumpDests val then upd code i (opcode JUMPCI) else code)
      else Some code
  end.

(** Second loop of [VM::optimize]. *)
Fixpoint firstPassLoop (fuel : nat) (nBytes pc : Z) (jumpDests code pool : list Z)
    : option (list Z * list Z) :=
  match fuel with
  | O => Some (code, pool)
  | S f =>
      if pc <? nBytes then
        match code @@ pc with
        | None => None
        | Some op =>
            if is_push op then
              let nPush := push_bytes op in
              match push_value pc nPush code with
              | None => None
              | Some val =>
                  match use_constant_pool pc nPush val code pool with
                  | None => None
                  | Some (code, pool) =>
                      match replace_const_jump (pc + nPush + 1) val jumpDests code with
                      | None => None
                      | Some code => firstPassLoop f nBytes (pc + nPush + 1) jumpDests code pool
                      end
                  end
              end
            else firstPassLoop f nBytes (pc + 1) jumpDests code pool
        end
      else Some (code, pool)
  end.

(** What [VM::optimize] computes from the code it is given. *)
Definition analyse (optimized : bool) (pCode : list Z) : option (list Z * list Z * list Z) :=
  let n := length pCode in
  match jumpDestLoop n (lenZ pCode) 0 (copyCode pCode 33) [] with
  | None => None
  | Some (code, dests) =>
      if optimized then
        match firstPassLoop n (lenZ pCode) 0 dests code [] with
        | None => None
        | Some (code, pool) => Some (code, dests, pool)
        end
      else Some (code, dests, [])
  end.

Section Exec.
  Context {H : Type} `{!EvmcHost H} {config : VMConfig}.
  Context (sha3 : list Z -> list Z).

(** [VM::optimize] and [VM::initEntry]. *)
Definition optimize : M H unit :=
  code <- get m_pCode ;;
  r <- checked (analyse EVM_OPTIMIZE code) ;;
  let '(code, dests, pool) := r in
  put (set_m_code code) ;;
  put (set_m_jumpDests dests) ;;
  put (set_m_pool pool).

Definition initEntry : M H unit :=
  bounce_to (Some Bounce_interpretCases) ;;
  optimize.

(** One round of the interpreter loop. *)
Definition interpretStep : M H ctl :=
  fetchInstruction ;;
  c <- dispatch sha3 ;;
  match c with
  | NEXT => incPC ;; mret NEXT
  | CONTINUE => mret CONTINUE
  | BREAK => mret BREAK
  end.

(** [VM::interpretCases]: [DO_CASES] ... [WHILE_CASES]. *)
Fixpoint interpretCases (fuel : nat) : M H unit :=
  match fuel with
  | O => nofuel
  | S f => c <- interpretStep ;; match c with BREAK => mret tt | _ => interpretCases f end
  end.

(** [(this->*m_bounce)()]. *)
Definition bounce (fuel : nat) : M H unit :=
  b <- get m_bounce ;;
  match b with
  | Some Bounce_initEntry => initEntry
  | Some Bounce_interpretCases => interpretCases fuel
  | Some Bounce_caseCreate => caseCreate
  | Some Bounce_caseCall => caseCall
  | None => ub
  end.

(** [do (this->*m_bounce)(); while (m_bounce);] *)
Fixpoint trampoline (n fuel : nat) : M H unit :=
  match n with
  | O => nofuel
  | S n' =>
      bounce fuel ;;
      b <- get m_bounce ;;
      match b with Some _ => trampoline n' fuel | None => mret tt end
  end.

(** [VM::exec]. *)
Definition exec (fuel : nat) (r : evmc_revision) (msg : evmc_message) (code : list Z) : M H (list Z) :=
  put (set_m_rev r) ;;
  put (set_m_message msg) ;;
  put (set_m_io_gas (u64 (msg_gas msg))) ;;
  put (set_m_PC 0) ;;
  put (set_m_pCode code) ;;
  bounce_to (Some Bounce_initEntry) ;;
  trampoline fuel fuel ;;
  get m_output.

(** [execute]: the C entry point.  No exception leaves it: what [VM::exec] throws
    is a [VMException], and an exception in a callback of the host ends there (in
    [ExtVM.v]), so the last handler, for [EVMC_INTERNAL_ERROR], has no case where memory is
    not short. *)
Definition execute (fuel : nat) (r : evmc_revision) (msg : evmc_message) (code : list Z) (h : H)
    : option evmc_result * H :=
  match exec fuel r msg code VM_init h with
  | (Ret output, s, h') => (Some (mkResult EVMC_SUCCESS (i64 (m_io_gas s)) output 0), h')
  | (Throw (RevertInstruction output), s, h') =>
      (Some (mkResult EVMC_REVERT (i64 (m_io_gas s)) output 0), h')
  | (Throw _, _, h') => (Some (mkResult EVMC_FAILURE 0 [] 0), h')
  | (UB, _, h') => (None, h')
  | (NoFuel, _, h') => (None, h')
  end.

End Exec.
