(* ===== verification/VMSpec.v ===== *)
(** * Specifications of the stack, gas and memory operations

    The invariant [core_ok] of the members of the VM, and for every operation
    of VMOps.v a [wp] rule: what it needs, what it changes, and on which
    condition it throws.  The rules are the hints the tactic [vm_run] steps
    through a case with. *)
From stdpp Require Import base list.
From Stdlib Require Import ZArith Lia.
From S2P Require Import Prelude Words Instruction Evmc VMState VMOps.

(** ** The invariant *)

(** Memory is never larger than this: the cost of more overflows the gas type. *)
Definition maxMem : Z := 2 ^ 42.

Record core_ok (s : VM) : Prop := {
  ok_stack_len : lenZ (m_stack s) = 1024;
  ok_stack : Forall (fun v => is_u256 v) (m_stack s);
  ok_gas : 0 <= m_io_gas s < 2 ^ 63;
  ok_mem : Forall (fun b => is_byte b) (m_mem s);
  ok_mem_len : 32 * (lenZ (m_mem s) / 32) = lenZ (m_mem s) /\ lenZ (m_mem s) <= maxMem;
  ok_SPP : 0 <= m_SPP s <= 1024;
  ok_code : Forall (fun b => is_byte b) (m_code s);
  ok_pCode : Forall (fun b => is_byte b) (m_pCode s) /\ lenZ (m_pCode s) < 2 ^ 62;
  ok_input : Forall (fun b => is_byte b) (input_data (m_message s)) /\ lenZ (input_data (m_message s)) < 2 ^ 63;
  ok_returnData : Forall (fun b => is_byte b) (m_returnData s) /\ lenZ (m_returnData s) < 2 ^ 63;
  ok_output : Forall (fun b => is_byte b) (m_output s) /\ lenZ (m_output s) <= maxMem;
  ok_pool : Forall (fun v => is_u256 v) (m_pool s)
}.

(** The cost of a memory of [size] bytes. *)
Definition memory_cost (size : Z) : Z :=
  VMSchedule.memoryGas * (size / 32) + (size / 32) * (size / 32) / VMSchedule.quadCoeffDiv.

Definition copy_cost (size : Z) : Z := VMSchedule.copyGas * ((size + 31) / 32).

(** The size memory is rounded up to. *)
Definition words_size (n : Z) : Z := (n + 31) / 32 * 32.

Lemma memory_cost_mono a b : 0 <= a <= b -> memory_cost a <= memory_cost b.
Proof.
  intros. unfold memory_cost, VMSchedule.memoryGas, VMSchedule.quadCoeffDiv.
  assert (0 <= a / 32) by (apply Z.div_pos; lia).
  assert (a / 32 <= b / 32) by (apply Z.div_le_mono; lia).
  assert (a / 32 * (a / 32) / 512 <= b / 32 * (b / 32) / 512) by (apply Z.div_le_mono; nia). lia.
Qed.

Lemma memory_cost_nonneg a : 0 <= a -> 0 <= memory_cost a.
Proof.
  intros. unfold memory_cost, VMSchedule.memoryGas, VMSchedule.quadCoeffDiv.
  assert (0 <= a / 32) by (apply Z.div_pos; lia).
  assert (0 <= a / 32 * (a / 32) / 512) by (apply Z.div_pos; nia). lia.
Qed.

(** What [gasForMem] can represent bounds the memory. *)
Lemma memory_cost_bound a : 0 <= a -> memory_cost a < 2 ^ 63 -> a < maxMem.
Proof.
  intros Ha Hc. unfold memory_cost, VMSchedule.memoryGas, VMSchedule.quadCoeffDiv, maxMem in *.
  assert (0 <= a / 32) by (apply Z.div_pos; lia). set (w := a / 32) in *.
  assert (a < 32 * w + 32) by (subst w; pose proof (Z.div_mod a 32); pose proof (Z.mod_pos_bound a 32); lia).
  enough (w < 2 ^ 37) by lia.
  destruct (Z.lt_ge_cases w (2 ^ 37)) as [|Hw]; [done|]. exfalso.
  assert (2 ^ 65 <= w * w / 512) by (apply Z.div_le_lower_bound; nia). lia.
Qed.

Lemma words_size_spec n : 0 <= n -> n <= words_size n < n + 32 /\ words_size n mod 32 = 0.
Proof.
  intros. unfold words_size. rewrite Z.mod_mul by lia. split; [|done].
  pose proof (Z.div_mod (n + 31) 32). pose proof (Z.mod_pos_bound (n + 31) 32). lia.
Qed.

(** Growing a memory keeps its bytes. *)
Lemma grown_bytes (mem m : list Z) :
  mem = resize (lenZ mem) m -> Forall (fun b => is_byte b) m -> Forall (fun b => is_byte b) mem.
Proof. intros ->. intros. apply resize_Forall; [lia|done]. Qed.

Section Rules.
  Context {H : Type} `{!EvmcHost H}.
  Implicit Types (s : VM) (h : H) (E : VMException -> VM -> H -> Prop).

Lemma wp_when (b : bool) (m : M H unit) Q E s h :
  (b = true -> wp m Q E s h) -> (b = false -> Q tt s h) -> wp (when b m) Q E s h.
Proof. intros Ht Hf. destruct b; [by apply Ht|by apply Hf]. Qed.

Lemma wp_SP i Q E s h :
  lenZ (m_stack s) = 1024 -> Forall (fun v => is_u256 v) (m_stack s) -> 0 <= m_SP s + i < 1024 ->
  (forall v, m_stack s @@ (m_SP s + i) = Some v -> is_u256 v -> Q v s h) -> wp (SP i) Q E s h.
Proof.
  intros Hlen Hst Hi HQ. destruct (getZ_lookup (m_stack s) (m_SP s + i)) as [v Hv]; [lia|].
  apply wp_bind, wp_get. rewrite Hv. apply HQ; [done|]. by apply (getZ_Forall _ _ _ _ Hst Hv).
Qed.

Lemma wp_stack_write j v Q E s h :
  lenZ (m_stack s) = 1024 -> 0 <= j < 1024 ->
  Q tt (set_m_stack (upd (m_stack s) j v) s) h -> wp (stack_write j v) Q E s h.
Proof.
  intros Hlen Hj HQ. destruct (getZ_lookup (m_stack s) j) as [w Hw]; [lia|].
  apply wp_bind, wp_get. rewrite Hw. apply wp_bind, wp_ret. by apply wp_put.
Qed.

Lemma wp_SPP_set i v Q E s h :
  lenZ (m_stack s) = 1024 -> 0 <= m_SPP s + i < 1024 ->
  Q tt (set_m_stack (upd (m_stack s) (m_SPP s + i) v) s) h -> wp (SPP_set i v) Q E s h.
Proof. intros. apply wp_bind, wp_get. by apply wp_stack_write. Qed.

Lemma wp_SP_set i v Q E s h :
  lenZ (m_stack s) = 1024 -> 0 <= m_SP s + i < 1024 ->
  Q tt (set_m_stack (upd (m_stack s) (m_SP s + i) v) s) h -> wp (SP_set i v) Q E s h.
Proof. intros. apply wp_bind, wp_get. by apply wp_stack_write. Qed.

Lemma wp_toInt63 v Q E s h :
  0 <= v -> (v < 2 ^ 63 -> Q v s h) -> (2 ^ 63 <= v -> E OutOfGas s h) -> wp (toInt63 v) Q E s h.
Proof.
  intros Hv HQ HE. unfold toInt63. destruct (Z.ltb_spec 0x7FFFFFFFFFFFFFFF v).
  - apply wp_throw, HE. lia.
  - apply wp_ret. rewrite u64_small by lia. apply HQ. lia.
Qed.

Lemma wp_memNeed off size Q E s h :
  is_u256 off -> is_u256 size ->
  (forall n, 0 <= n < 2 ^ 63 -> (size = 0 /\ n = 0 \/ 0 < size /\ n = off + size) -> Q n s h) ->
  E OutOfGas s h -> wp (memNeed off size) Q E s h.
Proof.
  intros Ho Hs HQ HE. unfold memNeed. destruct (Z.eqb_spec size 0) as [->|]; cbn [negb].
  - apply wp_toInt63; auto with lia.
  - rewrite u512_small by lia. apply wp_toInt63; [lia| |done]. intros. apply HQ; lia.
Qed.

Lemma wp_updateIOGas Q E s h :
  (m_runGas s <= m_io_gas s -> Q tt (set_m_io_gas (m_io_gas s - m_runGas s) s) h) ->
  (m_io_gas s < m_runGas s -> E OutOfGas s h) -> wp updateIOGas Q E s h.
Proof.
  intros HQ HE. apply wp_bind, wp_get, wp_bind, wp_get, wp_bind, wp_when.
  - intros ?%Z.ltb_lt. by apply wp_throw, HE.
  - intros ?%Z.ltb_ge. apply wp_put. auto.
Qed.

Lemma wp_gasForMem size Q E s h :
  0 <= size < 2 ^ 64 ->
  (memory_cost size < 2 ^ 63 -> Q (memory_cost size) s h) ->
  (2 ^ 63 <= memory_cost size -> E OutOfGas s h) -> wp (gasForMem size) Q E s h.
Proof.
  intros Hs HQ HE. unfold gasForMem.
  assert (0 <= size / 32 < 2 ^ 64) by (split; [apply Z.div_pos|apply Z.div_lt_upper_bound]; lia).
  assert (u512 (u512 (VMSchedule.memoryGas * (size / 32))
    + u512 (size / 32 * (size / 32)) / VMSchedule.quadCoeffDiv) = memory_cost size) as ->.
  { unfold memory_cost, VMSchedule.memoryGas, VMSchedule.quadCoeffDiv.
    set (w := size / 32) in *. rewrite (u512_small (3 * w)), (u512_small (w * w)) by nia.
    apply u512_small. split; [apply Z.add_nonneg_nonneg; [lia|apply Z.div_pos; nia]|].
    assert (w * w / 512 <= w * w) by (apply Z.div_le_upper_bound; nia). nia. }
  apply wp_toInt63; [apply memory_cost_nonneg; lia|done|done].
Qed.

(** [updateMem]: memory grows to the words that hold [n] bytes, and the run gas
    by the cost of the growth and of the copy. *)
Lemma wp_updateMem n Q E s h :
  0 <= m_io_gas s < 2 ^ 63 -> 32 * (lenZ (m_mem s) / 32) = lenZ (m_mem s) -> lenZ (m_mem s) <= maxMem ->
  0 <= n < 2 ^ 63 + 64 -> 0 <= m_runGas s -> 0 <= m_copyMemSize s < 2 ^ 63 ->
  m_runGas s + copy_cost (m_copyMemSize s) <= 2 ^ 63 ->
  (forall mem g, lenZ mem = Z.max (lenZ (m_mem s)) (words_size n) -> lenZ mem <= maxMem ->
    mem = resize (lenZ mem) (m_mem s) -> 32 * (lenZ mem / 32) = lenZ mem ->
    g = m_runGas s + (memory_cost (lenZ mem) - memory_cost (lenZ (m_mem s))) + copy_cost (m_copyMemSize s) ->
    m_runGas s <= g <= m_io_gas s ->
    Q tt (set_m_mem mem (set_m_runGas g (set_m_newMemSize (words_size n) s))) h) ->
  (forall g, E OutOfGas (set_m_runGas g (set_m_newMemSize (words_size n) s)) h) ->
  wp (updateMem n) Q E s h.
Proof.
  intros Hio Hm32 Hmax Hn Hg Hc Hgc HQ HE. pose proof (words_size_spec n ltac:(lia)) as [Hw Hw32].
  pose proof (lenZ_nonneg (m_mem s)) as Hm0. assert (Hmax' := Hmax). unfold maxMem in Hmax.
  assert (u64 (u64 (n + 31) / 32 * 32) = words_size n) as Hnew.
  { rewrite (u64_small (n + 31)) by lia. apply u64_small. fold (words_size n). lia. }
  assert (E OutOfGas (set_m_newMemSize (words_size n) s) h) as HE'
    by (specialize (HE (m_runGas s)); by destruct s).
  unfold updateMem. rewrite Hnew. apply wp_bind, wp_put, wp_bind.
  set (s1 := set_m_newMemSize (words_size n) s).
  assert (0 <= copy_cost (m_copyMemSize s) < 2 ^ 62) as Hcc.
  { unfold copy_cost, VMSchedule.copyGas.
    assert (0 <= (m_copyMemSize s + 31) / 32 < 2 ^ 59)
      by (split; [apply Z.div_pos|apply Z.div_lt_upper_bound]; lia). lia. }
  assert (forall s2 g, s2 = set_m_runGas g s1 -> 0 <= g < 2 ^ 64 ->
    u64 (m_runGas s2 + u64 (VMSchedule.copyGas * (u64 (m_copyMemSize s2 + 31) / 32)))
    = u64 (g + copy_cost (m_copyMemSize s))) as Hcopy.
  { intros s2 g -> Hg2. subst s1. vm_cbn. rewrite (u64_small (_ + 31)) by lia.
    fold (copy_cost (m_copyMemSize s)). by rewrite (u64_small (copy_cost _)) by lia. }
  unfold updateGas. apply wp_bind, wp_get, wp_bind, wp_get. subst s1. vm_cbn.
  apply wp_bind, wp_when.
  - intros Hlt%Z.ltb_lt. apply wp_bind, wp_gasForMem; [lia| |intros _; exact HE'].
    intros Hnew63. apply wp_bind, wp_gasForMem; [lia| |intros _; exact HE'].
    intros Hold63. pose proof (memory_cost_mono (lenZ (m_mem s)) (words_size n)) as Hmono.
    pose proof (memory_cost_nonneg (lenZ (m_mem s)) Hm0).
    rewrite u64_small by lia. apply wp_bind, wp_toInt63; [lia| |lia]. intros Hd. apply wp_put. vm_cbn.
    apply wp_bind, wp_put. rewrite (Hcopy _ (m_runGas s + (memory_cost (words_size n) - memory_cost (lenZ (m_mem s)))));
      [|rewrite u64_small by lia; done|lia].
    apply wp_bind, wp_get, wp_bind, wp_get. vm_cbn. apply wp_when; [intros _; apply wp_throw; apply HE|].
    intros Hge%Z.ltb_ge. apply wp_put. vm_cbn.
    destruct (Z.ltb_spec (lenZ (m_mem s)) (words_size n)); [|lia].
    assert (m_runGas s + (memory_cost (words_size n) - memory_cost (lenZ (m_mem s)))
            + copy_cost (m_copyMemSize s) < 2 ^ 64) by lia.
    rewrite u64_small in Hge |- * by lia.
    pose proof (resize_length (words_size n) (m_mem s) ltac:(lia)) as Hrl.
    pose proof (memory_cost_bound (words_size n) ltac:(lia) Hnew63).
    apply (HQ (resize (words_size n) (m_mem s))); rewrite ?Hrl; try lia.
    + done.
    + pose proof (Z.div_mod (words_size n) 32 ltac:(lia)). lia.
  - intros Hge0%Z.ltb_ge. apply wp_bind, wp_put.
    rewrite (Hcopy _ (m_runGas s)); [|by destruct s|lia].
    apply wp_bind, wp_get, wp_bind, wp_get. vm_cbn. apply wp_when; [intros _; apply wp_throw; apply HE|].
    intros Hge%Z.ltb_ge. apply wp_put. vm_cbn.
    destruct (Z.ltb_spec (lenZ (m_mem s)) (words_size n)); [lia|].
    rewrite u64_small in Hge |- * by lia.
    replace (set_m_runGas _ _) with
      (set_m_mem (m_mem s) (set_m_runGas (m_runGas s + copy_cost (m_copyMemSize s)) (set_m_newMemSize (words_size n) s)))
      by (by destruct s).
    apply HQ; rewrite ?resize_id; done || lia.
Qed.

Lemma wp_logGasMem n Q E s h :
  m_OP s = opcode LOG0 + n -> 0 <= n <= 4 -> m_copyMemSize s = 0 ->
  lenZ (m_stack s) = 1024 -> Forall (fun v => is_u256 v) (m_stack s) -> 0 <= m_SP s -> m_SP s + 1 < 1024 ->
  0 <= m_io_gas s < 2 ^ 63 -> 32 * (lenZ (m_mem s) / 32) = lenZ (m_mem s) -> lenZ (m_mem s) <= maxMem ->
  (forall sp0 sp1 mem g need, m_stack s @@ m_SP s = Some sp0 -> m_stack s @@ (m_SP s + 1) = Some sp1 ->
    is_u256 sp0 -> is_u256 sp1 -> 0 <= need < 2 ^ 63 ->
    (sp1 = 0 /\ need = 0 \/ 0 < sp1 /\ need = sp0 + sp1) ->
    lenZ mem = Z.max (lenZ (m_mem s)) (words_size need) -> lenZ mem <= maxMem -> need <= lenZ mem ->
    mem = resize (lenZ mem) (m_mem s) -> 32 * (lenZ mem / 32) = lenZ mem ->
    g = VMSchedule.logGas + VMSchedule.logTopicGas * n + VMSchedule.logDataGas * sp1
        + (memory_cost (lenZ mem) - memory_cost (lenZ (m_mem s))) ->
    375 <= g <= m_io_gas s ->
    Q tt (set_m_mem mem (set_m_runGas g (set_m_newMemSize (words_size need) s))) h) ->
  (forall g n, E OutOfGas (set_m_runGas g (set_m_newMemSize n s)) h) ->
  wp logGasMem Q E s h.
Proof.
  intros Hop Hn Hc Hlen Hst Hsp0 Hsp1 Hio Hm32 Hmax HQ HE.
  assert (E OutOfGas s h) as HE0 by (specialize (HE (m_runGas s) (m_newMemSize s)); by destruct s).
  unfold logGasMem. apply wp_bind, wp_get, wp_bind, wp_SP; [done..|lia|]. intros sp1 Hs1 Hr1.
  rewrite Hop. replace (opcode LOG0 + n - opcode LOG0) with n by lia. rewrite (u32_small n) by lia.
  unfold VMSchedule.logGas, VMSchedule.logTopicGas, VMSchedule.logDataGas in *.
  rewrite (u512_small (8 * sp1)), u512_small by (try rewrite u512_small by lia; lia).
  apply wp_bind, wp_toInt63; [lia|intros Hg|done].
  apply wp_bind, wp_put, wp_bind, wp_SP; vm_cbn; [done..|lia|]. rewrite Z.add_0_r. intros sp0 Hs0 Hr0.
  apply wp_bind, wp_memNeed; [done..|intros need Hneed Hcase|].
  2: { specialize (HE (375 + 375 * n + 8 * sp1) (m_newMemSize s)). by destruct s. }
  apply wp_updateMem; vm_cbn; rewrite ?Hc; try done; try lia.
  - unfold copy_cost, VMSchedule.copyGas. change ((0 + 31) / 32) with 0. lia.
  - intros mem g Hml Hmm Hmr Hm32' Hgg Hgio. unfold copy_cost in Hgg. change (VMSchedule.copyGas * ((0 + 31) / 32)) with 0 in Hgg.
    pose proof (words_size_spec need). apply (HQ sp0 sp1 mem g need); try done; try lia.
  - intros g. apply (HE g).
Qed.

Lemma wp_mem_read off n Q E s h :
  Forall (fun b => is_byte b) (m_mem s) -> 0 <= off -> 0 <= n -> (n = 0 \/ off + n <= lenZ (m_mem s)) ->
  (forall d, slice off n (m_mem s) = Some d -> lenZ d = n -> Forall (fun b => is_byte b) d -> Q d s h) ->
  wp (mem_read off n) Q E s h.
Proof.
  intros Hm Ho Hn Hr HQ. destruct (slice_Some off n (m_mem s) Ho Hn Hr) as (d & Hd & Hlen).
  apply wp_bind, wp_get. rewrite Hd. apply HQ; [done..|]. by apply (slice_Forall _ _ _ _ _ Hm Hd).
Qed.

Lemma wp_checked_slice off n l Q E s h :
  Forall (fun b => is_byte b) l -> 0 <= off -> 0 <= n -> (n = 0 \/ off + n <= lenZ l) ->
  (forall d, slice off n l = Some d -> lenZ d = n -> Forall (fun b => is_byte b) d -> Q d s h) ->
  wp (checked (slice off n l)) Q E s h.
Proof.
  intros Hm Ho Hn Hr HQ. destruct (slice_Some off n l Ho Hn Hr) as (d & Hd & Hlen).
  rewrite Hd. apply HQ; [done..|]. by apply (slice_Forall _ _ _ _ _ Hm Hd).
Qed.

Lemma wp_mem_write off d Q E s h :
  Forall (fun b => is_byte b) (m_mem s) -> Forall (fun b => is_byte b) d ->
  0 <= off -> (lenZ d = 0 \/ off + lenZ d <= lenZ (m_mem s)) ->
  (forall m, blit off d (m_mem s) = Some m -> lenZ m = lenZ (m_mem s) -> Forall (fun b => is_byte b) m ->
    Q tt (set_m_mem m s) h) ->
  wp (mem_write off d) Q E s h.
Proof.
  intros Hm Hd Ho Hr HQ. destruct (blit_Some off d (m_mem s) Ho Hr) as (m & Hb & Hlen).
  apply wp_bind, wp_get. rewrite Hb. apply wp_bind, wp_ret, wp_put. apply HQ; [done..|].
  by apply (blit_Forall _ _ _ _ _ Hm Hd Hb).
Qed.

Lemma wp_getTxContext Q E s h :
  (forall tx h', h' = h \/ h' = (fn_get_tx_context h).2 ->
     Q tx (set_m_tx_context (Some tx) s) h') ->
  wp getTxContext Q E s h.
Proof.
  intros HQ. apply wp_bind, wp_get. destruct (m_tx_context s) as [tx|] eqn:Htx.
  - apply wp_ret. replace s with (set_m_tx_context (Some tx) s); [apply HQ; by left|].
    destruct s. cbn in *. by subst.
  - apply wp_bind, wp_host, wp_bind, wp_put, wp_ret. apply HQ. by right.
Qed.

Lemma copy_cost_bound n : 0 <= n < 2 ^ 63 -> 0 <= copy_cost n < 2 ^ 61.
Proof.
  intros. unfold copy_cost, VMSchedule.copyGas.
  assert (0 <= (n + 31) / 32 < 2 ^ 59) by (split; [apply Z.div_pos|apply Z.div_lt_upper_bound]; lia). lia.
Qed.

(** [updateMem] of the instructions that copy nothing, and of the others. *)
Lemma wp_updateMem_nocopy n Q E s h :
  0 <= m_io_gas s < 2 ^ 63 -> 32 * (lenZ (m_mem s) / 32) = lenZ (m_mem s) -> lenZ (m_mem s) <= maxMem ->
  0 <= n < 2 ^ 63 + 64 -> 0 <= m_runGas s <= 2 ^ 63 -> m_copyMemSize s = 0 ->
  (forall mem g, lenZ mem = Z.max (lenZ (m_mem s)) (words_size n) -> lenZ mem <= maxMem -> n <= lenZ mem ->
    mem = resize (lenZ mem) (m_mem s) -> 32 * (lenZ mem / 32) = lenZ mem ->
    g = m_runGas s + (memory_cost (lenZ mem) - memory_cost (lenZ (m_mem s))) ->
    m_runGas s <= g <= m_io_gas s ->
    Q tt (set_m_mem mem (set_m_runGas g (set_m_newMemSize (words_size n) s))) h) ->
  (forall g, E OutOfGas (set_m_runGas g (set_m_newMemSize (words_size n) s)) h) ->
  wp (updateMem n) Q E s h.
Proof.
  intros Hio Hm32 Hmax Hn Hg Hc HQ HE. apply wp_updateMem; rewrite ?Hc; try done; try lia.
  - change (copy_cost 0) with 0. lia.
  - intros mem g Hl Hb Hr H32 Hgg Hr2. change (copy_cost 0) with 0 in Hgg.
    apply HQ; try done; [|lia]. pose proof (words_size_spec n). lia.
Qed.

Lemma wp_updateMem_copy n Q E s h :
  0 <= m_io_gas s < 2 ^ 63 -> 32 * (lenZ (m_mem s) / 32) = lenZ (m_mem s) -> lenZ (m_mem s) <= maxMem ->
  0 <= n < 2 ^ 63 + 64 -> 0 <= m_runGas s <= 2 ^ 62 -> 0 <= m_copyMemSize s < 2 ^ 63 ->
  (forall mem g, lenZ mem = Z.max (lenZ (m_mem s)) (words_size n) -> lenZ mem <= maxMem -> n <= lenZ mem ->
    mem = resize (lenZ mem) (m_mem s) -> 32 * (lenZ mem / 32) = lenZ mem ->
    g = m_runGas s + (memory_cost (lenZ mem) - memory_cost (lenZ (m_mem s))) + copy_cost (m_copyMemSize s) ->
    m_runGas s <= g <= m_io_gas s ->
    Q tt (set_m_mem mem (set_m_runGas g (set_m_newMemSize (words_size n) s))) h) ->
  (forall g, E OutOfGas (set_m_runGas g (set_m_newMemSize (words_size n) s)) h) ->
  wp (updateMem n) Q E s h.
Proof.
  intros Hio Hm32 Hmax Hn Hg Hc HQ HE. pose proof (copy_cost_bound (m_copyMemSize s) Hc).
  apply wp_updateMem; try done; try lia.
  intros mem g Hl Hb Hr H32 Hgg Hr2. apply HQ; try done. pose proof (words_size_spec n). lia.
Qed.

(** Memory that was paid for is readable, whatever the casts to [size_t] do to
    the offset of an empty range. *)
Lemma need_range a n need mem :
  is_u256 a -> is_u256 n -> 0 <= need < 2 ^ 63 -> (n = 0 /\ need = 0 \/ 0 < n /\ need = a + n) ->
  need <= mem -> 0 <= u64 a /\ 0 <= u64 n /\ (u64 n = 0 \/ u64 a + u64 n <= mem).
Proof.
  intros Ha Hn Hneed [[-> ->]|[Hn0 ->]] Hm.
  - pose proof (u64_range a). change (u64 0) with 0. lia.
  - rewrite (u64_small a), (u64_small n) by lia. lia.
Qed.

Lemma wp_mem_read_need a n need Q E s h :
  is_u256 a -> is_u256 n -> 0 <= need < 2 ^ 63 -> (n = 0 /\ need = 0 \/ 0 < n /\ need = a + n) ->
  need <= lenZ (m_mem s) -> Forall (fun b => is_byte b) (m_mem s) ->
  (forall d, slice (u64 a) (u64 n) (m_mem s) = Some d -> lenZ d = u64 n -> Forall (fun b => is_byte b) d -> Q d s h) ->
  wp (mem_read (u64 a) (u64 n)) Q E s h.
Proof.
  intros Ha Hn Hneed Hc Hm Hb HQ. destruct (need_range a n need _ Ha Hn Hneed Hc Hm) as (? & ? & ?).
  by apply wp_mem_read.
Qed.

(** The bytes a copy of [size] bytes from [index] leaves: zeros beyond the data. *)
Definition copied (data : list Z) (index size : Z) : list Z :=
  map (fun i => default 0 (data @@ (index + Z.of_nat i))) (seq 0 (Z.to_nat size)).

Lemma copied_bytes data index size :
  Forall (fun b => is_byte b) data -> Forall (fun b => is_byte b) (copied data index size).
Proof.
  intros Hd. unfold copied. apply Forall_map, Forall_forall. intros i _. cbn.
  destruct (data @@ _) as [b|] eqn:Hb; cbn; [|lia]. by apply (getZ_Forall _ _ _ _ Hd Hb).
Qed.

Lemma copied_length data index size : 0 <= size -> lenZ (copied data index size) = size.
Proof. intros. unfold copied, lenZ. rewrite length_map, length_seq. lia. Qed.

Lemma getZ_out {A} (l : list A) i : lenZ l <= i -> l @@ i = None.
Proof.
  unfold getZ, lenZ. intros. destruct (Z.ltb_spec i 0); [done|]. apply lookup_ge_None. lia.
Qed.

Lemma copied_split data index n size :
  0 <= index -> 0 <= n <= size -> (n = 0 \/ index + n <= lenZ data) ->
  (n < size -> lenZ data <= index + n) ->
  copied data index size = take (Z.to_nat n) (drop (Z.to_nat index) data) ++ replicate (Z.to_nat (size - n)) 0.
Proof.
  intros Hi Hn Hr Hz. unfold copied.
  replace (Z.to_nat size) with (Z.to_nat n + Z.to_nat (size - n))%nat by lia.
  rewrite seq_app, map_app. f_equal.
  - apply list_eq. intros k. rewrite lookup_take.
    destruct (decide (k < Z.to_nat n)%nat) as [Hk|Hk].
    + rewrite list_lookup_fmap, lookup_seq_lt by lia. cbn [fmap option_fmap option_map].
      rewrite lookup_drop. replace (index + Z.of_nat (0 + k)) with (Z.of_nat (Z.to_nat index + k)) by lia.
      rewrite getZ_nat. destruct (data !! (Z.to_nat index + k)%nat) as [b|] eqn:Hb; [done|].
      apply lookup_ge_None in Hb. unfold lenZ in *. lia.
    + apply lookup_ge_None. rewrite length_map, length_seq. lia.
  - apply list_eq. intros k. destruct (decide (k < Z.to_nat (size - n))%nat) as [Hk|Hk].
    + rewrite list_lookup_fmap, lookup_seq_lt, lookup_replicate_2 by lia. cbn [fmap option_fmap option_map].
      rewrite getZ_out; [done|]. lia.
    + rewrite !(proj2 (lookup_ge_None _ _)); [done|..]; rewrite ?length_map, ?length_seq, ?length_replicate; lia.
Qed.

(** [copyDataToMemory] writes [size] bytes of the data from [index], zero
    padded, at [offset]. *)
Lemma wp_copyDataToMemory data sp0 sp1 sp2 Q E s h :
  lenZ (m_stack s) = 1024 -> Forall (fun v => is_u256 v) (m_stack s) -> 0 <= m_SP s -> m_SP s + 2 < 1024 ->
  m_stack s @@ m_SP s = Some sp0 -> m_stack s @@ (m_SP s + 1) = Some sp1 -> m_stack s @@ (m_SP s + 2) = Some sp2 ->
  Forall (fun b => is_byte b) (m_mem s) -> Forall (fun b => is_byte b) data ->
  lenZ data < 2 ^ 63 -> sp2 < 2 ^ 63 -> lenZ (m_mem s) <= maxMem -> (sp2 = 0 \/ sp0 + sp2 <= lenZ (m_mem s)) ->
  (forall m, (sp2 <> 0 -> blit sp0 (copied data sp1 sp2) (m_mem s) = Some m) -> (sp2 = 0 -> m = m_mem s) ->
    lenZ m = lenZ (m_mem s) -> Forall (fun b => is_byte b) m ->
    Q tt (set_m_mem m s) h) ->
  wp (copyDataToMemory data) Q E s h.
Proof.
  intros Hlen Hst Hsp Hsp2 H0 H1 H2 Hm Hd Hdl Hs2 Hmm Hr HQ.
  unfold copyDataToMemory. unfold maxMem in *. pose proof (lenZ_nonneg data) as Hd0.
  apply wp_bind, wp_SP; [done..|lia|]. rewrite Z.add_0_r. intros ? [= <-]%(eq_trans (eq_sym H0)) R0.
  apply wp_bind, wp_SP; [done..|lia|]. intros ? [= <-]%(eq_trans (eq_sym H1)) R1.
  apply wp_bind, wp_SP; [done..|lia|]. intros ? [= <-]%(eq_trans (eq_sym H2)) R2. cbv zeta.
  rewrite (u64_small sp2) by lia. rewrite s512_id by lia.
  set (n := sizeToBeCopied (lenZ data) sp1 (u64 sp1) sp2).
  assert (n = Z.max 0 (Z.min sp2 (lenZ data - sp1)) /\ (0 < n -> u64 sp1 = sp1)) as [Hn Hsp1].
  { subst n. unfold sizeToBeCopied. rewrite s512_id by lia.
    destruct (Z.ltb_spec (lenZ data) (sp1 + sp2)); [destruct (Z.ltb_spec (lenZ data) sp1)|]; [lia| |].
    - rewrite (u64_small sp1), u64_small by lia. lia.
    - split; [lia|]. intros. apply u64_small. lia. }
  clearbody n. destruct (Z.eq_dec sp2 0) as [->|Hne].
  { assert (n = 0) as -> by lia. apply wp_bind, wp_ret, wp_ret.
    replace s with (set_m_mem (m_mem s) s) by (by destruct s). by apply HQ. }
  rewrite (u64_small sp0) by lia.
  assert (copied data sp1 sp2 = take (Z.to_nat n) (drop (Z.to_nat sp1) data) ++ replicate (Z.to_nat (sp2 - n)) 0)
    as Hcop by (apply copied_split; lia).
  set (a := take (Z.to_nat n) (drop (Z.to_nat sp1) data)) in *.
  assert (lenZ a = n) as Hla by (subst a; unfold lenZ in *; rewrite length_take, length_drop; lia).
  assert (Forall (fun b => is_byte b) a) as Ha by (apply Forall_take, Forall_drop, Hd).
  assert (lenZ (replicate (Z.to_nat (sp2 - n)) 0) = sp2 - n) as Hlz by (unfold lenZ; rewrite length_replicate; lia).
  assert (wp (when (0 <? n) (d <- checked (slice (u64 sp1) n data);; mem_write sp0 d))
    (fun _ s' h' => h' = h /\ exists m, s' = set_m_mem m s /\ blit sp0 a (m_mem s) = Some m /\
       Forall (fun b => is_byte b) m) E s h) as Hwp1.
  { apply wp_when; intros Hn0.
    - apply Z.ltb_lt in Hn0. rewrite Hsp1 by done.
      assert (slice sp1 n data = Some a) as ->.
      { unfold slice. destruct (Z.eqb_spec n 0); [lia|].
        destruct (Z.leb_spec 0 sp1), (Z.leb_spec 0 n), (Z.leb_spec (sp1 + n) (lenZ data)); done || lia. }
      apply wp_bind, wp_ret, wp_mem_write; [done..|lia|lia|]. eauto 10.
    - apply Z.ltb_ge in Hn0. assert (n = 0) as Hz by lia. split; [done|]. exists (m_mem s).
      unfold blit. rewrite Hla, Hz. split; [by destruct s|done]. }
  apply wp_bind. eapply wp_mono; [|done|exact Hwp1]. intros _ s' h' (-> & m & -> & Hb & Hmb).
  pose proof (blit_length _ _ _ _ Hb) as Hbl.
  apply wp_when; intros Hn1.
  - apply wp_mem_write; vm_cbn; [done|by apply Forall_replicate|lia|lia|].
    intros m2 Hb2 Hl2 Hm2. replace (sp0 + n) with (sp0 + lenZ a) in Hb2 by lia.
    rewrite (blit_app sp0 a _ (m_mem s) m) in Hb2 by (done || lia).
    change (set_m_mem m2 (set_m_mem m s)) with (set_m_mem m2 s). apply HQ; try done; [|congruence].
    intros _. by rewrite Hcop.
  - apply Z.ltb_ge in Hn1. apply HQ; try done. intros _. rewrite Hcop.
    replace (sp2 - n) with 0 by lia. by rewrite app_nil_r.
Qed.

(** The same, for a case that has not read the data offset. *)
Lemma wp_copyDataToMemory_any data sp0 sp2 Q E s h :
  lenZ (m_stack s) = 1024 -> Forall (fun v => is_u256 v) (m_stack s) -> 0 <= m_SP s -> m_SP s + 2 < 1024 ->
  m_stack s @@ m_SP s = Some sp0 -> m_stack s @@ (m_SP s + 2) = Some sp2 ->
  Forall (fun b => is_byte b) (m_mem s) -> Forall (fun b => is_byte b) data ->
  lenZ data < 2 ^ 63 -> sp2 < 2 ^ 63 -> lenZ (m_mem s) <= maxMem -> (sp2 = 0 \/ sp0 + sp2 <= lenZ (m_mem s)) ->
  (forall sp1 m, m_stack s @@ (m_SP s + 1) = Some sp1 ->
    (sp2 <> 0 -> blit sp0 (copied data sp1 sp2) (m_mem s) = Some m) -> (sp2 = 0 -> m = m_mem s) ->
    lenZ m = lenZ (m_mem s) -> Forall (fun b => is_byte b) m ->
    Q tt (set_m_mem m s) h) ->
  wp (copyDataToMemory data) Q E s h.
Proof.
  intros. destruct (getZ_lookup (m_stack s) (m_SP s + 1)) as [sp1 Hsp1]; [lia|].
  eapply wp_copyDataToMemory; eauto.
Qed.

End Rules.
