(* ===== verification/VMContract.v ===== *)
(** * The contract every instruction case meets

    From a state that [fetchInstruction] leaves, a case that falls through,
    stops or calls out preserves the invariant, touches no stack item below its
    arguments, leaves the code tables alone, pays at least one unit of gas when
    it continues, and relates the host before and after as [HostRel] allows:
    in a static context only by read operations and static calls. *)
From stdpp Require Import base list.
From Stdlib Require Import ZArith Lia.
From S2P Require Import Prelude Words Instruction Evmc VMState VMOps VMSpec VMCases.

(** A preorder on host states that reads respect, and writes only when the
    message is not static. *)
Class HostRel {H : Type} `{!EvmcHost H} (ctx : evmc_message) `{!EvmcHostLaws H ctx} (R : H -> H -> Prop) := {
  hr_refl : forall h, R h h;
  hr_trans : forall h1 h2 h3, R h1 h2 -> R h2 h3 -> R h1 h3;
  hr_account_exists : forall a h, host_ok h -> R h (fn_account_exists a h).2;
  hr_get_storage : forall k h, host_ok h -> R h (fn_get_storage (destination ctx) k h).2;
  hr_get_balance : forall a h, host_ok h -> R h (fn_get_balance a h).2;
  hr_get_code_size : forall a h, host_ok h -> R h (fn_get_code_size a h).2;
  hr_copy_code : forall a o n h, host_ok h -> R h (fn_copy_code a o n h).2;
  hr_get_tx_context : forall h, host_ok h -> R h (fn_get_tx_context h).2;
  hr_get_block_hash : forall n h, host_ok h -> R h (fn_get_block_hash n h).2;
  hr_set_storage : is_static ctx = false -> forall k v h, host_ok h -> R h (fn_set_storage (destination ctx) k v h);
  hr_selfdestruct : is_static ctx = false -> forall b h, host_ok h -> R h (fn_selfdestruct (destination ctx) b h);
  hr_emit_log : is_static ctx = false -> forall d t h, host_ok h -> R h (fn_emit_log (destination ctx) d t h);
  hr_call : forall m h, call_allowed ctx m -> funded ctx m h -> host_ok h -> R h (fn_call m h).2
}.

(** The relation of a run that tracks nothing. *)
#[export] Instance HostRel_True {H : Type} `{!EvmcHost H} ctx `{!EvmcHostLaws H ctx} : HostRel ctx (fun _ _ : H => True).
Proof. by constructor. Qed.

(** ** The relation of a run, with the invariant of the host *)

Section Kept.
  Context {H : Type} `{!EvmcHost H} (ctx : evmc_message) `{!EvmcHostLaws H ctx} (R : H -> H -> Prop) `{!HostRel ctx R}.

Definition kept (h h' : H) : Prop := host_ok h -> host_ok h' /\ R h h'.

Lemma kept_refl h : kept h h.
Proof. split; [done|apply hr_refl]. Qed.
Lemma kept_trans h1 h2 h3 : kept h1 h2 -> kept h2 h3 -> kept h1 h3.
Proof.
  intros H1 H2 Hok. destruct (H1 Hok) as [Hok2 HR1]. destruct (H2 Hok2) as [Hok3 HR2]. split; [done|]. by eapply hr_trans.
Qed.
Lemma kept_ok h h' : kept h h' -> host_ok h -> host_ok h'.
Proof. intros Hk Hok. by apply Hk. Qed.

Lemma kept_account_exists a h : kept h (fn_account_exists a h).2.
Proof. split; [by apply ok_account_exists|by apply hr_account_exists]. Qed.
Lemma kept_get_storage a k h : a = destination ctx -> kept h (fn_get_storage a k h).2.
Proof. intros ->. split; [by apply ok_get_storage|by apply hr_get_storage]. Qed.
Lemma kept_get_balance a h : kept h (fn_get_balance a h).2.
Proof. split; [by apply ok_get_balance|by apply hr_get_balance]. Qed.
Lemma kept_get_code_size a h : kept h (fn_get_code_size a h).2.
Proof. split; [by apply ok_get_code_size|by apply hr_get_code_size]. Qed.
Lemma kept_copy_code a o n h : kept h (fn_copy_code a o n h).2.
Proof. split; [by apply ok_copy_code|by apply hr_copy_code]. Qed.
Lemma kept_get_tx_context h : kept h (fn_get_tx_context h).2.
Proof. split; [by apply ok_get_tx_context|by apply hr_get_tx_context]. Qed.
Lemma kept_get_block_hash n h : kept h (fn_get_block_hash n h).2.
Proof. split; [by apply ok_get_block_hash|by apply hr_get_block_hash]. Qed.
Lemma kept_set_storage a k v h : is_static ctx = false -> a = destination ctx -> kept h (fn_set_storage a k v h).
Proof. intros Hs ->. split; [by apply ok_set_storage|by apply hr_set_storage]. Qed.
Lemma kept_selfdestruct a b h : is_static ctx = false -> a = destination ctx -> kept h (fn_selfdestruct a b h).
Proof. intros Hs ->. split; [by apply ok_selfdestruct|by apply hr_selfdestruct]. Qed.
Lemma kept_emit_log a d t h : is_static ctx = false -> a = destination ctx -> kept h (fn_emit_log a d t h).
Proof. intros Hs ->. split; [by apply ok_emit_log|by apply hr_emit_log]. Qed.
Lemma kept_call m h : call_allowed ctx m -> funded ctx m h -> kept h (fn_call m h).2.
Proof. split; [by apply ok_call|by apply hr_call]. Qed.
End Kept.

(** The state a fetch leaves, for an instruction with these metrics. *)
Record fetched (op args ret gas : Z) (s : VM) : Prop := {
  f_op : m_OP s = op;
  f_SP : 0 <= m_SP s;
  f_args : m_SP s + args <= 1024;
  f_SPP : m_SPP s = m_SP s + args - ret;
  f_gas : m_runGas s = gas;
  f_copy : m_copyMemSize s = 0
}.

(** Members that no instruction changes. *)
Record same_env (s s' : VM) : Prop := {
  se_rev : m_rev s' = m_rev s;
  se_message : m_message s' = m_message s;
  se_pCode : m_pCode s' = m_pCode s;
  se_code : m_code s' = m_code s;
  se_pool : m_pool s' = m_pool s;
  se_jumpDests : m_jumpDests s' = m_jumpDests s
}.

Lemma same_env_refl s : same_env s s.
Proof. done. Qed.

Lemma same_env_trans s1 s2 s3 : same_env s1 s2 -> same_env s2 s3 -> same_env s1 s3.
Proof. intros [] []. constructor; congruence. Qed.

(** ** Chains of host operations *)

Ltac kept_op HR :=
  first [ apply (kept_account_exists _ _ (HostRel0 := HR)) | apply (kept_get_storage _ _ (HostRel0 := HR)); congruence
        | apply (kept_get_balance _ _ (HostRel0 := HR)) | apply (kept_get_code_size _ _ (HostRel0 := HR))
        | apply (kept_copy_code _ _ (HostRel0 := HR)) | apply (kept_get_tx_context _ _ (HostRel0 := HR))
        | apply (kept_get_block_hash _ _ (HostRel0 := HR))
        | apply (kept_set_storage _ _ (HostRel0 := HR)); congruence | apply (kept_selfdestruct _ _ (HostRel0 := HR)); congruence
        | apply (kept_emit_log _ _ (HostRel0 := HR)); congruence ].

Ltac host_chain :=
  first
  [ assumption
  | lazymatch goal with HR : HostRel _ ?R |- kept _ ?R _ _ =>
    first
    [ apply (kept_refl _ _ (HostRel0 := HR))
    | match goal with
      | H : ?h = _ \/ ?h = (fn_get_tx_context _).2 |- kept _ _ _ ?h =>
          destruct H as [->| ->]; host_chain
      | H : kept _ _ ?h1 ?h2 |- kept _ _ _ ?h2 => apply (kept_trans _ _ (HostRel0 := HR) _ h1 h2); [host_chain|exact H]
      | |- kept _ _ _ _ => eapply (kept_trans _ _ (HostRel0 := HR)); [|kept_op HR]; host_chain
      end ]
    end ].

(** Arithmetic, with the gas schedule unfolded and the guards decided. *)
Ltac u64_facts :=
  repeat match goal with
  | |- context [u64 ?x] => lazymatch goal with _ : 0 <= u64 x < _ |- _ => fail | _ => pose proof (u64_range x) end
  end.
Ltac gas_lia := autounfold with sched in *; solve [lia | u64_facts; lia | repeat case_match; lia].

(** Side conditions of the rules. *)
Ltac side :=
  vm_cbn; rewrite ?lenZ_upd, ?Z.add_0_r; autounfold with sched;
  first [ assumption | gas_lia | solve [auto 6 with aec lia] ].

(** The bytes an instruction returns came from memory. *)
Ltac output_tac :=
  match goal with Hl : lenZ ?d = u64 _ |- Forall _ ?d /\ lenZ ?d <= maxMem =>
    split; [assumption|rewrite Hl, u64_small by lia; lia] end.

Ltac post_field :=
  vm_cbn; rewrite ?lenZ_upd, ?Z.add_0_r;
  first [ assumption | output_tac
        | match goal with
          | Hl : lenZ ?m = lenZ _ |- 32 * (lenZ ?m / 32) = _ /\ _ => rewrite Hl; split; assumption
          | |- 32 * (lenZ [] / 32) = _ /\ _ => split; [reflexivity|discriminate]
          end
        | gas_lia | solve [auto 6 with aec lia] | split; assumption
        | split; lia | solve [repeat first [apply Forall_upd|split]; auto 6 with aec lia] ].

Ltac frame_tac :=
  let j := fresh "j" in let Hj := fresh "Hj" in
  intros j Hj; vm_cbn; rewrite ?getZ_upd_ne by lia; reflexivity.

Ltac epost_tac :=
  vm_cbn; constructor; vm_cbn; [host_chain | gas_lia | intros ? [=]; subst; first [output_tac|auto]].

Ltac post_tac :=
  constructor;
  [ constructor; post_field | constructor; reflexivity | reflexivity | frame_tac | host_chain
  | vm_cbn; gas_lia | vm_cbn ].

Ltac head_of t := lazymatch t with ?f _ => head_of f | _ => t end.

(** One step of symbolic execution. *)
Ltac vm_step :=
  lazymatch goal with
  | |- wp (mbind _ _) _ _ _ _ => apply wp_bind
  | |- wp (mret _) _ _ _ _ => apply wp_ret
  | |- wp (throw _) _ _ _ _ => apply wp_throw
  | |- wp throwOutOfGas _ _ _ _ => apply wp_throw
  | |- wp throwBadInstruction _ _ _ _ => apply wp_throw
  | |- wp throwBadJumpDestination _ _ _ _ => apply wp_throw
  | |- wp throwDisallowedStateChange _ _ _ _ => apply wp_throw
  | |- wp throwBufferOverrun _ _ _ _ => apply wp_throw
  | |- wp (throwRevertInstruction _) _ _ _ _ => apply wp_throw
  | |- wp (when _ _) _ _ _ _ => apply wp_when; let Hb := fresh "Hb" in intros Hb; vm_cbn in *
  | |- wp (if ?b then _ else _) _ _ _ _ =>
      apply wp_if; let Hb := fresh "Hb" in intros Hb
  | |- wp (get _) _ _ _ _ => apply wp_get; vm_cbn
  | |- wp rev _ _ _ _ => apply wp_get; vm_cbn
  | |- wp message _ _ _ _ => apply wp_get; vm_cbn
  | |- wp (put _) _ _ _ _ => apply wp_put
  | |- wp (setRunGas _) _ _ _ _ => apply wp_put
  | |- wp (bounce_to _) _ _ _ _ => apply wp_put
  | |- wp (setPC _) _ _ _ _ => apply wp_put
  | |- wp incPC _ _ _ _ => apply wp_put
  | |- wp (host (fn_call _)) _ _ _ _ => fail "fn_call"
  | |- wp (host _) _ _ _ _ => apply wp_host
  | |- wp (host_ _) _ _ _ _ => apply wp_host_
  | |- wp (SP _) _ _ _ _ =>
      apply wp_SP; [side|side|side|];
      let v := fresh "v" in let Hv := fresh "Hv" in let Rv := fresh "Rv" in
      intros v Hv Rv; vm_cbn in *; rewrite ?Z.add_0_r in Hv;
      try match type of Hv with
        | ?l @@ ?i = Some v => match goal with
          | Hv' : l @@ i = Some ?w |- _ => tryif constr_eq w v then fail
              else (rewrite Hv' in Hv; injection Hv as <-) end
        end
  | |- wp (SPP_set _ _) _ _ _ _ => apply wp_SPP_set; [side|side|]
  | |- wp (SP_set _ _) _ _ _ _ => apply wp_SP_set; [side|side|]
  | |- wp updateIOGas _ _ _ _ =>
      apply wp_updateIOGas; [let Hg := fresh "Hg" in vm_cbn; intros Hg|let Hlt := fresh "Hlt" in vm_cbn; intros Hlt]
  | |- wp (toInt63 _) _ _ _ _ => apply wp_toInt63; [side|let Hi := fresh "Hi" in intros Hi|let Hov := fresh "Hov" in intros Hov]
  | |- wp (memNeed _ _) _ _ _ _ =>
      apply wp_memNeed; [side|side|let n := fresh "need" in let Hn := fresh "Hn" in
        let Hc := fresh "Hc" in intros n Hn Hc|]
  | |- wp (updateMem _) _ _ _ _ =>
      first [ apply wp_updateMem_nocopy; [side|side|side|side|side|side| |]
            | apply wp_updateMem_copy; [side|side|side|side|side|side| |] ];
      [ let mem := fresh "mem" in let g := fresh "g" in
        let Hl := fresh "Hml" in let Hx := fresh "Hmx" in let Hn := fresh "Hmn" in let Hr := fresh "Hmr" in
        let H3 := fresh "Hm3" in let Hg := fresh "Hgg" in let Hge := fresh "Hge" in
        intros mem g Hl Hx Hn Hr H3 Hg Hge; vm_cbn in *;
        assert (Forall (fun b => is_byte b) mem) by (eapply grown_bytes; eassumption)
      | intros ? ]
  | |- wp (mem_read (u64 _) (u64 _)) _ _ _ _ =>
      eapply wp_mem_read_need; [side|side| |eassumption|side|side|]; [side|];
      let d := fresh "d" in let Hd := fresh "Hd" in let Hl := fresh "Hdl" in let Hb := fresh "Hdb" in
      intros d Hd Hl Hb
  | |- wp logGasMem _ _ _ _ =>
      lazymatch goal with
      | Hop : m_OP _ = ?o |- _ =>
          let n := eval vm_compute in (o - opcode LOG0) in
          apply (wp_logGasMem n);
          [rewrite Hop; reflexivity|lia|side|side|side|side|side|side|side|side| |]
      end;
      [ let sp0 := fresh "sp0" in let sp1 := fresh "sp1" in let mem := fresh "mem" in
        let g := fresh "g" in let need := fresh "need" in
        intros sp0 sp1 mem g need ? ? ? ? ? ? ? ? ? ? ? ? ?; vm_cbn in *;
        assert (Forall (fun b => is_byte b) mem) by (eapply grown_bytes; eassumption)
      | intros ? ? ]
  | |- wp (copyDataToMemory _) _ _ _ _ =>
      eapply wp_copyDataToMemory_any;
      [side|side|side|side|vm_cbn; eassumption|vm_cbn; eassumption|side|side|side|side|side|side|];
      let m := fresh "m" in intros ? m ? ? ? ? ?
  | |- wp getTxContext _ _ _ _ =>
      apply wp_getTxContext; let tx := fresh "tx" in let h' := fresh "h'" in let Hh := fresh "Hh" in
      intros tx h' Hh
  | |- wp (mem_write _ _) _ _ _ _ => fail "mem_write"
  | |- wp ?m _ _ _ _ => let f := head_of m in unfold f
  end.

Ltac vm_steps := repeat vm_step.

(** Open the hypotheses of a case. *)
Ltac contract_open Hok Hf :=
  destruct Hf as [Hop HSP Hargs HSPP Hgas Hcopy];
  destruct (Hok) as [Hslen Hstk Hio Hmem [Hm32 Hmmax] Hspp Hcode [HpCode HpCodel] [Hinp Hinpl] [Hrd Hrdl] [Hout Houtl] Hpool];
  lazymatch type of Hslen with lenZ (m_stack ?s) = _ => pose proof (lenZ_nonneg (m_mem s)) end.

Section Contract.
  Context {H : Type} `{!EvmcHost H} {config : VMConfig}.
  Context (sha3 : list Z -> list Z).
  Context (ctx : evmc_message) `{!EvmcHostLaws H ctx} (R : H -> H -> Prop) `{!HostRel ctx R}.

Record post (args : Z) (s0 : VM) (h0 : H) (c : ctl) (s : VM) (h : H) : Prop := {
  post_ok : core_ok s;
  post_env : same_env s0 s;
  post_SPP : m_SPP s = m_SPP s0;
  post_frame : forall j, m_SP s0 + args <= j -> m_stack s @@ j = m_stack s0 @@ j;
  post_host : kept ctx R h0 h;
  post_gas : m_io_gas s <= m_io_gas s0;
  post_ctl :
    match c with
    | NEXT => m_PC s = m_PC s0 /\ m_io_gas s + 1 <= m_io_gas s0
    | CONTINUE => False
    | BREAK => m_bounce s = None
        \/ (s = set_m_bounce (Some Bounce_caseCreate) s0 /\ m_OP s = opcode CREATE /\ is_static ctx = false)
        \/ (s = set_m_bounce (Some Bounce_caseCall) s0
            /\ (m_OP s = opcode CALL \/ m_OP s = opcode CALLCODE
                \/ m_OP s = opcode DELEGATECALL \/ m_OP s = opcode STATICCALL)
            /\ (m_OP s = opcode CALL -> is_static ctx = true -> m_stack s @@ (m_SP s + 2) = Some 0))
    end
}.

Record epost (s0 : VM) (h0 : H) (e : VMException) (s : VM) (h : H) : Prop := {
  epost_host : kept ctx R h0 h;
  epost_gas : 0 <= m_io_gas s <= m_io_gas s0;
  epost_out : forall out, e = RevertInstruction out -> Forall (fun b => is_byte b) out /\ lenZ out <= maxMem
}.

Definition step_gas (i : Instruction) : Z :=
  default 0 (tierStepGas @@ Tier_index (gasPriceTier (instructionInfo (opcode i)))).

Definition contract (i : Instruction) : Prop := forall s h,
  core_ok s ->
  fetched (opcode i) (args (instructionInfo (opcode i))) (ret (instructionInfo (opcode i))) (step_gas i) s ->
  m_message s = ctx -> host_ok h ->
  wp (case_of sha3 i) (post (args (instructionInfo (opcode i))) s h) (epost s h) s h.


(** Open a contract: the metrics of the instruction become numbers. *)
Ltac contract_intro :=
  let s := fresh "s" in let h := fresh "h" in let Hok := fresh "Hok" in let Hst := fresh "Hst" in
  let Hf := fresh "Hf" in let Hh := fresh "Hhost" in
  intros s h Hok Hf Hst Hh;
  lazymatch goal with
  | |- wp (case_of _ ?i) (post ?a _ _) _ _ _ =>
      let v := eval vm_compute in a in change a with v;
      lazymatch type of Hf with
      | fetched ?o ?a' ?r ?g _ =>
          let o' := eval vm_compute in o in let r' := eval vm_compute in r in
          let g' := eval vm_compute in g in
          change (fetched o' v r' g' s) in Hf
      end
  end;
  contract_open Hok Hf; cbn [case_of].

Ltac vm_case := contract_intro; vm_steps; try epost_tac; try (post_tac; gas_lia).

(** ** Arithmetic, comparison and bit operations *)

Lemma sar_word_range a x : is_u256 a -> is_u256 x -> is_u256 (sar_word a x).
Proof.
  intros Ha Hx. unfold sar_word. pose proof (u32_range a).
  repeat case_match; auto with aec; unfold allbits; lia.
Qed.
Hint Resolve sar_word_range : aec.

Lemma contract_arith i :
  i ∈ [ADD; MUL; SUB; DIV; SDIV; MOD; SMOD; NOT; LT; GT; SLT; SGT; EQ; ISZERO; AND; OR; XOR; BYTE;
       SHL; SHR; SAR; ADDMOD; MULMOD; SIGNEXTEND] -> contract i.
Proof.
  intros Hi. repeat (apply elem_of_cons in Hi as [->|Hi]); [vm_case..|by apply elem_of_nil in Hi].
Qed.

Lemma contract_EXP : contract EXP.
Proof.
  contract_intro. unfold case_EXP. do 4 vm_step. rewrite firstBitSet_byte_size by done.
  pose proof (byte_size_range v Rv). autounfold with sched.
  assert (exists c, (if rev_ge (m_rev s) EVMC_SPURIOUS_DRAGON then 50 else 10) = c /\ 10 <= c) as (c & -> & Hc)
    by (case_match; eauto with lia).
  vm_steps; try epost_tac; try nia. post_tac. split; [done|]. nia.
Qed.

(** ** Environment, block and context *)

Lemma contract_env i :
  i ∈ [ADDRESS; ORIGIN; BALANCE; CALLER; CALLVALUE; CALLDATASIZE; RETURNDATASIZE; CODESIZE;
       EXTCODESIZE; GASPRICE; BLOCKHASH; COINBASE; TIMESTAMP; NUMBER; DIFFICULTY; GASLIMIT; POP;
       SLOAD; PC; MSIZE; GAS; JUMPDEST] -> contract i.
Proof.
  intros Hi. repeat (apply elem_of_cons in Hi as [->|Hi]); [vm_case..|by apply elem_of_nil in Hi].
Qed.

Lemma contract_CALLDATALOAD : contract CALLDATALOAD.
Proof.
  contract_intro. unfold case_CALLDATALOAD. do 2 vm_step; [|epost_tac]. do 4 vm_step.
  apply wp_bind, wp_if; intros Hb; [|vm_steps; try (post_tac; gas_lia)].
  apply Z.ltb_lt in Hb. rewrite u512_small in Hb by lia. rewrite u64_small by lia.
  apply wp_bind, wp_checked_slice; [done|lia|lia|lia|]. intros d Hd Hdl Hdb.
  vm_steps. post_tac. gas_lia.
Qed.

(** ** Memory *)

Lemma contract_MLOAD : contract MLOAD.
Proof.
  contract_intro. unfold case_MLOAD. do 2 vm_step. vm_step. vm_step; [|epost_tac].
  rewrite u64_small by lia. do 2 vm_step; [|epost_tac]. vm_step. vm_step; [|epost_tac].
  pose proof (u32_le v). vm_step. apply wp_mem_read; vm_cbn; [done|side|lia|lia|]. intros d Hd Hdl Hdb.
  vm_steps. post_tac. lia.
Qed.

Lemma contract_MSTORE : contract MSTORE.
Proof.
  contract_intro. unfold case_MSTORE. do 2 vm_step. vm_step. vm_step; [|epost_tac].
  rewrite u64_small by lia. do 2 vm_step; [|epost_tac]. vm_step. vm_step; [|epost_tac]. do 2 vm_step.
  pose proof (u32_le v). assert (lenZ (toBigEndian 32 v0) = 32) by (unfold lenZ; by rewrite toBigEndian_length).
  vm_step. apply wp_mem_write; vm_cbn; [done|apply toBigEndian_bytes|side|lia|]. intros m Hb Hl Hmb.
  vm_steps. post_tac. lia.
Qed.

Lemma contract_MSTORE8 : contract MSTORE8.
Proof.
  contract_intro. unfold case_MSTORE8. do 2 vm_step. vm_step. vm_step; [|epost_tac].
  rewrite u64_small by lia. do 2 vm_step; [|epost_tac]. vm_step. vm_step; [|epost_tac]. do 2 vm_step.
  pose proof (u32_le v). assert (lenZ [u8 (Z.land v0 255)] = 1) by done.
  vm_step. apply wp_mem_write; vm_cbn; [done|repeat constructor; apply u8_range|side|lia|]. intros m Hb Hl Hmb.
  vm_steps. post_tac. lia.
Qed.

Lemma contract_SHA3 : contract SHA3.
Proof.
  contract_intro. unfold case_SHA3. do 2 vm_step. autounfold with sched.
  assert (0 <= (v + 31) / 32 < 2 ^ 252) by (split; [apply Z.div_pos|apply Z.div_lt_upper_bound]; lia).
  rewrite (u512_small (v + 31)), (u512_small (_ * 6)), u512_small by lia.
  vm_steps; try epost_tac. post_tac. lia.
Qed.

Lemma contract_LOG i : i ∈ [LOG0; LOG1; LOG2; LOG3; LOG4] -> contract i.
Proof.
  intros Hi. repeat (apply elem_of_cons in Hi as [->|Hi]); [vm_case..|by apply elem_of_nil in Hi].
Qed.

Lemma contract_COPY i : i ∈ [CALLDATACOPY; RETURNDATACOPY; CODECOPY] -> contract i.
Proof.
  intros Hi. repeat (apply elem_of_cons in Hi as [->|Hi]); [vm_case..|by apply elem_of_nil in Hi].
Qed.

(** ** Stack and storage *)

(** [DUPn] reads [n - 1] items below the top, [SWAPn] writes [n] items below it. *)
Lemma wp_case_DUP k s h :
  0 <= k < 16 -> core_ok s -> fetched (opcode DUP1 + k) (k + 1) (k + 2) VMSchedule.stepGas2 s ->
  wp case_DUP (post (k + 1) s h) (epost s h) s h.
Proof.
  intros Hk Hok Hf. contract_open Hok Hf. unfold case_DUP. do 2 vm_step; [|epost_tac].
  do 2 vm_step. rewrite Hop. replace (u32 (opcode DUP1 + k - opcode DUP1)) with k by (rewrite u32_small; lia).
  vm_steps. post_tac. gas_lia.
Qed.

Lemma wp_case_SWAP k s h :
  1 <= k <= 16 -> core_ok s -> fetched (opcode SWAP1 + k - 1) (k + 1) (k + 1) VMSchedule.stepGas2 s ->
  wp case_SWAP (post (k + 1) s h) (epost s h) s h.
Proof.
  intros Hk Hok Hf. contract_open Hok Hf. unfold case_SWAP. do 2 vm_step; [|epost_tac].
  do 2 vm_step. rewrite Hop.
  replace (u32 (opcode SWAP1 + k - 1 - opcode SWAP1 + 1)) with k by (rewrite u32_small; lia).
  vm_steps. post_tac. gas_lia.
Qed.

Lemma contract_DUP i :
  i ∈ [DUP1; DUP2; DUP3; DUP4; DUP5; DUP6; DUP7; DUP8; DUP9; DUP10; DUP11; DUP12; DUP13; DUP14; DUP15; DUP16] ->
  contract i.
Proof.
  intros Hi s h Hok Hf _ _.
  repeat (apply elem_of_cons in Hi as [->|Hi];
    [match type of Hf with fetched (opcode ?o) _ _ _ _ =>
       let k := eval vm_compute in (opcode o - opcode DUP1) in exact (wp_case_DUP k s h ltac:(lia) Hok Hf) end|]).
  by apply elem_of_nil in Hi.
Qed.

Lemma contract_SWAP i :
  i ∈ [SWAP1; SWAP2; SWAP3; SWAP4; SWAP5; SWAP6; SWAP7; SWAP8; SWAP9; SWAP10; SWAP11; SWAP12; SWAP13; SWAP14;
       SWAP15; SWAP16] -> contract i.
Proof.
  intros Hi s h Hok Hf _ _.
  repeat (apply elem_of_cons in Hi as [->|Hi];
    [match type of Hf with fetched (opcode ?o) _ _ _ _ =>
       let k := eval vm_compute in (opcode o - opcode SWAP1 + 1) in exact (wp_case_SWAP k s h ltac:(lia) Hok Hf) end|]).
  by apply elem_of_nil in Hi.
Qed.

Lemma contract_SSTORE : contract SSTORE.
Proof. vm_case. Qed.

(** ** Halting and calling out *)

Lemma contract_halt i : i ∈ [STOP; RETURN; REVERT; SUICIDE] -> contract i.
Proof.
  intros Hi. repeat (apply elem_of_cons in Hi as [->|Hi]; [vm_case; post_tac; by left|]).
  by apply elem_of_nil in Hi.
Qed.
Lemma contract_throw i :
  i ∈ [CREATE2; INVALID; JUMPTO; JUMPIF; JUMPV; JUMPSUB; JUMPSUBV; RETURNSUB; BEGINSUB; BEGINDATA; GETLOCAL;
       PUTLOCAL; XADD; XMUL; XSUB; XDIV; XSDIV; XMOD; XSMOD; XLT; XGT; XSLT; XSGT; XEQ; XISZERO; XAND; XOOR;
       XXOR; XNOT; XSHL; XSHR; XSAR; XROL; XROR; XMLOAD; XMSTORE; XSLOAD; XSSTORE; XVTOWIDE; XWIDETOV; XPUSH;
       XPUT; XGET; XSWIZZLE; XSHUFFLE] -> forall s h, core_ok s -> wp (case_of sha3 i) (fun _ _ _ => False) (epost s h) s h.
Proof.
  intros Hi s h [? ? Hio _ _ _ _ _ _ _ _ _].
  repeat (apply elem_of_cons in Hi as [->|Hi]; [apply wp_throw; constructor; [host_chain|lia|done]|]).
  by apply elem_of_nil in Hi.
Qed.

Lemma contract_CREATE : contract CREATE.
Proof.
  vm_case. post_tac. right; left. split_and!; [done|exact Hop|congruence].
Qed.

Lemma contract_CALLS i : i ∈ [CALL; CALLCODE; DELEGATECALL; STATICCALL] -> contract i.
Proof.
  intros Hi. repeat (apply elem_of_cons in Hi as [->|Hi];
    [contract_intro; unfold case_CALLS; vm_step; vm_step; rewrite Hop; vm_steps; try epost_tac;
     post_tac; right; right; (split; [done|]); (split; [rewrite Hop; auto|]); intros Ho Hs|]).
  all: try match goal with
    | Hb : negb (?v =? 0) = false |- _ => apply negb_false_iff, Z.eqb_eq in Hb; congruence
    | Hb : (_ =? opcode CALL) && _ = false |- _ => rewrite <- Hop, Ho, Hst, Hs in Hb; discriminate
    end.
  by apply elem_of_nil in Hi.
Qed.

Lemma contract_EXTCODECOPY : contract EXTCODECOPY.
Proof.
  contract_intro. unfold case_EXTCODECOPY. vm_steps; try epost_tac.
  destruct (need_range v0 v need (lenZ mem)) as (Ho & _ & Hr); [done..|]. rewrite (u64_small v) in Hr by lia.
  match goal with |- context [fn_copy_code ?a ?o v h] =>
    destruct (copy_code_size (ctx := ctx) a o v h ltac:(lia) Hhost) as [Hsz Hby];
    assert (kept ctx R h (fn_copy_code a o v h).2) by (apply kept_copy_code; done);
    destruct (fn_copy_code a o v h) as [d h'] end.
  cbn [fst snd] in *. pose proof (lenZ_nonneg d). rewrite (u64_small (v - lenZ d)) by lia.
  apply wp_mem_write; vm_cbn; [done..|lia|]. intros m1 Hb1 Hl1 Hm1.
  assert (lenZ (replicate (Z.to_nat (v - lenZ d)) 0) = v - lenZ d) as Hz
    by (unfold lenZ; rewrite length_replicate; unfold lenZ in *; lia).
  vm_step. apply wp_mem_write; vm_cbn; [done|by apply Forall_replicate|lia|lia|]. intros m2 Hb2 Hl2 Hm2.
  vm_steps. rewrite Hl1 in Hl2. post_tac. gas_lia.
Qed.

End Contract.
