(* ===== verification/VMCallsSpec.v ===== *)
(** * The contracts of [caseCreate] and [caseCall]

    Both leave the interpreter in the state of the next instruction, give the
    rest of the stack back as it was, use up gas whatever the callee returns,
    and never pass on more gas than the caller has. *)
From stdpp Require Import base list.
From Stdlib Require Import ZArith Lia.
From S2P Require Import Prelude Words Instruction Evmc VMState VMOps VMSpec VMCases VMCalls.
From S2P Require Import VMContract.

Section Calls.
  Context {H : Type} `{!EvmcHost H}.
  Context (ctx : evmc_message) `{!EvmcHostLaws H ctx} (R : H -> H -> Prop) `{!HostRel ctx R}.

Record call_post (args : Z) (s0 : VM) (h0 : H) (s : VM) (h : H) : Prop := {
  cp_ok : core_ok s;
  cp_env : same_env s0 s;
  cp_SPP : m_SPP s = m_SPP s0;
  cp_frame : forall j, m_SP s0 + args <= j -> m_stack s @@ j = m_stack s0 @@ j;
  cp_host : kept ctx R h0 h;
  cp_gas : m_io_gas s + 1 <= m_io_gas s0;
  cp_PC : m_PC s = u64 (m_PC s0 + 1);
  cp_bounce : m_bounce s = Some Bounce_interpretCases
}.

Ltac cp_tac :=
  constructor;
  [ constructor; post_field | constructor; reflexivity | reflexivity | frame_tac | host_chain
  | vm_cbn; gas_lia | reflexivity | reflexivity ].

Lemma wp_fn_call m Q E s h :
  host_ok h -> call_allowed ctx m -> funded ctx m h ->
  (forall result h', kept ctx R h h' -> 0 <= gas_left result <= msg_gas m ->
    Forall (fun b => is_byte b) (output_data result) -> lenZ (output_data result) < 2 ^ 63 -> Q result s h') ->
  wp (host (fn_call m)) Q E s h.
Proof.
  intros Hok Ha Hf HQ. destruct (call_result m h Ha Hf Hok). apply wp_host, HQ; [by apply kept_call|done..].
Qed.

(** Since Tangerine Whistle a call keeps one 64th of the gas back. *)
Lemma sixty_fourth g : 0 <= g -> 0 <= g - g / 64 <= g /\ Z.quot g 64 = g / 64.
Proof.
  intros. assert (0 <= g / 64 <= g) by (split; [apply Z.div_pos|apply Z.div_le_upper_bound]; lia).
  rewrite Z.quot_div_nonneg by lia. lia.
Qed.

Lemma wp_caseCreate g s h :
  core_ok s -> fetched (opcode CREATE) 3 1 g s -> is_static ctx = false -> m_message s = ctx -> host_ok h ->
  wp caseCreate (fun _ => call_post 3 s h) (epost ctx R s h) s h.
Proof.
  intros Hok Hf Hns Hst Hhost. contract_open Hok Hf. unfold caseCreate, caseCreate_args.
  do 9 vm_step. rewrite Hop, Z.eqb_refl. vm_steps; try epost_tac; [|cp_tac].
  autounfold with sched in *.
  assert (i64 (m_io_gas s - g0) = m_io_gas s - g0) as -> by (apply i64_small; lia).
  pose proof (sixty_fourth (m_io_gas s - g0) ltac:(lia)) as [? ->].
  set (gas := if rev_ge (m_rev s) EVMC_TANGERINE_WHISTLE then _ else _).
  assert (0 <= gas <= m_io_gas s - g0) by (subst gas; case_match; lia). clearbody gas.
  apply andb_prop in Hb as [Hbal%Z.leb_le Hdepth%Z.ltb_lt]. rewrite Hst in Hbal, Hdepth |- *.
  apply wp_fn_call.
  { by apply ok_get_balance. }
  { constructor; cbn; [lia|done|split; [done|]|split; [congruence|done]|done|done]. rewrite Hdl, u64_small by lia. unfold maxMem in *. lia. }
  { intros _. right. cbn. by rewrite balance_stable. }
  intros result h' Hh' Hleft Hrb Hrl.
  cbn [msg_gas] in Hleft. vm_step. vm_step.
  assert (is_u256 (if decide (status_code result = EVMC_SUCCESS)
    then fromAddress (fromEvmC_address (create_address result)) else 0)) by (case_match; [side|lia]).
  vm_steps. rewrite (u64_small (_ - (gas - gas_left result))) by (vm_cbn; lia). cp_tac.
Qed.

(** What [caseCallSetup] leaves: the gas of the message is paid for, the output
    range lies inside of memory, and a message that is to be sent is one the
    frame may send. *)
Record call_setup (s0 : VM) (h0 : H) (r : evmc_message * option (Z * Z)) (s : VM) (h : H) : Prop := {
  cs_ok : core_ok s;
  cs_env : same_env s0 s;
  cs_SPP : m_SPP s = m_SPP s0;
  cs_stack : m_stack s = m_stack s0;
  cs_PC : m_PC s = m_PC s0;
  cs_bounce : m_bounce s = m_bounce s0;
  cs_host : kept ctx R h0 h;
  cs_gas : 0 <= msg_gas r.1 /\ m_io_gas s + msg_gas r.1 + 1 <= m_io_gas s0;
  cs_allowed : r.2 <> None -> call_allowed ctx r.1 /\ funded ctx r.1 h;
  cs_output : forall o n, r.2 = Some (o, n) -> 0 <= o /\ 0 <= n /\ (n = 0 \/ o + n <= lenZ (m_mem s))
}.

Lemma call_base_gas_range r op ex hv v :
  40 <= call_base_gas r op ex hv v <= 2 ^ 20 /\ (hv = true -> 0 < v -> 9040 <= call_base_gas r op ex hv v).
Proof.
  unfold call_base_gas. autounfold with sched.
  destruct (rev_ge _ _), (_ && _ && _), hv; cbn [andb]; destruct (Z.ltb_spec 0 v); lia.
Qed.

Definition is_call (op : Z) : Prop :=
  op = opcode CALL \/ op = opcode CALLCODE \/ op = opcode DELEGATECALL \/ op = opcode STATICCALL.

Lemma call_kind_delegate op : is_call op -> call_kind op = EVMC_DELEGATECALL <-> op = opcode DELEGATECALL.
Proof. intros [->|[->|[->| ->]]]; by vm_compute. Qed.

(** The messages the four calls send. *)
Lemma call_message_allowed op g dest snd input v :
  is_call op -> 0 <= g < 2 ^ 63 -> depth ctx < 1024 ->
  Forall (fun b => is_byte b) input -> lenZ input <= maxMem ->
  (op = opcode DELEGATECALL -> snd = sender ctx /\ v = value ctx) ->
  (op <> opcode DELEGATECALL -> snd = destination ctx /\ is_u256 v) ->
  (is_static ctx = true -> op = opcode CALL -> v = 0) -> (op = opcode STATICCALL -> v = 0) ->
  call_allowed ctx (mkMessage (call_kind op) (call_flags op ctx) 0 g dest snd input v).
Proof.
  intros Hop Hg Hd Hi Hl Hdel Hnd Hst Hsc. pose proof (call_kind_delegate op Hop) as Hk.
  constructor; cbn [msg_gas input_data kind sender value]; [done|done|split; [done|unfold maxMem in *; lia]| |naive_solver..].
  assert (is_static (mkMessage (call_kind op) (call_flags op ctx) 0 g dest snd input v) = (op =? opcode STATICCALL) || is_static ctx) as ->
    by (unfold is_static at 1; cbn [flags]; unfold call_flags; by destruct (_ || _)).
  split.
  - intros Hs. rewrite Hs, orb_true_r. split; [done|]. unfold is_call in Hop. by destruct Hop as [->|[->|[->| ->]]].
  - unfold is_call in Hop. destruct Hop as [->|[->|[->| ->]]]; try done; auto.
Qed.

Lemma wp_caseCallSetup args g s h :
  core_ok s -> fetched (m_OP s) args 1 g s -> is_call (m_OP s) ->
  args = (if (m_OP s =? opcode CALL) || (m_OP s =? opcode CALLCODE) then 7 else 6) ->
  m_message s = ctx -> host_ok h ->
  (m_OP s = opcode CALL -> is_static ctx = true -> m_stack s @@ (m_SP s + 2) = Some 0) ->
  wp caseCallSetup (call_setup s h) (epost ctx R s h) s h.
Proof.
  intros Hok Hf Hcall Hargs' Hst Hhost Hval. contract_open Hok Hf. unfold caseCallSetup.
  do 6 vm_step.
  set (hv := (m_OP s =? opcode CALL) || (m_OP s =? opcode CALLCODE)) in *.
  assert (hv = true -> m_OP s <> opcode DELEGATECALL /\ m_OP s <> opcode STATICCALL) as Hhv
    by (subst hv; destruct Hcall as [Heq|[Heq|[Heq|Heq]]]; rewrite Heq; done).
  assert (hv = false -> m_OP s <> opcode CALL) as Hhv' by (subst hv; intros Hff Heq; rewrite Heq in Hff; discriminate Hff).
  set (so := if hv then 3 else 2) in *.
  assert (so + 4 = args /\ 2 <= so <= 3) as [Hso Hso2] by (subst so; rewrite Hargs'; by destruct hv).
  do 8 vm_step.
  match goal with |- context [call_base_gas ?r ?o ?e hv ?v] =>
    destruct (call_base_gas_range r o e hv v) as [Hbase Hvalue]; set (base := call_base_gas r o e hv v) in *; clearbody base end.
  vm_steps; try epost_tac.
  match goal with |- wp (toInt63 ?c) _ _ _ _ => assert (0 <= c) as Hcg end.
  { pose proof (sixty_fourth (m_io_gas s - g0) ltac:(lia)). destruct (rev_ge _ _); lia. }
  match goal with |- wp (toInt63 ?c) _ _ _ _ => set (callGas := c) in *; clearbody callGas end.
  vm_steps; try epost_tac; cbv beta iota.
  all: pose proof (need_range v3 v4 need0 (lenZ mem) ltac:(done) ltac:(done) ltac:(done) ltac:(done) ltac:(lia)) as Ho.
  all: assert (lenZ d <= maxMem) by (rewrite Hdl, u64_small by lia; lia).
  all: constructor;
    [ constructor; post_field | constructor; reflexivity | reflexivity | reflexivity | reflexivity | reflexivity
    | host_chain | cbn [fst msg_gas] | cbn [fst snd]; intros Hs | cbn [snd]; intros o n [=]; subst; vm_cbn; done ].
  all: try (vm_cbn; gas_lia).
  all: try (apply Z.ltb_lt in Hb0; specialize (Hvalue Hb Hb0); autounfold with sched; rewrite i64_small by lia; vm_cbn; lia).
  all: try done.
  all: apply andb_prop in Hb1 as [Hbal Hdepth%Z.ltb_lt]; try apply Z.leb_le in Hbal; rewrite Hst in *.
  all: split; [apply call_message_allowed|intros Hk; cbn [value kind] in Hk |- *]; cbn [fst]; try done; try (by left).
  all: try rewrite (call_kind_delegate _ Hcall) in Hk.
  all: try (apply Z.ltb_lt in Hb0).
  all: try (apply Z.eqb_eq in Hb0).
  - specialize (Hvalue Hb Hb0). autounfold with sched. rewrite i64_small by lia. lia.
  - intros Ho1. by destruct (Hhv Hb).
  - intros Hst1 Ho1. rewrite Hval in Hv0 by done. congruence.
  - intros Ho1. by destruct (Hhv Hb).
  - right. rewrite balance_stable; [done|]. by apply ok_account_exists.
  - intros Ho1. by destruct (Hhv Hb).
  - intros Ho1. congruence.
  - intros Hst1 Ho1. by destruct (Hhv' Hb).
  - intros Ho1. rewrite Hb0 in Ho1. discriminate Ho1.
  - congruence.
  - intros Ho1. rewrite Ho1 in Hb0. discriminate Hb0.
Qed.

Ltac cp2_tac :=
  constructor; vm_cbn;
  [ constructor; vm_cbn; rewrite ?u64_small by lia; post_field
  | match goal with He : same_env _ _ |- _ => destruct He; constructor; assumption end
  | assumption | intros; auto | host_chain | rewrite u64_small by lia; lia | congruence | assumption ].

Lemma wp_caseCall args g s h :
  core_ok s -> fetched (m_OP s) args 1 g s -> is_call (m_OP s) ->
  args = (if (m_OP s =? opcode CALL) || (m_OP s =? opcode CALLCODE) then 7 else 6) ->
  m_message s = ctx -> host_ok h ->
  (m_OP s = opcode CALL -> is_static ctx = true -> m_stack s @@ (m_SP s + 2) = Some 0) ->
  wp caseCall (fun _ => call_post args s h) (epost ctx R s h) s h.
Proof.
  intros Hok Hf Hcall Hargs' Hst Hhost Hval. unfold caseCall. do 4 vm_step. apply wp_bind.
  set (s1 := set_m_returnData [] (set_m_bounce (Some Bounce_interpretCases) s)).
  assert (core_ok s1) as Hok1 by (destruct Hok; constructor; first [assumption|split; [constructor|reflexivity]]).
  assert (fetched (m_OP s1) args 1 g s1) as Hf1 by (destruct Hf; by constructor).
  assert (args = 6 \/ args = 7) as Ha by (rewrite Hargs'; case_match; auto).
  eapply wp_mono; [| |exact (wp_caseCallSetup args g s1 h Hok1 Hf1 Hcall Hargs' Hst Hhost Hval)].
  2: { intros e s' h' []. by constructor. }
  intros [msg out] s2 h2 [Hok2 Henv HSPP2 Hstack2 HPC2 Hb2 Hhost2 Hgas2 Hallow Hout2]. cbn [fst snd] in *.
  pose proof (ok_gas _ Hok) as Hio0.
  destruct Hf as [Hop HSP Hargs HSPP Hgas Hcopy].
  destruct (Hok2) as [Hslen Hstk Hio Hmem [Hm32 Hmmax] Hspp Hcode [HpCode HpCodel] [Hinp Hinpl] [Hrd Hrdl] [Hout Houtl] Hpool].
  subst s1. vm_cbn in *.
  assert (forall j v, m_SP s + args <= j -> upd (m_stack s2) (m_SPP s2 + 0) v @@ j = m_stack s @@ j) as Hframe
    by (intros; rewrite getZ_upd_ne by lia; by rewrite Hstack2).
  destruct out as [[o n]|].
  - destruct (Hout2 o n eq_refl) as (Ho & Hn & Hr).
    destruct (Hallow ltac:(done)) as [Hal Hfu].
    cbv beta iota. do 2 vm_step. apply wp_fn_call; [by eapply kept_ok|done|done|]. intros result h' Hh' Hleft Hrb Hrl.
    do 3 vm_step. assert (lenZ (take (Z.to_nat n) (output_data result)) <= n)
      by (unfold lenZ; rewrite length_take; lia).
    pose proof (lenZ_nonneg (take (Z.to_nat n) (output_data result))).
    apply wp_bind, wp_mem_write; vm_cbn; [done|by apply Forall_take|done|lia|]. intros m Hb Hl Hm.
    assert (is_u256 (if decide (status_code result = EVMC_SUCCESS) then 1 else 0)) by (destruct (decide _); lia).
    vm_steps. cp2_tac.
  - cbv beta iota. vm_steps. cp2_tac.
Qed.

End Calls.
