(* ===== verification/VMCode.v ===== *)
(** * What the analysis of the code computes

    [Boundary]: the positions of the code that hold an opcode rather than push
    data.  The first loop of [VM::optimize] is shown to disable exactly the
    synthetic opcodes at boundaries and to list exactly the [JUMPDEST]s at
    boundaries, in order, so that the binary search of [verifyJumpDest] decides
    validity.  The second loop is shown to replace pushes and jumps only by
    instructions with the same effect. *)
From stdpp Require Import base list sorting.
From Stdlib Require Import ZArith Lia.
From S2P Require Import Prelude Words Instruction Evmc VMState VMOps VMCases VMExec.

(** ** Binary search *)

Lemma sorted_getZ (l : list Z) i j x y :
  StronglySorted Z.lt l -> i < j -> l @@ i = Some x -> l @@ j = Some y -> x < y.
Proof.
  intros Hs Hij Hx Hy. pose proof (getZ_Some_range _ _ _ Hx). pose proof (getZ_Some_range _ _ _ Hy).
  unfold getZ in *. destruct (Z.ltb_spec i 0), (Z.ltb_spec j 0); try lia.
  rewrite <- (take_drop_middle l (Z.to_nat j) y Hy) in Hs.
  eapply (StronglySorted_app_1_elem_of _ _ _ x y Hs); [|apply list_elem_of_here].
  apply (list_elem_of_lookup_2 _ (Z.to_nat i)). by rewrite lookup_take_lt by lia.
Qed.

(** The half-open range splits into the items below and not below [v]. *)
Lemma lower_bound_spec fuel l first len v :
  StronglySorted Z.lt l -> 0 <= first -> 0 <= len -> first + len <= lenZ l -> len < Z.of_nat fuel ->
  let r := lower_bound fuel l first len v in
  first <= r <= first + len /\
  (forall i x, first <= i < r -> l @@ i = Some x -> x < v) /\
  (forall i x, r <= i < first + len -> l @@ i = Some x -> v <= x).
Proof.
  intros Hs. revert first len. induction fuel as [|f IH]; intros first len Hf Hl Hr Hfuel; [lia|].
  cbn [lower_bound]. cbv zeta. destruct (Z.leb_spec len 0) as [|Hpos]; [repeat split; lia|].
  assert (0 <= len / 2 < len) as Hhalf by (split; [apply Z.div_pos|apply Z.div_lt]; lia).
  destruct (getZ_lookup l (first + len / 2)) as [x Hx]; [lia|]. rewrite Hx.
  destruct (Z.ltb_spec x v) as [Hlt|Hge].
  - destruct (IH (first + len / 2 + 1) (len - len / 2 - 1)) as (Hb & H1 & H2); [lia..|]. cbv zeta in *.
    repeat split; [lia|lia| |].
    + intros i y Hi Hy. destruct (Z.lt_ge_cases i (first + len / 2 + 1)) as [Hc|Hc]; [|apply (H1 i); done || lia].
      destruct (Z.eq_dec i (first + len / 2)) as [->|]; [congruence|].
      pose proof (sorted_getZ l i (first + len / 2) y x Hs ltac:(lia) Hy Hx). lia.
    + intros i y Hi. apply H2. lia.
  - destruct (IH first (len / 2)) as (Hb & H1 & H2); [lia..|]. cbv zeta in *.
    repeat split; [lia|lia|done|].
    intros i y Hi Hy. destruct (Z.lt_ge_cases i (first + len / 2)); [apply (H2 i); done || lia|].
    destruct (Z.eq_dec i (first + len / 2)) as [->|]; [congruence|].
    pose proof (sorted_getZ l (first + len / 2) i x y Hs ltac:(lia) Hx Hy). lia.
Qed.

Lemma getZ_elem_of {A} (l : list A) x : x ∈ l <-> exists i, l @@ i = Some x.
Proof.
  split.
  - intros [i Hi]%list_elem_of_lookup. exists (Z.of_nat i). by rewrite getZ_nat.
  - intros [i Hi]. unfold getZ in Hi. destruct (i <? 0); [done|]. by eapply list_elem_of_lookup_2.
Qed.

(** On a sorted table the binary search decides membership. *)
Lemma binary_search_spec l v : StronglySorted Z.lt l -> binary_search l v = true <-> v ∈ l.
Proof.
  intros Hs. unfold binary_search.
  destruct (lower_bound_spec (S (length l)) l 0 (lenZ l) v) as (Hr & H1 & H2);
    [done|lia|apply lenZ_nonneg|lia|unfold lenZ; lia|]. cbv zeta in *.
  set (r := lower_bound _ _ _ _ _) in *. rewrite getZ_elem_of. split.
  - destruct (l @@ r) as [x|] eqn:Hx; [|done]. intros Hn%negb_true_iff%Z.ltb_ge.
    pose proof (getZ_Some_range _ _ _ Hx). pose proof (H2 r x ltac:(lia) Hx). exists r. rewrite Hx. f_equal. lia.
  - intros [i Hi]. pose proof (getZ_Some_range _ _ _ Hi).
    destruct (Z.lt_ge_cases i r); [pose proof (H1 i v ltac:(lia) Hi); lia|].
    destruct (getZ_lookup l r) as [x Hx]; [lia|]. rewrite Hx.
    pose proof (H2 r x ltac:(lia) Hx). apply negb_true_iff, Z.ltb_ge.
    destruct (Z.eq_dec r i) as [->|]; [congruence|]. pose proof (sorted_getZ l r i x v Hs ltac:(lia) Hx Hi). lia.
Qed.

Lemma verifyJumpDest_found_spec dests dest :
  StronglySorted Z.lt dests -> Forall (fun d => 0 <= d < 2 ^ 63) dests -> 0 <= dest ->
  verifyJumpDest_found dests dest = true <-> dest ∈ dests.
Proof.
  intros Hs Hr Hd. unfold verifyJumpDest_found. rewrite andb_true_iff, Z.leb_le, binary_search_spec by done. split.
  - intros [Hle Hin]. by rewrite u64_small in Hin by lia.
  - intros Hin. pose proof (proj1 (Forall_forall _ _) Hr dest Hin). cbv beta in *. rewrite u64_small by lia.
    split; [lia|done].
Qed.

(** ** Instruction boundaries *)

Definition next_pc (op pc : Z) : Z := if is_push op then pc + push_bytes op + 1 else pc + 1.

Inductive Boundary (code : list Z) : Z -> Prop :=
| Boundary_first : Boundary code 0
| Boundary_next pc op : Boundary code pc -> code @@ pc = Some op -> Boundary code (next_pc op pc).

Lemma is_push_bytes op : is_push op = true -> 1 <= push_bytes op <= 32.
Proof.
  unfold is_push, push_bytes. intros [H1%Z.leb_le H2%Z.leb_le]%andb_prop.
  change (opcode PUSH1) with 96 in *. change (opcode PUSH32) with 127 in *. lia.
Qed.

Lemma next_pc_range op pc : pc + 1 <= next_pc op pc <= pc + 33.
Proof. unfold next_pc. destruct (is_push op) eqn:Hp; [pose proof (is_push_bytes op Hp)|]; lia. Qed.

Lemma Boundary_range code pc : Boundary code pc -> 0 <= pc < lenZ code + 33.
Proof.
  induction 1 as [|pc op Hb IH Hop]; [pose proof (lenZ_nonneg code); lia|].
  apply getZ_Some_range in Hop. pose proof (next_pc_range op pc). lia.
Qed.

(** There is no boundary inside of an instruction. *)
Lemma Boundary_gap code a b op :
  Boundary code a -> code @@ a = Some op -> Boundary code b -> a < b -> next_pc op a <= b.
Proof.
  assert (forall a, Boundary code a -> forall b, Boundary code b ->
    (a < b -> forall op, code @@ a = Some op -> next_pc op a <= b) /\
    (b < a -> forall op, code @@ b = Some op -> next_pc op b <= a)) as Hgen.
  { clear a b op. intros a Ha. induction Ha as [|a op Ha IHa Hop]; intros b Hb.
    - split; [|pose proof (Boundary_range _ _ Hb); lia].
      induction Hb as [|b op Hb IHb Hop]; [lia|]. intros _ op0 Hop0. pose proof (next_pc_range op b).
      destruct (Z.eq_dec b 0) as [->|]; [assert (op0 = op) as -> by congruence; lia|].
      pose proof (Boundary_range _ _ Hb). specialize (IHb ltac:(lia) op0 Hop0). lia.
    - split.
      + induction Hb as [|b op' Hb IHb Hop']; [pose proof (Boundary_range _ _ Ha); pose proof (next_pc_range op a); lia|].
        intros Hlt op0 Hop0. pose proof (next_pc_range op' b).
        destruct (Z.lt_trichotomy (next_pc op a) b) as [Hc|[<-|Hc]].
        * specialize (IHb Hc op0 Hop0). lia.
        * assert (op0 = op') as -> by congruence. lia.
        * destruct (Z.lt_trichotomy a b) as [Hd|[<-|Hd]].
          -- pose proof (proj1 (IHa b Hb) Hd op Hop). lia.
          -- assert (op' = op) as -> by congruence. lia.
          -- pose proof (proj2 (IHa b Hb) Hd op' Hop'). pose proof (next_pc_range op a). lia.
      + intros Hlt op0 Hop0. pose proof (next_pc_range op a). destruct (Z.lt_trichotomy b a) as [Hd|[->|Hd]].
        * pose proof (proj2 (IHa b Hb) Hd op0 Hop0). lia.
        * assert (op0 = op) as -> by congruence. lia.
        * pose proof (proj1 (IHa b Hb) Hd op Hop). lia. }
  intros Ha Hop Hb Hlt. by apply (proj1 (Hgen a Ha b Hb)).
Qed.

(** An opcode determines where the next one is, and is the only one before it. *)
Lemma Boundary_pred code a b opa opb :
  Boundary code a -> code @@ a = Some opa -> Boundary code b -> code @@ b = Some opb ->
  next_pc opa a = next_pc opb b -> a = b.
Proof.
  intros Ha Hopa Hb Hopb Heq. destruct (Z.lt_trichotomy a b) as [Hlt|[|Hlt]]; [|done|].
  - pose proof (Boundary_gap _ _ _ _ Ha Hopa Hb Hlt). pose proof (next_pc_range opb b). lia.
  - pose proof (Boundary_gap _ _ _ _ Hb Hopb Ha Hlt). pose proof (next_pc_range opa a). lia.
Qed.

(** The code ends at one boundary. *)
Lemma Boundary_end code a b :
  Boundary code a -> Boundary code b -> lenZ code <= a -> lenZ code <= b -> a = b.
Proof.
  assert (forall c, Boundary code c -> lenZ code <= c -> lenZ code = 0 /\ c = 0 \/
    exists p op, Boundary code p /\ code @@ p = Some op /\ c = next_pc op p) as Hinv.
  { intros c [|p op Hp Hop] Hc; [left; pose proof (lenZ_nonneg code); lia|right; by exists p, op]. }
  intros Ha Hb Hla Hlb.
  destruct (Hinv a Ha Hla) as [[H0 ->]|(p & op & Hp & Hop & ->)], (Hinv b Hb Hlb) as [[H1 ->]|(q & oq & Hq & Hoq & ->)];
    try (pose proof (getZ_Some_range _ _ _ Hop)); try (pose proof (getZ_Some_range _ _ _ Hoq)); try lia.
  destruct (Z.lt_trichotomy p q) as [Hlt|[<-|Hlt]].
  - pose proof (Boundary_gap _ _ _ _ Hp Hop Hq Hlt). lia.
  - congruence.
  - pose proof (Boundary_gap _ _ _ _ Hq Hoq Hp Hlt). lia.
Qed.

(** ** The first loop: sanitised code and jump destinations *)

(** The opcodes the optimiser introduces are invalid in user code. *)
Definition sanitise (op : Z) : Z := if is_synthetic op then opcode INVALID else op.

(** The two tables after the loop reached [pc]. *)
Record sanitised (pCode : list Z) (pc : Z) (code jumpDests : list Z) : Prop := {
  san_len : lenZ code = lenZ pCode + 33;
  san_op : forall i op, Boundary pCode i -> i < pc -> pCode @@ i = Some op -> code @@ i = Some (sanitise op);
  san_other : forall i, ~ (Boundary pCode i /\ i < pc /\ i < lenZ pCode) -> code @@ i = (pCode ++ replicate 33 0) @@ i;
  san_sorted : StronglySorted Z.lt jumpDests;
  san_dests : forall d, d ∈ jumpDests <-> Boundary pCode d /\ d < pc /\ pCode @@ d = Some (opcode JUMPDEST)
}.

Lemma getZ_app_l {A} (l k : list A) i : i < lenZ l -> (l ++ k) @@ i = l @@ i.
Proof.
  unfold getZ, lenZ. intros. destruct (Z.ltb_spec i 0); [done|]. apply lookup_app_l. lia.
Qed.

Lemma getZ_app_r {A} (l k : list A) i : lenZ l <= i -> (l ++ k) @@ i = k @@ (i - lenZ l).
Proof.
  unfold getZ, lenZ. intros. destruct (Z.ltb_spec i 0), (Z.ltb_spec (i - Z.of_nat (length l)) 0); try lia.
  rewrite lookup_app_r by lia. f_equal. lia.
Qed.

Lemma upd_if {A} (b : bool) (l : list A) i x j :
  0 <= i < lenZ l -> (if b then upd l i x else l) @@ j = if b && (j =? i) then Some x else l @@ j.
Proof.
  intros Hi. destruct b; cbn [andb]; [|done].
  destruct (Z.eqb_spec j i) as [->|]; [by apply getZ_upd_eq|apply getZ_upd_ne; lia].
Qed.

Lemma sanitised_step pCode pc op code dests :
  Boundary pCode pc -> pCode @@ pc = Some op -> sanitised pCode pc code dests ->
  sanitised pCode (next_pc op pc)
    (if is_synthetic op then upd code pc (opcode INVALID) else code)
    (if op =? opcode JUMPDEST then dests ++ [pc] else dests).
Proof.
  intros Hb Hop [Hlen Hsan Hoth Hs Hd]. pose proof (getZ_Some_range _ _ _ Hop) as Hr.
  pose proof (next_pc_range op pc) as Hn.
  assert (forall i, Boundary pCode i -> i < next_pc op pc -> i < pc \/ i = pc) as Hlt.
  { intros i Hi Hin. destruct (Z.lt_trichotomy i pc) as [|[|Hc]]; [by left|by right|].
    pose proof (Boundary_gap _ _ _ _ Hb Hop Hi Hc). lia. }
  constructor.
  - destruct (is_synthetic op); rewrite ?lenZ_upd; done.
  - intros i op' Hi Hin Hop'. rewrite upd_if by lia. destruct (Hlt i Hi Hin) as [Hc| ->].
    + destruct (Z.eqb_spec i pc); [lia|]. rewrite andb_false_r. by apply Hsan.
    + assert (op' = op) as -> by congruence. rewrite Z.eqb_refl, andb_true_r. unfold sanitise.
      destruct (is_synthetic op); [done|]. rewrite Hoth by lia. by rewrite getZ_app_l by lia.
  - intros i Hi. rewrite upd_if by lia. destruct (Z.eqb_spec i pc) as [->|].
    + destruct Hi. split; [done|lia].
    + rewrite andb_false_r. apply Hoth. intros (? & ? & ?). apply Hi. split_and!; [done|lia|done].
  - destruct (op =? opcode JUMPDEST); [|done]. apply StronglySorted_app_2; [|done|by repeat constructor].
    intros x y Hx%Hd ->%list_elem_of_singleton. tauto.
  - intros d. split.
    + intros Hin. assert (d ∈ dests \/ d = pc /\ op = opcode JUMPDEST) as [Hc|[-> ->]].
      { destruct (Z.eqb_spec op (opcode JUMPDEST)); [|by left].
        apply elem_of_app in Hin as [|Hin%list_elem_of_singleton]; auto. }
      * apply Hd in Hc as (? & ? & ?). split_and!; [done|lia|done].
      * split_and!; [done|lia|done].
    + intros (Hbd & Hdn & Hdo). destruct (Hlt d Hbd Hdn) as [Hc| ->].
      * assert (d ∈ dests) by (by apply Hd). case_match; [apply elem_of_app; by left|done].
      * rewrite Hop in Hdo. injection Hdo as ->. rewrite Z.eqb_refl. apply elem_of_app. right.
        by apply list_elem_of_singleton.
Qed.

Lemma jumpDestLoop_spec fuel pCode pc code dests :
  Boundary pCode pc -> sanitised pCode pc code dests -> lenZ pCode <= pc + Z.of_nat fuel ->
  exists code' dests' pc', jumpDestLoop fuel (lenZ pCode) pc code dests = Some (code', dests') /\
    lenZ pCode <= pc' /\ sanitised pCode pc' code' dests'.
Proof.
  revert pc code dests. induction fuel as [|f IH]; intros pc code dests Hb Hs Hf; cbn [jumpDestLoop].
  { exists code, dests, pc. split_and!; [done|lia|done]. }
  destruct (Z.ltb_spec pc (lenZ pCode)) as [Hlt|Hge]; [|by exists code, dests, pc].
  pose proof (Boundary_range _ _ Hb) as Hr. destruct (getZ_lookup pCode pc) as [op Hop]; [lia|].
  assert (code @@ pc = Some op) as -> by (rewrite (san_other _ _ _ _ Hs) by lia; by rewrite getZ_app_l by lia).
  pose proof (sanitised_step _ _ _ _ _ Hb Hop Hs) as Hs'. pose proof (Boundary_next _ _ _ Hb Hop) as Hb'.
  pose proof (next_pc_range op pc) as Hn. specialize (IH _ _ _ Hb' Hs' ltac:(lia)).
  unfold next_pc in IH. destruct (Z.eqb_spec op (opcode JUMPDEST)) as [Heq|].
  - assert (is_push op = false) as Hp by (rewrite Heq; reflexivity). rewrite Hp in IH. exact IH.
  - destruct (is_push op); exact IH.
Qed.

(** The result of the first loop. *)
Lemma jumpDestLoop_correct pCode :
  exists code dests pc, jumpDestLoop (length pCode) (lenZ pCode) 0 (copyCode pCode 33) [] = Some (code, dests) /\
    lenZ pCode <= pc /\ sanitised pCode pc code dests.
Proof.
  apply jumpDestLoop_spec; [constructor| |unfold lenZ; lia]. constructor.
  - unfold lenZ, copyCode. rewrite length_app, length_replicate. lia.
  - intros i op Hi. pose proof (Boundary_range _ _ Hi). lia.
  - done.
  - constructor.
  - intros d. split; [by intros ?%elem_of_nil|]. intros (Hi & ? & _). pose proof (Boundary_range _ _ Hi). lia.
Qed.

(** ** The second loop: equivalent instructions *)

Lemma sanitise_push op : is_push (sanitise op) = is_push op /\ (is_push op = true -> sanitise op = op).
Proof.
  unfold sanitise. destruct (is_synthetic op) eqn:Hs; [|done]. unfold is_synthetic in Hs.
  assert (is_push op = false) as ->; [|done].
  apply orb_prop in Hs as [[Hs|Hs]%orb_prop|Hs]; apply Z.eqb_eq in Hs; by rewrite Hs.
Qed.

Lemma sanitise_next op pc : next_pc (sanitise op) pc = next_pc op pc.
Proof.
  unfold next_pc. destruct (sanitise_push op) as [-> Hp]. destruct (is_push op); [by rewrite Hp|done].
Qed.

Lemma push_value_loop_ext n i code code' val :
  (forall k, i <= k < i + Z.of_nat n -> code @@ k = code' @@ k) ->
  push_value_loop n i code val = push_value_loop n i code' val.
Proof.
  revert i val. induction n as [|n IH]; intros i val Hext; [done|]. cbn [push_value_loop].
  rewrite (Hext i) by lia. destruct (code' @@ i); [|done]. apply IH. intros. apply Hext. lia.
Qed.

Lemma push_value_ext pc n code code' :
  1 <= n -> (forall k, pc < k <= pc + n -> code @@ k = code' @@ k) ->
  push_value pc n code = push_value pc n code'.
Proof.
  intros Hn Hext. unfold push_value. rewrite (Hext (pc + 1)) by lia.
  destruct (code' @@ (pc + 1)); [|done]. apply push_value_loop_ext. intros. apply Hext. lia.
Qed.

Lemma push_value_loop_Some n i code val :
  Forall (fun b => is_byte b) code -> 0 <= i -> i + Z.of_nat n <= lenZ code -> is_u256 val ->
  exists v, push_value_loop n i code val = Some v /\ is_u256 v.
Proof.
  revert i val. induction n as [|n IH]; intros i val Hc Hi Hl Hv; [by exists val|]. cbn [push_value_loop].
  destruct (getZ_lookup code i) as [b Hb]; [lia|]. rewrite Hb.
  pose proof (getZ_Forall _ _ _ _ Hc Hb) as Hbr; cbv beta in Hbr. apply IH; [done|lia|lia|]. apply lor_u256; [apply u256_range|lia].
Qed.

Lemma push_value_Some pc n code :
  Forall (fun b => is_byte b) code -> 0 <= pc -> 1 <= n -> pc + n < lenZ code ->
  exists v, push_value pc n code = Some v /\ is_u256 v.
Proof.
  intros Hc Hp Hn Hl. unfold push_value. destruct (getZ_lookup code (pc + 1)) as [b Hb]; [lia|]. rewrite Hb.
  pose proof (getZ_Forall _ _ _ _ Hc Hb) as Hbr; cbv beta in Hbr. apply push_value_loop_Some; [done|lia|lia|lia].
Qed.

Section Second.
  Context (pCode code1 dests : list Z).

(** The jump at [b] directly follows the push of a valid destination. *)
Definition pushed_valid (b : Z) : Prop :=
  exists q op val, Boundary pCode q /\ code1 @@ q = Some op /\ is_push op = true /\ next_pc op q = b /\
    push_value q (push_bytes op) code1 = Some val /\ verifyJumpDest_found dests val = true.

(** What may stand for the opcode [op] that is no push. *)
Definition opcode_opt (code : list Z) (b op : Z) : Prop :=
  code @@ b = Some op
  \/ (op = opcode JUMP /\ code @@ b = Some (opcode JUMPC) /\ pushed_valid b)
  \/ (op = opcode JUMPI /\ code @@ b = Some (opcode JUMPCI) /\ pushed_valid b).

(** What may stand for the instruction at [b]. *)
Definition optimised_at (code pool : list Z) (b op : Z) : Prop :=
  if is_push op then
    exists val, push_value b (push_bytes op) code1 = Some val /\
      if 5 <? push_bytes op
      then exists off, 0 <= off < 2 ^ 16 /\ pool @@ off = Some val /\ code @@ b = Some (opcode PUSHC) /\
             code @@ (b + 1) = Some (off / 256) /\ code @@ (b + 2) = Some (off mod 256) /\
             code @@ (b + 3) = Some (push_bytes op - 2)
      else forall k, 0 <= k <= push_bytes op -> code @@ (b + k) = code1 @@ (b + k)
  else opcode_opt code b op.

Record optimised (pc : Z) (code pool : list Z) : Prop := {
  opt_len : lenZ code = lenZ pCode + 33;
  opt_bytes : Forall (fun b => is_byte b) code;
  opt_pool : Forall (fun v => is_u256 v) pool /\ 7 * lenZ pool <= pc;
  opt_done : forall b op, Boundary pCode b -> b < pc -> pCode @@ b = Some op -> optimised_at code pool b (sanitise op);
  opt_here : forall op, code1 @@ pc = Some op -> opcode_opt code pc op;
  opt_rest : forall i, pc < i -> code @@ i = code1 @@ i
}.

Lemma use_constant_pool_spec pc n val code pool :
  0 <= pc -> 5 < n <= 32 -> pc + 3 < lenZ code -> lenZ pool < 2 ^ 16 -> Forall (fun b => is_byte b) code ->
  exists code', use_constant_pool pc n val code pool = Some (code', pool ++ [val]) /\
    lenZ code' = lenZ code /\ Forall (fun b => is_byte b) code' /\
    code' @@ pc = Some (opcode PUSHC) /\ code' @@ (pc + 1) = Some (lenZ pool / 256) /\
    code' @@ (pc + 2) = Some (lenZ pool mod 256) /\ code' @@ (pc + 3) = Some (n - 2) /\
    (forall i, i < pc \/ pc + 3 < i -> code' @@ i = code @@ i).
Proof.
  intros Hp Hn Hl Hpool Hb. unfold use_constant_pool. destruct (Z.ltb_spec 5 n); [|lia].
  destruct (Z.ltb_spec (pc + 3) (lenZ code)); [|lia]. pose proof (lenZ_nonneg pool).
  unfold u16. rewrite (Z.mod_small (lenZ pool)) by lia.
  assert (Z.land (lenZ pool) 255 = lenZ pool mod 256) as -> by apply (Z.land_ones _ 8 ltac:(lia)).
  assert (u8 (Z.shiftr (lenZ pool) 8) = lenZ pool / 256) as ->.
  { rewrite Z.shiftr_div_pow2 by lia. apply Z.mod_small. split; [apply Z.div_pos|apply Z.div_lt_upper_bound]; lia. }
  assert (u8 (n - 2) = n - 2) as -> by (apply Z.mod_small; lia).
  eexists; split; [done|]. rewrite !lenZ_upd. split; [done|].
  assert (is_byte (lenZ pool mod 256)) by (apply Z.mod_pos_bound; lia).
  assert (is_byte (lenZ pool / 256)) by (split; [apply Z.div_pos|apply Z.div_lt_upper_bound]; lia).
  split; [repeat apply Forall_upd; try done; try lia; by vm_compute|].
  split_and!.
  all: try (intros i Hi).
  all: repeat first [rewrite getZ_upd_eq by (rewrite ?lenZ_upd; lia)|rewrite getZ_upd_ne by lia]; done.
Qed.

Context (Hlen1 : lenZ code1 = lenZ pCode + 33) (Hbytes1 : Forall (fun b => is_byte b) code1)
  (Hops1 : forall b op, Boundary pCode b -> pCode @@ b = Some op -> code1 @@ b = Some (sanitise op))
  (Hsize : lenZ pCode <= 7 * 2 ^ 16).

Lemma optimised_at_frame code code' pool pool' b op :
  (forall i, b <= i < next_pc op b -> code' @@ i = code @@ i) ->
  (forall off v, pool @@ off = Some v -> pool' @@ off = Some v) ->
  optimised_at code pool b op -> optimised_at code' pool' b op.
Proof.
  intros Hc Hp. unfold optimised_at, next_pc in *. destruct (is_push op) eqn:Hpush.
  - pose proof (is_push_bytes op Hpush). intros (val & Hval & Hat). exists val. split; [done|].
    destruct (Z.ltb_spec 5 (push_bytes op)).
    + destruct Hat as (off & ? & ? & ? & ? & ? & ?). exists off. rewrite !Hc by lia. auto 10.
    + intros k Hk. rewrite Hc by lia. by apply Hat.
  - unfold opcode_opt. by rewrite Hc by lia.
Qed.

(** Code whose instructions before [pc] are done and that is untouched from there on. *)
Record optimised_before (pc : Z) (code pool : list Z) : Prop := {
  ob_len : lenZ code = lenZ pCode + 33;
  ob_bytes : Forall (fun b => is_byte b) code;
  ob_pool : Forall (fun v => is_u256 v) pool /\ 7 * lenZ pool <= pc;
  ob_done : forall b op, Boundary pCode b -> b < pc -> pCode @@ b = Some op -> optimised_at code pool b (sanitise op);
  ob_rest : forall i, pc <= i -> code @@ i = code1 @@ i
}.

Lemma boundary_before pc op b :
  Boundary pCode pc -> pCode @@ pc = Some op -> Boundary pCode b -> b < next_pc op pc -> b < pc \/ b = pc.
Proof.
  intros Hpc Hop Hb Hlt. destruct (Z.lt_trichotomy b pc) as [|[|Hc]]; [by left|by right|].
  pose proof (Boundary_gap _ _ _ _ Hpc Hop Hb Hc). lia.
Qed.

Lemma optimised_other pc op code pool :
  Boundary pCode pc -> pCode @@ pc = Some op -> is_push op = false -> optimised pc code pool ->
  optimised (pc + 1) code pool.
Proof.
  intros Hb Hop Hp [Hl Hby [Hpo Hpl] Hdone Hhere Hrest]. constructor; try done; [split; [done|lia]|..].
  - intros b op' Hb' Hlt Hop'. assert (next_pc op pc = pc + 1) as Hn by (unfold next_pc; by rewrite Hp).
    destruct (boundary_before pc op b Hb Hop Hb' ltac:(lia)) as [Hc| ->]; [by apply Hdone|].
    assert (op' = op) as -> by congruence. unfold optimised_at.
    destruct (sanitise_push op) as [-> _]. rewrite Hp. apply Hhere. by apply Hops1.
  - intros op' Hop'. left. rewrite Hrest by lia. done.
  - intros i Hi. apply Hrest. lia.
Qed.

(** The push itself. *)
Lemma optimised_push pc op code pool :
  Boundary pCode pc -> pCode @@ pc = Some op -> is_push op = true -> optimised pc code pool ->
  exists val code' pool', push_value pc (push_bytes op) code = Some val /\
    push_value pc (push_bytes op) code1 = Some val /\ is_u256 val /\
    use_constant_pool pc (push_bytes op) val code pool = Some (code', pool') /\
    optimised_before (next_pc op pc) code' pool'.
Proof.
  intros Hb Hop Hp [Hl Hby [Hpo Hpl] Hdone Hhere Hrest].
  pose proof (getZ_Some_range _ _ _ Hop) as Hr. pose proof (is_push_bytes op Hp) as Hn.
  assert (next_pc op pc = pc + push_bytes op + 1) as Hnext by (unfold next_pc; by rewrite Hp).
  set (n := push_bytes op) in *.
  destruct (push_value_Some pc n code1) as (val & Hval & Hvr); [done|lia|lia|lia|].
  assert (code @@ pc = code1 @@ pc) as Hpc.
  { destruct (sanitise_push op) as [_ Hs]. pose proof (Hops1 _ _ Hb Hop) as H1. rewrite (Hs Hp) in H1.
    rewrite H1. destruct (Hhere _ H1) as [?|[(-> & _)|(-> & _)]]; done. }
  assert (push_value pc n code = Some val) as Hval'
    by (rewrite (push_value_ext pc n code code1); [done|lia|intros; apply Hrest; lia]).
  destruct (Z.lt_ge_cases 5 n) as [Hlong|Hshort].
  - pose proof (use_constant_pool_spec pc n val code pool ltac:(lia) ltac:(lia) ltac:(lia) ltac:(lia) Hby)
      as (code' & Huse & Hl' & Hby' & H0 & H1 & H2 & H3 & Hoth).
    exists val, code', (pool ++ [val]). do 4 (split; [done|]). constructor; [lia|done| | |].
    + split; [apply Forall_app; split; [done|by apply Forall_singleton]|]. unfold lenZ in *. rewrite length_app. cbn. lia.
    + intros b op' Hb' Hlt Hop'. destruct (boundary_before pc op b Hb Hop Hb' ltac:(lia)) as [Hc| ->].
      * apply (optimised_at_frame code _ pool); [|intros off v Ho; pose proof (getZ_Some_range _ _ _ Ho);
          by rewrite getZ_app_l by lia|by apply Hdone].
        rewrite sanitise_next. pose proof (Boundary_gap _ _ _ _ Hb' Hop' Hb Hc). intros. apply Hoth. lia.
      * assert (op' = op) as -> by congruence. destruct (sanitise_push op) as [Hsp Hs]. unfold optimised_at.
        rewrite Hsp, Hp, (Hs Hp). fold n. exists val. split; [done|]. destruct (Z.ltb_spec 5 n); [|lia].
        exists (lenZ pool). pose proof (lenZ_nonneg pool). split_and!; try done; [lia|].
        rewrite getZ_app_r, Z.sub_diag by lia. done.
    + intros i Hi. rewrite Hoth by lia. apply Hrest. lia.
  - exists val, code, pool. unfold use_constant_pool. destruct (Z.ltb_spec 5 n); [lia|].
    do 4 (split; [done|]). constructor; [done|done|split; [done|lia]| |intros; apply Hrest; lia].
    intros b op' Hb' Hlt Hop'. destruct (boundary_before pc op b Hb Hop Hb' ltac:(lia)) as [Hc| ->]; [by apply Hdone|].
    assert (op' = op) as -> by congruence. destruct (sanitise_push op) as [Hsp Hs]. unfold optimised_at.
    rewrite Hsp, Hp, (Hs Hp). fold n. exists val. split; [done|]. destruct (Z.ltb_spec 5 n); [lia|].
    intros k Hk. destruct (Z.eq_dec k 0) as [->|]; [by rewrite Z.add_0_r|apply Hrest; lia].
Qed.

(** The jump behind it. *)
Lemma optimised_jump q op val code pool :
  Boundary pCode q -> pCode @@ q = Some op -> is_push op = true ->
  push_value q (push_bytes op) code1 = Some val -> optimised_before (next_pc op q) code pool ->
  exists code', replace_const_jump (next_pc op q) val dests code = Some code' /\ optimised (next_pc op q) code' pool.
Proof.
  intros Hb Hop Hp Hval [Hl Hby Hpool Hdone Hrest]. set (pc := next_pc op q) in *.
  pose proof (Boundary_range _ _ (Boundary_next _ _ _ Hb Hop)) as Hr. fold pc in Hr.
  assert (verifyJumpDest_found dests val = true -> pushed_valid pc) as Hvalid.
  { intros Hv. exists q, op, val. pose proof (Hops1 _ _ Hb Hop) as H1. destruct (sanitise_push op) as [_ Hs].
    rewrite (Hs Hp) in H1. done. }
  assert (forall x, is_byte x -> (forall op, code1 @@ pc = Some op -> opcode_opt (upd code pc x) pc op) ->
    optimised pc (upd code pc x) pool) as Hupd.
  { intros x Hx Hh. constructor; [by rewrite lenZ_upd|by apply Forall_upd|done| |done|].
    - intros b op' Hb' Hlt Hop'. apply (optimised_at_frame code _ pool); [|done|by apply Hdone].
      intros i Hi. rewrite sanitise_next in Hi.
      pose proof (Boundary_gap _ _ _ _ Hb' Hop' (Boundary_next _ _ _ Hb Hop) Hlt). fold pc in H.
      apply getZ_upd_ne; lia.
    - intros i Hi. rewrite getZ_upd_ne by lia. apply Hrest. lia. }
  assert (optimised pc code pool) as Hsame.
  { constructor; try done; [intros op' ?; left; by rewrite Hrest|intros; apply Hrest; lia]. }
  unfold replace_const_jump. destruct (getZ_lookup code pc) as [op1 Hop1]; [lia|]. rewrite Hop1.
  rewrite Hrest in Hop1 by lia.
  destruct (Z.eqb_spec op1 (opcode JUMP)) as [He|]; [|destruct (Z.eqb_spec op1 (opcode JUMPI)) as [He|]; [|by exists code]].
  all: destruct (verifyJumpDest_found dests val) eqn:Hv; [|by exists code]; eexists; (split; [done|]).
  all: apply Hupd; [by vm_compute|]; intros op2 Hop2; assert (op2 = op1) as -> by congruence; right.
  - left. rewrite getZ_upd_eq by lia. auto.
  - right. rewrite getZ_upd_eq by lia. auto.
Qed.
Lemma firstPassLoop_spec fuel pc code pool :
  Boundary pCode pc -> optimised pc code pool -> lenZ pCode <= pc + Z.of_nat fuel ->
  exists code' pool' pc', firstPassLoop fuel (lenZ pCode) pc dests code pool = Some (code', pool') /\
    Boundary pCode pc' /\ lenZ pCode <= pc' /\ optimised pc' code' pool'.
Proof.
  revert pc code pool. induction fuel as [|f IH]; intros pc code pool Hb Hopt Hf; cbn [firstPassLoop].
  { exists code, pool, pc. split_and!; [done|done|lia|done]. }
  destruct (Z.ltb_spec pc (lenZ pCode)) as [Hlt|Hge]; [|by exists code, pool, pc].
  pose proof (Boundary_range _ _ Hb) as Hr. destruct (getZ_lookup pCode pc) as [op Hop]; [lia|].
  pose proof (Boundary_next _ _ _ Hb Hop) as Hb'. pose proof (next_pc_range op pc) as Hn.
  destruct (sanitise_push op) as [Hsp Hs]. pose proof (Hops1 _ _ Hb Hop) as H1.
  assert (exists op', code @@ pc = Some op' /\ is_push op' = is_push op /\ (is_push op = true -> op' = op))
    as (op' & -> & Hp' & Hpo).
  { destruct (opt_here _ _ _ Hopt _ H1) as [Hc|[(Hj & Hc & _)|(Hj & Hc & _)]]; rewrite Hc; eexists; (split; [done|]).
    - split; [done|]. intros. by apply Hs.
    - rewrite Hj in Hsp. rewrite <- Hsp. done.
    - rewrite Hj in Hsp. rewrite <- Hsp. done. }
  rewrite Hp'. destruct (is_push op) eqn:Hp.
  - rewrite Hpo by done.
    destruct (optimised_push pc op code pool Hb Hop Hp Hopt) as (val & code' & pool' & Hv & Hv1 & _ & Huse & Hbef).
    rewrite Hv, Huse.
    destruct (optimised_jump pc op val code' pool' Hb Hop Hp Hv1 Hbef) as (code'' & Hj & Hopt').
    assert (next_pc op pc = pc + push_bytes op + 1) as Hnext by (unfold next_pc; by rewrite Hp).
    rewrite Hnext in *. rewrite Hj. apply IH; [done|done|lia].
  - unfold next_pc in Hb'. rewrite Hp in Hb'. apply IH; [done| |lia]. by apply (optimised_other pc op).
Qed.

End Second.

(** ** The whole analysis *)

(** The facts about the code the interpreter runs without the optimiser. *)
Record code_ok (pCode code jumpDests : list Z) : Prop := {
  co_len : lenZ code = lenZ pCode + 33;
  co_bytes : Forall (fun b => is_byte b) code;
  co_op : forall i op, Boundary pCode i -> pCode @@ i = Some op -> code @@ i = Some (sanitise op);
  co_end : forall i, lenZ pCode <= i < lenZ pCode + 33 -> code @@ i = Some (opcode STOP);
  co_data : forall i, 0 <= i < lenZ pCode -> ~ Boundary pCode i -> code @@ i = pCode @@ i;
  co_sorted : StronglySorted Z.lt jumpDests;
  co_dests : forall d, d ∈ jumpDests <-> Boundary pCode d /\ pCode @@ d = Some (opcode JUMPDEST)
}.

Lemma sanitised_code_ok pCode pc code dests :
  Forall (fun b => is_byte b) pCode -> lenZ pCode <= pc -> sanitised pCode pc code dests -> code_ok pCode code dests.
Proof.
  intros Hp Hpc [Hlen Hsan Hoth Hs Hd].
  assert (forall i, lenZ pCode <= i < lenZ pCode + 33 -> code @@ i = Some 0) as Hend.
  { intros i Hi. rewrite Hoth by lia. rewrite getZ_app_r by lia. pose proof (lenZ_nonneg pCode).
    unfold getZ. destruct (Z.ltb_spec (i - lenZ pCode) 0); [lia|]. apply lookup_replicate_2. lia. }
  constructor; try done.
  - apply Forall_lookup_2. intros i x Hx. rewrite <- getZ_nat in Hx.
    pose proof (getZ_Some_range _ _ _ Hx) as Hr.
    destruct (Z.lt_ge_cases (Z.of_nat i) (lenZ pCode)) as [Hlt|Hge]; [|rewrite Hend in Hx by lia; injection Hx as <-; lia].
    destruct (getZ_lookup pCode (Z.of_nat i)) as [op Hop]; [lia|].
    pose proof (getZ_Forall _ _ _ _ Hp Hop) as Hop1. cbv beta in Hop1.
    assert (x = op \/ x = sanitise op) as [->| ->]; [|done|].
    + destruct (decide (x = op)) as [|Hne]; [by left|]. destruct (decide (x = sanitise op)) as [|Hne2]; [by right|].
      exfalso. assert (~ Boundary pCode (Z.of_nat i)) as Hnb.
      { intros Hb. pose proof (Hsan _ _ Hb ltac:(lia) Hop). congruence. }
      rewrite Hoth, getZ_app_l in Hx by tauto. congruence.
    + unfold sanitise. case_match; [by vm_compute|done].
  - intros i op Hb Hop. apply Hsan; [done| |done]. pose proof (getZ_Some_range _ _ _ Hop). lia.
  - intros i Hi Hnb. rewrite Hoth by tauto. apply getZ_app_l. lia.
  - intros d. rewrite Hd. split; [tauto|]. intros [? Hd']. pose proof (getZ_Some_range _ _ _ Hd'). split_and!; [done|lia|done].
Qed.

Theorem analyse_plain pCode :
  Forall (fun b => is_byte b) pCode ->
  exists code dests, analyse false pCode = Some (code, dests, []) /\ code_ok pCode code dests.
Proof.
  intros Hp. destruct (jumpDestLoop_correct pCode) as (code & dests & pc & Heq & Hpc & Hs).
  exists code, dests. unfold analyse. rewrite Heq. split; [done|]. by eapply sanitised_code_ok.
Qed.

(** What the optimiser adds: at every boundary an equivalent instruction. *)
Record code_opt (pCode code1 dests code pool : list Z) : Prop := {
  cx_len : lenZ code = lenZ pCode + 33;
  cx_bytes : Forall (fun b => is_byte b) code;
  cx_pool : Forall (fun v => is_u256 v) pool;
  cx_op : forall b op, Boundary pCode b -> code1 @@ b = Some op -> optimised_at pCode code1 dests code pool b op
}.

Theorem analyse_optimised pCode :
  Forall (fun b => is_byte b) pCode -> lenZ pCode <= 7 * 2 ^ 16 ->
  exists code1 dests code pool, analyse false pCode = Some (code1, dests, []) /\
    analyse true pCode = Some (code, dests, pool) /\ code_ok pCode code1 dests /\
    code_opt pCode code1 dests code pool.
Proof.
  intros Hp Hsize. destruct (analyse_plain pCode Hp) as (code1 & dests & Heq & Hok).
  exists code1, dests. unfold analyse in *.
  destruct (jumpDestLoop (length pCode) (lenZ pCode) 0 (copyCode pCode 33) []) as [[c d]|]; [|done].
  injection Heq as -> ->.
  destruct (firstPassLoop_spec pCode code1 dests (co_len _ _ _ Hok) (co_bytes _ _ _ Hok)
    (fun b op Hb Hop => co_op _ _ _ Hok b op Hb Hop) Hsize (length pCode) 0 code1 [])
    as (code & pool & pc & Hloop & Hb & Hpc & [Hl Hby [Hpool _] Hdone Hhere Hrest]).
  - constructor.
  - constructor; try done; [by apply Hok|by apply Hok| |by left].
    intros b op Hb' ? _. pose proof (Boundary_range _ _ Hb'). lia.
  - unfold lenZ; lia.
  - exists code, pool. rewrite Hloop. split; [done|]. split; [done|]. split; [done|]. constructor; try done.
    intros b op Hb' Hop. destruct (Z.lt_ge_cases b (lenZ pCode)) as [Hlt|Hge].
    + pose proof (Boundary_range _ _ Hb'). destruct (getZ_lookup pCode b) as [op0 Hop0]; [lia|].
      rewrite (co_op _ _ _ Hok _ _ Hb' Hop0) in Hop. injection Hop as <-. apply Hdone; [done|lia|done].
    + assert (b = pc) as -> by (by apply (Boundary_end pCode)).
      pose proof (Boundary_range _ _ Hb) as Hr. assert (op = opcode STOP) as ->
        by (rewrite (co_end _ _ _ Hok) in Hop by lia; congruence).
      by apply Hhere.
Qed.
