(* ===== verification/VMRun.v ===== *)
(** * Running the interpreter

    Fetch, dispatch and the control instructions, then the loop, the
    trampoline and [execute]: from a well-formed state nothing is undefined,
    the run ends within a bound given by the gas, and control only ever reaches
    instruction boundaries. *)
From stdpp Require Import base list.
From Stdlib Require Import ZArith Lia.
From S2P Require Import Prelude Words Instruction Evmc VMState VMOps VMSpec VMCases VMCalls.
From S2P Require Import VMExec VMContract VMCallsSpec VMCode.

(** ** Fetch *)

Lemma c_metrics_lookup op :
  is_byte op ->
  c_metrics @@ op = Some (mkMetric (gasPriceTier (instructionInfo op)) (args (instructionInfo op)) (ret (instructionInfo op))).
Proof.
  intros Hop. change c_metrics with (map (fun i => let op := instructionInfo (Z.of_nat i) in
    mkMetric (gasPriceTier op) (args op) (ret op)) (seq 0 256)).
  rewrite <- (Z2Nat.id op) by lia. rewrite getZ_nat, list_lookup_fmap, lookup_seq_lt by lia. done.
Qed.

Lemma tierStepGas_lookup t : exists g, tierStepGas @@ Tier_index t = Some g /\ 0 <= g <= 20.
Proof. destruct t; eexists; (split; [reflexivity|]); by vm_compute. Qed.

Definition op_gas (op : Z) : Z := default 0 (tierStepGas @@ Tier_index (gasPriceTier (instructionInfo op))).

(** The state after a fetch that found [op]. *)
Definition fetch_state (op : Z) (s : VM) : VM :=
  set_m_copyMemSize 0 (set_m_newMemSize (lenZ (m_mem s)) (set_m_runGas (op_gas op)
    (set_m_SPP (m_SPP s + args (instructionInfo op) - ret (instructionInfo op)) (set_m_SP (m_SPP s) (set_m_OP op s))))).

(** The number of items on the stack. *)
Definition stackSize (s : VM) : Z := 1024 - m_SPP s.

Section Fetch.
  Context {H : Type} `{!EvmcHost H}.

(** A fetch underflows when there are fewer items than the instruction takes,
    overflows when it would leave more than 1024, and succeeds otherwise. *)
Lemma wp_fetchInstruction op Q (E : VMException -> VM -> H -> Prop) s h :
  m_code s @@ m_PC s = Some op -> is_byte op -> 0 <= m_SPP s <= 1024 ->
  (args (instructionInfo op) <= stackSize s ->
   stackSize s - args (instructionInfo op) + ret (instructionInfo op) <= 1024 -> Q tt (fetch_state op s) h) ->
  (stackSize s < args (instructionInfo op) ->
   E StackUnderflow (set_m_SPP (m_SPP s + args (instructionInfo op)) (set_m_SP (m_SPP s) (set_m_OP op s))) h) ->
  (args (instructionInfo op) <= stackSize s ->
   1024 < stackSize s - args (instructionInfo op) + ret (instructionInfo op) ->
   E OutOfStack (set_m_SPP (m_SPP s + args (instructionInfo op) - ret (instructionInfo op))
     (set_m_SP (m_SPP s) (set_m_OP op s))) h) ->
  wp fetchInstruction Q E s h.
Proof.
  intros Hc Hop Hs HQ HU HO. unfold stackSize in *. pose proof (instructionInfo_bounds op Hop) as [Ha Hr].
  unfold fetchInstruction. apply wp_bind, wp_get. rewrite Hc. apply wp_bind, wp_ret, wp_bind, wp_put.
  rewrite c_metrics_lookup by done. apply wp_bind, wp_ret. cbn [metric_args metric_ret metric_tier].
  unfold adjustStack. apply wp_bind, wp_bind, wp_put, wp_bind, wp_put, wp_bind, wp_get. vm_cbn.
  assert (forall r a s1, wp (H:=H) (A:=unit) (throwBadStack r a)
    (fun _ _ _ => False) (fun e s' h' => s' = s1 /\ h' = h /\ e = if VMSchedule.stackLimit - m_SPP s1 <? r
       then StackUnderflow else OutOfStack) s1 h) as Hbad.
  { intros. unfold throwBadStack. apply wp_bind, wp_get, wp_if; intros Hb; rewrite Hb; by apply wp_throw. }
  apply wp_bind, wp_when; intros Hb.
  - apply Z.ltb_lt in Hb. unfold VMSchedule.stackLimit in Hb. eapply wp_mono; [| |apply Hbad]; [done|].
    intros e s' h' (-> & -> & ->). vm_cbn. unfold VMSchedule.stackLimit.
    destruct (Z.ltb_spec (1024 - (m_SPP s + args (instructionInfo op))) (args (instructionInfo op))); [|lia].
    apply HU. lia.
  - apply Z.ltb_ge in Hb. unfold VMSchedule.stackLimit in Hb. apply wp_bind, wp_put, wp_bind, wp_get. vm_cbn.
    apply wp_when; intros Hb2.
    + apply Z.ltb_lt in Hb2. eapply wp_mono; [| |apply Hbad]; [done|].
      intros e s' h' (-> & -> & ->). vm_cbn. unfold VMSchedule.stackLimit.
      destruct (Z.ltb_spec (1024 - (m_SPP s + args (instructionInfo op) - ret (instructionInfo op))) (args (instructionInfo op))); [lia|].
      apply HO; lia.
    + apply Z.ltb_ge in Hb2. destruct (tierStepGas_lookup (gasPriceTier (instructionInfo op))) as (g & Hg & _).
      rewrite Hg. apply wp_bind, wp_ret, wp_bind, wp_put, wp_bind, wp_put, wp_put. vm_cbn.
      unfold fetch_state, op_gas in HQ. rewrite Hg in HQ. apply HQ; lia.
Qed.

End Fetch.

(** ** The control instructions *)

Section Control.
  Context {H : Type} `{!EvmcHost H} {config : VMConfig}.
  Implicit Types (E : VMException -> VM -> H -> Prop).

Lemma upd_upd {A} (l : list A) i x y : upd (upd l i x) i y = upd l i y.
Proof. apply list_insert_insert_eq. Qed.

Lemma upd_id {A} (l : list A) i x : l @@ i = Some x -> upd l i x = l.
Proof. unfold getZ, upd. destruct (i <? 0); [done|]. apply list_insert_id. Qed.

Lemma wp_code_at_PC b Q E s h : m_code s @@ m_PC s = Some b -> Q b s h -> wp code_at_PC Q E s h.
Proof. intros Hb HQ. apply wp_bind, wp_get. by rewrite Hb. Qed.

(** The loop of [PUSHn] computes what the optimiser computes at analysis time. *)
Lemma wp_push_loop n v v' Q E s h :
  lenZ (m_stack s) = 1024 -> 0 <= m_SPP s < 1024 -> m_stack s @@ m_SPP s = Some v ->
  0 <= m_PC s -> m_PC s + Z.of_nat n < 2 ^ 64 -> push_value_loop n (m_PC s) (m_code s) v = Some v' ->
  Q tt (set_m_PC (m_PC s + Z.of_nat n) (set_m_stack (upd (m_stack s) (m_SPP s) v') s)) h ->
  wp (push_loop n) Q E s h.
Proof.
  revert v s. induction n as [|n IH]; intros v s Hlen HSPP Hv HPC Hn Hval HQ; cbn [push_loop push_value_loop] in *.
  - injection Hval as <-. apply wp_ret. rewrite upd_id in HQ by done. rewrite Z.add_0_r in HQ. by destruct s.
  - destruct (m_code s @@ m_PC s) as [b|] eqn:Hb; [|done].
    apply wp_bind, wp_get, wp_bind, wp_get. rewrite Hv. apply wp_bind, wp_ret.
    apply wp_bind, (wp_code_at_PC b); [done|]. apply wp_bind, wp_SPP_set; [done|lia|].
    apply wp_bind, wp_put. vm_cbn. rewrite Z.add_0_r, u64_small by lia.
    apply (IH (Z.lor (u256 (Z.shiftl v 8)) b)); vm_cbn; rewrite ?lenZ_upd; try done; try lia.
    + apply getZ_upd_eq. lia.
    + rewrite upd_upd. replace (m_PC s + 1 + Z.of_nat n) with (m_PC s + Z.of_nat (S n)) by lia. by destruct s.
Qed.

(** The state a push leaves. *)
Definition pushed (n val : Z) (s : VM) : VM :=
  set_m_PC (m_PC s + n + 1) (set_m_stack (upd (m_stack s) (m_SPP s) val) (set_m_io_gas (m_io_gas s - m_runGas s) s)).

Lemma wp_push sha3 i val Q E s h :
  is_push (opcode i) = true -> m_OP s = opcode i ->
  lenZ (m_stack s) = 1024 -> 0 <= m_SPP s < 1024 -> 0 <= m_PC s < 2 ^ 63 ->
  push_value (m_PC s) (push_bytes (opcode i)) (m_code s) = Some val ->
  (m_runGas s <= m_io_gas s -> Q CONTINUE (pushed (push_bytes (opcode i)) val s) h) ->
  (m_io_gas s < m_runGas s -> E OutOfGas s h) ->
  wp (case_of sha3 i) Q E s h.
Proof.
  intros Hp Hop Hlen HSPP HPC Hval HQ HE. pose proof (is_push_bytes _ Hp) as Hn.
  assert (forall k, wp (H:=H) k Q E (set_m_io_gas (m_io_gas s - m_runGas s) s) h -> wp (updateIOGas ;; k) Q E s h) as Hgas.
  { intros k Hk. apply wp_bind. unfold updateIOGas. apply wp_bind, wp_get, wp_bind, wp_get, wp_bind, wp_when.
    - intros Hb%Z.ltb_lt. apply wp_throw. by apply HE.
    - intros Hb%Z.ltb_ge. by apply wp_put. }
  assert (m_runGas s <= m_io_gas s \/ m_io_gas s < m_runGas s) as [Hge|Hlt] by lia.
  2: { assert (forall k, wp (H:=H) (A:=ctl) (updateIOGas ;; k) Q E s h) as Hthrow.
    { intros k. apply wp_bind. unfold updateIOGas. apply wp_bind, wp_get, wp_bind, wp_get, wp_bind, wp_when; intros Hb;
        [apply wp_throw; by apply HE|apply Z.ltb_ge in Hb; lia]. }
    destruct i; try discriminate; apply Hthrow. }
  specialize (HQ Hge).
  destruct (decide (i = PUSH1)) as [->|Hne].
  - apply Hgas. unfold push_value in Hval. change (push_bytes (opcode PUSH1)) with 1 in *.
    destruct (m_code s @@ (m_PC s + 1)) as [b|] eqn:Hb; [|done]. cbn in Hval. injection Hval as ->.
    apply wp_bind, wp_put. vm_cbn. rewrite u64_small by lia. apply wp_bind, (wp_code_at_PC val); [done|].
    apply wp_bind, wp_SPP_set; vm_cbn; [done|lia|]. apply wp_bind, wp_put, wp_ret. vm_cbn.
    rewrite u64_small, Z.add_0_r by lia. exact HQ.
  - assert (case_of sha3 i = case_PUSHN) as -> by (destruct i; done).
    apply Hgas. apply wp_bind, wp_get. vm_cbn. rewrite Hop.
    apply wp_bind, wp_SPP_set; vm_cbn; [done|lia|]. apply wp_bind, wp_put. vm_cbn. rewrite u64_small by lia.
    change (opcode i - opcode PUSH1 + 1) with (push_bytes (opcode i)).
    unfold push_value in Hval. destruct (m_code s @@ (m_PC s + 1)) as [b|] eqn:Hb; [|done].
    apply wp_bind. eapply (wp_push_loop _ 0 val); vm_cbn; rewrite ?lenZ_upd; try done; try lia.
    + rewrite Z.add_0_r. apply getZ_upd_eq. lia.
    + replace (Z.to_nat (push_bytes (opcode i))) with (S (Z.to_nat (push_bytes (opcode i) - 1))) by lia.
      cbn [push_value_loop]. rewrite Hb. replace (m_PC s + 1 + 1) with (m_PC s + 2) by lia.
      change (u256 (Z.shiftl 0 8)) with 0. rewrite Z.lor_0_l. exact Hval.
    + rewrite Z.add_0_r, upd_upd. apply wp_ret. unfold pushed in HQ.
      replace (m_PC s + 1 + Z.of_nat (Z.to_nat (push_bytes (opcode i))))
        with (m_PC s + push_bytes (opcode i) + 1) by lia. exact HQ.
Qed.

(** A jump, when it is taken, goes where [verifyJumpDest] finds a destination. *)
Lemma wp_verifyJumpDest dest Q E s h :
  (verifyJumpDest_found (m_jumpDests s) dest = true -> Q (u64 dest) s h) ->
  (verifyJumpDest_found (m_jumpDests s) dest = false -> E BadJumpDestination s h) ->
  wp (verifyJumpDest dest true) Q E s h.
Proof. intros HQ HE. apply wp_bind, wp_get, wp_if; intros Hb; [by apply wp_ret, HQ|by apply wp_throw, HE]. Qed.

Definition jumped (pc : Z) (s : VM) : VM := set_m_PC pc (set_m_io_gas (m_io_gas s - m_runGas s) s).

Lemma wp_case_JUMP dest Q E s h :
  lenZ (m_stack s) = 1024 -> Forall (fun v => is_u256 v) (m_stack s) -> 0 <= m_SP s < 1024 ->
  m_stack s @@ m_SP s = Some dest ->
  (m_runGas s <= m_io_gas s -> verifyJumpDest_found (m_jumpDests s) dest = true -> Q CONTINUE (jumped (u64 dest) s) h) ->
  (m_runGas s <= m_io_gas s -> verifyJumpDest_found (m_jumpDests s) dest = false ->
    E BadJumpDestination (set_m_io_gas (m_io_gas s - m_runGas s) s) h) ->
  E OutOfGas s h ->
  wp case_JUMP Q E s h.
Proof.
  intros Hlen Hst HSP Hd HQ HE HO. apply wp_bind, wp_updateIOGas; [intros Hg|intros _; done].
  apply wp_bind, wp_SP; vm_cbn; [done|done|lia|]. rewrite Z.add_0_r. intros v Hv _.
  assert (v = dest) as -> by congruence.
  apply wp_bind, wp_verifyJumpDest; vm_cbn; intros Hb; [|by apply HE].
  apply wp_bind, wp_put, wp_ret. pose proof (u64_range dest).
  rewrite (u64_small (u64 dest)) by lia. by apply HQ.
Qed.

Lemma wp_case_JUMPI dest cond Q E s h :
  lenZ (m_stack s) = 1024 -> Forall (fun v => is_u256 v) (m_stack s) -> 0 <= m_SP s -> m_SP s + 1 < 1024 ->
  m_stack s @@ m_SP s = Some dest -> m_stack s @@ (m_SP s + 1) = Some cond -> 0 <= m_PC s < 2 ^ 63 ->
  (m_runGas s <= m_io_gas s -> cond <> 0 -> verifyJumpDest_found (m_jumpDests s) dest = true ->
    Q CONTINUE (jumped (u64 dest) s) h) ->
  (m_runGas s <= m_io_gas s -> cond = 0 -> Q CONTINUE (jumped (m_PC s + 1) s) h) ->
  (m_runGas s <= m_io_gas s -> cond <> 0 -> verifyJumpDest_found (m_jumpDests s) dest = false ->
    E BadJumpDestination (set_m_io_gas (m_io_gas s - m_runGas s) s) h) ->
  E OutOfGas s h ->
  wp case_JUMPI Q E s h.
Proof.
  intros Hlen Hst HSP HSP1 Hd Hc HPC HQ HQ0 HE HO. apply wp_bind, wp_updateIOGas; [intros Hg|intros _; done].
  apply wp_bind, wp_SP; vm_cbn; [done|done|lia|]. intros c Hc' _. assert (c = cond) as -> by congruence.
  apply wp_bind, wp_if; intros Hb.
  - apply negb_true_iff, Z.eqb_neq in Hb. apply wp_bind, wp_SP; vm_cbn; [done|done|lia|]. rewrite Z.add_0_r.
    intros v Hv _. assert (v = dest) as -> by congruence.
    apply wp_bind, wp_verifyJumpDest; vm_cbn; intros Hj; [|by apply HE].
    apply wp_put, wp_ret. pose proof (u64_range dest). rewrite (u64_small (u64 dest)) by lia. by apply HQ.
  - apply negb_false_iff, Z.eqb_eq in Hb. apply wp_put, wp_ret. vm_cbn. rewrite u64_small by lia. by apply HQ0.
Qed.

(** Both ways to dispatch run the case of the opcode. *)
Lemma dispatch_switch sha3 (s : VM) (h : H) :
  is_byte (m_OP s) -> dispatch sha3 s h = case_of sha3 (switch_label (m_OP s)) s h.
Proof.
  intros Hop. assert (switch_dispatch sha3 s h = case_of sha3 (switch_label (m_OP s)) s h) as Hsw.
  { unfold switch_dispatch, mbind, get, switch_label. by destruct (decode (m_OP s)). }
  unfold dispatch. destruct EVM_JUMP_DISPATCH; [|done].
  unfold jump_dispatch, mbind, get. destruct (getZ_lookup jumpTable (m_OP s)) as [l Hl];
    [unfold lenZ; rewrite jumpTable_length; lia|]. rewrite Hl. cbn [checked mret].
  destruct (jumpTable_switch _ _ Hop Hl) as [->|[[Ho ->]|[Ho ->]]]; [done|..]; rewrite Ho; done.
Qed.
End Control.

(** ** One step *)

Section Step.
  Context {H : Type} `{!EvmcHost H} {config : VMConfig}.
  Context (sha3 : list Z -> list Z).
  Context (ctx : evmc_message) `{!EvmcHostLaws H ctx} (R : H -> H -> Prop) `{!HostRel ctx R}.

(** Every instruction that moves control by one satisfies its contract. *)
Definition is_control (i : Instruction) : bool :=
  is_push (opcode i) || bool_decide (i ∈ [JUMP; JUMPI; PUSHC; JUMPC; JUMPCI]).

Ltac in_list := first [assumption|solve [repeat first [apply list_elem_of_here|apply list_elem_of_further]]].

Lemma contract_all i : is_control i = false -> contract sha3 ctx R i.
Proof.
  intros Hi.
  destruct i; try discriminate Hi; clear Hi;
  first
  [ apply contract_arith; in_list | apply contract_env; in_list
  | apply contract_EXP; assumption | apply contract_CALLDATALOAD; assumption | apply contract_MLOAD; assumption | apply contract_MSTORE; assumption
  | apply contract_MSTORE8; assumption | apply contract_SHA3; assumption | apply contract_LOG; in_list | apply contract_COPY; in_list
  | apply contract_EXTCODECOPY; assumption | apply contract_DUP; in_list | apply contract_SWAP; in_list | apply contract_SSTORE; assumption
  | apply contract_halt; in_list | apply contract_CREATE; assumption | apply contract_CALLS; in_list
  | intros s h Hok Hf Hs _; eapply wp_mono; [| |apply (contract_throw sha3 ctx R); [in_list|exact Hok]]; done ].
Qed.

(** A state of the interpreter loop. *)
Record running (s : VM) : Prop := {
  run_core : core_ok s;
  run_code : code_ok (m_pCode s) (m_code s) (m_jumpDests s);
  run_PC : Boundary (m_pCode s) (m_PC s);
  run_message : m_message s = ctx
}.

(** The program counter is on user code that is no push. *)
Definition no_push_at (s : VM) : Prop := exists op, m_pCode s @@ m_PC s = Some op /\ is_push op = false.

(** A state in which the trampoline is to make a call. *)
Record calling (s : VM) : Prop := {
  call_core : core_ok s;
  call_code : code_ok (m_pCode s) (m_code s) (m_jumpDests s);
  call_PC : Boundary (m_pCode s) (m_PC s) /\ no_push_at s;
  call_message : m_message s = ctx;
  call_bounce :
    (m_bounce s = Some Bounce_caseCreate /\ fetched (opcode CREATE) 3 1 (m_runGas s) s /\ is_static ctx = false)
    \/ (m_bounce s = Some Bounce_caseCall /\ is_call (m_OP s)
        /\ fetched (m_OP s) (if (m_OP s =? opcode CALL) || (m_OP s =? opcode CALLCODE) then 7 else 6) 1 (m_runGas s) s
        /\ (m_OP s = opcode CALL -> is_static ctx = true -> m_stack s @@ (m_SP s + 2) = Some 0))
}.

(** Where control goes: to the next instruction, with the value on the stack
    behind a push, or to a valid destination. *)
Inductive successor (s s' : VM) : Prop :=
| successor_next : no_push_at s -> m_PC s' = m_PC s + 1 -> successor s s'
| successor_jump : m_PC s' ∈ m_jumpDests s -> successor s s'
| successor_push op val : m_code s @@ m_PC s = Some op -> is_push op = true ->
    push_value (m_PC s) (push_bytes op) (m_code s) = Some val -> m_PC s' = next_pc op (m_PC s) ->
    m_stack s' @@ m_SPP s' = Some val -> successor s s'.

Record step_post (s0 : VM) (h0 : H) (c : ctl) (s : VM) (h : H) : Prop := {
  sp_env : same_env s0 s;
  sp_host : kept ctx R h0 h;
  sp_gas : 0 <= m_io_gas s <= m_io_gas s0;
  sp_ctl :
    match c with
    | NEXT | CONTINUE => running s /\ m_io_gas s + 1 <= m_io_gas s0 /\ successor s0 s
    | BREAK => core_ok s /\ (m_bounce s = None \/ calling s)
    end
}.

Lemma running_PC s : running s -> 0 <= m_PC s < lenZ (m_pCode s) + 33 /\ lenZ (m_pCode s) < 2 ^ 62.
Proof.
  intros Hr. pose proof (Boundary_range _ _ (run_PC _ Hr)).
  pose proof (proj2 (ok_pCode _ (run_core _ Hr))). lia.
Qed.

(** The opcode fetched: sanitised user code, or the zeros behind it. *)
Lemma running_fetch s :
  running s ->
  exists op, m_code s @@ m_PC s = Some op /\ is_byte op /\
    ((exists op0, m_pCode s @@ m_PC s = Some op0 /\ op = sanitise op0) \/ (lenZ (m_pCode s) <= m_PC s /\ op = opcode STOP)).
Proof.
  intros Hr. destruct (running_PC s Hr) as [HPC Hlen]. destruct Hr as [Hok Hco Hb Hst].
  destruct (Z.lt_ge_cases (m_PC s) (lenZ (m_pCode s))) as [Hlt|Hge].
  - destruct (getZ_lookup (m_pCode s) (m_PC s)) as [op Hop]; [lia|].
    pose proof (co_op _ _ _ Hco _ _ Hb Hop) as Hc. exists (sanitise op). split; [done|]. split; [|eauto].
    exact (getZ_Forall _ _ _ _ (co_bytes _ _ _ Hco) Hc).
  - exists (opcode STOP). split; [apply (co_end _ _ _ Hco); lia|]. split; [by vm_compute|auto].
Qed.

(** An instruction that is no push and lies inside of the code is followed by
    a boundary. *)
Lemma boundary_succ s :
  Boundary (m_pCode s) (m_PC s) -> no_push_at s -> Boundary (m_pCode s) (m_PC s + 1).
Proof.
  intros Hb (op & Hop & Hp). pose proof (Boundary_next _ _ _ Hb Hop) as Hn. unfold next_pc in Hn. by rewrite Hp in Hn.
Qed.

Lemma core_ok_fetch op s :
  core_ok s -> is_byte op -> args (instructionInfo op) <= stackSize s ->
  stackSize s - args (instructionInfo op) + ret (instructionInfo op) <= 1024 ->
  core_ok (fetch_state op s) /\
  fetched op (args (instructionInfo op)) (ret (instructionInfo op)) (op_gas op) (fetch_state op s).
Proof.
  intros [] Hop Ha Hr. unfold stackSize in *. pose proof (instructionInfo_bounds op Hop).
  split; constructor; unfold fetch_state; vm_cbn; try done; lia.
Qed.

Lemma sanitise_not_synthetic op : is_synthetic (sanitise op) = false.
Proof. unfold sanitise. by destruct (is_synthetic op) eqn:Hs. Qed.

Lemma decode_dec op : is_byte op -> (exists i, op = opcode i /\ switch_label op = i) \/ switch_label op = INVALID.
Proof.
  intros. unfold switch_label. destruct (decode op) as [i|] eqn:Hd; [|by right].
  left. exists i. split; [by apply decode_Some|done].
Qed.

Lemma wp_and {A} (m : M H A) Q1 Q2 E s h :
  wp m Q1 E s h -> wp m Q2 (fun _ _ _ => True) s h -> wp m (fun a s' h' => Q1 a s' h' /\ Q2 a s' h') E s h.
Proof. unfold wp. by destruct (m s h) as [[[a|e| |] s'] h']. Qed.

Lemma wp_dispatch Q E s h :
  is_byte (m_OP s) -> wp (case_of sha3 (switch_label (m_OP s))) Q E s h -> wp (dispatch sha3) Q E s h.
Proof. intros Hop. unfold wp. by rewrite dispatch_switch. Qed.

Lemma push_metrics i : is_push (opcode i) = true -> args (instructionInfo (opcode i)) = 0 /\
  ret (instructionInfo (opcode i)) = 1 /\ op_gas (opcode i) = 3.
Proof. destruct i; try discriminate; intros _; vm_compute; auto. Qed.

Lemma dests_range s :
  code_ok (m_pCode s) (m_code s) (m_jumpDests s) -> lenZ (m_pCode s) < 2 ^ 62 ->
  Forall (fun d => 0 <= d < 2 ^ 63) (m_jumpDests s).
Proof.
  intros Hco Hl. apply Forall_forall. intros d [_ Hd]%(co_dests _ _ _ Hco). apply getZ_Some_range in Hd. cbv beta. lia.
Qed.

(** A valid destination is a boundary. *)
Lemma found_boundary s dest :
  code_ok (m_pCode s) (m_code s) (m_jumpDests s) -> lenZ (m_pCode s) < 2 ^ 62 -> 0 <= dest ->
  verifyJumpDest_found (m_jumpDests s) dest = true ->
  u64 dest = dest /\ Boundary (m_pCode s) dest /\ dest ∈ m_jumpDests s.
Proof.
  intros Hco Hl Hd Hf. apply verifyJumpDest_found_spec in Hf as Hin; [|apply Hco|by apply dests_range|done].
  apply (co_dests _ _ _ Hco) in Hin as [? Hj]. pose proof (getZ_Some_range _ _ _ Hj). rewrite u64_small by lia.
  split_and!; [done|done|]. by apply (co_dests _ _ _ Hco).
Qed.

(** What a fetch leaves alone. *)
Record fetch_frame (s s1 : VM) : Prop := {
  ff_env : same_env s s1;
  ff_PC : m_PC s1 = m_PC s;
  ff_stack : m_stack s1 = m_stack s;
  ff_gas : m_io_gas s1 = m_io_gas s;
  ff_SP : m_SP s1 = m_SPP s
}.

Lemma fetch_state_frame op s : fetch_frame s (fetch_state op s).
Proof. by constructor. Qed.

Lemma running_after s s1 : running s -> fetch_frame s s1 -> core_ok s1 -> running s1.
Proof.
  intros [Hok Hco Hb Hst] [[] HPC _ _ _] Hok1. constructor; [done|congruence..].
Qed.

Lemma step_push s h i op0 :
  running s -> m_OP s = opcode i -> m_pCode s @@ m_PC s = Some op0 -> opcode i = sanitise op0 -> is_push (opcode i) = true ->
  0 <= m_SPP s < 1024 -> m_runGas s = 3 ->
  wp (case_of sha3 i) (fun c s' h' => c = CONTINUE /\ step_post s h c s' h') (epost ctx R s h) s h.
Proof.
  intros Hr HOP Hop0 Hop Hp HSPP Hg. destruct (running_PC s Hr) as [HPC Hlen].
  destruct Hr as [Hok Hco Hb Hst]. pose proof (getZ_Some_range _ _ _ Hop0) as HPC'.
  destruct (sanitise_push op0) as [Hsp Hs]. rewrite <- Hop, Hp in Hsp.
  assert (opcode i = op0) as Heq by (rewrite Hop; apply Hs; congruence).
  pose proof (Boundary_next _ _ _ Hb Hop0) as Hnext. rewrite <- Heq in Hnext. unfold next_pc in Hnext. rewrite Hp in Hnext.
  pose proof (is_push_bytes _ Hp) as Hn.
  destruct (push_value_Some (m_PC s) (push_bytes (opcode i)) (m_code s)) as (val & Hval & Hvr);
    [apply Hco|lia|lia|rewrite (co_len _ _ _ Hco); lia|].
  destruct (Hok).
  eapply (wp_push sha3 i val); [done|done|done|lia|lia|exact Hval|..].
  - intros Hge. unfold pushed. split; [done|].
    constructor; [done|host_chain|vm_cbn; lia|]. split; [|split; [vm_cbn; lia|]].
    + constructor; [constructor|..]; vm_cbn; rewrite ?lenZ_upd; try done; try lia.
      by apply Forall_upd.
    + apply (successor_push _ _ (opcode i) val); vm_cbn; try done.
      * rewrite Hop. exact (co_op _ _ _ Hco _ _ Hb Hop0).
      * unfold next_pc. by rewrite Hp.
      * apply getZ_upd_eq. lia.
  - intros _. constructor; [host_chain|lia|done].
Qed.

Lemma running_jumped s pc :
  running s -> 0 <= m_runGas s <= m_io_gas s -> Boundary (m_pCode s) pc -> running (jumped pc s).
Proof.
  intros [[] Hco Hb Hst] Hg Hpc. constructor; [constructor|..]; unfold jumped; vm_cbn; try done. lia.
Qed.

Lemma step_jump s h i :
  running s -> (i = JUMP /\ m_SP s + 1 <= 1024 \/ i = JUMPI /\ m_SP s + 2 <= 1024) -> 0 <= m_SP s ->
  no_push_at s -> 1 <= m_runGas s ->
  wp (case_of sha3 i) (fun c s' h' => c = CONTINUE /\ step_post s h c s' h') (epost ctx R s h) s h.
Proof.
  intros Hr Hi HSP Hno Hg. destruct (running_PC s Hr) as [HPC Hlen].
  pose proof (boundary_succ s (run_PC _ Hr) Hno) as Hnext.
  pose proof (run_core _ Hr) as []. pose proof (run_code _ Hr) as Hco.
  assert (forall dest, 0 <= dest -> m_runGas s <= m_io_gas s -> verifyJumpDest_found (m_jumpDests s) dest = true ->
    step_post s h CONTINUE (jumped (u64 dest) s) h) as Hjump.
  { intros dest Hd Hge Hf. destruct (found_boundary s dest Hco Hlen Hd Hf) as (-> & Hb & Hin).
    constructor; [done|host_chain|unfold jumped; vm_cbn; lia|].
    split; [apply running_jumped; [done|lia|done]|split; [unfold jumped; vm_cbn; lia|by apply successor_jump]]. }
  assert (forall s', m_io_gas s' = m_io_gas s -> epost ctx R s h OutOfGas s' h) as Hoog
    by (intros s' Hs'; constructor; [host_chain|lia|done]).
  destruct (getZ_lookup (m_stack s) (m_SP s)) as [dest Hdest]; [lia|].
  pose proof (getZ_Forall _ _ _ _ ok_stack Hdest) as Hdr. cbv beta in Hdr.
  destruct Hi as [[-> Hi]|[-> Hi]].
  - apply (wp_case_JUMP dest); [done|done|lia|done|intros; split; [done|]; apply Hjump; [lia|done..]| |by apply Hoog].
    intros Hge _. constructor; [host_chain|vm_cbn; lia|done].
  - destruct (getZ_lookup (m_stack s) (m_SP s + 1)) as [cond Hcond]; [lia|].
    apply (wp_case_JUMPI dest cond); [done|done|lia|lia|done|done|lia|intros; split; [done|]; apply Hjump; [lia|done..]|..|by apply Hoog].
    + intros Hge _. split; [done|]. constructor; [done|host_chain|unfold jumped; vm_cbn; lia|].
      split; [apply running_jumped; [done|lia|done]|split; [unfold jumped; vm_cbn; lia|by apply successor_next]].
    + intros Hge _ _. constructor; [host_chain|vm_cbn; lia|done].
Qed.

(** The instructions that are not [STOP] and move control by one. *)
Lemma step_plain s h i :
  running s -> is_control i = false -> no_push_at s ->
  fetched (opcode i) (args (instructionInfo (opcode i))) (ret (instructionInfo (opcode i))) (op_gas (opcode i)) s ->
  host_ok h ->
  wp (c <- case_of sha3 i ;;
      match c with NEXT => incPC ;; mret NEXT | CONTINUE => mret CONTINUE | BREAK => mret BREAK end)
     (step_post s h) (epost ctx R s h) s h.
Proof.
  intros Hr Hi Hno Hf Hhok. destruct (running_PC s Hr) as [HPC Hlen].
  pose proof (boundary_succ s (run_PC _ Hr) Hno) as Hnext. pose proof Hr as [Hok Hco Hb Hst].
  assert (u64 (m_PC s + 1) = m_PC s + 1) as Hu by (apply u64_small; lia).
  apply wp_bind. eapply wp_mono; [|done|exact (contract_all i Hi s h Hok Hf Hst Hhok)].
  intros c s' h' [Hok' Henv HSPP Hframe Hhost Hgas Hctl]. pose proof (ok_gas _ Hok').
  destruct Henv as [Hrev Hmsg HpCode Hcode Hpool Hdests].
  destruct c; [| |].
  - destruct Hctl as [HPC' Hg]. apply wp_bind, wp_put, wp_ret. rewrite HPC', Hu.
    constructor; [by constructor|done|vm_cbn; lia|]. split; [|split; [vm_cbn; lia|by apply successor_next]].
    constructor; vm_cbn; [|congruence|congruence|congruence].
    destruct Hok'. by constructor.
  - done.
  - apply wp_ret. constructor; [by constructor|done|lia|]. split; [done|].
    destruct Hctl as [?|[(-> & Hop & Hs)|(-> & Hop & Hv)]]; [by left|right..].
    + vm_cbn in *. rewrite (f_op _ _ _ _ _ Hf) in Hop. apply opcode_inj in Hop as ->.
      constructor; vm_cbn; [done|done|done|done|]. left. split; [done|]. split; [|done].
      destruct Hf. constructor; vm_cbn; done.
    + vm_cbn in *. constructor; vm_cbn; [done|done|done|done|]. right. split; [done|]. split; [done|].
      split; [|done]. pose proof (f_op _ _ _ _ _ Hf) as Ho. rewrite Ho in Hop.
      destruct Hf. destruct Hop as [He|[He|[He|He]]]; apply opcode_inj in He as ->; constructor; vm_cbn; rewrite ?Ho; done.
Qed.

Lemma step_stop s h :
  running s -> m_runGas s = 0 ->
  wp case_STOP (fun c s' h' => c = BREAK /\ step_post s h c s' h') (epost ctx R s h) s h.
Proof.
  intros [[] Hco Hb Hst] Hg. apply wp_bind, wp_updateIOGas.
  - intros _. apply wp_bind, wp_put, wp_ret. rewrite Hg, Z.sub_0_r. split; [done|].
    constructor; [done|host_chain|vm_cbn; lia|]. split; [by constructor|by left].
  - intros _. constructor; [host_chain|lia|done].
Qed.

(** One round of the loop, from any state of the loop. *)
Lemma wp_interpretStep s h :
  running s -> host_ok h -> wp (interpretStep sha3) (step_post s h) (epost ctx R s h) s h.
Proof.
  intros Hr Hhok. destruct (running_fetch s Hr) as (op & Hc & Hop & Hcase). pose proof Hr as [Hok Hco Hb Hst].
  pose proof (ok_gas _ Hok).
  assert (forall e s', m_io_gas s' = m_io_gas s -> (forall o, e <> RevertInstruction o) -> epost ctx R s h e s' h) as Hthrow
    by (intros e s' Hs' He; constructor; [host_chain|lia|intros out ->; by destruct (He out)]).
  unfold interpretStep. apply wp_bind, (wp_fetchInstruction op); [done|done|apply Hok| |intros; by apply Hthrow..].
  intros Ha Hrt. destruct (core_ok_fetch op s Hok Hop Ha Hrt) as [Hok1 Hf].
  pose proof (fetch_state_frame op s) as Hfr. pose proof (running_after _ _ Hr Hfr Hok1) as Hr1.
  set (s1 := fetch_state op s) in *. clearbody s1. clear Hc Ha Hrt.
  assert (forall c s' h', step_post s1 h c s' h' -> step_post s h c s' h') as Hpost.
  { destruct Hfr as [Henv HPC Hstk Hg _]. intros c s' h' [He Hh Hg' Hctl]. rewrite Hg in *.
    constructor; [by eapply same_env_trans|done..|]. assert (successor s1 s' -> successor s s') as Hsucc.
    { destruct Henv as [_ _ HpC HC _ HD]. unfold no_push_at. intros [(? & ?)|?|? ?]; rewrite ?HpC, ?HC, ?HPC, ?HD in *;
        [eapply successor_next; [by eexists|done]|by apply successor_jump|by eapply successor_push]. }
    destruct c; intuition. }
  assert (forall e s' h', epost ctx R s1 h e s' h' -> epost ctx R s h e s' h') as Hepost.
  { destruct Hfr as [_ _ _ Hg _]. intros e s' h' [Hh Hg' Ho]. rewrite Hg in Hg'. by constructor. }
  assert (m_pCode s1 = m_pCode s /\ m_PC s1 = m_PC s) as [HpC HPC] by (destruct Hfr as [[] ? _ _ _]; auto).
  rewrite <- HpC, <- HPC in Hcase.
  assert (is_push op = false -> op <> opcode STOP -> no_push_at s1) as Hnext.
  { intros Hp Hne. destruct Hcase as [(op0 & Hop0 & ->)|[_ ->]]; [|done].
    exists op0. split; [done|]. by rewrite <- (proj1 (sanitise_push op0)). }
  assert (is_synthetic op = false) as Hsyn
    by (destruct Hcase as [(op0 & _ & ->)|[_ ->]]; [apply sanitise_not_synthetic|done]).
  assert (m_OP s1 = op) as HOP by apply Hf.
  eapply wp_mono; [exact Hpost|exact Hepost|]. clear Hpost Hepost Hthrow Hfr Hok Hr.
  assert (forall m, wp m (fun c s' h' => c = CONTINUE /\ step_post s1 h c s' h') (epost ctx R s1 h) s1 h ->
    wp (c <- m ;; match c with NEXT => incPC ;; mret NEXT | CONTINUE => mret CONTINUE | BREAK => mret BREAK end)
      (step_post s1 h) (epost ctx R s1 h) s1 h) as Hcont.
  { intros m Hm. apply wp_bind. eapply wp_mono; [|done|exact Hm]. by intros c s' h' [-> Hp]. }
  destruct (decode_dec op Hop) as [(i & Hi & Hlab)|Hlab].
  - rewrite <- HOP in Hlab. rewrite Hi in *. clear Hi.
    destruct (decide (i = STOP)) as [->|Hstop].
    { apply wp_bind, wp_dispatch; [by rewrite HOP|]. rewrite Hlab.
      eapply wp_mono; [|done|exact (step_stop s1 h Hr1 (f_gas _ _ _ _ _ Hf))]. by intros c s' h' [-> Hp]. }
    assert (opcode i <> opcode STOP) as Hne by (intros He; by apply opcode_inj in He).
    specialize (fun Hp => Hnext Hp Hne).
    destruct (is_control i) eqn:Hcon.
    + apply Hcont. apply wp_dispatch; [by rewrite HOP|]. rewrite Hlab.
      unfold is_control in Hcon. destruct (is_push (opcode i)) eqn:Hp.
      * destruct Hcase as [(op0 & Hop0 & Hs)|[_ He]]; [|by rewrite He in Hp].
        destruct (push_metrics i Hp) as (Hargs & Hret & Hgas). destruct Hf as [_ HSP HSPa HSPP Hg _].
        rewrite Hargs, Hret, Hgas in *. pose proof (ok_SPP _ Hok1).
        eapply step_push; [done|done|exact Hop0|done|done|lia|done].
      * cbn [orb] in Hcon. apply bool_decide_eq_true in Hcon.
        assert (i = JUMP \/ i = JUMPI) as Hj.
        { rewrite !elem_of_cons in Hcon. destruct Hcon as [->|[->|[->|[->|[->|[]%elem_of_nil]]]]]; auto; discriminate. }
        destruct Hf as [_ HSP HSPa _ Hg _]. apply step_jump; [done| |done|by apply Hnext|].
        -- destruct Hj as [->| ->]; [left|right]; (split; [done|exact HSPa]).
        -- rewrite Hg. destruct Hj as [->| ->]; by vm_compute.
    + apply wp_bind, wp_dispatch; [by rewrite HOP|]. rewrite Hlab. apply wp_bind_inv.
      unfold is_control in Hcon. apply orb_false_iff in Hcon as [Hp Hl].
      apply step_plain; [done|unfold is_control; by rewrite Hp, Hl|by apply Hnext|done|done].
  - apply wp_bind, wp_dispatch; [by rewrite HOP|]. rewrite HOP, Hlab. apply wp_throw.
    constructor; [host_chain|pose proof (ok_gas _ Hok1); lia|done].
Qed.

(** ** The loop and the trampoline *)

(** What a part of a run changes. *)
Record progress (s0 : VM) (h0 : H) (s : VM) (h : H) : Prop := {
  pr_env : same_env s0 s;
  pr_host : kept ctx R h0 h;
  pr_gas : 0 <= m_io_gas s <= m_io_gas s0
}.

Lemma progress_trans s1 h1 s2 h2 s3 h3 : progress s1 h1 s2 h2 -> progress s2 h2 s3 h3 -> progress s1 h1 s3 h3.
Proof.
  intros [He1 Hh1 Hg1] [He2 Hh2 Hg2]. constructor; [by eapply same_env_trans|by eapply kept_trans|lia].
Qed.

Lemma epost_trans s1 h1 s2 h2 e s3 h3 : progress s1 h1 s2 h2 -> epost ctx R s2 h2 e s3 h3 -> epost ctx R s1 h1 e s3 h3.
Proof. intros [He1 Hh1 Hg1] [Hh2 Hg2 Ho]. constructor; [by eapply kept_trans|lia|done]. Qed.

(** The loop leaves within as many rounds as there is gas, plus one. *)
Lemma wp_interpretCases fuel s h :
  running s -> host_ok h -> m_io_gas s < Z.of_nat fuel ->
  wp (interpretCases sha3 fuel)
    (fun _ s' h' => progress s h s' h' /\ core_ok s' /\ (m_bounce s' = None \/ calling s')) (epost ctx R s h) s h.
Proof.
  revert s h. induction fuel as [|f IH]; intros s h Hr Hhok Hf; cbn [interpretCases].
  { pose proof (ok_gas _ (run_core _ Hr)). lia. }
  apply wp_bind. eapply wp_mono; [|done|exact (wp_interpretStep s h Hr Hhok)].
  intros c s1 h1 [Henv Hh Hg Hctl]. assert (progress s h s1 h1) as Hp by by constructor.
  assert (c = BREAK -> core_ok s1 /\ (m_bounce s1 = None \/ calling s1)) as Hbreak by (intros ->; exact Hctl).
  assert (c <> BREAK -> running s1 /\ m_io_gas s1 + 1 <= m_io_gas s) as Hgo by (intros ?; destruct c; tauto).
  assert (c = BREAK \/ c <> BREAK) as [->|Hne] by (destruct c; auto).
  - apply wp_ret. split; [done|by apply Hbreak].
  - destruct (Hgo Hne) as [Hr1 Hg1].
    assert (wp (interpretCases sha3 f)
      (fun _ s' h' => progress s h s' h' /\ core_ok s' /\ (m_bounce s' = None \/ calling s')) (epost ctx R s h) s1 h1) as Hrec.
    { eapply wp_mono; [| |apply IH; [done|by eapply kept_ok|lia]].
      - intros _ s' h' [Hp' ?]. split; [by eapply progress_trans|done].
      - intros e s' h' He. by eapply epost_trans. }
    by destruct c.
Qed.

(** A call returns to the loop. *)
Lemma call_post_running args s h s' h' :
  calling s -> call_post ctx R args s h s' h' -> progress s h s' h' /\ running s' /\ m_io_gas s' + 1 <= m_io_gas s /\
    m_bounce s' = Some Bounce_interpretCases /\ m_PC s' = m_PC s + 1.
Proof.
  intros [Hok Hco [HPC Hno] Hst _] [Hok' Henv HSPP Hframe Hh Hg HPC' Hb]. pose proof (ok_gas _ Hok').
  pose proof (boundary_succ s HPC Hno) as Hnext. pose proof (Boundary_range _ _ HPC) as Hr.
  pose proof (proj2 (ok_pCode _ Hok)). rewrite u64_small in HPC' by lia.
  split_and!; [constructor; [done|done|lia]| |lia|done|done]. destruct Henv as [Hrev Hmsg HpCode Hcode Hpool Hdests].
  constructor; [done|rewrite ?HpCode, ?Hcode, ?Hdests, ?HPC', ?Hmsg; assumption..].
Qed.

Lemma wp_call s h :
  calling s -> host_ok h ->
  wp (bounce sha3 0) (fun _ s' h' => progress s h s' h' /\ running s' /\ m_io_gas s' + 1 <= m_io_gas s /\
    m_bounce s' = Some Bounce_interpretCases /\ m_PC s' = m_PC s + 1) (epost ctx R s h) s h.
Proof.
  intros Hc Hhok. pose proof (call_core _ Hc) as Hok.
  apply wp_bind, wp_get. destruct (call_bounce _ Hc) as [(Hb & Hf & Hs)|(Hb & Hop & Hf & Hv)]; rewrite Hb.
  - eapply wp_mono; [|done|exact (wp_caseCreate ctx R _ s h Hok Hf Hs (call_message _ Hc) Hhok)].
    intros [] s' h' Hp. exact (call_post_running _ _ _ _ _ Hc Hp).
  - eapply wp_mono; [|done|exact (wp_caseCall ctx R _ _ s h Hok Hf Hop eq_refl (call_message _ Hc) Hhok Hv)].
    intros [] s' h' Hp. exact (call_post_running _ _ _ _ _ Hc Hp).
Qed.

(** Every round of the trampoline uses up the measure [2 gas] or [2 gas + 1]. *)
Lemma wp_trampoline n fuel s h :
  (running s /\ m_bounce s = Some Bounce_interpretCases /\ 2 * m_io_gas s + 1 < Z.of_nat n)
  \/ (calling s /\ 2 * m_io_gas s < Z.of_nat n) ->
  m_io_gas s < Z.of_nat fuel -> host_ok h ->
  wp (trampoline sha3 n fuel) (fun _ s' h' => progress s h s' h' /\ core_ok s') (epost ctx R s h) s h.
Proof.
  revert s h. induction n as [|n IH]; intros s h Hs Hfuel Hhok; cbn [trampoline].
  { destruct Hs as [(Hr & _ & Hn)|(Hc & Hn)];
      [pose proof (ok_gas _ (run_core _ Hr))|pose proof (ok_gas _ (call_core _ Hc))]; lia. }
  assert (forall s1 h1, progress s h s1 h1 ->
    (running s1 /\ m_bounce s1 = Some Bounce_interpretCases /\ 2 * m_io_gas s1 + 1 < Z.of_nat n)
    \/ (calling s1 /\ 2 * m_io_gas s1 < Z.of_nat n) ->
    wp (trampoline sha3 n fuel) (fun _ s' h' => progress s h s' h' /\ core_ok s') (epost ctx R s h) s1 h1) as Hrec.
  { intros s1 h1 Hp Hs1. pose proof (pr_gas _ _ _ _ Hp). eapply wp_mono; [| |apply IH; [done|lia|eapply kept_ok; [apply Hp|done]]].
    - intros _ s' h' [Hp' ?]. split; [by eapply progress_trans|done].
    - intros e s' h' He. by eapply epost_trans. }
  apply wp_bind. destruct Hs as [(Hr & Hb & Hn)|(Hc & Hn)].
  - apply wp_bind, wp_get. rewrite Hb. eapply wp_mono; [|done|exact (wp_interpretCases fuel s h Hr Hhok Hfuel)].
    intros _ s1 h1 (Hp & Hok & Hs1). apply wp_bind, wp_get. pose proof (pr_gas _ _ _ _ Hp).
    destruct Hs1 as [->|Hc]; [by apply wp_ret|].
    assert (exists b, m_bounce s1 = Some b) as [b ->] by (destruct (call_bounce _ Hc) as [[-> _]|[-> _]]; eauto).
    apply Hrec; [done|]. right. split; [done|lia].
  - assert (bounce sha3 fuel s h = bounce sha3 0 s h) as Heq.
    { unfold bounce, mbind, get. by destruct (call_bounce _ Hc) as [[-> _]|[-> _]]. }
    pose proof (wp_call s h Hc Hhok) as Hw. unfold wp in Hw. rewrite <- Heq in Hw.
    eapply wp_mono; [|done|exact Hw]. intros _ s1 h1 (Hp & Hr & Hg & Hb & _). apply wp_bind, wp_get. rewrite Hb.
    apply Hrec; [done|]. left. split_and!; [done|done|lia].
Qed.

(** ** The entry point *)

(** What the caller of [execute] passes. *)
Record valid_input (msg : evmc_message) (code : list Z) : Prop := {
  vi_gas : 0 <= msg_gas msg < 2 ^ 63;
  vi_code : Forall (fun b => is_byte b) code;
  vi_code_len : lenZ code < 2 ^ 62;
  vi_input : Forall (fun b => is_byte b) (input_data msg);
  vi_input_len : lenZ (input_data msg) < 2 ^ 63
}.

(** The state the interpreter loop starts from. *)
Definition entry_state (r : evmc_revision) (msg : evmc_message) (code : list Z) (code' dests pool : list Z) : VM :=
  set_m_pool pool (set_m_jumpDests dests (set_m_code code' (set_m_bounce (Some Bounce_interpretCases)
    (set_m_bounce (Some Bounce_initEntry) (set_m_pCode code (set_m_PC 0 (set_m_io_gas (u64 (msg_gas msg))
      (set_m_message msg (set_m_rev r VM_init))))))))).

Lemma entry_core_ok r msg code code' dests pool :
  valid_input msg code -> Forall (fun b => is_byte b) code' -> Forall (fun v => is_u256 v) pool ->
  core_ok (entry_state r msg code code' dests pool).
Proof.
  intros [] Hc Hp. constructor; unfold entry_state; cbn -[replicate Z.pow]; try done.
  - by apply Forall_replicate.
  - rewrite u64_small by lia. lia.
Qed.

(** [exec] up to the loop. *)
Lemma exec_entry fuel r msg code code' dests pool s h :
  analyse EVM_OPTIMIZE code = Some (code', dests, pool) -> s = entry_state r msg code code' dests pool ->
  exec sha3 (S fuel) r msg code VM_init h = (trampoline sha3 fuel (S fuel) ;; get m_output) s h.
Proof.
  intros Ha ->. unfold exec. cbn [trampoline]. unfold bounce, initEntry, optimize, bounce_to, mbind, put, get. cbn -[replicate u64 trampoline analyse].
  rewrite Ha. reflexivity.
Qed.

Lemma wp_exec_plain fuel r code h :
  EVM_OPTIMIZE = false -> valid_input ctx code -> host_ok h -> 2 * msg_gas ctx + 3 <= Z.of_nat fuel ->
  wp (exec sha3 fuel r ctx code)
    (fun out s' h' => kept ctx R h h' /\ 0 <= m_io_gas s' <= msg_gas ctx /\ Forall (fun b => is_byte b) out /\ lenZ out <= maxMem)
    (fun e s' h' => kept ctx R h h' /\ 0 <= m_io_gas s' <= msg_gas ctx /\
       forall out, e = RevertInstruction out -> Forall (fun b => is_byte b) out /\ lenZ out <= maxMem) VM_init h.
Proof.
  intros Hopt Hv Hhok Hfuel. destruct fuel as [|fuel]; [pose proof (vi_gas _ _ Hv); lia|].
  destruct (analyse_plain code (vi_code _ _ Hv)) as (code' & dests & Ha & Hco).
  pose proof (vi_gas _ _ Hv) as Hg.
  set (s0 := entry_state r ctx code code' dests []).
  unfold wp. rewrite (exec_entry fuel r ctx code code' dests [] s0 h); [|by rewrite Hopt|done].
  assert (m_io_gas s0 = msg_gas ctx) as Hio by (apply u64_small; lia).
  assert (running s0) as Hr.
  { constructor; [apply entry_core_ok; [done|apply Hco|constructor]|done|constructor|done]. }
  change (wp (trampoline sha3 fuel (S fuel) ;; get m_output)
    (fun out s' h' => kept ctx R h h' /\ 0 <= m_io_gas s' <= msg_gas ctx /\ Forall (fun b => is_byte b) out /\ lenZ out <= maxMem)
    (fun e s' h' => kept ctx R h h' /\ 0 <= m_io_gas s' <= msg_gas ctx /\
       forall out, e = RevertInstruction out -> Forall (fun b => is_byte b) out /\ lenZ out <= maxMem) s0 h).
  apply wp_bind. eapply wp_mono; [| |apply (wp_trampoline fuel (S fuel) s0 h); [left; split_and!; [done|done|lia]|lia|done]].
  - intros [] s' h' [[Henv Hh Hgas] Hok]. apply wp_get. rewrite Hio in Hgas. split; [done|]. split; [done|apply Hok].
  - intros e s' h' [Hh Hgas Ho]. rewrite Hio in Hgas. done.
Qed.

End Step.
