(* ===== verification/VMOptim.v ===== *)
(** * The optimised interpreter is the plain one

    With [EVM_OPTIMIZE] the interpreter runs rewritten code.  A lock-step
    simulation shows that, as long as the offsets into the constant pool fit
    their two bytes, every run of the optimised interpreter is the run of the
    plain one. *)
From stdpp Require Import base list.
From Stdlib Require Import ZArith Lia.
From S2P Require Import Prelude Words Instruction Evmc VMState VMOps VMSpec VMCases VMCalls.
From S2P Require Import VMExec VMContract VMCallsSpec VMCode VMRun.

(** A state with other code and another pool. *)
Definition rep (c p : list Z) (s : VM) : VM := set_m_pool p (set_m_code c s).

Section Indep.
  Context {H : Type} `{!EvmcHost H}.

(** Computations that look at neither. *)
Definition indep {A} (m : M H A) : Prop :=
  forall c p s h, m (rep c p s) h = (let '(o, s', h') := m s h in (o, rep c p s', h')).

Lemma indep_bind {A B} (m : M H A) (f : A -> M H B) : indep m -> (forall a, indep (f a)) -> indep (mbind m f).
Proof.
  intros Hm Hf c p s h. unfold mbind. rewrite Hm. destruct (m s h) as [[[a|e| |] s'] h']; [apply Hf|done..].
Qed.
Lemma indep_ret {A} (a : A) : indep (mret a). Proof. done. Qed.
Lemma indep_throw {A} e : indep (A:=A) (throw e). Proof. done. Qed.
Lemma indep_get {A} (f : VM -> A) : (forall c p s, f (rep c p s) = f s) -> indep (get f).
Proof. intros Hf c p s h. unfold get. by rewrite Hf. Qed.
Lemma indep_put f : (forall c p s, f (rep c p s) = rep c p (f s)) -> indep (put f).
Proof. intros Hf c p s h. unfold put. by rewrite Hf. Qed.
Lemma indep_checked {A} (o : option A) : indep (checked o). Proof. by destruct o. Qed.
Lemma indep_host {A} (f : H -> A * H) : indep (host f). Proof. done. Qed.
Lemma indep_host_ f : indep (host_ f). Proof. done. Qed.

Ltac indep_step :=
  lazymatch goal with
  | |- indep (mbind _ _) => apply indep_bind; [|let a := fresh "a" in intros a]
  | |- indep (mret _) => apply indep_ret
  | |- indep (throw _) => apply indep_throw
  | |- indep (get _) => apply indep_get; reflexivity
  | |- indep (put _) => apply indep_put; let c := fresh in let p := fresh in let s := fresh in
      intros c p s; try reflexivity; cbn; case_match; reflexivity
  | |- indep (checked _) => apply indep_checked
  | |- indep (host _) => apply indep_host
  | |- indep (host_ _) => apply indep_host_
  | |- indep (if ?b then _ else _) => destruct b
  | |- indep (match ?x with _ => _ end) => destruct x
  | |- indep ?m => let f := head_of m in unfold f
  end.
Ltac indep_tac := repeat indep_step.

(** No instruction but the pushes looks at the code, and none at the pool. *)
Lemma indep_case {config : VMConfig} sha3 i :
  is_control i = false \/ i = JUMP \/ i = JUMPI -> indep (case_of sha3 i).
Proof.
  intros Hi. assert (is_push (opcode i) = false /\ i <> PUSHC /\ i <> JUMPC /\ i <> JUMPCI) as (Hp & H1 & H2 & H3).
  { destruct Hi as [Hi|[->| ->]]; [|done..]. unfold is_control in Hi. apply orb_false_iff in Hi as [Hp Hi].
    apply bool_decide_eq_false in Hi. split; [done|]. split_and!; intros ->; by destruct Hi; rewrite !elem_of_cons; auto 10. }
  destruct i; try discriminate Hp; try done; clear; cbn [case_of]; indep_tac.
Qed.

Lemma indep_calls : indep caseCreate /\ indep caseCall.
Proof. split; indep_tac. Qed.
End Indep.

(** A computation with an exact weakest precondition is that computation. *)
Lemma wp_exact {H A} (m : M H A) r s h :
  wp m (fun a s' h' => r = (Ret a, s', h')) (fun e s' h' => r = (Throw e, s', h')) s h -> m s h = r.
Proof. unfold wp. destruct (m s h) as [[[a|e| |] s'] h']; congruence || done. Qed.

Section Fetch.
  Context {H : Type} `{!EvmcHost H}.

Definition fetch_result (op : Z) (s : VM) (h : H) : outcome unit * VM * H :=
  let i := instructionInfo op in
  if stackSize s <? args i
  then (Throw StackUnderflow, set_m_SPP (m_SPP s + args i) (set_m_SP (m_SPP s) (set_m_OP op s)), h)
  else if 1024 <? stackSize s - args i + ret i
  then (Throw OutOfStack, set_m_SPP (m_SPP s + args i - ret i) (set_m_SP (m_SPP s) (set_m_OP op s)), h)
  else (Ret tt, fetch_state op s, h).

Lemma fetch_exact op s (h : H) :
  m_code s @@ m_PC s = Some op -> is_byte op -> 0 <= m_SPP s <= 1024 ->
  fetchInstruction s h = fetch_result op s h.
Proof.
  intros Hc Hop Hs. apply wp_exact. unfold fetch_result.
  apply (wp_fetchInstruction op); try done; intros; zguard; done || lia.
Qed.
End Fetch.

(** ** Exact results of the control instructions *)

Section Results.
  Context {H : Type} `{!EvmcHost H} {cfg : VMConfig}.

Definition push_result (n val : Z) (s : VM) (h : H) : outcome ctl * VM * H :=
  if m_io_gas s <? m_runGas s then (Throw OutOfGas, s, h) else (Ret CONTINUE, pushed n val s, h).

Lemma push_exact sha3 i val s h :
  is_push (opcode i) = true -> m_OP s = opcode i -> lenZ (m_stack s) = 1024 -> 0 <= m_SPP s < 1024 ->
  0 <= m_PC s < 2 ^ 63 -> push_value (m_PC s) (push_bytes (opcode i)) (m_code s) = Some val ->
  case_of sha3 i s h = push_result (push_bytes (opcode i)) val s h.
Proof.
  intros. apply wp_exact. unfold push_result.
  eapply (wp_push sha3 i val); try done; intros; destruct (Z.ltb_spec (m_io_gas s) (m_runGas s)); done || lia.
Qed.

Lemma updateIOGas_exact (s : VM) (h : H) :
  updateIOGas s h = if m_io_gas s <? m_runGas s then (Throw OutOfGas, s, h)
                    else (Ret tt, set_m_io_gas (m_io_gas s - m_runGas s) s, h).
Proof. unfold updateIOGas, mbind, get, when. by destruct (m_io_gas s <? m_runGas s). Qed.

(** The pool reference leaves what the push it stands for leaves. *)
Lemma pushc_exact sha3 n off val s h :
  EVM_OPTIMIZE = true -> 5 < n <= 32 -> lenZ (m_stack s) = 1024 -> 0 <= m_SPP s < 1024 -> 0 <= m_PC s < 2 ^ 63 ->
  0 <= off < 2 ^ 16 -> m_pool s @@ off = Some val ->
  m_code s @@ (m_PC s + 1) = Some (off / 256) -> m_code s @@ (m_PC s + 2) = Some (off mod 256) ->
  m_code s @@ (m_PC s + 3) = Some (n - 2) ->
  case_of sha3 PUSHC s h = push_result n val s h.
Proof.
  intros Hopt Hn Hlen HSPP HPC Hoff Hpool H1 H2 H3. cbn [case_of]. unfold case_PUSHC. rewrite Hopt.
  apply wp_exact. unfold push_result. apply wp_bind. unfold wp at 1. rewrite updateIOGas_exact.
  destruct (m_io_gas s <? m_runGas s); [done|]. set (s1 := set_m_io_gas _ s).
  assert (0 <= off / 256 < 256) by (split; [apply Z.div_pos|apply Z.div_lt_upper_bound]; lia).
  assert (Z.lor (u32 (Z.shiftl (off / 256) 8)) (off mod 256) = off) as Hlor.
  { rewrite Z.shiftl_mul_pow2 by lia. rewrite u32_small by lia. rewrite <- Z.shiftl_mul_pow2 by lia.
    rewrite lor_shiftl_add by (try apply Z.mod_pos_bound; lia). pose proof (Z.div_mod off 256). lia. }
  change (pushed n val s) with (set_m_PC (m_PC s1 + n + 1) (set_m_stack (upd (m_stack s1) (m_SPP s1) val) s1)).
  change (m_code s) with (m_code s1) in *. change (m_pool s) with (m_pool s1) in *.
  change (m_PC s) with (m_PC s1) in *. change (m_stack s) with (m_stack s1) in *.
  change (m_SPP s) with (m_SPP s1) in *. clearbody s1.
  apply wp_bind, wp_put. rewrite u64_small by lia.
  apply wp_bind, (wp_code_at_PC (off / 256)); [exact H1|]. apply wp_bind, wp_put. vm_cbn. rewrite u64_small by lia.
  apply wp_bind, (wp_code_at_PC (off mod 256)); [vm_cbn; rewrite <- H2; f_equal; lia|].
  apply wp_bind, wp_put. vm_cbn. rewrite u64_small by lia. rewrite Hlor.
  apply wp_bind, (wp_code_at_PC (n - 2)); [vm_cbn; rewrite <- H3; f_equal; lia|].
  apply wp_bind, wp_put, wp_bind, wp_get. vm_cbn. rewrite Hpool. apply wp_bind, wp_ret.
  apply wp_bind, wp_SPP_set; vm_cbn; [done|lia|]. rewrite Z.add_0_r. apply wp_ret.
  rewrite u64_small by lia. by replace (m_PC s1 + 1 + 1 + 1 + (n - 2)) with (m_PC s1 + n + 1) by lia.
Qed.

Definition jump_result (pc : Z) (s : VM) (h : H) : outcome ctl * VM * H :=
  if m_io_gas s <? m_runGas s then (Throw OutOfGas, s, h) else (Ret CONTINUE, jumped pc s, h).

Lemma jump_exact sha3 dest s h :
  m_stack s @@ m_SP s = Some dest -> verifyJumpDest_found (m_jumpDests s) dest = true ->
  case_of sha3 JUMP s h = jump_result (u64 dest) s h.
Proof.
  intros Hd Hv. cbn [case_of]. unfold case_JUMP, jump_result, mbind. rewrite updateIOGas_exact.
  destruct (m_io_gas s <? m_runGas s); [done|]. unfold SP, mbind, get. vm_cbn. rewrite Z.add_0_r, Hd.
  cbn [checked mret]. unfold verifyJumpDest, mbind, get. vm_cbn. rewrite Hv. cbn. unfold setPC, put, mret.
  pose proof (u64_range dest). by rewrite (u64_small (u64 dest)).
Qed.

Lemma jumpc_exact sha3 dest s h :
  EVM_OPTIMIZE = true -> m_stack s @@ m_SP s = Some dest ->
  case_of sha3 JUMPC s h = jump_result (u64 dest) s h.
Proof.
  intros Hopt Hd. cbn [case_of]. unfold case_JUMPC. rewrite Hopt. unfold jump_result, mbind. rewrite updateIOGas_exact.
  destruct (m_io_gas s <? m_runGas s); [done|]. unfold SP, mbind, get. vm_cbn. by rewrite Z.add_0_r, Hd.
Qed.

Lemma jumpi_exact sha3 dest cond s h :
  m_stack s @@ m_SP s = Some dest -> m_stack s @@ (m_SP s + 1) = Some cond ->
  verifyJumpDest_found (m_jumpDests s) dest = true ->
  case_of sha3 JUMPI s h = jump_result (if cond =? 0 then u64 (m_PC s + 1) else u64 dest) s h.
Proof.
  intros Hd Hc Hv. cbn [case_of]. unfold case_JUMPI, jump_result, mbind. rewrite updateIOGas_exact.
  destruct (m_io_gas s <? m_runGas s); [done|]. unfold SP, mbind, get. vm_cbn. rewrite Hc.
  cbn [checked mret]. destruct (cond =? 0); cbn [negb]; [done|]. unfold mbind. vm_cbn. rewrite Z.add_0_r, Hd.
  cbn [checked mret]. unfold verifyJumpDest, mbind, get. vm_cbn. rewrite Hv. cbn. unfold setPC, put, mret.
  pose proof (u64_range dest). by rewrite (u64_small (u64 dest)).
Qed.

Lemma jumpci_exact sha3 dest cond s h :
  EVM_OPTIMIZE = true -> m_stack s @@ m_SP s = Some dest -> m_stack s @@ (m_SP s + 1) = Some cond ->
  case_of sha3 JUMPCI s h = jump_result (if cond =? 0 then u64 (m_PC s + 1) else u64 dest) s h.
Proof.
  intros Hopt Hd Hc. cbn [case_of]. unfold case_JUMPCI. rewrite Hopt. unfold jump_result, mbind.
  rewrite updateIOGas_exact.
  destruct (m_io_gas s <? m_runGas s); [done|]. unfold SP, mbind, get. vm_cbn. rewrite Hc.
  cbn [checked mret]. destruct (cond =? 0); cbn [negb]; [done|]. unfold mbind. vm_cbn. by rewrite Z.add_0_r, Hd.
Qed.
End Results.

Section Sim.
  Context {H : Type} `{!EvmcHost H}.
  Context (sha3 : list Z -> list Z) (cfg1 cfg2 : VMConfig).
  Context (Hcfg1 : EVM_OPTIMIZE (VMConfig := cfg1) = false) (Hcfg2 : EVM_OPTIMIZE (VMConfig := cfg2) = true).
  Context (pCode code1 dests code2 pool : list Z).
  Context (Hco : code_ok pCode code1 dests) (Hcx : code_opt pCode code1 dests code2 pool).
  Context (ctx : evmc_message) `{!EvmcHostLaws H ctx}.


(** The optimised counterpart of a state, up to the last opcode read. *)
Definition opt_state (x : Z) (s : VM) : VM := set_m_OP x (rep code2 pool s).

(** Equal outcomes, in such states. *)
Definition same_run {A} (r1 r2 : outcome A * VM * H) : Prop :=
  exists x, r2 = (let '(o, s, h) := r1 in (o, opt_state x s, h)).

Definition is_const_jump (op : Z) : bool := (op =? opcode JUMPC) || (op =? opcode JUMPCI).

(** At an unchecked jump, the destination on the stack is valid. *)
Definition jump_checked (s : VM) : Prop :=
  forall op, code2 @@ (m_PC s) = Some op -> is_const_jump op = true ->
    exists val, m_stack s @@ m_SPP s = Some val /\ verifyJumpDest_found dests val = true.

Record sim_inv (s : VM) : Prop := {
  si_running : running ctx s;
  si_pCode : m_pCode s = pCode;
  si_code : m_code s = code1;
  si_dests : m_jumpDests s = dests;
  si_jump : jump_checked s
}.

(** An unchecked jump follows the push of a valid destination. *)
Lemma const_jump_pushed b op1 op2 :
  Boundary pCode b -> code1 @@ b = Some op1 -> is_synthetic op1 = false -> code2 @@ b = Some op2 ->
  is_const_jump op2 = true -> pushed_valid pCode code1 dests b.
Proof.
  intros Hb Hop1 Hsyn Hop2 Hcj. pose proof (cx_op _ _ _ _ _ Hcx b op1 Hb Hop1) as Hat. unfold optimised_at in Hat.
  assert (is_const_jump op1 = false) as Hcj1.
  { unfold is_synthetic in Hsyn. unfold is_const_jump. destruct (op1 =? opcode PUSHC), (op1 =? opcode JUMPC); done. }
  destruct (is_push op1) eqn:Hp.
  - destruct Hat as (val & _ & Hat). destruct (5 <? push_bytes op1).
    + destruct Hat as (off & _ & _ & Hc & _). rewrite Hop2 in Hc. injection Hc as ->. done.
    + pose proof (is_push_bytes op1 Hp). specialize (Hat 0 ltac:(lia)). rewrite Z.add_0_r in Hat. congruence.
  - destruct Hat as [Hc|[(_ & _ & Hv)|(_ & _ & Hv)]]; [congruence|done..].
Qed.

Lemma boundary_op b :
  Boundary pCode b -> exists op, code1 @@ b = Some op /\ is_byte op /\ is_synthetic op = false.
Proof.
  intros Hb. pose proof (Boundary_range _ _ Hb) as Hr.
  destruct (Z.lt_ge_cases b (lenZ pCode)) as [Hlt|Hge].
  - destruct (getZ_lookup pCode b) as [op Hop]; [lia|]. pose proof (co_op _ _ _ Hco _ _ Hb Hop) as Hc.
    exists (sanitise op). split; [done|]. split; [exact (getZ_Forall _ _ _ _ (co_bytes _ _ _ Hco) Hc)|apply sanitise_not_synthetic].
  - exists (opcode STOP). split; [apply (co_end _ _ _ Hco); lia|]. by vm_compute.
Qed.

(** The boundary before a checked jump holds a push. *)
Lemma jump_checked_pred s pc op :
  Boundary pCode pc -> code1 @@ pc = Some op -> is_push op = false -> pc < lenZ pCode ->
  m_PC s = pc + 1 -> jump_checked s.
Proof.
  intros Hb Hop Hp Hlt HPC op2 Hop2 Hcj. rewrite HPC in Hop2. exfalso.
  pose proof (Boundary_range _ _ Hb). destruct (getZ_lookup pCode pc) as [op0 Hop0]; [lia|].
  pose proof (co_op _ _ _ Hco _ _ Hb Hop0) as Hs. rewrite Hop in Hs. injection Hs as Hs.
  destruct (sanitise_push op0) as [Hsp _]. rewrite <- Hs in Hsp.
  pose proof (Boundary_next _ _ _ Hb Hop0) as Hn. unfold next_pc in Hn. rewrite <- Hsp, Hp in Hn.
  destruct (boundary_op _ Hn) as (op1 & Hop1 & _ & Hsyn).
  destruct (const_jump_pushed _ _ _ Hn Hop1 Hsyn Hop2 Hcj) as (q & oq & val & Hq & Hoq & Hpq & Hnq & _).
  destruct (Z.lt_ge_cases q (lenZ pCode)) as [Hql|Hqg].
  - pose proof (Boundary_range _ _ Hq). destruct (getZ_lookup pCode q) as [oq0 Hoq0]; [lia|].
    pose proof (co_op _ _ _ Hco _ _ Hq Hoq0) as Hsq. rewrite Hoq in Hsq. injection Hsq as ->.
    rewrite sanitise_next in Hnq. assert (pc = q) as <-.
    { apply (Boundary_pred pCode pc q op0 oq0); try done. rewrite Hnq. unfold next_pc. by rewrite <- Hsp, Hp. }
    assert (oq0 = op0) as -> by congruence. destruct (sanitise_push op0) as [Hx _]. congruence.
  - pose proof (Boundary_range _ _ Hq). rewrite (co_end _ _ _ Hco) in Hoq by lia. injection Hoq as <-. discriminate Hpq.
Qed.

(** A jump lands on a [JUMPDEST], which the optimiser leaves alone. *)
Lemma jump_checked_dest s d :
  d ∈ dests -> m_PC s = d -> jump_checked s.
Proof.
  intros Hd HPC op2 Hop2 Hcj. rewrite HPC in Hop2. exfalso.
  apply (co_dests _ _ _ Hco) in Hd as [Hb Hd]. pose proof (co_op _ _ _ Hco _ _ Hb Hd) as Hop1.
  pose proof (cx_op _ _ _ _ _ Hcx d _ Hb Hop1) as Hat. change (sanitise (opcode JUMPDEST)) with (opcode JUMPDEST) in Hat.
  destruct Hat as [Hc|[(Hc & _)|(Hc & _)]]; [|done..]. rewrite Hop2 in Hc. injection Hc as ->. done.
Qed.

(** After a push the stack holds the value the optimiser saw. *)
Lemma jump_checked_push s q oq val :
  Boundary pCode q -> code1 @@ q = Some oq -> is_push oq = true -> m_PC s = next_pc oq q ->
  push_value q (push_bytes oq) code1 = Some val -> m_stack s @@ m_SPP s = Some val -> jump_checked s.
Proof.
  intros Hq Hoq Hp HPC Hval Hst op2 Hop2 Hcj. exists val. split; [done|].
  assert (q < lenZ pCode) as Hlt.
  { destruct (Z.lt_ge_cases q (lenZ pCode)) as [|Hge]; [done|]. pose proof (Boundary_range _ _ Hq).
    rewrite (co_end _ _ _ Hco) in Hoq by lia. injection Hoq as <-. discriminate Hp. }
  pose proof (Boundary_range _ _ Hq). destruct (getZ_lookup pCode q) as [op0 Hop0]; [lia|].
  pose proof (co_op _ _ _ Hco _ _ Hq Hop0) as Hs. rewrite Hoq in Hs. injection Hs as ->.
  pose proof (Boundary_next _ _ _ Hq Hop0) as Hn. rewrite <- (sanitise_next op0 q), <- HPC in Hn.
  destruct (boundary_op _ Hn) as (op1 & Hop1 & _ & Hsyn).
  destruct (const_jump_pushed _ _ _ Hn Hop1 Hsyn Hop2 Hcj) as (q' & oq' & val' & Hq' & Hoq' & Hp' & Hnq & Hval' & Hv).
  assert (q' < lenZ pCode) as Hlt'.
  { destruct (Z.lt_ge_cases q' (lenZ pCode)) as [|Hge]; [done|]. pose proof (Boundary_range _ _ Hq').
    rewrite (co_end _ _ _ Hco) in Hoq' by lia. injection Hoq' as <-. discriminate Hp'. }
  pose proof (Boundary_range _ _ Hq'). destruct (getZ_lookup pCode q') as [op0' Hop0']; [lia|].
  pose proof (co_op _ _ _ Hco _ _ Hq' Hop0') as Hs'. rewrite Hoq' in Hs'. injection Hs' as ->.
  assert (q' = q) as ->.
  { apply (Boundary_pred pCode q' q op0' op0); try done. rewrite <- (sanitise_next op0'), Hnq, HPC. apply sanitise_next. }
  assert (op0' = op0) as -> by congruence. congruence.
Qed.
(** ** One step of the simulation *)

Definition after_case (c : ctl) : M H ctl :=
  match c with NEXT => incPC ;; mret NEXT | CONTINUE => mret CONTINUE | BREAK => mret BREAK end.

Definition step_tail (cfg : VMConfig) (i : Instruction) : M H ctl := c <- case_of sha3 i ;; after_case c.

Lemma interpretStep_fetch cfg op s h :
  m_code s @@ m_PC s = Some op -> is_byte op -> 0 <= m_SPP s <= 1024 ->
  interpretStep (config := cfg) sha3 s h =
  match fetch_result op s h with
  | (Ret _, s', h') => step_tail cfg (switch_label op) s' h'
  | (Throw e, s', h') => (Throw e, s', h')
  | (UB, s', h') => (UB, s', h')
  | (NoFuel, s', h') => (NoFuel, s', h')
  end.
Proof.
  intros Hc Hop Hs. unfold interpretStep, step_tail. unfold mbind at 1. rewrite (fetch_exact op) by done.
  unfold fetch_result. destruct (_ <? _); [done|]. destruct (_ <? _); [done|].
  unfold mbind. by rewrite dispatch_switch.
Qed.

(** Instructions that are fetched alike. *)
Definition same_metrics (a b : Z) : Prop :=
  args (instructionInfo a) = args (instructionInfo b) /\ ret (instructionInfo a) = ret (instructionInfo b) /\
  op_gas a = op_gas b.

Lemma fetch_result_opt op op2 x s (h : H) :
  same_metrics op op2 ->
  fetch_result op2 (opt_state x s) h = (let '(o, s', h') := fetch_result op s h in (o, opt_state op2 s', h')).
Proof.
  intros (Ha & Hr & Hg). unfold fetch_result, stackSize, fetch_state, opt_state, rep. vm_cbn. rewrite <- Ha, <- Hr, <- Hg.
  destruct (_ <? _); [done|]. by destruct (_ <? _).
Qed.

Lemma case_of_config i :
  i <> PUSHC -> i <> JUMPC -> i <> JUMPCI -> case_of (config := cfg1) (H := H) sha3 i = case_of (config := cfg2) sha3 i.
Proof. by destruct i. Qed.

Lemma indep_tail cfg i :
  is_control i = false \/ i = JUMP \/ i = JUMPI -> indep (step_tail cfg i).
Proof.
  intros Hi. apply indep_bind; [by apply indep_case|]. intros [| |]; [|apply indep_ret..].
  apply indep_bind; [by apply indep_put|intros; apply indep_ret].
Qed.

Lemma opt_state_id x s : m_OP s = x -> opt_state x s = rep code2 pool s.
Proof. intros <-. by destruct s. Qed.

(** A step result of the two interpreters: equal, and with the same opcode
    when it leaves the loop. *)
Definition same_step (r1 r2 : outcome ctl * VM * H) : Prop :=
  same_run r1 r2 /\ forall s h, r1 = (Ret BREAK, s, h) -> r2 = (Ret BREAK, rep code2 pool s, h).

Lemma same_step_continue r1 r2 : same_run r1 r2 -> (forall s h, r1 <> (Ret BREAK, s, h)) -> same_step r1 r2.
Proof. intros Hr Hn. split; [done|]. intros s h He. by destruct (Hn s h). Qed.

Lemma tail_result cfg i s h r :
  case_of (config := cfg) sha3 i s h = r -> (forall c s' h', r = (Ret c, s', h') -> c = CONTINUE) ->
  step_tail cfg i s h = r.
Proof.
  intros Hr Hc. unfold step_tail, mbind. rewrite Hr. destruct r as [[[c|e| |] s'] h']; [|done..].
  by rewrite (Hc c s' h' eq_refl).
Qed.

(** Two case bodies with the same result, which continues or throws. *)
Lemma same_step_result i1 i2 s x h (res : VM -> H -> outcome ctl * VM * H) :
  case_of (config := cfg1) sha3 i1 s h = res s h ->
  case_of (config := cfg2) sha3 i2 (opt_state x s) h = res (opt_state x s) h ->
  res (opt_state x s) h = (let '(o, s', h') := res s h in (o, opt_state x s', h')) ->
  (forall s0 c s' h', res s0 h = (Ret c, s', h') -> c = CONTINUE) ->
  same_step (step_tail cfg1 i1 s h) (step_tail cfg2 i2 (opt_state x s) h).
Proof.
  intros H1 H2 Heq Hc. rewrite (tail_result _ _ _ _ _ H1), (tail_result _ _ _ _ _ H2);
    [|intros c s' h'; apply Hc|intros c s' h'; apply Hc].
  apply same_step_continue; [by exists x|]. intros s' h' He. by apply Hc in He.
Qed.

Lemma push_result_opt n val x s (h : H) :
  push_result n val (opt_state x s) h = (let '(o, s', h') := push_result n val s h in (o, opt_state x s', h')).
Proof. unfold push_result, opt_state, rep. vm_cbn. by destruct (_ <? _). Qed.

Lemma jump_result_opt pc x s (h : H) :
  jump_result pc (opt_state x s) h = (let '(o, s', h') := jump_result pc s h in (o, opt_state x s', h')).
Proof. unfold jump_result, opt_state, rep. vm_cbn. by destruct (_ <? _). Qed.

Lemma push_result_continue n val s0 (h : H) c s' h' : push_result n val s0 h = (Ret c, s', h') -> c = CONTINUE.
Proof. unfold push_result. by destruct (_ <? _); intros [=]. Qed.

Lemma jump_result_continue pc s0 (h : H) c s' h' : jump_result pc s0 h = (Ret c, s', h') -> c = CONTINUE.
Proof. unfold jump_result. by destruct (_ <? _); intros [=]. Qed.

Lemma label_class op :
  is_byte op -> is_synthetic op = false -> is_push op = false ->
  is_control (switch_label op) = false \/ switch_label op = JUMP \/ switch_label op = JUMPI.
Proof.
  intros Hop Hsyn Hp. destruct (decode_dec op Hop) as [(i & -> & ->)| ->]; [|by left].
  destruct (is_control i) eqn:Hc; [|by left]. right. unfold is_control in Hc. rewrite Hp in Hc. cbn in Hc.
  apply bool_decide_eq_true in Hc. rewrite !elem_of_cons in Hc.
  destruct Hc as [->|[->|[->|[->|[->|[]%elem_of_nil]]]]]; auto; discriminate Hsyn.
Qed.

Lemma same_step_tail i s h :
  is_control i = false \/ i = JUMP \/ i = JUMPI ->
  same_step (step_tail cfg1 i s h) (step_tail cfg2 i (opt_state (m_OP s) s) h).
Proof.
  intros Hi. rewrite opt_state_id by done. rewrite (indep_tail cfg2 i Hi).
  assert (step_tail cfg2 i s h = step_tail cfg1 i s h) as ->.
  { unfold step_tail, mbind. rewrite case_of_config; [done|..]; intros ->; by destruct Hi as [Hi|[Hi|Hi]]. }
  split.
  - destruct (step_tail cfg1 i s h) as [[o s'] h']. exists (m_OP s'). by rewrite opt_state_id.
  - intros s' h' ->. done.
Qed.

(** The two fetches, and then the two bodies. *)
Lemma same_step_fetch op op2 x s h :
  sim_inv s -> code1 @@ m_PC s = Some op -> is_byte op -> code2 @@ m_PC s = Some op2 -> is_byte op2 ->
  same_metrics op op2 ->
  (forall s1, fetch_frame s s1 -> core_ok s1 ->
    fetched op (args (instructionInfo op)) (ret (instructionInfo op)) (op_gas op) s1 ->
    same_step (step_tail cfg1 (switch_label op) s1 h) (step_tail cfg2 (switch_label op2) (opt_state op2 s1) h)) ->
  same_step (interpretStep (config := cfg1) sha3 s h) (interpretStep (config := cfg2) sha3 (opt_state x s) h).
Proof.
  intros [Hr HpC HC _ _] Hop Hb Hop2 Hb2 Hm Hk. pose proof (run_core _ _ Hr) as Hok.
  pose proof (ok_SPP _ Hok).
  rewrite (interpretStep_fetch cfg1 op), (interpretStep_fetch cfg2 op2); [|done..|by rewrite HC|done|done].
  rewrite (fetch_result_opt op op2) by done. unfold fetch_result.
  assert (forall e s', same_step (Throw e, s', h) (Throw e, opt_state op2 s', h)) as Hthrow
    by (intros e s'; apply same_step_continue; [by exists op2|done]).
  destruct (Z.ltb_spec (stackSize s) (args (instructionInfo op))); [apply Hthrow|].
  destruct (Z.ltb_spec 1024 (stackSize s - args (instructionInfo op) + ret (instructionInfo op))); [apply Hthrow|].
  destruct (core_ok_fetch op s Hok Hb) as [Hok1 Hf]; [lia|lia|].
  apply Hk; [apply fetch_state_frame|done|done].
Qed.

Lemma push_decode op : is_push op = true -> exists i, op = opcode i /\ switch_label op = i.
Proof.
  intros Hp. assert (is_byte op) as Hb.
  { pose proof (is_push_bytes op Hp) as Hn. unfold push_bytes in Hn. change (opcode PUSH1) with 96 in Hn. lia. }
  assert (all_bytes (fun b => implb (is_push b) (match decode b with Some _ => true | None => false end)) = true) as Hall
    by (vm_compute; done).
  pose proof (all_bytes_spec _ op Hall Hb) as Hd. cbn beta in Hd. rewrite Hp in Hd. cbn [implb] in Hd.
  unfold switch_label. destruct (decode op) as [i|] eqn:Hi; [|done]. exists i. split; [by apply decode_Some|done].
Qed.

(** The state a push runs in. *)
Lemma push_state op s s1 :
  sim_inv s -> is_push op = true -> fetch_frame s s1 -> core_ok s1 ->
  fetched op (args (instructionInfo op)) (ret (instructionInfo op)) (op_gas op) s1 ->
  lenZ (m_stack s1) = 1024 /\ 0 <= m_SPP s1 < 1024 /\ 0 <= m_PC s1 < 2 ^ 63 /\ m_code s1 = code1 /\ m_PC s1 = m_PC s.
Proof.
  intros [Hr HpC HC _ _] Hp [[] HPCs _ _ _] Hok Hf. destruct (running_PC _ _ Hr) as [HPC Hlen].
  destruct (push_decode op Hp) as (i & -> & _). destruct (push_metrics i Hp) as (Ha & Hrt & _).
  destruct Hf as [_ HSP HSPa HSPP _ _]. rewrite Ha, Hrt in *. pose proof (ok_SPP _ Hok).
  split; [apply Hok|]. split; [lia|]. rewrite HPCs. split; [lia|]. split; [congruence|done].
Qed.

Lemma push_sim_short s h x op val :
  sim_inv s -> code1 @@ m_PC s = Some op -> is_byte op -> is_push op = true ->
  push_value (m_PC s) (push_bytes op) code1 = Some val ->
  (forall k, 0 <= k <= push_bytes op -> code2 @@ (m_PC s + k) = code1 @@ (m_PC s + k)) ->
  same_step (interpretStep (config := cfg1) sha3 s h) (interpretStep (config := cfg2) sha3 (opt_state x s) h).
Proof.
  intros Hs Hop Hb Hp Hval Hk. pose proof (is_push_bytes op Hp) as Hn.
  pose proof (Hk 0 ltac:(lia)) as Hop2. rewrite Z.add_0_r, Hop in Hop2.
  apply (same_step_fetch op op x s h); [done..|]. intros s1 Hfr Hok Hf.
  destruct (push_state op s s1 Hs Hp Hfr Hok Hf) as (Hl & HSPP & HPC & HC & HPCs).
  pose proof (f_op _ _ _ _ _ Hf) as HOP. clear Hf. rewrite <- HPCs in *.
  destruct (push_decode op Hp) as (i & -> & ->).
  apply (same_step_result _ _ _ _ _ (push_result (push_bytes (opcode i)) val)).
  - apply push_exact; [done..|]. by rewrite HC.
  - apply push_exact; [done..|]. unfold opt_state, rep. vm_cbn.
    rewrite (push_value_ext _ _ _ code1); [done|lia|]. intros k Hkk.
    replace k with (m_PC s1 + (k - m_PC s1)) by lia. apply Hk. lia.
  - apply push_result_opt.
  - intros. by eapply push_result_continue.
Qed.

Lemma push_sim_pool s h x op off val :
  sim_inv s -> code1 @@ m_PC s = Some op -> is_byte op -> is_push op = true -> 5 < push_bytes op ->
  push_value (m_PC s) (push_bytes op) code1 = Some val ->
  0 <= off < 2 ^ 16 -> pool @@ off = Some val -> code2 @@ m_PC s = Some (opcode PUSHC) ->
  code2 @@ (m_PC s + 1) = Some (off / 256) -> code2 @@ (m_PC s + 2) = Some (off mod 256) ->
  code2 @@ (m_PC s + 3) = Some (push_bytes op - 2) ->
  same_step (interpretStep (config := cfg1) sha3 s h) (interpretStep (config := cfg2) sha3 (opt_state x s) h).
Proof.
  intros Hs Hop Hb Hp Hn5 Hval Hoff Hpool H0 H1 H2 H3. pose proof (is_push_bytes op Hp) as Hn.
  assert (same_metrics op (opcode PUSHC)) as Hm.
  { destruct (push_decode op Hp) as (i & -> & _). destruct (push_metrics i Hp) as (Ha & Hr & Hg).
    split_and!; [rewrite Ha|rewrite Hr|rewrite Hg]; by vm_compute. }
  apply (same_step_fetch op (opcode PUSHC) x s h); [done..|by vm_compute|done|]. intros s1 Hfr Hok Hf.
  destruct (push_state op s s1 Hs Hp Hfr Hok Hf) as (Hl & HSPP & HPC & HC & HPCs).
  pose proof (f_op _ _ _ _ _ Hf) as HOP. clear Hf Hm. rewrite <- HPCs in *.
  destruct (push_decode op Hp) as (i & -> & ->). change (switch_label (opcode PUSHC)) with PUSHC.
  apply (same_step_result _ _ _ _ _ (push_result (push_bytes (opcode i)) val)).
  - apply push_exact; [done..|]. by rewrite HC.
  - apply (pushc_exact (cfg := cfg2) _ _ off); [exact Hcfg2|lia|exact Hl|exact HSPP|exact HPC|done|done|exact H1|exact H2|exact H3].
  - apply push_result_opt.
  - intros. by eapply push_result_continue.
Qed.

(** The state a checked jump runs in. *)
Lemma jump_state op2 s s1 :
  sim_inv s -> fetch_frame s s1 -> code2 @@ m_PC s = Some op2 -> is_const_jump op2 = true ->
  exists val, m_stack s1 @@ m_SP s1 = Some val /\ verifyJumpDest_found (m_jumpDests s1) val = true.
Proof.
  intros [_ _ _ HD Hj] [[] _ Hstk _ HSP] Hop2 Hcj. destruct (Hj _ Hop2 Hcj) as (val & Hst & Hv). exists val.
  rewrite Hstk, HSP. split; [done|]. congruence.
Qed.

Lemma jump_sim s h x :
  sim_inv s -> code1 @@ m_PC s = Some (opcode JUMP) -> code2 @@ m_PC s = Some (opcode JUMPC) ->
  same_step (interpretStep (config := cfg1) sha3 s h) (interpretStep (config := cfg2) sha3 (opt_state x s) h).
Proof.
  intros Hs H1 H2. apply (same_step_fetch (opcode JUMP) (opcode JUMPC) x s h); [done|done|by vm_compute|done|by vm_compute..|].
  intros s1 Hfr Hok Hf. destruct (jump_state _ s s1 Hs Hfr H2 eq_refl) as (val & Hst & Hv).
  change (switch_label (opcode JUMP)) with JUMP. change (switch_label (opcode JUMPC)) with JUMPC.
  apply (same_step_result _ _ _ _ _ (jump_result (u64 val))).
  - by apply jump_exact.
  - by apply (jumpc_exact (cfg := cfg2)).
  - apply jump_result_opt.
  - intros. by eapply jump_result_continue.
Qed.

Lemma jumpi_sim s h x :
  sim_inv s -> code1 @@ m_PC s = Some (opcode JUMPI) -> code2 @@ m_PC s = Some (opcode JUMPCI) ->
  same_step (interpretStep (config := cfg1) sha3 s h) (interpretStep (config := cfg2) sha3 (opt_state x s) h).
Proof.
  intros Hs H1 H2. apply (same_step_fetch (opcode JUMPI) (opcode JUMPCI) x s h); [done|done|by vm_compute|done|by vm_compute..|].
  intros s1 Hfr Hok Hf. destruct (jump_state _ s s1 Hs Hfr H2 eq_refl) as (val & Hst & Hv).
  change (switch_label (opcode JUMPI)) with JUMPI. change (switch_label (opcode JUMPCI)) with JUMPCI.
  destruct Hf as [_ HSP HSPa _ _ _]. change (args (instructionInfo (opcode JUMPI))) with 2 in HSPa.
  destruct (getZ_lookup (m_stack s1) (m_SP s1 + 1)) as [cond Hc]; [rewrite (ok_stack_len _ Hok); lia|].
  apply (same_step_result _ _ _ _ _ (jump_result (if cond =? 0 then u64 (m_PC s1 + 1) else u64 val))).
  - by apply jumpi_exact.
  - exact (jumpci_exact (cfg := cfg2) sha3 val cond (opt_state (opcode JUMPCI) s1) h Hcfg2 Hst Hc).
  - apply jump_result_opt.
  - intros. by eapply jump_result_continue.
Qed.

(** One step of the optimised interpreter is one step of the plain one. *)
Lemma step_sim s h x :
  sim_inv s ->
  same_step (interpretStep (config := cfg1) sha3 s h) (interpretStep (config := cfg2) sha3 (opt_state x s) h).
Proof.
  intros Hs. pose proof Hs as [Hr HpC HC HD Hj]. pose proof (run_PC _ _ Hr) as Hb. rewrite HpC in Hb.
  destruct (boundary_op _ Hb) as (op & Hop & Hbyte & Hsyn).
  pose proof (cx_op _ _ _ _ _ Hcx _ _ Hb Hop) as Hat. unfold optimised_at in Hat.
  destruct (is_push op) eqn:Hp.
  - destruct Hat as (val & Hval & Hat). destruct (Z.ltb_spec 5 (push_bytes op)).
    + destruct Hat as (off & Hoff & Hpool & Hc0 & Hc1 & Hc2 & Hc3). by eapply push_sim_pool.
    + by eapply push_sim_short.
  - destruct Hat as [Hc|[(-> & Hc & _)|(-> & Hc & _)]]; [|by apply jump_sim|by apply jumpi_sim].
    apply (same_step_fetch op op x s h); [done..|]. intros s1 Hfr Hok Hf.
    pose proof (f_op _ _ _ _ _ Hf) as HOP. pose proof (same_step_tail (switch_label op) s1 h) as Ht.
    rewrite HOP in Ht. apply Ht. by apply label_class.
Qed.

(** ** Whole runs *)

Lemma sim_inv_step s s' :
  sim_inv s -> same_env s s' -> running ctx s' -> successor s s' -> sim_inv s'.
Proof.
  intros [Hr HpC HC HD Hj] [_ _ HpC' HC' _ HD'] Hr' Hsucc. pose proof (run_PC _ _ Hr) as Hb. rewrite HpC in Hb.
  constructor; [done|congruence..|]. destruct Hsucc as [(op & Hop & Hp) HPC|Hd|op val Hop Hp Hval HPC Hst].
  - rewrite HpC in Hop. pose proof (getZ_Some_range _ _ _ Hop).
    apply (jump_checked_pred s' (m_PC s) (sanitise op)); [done|by apply (co_op _ _ _ Hco)| |lia|done].
    by rewrite (proj1 (sanitise_push op)).
  - rewrite HD in Hd. by apply (jump_checked_dest s' (m_PC s')).
  - rewrite HC in Hop, Hval. by apply (jump_checked_push s' (m_PC s) op val).
Qed.

(** A state of the plain interpreter that is about to make a call. *)
Record call_inv (s : VM) : Prop := {
  ci_calling : calling ctx s;
  ci_pCode : m_pCode s = pCode;
  ci_code : m_code s = code1;
  ci_dests : m_jumpDests s = dests
}.

Lemma call_inv_return s s' :
  call_inv s -> same_env s s' -> running ctx s' -> m_PC s' = m_PC s + 1 -> sim_inv s'.
Proof.
  intros [[Hok _ [Hb (op & Hop & Hp)] _ _] HpC HC HD] [_ _ HpC' HC' _ HD'] Hr' HPC.
  rewrite HpC in *. pose proof (Boundary_range _ _ Hb). pose proof (getZ_Some_range _ _ _ Hop).
  constructor; [done|congruence..|].
  apply (jump_checked_pred s' (m_PC s) (sanitise op)); [done|by apply (co_op _ _ _ Hco)| |lia|done].
  by rewrite (proj1 (sanitise_push op)).
Qed.

Definition same_loop (r1 r2 : outcome unit * VM * H) : Prop :=
  same_run r1 r2 /\
  forall s h, r1 = (Ret tt, s, h) -> r2 = (Ret tt, rep code2 pool s, h) /\ (m_bounce s = None \/ call_inv s /\ host_ok h).

Lemma loop_sim fuel s h x :
  sim_inv s -> host_ok h ->
  same_loop (interpretCases (config := cfg1) sha3 fuel s h) (interpretCases (config := cfg2) sha3 fuel (opt_state x s) h).
Proof.
  revert s h x. induction fuel as [|f IH]; intros s h x Hs Hhok; cbn [interpretCases].
  { split; [by exists x|done]. }
  destruct (step_sim s h x Hs) as [Hsame Hbreak].
  pose proof (wp_interpretStep (config := cfg1) sha3 ctx (fun _ _ : H => True) s h (si_running _ Hs) Hhok) as Hw.
  unfold wp in Hw. unfold mbind. destruct Hsame as [y Hy]. rewrite Hy in Hbreak |- *. clear Hy.
  destruct (interpretStep (config := cfg1) sha3 s h) as [[o s'] h']. destruct o as [c|e| |]; try done.
  - destruct Hw as [Henv Hkept _ Hctl].
    assert (c = BREAK \/ c <> BREAK) as [->|Hne] by (destruct c; auto).
    + specialize (Hbreak s' h' eq_refl). apply (f_equal (fun r => r.1.2)) in Hbreak. cbn in Hbreak. rewrite Hbreak.
      unfold mret. split; [exists (m_OP s'); by rewrite opt_state_id|]. intros s0 h0 [= <- <-]. split; [done|].
      destruct Hctl as [_ [?|Hc]]; [by left|right]. split; [|by eapply kept_ok].
      destruct Hs as [_ ? ? ? _], Henv. constructor; [done|congruence..].
    + assert (running ctx s' /\ successor s s') as [Hr' Hsucc] by (destruct c; tauto).
      pose proof (IH s' h' y (sim_inv_step s s' Hs Henv Hr' Hsucc) (kept_ok _ _ _ _ Hkept Hhok)). by destruct c.
  - split; [by exists y|done].
Qed.

Lemma trampoline_sim n fuel s h x :
  (sim_inv s /\ m_bounce s = Some Bounce_interpretCases) \/ (call_inv s /\ x = m_OP s) -> host_ok h ->
  same_run (trampoline (config := cfg1) sha3 n fuel s h) (trampoline (config := cfg2) sha3 n fuel (opt_state x s) h).
Proof.
  revert s h x. induction n as [|n IH]; intros s h x Hs Hhok; cbn [trampoline]; [by exists x|].
  destruct Hs as [[Hs Hb]|[Hc ->]].
  - unfold mbind at 1 3. unfold bounce, mbind at 1 3, get at 1 3. change (m_bounce (opt_state x s)) with (m_bounce s).
    rewrite Hb. destruct (loop_sim fuel s h x Hs Hhok) as [[y Hy] Hret].
    rewrite Hy in Hret |- *. clear Hy.
    destruct (interpretCases (config := cfg1) sha3 fuel s h) as [[o s'] h']. destruct o as [[]|e| |]; try by exists y.
    destruct (Hret s' h' eq_refl) as [He Hn]. apply (f_equal (fun r => r.1.2)) in He. cbn in He. rewrite He. unfold mbind, get.
    change (m_bounce (rep code2 pool s')) with (m_bounce s'). rewrite <- (opt_state_id (m_OP s')) by done.
    destruct Hn as [->|[Hc Hhok']]; [by exists (m_OP s')|]. destruct (m_bounce s'); [|by exists (m_OP s')].
    apply IH; [by right|done].
  - rewrite opt_state_id by done.
    pose proof (wp_call (config := cfg1) sha3 ctx (fun _ _ : H => True) s h (ci_calling _ Hc) Hhok) as Hw.
    assert (forall cfg, bounce (config := cfg) sha3 fuel s h = bounce (config := cfg1) sha3 0 s h) as Hb1.
    { intros cfg. unfold bounce, mbind, get. by destruct (call_bounce _ _ (ci_calling _ Hc)) as [[-> _]|[-> _]]. }
    assert (bounce (config := cfg2) sha3 fuel (rep code2 pool s) h =
      (let '(o, s', h') := bounce (config := cfg2) sha3 fuel s h in (o, rep code2 pool s', h'))) as Hb2.
    { unfold bounce, mbind, get. change (m_bounce (rep code2 pool s)) with (m_bounce s).
      destruct (call_bounce _ _ (ci_calling _ Hc)) as [[-> _]|[-> _]]; apply indep_calls. }
    unfold mbind. rewrite Hb2, !Hb1. unfold wp in Hw.
    destruct (bounce (config := cfg1) sha3 0 s h) as [[o s'] h'].
    destruct o as [[]|e| |]; try done; [|by exists (m_OP s'); rewrite opt_state_id].
    destruct Hw as ([Henv Hkept _] & Hr' & _ & Hb' & HPC'). unfold get. change (m_bounce (rep code2 pool s')) with (m_bounce s').
    rewrite Hb'. rewrite <- (opt_state_id (m_OP s')) by done. apply IH; [left; split; [|done]; by apply (call_inv_return s)|by eapply kept_ok].
Qed.

Lemma exec_sim fuel r msg h :
  msg = ctx -> valid_input msg pCode -> host_ok h ->
  analyse false pCode = Some (code1, dests, []) -> analyse true pCode = Some (code2, dests, pool) ->
  same_run (exec (config := cfg1) sha3 (S fuel) r msg pCode VM_init h)
    (exec (config := cfg2) sha3 (S fuel) r msg pCode VM_init h).
Proof.
  intros Hctx Hv Hhok Ha1 Ha2. set (s1 := entry_state r msg pCode code1 dests []).
  assert (entry_state r msg pCode code2 dests pool = opt_state (m_OP s1) s1) as Hs2 by (by rewrite opt_state_id).
  assert (sim_inv s1) as Hs.
  { constructor; [|done..|].
    - constructor; [apply entry_core_ok; [done|apply Hco|constructor]|done|constructor|done].
    - intros op Hop Hcj. exfalso. change (m_PC s1) with 0 in Hop.
      assert (Boundary pCode 0) as Hb by constructor. destruct (boundary_op 0 Hb) as (op1 & Hop1 & _ & Hsyn).
      destruct (const_jump_pushed 0 _ _ Hb Hop1 Hsyn Hop Hcj) as (q & oq & val & Hq & _ & _ & Hn & _).
      pose proof (next_pc_range oq q). pose proof (Boundary_range _ _ Hq). lia. }
  pose proof (exec_entry (config := cfg1) sha3 fuel r msg pCode code1 dests [] s1 h) as ->; [|by rewrite Hcfg1|done].
  pose proof (exec_entry (config := cfg2) sha3 fuel r msg pCode code2 dests pool (opt_state (m_OP s1) s1) h) as ->; [|by rewrite Hcfg2|symmetry; exact Hs2].
  unfold mbind.
  destruct (trampoline_sim fuel (S fuel) s1 h (m_OP s1)) as [x ->]; [by left|done|].
  destruct (trampoline (config := cfg1) sha3 fuel (S fuel) s1 h) as [[o s'] h']. exists x. by destruct o.
Qed.

End Sim.

(** The build with the optimiser computes what the build without it does. *)
Lemma execute_same {H} `{!EvmcHost H} (cfg1 cfg2 : VMConfig) sha3 fuel r msg `{!EvmcHostLaws H msg} code (h : H) :
  EVM_OPTIMIZE (VMConfig := cfg1) = false -> EVM_OPTIMIZE (VMConfig := cfg2) = true ->
  valid_input msg code -> lenZ code <= 7 * 2 ^ 16 -> host_ok h ->
  execute (config := cfg2) sha3 fuel r msg code h = execute (config := cfg1) sha3 fuel r msg code h.
Proof.
  intros H1 H2 Hv Hl Hhok.
  destruct fuel as [|fuel]; [done|].
  destruct (analyse_optimised code (vi_code _ _ Hv) Hl) as (code1 & dests & code2 & pool & Ha1 & Ha2 & Hco & Hcx).
  destruct (exec_sim sha3 cfg1 cfg2 H1 H2 code code1 dests code2 pool Hco Hcx msg fuel r msg h eq_refl Hv Hhok Ha1 Ha2)
    as [x Hx].
  unfold execute. rewrite Hx. by destruct (exec (config := cfg1) sha3 (S fuel) r msg code VM_init h) as [[[o|[]| |] s'] h'].
Qed.
