(* ===== verification/VMArith.v ===== *)
(** * The arithmetic instructions compute their mathematical functions

    [arith_spec] is the specification of the instructions that take words and
    leave one word, in terms of integers: addition modulo [2^256], division
    rounded towards zero, two's complement, shifts as multiplication and
    division by powers of two.  One step of the interpreter on any of them
    replaces the operands on the stack by that word. *)
From stdpp Require Import base list.
From Stdlib Require Import ZArith Lia.
From S2P Require Import Prelude Words Instruction Evmc VMState VMOps VMSpec VMCases VMExec VMContract.
From S2P Require Import VMRun VMOptim.

(** ** The specification *)

Definition word (z : Z) : Z := z mod 2 ^ 256.

Definition truth (b : bool) : Z := if b then 1 else 0.

(** The word whose two's complement reading is the one of the low
    [8 (k + 1)] bits of [x]. *)
Definition sign_extend (k x : Z) : Z :=
  let n := 8 * (k + 1) in
  let low := x mod 2 ^ n in
  word (if low <? 2 ^ (n - 1) then low else low - 2 ^ n).

Definition arith_spec (i : Instruction) (operands : list Z) : option Z :=
  match i, operands with
  | ADD, [a; b] => Some (word (a + b))
  | MUL, [a; b] => Some (word (a * b))
  | SUB, [a; b] => Some (word (a - b))
  | DIV, [a; b] => Some (if b =? 0 then 0 else a / b)
  | SDIV, [a; b] => Some (if b =? 0 then 0 else word (Z.quot (signed a) (signed b)))
  | MOD, [a; b] => Some (if b =? 0 then 0 else a mod b)
  | SMOD, [a; b] => Some (if b =? 0 then 0 else word (Z.rem (signed a) (signed b)))
  | ADDMOD, [a; b; n] => Some (if n =? 0 then 0 else (a + b) mod n)
  | MULMOD, [a; b; n] => Some (if n =? 0 then 0 else (a * b) mod n)
  | EXP, [a; b] => Some (word (a ^ b))
  | SIGNEXTEND, [k; x] => Some (if k <? 31 then sign_extend k x else x)
  | LT, [a; b] => Some (truth (a <? b))
  | GT, [a; b] => Some (truth (b <? a))
  | SLT, [a; b] => Some (truth (signed a <? signed b))
  | SGT, [a; b] => Some (truth (signed b <? signed a))
  | EQ, [a; b] => Some (truth (a =? b))
  | ISZERO, [a] => Some (truth (a =? 0))
  | AND, [a; b] => Some (Z.land a b)
  | OR, [a; b] => Some (Z.lor a b)
  | XOR, [a; b] => Some (Z.lxor a b)
  | NOT, [a] => Some (2 ^ 256 - 1 - a)
  | BYTE, [k; x] => Some (if k <? 32 then x / 2 ^ (8 * (31 - k)) mod 256 else 0)
  | SHL, [n; x] => Some (if n <? 256 then word (x * 2 ^ n) else 0)
  | SHR, [n; x] => Some (if n <? 256 then x / 2 ^ n else 0)
  | SAR, [n; x] => Some (word (signed x / 2 ^ (Z.min n 256)))
  | _, _ => None
  end.

(** The gas of the instruction. *)
Definition arith_gas (r : evmc_revision) (i : Instruction) (operands : list Z) : Z :=
  match i, operands with
  | EXP, [_; e] => 10 + (if rev_ge r EVMC_SPURIOUS_DRAGON then 50 else 10) * byte_size e
  | _, _ => op_gas (opcode i)
  end.

(** The shifts came with Constantinople. *)
Definition arith_supported (r : evmc_revision) (i : Instruction) : bool :=
  match i with SHL | SHR | SAR => rev_ge r EVMC_CONSTANTINOPLE | _ => true end.

(** ** The expressions of the code *)

Lemma not_word a : is_u256 a -> u256 (Z.lnot a) = 2 ^ 256 - 1 - a.
Proof.
  intros. unfold u256. rewrite <- (Z.mod_add _ 1) by lia. unfold Z.lnot.
  rewrite Z.mod_small; lia.
Qed.

Lemma byte_word k x :
  is_u256 k -> is_u256 x ->
  (if k <? 32 then Z.land (Z.shiftr x (u32 (u256 (8 * (31 - k))))) 0xff else 0)
  = (if k <? 32 then x / 2 ^ (8 * (31 - k)) mod 256 else 0).
Proof.
  intros Hk Hx. destruct (Z.ltb_spec k 32); [|done].
  rewrite (u256_small (8 * (31 - k))), u32_small by lia. rewrite Z.shiftr_div_pow2 by lia.
  apply (Z.land_ones _ 8). lia.
Qed.

Lemma shl_word n x :
  is_u256 n -> (if 256 <=? n then 0 else u256 (Z.shiftl x (u32 n))) = (if n <? 256 then word (x * 2 ^ n) else 0).
Proof.
  intros. destruct (Z.leb_spec 256 n), (Z.ltb_spec n 256); try lia.
  rewrite u32_small by lia. by rewrite Z.shiftl_mul_pow2 by lia.
Qed.

Lemma shr_word n x :
  is_u256 n -> (if 256 <=? n then 0 else Z.shiftr x (u32 n)) = (if n <? 256 then x / 2 ^ n else 0).
Proof.
  intros. destruct (Z.leb_spec 256 n), (Z.ltb_spec n 256); try lia.
  rewrite u32_small by lia. by rewrite Z.shiftr_div_pow2 by lia.
Qed.

Lemma hibit_signed x : is_u256 x -> negb (Z.land x hibit =? 0) = (2 ^ 255 <=? x).
Proof.
  intros Hx. rewrite <- testbit_255 by done. change hibit with (Z.shiftl 1 255). destruct (Z.testbit x 255) eqn:Hb.
  - apply negb_true_iff, Z.eqb_neq. intros H0.
    assert (Z.testbit (Z.land x (Z.shiftl 1 255)) 255 = true) as Ht
      by (rewrite Z.land_spec, Z.shiftl_spec, Hb by lia; done).
    by rewrite H0, Z.bits_0 in Ht.
  - apply negb_false_iff, Z.eqb_eq, Z.bits_inj'. intros j Hj.
    rewrite Z.land_spec, Z.shiftl_1_l, Z.pow2_bits_eqb, Z.bits_0 by lia.
    destruct (Z.eqb_spec 255 j) as [<-|]; [by rewrite Hb|apply andb_false_r].
Qed.

(** The arithmetic shift: the "or" of the sign bits is a subtraction. *)
Lemma sar_word_spec n x :
  is_u256 n -> is_u256 x -> sar_word n x = word (signed x / 2 ^ (Z.min n 256)).
Proof.
  intros Hn Hx. unfold sar_word. rewrite hibit_signed by done. unfold signed, word.
  destruct (Z.leb_spec 256 n).
  - rewrite Z.min_r by lia. destruct (Z.leb_spec (2 ^ 255) x), (Z.ltb_spec x (2 ^ 255)); try lia.
    + assert ((x - 2 ^ 256) / 2 ^ 256 = -1) as -> by (symmetry; apply (Z.div_unique _ _ _ x); lia). done.
    + by rewrite Z.div_small by lia.
  - rewrite Z.min_l, u32_small by lia. rewrite Z.shiftr_div_pow2 by lia.
    assert (0 < 2 ^ n) by (apply Z.pow_pos_nonneg; lia).
    assert (2 ^ 256 = 2 ^ (256 - n) * 2 ^ n) as Hpow by (rewrite <- Z.pow_add_r by lia; f_equal; lia).
    assert (0 <= x / 2 ^ n) by (apply Z.div_pos; lia).
    destruct (Z.leb_spec (2 ^ 255) x), (Z.ltb_spec x (2 ^ 255)); try lia.
    + assert (0 < 2 ^ (256 - n)) by (apply Z.pow_pos_nonneg; lia).
      assert (x / 2 ^ n < 2 ^ (256 - n)) by (apply Z.div_lt_upper_bound; lia).
      assert ((x - 2 ^ 256) / 2 ^ n = x / 2 ^ n - 2 ^ (256 - n)) as ->.
      { rewrite Hpow. replace (x - 2 ^ (256 - n) * 2 ^ n) with (x + (- 2 ^ (256 - n)) * 2 ^ n) by ring.
        rewrite Z.div_add by lia. lia. }
      assert (u256 (Z.shiftl allbits (256 - n)) = Z.shiftl (2 ^ n - 1) (256 - n)) as ->.
      { rewrite !Z.shiftl_mul_pow2 by lia. change allbits with (2 ^ 256 - 1). unfold u256.
        replace ((2 ^ 256 - 1) * 2 ^ (256 - n)) with
          ((2 ^ n - 1) * 2 ^ (256 - n) + (2 ^ (256 - n) - 1) * 2 ^ 256) by (rewrite Hpow; ring).
        rewrite Z.mod_add by lia. apply Z.mod_small. nia. }
      rewrite Z.lor_comm, lor_shiftl_add by lia.
      symmetry. rewrite <- (Z.mod_add _ 1) by lia. rewrite Z.mod_small by nia. nia.
    + symmetry. apply Z.mod_small. split; [done|]. apply Z.div_lt_upper_bound; nia.
Qed.

Lemma testbit_high_ones m i : 0 <= m <= 256 -> 0 <= i ->
  Z.testbit (Z.shiftl (Z.ones (256 - m)) m) i = (m <=? i) && (i <? 256).
Proof.
  intros Hm Hi. rewrite Z.shiftl_spec by done. destruct (Z.leb_spec m i) as [Hle|Hlt]; cbn [andb].
  - rewrite Z.testbit_ones by lia. destruct (Z.leb_spec 0 (i - m)), (Z.ltb_spec (i - m) (256 - m)), (Z.ltb_spec i 256); done || lia.
  - by rewrite Z.testbit_neg_r by lia.
Qed.

Lemma lor_high_ones m x :
  0 <= m <= 256 -> is_u256 x -> Z.lor x (Z.shiftl (Z.ones (256 - m)) m) = 2 ^ 256 - 2 ^ m + x mod 2 ^ m.
Proof.
  intros Hm Hx. assert (0 < 2 ^ m) by (apply Z.pow_pos_nonneg; lia).
  assert (Z.lor x (Z.shiftl (Z.ones (256 - m)) m) = Z.lor (Z.shiftl (Z.ones (256 - m)) m) (x mod 2 ^ m)) as ->.
  { apply Z.bits_inj'. intros i Hi. rewrite !Z.lor_spec, testbit_high_ones by lia.
    destruct (Z.lt_ge_cases i m).
    - rewrite Z.mod_pow2_bits_low by lia. destruct (Z.leb_spec m i); [lia|]. cbn [andb]. by rewrite orb_false_r.
    - rewrite Z.mod_pow2_bits_high by lia. destruct (Z.leb_spec m i); [|lia]. cbn [andb].
      destruct (Z.ltb_spec i 256); [by rewrite orb_true_r|]. by rewrite (testbit_high 256 x) by lia. }
  rewrite lor_shiftl_add by (try apply Z.mod_pos_bound; lia).
  rewrite Z.ones_equiv. assert (2 ^ 256 = 2 ^ (256 - m) * 2 ^ m) as -> by (rewrite <- Z.pow_add_r by lia; f_equal; lia).
  nia.
Qed.

Lemma sign_extend_word k x :
  0 <= k < 31 -> is_u256 x ->
  (let testBit := u32 (u32 k * 8 + 7) in
   let mask := u256 (u256 (Z.shiftl 1 testBit) - 1) in
   if Z.testbit x testBit then Z.lor x (u256 (Z.lnot mask)) else Z.land x mask) = sign_extend k x.
Proof.
  intros Hk Hx. cbv zeta. rewrite (u32_small k), u32_small by lia. unfold sign_extend, word. cbv zeta.
  set (m := k * 8 + 7). replace (8 * (k + 1)) with (m + 1) by lia. replace (m + 1 - 1) with m by lia.
  assert (7 <= m < 255) as Hm by lia. clearbody m.
  assert (0 < 2 ^ m) by (apply Z.pow_pos_nonneg; lia).
  assert (2 ^ (m + 1) = 2 * 2 ^ m) as H2 by (rewrite Z.pow_add_r by lia; lia).
  assert (2 ^ m < 2 ^ 255) by (apply Z.pow_lt_mono_r; lia).
  rewrite Z.shiftl_1_l, (u256_small (2 ^ m)), (u256_small (2 ^ m - 1)) by lia.
  pose proof (Z.mod_pos_bound x (2 ^ m) ltac:(lia)) as Hlow.
  assert (x mod 2 ^ (m + 1) = (if Z.testbit x m then 2 ^ m else 0) + x mod 2 ^ m) as Hmod.
  { rewrite H2. symmetry. apply (Z.mod_unique_pos _ _ (x / 2 ^ m / 2)); [destruct (Z.testbit x m); lia|].
    pose proof (Z.div_mod x (2 ^ m) ltac:(lia)). pose proof (Z.div_mod (x / 2 ^ m) 2 ltac:(lia)) as Hd.
    assert ((x / 2 ^ m) mod 2 = Z.b2z (Z.testbit x m)) as Hb by (symmetry; apply Z.testbit_spec'; lia).
    rewrite Hb in Hd. destruct (Z.testbit x m); cbn [Z.b2z] in Hd; nia. }
  rewrite Hmod. destruct (Z.testbit x m) eqn:Hbit.
  - destruct (Z.ltb_spec (2 ^ m + x mod 2 ^ m) (2 ^ m)); [lia|].
    assert (u256 (Z.lnot (2 ^ m - 1)) = Z.shiftl (Z.ones (256 - m)) m) as ->.
    { rewrite not_word by lia. rewrite Z.ones_equiv, Z.shiftl_mul_pow2 by lia.
      assert (2 ^ 256 = 2 ^ (256 - m) * 2 ^ m) as -> by (rewrite <- Z.pow_add_r by lia; f_equal; lia). lia. }
    rewrite lor_high_ones by lia. symmetry. rewrite <- (Z.mod_add _ 1) by lia. rewrite Z.mod_small; lia.
  - rewrite Z.add_0_l. destruct (Z.ltb_spec (x mod 2 ^ m) (2 ^ m)); [|lia].
    rewrite Z.sub_1_r, <- Z.ones_equiv, Z.land_ones by lia. symmetry. apply Z.mod_small. lia.
Qed.

Lemma signed_nonzero b : is_u256 b -> b <> 0 -> signed b <> 0.
Proof. unfold signed. intros. destruct (Z.ltb_spec b (2 ^ 255)); lia. Qed.

Lemma sdiv_word a b : is_u256 a -> is_u256 b ->
  (if negb (b =? 0) then s2u (divWorkaround s256 (u2s a) (u2s b)) else 0)
  = (if b =? 0 then 0 else word (Z.quot (signed a) (signed b))).
Proof.
  intros Ha Hb. destruct (Z.eqb_spec b 0); cbn [negb]; [done|]. rewrite !u2s_signed by done.
  pose proof (signed_range a Ha). pose proof (signed_range b Hb). pose proof (signed_nonzero b Hb).
  rewrite divWorkaround_s256 by auto. apply s2u_mod. pose proof (quot_abs_le (signed a) (signed b)). lia.
Qed.

Lemma smod_word a b : is_u256 a -> is_u256 b ->
  (if negb (b =? 0) then s2u (modWorkaround s256 (u2s a) (u2s b)) else 0)
  = (if b =? 0 then 0 else word (Z.rem (signed a) (signed b))).
Proof.
  intros Ha Hb. destruct (Z.eqb_spec b 0); cbn [negb]; [done|]. rewrite !u2s_signed by done.
  pose proof (signed_range a Ha). pose proof (signed_range b Hb). pose proof (signed_nonzero b Hb).
  rewrite modWorkaround_s256 by auto. apply s2u_mod. pose proof (Z.rem_bound_abs (signed a) (signed b)). lia.
Qed.

Lemma div_word a b : is_u256 a -> is_u256 b ->
  (if negb (b =? 0) then divWorkaround u256 a b else 0) = (if b =? 0 then 0 else a / b).
Proof. intros. destruct (Z.eqb_spec b 0); cbn [negb]; [done|]. by apply divWorkaround_u256. Qed.

Lemma mod_word a b : is_u256 a -> is_u256 b ->
  (if negb (b =? 0) then modWorkaround u256 a b else 0) = (if b =? 0 then 0 else a mod b).
Proof. intros. destruct (Z.eqb_spec b 0); cbn [negb]; [done|]. by apply modWorkaround_u256. Qed.

(** The sum and the product of two words fit 512 bits. *)
Lemma wide_mod_word x n : 0 <= x < 2 ^ 512 -> is_u256 n ->
  (if negb (n =? 0) then u256 (u512 x mod n) else 0) = (if n =? 0 then 0 else x mod n).
Proof.
  intros Hx Hn. destruct (Z.eqb_spec n 0); cbn [negb]; [done|]. rewrite u512_small by done.
  apply u256_small. pose proof (Z.mod_pos_bound x n). lia.
Qed.

Lemma iszero_word a : (if negb (a =? 0) then 0 else 1) = truth (a =? 0).
Proof. by destruct (a =? 0). Qed.

Lemma rev_guard r r0 : rev_lt r r0 = true -> rev_ge r r0 = true -> False.
Proof. unfold rev_lt, rev_ge. intros ?%Z.ltb_lt ?%Z.leb_le. lia. Qed.

(** ** The cases *)

Section Arith.
  Context {H : Type} `{!EvmcHost H} {config : VMConfig}.
  Context (sha3 : list Z -> list Z).

(** The effect of a case that replaces its operands by [v] for [gas]. *)
Record replaced (v gas : Z) (s : VM) (h : H) (c : ctl) (s' : VM) (h' : H) : Prop := {
  re_ctl : c = NEXT;
  re_host : h' = h;
  re_stack : m_stack s' = upd (m_stack s) (m_SPP s) v;
  re_SPP : m_SPP s' = m_SPP s;
  re_gas : m_io_gas s' = m_io_gas s - gas;
  re_afford : gas <= m_io_gas s;
  re_PC : m_PC s' = m_PC s;
  re_mem : m_mem s' = m_mem s;
  re_env : same_env s s'
}.

(** The state a step on [operands] is in after the fetch. *)
Record operands_at (operands : list Z) (s : VM) : Prop := {
  oa_words : Forall (fun v => is_u256 v) operands;
  oa_items : forall k v, operands !! k = Some v -> m_stack s @@ (m_SP s + Z.of_nat k) = Some v
}.

(** Number the metrics and name the operands. *)
Ltac arith_intro Hf Hw Hitems :=
  lazymatch type of Hf with
  | fetched ?o ?a ?r ?g ?s =>
      let o' := eval vm_compute in o in let a' := eval vm_compute in a in
      let r' := eval vm_compute in r in let g' := eval vm_compute in g in
      change (fetched o' a' r' g' s) in Hf; change g with g'
  end;
  repeat match type of Hw with Forall _ (?x :: _) =>
    let Hx := fresh "Rx" in apply Forall_cons_1 in Hw as [Hx Hw]; cbv beta in Hx end;
  try (let H0 := fresh "Hi" in pose proof (Hitems 0%nat _ eq_refl) as H0; cbn [Z.of_nat] in H0; rewrite Z.add_0_r in H0);
  try (let H1 := fresh "Hi" in pose proof (Hitems 1%nat _ eq_refl) as H1; change (Z.of_nat 1) with 1 in H1);
  try (let H2 := fresh "Hi" in pose proof (Hitems 2%nat _ eq_refl) as H2; change (Z.of_nat 2) with 2 in H2);
  clear Hitems Hw.

Ltac value_tac :=
  first
  [ reflexivity | by apply div_word | by apply mod_word | by apply sdiv_word | by apply smod_word
  | apply wide_mod_word; nia | apply iszero_word | by apply not_word | by apply byte_word | by apply shl_word
  | by apply shr_word | by apply sar_word_spec | by rewrite !u2s_signed by done ].

Ltac replaced_tac :=
  constructor; vm_cbn;
  [ reflexivity | reflexivity | rewrite Z.add_0_r; f_equal; value_tac | reflexivity | lia | lia | reflexivity | reflexivity
  | constructor; reflexivity ].

Lemma case_arith i operands v s h :
  arith_spec i operands = Some v -> arith_supported (m_rev s) i = true -> operands_at operands s -> core_ok s ->
  fetched (opcode i) (args (instructionInfo (opcode i))) (ret (instructionInfo (opcode i))) (op_gas (opcode i)) s ->
  wp (case_of sha3 i) (replaced v (arith_gas (m_rev s) i operands) s h)
    (fun e _ h' => e = OutOfGas /\ h' = h /\ m_io_gas s < arith_gas (m_rev s) i operands) s h.
Proof.
  intros Hv Hsup [Hw Hitems] Hok Hf.
  destruct i; try discriminate Hv; cbn [arith_spec] in Hv;
    repeat (destruct operands as [|? operands]; try discriminate Hv); injection Hv as <-;
    cbn [case_of arith_gas arith_supported] in *; arith_intro Hf Hw Hitems; contract_open Hok Hf.
  all: try (vm_steps; [replaced_tac|split_and!; [done|done|lia]]; fail).
  all: try (vm_steps; [by exfalso; eapply rev_guard|replaced_tac|split_and!; [done|done|lia]]; fail).
  - unfold case_EXP. do 4 vm_step. rewrite firstBitSet_byte_size by done. autounfold with sched.
    pose proof (byte_size_range z0 Rx0).
    set (c := if rev_ge (m_rev s) EVMC_SPURIOUS_DRAGON then 50 else 10).
    assert (0 < c <= 50) by (subst c; destruct (rev_ge _ _); lia). clearbody c.
    assert (0 <= 10 + c * byte_size z0 < 2 ^ 63) by nia.
    vm_steps; [|split_and!; done|lia].
    constructor; vm_cbn; [done|done| |done|done|done|done|done|by constructor].
    rewrite Z.add_0_r. f_equal. by apply exp256_spec.
  - unfold case_SIGNEXTEND. do 2 vm_step; [|split_and!; [done|done|lia]]. do 3 vm_step.
    pose proof (sign_extend_word z z0) as Hse. cbv zeta in Hse.
    assert (m_SPP s = m_SP s + 1) as HSPP1 by lia. clear HSPP.
    apply wp_if; intros Hb; rewrite Hb.
    + apply Z.ltb_lt in Hb. specialize (Hse ltac:(lia) Rx0). do 2 vm_step.
      apply wp_if; intros Hbit; rewrite Hbit in Hse; vm_step; apply wp_ret;
        (constructor; vm_cbn; [done|done|by rewrite HSPP1, Hse|done|lia|lia|done|done|by constructor]).
    + vm_step. apply wp_ret.
      constructor; vm_cbn; [done|done|by rewrite HSPP1, upd_id|done|lia|lia|done|done|by constructor].
Qed.
End Arith.
