(* ===== verification/TestHost.v ===== *)
(** * A concrete host

    The smallest host with state: it records storage writes, logs and
    destructions, and answers every call with success.  The witnesses of the
    theorems about the interpreter run on it. *)
From stdpp Require Import base list.
From Stdlib Require Import ZArith Lia.
From S2P Require Import Prelude Words Instruction Evmc VMState VMOps VMExec VMContract VMRun.

(** One event per change of the host's state, newest first. *)
Inductive TestEvent : Set :=
| TestStore (key value : Z)
| TestLog (data topics : list Z)
| TestDestruct (beneficiary : Z)
| TestCall (m : evmc_message).

Definition TestState : Type := list TestEvent.

Fixpoint test_storage (h : TestState) (key : Z) : Z :=
  match h with
  | [] => 0
  | TestStore k v :: h => if k =? key then v else test_storage h key
  | _ :: h => test_storage h key
  end.

Definition test_tx_context : evmc_tx_context := mkTxContext 1 2 3 500 5 6 7.

#[export] Instance TestHost : EvmcHost TestState := {
  fn_account_exists _ h := (true, h);
  fn_get_storage _ k h := (test_storage h k, h);
  fn_set_storage _ k v h := TestStore k v :: h;
  fn_get_balance _ h := (1000, h);
  fn_get_code_size _ h := (0, h);
  fn_copy_code _ _ _ h := ([], h);
  fn_selfdestruct _ b h := TestDestruct b :: h;
  fn_call m h := (mkResult EVMC_SUCCESS (msg_gas m) [1; 2; 3] 77, if is_static m then h else TestCall m :: h);
  fn_get_tx_context h := (test_tx_context, h);
  fn_get_block_hash n h := (n, h);
  fn_emit_log _ d t h := TestLog d t :: h
}.

#[export] Instance TestHostLaws ctx : EvmcHostLaws TestState ctx.
Proof.
  refine {| host_ok := fun _ => True |}; try done.
  intros m h [Hg _ _ _ _ _] _ _. constructor; [cbn; lia|repeat constructor; lia|done].
Defined.

(** A static call leaves this host as it was. *)
#[export] Instance TestHostStatic ctx : is_static ctx = true -> HostRel ctx (@eq TestState).
Proof.
  intros Hs. constructor; try done; [congruence..|]. intros m h [_ _ _ Ha _ _] _ _. cbn. by destruct (proj1 Ha Hs) as [-> _].
Qed.

Definition test_config (opt jump : bool) : VMConfig := {| EVM_OPTIMIZE := opt; EVM_JUMP_DISPATCH := jump |}.

Definition test_sha3 (d : list Z) : list Z := replicate 32 0.

Definition test_message (static : Z) (gas : Z) : evmc_message :=
  mkMessage EVMC_CALL static 0 gas 10 11 [1; 2; 3; 4] 0.

(** [PUSH1 4 JUMP INVALID JUMPDEST PUSH6 .. PUSH1 0 SSTORE]: constant pool,
    verified jump and a write. *)
Definition test_code : list Z :=
  [0x60; 4; 0x56; 0xfe; 0x5b; 0x65; 1; 2; 3; 4; 5; 6; 0x60; 0; 0x55].

(** [PUSH1 5 PUSH1 7 ADD PUSH1 0 MSTORE PUSH1 32 PUSH1 0 RETURN] *)
Definition test_add : list Z := [0x60; 5; 0x60; 7; 0x01; 0x60; 0; 0x52; 0x60; 32; 0x60; 0; 0xf3].

(** Bytes are checked by evaluation. *)
Lemma bytes_dec (l : list Z) : forallb (fun b => (0 <=? b) && (b <? 256)) l = true -> Forall (fun b => is_byte b) l.
Proof.
  intros H. apply Forall_forall. intros x Hx%list_elem_of_In.
  pose proof (proj1 (forallb_forall _ _) H x Hx) as Hb. cbv beta in *. apply andb_prop in Hb as [?%Z.leb_le ?%Z.ltb_lt]. lia.
Qed.

Lemma test_input static gas code :
  0 <= gas < 2 ^ 63 -> forallb (fun b => (0 <=? b) && (b <? 256)) code = true -> lenZ code < 2 ^ 62 ->
  valid_input (test_message static gas) code.
Proof.
  intros Hg Hc Hl. constructor; [exact Hg|by apply bytes_dec|exact Hl|by apply bytes_dec|reflexivity].
Qed.
