(* ===== verification/VMFacts.v ===== *)
(** * Facts about single steps and the analysis

    Jump destinations, reachable states, the step of the arithmetic
    instructions, the stack bounds of a fetch, the constant pool beyond its
    two-byte offsets, and the independence of a run from its fuel. *)
From stdpp Require Import base list.
From Stdlib Require Import ZArith Lia.
From S2P Require Import Prelude Words Instruction Evmc VMState VMOps VMSpec VMCases VMCalls.
From S2P Require Import VMExec VMContract VMCallsSpec VMCode VMRun VMOptim VMArith TestHost.

(** ** Jump destinations *)

Lemma analyse_dests opt code code' dests pool :
  Forall (fun b => is_byte b) code -> analyse opt code = Some (code', dests, pool) ->
  exists code1, code_ok code code1 dests.
Proof.
  intros Hb Ha. destruct (analyse_plain code Hb) as (code1 & dests1 & Hp & Hok). exists code1.
  unfold analyse in *. destruct (jumpDestLoop (length code) (lenZ code) 0 (copyCode code 33) []) as [[c d]|]; [|done].
  injection Hp as -> ->. destruct opt; [|by injection Ha as _ <- _].
  destruct (firstPassLoop _ _ _ _ _ _) as [[c2 p]|]; [|done]. by injection Ha as _ <- _.
Qed.

(** C32. A jump is accepted exactly when its destination is an instruction of
    the code, rather than push data, and that instruction is [JUMPDEST]; the
    code of the program decides, not the code the optimiser rewrote. *)
Theorem jumpdest_valid opt code code' dests pool dest :
  Forall (fun b => is_byte b) code -> lenZ code < 2 ^ 62 -> 0 <= dest ->
  analyse opt code = Some (code', dests, pool) ->
  verifyJumpDest_found dests dest = true <-> Boundary code dest /\ code @@ dest = Some (opcode JUMPDEST).
Proof.
  intros Hb Hl Hd Ha. destruct (analyse_dests opt code code' dests pool Hb Ha) as [code1 Hok].
  rewrite verifyJumpDest_found_spec; [apply Hok|apply Hok| |done].
  apply Forall_forall. intros d [_ Hj]%(co_dests _ _ _ Hok). apply getZ_Some_range in Hj. cbv beta. lia.
Qed.

(** ** Reachable states *)

Section Reach.
  Context {H : Type} `{!EvmcHost H} {config : VMConfig}.
  Context (sha3 : list Z -> list Z) (ctx : evmc_message) `{!EvmcHostLaws H ctx}.

(** Where control is: in the interpreter loop or in the trampoline. *)
Inductive place : Set := in_loop | in_trampoline.

(** One round of the loop or of the trampoline that throws nothing. *)
Inductive round : place * VM * H -> place * VM * H -> Prop :=
| round_next c s h s' h' : interpretStep sha3 s h = (Ret c, s', h') -> c <> BREAK ->
    round (in_loop, s, h) (in_loop, s', h')
| round_leave s h s' h' : interpretStep sha3 s h = (Ret BREAK, s', h') ->
    round (in_loop, s, h) (in_trampoline, s', h')
| round_call s h s' h' : m_bounce s = Some Bounce_caseCreate \/ m_bounce s = Some Bounce_caseCall ->
    bounce sha3 0 s h = (Ret tt, s', h') -> round (in_trampoline, s, h) (in_trampoline, s', h')
| round_enter s h : m_bounce s = Some Bounce_interpretCases -> round (in_trampoline, s, h) (in_loop, s, h).

Inductive reachable (s0 : VM) (h0 : H) : place * VM * H -> Prop :=
| reachable_start : reachable s0 h0 (in_loop, s0, h0)
| reachable_round c c' : reachable s0 h0 c -> round c c' -> reachable s0 h0 c'.

Definition place_ok (c : place * VM * H) : Prop :=
  let '(p, s, h) := c in
  host_ok h /\
  match p with
  | in_loop => running ctx s
  | in_trampoline => core_ok s /\ (m_bounce s = None \/ calling ctx s
      \/ running ctx s /\ m_bounce s = Some Bounce_interpretCases)
  end.

Lemma round_ok c c' : place_ok c -> round c c' -> place_ok c'.
Proof.
  intros Hc Hr. destruct Hr as [c s h s' h' He Hne|s h s' h' He|s h s' h' Hb He|s h Hb]; destruct Hc as [Hhok Hc].
  - pose proof (wp_interpretStep sha3 ctx (fun _ _ => True) s h Hc Hhok) as Hw. unfold wp in Hw. rewrite He in Hw.
    destruct Hw as [_ Hk _ Hctl]. split; [by eapply kept_ok|]. destruct c; [apply Hctl|apply Hctl|done].
  - pose proof (wp_interpretStep sha3 ctx (fun _ _ => True) s h Hc Hhok) as Hw. unfold wp in Hw. rewrite He in Hw.
    destruct Hw as [_ Hk _ Hctl]. split; [by eapply kept_ok|]. tauto.
  - destruct Hc as [Hok [Hn|[Hcall|[_ Hn]]]]; [destruct Hb; congruence| |destruct Hb; congruence].
    pose proof (wp_call sha3 ctx (fun _ _ => True) s h Hcall Hhok) as Hw. unfold wp in Hw. rewrite He in Hw.
    destruct Hw as ([_ Hk _] & Hrun & _ & Hb' & _). split; [by eapply kept_ok|]. split; [apply Hrun|auto].
  - destruct Hc as [Hok [Hn|[Hcall|[Hrun _]]]]; [congruence| |done].
    destruct (call_bounce _ _ Hcall) as [[? _]|[? _]]; congruence.
Qed.

Lemma round_pCode c c' : place_ok c -> round c c' -> m_pCode c'.1.2 = m_pCode c.1.2.
Proof.
  intros Hc Hr. destruct Hr as [c s h s' h' He Hne|s h s' h' He|s h s' h' Hb He|s h Hb]; destruct Hc as [Hhok Hc]; cbn.
  - pose proof (wp_interpretStep sha3 ctx (fun _ _ => True) s h Hc Hhok) as Hw. unfold wp in Hw. rewrite He in Hw.
    apply (sp_env _ _ _ _ _ _ _ Hw).
  - pose proof (wp_interpretStep sha3 ctx (fun _ _ => True) s h Hc Hhok) as Hw. unfold wp in Hw. rewrite He in Hw.
    apply (sp_env _ _ _ _ _ _ _ Hw).
  - destruct Hc as [Hok [Hn|[Hcall|[_ Hn]]]]; [destruct Hb; congruence| |destruct Hb; congruence].
    pose proof (wp_call sha3 ctx (fun _ _ => True) s h Hcall Hhok) as Hw. unfold wp in Hw. rewrite He in Hw.
    destruct Hw as (Hp & _). apply (pr_env _ _ _ _ _ _ Hp).
  - done.
Qed.

(** Control only reaches instructions.  From the state [exec] starts the
    loop in, without the optimiser, every state the loop comes to satisfies the
    invariant of the members (stack words, memory size and bytes, gas), its
    program counter is the start of an instruction of the code or just behind
    the code, and what it fetches there is that instruction or [STOP]. *)
Theorem reachable_boundary r code code' dests pool h0 s h :
  EVM_OPTIMIZE = false -> valid_input ctx code -> host_ok h0 -> analyse EVM_OPTIMIZE code = Some (code', dests, pool) ->
  reachable (entry_state r ctx code code' dests pool) h0 (in_loop, s, h) ->
  core_ok s /\ Boundary code (m_PC s) /\
  exists op, m_code s @@ m_PC s = Some op /\
    (lenZ code <= m_PC s /\ op = opcode STOP \/ exists op0, code @@ m_PC s = Some op0 /\ op = sanitise op0).
Proof.
  intros Hopt Hv Hhok Ha Hr. rewrite Hopt in Ha.
  set (s0 := entry_state r ctx code code' dests pool) in *.
  assert (running ctx s0) as Hs0.
  { destruct (analyse_plain code (vi_code _ _ Hv)) as (c1 & d1 & Hp & Hok).
    rewrite Ha in Hp. injection Hp as -> -> ->.
    constructor; [apply entry_core_ok; [done|apply Hok|constructor]|done|constructor|done]. }
  assert (forall c, reachable s0 h0 c -> place_ok c /\ m_pCode c.1.2 = code) as Hinv.
  { induction 1 as [|c c' _ [IH1 IH2] Hround]; [done|]. split; [by eapply round_ok|].
    rewrite <- IH2. by eapply round_pCode. }
  destruct (Hinv _ Hr) as [[_ Hrun] HpC]. cbn in HpC. pose proof Hrun as [Hok _ Hb _]. rewrite HpC in Hb.
  split; [done|]. split; [done|].
  destruct (running_fetch _ s Hrun) as (op & Hop & _ & Hcase). exists op. split; [done|]. rewrite HpC in Hcase. tauto.
Qed.
End Reach.

(** ** One step *)

(** The items of the stack, the top first. *)
Definition stackOf (s : VM) : list Z := drop (Z.to_nat (m_SPP s)) (m_stack s).

Lemma stackOf_size s : core_ok s -> lenZ (stackOf s) = stackSize s.
Proof. intros []. unfold stackOf, stackSize, lenZ in *. rewrite length_drop. lia. Qed.

Lemma stackOf_lookup s k : 0 <= m_SPP s -> stackOf s !! k = m_stack s @@ (m_SPP s + Z.of_nat k).
Proof.
  intros Hs. unfold stackOf, getZ. destruct (Z.ltb_spec (m_SPP s + Z.of_nat k) 0); [lia|].
  rewrite lookup_drop. f_equal. lia.
Qed.

(** Replacing [n] items by one. *)
Lemma stackOf_replaced s s' n v operands rest :
  core_ok s -> stackOf s = operands ++ rest -> lenZ operands = n -> 1 <= n ->
  m_SPP s' = m_SPP s + n - 1 -> m_stack s' = upd (m_stack s) (m_SPP s') v -> stackOf s' = v :: rest.
Proof.
  intros Hok Hst Hn H1 HSPP Hup. pose proof (stackOf_size s Hok) as Hsize. rewrite Hst in Hsize.
  destruct Hok. unfold stackSize, lenZ in *. rewrite length_app in Hsize.
  assert (drop (Z.to_nat (m_SPP s + n)) (m_stack s) = rest) as Hrest.
  { unfold stackOf in Hst. replace (Z.to_nat (m_SPP s + n)) with (Z.to_nat (m_SPP s) + length operands)%nat by lia.
    rewrite <- drop_drop, Hst. apply drop_app_length. }
  unfold stackOf. rewrite Hup. unfold upd. destruct (Z.ltb_spec (m_SPP s') 0); [lia|].
  rewrite (drop_S _ v (Z.to_nat (m_SPP s'))).
  - f_equal. rewrite drop_insert_lt by lia. rewrite <- Hrest. f_equal. lia.
  - apply list_lookup_insert_eq. lia.
Qed.

Lemma arith_spec_args i operands v : arith_spec i operands = Some v ->
  args (instructionInfo (opcode i)) = lenZ operands /\ ret (instructionInfo (opcode i)) = 1 /\ 1 <= lenZ operands /\
  switch_label (opcode i) = i.
Proof.
  intros Hv. destruct i; try discriminate Hv; cbn [arith_spec] in Hv;
    repeat (destruct operands as [|? operands]; try discriminate Hv); split_and!; try reflexivity; by vm_compute.
Qed.

Section Steps.
  Context {H : Type} `{!EvmcHost H} {config : VMConfig}.
  Context (sha3 : list Z -> list Z).

Lemma fetch_operands s operands rest op :
  core_ok s -> stackOf s = operands ++ rest -> operands_at operands (fetch_state op s).
Proof.
  intros Hok Hst. destruct Hok. split.
  - assert (Forall (fun v => is_u256 v) (stackOf s)) as Hf by (apply Forall_drop; assumption).
    rewrite Hst in Hf. by apply Forall_app in Hf as [? _].
  - intros k v Hk. unfold fetch_state. vm_cbn. rewrite <- stackOf_lookup by lia. rewrite Hst.
    rewrite lookup_app_l; [done|]. by eapply lookup_lt_Some.
Qed.

(** C33. One step of the arithmetic, comparison, bitwise and shift instructions.
    With the operands on top of the stack the instruction either has too little
    gas, and throws before it changes anything that can be observed, or it
    replaces its operands by their mathematical value modulo [2^256], moves to
    the next position, pays its price and leaves the memory and the host as
    they were.  [EXP] pays for every byte of its exponent. *)
Theorem arith_step i operands rest v s h :
  core_ok s -> 0 <= m_PC s < 2 ^ 63 -> m_code s @@ m_PC s = Some (opcode i) ->
  stackOf s = operands ++ rest -> arith_spec i operands = Some v -> arith_supported (m_rev s) i = true ->
  let gas := arith_gas (m_rev s) i operands in
  exists s', 
    if m_io_gas s <? gas then interpretStep sha3 s h = (Throw OutOfGas, s', h)
    else interpretStep sha3 s h = (Ret NEXT, s', h) /\ stackOf s' = v :: rest /\
         m_PC s' = m_PC s + 1 /\ m_io_gas s' = m_io_gas s - gas /\ m_mem s' = m_mem s.
Proof.
  intros Hok HPC Hop Hst Hv Hsup gas. destruct (arith_spec_args i operands v Hv) as (Hargs & Hret & Hlen & Hlab).
  pose proof (stackOf_size s Hok) as Hsize. rewrite Hst in Hsize. unfold lenZ in Hsize. rewrite length_app in Hsize.
  assert (stackSize s <= 1024) by (destruct Hok; unfold stackSize; lia).
  assert (is_byte (opcode i)) as Hbyte by (destruct i; by vm_compute).
  destruct (core_ok_fetch (opcode i) s Hok Hbyte) as [Hok1 Hf]; [unfold lenZ in *; lia|lia|].
  rewrite (interpretStep_fetch sha3 config (opcode i)); [|done|done|apply Hok].
  unfold fetch_result. destruct (Z.ltb_spec (stackSize s) (args (instructionInfo (opcode i)))); [unfold lenZ in *; lia|].
  destruct (Z.ltb_spec 1024 (stackSize s - args (instructionInfo (opcode i)) + ret (instructionInfo (opcode i)))); [lia|].
  pose proof (fetch_operands s operands rest (opcode i) Hok Hst) as Hoa.
  pose proof (fetch_state_frame (opcode i) s) as Hfr.
  assert (m_SPP (fetch_state (opcode i) s) = m_SPP s + lenZ operands - 1) as HSPP
    by (unfold fetch_state; vm_cbn; lia).
  assert (m_mem (fetch_state (opcode i) s) = m_mem s) as Hmem by done.
  assert (m_rev (fetch_state (opcode i) s) = m_rev s) as Hrev by done.
  set (s1 := fetch_state (opcode i) s) in *. clearbody s1. rewrite Hlab.
  rewrite <- Hrev in Hsup. pose proof (case_arith sha3 i operands v s1 h Hv Hsup Hoa Hok1 Hf) as Hw.
  rewrite Hrev in Hw. fold gas in Hw. destruct Hfr as [_ HPC1 Hst1 Hg1 _].
  unfold wp in Hw. unfold step_tail, mbind. destruct (case_of sha3 i s1 h) as [[[c|e| |] s2] h2] eqn:Hc; [| |done|done].
  - destruct Hw as [-> -> Hstk HSPP2 Hgas Haff HPC2 Hmem2 _]. rewrite Hg1 in *.
    destruct (Z.ltb_spec (m_io_gas s) gas); [lia|]. eexists. split; [reflexivity|].
    vm_cbn. rewrite HPC2, HPC1, u64_small by lia. split; [|split_and!; congruence || lia].
    eapply (stackOf_replaced s _ (lenZ operands)); [done|exact Hst|done|done|vm_cbn; lia|].
    vm_cbn. rewrite Hstk, Hst1. congruence.
  - destruct Hw as (-> & -> & Hlt). rewrite Hg1 in Hlt. exists s2. destruct (Z.ltb_spec (m_io_gas s) gas); [done|lia].
Qed.

(** The stack is never read below its bottom nor written above 1024 items:
    every instruction that would is rejected when it is fetched, with
    [StackUnderflow] or [OutOfStack], before its case runs; and an instruction
    whose operands and results fit is never rejected. *)
Theorem fetch_checks_stack op s h :
  m_code s @@ m_PC s = Some op -> is_byte op -> core_ok s ->
  let n := lenZ (stackOf s) in
  let take := args (instructionInfo op) in
  let give := ret (instructionInfo op) in
  (n < take -> exists s', interpretStep sha3 s h = (Throw StackUnderflow, s', h)) /\
  (take <= n -> 1024 < n - take + give -> exists s', interpretStep sha3 s h = (Throw OutOfStack, s', h)) /\
  (take <= n -> n - take + give <= 1024 ->
    fetchInstruction s h = (Ret tt, fetch_state op s, h) /\ core_ok (fetch_state op s) /\
    0 <= m_SPP (fetch_state op s) /\ m_SP (fetch_state op s) + take <= 1024).
Proof.
  intros Hc Hop Hok n tk gv. subst n. rewrite stackOf_size by done. pose proof Hok as [].
  rewrite (interpretStep_fetch sha3 config op) by done. rewrite (fetch_exact op) by done. unfold fetch_result.
  fold tk gv. destruct (Z.ltb_spec (stackSize s) tk) as [Hu|Hu]; [split_and!; [eauto|lia..]|].
  destruct (Z.ltb_spec 1024 (stackSize s - tk + gv)) as [Ho|Ho]; [split_and!; [lia|eauto|lia]|].
  split_and!; [lia|lia|]. intros _ _. destruct (core_ok_fetch op s Hok Hop Hu Ho) as [Hok1 Hf].
  split; [done|]. split; [done|]. split; [apply Hok1|apply Hf].
Qed.

(** Beyond 65536 constants the pool is wrong.  The optimiser writes the
    offset of a constant in two bytes; for the constant after the first 65536
    the offset wraps, and the instruction it rewrote then pushes an earlier
    constant in place of [val]. *)
Theorem constant_pool_wraps pc n val code pool earlier s h :
  EVM_OPTIMIZE = true -> 0 <= pc < 2 ^ 62 -> 5 < n <= 32 -> pc + 3 < lenZ code -> 2 ^ 16 <= lenZ pool ->
  pool @@ (lenZ pool mod 2 ^ 16) = Some earlier ->
  exists code' pool', use_constant_pool pc n val code pool = Some (code', pool') /\
    pool' @@ lenZ pool = Some val /\
    (m_code s = code' -> m_pool s = pool' -> m_PC s = pc -> lenZ (m_stack s) = 1024 -> 0 <= m_SPP s < 1024 ->
     case_of sha3 PUSHC s h = push_result n earlier s h).
Proof.
  intros Hopt Hp Hn Hl Hpool Hearly. unfold use_constant_pool. destruct (Z.ltb_spec 5 n); [|lia].
  destruct (Z.ltb_spec (pc + 3) (lenZ code)); [|lia]. do 2 eexists. split; [reflexivity|]. split.
  { rewrite getZ_app_r, Z.sub_diag by lia. done. }
  intros Hcode Hpool' HPC Hlen HSPP. unfold u16 in Hcode. set (off := lenZ pool mod 2 ^ 16) in *.
  assert (0 <= off < 2 ^ 16) as Hoff by (apply Z.mod_pos_bound; lia).
  assert (Z.land off 255 = off mod 256) as Hlo by apply (Z.land_ones _ 8 ltac:(lia)).
  assert (u8 (Z.shiftr off 8) = off / 256) as Hhi.
  { rewrite Z.shiftr_div_pow2 by lia. apply Z.mod_small. split; [apply Z.div_pos|apply Z.div_lt_upper_bound]; lia. }
  assert (u8 (n - 2) = n - 2) as Hskip by (apply Z.mod_small; lia).
  apply (pushc_exact sha3 n off earlier); rewrite ?Hcode, ?Hpool', ?HPC; try done; try lia.
  { rewrite getZ_app_l by lia. done. }
  all: rewrite ?Hlo, ?Hhi, ?Hskip;
    repeat first [rewrite getZ_upd_eq by (rewrite ?lenZ_upd; lia)|rewrite getZ_upd_ne by lia]; done.
Qed.

(** ** Fuel *)

Lemma interpretCases_fuel f g s h r s' h' :
  interpretCases sha3 f s h = (r, s', h') -> r <> NoFuel -> (f <= g)%nat -> interpretCases sha3 g s h = (r, s', h').
Proof.
  revert g s h. induction f as [|f IH]; intros g s h Hr Hne Hle; cbn [interpretCases] in Hr.
  { unfold nofuel in Hr. congruence. }
  destruct g as [|g]; [lia|]. cbn [interpretCases]. unfold mbind in *.
  destruct (interpretStep sha3 s h) as [[[c|e| |] s1] h1]; try done.
  destruct c; try done; apply IH; done || lia.
Qed.

Lemma bounce_fuel f g s h r s' h' :
  bounce sha3 f s h = (r, s', h') -> r <> NoFuel -> (f <= g)%nat -> bounce sha3 g s h = (r, s', h').
Proof.
  unfold bounce, mbind, get. destruct (m_bounce s) as [[]|]; try done. by apply interpretCases_fuel.
Qed.

Lemma trampoline_fuel n m f g s h r s' h' :
  trampoline sha3 n f s h = (r, s', h') -> r <> NoFuel -> (n <= m)%nat -> (f <= g)%nat ->
  trampoline sha3 m g s h = (r, s', h').
Proof.
  revert m s h. induction n as [|n IH]; intros m s h Hr Hne Hnm Hfg; cbn [trampoline] in Hr.
  { unfold nofuel in Hr. congruence. }
  destruct m as [|m]; [lia|]. cbn [trampoline]. unfold mbind in Hr |- *.
  destruct (bounce sha3 f s h) as [[o s1] h1] eqn:Hb.
  assert (o <> NoFuel) as Ho by (intros ->; congruence).
  rewrite (bounce_fuel f g s h o s1 h1) by done. destruct o as [[]|e| |]; try done.
  unfold get in *. destruct (m_bounce s1); [|done]. apply IH; done || lia.
Qed.

Lemma exec_fuel f g r msg code s h o s' h' :
  exec sha3 f r msg code s h = (o, s', h') -> o <> NoFuel -> (f <= g)%nat ->
  exec sha3 g r msg code s h = (o, s', h').
Proof.
  unfold exec, mbind, bounce_to, put. intros He Hne Hle. cbv beta iota in *.
  set (s0 := set_m_bounce _ _) in *. clearbody s0.
  destruct (trampoline sha3 f f s0 h) as [[o1 s1] h1] eqn:Ht.
  assert (o1 <> NoFuel) as Ho by (intros ->; congruence).
  by rewrite (trampoline_fuel f g f g s0 h o1 s1 h1).
Qed.
End Steps.

(** ** The theorems at work *)

(** [PUSH1 0x5b JUMPDEST]: the second byte is push data, the third a destination. *)
Example jumpdest_valid_witness :
  verifyJumpDest_found [2] 2 = true /\ verifyJumpDest_found [2] 1 = false /\
  Boundary [0x60; 0x5b; 0x5b] 2.
Proof.
  destruct (analyse true [0x60; 0x5b; 0x5b]) as [[[c d] p]|] eqn:Ha; [|vm_compute in Ha; discriminate].
  assert (d = [2]) as -> by (vm_compute in Ha; congruence).
  split; [reflexivity|]. split; [reflexivity|].
  apply (jumpdest_valid true [0x60; 0x5b; 0x5b] c [2] p 2);
    [apply bytes_dec; reflexivity|reflexivity|discriminate|exact Ha|reflexivity].
Defined.

(** A state of a run of [test_add]. *)
Definition test_state (code stack : list Z) (gas : Z) : VM :=
  set_m_stack (replicate (1024 - length stack) 0 ++ stack) (set_m_SPP (1024 - lenZ stack)
    (set_m_io_gas gas (set_m_code code (set_m_rev EVMC_CONSTANTINOPLE VM_init)))).

Lemma test_state_ok code stack gas :
  forallb (fun b => (0 <=? b) && (b <? 256)) code = true ->
  Forall (fun v => is_u256 v) stack -> lenZ stack <= 1024 -> 0 <= gas < 2 ^ 63 -> core_ok (test_state code stack gas).
Proof.
  intros Hc Hs Hl Hg. pose proof (lenZ_nonneg stack). constructor; unfold test_state; vm_cbn; try done; try lia.
  - unfold lenZ in *. rewrite length_app, length_replicate. lia.
  - apply Forall_app. split; [by apply Forall_replicate|done].
  - by apply bytes_dec.
Qed.

Example reachable_boundary_witness :
  exists code' dests s h, analyse false [0x60; 4; 0x00] = Some (code', dests, []) /\
    reachable (config := test_config false true) test_sha3
      (entry_state EVMC_BYZANTIUM (test_message 0 100) [0x60; 4; 0x00] code' dests []) [] (in_loop, s, h) /\
    m_PC s = 2 /\ Boundary [0x60; 4; 0x00] (m_PC s).
Proof.
  destruct (analyse false [0x60; 4; 0x00]) as [[[c d] p]|] eqn:Ha; [|vm_compute in Ha; discriminate].
  assert (c = [0x60; 4; 0x00] ++ replicate 33 0 /\ d = [] /\ p = []) as (-> & -> & ->)
    by (vm_compute in Ha; injection Ha as <- <- <-; auto).
  set (s0 := entry_state EVMC_BYZANTIUM (test_message 0 100) [0x60; 4; 0x00] ([0x60; 4; 0x00] ++ replicate 33 0) [] []).
  destruct (interpretStep (config := test_config false true) test_sha3 s0 []) as [[[cc|e| |] s] h] eqn:Hs;
    [|vm_compute in Hs; discriminate..].
  assert (cc <> BREAK /\ m_PC s = 2) as [Hc HPC] by (vm_compute in Hs; split; [congruence|]; by injection Hs as <- <- <-).
  assert (reachable (config := test_config false true) test_sha3 s0 [] (in_loop, s, h)) as Hr
    by (eapply reachable_round; [apply reachable_start|by eapply round_next]).
  exists ([0x60; 4; 0x00] ++ replicate 33 0), [], s, h. split; [done|]. split; [exact Hr|]. split; [exact HPC|].
  apply (reachable_boundary (config := test_config false true) test_sha3 (test_message 0 100) EVMC_BYZANTIUM [0x60; 4; 0x00]
    ([0x60; 4; 0x00] ++ replicate 33 0) [] [] [] s h); [reflexivity| |exact I|exact Ha|exact Hr].
  apply test_input; done || lia.
Defined.

(** [2 ^ 256 - 1] plus [3] is [2]. *)
Example arith_step_witness :
  exists s', interpretStep (config := test_config true true) test_sha3
      (test_state [0x01] [2 ^ 256 - 1; 3] 100) [] = (Ret NEXT, s', []) /\
    stackOf s' = [2] /\ m_io_gas s' = 97.
Proof.
  destruct (arith_step (config := test_config true true) test_sha3 ADD [2 ^ 256 - 1; 3] [] 2
    (test_state [0x01] [2 ^ 256 - 1; 3] 100) []) as [s' Hs].
  - apply test_state_ok; [reflexivity|repeat constructor; lia|discriminate|lia].
  - vm_compute. split; [discriminate|reflexivity].
  - reflexivity.
  - reflexivity.
  - reflexivity.
  - reflexivity.
  - exists s'. destruct Hs as (H1 & H2 & _ & H3 & _). exact (conj H1 (conj H2 H3)).
Defined.

Example fetch_checks_stack_witness :
  (exists s', interpretStep (config := test_config true true) test_sha3 (test_state [0x01] [7] 100) []
     = (Throw StackUnderflow, s', [])) /\
  (exists s', interpretStep (config := test_config true true) test_sha3 (test_state [0x60] (replicate 1024 7) 100) []
     = (Throw OutOfStack, s', [])).
Proof.
  split.
  - apply (fetch_checks_stack (config := test_config true true) test_sha3 0x01 (test_state [0x01] [7] 100) []);
      [reflexivity|lia| |reflexivity].
    apply test_state_ok; [reflexivity|repeat constructor; lia|discriminate|lia].
  - apply (fetch_checks_stack (config := test_config true true) test_sha3 0x60 (test_state [0x60] (replicate 1024 7) 100) []);
      [reflexivity|lia| |vm_compute; discriminate|reflexivity].
    apply test_state_ok; [reflexivity|apply Forall_replicate; lia|vm_compute; discriminate|lia].
Defined.

(** The constant 65537 of the pool: [PUSH6 9] pushes the first constant instead. *)
Example constant_pool_wraps_witness :
  exists code' pool', use_constant_pool 0 6 9 [0x65; 0; 0; 0; 0; 0; 9] (5 :: replicate 65535 0) = Some (code', pool') /\
    pool' @@ 65536 = Some 9 /\
    forall s : VM, m_code s = code' -> m_pool s = pool' -> m_PC s = 0 -> lenZ (m_stack s) = 1024 -> 0 <= m_SPP s < 1024 ->
      case_of (config := test_config true true) test_sha3 PUSHC s ([] : TestState) = push_result 6 5 s [].
Proof.
  assert (lenZ (5 :: replicate 65535 0) = 65536) as Hl by (vm_compute; reflexivity).
  destruct (constant_pool_wraps (config := test_config true true) test_sha3 0 6 9 [0x65; 0; 0; 0; 0; 0; 9]
    (5 :: replicate 65535 0) 5 VM_init ([] : TestState)) as (code' & pool' & H1 & H2 & _);
    [reflexivity|lia|lia|reflexivity|rewrite Hl; lia|rewrite Hl; reflexivity|].
  exists code', pool'. split; [exact H1|]. split; [rewrite <- Hl; exact H2|].
  intros s Hc Hp HPC Hlen HSPP.
  destruct (constant_pool_wraps (config := test_config true true) test_sha3 0 6 9 [0x65; 0; 0; 0; 0; 0; 9]
    (5 :: replicate 65535 0) 5 s ([] : TestState)) as (code2 & pool2 & H3 & _ & H4);
    [reflexivity|lia|lia|reflexivity|rewrite Hl; lia|rewrite Hl; reflexivity|].
  assert (code2 = code' /\ pool2 = pool') as [-> ->] by (rewrite H1 in H3; by injection H3).
  exact (H4 Hc Hp HPC Hlen HSPP).
Defined.
