(* ===== verification/VMMemory.v ===== *)
(** * Memory and the gas of calls

    What [MSTORE] and [MLOAD] do to memory, with the price of its growth, and
    what part of the gas a call passes on. *)
From stdpp Require Import base list.
From Stdlib Require Import ZArith Lia.
From S2P Require Import Prelude Words Instruction Evmc VMState VMOps VMSpec VMCases VMCalls.
From S2P Require Import VMExec VMContract VMCallsSpec VMCode VMRun VMOptim VMArith TestHost VMFacts.

(** The size of memory after an access to [n] bytes, and the price of the growth. *)
Definition grown (n : Z) (s : VM) : Z := Z.max (lenZ (m_mem s)) (words_size n).
Definition growth_cost (n : Z) (s : VM) : Z := memory_cost (grown n s) - memory_cost (lenZ (m_mem s)).

Section Memory.
  Context {H : Type} `{!EvmcHost H} {config : VMConfig}.
  Context (sha3 : list Z -> list Z).

(** Growth that is affordable happens. *)
Lemma wp_updateMem_paid n Q (E : VMException -> VM -> H -> Prop) s h :
  0 <= m_io_gas s < 2 ^ 63 -> lenZ (m_mem s) <= maxMem -> 0 <= n < 2 ^ 63 + 64 -> 0 <= m_runGas s ->
  m_copyMemSize s = 0 -> memory_cost (grown n s) < 2 ^ 63 -> m_runGas s + growth_cost n s <= m_io_gas s ->
  Q tt (set_m_mem (resize (grown n s) (m_mem s)) (set_m_runGas (m_runGas s + growth_cost n s)
    (set_m_newMemSize (words_size n) s))) h ->
  wp (updateMem n) Q E s h.
Proof.
  intros Hio Hmax Hn Hg Hc Hcost Hpaid HQ. pose proof (words_size_spec n ltac:(lia)) as [Hw Hw32].
  pose proof (lenZ_nonneg (m_mem s)) as Hm0. unfold maxMem in Hmax. unfold growth_cost, grown in *.
  assert (u64 (u64 (n + 31) / 32 * 32) = words_size n) as Hnew.
  { rewrite (u64_small (n + 31)) by lia. apply u64_small. fold (words_size n). lia. }
  unfold updateMem. rewrite Hnew. apply wp_bind, wp_put, wp_bind, wp_bind, wp_get, wp_bind, wp_get. vm_cbn.
  assert (forall g, u64 (g + u64 (VMSchedule.copyGas * (u64 (m_copyMemSize s + 31) / 32))) = u64 g) as Hcopy.
  { intros g. rewrite Hc. change (u64 (VMSchedule.copyGas * (u64 (0 + 31) / 32))) with 0. by rewrite Z.add_0_r. }
  apply wp_bind, wp_when.
  - intros Hlt%Z.ltb_lt. rewrite Z.max_r in * by lia.
    pose proof (memory_cost_mono (lenZ (m_mem s)) (words_size n) ltac:(lia)) as Hmono.
    pose proof (memory_cost_nonneg (lenZ (m_mem s)) Hm0).
    apply wp_bind, wp_gasForMem; [lia| |lia].
    + intros _. apply wp_bind, wp_gasForMem; [lia| |].
      * intros _. rewrite u64_small by lia. apply wp_bind, wp_toInt63; [lia| |lia]. intros _. apply wp_put. vm_cbn.
        apply wp_bind, wp_put. vm_cbn. rewrite Hcopy, (u64_small (m_runGas s + _)), u64_small by lia.
        apply wp_bind, wp_get, wp_bind, wp_get. vm_cbn. apply wp_when; [intros ?%Z.ltb_lt; lia|intros _].
        apply wp_put. vm_cbn. destruct (Z.ltb_spec (lenZ (m_mem s)) (words_size n)); [|lia]. exact HQ.
      * lia.
  - intros Hge%Z.ltb_ge. rewrite Z.max_l in * by lia.
    apply wp_bind, wp_put. vm_cbn. rewrite Hcopy, u64_small by lia.
    apply wp_bind, wp_get, wp_bind, wp_get. vm_cbn. apply wp_when; [intros ?%Z.ltb_lt; lia|intros _].
    apply wp_put. vm_cbn. destruct (Z.ltb_spec (lenZ (m_mem s)) (words_size n)); [lia|].
    rewrite resize_id in HQ. replace (m_runGas s + _) with (m_runGas s) in HQ by lia.
    by destruct s.
Qed.

(** What a store of the word [v] at [a] leaves: the bytes of [v] at the address
    cut to 32 bits. *)
Record stored (a v : Z) (s : VM) (s' : VM) : Prop := {
  st_mem : blit (u32 a) (toBigEndian 32 v) (resize (grown (a + 32) s) (m_mem s)) = Some (m_mem s');
  st_gas : m_io_gas s' = m_io_gas s - (m_runGas s + growth_cost (a + 32) s);
  st_stack : m_stack s' = m_stack s;
  st_SPP : m_SPP s' = m_SPP s;
  st_PC : m_PC s' = m_PC s;
  st_env : same_env s s'
}.

Lemma case_mstore_spec a v g s (h : H) :
  core_ok s -> fetched (opcode MSTORE) 2 0 g s -> 0 <= g -> m_stack s @@ m_SP s = Some a -> m_stack s @@ (m_SP s + 1) = Some v ->
  a < 2 ^ 63 -> memory_cost (grown (a + 32) s) < 2 ^ 63 -> g + growth_cost (a + 32) s <= m_io_gas s ->
  wp case_MSTORE (fun (c : ctl) (s' : VM) (h' : H) => c = NEXT /\ h' = h /\ stored a v s s') (fun _ _ _ => False) s h.
Proof.
  intros Hok Hf Hg0 Ha Hv Hb Hm Hpay. contract_open Hok Hf. unfold case_MSTORE. do 2 vm_step.
  do 2 vm_step; [|lia].
  rewrite u64_small by lia. vm_step. apply wp_updateMem_paid; [done..|lia|lia|done|done|lia|].
  do 2 vm_step; [|vm_cbn in *; lia]. do 2 vm_step.
  pose proof (u32_le a). assert (lenZ (toBigEndian 32 v) = 32) by (unfold lenZ; by rewrite toBigEndian_length).
  pose proof (words_size_spec (a + 32) ltac:(lia)).
  assert (lenZ (resize (grown (a + 32) s) (m_mem s)) = grown (a + 32) s) as Hlen
    by (apply resize_length; unfold grown; lia).
  vm_step. apply wp_mem_write; vm_cbn; [by apply resize_Forall|apply toBigEndian_bytes|side|rewrite Hlen; unfold grown; lia|].
  intros m Hbl Hl Hmb. vm_steps. split; [done|]. split; [done|]. constructor; vm_cbn; try done.
Qed.

Lemma case_mload_spec a g s (h : H) :
  core_ok s -> fetched (opcode MLOAD) 1 1 g s -> 0 <= g -> m_stack s @@ m_SP s = Some a ->
  a < 2 ^ 63 -> memory_cost (grown (a + 32) s) < 2 ^ 63 -> g + growth_cost (a + 32) s <= m_io_gas s ->
  wp case_MLOAD (fun (c : ctl) (s' : VM) (h' : H) => c = NEXT /\ h' = h /\ m_PC s' = m_PC s /\ m_SPP s' = m_SPP s /\
     m_mem s' = resize (grown (a + 32) s) (m_mem s) /\
     m_io_gas s' = m_io_gas s - (g + growth_cost (a + 32) s) /\
     exists d, slice (u32 a) 32 (m_mem s') = Some d /\ m_stack s' = upd (m_stack s) (m_SPP s) (fromBigEndian d))
   (fun _ _ _ => False) s h.
Proof.
  intros Hok Hf Hg0 Ha Hb Hm Hpay. contract_open Hok Hf. unfold case_MLOAD. do 2 vm_step.
  do 2 vm_step; [|lia].
  rewrite u64_small by lia. vm_step. apply wp_updateMem_paid; [done..|lia|lia|done|done|lia|].
  do 2 vm_step; [|vm_cbn in *; lia].
  pose proof (u32_le a). pose proof (words_size_spec (a + 32) ltac:(lia)).
  assert (lenZ (resize (grown (a + 32) s) (m_mem s)) = grown (a + 32) s) as Hlen
    by (apply resize_length; unfold grown; lia).
  vm_step. apply wp_mem_read; vm_cbn; [by apply resize_Forall|side|done|rewrite Hlen; unfold grown; lia|].
  intros d Hd Hdl Hdb. vm_steps. rewrite Z.add_0_r, Hgas. split_and!; try done. by exists d.
Qed.

(** Too little gas for the growth is an exception. *)
Lemma case_mstore_unpaid a g s (h : H) :
  core_ok s -> fetched (opcode MSTORE) 2 0 g s -> 0 <= g <= 2 ^ 63 -> m_stack s @@ m_SP s = Some a ->
  wp case_MSTORE (fun _ _ _ => g + growth_cost (a + 32) s <= m_io_gas s) (fun e _ h' => e = OutOfGas /\ h' = h) s h.
Proof.
  intros Hok Hf Hg0 Ha. contract_open Hok Hf. unfold case_MSTORE. do 2 vm_step. do 2 vm_step; [|done].
  rewrite u64_small by lia. do 2 vm_step; [|done]. do 2 vm_step; [|done]. do 2 vm_step.
  pose proof (u32_le a). assert (lenZ (toBigEndian 32 v) = 32) by (unfold lenZ; by rewrite toBigEndian_length).
  vm_step. apply wp_mem_write; vm_cbn; [done|apply toBigEndian_bytes|side|lia|]. intros m Hb Hl Hmb.
  vm_steps. unfold growth_cost, grown. rewrite <- Hml. lia.
Qed.

(** ** The steps *)

Lemma step_fetched i s (h : H) :
  core_ok s -> m_code s @@ m_PC s = Some (opcode i) -> switch_label (opcode i) = i ->
  args (instructionInfo (opcode i)) <= lenZ (stackOf s) ->
  lenZ (stackOf s) - args (instructionInfo (opcode i)) + ret (instructionInfo (opcode i)) <= 1024 ->
  interpretStep sha3 s h = step_tail sha3 config i (fetch_state (opcode i) s) h /\
  core_ok (fetch_state (opcode i) s) /\
  fetched (opcode i) (args (instructionInfo (opcode i))) (ret (instructionInfo (opcode i))) (op_gas (opcode i))
    (fetch_state (opcode i) s).
Proof.
  intros Hok Hop Hlab Ha Hr. rewrite stackOf_size in * by done.
  assert (is_byte (opcode i)) as Hbyte by (destruct i; by vm_compute).
  rewrite (interpretStep_fetch sha3 config (opcode i)); [|done|done|apply Hok].
  unfold fetch_result. destruct (Z.ltb_spec (stackSize s) (args (instructionInfo (opcode i)))); [lia|].
  destruct (Z.ltb_spec 1024 (stackSize s - args (instructionInfo (opcode i)) + ret (instructionInfo (opcode i)))); [lia|].
  rewrite Hlab. split; [done|]. by apply core_ok_fetch.
Qed.

Lemma stackOf_items s l : 0 <= m_SPP s -> stackOf s = l -> forall k v, l !! k = Some v ->
  m_stack s @@ (m_SPP s + Z.of_nat k) = Some v.
Proof. intros Hs <- k v. by rewrite stackOf_lookup. Qed.

Lemma stackOf_range s v l1 l2 : core_ok s -> stackOf s = l1 ++ v :: l2 -> is_u256 v.
Proof.
  intros [] Hst. assert (Forall (fun v => is_u256 v) (stackOf s)) as Hf by (apply Forall_drop; assumption).
  rewrite Hst in Hf. apply Forall_app in Hf as [_ Hf]. by apply Forall_cons_1 in Hf as [? _].
Qed.

Lemma stackOf_cons2 s a v rest : core_ok s -> stackOf s = a :: v :: rest ->
  m_stack s @@ m_SPP s = Some a /\ m_stack s @@ (m_SPP s + 1) = Some v /\ 2 <= lenZ (stackOf s) <= 1024.
Proof.
  intros Hok Hst. pose proof (stackOf_size s Hok) as Hsize. destruct Hok.
  pose proof (stackOf_items s _ ltac:(lia) Hst 0 a eq_refl) as H0. rewrite Z.add_0_r in H0.
  pose proof (stackOf_items s _ ltac:(lia) Hst 1 v eq_refl) as H1.
  split_and!; [done|done|rewrite Hst; unfold lenZ; cbn [length]; lia|rewrite Hsize; unfold stackSize; lia].
Qed.

Lemma mstore_run a v rest s (h : H) :
  core_ok s -> 0 <= m_PC s < 2 ^ 63 -> m_code s @@ m_PC s = Some (opcode MSTORE) ->
  stackOf s = a :: v :: rest -> a < 2 ^ 63 -> memory_cost (grown (a + 32) s) < 2 ^ 63 ->
  let cost := 3 + growth_cost (a + 32) s in
  exists s',
    if m_io_gas s <? cost then interpretStep sha3 s h = (Throw OutOfGas, s', h)
    else interpretStep sha3 s h = (Ret NEXT, s', h) /\ stackOf s' = rest /\ m_PC s' = m_PC s + 1 /\
      m_io_gas s' = m_io_gas s - cost /\
      blit (u32 a) (toBigEndian 32 v) (resize (grown (a + 32) s) (m_mem s)) = Some (m_mem s').
Proof.
  intros Hok HPC Hop Hst Ha Hm cost. destruct (stackOf_cons2 s a v rest Hok Hst) as (H0 & H1 & Hsz).
  destruct (step_fetched MSTORE s h Hok Hop eq_refl) as (-> & Hok1 & Hf);
    [change (args _) with 2; lia|change (args _) with 2; change (ret _) with 0; lia|].
  change (fetched (opcode MSTORE) 2 0 3 (fetch_state (opcode MSTORE) s)) in Hf.
  assert (m_stack s = m_stack (fetch_state (opcode MSTORE) s) /\ m_SPP s = m_SP (fetch_state (opcode MSTORE) s) /\
    m_SPP (fetch_state (opcode MSTORE) s) = m_SPP s + 2 /\ m_PC (fetch_state (opcode MSTORE) s) = m_PC s /\
    m_io_gas (fetch_state (opcode MSTORE) s) = m_io_gas s /\ m_mem (fetch_state (opcode MSTORE) s) = m_mem s)
    as (Es & ESP & ESPP & EPC & Eg & Em)
    by (split_and!; try reflexivity; unfold fetch_state; vm_cbn; change (args _) with 2; change (ret _) with 0; lia).
  set (s1 := fetch_state (opcode MSTORE) s) in *. clearbody s1.
  assert (grown (a + 32) s1 = grown (a + 32) s /\ growth_cost (a + 32) s1 = growth_cost (a + 32) s) as [Eg1 Eg2]
    by (unfold growth_cost, grown; by rewrite Em).
  rewrite Es, ESP in H0, H1. unfold step_tail, mbind. change (case_of sha3 MSTORE) with (case_MSTORE (H:=H)).
  destruct (Z.ltb_spec (m_io_gas s) cost) as [Hlt|Hge].
  - pose proof (case_mstore_unpaid a 3 s1 h Hok1 Hf ltac:(lia) H0) as Hw. unfold wp in Hw.
    destruct (case_MSTORE s1 h) as [[[c|e| |] s2] h2]; [subst cost; lia| |done|done].
    destruct Hw as [-> ->]. by exists s2.
  - pose proof (case_mstore_spec a v 3 s1 h Hok1 Hf ltac:(lia) H0 H1 Ha ltac:(by rewrite Eg1) ltac:(subst cost; lia)) as Hw.
    pose proof (f_gas _ _ _ _ _ Hf) as Hrg.
    unfold wp in Hw. destruct (case_MSTORE s1 h) as [[[c|e| |] s2] h2]; [|done..].
    destruct Hw as (-> & -> & [Hmem Hgas Hstk HSPP HPC2 _]). eexists. split; [reflexivity|]. vm_cbn.
    rewrite Eg1, Em in Hmem. split_and!; [|rewrite HPC2, EPC; apply u64_small; lia|subst cost; lia|done].
    unfold stackOf. vm_cbn. rewrite Hstk, HSPP, ESPP, <- Es. destruct Hok.
    replace (Z.to_nat (m_SPP s + 2)) with (Z.to_nat (m_SPP s) + 2)%nat by lia.
    rewrite <- drop_drop. unfold stackOf in Hst. by rewrite Hst.
Qed.

(** A load from an address inside of the memory grows nothing. *)
Lemma mload_run a rest d s (h : H) :
  core_ok s -> 0 <= m_PC s < 2 ^ 63 -> m_code s @@ m_PC s = Some (opcode MLOAD) ->
  stackOf s = a :: rest -> words_size (a + 32) <= lenZ (m_mem s) -> memory_cost (lenZ (m_mem s)) < 2 ^ 63 ->
  slice (u32 a) 32 (m_mem s) = Some d -> 3 <= m_io_gas s ->
  exists s', interpretStep sha3 s h = (Ret NEXT, s', h) /\ stackOf s' = fromBigEndian d :: rest /\
    m_mem s' = m_mem s /\ m_io_gas s' = m_io_gas s - 3.
Proof.
  intros Hok HPC Hop Hst Hw Hm Hd Hgas. pose proof (stackOf_size s Hok) as Hsize.
  assert (0 <= m_SPP s <= 1024) as HSPP by apply Hok.
  pose proof (stackOf_items s _ ltac:(lia) Hst 0 a eq_refl) as H0. rewrite Z.add_0_r in H0.
  assert (1 <= lenZ (stackOf s)) by (rewrite Hst; unfold lenZ; cbn [length]; lia).
  destruct (step_fetched MLOAD s h Hok Hop eq_refl) as (-> & Hok1 & Hf);
    [change (args _) with 1; lia|change (args _) with 1; change (ret _) with 1; unfold stackSize in *; lia|].
  change (fetched (opcode MLOAD) 1 1 3 (fetch_state (opcode MLOAD) s)) in Hf.
  assert (m_stack (fetch_state (opcode MLOAD) s) = m_stack s /\ m_SP (fetch_state (opcode MLOAD) s) = m_SPP s /\
    m_SPP (fetch_state (opcode MLOAD) s) = m_SPP s /\
    m_io_gas (fetch_state (opcode MLOAD) s) = m_io_gas s /\ m_mem (fetch_state (opcode MLOAD) s) = m_mem s)
    as (Es & ESP & ESPP & Eg & Em)
    by (split_and!; try reflexivity; unfold fetch_state; vm_cbn; change (args _) with 1; change (ret _) with 1; lia).
  set (s1 := fetch_state (opcode MLOAD) s) in *. clearbody s1.
  assert (grown (a + 32) s1 = lenZ (m_mem s)) as Eg1 by (unfold grown; rewrite Em; lia).
  assert (growth_cost (a + 32) s1 = 0) as Eg2 by (unfold growth_cost; rewrite Eg1, Em; lia).
  rewrite <- Es, <- ESP in H0. pose proof (stackOf_range s a [] rest Hok Hst) as Ha.
  assert (a + 32 <= maxMem) as Ha2.
  { pose proof (words_size_spec (a + 32)). destruct (ok_mem_len _ Hok). lia. }
  unfold maxMem in Ha2. unfold step_tail, mbind. change (case_of sha3 MLOAD) with (case_MLOAD (H:=H)).
  pose proof (case_mload_spec a 3 s1 h Hok1 Hf ltac:(lia) H0 ltac:(lia) ltac:(by rewrite Eg1) ltac:(lia)) as Hc.
  unfold wp in Hc. destruct (case_MLOAD s1 h) as [[[c|e| |] s2] h2]; [|done..].
  destruct Hc as (-> & -> & HPC2 & HSPP2 & Hmem & Hg2 & d' & Hd' & Hstk). eexists. split; [reflexivity|]. vm_cbn.
  rewrite Eg1, Em, resize_id in Hmem. rewrite Hmem in Hd'. assert (d' = d) as -> by congruence.
  split_and!; [|done|lia].
  eapply (stackOf_replaced s _ 1 _ [a] rest); [done|done|done|done|vm_cbn; lia|]. vm_cbn. rewrite Hstk. congruence.
Qed.

(** [MSTORE], and [MLOAD] after it.  A store is executed exactly when the
    gas pays for the instruction and for the growth of the memory, whose price
    is the difference of the quadratic memory costs; it removes both operands,
    grows the memory by zeros to whole words, and puts the 32 bytes of the
    value, most significant first, at the address cut to 32 bits.  In any later
    state in which the memory is what the store left, a load from the same
    address pushes the value back, for the price of the instruction alone. *)
Theorem mstore_mload a v rest s (h : H) :
  core_ok s -> 0 <= m_PC s < 2 ^ 63 -> m_code s @@ m_PC s = Some (opcode MSTORE) ->
  stackOf s = a :: v :: rest -> a < 2 ^ 63 -> memory_cost (grown (a + 32) s) < 2 ^ 63 ->
  let cost := 3 + growth_cost (a + 32) s in
  exists s',
    if m_io_gas s <? cost then interpretStep sha3 s h = (Throw OutOfGas, s', h)
    else interpretStep sha3 s h = (Ret NEXT, s', h) /\ stackOf s' = rest /\ m_PC s' = m_PC s + 1 /\
      m_io_gas s' = m_io_gas s - cost /\
      blit (u32 a) (toBigEndian 32 v) (resize (grown (a + 32) s) (m_mem s)) = Some (m_mem s') /\
      forall s2 rest2 (h2 : H), core_ok s2 -> m_mem s2 = m_mem s' -> m_code s2 @@ m_PC s2 = Some (opcode MLOAD) ->
        0 <= m_PC s2 < 2 ^ 63 -> stackOf s2 = a :: rest2 -> 3 <= m_io_gas s2 ->
        exists s3, interpretStep sha3 s2 h2 = (Ret NEXT, s3, h2) /\ stackOf s3 = v :: rest2 /\
          m_mem s3 = m_mem s2 /\ m_io_gas s3 = m_io_gas s2 - 3.
Proof.
  intros Hok HPC Hop Hst Ha Hm cost. destruct (mstore_run a v rest s h Hok HPC Hop Hst Ha Hm) as [s' Hrun].
  fold cost in Hrun. exists s'. destruct (m_io_gas s <? cost); [done|].
  destruct Hrun as (Hstep & Hrest & HPC' & Hgas & Hmem). split_and!; try done.
  intros s2 rest2 h2 Hok2 Hmem2 Hop2 HPC2 Hst2 Hgas2.
  assert (is_u256 v) as Hv by apply (stackOf_range s v [a] rest Hok Hst).
  assert (lenZ (toBigEndian 32 v) = 32) as H32 by (unfold lenZ; by rewrite toBigEndian_length).
  assert (lenZ (m_mem s2) = grown (a + 32) s) as Hlen.
  { rewrite Hmem2, (blit_length _ _ _ _ Hmem). apply resize_length. unfold grown. lia. }
  destruct (mload_run a rest2 (toBigEndian 32 v) s2 h2) as (s3 & Hs3 & Hst3 & Hmem3 & Hgas3); try done.
  - rewrite Hlen. unfold grown. lia.
  - by rewrite Hlen.
  - rewrite Hmem2, <- H32. by eapply slice_blit; [rewrite H32|].
  - exists s3. split_and!; [done| |done|done]. by rewrite Hst3, fromBigEndian_toBigEndian.
Qed.
End Memory.

(** ** The gas of a call *)

Section CallGas.
  Context {H : Type} `{!EvmcHost H} {config : VMConfig}.

(** The call transfers value: it has a value operand and that is not zero. *)
Definition transfers (op v : Z) : bool := ((op =? opcode CALL) || (op =? opcode CALLCODE)) && (0 <? v).

(** What is passed on, the stipend aside, and what is left, of what there was. *)
Record gas_split (s : VM) (sp0 v : Z) (r : evmc_message * option (Z * Z)) (s' : VM) : Prop := {
  gs_stipend : VMSchedule.callStipend * Z.b2z (transfers (m_OP s) v) <= msg_gas r.1;
  gs_paid : m_io_gas s' + (msg_gas r.1 - VMSchedule.callStipend * Z.b2z (transfers (m_OP s) v))
    + (if rev_ge (m_rev s) EVMC_TANGERINE_WHISTLE then 700 else 40)
    + VMSchedule.valueTransferGas * Z.b2z (transfers (m_OP s) v) <= m_io_gas s;
  gs_passed :
    let passed := msg_gas r.1 - VMSchedule.callStipend * Z.b2z (transfers (m_OP s) v) in
    let available := m_io_gas s' + passed in
    passed = if rev_ge (m_rev s) EVMC_TANGERINE_WHISTLE then Z.min sp0 (available - available / 64) else sp0;
  gs_depth : r.2 <> None -> depth (m_message s) < 1024
}.

Lemma call_base_gas_parts r op ex hv v :
  call_base_gas r op ex hv v = (if rev_ge r EVMC_TANGERINE_WHISTLE then 700 else 40)
    + VMSchedule.callNewAccount * Z.b2z ((op =? opcode CALL) && negb ex && ((0 <? v) || rev_lt r EVMC_SPURIOUS_DRAGON))
    + VMSchedule.valueTransferGas * Z.b2z (hv && (0 <? v)).
Proof.
  unfold call_base_gas. autounfold with sched. destruct (_ && _ && _), (hv && _), (rev_ge _ _); reflexivity.
Qed.

Lemma wp_caseCallSetup_gas args g s sp0 v (h : H) :
  core_ok s -> fetched (m_OP s) args 1 g s ->
  args = (if (m_OP s =? opcode CALL) || (m_OP s =? opcode CALLCODE) then 7 else 6) ->
  m_stack s @@ m_SP s = Some sp0 -> m_stack s @@ (m_SP s + 2) = Some v ->
  wp caseCallSetup (fun r s' _ => gas_split s sp0 v r s') (fun _ _ _ => True) s h.
Proof.
  intros Hok Hf Hargs' H0 H2. contract_open Hok Hf. unfold caseCallSetup.
  do 6 vm_step.
  set (hv := (m_OP s =? opcode CALL) || (m_OP s =? opcode CALLCODE)) in *.
  set (so := if hv then 3 else 2) in *.
  assert (so + 4 = args /\ 2 <= so <= 3) as [Hso Hso2] by (subst so; rewrite Hargs'; by destruct hv).
  do 8 vm_step.
  match goal with |- context [call_base_gas ?r ?o ?e hv ?w] =>
    destruct (call_base_gas_range r o e hv w) as [Hbase Hvalue];
    pose proof (call_base_gas_parts r o e hv w) as Hparts;
    set (base := call_base_gas r o e hv w) in *; clearbody base end.
  autounfold with sched in *.
  match type of Hparts with _ = _ + _ * Z.b2z ?b + _ =>
    assert (0 <= Z.b2z b) as Hex by (destruct b; cbn; lia); set (ex := Z.b2z b) in *; clearbody ex end.
  vm_steps; try done.
  match goal with |- wp (toInt63 ?c) _ _ _ _ => assert (0 <= c) as Hcg; [|remember c as callGas eqn:Hcall] end.
  { pose proof (sixty_fourth (m_io_gas s - g0) ltac:(lia)). destruct (rev_ge _ _); lia. }
  assert (base <= m_io_gas s - (m_io_gas s - g0)) by lia.
  assert (0 <= m_io_gas s - g0) by lia.
  assert (0 <= Z.b2z (hv && (0 <? v)) <= 1 /\ (hv && (0 <? v) = true -> 9040 <= base)) as [Htr Hv9]
    by (destruct hv; destruct (Z.ltb_spec 0 v); cbn [andb Z.b2z]; split; lia || done || (intros _; by apply Hvalue)).
  vm_steps; try done; cbv beta iota.
  all: constructor; cbn [fst snd msg_gas]; unfold transfers; fold hv;
    rewrite ?Hb, ?Hb0; cbn [andb Z.b2z]; autounfold with sched; vm_cbn.
  all: try (intros _; repeat match goal with Hx : _ && _ = true |- _ => apply andb_prop in Hx as [? Hx] end; lia).
  all: try (intros Hx; by destruct Hx).
  all: try rewrite Hb in Hv9, Hparts; try rewrite Hb0 in Hv9, Hparts; cbn [andb Z.b2z] in Hv9, Hparts; try specialize (Hv9 eq_refl).
  all: try rewrite i64_small by lia; try lia.
  all: cbv zeta; try replace (callGas + 2300 - 2300 * 1) with callGas by lia;
    try replace (callGas - 2300 * 0) with callGas by lia;
    replace (m_io_gas s - g0 - callGas + callGas) with (m_io_gas s - g0) by lia; exact Hcall.
Qed.

(** The gas a call passes on.  A call that is set up has paid its base
    price, the price of a value transfer where it makes one, and the gas of the
    message, less the stipend of 2300 that the callee of a value transfer gets
    for nothing.  Since Tangerine Whistle the message gets what was asked for,
    but at most all but one 64th of what is left; before, it gets exactly what
    was asked for.  And no message is sent from depth 1024 on. *)
Theorem call_gas_passed args g s sp0 v (h : H) msg out s' h' :
  core_ok s -> fetched (m_OP s) args 1 g s ->
  args = (if (m_OP s =? opcode CALL) || (m_OP s =? opcode CALLCODE) then 7 else 6) ->
  m_stack s @@ m_SP s = Some sp0 -> m_stack s @@ (m_SP s + 2) = Some v ->
  caseCallSetup s h = (Ret (msg, out), s', h') ->
  let stipend := if transfers (m_OP s) v then 2300 else 0 in
  let passed := msg_gas msg - stipend in
  let available := m_io_gas s' + passed in
  let modern := rev_ge (m_rev s) EVMC_TANGERINE_WHISTLE in
  0 <= passed /\
  available + (if modern then 700 else 40) + (if transfers (m_OP s) v then 9000 else 0) <= m_io_gas s /\
  passed = (if modern then Z.min sp0 (available - available / 64) else sp0) /\
  (out <> None -> depth (m_message s) < 1024).
Proof.
  intros Hok Hf Hargs H0 H2 Hc stipend passed available modern.
  pose proof (wp_caseCallSetup_gas args g s sp0 v h Hok Hf Hargs H0 H2) as Hw. unfold wp in Hw. rewrite Hc in Hw.
  destruct Hw as [H1 H3 H4 H5]. cbn [fst snd] in *. subst stipend passed available modern.
  unfold VMSchedule.callStipend, VMSchedule.valueTransferGas in *.
  destruct (transfers (m_OP s) v); cbn [Z.b2z] in *; rewrite ?Z.mul_1_r, ?Z.mul_0_r in *;
    (split; [lia|]); (split; [lia|]); (split; [exact H4|exact H5]).
Qed.
End CallGas.

(** ** The theorems at work *)

(** Storing 258 at 1 and loading it again. *)
Example mstore_mload_witness :
  exists s', interpretStep (config := test_config true true) test_sha3 (test_state [0x52; 0x51] [1; 258] 100) []
      = (Ret NEXT, s', []) /\ m_io_gas s' = 91 /\
    forall s2, core_ok s2 -> m_mem s2 = m_mem s' -> m_code s2 @@ m_PC s2 = Some (opcode MLOAD) ->
      0 <= m_PC s2 < 2 ^ 63 -> stackOf s2 = [1] -> 3 <= m_io_gas s2 ->
      exists s3, interpretStep (config := test_config true true) test_sha3 s2 [] = (Ret NEXT, s3, []) /\ stackOf s3 = [258].
Proof.
  destruct (mstore_mload (config := test_config true true) test_sha3 1 258 [] (test_state [0x52; 0x51] [1; 258] 100) [])
    as [s' Hs].
  - apply test_state_ok; [reflexivity|repeat constructor; lia|discriminate|lia].
  - vm_compute. split; [discriminate|reflexivity].
  - reflexivity.
  - reflexivity.
  - reflexivity.
  - reflexivity.
  - exists s'. destruct Hs as (H1 & _ & _ & H2 & _ & H3). split; [exact H1|]. split; [exact H2|].
    intros s2 Ha Hb Hc Hd He Hf. destruct (H3 s2 [] [] Ha Hb Hc Hd He Hf) as (s3 & Hi & Hj & _). exists s3. exact (conj Hi Hj).
Defined.

(** A call that asks for all of the gas, with value 1, from 100000. *)
Definition test_call_state : VM :=
  set_m_OP (opcode CALL) (set_m_SP 1017 (set_m_SPP 1023 (test_state [0xf1] [2 ^ 256 - 1; 12; 1; 0; 0; 0; 0] 100000))).

Lemma test_call_result :
  match caseCallSetup test_call_state [] with
  | (Ret (msg, _), _, h) => (msg_gas msg <? 2 ^ 64) && (lenZ h =? 0)
  | _ => false
  end = true.
Proof. vm_compute. reflexivity. Qed.

(** Fetching another operand range keeps the invariant. *)
Lemma core_ok_fetched op sp spp s : core_ok s -> 0 <= spp <= 1024 -> core_ok (set_m_OP op (set_m_SP sp (set_m_SPP spp s))).
Proof. intros [] Hs. constructor; vm_cbn; assumption. Qed.

Lemma test_call_core : core_ok test_call_state.
Proof.
  apply core_ok_fetched; [|lia]. apply test_state_ok; [reflexivity|repeat constructor; lia|discriminate|lia].
Qed.

Lemma test_call_fetched : fetched (m_OP test_call_state) 7 1 0 test_call_state.
Proof. constructor; vm_compute; first [reflexivity|discriminate]. Qed.

Lemma test_call_stack : m_stack test_call_state @@ m_SP test_call_state = Some (2 ^ 256 - 1) /\
  m_stack test_call_state @@ (m_SP test_call_state + 2) = Some 1.
Proof. vm_compute. split; reflexivity. Qed.

Lemma test_call_op : 7 = (if (m_OP test_call_state =? opcode CALL) || (m_OP test_call_state =? opcode CALLCODE) then 7 else 6) /\
  rev_ge (m_rev test_call_state) EVMC_TANGERINE_WHISTLE = true /\ transfers (m_OP test_call_state) 1 = true.
Proof. vm_compute. split_and!; reflexivity. Qed.

Example call_gas_passed_witness :
  exists msg out s', caseCallSetup test_call_state [] = (Ret (msg, out), s', []) /\
    msg_gas msg - 2300 = (m_io_gas s' + (msg_gas msg - 2300)) - (m_io_gas s' + (msg_gas msg - 2300)) / 64.
Proof.
  pose proof test_call_result as Hres. pose proof test_call_core as Hok. pose proof test_call_fetched as Hf.
  destruct test_call_stack as [H0 H2], test_call_op as (Ho & Hr & Ht).
  destruct (caseCallSetup test_call_state []) as [[[[msg out]|e| |] s'] h'] eqn:Hc; [|discriminate Hres..].
  apply andb_prop in Hres as [Hlt%Z.ltb_lt Hnil%Z.eqb_eq]. destruct h'; [|discriminate Hnil].
  exists msg, out, s'. split; [reflexivity|].
  destruct (call_gas_passed 7 0 test_call_state (2 ^ 256 - 1) 1 [] msg out s' [] Hok Hf Ho H0 H2 Hc)
    as (_ & _ & Hp & _).
  rewrite Hr, Ht in Hp. lia.
Defined.
