(* ===== verification/VMTheorems.v ===== *)
(** * The interpreter as a whole

    The theorems about [execute]: it is total and safe, the optimiser and the
    dispatch method do not change it, a static call changes nothing, jumps are
    valid exactly at the [JUMPDEST]s that are instructions, and control only
    reaches instructions. *)
From stdpp Require Import base list.
From Stdlib Require Import ZArith Lia.
From S2P Require Import Prelude Words Instruction Evmc VMState VMOps VMSpec VMCases VMCalls.
From S2P Require Import VMExec VMContract VMCallsSpec VMCode VMRun VMOptim TestHost VMFacts.

Section Execute.
  Context {H : Type} `{!EvmcHost H} (msg : evmc_message) `{!EvmcHostLaws H msg}.
  Context (sha3 : list Z -> list Z).

(** What any build of the interpreter returns, for any relation on the host's
    state that the message's permissions respect. *)
Record executed (R : H -> H -> Prop) (h : H) (result : evmc_result) (h' : H) : Prop := {
  ex_gas : 0 <= gas_left result <= msg_gas msg;
  ex_output : Forall (fun b => is_byte b) (output_data result) /\ lenZ (output_data result) <= maxMem;
  ex_status : status_code result = EVMC_SUCCESS \/ status_code result = EVMC_REVERT
    \/ status_code result = EVMC_FAILURE /\ gas_left result = 0 /\ output_data result = [];
  ex_host : host_ok h' /\ R h h'
}.

Lemma execute_plain (config : VMConfig) R `{!HostRel msg R} fuel r code h :
  EVM_OPTIMIZE = false -> valid_input msg code -> host_ok h -> 2 * msg_gas msg + 3 <= Z.of_nat fuel ->
  exists result h', execute sha3 fuel r msg code h = (Some result, h') /\ executed R h result h'.
Proof.
  intros Hopt Hv Hok Hfuel. pose proof (wp_exec_plain sha3 msg R fuel r code h Hopt Hv Hok Hfuel) as Hw.
  pose proof (vi_gas _ _ Hv) as Hg. unfold execute, wp in *.
  assert (Forall (fun b => is_byte b) [] /\ lenZ (@nil Z) <= maxMem) as Hnil by (split; [by apply List.Forall_nil|by vm_compute]).
  destruct (exec sha3 fuel r msg code VM_init h) as [[[out|e| |] s'] h']; [| |done|done].
  - destruct Hw as (Hh & Hio & Hout). do 2 eexists; split; [done|].
    constructor; cbn; [rewrite i64_small; lia|done|auto|by apply Hh].
  - destruct Hw as (Hh & Hio & Hout). destruct e.
    8: { do 2 eexists; split; [done|]. constructor; cbn; [rewrite i64_small; lia|by apply Hout|auto|by apply Hh]. }
    all: do 2 eexists; split; [done|]; constructor; cbn; [lia|done|auto|by apply Hh].
Qed.

Lemma execute_any (config : VMConfig) R `{!HostRel msg R} fuel r code h :
  valid_input msg code -> (EVM_OPTIMIZE = true -> lenZ code <= 7 * 2 ^ 16) -> host_ok h ->
  2 * msg_gas msg + 3 <= Z.of_nat fuel ->
  exists result h', execute sha3 fuel r msg code h = (Some result, h') /\ executed R h result h'.
Proof.
  intros Hv Hl Hok Hfuel. destruct (EVM_OPTIMIZE (VMConfig := config)) eqn:Hopt; [|by eapply execute_plain].
  rewrite (execute_same (test_config false true) config sha3 fuel r msg code h) by auto. by eapply execute_plain.
Qed.

(** C3. [execute] is total, safe and metered.  For every host that keeps the
    EVMC contract, every revision, every message and every code, in each build
    configuration: the interpreter never reads or writes outside of its stack,
    memory, code, constant pool or jump table, it stops within a number of
    rounds bounded by twice the gas, it returns no more gas than it was given,
    a failed execution returns neither gas nor output, and the host's invariant
    still holds. *)
Theorem execute_total (config : VMConfig) fuel r code h :
  valid_input msg code -> (EVM_OPTIMIZE = true -> lenZ code <= 7 * 2 ^ 16) -> host_ok h ->
  2 * msg_gas msg + 3 <= Z.of_nat fuel ->
  exists result h', execute sha3 fuel r msg code h = (Some result, h') /\ host_ok h' /\
    0 <= gas_left result <= msg_gas msg /\ Forall (fun b => is_byte b) (output_data result) /\
    (status_code result = EVMC_SUCCESS \/ status_code result = EVMC_REVERT
     \/ status_code result = EVMC_FAILURE /\ gas_left result = 0 /\ output_data result = []).
Proof.
  intros Hv Hl Hok Hfuel.
  destruct (execute_any config (fun _ _ => True) fuel r code h Hv Hl Hok Hfuel)
    as (result & h' & He & [Hg [Ho _] Hs [Hh _]]); eauto 10.
Qed.

(** C23. A static call changes nothing.  A relation on host states that reads
    and static calls without value respect relates the state before a static
    execution to the state after it: [SSTORE], the logs, [CREATE], [SELFDESTRUCT]
    and calls with value are all rejected before they reach the host. *)
Theorem execute_static (config : VMConfig) R `{!HostRel msg R} fuel r code h :
  valid_input msg code -> (EVM_OPTIMIZE = true -> lenZ code <= 7 * 2 ^ 16) -> is_static msg = true -> host_ok h ->
  2 * msg_gas msg + 3 <= Z.of_nat fuel ->
  R h (execute sha3 fuel r msg code h).2.
Proof.
  intros Hv Hl Hst Hok Hfuel. destruct (execute_any config R fuel r code h Hv Hl Hok Hfuel)
    as (result & h' & -> & []). by apply ex_host0.
Qed.

(** C9. The optimiser is correct.  With the constant pool and the verified
    constant jumps the interpreter returns the same result, leaves the host in
    the same state and makes the same calls as without them, for every code
    whose constant pool offsets fit two bytes. *)
Theorem execute_optimised (jump1 jump2 : bool) fuel r code h :
  valid_input msg code -> lenZ code <= 7 * 2 ^ 16 -> host_ok h ->
  execute (config := test_config true jump2) sha3 fuel r msg code h
  = execute (config := test_config false jump1) sha3 fuel r msg code h.
Proof. intros. by apply (execute_same _ _ sha3 fuel r msg code h). Qed.

(** More fuel changes nothing.  A run that has the fuel its gas pays for is
    the run of the unbounded loop: every larger fuel gives the same result and
    the same final state of the host. *)
Theorem execute_fuel (config : VMConfig) f g r code h :
  valid_input msg code -> (EVM_OPTIMIZE = true -> lenZ code <= 7 * 2 ^ 16) -> host_ok h ->
  2 * msg_gas msg + 3 <= Z.of_nat f -> (f <= g)%nat ->
  execute sha3 g r msg code h = execute sha3 f r msg code h.
Proof.
  intros Hv Hl Hok Hf Hfg. destruct (execute_any config _ f r code h Hv Hl Hok Hf) as (result & h' & He & _).
  unfold execute in *. destruct (exec sha3 f r msg code VM_init h) as [[o s1] h1] eqn:Hx.
  rewrite (exec_fuel sha3 f g r msg code VM_init h o s1 h1 Hx); [done| |done]. intros ->. done.
Qed.
End Execute.

(** ** Dispatch *)

Section Dispatch.
  Context {H : Type} `{!EvmcHost H}.
  Context (sha3 : list Z -> list Z) (cfg1 cfg2 : VMConfig).
  Context (Hopt : EVM_OPTIMIZE (VMConfig := cfg1) = EVM_OPTIMIZE (VMConfig := cfg2)).

(** Only bytes have metrics, so what was fetched is a byte. *)
Lemma fetch_byte s h s' h' : fetchInstruction (H := H) s h = (Ret tt, s', h') -> is_byte (m_OP s').
Proof.
  unfold fetchInstruction, mbind, get, put. destruct (m_code s @@ m_PC s) as [op|]; [|done]. cbn [checked mret].
  destruct (c_metrics @@ op) as [m|] eqn:Hm; [|done]. cbn [checked mret].
  pose proof (getZ_Some_range _ _ _ Hm) as Hr. change (lenZ c_metrics) with 256 in Hr.
  unfold adjustStack, throwBadStack, when, mbind, get, put, throw, mret. vm_cbn.
  repeat (match goal with |- context [if ?b then _ else _] => destruct b end; cbv beta iota; vm_cbn; try solve [intros [=]]).
  destruct (tierStepGas @@ _); intros [=]. subst. exact Hr.
Qed.

Lemma case_of_same i : case_of (config := cfg1) (H := H) sha3 i = case_of (config := cfg2) sha3 i.
Proof. destruct i; try done; cbn [case_of]; unfold case_PUSHC, case_JUMPC, case_JUMPCI; by rewrite Hopt. Qed.

Lemma interpretStep_same (s : VM) (h : H) :
  interpretStep (config := cfg1) sha3 s h = interpretStep (config := cfg2) sha3 s h.
Proof.
  unfold interpretStep, mbind. destruct (fetchInstruction s h) as [[o s'] h'] eqn:Hf.
  destruct o as [[]|e| |]; try done. apply fetch_byte in Hf.
  rewrite (dispatch_switch (config := cfg1)), (dispatch_switch (config := cfg2)) by done. by rewrite case_of_same.
Qed.

Lemma interpretCases_same fuel (s : VM) (h : H) :
  interpretCases (config := cfg1) sha3 fuel s h = interpretCases (config := cfg2) sha3 fuel s h.
Proof.
  revert s h. induction fuel as [|f IH]; intros s h; [done|]. cbn [interpretCases]. unfold mbind.
  rewrite interpretStep_same. destruct (interpretStep (config := cfg2) sha3 s h) as [[[c|e| |] s'] h']; try done.
  by destruct c.
Qed.

Lemma trampoline_same n fuel (s : VM) (h : H) :
  trampoline (config := cfg1) sha3 n fuel s h = trampoline (config := cfg2) sha3 n fuel s h.
Proof.
  revert s h. induction n as [|n IH]; intros s h; [done|]. cbn [trampoline].
  assert (bounce (config := cfg1) sha3 fuel s h = bounce (config := cfg2) sha3 fuel s h) as Hb.
  { unfold bounce, mbind, get. destruct (m_bounce s) as [[]|]; try done; [|apply interpretCases_same].
    unfold initEntry, optimize. by rewrite Hopt. }
  unfold mbind. rewrite Hb. destruct (bounce (config := cfg2) sha3 fuel s h) as [[[[]|e| |] s'] h']; try done.
  unfold get. by destruct (m_bounce s').
Qed.

(** C28. The two ways of dispatch agree.  The table of labels of
    [EVM_JUMP_DISPATCH] and the switch run the same case for every byte, so the
    result is the same for every input, well formed or not. *)
Theorem execute_dispatch fuel r msg code (h : H) :
  execute (config := cfg1) sha3 fuel r msg code h = execute (config := cfg2) sha3 fuel r msg code h.
Proof.
  unfold execute. assert (exec (config := cfg1) sha3 fuel r msg code VM_init h
    = exec (config := cfg2) sha3 fuel r msg code VM_init h) as ->; [|done].
  unfold exec, mbind, bounce_to, put. cbv beta iota. by rewrite trampoline_same.
Qed.
End Dispatch.

Example execute_total_witness :
  valid_input (test_message 0 100) test_add /\
  exists result h', execute (config := test_config true true) test_sha3 210 EVMC_BYZANTIUM
    (test_message 0 100) test_add [] = (Some result, h') /\ 0 <= gas_left result <= 100.
Proof.
  assert (valid_input (test_message 0 100) test_add) as Hv by (apply test_input; done || lia).
  split; [exact Hv|].
  destruct (execute_total (test_message 0 100) test_sha3 (test_config true true) 210 EVMC_BYZANTIUM test_add [])
    as (result & h' & He & _ & Hg & _);
    [exact Hv|intros _; vm_compute; discriminate|exact I|vm_compute; discriminate|].
  exists result, h'. exact (conj He Hg).
Defined.

Example execute_optimised_witness :
  execute (config := test_config true true) test_sha3 300 EVMC_BYZANTIUM (test_message 0 40000) test_code []
  = execute (config := test_config false true) test_sha3 300 EVMC_BYZANTIUM (test_message 0 40000) test_code [].
Proof.
  apply (execute_optimised (test_message 0 40000) test_sha3 true true 300 EVMC_BYZANTIUM test_code []).
  - apply test_input; done || lia.
  - vm_compute. discriminate.
  - exact I.
Defined.

(** [test_code] stores a word, which a static message may not do. *)
Example execute_static_witness :
  is_static (test_message 1 100) = true /\
  [] = (execute (config := test_config true true) test_sha3 210 EVMC_BYZANTIUM (test_message 1 100) test_code []).2.
Proof.
  split; [reflexivity|].
  apply (execute_static (test_message 1 100) test_sha3 (test_config true true) eq 210 EVMC_BYZANTIUM test_code []
    (HostRel0 := TestHostStatic (test_message 1 100) eq_refl)).
  - apply test_input; done || lia.
  - intros _. vm_compute. discriminate.
  - reflexivity.
  - exact I.
  - vm_compute. discriminate.
Defined.

Example execute_fuel_witness :
  execute (config := test_config true true) test_sha3 1000 EVMC_BYZANTIUM (test_message 0 100) test_add []
  = execute (config := test_config true true) test_sha3 203 EVMC_BYZANTIUM (test_message 0 100) test_add [].
Proof.
  apply (execute_fuel (test_message 0 100) test_sha3 (test_config true true) 203 1000 EVMC_BYZANTIUM test_add []).
  - apply test_input; done || lia.
  - intros _. vm_compute. discriminate.
  - exact I.
  - vm_compute. discriminate.
  - lia.
Defined.

Example execute_dispatch_witness :
  execute (config := test_config true true) test_sha3 300 EVMC_BYZANTIUM (test_message 0 40000) test_code []
  = execute (config := test_config true false) test_sha3 300 EVMC_BYZANTIUM (test_message 0 40000) test_code [].
Proof.
  apply (execute_dispatch test_sha3 (test_config true true) (test_config true false) eq_refl 300 EVMC_BYZANTIUM
    (test_message 0 40000) test_code []).
Defined.
