(* ===== verification/Result.v ===== *)
(** * Results of C++ functions

    What a function outside of the interpreter returns: a value, an exception,
    or one of the two outcomes a correct program never has, a read or write
    outside of a buffer and a loop that does not end. *)
From stdpp Require Import base list.
From Stdlib Require Import ZArith Lia.
From S2P Require Import Prelude.

Inductive result (E A : Type) : Type :=
| Value (a : A)
| Error (e : E)
| OutOfBounds
| OutOfFuel.
Arguments Value {E A} a.
Arguments Error {E A} e.
Arguments OutOfBounds {E A}.
Arguments OutOfFuel {E A}.

Declare Scope result_scope.
Delimit Scope result_scope with result.

Section Result.
  Context {E : Type}.

Definition rbind {A B} (m : result E A) (f : A -> result E B) : result E B :=
  match m with
  | Value a => f a
  | Error e => Error e
  | OutOfBounds => OutOfBounds
  | OutOfFuel => OutOfFuel
  end.

(** An array access at an index that must be valid. *)
Definition rget {A} (o : option A) : result E A :=
  match o with Some a => Value a | None => OutOfBounds end.

(** [if (b) throw e;] *)
Definition throw_if (b : bool) (e : E) : result E unit := if b then Error e else Value tt.

(** [m] returns or throws; what it returns satisfies [P]. *)
Definition returns {A} (m : result E A) (P : A -> Prop) : Prop :=
  match m with Value a => P a | Error _ => True | _ => False end.

Lemma returns_mono {A} (m : result E A) (P Q : A -> Prop) : returns m P -> (forall a, P a -> Q a) -> returns m Q.
Proof. destruct m; cbn; auto. Qed.

Lemma returns_bind {A B} (m : result E A) (f : A -> result E B) P Q :
  returns m P -> (forall a, m = Value a -> P a -> returns (f a) Q) -> returns (rbind m f) Q.
Proof. destruct m; cbn; auto. Qed.

Lemma returns_throw_if b e (P : unit -> Prop) : (b = false -> P tt) -> returns (throw_if b e) P.
Proof. destruct b; cbn; auto. Qed.

Lemma rbind_Value {A B} (m : result E A) (f : A -> result E B) b :
  rbind m f = Value b <-> exists a, m = Value a /\ f a = Value b.
Proof.
  split; [|by intros (a & -> & ?)]. destruct m as [a| | |]; cbn; try discriminate. by exists a.
Qed.

Lemma rget_Value {A} (o : option A) a : rget o = Value a <-> o = Some a.
Proof. destruct o; cbn; split; congruence. Qed.

Lemma throw_if_Value b e u : throw_if b e = Value u <-> b = false.
Proof. destruct b, u; cbn; split; congruence. Qed.
End Result.

Notation "x <- m ;; k" := (rbind m (fun x => k))
  (at level 100, m at next level, right associativity) : result_scope.
Notation "m ;; k" := (rbind m (fun _ => k)) (at level 100, right associativity) : result_scope.

(** Take an equation [_ = Value _] about a computation apart. *)
Ltac result_inv :=
  repeat match goal with
  | H : rbind _ _ = Value _ |- _ => apply rbind_Value in H as (? & ? & H)
  | H : rget _ = Value _ |- _ => apply rget_Value in H
  | H : throw_if _ _ = Value _ |- _ => apply throw_if_Value in H
  | H : Value _ = Value _ |- _ => injection H as H
  | H : Error _ = Value _ |- _ => discriminate H
  end.

(** A result for every element of a list, in order. *)
Fixpoint rmap {E A B} (f : A -> result E B) (l : list A) : result E (list B) :=
  match l with
  | [] => Value []
  | a :: l => rbind (f a) (fun b => rbind (rmap f l) (fun bs => Value (b :: bs)))
  end.

Lemma rmap_Value {E A B} (f : A -> result E B) l bs : rmap f l = Value bs <-> Forall2 (fun a b => f a = Value b) l bs.
Proof.
  split.
  - revert bs. induction l as [|a l IH]; cbn; intros bs Hm; [injection Hm as <-; constructor|].
    result_inv. subst bs. constructor; auto.
  - induction 1 as [|a b l bs Hab _ IH]; cbn; [done|]. by rewrite Hab, IH.
Qed.
