(* ===== verification/Rlp.v ===== *)
(** * Recursive length prefix encoding (libdevcore/RLP.h, RLP.cpp)

    [RLP] is a view of bytes with a cache for the last list item read;
    [RLPStream] is the writer with its stack of unfinished lists.  A
    [bytesConstRef] is the list of the bytes it refers to; where the code
    compares the pointers of two of them (the iterator) the position is kept
    beside the bytes. *)
From stdpp Require Import base list.
From Stdlib Require Import ZArith Lia.
From S2P Require Import Prelude Words Result.
Open Scope result_scope.

Inductive rlp_error : Set := BadCast | BadRLP | OversizeRLP | UndersizeRLP | RLPException.

Notation res := (result rlp_error).

(** ** Constants and flags *)

Definition c_rlpMaxLengthBytes : Z := 8.
Definition c_rlpDataImmLenStart : Z := 0x80.
Definition c_rlpListStart : Z := 0xc0.
Definition c_rlpDataImmLenCount : Z := u8 (c_rlpListStart - c_rlpDataImmLenStart - c_rlpMaxLengthBytes).
Definition c_rlpDataIndLenZero : Z := u8 (c_rlpDataImmLenStart + c_rlpDataImmLenCount - 1).
Definition c_rlpListImmLenCount : Z := u8 (256 - c_rlpListStart - c_rlpMaxLengthBytes).
Definition c_rlpListIndLenZero : Z := u8 (c_rlpListStart + c_rlpListImmLenCount - 1).

Definition AllowNonCanon : Z := 1.
Definition ThrowOnFail : Z := 4.
Definition FailIfTooBig : Z := 8.
Definition FailIfTooSmall : Z := 16.
Definition Strict : Z := Z.lor ThrowOnFail FailIfTooBig.
Definition VeryStrict : Z := Z.lor (Z.lor ThrowOnFail FailIfTooBig) FailIfTooSmall.
Definition LaissezFaire : Z := AllowNonCanon.
Definition flag (f flags : Z) : bool := negb (Z.land flags f =? 0).

(** [vector_ref::cropped]: an empty view when the range leaves the data. *)
Definition cropped (begin count : Z) (d : list Z) : list Z :=
  if (begin <=? lenZ d) && (count <=? lenZ d) && (u64 (begin + count) <=? lenZ d)
  then take (Z.to_nat count) (drop (Z.to_nat begin) d) else [].
Definition cropped_from (begin : Z) (d : list Z) : list Z :=
  if begin <=? lenZ d then drop (Z.to_nat begin) d else [].

(** ** Reading *)

Definition isNull (d : list Z) : bool := lenZ d =? 0.

Definition first_byte (d : list Z) : Z := match d with [] => 0 | b :: _ => b end.

Definition isEmpty (d : list Z) : bool :=
  negb (isNull d) && ((first_byte d =? c_rlpDataImmLenStart) || (first_byte d =? c_rlpListStart)).
Definition isData (d : list Z) : bool := negb (isNull d) && (first_byte d <? c_rlpListStart).
Definition isList (d : list Z) : bool := negb (isNull d) && (c_rlpListStart <=? first_byte d).
Definition isSingleByte (d : list Z) : bool := negb (isNull d) && (first_byte d <? c_rlpDataImmLenStart).

Definition lengthSize (d : list Z) : Z :=
  if isData d && (c_rlpDataIndLenZero <? first_byte d) then first_byte d - c_rlpDataIndLenZero
  else if isList d && (c_rlpListIndLenZero <? first_byte d) then first_byte d - c_rlpListIndLenZero
  else 0.

Definition requireGood (d : list Z) : res unit :=
  throw_if (isNull d) BadRLP ;;
  n <- rget (d @@ 0) ;;
  if negb (n =? c_rlpDataImmLenStart + 1) then Value tt
  else
    throw_if (lenZ d <? 2) BadRLP ;;
    b <- rget (d @@ 1) ;;
    throw_if (b <? c_rlpDataImmLenStart) BadRLP.

Definition isInt (d : list Z) : res bool :=
  if isNull d then Value false
  else
    requireGood d ;;
    n <- rget (d @@ 0) ;;
    if n <? c_rlpDataImmLenStart then Value (negb (n =? 0))
    else if n =? c_rlpDataImmLenStart then Value true
    else if n <=? c_rlpDataIndLenZero then
      throw_if (lenZ d <=? 1) BadRLP ;;
      b <- rget (d @@ 1) ;;
      Value (negb (b =? 0))
    else if n <? c_rlpListStart then
      throw_if (lenZ d <=? 1 + n - c_rlpDataIndLenZero) BadRLP ;;
      b <- rget (d @@ (1 + n - c_rlpDataIndLenZero)) ;;
      Value (negb (b =? 0))
    else Value false.

(** [for (unsigned i = 0; i < lengthSize; ++i) ret = (ret << 8) | m_data[i + 1];] *)
Fixpoint length_loop (n : nat) (i : Z) (d : list Z) (ret : Z) : res Z :=
  match n with
  | O => Value ret
  | S n' => b <- rget (d @@ (i + 1)) ;; length_loop n' (i + 1) d (Z.lor (u64 (Z.shiftl ret 8)) b)
  end.

(** The branches of [length] for a length that is itself encoded. *)
Definition long_length (lengthSize limit : Z) (d : list Z) : res Z :=
  throw_if (lenZ d <=? lengthSize) BadRLP ;;
  (if 1 <? lenZ d then b <- rget (d @@ 1) ;; throw_if (b =? 0) BadRLP else Value tt) ;;
  throw_if (8 <? lengthSize) UndersizeRLP ;;
  b1 <- rget (d @@ 1) ;;
  throw_if (b1 =? 0) BadRLP ;;
  ret <- length_loop (Z.to_nat lengthSize) 0 d 0 ;;
  throw_if (ret <? limit) BadRLP ;;
  throw_if (2 ^ 64 - 1 - 0x100 <=? ret) UndersizeRLP ;;
  Value ret.

Definition rlp_length (d : list Z) : res Z :=
  if isNull d then Value 0
  else
    requireGood d ;;
    n <- rget (d @@ 0) ;;
    if n <? c_rlpDataImmLenStart then Value 1
    else if n <=? c_rlpDataIndLenZero then Value (n - c_rlpDataImmLenStart)
    else if n <? c_rlpListStart then
      long_length (n - c_rlpDataIndLenZero) (c_rlpListStart - c_rlpDataImmLenStart - c_rlpMaxLengthBytes) d
    else if n <=? c_rlpListIndLenZero then Value (n - c_rlpListStart)
    else long_length (n - c_rlpListIndLenZero) (0x100 - c_rlpListStart - c_rlpMaxLengthBytes) d.

Definition payloadOffset (d : list Z) : Z := if isSingleByte d then 0 else 1 + lengthSize d.

Definition payload (d : list Z) : res (list Z) :=
  l <- rlp_length d ;;
  throw_if (lenZ d <? l) BadRLP ;;
  Value (cropped (payloadOffset d) l d).

Definition actualSize (d : list Z) : res Z :=
  if isNull d then Value 0
  else if isSingleByte d then Value 1
  else if isData d || isList d then l <- rlp_length d ;; Value (u64 (payloadOffset d + l))
  else Value 0.

(** [RLP(bytesConstRef, Strictness)]: the data of the new object. *)
Definition mkRLP (s : Z) (d : list Z) : res (list Z) :=
  m <- (if flag FailIfTooBig s
        then n <- actualSize d ;;
             if n <? lenZ d then (if flag ThrowOnFail s then Error OversizeRLP else Value []) else Value d
        else Value d) ;;
  if flag FailIfTooSmall s
  then n <- actualSize m ;;
       if lenZ d <? n then (if flag ThrowOnFail s then Error UndersizeRLP else Value []) else Value m
  else Value m.

Definition sizeAsEncoded (d : list Z) : res Z :=
  r <- mkRLP (Z.lor ThrowOnFail FailIfTooSmall) d ;; actualSize r.

(** [for (; d.size(); ++i) d = d.cropped(sizeAsEncoded(d));] *)
Fixpoint items_loop (fuel : nat) (d : list Z) (i : Z) : res Z :=
  match fuel with
  | O => OutOfFuel
  | S f =>
      if lenZ d =? 0 then Value i
      else n <- sizeAsEncoded d ;; items_loop f (cropped_from n d) (i + 1)
  end.
Definition items (d : list Z) : res Z :=
  if isList d then p <- payload d ;; items_loop (S (length p)) p 0 else Value 0.

Definition itemCount (d : list Z) : res Z := if isList d then items d else Value 0.
Definition itemCountStrict (d : list Z) : res Z := throw_if (negb (isList d)) BadCast ;; items d.
Definition rlp_size (d : list Z) : res Z := if isData d then rlp_length d else Value 0.
Definition sizeStrict (d : list Z) : res Z := throw_if (negb (isData d)) BadCast ;; rlp_length d.

(** The object: its data and the cache of the last item read. *)
Record RLP := mkRLPObject {
  m_data : list Z;
  m_lastIndex : Z;
  m_lastEnd : Z;
  m_lastItem : list Z
}.
Definition fresh_RLP (d : list Z) : RLP := mkRLPObject d (2 ^ 64 - 1) 0 [].

(** [for (; m_lastIndex < _i && m_lastItem.size(); ++m_lastIndex) ...] *)
Fixpoint subscript_loop (fuel : nat) (i : Z) (r : RLP) : res RLP :=
  match fuel with
  | O => OutOfFuel
  | S f =>
      if (m_lastIndex r <? i) && negb (lenZ (m_lastItem r) =? 0) then
        p <- payload (m_data r) ;;
        let item := cropped_from (m_lastEnd r) p in
        n <- sizeAsEncoded item ;;
        let item := cropped 0 n item in
        subscript_loop f i (mkRLPObject (m_data r) (m_lastIndex r + 1) (u64 (m_lastEnd r + lenZ item)) item)
      else Value r
  end.

(** [RLP::operator[]]: the item, and the object with its cache moved.  When it
    throws the object is given up, as its users do; C++ has moved the cache part of
    the way. *)
Definition subscript (i : Z) (r : RLP) : res (list Z * RLP) :=
  r1 <- (if i <? m_lastIndex r
         then p <- payload (m_data r) ;;
              n <- sizeAsEncoded p ;;
              Value (mkRLPObject (m_data r) 0 n (cropped 0 n p))
         else Value r) ;;
  r2 <- subscript_loop (S (S (length (m_data r1)))) i r1 ;;
  d <- mkRLP (Z.lor ThrowOnFail FailIfTooSmall) (m_lastItem r2) ;;
  Value (d, r2).

(** ** Iterators

    [m_currentItem] is the range [it_count] bytes long at [it_pos] of the data;
    the pointer it is compared by is [it_pos].  The code crops to the null
    reference when an item goes past the data; here the position stays, and no
    theorem speaks of such data. *)
Record iterator := mkIterator { it_pos : Z; it_count : Z; it_remaining : Z }.

Definition view (pos count : Z) (d : list Z) : list Z := take (Z.to_nat count) (drop (Z.to_nat pos) d).

Definition iterator_begin (d : list Z) : res iterator :=
  if isList d then
    p <- payload d ;;
    n <- sizeAsEncoded p ;;
    Value (mkIterator (payloadOffset d) (lenZ (cropped 0 n p)) (lenZ p - lenZ (cropped 0 n p)))
  else Value (mkIterator (lenZ d) 0 0).

Definition iterator_end (d : list Z) : iterator := mkIterator (lenZ d) 0 0.

Definition iterator_next (d : list Z) (it : iterator) : res iterator :=
  if negb (it_remaining it =? 0) then
    let pos := it_pos it + it_count it in
    let cur := view pos (it_remaining it) d in
    n <- sizeAsEncoded cur ;;
    let c := lenZ (cropped 0 n cur) in
    Value (mkIterator pos c (it_remaining it - Z.min (it_remaining it) c))
  else Value (mkIterator (it_pos it + it_count it) 0 0).

(** [for (auto const& i: *this) ret.push_back(i);] *)
Fixpoint toList_loop (fuel : nat) (d : list Z) (it : iterator) (ret : list (list Z)) : res (list (list Z)) :=
  match fuel with
  | O => OutOfFuel
  | S f =>
      if (it_pos it =? it_pos (iterator_end d)) && (it_count it =? it_count (iterator_end d)) then Value ret
      else
        r <- mkRLP VeryStrict (view (it_pos it) (it_count it) d) ;;
        it' <- iterator_next d it ;;
        toList_loop f d it' (ret ++ [r])
  end.
Definition toList_fuel (fuel : nat) (flags : Z) (d : list Z) : res (list (list Z)) :=
  if negb (isList d) then (if flag ThrowOnFail flags then Error BadCast else Value [])
  else it <- iterator_begin d ;; toList_loop fuel d it [].
Definition toList (flags : Z) (d : list Z) : res (list (list Z)) := toList_fuel (S (length d)) flags d.

(** ** Conversions *)

Definition toBytes (flags : Z) (d : list Z) : res (list Z) :=
  if negb (isData d) then (if flag ThrowOnFail flags then Error BadCast else Value [])
  else p <- payload d ;; l <- rlp_length d ;; rget (slice 0 l p).

Definition toString (flags : Z) (d : list Z) : res (list Z) :=
  if negb (isData d) then (if flag ThrowOnFail flags then Error BadCast else Value [])
  else p <- payload d ;; l <- rlp_length d ;; Value (cropped 0 l p).

(** The integer types: their size in bytes and their wrap-around. *)
Record IntType := mkIntType { maxSize : Z; wrap : Z -> Z }.
Definition T_uint8 : IntType := mkIntType 1 u8.
Definition T_uint16 : IntType := mkIntType 2 u16.
Definition T_uint32 : IntType := mkIntType 4 u32.
Definition T_uint64 : IntType := mkIntType 8 u64.
Definition T_u160 : IntType := mkIntType 20 (fun z => z mod 2 ^ 160).
Definition T_u256 : IntType := mkIntType 32 u256.
Definition T_bigint : IntType := mkIntType (2 ^ 32 - 1) (fun z => z).

Definition fromBigEndianT (T : IntType) (bytes : list Z) : Z :=
  foldl (fun ret i => wrap T (Z.lor (Z.shiftl ret 8) i)) 0 bytes.

Definition toInt (T : IntType) (flags : Z) (d : list Z) : res Z :=
  requireGood d ;;
  int <- isInt d ;;
  if (negb int && negb (flag AllowNonCanon flags)) || isList d || isNull d
  then (if flag ThrowOnFail flags then Error BadCast else Value 0)
  else
    p <- payload d ;;
    if (maxSize T <? lenZ p) && flag FailIfTooBig flags
    then (if flag ThrowOnFail flags then Error BadCast else Value 0)
    else Value (fromBigEndianT T p).

(** [toHash]: right aligned in [N] bytes. *)
Definition toHash (N flags : Z) (d : list Z) : res (list Z) :=
  requireGood d ;;
  p <- payload d ;;
  let l := lenZ p in
  if negb (isData d) || ((N <? l) && flag FailIfTooBig flags) || ((l <? N) && flag FailIfTooSmall flags)
  then (if flag ThrowOnFail flags then Error BadCast else Value (replicate (Z.to_nat N) 0))
  else
    let s := Z.min N l in
    Value (replicate (Z.to_nat (N - s)) 0 ++ take (Z.to_nat s) p).

(** ** Writing *)

Record RLPStream := mkRLPStream { m_out : list Z; m_listStack : list (Z * Z) }.

(** [m_listStack.back()] is the head of the list. *)
Definition empty_stream : RLPStream := mkRLPStream [] [].

(** [for (; _i != 0; ++i, _i >>= 8) {}] *)
Fixpoint bytesRequired_loop (fuel : nat) (i : Z) (n : Z) : Z :=
  match fuel with
  | O => n
  | S f => if i =? 0 then n else bytesRequired_loop f (Z.shiftr i 8) (n + 1)
  end.
Definition bytesRequired (i : Z) : Z := bytesRequired_loop (S (Z.to_nat (Z.log2 i))) i 0.

(** [for (; _i; _i >>= 8) *(b--) = (byte)_i;] *)
Fixpoint pushInt_loop (fuel : nat) (i b : Z) (out : list Z) : res (list Z) :=
  match fuel with
  | O => OutOfFuel
  | S f =>
      if i =? 0 then Value out
      else if (0 <=? b) && (b <? lenZ out) then pushInt_loop f (Z.shiftr i 8) (b - 1) (upd out b (u8 i))
      else OutOfBounds
  end.
Definition pushInt (i br : Z) (out : list Z) : res (list Z) :=
  let out := resize (lenZ out + br) out in
  pushInt_loop (S (S (Z.to_nat (Z.log2 i)))) i (lenZ out - 1) out.

(** The header of a list, written over the bytes [memmove] made room for. *)
Definition list_header (s p : Z) (out : list Z) : res (list Z) :=
  let brs := bytesRequired s in
  let encodeSize := if s <? c_rlpListImmLenCount then 1 else 1 + brs in
  let out' := take (Z.to_nat p) out ++ replicate (Z.to_nat encodeSize) 0 ++ drop (Z.to_nat p) out in
  if s <? c_rlpListImmLenCount then Value (upd out' p (u8 (c_rlpListStart + s)))
  else if c_rlpListIndLenZero + brs <=? 0xff then
    pushInt_loop (S (S (Z.to_nat (Z.log2 s)))) s (p + brs) (upd out' p (u8 (c_rlpListIndLenZero + brs)))
  else Error RLPException.

(** The loop of [noteAppended] over the stack of lists. *)
Fixpoint noteAppended_loop (count : Z) (out : list Z) (stack : list (Z * Z)) : res RLPStream :=
  match stack with
  | [] => Value (mkRLPStream out [])
  | (remaining, p) :: rest =>
      throw_if (remaining <? count) RLPException ;;
      let remaining := remaining - count in
      if negb (remaining =? 0) then Value (mkRLPStream out ((remaining, p) :: rest))
      else
        out <- list_header (lenZ out - p) p out ;;
        noteAppended_loop 1 out rest
  end.
Definition noteAppended (itemCount : Z) (s : RLPStream) : res RLPStream :=
  if itemCount =? 0 then Value s else noteAppended_loop itemCount (m_out s) (m_listStack s).

Definition push_back (b : Z) (s : RLPStream) : RLPStream := mkRLPStream (m_out s ++ [u8 b]) (m_listStack s).

Definition appendRaw (bytes : list Z) (itemCount : Z) (s : RLPStream) : res RLPStream :=
  noteAppended itemCount (mkRLPStream (m_out s ++ bytes) (m_listStack s)).

Definition pushCount (count base : Z) (s : RLPStream) : res RLPStream :=
  let br := bytesRequired count in
  throw_if (0xff <? br + base) RLPException ;;
  out <- pushInt count br (m_out (push_back (br + base) s)) ;;
  Value (mkRLPStream out (m_listStack s)).

(** [appendList(bytesConstRef)] and [appendList(size_t)]. *)
Definition appendList_bytes (rlp : list Z) (s : RLPStream) : res RLPStream :=
  s <- (if lenZ rlp <? c_rlpListImmLenCount then Value (push_back (lenZ rlp + c_rlpListStart) s)
        else pushCount (lenZ rlp) c_rlpListIndLenZero s) ;;
  appendRaw rlp 1 s.
Definition appendList (n : Z) (s : RLPStream) : res RLPStream :=
  if negb (n =? 0) then Value (mkRLPStream (m_out s) ((n, lenZ (m_out s)) :: m_listStack s))
  else appendList_bytes [] s.

(** [for (size_t i = 0; i < _s.size() && !*d; ++i, --s, ++d) {}] *)
Fixpoint strip_zeros (bytes : list Z) : list Z :=
  match bytes with
  | b :: rest => if b =? 0 then strip_zeros rest else bytes
  | [] => []
  end.

Definition append_bytes (compact : bool) (bytes : list Z) (s : RLPStream) : res RLPStream :=
  let d := if compact then strip_zeros bytes else bytes in
  let n := lenZ d in
  s <- (if (n =? 1) && (first_byte d <? c_rlpDataImmLenStart) then Value (push_back (first_byte d) s)
        else
          s <- (if n <? c_rlpDataImmLenCount then Value (push_back (n + c_rlpDataImmLenStart) s)
                else pushCount n c_rlpDataIndLenZero s) ;;
          appendRaw d 0 s) ;;
  noteAppended 1 s.

Definition append_int (i : Z) (s : RLPStream) : res RLPStream :=
  s <- (if i =? 0 then Value (push_back c_rlpDataImmLenStart s)
        else if i <? c_rlpDataImmLenStart then Value (push_back i s)
        else
          let br := bytesRequired i in
          s <- (if br <? c_rlpDataImmLenCount then Value (push_back (br + c_rlpDataImmLenStart) s)
                else
                  let brbr := bytesRequired br in
                  throw_if (0xff <? c_rlpDataIndLenZero + brbr) RLPException ;;
                  out <- pushInt br brbr (m_out (push_back (c_rlpDataIndLenZero + brbr) s)) ;;
                  Value (mkRLPStream out (m_listStack s))) ;;
          out <- pushInt i br (m_out s) ;;
          Value (mkRLPStream out (m_listStack s))) ;;
  noteAppended 1 s.

Definition stream_out (s : RLPStream) : res (list Z) :=
  match m_listStack s with [] => Value (m_out s) | _ => Error RLPException end.

(** [rlp(_t)]: the encoding of one item. *)
Definition rlp_of (append : RLPStream -> res RLPStream) : res (list Z) :=
  s <- append empty_stream ;; stream_out s.

(** ** Trees of items

    What the callers do with the writer: a list is opened with the number of
    its items ([RLPStream(n)], [appendList(n)], [appendVector]) and the items
    follow. *)
Inductive item : Set :=
| Str (bytes : list Z)
| Lst (items : list item).

Fixpoint append_item (it : item) (s : RLPStream) : res RLPStream :=
  match it with
  | Str bs => append_bytes false bs s
  | Lst l =>
      s <- appendList (lenZ l) s ;;
      (fix append_items (l : list item) (s : RLPStream) : res RLPStream :=
         match l with
         | [] => Value s
         | it :: l => s <- append_item it s ;; append_items l s
         end) l s
  end.

Fixpoint append_items (l : list item) (s : RLPStream) : res RLPStream :=
  match l with
  | [] => Value s
  | it :: l => s <- append_item it s ;; append_items l s
  end.
