(* ===== verification/RlpSpec.v ===== *)
(** * What the RLP reader and writer compute

    The abstract items, their canonical encoding, and the two facts everything
    else follows from: the writer produces the canonical header, and the reader
    accepts exactly the canonical headers. *)
From stdpp Require Import base list.
From Stdlib Require Import ZArith Lia.
From S2P Require Import Prelude Words Result Rlp.
Open Scope result_scope.

(** ** Items and their encoding *)

(** The length prefix: one byte up to 55, the big-endian length beyond. *)
Definition header (base n : Z) : list Z :=
  if n <? 56 then [base + n] else (base + 55 + byte_size n) :: toBigEndian (Z.to_nat (byte_size n)) n.

Definition encode_str (bs : list Z) : list Z :=
  match bs with
  | [b] => if b <? 0x80 then [b] else header 0x80 1 ++ [b]
  | _ => header 0x80 (lenZ bs) ++ bs
  end.

Fixpoint encode (it : item) : list Z :=
  match it with
  | Str bs => encode_str bs
  | Lst l => let p := concat (map encode l) in header 0xc0 (lenZ p) ++ p
  end.

(** Induction on items, with the hypothesis for every member of a list. *)
Lemma item_ind_all (P : item -> Prop) :
  (forall bs, P (Str bs)) -> (forall l, Forall P l -> P (Lst l)) -> forall it, P it.
Proof.
  intros HS HL. fix IH 1. intros [bs|l]; [apply HS|apply HL].
  induction l as [|it l IHl]; constructor; [apply IH|exact IHl].
Qed.

(** Every string of the item is made of bytes. *)
Inductive item_ok : item -> Prop :=
| ok_str bs : Forall (fun b => is_byte b) bs -> item_ok (Str bs)
| ok_lst l : Forall item_ok l -> item_ok (Lst l).

(** ** Big-endian lengths *)

Lemma byte_size_pos n : 0 < n -> 1 <= byte_size n /\ 2 ^ (8 * (byte_size n - 1)) <= n < 2 ^ (8 * byte_size n).
Proof.
  intros Hn. unfold byte_size. destruct (Z.eqb_spec n 0); [lia|].
  pose proof (Z.log2_nonneg n). pose proof (Z.log2_spec n Hn) as [H1 H2].
  pose proof (Z.div_mod (Z.log2 n) 8 ltac:(lia)). pose proof (Z.mod_pos_bound (Z.log2 n) 8 ltac:(lia)).
  assert (0 <= Z.log2 n / 8) by (apply Z.div_pos; lia).
  split; [lia|]. split.
  - etransitivity; [|exact H1]. apply Z.pow_le_mono_r; lia.
  - eapply Z.lt_le_trans; [exact H2|]. apply Z.pow_le_mono_r; lia.
Qed.

(** [n] is at least [8 * k] bits long exactly when it has more than [k] bytes. *)
Lemma byte_size_unique n k : 1 <= k -> 2 ^ (8 * (k - 1)) <= n < 2 ^ (8 * k) -> byte_size n = k.
Proof.
  intros Hk [H1 H2]. assert (0 < n) as Hn by (pose proof (Z.pow_pos_nonneg 2 (8 * (k - 1))); lia).
  destruct (byte_size_pos n Hn) as (Hb & H3 & H4).
  destruct (Z.lt_trichotomy (byte_size n) k) as [Hlt|[|Hlt]]; [|done|].
  - assert (2 ^ (8 * byte_size n) <= 2 ^ (8 * (k - 1))) by (apply Z.pow_le_mono_r; lia). lia.
  - assert (2 ^ (8 * k) <= 2 ^ (8 * (byte_size n - 1))) by (apply Z.pow_le_mono_r; lia). lia.
Qed.

Lemma byte_size_le n k : 0 <= k -> 0 <= n < 2 ^ (8 * k) -> 0 <= byte_size n <= k.
Proof.
  intros Hk [H0 H1]. destruct (Z.eq_dec n 0) as [->|]; [change (byte_size 0) with 0; lia|].
  destruct (byte_size_pos n) as (Hb & H3 & H4); [lia|]. split; [lia|].
  destruct (Z.le_gt_cases (byte_size n) k); [done|].
  assert (2 ^ (8 * k) <= 2 ^ (8 * (byte_size n - 1))) by (apply Z.pow_le_mono_r; lia). lia.
Qed.

Lemma byte_size_shiftr n : 0 < n -> byte_size (Z.shiftr n 8) = byte_size n - 1.
Proof.
  intros Hn. rewrite Z.shiftr_div_pow2 by lia. change (2 ^ 8) with 256.
  destruct (byte_size_pos n Hn) as (Hb & H3 & H4). destruct (Z.eq_dec (byte_size n) 1) as [He|].
  - rewrite He in *. rewrite Z.div_small by lia. done.
  - apply byte_size_unique; [lia|].
    assert (2 ^ (8 * (byte_size n - 1)) = 2 ^ (8 * (byte_size n - 1 - 1)) * 256) as E1
      by (rewrite <- (Z.pow_add_r 2 _ 8) by lia; f_equal; lia).
    assert (2 ^ (8 * byte_size n) = 2 ^ (8 * (byte_size n - 1)) * 256) as E2
      by (rewrite <- (Z.pow_add_r 2 _ 8) by lia; f_equal; lia).
    split; [apply Z.div_le_lower_bound; lia|apply Z.div_lt_upper_bound; lia].
Qed.

Lemma shiftr_fuel i f : 0 <= i < 2 ^ (8 * Z.of_nat (S f)) -> 0 <= Z.shiftr i 8 < 2 ^ (8 * Z.of_nat f).
Proof.
  intros Hi. rewrite Z.shiftr_div_pow2 by lia. split; [apply Z.div_pos; lia|]. apply Z.div_lt_upper_bound; [lia|].
  rewrite <- Z.pow_add_r by lia. replace (8 + 8 * Z.of_nat f) with (8 * Z.of_nat (S f)) by lia. lia.
Qed.

(** The loop of [bytesRequired] counts the bytes. *)
Lemma bytesRequired_loop_spec fuel i n : 0 <= i < 2 ^ (8 * Z.of_nat fuel) ->
  bytesRequired_loop fuel i n = n + byte_size i.
Proof.
  revert i n. induction fuel as [|f IH]; intros i n Hi; cbn [bytesRequired_loop].
  { assert (i = 0) as -> by (change (2 ^ (8 * Z.of_nat 0)) with 1 in Hi; lia). change (byte_size 0) with 0. lia. }
  destruct (Z.eqb_spec i 0) as [->|]; [change (byte_size 0) with 0; lia|].
  rewrite IH by (by apply shiftr_fuel). rewrite byte_size_shiftr by lia. lia.
Qed.

Lemma fuel_bits i : 0 <= i -> i < 2 ^ (8 * Z.of_nat (S (Z.to_nat (Z.log2 i)))).
Proof.
  intros Hi. pose proof (Z.log2_nonneg i). destruct (Z.eq_dec i 0) as [->|]; [lia|].
  pose proof (Z.log2_spec i ltac:(lia)) as [_ H2]. eapply Z.lt_le_trans; [exact H2|]. apply Z.pow_le_mono_r; lia.
Qed.

Lemma bytesRequired_spec i : 0 <= i -> bytesRequired i = byte_size i.
Proof. intros Hi. unfold bytesRequired. rewrite bytesRequired_loop_spec; [lia|]. split; [done|by apply fuel_bits]. Qed.

(** The backwards loop of [pushInt] writes the big-endian form. *)
Lemma pushInt_loop_spec fuel i out rest :
  0 <= i < 2 ^ (8 * Z.of_nat fuel) -> byte_size i <= lenZ out ->
  pushInt_loop (S fuel) i (lenZ out - 1) (out ++ rest)
  = Value (take (Z.to_nat (lenZ out - byte_size i)) out ++ toBigEndian (Z.to_nat (byte_size i)) i ++ rest).
Proof.
  revert i out rest. induction fuel as [|f IH]; intros i out rest Hi Hb.
  { assert (i = 0) as -> by (change (2 ^ (8 * Z.of_nat 0)) with 1 in Hi; lia). change (byte_size 0) with 0.
    cbn. rewrite Z.sub_0_r. unfold lenZ. by rewrite Nat2Z.id, firstn_all. }
  remember (S f) as f'. cbn [pushInt_loop]. subst f'. destruct (Z.eqb_spec i 0) as [->|].
  { change (byte_size 0) with 0. cbn. rewrite Z.sub_0_r. unfold lenZ. by rewrite Nat2Z.id, firstn_all. }
  destruct (byte_size_pos i) as (Hb1 & _); [lia|].
  destruct out as [|x o _] using rev_ind; [unfold lenZ in Hb; cbn in Hb; lia|].
  assert (lenZ (o ++ [x]) = lenZ o + 1) as Hl by (unfold lenZ; rewrite length_app; cbn; lia).
  rewrite Hl in *. pose proof (lenZ_nonneg o). pose proof (lenZ_nonneg rest).
  assert (lenZ ((o ++ [x]) ++ rest) = lenZ o + 1 + lenZ rest) as Hl2
    by (unfold lenZ in *; rewrite length_app; lia).
  rewrite Hl2. destruct (Z.leb_spec 0 (lenZ o + 1 - 1)), (Z.ltb_spec (lenZ o + 1 - 1) (lenZ o + 1 + lenZ rest)); try lia.
  cbn [andb]. replace (lenZ o + 1 - 1) with (lenZ o) by lia.
  assert (upd ((o ++ [x]) ++ rest) (lenZ o) (u8 i) = o ++ u8 i :: rest) as ->.
  { unfold upd, lenZ. rewrite Nat2Z.id, <- app_assoc. cbn [app].
    rewrite insert_app_r_alt by lia. by rewrite Nat.sub_diag. }
  pose proof (shiftr_fuel i f Hi) as Hs.
  rewrite (IH _ o (u8 i :: rest)) by (rewrite ?byte_size_shiftr by lia; lia || done).
  rewrite byte_size_shiftr by lia. f_equal.
  replace (Z.to_nat (byte_size i)) with (S (Z.to_nat (byte_size i - 1))) by lia.
  rewrite toBigEndian_S, <- app_assoc. cbn [app].
  replace (Z.to_nat (lenZ o - (byte_size i - 1))) with (Z.to_nat (lenZ o + 1 - byte_size i)) by lia.
  rewrite take_app_le by (unfold lenZ in *; lia). do 3 f_equal.
  unfold u8. change 255 with (Z.ones 8). rewrite Z.land_ones by lia. by rewrite Z.mod_mod by lia.
Qed.

(** ** The writer *)

Lemma lenZ_app {A} (l k : list A) : lenZ (l ++ k) = lenZ l + lenZ k.
Proof. unfold lenZ. rewrite length_app. lia. Qed.

Lemma lenZ_cons {A} (x : A) l : lenZ (x :: l) = 1 + lenZ l.
Proof. unfold lenZ. cbn [length]. lia. Qed.

Lemma lenZ_toBigEndian n v : 0 <= n -> lenZ (toBigEndian (Z.to_nat n) v) = n.
Proof. intros. unfold lenZ. rewrite toBigEndian_length. lia. Qed.

Lemma pushInt_spec i out : 0 <= i ->
  pushInt i (byte_size i) out = Value (out ++ toBigEndian (Z.to_nat (byte_size i)) i).
Proof.
  intros Hi. pose proof (byte_size_le i (Z.log2 i + 1)) as Hb. pose proof (Z.log2_nonneg i).
  assert (0 <= byte_size i) as H0 by (unfold byte_size; case_match; [lia|]; pose proof (Z.div_pos (Z.log2 i) 8); lia).
  unfold pushInt. set (o := resize (lenZ out + byte_size i) out).
  assert (lenZ o = lenZ out + byte_size i) as Hl by (apply resize_length; lia).
  rewrite <- (app_nil_r o) at 2. rewrite pushInt_loop_spec; [|split; [done|by apply fuel_bits]|pose proof (lenZ_nonneg out); lia].
  rewrite Hl, app_nil_r. f_equal. f_equal. subst o. unfold resize.
  replace (Z.to_nat (lenZ out + byte_size i - byte_size i)) with (length out) by (unfold lenZ; lia).
  apply take_app_length.
Qed.

Lemma pushCount_spec count base s :
  0 <= count < 2 ^ 64 -> 0 <= base -> base + byte_size count <= 255 ->
  pushCount count base s
  = Value (mkRLPStream (m_out s ++ (base + byte_size count) :: toBigEndian (Z.to_nat (byte_size count)) count) (m_listStack s)).
Proof.
  intros Hc Hb Hs. unfold pushCount. rewrite bytesRequired_spec by lia.
  pose proof (byte_size_le count 8 ltac:(lia) ltac:(lia)).
  destruct (Z.ltb_spec 0xff (byte_size count + base)); [lia|]. cbn [throw_if rbind]. unfold push_back. cbn [m_out].
  rewrite pushInt_spec by lia. cbn [rbind]. rewrite <- app_assoc. cbn [app]. do 3 f_equal.
  unfold u8. rewrite Z.mod_small by lia. f_equal. lia.
Qed.

(** The header that [noteAppended] inserts. *)
Lemma list_header_spec s p out :
  0 <= p <= lenZ out -> s = lenZ out - p -> s < 2 ^ 64 ->
  list_header s p out = Value (take (Z.to_nat p) out ++ header 0xc0 s ++ drop (Z.to_nat p) out).
Proof.
  intros Hp Hs Hmax. unfold list_header. rewrite bytesRequired_spec by lia. unfold header.
  change c_rlpListImmLenCount with 56. change c_rlpListStart with 0xc0. change c_rlpListIndLenZero with 0xf7.
  assert (length (take (Z.to_nat p) out) = Z.to_nat p) as Hlt by (rewrite length_take; unfold lenZ in *; lia).
  pose proof (byte_size_le s 8 ltac:(lia) ltac:(lia)).
  destruct (Z.ltb_spec s 56).
  - unfold upd. rewrite insert_app_r_alt by lia. rewrite Hlt, Nat.sub_diag. cbn.
    unfold u8. by rewrite Z.mod_small by lia.
  - destruct (byte_size_pos s ltac:(lia)) as [Hb1 _]. destruct (Z.leb_spec (0xf7 + byte_size s) 0xff); [|lia].
    replace (Z.to_nat (1 + byte_size s)) with (S (Z.to_nat (byte_size s))) by lia.
    unfold upd. rewrite insert_app_r_alt by lia. rewrite Hlt, Nat.sub_diag. cbn [replicate app list_insert].
    set (o := take (Z.to_nat p) out ++ (u8 (0xf7 + byte_size s) :: replicate (Z.to_nat (byte_size s)) 0)).
    assert (lenZ o = p + 1 + byte_size s) as Hl
      by (subst o; unfold lenZ; rewrite length_app, Hlt; cbn [length]; rewrite length_replicate; lia).
    match goal with |- pushInt_loop ?f ?i ?b ?l = _ =>
      replace l with (o ++ drop (Z.to_nat p) out) by (subst o; by rewrite <- app_assoc);
      replace b with (lenZ o - 1) by lia end.
    rewrite pushInt_loop_spec; [|split; [lia|apply fuel_bits; lia]|lia]. rewrite Hl. f_equal.
    replace (Z.to_nat (p + 1 + byte_size s - byte_size s)) with (S (length (take (Z.to_nat p) out))) by lia.
    subst o. rewrite take_app_ge by lia.
    replace (S (length (take (Z.to_nat p) out)) - length (take (Z.to_nat p) out))%nat with 1%nat by lia.
    cbn [take]. rewrite <- app_assoc. cbn [app].
    unfold u8. rewrite Z.mod_small by lia. do 3 f_equal.
Qed.

Lemma append_bytes_spec bs s :
  Forall (fun b => is_byte b) bs -> lenZ bs < 2 ^ 64 ->
  append_bytes false bs s = noteAppended 1 (mkRLPStream (m_out s ++ encode_str bs) (m_listStack s)).
Proof.
  intros Hb Hl. unfold append_bytes. cbv zeta. change c_rlpDataImmLenStart with 0x80.
  change c_rlpDataImmLenCount with 56. change c_rlpDataIndLenZero with 0xb7. pose proof (lenZ_nonneg bs).
  assert (forall P : Prop, (lenZ bs = 1 /\ first_byte bs < 0x80 -> P) -> (~ (lenZ bs = 1 /\ first_byte bs < 0x80) ->
    encode_str bs = header 0x80 (lenZ bs) ++ bs -> P) -> P) as Hcase.
  { intros P H1 H2. destruct (decide (lenZ bs = 1 /\ first_byte bs < 0x80)) as [|Hn]; [auto|]. apply H2; [done|].
    destruct bs as [|b [|c bs]]; try done. cbn [first_byte] in Hn. cbn [encode_str].
    destruct (Z.ltb_spec b 0x80); [|done]. destruct Hn. by split. }
  apply Hcase.
  - intros [H1 Hf]. rewrite H1. destruct (Z.ltb_spec (first_byte bs) 0x80); [|lia]. cbn [Z.eqb andb rbind].
    destruct bs as [|b [|c bs]]; try discriminate. cbn [first_byte] in *. apply Forall_cons_1 in Hb as [Hb _].
    unfold push_back. cbn [encode_str]. destruct (Z.ltb_spec b 0x80); [|lia].
    unfold u8. rewrite Z.mod_small by lia. done.
    unfold lenZ in H1; cbn in H1; lia.
  - intros Hn ->. assert ((lenZ bs =? 1) && (first_byte bs <? 128) = false) as ->
      by (apply andb_false_iff; destruct (Z.eqb_spec (lenZ bs) 1), (Z.ltb_spec (first_byte bs) 128); auto; destruct Hn; done).
    unfold header. destruct (Z.ltb_spec (lenZ bs) 56).
    + cbn [rbind appendRaw]. unfold appendRaw, noteAppended at 1, push_back. cbn [Z.eqb rbind m_out m_listStack].
      unfold u8. rewrite Z.mod_small by lia. rewrite <- app_assoc. cbn [app]. by rewrite (Z.add_comm (lenZ bs)).
    + pose proof (byte_size_le (lenZ bs) 8 ltac:(lia) ltac:(lia)).
      rewrite pushCount_spec by lia. cbn [rbind]. unfold appendRaw, noteAppended at 1. cbn [Z.eqb rbind m_out m_listStack].
      by rewrite <- app_assoc.
Qed.

(** The shortest big-endian form of an integer. *)
Definition int_bytes (i : Z) : list Z := toBigEndian (Z.to_nat (byte_size i)) i.

Lemma append_int_spec i s :
  0 <= i -> 0 <= byte_size i < 2 ^ 64 ->
  append_int i s = noteAppended 1 (mkRLPStream (m_out s ++ encode_str (int_bytes i)) (m_listStack s)).
Proof.
  intros Hi Hbs. unfold append_int, int_bytes. change c_rlpDataImmLenStart with 0x80.
  change c_rlpDataImmLenCount with 56. change c_rlpDataIndLenZero with 0xb7.
  destruct (Z.eqb_spec i 0) as [->|Hi0]; [done|]. destruct (Z.ltb_spec i 0x80).
  { rewrite (byte_size_unique i 1) by (cbn; lia). cbn [rbind]. unfold push_back.
    change (toBigEndian (Z.to_nat 1) i) with [u8 (Z.land i 255)]. change 255 with (Z.ones 8). rewrite Z.land_ones by lia.
    unfold u8. rewrite Z.mod_mod, Z.mod_small by lia. cbn [encode_str]. destruct (Z.ltb_spec i 0x80); [done|lia]. }
  destruct (byte_size_pos i ltac:(lia)) as (Hb1 & Hb2). rewrite bytesRequired_spec by lia.
  assert (encode_str (toBigEndian (Z.to_nat (byte_size i)) i) = header 0x80 (byte_size i) ++ toBigEndian (Z.to_nat (byte_size i)) i) as ->.
  { destruct (Z.eq_dec (byte_size i) 1) as [He|Hne].
    - rewrite He in *. change (toBigEndian (Z.to_nat 1) i) with [u8 (Z.land i 255)]. change 255 with (Z.ones 8).
      rewrite Z.land_ones by lia. unfold u8. rewrite Z.mod_mod, Z.mod_small by lia. cbn [encode_str].
      destruct (Z.ltb_spec i 0x80); [lia|done].
    - pose proof (lenZ_toBigEndian (byte_size i) i ltac:(lia)) as Hl.
      destruct (toBigEndian _ i) as [|a [|b l]]; [unfold lenZ in Hl; cbn in Hl; lia..|]. by rewrite <- Hl. }
  unfold header. destruct (Z.ltb_spec (byte_size i) 56).
  - cbn [rbind]. unfold push_back. cbn [m_out m_listStack]. rewrite pushInt_spec by lia. cbn [rbind].
    unfold u8. rewrite Z.mod_small by lia. rewrite <- app_assoc. cbn [app]. by rewrite (Z.add_comm (byte_size i)).
  - rewrite bytesRequired_spec by lia. pose proof (byte_size_le (byte_size i) 8 ltac:(lia) ltac:(lia)).
    destruct (Z.ltb_spec 0xff (0xb7 + byte_size (byte_size i))); [lia|]. cbn [throw_if rbind]. unfold push_back. cbn [m_out m_listStack].
    rewrite pushInt_spec by lia. cbn [rbind m_out m_listStack]. rewrite pushInt_spec by lia. cbn [rbind].
    unfold u8. rewrite Z.mod_small by lia. rewrite <- !app_assoc. done.
Qed.

(** ** Trees *)

Lemma append_item_Lst l s : append_item (Lst l) s = (s <- appendList (lenZ l) s ;; append_items l s).
Proof.
  cbn [append_item]. destruct (appendList (lenZ l) s) as [s'| | |]; [|done..]. cbn [rbind]. clear s.
  revert s'. induction l as [|it l IH]; intros s; [done|]. cbn [append_items].
  destruct (append_item it s); cbn [rbind]; auto.
Qed.

Lemma header_length base n : 0 <= n < 2 ^ 64 -> 1 <= lenZ (header base n) <= 9.
Proof.
  intros. unfold header. case_match; [unfold lenZ; cbn; lia|]. pose proof (byte_size_le n 8 ltac:(lia) ltac:(lia)).
  rewrite lenZ_cons, lenZ_toBigEndian by lia. lia.
Qed.

(** Appending one item to the list on top. *)
Lemma noteAppended_top out n p stack :
  0 < n -> 0 <= p <= lenZ out -> lenZ out - p < 2 ^ 64 ->
  noteAppended 1 (mkRLPStream out ((n, p) :: stack)) =
  if n =? 1 then noteAppended 1 (mkRLPStream (take (Z.to_nat p) out ++ header 0xc0 (lenZ out - p) ++ drop (Z.to_nat p) out) stack)
  else Value (mkRLPStream out ((n - 1, p) :: stack)).
Proof.
  intros Hn Hp Hl. unfold noteAppended. cbn [Z.eqb m_out m_listStack noteAppended_loop].
  destruct (Z.ltb_spec n 1); [lia|]. cbn [throw_if rbind].
  destruct (Z.eqb_spec (n - 1) 0), (Z.eqb_spec n 1); try lia; cbn [negb]; [|done].
  by rewrite (list_header_spec _ p out Hp eq_refl Hl).
Qed.

Definition appends (it : item) : Prop := forall s,
  item_ok it -> lenZ (encode it) < 2 ^ 64 ->
  append_item it s = noteAppended 1 (mkRLPStream (m_out s ++ encode it) (m_listStack s)).

Lemma append_items_spec l out q stack :
  Forall appends l -> Forall item_ok l -> l <> [] -> lenZ (q ++ concat (map encode l)) < 2 ^ 64 ->
  append_items l (mkRLPStream (out ++ q) ((lenZ l, lenZ out) :: stack)) =
  noteAppended 1 (mkRLPStream (out ++ header 0xc0 (lenZ (q ++ concat (map encode l))) ++ q ++ concat (map encode l)) stack).
Proof.
  revert q. induction l as [|it l IH]; intros q Ha Hok Hne Hl; [done|]. cbn [append_items map concat] in *.
  apply Forall_cons_1 in Ha as [Ha1 Ha]. apply Forall_cons_1 in Hok as [Hok1 Hok].
  pose proof (lenZ_nonneg q). pose proof (lenZ_nonneg out). pose proof (lenZ_nonneg l).
  pose proof (lenZ_nonneg (encode it)). pose proof (lenZ_nonneg (concat (map encode l))).
  rewrite !lenZ_app in Hl. rewrite Ha1 by (done || lia). cbn [m_out m_listStack]. rewrite lenZ_cons.
  rewrite noteAppended_top by (rewrite ?lenZ_app; lia). rewrite <- app_assoc.
  destruct (Z.eqb_spec (1 + lenZ l) 1) as [He|He].
  - assert (l = []) as -> by (destruct l; [done|unfold lenZ in He; cbn in He; lia]). cbn [map concat append_items].
    rewrite app_nil_r. replace (lenZ (out ++ q ++ encode it) - lenZ out) with (lenZ (q ++ encode it)) by (rewrite !lenZ_app; lia).
    unfold lenZ at 1 3. rewrite Nat2Z.id, take_app_length, drop_app_length.
    destruct (noteAppended _ _) as [s'| | |]; done.
  - cbn [rbind]. replace (1 + lenZ l - 1) with (lenZ l) by lia. rewrite IH; try done.
    + by rewrite <- !app_assoc.
    + intros ->. done.
    + rewrite !lenZ_app. lia.
Qed.

(** The writer produces the encoding of the item, and counts it as one item. *)
Lemma append_item_spec it : appends it.
Proof.
  induction it as [bs|l IH] using item_ind_all; intros s Hok Hl.
  - inversion Hok; subst. cbn [append_item encode] in *. apply append_bytes_spec; [done|].
    destruct bs as [|b [|c bs]]; [unfold lenZ; cbn [length]; lia..|]. cbn [encode_str] in Hl. rewrite lenZ_app in Hl.
    pose proof (lenZ_nonneg (header 128 (lenZ (b :: c :: bs)))). lia.
  - inversion Hok; subst. rewrite append_item_Lst. cbn [encode] in *. cbv zeta in *.
    pose proof (lenZ_nonneg (concat (map encode l))). rewrite lenZ_app in Hl.
    pose proof (lenZ_nonneg (header 192 (lenZ (concat (map encode l))))).
    unfold appendList. destruct (Z.eqb_spec (lenZ l) 0) as [He|He]; cbn [negb].
    + assert (l = []) as -> by (destruct l; [done|unfold lenZ in He; cbn in He; lia]). cbn [append_items map concat].
      unfold appendList_bytes, appendRaw, push_back. cbn [lenZ length Z.of_nat Z.ltb rbind m_out m_listStack].
      cbn [app].
      change (u8 (lenZ [] + c_rlpListStart)) with 192. change (header 192 (lenZ [])) with [192].
      change (lenZ [] <? c_rlpListImmLenCount) with true. cbn [rbind m_out m_listStack]. rewrite app_nil_r.
      by destruct (noteAppended _ _).
    + cbn [rbind]. rewrite <- (app_nil_r (m_out s)) at 1. rewrite append_items_spec; cbn [app]; try done; [|lia].
      intros ->. done.
Qed.
