(* ===== verification/RlpRead.v ===== *)
(** * What the RLP reader accepts

    The reader recognises exactly the canonical headers: [rlp_length] returns
    [n] on data that starts with the header of [n], and on no other data.  From
    this follow the safety of every reading operation, the decoding of what was
    encoded, and the uniqueness of the encoding. *)
From stdpp Require Import base list.
From Stdlib Require Import ZArith Lia.
From S2P Require Import Prelude Words Result Rlp RlpSpec.
Open Scope result_scope.

Notation byte_list :=  (Forall (fun b => is_byte b)).

(** ** Big-endian lengths *)

Lemma toBigEndian_be_val bs : byte_list bs -> toBigEndian (length bs) (be_val bs) = bs.
Proof.
  induction bs as [|b bs IH] using rev_ind; intros Hb; [done|].
  apply Forall_app in Hb as [Hbs Hb]. apply Forall_cons_1 in Hb as [Hb _]. cbv beta in Hb.
  rewrite be_val_snoc, length_app. cbn [length]. rewrite Nat.add_1_r, toBigEndian_S.
  rewrite Z.shiftr_div_pow2 by lia. change (2 ^ 8) with 256. pose proof (be_val_range bs Hbs).
  rewrite Z.div_add_l, (Z.div_small b), Z.add_0_r, IH by (done || lia). f_equal. f_equal.
  change 255 with (Z.ones 8). rewrite Z.land_ones by lia. unfold u8. rewrite Z.mod_mod by lia. change (2 ^ 8) with 256.
  rewrite Z.add_comm, Z.mod_add by lia. apply Z.mod_small. lia.
Qed.

Lemma be_val_cons b bs : be_val (b :: bs) = b * 2 ^ (8 * lenZ bs) + be_val bs.
Proof.
  induction bs as [|c bs IH] using rev_ind; [unfold lenZ; cbn; lia|].
  change (b :: bs ++ [c]) with ((b :: bs) ++ [c]). rewrite !be_val_snoc, IH, lenZ_app.
  replace (8 * (lenZ bs + lenZ [c])) with (8 * lenZ bs + 8) by (unfold lenZ; cbn [length]; lia).
  pose proof (lenZ_nonneg bs). rewrite Z.pow_add_r by lia. change (2 ^ 8) with 256. ring.
Qed.

Lemma byte_size_be_val bs : byte_list bs -> bs <> [] -> first_byte bs <> 0 -> byte_size (be_val bs) = lenZ bs.
Proof.
  destruct bs as [|b bs]; [done|]. intros Hb _ Hf. cbn [first_byte] in Hf.
  apply Forall_cons_1 in Hb as [Hb Hbs]. cbv beta in Hb. pose proof (be_val_range bs Hbs) as Hr.
  pose proof (lenZ_nonneg bs). rewrite be_val_cons, lenZ_cons. apply byte_size_unique; [lia|].
  replace (8 * (1 + lenZ bs - 1)) with (8 * lenZ bs) by lia.
  replace (8 * (1 + lenZ bs)) with (8 + 8 * lenZ bs) by lia. rewrite Z.pow_add_r by lia. change (2 ^ 8) with 256. nia.
Qed.

Lemma first_byte_toBigEndian n : 0 < n -> first_byte (toBigEndian (Z.to_nat (byte_size n)) n) <> 0.
Proof.
  intros Hn Hf. destruct (byte_size_pos n Hn) as (H1 & H2 & H3).
  pose proof (toBigEndian_bytes (Z.to_nat (byte_size n)) n) as Hb.
  pose proof (lenZ_toBigEndian (byte_size n) n ltac:(lia)) as Hl.
  pose proof (be_val_toBigEndian (Z.to_nat (byte_size n)) n ltac:(lia)) as Hv.
  destruct (toBigEndian _ n) as [|b bs]; [unfold lenZ in Hl; cbn in Hl; lia|]. cbn [first_byte] in Hf. subst b.
  apply Forall_cons_1 in Hb as [_ Hb]. pose proof (be_val_range bs Hb). rewrite lenZ_cons in Hl.
  rewrite be_val_cons, Z.mul_0_l, Z.add_0_l, Z2Nat.id, Z.mod_small in Hv by lia.
  replace (byte_size n - 1) with (lenZ bs) in H2 by lia. lia.
Qed.

(** ** Lengths *)

Lemma length_loop_spec bs pre rest i ret :
  byte_list bs -> lenZ pre = i + 1 -> 0 <= ret -> (ret + 1) * 2 ^ (8 * lenZ bs) <= 2 ^ 64 ->
  length_loop (length bs) i (pre ++ bs ++ rest) ret = Value (foldl (fun r b => r * 256 + b) ret bs).
Proof.
  revert pre i ret. induction bs as [|b bs IH]; intros pre i ret Hb Hp Hr Hm; [done|].
  apply Forall_cons_1 in Hb as [Hb Hbs]. cbv beta in Hb. cbn [length length_loop foldl app].
  rewrite <- Hp. assert ((pre ++ b :: bs ++ rest) @@ lenZ pre = Some b) as ->.
  { unfold lenZ. rewrite getZ_nat, lookup_app_r, Nat.sub_diag by lia. done. }
  cbn [rget rbind]. pose proof (lenZ_nonneg bs). rewrite lenZ_cons in Hm.
  replace (8 * (1 + lenZ bs)) with (8 + 8 * lenZ bs) in Hm by lia. rewrite Z.pow_add_r in Hm by lia.
  change (2 ^ 8) with 256 in Hm. assert (0 < 2 ^ (8 * lenZ bs)) by (apply Z.pow_pos_nonneg; lia).
  assert (u64 (Z.shiftl ret 8) = Z.shiftl ret 8) as ->
    by (rewrite Z.shiftl_mul_pow2 by lia; change (2 ^ 8) with 256; apply u64_small; nia).
  rewrite lor_shiftl_add by lia. change (2 ^ 8) with 256.
  specialize (IH (pre ++ [b]) (lenZ pre) (ret * 256 + b)). rewrite <- app_assoc in IH. apply IH; [done|rewrite lenZ_app; unfold lenZ; cbn [length]; lia|nia|nia].
Qed.

Lemma long_length_short k lim d : lenZ d <= k -> long_length k lim d = Error BadRLP.
Proof. intros. unfold long_length. destruct (Z.leb_spec (lenZ d) k); [done|lia]. Qed.

Lemma long_length_spec b0 bs rest lim :
  byte_list bs -> 1 <= lenZ bs <= 8 ->
  long_length (lenZ bs) lim (b0 :: bs ++ rest) =
  if first_byte bs =? 0 then Error BadRLP
  else if be_val bs <? lim then Error BadRLP
  else if 2 ^ 64 - 1 - 0x100 <=? be_val bs then Error UndersizeRLP
  else Value (be_val bs).
Proof.
  intros Hb Hl. unfold long_length. pose proof (lenZ_nonneg rest). rewrite lenZ_cons, lenZ_app.
  destruct (Z.leb_spec (1 + (lenZ bs + lenZ rest)) (lenZ bs)); [lia|]. cbn [throw_if rbind].
  destruct (Z.ltb_spec 1 (1 + (lenZ bs + lenZ rest))); [|lia].
  destruct bs as [|b bs]; [unfold lenZ in Hl; cbn in Hl; lia|]. cbn [first_byte].
  change ((b0 :: (b :: bs) ++ rest) @@ 1) with (Some b). cbn [rget rbind].
  destruct (Z.eqb_spec b 0); cbn [throw_if rbind]; [done|].
  destruct (Z.ltb_spec 8 (lenZ (b :: bs))); [lia|]. cbn [throw_if rbind].
  replace (Z.to_nat (lenZ (b :: bs))) with (length (b :: bs)) by (unfold lenZ; lia).
  change (b0 :: (b :: bs) ++ rest) with ([b0] ++ (b :: bs) ++ rest). rewrite (length_loop_spec (b :: bs) [b0] rest 0 0); try done.
  - cbn [rbind]. fold (be_val (b :: bs)). destruct (_ <? lim); [done|]. by destruct (_ <=? _).
  - change (0 + 1) with 1. rewrite Z.mul_1_l. apply Z.pow_le_mono_r; lia.
Qed.

(** ** Headers *)

(** A payload of one byte below 0x80 has no header. *)
Definition header_ok (base n : Z) (rest : list Z) : Prop :=
  (base = 0x80 \/ base = 0xc0) /\ 0 <= n < 2 ^ 64 - 257 /\
  (base = 0x80 -> n = 1 -> exists b r, rest = b :: r /\ 0x80 <= b).

Lemma header_first base n rest : header_ok base n rest ->
  exists b r, header base n ++ rest = b :: r /\ base <= b /\ b < 256 /\ (base = 0x80 -> b < 0xc0) /\ 
    (b = 0x81 -> base = 0x80 /\ n = 1 /\ r = rest) /\
    lengthSize (header base n ++ rest) = lenZ (header base n) - 1.
Proof.
  intros (Hbase & Hn & _). unfold header. destruct (Z.ltb_spec n 56).
  - cbn [app]. exists (base + n), rest. split; [done|]. split; [lia|]. split; [lia|]. split; [lia|].
    split; [intros; split_and!; try done; lia|].
    unfold lengthSize, isData, isList, isNull.
    rewrite lenZ_cons. pose proof (lenZ_nonneg rest). cbn [first_byte].
    change c_rlpListStart with 192. change c_rlpDataIndLenZero with 183. change c_rlpListIndLenZero with 247.
    assert (lenZ [base + n] = 1) as -> by done.
    destruct Hbase as [-> | ->]; zguard; cbn [negb andb]; try lia.
  - destruct (byte_size_pos n ltac:(lia)) as [H1 _]. pose proof (byte_size_le n 8 ltac:(lia) ltac:(lia)).
    cbn [app]. do 2 eexists. split; [done|]. split; [lia|]. split; [lia|]. split; [lia|].
    split; [lia|]. rewrite lenZ_cons, lenZ_toBigEndian by lia.
    unfold lengthSize, isData, isList, isNull. rewrite lenZ_cons, lenZ_app, lenZ_toBigEndian by lia.
    pose proof (lenZ_nonneg rest). cbn [first_byte].
    change c_rlpListStart with 192. change c_rlpDataIndLenZero with 183. change c_rlpListIndLenZero with 247.
    destruct Hbase as [-> | ->]; zguard; cbn [negb andb]; try lia.
Qed.

Ltac rlp_consts :=
  change c_rlpDataImmLenStart with 128 in *; change c_rlpListStart with 192 in *;
  change c_rlpDataIndLenZero with 183 in *; change c_rlpListIndLenZero with 247 in *;
  change c_rlpMaxLengthBytes with 8 in *.

Lemma requireGood_cons b r : b <> 0x81 -> requireGood (b :: r) = Value tt.
Proof.
  intros Hb. unfold requireGood, isNull. rewrite lenZ_cons. pose proof (lenZ_nonneg r).
  destruct (Z.eqb_spec (1 + lenZ r) 0); [lia|]. cbn [throw_if rbind]. change ((b :: r) @@ 0) with (Some b).
  cbn [rget rbind]. rlp_consts. destruct (Z.eqb_spec b (128 + 1)); [lia|]. done.
Qed.

Lemma requireGood_single c r : 0x80 <= c -> requireGood (0x81 :: c :: r) = Value tt.
Proof.
  intros Hc. unfold requireGood, isNull. rewrite !lenZ_cons. pose proof (lenZ_nonneg r).
  destruct (Z.eqb_spec (1 + (1 + lenZ r)) 0); [lia|]. cbn [throw_if rbind].
  change ((129 :: c :: r) @@ 0) with (Some 129). cbn [rget rbind]. rlp_consts. cbn [Z.eqb negb].
  change (129 =? 128 + 1) with true. cbn [negb]. destruct (Z.ltb_spec (1 + (1 + lenZ r)) 2); [lia|]. cbn [throw_if rbind].
  change ((129 :: c :: r) @@ 1) with (Some c). cbn [rget rbind]. destruct (Z.ltb_spec c 128); [lia|done].
Qed.

(** Data that starts with the header of [n] is read as such. *)
Record reads_as (base n : Z) (d : list Z) : Prop := {
  ra_length : rlp_length d = Value n;
  ra_offset : payloadOffset d = lenZ (header base n);
  ra_null : isNull d = false;
  ra_list : isList d = (base =? 0xc0);
  ra_data : isData d = (base =? 0x80);
  ra_single : isSingleByte d = false;
  ra_good : requireGood d = Value tt
}.

Lemma read_header base n rest : header_ok base n rest -> reads_as base n (header base n ++ rest).
Proof.
  intros Hok. destruct (header_first base n rest Hok) as (b & r & Hd & Hb1 & Hb2 & Hb3 & Hb4 & Hls).
  pose proof Hok as (Hbase & Hn & Hone). pose proof (lenZ_nonneg r) as Hr.
  assert (requireGood (b :: r) = Value tt) as Hgood.
  { destruct (Z.eq_dec b 0x81) as [->|]; [|by apply requireGood_cons].
    destruct (Hb4 eq_refl) as (-> & -> & ->). destruct (Hone eq_refl eq_refl) as (c & r' & -> & Hc).
    by apply requireGood_single. }
  assert (isNull (b :: r) = false) as Hnull by (unfold isNull; rewrite lenZ_cons; apply Z.eqb_neq; lia).
  assert (isSingleByte (b :: r) = false) as Hsb.
  { unfold isSingleByte. rewrite Hnull. cbn [first_byte negb andb]. rlp_consts. apply Z.ltb_ge. lia. }
  assert (isList (b :: r) = (base =? 0xc0) /\ isData (b :: r) = (base =? 0x80)) as [Hlist Hdata].
  { unfold isList, isData. rewrite Hnull. cbn [first_byte negb andb]. rlp_consts.
    destruct Hbase as [-> | ->]; [|split; zguard; done || lia]. specialize (Hb3 eq_refl). split; zguard; done || lia. }
  assert (rlp_length (b :: r) = Value n) as Hlen.
  { unfold rlp_length. rewrite Hnull, Hgood. cbn [rbind]. change ((b :: r) @@ 0) with (Some b). cbn [rget rbind].
    rlp_consts. destruct (Z.ltb_spec b 128); [lia|]. unfold header in Hd. destruct (Z.ltb_spec n 56) as [Hs|Hs].
    - injection Hd as <- <-. destruct Hbase as [-> | ->].
      + destruct (Z.leb_spec (128 + n) 183); [|lia]. f_equal. lia.
      + destruct (Z.leb_spec (192 + n) 183); [lia|]. destruct (Z.ltb_spec (192 + n) 192); [lia|].
        destruct (Z.leb_spec (192 + n) 247); [|lia]. f_equal. lia.
    - destruct (byte_size_pos n ltac:(lia)) as [H1 _]. pose proof (byte_size_le n 8 ltac:(lia) ltac:(lia)).
      injection Hd as Hb' Hr'. pose proof (lenZ_toBigEndian (byte_size n) n ltac:(lia)) as Hl.
      pose proof (first_byte_toBigEndian n ltac:(lia)) as Hf. apply Z.eqb_neq in Hf.
      pose proof (be_val_toBigEndian (Z.to_nat (byte_size n)) n ltac:(lia)) as Hv.
      destruct (byte_size_pos n ltac:(lia)) as [_ [_ Hlt]]. rewrite Z2Nat.id, Z.mod_small in Hv by lia.
      assert (forall lim, lim <= 56 -> long_length (byte_size n) lim (b :: r) = Value n) as Hll.
      { intros lim Hlim. pose proof (long_length_spec b _ rest lim (toBigEndian_bytes (Z.to_nat (byte_size n)) n)) as Hspec.
        rewrite Hl, Hr', Hf, Hv in Hspec. rewrite Hspec by lia. destruct (Z.ltb_spec n lim); [lia|]. destruct (Z.leb_spec (2 ^ 64 - 1 - 256) n); [lia|done]. }
      destruct Hbase as [-> | ->].
      + destruct (Z.leb_spec b 183); [lia|]. destruct (Z.ltb_spec b 192); [|lia].
        replace (b - 183) with (byte_size n) by lia. apply Hll. lia.
      + destruct (Z.leb_spec b 183); [lia|]. destruct (Z.ltb_spec b 192); [lia|].
        destruct (Z.leb_spec b 247); [lia|]. replace (b - 247) with (byte_size n) by lia. apply Hll. lia. }
  rewrite Hd in *. constructor; try done. unfold payloadOffset. rewrite Hsb, Hls. lia.
Qed.

Lemma requireGood_Value b r : requireGood (b :: r) = Value tt -> b = 0x81 -> exists c r', r = c :: r' /\ 0x80 <= c.
Proof.
  intros Hg ->. unfold requireGood in Hg. result_inv. change ((129 :: r) @@ 0) with (Some 129) in *.
  match goal with H : Some 129 = Some _ |- _ => injection H as <- end.
  rlp_consts. change (negb (129 =? 128 + 1)) with false in Hg. cbv iota in Hg. result_inv.
  destruct r as [|c r]; [discriminate|]. change ((129 :: c :: r) @@ 1) with (Some c) in *.
  match goal with H : Some c = Some _ |- _ => injection H as <- end.
  exists c, r. split; [done|]. lia.
Qed.

(** And only such data has a length, apart from nothing and a single byte. *)
Lemma read_header_inv d n : byte_list d -> rlp_length d = Value n ->
  d = [] /\ n = 0 \/ (exists b r, d = b :: r /\ 0 <= b < 0x80 /\ n = 1) \/
  exists base rest, d = header base n ++ rest /\ header_ok base n rest.
Proof.
  intros Hb Hl. destruct d as [|b r]; [left; by injection Hl as <-|right].
  apply Forall_cons_1 in Hb as [Hb Hbr]. cbv beta in Hb. pose proof (lenZ_nonneg r).
  unfold rlp_length in Hl. assert (isNull (b :: r) = false) as Hnull by (unfold isNull; rewrite lenZ_cons; apply Z.eqb_neq; lia).
  rewrite Hnull in Hl. apply rbind_Value in Hl as ([] & Hgood & Hl).
  change ((b :: r) @@ 0) with (Some b) in Hl. cbn [rget rbind] in Hl. rlp_consts.
  pose proof (requireGood_Value b r Hgood) as Hone.
  destruct (Z.ltb_spec b 128); [left; exists b, r; injection Hl as <-; split_and!; lia || done|right].
  assert (forall base k, (base = 0x80 \/ base = 0xc0) -> b = base + 55 + k -> 1 <= k <= 8 ->
    long_length k 56 (b :: r) = Value n -> exists base rest, b :: r = header base n ++ rest /\ header_ok base n rest) as Hlong.
  { intros base k Hbase Hbk Hk Hlen. destruct (Z.le_gt_cases (lenZ (b :: r)) k) as [Hs|Hs];
      [by rewrite long_length_short in Hlen|]. rewrite lenZ_cons in Hs.
    rewrite <- (take_drop (Z.to_nat k) r) in Hlen. rewrite <- (take_drop (Z.to_nat k) r) in Hbr.
    apply Forall_app in Hbr as [Hbs _]. set (bs := take (Z.to_nat k) r) in *.
    assert (lenZ bs = k) as Hbl by (subst bs; unfold lenZ in *; rewrite length_take; lia).
    rewrite <- Hbl in Hlen. rewrite long_length_spec in Hlen by (done || lia).
    destruct (Z.eqb_spec (first_byte bs) 0); [done|]. destruct (Z.ltb_spec (be_val bs) 56); [done|].
    destruct (Z.leb_spec (2 ^ 64 - 1 - 256) (be_val bs)); [done|]. injection Hlen as <-.
    assert (bs <> []) as Hne by (intros ->; unfold lenZ in Hbl; cbn in Hbl; lia).
    exists base, (drop (Z.to_nat k) r). split; [|split_and!; [done|lia|lia|lia]].
    unfold header. destruct (Z.ltb_spec (be_val bs) 56); [lia|]. rewrite byte_size_be_val by done.
    unfold lenZ at 2. rewrite Nat2Z.id, toBigEndian_be_val by done. cbn [app]. f_equal; [lia|].
    subst bs. by rewrite take_drop. }
  assert (forall base, (base = 0x80 \/ base = 0xc0) -> base <= b < base + 56 -> n = b - base ->
    exists base rest, b :: r = header base n ++ rest /\ header_ok base n rest) as Hshort.
  { intros base Hbase Hbb ->. exists base, r. unfold header. destruct (Z.ltb_spec (b - base) 56); [|lia].
    split; [cbn; f_equal; lia|]. split_and!; [done|lia|lia|]. intros -> ?. apply Hone. lia. }
  destruct (Z.leb_spec b 183); [injection Hl as <-; apply (Hshort 128); auto; lia|].
  destruct (Z.ltb_spec b 192); [apply (Hlong 128 (b - 183)); auto; lia|].
  destruct (Z.leb_spec b 247); [injection Hl as <-; apply (Hshort 192); auto; lia|].
  apply (Hlong 192 (b - 247)); auto; lia.
Qed.

(** ** Frames

    The data of one item: a single byte, or a header and the payload it
    announces. *)
Inductive framed : list Z -> Prop :=
| framed_byte b : 0 <= b < 0x80 -> framed [b]
| framed_header base p : header_ok base (lenZ p) p -> framed (header base (lenZ p) ++ p).

Lemma framed_nonempty f : framed f -> 1 <= lenZ f.
Proof.
  intros [b|base p (_ & Hn & _)]; [done|]. rewrite lenZ_app. pose proof (header_length base (lenZ p)). lia.
Qed.

Lemma header_ok_app base n p rest : header_ok base n p -> lenZ p = n -> header_ok base n (p ++ rest).
Proof.
  intros (Hb & Hn & Hone) Hl. split_and!; [done|lia|lia|]. intros Hb' ->. destruct (Hone Hb' eq_refl) as (b & r & -> & Hr).
  by exists b, (r ++ rest).
Qed.

Lemma actualSize_header base n rest :
  header_ok base n rest -> actualSize (header base n ++ rest) = Value (lenZ (header base n) + n).
Proof.
  intros Hok. pose proof (read_header base n rest Hok) as []. pose proof Hok as (Hbase & Hn & _).
  unfold actualSize. rewrite ra_null0, ra_single0, ra_list0, ra_data0, ra_length0, ra_offset0.
  pose proof (header_length base n ltac:(lia)).
  destruct Hbase as [-> | ->]; cbn [Z.eqb orb rbind]; rewrite u64_small by lia; done.
Qed.

Lemma actualSize_byte b r : 0 <= b < 0x80 -> actualSize (b :: r) = Value 1.
Proof.
  intros Hb. unfold actualSize, isNull, isSingleByte, isNull. rewrite lenZ_cons. pose proof (lenZ_nonneg r).
  destruct (Z.eqb_spec (1 + lenZ r) 0); [lia|]. cbn [negb andb first_byte]. rlp_consts.
  destruct (Z.ltb_spec b 128); [done|lia].
Qed.

Lemma actualSize_framed f rest : framed f -> actualSize (f ++ rest) = Value (lenZ f).
Proof.
  intros [b Hb|base p Hok]; [by apply actualSize_byte|].
  rewrite <- app_assoc, actualSize_header, lenZ_app by (by apply header_ok_app). done.
Qed.

(** What the size in the encoding tells about the data. *)
Lemma actualSize_inv d n : byte_list d -> actualSize d = Value n -> d <> [] -> n <= lenZ d ->
  exists f rest, d = f ++ rest /\ framed f /\ lenZ f = n.
Proof.
  intros Hb Ha Hne Hn. pose proof Ha as Ha'. unfold actualSize in Ha.
  destruct d as [|b r]; [done|]. assert (isNull (b :: r) = false) as Hnull
    by (unfold isNull; rewrite lenZ_cons; pose proof (lenZ_nonneg r); apply Z.eqb_neq; lia).
  rewrite Hnull in Ha. destruct (isSingleByte (b :: r)) eqn:Hs.
  { injection Ha as <-. unfold isSingleByte in Hs. rewrite Hnull in Hs. cbn [negb andb first_byte] in Hs. rlp_consts.
    apply Z.ltb_lt in Hs. apply Forall_cons_1 in Hb as [Hb _]. exists [b], r. split_and!; [done|constructor; lia|done]. }
  destruct (isData (b :: r) || isList (b :: r)) eqn:Hdl.
  - apply rbind_Value in Ha as (l & Hl & _).
    destruct (read_header_inv _ _ Hb Hl) as [[? _]|[(c & r' & [= <- <-] & Hc & _)|(base & rest & Hd & Hok)]]; [done| |].
    + unfold isSingleByte in Hs. rewrite Hnull in Hs. cbn [negb andb first_byte] in Hs. rlp_consts. apply Z.ltb_ge in Hs. lia.
    + rewrite Hd in *. rewrite actualSize_header in Ha' by done. injection Ha' as <-. rewrite lenZ_app in Hn.
      pose proof Hok as (Hbase & Hl0 & Hone). exists (header base l ++ take (Z.to_nat l) rest), (drop (Z.to_nat l) rest).
      assert (lenZ (take (Z.to_nat l) rest) = l) as Htl by (unfold lenZ in *; rewrite length_take; lia).
      split; [by rewrite <- app_assoc, take_drop|]. split; [|rewrite lenZ_app; lia].
      rewrite <- Htl at 1. apply framed_header. rewrite Htl. split_and!; [done|lia|lia|].
      intros Hb' ->. destruct (Hone Hb' eq_refl) as (c & r' & -> & Hc). by exists c, [].
  - unfold isData, isList in Hdl. rewrite Hnull in Hdl. cbn [negb andb first_byte] in Hdl. rlp_consts.
    destruct (Z.ltb_spec b 192), (Z.leb_spec 192 b); try done. lia.
Qed.

Lemma sizeAsEncoded_framed f rest : framed f -> sizeAsEncoded (f ++ rest) = Value (lenZ f).
Proof.
  intros Hf. unfold sizeAsEncoded, mkRLP. cbn [flag]. change (flag FailIfTooBig (Z.lor ThrowOnFail FailIfTooSmall)) with false.
  change (flag FailIfTooSmall (Z.lor ThrowOnFail FailIfTooSmall)) with true. cbv iota. cbn [rbind].
  rewrite actualSize_framed by done. cbn [rbind]. rewrite lenZ_app. pose proof (lenZ_nonneg rest).
  destruct (Z.ltb_spec (lenZ f + lenZ rest) (lenZ f)); [lia|]. cbn [rbind]. by apply actualSize_framed.
Qed.

Lemma sizeAsEncoded_nil : sizeAsEncoded [] = Value 0.
Proof. reflexivity. Qed.

Lemma mkRLP_framed f : framed f -> mkRLP VeryStrict f = Value f.
Proof.
  intros Hf. pose proof (actualSize_framed f [] Hf) as Ha. rewrite app_nil_r in Ha. unfold mkRLP.
  change (flag FailIfTooBig VeryStrict) with true. change (flag FailIfTooSmall VeryStrict) with true. cbv iota.
  rewrite Ha. cbn [rbind]. rewrite Z.ltb_irrefl. cbn [rbind]. rewrite Ha. cbn [rbind]. by rewrite Z.ltb_irrefl.
Qed.

(** ** Every read stays in its buffer *)

Lemma requireGood_returns d : returns (requireGood d) (fun _ => True).
Proof.
  unfold requireGood. destruct d as [|b r]; [done|]. cbn [isNull]. apply (returns_bind _ _ (fun _ => True)).
  { by destruct (isNull _). }
  intros [] _ _. change ((b :: r) @@ 0) with (Some b). cbn [rget rbind].
  destruct (b =? _); cbn [negb]; [|done]. destruct r as [|c r]; [done|].
  apply (returns_bind _ _ (fun _ => True)); [by destruct (_ <? _)|]. intros [] _ _.
  change ((b :: c :: r) @@ 1) with (Some c). cbn [rget rbind]. by destruct (_ <? _).
Qed.

Lemma long_length_returns k lim d : byte_list d -> 1 <= k -> returns (long_length k lim d) (fun _ => True).
Proof.
  intros Hb Hk. destruct (Z.le_gt_cases (lenZ d) k) as [Hs|Hs]; [by rewrite long_length_short|].
  destruct d as [|b r]; [unfold lenZ in Hs; cbn in Hs; lia|]. rewrite lenZ_cons in Hs.
  destruct (Z.le_gt_cases k 8) as [Hk8|Hk8].
  - apply Forall_cons_1 in Hb as [_ Hb]. rewrite <- (take_drop (Z.to_nat k) r) in Hb |- *. apply Forall_app in Hb as [Hb _].
    assert (lenZ (take (Z.to_nat k) r) = k) as Hbl by (unfold lenZ in *; rewrite length_take; lia).
    pose proof (long_length_spec b _ (drop (Z.to_nat k) r) lim Hb) as Hspec. rewrite Hbl in Hspec. rewrite Hspec by lia. repeat (destruct (_ : bool); [done|]). done.
  - unfold long_length. apply (returns_bind _ _ (fun _ => True)); [by destruct (_ <=? _)|]. intros [] _ _.
    destruct r as [|c r]; [unfold lenZ in Hs; cbn in Hs; lia|].
    apply (returns_bind _ _ (fun _ => True)).
    { destruct (_ <? _); [|done]. change ((b :: c :: r) @@ 1) with (Some c). cbn [rget rbind]. by destruct (_ =? _). }
    intros [] _ _. destruct (Z.ltb_spec 8 k); [done|lia].
Qed.

Lemma rlp_length_returns d : byte_list d -> returns (rlp_length d) (fun n => 0 <= n < 2 ^ 64 - 257).
Proof.
  intros Hb. enough (returns (rlp_length d) (fun _ => True)) as Hr.
  { destruct (rlp_length d) as [n| | |] eqn:Hl; try done. cbn.
    destruct (read_header_inv d n Hb Hl) as [[_ ->]|[(? & ? & _ & _ & ->)|(base & rest & _ & _ & Hn & _)]]; lia. }
  unfold rlp_length. destruct d as [|b r]; [done|]. destruct (isNull (b :: r)); [done|].
  eapply returns_bind; [apply requireGood_returns|]. intros [] _ _. change ((b :: r) @@ 0) with (Some b). cbn [rget rbind].
  rlp_consts. destruct (Z.ltb_spec b 128); [done|]. destruct (Z.leb_spec b 183); [done|].
  destruct (Z.ltb_spec b 192); [apply long_length_returns; [done|lia]|]. destruct (Z.leb_spec b 247); [done|].
  apply long_length_returns; [done|lia].
Qed.

Lemma actualSize_returns d : byte_list d -> returns (actualSize d) (fun n => 0 <= n /\ (d <> [] -> 1 <= n)).
Proof.
  intros Hb. unfold actualSize. destruct (isNull d) eqn:Hn.
  { split; [done|]. intros Hne. destruct d; [done|]. unfold isNull in Hn. rewrite lenZ_cons in Hn.
    pose proof (lenZ_nonneg d). apply Z.eqb_eq in Hn. lia. }
  destruct (isSingleByte d) eqn:Hs; [by cbn|].
  destruct (isData d || isList d) eqn:Hdl.
  - pose proof (rlp_length_returns d Hb) as Hl. eapply returns_bind; [exact Hl|]. intros n Hval Hr. cbv beta in Hr. cbn.
    pose proof (u64_range (payloadOffset d + n)). split; [lia|]. intros _.
    destruct (read_header_inv d n Hb Hval) as [[-> _]|[(b & r & -> & Hbb & _)|(base & rest & -> & Hok)]]; [done| |].
    + unfold isSingleByte in Hs. rewrite Hn in Hs. cbn [negb andb first_byte] in Hs. rlp_consts. apply Z.ltb_ge in Hs. lia.
    + rewrite (ra_offset _ _ _ (read_header _ _ _ Hok)). pose proof (header_length base n ltac:(lia)).
      rewrite u64_small; lia.
  - unfold isData, isList in Hdl. rewrite Hn in Hdl. cbn [negb andb] in Hdl. rlp_consts.
    destruct (Z.ltb_spec (first_byte d) 192), (Z.leb_spec 192 (first_byte d)); try done. lia.
Qed.

(** The size of the first item of a list, which the data is checked to hold. *)
Lemma sizeAsEncoded_returns d : byte_list d ->
  returns (sizeAsEncoded d) (fun n => exists f rest, d = f ++ rest /\ lenZ f = n /\ (d = [] /\ f = [] \/ framed f)).
Proof.
  intros Hb. unfold sizeAsEncoded, mkRLP. change (flag FailIfTooBig (Z.lor ThrowOnFail FailIfTooSmall)) with false.
  change (flag FailIfTooSmall (Z.lor ThrowOnFail FailIfTooSmall)) with true.
  change (flag ThrowOnFail (Z.lor ThrowOnFail FailIfTooSmall)) with true. cbv iota. cbn [rbind].
  pose proof (actualSize_returns d Hb) as Ha. destruct (actualSize d) as [n| | |] eqn:Hn; try done. cbn [rbind].
  destruct (Z.ltb_spec (lenZ d) n) as [|Hle]; [done|]. cbn [rbind]. rewrite Hn. cbn [returns].
  destruct (decide (d = [])) as [->|Hne].
  - exists [], []. split_and!; [done| |by left]. injection Hn as <-. done.
  - destruct (actualSize_inv d n Hb Hn Hne Hle) as (f & rest & -> & Hf & Hl). exists f, rest. split_and!; [done|done|by right].
Qed.

Lemma mkRLP_VeryStrict_inv d d' : byte_list d -> mkRLP VeryStrict d = Value d' -> d' = d /\ (d = [] \/ framed d).
Proof.
  intros Hb Hm. unfold mkRLP in Hm. change (flag FailIfTooBig VeryStrict) with true in Hm.
  change (flag FailIfTooSmall VeryStrict) with true in Hm. change (flag ThrowOnFail VeryStrict) with true in Hm. cbv iota in Hm.
  apply rbind_Value in Hm as (m & Hm1 & Hm). apply rbind_Value in Hm1 as (n & Hn & Hm1).
  destruct (Z.ltb_spec n (lenZ d)); [done|]. injection Hm1 as <-. rewrite Hn in Hm. cbn [rbind] in Hm.
  destruct (Z.ltb_spec (lenZ d) n); [done|]. injection Hm as <-. split; [done|].
  destruct (decide (d = [])) as [|Hne]; [by left|right].
  destruct (actualSize_inv d n Hb Hn Hne ltac:(lia)) as (f & rest & -> & Hf & Hl). rewrite lenZ_app in *.
  assert (rest = []) as -> by (destruct rest; [done|]; rewrite lenZ_cons in *; pose proof (lenZ_nonneg rest); lia).
  by rewrite app_nil_r.
Qed.

Lemma mkRLP_VeryStrict_returns d : byte_list d -> returns (mkRLP VeryStrict d) (fun d' => d' = d /\ (d = [] \/ framed d)).
Proof.
  intros Hb. destruct (mkRLP VeryStrict d) as [d'| | |] eqn:Hm; cbn; [by apply mkRLP_VeryStrict_inv|done|..];
    exfalso; unfold mkRLP in Hm; change (flag FailIfTooBig VeryStrict) with true in Hm;
    change (flag FailIfTooSmall VeryStrict) with true in Hm; change (flag ThrowOnFail VeryStrict) with true in Hm; cbv iota in Hm;
    pose proof (actualSize_returns d Hb) as Ha; destruct (actualSize d) as [n| | |] eqn:Hn; try done; cbn [rbind] in Hm;
    destruct (n <? lenZ d); try done; cbn [rbind] in Hm; rewrite Hn in Hm; cbn [rbind] in Hm; by destruct (lenZ d <? n).
Qed.

(** ** Payloads *)

Lemma cropped_exact pre p rest : lenZ (pre ++ p ++ rest) < 2 ^ 64 -> cropped (lenZ pre) (lenZ p) (pre ++ p ++ rest) = p.
Proof.
  intros Hl. unfold cropped. rewrite !lenZ_app in *. pose proof (lenZ_nonneg pre). pose proof (lenZ_nonneg p).
  pose proof (lenZ_nonneg rest). rewrite u64_small by lia.
  destruct (Z.leb_spec (lenZ pre) (lenZ pre + (lenZ p + lenZ rest))), (Z.leb_spec (lenZ p) (lenZ pre + (lenZ p + lenZ rest))),
    (Z.leb_spec (lenZ pre + lenZ p) (lenZ pre + (lenZ p + lenZ rest))); try lia. cbn [andb].
  unfold lenZ. rewrite !Nat2Z.id, drop_app_length. by rewrite take_app_length.
Qed.

Lemma cropped_prefix p rest : lenZ (p ++ rest) < 2 ^ 64 -> cropped 0 (lenZ p) (p ++ rest) = p.
Proof. intros. by apply (cropped_exact [] p rest). Qed.

Lemma cropped_suffix pre p : lenZ (pre ++ p) < 2 ^ 64 -> cropped (lenZ pre) (lenZ p) (pre ++ p) = p.
Proof. intros Hl. pose proof (cropped_exact pre p []) as Hc. rewrite app_nil_r in Hc. by apply Hc. Qed.

Lemma cropped_from_exact pre p : cropped_from (lenZ pre) (pre ++ p) = p.
Proof.
  unfold cropped_from. rewrite lenZ_app. pose proof (lenZ_nonneg p). destruct (Z.leb_spec (lenZ pre) (lenZ pre + lenZ p)); [|lia].
  unfold lenZ. rewrite Nat2Z.id. apply drop_app_length.
Qed.

Lemma view_suffix pre p : view (lenZ pre) (lenZ p) (pre ++ p) = p.
Proof. unfold view, lenZ. rewrite !Nat2Z.id, drop_app_length. apply firstn_all. Qed.

Lemma view_exact pre p rest : view (lenZ pre) (lenZ p) (pre ++ p ++ rest) = p.
Proof. unfold view, lenZ. rewrite !Nat2Z.id, drop_app_length. apply take_app_length. Qed.

(** The payload of an item: of a list, the items one after the other. *)
Inductive frame_of : list Z -> bool -> list Z -> Prop :=
| fo_byte b : 0 <= b < 0x80 -> frame_of [b] false [b]
| fo_header base p : header_ok base (lenZ p) p -> frame_of (header base (lenZ p) ++ p) (base =? 0xc0) p.

Lemma framed_frame_of f : framed f <-> exists b p, frame_of f b p.
Proof.
  split; [intros [b Hb|base p Hok]; do 2 eexists; by constructor|intros (b & p & [c Hc|base q Hok]); by constructor].
Qed.

Record frame_facts (f : list Z) (lst : bool) (p : list Z) : Prop := {
  fr_length : rlp_length f = Value (lenZ p);
  fr_payload : payload f = Value p;
  fr_list : isList f = lst;
  fr_data : isData f = negb lst;
  fr_null : isNull f = false;
  fr_offset : payloadOffset f = lenZ f - lenZ p;
  fr_split : exists h, f = h ++ p /\ lenZ h = lenZ f - lenZ p;
  fr_good : requireGood f = Value tt
}.

Lemma frame_of_facts f l p : frame_of f l p -> lenZ p < 2 ^ 63 -> frame_facts f l p.
Proof.
  intros [b Hb|base q Hok] Hl.
  - assert (isNull [b] = false /\ isSingleByte [b] = true /\ isData [b] = true /\ isList [b] = false) as (H1 & H2 & H3 & H4).
    { unfold isSingleByte, isData, isList, isNull. change (lenZ [b] =? 0) with false. cbn [negb andb first_byte]. rlp_consts.
      destruct (Z.ltb_spec b 128), (Z.ltb_spec b 192), (Z.leb_spec 192 b); first [lia|done]. }
    assert (requireGood [b] = Value tt) as Hg by (apply requireGood_cons; lia).
    assert (rlp_length [b] = Value 1) as Hlen.
    { unfold rlp_length. rewrite H1, Hg. cbn [rbind]. change ([b] @@ 0) with (Some b). cbn [rget rbind]. rlp_consts.
      destruct (Z.ltb_spec b 128); [done|lia]. }
    constructor; try done.
    + unfold payload. rewrite Hlen. cbn [rbind]. change (lenZ [b] <? 1) with false. cbn [throw_if rbind]. unfold payloadOffset. by rewrite H2.
    + unfold payloadOffset. by rewrite H2.
    + by exists [].
  - destruct (read_header base (lenZ q) q Hok). pose proof Hok as (Hbase & Hn & _). pose proof (header_length base (lenZ q) ltac:(lia)).
    constructor; try done.
    + unfold payload. rewrite ra_length0. cbn [rbind]. rewrite lenZ_app. pose proof (lenZ_nonneg q).
      destruct (Z.ltb_spec (lenZ (header base (lenZ q)) + lenZ q) (lenZ q)); [lia|]. cbn [throw_if rbind].
      rewrite ra_offset0. rewrite cropped_suffix by (rewrite lenZ_app; lia). done.
    + rewrite ra_data0. by destruct Hbase as [-> | ->].
    + rewrite ra_offset0, lenZ_app. lia.
    + exists (header base (lenZ q)). rewrite lenZ_app. split; [done|lia].
Qed.

Lemma framed_facts f : framed f -> lenZ f < 2 ^ 63 -> exists l p, frame_facts f l p /\ frame_of f l p.
Proof.
  intros (l & p & Hf)%framed_frame_of Hl. exists l, p. split; [|done]. apply frame_of_facts; [done|].
  destruct Hf as [b Hb|base q _]; [done|]. rewrite lenZ_app in Hl. pose proof (lenZ_nonneg (header base (lenZ q))). lia.
Qed.

(** ** Lists *)

(** Iteration over data that lies one item after the other. *)
Lemma toList_loop_framed fs pre f ret fuel :
  Forall framed (f :: fs) -> lenZ (pre ++ concat (f :: fs)) < 2 ^ 63 -> (length fs < fuel)%nat ->
  let d := pre ++ concat (f :: fs) in
  toList_loop (S fuel) d (mkIterator (lenZ pre) (lenZ f) (lenZ (concat fs))) ret = Value (ret ++ f :: fs).
Proof.
  revert pre f ret fuel. induction fs as [|g fs IH]; intros pre f ret fuel Hf Hl Hfuel; cbv zeta.
  all: apply Forall_cons_1 in Hf as [Hf Hfs]; pose proof (framed_nonempty f Hf) as Hf1.
  all: remember (toList_loop fuel) as loop eqn:Hloop.
  all: cbn [toList_loop it_pos it_count iterator_end]; rewrite <- Hloop.
  all: destruct (Z.eqb_spec (lenZ f) 0); [lia|]; rewrite andb_false_r.
  all: cbn [concat] in *; rewrite view_exact; rewrite mkRLP_framed by done; cbn [rbind].
  - unfold iterator_next. cbn [it_remaining it_pos it_count]. change (negb (lenZ [] =? 0)) with false. cbv iota. cbn [rbind].
    subst loop. destruct fuel as [|fuel]; [lia|]. cbn [toList_loop it_pos it_count iterator_end].
    rewrite app_nil_r, lenZ_app, !Z.eqb_refl. done.
  - pose proof (framed_nonempty g) as Hg. apply Forall_cons_1 in Hfs as [Hg1 Hfs']. specialize (Hg Hg1).
    unfold iterator_next. cbn [it_remaining it_pos it_count]. rewrite !lenZ_app in *. pose proof (lenZ_nonneg (concat fs)).
    pose proof (lenZ_nonneg pre). destruct (Z.eqb_spec (lenZ g + lenZ (concat fs)) 0); [lia|]. cbn [negb].
    assert (view (lenZ pre + lenZ f) (lenZ g + lenZ (concat fs)) (pre ++ f ++ g ++ concat fs) = g ++ concat fs) as ->.
    { rewrite <- !lenZ_app, (app_assoc pre). apply view_suffix. }
    rewrite sizeAsEncoded_framed by done. cbn [rbind]. rewrite cropped_prefix by (rewrite lenZ_app; lia).
    rewrite Z.min_r by lia. replace (lenZ g + lenZ (concat fs) - lenZ g) with (lenZ (concat fs)) by lia.
    subst loop. destruct fuel as [|fuel]; [cbn in Hfuel; lia|].
    specialize (IH (pre ++ f) g (ret ++ [f]) fuel). cbv zeta in IH. rewrite <- !app_assoc in IH. cbn [concat app] in IH.
    rewrite <- lenZ_app. apply IH; [by constructor|rewrite !lenZ_app; lia|cbn in Hfuel; lia].
Qed.

Lemma concat_framed_length fs : Forall framed fs -> (length fs <= length (concat fs))%nat.
Proof.
  induction 1 as [|f fs Hf Hfs IH]; [done|]. cbn [concat length]. rewrite length_app.
  apply framed_nonempty in Hf. unfold lenZ in Hf. lia.
Qed.

(** Reading a list gives the items that were concatenated. *)
Lemma toList_framed d fs flags :
  frame_of d true (concat fs) -> Forall framed fs -> lenZ d < 2 ^ 63 -> toList flags d = Value fs.
Proof.
  intros Hd Hfs Hl. pose proof (framed_frame_of d) as Hfr.
  assert (lenZ (concat fs) < 2 ^ 63) as Hlp.
  { inversion Hd; subst. rewrite lenZ_app in Hl. pose proof (lenZ_nonneg (header base (lenZ (concat fs)))). lia. }
  destruct (frame_of_facts _ _ _ Hd Hlp) as [Hlen Hpay Hlist _ _ Hoff (h & Hh & Hhl) _].
  unfold toList, toList_fuel, iterator_begin. rewrite Hlist, Hpay. cbn [negb rbind]. rewrite Hoff, <- Hhl.
  destruct fs as [|f fs].
  - cbn [concat] in *. rewrite sizeAsEncoded_nil. cbn [rbind]. change (cropped 0 0 []) with (@nil Z).
    change (lenZ []) with 0 in *. rewrite Z.sub_0_r in *. rewrite Hhl. cbn [toList_loop it_pos it_count iterator_end].
    by rewrite !Z.eqb_refl.
  - pose proof (concat_framed_length _ Hfs) as Hcl. apply Forall_cons_1 in Hfs as Hf. destruct Hf as [Hf _].
    cbn [concat] in *. rewrite sizeAsEncoded_framed by done. cbn [rbind]. rewrite cropped_prefix by lia.
    replace (lenZ (f ++ concat fs) - lenZ f) with (lenZ (concat fs)) by (rewrite lenZ_app; lia).
    pose proof (toList_loop_framed fs h f [] (length d) Hfs) as Hloop. cbv zeta in Hloop. cbn [concat app] in Hloop.
    rewrite <- Hh in Hloop. apply Hloop; [done|]. rewrite Hh, length_app. cbn [length] in *. lia.
Qed.

(** Reading never leaves the data and ends, and what it returns concatenates to
    what was read. *)
Lemma toList_loop_returns fuel pre cur rest ret :
  byte_list (pre ++ cur ++ rest) -> (length cur + length rest < fuel)%nat -> lenZ (pre ++ cur ++ rest) < 2 ^ 63 ->
  (cur = [] -> rest = []) ->
  returns (toList_loop fuel (pre ++ cur ++ rest) (mkIterator (lenZ pre) (lenZ cur) (lenZ rest)) ret)
    (fun l => exists fs, l = ret ++ fs /\ concat fs = cur ++ rest /\ Forall framed fs).
Proof.
  revert pre cur rest ret. induction fuel as [|fuel IH]; intros pre cur rest ret Hb Hfuel Hl Hcr; [lia|].
  cbn [toList_loop it_pos it_count iterator_end]. pose proof (lenZ_nonneg cur). pose proof (lenZ_nonneg rest).
  pose proof (lenZ_nonneg pre). rewrite !lenZ_app in *.
  destruct (Z.eqb_spec (lenZ cur) 0) as [He|He].
  - assert (cur = []) as -> by (destruct cur; [done|rewrite lenZ_cons in He; pose proof (lenZ_nonneg cur); lia]).
    rewrite (Hcr eq_refl). change (lenZ []) with 0. rewrite !Z.add_0_r, Z.eqb_refl. cbn. exists []. by rewrite app_nil_r.
  - rewrite andb_false_r. rewrite view_exact. rewrite !Forall_app in Hb. destruct Hb as (Hbp & Hbc & Hbr).
    eapply returns_bind; [by apply mkRLP_VeryStrict_returns|]. intros d' _ [-> Hfc].
    assert (framed cur) as Hf by (destruct Hfc as [->|]; done). clear Hfc.
    pose proof (framed_nonempty cur Hf) as Hc1. unfold iterator_next. cbn [it_remaining it_pos it_count].
    destruct (Z.eqb_spec (lenZ rest) 0) as [Hr|Hr]; cbn [negb].
    + assert (rest = []) as -> by (destruct rest; [done|rewrite lenZ_cons in Hr; pose proof (lenZ_nonneg rest); lia]).
      cbn [rbind]. specialize (IH (pre ++ cur) [] [] (ret ++ [cur])). rewrite !app_nil_r, lenZ_app in IH. rewrite app_nil_r in *.
      eapply returns_mono; [apply IH; [by apply Forall_app|cbn [length] in *; unfold lenZ in *; lia|lia|done]|].
      intros l (fs & -> & Hfs & Hall). exists (cur :: fs). rewrite <- app_assoc. cbn [concat app]. rewrite Hfs, app_nil_r.
      split_and!; [done|done|by constructor].
    + assert (view (lenZ pre + lenZ cur) (lenZ rest) (pre ++ cur ++ rest) = rest) as ->.
      { rewrite <- lenZ_app, app_assoc. apply view_suffix. }
      eapply returns_bind; [eapply returns_bind; [by apply sizeAsEncoded_returns|]|].
      * intros n Hn (g & rest' & -> & Hgl & Hg). subst n. rewrite cropped_prefix by (rewrite !lenZ_app in *; lia).
        instantiate (1 := fun it => exists g rest', rest = g ++ rest' /\ framed g /\
          it = mkIterator (lenZ pre + lenZ cur) (lenZ g) (lenZ rest')). cbn. exists g, rest'.
        destruct Hg as [[He' ->]|Hg]; [rewrite He' in Hr; done|]. split; [done|]. split; [done|].
        rewrite lenZ_app. pose proof (lenZ_nonneg rest'). pose proof (lenZ_nonneg g). rewrite Z.min_r by lia. f_equal. lia.
      * intros it _ (g & rest' & -> & Hg & ->). pose proof (framed_nonempty g Hg).
        specialize (IH (pre ++ cur) g rest' (ret ++ [cur])). rewrite <- !app_assoc in IH.
        rewrite <- (lenZ_app pre). eapply returns_mono; [apply IH|].
        -- rewrite !Forall_app. by rewrite Forall_app in Hbr.
        -- rewrite length_app in Hfuel. unfold lenZ in *. lia.
        -- rewrite !lenZ_app in *. lia.
        -- intros ->. done.
        -- intros l (fs & -> & Hfs & Hall). exists (cur :: fs). rewrite <- app_assoc. cbn [concat app]. rewrite Hfs. split_and!; [done|done|by constructor].
Qed.
