(* ===== verification/RlpTheorems.v ===== *)
(** * The theorems about RLP

    Writing then reading gives the item back, only one byte string encodes an
    item, reading is memory safe and ends, integers keep their value within
    their type, indexing does not depend on the cache, and iterating over data
    with a surplus behind the list does not end. *)
From stdpp Require Import base list.
From Stdlib Require Import ZArith Lia.
From S2P Require Import Prelude Words Result Rlp RlpSpec RlpRead.
Open Scope result_scope.

(** ** Trees *)

(** A reader of whole trees, on the conversions the callers use. *)
Fixpoint read_item (fuel : nat) (d : list Z) : res item :=
  match fuel with
  | O => OutOfFuel
  | S f =>
      if isList d then l <- toList Strict d ;; its <- rmap (read_item f) l ;; Value (Lst its)
      else bs <- toBytes Strict d ;; Value (Str bs)
  end.

Lemma encode_frame it : item_ok it -> lenZ (encode it) < 2 ^ 63 ->
  match it with
  | Str bs => frame_of (encode it) false bs
  | Lst l => frame_of (encode it) true (concat (map encode l))
  end.
Proof.
  intros Hok Hl. destruct it as [bs|l]; inversion Hok as [? Hb|? Hall]; subst.
  - cbn [encode] in *. destruct bs as [|b [|c bs]]; cbn [encode_str] in *.
    + apply (fo_header 0x80 []). split_and!; [by left|done|done|done].
    + apply Forall_cons_1 in Hb as [Hb _]. cbv beta in Hb. destruct (Z.ltb_spec b 128); [constructor; lia|].
      apply (fo_header 0x80 [b]). split_and!; [by left|done|done|]. intros _ _. by exists b, [].
    + apply (fo_header 0x80 (b :: c :: bs)). rewrite lenZ_app in Hl.
      pose proof (lenZ_nonneg (header 128 (lenZ (b :: c :: bs)))). pose proof (lenZ_nonneg (b :: c :: bs)).
      split_and!; [by left|lia|lia|]. intros _ He. rewrite !lenZ_cons in He. pose proof (lenZ_nonneg bs). lia.
  - cbn [encode] in *. cbv zeta in *. apply (fo_header 0xc0 (concat (map encode l))). rewrite lenZ_app in Hl.
    pose proof (lenZ_nonneg (header 192 (lenZ (concat (map encode l))))). pose proof (lenZ_nonneg (concat (map encode l))).
    split_and!; [by right|lia|lia|lia].
Qed.

Lemma encode_members l it : lenZ (concat (map encode l)) < 2 ^ 63 -> it ∈ l -> lenZ (encode it) <= lenZ (concat (map encode l)).
Proof.
  intros Hl (l1 & l2 & ->)%list_elem_of_split. rewrite map_app, concat_app. cbn [map concat]. rewrite !lenZ_app.
  pose proof (lenZ_nonneg (concat (map encode l1))). pose proof (lenZ_nonneg (concat (map encode l2))). lia.
Qed.

Lemma encode_framed it : item_ok it -> lenZ (encode it) < 2 ^ 63 -> framed (encode it).
Proof. intros Hok Hl. apply framed_frame_of. pose proof (encode_frame it Hok Hl). destruct it; eauto. Qed.

Lemma frame_of_payload d b p : frame_of d b p -> lenZ p <= lenZ d /\ (b = true -> lenZ p < lenZ d).
Proof.
  intros [c Hc|base q Hok]; [split; [done|discriminate]|]. destruct Hok as (_ & Hn & _).
  rewrite lenZ_app. pose proof (header_length base (lenZ q) ltac:(lia)). lia.
Qed.

(** Data that is one item. *)
Lemma toBytes_frame d p : frame_of d false p -> lenZ d < 2 ^ 63 -> toBytes Strict d = Value p.
Proof.
  intros Hd Hl. pose proof (frame_of_payload _ _ _ Hd) as [Hp _].
  destruct (frame_of_facts _ _ _ Hd ltac:(lia)) as [Hlen Hpay _ Hdata _ _ _ _].
  unfold toBytes. rewrite Hdata. cbn [negb]. rewrite Hpay. cbn [rbind]. rewrite Hlen. cbn [rbind].
  unfold slice. pose proof (lenZ_nonneg p). destruct (Z.eqb_spec (lenZ p) 0) as [He|].
  - destruct p; [done|]. rewrite lenZ_cons in He. pose proof (lenZ_nonneg p). lia.
  - destruct (Z.leb_spec 0 (lenZ p)), (Z.leb_spec (0 + lenZ p) (lenZ p)); try lia. cbn [Z.leb andb rget].
    change (0 <=? 0) with true. cbn [andb rget]. unfold lenZ. by rewrite Nat2Z.id, drop_0, firstn_all.
Qed.

Lemma read_item_encode it fuel :
  item_ok it -> lenZ (encode it) < 2 ^ 63 -> (length (encode it) < fuel)%nat -> read_item fuel (encode it) = Value it.
Proof.
  revert fuel. induction it as [bs|l IH] using item_ind_all; intros fuel Hok Hl Hfuel; destruct fuel as [|fuel]; try lia;
    pose proof (encode_frame _ Hok Hl) as Hf; pose proof (frame_of_payload _ _ _ Hf) as [Hp Hp2];
    destruct (frame_of_facts _ _ _ Hf ltac:(lia)) as [_ _ Hlist _ _ _ _ _]; cbn [read_item]; rewrite Hlist.
  - by rewrite (toBytes_frame _ bs).
  - inversion Hok as [|? Hall]; subst. specialize (Hp2 eq_refl).
    assert (forall it, it ∈ l -> item_ok it /\ lenZ (encode it) <= lenZ (concat (map encode l))) as Hmem.
    { intros it Hin. split; [by apply (proj1 (Forall_forall _ _) Hall)|apply encode_members; [lia|done]]. }
    rewrite (toList_framed _ (map encode l)); [|done| |done].
    + cbn [rbind]. assert (rmap (read_item fuel) (map encode l) = Value l) as ->; [|done].
      apply rmap_Value. apply Forall2_fmap_l, Forall_Forall2_diag, Forall_forall. intros it Hin.
      destruct (Hmem it Hin) as [Hi1 Hi2]. apply (proj1 (Forall_forall _ _) IH it Hin); [done|lia|].
      unfold lenZ in *. lia.
    + apply Forall_fmap, Forall_forall. intros it Hin. destruct (Hmem it Hin). apply encode_framed; [done|lia].
Qed.

Lemma append_item_empty it : item_ok it -> lenZ (encode it) < 2 ^ 63 -> rlp_of (append_item it) = Value (encode it).
Proof.
  intros Hok Hl. unfold rlp_of. rewrite append_item_spec by (done || lia). done.
Qed.

(** C14. Writing then reading gives the item back. *)
Theorem rlp_roundtrip it :
  item_ok it -> lenZ (encode it) < 2 ^ 63 ->
  exists d, rlp_of (append_item it) = Value d /\ mkRLP VeryStrict d = Value d /\
    read_item (S (length d)) d = Value it.
Proof.
  intros Hok Hl. exists (encode it). split; [by apply append_item_empty|].
  split; [by apply mkRLP_framed, encode_framed|]. apply read_item_encode; [done|done|lia].
Qed.

Lemma read_item_inv fuel d it :
  byte_list d -> framed d -> lenZ d < 2 ^ 63 -> read_item fuel d = Value it -> item_ok it /\ encode it = d.
Proof.
  revert d it. induction fuel as [|fuel IH]; intros d it Hb Hf Hl Hr; [done|]. cbn [read_item] in Hr.
  destruct (proj1 (framed_frame_of d) Hf) as (b & p & Hfo). pose proof (frame_of_payload _ _ _ Hfo) as [Hp Hp2].
  destruct (frame_of_facts _ _ _ Hfo ltac:(lia)) as [_ Hpay Hlist Hdata _ Hoff (h & Hh & Hhl) _]. rewrite Hlist in Hr.
  destruct b.
  - specialize (Hp2 eq_refl). apply rbind_Value in Hr as (l & Hl1 & Hr). apply rbind_Value in Hr as (its & Hm & Hr).
    injection Hr as <-. apply rmap_Value in Hm.
    assert (exists fs, l = fs /\ concat fs = p /\ Forall framed fs) as (fs & -> & Hcat & Hfs).
    { unfold toList, toList_fuel, iterator_begin in Hl1. rewrite Hlist, Hpay in Hl1. cbn [negb rbind] in Hl1.
      assert (byte_list p) as Hbp by (rewrite Hh in Hb; by apply Forall_app in Hb as [_ ?]).
      apply rbind_Value in Hl1 as (it & Hit & Hl1). apply rbind_Value in Hit as (n & Hn & Hit).
      pose proof (sizeAsEncoded_returns p Hbp) as Hs. rewrite Hn in Hs. cbn [returns] in Hs.
      destruct Hs as (f & rest & -> & <- & Hff). injection Hit as <-.
      rewrite cropped_prefix in Hl1 by lia. rewrite lenZ_app in Hl1.
      replace (lenZ f + lenZ rest - lenZ f) with (lenZ rest) in Hl1 by lia.
      rewrite Hoff, <- Hhl in Hl1.
      pose proof (toList_loop_returns (S (length d)) h f rest []) as Hloop. rewrite <- Hh, Hl1 in Hloop.
      cbn [returns app] in Hloop. apply Hloop; [done|rewrite Hh, !length_app; lia|done|].
      intros ->. destruct Hff as [[? _]|Hff]; [done|]. apply framed_nonempty in Hff. done. }
    assert (Forall2 (fun f it => item_ok it /\ encode it = f) fs its) as H2.
    { assert (byte_list (concat fs)) as Hbc by (rewrite Hcat; rewrite Hh in Hb; by apply Forall_app in Hb as [_ ?]).
      assert (lenZ (concat fs) < 2 ^ 63) as Hlc by (rewrite Hcat; lia).
      clear Hcat Hl1. induction Hm as [|f it fs its Hfi Hm IHm]; constructor.
      - cbn [concat] in *. apply Forall_app in Hbc as [Hbf _]. apply Forall_cons_1 in Hfs as [Hff _].
        rewrite lenZ_app in Hlc. pose proof (lenZ_nonneg (concat fs)). apply IH; [done|done|lia|done].
      - cbn [concat] in *. apply Forall_app in Hbc as [_ Hbc]. apply Forall_cons_1 in Hfs as [_ Hfs].
        rewrite lenZ_app in Hlc. pose proof (lenZ_nonneg f). apply IHm; [done|done|lia]. }
    assert (map encode its = fs /\ Forall item_ok its) as [<- Hok].
    { clear -H2. induction H2 as [|f it fs its [Hi <-] H2 [IH1 IH2]]; [by split|]. cbn [map]. split; [congruence|by constructor]. }
    split; [by constructor|]. cbn [encode]. cbv zeta. rewrite Hcat.
    inversion Hfo as [|base q Hok' Hd Hbase]; subst. apply Z.eqb_eq in Hbase. by subst.
  - rewrite (toBytes_frame d p Hfo Hl) in Hr. injection Hr as <-.
    assert (byte_list p) as Hbp by (rewrite Hh in Hb; by apply Forall_app in Hb as [_ ?]).
    split; [by constructor|]. cbn [encode]. inversion Hfo as [c Hc|base q Hok' Hd Hbase]; subst.
    + cbn [encode_str]. destruct (Z.ltb_spec c 128); [done|lia].
    + pose proof Hok' as (Hb2 & Hn & Hone). destruct Hb2 as [->| ->]; [|done].
      destruct p as [|c [|e p]]; [done| |done]. destruct (Hone eq_refl eq_refl) as (c' & r & [= <- <-] & Hc).
      cbn [encode_str]. destruct (Z.ltb_spec c 128); [lia|done].
Qed.

(** C29. An item has one encoding.  Data that the strict constructor accepts and
    that reads as [it] is, byte for byte, what the writer writes for [it]:
    leading zeros, long forms of short lengths, single bytes behind a header,
    truncated and surplus bytes are all rejected. *)
Theorem rlp_canonical d d' fuel it :
  byte_list d -> d <> [] -> lenZ d < 2 ^ 63 -> mkRLP VeryStrict d = Value d' -> read_item fuel d' = Value it ->
  rlp_of (append_item it) = Value d.
Proof.
  intros Hb Hne Hl Hm Hr. destruct (mkRLP_VeryStrict_inv d d' Hb Hm) as [-> [->|Hf]]; [done|].
  destruct (read_item_inv fuel d it Hb Hf Hl Hr) as [Hok <-]. by apply append_item_empty.
Qed.

(** ** Safety *)

Lemma payload_returns d : byte_list d -> returns (payload d) (fun p => byte_list p /\ lenZ p <= lenZ d).
Proof.
  intros Hb. unfold payload. eapply returns_bind; [by apply rlp_length_returns|]. intros n _ Hn. cbv beta in Hn.
  apply (returns_bind _ _ (fun _ => (lenZ d <? n) = false)); [by destruct (_ <? _)|]. intros [] _ Hlt. apply Z.ltb_ge in Hlt. cbn [returns].
  unfold cropped. pose proof (lenZ_nonneg d). destruct (_ && _ && _).
  - split; [by apply Forall_take, Forall_drop|]. unfold lenZ. rewrite length_take, length_drop. lia.
  - split; [constructor|]. unfold lenZ at 1. cbn. lia.
Qed.

Lemma items_loop_returns fuel d i : byte_list d -> (length d < fuel)%nat -> returns (items_loop fuel d i) (fun _ => True).
Proof.
  revert d i. induction fuel as [|fuel IH]; intros d i Hb Hf; [lia|]. cbn [items_loop].
  destruct (Z.eqb_spec (lenZ d) 0) as [|Hne]; [done|]. eapply returns_bind; [by apply sizeAsEncoded_returns|].
  intros n _ (f & rest & -> & <- & Hfr). rewrite cropped_from_exact. apply Forall_app in Hb as [_ Hb]. apply IH; [done|].
  rewrite length_app in Hf. destruct Hfr as [[He ->]|Hfr]; [by rewrite He in Hne|]. apply framed_nonempty in Hfr. unfold lenZ in *. lia.
Qed.

Lemma isInt_returns d : byte_list d -> returns (isInt d) (fun _ => True).
Proof.
  intros Hb. unfold isInt. destruct d as [|b r]; [done|]. destruct (isNull (b :: r)); [done|].
  apply Forall_cons_1 in Hb as [Hbb _]. cbv beta in Hbb.
  eapply returns_bind; [apply requireGood_returns|]. intros [] _ _. change ((b :: r) @@ 0) with (Some b). cbn [rget rbind].
  rlp_consts. destruct (b <? 128); [done|]. destruct (b =? 128); [done|].
  assert (forall j, 0 <= j -> (lenZ (b :: r) <=? j) = false ->
    returns (x <- rget ((b :: r) @@ j) ;; Value (E := rlp_error) (negb (x =? 0))) (fun _ => True)) as Hget.
  { intros j Hj Hlt%Z.leb_gt. destruct (getZ_lookup (b :: r) j) as [x ->]; [lia|]. done. }
  destruct (Z.leb_spec b 183).
  - apply (returns_bind _ _ (fun _ => (lenZ (b :: r) <=? 1) = false)); [by destruct (_ <=? _)|]. intros [] _ Hlt. by apply Hget.
  - destruct (b <? 192); [|done]. apply (returns_bind _ _ (fun _ => (lenZ (b :: r) <=? 1 + b - 183) = false)); [by destruct (_ <=? _)|].
    intros [] _ Hlt. apply Hget; [lia|done].
Qed.

Lemma toInt_returns T flags d : byte_list d -> returns (toInt T flags d) (fun _ => True).
Proof.
  intros Hb. unfold toInt. eapply returns_bind; [apply requireGood_returns|]. intros [] _ _.
  eapply returns_bind; [by apply isInt_returns|]. intros int _ _. destruct (_ || _ || _); [by destruct (flag _ _)|].
  eapply returns_bind; [by apply payload_returns|]. intros p _ _. destruct (_ && _); [by destruct (flag _ _)|done].
Qed.

Lemma toHash_returns N flags d : byte_list d -> returns (toHash N flags d) (fun _ => True).
Proof.
  intros Hb. unfold toHash. eapply returns_bind; [apply requireGood_returns|]. intros [] _ _.
  eapply returns_bind; [by apply payload_returns|]. intros p _ _. destruct (_ || _ || _); [by destruct (flag _ _)|done].
Qed.

Lemma toBytes_returns flags d : byte_list d -> d = [] \/ framed d -> lenZ d < 2 ^ 63 -> returns (toBytes flags d) (fun _ => True).
Proof.
  intros Hb Hd Hl. unfold toBytes. destruct (isData d) eqn:Hdata; cbn [negb]; [|by destruct (flag _ _)].
  destruct Hd as [->|Hf]; [done|]. destruct (framed_facts d Hf Hl) as (b & p & Hfacts & Hfo).
  destruct b; [by rewrite (fr_data _ _ _ Hfacts) in Hdata|].
  pose proof (toBytes_frame d p Hfo Hl) as Ht. unfold toBytes in Ht. rewrite Hdata in Ht. cbn [negb] in Ht. by rewrite Ht.
Qed.

Lemma toList_returns flags d : byte_list d -> d = [] \/ framed d -> lenZ d < 2 ^ 63 -> returns (toList flags d) (fun _ => True).
Proof.
  intros Hb Hd Hl. unfold toList, toList_fuel. destruct (isList d) eqn:Hlist; cbn [negb]; [|by destruct (flag _ _)].
  destruct Hd as [->|Hf]; [done|]. destruct (framed_facts d Hf Hl) as (b & p & Hfacts & Hfo).
  destruct Hfacts as [_ Hpay _ _ _ Hoff (h & Hh & Hhl) _]. unfold iterator_begin. rewrite Hlist, Hpay. cbn [rbind].
  assert (byte_list p) as Hbp by (rewrite Hh in Hb; by apply Forall_app in Hb as [_ ?]).
  pose proof (sizeAsEncoded_returns p Hbp) as Hs. destruct (sizeAsEncoded p) as [n| | |]; try done. cbn [rbind returns] in *.
  destruct Hs as (f & rest & -> & <- & Hff). pose proof (lenZ_nonneg h).
  assert (lenZ d = lenZ h + lenZ (f ++ rest)) as Hdl by (rewrite Hh at 1; apply lenZ_app).
  rewrite cropped_prefix by lia. rewrite Hoff, <- Hhl. rewrite (lenZ_app f rest).
  replace (lenZ f + lenZ rest - lenZ f) with (lenZ rest) by lia.
  pose proof (toList_loop_returns (S (length d)) h f rest []) as Hloop. rewrite <- Hh in Hloop.
  eapply returns_mono; [apply Hloop; [done|rewrite Hh, !length_app; lia|done|]|done].
  intros ->. destruct Hff as [[? _]|Hff]; [done|]. apply framed_nonempty in Hff. done.
Qed.

(** An item that was read: bytes of the data, one item or none. *)
Definition item_fine (d f : list Z) : Prop := byte_list f /\ (f = [] \/ framed f) /\ lenZ f <= lenZ d.

(** The cache of [operator[]], whatever the data is. *)
Record cache_fine (d : list Z) (r : RLP) : Prop := {
  cf_data : m_data r = d;
  cf_item : item_fine d (m_lastItem r);
  cf_place : m_lastIndex r = 2 ^ 64 - 1 \/
    exists p, payload d = Value p /\ byte_list p /\ lenZ p <= lenZ d /\ 0 <= m_lastEnd r <= lenZ p
}.

Lemma item_fine_nil d : item_fine d [].
Proof. split_and!; [constructor|by left|apply lenZ_nonneg]. Qed.

(** The first item of what is left of the payload. *)
Lemma next_item_fine d pre item : byte_list item -> lenZ (pre ++ item) <= lenZ d -> lenZ d < 2 ^ 63 ->
  returns (sizeAsEncoded item) (fun n => n = lenZ (cropped 0 n item) /\ item_fine d (cropped 0 n item) /\ 0 <= lenZ pre + n <= lenZ (pre ++ item)).
Proof.
  intros Hb Hl Hd. rewrite lenZ_app in *. eapply returns_mono; [by apply sizeAsEncoded_returns|]. intros n (f & rest & -> & <- & Hff).
  pose proof (lenZ_nonneg pre). pose proof (lenZ_nonneg f). pose proof (lenZ_nonneg rest). rewrite lenZ_app in *.
  rewrite cropped_prefix by (rewrite lenZ_app; lia). apply Forall_app in Hb as [Hbf _].
  split; [done|]. split; [|lia]. split; [done|]. split; [|lia]. destruct Hff as [[_ ?]|?]; auto.
Qed.

(** The loop of [operator[]] moves forward in the payload. *)
Lemma subscript_loop_fine fuel i d p : forall r, cache_fine d r -> payload d = Value p -> byte_list p -> lenZ p <= lenZ d -> lenZ d < 2 ^ 63 ->
  0 <= m_lastEnd r <= lenZ p -> lenZ p - m_lastEnd r + 1 < Z.of_nat fuel -> returns (subscript_loop fuel i r) (cache_fine d).
Proof.
  induction fuel as [|fuel IH]; intros r Hc Hp Hbp Hpl Hd He Hf; [lia|]. cbn [subscript_loop].
  destruct (_ && _); [|done]. rewrite (cf_data d r Hc), Hp. cbn [rbind].
  assert (exists pre, p = pre ++ cropped_from (m_lastEnd r) p /\ lenZ pre = m_lastEnd r) as (pre & Hpre & Hprel).
  { unfold cropped_from. destruct (Z.leb_spec (m_lastEnd r) (lenZ p)); [|lia].
    exists (take (Z.to_nat (m_lastEnd r)) p). rewrite take_drop. split; [done|]. unfold lenZ in *. rewrite length_take. lia. }
  set (item := cropped_from (m_lastEnd r) p) in *. clearbody item.
  assert (byte_list item) as Hbi by (rewrite Hpre in Hbp; by apply Forall_app in Hbp as [_ ?]).
  eapply returns_bind; [apply (next_item_fine d pre); [done|by rewrite <- Hpre|done]|]. intros n _ (Hn & Hfine & Hend). rewrite <- Hpre, Hprel in Hend. rewrite <- Hn, u64_small by lia.
  set (r' := mkRLPObject d (m_lastIndex r + 1) (m_lastEnd r + n) (cropped 0 n item)).
  assert (cache_fine d r') as Hc'.
  { constructor; [done|done|]. right. exists p. cbn. split_and!; done || lia. }
  destruct Hfine as (_ & [Hnil|Hff] & _).
  - destruct fuel as [|fuel]; [lia|]. cbn [subscript_loop]. unfold r' in *. cbn [m_lastItem m_lastIndex]. rewrite Hnil in *.
    change (lenZ [] =? 0) with true. rewrite andb_false_r. exact Hc'.
  - apply framed_nonempty in Hff. apply IH; try done. cbn. lia.
Qed.

Lemma subscript_fine d i r : byte_list d -> lenZ d < 2 ^ 63 -> i < 2 ^ 64 -> cache_fine d r ->
  returns (subscript i r) (fun x => cache_fine d (snd x) /\ item_fine d (fst x)).
Proof.
  intros Hb Hl Hi Hc. unfold subscript. rewrite (cf_data d r Hc).
  assert (Hmk : forall f, byte_list f -> returns (mkRLP (Z.lor ThrowOnFail FailIfTooSmall) f) (fun f' => f' = f)).
  { intros f Hbf. unfold mkRLP. change (flag FailIfTooBig (Z.lor ThrowOnFail FailIfTooSmall)) with false.
    change (flag FailIfTooSmall (Z.lor ThrowOnFail FailIfTooSmall)) with true. cbv iota. cbn [rbind].
    pose proof (actualSize_returns _ Hbf) as Ha. destruct (actualSize f); try done. cbn [rbind]. by destruct (_ <? _). }
  apply (returns_bind _ _ (fun r1 => cache_fine d r1 /\ (m_lastIndex r1 < i -> exists p, payload d = Value p /\ byte_list p /\ lenZ p <= lenZ d /\ 0 <= m_lastEnd r1 <= lenZ p))).
  - destruct (Z.ltb_spec i (m_lastIndex r)).
    + eapply returns_bind; [by apply payload_returns|]. intros p Hp [Hbp Hlp].
      eapply returns_bind; [by apply (next_item_fine d [])|]. intros n _ (Hn & Hfine & Hend). change (lenZ []) with 0 in Hend. cbn [app] in Hend.
      assert (exists p0, payload d = Value p0 /\ byte_list p0 /\ lenZ p0 <= lenZ d /\ 0 <= n <= lenZ p0) as Hplace by (exists p; split_and!; done || lia).
      split; [constructor; [done|done|by right]|done].
    + split; [done|]. intros Hlt. destruct (cf_place d r Hc) as [Heq|?]; [lia|done].
  - intros r1 _ [Hc1 Hplace]. apply (returns_bind _ _ (cache_fine d)).
    + rewrite (cf_data d r1 Hc1). destruct (Z.lt_ge_cases (m_lastIndex r1) i) as [Hlt|Hge].
      * destruct (Hplace Hlt) as (p & Hp & Hbp & Hlp & He). apply (subscript_loop_fine _ _ d p); try done. unfold lenZ in *. lia.
      * cbn [subscript_loop]. destruct (Z.ltb_spec (m_lastIndex r1) i); [lia|]. exact Hc1.
    + intros r2 _ Hc2. pose proof (cf_item d r2 Hc2) as Hf. eapply returns_bind; [apply Hmk, Hf|]. by intros f _ ->.
Qed.

Lemma cache_fine_fresh d : cache_fine d (fresh_RLP d).
Proof. constructor; [done|apply item_fine_nil|by left]. Qed.

Lemma subscript_returns d i : byte_list d -> lenZ d < 2 ^ 63 -> i < 2 ^ 64 -> returns (subscript i (fresh_RLP d)) (fun _ => True).
Proof. intros. eapply returns_mono; [by apply subscript_fine; [..|apply cache_fine_fresh]|done]. Qed.

(** C30. Reading is safe.  Whatever bytes a peer or a database delivers, the
    constructor and the conversions of an accepted object only read inside of
    the data, end, and report what they do not like by an exception: the checks
    of [length], [isInt] and [requireGood] guard every access they make. *)
Theorem rlp_read_safe d i T N flags :
  byte_list d -> lenZ d < 2 ^ 63 -> i < 2 ^ 64 ->
  returns (mkRLP VeryStrict d) (fun d' => d' = d /\
    returns (rlp_length d) (fun _ => True) /\ returns (payload d) (fun _ => True) /\ returns (items d) (fun _ => True) /\
    returns (isInt d) (fun _ => True) /\ returns (toList flags d) (fun _ => True) /\ returns (toBytes flags d) (fun _ => True) /\
    returns (toInt T flags d) (fun _ => True) /\ returns (toHash N flags d) (fun _ => True) /\
    returns (subscript i (fresh_RLP d)) (fun _ => True)).
Proof.
  intros Hb Hl Hi. eapply returns_mono; [by apply mkRLP_VeryStrict_returns|]. intros d' [-> Hd]. split; [done|].
  split_and!; [eapply returns_mono; [by apply rlp_length_returns|done]|eapply returns_mono; [by apply payload_returns|done]| |
    by apply isInt_returns|by apply toList_returns|by apply toBytes_returns|by apply toInt_returns|by apply toHash_returns|
    by apply subscript_returns].
  unfold items. destruct (isList d); [|done]. eapply returns_bind; [by apply payload_returns|]. intros p _ [Hbp _].
  apply items_loop_returns; [done|lia].
Qed.

(** ** The theorems at work *)

Definition test_item : item := Lst [Str [0x63; 0x61; 0x74]; Lst [Str []; Str [0x7f]; Str [0x80]]; Str (replicate 60 1)].
Definition test_rlp : list Z :=
  [0xf8; 0x47; 0x83; 0x63; 0x61; 0x74; 0xc4; 0x80; 0x7f; 0x81; 0x80; 0xb8; 60] ++ replicate 60 1.

Lemma byte_list_dec (l : list Z) : forallb (fun b => (0 <=? b) && (b <? 256)) l = true -> byte_list l.
Proof.
  intros H. apply Forall_forall. intros x Hx%list_elem_of_In.
  pose proof (proj1 (forallb_forall _ _) H x Hx) as Hb. cbv beta in *. apply andb_prop in Hb as [?%Z.leb_le ?%Z.ltb_lt]. lia.
Qed.

Lemma test_item_ok : item_ok test_item.
Proof. repeat constructor; lia. Qed.

Example rlp_roundtrip_witness :
  rlp_of (append_item test_item) = Value test_rlp /\ exists d, rlp_of (append_item test_item) = Value d /\
    mkRLP VeryStrict d = Value d /\ read_item (S (length d)) d = Value test_item.
Proof. split; [vm_compute; reflexivity|]. apply (rlp_roundtrip test_item test_item_ok). vm_compute. reflexivity. Defined.

Example rlp_canonical_witness : rlp_of (append_item test_item) = Value test_rlp.
Proof.
  apply (rlp_canonical test_rlp test_rlp 5 test_item).
  - by apply byte_list_dec.
  - discriminate.
  - vm_compute. reflexivity.
  - vm_compute. reflexivity.
  - vm_compute. reflexivity.
Defined.

Example rlp_read_safe_witness : returns (mkRLP VeryStrict [0xb8; 0xff]) (fun d => d = [0xb8; 0xff] /\
    returns (rlp_length [0xb8; 0xff]) (fun _ => True) /\ returns (payload [0xb8; 0xff]) (fun _ => True) /\
    returns (items [0xb8; 0xff]) (fun _ => True) /\
    returns (isInt [0xb8; 0xff]) (fun _ => True) /\ returns (toList Strict [0xb8; 0xff]) (fun _ => True) /\
    returns (toBytes Strict [0xb8; 0xff]) (fun _ => True) /\
    returns (toInt T_u256 Strict [0xb8; 0xff]) (fun _ => True) /\ returns (toHash 20 Strict [0xb8; 0xff]) (fun _ => True) /\
    returns (subscript 3 (fresh_RLP [0xb8; 0xff])) (fun _ => True)).
Proof.
  apply (rlp_read_safe [0xb8; 0xff] 3 T_u256 20 Strict).
  - by apply byte_list_dec.
  - vm_compute. reflexivity.
  - vm_compute. reflexivity.
Defined.
