(* ===== verification/RlpInt.v ===== *)
(** * Integers in RLP, indexing and iteration

    The conversions of [RLP] that are not about whole trees: an integer keeps
    its value within its type and has one encoding, the cached [operator[]]
    returns the item at the index whatever was read before, and iterating over
    data with a surplus behind the list does not end. *)
From stdpp Require Import base list fin_sets.
From Stdlib Require Import ZArith Lia.
From S2P Require Import Prelude Words Result Rlp RlpSpec RlpRead RlpTheorems.
Open Scope result_scope.

(** ** Integers *)

(** [wrap] keeps what fits. *)
Definition IntType_ok (T : IntType) : Prop :=
  0 <= maxSize T /\ forall z, 0 <= z < 2 ^ (8 * maxSize T) -> wrap T z = z.

Definition int_types : list IntType := [T_uint8; T_uint16; T_uint32; T_uint64; T_u160; T_u256; T_bigint].

Lemma int_types_ok T : T ∈ int_types -> IntType_ok T.
Proof.
  unfold int_types. rewrite !elem_of_cons, elem_of_nil.
  intros [->|[->|[->|[->|[->|[->|[->|[]]]]]]]]; (split; [done|]); cbn [T_bigint T_uint8 wrap]; intros z Hz; try done; by apply Z.mod_small.
Qed.

Lemma fromBigEndianT_spec T bs :
  IntType_ok T -> byte_list bs -> lenZ bs <= maxSize T -> fromBigEndianT T bs = be_val bs.
Proof.
  intros [Hm Hw]. unfold fromBigEndianT, be_val. induction bs as [|b bs IH] using rev_ind; intros Hb Hl; [done|].
  apply Forall_app in Hb as [Hbs Hb]. apply Forall_cons_1 in Hb as [Hb _]. cbv beta in Hb. rewrite lenZ_app in Hl.
  change (lenZ [b]) with 1 in Hl. rewrite !foldl_app. cbn [foldl]. rewrite IH by (done || lia). fold (be_val bs).
  pose proof (be_val_range bs Hbs). rewrite lor_shiftl_add by lia. change (2 ^ 8) with 256. apply Hw.
  assert (2 ^ (8 * lenZ bs + 8) <= 2 ^ (8 * maxSize T)) by (apply Z.pow_le_mono_r; lia).
  pose proof (lenZ_nonneg bs). rewrite Z.pow_add_r in * by lia. change (2 ^ 8) with 256 in *. nia.
Qed.

Definition no_leading_zero (bs : list Z) : bool := match bs with [] => true | b :: _ => negb (b =? 0) end.

(** A string is an integer when it does not start with a zero. *)
Lemma isInt_encode bs : byte_list bs -> lenZ bs < 2 ^ 63 -> isInt (encode_str bs) = Value (no_leading_zero bs).
Proof.
  intros Hb Hl. destruct bs as [|b r]; [done|].
  assert (encode_str (b :: r) = [b] /\ 0 <= b < 128 \/
    encode_str (b :: r) = header 128 (lenZ (b :: r)) ++ b :: r /\ header_ok 128 (lenZ (b :: r)) (b :: r)) as [[-> Hbb]|[-> Hok]].
  { pose proof Hb as [Hbb _]%Forall_cons_1. cbv beta in Hbb. rewrite lenZ_cons in *. pose proof (lenZ_nonneg r).
    destruct r as [|c r].
    - cbn [encode_str]. destruct (Z.ltb_spec b 128); [left; split; [done|lia]|right; split; [done|]].
      split_and!; [by left|done|done|]. intros _ _. by exists b, [].
    - right. split; [cbn [encode_str]; by rewrite lenZ_cons|]. split_and!; [by left|lia|lia|]. intros _ He.
      rewrite lenZ_cons in *. pose proof (lenZ_nonneg r). lia. }
  - unfold isInt. change (isNull [b]) with false. rewrite requireGood_cons by lia. cbn [rbind].
    change ([b] @@ 0) with (Some b). cbn [rget rbind no_leading_zero]. rlp_consts. destruct (Z.ltb_spec b 128); [done|lia].
  - destruct (read_header _ _ _ Hok) as [_ _ Hnull _ _ _ Hgood]. unfold isInt. rewrite Hnull, Hgood. cbn [rbind no_leading_zero].
    clear -Hl Hb. set (n := lenZ (b :: r)) in *. assert (1 <= n) by (subst n; rewrite lenZ_cons; pose proof (lenZ_nonneg r); lia).
    rlp_consts. unfold header. destruct (Z.ltb_spec n 56).
    + cbn [app]. change ((128 + n :: b :: r) @@ 0) with (Some (128 + n)). cbn [rget rbind].
      destruct (Z.ltb_spec (128 + n) 128), (Z.eqb_spec (128 + n) 128), (Z.leb_spec (128 + n) 183); try lia.
      rewrite lenZ_cons. fold n. destruct (Z.leb_spec (1 + n) 1); [lia|]. done.
    + destruct (byte_size_pos n ltac:(lia)) as [H1 _]. pose proof (byte_size_le n 8 ltac:(lia) ltac:(lia)).
      pose proof (lenZ_toBigEndian (byte_size n) n ltac:(lia)) as Hbe. set (be := toBigEndian _ n) in *. clearbody be.
      cbn [app]. set (h := 128 + 55 + byte_size n). change ((h :: be ++ b :: r) @@ 0) with (Some h). cbn [rget rbind].
      assert (h = 183 + byte_size n) as -> by (subst h; lia).
      destruct (Z.ltb_spec (183 + byte_size n) 128), (Z.eqb_spec (183 + byte_size n) 128), (Z.leb_spec (183 + byte_size n) 183),
        (Z.ltb_spec (183 + byte_size n) 192); try lia.
      rewrite lenZ_cons, lenZ_app, Hbe. fold n. destruct (Z.leb_spec (1 + (byte_size n + n)) (1 + (183 + byte_size n) - 183)); [lia|].
      cbn [throw_if rbind]. replace (1 + (183 + byte_size n) - 183) with (Z.of_nat (S (length be))) by (unfold lenZ in Hbe; lia).
      rewrite getZ_nat. change ((183 + byte_size n :: be ++ b :: r) !! S (length be)) with ((be ++ b :: r) !! length be). rewrite lookup_app_r, Nat.sub_diag by lia. done.
Qed.

Lemma int_bytes_facts i : 0 <= i -> byte_list (int_bytes i) /\ lenZ (int_bytes i) = byte_size i /\
  be_val (int_bytes i) = i /\ no_leading_zero (int_bytes i) = true.
Proof.
  intros Hi. unfold int_bytes. destruct (Z.eq_dec i 0) as [->|Hne].
  { change (toBigEndian _ 0) with (@nil Z). split_and!; [constructor|done..]. }
  destruct (byte_size_pos i ltac:(lia)) as (H1 & H2 & H3). split; [apply toBigEndian_bytes|].
  split; [by apply lenZ_toBigEndian; lia|]. split.
  - rewrite be_val_toBigEndian, Z2Nat.id by lia. apply Z.mod_small. lia.
  - pose proof (first_byte_toBigEndian i ltac:(lia)) as Hf. destruct (toBigEndian _ i) as [|b r]; [done|].
    cbn [first_byte no_leading_zero] in *. by destruct (Z.eqb_spec b 0).
Qed.

(** A string without leading zeros is the short form of its value. *)
Lemma int_bytes_be_val bs : byte_list bs -> no_leading_zero bs = true -> int_bytes (be_val bs) = bs.
Proof.
  intros Hb Hz. unfold int_bytes. destruct bs as [|b r] eqn:Hbs; [done|]. rewrite <- Hbs in *.
  rewrite byte_size_be_val; [|done|by subst|].
  - unfold lenZ. rewrite Nat2Z.id. by apply toBigEndian_be_val.
  - subst bs. cbn [no_leading_zero first_byte] in *. by destruct (Z.eqb_spec b 0).
Qed.

(** Reading a string as an integer. *)
Lemma toInt_encode T bs :
  byte_list bs -> lenZ bs < 2 ^ 62 -> toInt T Strict (encode_str bs) =
  if negb (no_leading_zero bs) then Error BadCast
  else if maxSize T <? lenZ bs then Error BadCast else Value (fromBigEndianT T bs).
Proof.
  intros Hb Hl. unfold toInt. rewrite isInt_encode by (done || lia).
  assert (item_ok (Str bs)) as Hok by (by constructor). assert (lenZ (encode_str bs) < 2 ^ 63) as Hle.
  { destruct bs as [|b [|c r]]; [done| |]; cbn [encode_str].
    - destruct (b <? 128); [done|]. rewrite lenZ_app. change (lenZ (header 128 1)) with 1. change (lenZ [b]) with 1. lia.
    - rewrite lenZ_app. pose proof (lenZ_nonneg (b :: c :: r)).
      pose proof (header_length 128 (lenZ (b :: c :: r)) ltac:(lia)). lia. }
  pose proof (encode_frame (Str bs) Hok Hle) as Hf. cbn [encode] in Hf.
  destruct (frame_of_facts _ _ _ Hf ltac:(lia)) as [_ Hpay Hlist _ Hnull _ _ Hgood].
  rewrite Hgood. cbn [rbind]. rewrite Hlist, Hnull, Hpay. rewrite !orb_false_r. change (negb (flag AllowNonCanon Strict)) with true.
  rewrite andb_true_r. change (flag ThrowOnFail Strict) with true. change (flag FailIfTooBig Strict) with true. cbn [rbind].
  rewrite andb_true_r. done.
Qed.

(** C31. Integers keep their value, or are refused.  What [append_int] writes for
    a number, [toInt] reads back in every integer type that has room for it,
    and in no other; and the data of any accepted item that reads as a number is
    the one [append_int] writes for it. *)
Theorem rlp_int_roundtrip T i :
  T ∈ int_types -> 0 <= i -> byte_size i < 2 ^ 62 ->
  exists d, rlp_of (append_int i) = Value d /\
    toInt T Strict d = (if maxSize T <? byte_size i then Error BadCast else Value i) /\
    forall d' i', byte_list d' -> lenZ d' < 2 ^ 62 -> mkRLP VeryStrict d' = Value d' -> toInt T Strict d' = Value i' ->
      rlp_of (append_int i') = Value d'.
Proof.
  intros HT Hi Hs. pose proof (int_types_ok T HT) as Hok.
  assert (forall i, 0 <= i -> byte_size i < 2 ^ 62 -> rlp_of (append_int i) = Value (encode_str (int_bytes i))) as Hw.
  { intros j Hj Hjs. unfold rlp_of. rewrite append_int_spec; [done|done|]. destruct (int_bytes_facts j Hj) as (_ & Hl & _).
    pose proof (lenZ_nonneg (int_bytes j)). lia. }
  exists (encode_str (int_bytes i)). split; [by apply Hw|]. destruct (int_bytes_facts i Hi) as (Hb & Hl & Hv & Hz).
  split.
  - rewrite toInt_encode by (done || lia). rewrite Hz, Hl. cbn [negb]. destruct (Z.ltb_spec (maxSize T) (byte_size i)); [done|].
    by rewrite fromBigEndianT_spec by (done || lia); rewrite Hv.
  - intros d i' Hbd Hld Hm Hr. destruct (mkRLP_VeryStrict_inv d d Hbd Hm) as [_ [->|Hf]]; [done|].
    apply framed_frame_of in Hf as (b & p & Hf). pose proof (frame_of_payload _ _ _ Hf) as [Hp _].
    destruct (frame_of_facts _ _ _ Hf ltac:(lia)) as [_ _ Hlist _ Hnull _ (h & Hh & _) Hgood]. destruct b.
    { unfold toInt in Hr. rewrite Hgood in Hr. cbn [rbind] in Hr. apply rbind_Value in Hr as (int & _ & Hr).
      rewrite Hlist, orb_true_r in Hr. done. }
    assert (byte_list p) as Hbp by (rewrite Hh in Hbd; by apply Forall_app in Hbd as [_ ?]).
    assert (d = encode_str p) as ->.
    { assert (read_item 1 d = Value (Str p)) as Hread by (cbn [read_item]; rewrite Hlist, (toBytes_frame d p) by (done || lia); done).
      destruct (read_item_inv 1 d (Str p)) as [_ He]; try done; [|lia]. apply framed_frame_of. by eexists _, _. }
    rewrite toInt_encode in Hr by (done || lia). destruct (no_leading_zero p) eqn:Hnz; [|done]. cbn [negb] in Hr.
    destruct (Z.ltb_spec (maxSize T) (lenZ p)); [done|]. injection Hr as <-. rewrite fromBigEndianT_spec by (done || lia).
    pose proof (be_val_range p Hbp) as [Hv0 _]. destruct (int_bytes_facts (be_val p) Hv0) as (_ & Hl' & _ & _).
    rewrite int_bytes_be_val in Hl' by done. rewrite Hw by (done || lia). by rewrite int_bytes_be_val.
Qed.

(** ** Indexing

    After any reads the cache describes one of the items, or the end. *)
Inductive cache_ok (d : list Z) (fs : list (list Z)) : RLP -> Prop :=
| cache_fresh r : m_data r = d -> m_lastIndex r = 2 ^ 64 - 1 -> cache_ok d fs r
| cache_at k : (k <= length fs)%nat ->
    cache_ok d fs (mkRLPObject d (Z.of_nat k) (lenZ (concat (take (S k) fs))) (default [] (fs !! k))).

Lemma default_lookup_framed fs k : Forall framed fs -> default [] (fs !! k) = [] \/ framed (default [] (fs !! k)).
Proof. intros Hf. destruct (fs !! k) as [f|] eqn:Hk; [right|by left]. by eapply Forall_lookup_1. Qed.

Lemma take_S_app {A} (l : list A) k x : l !! k = Some x -> take (S k) l = take k l ++ [x].
Proof. apply take_S_r. Qed.

(** The end of the payload after the [k]-th item. *)
Lemma payload_rest fs k : cropped_from (lenZ (concat (take k fs))) (concat fs) = concat (drop k fs).
Proof. rewrite <- (take_drop k fs) at 2. rewrite concat_app. apply cropped_from_exact. Qed.

Lemma first_item fs : Forall framed fs -> lenZ (concat fs) < 2 ^ 63 ->
  exists n, sizeAsEncoded (concat fs) = Value n /\ cropped 0 n (concat fs) = default [] (fs !! 0%nat) /\
    n = lenZ (concat (take 1 fs)).
Proof.
  intros Hf Hl. destruct fs as [|f fs]; [by exists 0|]. apply Forall_cons_1 in Hf as [Hf _]. cbn [concat] in *.
  exists (lenZ f). rewrite sizeAsEncoded_framed, cropped_prefix by (done || lia). cbn. by rewrite app_nil_r.
Qed.

Section Indexing.
  Context (d : list Z) (fs : list (list Z)).
  Hypothesis Hpay : payload d = Value (concat fs).
  Hypothesis Hfs : Forall framed fs.
  Hypothesis Hlen : lenZ (concat fs) < 2 ^ 63.

Lemma concat_take_le k : lenZ (concat (take k fs)) <= lenZ (concat fs).
Proof.
  rewrite <- (take_drop k fs) at 2. rewrite concat_app, lenZ_app. pose proof (lenZ_nonneg (concat (drop k fs))). lia.
Qed.

Lemma subscript_loop_spec fuel i k :
  (length fs - k < fuel)%nat -> (k <= length fs)%nat -> Z.of_nat k <= i ->
  exists j, subscript_loop fuel i (mkRLPObject d (Z.of_nat k) (lenZ (concat (take (S k) fs))) (default [] (fs !! k)))
    = Value (mkRLPObject d (Z.of_nat j) (lenZ (concat (take (S j) fs))) (default [] (fs !! j))) /\
    (j <= length fs)%nat /\ default [] (fs !! j) = default [] (fs !! Z.to_nat i).
Proof.
  revert k. induction fuel as [|fuel IH]; intros k Hfuel Hk Hi; [lia|]. cbn [subscript_loop m_lastIndex m_lastItem m_data m_lastEnd].
  destruct (Z.ltb_spec (Z.of_nat k) i) as [Hlt|Hge]; cbn [andb].
  2:{ exists k. assert (Z.to_nat i = k) as -> by lia. done. }
  destruct (fs !! k) as [f|] eqn:Hkf; cbn [default].
  2:{ apply lookup_ge_None_1 in Hkf. exists k. change (lenZ [] =? 0) with true. cbn [negb].
      rewrite (lookup_ge_None_2 fs k), (lookup_ge_None_2 fs (Z.to_nat i)) by lia. done. }
  pose proof (framed_nonempty f (Forall_lookup_1 _ _ _ _ Hfs Hkf)) as Hf1. apply lookup_lt_Some in Hkf as Hkl.
  cbn [default id]. destruct (Z.eqb_spec (lenZ f) 0) as [|_]; [lia|]. cbn [negb]. rewrite Hpay. cbn [rbind]. rewrite payload_rest.
  destruct (first_item (drop (S k) fs)) as (n & Hn & Hc & Hnl); [by apply Forall_drop| |].
  { rewrite <- (take_drop (S k) fs) in Hlen. rewrite concat_app, lenZ_app in Hlen. pose proof (lenZ_nonneg (concat (take (S k) fs))). lia. }
  rewrite Hn. cbn [rbind]. rewrite Hc, lookup_drop, Nat.add_0_r.
  assert (u64 (lenZ (concat (take (S k) fs)) + lenZ (default [] (fs !! S k))) = lenZ (concat (take (S (S k)) fs))) as ->.
  { assert (concat (take (S (S k)) fs) = concat (take (S k) fs) ++ default [] (fs !! S k)) as Hcat.
    { destruct (fs !! S k) as [g|] eqn:Hg.
      - rewrite (take_S_app fs (S k) g Hg), concat_app. cbn. by rewrite app_nil_r.
      - apply lookup_ge_None_1 in Hg. rewrite !take_ge by lia. cbn. by rewrite app_nil_r. }
    rewrite Hcat, <- lenZ_app, <- Hcat. apply u64_small. pose proof (concat_take_le (S (S k))). pose proof (lenZ_nonneg (concat (take (S (S k)) fs))). lia. }
  replace (Z.of_nat k + 1) with (Z.of_nat (S k)) by lia. apply IH; lia.
Qed.

(** One read: the item at the index, empty beyond the end. *)
Lemma subscript_spec i r : (length fs <= length d)%nat -> 0 <= i < 2 ^ 64 - 1 -> cache_ok d fs r ->
  exists r', subscript i r = Value (default [] (fs !! Z.to_nat i), r') /\ cache_ok d fs r'.
Proof.
  intros Hfd Hi Hr. unfold subscript. destruct (first_item fs Hfs Hlen) as (n & Hn & Hc & Hnl).
  assert (forall f, f = [] \/ framed f -> mkRLP (Z.lor ThrowOnFail FailIfTooSmall) f = Value f) as Hmk.
  { intros f [->|Hf]; [done|]. pose proof (sizeAsEncoded_framed f [] Hf) as Hs. rewrite app_nil_r in Hs. unfold sizeAsEncoded in Hs.
    apply rbind_Value in Hs as (f' & Hf' & _). rewrite Hf'. f_equal. unfold mkRLP in Hf'.
    change (flag FailIfTooBig (Z.lor ThrowOnFail FailIfTooSmall)) with false in Hf'. cbn [rbind] in Hf'.
    change (flag FailIfTooSmall (Z.lor ThrowOnFail FailIfTooSmall)) with true in Hf'. cbv iota in Hf'.
    apply rbind_Value in Hf' as (m & _ & Hf'). destruct (lenZ f <? m); [done|]. by injection Hf'. }
  assert (exists k, (if i <? m_lastIndex r then p <- payload (m_data r) ;; n <- sizeAsEncoded p ;;
              Value (mkRLPObject (m_data r) 0 n (cropped 0 n p)) else Value r) =
    Value (E := rlp_error) (mkRLPObject d (Z.of_nat k) (lenZ (concat (take (S k) fs))) (default [] (fs !! k))) /\
    (k <= length fs)%nat /\ Z.of_nat k <= i) as (k & -> & Hk & Hki).
  { assert (m_data r = d) as Hd by (by destruct Hr). destruct (Z.ltb_spec i (m_lastIndex r)) as [Hlt|Hge].
    - exists 0%nat. rewrite Hd, Hpay. cbn [rbind]. rewrite Hn. cbn [rbind]. rewrite Hc, Hnl. split_and!; [done|lia|lia].
    - destruct Hr as [r ? Hri|k Hk]; [rewrite Hri in Hge; lia|]. cbn in Hge. exists k. split_and!; [done|done|lia]. }
  cbn [rbind m_data]. destruct (subscript_loop_spec (S (S (length d))) i k ltac:(lia) Hk Hki) as (j & -> & Hj & Hji).
  cbn [rbind m_lastItem]. rewrite Hji, Hmk by (by apply default_lookup_framed). cbn [rbind].
  eexists. split; [done|]. rewrite <- Hji. by constructor.
Qed.
End Indexing.

(** One read of a list of items. *)
Lemma subscript_item l i r : item_ok (Lst l) -> lenZ (encode (Lst l)) < 2 ^ 63 -> 0 <= i < 2 ^ 64 - 1 ->
  cache_ok (encode (Lst l)) (map encode l) r ->
  exists r', subscript i r = Value (default [] (map encode l !! Z.to_nat i), r') /\ cache_ok (encode (Lst l)) (map encode l) r'.
Proof.
  intros Hok Hl Hi Hr. pose proof (encode_frame _ Hok Hl) as Hf. cbv beta iota in Hf. pose proof (frame_of_payload _ _ _ Hf) as [Hp _].
  destruct (frame_of_facts _ _ _ Hf ltac:(lia)) as [_ Hpay _ _ _ _ _ _].
  assert (Forall framed (map encode l)) as Hfs.
  { inversion Hok as [|? Hall]; subst. apply Forall_fmap, Forall_forall. intros it Hin. apply encode_framed.
    - by apply (proj1 (Forall_forall _ _) Hall).
    - pose proof (encode_members l it ltac:(lia) Hin). lia. }
  pose proof (concat_framed_length _ Hfs) as Hcl. apply (subscript_spec _ _ Hpay Hfs ltac:(lia) i r); [|done|done].
  unfold lenZ in *. lia.
Qed.

Lemma cache_ok_fresh d fs : cache_ok d fs (fresh_RLP d).
Proof. by constructor. Qed.

(** [r\[i\]] for each of the indices, one after the other on one object. *)
Fixpoint subscripts (ixs : list Z) (r : RLP) : res (list (list Z)) :=
  match ixs with
  | [] => Value []
  | i :: ixs => v <- subscript i r ;; vs <- subscripts ixs (snd v) ;; Value (fst v :: vs)
  end.

(** Indexing does not depend on the cache.  However the items of a list are
    visited, forwards, backwards or repeatedly, each read returns the item at
    its index, and an empty item beyond the end. *)
Theorem rlp_subscript l ixs :
  item_ok (Lst l) -> lenZ (encode (Lst l)) < 2 ^ 63 -> Forall (fun i => 0 <= i < 2 ^ 64 - 1) ixs ->
  subscripts ixs (fresh_RLP (encode (Lst l))) = Value (map (fun i => default [] (map encode l !! Z.to_nat i)) ixs).
Proof.
  intros Hok Hl His. pose proof (cache_ok_fresh (encode (Lst l)) (map encode l)) as Hr. revert Hr.
  generalize (fresh_RLP (encode (Lst l))). induction His as [|i ixs Hi His IH]; intros r Hr; [done|].
  cbn [subscripts map]. destruct (subscript_item l i r Hok Hl Hi Hr) as (r' & -> & Hr'). cbn [rbind snd fst]. by rewrite (IH r' Hr').
Qed.

(** ** A surplus behind a list *)

Lemma toList_loop_surplus fuel d pos ret :
  0 <= pos < lenZ d -> toList_loop fuel d (mkIterator pos 0 0) ret = OutOfFuel.
Proof.
  intros Hp. revert ret. induction fuel as [|fuel IH]; intros ret; [done|]. cbn [toList_loop it_pos it_count iterator_end].
  destruct (Z.eqb_spec pos (lenZ d)); [lia|]. cbn [andb]. unfold view. cbn [Z.to_nat take].
  change (mkRLP VeryStrict []) with (Value (E := rlp_error) (@nil Z)). cbn [rbind]. unfold iterator_next. cbn [it_remaining it_pos it_count].
  change (negb (0 =? 0)) with false. cbv iota. cbn [rbind]. rewrite Z.add_0_r. apply IH.
Qed.

Lemma toList_loop_surplus_items fuel fs pre f rest ret :
  Forall framed (f :: fs) -> rest <> [] -> lenZ (pre ++ concat (f :: fs) ++ rest) < 2 ^ 63 ->
  toList_loop fuel (pre ++ concat (f :: fs) ++ rest) (mkIterator (lenZ pre) (lenZ f) (lenZ (concat fs))) ret = OutOfFuel.
Proof.
  intros Hf Hrest. revert fuel pre f ret Hf. induction fs as [|g fs IH]; intros fuel pre f ret Hf Hl; destruct fuel as [|fuel]; try done;
    cbn [toList_loop it_pos it_count iterator_end]; apply Forall_cons_1 in Hf as [Hf Hfs]; pose proof (framed_nonempty f Hf) as Hf1;
    destruct (Z.eqb_spec (lenZ f) 0); [lia| |lia|]; rewrite andb_false_r; cbn [concat] in *; rewrite <- (app_assoc f);
    rewrite view_exact, mkRLP_framed by done; cbn [rbind]; unfold iterator_next; cbn [it_remaining it_pos it_count].
  - change (negb (lenZ [] =? 0)) with false. cbv iota. cbn [rbind app]. apply toList_loop_surplus.
    rewrite !lenZ_app. pose proof (lenZ_nonneg pre). destruct rest as [|x rest]; [done|]. rewrite lenZ_cons. pose proof (lenZ_nonneg rest). lia.
  - pose proof (framed_nonempty g) as Hg. pose proof Hfs as [Hg1 Hfs']%Forall_cons_1. specialize (Hg Hg1).
    rewrite !lenZ_app in *. pose proof (lenZ_nonneg (concat fs)). pose proof (lenZ_nonneg pre). pose proof (lenZ_nonneg rest).
    destruct (Z.eqb_spec (lenZ g + lenZ (concat fs)) 0); [lia|]. cbn [negb].
    assert (view (lenZ pre + lenZ f) (lenZ g + lenZ (concat fs)) (pre ++ f ++ (g ++ concat fs) ++ rest) = g ++ concat fs) as ->.
    { rewrite <- !lenZ_app, (app_assoc pre). apply view_exact. }
    rewrite sizeAsEncoded_framed by done. cbn [rbind]. rewrite cropped_prefix by (rewrite lenZ_app; lia).
    rewrite Z.min_r by lia. replace (lenZ g + lenZ (concat fs) - lenZ g) with (lenZ (concat fs)) by lia.
    rewrite app_assoc, <- lenZ_app. apply (IH fuel (pre ++ f) g); [done|]. rewrite !lenZ_app. lia.
Qed.

Lemma items_loop_framed fuel fs i : Forall framed fs -> (length fs < fuel)%nat -> items_loop fuel (concat fs) i = Value (i + lenZ fs).
Proof.
  revert fuel i. induction fs as [|f fs IH]; intros fuel i Hf Hfuel; (destruct fuel as [|fuel]; [lia|]); cbn [items_loop concat].
  - change (lenZ []) with 0. cbn. f_equal. unfold lenZ. cbn. lia.
  - apply Forall_cons_1 in Hf as [Hf Hfs]. pose proof (framed_nonempty f Hf). rewrite !lenZ_app. pose proof (lenZ_nonneg (concat fs)).
    destruct (Z.eqb_spec (lenZ f + lenZ (concat fs)) 0); [lia|]. rewrite sizeAsEncoded_framed by done. cbn [rbind].
    rewrite cropped_from_exact, IH by (done || (cbn in Hfuel; lia)). rewrite lenZ_cons. f_equal. lia.
Qed.

(** Iterating over a list that other data follows does not end.  The
    iterator compares its place with the end of the data of the object, not
    with the end of the list's payload; when the object was made without
    [FailIfTooBig], as [RLP(data, LaissezFaire)] does, it stands still at the
    end of the payload and the loop runs forever, whatever the fuel. *)
Theorem rlp_iterate_surplus l rest flags fuel :
  item_ok (Lst l) -> rest <> [] -> lenZ (encode (Lst l) ++ rest) < 2 ^ 63 ->
  mkRLP LaissezFaire (encode (Lst l) ++ rest) = Value (encode (Lst l) ++ rest) /\
  items (encode (Lst l) ++ rest) = Value (lenZ l) /\
  toList_fuel fuel flags (encode (Lst l) ++ rest) = OutOfFuel.
Proof.
  intros Hok Hrest Hl. assert (lenZ (encode (Lst l)) < 2 ^ 63) as Hl1 by (rewrite lenZ_app in Hl; pose proof (lenZ_nonneg rest); lia).
  pose proof (encode_frame _ Hok Hl1) as Hf. cbv beta iota in Hf. pose proof (frame_of_payload _ _ _ Hf) as [Hp _].
  assert (Forall framed (map encode l)) as Hfs.
  { inversion Hok as [|? Hall]; subst. apply Forall_fmap, Forall_forall. intros it Hin. apply encode_framed.
    - by apply (proj1 (Forall_forall _ _) Hall).
    - pose proof (encode_members l it ltac:(lia) Hin). lia. }
  split; [done|]. cbn [encode] in *. cbv zeta in *. set (p := concat (map encode l)) in *.
  assert (header_ok 192 (lenZ p) p) as Hh by (inversion Hf as [|base q Hok' Hd Hb]; apply Z.eqb_eq in Hb; by rewrite <- Hb).
  pose proof (header_ok_app _ _ _ rest Hh eq_refl) as Hh'. destruct (read_header _ _ _ Hh') as [Hlen Hoff _ Hlist _ _ _].
  rewrite <- app_assoc in *. set (h := header 192 (lenZ p)) in *. change (192 =? 192) with true in Hlist.
  pose proof (lenZ_nonneg h). pose proof (lenZ_nonneg p). pose proof (lenZ_nonneg rest).
  assert (payload (h ++ p ++ rest) = Value p) as Hpay.
  { unfold payload. rewrite Hlen. cbn [rbind]. rewrite !lenZ_app in *. destruct (Z.ltb_spec (lenZ h + (lenZ p + lenZ rest)) (lenZ p)); [lia|].
    cbn [throw_if rbind]. rewrite Hoff. rewrite cropped_exact; [done|]. rewrite !lenZ_app. lia. }
  rewrite !lenZ_app in *. split.
  - unfold items. rewrite Hlist, Hpay. cbn [rbind]. unfold p.
    assert (length (map encode l) < S (length (concat (map encode l))))%nat as Hn by (apply le_n_S, concat_framed_length, Hfs).
    rewrite items_loop_framed by done. f_equal. unfold lenZ. rewrite length_map. lia.
  - unfold toList_fuel, iterator_begin. rewrite Hlist, Hpay, Hoff. cbn [negb rbind].
    destruct (first_item (map encode l) Hfs ltac:(unfold p in *; lia)) as (n & Hn & Hc & _). fold p in Hn, Hc. rewrite Hn. cbn [rbind]. rewrite Hc.
    destruct (map encode l) as [|f fs] eqn:He.
    + cbn [lookup list_lookup default]. change (lenZ []) with 0 in *. rewrite Z.sub_0_r. assert (p = []) as Hp0 by done. rewrite Hp0.
      change (lenZ []) with 0. apply toList_loop_surplus. rewrite !lenZ_app. destruct rest as [|x rest]; [done|].
      rewrite lenZ_cons. pose proof (lenZ_nonneg rest). change (lenZ []) with 0. lia.
    + change (default [] ((f :: fs) !! 0%nat)) with f. replace (lenZ p - lenZ f) with (lenZ (concat fs)) by (subst p; cbn [concat]; rewrite lenZ_app; lia).
      apply toList_loop_surplus_items; [done|done|]. rewrite !lenZ_app. change (concat (f :: fs)) with p. lia.
Qed.

(** ** The theorems at work *)

Example rlp_int_roundtrip_witness :
  exists d, rlp_of (append_int 0x1234) = Value d /\ toInt T_uint8 Strict d = Error BadCast /\
    forall d' i', byte_list d' -> lenZ d' < 2 ^ 62 -> mkRLP VeryStrict d' = Value d' -> toInt T_uint8 Strict d' = Value i' ->
      rlp_of (append_int i') = Value d'.
Proof.
  apply (rlp_int_roundtrip T_uint8 0x1234).
  - unfold int_types. apply list_elem_of_here.
  - lia.
  - vm_compute. reflexivity.
Defined.

Example rlp_subscript_witness :
  subscripts [2; 0; 5; 1] (fresh_RLP (encode test_item))
  = Value [encode (Str (replicate 60 1)); encode (Str [0x63; 0x61; 0x74]); []; [0xc4; 0x80; 0x7f; 0x81; 0x80]].
Proof.
  refine (eq_trans (rlp_subscript _ [2; 0; 5; 1] test_item_ok _ _) _).
  - vm_compute. reflexivity.
  - repeat constructor; done || lia.
  - vm_compute. reflexivity.
Defined.

Example rlp_iterate_surplus_witness :
  mkRLP LaissezFaire [0xc1; 0x05; 0xff] = Value [0xc1; 0x05; 0xff] /\ items [0xc1; 0x05; 0xff] = Value 1 /\
  toList_fuel 1000 Strict [0xc1; 0x05; 0xff] = OutOfFuel.
Proof.
  apply (rlp_iterate_surplus [Str [5]] [0xff] Strict 1000).
  - repeat constructor; lia.
  - discriminate.
  - vm_compute. reflexivity.
Defined.

(** * Values in RLP

    What the codecs of accounts, transactions and nodes share: numbers and
    hashes are written as strings and read back. *)

Lemma u256_bytes i : is_u256 i -> 0 <= byte_size i <= 32.
Proof. intros Hi. apply byte_size_le; [lia|exact Hi]. Qed.

Lemma h256_bytes_facts h : byte_list (h256_bytes h) /\ lenZ (h256_bytes h) = 32.
Proof. split; [apply toBigEndian_bytes|by apply (lenZ_toBigEndian 32)]. Qed.

Lemma encode_str_length bs : lenZ bs < 2 ^ 64 -> 1 <= lenZ (encode_str bs) <= 9 + lenZ bs.
Proof.
  intros Hl. destruct bs as [|b [|c bs]]; [done| |]; cbn [encode_str].
  - destruct (b <? 0x80); rewrite ?lenZ_app; done.
  - rewrite lenZ_app. pose proof (lenZ_nonneg (b :: c :: bs)). pose proof (header_length 128 (lenZ (b :: c :: bs)) ltac:(lia)). lia.
Qed.

Open Scope result_scope.

Lemma append_items_app l1 l2 s : append_items (l1 ++ l2) s = (s <- append_items l1 s ;; append_items l2 s).
Proof. revert s. induction l1 as [|it l1 IH]; intros s; [done|]. cbn [app append_items]. destruct (append_item it s); cbn [rbind]; auto. Qed.

(** A number is written as the string of its bytes. *)
Lemma append_int_item i s : is_u256 i -> append_int i s = append_item (Str (int_bytes i)) s.
Proof.
  intros Hi. pose proof (u256_bytes i Hi). destruct (int_bytes_facts i ltac:(lia)) as (Hb & Hl & _).
  rewrite append_int_spec by lia. cbn [append_item]. by rewrite append_bytes_spec by (done || lia).
Qed.

Lemma toInt_u256 i : is_u256 i -> toInt T_u256 Strict (encode_str (int_bytes i)) = Value i.
Proof.
  intros Hi. pose proof (u256_bytes i Hi). destruct (int_bytes_facts i ltac:(lia)) as (Hb & Hl & Hv & Hz).
  rewrite toInt_encode by (done || lia). rewrite Hz, Hl. change (maxSize T_u256) with 32. cbn [negb].
  destruct (Z.ltb_spec 32 (byte_size i)); [lia|]. rewrite fromBigEndianT_spec; [by rewrite Hv| |done|rewrite Hl; cbn; lia].
  apply int_types_ok. unfold int_types. set_solver.
Qed.

Lemma encode_str_frame bs : byte_list bs -> lenZ bs < 2 ^ 62 -> frame_facts (encode_str bs) false bs /\ lenZ (encode_str bs) < 2 ^ 63 /\ framed (encode_str bs).
Proof.
  intros Hb Hl. assert (item_ok (Str bs)) as Hok by (by constructor). pose proof (encode_str_length bs ltac:(lia)) as Hlen.
  assert (lenZ (encode (Str bs)) < 2 ^ 63) as Hle by (cbn [encode]; lia). pose proof (encode_frame (Str bs) Hok Hle) as Hf.
  split_and!; [by apply frame_of_facts; [|lia]|lia|exact (encode_framed (Str bs) Hok Hle)].
Qed.

Lemma toHash_encode_any N flags bs : byte_list bs -> lenZ bs = N -> N < 2 ^ 62 -> toHash N flags (encode_str bs) = Value bs.
Proof.
  intros Hb Hl HN. destruct (encode_str_frame bs Hb ltac:(lia)) as [[_ Hpay _ Hdata _ _ _ Hgood] _].
  unfold toHash. rewrite Hgood, Hpay. cbn [rbind]. rewrite Hdata, Hl, Z.ltb_irrefl, Z.min_id, Z.sub_diag. cbn [negb orb andb replicate Z.to_nat app].
  rewrite take_ge; [done|]. unfold lenZ in Hl. lia.
Qed.

Lemma toHash_encode bs : byte_list bs -> lenZ bs = 32 -> toHash 32 Strict (encode_str bs) = Value bs.
Proof. intros. by apply toHash_encode_any. Qed.

(** The bytes of a string. *)
Lemma toBytes_encode flags bs : byte_list bs -> lenZ bs < 2 ^ 62 -> toBytes flags (encode_str bs) = Value bs.
Proof.
  intros Hb Hl. destruct (encode_str_frame bs Hb Hl) as [[Hlen Hpay _ Hdata _ _ _ _] _].
  unfold toBytes. rewrite Hdata. cbn [negb]. rewrite Hpay. cbn [rbind]. rewrite Hlen. cbn [rbind].
  destruct (slice_Some 0 (lenZ bs) bs) as (d & Hd & Hdl); [lia|apply lenZ_nonneg|right; lia|]. rewrite Hd. cbn [rget]. f_equal.
  unfold slice in Hd. destruct (Z.eqb_spec (lenZ bs) 0) as [He|He].
  - destruct bs; [by injection Hd|]. rewrite lenZ_cons in He. pose proof (lenZ_nonneg bs). lia.
  - destruct (_ && _ && _); [|done]. injection Hd as <-. unfold lenZ. by rewrite Nat2Z.id, drop_0, firstn_all.
Qed.

Lemma be_val_h256 h : is_u256 h -> be_val (h256_bytes h) = h.
Proof. intros Hh. unfold h256_bytes. rewrite be_val_toBigEndian by lia. apply Z.mod_small. exact Hh. Qed.

Lemma h256_bytes_inj k k' : is_u256 k -> is_u256 k' -> h256_bytes k = h256_bytes k' -> k = k'.
Proof. intros Hk Hk' He. rewrite <- (be_val_h256 k Hk), <- (be_val_h256 k' Hk'). by rewrite He. Qed.
