(* ===== verification/StateMonad.v ===== *)
(** * Computations on a shared state that may throw

    The monad of the member functions that change an object: [SM S E A] is a
    function on the object that returns a value or throws, and leaves the object
    changed in both cases, as C++ does.  [posts] is its logic: what holds of the
    value and the state when it returns, and of the exception and the state
    when it throws. *)
From stdpp Require Import base list.
From Stdlib Require Import ZArith Lia.
From S2P Require Import Prelude Words Result Rlp.

Definition SM (S E A : Type) : Type := S -> result E A * S.

Declare Scope sm_scope.
Delimit Scope sm_scope with sm.

Section SM.
  Context {S E : Type}.

Definition sret {A} (a : A) : SM S E A := fun s => (Value a, s).
Definition sbind {A B} (m : SM S E A) (f : A -> SM S E B) : SM S E B := fun s =>
  match m s with
  | (Value a, s') => f a s'
  | (Error e, s') => (Error e, s')
  | (OutOfBounds, s') => (OutOfBounds, s')
  | (OutOfFuel, s') => (OutOfFuel, s')
  end.
Definition sget : SM S E S := fun s => (Value s, s).
Definition smod (f : S -> S) : SM S E unit := fun s => (Value tt, f s).
Definition sthrow {A} (e : E) : SM S E A := fun s => (Error e, s).
Definition slift {A} (r : result E A) : SM S E A := fun s => (r, s).

(** Every outcome is a return that satisfies [P] or an exception that
    satisfies [Q]. *)
Definition posts {A} (m : SM S E A) (P : A -> S -> Prop) (Q : E -> S -> Prop) (s : S) : Prop :=
  match m s with
  | (Value a, s') => P a s'
  | (Error e, s') => Q e s'
  | _ => False
  end.

Lemma posts_ret {A} (a : A) (P : A -> S -> Prop) Q s : P a s -> posts (sret a) P Q s.
Proof. done. Qed.

Lemma posts_bind {A B} (m : SM S E A) (f : A -> SM S E B) P P' Q s :
  posts m P' Q s -> (forall a s', P' a s' -> posts (f a) P Q s') -> posts (sbind m f) P Q s.
Proof. unfold posts, sbind. intros Hm Hf. destruct (m s) as [[] s']; try done. by apply Hf. Qed.

Lemma posts_mono {A} (m : SM S E A) (P P' : A -> S -> Prop) (Q Q' : E -> S -> Prop) s :
  posts m P Q s -> (forall a s', P a s' -> P' a s') -> (forall e s', Q e s' -> Q' e s') -> posts m P' Q' s.
Proof. unfold posts. destruct (m s) as [[] s']; auto. Qed.

Lemma posts_get (P : S -> S -> Prop) Q s : P s s -> posts sget P Q s.
Proof. done. Qed.

Lemma posts_mod f (P : unit -> S -> Prop) Q s : P tt (f s) -> posts (smod f) P Q s.
Proof. done. Qed.

Lemma posts_throw {A} e (P : A -> S -> Prop) (Q : E -> S -> Prop) s : Q e s -> posts (sthrow e) P Q s.
Proof. done. Qed.

Lemma posts_conj {A} (m : SM S E A) (P P' : A -> S -> Prop) (Q Q' : E -> S -> Prop) s :
  posts m P Q s -> posts m P' Q' s -> posts m (fun a s' => P a s' /\ P' a s') (fun e s' => Q e s' /\ Q' e s') s.
Proof. unfold posts. destruct (m s) as [[] s']; auto. Qed.
End SM.

(** Lift a computation that throws into one with more exceptions. *)
Definition map_error {E F A} (f : E -> F) (r : result E A) : result F A :=
  match r with
  | Value a => Value a
  | Error e => Error (f e)
  | OutOfBounds => OutOfBounds
  | OutOfFuel => OutOfFuel
  end.

Notation "x <- m ;; k" := (sbind m (fun x => k))
  (at level 100, m at next level, right associativity) : sm_scope.
Notation "m ;; k" := (sbind m (fun _ => k)) (at level 100, right associativity) : sm_scope.

(** * Exceptions (libdevcore/Exceptions.h, libaeccore/Exceptions.h)

    What the functions of the state, and of the tries it is kept in, throw. *)

(** [DatabaseStatus] and [DatabaseError] (libdevcore/db.h). *)
Inductive DatabaseStatus : Set := Ok | NotFound | Corruption | NotSupported | InvalidArgument | IOError | Unknown.

Inductive DatabaseError : Set := StatusError (s : DatabaseStatus) | CommentError.

(** What the functions of the state and of its tries throw. *)
Inductive state_error : Set :=
| RlpError (e : rlp_error)
| DbError (e : DatabaseError)
| RootNotFound
| BadRoot
| NotEnoughCash
| InvalidAccountStartNonceInState
| IncorrectAccountStartNonceInState.

Definition of_rlp {A} (r : res A) : result state_error A :=
  match r with
  | Value a => Value a
  | Error e => Error (RlpError e)
  | OutOfBounds => OutOfBounds
  | OutOfFuel => OutOfFuel
  end.

