(* ===== verification/Account.v ===== *)
(** * Accounts (libaecereum/Account.h, Account.cpp)

    One account of the state as the cache keeps it: the values of the state
    trie, the overlay of storage that has not been committed, and the flags
    that tell what the commit has to write. *)
From stdpp Require Import base list gmap.
From Stdlib Require Import ZArith Lia.
From S2P Require Import Prelude Words Result Rlp.

(** The hash function.  Hashes are carried as the numbers they are the
    big-endian image of. *)
Class Sha3 := sha3 : list Z -> Z.

Definition EmptySHA3 `{Sha3} : Z := sha3 [].
(** [sha3(rlp(""))] *)
Definition EmptyTrie `{Sha3} : Z := sha3 [0x80].

Inductive Changedness : Set := Changed | Unchanged.

Record Account := mkAccount {
  m_isAlive : bool;
  m_isUnchanged : bool;
  m_hasNewCode : bool;
  m_nonce : Z;
  m_balance : Z;
  m_storageRoot : Z;
  m_codeHash : Z;
  m_storageOverlay : gmap Z Z;
  m_codeCache : list Z
}.

Definition is_Unchanged (c : Changedness) : bool := match c with Unchanged => true | Changed => false end.

Section Account.
  Context `{Sha3}.

(** The three constructors. *)
Definition Account_dead : Account := mkAccount false false false 0 0 EmptyTrie EmptySHA3 ∅ [].
Definition Account_new (nonce balance : Z) (c : Changedness) : Account :=
  mkAccount true (is_Unchanged c) false nonce balance EmptyTrie EmptySHA3 ∅ [].
Definition Account_full (nonce balance contractRoot codeHash : Z) (c : Changedness) : Account :=
  mkAccount true (is_Unchanged c) false nonce balance contractRoot codeHash ∅ [].

Definition kill (a : Account) : Account :=
  mkAccount false false (m_hasNewCode a) 0 0 EmptyTrie EmptySHA3 ∅ (m_codeCache a).

Definition isDirty (a : Account) : bool := negb (m_isUnchanged a).

Definition changed (a : Account) : Account :=
  mkAccount (m_isAlive a) false (m_hasNewCode a) (m_nonce a) (m_balance a) (m_storageRoot a) (m_codeHash a)
    (m_storageOverlay a) (m_codeCache a).

Definition untouch (a : Account) : Account :=
  mkAccount (m_isAlive a) true (m_hasNewCode a) (m_nonce a) (m_balance a) (m_storageRoot a) (m_codeHash a)
    (m_storageOverlay a) (m_codeCache a).

Definition isEmpty (a : Account) : bool := (m_nonce a =? 0) && (m_balance a =? 0) && (m_codeHash a =? EmptySHA3).

Definition addBalance (v : Z) (a : Account) : Account :=
  changed (mkAccount (m_isAlive a) (m_isUnchanged a) (m_hasNewCode a) (m_nonce a) (u256 (m_balance a + v))
    (m_storageRoot a) (m_codeHash a) (m_storageOverlay a) (m_codeCache a)).

Definition setNonce (n : Z) (a : Account) : Account :=
  changed (mkAccount (m_isAlive a) (m_isUnchanged a) (m_hasNewCode a) n (m_balance a)
    (m_storageRoot a) (m_codeHash a) (m_storageOverlay a) (m_codeCache a)).

Definition incNonce (a : Account) : Account :=
  changed (mkAccount (m_isAlive a) (m_isUnchanged a) (m_hasNewCode a) (u256 (m_nonce a + 1)) (m_balance a)
    (m_storageRoot a) (m_codeHash a) (m_storageOverlay a) (m_codeCache a)).

Definition set_overlay (o : gmap Z Z) (a : Account) : Account :=
  mkAccount (m_isAlive a) (m_isUnchanged a) (m_hasNewCode a) (m_nonce a) (m_balance a)
    (m_storageRoot a) (m_codeHash a) o (m_codeCache a).

Definition setStorage (p v : Z) (a : Account) : Account := changed (set_overlay (<[p := v]> (m_storageOverlay a)) a).

Definition setStorageRoot (root : Z) (a : Account) : Account :=
  changed (mkAccount (m_isAlive a) (m_isUnchanged a) (m_hasNewCode a) (m_nonce a) (m_balance a)
    root (m_codeHash a) ∅ (m_codeCache a)).

Definition clearStorage (a : Account) : Account := setStorageRoot EmptyTrie a.

(** Does not count as a change. *)
Definition setStorageCache (p v : Z) (a : Account) : Account := set_overlay (<[p := v]> (m_storageOverlay a)) a.

(** Does not call [changed()] either. *)
Definition setCode (code : list Z) (a : Account) : Account :=
  mkAccount (m_isAlive a) (m_isUnchanged a) true (m_nonce a) (m_balance a) (m_storageRoot a) (sha3 code)
    (m_storageOverlay a) code.

Definition resetCode (a : Account) : Account :=
  mkAccount (m_isAlive a) (m_isUnchanged a) false (m_nonce a) (m_balance a) (m_storageRoot a) EmptySHA3
    (m_storageOverlay a) [].

Definition noteCode (code : list Z) (a : Account) : Account :=
  mkAccount (m_isAlive a) (m_isUnchanged a) (m_hasNewCode a) (m_nonce a) (m_balance a) (m_storageRoot a) (m_codeHash a)
    (m_storageOverlay a) code.
End Account.
