(* ===== verification/State.v ===== *)
(** * The world state (libaecereum/State.h, State.cpp, CodeSizeCache.h)

    [State] is a facade of the state trie: a cache of accounts in front of it,
    a bounded list of the cached accounts that may be dropped, a set of the
    addresses known not to exist, and the log of changes that [rollback] undoes.
    The members that C++ marks [mutable] change in functions marked [const], so
    every function here is a computation on the state.

    A pointer to a cached account is the address it is cached under: the code
    uses such a pointer before it looks at another account.  The change log has
    its newest entry in front. *)
From stdpp Require Import base list gmap fin_sets.
From Stdlib Require Import ZArith Lia.
From S2P Require Import Prelude Words Result Rlp StateMonad Account.

(** ** What the state needs of its database (libdevcore/TrieDB.h, OverlayDB.h)

    [State] keeps its accounts and their storage in tries of one database.
    This is the interface between the two: the operations [State] calls, each
    of which may throw, and the laws it relies on.  A trie is described by the
    map of its keys to their values; opening a trie and changing one only ever
    add nodes to what can be looked up, so every other trie stays as it was. *)

(** [OverlayDB] and the [SecureTrieDB]s over it.  A trie is named by its root;
    changing it gives the database and the new root. *)
Class StateDB (DB : Type) := {
  lookup_code : DB -> Z -> list Z;
  insert_code : Z -> list Z -> DB -> DB;
  (** [SecureTrieDB(db, root)] *)
  trie_open : Z -> DB -> result state_error DB;
  trie_at : DB -> Z -> list Z -> result state_error (list Z);
  trie_insert : Z -> list Z -> list Z -> DB -> result state_error (DB * Z);
  trie_remove : Z -> list Z -> DB -> result state_error (DB * Z)
}.

Notation trie_map := (gmap (list Z) (list Z)).

(** Hashing is only as good as its inputs: an operation is [clean] when nothing
    it writes has the hash of something else that is stored.  What an operation
    that is not clean does is not promised. *)
Class StateDBLaws (DB : Type) `{Sha3} `{!StateDB DB} := {
  (** The trie with this root is in the database and maps these keys. *)
  trie_rep : DB -> Z -> trie_map -> Prop;
  (** Everything that could be looked up still can. *)
  db_le : DB -> DB -> Prop;
  insert_clean : Z -> list Z -> list Z -> DB -> Prop;
  remove_clean : Z -> list Z -> DB -> Prop;
  code_clean : list Z -> DB -> Prop;
  db_le_refl : forall db, db_le db db;
  db_le_trans : forall db1 db2 db3, db_le db1 db2 -> db_le db2 db3 -> db_le db1 db3;
  trie_rep_u256 : forall db r m, trie_rep db r m -> is_u256 r;
  trie_rep_le : forall db db' r m, db_le db db' -> trie_rep db r m -> trie_rep db' r m;
  lookup_code_le : forall db db' h, db_le db db' -> lookup_code db h <> [] -> lookup_code db' h = lookup_code db h;
  trie_open_ok : forall db r m, trie_rep db r m -> trie_open r db = Value db;
  trie_open_empty : forall db, exists db', trie_open EmptyTrie db = Value db' /\ db_le db db' /\ trie_rep db' EmptyTrie ∅;
  trie_at_ok : forall db r m k, trie_rep db r m -> trie_at db r k = Value (default [] (m !! k));
  trie_insert_ok : forall db r m k v, trie_rep db r m -> v <> [] -> insert_clean r k v db ->
    exists db' r', trie_insert r k v db = Value (db', r') /\ db_le db db' /\ trie_rep db' r' (<[k := v]> m);
  trie_remove_ok : forall db r m k, trie_rep db r m -> remove_clean r k db ->
    exists db' r', trie_remove r k db = Value (db', r') /\ db_le db db' /\ trie_rep db' r' (delete k m);
  insert_code_le : forall db code, code_clean code db -> db_le db (insert_code (sha3 code) code db);
  insert_code_lookup : forall db code, lookup_code (insert_code (sha3 code) code db) (sha3 code) = code
}.

Open Scope sm_scope.

(** [dev::s_fixedHashEngine]: [uniform n] is
    [std::uniform_int_distribution<size_t>(0, n)], and [random_h256] is
    [h256::random()]. *)
Class RandomEngine (G : Type) := {
  uniform : Z -> G -> Z * G;
  random_h256 : G -> Z * G;
  uniform_range : forall n g, 0 <= n -> 0 <= (uniform n g).1 <= n
}.

(** [struct Change] *)
Inductive Change : Type :=
| Balance (address value : Z)
| Storage (address key value : Z)
| StorageRoot (address value : Z)
| Nonce (address value : Z)
| Create (address : Z)
| Code (address : Z) (oldCode : list Z)
| Touch (address : Z).

Definition change_address (c : Change) : Z :=
  match c with
  | Balance a _ | Storage a _ _ | StorageRoot a _ | Nonce a _ | Create a | Code a _ | Touch a => a
  end.

Inductive BaseState : Set := PreExisting | Empty.
Inductive CommitBehaviour : Set := KeepEmptyAccounts | RemoveEmptyAccounts.

(** The members, and the two objects of the process the functions use: the
    cache of code sizes and the random engine. *)
Record State (DB G : Type) := mkState {
  m_db : DB;
  m_state : Z;
  m_cache : gmap Z Account;
  m_unchangedCacheEntries : list Z;
  m_nonExistingAccountsCache : gset Z;
  m_touched : gset Z;
  m_accountStartNonce : Z;
  m_changeLog : list Change;
  codeSizeCache : gmap Z Z;
  s_fixedHashEngine : G
}.
Arguments mkState {DB G}.
Arguments m_db {DB G}.
Arguments m_state {DB G}.
Arguments m_cache {DB G}.
Arguments m_unchangedCacheEntries {DB G}.
Arguments m_nonExistingAccountsCache {DB G}.
Arguments m_touched {DB G}.
Arguments m_accountStartNonce {DB G}.
Arguments m_changeLog {DB G}.
Arguments codeSizeCache {DB G}.
Arguments s_fixedHashEngine {DB G}.

Definition Invalid256 : Z := 2 ^ 256 - 1.
Definition c_maxCacheEntries : Z := 1000.
(** [CodeSizeCache::c_maxSize] *)
Definition c_maxSize : Z := 50000.

Section State.
  Context {DB G : Type} `{Sha3} `{!StateDB DB} `{!RandomEngine G} `{!UnorderedMaps}.

Notation st := (State DB G).
Notation M := (SM st state_error).

(** ** Members *)

Definition set_db (db : DB) (s : st) : st :=
  mkState db (m_state s) (m_cache s) (m_unchangedCacheEntries s) (m_nonExistingAccountsCache s) (m_touched s)
    (m_accountStartNonce s) (m_changeLog s) (codeSizeCache s) (s_fixedHashEngine s).
Definition set_trie (db : DB) (root : Z) (s : st) : st :=
  mkState db root (m_cache s) (m_unchangedCacheEntries s) (m_nonExistingAccountsCache s) (m_touched s)
    (m_accountStartNonce s) (m_changeLog s) (codeSizeCache s) (s_fixedHashEngine s).
Definition set_cache (c : gmap Z Account) (s : st) : st :=
  mkState (m_db s) (m_state s) c (m_unchangedCacheEntries s) (m_nonExistingAccountsCache s) (m_touched s)
    (m_accountStartNonce s) (m_changeLog s) (codeSizeCache s) (s_fixedHashEngine s).
Definition set_entries (l : list Z) (s : st) : st :=
  mkState (m_db s) (m_state s) (m_cache s) l (m_nonExistingAccountsCache s) (m_touched s)
    (m_accountStartNonce s) (m_changeLog s) (codeSizeCache s) (s_fixedHashEngine s).
Definition set_nonExisting (n : gset Z) (s : st) : st :=
  mkState (m_db s) (m_state s) (m_cache s) (m_unchangedCacheEntries s) n (m_touched s)
    (m_accountStartNonce s) (m_changeLog s) (codeSizeCache s) (s_fixedHashEngine s).
Definition set_touched (t : gset Z) (s : st) : st :=
  mkState (m_db s) (m_state s) (m_cache s) (m_unchangedCacheEntries s) (m_nonExistingAccountsCache s) t
    (m_accountStartNonce s) (m_changeLog s) (codeSizeCache s) (s_fixedHashEngine s).
Definition set_startNonce (n : Z) (s : st) : st :=
  mkState (m_db s) (m_state s) (m_cache s) (m_unchangedCacheEntries s) (m_nonExistingAccountsCache s) (m_touched s)
    n (m_changeLog s) (codeSizeCache s) (s_fixedHashEngine s).
Definition set_changeLog (l : list Change) (s : st) : st :=
  mkState (m_db s) (m_state s) (m_cache s) (m_unchangedCacheEntries s) (m_nonExistingAccountsCache s) (m_touched s)
    (m_accountStartNonce s) l (codeSizeCache s) (s_fixedHashEngine s).
Definition set_codeSizes (c : gmap Z Z) (g : G) (s : st) : st :=
  mkState (m_db s) (m_state s) (m_cache s) (m_unchangedCacheEntries s) (m_nonExistingAccountsCache s) (m_touched s)
    (m_accountStartNonce s) (m_changeLog s) c g.
Definition set_engine (g : G) (s : st) : st := set_codeSizes (codeSizeCache s) g s.

(** [m_changeLog.emplace_back(...)] *)
Definition log_change (c : Change) : M unit := smod (fun s => set_changeLog (c :: m_changeLog s) s).
(** A change through the pointer to a cached account. *)
Definition update_account (a : Z) (f : Account -> Account) : M unit :=
  smod (fun s => set_cache (alter f a (m_cache s)) s).
(** [m_cache\[a\]], which makes a dead account when there is none. *)
Definition cache_at (a : Z) (s : st) : Account := default Account_dead (m_cache s !! a).
Definition update_at (a : Z) (f : Account -> Account) : M unit :=
  smod (fun s => set_cache (<[a := f (cache_at a s)]> (m_cache s)) s).

(** ** The cache of code sizes *)

(** [std::map::lower_bound], the first key when there is none. *)
Definition random_key (h : Z) (m : gmap Z Z) : option Z :=
  let keys := (map_to_list m).*1 in
  let least := foldr (fun k r => match r with Some b => Some (Z.min k b) | None => Some k end) None in
  match least (filter (fun k => h <= k) keys) with
  | Some k => Some k
  | None => least keys
  end.

Definition codeSizes_store (hash size : Z) : M unit := smod (fun s =>
  let '(c, g) :=
    if c_maxSize <=? Z.of_nat (base.size (codeSizeCache s)) then
      let '(h, g) := random_h256 (s_fixedHashEngine s) in
      (match random_key h (codeSizeCache s) with Some k => delete k (codeSizeCache s) | None => codeSizeCache s end, g)
    else (codeSizeCache s, s_fixedHashEngine s) in
  set_codeSizes (<[hash := size]> c) g s).

(** ** Loading accounts *)

(** One round of the loop of [clearCacheIfTooLarge]. *)
Definition evict_one (s : st) : st :=
  let entries := m_unchangedCacheEntries s in
  let '(i, g) := uniform (lenZ entries - 1) (s_fixedHashEngine s) in
  let addr := default 0 (entries @@ i) in
  let entries := removelast (upd entries i (List.last entries 0)) in
  let cache := match m_cache s !! addr with
               | Some a => if isDirty a then m_cache s else delete addr (m_cache s)
               | None => m_cache s
               end in
  set_engine g (set_entries entries (set_cache cache s)).

Fixpoint evict_loop (fuel : nat) (s : st) : st :=
  match fuel with
  | O => s
  | S f => if c_maxCacheEntries <? lenZ (m_unchangedCacheEntries s) then evict_loop f (evict_one s) else s
  end.
Definition clearCacheIfTooLarge : M unit := smod (fun s => evict_loop (length (m_unchangedCacheEntries s)) s).

(** The account of a trie entry. *)
Definition decode_account (stateBack : list Z) : res Account :=
  (d <- mkRLP VeryStrict stateBack ;;
   v0 <- subscript 0 (fresh_RLP d) ;;
   nonce <- toInt T_u256 Strict (fst v0) ;;
   v1 <- subscript 1 (snd v0) ;;
   balance <- toInt T_u256 Strict (fst v1) ;;
   v2 <- subscript 2 (snd v1) ;;
   root <- toHash 32 Strict (fst v2) ;;
   v3 <- subscript 3 (snd v2) ;;
   codeHash <- toHash 32 Strict (fst v3) ;;
   Value (Account_full nonce balance (be_val root) (be_val codeHash) Unchanged))%result.

(** [State::account]: the account under its address in the cache. *)
Definition account (addr : Z) : M (option Account) :=
  s <- sget ;;
  match m_cache s !! addr with
  | Some a => sret (Some a)
  | None =>
      if bool_decide (addr ∈ m_nonExistingAccountsCache s) then sret None
      else
        stateBack <- slift (trie_at (m_db s) (m_state s) (addr_bytes addr)) ;;
        if lenZ stateBack =? 0 then
          smod (fun s => set_nonExisting ({[addr]} ∪ m_nonExistingAccountsCache s) s) ;;
          sret None
        else
          clearCacheIfTooLarge ;;
          a <- slift (of_rlp (decode_account stateBack)) ;;
          smod (fun s => set_cache (<[addr := a]> (m_cache s)) s) ;;
          smod (fun s => set_entries (m_unchangedCacheEntries s ++ [addr]) s) ;;
          sret (Some a)
  end.

(** ** Queries *)

Definition requireAccountStartNonce : M Z :=
  s <- sget ;;
  if m_accountStartNonce s =? Invalid256 then sthrow InvalidAccountStartNonceInState
  else sret (m_accountStartNonce s).

Definition noteAccountStartNonce (actual : Z) : M unit :=
  s <- sget ;;
  if m_accountStartNonce s =? Invalid256 then smod (set_startNonce actual)
  else if negb (m_accountStartNonce s =? actual) then sthrow IncorrectAccountStartNonceInState
  else sret tt.

Definition addressInUse (id : Z) : M bool :=
  a <- account id ;; sret (match a with Some _ => true | None => false end).

Definition accountNonemptyAndExisting (address : Z) : M bool :=
  a <- account address ;; sret (match a with Some a => negb (isEmpty a) | None => false end).

Definition addressHasCode (id : Z) : M bool :=
  a <- account id ;; sret (match a with Some a => negb (m_codeHash a =? EmptySHA3) | None => false end).

Definition balance (id : Z) : M Z :=
  a <- account id ;; sret (match a with Some a => m_balance a | None => 0 end).

Definition getNonce (addr : Z) : M Z :=
  a <- account addr ;;
  s <- sget ;;
  sret (match a with Some a => m_nonce a | None => m_accountStartNonce s end).

Definition codeHash (a : Z) : M Z :=
  acc <- account a ;; sret (match acc with Some acc => m_codeHash acc | None => EmptySHA3 end).

(** [payload.size() ? RLP(payload).toInt<u256>() : 0] *)
Definition storage_value (payload : list Z) : res Z :=
  if lenZ payload =? 0 then Value 0 else (d <- mkRLP VeryStrict payload ;; toInt T_u256 Strict d)%result.

Definition storage (id key : Z) : M Z :=
  a <- account id ;;
  match a with
  | Some a =>
      match m_storageOverlay a !! key with
      | Some v => sret v
      | None =>
          s <- sget ;;
          db <- slift (trie_open (m_storageRoot a) (m_db s)) ;;
          smod (set_db db) ;;
          payload <- slift (trie_at db (m_storageRoot a) (h256_bytes key)) ;;
          ret <- slift (of_rlp (storage_value payload)) ;;
          update_account id (setStorageCache key ret) ;;
          sret ret
      end
  | None => sret 0
  end.

Definition storageRoot (id : Z) : M Z :=
  s <- sget ;;
  e <- slift (trie_at (m_db s) (m_state s) (addr_bytes id)) ;;
  if lenZ e =? 0 then sret EmptyTrie
  else
    slift (of_rlp (d <- mkRLP VeryStrict e ;; v <- subscript 2 (fresh_RLP d) ;;
                   h <- toHash 32 Strict (fst v) ;; Value (be_val h))%result).

Definition code (addr : Z) : M (list Z) :=
  a <- account addr ;;
  match a with
  | None => sret []
  | Some a =>
      if m_codeHash a =? EmptySHA3 then sret []
      else if lenZ (m_codeCache a) =? 0 then
        s <- sget ;;
        let c := lookup_code (m_db s) (m_codeHash a) in
        update_account addr (noteCode c) ;;
        codeSizes_store (m_codeHash a) (lenZ c) ;;
        sret c
      else sret (m_codeCache a)
  end.

Definition codeSize (a : Z) : M Z :=
  acc <- account a ;;
  match acc with
  | None => sret 0
  | Some acc =>
      if m_hasNewCode acc then sret (lenZ (m_codeCache acc))
      else
        s <- sget ;;
        match codeSizeCache s !! m_codeHash acc with
        | Some n => sret n
        | None =>
            c <- code a ;;
            codeSizes_store (m_codeHash acc) (lenZ c) ;;
            sret (lenZ c)
        end
  end.

(** ** Changes *)

Definition createAccount (address : Z) (a : Account) : M unit :=
  smod (fun s => set_cache (<[address := a]> (m_cache s)) s) ;;
  smod (fun s => set_nonExisting (m_nonExistingAccountsCache s ∖ {[address]}) s) ;;
  log_change (Create address).

Definition createContract (address : Z) : M unit :=
  n <- requireAccountStartNonce ;; createAccount address (Account_new n 0 Changed).

Definition incNonce (addr : Z) : M unit :=
  a <- account addr ;;
  match a with
  | Some a =>
      update_account addr Account.incNonce ;;
      log_change (Nonce addr (m_nonce a))
  | None => n <- requireAccountStartNonce ;; createAccount addr (Account_new (u256 (n + 1)) 0 Changed)
  end.

Definition setNonce (addr newNonce : Z) : M unit :=
  a <- account addr ;;
  match a with
  | Some a =>
      update_account addr (Account.setNonce newNonce) ;;
      log_change (Nonce addr (m_nonce a))
  | None => createAccount addr (Account_new newNonce 0 Changed)
  end.

Definition addBalance (id amount : Z) : M unit :=
  a <- account id ;;
  match a with
  | Some a =>
      (if negb (isDirty a) && isEmpty a then log_change (Touch id) else sret tt) ;;
      update_account id (Account.addBalance amount)
  | None => n <- requireAccountStartNonce ;; createAccount id (Account_new n amount Changed)
  end ;;
  if negb (amount =? 0) then log_change (Balance id amount) else sret tt.

Definition subBalance (addr value : Z) : M unit :=
  if value =? 0 then sret tt
  else
    a <- account addr ;;
    match a with
    | Some a => if m_balance a <? value then sthrow NotEnoughCash else addBalance addr (u256 (0 - value))
    | None => sthrow NotEnoughCash
    end.

Definition setBalance (addr value : Z) : M unit :=
  a <- account addr ;;
  let original := match a with Some a => m_balance a | None => 0 end in
  addBalance addr (u256 (value - original)).

Definition transferBalance (from to value : Z) : M unit :=
  subBalance from value ;; addBalance to value.

Definition setStorage (contract key value : Z) : M unit :=
  old <- storage contract key ;;
  log_change (Storage contract key old) ;;
  update_at contract (Account.setStorage key value).

Definition clearStorage (contract : Z) : M unit :=
  update_at contract (fun a => a) ;;
  s <- sget ;;
  let oldHash := m_storageRoot (cache_at contract s) in
  if oldHash =? EmptyTrie then sret tt
  else
    log_change (StorageRoot contract oldHash) ;;
    update_at contract Account.clearStorage.

Definition setCode (address : Z) (c : list Z) : M unit :=
  old <- code address ;;
  log_change (Code address old) ;;
  update_at address (Account.setCode c).

Definition kill (addr : Z) : M unit :=
  a <- account addr ;;
  match a with Some _ => update_account addr Account.kill | None => sret tt end.

(** ** Savepoints *)

Definition savepoint (s : st) : Z := lenZ (m_changeLog s).

(** The switch of [rollback]. *)
Definition undo (c : Change) : M unit :=
  update_at (change_address c) (fun a => a) ;;
  match c with
  | Storage a k v => update_at a (Account.setStorage k v)
  | StorageRoot a v => update_at a (setStorageRoot v)
  | Balance a v => update_at a (Account.addBalance (u256 (0 - v)))
  | Nonce a v => update_at a (Account.setNonce v)
  | Create a => smod (fun s => set_cache (delete a (m_cache s)) s)
  | Code a c => update_at a (Account.setCode c)
  | Touch a =>
      update_at a untouch ;;
      smod (fun s => set_entries (m_unchangedCacheEntries s ++ [a]) s)
  end.

(** [while (_savepoint != m_changeLog.size())]: with the log at its end the
    code would read before it. *)
Fixpoint rollback_loop (log : list Change) (sp : Z) : M unit :=
  if sp =? lenZ log then sret tt
  else
    match log with
    | [] => slift OutOfBounds
    | c :: log =>
        undo c ;;
        smod (set_changeLog log) ;;
        rollback_loop log sp
    end.
Definition rollback (sp : Z) : M unit := s <- sget ;; rollback_loop (m_changeLog s) sp.

(** ** Committing *)

Definition removeEmptyAccounts : M unit := smod (fun s =>
  set_cache ((fun a => if isDirty a && isEmpty a then Account.kill a else a) <$> m_cache s) s).

(** The loop over the storage overlay. *)
Fixpoint commit_storage (overlay : list (Z * Z)) (root : Z) (db : DB) : result state_error (DB * Z) :=
  match overlay with
  | [] => Value (db, root)
  | (k, v) :: overlay =>
      (r <- (if negb (v =? 0)
             then e <- of_rlp (rlp_of (append_int v)) ;; trie_insert root (h256_bytes k) e db
             else trie_remove root (h256_bytes k) db) ;;
       commit_storage overlay (snd r) (fst r))%result
  end.

(** The entry of an account with its storage root. *)
Definition encode_account (a : Account) (root : Z) : res (list Z) :=
  (s <- appendList 4 empty_stream ;;
   s <- append_int (m_nonce a) s ;;
   s <- append_int (m_balance a) s ;;
   s <- append_bytes false (h256_bytes root) s ;;
   s <- append_bytes false (h256_bytes (m_codeHash a)) s ;;
   stream_out s)%result.

(** The body of the loop of [dev::aec::commit] for a dirty account. *)
Definition commit_account (addr : Z) (a : Account) : M unit :=
  if negb (m_isAlive a) then
    s <- sget ;;
    r <- slift (trie_remove (m_state s) (addr_bytes addr) (m_db s)) ;;
    smod (set_trie (fst r) (snd r))
  else
    root <- (if bool_decide (m_storageOverlay a = ∅) then sret (m_storageRoot a)
             else
               s <- sget ;;
               db <- slift (trie_open (m_storageRoot a) (m_db s)) ;;
               r <- slift (commit_storage (iterate (m_storageOverlay a)) (m_storageRoot a) db) ;;
               smod (set_db (fst r)) ;;
               sret (snd r)) ;;
    (if m_hasNewCode a then
       codeSizes_store (m_codeHash a) (lenZ (m_codeCache a)) ;;
       smod (fun s => set_db (insert_code (m_codeHash a) (m_codeCache a) (m_db s)) s)
     else sret tt) ;;
    e <- slift (of_rlp (encode_account a root)) ;;
    s <- sget ;;
    r <- slift (trie_insert (m_state s) (addr_bytes addr) e (m_db s)) ;;
    smod (set_trie (fst r) (snd r)).

(** [dev::aec::commit]: the addresses that were written. *)
Fixpoint commit_accounts (l : list (Z * Account)) (ret : gset Z) : M (gset Z) :=
  match l with
  | [] => sret ret
  | (addr, a) :: l =>
      if isDirty a then commit_account addr a ;; commit_accounts l ({[addr]} ∪ ret)
      else commit_accounts l ret
  end.

Definition commit (b : CommitBehaviour) : M unit :=
  match b with RemoveEmptyAccounts => removeEmptyAccounts | KeepEmptyAccounts => sret tt end ;;
  s <- sget ;;
  written <- commit_accounts (iterate (m_cache s)) ∅ ;;
  smod (fun s => set_touched (m_touched s ∪ written) s) ;;
  smod (set_changeLog []) ;;
  smod (set_cache ∅) ;;
  smod (set_entries []).

Definition populateFrom (map : gmap Z Account) : M unit :=
  commit_accounts (iterate map) ∅ ;;
  commit KeepEmptyAccounts.

Definition setRoot (r : Z) : M unit :=
  smod (set_cache ∅) ;;
  smod (set_entries []) ;;
  smod (set_nonExisting ∅) ;;
  s <- sget ;;
  smod (set_trie (m_db s) r) ;;
  db <- slift (trie_open r (m_db s)) ;;
  smod (set_trie db r).

(** ** Construction *)

(** [State(_accountStartNonce, _db, _bs)] *)
Definition new_State (accountStartNonce : Z) (db : DB) (bs : BaseState) (sizes : gmap Z Z) (g : G) : result state_error st :=
  let s := mkState db 0 ∅ [] ∅ ∅ accountStartNonce [] sizes g in
  match bs with
  | PreExisting => Value s
  | Empty => (db' <- trie_open EmptyTrie db ;; Value (set_trie db' EmptyTrie s))%result
  end.

(** The copy constructor starts with an empty change log; the assignment keeps
    the one of its target. *)
Definition copy_State (s : st) : st := set_changeLog [] s.
Definition assign_State (target s : st) : st := set_changeLog (m_changeLog target) s.
End State.
