(* ===== verification/StateSpec.v ===== *)
(** * The accounts behind the caches

    What a state says about an account, whether the account is cached or still
    in the trie: its view.  Caching, eviction and the overlay of storage that
    was only read are invisible in the views.  [same] relates states with equal
    views; [ahead] relates a state to one that later changes led to and that
    undoing the changes of the log leads back from. *)
From stdpp Require Import base list gmap fin_sets.
From Stdlib Require Import ZArith Lia.
From S2P Require Import Prelude Words Result Rlp StateMonad Account State.
Open Scope sm_scope.

Record View := mkView {
  v_alive : bool;
  v_nonce : Z;
  v_balance : Z;
  v_codeHash : Z;
  v_root : Z;
  v_code : list Z;
  v_storage : Z -> Z
}.

Record view_eq (u v : View) : Prop := {
  ve_alive : v_alive u = v_alive v;
  ve_nonce : v_nonce u = v_nonce v;
  ve_balance : v_balance u = v_balance v;
  ve_codeHash : v_codeHash u = v_codeHash v;
  ve_root : v_root u = v_root v;
  ve_code : v_code u = v_code v;
  ve_storage : forall k, v_storage u k = v_storage v k
}.

#[export] Instance view_eq_equivalence : Equivalence view_eq.
Proof.
  split.
  - by intros u.
  - intros u v []. by constructor.
  - intros u v w [] []. constructor; congruence.
Qed.

Section Spec.
  Context {DB G : Type} `{Sha3} `{!StateDB DB} `{!StateDBLaws DB} `{!RandomEngine G} `{!UnorderedMaps}.
  Notation st := (State DB G).
  (** The committed accounts, fixed between two commits. *)
  Context (m : trie_map).

(** ** Views *)

(** What the storage trie has for a key. *)
Definition stored (db : DB) (root k : Z) : Z :=
  if root =? EmptyTrie then 0
  else
    match trie_at db root (h256_bytes k) with
    | Value p => match storage_value p with Value v => v | _ => 0 end
    | _ => 0
    end.

Definition code_of (db : DB) (a : Account) : list Z :=
  if m_codeHash a =? EmptySHA3 then []
  else if lenZ (m_codeCache a) =? 0 then lookup_code db (m_codeHash a) else m_codeCache a.

Definition storage_of (db : DB) (a : Account) (k : Z) : Z :=
  match m_storageOverlay a !! k with Some v => v | None => stored db (m_storageRoot a) k end.

Definition view_of (db : DB) (a : Account) : View :=
  mkView (m_isAlive a) (m_nonce a) (m_balance a) (m_codeHash a) (m_storageRoot a) (code_of db a) (storage_of db a).

(** The account at an address, cached or in the trie. *)
Definition the_account (s : st) (a : Z) : option Account :=
  match m_cache s !! a with
  | Some acc => Some acc
  | None =>
      match m !! addr_bytes a with
      | Some e => match decode_account e with Value acc => Some acc | _ => None end
      | None => None
      end
  end.

Definition the_view (s : st) (a : Z) : option View := view_of (m_db s) <$> the_account s a.

Definition dirty (s : st) (a : Z) : Prop := match m_cache s !! a with Some acc => isDirty acc = true | None => False end.

(** ** Well-formed states *)

(** The storage trie is in the database with readable values, and so is the
    code. *)
Record account_ok (db : DB) (a : Account) : Prop := {
  ao_storage : m_storageRoot a = EmptyTrie \/
    exists sm, trie_rep db (m_storageRoot a) sm /\ map_Forall (fun _ p => exists v, storage_value p = Value v) sm;
  ao_code : sha3 (code_of db a) = m_codeHash a;
  ao_balance : is_u256 (m_balance a);
  ao_newCode : m_hasNewCode a = true -> m_isAlive a = true -> sha3 (m_codeCache a) = m_codeHash a;
  ao_oldCode : m_hasNewCode a = false -> m_codeHash a <> EmptySHA3 -> m_codeCache a = [] \/ m_codeCache a = lookup_code db (m_codeHash a)
}.

Record state_ok (s : st) : Prop := {
  ok_trie : trie_rep (m_db s) (m_state s) m;
  ok_entry : forall a e, m !! addr_bytes a = Some e -> exists acc, decode_account e = Value acc /\ account_ok (m_db s) acc;
  ok_cache : forall a acc, m_cache s !! a = Some acc -> account_ok (m_db s) acc;
  ok_absent : forall a, a ∈ m_nonExistingAccountsCache s -> m !! addr_bytes a = None /\ m_cache s !! a = None;
  ok_clean : forall a acc, m_cache s !! a = Some acc -> isDirty acc = false ->
    exists e acc0, m !! addr_bytes a = Some e /\ decode_account e = Value acc0 /\
      view_eq (view_of (m_db s) acc) (view_of (m_db s) acc0);
  ok_nonce : m_accountStartNonce s <> Invalid256
}.

(** The same accounts, with no fewer marked as changed and a database that has
    only grown. *)
Record same (s t : st) : Prop := {
  sm_db : db_le (m_db s) (m_db t);
  sm_state : m_state t = m_state s;
  sm_nonce : m_accountStartNonce t = m_accountStartNonce s;
  sm_view : forall a, option_Forall2 view_eq (the_view s a) (the_view t a);
  sm_dirty : forall a, dirty s a -> dirty t a
}.

Lemma same_refl s : same s s.
Proof. constructor; auto using db_le_refl. intros a. destruct (the_view s a); by constructor. Qed.

Lemma same_trans s t u : same s t -> same t u -> same s u.
Proof.
  intros [] []. constructor; try congruence; eauto using db_le_trans. intros a. specialize (sm_view0 a). specialize (sm_view1 a).
  destruct sm_view0; inversion sm_view1; constructor. by etransitivity.
Qed.

(** ** Growing databases *)

(** An account without storage and code. *)
Lemma account_ok_plain db a : m_storageRoot a = EmptyTrie -> m_codeHash a = EmptySHA3 -> is_u256 (m_balance a) ->
  (m_hasNewCode a = true -> m_isAlive a = true -> sha3 (m_codeCache a) = m_codeHash a) -> account_ok db a.
Proof. intros Hr Hc Hb Hn. constructor; auto; [|congruence]. unfold code_of. by rewrite Hc, Z.eqb_refl. Qed.

Lemma stored_le db db' a k : db_le db db' -> account_ok db a -> stored db' (m_storageRoot a) k = stored db (m_storageRoot a) k.
Proof.
  intros Hle [Hs _ _ _ _]. unfold stored. destruct (Z.eqb_spec (m_storageRoot a) EmptyTrie); [done|].
  destruct Hs as [|(sm & Hr & _)]; [done|]. pose proof (trie_rep_le _ _ _ _ Hle Hr) as Hr'.
  by rewrite (trie_at_ok _ _ _ _ Hr), (trie_at_ok _ _ _ _ Hr').
Qed.

Lemma code_of_nonempty db a : account_ok db a -> m_codeHash a <> EmptySHA3 -> code_of db a <> [].
Proof. intros [_ Hc _ _ _] Hne He. rewrite He in Hc. done. Qed.

Lemma code_of_le db db' a : db_le db db' -> account_ok db a -> code_of db' a = code_of db a.
Proof.
  intros Hle Hok. pose proof (code_of_nonempty db a Hok) as Hne. unfold code_of in *.
  destruct (Z.eqb_spec (m_codeHash a) EmptySHA3); [done|]. destruct (lenZ (m_codeCache a) =? 0); [|done].
  apply lookup_code_le; auto.
Qed.

Lemma view_of_le db db' a : db_le db db' -> account_ok db a -> view_eq (view_of db a) (view_of db' a).
Proof.
  intros Hle Hok. constructor; try done; cbn.
  - by rewrite (code_of_le _ _ _ Hle Hok).
  - intros k. unfold storage_of. destruct (_ !! k); [done|]. by rewrite (stored_le _ _ _ _ Hle Hok).
Qed.

Lemma account_ok_le db db' a : db_le db db' -> account_ok db a -> account_ok db' a.
Proof.
  intros Hle Hok. constructor.
  - destruct Hok as [[|(sm & Hr & Hv)] _ _ _ _]; [by left|right]. exists sm. split; [by eapply trie_rep_le|done].
  - rewrite (code_of_le _ _ _ Hle Hok). apply Hok.
  - apply Hok.
  - apply Hok.
  - intros Hn Hne. destruct (ao_oldCode _ _ Hok Hn Hne) as [Hc|Hc]; [by left|]. destruct (lookup_code db (m_codeHash a)) as [|x l] eqn:Hl; [by left|].
    right. rewrite (lookup_code_le _ _ _ Hle), Hl; [done|]. by rewrite Hl.
Qed.

(** The account a state has at an address is well formed. *)
Lemma the_account_ok s a acc : state_ok s -> the_account s a = Some acc -> account_ok (m_db s) acc.
Proof.
  intros Hs. unfold the_account. destruct (m_cache s !! a) as [c|] eqn:Hc; [intros [= <-]; by eapply ok_cache|].
  destruct (m !! addr_bytes a) as [e|] eqn:He; [|done]. destruct (ok_entry s Hs a e He) as (acc0 & Hd & Hok). rewrite Hd.
  intros [= <-]. exact Hok.
Qed.

Lemma option_view_refl (o : option View) : option_Forall2 view_eq o o.
Proof. destruct o; by constructor. Qed.
#[local] Hint Resolve option_view_refl db_le_refl : core.

(** A state with another database above. *)
Lemma state_ok_db s db : state_ok s -> db_le (m_db s) db -> state_ok (set_db db s).
Proof.
  intros Hs Hle. constructor; cbn.
  - eapply trie_rep_le; [exact Hle|]. apply Hs.
  - intros a e He. destruct (ok_entry s Hs a e He) as (acc & Hd & Hok). exists acc. split; [done|]. by eapply account_ok_le.
  - intros a acc Ha. eapply account_ok_le; [exact Hle|]. by eapply ok_cache.
  - apply Hs.
  - intros a acc Ha Hd. destruct (ok_clean s Hs a acc Ha Hd) as (e & acc0 & He & Hdec & Hv). exists e, acc0. split_and!; [done|done|].
    destruct (ok_entry s Hs a e He) as (acc1 & Hdec1 & Hok1). assert (acc1 = acc0) as -> by congruence.
    pose proof (ok_cache s Hs a acc Ha). rewrite <- (view_of_le (m_db s) db acc), <- (view_of_le (m_db s) db acc0) by done. exact Hv.
  - apply Hs.
Qed.

Lemma same_db s db : state_ok s -> db_le (m_db s) db -> same s (set_db db s).
Proof.
  intros Hs Hle. constructor; try done. intros a. unfold the_view. change (the_account (set_db db s) a) with (the_account s a).
  destruct (the_account s a) as [acc|] eqn:Ha; [|done]. cbn. constructor. apply view_of_le; [done|]. by eapply the_account_ok.
Qed.
End Spec.
