(* ===== verification/StateReads.v ===== *)
(** * Reading the state

    Every query keeps the state well formed, changes no view and no log entry,
    and answers what the view says: the cache with its random eviction, the set
    of absent addresses and the code cache are transparent. *)
From stdpp Require Import base list gmap fin_sets.
From Stdlib Require Import ZArith Lia.
From S2P Require Import Prelude Words Result Rlp StateMonad Account State StateSpec.
Open Scope sm_scope.

(** ** Reading a list out of order *)

(** The items of a list read one after the other are those read at once. *)
Lemma subscript_on i r x r' : (i <? m_lastIndex r) = false -> subscript i r = Value (x, r') <->
  subscript_loop (S (S (length (m_data r)))) i r = Value r' /\ mkRLP (Z.lor ThrowOnFail FailIfTooSmall) (m_lastItem r') = Value x.
Proof.
  intros Hi. unfold subscript. rewrite Hi. cbn [rbind]. destruct (subscript_loop _ i r) as [r2| | |]; cbn [rbind]; [|by split; [|intros []]..].
  destruct (mkRLP _ (m_lastItem r2)) as [y| | |] eqn:Hy; cbn [rbind]; [|by split; [|intros [[= ->] ?]; congruence]..]. split; [intros [= -> ->]; by split|].
  intros [[= ->] Hx]. congruence.
Qed.

Definition next_item (r : RLP) : res RLP :=
  (p <- payload (m_data r) ;;
   n <- sizeAsEncoded (cropped_from (m_lastEnd r) p) ;;
   let item := cropped 0 n (cropped_from (m_lastEnd r) p) in
   Value (mkRLPObject (m_data r) (m_lastIndex r + 1) (u64 (m_lastEnd r + lenZ item)) item))%result.

Lemma loop_next f i r : m_lastIndex r < i ->
  subscript_loop (S f) i r = if lenZ (m_lastItem r) =? 0 then Value r else (r1 <- next_item r ;; subscript_loop f i r1)%result.
Proof.
  intros Hi%Z.ltb_lt. cbn [subscript_loop]. rewrite Hi. destruct (lenZ (m_lastItem r) =? 0); [done|]. cbn [negb andb]. unfold next_item.
  destruct (payload _) as [p| | |]; [|done..]. cbn [rbind]. by destruct (sizeAsEncoded _).
Qed.
Lemma loop_here f r i : i = m_lastIndex r -> subscript_loop (S f) i r = Value r.
Proof. intros ->. cbn [subscript_loop]. by rewrite Z.ltb_irrefl. Qed.

Lemma next_item_data r r1 : next_item r = Value r1 -> m_data r1 = m_data r /\ m_lastIndex r1 = m_lastIndex r + 1.
Proof. unfold next_item. intros H1. result_inv. by subst r1. Qed.

Lemma loop_chain d r r1 r2 : m_data r = d -> m_lastIndex r = 0 -> d <> [] -> subscript_loop (S (S (length d))) 1 r = Value r1 ->
  m_data r1 = d /\ m_lastIndex r1 <= 1 /\
  (subscript_loop (S (S (length d))) 2 r1 = Value r2 -> subscript_loop (S (S (length d))) 2 r = Value r2).
Proof.
  intros Hdat Hr Hd. destruct d as [|b d]; [done|]. cbn [length]. rewrite !(loop_next _ _ r) by lia.
  destruct (lenZ (m_lastItem r) =? 0) eqn:He.
  { intros [= <-]. split_and!; [done|lia|]. rewrite loop_next, He by lia. done. }
  destruct (next_item r) as [q| | |] eqn:Hq; cbn [rbind]; try done. destruct (next_item_data _ _ Hq) as [Hd1 Hi1].
  rewrite loop_here by lia. intros [= <-]. split_and!; [congruence|lia|]. rewrite !(loop_next _ _ q) by lia.
  destruct (lenZ (m_lastItem q) =? 0); [done|]. destruct (next_item q) as [q2| | |] eqn:Hq2; cbn [rbind]; try done.
  destruct (next_item_data _ _ Hq2) as [_ Hi2]. by rewrite !loop_here by lia.
Qed.

Lemma subscript_chain d x0 r0 x1 r1 x2 r2 : d <> [] -> subscript 0 (fresh_RLP d) = Value (x0, r0) -> subscript 1 r0 = Value (x1, r1) ->
  subscript 2 r1 = Value (x2, r2) -> subscript 2 (fresh_RLP d) = Value (x2, r2).
Proof.
  intros Hd H0' H1' H2'. set (r := mkRLPObject d 0). 
  assert (exists n it, forall i, 0 <= i < 2 ^ 64 - 1 -> subscript i (fresh_RLP d) = subscript i (r n it)) as (n & it & Hf).
  { destruct (payload d) as [p| | |] eqn:Hp; [|by unfold subscript in H0'; cbn in H0'; rewrite Hp in H0'..].
    destruct (sizeAsEncoded p) as [n| | |] eqn:Hn; [|by unfold subscript in H0'; cbn in H0'; rewrite Hp in H0'; cbn in H0'; rewrite Hn in H0'..].
    exists n, (cropped 0 n p). intros i Hi. unfold subscript. cbn [fresh_RLP m_lastIndex m_data r].
    destruct (Z.ltb_spec i (2 ^ 64 - 1)); [|lia]. destruct (Z.ltb_spec i 0); [lia|]. rewrite Hp. cbn [rbind]. by rewrite Hn. }
  rewrite Hf in * by lia. apply (subscript_on 0) in H0' as [H0' _]; [|done]. rewrite loop_here in H0' by done. injection H0' as <-.
  apply subscript_on in H1' as [H1' _]; [|done]. cbn [m_data r] in H1'.
  destruct (loop_chain d (r n it) r1 r2 eq_refl eq_refl Hd H1') as (Hdat & Hi & Hc).
  apply subscript_on in H2' as [H2' Hx]; [|apply Z.ltb_ge; lia]. apply subscript_on; [done|]. split; [|done]. apply Hc. by rewrite Hdat in H2'.
Qed.

Lemma mkRLP_strict e d : mkRLP VeryStrict e = Value d -> d = e.
Proof.
  unfold mkRLP. change (flag FailIfTooBig VeryStrict) with true. change (flag FailIfTooSmall VeryStrict) with true.
  change (flag ThrowOnFail VeryStrict) with true. cbv iota. intros Hd. result_inv. repeat (case_match; try done). result_inv. congruence.
Qed.

Section Reads.
  Context {DB G : Type} `{Sha3} `{!StateDB DB} `{!StateDBLaws DB} `{!RandomEngine G} `{!UnorderedMaps}.
  Notation st := (State DB G).
  Context (m : trie_map).
  Notation the_account := (the_account (DB := DB) (G := G) m).
  Notation the_view := (the_view (DB := DB) (G := G) m).
  Notation same := (same (DB := DB) (G := G) m).
  Notation state_ok := (state_ok (DB := DB) (G := G) m).

(** No view and no entry of the log changes. *)
Record quiet (s s' : st) : Prop := {
  qu_ok : state_ok s';
  qu_same : same s s';
  qu_log : m_changeLog s' = m_changeLog s
}.

Lemma quiet_refl s : state_ok s -> quiet s s.
Proof. constructor; auto using same_refl. Qed.

Lemma quiet_trans s t u : quiet s t -> quiet t u -> quiet s u.
Proof. intros [] []. constructor; [done|by eapply same_trans|congruence]. Qed.

(** ** Changes of the cache *)

Lemma the_account_update s a acc b : the_account (set_cache (<[a := acc]> (m_cache s)) s) b = if decide (a = b) then Some acc else the_account s b.
Proof.
  unfold StateSpec.the_account. cbn. destruct (decide (a = b)) as [->|]; [by rewrite lookup_insert_eq|by rewrite lookup_insert_ne].
Qed.

Lemma ok_known s a acc : state_ok s -> m_cache s !! a = Some acc -> a ∉ m_nonExistingAccountsCache s.
Proof. intros Hs Hc Ha. destruct (ok_absent _ s Hs a Ha). congruence. Qed.

Lemma state_ok_update s a acc : state_ok s -> a ∉ m_nonExistingAccountsCache s -> account_ok (m_db s) acc ->
  (isDirty acc = false -> exists e acc0, m !! addr_bytes a = Some e /\ decode_account e = Value acc0 /\
    view_eq (view_of (m_db s) acc) (view_of (m_db s) acc0)) ->
  state_ok (set_cache (<[a := acc]> (m_cache s)) s).
Proof.
  intros Hs Hnew Hacc Hclean. constructor; cbn; try apply Hs.
  - intros b c. destruct (decide (a = b)) as [->|]; [rewrite lookup_insert_eq; by intros [= <-]|].
    rewrite lookup_insert_ne by done. apply Hs.
  - intros b Hb. rewrite lookup_insert_ne by congruence. by apply (ok_absent _ s Hs).
  - intros b c. destruct (decide (a = b)) as [->|]; [rewrite lookup_insert_eq; by intros [= <-]|].
    rewrite lookup_insert_ne by done. apply Hs.
Qed.

Lemma same_update s a acc acc' : the_account s a = Some acc -> view_eq (view_of (m_db s) acc) (view_of (m_db s) acc') ->
  (dirty s a -> isDirty acc' = true) -> same s (set_cache (<[a := acc']> (m_cache s)) s).
Proof.
  intros Ha Hv Hd. constructor; try done; [apply db_le_refl| |].
  - intros b. unfold StateSpec.the_view. rewrite the_account_update. destruct (decide (a = b)) as [<-|]; [|by destruct (the_account s b); constructor].
    rewrite Ha. by constructor.
  - intros b. unfold dirty in *. cbn. destruct (decide (a = b)) as [<-|]; [rewrite lookup_insert_eq; done|by rewrite lookup_insert_ne].
Qed.

(** An update of a cached account that its view does not show. *)
Lemma quiet_update s a acc acc' : state_ok s -> m_cache s !! a = Some acc -> view_eq (view_of (m_db s) acc) (view_of (m_db s) acc') ->
  isDirty acc' = isDirty acc -> account_ok (m_db s) acc' -> quiet s (set_cache (<[a := acc']> (m_cache s)) s).
Proof.
  intros Hs Hc Hv Hd Hok. constructor; [|apply (same_update s a acc)|done].
  - apply state_ok_update; [done|by eapply ok_known|done|]. rewrite Hd. intros Hcl. destruct (ok_clean _ s Hs a acc Hc Hcl) as (e & acc0 & ? & ? & ?).
    exists e, acc0. split_and!; [done|done|]. by rewrite <- Hv.
  - unfold StateSpec.the_account. by rewrite Hc.
  - done.
  - unfold dirty. rewrite Hc. congruence.
Qed.

(** States that differ in members no view depends on. *)
Lemma quiet_frame s s' : state_ok s -> m_db s' = m_db s -> m_state s' = m_state s -> m_cache s' = m_cache s ->
  (forall a, a ∈ m_nonExistingAccountsCache s' -> m !! addr_bytes a = None /\ m_cache s !! a = None) ->
  m_accountStartNonce s' = m_accountStartNonce s -> m_changeLog s' = m_changeLog s -> quiet s s'.
Proof.
  intros Hs Hdb Hst Hc Hne Hsn Hl. constructor; [| |done].
  - destruct Hs. constructor; rewrite ?Hdb, ?Hst, ?Hc, ?Hsn; done.
  - constructor; rewrite ?Hdb; try done; [apply db_le_refl| |].
    + intros a. unfold StateSpec.the_view, StateSpec.the_account. rewrite Hdb, Hc. by destruct (_ <$> _); constructor.
    + intros a. unfold dirty. by rewrite Hc.
Qed.

(** ** Eviction *)

Lemma quiet_evict s a acc : state_ok s -> m_cache s !! a = Some acc -> isDirty acc = false ->
  quiet s (set_cache (delete a (m_cache s)) s).
Proof.
  intros Hs Hc Hd. destruct (ok_clean _ s Hs a acc Hc Hd) as (e & acc0 & He & Hdec & Hv). constructor; [| |done].
  - constructor; cbn; try apply Hs.
    + intros b c. rewrite lookup_delete_Some. intros [_ Hb]. by eapply ok_cache.
    + intros b Hb. destruct (ok_absent _ s Hs b Hb) as [Hm Hcb]. by rewrite lookup_delete_None, Hcb; auto.
    + intros b c. rewrite lookup_delete_Some. intros [_ Hb]. by eapply ok_clean.
  - constructor; try done; [apply db_le_refl| |].
    + intros b. unfold StateSpec.the_view, StateSpec.the_account. cbn [m_cache m_db set_cache]. destruct (decide (a = b)) as [<-|].
      * rewrite lookup_delete_eq, Hc, He, Hdec. by constructor.
      * rewrite lookup_delete_ne by done. by destruct (_ <$> _); constructor.
    + intros b. unfold dirty. cbn. destruct (decide (a = b)) as [<-|]; [rewrite lookup_delete_eq, Hc; congruence|by rewrite lookup_delete_ne].
Qed.

Lemma evict_one_quiet s : state_ok s -> quiet s (evict_one s) /\ m_cache (evict_one s) ⊆ m_cache s.
Proof.
  intros Hs. unfold evict_one. destruct (uniform _ _) as [i g]. set (a := default 0 _). set (l := removelast _). clearbody a l.
  destruct (m_cache s !! a) as [acc|] eqn:Ha; [destruct (isDirty acc) eqn:Hd|].
  1,3: split; [apply quiet_frame; try done; apply Hs|done].
  split; [|apply delete_subseteq]. eapply quiet_trans; [by apply (quiet_evict s a acc)|]. pose proof (quiet_evict s a acc Hs Ha Hd) as [Hq _ _].
  apply quiet_frame; try done. apply Hq.
Qed.

Lemma evict_loop_quiet fuel s : state_ok s -> quiet s (evict_loop fuel s) /\ m_cache (evict_loop fuel s) ⊆ m_cache s.
Proof.
  revert s. induction fuel as [|fuel IH]; intros s Hs; cbn [evict_loop]; [by split; [apply quiet_refl|]|].
  destruct (_ <? _); [|by split; [apply quiet_refl|]]. destruct (evict_one_quiet s Hs) as [Hq Hsub].
  destruct (IH _ (qu_ok _ _ Hq)) as [Hq2 Hsub2]. split; [by eapply quiet_trans|]. by etransitivity.
Qed.

(** ** Loading an account *)

Lemma decode_account_nonempty e acc : decode_account e = Value acc -> (lenZ e =? 0) = false.
Proof. destruct e as [|b e]; [done|]. intros _. apply Z.eqb_neq. unfold lenZ. cbn. lia. Qed.

Lemma decode_account_clean e acc : decode_account e = Value acc -> isDirty acc = false.
Proof. unfold decode_account. intros Hd. result_inv. by subst acc. Qed.

(** What [account] leaves: the account of the views, in the cache. *)
Record loaded (s : st) (a : Z) (r : option Account) (s' : st) : Prop := {
  ld_quiet : quiet s s';
  ld_cache : m_cache s' !! a = r;
  ld_absent : r = None -> m !! addr_bytes a = None
}.

Lemma loaded_view s a r s' : loaded s a r s' -> the_account s' a = r.
Proof.
  intros [_ Hc Hn]. unfold StateSpec.the_account. rewrite Hc. destruct r; [done|]. by rewrite Hn.
Qed.

Lemma account_posts s a : state_ok s -> posts (account a) (loaded s a) (fun _ _ => False) s.
Proof.
  intros Hs. unfold account. eapply posts_bind; [by apply (posts_get (fun x y => x = s /\ y = s))|]. intros x y [-> ->].
  destruct (m_cache s !! a) as [acc|] eqn:Hc; [by constructor; [apply quiet_refl|..]|].
  case_bool_decide as Hne; [by constructor; [apply quiet_refl|done|intros _; by apply (ok_absent _ s Hs)]|].
  unfold posts, sbind, slift. rewrite (trie_at_ok _ _ _ _ (ok_trie _ s Hs)).
  destruct (m !! addr_bytes a) as [e|] eqn:He; cbn [default id].
  - destruct (ok_entry _ s Hs a e He) as (acc & Hdec & Hok). rewrite (decode_account_nonempty e acc Hdec).
    unfold clearCacheIfTooLarge, smod. destruct (evict_loop_quiet (length (m_unchangedCacheEntries s)) s Hs) as [Hq Hsub].
    set (s1 := evict_loop _ s) in *. clearbody s1. rewrite Hdec. cbn [of_rlp].
    assert (m_cache s1 !! a = None) as Hc1 by (eapply lookup_weaken_None; [exact Hc|exact Hsub]).
    pose proof (account_ok_le (m_db s) (m_db s1) acc (sm_db _ _ _ (qu_same _ _ Hq)) Hok) as Hok1.
    assert (quiet s1 (set_cache (<[a := acc]> (m_cache s1)) s1)) as Hq1.
    { constructor; [| |done].
      - apply state_ok_update; [apply Hq| |done|intros _; by exists e, acc]. intros Ha. destruct (ok_absent _ _ (qu_ok _ _ Hq) a Ha). congruence.
      - apply (same_update s1 a acc); [|done|].
        + unfold StateSpec.the_account. by rewrite Hc1, He, Hdec.
        + unfold dirty. by rewrite Hc1. }
    constructor; [| |done].
    + eapply quiet_trans; [exact Hq|]. eapply quiet_trans; [exact Hq1|]. apply quiet_frame; try done; [apply Hq1|].
      intros b Hb. cbn in Hb. eapply (ok_absent _ _ (qu_ok _ _ Hq1)). exact Hb.
    + cbn. apply lookup_insert_eq.
  - change (lenZ [] =? 0) with true. cbv iota. unfold smod, sret. constructor; [|done|done].
    apply quiet_frame; try done. cbn. intros b [->%elem_of_singleton|Hb]%elem_of_union; [done|]. by apply (ok_absent _ s Hs).
Qed.

(** An update through a pointer is an insertion. *)
Lemma alter_insert_eq_gen (s : st) a acc f : m_cache s !! a = Some acc -> alter f a (m_cache s) = <[a := f acc]> (m_cache s).
Proof.
  intros Ha. apply map_eq. intros b. destruct (decide (a = b)) as [<-|].
  - by rewrite lookup_alter_eq, lookup_insert_eq, Ha.
  - by rewrite lookup_alter_ne, lookup_insert_ne.
Qed.

(** ** The queries *)

(** The account loaded answers for the view before. *)
Lemma loaded_answer s a r s' : loaded s a r s' -> option_Forall2 view_eq (the_view s a) (view_of (m_db s') <$> r).
Proof.
  intros Hl. rewrite <- (loaded_view s a r s' Hl). apply (sm_view _ _ _ (qu_same _ _ (ld_quiet _ _ _ _ Hl))).
Qed.

(** A query that only looks at the account. *)
Lemma query_posts {A} (f : option Account -> A) (g : option View -> A) a s :
  (forall db r v, option_Forall2 view_eq v (view_of db <$> r) -> f r = g v) -> state_ok s ->
  posts (r <- account a ;; sret (f r)) (fun r s' => r = g (the_view s a) /\ quiet s s') (fun _ _ => False) s.
Proof.
  intros Hf Hs. eapply posts_bind; [by apply account_posts|]. intros r s' Hl. apply posts_ret.
  split; [|apply Hl]. eapply Hf. by apply loaded_answer.
Qed.

Ltac query := intros; apply query_posts; [|done]; intros db r v Hv; destruct r as [acc|]; inversion Hv as [v0 v1 Hve|]; subst; [destruct Hve|]; cbn in *; try done; try congruence.

Lemma balance_posts a s : state_ok s ->
  posts (balance a) (fun r s' => r = from_option v_balance 0 (the_view s a) /\ quiet s s') (fun _ _ => False) s.
Proof. query. Qed.

Lemma codeHash_posts a s : state_ok s ->
  posts (codeHash a) (fun r s' => r = from_option v_codeHash EmptySHA3 (the_view s a) /\ quiet s s') (fun _ _ => False) s.
Proof. query. Qed.

Lemma addressInUse_posts a s : state_ok s ->
  posts (addressInUse a) (fun r s' => r = from_option (fun _ => true) false (the_view s a) /\ quiet s s') (fun _ _ => False) s.
Proof. query. Qed.

Lemma addressHasCode_posts a s : state_ok s ->
  posts (addressHasCode a) (fun r s' => r = from_option (fun v => negb (v_codeHash v =? EmptySHA3)) false (the_view s a) /\ quiet s s')
    (fun _ _ => False) s.
Proof. query. Qed.

Definition view_empty (v : View) : bool := (v_nonce v =? 0) && (v_balance v =? 0) && (v_codeHash v =? EmptySHA3).

Lemma accountNonemptyAndExisting_posts a s : state_ok s ->
  posts (accountNonemptyAndExisting a) (fun r s' => r = from_option (fun v => negb (view_empty v)) false (the_view s a) /\ quiet s s')
    (fun _ _ => False) s.
Proof. query. unfold isEmpty, view_empty. congruence. Qed.

Lemma getNonce_posts a s : state_ok s ->
  posts (getNonce a) (fun r s' => r = from_option v_nonce (m_accountStartNonce s) (the_view s a) /\ quiet s s') (fun _ _ => False) s.
Proof.
  intros Hs. unfold getNonce. eapply posts_bind; [by apply account_posts|]. intros r s' Hl.
  unfold posts, sbind, sget, sret. split; [|apply Hl]. pose proof (loaded_answer _ _ _ _ Hl) as Hv.
  destruct r as [acc|]; inversion Hv as [v0 v1 Hve Hx Hy|Hx Hy]; cbn in *; [subst; by destruct Hve|].
  apply (sm_nonce _ _ _ (qu_same _ _ (ld_quiet _ _ _ _ Hl))).
Qed.

Lemma requireAccountStartNonce_posts s : state_ok s ->
  posts requireAccountStartNonce (fun r s' => r = m_accountStartNonce s /\ s' = s) (fun _ _ => False) s.
Proof.
  intros Hs. unfold requireAccountStartNonce, posts, sbind, sget. destruct (Z.eqb_spec (m_accountStartNonce s) Invalid256); [|done].
  by destruct (ok_nonce _ s Hs).
Qed.

Lemma storage_posts a k s : state_ok s ->
  posts (storage a k) (fun r s' => r = from_option (fun v => v_storage v k) 0 (the_view s a) /\ quiet s s' /\
    (is_Some (the_view s a) -> is_Some (m_cache s' !! a))) (fun _ _ => False) s.
Proof.
  intros Hs. unfold storage. eapply posts_bind; [by apply account_posts|]. intros r s1 Hl.
  pose proof (loaded_answer _ _ _ _ Hl) as Hv. destruct Hl as [Hq Hc _].
  destruct r as [acc|]; inversion Hv as [v v' Hve Hx Hy|Hx Hy]; subst; cbn [from_option]; [|by split; [|split; [|intros []]]].
  pose proof (ve_storage _ _ Hve k) as Hk. cbn in Hk. unfold storage_of in Hk. pose proof (qu_ok _ _ Hq) as Hok1.
  destruct (m_storageOverlay acc !! k) as [v0|] eqn:Ho; [by split; [|split; [|rewrite Hc]]|].
  pose proof (ok_cache _ s1 Hok1 a acc Hc) as Haok.
  assert (exists db, trie_open (m_storageRoot acc) (m_db s1) = Value db /\ db_le (m_db s1) db /\
    exists p, trie_at db (m_storageRoot acc) (h256_bytes k) = Value p /\ storage_value p = Value (stored (m_db s1) (m_storageRoot acc) k))
    as (db & Hopen & Hle & p & Hat & Hval).
  { destruct (Z.eq_dec (m_storageRoot acc) EmptyTrie) as [Hr|Hr].
    - unfold stored. rewrite Hr, Z.eqb_refl. destruct (trie_open_empty (m_db s1)) as (db & Hopen & Hle & Hrep).
      exists db. split; [done|]. split; [done|]. exists []. by rewrite (trie_at_ok _ _ _ _ Hrep).
    - destruct (ao_storage _ _ Haok) as [|(sm & Hrep & Hall)]; [done|]. exists (m_db s1).
      split; [by apply (trie_open_ok _ _ sm)|]. split; [apply db_le_refl|]. unfold stored.
      rewrite (trie_at_ok _ _ _ _ Hrep). eexists. split; [done|]. destruct (Z.eqb_spec (m_storageRoot acc) EmptyTrie); [done|].
      destruct (sm !! h256_bytes k) as [p|] eqn:Hp; [|done]. destruct (Hall _ _ Hp) as [v1 Hv1]. cbn. by rewrite Hv1. }
  unfold posts, sbind, sget, slift, smod, sret, update_account. rewrite Hopen. rewrite Hat. rewrite Hval. cbn [of_rlp].
  rewrite <- Hk. split; [done|]. set (x := stored _ _ _) in *.
  assert (quiet s1 (set_db db s1)) as Hq1 by (constructor; [by apply state_ok_db|by apply same_db|done]).
  assert (m_cache (set_db db s1) !! a = Some acc) as Hc2 by done.
  rewrite (alter_insert_eq_gen (set_db db s1) a acc) by done. cbn. rewrite lookup_insert_eq. split; [|intros _; by eexists].
  eapply quiet_trans; [exact Hq|]. eapply quiet_trans; [exact Hq1|].
  apply (quiet_update (set_db db s1) a acc); [apply Hq1|done| |done|].
  - constructor; try done. intros k'. cbn. unfold storage_of. cbn. destruct (decide (k = k')) as [<-|].
    + rewrite lookup_insert_eq, Ho, Hk. by apply stored_le.
    + by rewrite lookup_insert_ne.
  - pose proof (account_ok_le _ _ _ Hle Haok) as []. constructor; done.
Qed.

(** The cache of code sizes is no part of a view. *)
Lemma codeSizes_quiet h n s : state_ok s -> posts (codeSizes_store h n) (fun _ s' => quiet s s' /\ m_cache s' = m_cache s) (fun _ _ => False) s.
Proof.
  intros Hs. unfold codeSizes_store, posts, smod. cbv zeta. destruct (if c_maxSize <=? _ then _ else _) as [c g].
  split; [|done]. apply quiet_frame; try done. apply Hs.
Qed.

Lemma code_posts a s : state_ok s ->
  posts (code a) (fun r s' => r = from_option v_code [] (the_view s a) /\ quiet s s' /\
    (is_Some (the_view s a) -> is_Some (m_cache s' !! a))) (fun _ _ => False) s.
Proof.
  intros Hs. unfold code. eapply posts_bind; [by apply account_posts|]. intros r s1 Hl.
  pose proof (loaded_answer _ _ _ _ Hl) as Hv. destruct Hl as [Hq Hc _].
  destruct r as [acc|]; inversion Hv as [v v' Hve Hx Hy|Hx Hy]; subst; cbn [from_option]; [|by split; [|split; [|intros []]]].
  pose proof (ve_code _ _ Hve) as Hk. cbn in Hk. unfold code_of in Hk. pose proof (qu_ok _ _ Hq) as Hok1.
  pose proof (ok_cache _ s1 Hok1 a acc Hc) as Haok. rewrite Hk. pose proof (ao_code _ _ Haok) as Hsha. unfold code_of in Hsha.
  destruct (Z.eqb_spec (m_codeHash acc) EmptySHA3) as [He|He]; [by split; [|split; [|rewrite Hc]]|].
  destruct (Z.eqb_spec (lenZ (m_codeCache acc)) 0) as [Hn|Hn]; [|by split; [|split; [|rewrite Hc]]].
  set (c := lookup_code (m_db s1) (m_codeHash acc)) in *.
  assert (quiet s1 (set_cache (<[a := noteCode c acc]> (m_cache s1)) s1)) as Hq1.
  { apply (quiet_update s1 a acc); [done|done| |done|].
    - constructor; try done. cbn. unfold code_of. cbn. destruct (Z.eqb_spec (m_codeHash acc) EmptySHA3); [done|].
      rewrite Hn. fold c. by destruct (lenZ c =? 0).
    - destruct Haok. constructor; [done| |done|done|by right]. unfold code_of. cbn. destruct (Z.eqb_spec (m_codeHash acc) EmptySHA3); [done|].
      fold c. by destruct (lenZ c =? 0). }
  eapply (posts_bind _ _ _ (fun x y => x = s1 /\ y = s1)); [done|]. intros x y [-> ->]. cbv zeta. fold c.
  eapply (posts_bind _ _ _ (fun _ y => y = set_cache (<[a := noteCode c acc]> (m_cache s1)) s1)).
  { unfold update_account, posts, smod. by rewrite (alter_insert_eq_gen s1 a acc). }
  intros _ y ->. eapply posts_bind; [apply codeSizes_quiet; apply Hq1|]. intros _ s2 [Hq2 Hc2]. apply posts_ret.
  split; [done|]. split; [eapply quiet_trans; [exact Hq|]; by eapply quiet_trans|]. intros _. rewrite Hc2. cbn. rewrite lookup_insert_eq. by eexists.
Qed.

Lemma codeSize_posts a s : state_ok s ->
  posts (codeSize a) (fun _ s' => quiet s s') (fun _ _ => False) s.
Proof.
  intros Hs. unfold codeSize. eapply posts_bind; [by apply account_posts|]. intros r s1 [Hq Hc _].
  destruct r as [acc|]; [|done]. destruct (m_hasNewCode acc); [done|].
  eapply (posts_bind _ _ _ (fun x y => x = s1 /\ y = s1)); [done|]. intros x y [-> ->].
  destruct (codeSizeCache s1 !! m_codeHash acc); [done|]. eapply posts_bind; [apply code_posts, Hq|].
  intros c s2 (_ & Hq2 & _). eapply posts_bind; [apply codeSizes_quiet, Hq2|]. intros _ s3 [Hq3 _]. apply posts_ret.
  eapply quiet_trans; [exact Hq|]. by eapply quiet_trans.
Qed.
(** The root of the storage of an account that is committed. *)
Definition committed_root (a : Z) : Z :=
  match m !! addr_bytes a with
  | Some e => match decode_account e with Value acc => m_storageRoot acc | _ => EmptyTrie end
  | None => EmptyTrie
  end.

Lemma storageRoot_posts a s : state_ok s -> storageRoot a s = (Value (committed_root a), s).
Proof.
  intros Hs. unfold storageRoot, committed_root, sbind, sget, slift. rewrite (trie_at_ok _ _ _ _ (ok_trie _ s Hs)).
  destruct (m !! addr_bytes a) as [e|] eqn:He; [|done]. cbn [default id]. destruct (ok_entry _ s Hs a e He) as (acc & Hd & _). rewrite Hd.
  rewrite (decode_account_nonempty e acc Hd). assert (e <> []) as Hne by (by intros ->). unfold decode_account in Hd.
  destruct (mkRLP VeryStrict e) as [d| | |] eqn:Hm; try done. pose proof (mkRLP_strict e d Hm) as ->. cbn [rbind] in Hd. result_inv. subst acc.
  destruct x as [y0 r0], x1 as [y1 r1], x3 as [y2 r2]. cbn [fst snd] in *.
  pose proof (subscript_chain e y0 r0 y1 r1 y2 r2 ltac:(done) ltac:(done) ltac:(done) ltac:(done)) as E. cbn [rbind]. rewrite E. cbn [rbind fst].
  by rewrite H6.
Qed.
End Reads.
