(* ===== verification/StateJournal.v ===== *)
(** * The log of changes and its undoing

    A state is [ahead] of another when the changes logged since lead back to it:
    undoing them newest first gives a state with the same views.  [ahead] is a
    preorder, every change of an account that is logged moves ahead, and so
    does a rollback to a state in between.  [rollback] to a savepoint gives the
    accounts of the savepoint. *)
From stdpp Require Import base list gmap fin_sets.
From Stdlib Require Import ZArith Lia.
From S2P Require Import Prelude Words Result Rlp StateMonad Account State StateSpec StateReads.
Open Scope sm_scope.

Section Journal.
  Context {DB G : Type} `{Sha3} `{!StateDB DB} `{!StateDBLaws DB} `{!RandomEngine G} `{!UnorderedMaps}.
  Notation st := (State DB G).
  Context (m : trie_map).
  Notation the_account := (the_account (DB := DB) (G := G) m).
  Notation the_view := (the_view (DB := DB) (G := G) m).
  Notation same := (same (DB := DB) (G := G) m).
  Notation state_ok := (state_ok (DB := DB) (G := G) m).
  Notation quiet := (quiet (DB := DB) (G := G) m).

(** ** Undoing one change *)

(** The account after the switch of [rollback]; [None] when it is erased. *)
Definition undo_account (c : Change) (a : Account) : option Account :=
  match c with
  | Storage _ k v => Some (Account.setStorage k v a)
  | StorageRoot _ v => Some (setStorageRoot v a)
  | Balance _ v => Some (Account.addBalance (u256 (0 - v)) a)
  | Nonce _ v => Some (Account.setNonce v a)
  | Create _ => None
  | Code _ code => Some (Account.setCode code a)
  | Touch _ => Some (untouch a)
  end.

Definition undo_state (c : Change) (s : st) : st := snd (undo c s).

(** [s'] is [s] with another cache. *)
Record with_cache (c : gmap Z Account) (s s' : st) : Prop := {
  wc_cache : m_cache s' = c;
  wc_db : m_db s' = m_db s;
  wc_state : m_state s' = m_state s;
  wc_absent : m_nonExistingAccountsCache s' = m_nonExistingAccountsCache s;
  wc_nonce : m_accountStartNonce s' = m_accountStartNonce s;
  wc_log : m_changeLog s' = m_changeLog s
}.

Lemma undo_spec c (s : st) acc : m_cache s !! change_address c = Some acc ->
  undo c s = (Value tt, undo_state c s) /\
  with_cache (match undo_account c acc with
              | Some b => <[change_address c := b]> (m_cache s)
              | None => delete (change_address c) (m_cache s)
              end) s (undo_state c s).
Proof.
  intros Hc. unfold undo_state, undo, update_at, cache_at, sbind, smod. rewrite Hc. cbn [default id].
  destruct c; cbn -[insert delete lookup] in *; rewrite ?lookup_insert_eq, ?(insert_id _ _ _ Hc), ?Hc; cbn -[insert delete lookup];
    (split; [done|constructor; cbn -[insert delete lookup]; rewrite ?Hc; done]).
Qed.

(** Undoing a change of equal accounts gives equal accounts. *)
Lemma code_of_setCode db code a : code_of db (Account.setCode code a) = if sha3 code =? EmptySHA3 then [] else code.
Proof.
  unfold code_of. cbn. destruct (Z.eqb_spec (sha3 code) EmptySHA3) as [|Hne]; [done|].
  destruct (Z.eqb_spec (lenZ code) 0) as [Hz|]; [|done]. destruct code; [done|]. unfold lenZ in Hz. cbn in Hz. lia.
Qed.

Lemma undo_account_view db db' c a a' b :
  db_le db db' -> view_eq (view_of db a) (view_of db' a') -> account_ok db' a' -> undo_account c a = Some b -> account_ok db b ->
  exists b', undo_account c a' = Some b' /\ view_eq (view_of db b) (view_of db' b') /\
    (isDirty a = true -> isDirty a' = true -> isDirty b' = isDirty b) /\ account_ok db' b'.
Proof.
  intros Hle [Ha Hn Hb Hh Hr Hc Hs] [Hs' Hc' Hb' Hnc' Hoc'] Hu Hok.
  destruct c; cbn in Hu; try discriminate; injection Hu as <-; eexists; (split; [reflexivity|]); cbn in *;
    (split; [constructor; cbn; try done|split; [unfold isDirty; cbn; congruence|]]).
  2,4,7,10: constructor; [done|exact Hc'|cbn; auto using u256_range|done|done].
  - by rewrite Hb.
  - intros k. unfold storage_of in *. cbn. destruct (decide (key = k)) as [<-|]; [by rewrite !lookup_insert_eq|].
    rewrite !lookup_insert_ne by done. apply Hs.
  - intros k. unfold storage_of. cbn. rewrite lookup_empty. symmetry. apply (stored_le db db' (setStorageRoot value a)); done.
  - constructor; [apply (ao_storage _ _ (account_ok_le _ _ _ Hle Hok))|exact Hc'|done|done|done].
  - by rewrite !code_of_setCode.
  - constructor; [done| |done|done|done]. rewrite code_of_setCode. cbn. destruct (Z.eqb_spec (sha3 oldCode) EmptySHA3); [done|done].
Qed.

Lemma with_cache_ok c (s : st) (s' : st) : with_cache c s s' -> state_ok (set_cache c s) -> state_ok s'.
Proof. intros [Hc Hdb Hst Hab Hn _] []. constructor; rewrite ?Hc, ?Hdb, ?Hst, ?Hab, ?Hn; done. Qed.
Lemma with_cache_view c (s : st) (s' : st) a : with_cache c s s' -> the_view s' a = the_view (set_cache c s) a.
Proof. intros [Hc Hdb _ _ _ _]. unfold StateSpec.the_view, StateSpec.the_account. cbn [m_cache m_db set_cache]. by rewrite Hc, Hdb. Qed.

Lemma with_cache_dirty c (s : st) (s' : st) a : with_cache c s s' -> dirty s' a <-> dirty (set_cache c s) a.
Proof. intros [Hc _ _ _ _ _]. unfold dirty. cbn [m_cache set_cache]. by rewrite Hc. Qed.

Lemma state_ok_delete (s : st) a : state_ok s -> state_ok (set_cache (delete a (m_cache s)) s).
Proof.
  intros Hs. constructor; cbn; try apply Hs.
  - intros b c. rewrite lookup_delete_Some. intros [_ Hb]. by eapply ok_cache.
  - intros b Hb. destruct (ok_absent _ s Hs b Hb) as [Hm Hc]. by rewrite lookup_delete_None, Hc; auto.
  - intros b c. rewrite lookup_delete_Some. intros [_ Hb]. by eapply ok_clean.
Qed.

Lemma dirty_Some (s : st) a : dirty s a -> exists acc, m_cache s !! a = Some acc /\ isDirty acc = true.
Proof. unfold dirty. destruct (m_cache s !! a) as [acc|]; [|done]. by exists acc. Qed.

Lemma the_view_cached (s : st) a acc : m_cache s !! a = Some acc -> the_view s a = Some (view_of (m_db s) acc).
Proof. intros Ha. unfold StateSpec.the_view, StateSpec.the_account. by rewrite Ha. Qed.

(** What is not cached is what the trie has. *)
Definition committed (db : DB) (a : Z) : option View :=
  match m !! addr_bytes a with
  | Some e => match decode_account e with Value acc => Some (view_of db acc) | _ => None end
  | None => None
  end.

Lemma the_view_uncached (s : st) a : m_cache s !! a = None -> the_view s a = committed (m_db s) a.
Proof.
  intros Ha. unfold StateSpec.the_view, StateSpec.the_account, committed. rewrite Ha. destruct (m !! addr_bytes a); [|done].
  by destruct (decode_account _).
Qed.

Lemma committed_le (s : st) db a : state_ok s -> db_le (m_db s) db -> option_Forall2 view_eq (committed (m_db s) a) (committed db a).
Proof.
  intros Hs Hle. unfold committed. destruct (m !! addr_bytes a) as [e|] eqn:He; [|constructor].
  destruct (ok_entry _ s Hs a e He) as (acc & -> & Hok). constructor. by apply view_of_le.
Qed.

Lemma clean_committed (s : st) a acc : state_ok s -> m_cache s !! a = Some acc -> isDirty acc = false ->
  option_Forall2 view_eq (Some (view_of (m_db s) acc)) (committed (m_db s) a).
Proof.
  intros Hs Ha Hd. destruct (ok_clean _ s Hs a acc Ha Hd) as (e & acc0 & He & Hdec & Hv). unfold committed. rewrite He, Hdec. by constructor.
Qed.

Lemma same_undo c s t : state_ok s -> state_ok t -> same s t -> dirty s (change_address c) -> state_ok (undo_state c s) ->
  same (undo_state c s) (undo_state c t) /\ state_ok (undo_state c t).
Proof.
  intros Hs Ht Hst Hd Hu. set (a := change_address c) in *.
  destruct (dirty_Some s a Hd) as (acc & Ha & Hda). destruct (dirty_Some t a (sm_dirty _ _ _ Hst a Hd)) as (acc' & Ha' & Hda').
  destruct (undo_spec c s acc Ha) as [_ Hws]. destruct (undo_spec c t acc' Ha') as [_ Hwt]. fold a in Hws, Hwt.
  pose proof (sm_view _ _ _ Hst a) as Hv. rewrite (the_view_cached s a acc Ha), (the_view_cached t a acc' Ha') in Hv.
  inversion Hv as [? ? Hve|]; subst. pose proof (sm_db _ _ _ Hst) as Hle.
  assert (forall x y (s1 t1 : st), m_db s1 = m_db s -> m_db t1 = m_db t -> m_state s1 = m_state s -> m_state t1 = m_state t ->
    m_accountStartNonce s1 = m_accountStartNonce s -> m_accountStartNonce t1 = m_accountStartNonce t ->
    m_cache s1 = partial_alter (fun _ => x) a (m_cache s) -> m_cache t1 = partial_alter (fun _ => y) a (m_cache t) ->
    option_Forall2 view_eq (the_view s1 a) (the_view t1 a) -> (dirty s1 a -> dirty t1 a) -> same s1 t1) as Hsame.
  { intros x y s1 t1 Es Et Es2 Et2 Es3 Et3 Ex Ey Hva Hdd. pose proof Hst as []. constructor; rewrite ?Es, ?Et; try done; try congruence.
    - intros b. destruct (decide (a = b)) as [<-|Hne]; [done|]. specialize (sm_view b). unfold StateSpec.the_view, StateSpec.the_account in *.
      by rewrite Es, Et, Ex, Ey, !lookup_partial_alter_ne by done.
    - intros b. destruct (decide (a = b)) as [<-|Hne]; [done|]. specialize (sm_dirty b). unfold dirty in *.
      by rewrite Ex, Ey, !lookup_partial_alter_ne by done. }
  destruct (undo_account c acc) as [b|] eqn:Hb.
  - assert (m_cache (undo_state c s) !! a = Some b) as Hcs by (rewrite (wc_cache _ _ _ Hws); apply lookup_insert_eq).
    pose proof (ok_cache _ _ Hu a b Hcs) as Hbok. rewrite (wc_db _ _ _ Hws) in Hbok.
    destruct (undo_account_view _ _ c acc acc' b Hle Hve (ok_cache _ _ Ht _ _ Ha') Hb Hbok) as (b' & Hb' & Hvb & Hdb & Hbok').
    specialize (Hdb Hda Hda'). rewrite Hb' in Hwt.
    assert (m_cache (undo_state c t) !! a = Some b') as Hct by (rewrite (wc_cache _ _ _ Hwt); apply lookup_insert_eq).
    split.
    + apply (Hsame (Some b) (Some b')); try apply Hws; try apply Hwt.
      * rewrite (the_view_cached _ a b Hcs), (the_view_cached _ a b' Hct), (wc_db _ _ _ Hws), (wc_db _ _ _ Hwt). by constructor.
      * unfold dirty. rewrite Hcs, Hct. congruence.
    + apply (with_cache_ok _ _ _ Hwt). apply state_ok_update; [done|by eapply ok_known|done|]. intros Hcl. rewrite Hdb in Hcl.
      destruct (ok_clean _ _ Hu a b Hcs Hcl) as (e & acc0 & He & Hdec & Hv0). exists e, acc0. split_and!; [done|done|].
      rewrite (wc_db _ _ _ Hws) in Hv0. destruct (ok_entry _ s Hs a e He) as (acc1 & Hdec1 & Hok1). assert (acc1 = acc0) as -> by congruence.
      rewrite <- (view_of_le _ _ _ Hle Hok1), <- Hvb. exact Hv0.
  - destruct (undo_account c acc') as [b'|] eqn:Hb'; [destruct c; discriminate|].
    assert (m_cache (undo_state c s) !! a = None) as Hcs by (rewrite (wc_cache _ _ _ Hws); apply lookup_delete_eq).
    assert (m_cache (undo_state c t) !! a = None) as Hct by (rewrite (wc_cache _ _ _ Hwt); apply lookup_delete_eq). split.
    + apply (Hsame None None); try apply Hws; try apply Hwt.
      * rewrite (the_view_uncached _ a Hcs), (the_view_uncached _ a Hct), (wc_db _ _ _ Hws), (wc_db _ _ _ Hwt). by apply committed_le.
      * unfold dirty. by rewrite Hcs.
    + apply (with_cache_ok _ _ _ Hwt). by apply state_ok_delete.
Qed.

(** ** Being ahead *)

(** Undoing these changes of [s'] leads back to the accounts of [s]. *)
Inductive undoes : list Change -> st -> st -> Prop :=
| undoes_nil s' s : same s s' -> undoes [] s' s
| undoes_cons c cs s' s :
    dirty s' (change_address c) -> state_ok (undo_state c s') -> undoes cs (undo_state c s') s -> undoes (c :: cs) s' s.

Lemma undoes_same cs s t s0 : state_ok s -> state_ok t -> same s t -> undoes cs s s0 -> undoes cs t s0.
Proof.
  intros Hs Ht Hst Hu. revert t Ht Hst. induction Hu as [s' s Hss|c cs s' s Hd Hok Hu IH]; intros t Ht Hst.
  - constructor. by eapply same_trans.
  - destruct (same_undo c s' t Hs Ht Hst Hd Hok) as [Hst' Ht']. constructor; [by apply (sm_dirty _ _ _ Hst)|done|]. by apply IH.
Qed.

Lemma undoes_app cs cs' s2 s1 s0 : state_ok s2 -> state_ok s1 -> undoes cs s2 s1 -> undoes cs' s1 s0 -> undoes (cs ++ cs') s2 s0.
Proof.
  intros Hs2 Hs1 Hu Hu'. induction Hu as [s' s Hss|c cs s' s Hd Hok Hu IH]; cbn [app].
  - by apply (undoes_same cs' s s').
  - constructor; [done|done|]. by apply IH.
Qed.

Record ahead (s s' : st) : Prop := {
  ah_ok : state_ok s';
  ah_keeps : forall a, is_Some (the_view s a) -> is_Some (the_view s' a);
  ah_dirty : forall a, dirty s a -> dirty s' a;
  ah_nonce : m_accountStartNonce s' = m_accountStartNonce s;
  ah_undo : exists cs, m_changeLog s' = cs ++ m_changeLog s /\ undoes cs s' s
}.

Lemma same_keeps s s' a : same s s' -> is_Some (the_view s a) -> is_Some (the_view s' a).
Proof. intros Hs [v Hv]. pose proof (sm_view _ _ _ Hs a) as Hx. rewrite Hv in Hx. inversion Hx. by eexists. Qed.

Lemma ahead_same s s' : state_ok s' -> same s s' -> m_changeLog s' = m_changeLog s -> ahead s s'.
Proof.
  intros Hok Hs Hl. constructor; [done|intros a; by apply same_keeps|apply Hs|apply Hs|]. exists []. split; [done|by constructor].
Qed.

Lemma ahead_quiet s s' : quiet s s' -> ahead s s'.
Proof. intros []. by apply ahead_same. Qed.

Lemma ahead_refl s : state_ok s -> ahead s s.
Proof. intros. apply ahead_same; [done|apply same_refl|done]. Qed.

Lemma ahead_trans s t u : ahead s t -> ahead t u -> ahead s u.
Proof.
  intros [Ht Hk1 Hd1 Hn1 (cs1 & Hl1 & Hu1)] [Hu Hk2 Hd2 Hn2 (cs2 & Hl2 & Hu2)]. constructor; auto; [congruence|].
  exists (cs2 ++ cs1). split; [by rewrite Hl2, Hl1, app_assoc|]. by apply (undoes_app cs2 cs1 u t s).
Qed.

(** ** Rollback *)

Lemma state_ok_log s l : state_ok s -> state_ok (set_changeLog l s).
Proof. intros []. by constructor. Qed.

Lemma same_log s l : same s (set_changeLog l s).
Proof.
  constructor; auto using db_le_refl. intros a. change (the_view (set_changeLog l s) a) with (the_view s a).
  by destruct (the_view s a); constructor.
Qed.

Lemma rollback_loop_undoes cs s s' log : state_ok s' -> undoes cs s' s -> m_changeLog s' = cs ++ log ->
  posts (rollback_loop (cs ++ log) (lenZ log)) (fun _ t => state_ok t /\ same s t /\ m_changeLog t = log) (fun _ _ => False) s'.
Proof.
  revert s'. induction cs as [|c cs IH]; intros s' Hs' Hu Hl; inversion Hu as [? ? Hss|? ? ? ? Hd Hok Hun]; subst; cbn [app].
  - assert (rollback_loop (DB := DB) (G := G) log (lenZ log) = sret tt) as -> by (destruct log; cbn [rollback_loop]; by rewrite Z.eqb_refl).
    by split_and!.
  - cbn [rollback_loop]. assert (lenZ log <? lenZ (c :: cs ++ log) = true) as Hlt
      by (unfold lenZ; cbn [length]; rewrite length_app; apply Z.ltb_lt; lia).
    apply Z.ltb_lt in Hlt. destruct (Z.eqb_spec (lenZ log) (lenZ (c :: cs ++ log))); [lia|].
    destruct (dirty_Some s' _ Hd) as (acc & Ha & _). destruct (undo_spec c s' acc Ha) as [Hun' _].
    eapply (posts_bind _ _ _ (fun _ t => t = undo_state c s')); [by unfold posts; rewrite Hun'|]. intros _ t ->.
    eapply (posts_bind _ _ _ (fun _ t => t = set_changeLog (cs ++ log) (undo_state c s'))); [done|]. intros _ t ->.
    apply IH; [by apply state_ok_log| |done].
    apply (undoes_same cs (undo_state c s')); [done|by apply state_ok_log|apply same_log|done].
Qed.

(** [rollback] to the savepoint of a state behind. *)
Lemma rollback_posts s s' : ahead s s' ->
  posts (rollback (savepoint s)) (fun _ t => state_ok t /\ same s t /\ m_changeLog t = m_changeLog s) (fun _ _ => False) s'.
Proof.
  intros [Hok _ _ _ (cs & Hl & Hu)]. unfold rollback. eapply (posts_bind _ _ _ (fun x t => x = s' /\ t = s')); [done|]. intros ? ? [-> ->].
  rewrite Hl. unfold savepoint. by apply rollback_loop_undoes.
Qed.

(** A rollback is a move ahead of every state behind the savepoint. *)
Lemma rollback_ahead s s1 s2 : ahead s s1 -> ahead s1 s2 ->
  posts (rollback (savepoint s1)) (fun _ t => ahead s t /\ same s1 t) (fun _ _ => False) s2.
Proof.
  intros H1 H2. eapply posts_mono; [by apply rollback_posts|intros _ t (Hok & Hs & Hl)|done]. split; [|done].
  eapply ahead_trans; [exact H1|]. by apply ahead_same.
Qed.
End Journal.
