(* ===== verification/StateOps.v ===== *)
(** * What the changes of the state do

    An abstract state is a function from addresses to views; every operation of
    [State] that changes an account is the corresponding function on the view at
    that address, leaves every other view alone, and moves ahead in the log. *)
From stdpp Require Import base list gmap fin_sets.
From Stdlib Require Import ZArith Lia.
From S2P Require Import Prelude Words Result Rlp StateMonad Account State StateSpec StateReads StateJournal.
Open Scope sm_scope.

Section Ops.
  Context {DB G : Type} `{Sha3} `{!StateDB DB} `{!StateDBLaws DB} `{!RandomEngine G} `{!UnorderedMaps}.
  Notation st := (State DB G).
  Context (m : trie_map).
  Notation the_account := (the_account (DB := DB) (G := G) m).
  Notation the_view := (the_view (DB := DB) (G := G) m).
  Notation same := (same (DB := DB) (G := G) m).
  Notation state_ok := (state_ok (DB := DB) (G := G) m).
  Notation quiet := (quiet (DB := DB) (G := G) m).
  Notation ahead := (ahead (DB := DB) (G := G) m).

(** ** Functions on views *)

Definition new_view (nonce balance : Z) : View := mkView true nonce balance EmptySHA3 EmptyTrie [] (fun _ => 0).

Definition view_addBalance (start amount : Z) (o : option View) : option View :=
  match o with
  | Some v => Some (mkView (v_alive v) (v_nonce v) (u256 (v_balance v + amount)) (v_codeHash v) (v_root v) (v_code v) (v_storage v))
  | None => Some (new_view start amount)
  end.
Definition view_setNonce (n : Z) (o : option View) : option View :=
  match o with
  | Some v => Some (mkView (v_alive v) n (v_balance v) (v_codeHash v) (v_root v) (v_code v) (v_storage v))
  | None => Some (new_view n 0)
  end.
Definition view_incNonce (start : Z) (o : option View) : option View :=
  view_setNonce (u256 (from_option v_nonce start o + 1)) o.
Definition view_setStorage (k x : Z) (o : option View) : option View :=
  match o with
  | Some v => Some (mkView (v_alive v) (v_nonce v) (v_balance v) (v_codeHash v) (v_root v) (v_code v)
      (fun k' => if k =? k' then x else v_storage v k'))
  | None => None
  end.
Definition view_clearStorage (o : option View) : option View :=
  match o with
  | Some v => if v_root v =? EmptyTrie then Some v
              else Some (mkView (v_alive v) (v_nonce v) (v_balance v) (v_codeHash v) EmptyTrie (v_code v) (fun _ => 0))
  | None => None
  end.
Definition view_setCode (c : list Z) (o : option View) : option View :=
  match o with
  | Some v => Some (mkView (v_alive v) (v_nonce v) (v_balance v) (sha3 c) (v_root v)
      (if sha3 c =? EmptySHA3 then [] else c) (v_storage v))
  | None => None
  end.

(** [s'] has the accounts of [s] with [f] applied at [a]. *)
Definition effect (s s' : st) (a : Z) (f : option View -> option View) : Prop :=
  forall b, option_Forall2 view_eq (if decide (a = b) then f (the_view s b) else the_view s b) (the_view s' b).

(** Operations see only the fields of a view. *)
Definition respects (f : option View -> option View) : Prop :=
  forall u v, option_Forall2 view_eq u v -> option_Forall2 view_eq (f u) (f v).

Lemma option_view_trans (u v w : option View) : option_Forall2 view_eq u v -> option_Forall2 view_eq v w -> option_Forall2 view_eq u w.
Proof. intros [x y Hxy|] Hv; inversion Hv; subst; constructor. by etransitivity. Qed.

Lemma option_view_sym (u v : option View) : option_Forall2 view_eq u v -> option_Forall2 view_eq v u.
Proof. intros [x y Hxy|]; constructor. by symmetry. Qed.

Ltac respects_tac := intros u v [x y []|]; cbn; try constructor; try (constructor; cbn; congruence); done.

Lemma respects_addBalance n x : respects (view_addBalance n x).
Proof. intros u v [x0 y []|]; cbn; [|done]; constructor; constructor; cbn; congruence. Qed.
Lemma respects_setNonce n : respects (view_setNonce n).
Proof. intros u v [x0 y []|]; cbn; [|done]; constructor; constructor; cbn; congruence. Qed.
Lemma respects_incNonce n : respects (view_incNonce n).
Proof.
  intros u v Huv. unfold view_incNonce. assert (from_option v_nonce n u = from_option v_nonce n v) as -> by (by destruct Huv as [x y []|]).
  by apply respects_setNonce.
Qed.
Lemma respects_setStorage k x : respects (view_setStorage k x).
Proof.
  intros u v [x0 y []|]; cbn; constructor. constructor; cbn; try done. intros k'. by destruct (k =? k').
Qed.
Lemma respects_clearStorage : respects view_clearStorage.
Proof.
  intros u v [x0 y []|]; cbn; [|constructor]. rewrite ve_root. destruct (v_root y =? EmptyTrie); constructor; by constructor.
Qed.
Lemma respects_setCode c : respects (view_setCode c).
Proof. intros u v [x0 y []|]; cbn; constructor. by constructor. Qed.

(** ** Effects and moves *)

Definition moves (s s' : st) (a : Z) (f : option View -> option View) : Prop := ahead s s' /\ effect s s' a f.

Lemma effect_quiet s s1 s2 a f : respects f -> quiet s s1 -> effect s1 s2 a f -> effect s s2 a f.
Proof.
  intros Hf Hq He b. specialize (He b). pose proof (sm_view _ _ _ (qu_same _ _ _ Hq) b) as Hv.
  destruct (decide (a = b)); (eapply option_view_trans; [|exact He]); [by apply Hf|done].
Qed.

Lemma moves_quiet s s1 s2 a f : respects f -> quiet s s1 -> moves s1 s2 a f -> moves s s2 a f.
Proof.
  intros Hf Hq [Ha He]. split; [|by eapply effect_quiet]. eapply ahead_trans; [by apply ahead_quiet|exact Ha].
Qed.

(** A new value for one account. *)
Record updates (a : Z) (acc : Account) (s s' : st) : Prop := {
  up_cache : m_cache s' = <[a := acc]> (m_cache s);
  up_db : m_db s' = m_db s;
  up_state : m_state s' = m_state s;
  up_absent : forall b, b ∈ m_nonExistingAccountsCache s' -> b ∈ m_nonExistingAccountsCache s /\ b <> a;
  up_nonce : m_accountStartNonce s' = m_accountStartNonce s
}.

Lemma updates_cached a acc acc' (s s' : st) : state_ok s -> m_cache s !! a = Some acc -> m_cache s' = <[a := acc']> (m_cache s) ->
  m_db s' = m_db s -> m_state s' = m_state s -> m_nonExistingAccountsCache s' = m_nonExistingAccountsCache s ->
  m_accountStartNonce s' = m_accountStartNonce s -> updates a acc' s s'.
Proof.
  intros Hs Hc Hc' Hdb Hst Hab Hn. constructor; try done. intros b. rewrite Hab. intros Hb. split; [done|]. intros ->.
  by apply (ok_known m s a acc).
Qed.

Lemma updates_view a acc (s s' : st) b : updates a acc s s' -> the_view s' b = if decide (a = b) then Some (view_of (m_db s) acc) else the_view s b.
Proof.
  intros [Hc Hdb _ _ _]. unfold StateSpec.the_view. rewrite <- Hdb. destruct (decide (a = b)) as [<-|Hne]; unfold StateSpec.the_account; rewrite Hc.
  - by rewrite lookup_insert_eq.
  - by rewrite lookup_insert_ne, Hdb.
Qed.

Lemma updates_dirty a acc (s s' : st) b : updates a acc s s' -> dirty s' b <-> (if decide (a = b) then isDirty acc = true else dirty s b).
Proof.
  intros [Hc _ _ _ _]. unfold dirty. rewrite Hc. destruct (decide (a = b)) as [<-|Hne]; [by rewrite lookup_insert_eq|by rewrite lookup_insert_ne].
Qed.

Lemma updates_ok a acc (s s' : st) : updates a acc s s' -> state_ok s -> account_ok (m_db s) acc ->
  (isDirty acc = false -> option_Forall2 view_eq (Some (view_of (m_db s) acc)) (committed m (m_db s) a)) -> state_ok s'.
Proof.
  intros [Hc Hdb Hst Hab Hn] Hs Hok Hcl. constructor; rewrite ?Hdb, ?Hst, ?Hn; try apply Hs.
  - intros b c. rewrite Hc. destruct (decide (a = b)) as [<-|]; [rewrite lookup_insert_eq; by intros [= <-]|rewrite lookup_insert_ne by done; apply Hs].
  - intros b Hb. destruct (Hab b Hb) as [Hb' Hne]. rewrite Hc, lookup_insert_ne by done. by apply (ok_absent _ s Hs).
  - intros b c. rewrite Hc. destruct (decide (a = b)) as [<-|]; [rewrite lookup_insert_eq; intros [= <-]|rewrite lookup_insert_ne by done; apply Hs].
    intros Hd. specialize (Hcl Hd). unfold committed in Hcl. destruct (m !! addr_bytes a) as [e|] eqn:He; [|inversion Hcl].
    destruct (decode_account e) as [acc0| | |] eqn:Hdec; inversion Hcl; subst. by exists e, acc0.
Qed.

(** What an update with these changes logged needs to lead back. *)
Lemma updates_ahead a acc (s s' : st) cs :
  updates a acc s s' -> state_ok s -> account_ok (m_db s) acc -> isDirty acc = true ->
  m_changeLog s' = cs ++ m_changeLog s -> undoes m cs s' s -> ahead s s'.
Proof.
  intros Hu Hs Hok Hd Hl Hun. constructor.
  - apply (updates_ok a acc s s' Hu Hs Hok). congruence.
  - intros b. rewrite (updates_view a acc s s' b Hu). destruct (decide (a = b)); [intros _; by eexists|done].
  - intros b. rewrite (updates_dirty a acc s s' b Hu). by destruct (decide (a = b)).
  - apply Hu.
  - by exists cs.
Qed.
Lemma updates_effect a acc (s s' : st) f : updates a acc s s' ->
  option_Forall2 view_eq (f (the_view s a)) (Some (view_of (m_db s) acc)) -> effect s s' a f.
Proof.
  intros Hu Hf b. rewrite (updates_view a acc s s' b Hu). destruct (decide (a = b)) as [<-|]; [done|apply option_view_refl].
Qed.

(** ** One step of the log *)

(** An account that is replaced has its place in the cache, or is new. *)
Lemma undone_same c acc' (s s' : st) : let a := change_address c in
  state_ok s -> updates a acc' s s' -> isDirty acc' = true -> account_ok (m_db s) acc' ->
  match undo_account c acc' with
  | Some acc'' => exists acc, m_cache s !! a = Some acc /\ account_ok (m_db s) acc'' /\
      view_eq (view_of (m_db s) acc) (view_of (m_db s) acc'') /\ (isDirty acc'' = false -> isDirty acc = false)
  | None => the_account s a = None
  end ->
  state_ok (undo_state c s') /\ same s (undo_state c s').
Proof.
  intros a Hs Hu Hd Hok Hun. assert (state_ok s') as Hs' by (apply (updates_ok a acc' s s' Hu Hs Hok); congruence).
  assert (m_cache s' !! a = Some acc') as Hc' by (rewrite (up_cache _ _ _ _ Hu); apply lookup_insert_eq).
  destruct (undo_spec c s' acc' Hc') as [_ Hw]. fold a in Hw. pose proof (up_db _ _ _ _ Hu) as Hdb.
  destruct (undo_account c acc') as [acc''|].
  - destruct Hun as (acc & Hc & Hok'' & Hv & Hcl). rewrite (up_cache _ _ _ _ Hu), insert_insert_eq in Hw.
    assert (updates a acc'' s (undo_state c s')) as Hu''.
    { destruct Hu, Hw. constructor; congruence || (intros b; rewrite wc_absent; apply up_absent0). }
    split.
    + apply (updates_ok a acc'' s _ Hu'' Hs Hok''). intros Hcd.
      eapply option_view_trans; [|apply (clean_committed m s a acc Hs Hc (Hcl Hcd))]. constructor. by symmetry.
    + pose proof Hu'' as []. constructor; rewrite ?up_db0; auto using db_le_refl.
      * intros b. rewrite (updates_view a acc'' s (undo_state c s') b Hu''). destruct (decide (a = b)) as [<-|]; [|apply option_view_refl].
        rewrite (the_view_cached m s a acc Hc). by constructor.
      * intros b Hb. rewrite (updates_dirty a acc'' s (undo_state c s') b Hu''). destruct (decide (a = b)) as [<-|]; [|done].
        destruct (isDirty acc'') eqn:He; [done|]. unfold dirty in Hb. rewrite Hc in Hb. specialize (Hcl eq_refl). congruence.
  - assert (m_cache s !! a = None) as Hc by (unfold StateSpec.the_account in Hun; by destruct (m_cache s !! a)).
    rewrite (up_cache _ _ _ _ Hu), delete_insert_id in Hw by done.
    assert (quiet s (set_changeLog (m_changeLog s) (undo_state c s'))) as [Hok2 Hsm _].
    { destruct Hu, Hw. apply quiet_frame; cbn [m_db m_state m_cache m_nonExistingAccountsCache m_accountStartNonce m_changeLog set_changeLog]; try done; try congruence. intros b. rewrite wc_absent. intros Hb.
      apply (ok_absent _ s Hs). by apply up_absent0. }
    by split; [destruct Hok2|destruct Hsm].
Qed.

Lemma logged_change c acc' (s s' : st) : let a := change_address c in
  state_ok s -> updates a acc' s s' -> m_changeLog s' = c :: m_changeLog s -> isDirty acc' = true -> account_ok (m_db s) acc' ->
  match undo_account c acc' with
  | Some acc'' => exists acc, m_cache s !! a = Some acc /\ account_ok (m_db s) acc'' /\
      view_eq (view_of (m_db s) acc) (view_of (m_db s) acc'') /\ (isDirty acc'' = false -> isDirty acc = false)
  | None => the_account s a = None
  end ->
  ahead s s'.
Proof.
  intros a Hs Hu Hl Hd Hok Hun. destruct (undone_same c acc' s s' Hs Hu Hd Hok Hun) as [Hok' Hsm].
  apply (updates_ahead a acc' s s' [c] Hu Hs Hok Hd Hl). constructor; [|done|by constructor].
  unfold dirty. by rewrite (up_cache _ _ _ _ Hu), lookup_insert_eq.
Qed.

(** A change that the views do not show is not logged. *)
Lemma silent_change a acc acc' (s s' : st) : state_ok s -> m_cache s !! a = Some acc -> updates a acc' s s' -> m_changeLog s' = m_changeLog s ->
  isDirty acc' = true -> account_ok (m_db s) acc' -> view_eq (view_of (m_db s) acc) (view_of (m_db s) acc') -> ahead s s'.
Proof.
  intros Hs Hc Hu Hl Hd Hok Hv. apply ahead_same; [|constructor|done]; try apply Hu.
  - apply (updates_ok a acc' s s' Hu Hs Hok). congruence.
  - rewrite (up_db _ _ _ _ Hu). apply db_le_refl.
  - intros b. rewrite (updates_view a acc' s s' b Hu). destruct (decide (a = b)) as [<-|]; [|apply option_view_refl].
    rewrite (the_view_cached m s a acc Hc). by constructor.
  - intros b. rewrite (updates_dirty a acc' s s' b Hu). by destruct (decide (a = b)).
Qed.

(** ** The operations *)

(** [addBalance] on an account in the cache. *)
Lemma u256_undo b x : is_u256 b -> u256 (u256 (b + x) + u256 (0 - x)) = b.
Proof.
  intros Hb. unfold u256. rewrite <- Zplus_mod. replace (b + x + (0 - x)) with b by lia. by apply u256_small.
Qed.

Lemma addBalance_ok db x a : account_ok db a -> account_ok db (Account.addBalance x a).
Proof. intros []. constructor; [done|done|apply u256_range|done|done]. Qed.

Lemma addBalance_view db x a : is_u256 (m_balance a) ->
  view_eq (view_of db a) (view_of db (Account.addBalance (u256 (0 - x)) (Account.addBalance x a))).
Proof. intros Hb. constructor; try done. cbn. by rewrite u256_undo. Qed.

(** The account made dirty under a [Touch]. *)
Lemma touch_ahead a acc (s s' : st) : state_ok s -> m_cache s !! a = Some acc -> updates a (changed acc) s s' ->
  m_changeLog s' = Touch a :: m_changeLog s -> isDirty acc = false -> ahead s s'.
Proof.
  intros Hs Hc Hu Hl Hd. pose proof (ok_cache _ _ Hs a acc Hc) as [].
  apply (logged_change (Touch a) (changed acc)); try done. cbn. by exists acc.
Qed.


(** What an operation on [a] leaves: the state ahead, its function on the view,
    and the account in the cache as changed. *)
Definition op_posts (a : Z) (f : option View -> option View) (s : st) : unit -> st -> Prop := fun _ s' => moves s s' a f /\ dirty s' a.

Lemma updates_moves a acc' (s s' : st) f : updates a acc' s s' -> isDirty acc' = true -> ahead s s' ->
  option_Forall2 view_eq (f (the_view s a)) (Some (view_of (m_db s) acc')) -> op_posts a f s tt s'.
Proof.
  intros Hu Hd Ha Hf. split; [split; [done|by apply (updates_effect a acc')]|]. apply (updates_dirty a acc' s s' a Hu). by destruct (decide (a = a)).
Qed.

(** The account is looked up first. *)
Lemma after_account (k : option Account -> SM st state_error unit) a f s : respects f -> state_ok s ->
  (forall r s1, loaded m s a r s1 -> posts (k r) (op_posts a f s1) (fun _ _ => False) s1) ->
  posts (r <- account a ;; k r) (op_posts a f s) (fun _ _ => False) s.
Proof.
  intros Hf Hs Hk. eapply posts_bind; [by apply (account_posts m)|]. intros r s1 Hl. eapply posts_mono; [by apply Hk| |done].
  intros u s2 [Hm Hd]. split; [|done]. eapply moves_quiet; [done|apply Hl|done].
Qed.

Lemma loaded_ok s a r s1 : loaded m s a r s1 -> state_ok s1.
Proof. intros Hl. apply (ld_quiet _ _ _ _ _ Hl). Qed.

(** [createAccount] where there was none. *)
Lemma createAccount_posts a acc f s : state_ok s -> the_account s a = None -> isDirty acc = true -> account_ok (m_db s) acc ->
  option_Forall2 view_eq (f None) (Some (view_of (m_db s) acc)) ->
  posts (createAccount a acc) (op_posts a f s) (fun _ _ => False) s.
Proof.
  intros Hs Hn Hd Hok Hf. unfold createAccount, log_change, posts, sbind, smod.
  match goal with |- op_posts _ _ _ _ ?x => set (s' := x) end.
  assert (updates a acc s s') as Hu by (constructor; try done; cbn; set_solver).
  apply (updates_moves a acc); [done|done| |unfold StateSpec.the_view; by rewrite Hn].
  by apply (logged_change (Create a) acc).
Qed.

Lemma new_account_ok db n b : is_u256 b -> account_ok db (Account_new n b Changed).
Proof. intros Hb. by apply account_ok_plain. Qed.

Lemma new_account_view db n b : view_eq (new_view n b) (view_of db (Account_new n b Changed)).
Proof. constructor; try done; cbn; [unfold code_of; cbn; by rewrite Z.eqb_refl|]. intros k. unfold storage_of. cbn. rewrite lookup_empty. unfold stored. by rewrite Z.eqb_refl. Qed.

(** A step between two states, for an operation that logs two changes. *)
Definition put (a : Z) (acc : Account) (c : Change) (s : st) : st :=
  set_nonExisting (m_nonExistingAccountsCache s ∖ {[a]}) (set_changeLog (c :: m_changeLog s) (set_cache (<[a := acc]> (m_cache s)) s)).

Lemma put_updates a acc c s : updates a acc s (put a acc c s).
Proof. constructor; try done. cbn. set_solver. Qed.

Lemma put_cache a acc c s : m_cache (put a acc c s) !! a = Some acc.
Proof. apply lookup_insert_eq. Qed.

Lemma updates_put a acc acc' c (s s' : st) : updates a acc' s s' -> updates a acc' (put a acc c s) s'.
Proof.
  intros []. constructor; try done; [rewrite up_cache0; cbn; by rewrite insert_insert_eq|].
  intros b Hb. destruct (up_absent0 b Hb). cbn. set_solver.
Qed.
#[local] Hint Resolve put_updates put_cache updates_put : core.

(** The log of an [addBalance]. *)
Lemma addBalance_ahead a x acc (touch : bool) (s s' : st) : state_ok s -> m_cache s !! a = Some acc ->
  updates a (Account.addBalance x acc) s s' -> (touch = true -> isDirty acc = false) ->
  m_changeLog s' = (if x =? 0 then [] else [Balance a x]) ++ (if touch then [Touch a] else []) ++ m_changeLog s ->
  ahead s s'.
Proof.
  intros Hs Hc Hu Ht Hlog. pose proof (ok_cache _ _ Hs a acc Hc) as Hok. pose proof (addBalance_ok _ x acc Hok) as Hok'.
  pose proof (ao_balance _ _ Hok) as Hb.
  assert (x = 0 -> view_eq (view_of (m_db s) acc) (view_of (m_db s) (Account.addBalance x acc))) as Hz.
  { intros ->. constructor; try done. cbn. rewrite Z.add_0_r. by rewrite u256_small. }
  destruct (Z.eqb_spec x 0) as [Hx|Hx], touch; cbn [app] in Hlog.
  - apply (logged_change (Touch a) (Account.addBalance x acc)); try done. cbn [change_address undo_account]. exists acc.
    split_and!; [done| |by rewrite (Hz Hx)|auto]. destruct Hok'. by constructor.
  - apply (silent_change a acc (Account.addBalance x acc)); auto.
  - assert (ahead s (put a (changed acc) (Touch a) s)) as Ha by (apply (touch_ahead a acc); auto). eapply ahead_trans; [exact Ha|].
    apply (logged_change (Balance a x) (Account.addBalance x acc)); auto; [apply Ha|].
    cbn [change_address undo_account]. exists (changed acc).
    split_and!; [apply put_cache|by apply addBalance_ok|exact (addBalance_view _ x acc Hb)|done].
  - apply (logged_change (Balance a x) (Account.addBalance x acc)); try done. cbn [change_address undo_account]. exists acc.
    split_and!; [done|by apply addBalance_ok|exact (addBalance_view _ x acc Hb)|done].
Qed.

Lemma addBalance_new_ahead a x n (s s' : st) : is_u256 x -> state_ok s -> the_account s a = None -> updates a (Account_new n x Changed) s s' ->
  m_changeLog s' = (if x =? 0 then [] else [Balance a x]) ++ Create a :: m_changeLog s -> ahead s s'.
Proof.
  intros Hx Hs Hn Hu Hlog. destruct (Z.eqb_spec x 0) as [->|Hne]; cbn [app] in Hlog.
  - apply (logged_change (Create a) (Account_new n 0 Changed)); try done. by apply new_account_ok.
  - assert (Account_new n x Changed = Account.addBalance x (Account_new n 0 Changed)) as Heq
      by (unfold Account.addBalance, changed, Account_new; cbn; by rewrite u256_small).
    assert (ahead s (put a (Account_new n 0 Changed) (Create a) s)) as Ha.
    { apply (logged_change (Create a) (Account_new n 0 Changed)); auto. by apply new_account_ok. }
    eapply ahead_trans; [exact Ha|].
    apply (logged_change (Balance a x) (Account_new n x Changed)); auto; [apply Ha|by apply new_account_ok|].
    cbn [change_address undo_account]. exists (Account_new n 0 Changed). rewrite Heq.
    split_and!; [apply put_cache|by apply addBalance_ok, addBalance_ok, new_account_ok|by apply addBalance_view|done].
Qed.

Lemma addBalance_posts a x s : is_u256 x -> state_ok s ->
  posts (addBalance a x) (op_posts a (view_addBalance (m_accountStartNonce s) x) s) (fun _ _ => False) s.
Proof.
  intros Hx Hs. unfold addBalance. apply after_account; [apply respects_addBalance|done|]. intros r s1 Hl.
  pose proof (loaded_ok _ _ _ _ Hl) as Hs1. pose proof (ld_cache _ _ _ _ _ Hl) as Hc.
  rewrite <- (sm_nonce _ _ _ (qu_same _ _ _ (ld_quiet _ _ _ _ _ Hl))). destruct r as [acc|].
  - assert (exists s', (((if negb (isDirty acc) && isEmpty acc then log_change (Touch a) else sret tt) ;; update_account a (Account.addBalance x)) ;;
      if negb (x =? 0) then log_change (Balance a x) else sret tt) s1 = (Value tt, s') /\ updates a (Account.addBalance x acc) s1 s' /\
      m_changeLog s' = (if x =? 0 then [] else [Balance a x]) ++ (if negb (isDirty acc) && isEmpty acc then [Touch a] else []) ++ m_changeLog s1)
      as (s' & Hrun & Hu & Hlog).
    { unfold update_account, log_change, sbind, smod, sret.
      destruct (negb (isDirty acc) && isEmpty acc), (x =? 0); cbn [negb]; eexists; (split; [done|]); (split; [|done]);
        apply (updates_cached a acc); try done; cbn [m_cache set_cache set_changeLog]; by apply alter_insert_eq_gen. }
    unfold posts. rewrite Hrun. apply (updates_moves a (Account.addBalance x acc)); try done.
    + apply (addBalance_ahead a x acc (negb (isDirty acc) && isEmpty acc)); try done. by destruct (isDirty acc).
    + rewrite (the_view_cached m s1 a acc Hc). by constructor.
  - pose proof (loaded_view _ _ _ _ _ Hl) as Hn. set (n := m_accountStartNonce s1).
    assert (exists s', (((n <- requireAccountStartNonce ;; createAccount a (Account_new n x Changed)) ;;
      if negb (x =? 0) then log_change (Balance a x) else sret tt) s1 = (Value tt, s')) /\ updates a (Account_new n x Changed) s1 s' /\
      m_changeLog s' = (if x =? 0 then [] else [Balance a x]) ++ Create a :: m_changeLog s1) as (s' & Hrun & Hu & Hlog).
    { pose proof (requireAccountStartNonce_posts m s1 Hs1) as Hr. unfold posts in Hr.
      destruct (requireAccountStartNonce s1) as [r s1'] eqn:Er. destruct r as [y| | |]; try done. destruct Hr as [-> ->].
      unfold createAccount, log_change. unfold sbind at 1 2. rewrite Er. unfold sbind, smod, sret. fold n.
      destruct (x =? 0); cbn [negb]; eexists; (split; [done|]); (split; [|done]); constructor; try done; cbn; set_solver. }
    unfold posts. rewrite Hrun. apply (updates_moves a (Account_new n x Changed)); try done.
    + by apply (addBalance_new_ahead a x n).
    + unfold StateSpec.the_view. rewrite Hn. cbn. constructor. apply new_account_view.
Qed.
(** A change through the pointer that [account] returned, and its entry in the
    log. *)
Lemma change_cached a acc acc' c f s : state_ok s -> m_cache s !! a = Some acc -> isDirty (f acc) = true -> account_ok (m_db s) (f acc) ->
  change_address c = a -> undo_account c (f acc) = Some acc' -> account_ok (m_db s) acc' ->
  view_eq (view_of (m_db s) acc) (view_of (m_db s) acc') -> (isDirty acc' = false -> isDirty acc = false) ->
  forall g, option_Forall2 view_eq (g (Some (view_of (m_db s) acc))) (Some (view_of (m_db s) (f acc))) ->
  forall s', m_changeLog s' = c :: m_changeLog s -> updates a (f acc) s s' -> op_posts a g s tt s'.
Proof.
  intros Hs Hc Hd Hok <- Hun Hok' Hv Hcl g Hg s' Hl Hu. apply (updates_moves _ (f acc)); try done.
  - apply (logged_change c (f acc)); try done. rewrite Hun. by exists acc.
  - by rewrite (the_view_cached m s _ acc Hc).
Qed.

Lemma setNonce_ok db n a : account_ok db a -> account_ok db (Account.setNonce n a).
Proof. intros []. by constructor. Qed.

(** [incNonce] and [setNonce] on an account. *)
Lemma nonce_posts a acc n f s : state_ok s -> m_cache s !! a = Some acc -> f acc = Account.setNonce n acc ->
  posts (update_account a f ;; log_change (Nonce a (m_nonce acc))) (op_posts a (view_setNonce n) s) (fun _ _ => False) s.
Proof.
  intros Hs Hc Hf. pose proof (ok_cache _ _ Hs a acc Hc) as Hok. unfold update_account, log_change, posts, sbind, smod.
  eapply (change_cached a acc (Account.setNonce (m_nonce acc) (f acc)) (Nonce a (m_nonce acc)) f); rewrite ?Hf; try done;
    auto using setNonce_ok.
  apply (updates_cached a acc); try done. cbn [m_cache set_cache set_changeLog]. by rewrite (alter_insert_eq_gen s a acc), Hf.
Qed.

Lemma setNonce_posts a n s : state_ok s ->
  posts (setNonce a n) (op_posts a (view_setNonce n) s) (fun _ _ => False) s.
Proof.
  intros Hs. unfold setNonce. apply after_account; [apply respects_setNonce|done|]. intros r s1 Hl.
  pose proof (loaded_ok _ _ _ _ Hl) as Hs1. destruct r as [acc|].
  - by apply nonce_posts; [|apply Hl|].
  - apply createAccount_posts; [done|by eapply loaded_view|done|by apply new_account_ok|]. constructor. apply new_account_view.
Qed.

Lemma incNonce_posts a s : state_ok s ->
  posts (incNonce a) (op_posts a (view_incNonce (m_accountStartNonce s)) s) (fun _ _ => False) s.
Proof.
  intros Hs. unfold incNonce. apply after_account; [apply respects_incNonce|done|]. intros r s1 Hl.
  pose proof (loaded_ok _ _ _ _ Hl) as Hs1. pose proof (ld_cache _ _ _ _ _ Hl) as Hc.
  rewrite <- (sm_nonce _ _ _ (qu_same _ _ _ (ld_quiet _ _ _ _ _ Hl))). pose proof (loaded_view _ _ _ _ _ Hl) as Hv. destruct r as [acc|].
  - eapply posts_mono; [by apply (nonce_posts a acc (u256 (m_nonce acc + 1)))| |done]. intros u s2 [[Ha He] Hd].
    split; [split; [done|]|done]. intros b. specialize (He b). unfold view_incNonce. destruct (decide (a = b)) as [<-|]; [|done].
    unfold StateSpec.the_view in *. by rewrite Hv in *.
  - eapply posts_bind; [by apply (requireAccountStartNonce_posts m)|]. intros n s2 [-> ->].
    apply createAccount_posts; [done|done|done|by apply new_account_ok|]. constructor. apply new_account_view.
Qed.

Lemma createContract_posts a s : state_ok s -> the_view s a = None ->
  posts (createContract a) (op_posts a (view_setNonce (m_accountStartNonce s)) s) (fun _ _ => False) s.
Proof.
  intros Hs Hv. unfold createContract. eapply posts_bind; [by apply (requireAccountStartNonce_posts m)|]. intros n s2 [-> ->].
  apply createAccount_posts; [done| |done|by apply new_account_ok|constructor; apply new_account_view].
  unfold StateSpec.the_view in Hv. by destruct (the_account s a).
Qed.

(** The view of an account that a query left in the cache. *)
Lemma cached_view (s : st) a : is_Some (m_cache s !! a) ->
  exists acc, m_cache s !! a = Some acc /\ the_view s a = Some (view_of (m_db s) acc).
Proof. intros [acc Hc]. exists acc. split; [done|by apply the_view_cached]. Qed.

(** [m_cache\[a\]] of an account that is there. *)
Definition logged (a : Z) (acc : Account) (c : Change) (s : st) : st := set_cache (<[a := acc]> (m_cache s)) (set_changeLog (c :: m_changeLog s) s).

Lemma update_at_cached (s : st) a acc f c : m_cache s !! a = Some acc ->
  (log_change c ;; update_at a f) s = (Value tt, logged a (f acc) c s).
Proof. intros Hc. unfold log_change, update_at, sbind, smod, cache_at. cbn [m_cache set_changeLog]. by rewrite Hc. Qed.

Lemma logged_updates (s : st) a acc acc' c : state_ok s -> m_cache s !! a = Some acc -> updates a acc' s (logged a acc' c s).
Proof. intros Hs Hc. by apply (updates_cached a acc). Qed.

Lemma setStorage_ok db k x a : account_ok db a -> account_ok db (Account.setStorage k x a).
Proof. intros []. by constructor. Qed.

Lemma setStorage_posts a k x s : state_ok s -> is_Some (the_view s a) ->
  posts (setStorage a k x) (op_posts a (view_setStorage k x) s) (fun _ _ => False) s.
Proof.
  intros Hs Hex. unfold setStorage. eapply posts_bind; [by apply (storage_posts m)|]. intros old s1 (Hold & Hq & Hc).
  destruct (cached_view s1 a (Hc Hex)) as (acc & Hacc & Hv1). pose proof (qu_ok _ _ _ Hq) as Hs1.
  pose proof (sm_view _ _ _ (qu_same _ _ _ Hq) a) as Hv. destruct Hex as [v Hv0]. rewrite Hv0, Hv1 in Hv. inversion Hv as [? ? Hve|]; subst.
  rewrite Hv0. cbn [from_option]. rewrite (ve_storage _ _ Hve k). pose proof (ok_cache _ _ Hs1 a acc Hacc) as Hok.
  unfold posts. rewrite (update_at_cached s1 a acc) by done.
  assert (op_posts a (view_setStorage k x) s1 tt (logged a (Account.setStorage k x acc) (Storage a k (storage_of (m_db s1) acc k)) s1)) as [Hm Hd].
  { eapply (change_cached a acc _ (Storage a k (storage_of (m_db s1) acc k)) (Account.setStorage k x)); try (by eapply logged_updates); try done; auto using setStorage_ok.
    - constructor; try done. intros k'. cbn. unfold storage_of. cbn. destruct (decide (k = k')) as [<-|]; [by rewrite lookup_insert_eq|].
      by rewrite !lookup_insert_ne.
    - constructor. constructor; try done. intros k'. cbn. unfold storage_of. cbn. destruct (Z.eqb_spec k k') as [<-|]; [by rewrite lookup_insert_eq|].
      by rewrite lookup_insert_ne. }
  split; [|done]. eapply moves_quiet; [apply respects_setStorage|done|done].
Qed.

Lemma dirty_same s s1 a : same s s1 -> dirty s a -> dirty s1 a.
Proof. intros Hs. apply Hs. Qed.

Lemma setCode_ok db c a : account_ok db a -> account_ok db (Account.setCode c a).
Proof. intros []. constructor; [done| |done|done|done]. rewrite code_of_setCode. cbn. by destruct (Z.eqb_spec (sha3 c) EmptySHA3). Qed.

(** [Account::setCode] does not mark the account, so it has to be marked. *)
Lemma setCode_posts a c s : state_ok s -> dirty s a ->
  posts (setCode a c) (op_posts a (view_setCode c) s) (fun _ _ => False) s.
Proof.
  intros Hs Hdirty. unfold setCode. eapply posts_bind; [by apply (code_posts m)|]. intros old s1 (Hold & Hq & Hc).
  destruct (dirty_Some s a Hdirty) as (acc0 & Hacc0 & _). pose proof (the_view_cached m s a acc0 Hacc0) as Hv0. rewrite Hv0 in Hold, Hc.
  destruct (cached_view s1 a (Hc (mk_is_Some _ _ eq_refl))) as (acc & Hacc & Hv1). pose proof (qu_ok _ _ _ Hq) as Hs1.
  pose proof (sm_view _ _ _ (qu_same _ _ _ Hq) a) as Hv. rewrite Hv0, Hv1 in Hv. inversion Hv as [? ? Hve|]; subst.
  cbn [from_option]. rewrite (ve_code _ _ Hve). pose proof (ok_cache _ _ Hs1 a acc Hacc) as Hok. cbn [v_code view_of].
  pose proof (dirty_same _ _ _ (qu_same _ _ _ Hq) Hdirty) as Hd1. unfold dirty in Hd1. rewrite Hacc in Hd1.
  unfold posts. rewrite (update_at_cached s1 a acc) by done.
  assert (op_posts a (view_setCode c) s1 tt (logged a (Account.setCode c acc) (Code a (code_of (m_db s1) acc)) s1)) as [Hm Hd].
  { eapply (change_cached a acc _ (Code a (code_of (m_db s1) acc)) (Account.setCode c)); try (by eapply logged_updates); try done; auto using setCode_ok.
    - pose proof (ao_code _ _ Hok) as Hh. constructor; try done; cbn [v_code v_codeHash view_of]. rewrite code_of_setCode, Hh.
      unfold code_of. by destruct (m_codeHash acc =? EmptySHA3).
    - constructor. constructor; try done. cbn [v_code view_of view_setCode]. by rewrite code_of_setCode. }
  split; [|done]. eapply moves_quiet; [apply respects_setCode|done|done].
Qed.

(** [clearStorage] on a dirty account whose uncommitted storage is all read from
    the trie: the overlay is not in the log. *)
Lemma clearStorage_posts a acc s : state_ok s -> m_cache s !! a = Some acc ->
  (m_storageRoot acc = EmptyTrie \/ forall k, storage_of (m_db s) acc k = stored (m_db s) (m_storageRoot acc) k) ->
  posts (clearStorage a) (fun _ s' => moves s s' a view_clearStorage) (fun _ _ => False) s.
Proof.
  intros Hs Hc Hst. pose proof (ok_cache _ _ Hs a acc Hc) as Hok. unfold clearStorage.
  eapply (posts_bind _ _ _ (fun _ s' => s' = set_cache (<[a := acc]> (m_cache s)) s)).
  { unfold update_at, posts, smod, cache_at. by rewrite Hc. }
  intros u s1 ->. assert (quiet s (set_cache (<[a := acc]> (m_cache s)) s)) as Hq by (by apply (quiet_update m s a acc)).
  eapply (posts_bind _ _ _ (fun x s' => x = s' /\ s' = _)); [by apply posts_get|]. intros s1 ? [-> ->]. cbv zeta.
  set (s1 := set_cache _ _) in *. assert (m_cache s1 !! a = Some acc) as Hc1 by apply lookup_insert_eq.
  assert (cache_at a s1 = acc) as -> by (unfold cache_at; by rewrite Hc1). pose proof (qu_ok _ _ _ Hq) as Hs1.
  assert (moves s1 s1 a view_clearStorage \/ m_storageRoot acc <> EmptyTrie) as Hcase.
  { destruct (Z.eq_dec (m_storageRoot acc) EmptyTrie) as [He|He]; [left|by right]. split; [by apply ahead_refl|].
    intros b. destruct (decide (a = b)) as [<-|]; [|apply option_view_refl]. rewrite (the_view_cached m s1 a acc Hc1).
    cbn. rewrite He, Z.eqb_refl. apply option_view_refl. }
  destruct (Z.eqb_spec (m_storageRoot acc) EmptyTrie) as [He|He].
  { destruct Hcase; [|done]. by eapply moves_quiet; [apply respects_clearStorage| |]. }
  destruct Hst as [|Hst]; [done|]. unfold posts. rewrite (update_at_cached s1 a acc) by done.
  assert (op_posts a view_clearStorage s1 tt (logged a (Account.clearStorage acc) (StorageRoot a (m_storageRoot acc)) s1)) as [Hm _].
  { eapply (change_cached a acc _ (StorageRoot a (m_storageRoot acc)) Account.clearStorage); try (by eapply logged_updates); try done.
    - destruct Hok. constructor; [by left|done..].
    - destruct Hok. constructor; [done..].
    - cbn. destruct (Z.eqb_spec (m_storageRoot acc) EmptyTrie); [done|]. constructor. constructor; try done.
      intros k. cbn. unfold storage_of. cbn. rewrite lookup_empty. unfold stored. by rewrite Z.eqb_refl. }
  eapply moves_quiet; [apply respects_clearStorage|done|done].
Qed.

(** ** Balances *)

Definition view_subBalance (x : Z) (o : option View) : option View := view_addBalance 0 (u256 (0 - x)) o.

Lemma op_posts_ext a f g s u s' : (forall o, option_Forall2 view_eq (the_view s a) o -> option_Forall2 view_eq (g o) (f o)) ->
  op_posts a f s u s' -> op_posts a g s u s'.
Proof.
  intros Hfg [[Ha He] Hd]. split; [split; [done|]|done]. intros b. specialize (He b). destruct (decide (a = b)) as [<-|]; [|done].
  eapply option_view_trans; [|exact He]. apply Hfg, option_view_refl.
Qed.

(** [subBalance] of more than zero. *)
Lemma subBalance_posts a x s : 0 < x < 2 ^ 256 -> state_ok s ->
  posts (subBalance a x) (fun u s' => x <= from_option v_balance 0 (the_view s a) /\ op_posts a (view_subBalance x) s u s')
    (fun e s' => e = NotEnoughCash /\ from_option v_balance 0 (the_view s a) < x /\ quiet s s') s.
Proof.
  intros Hx Hs. unfold subBalance. destruct (Z.eqb_spec x 0) as [|_]; [lia|].
  eapply posts_bind; [eapply posts_mono; [by apply (account_posts m)|intros r s1 Hl; exact Hl|done]|]. intros r s1 Hl.
  pose proof (loaded_answer _ _ _ _ _ Hl) as Hv. pose proof (loaded_ok _ _ _ _ Hl) as Hs1.
  destruct r as [acc|]; inversion Hv as [v v' Hve Hx1 Hy|Hx1 Hy]; subst; cbn [from_option].
  - rewrite (ve_balance _ _ Hve). cbn [v_balance view_of]. destruct (Z.ltb_spec (m_balance acc) x) as [Hlt|Hle].
    + apply posts_throw. split_and!; [done|done|apply Hl].
    + eapply posts_mono; [apply addBalance_posts; [apply u256_range|done]| |done]. intros u s2 Hop. split; [done|].
      assert (op_posts a (view_subBalance x) s1 u s2) as [Hm Hd].
      { eapply op_posts_ext; [|exact Hop]. intros o Ho. rewrite (the_view_cached m s1 a acc (ld_cache _ _ _ _ _ Hl)) in Ho.
        inversion Ho. apply option_view_refl. }
      split; [|done]. eapply moves_quiet; [apply respects_addBalance|apply Hl|done].
  - apply posts_throw. split_and!; [done|lia|apply Hl].
Qed.

Definition view_setBalance (start x : Z) (o : option View) : option View :=
  view_addBalance start (u256 (x - from_option v_balance 0 o)) o.

Lemma setBalance_posts a x s : is_u256 x -> state_ok s ->
  posts (setBalance a x) (op_posts a (view_setBalance (m_accountStartNonce s) x) s) (fun _ _ => False) s.
Proof.
  intros Hx Hs. unfold setBalance. apply after_account.
  - intros u v Huv. unfold view_setBalance. assert (from_option v_balance 0 u = from_option v_balance 0 v) as -> by (by destruct Huv as [? ? []|]).
    by apply respects_addBalance.
  - done.
  - intros r s1 Hl. cbv zeta. rewrite <- (sm_nonce _ _ _ (qu_same _ _ _ (ld_quiet _ _ _ _ _ Hl))).
    eapply posts_mono; [apply addBalance_posts; [apply u256_range|by eapply loaded_ok]| |done]. intros u s2. apply op_posts_ext.
    intros o Ho. unfold view_setBalance. pose proof (loaded_view _ _ _ _ _ Hl) as Hv. unfold StateSpec.the_view in Ho. rewrite Hv in Ho.
    destruct r as [acc|]; inversion Ho as [? ? Hve|]; subst; cbn [from_option]; [|apply option_view_refl].
    rewrite <- (ve_balance _ _ Hve). apply option_view_refl.
Qed.

(** ** Several accounts *)

Notation Accounts := (Z -> option View).
Definition upd_view (a : Z) (f : option View -> option View) (accts : Accounts) : Accounts :=
  fun b => if decide (a = b) then f (accts b) else accts b.
(** The state has these accounts. *)
Definition represents (s : st) (accts : Accounts) : Prop := forall b, option_Forall2 view_eq (accts b) (the_view s b).

Lemma represents_upd s s' accts a f : respects f -> represents s accts -> effect s s' a f -> represents s' (upd_view a f accts).
Proof.
  intros Hf Hr He b. eapply option_view_trans; [|apply He]. unfold upd_view. specialize (Hr b). destruct (decide (a = b)); [by apply Hf|done].
Qed.

Lemma represents_quiet s s' accts : quiet s s' -> represents s accts -> represents s' accts.
Proof. intros Hq Hr b. eapply option_view_trans; [apply Hr|]. apply (sm_view _ _ _ (qu_same _ _ _ Hq)). Qed.

Definition transfer (start from to x : Z) (accts : Accounts) : Accounts :=
  upd_view to (view_addBalance start x) (if x =? 0 then accts else upd_view from (view_subBalance x) accts).

Lemma the_view_balance s a : state_ok s -> is_u256 (from_option v_balance 0 (the_view s a)).
Proof.
  intros Hs. unfold StateSpec.the_view. destruct (the_account s a) as [acc|] eqn:Ha; [|done]. cbn.
  apply (ao_balance _ _ (the_account_ok m s a acc Hs Ha)).
Qed.

(** Not enough cash changes nothing; nothing is transferred from an account that
    may not exist, and even that makes the receiver exist. *)
Lemma transferBalance_posts from to x s accts : is_u256 x -> state_ok s -> represents s accts ->
  posts (transferBalance from to x)
    (fun _ s' => x <= from_option v_balance 0 (the_view s from) /\ ahead s s' /\
      represents s' (transfer (m_accountStartNonce s) from to x accts) /\ dirty s' to /\ (x <> 0 -> dirty s' from))
    (fun e s' => e = NotEnoughCash /\ from_option v_balance 0 (the_view s from) < x /\ quiet s s') s.
Proof.
  intros Hx Hs Hr. unfold transferBalance, transfer. destruct (Z.eqb_spec x 0) as [->|Hne].
  - eapply posts_bind; [by apply (posts_ret tt (fun _ s' => s' = s))|]. intros u ? ->.
    eapply posts_mono; [by apply addBalance_posts| |done]. intros u' s2 [[Ha He] Hd].
    split_and!; [apply the_view_balance, Hs|done| |done|done]. by eapply represents_upd; [apply respects_addBalance| |].
  - eapply posts_bind; [eapply posts_mono; [apply subBalance_posts; [lia|done]|intros u s1 Hop; exact Hop|done]|].
    intros u s1 (Hle & [Ha He] & Hd). eapply posts_mono; [apply addBalance_posts; [done|apply Ha]| |done].
    rewrite (ah_nonce _ _ _ Ha). intros u' s2 [[Ha2 He2] Hd2]. split_and!; [done|by eapply ahead_trans| |done|].
    + eapply represents_upd; [apply respects_addBalance| |exact He2]. by eapply represents_upd; [apply respects_addBalance| |].
    + intros _. by apply Ha2.
Qed.

(** [kill] is not in the log. *)
Definition view_kill (o : option View) : option View :=
  match o with Some _ => Some (mkView false 0 0 EmptySHA3 EmptyTrie [] (fun _ => 0)) | None => None end.

Lemma kill_posts a s : state_ok s ->
  posts (kill a) (fun _ s' => state_ok s' /\ effect s s' a view_kill /\ m_changeLog s' = m_changeLog s /\
    m_accountStartNonce s' = m_accountStartNonce s) (fun _ _ => False) s.
Proof.
  intros Hs. unfold kill. eapply posts_bind; [by apply (account_posts m)|]. intros r s1 Hl. pose proof (loaded_ok _ _ _ _ Hl) as Hs1.
  pose proof (ld_quiet _ _ _ _ _ Hl) as Hq. pose proof (ld_cache _ _ _ _ _ Hl) as Hc.
  assert (respects view_kill) as Hf by (intros u v []; constructor; reflexivity).
  enough (posts (match r with Some _ => update_account a Account.kill | None => sret tt end)
    (fun _ s' => state_ok s' /\ effect s1 s' a view_kill /\ m_changeLog s' = m_changeLog s1 /\
      m_accountStartNonce s' = m_accountStartNonce s1) (fun _ _ => False) s1) as Hp.
  { eapply posts_mono; [exact Hp| |done]. intros u s2 (Hs2 & He & Hlog & Hn). split_and!; [done|by eapply effect_quiet|rewrite Hlog; apply Hq|].
    rewrite Hn. apply (sm_nonce _ _ _ (qu_same _ _ _ Hq)). }
  destruct r as [acc|].
  - unfold posts, update_account, smod. rewrite (alter_insert_eq_gen s1 a acc) by done.
    assert (updates a (Account.kill acc) s1 (set_cache (<[a := Account.kill acc]> (m_cache s1)) s1)) as Hu by (by apply (updates_cached a acc)).
    split_and!; [apply (updates_ok a (Account.kill acc) s1 _ Hu Hs1); [|done]|apply (updates_effect a (Account.kill acc)); [done|]|done|done].
    + by apply account_ok_plain.
    + rewrite (the_view_cached m s1 a acc Hc). constructor. constructor; try done; cbn; [unfold code_of; cbn; by rewrite Z.eqb_refl|].
      intros k. unfold storage_of. cbn. rewrite lookup_empty. unfold stored. by rewrite Z.eqb_refl.
  - apply posts_ret. split_and!; [done| |done|done]. intros b. destruct (decide (a = b)) as [<-|]; [|apply option_view_refl].
    unfold StateSpec.the_view. rewrite (loaded_view _ _ _ _ _ Hl). constructor.
Qed.

End Ops.
