(* ===== verification/World.v ===== *)
(** * Worlds

    What the execution of code needs of a state and what it may do to one.  A
    state is a [world_ok] when its accounts can be run; code moves it on
    ([moved]): the changes can be undone, accounts do not vanish, code and
    storage roots are not replaced, and value is never created.  A static
    execution leaves the world [still]: all it may do is make an empty account
    exist. *)
From stdpp Require Import base list gmap fin_sets.
From Stdlib Require Import ZArith Lia.
From S2P Require Import Prelude Words Result Rlp StateMonad Account State StateSpec StateReads StateJournal StateOps.
Open Scope sm_scope.

Section World.
  Context {DB G : Type} `{Sha3} `{!StateDB DB} `{!StateDBLaws DB} `{!RandomEngine G} `{!UnorderedMaps}.
  Notation st := (State DB G).

(** ** Balances *)

(** The sum of what some accounts have. *)
Definition bal (o : option View) : Z := from_option v_balance 0 o.
Definition total (accts : Z -> option View) (l : list Z) : Z := foldr (fun a r => bal (accts a) + r) 0 l.

Lemma total_cons σ a l : total σ (a :: l) = bal (σ a) + total σ l.
Proof. done. Qed.

Lemma total_ext f g l : (forall a, a ∈ l -> bal (f a) = bal (g a)) -> total f l = total g l.
Proof.
  induction l as [|x l IH]; intros Hfg; [done|]. rewrite !total_cons, (Hfg x), IH; [done| |set_solver]. intros a Ha. apply Hfg. set_solver.
Qed.

Lemma total_upd a f σ l : NoDup l -> a ∈ l -> total (upd_view a f σ) l = total σ l - bal (σ a) + bal (f (σ a)).
Proof.
  induction 1 as [|x l Hx Hnd IH]; [set_solver|]. intros Ha. rewrite !total_cons. unfold upd_view at 1. destruct (decide (a = x)) as [<-|Hne].
  - rewrite (total_ext (upd_view a f σ) σ); [lia|]. intros b Hb. unfold upd_view.
    destruct (decide (a = b)); [congruence|done].
  - rewrite IH; [lia|set_solver].
Qed.

Lemma total_member a σ l : (forall b, 0 <= bal (σ b)) -> a ∈ l -> bal (σ a) <= total σ l.
Proof.
  intros Hp. induction l as [|x l IH]; [set_solver|]. assert (0 <= total σ l) by (clear IH; induction l as [|y l IH]; [done|]; rewrite total_cons; specialize (Hp y); lia).
  intros [Ha|Ha]%elem_of_cons; [subst|]; rewrite total_cons; [lia|]. specialize (Hp x). specialize (IH Ha). lia.
Qed.

Lemma bal_eq u v : option_Forall2 view_eq u v -> bal u = bal v.
Proof. by intros [? ? []|]. Qed.

Lemma bal_add start x o : is_u256 x -> 0 <= bal o -> bal o + x < 2 ^ 256 -> bal (view_addBalance start x o) = bal o + x.
Proof. intros Hx Ho Hlt. destruct o as [v|]; [|done]. apply u256_small. unfold bal in *. cbn in *. lia. Qed.

Lemma bal_sub x o : 0 < x <= bal o -> bal o < 2 ^ 256 -> bal (view_subBalance x o) = bal o - x.
Proof.
  destruct o as [v|]; unfold bal; cbn; [|lia]. intros Hx Hlt. unfold u256. rewrite Zplus_mod_idemp_r. rewrite Z.mod_small; lia.
Qed.

(** What a transfer does to the balances. *)
Lemma transfer_total start from to x σ l : is_u256 x -> (forall b, is_u256 (bal (σ b))) -> x <= bal (σ from) ->
  NoDup l -> from ∈ l -> to ∈ l -> total σ l < 2 ^ 256 ->
  total (transfer start from to x σ) l = total σ l /\
  (from <> to -> bal (transfer start from to x σ from) = bal (σ from) - x /\ bal (transfer start from to x σ to) = bal (σ to) + x).
Proof.
  intros Hx Hb Hle Hnd Hf Ht Hlt. unfold transfer. destruct (Z.eqb_spec x 0) as [->|Hne].
  - pose proof (Hb to) as Hbt. assert (bal (view_addBalance start 0 (σ to)) = bal (σ to)) as H0'
      by (rewrite bal_add; [lia|done|apply Hbt|lia]).
    split; [rewrite total_upd by done; lia|]. intros Hft. unfold upd_view. destruct (decide (to = from)), (decide (to = to)); try done. lia.
  - set (σ1 := upd_view from (view_subBalance x) σ). pose proof (bal_sub x (σ from) ltac:(lia) ltac:(apply Hb)) as Hsub.
    assert (total σ1 l = total σ l - x) as Hs by (unfold σ1; rewrite total_upd by done; lia).
    assert (forall b, 0 <= bal (σ1 b)) as Hp.
    { intros b. unfold σ1, upd_view. destruct (decide (from = b)) as [<-|]; [lia|apply Hb]. }
    pose proof (total_member to σ1 l Hp Ht). assert (bal (view_addBalance start x (σ1 to)) = bal (σ1 to) + x) as Hadd
      by (apply bal_add; [done|apply Hp|lia]).
    split; [rewrite total_upd by done; lia|]. intros Hft. unfold upd_view at 1 2.
    destruct (decide (to = from)), (decide (to = to)); try done. rewrite Hadd. unfold σ1, upd_view.
    destruct (decide (from = from)), (decide (from = to)); done.
Qed.


(** ** The world *)

Section Worlds.
  Context (m : trie_map).
  Notation the_view := (the_view (DB := DB) (G := G) m).
  Notation same := (same (DB := DB) (G := G) m).
  Notation state_ok := (state_ok (DB := DB) (G := G) m).
  Notation quiet := (quiet (DB := DB) (G := G) m).
  Notation ahead := (ahead (DB := DB) (G := G) m).

Definition root_of (o : option View) : Z := from_option v_root EmptyTrie o.
Definition hash_of (o : option View) : Z := from_option v_codeHash EmptySHA3 o.
Definition has_code (s : st) (a : Z) : Prop := hash_of (the_view s a) <> EmptySHA3.
Definition no_storage (s : st) (a : Z) : Prop := root_of (the_view s a) = EmptyTrie.

(** An account that code may run for. *)
Definition plain (s : st) (a : Z) : Prop := no_storage s a \/ has_code s a.

(** An account with stored storage was used before: a new contract cannot come
    to lie on it. *)
Record view_ok (v : View) : Prop := {
  vo_nonce : is_u256 (v_nonce v);
  vo_code : Forall (fun b => is_byte b) (v_code v) /\ lenZ (v_code v) < 2 ^ 62;
  vo_used : v_root v <> EmptyTrie -> v_codeHash v <> EmptySHA3 \/ v_nonce v <> 0
}.

Record world_ok (s : st) : Prop := {
  wo_state : state_ok s;
  wo_start : 0 <= m_accountStartNonce s < 2 ^ 256 - 1;
  wo_view : forall a v, the_view s a = Some v -> view_ok v
}.

(** Whatever accounts one sums up after, some accounts had as much before, up to
    [k]. *)
Definition supply_by (k : Z) (s s' : st) : Prop :=
  forall l, NoDup l -> exists l', NoDup l' /\ l ⊆ l' /\ total (the_view s') l <= total (the_view s) l' + k.
Notation supply_le := (supply_by 0).

Record carried (s s' : st) : Prop := {
  cd_ahead : ahead s s';
  cd_storage : forall a, no_storage s a -> no_storage s' a;
  cd_code : forall a, has_code s a -> has_code s' a
}.
Definition moved (s s' : st) : Prop := carried s s' /\ supply_le s s'.

(** Only empty accounts come to exist. *)
Record still (s s' : st) : Prop := {
  sl_nonce : m_accountStartNonce s' = m_accountStartNonce s;
  sl_view : forall b, option_Forall2 view_eq (the_view s b) (the_view s' b) \/
    the_view s b = None /\ option_Forall2 view_eq (Some (new_view (m_accountStartNonce s) 0)) (the_view s' b)
}.

(** ** Views that are equal *)

Lemma root_of_eq u v : option_Forall2 view_eq u v -> root_of u = root_of v.
Proof. by intros [? ? []|]. Qed.
Lemma hash_of_eq u v : option_Forall2 view_eq u v -> hash_of u = hash_of v.
Proof. by intros [? ? []|]. Qed.

Lemma view_ok_eq u v : view_eq u v -> view_ok u -> view_ok v.
Proof. intros Hv []. destruct Hv. constructor; [by rewrite <- ve_nonce|by rewrite <- ve_code|by rewrite <- ve_root, <- ve_codeHash, <- ve_nonce]. Qed.

Lemma same_no_storage s s' a : same s s' -> no_storage s a <-> no_storage s' a.
Proof. intros Hs. unfold no_storage. by rewrite (root_of_eq _ _ (sm_view _ _ _ Hs a)). Qed.
Lemma same_has_code s s' a : same s s' -> has_code s a <-> has_code s' a.
Proof. intros Hs. unfold has_code. by rewrite (hash_of_eq _ _ (sm_view _ _ _ Hs a)). Qed.

Lemma world_ok_same s s' : state_ok s' -> same s s' -> world_ok s -> world_ok s'.
Proof.
  intros Hok Hs [Hw Hn Hv]. constructor; [done|by rewrite (sm_nonce _ _ _ Hs)|]. intros a v Ha.
  pose proof (sm_view _ _ _ Hs a) as Hva. rewrite Ha in Hva. inversion Hva as [u ? Huv Hu|]; subst. by eapply view_ok_eq, Hv.
Qed.
Lemma world_ok_quiet s s' : quiet s s' -> world_ok s -> world_ok s'.
Proof. intros Hq. apply world_ok_same; apply Hq. Qed.

(** ** Supply *)

Lemma bal_nonneg s a : state_ok s -> 0 <= bal (the_view s a).
Proof. intros Hs. apply (the_view_balance m s a Hs). Qed.

Lemma total_mono f g l : (forall a, a ∈ l -> bal (f a) <= bal (g a)) -> total f l <= total g l.
Proof.
  induction l as [|x l IH]; intros Hfg; [done|]. rewrite !total_cons. pose proof (Hfg x ltac:(set_solver)).
  assert (total f l <= total g l); [|lia]. apply IH. intros a Ha. apply Hfg. set_solver.
Qed.

Lemma total_subset f l l' : (forall a, 0 <= bal (f a)) -> NoDup l -> l ⊆ l' -> total f l <= total f l'.
Proof.
  intros Hp Hnd. revert l'. induction Hnd as [|x l Hx Hnd IH]; intros l' Hsub.
  - clear Hsub. induction l' as [|y l' IH]; [done|]. rewrite total_cons. specialize (Hp y). change (total f []) with 0 in *. lia.
  - assert (x ∈ l') as Hin by set_solver. apply list_elem_of_split in Hin as (l1 & l2 & ->).
    assert (forall l1 l2, total f (l1 ++ l2) = total f l1 + total f l2) as Happ.
    { intros a b. induction a as [|y a IHa]; [done|]. cbn [app]. rewrite !total_cons, IHa. lia. }
    rewrite Happ, !total_cons. assert (total f l <= total f (l1 ++ l2)) as Hle; [|rewrite Happ in Hle; lia].
    apply IH. intros y Hy. assert (y <> x) by (intros ->; done). assert (y ∈ l1 ++ x :: l2) as Hy' by set_solver.
    rewrite elem_of_app, elem_of_cons in Hy'. rewrite elem_of_app. naive_solver.
Qed.

Lemma supply_sum j k s t u : supply_by j s t -> supply_by k t u -> supply_by (j + k) s u.
Proof.
  intros H1 H2 l Hl. destruct (H2 l Hl) as (l1 & Hn1 & Hs1 & Ht1). destruct (H1 l1 Hn1) as (l2 & Hn2 & Hs2 & Ht2).
  exists l2. split_and!; [done|set_solver|lia].
Qed.
Lemma supply_trans s t u : supply_le s t -> supply_le t u -> supply_le s u.
Proof. apply (supply_sum 0 0). Qed.

(** One account gains [k]. *)
Lemma supply_one k a s s' : state_ok s' -> (forall c, c <> a -> bal (the_view s' c) <= bal (the_view s c)) ->
  bal (the_view s' a) <= bal (the_view s a) + k -> supply_by k s s'.
Proof.
  intros Hok Hc Ha l Hl. set (r := filter (fun c => c <> a) l). exists (a :: r).
  assert (NoDup (a :: r)) as Hnd by (constructor; [unfold r; rewrite list_elem_of_filter; naive_solver|by apply NoDup_filter]).
  assert (l ⊆ a :: r) as Hsub.
  { intros c Hcl. rewrite elem_of_cons. unfold r. rewrite list_elem_of_filter. destruct (decide (c = a)); naive_solver. }
  split_and!; [done|done|]. etransitivity; [apply (total_subset _ l (a :: r)); [|done|done]; intros c; by apply bal_nonneg|].
  rewrite !total_cons. assert (total (the_view s') r <= total (the_view s) r); [|lia]. apply total_mono. intros c Hcr.
  unfold r in Hcr. apply list_elem_of_filter in Hcr as [? _]. by apply Hc.
Qed.

(** No account has more. *)
Lemma supply_less s s' : (forall a, bal (the_view s' a) <= bal (the_view s a)) -> supply_le s s'.
Proof. intros Hb l Hl. exists l. split_and!; [done|done|]. rewrite Z.add_0_r. apply total_mono. auto. Qed.
Lemma supply_same s s' : same s s' -> supply_le s s'.
Proof. intros Hs. apply supply_less. intros a. by rewrite (bal_eq _ _ (sm_view _ _ _ Hs a)). Qed.

(** Two accounts exchange value. *)
Lemma supply_pair s s' a b : state_ok s' -> a <> b ->
  (forall c, c <> a -> c <> b -> bal (the_view s' c) <= bal (the_view s c)) ->
  bal (the_view s' a) + bal (the_view s' b) <= bal (the_view s a) + bal (the_view s b) -> supply_le s s'.
Proof.
  intros Hok Hab Hc Hle l Hl. set (r := filter (fun c => c <> a /\ c <> b) l). exists (a :: b :: r).
  assert (NoDup (a :: b :: r)) as Hnd.
  { constructor; [unfold r; rewrite elem_of_cons, list_elem_of_filter; naive_solver|]. constructor; [unfold r; rewrite list_elem_of_filter; naive_solver|].
    by apply NoDup_filter. }
  assert (l ⊆ a :: b :: r) as Hsub.
  { intros c Hcl. rewrite !elem_of_cons. unfold r. rewrite list_elem_of_filter. destruct (decide (c = a)), (decide (c = b)); naive_solver. }
  split_and!; [done|done|]. etransitivity; [apply (total_subset _ l (a :: b :: r)); [|done|done]; intros c; by apply bal_nonneg|].
  rewrite !total_cons, Z.add_0_r. assert (total (the_view s') r <= total (the_view s) r); [|lia]. apply total_mono. intros c Hcr.
  unfold r in Hcr. apply list_elem_of_filter in Hcr as [[? ?] _]. by apply Hc.
Qed.

(** ** Moving on *)

Lemma carried_trans s t u : carried s t -> carried t u -> carried s u.
Proof. intros [] []. constructor; eauto using ahead_trans. Qed.
Lemma moved_trans s t u : moved s t -> moved t u -> moved s u.
Proof. intros [] []. split; eauto using carried_trans, supply_trans. Qed.

Lemma moved_same s s' : state_ok s' -> same s s' -> m_changeLog s' = m_changeLog s -> moved s s'.
Proof.
  intros Hok Hs Hl. split; [|by apply supply_same]. constructor; [by apply ahead_same|..]; intros a.
  - apply (same_no_storage s s' a Hs).
  - apply (same_has_code s s' a Hs).
Qed.
Lemma moved_quiet s s' : quiet s s' -> moved s s'.
Proof. intros []. by apply moved_same. Qed.
Lemma moved_refl s : state_ok s -> moved s s.
Proof. intros. by apply moved_quiet, quiet_refl. Qed.

Lemma carried_plain s s' a : carried s s' -> plain s a -> plain s' a.
Proof. intros Hm [Hp|Hp]; [left|right]; by apply Hm. Qed.
Lemma carried_exists s s' a : carried s s' -> is_Some (the_view s a) -> is_Some (the_view s' a).
Proof. intros Hm. apply Hm. Qed.
Lemma carried_dirty s s' a : carried s s' -> dirty s a -> dirty s' a.
Proof. intros Hm. apply Hm. Qed.

(** A change of one account that keeps its storage and its code. *)
Lemma carried_effect s s' a f : ahead s s' -> effect m s s' a f ->
  (root_of (the_view s a) = EmptyTrie -> root_of (f (the_view s a)) = EmptyTrie) ->
  (has_code s a -> hash_of (f (the_view s a)) <> EmptySHA3) -> carried s s'.
Proof.
  intros Ha He Hr Hc. constructor; [done|..]; intros b; specialize (He b); unfold no_storage, has_code in *.
  - rewrite <- (root_of_eq _ _ He). destruct (decide (a = b)) as [<-|]; auto.
  - rewrite <- (hash_of_eq _ _ He). destruct (decide (a = b)) as [<-|]; auto.
Qed.

Lemma world_effect s s' a f : world_ok s -> ahead s s' -> effect m s s' a f ->
  (forall v, f (the_view s a) = Some v -> view_ok v) -> world_ok s'.
Proof.
  intros Hw Ha He Hf. constructor; [apply Ha|rewrite (ah_nonce _ _ _ Ha); apply Hw|]. intros b v Hb. specialize (He b). rewrite Hb in He.
  inversion He as [u ? Huv Hu|]; subst. eapply view_ok_eq; [exact Huv|]. destruct (decide (a = b)) as [<-|]; [by apply Hf|by eapply wo_view].
Qed.

Lemma effect_bal s s' a f b : effect m s s' a f -> bal (the_view s' b) = if decide (a = b) then bal (f (the_view s b)) else bal (the_view s b).
Proof. intros He. rewrite <- (bal_eq _ _ (He b)). by destruct (decide (a = b)). Qed.

(** ** Standing still *)

Lemma still_same s s' : same s s' -> still s s'.
Proof. intros Hs. constructor; [apply Hs|]. intros b. left. apply Hs. Qed.
Lemma still_refl s : still s s.
Proof. apply still_same, same_refl. Qed.
Lemma still_trans s t u : still s t -> still t u -> still s u.
Proof.
  intros [Hn1 Hv1] [Hn2 Hv2]. constructor; [congruence|]. intros b. destruct (Hv1 b) as [Hb|[Hb Hb']], (Hv2 b) as [Hc|[Hc Hc']].
  - left. by eapply option_view_trans.
  - right. rewrite Hc in Hb. inversion Hb. by rewrite <- Hn1.
  - right. split; [done|]. by eapply option_view_trans.
  - rewrite Hc in Hb'. inversion Hb'.
Qed.

(** ** The operations of the state *)

(** The operation returns in a world that the code may have moved on to. *)
Definition steps {A} (p : SM st state_error A) (P : A -> st -> Prop) (s : st) : Prop :=
  posts p (fun r s' => world_ok s' /\ moved s s' /\ P r s') (fun _ _ => False) s.
(** The same without counting value. *)
Definition carries {A} (p : SM st state_error A) (P : A -> st -> Prop) (s : st) : Prop :=
  posts p (fun r s' => world_ok s' /\ carried s s' /\ P r s') (fun _ _ => False) s.

(** Queries. *)
Lemma steps_query {A} (p : SM st state_error A) (P : A -> st -> Prop) s : world_ok s ->
  posts p (fun r s' => P r s' /\ quiet s s') (fun _ _ => False) s -> steps p (fun r s' => P r s' /\ quiet s s') s.
Proof.
  intros Hw Hp. eapply posts_mono; [exact Hp| |done]. intros r s' [Hr Hq].
  split_and!; [by eapply world_ok_quiet|by apply moved_quiet|done|done].
Qed.

Lemma view_ok_new start x : 0 <= start < 2 ^ 256 - 1 -> view_ok (new_view start x).
Proof. intros Hs. constructor; cbn; [lia|split; [by apply List.Forall_nil|by vm_compute]|done]. Qed.

Lemma supply_effect k s s' a f : state_ok s -> ahead s s' -> effect m s s' a f ->
  bal (f (the_view s a)) <= bal (the_view s a) + k -> supply_by k s s'.
Proof.
  intros Hs Ha He Hf. apply (supply_one k a); [apply Ha|..].
  - intros c Hc. rewrite (effect_bal _ _ _ _ c He). destruct (decide (a = c)); [congruence|lia].
  - rewrite (effect_bal _ _ _ _ a He). by destruct (decide (a = a)).
Qed.

Lemma bal_add_le start x o : is_u256 x -> 0 <= bal o -> bal (view_addBalance start x o) <= bal o + x.
Proof. intros Hx Ho. destruct o as [v|]; unfold bal in *; cbn in *; [apply Z.mod_le|]; lia. Qed.

Lemma addBalance_carries a x s : is_u256 x -> world_ok s ->
  carries (addBalance a x)
    (fun _ s' => supply_by x s s' /\ effect m s s' a (view_addBalance (m_accountStartNonce s) x) /\ dirty s' a) s.
Proof.
  intros Hx Hw. eapply posts_mono; [apply (addBalance_posts m); [done|apply Hw]| |done]. intros u s' [[Ha He] Hd].
  split_and!; [|apply (carried_effect s s' a _ Ha He)|by apply (supply_effect x s s' a _ (wo_state s Hw) Ha He), bal_add_le, bal_nonneg, Hw|done|done].
  - apply (world_effect s s' a _ Hw Ha He). intros v. destruct (the_view s a) as [w|] eqn:Hv; cbn; intros [= <-].
    + destruct (wo_view s Hw a w Hv). by constructor.
    + apply view_ok_new, Hw.
  - unfold root_of. by destruct (the_view s a).
  - unfold has_code. by destruct (the_view s a).
Qed.

(** Adding nothing only makes the account exist. *)
Lemma add_nothing start o : is_u256 (bal o) ->
  option_Forall2 view_eq o (view_addBalance start 0 o) \/ o = None /\ view_addBalance start 0 o = Some (new_view start 0).
Proof.
  intros Hb. destruct o as [v|]; [left|by right]. constructor. constructor; try done. cbn. rewrite Z.add_0_r. symmetry. by apply u256_small.
Qed.
Lemma still_nothing s s' a : world_ok s -> m_accountStartNonce s' = m_accountStartNonce s ->
  effect m s s' a (view_addBalance (m_accountStartNonce s) 0) -> still s s'.
Proof.
  intros Hw Hn He. constructor; [done|]. intros b. specialize (He b). destruct (decide (a = b)) as [<-|]; [|by left].
  destruct (add_nothing (m_accountStartNonce s) (the_view s a) (the_view_balance m s a (wo_state s Hw))) as [Ho|[Ho Hv]].
  - left. by eapply option_view_trans.
  - right. by rewrite Hv in He.
Qed.

Lemma add_nothing_steps a s : world_ok s ->
  steps (addBalance a 0) (fun _ s' => still s s' /\ dirty s' a) s.
Proof.
  intros Hw. eapply posts_mono; [apply addBalance_carries; [done|done]| |done]. intros u s' (Hw' & Hc & Hs & He & Hd).
  pose proof (still_nothing s s' a Hw (ah_nonce _ _ _ (cd_ahead _ _ Hc)) He) as Hst. by split_and!; [|split|..].
Qed.

Lemma subBalance_carries a x s : 0 < x < 2 ^ 256 -> x <= bal (the_view s a) -> world_ok s ->
  carries (subBalance a x) (fun _ s' => supply_by (- x) s s' /\ effect m s s' a (view_subBalance x) /\ dirty s' a) s.
Proof.
  intros Hx Hle Hw. eapply posts_mono; [apply (subBalance_posts m); [done|apply Hw]| |].
  - intros u s' (_ & [Ha He] & Hd). unfold bal in Hle. unfold view_subBalance in He. destruct (the_view s a) as [w|] eqn:Hv; [|cbn in Hle; lia].
    pose proof (the_view_balance m s a (wo_state s Hw)) as Hb. rewrite Hv in Hb. cbn in Hb, Hle.
    split_and!; [|apply (carried_effect s s' a _ Ha He)|apply (supply_effect _ s s' a _ (wo_state s Hw) Ha He)|done|done].
    + apply (world_effect s s' a _ Hw Ha He). rewrite Hv. intros v [= <-]. destruct (wo_view s Hw a w Hv). by constructor.
    + by rewrite Hv.
    + unfold has_code. by rewrite Hv.
    + rewrite Hv. change (view_addBalance 0 (u256 (0 - x)) (Some w)) with (view_subBalance x (Some w)). rewrite bal_sub; [unfold bal; cbn; lia|unfold bal; cbn; lia|exact (proj2 Hb)].
  - intros e s' (_ & Hlt & _). unfold bal in Hle. lia.
Qed.

(** A transfer to oneself gives everything back. *)
Lemma still_self a x s s1 s2 : 0 < x <= bal (the_view s a) -> is_u256 (bal (the_view s a)) -> ahead s s1 -> ahead s1 s2 ->
  effect m s s1 a (view_subBalance x) -> effect m s1 s2 a (view_addBalance (m_accountStartNonce s1) x) -> still s s2.
Proof.
  intros Hx Hb Ha1 Ha2 He1 He2. constructor; [by rewrite (ah_nonce _ _ _ Ha2), (ah_nonce _ _ _ Ha1)|]. intros b. left.
  specialize (He1 b). specialize (He2 b). destruct (decide (a = b)) as [<-|]; [|by eapply option_view_trans].
  eapply option_view_trans; [|exact He2]. eapply option_view_trans; [|by apply respects_addBalance].
  unfold bal in *. destruct (the_view s a) as [v|]; cbn in *; [|lia]. constructor. constructor; try done. cbn.
  unfold u256. rewrite Zplus_mod_idemp_r, Zplus_mod_idemp_l. rewrite Z.mod_small; lia.
Qed.

(** A transfer of what the sender has. *)
Lemma transfer_steps from to x s : is_u256 x -> x = 0 \/ x <= bal (the_view s from) -> world_ok s ->
  steps (transferBalance from to x)
    (fun _ s' => dirty s' to /\ is_Some (the_view s' to) /\ (x = 0 \/ from = to -> still s s')) s.
Proof.
  intros Hx Hfund Hw. unfold transferBalance. assert (forall s' a, dirty s' a -> is_Some (the_view s' a)) as Hex.
  { intros s' a Hd. destruct (dirty_Some s' a Hd) as (acc & Hc & _). rewrite (the_view_cached m s' a acc Hc). by eexists. }
  destruct (Z.eq_dec x 0) as [->|Hne].
  - eapply posts_bind; [by apply (posts_ret tt (fun _ s' => s' = s))|]. intros u ? ->.
    eapply posts_mono; [by apply add_nothing_steps| |done]. intros u' s' (Hw' & Hm & Hs & Hd). auto 10.
  - destruct Hfund as [|Hfund]; [done|]. eapply posts_bind; [apply subBalance_carries; [lia|done|done]|].
    intros u s1 (Hw1 & Hc1 & Hs1 & He1 & _). eapply posts_mono; [by apply addBalance_carries| |done]. intros u' s2 (Hw2 & Hc2 & Hs2 & He2 & Hd).
    pose proof (the_view_balance m s from (wo_state s Hw)) as Hr. fold (bal (the_view s from)) in Hr.
    split_and!; [done|split; [by eapply carried_trans|]|done|by apply Hex|].
    + replace 0 with (- x + x) by lia. by eapply supply_sum.
    + intros [?| <-]; [done|]. apply (still_self from x s s1 s2); try done; [lia|apply Hc1|apply Hc2].
Qed.

(** An account gives all it has to another one, or to nobody. *)
Definition destroy (a to : Z) : SM st state_error unit :=
  b <- balance a ;; addBalance to b ;; setBalance a 0.

Lemma bal_setBalance start x o : is_u256 x -> is_u256 (bal o) -> bal (view_setBalance start x o) = x.
Proof.
  intros Hx Ho. unfold view_setBalance, bal in *. destruct o as [v|]; cbn in *; unfold u256.
  - rewrite Zplus_mod_idemp_r. replace (v_balance v + (x - v_balance v)) with x by lia. apply Z.mod_small. lia.
  - rewrite Z.sub_0_r. apply Z.mod_small. lia.
Qed.

Lemma destroy_steps a to s : is_Some (the_view s a) -> world_ok s -> steps (destroy a to) (fun _ _ => True) s.
Proof.
  intros Hex Hw. unfold destroy. eapply posts_bind; [apply steps_query; [exact Hw|apply (balance_posts m), Hw]|].
  intros b s1 (Hw1 & Hm1 & -> & Hq). fold (bal (the_view s a)). pose proof (the_view_balance m s a (wo_state s Hw)) as Hb. fold (bal (the_view s a)) in Hb.
  eapply posts_bind; [by apply addBalance_carries|]. intros [] s2 (Hw2 & Hc2 & _ & He2 & _).
  assert (is_Some (the_view s2 a)) as Hex2 by (apply Hc2, Hm1, Hex).
  eapply posts_mono; [apply (setBalance_posts m a 0 s2); [done|apply Hw2]| |done]. intros [] s3 [[Ha3 He3] Hd3].
  assert (carried s2 s3) as Hc3 by (apply (carried_effect s2 s3 a _ Ha3 He3); unfold has_code; by destruct (the_view s2 a)).
  assert (world_ok s3) as Hw3.
  { apply (world_effect s2 s3 a _ Hw2 Ha3 He3). intros v. destruct (the_view s2 a) as [w|] eqn:Hv; [|by destruct Hex2].
    cbn; intros [= <-]. destruct (wo_view s2 Hw2 a w Hv). by constructor. }
  split_and!; [done| |done]. split; [eapply carried_trans; [apply Hm1|by eapply carried_trans]|].
  assert (forall c, bal (the_view s1 c) = bal (the_view s c)) as Hb1 by (intros c; symmetry; apply bal_eq, (sm_view _ _ _ (qu_same _ _ _ Hq))).
  pose proof (the_view_balance m s2 a (wo_state s2 Hw2)) as Hb2. fold (bal (the_view s2 a)) in Hb2.
  pose proof (effect_bal _ _ _ _ a He3) as H3. destruct (decide (a = a)); [|done]. rewrite bal_setBalance in H3 by done.
  assert (forall c, c <> a -> c <> to -> bal (the_view s3 c) <= bal (the_view s c)) as Hother.
  { intros c Hc Hc'. rewrite (effect_bal _ _ _ _ c He3), (effect_bal _ _ _ _ c He2). destruct (decide (a = c)), (decide (to = c)); congruence || (rewrite Hb1; lia). }
  destruct (decide (a = to)) as [<-|Hat].
  - apply supply_less. intros c. destruct (decide (c = a)) as [->|]; [pose proof (bal_nonneg s a (wo_state s Hw)); lia|by apply Hother].
  - apply (supply_pair s s3 a to); [apply Hw3|done|done|]. rewrite H3, (effect_bal _ _ _ _ to He3). destruct (decide (a = to)); [done|].
    rewrite (effect_bal _ _ _ _ to He2). destruct (decide (to = to)); [|done].
    pose proof (bal_add_le (m_accountStartNonce s1) (bal (the_view s a)) (the_view s1 to) Hb (bal_nonneg s1 to (wo_state s1 Hw1))). rewrite Hb1 in *. lia.
Qed.

(** What [kill] leaves: no value. *)
Lemma kill_world a s : world_ok s ->
  posts (kill a) (fun _ s' => world_ok s' /\ supply_le s s' /\ effect m s s' a view_kill) (fun _ _ => False) s.
Proof.
  intros Hw. eapply posts_mono; [apply (kill_posts m), Hw| |done]. intros u s' (Hok & He & _ & Hn). split_and!; [| |done].
  - constructor; [done|rewrite Hn; apply Hw|]. intros b v Hb. specialize (He b). rewrite Hb in He. inversion He as [w ? Hwv Hw'|]; subst.
    eapply view_ok_eq; [exact Hwv|]. destruct (decide (a = b)) as [<-|]; [|by eapply wo_view].
    destruct (the_view s a); cbn in Hw'; [|done]. injection Hw' as ->.
    constructor; cbn; [done|split; [by apply List.Forall_nil|by vm_compute]|done].
  - apply supply_less. intros b. rewrite (effect_bal _ _ _ _ b He). destruct (decide (a = b)); [|lia].
    pose proof (bal_nonneg s b (wo_state s Hw)). unfold view_kill, bal in *. by destruct (the_view s b).
Qed.

Lemma bal_setNonce n o : bal (view_setNonce n o) = bal o.
Proof. by destruct o. Qed.

(** Setting a nonce. *)
Lemma nonce_steps (p : SM st state_error unit) a n s : is_u256 n -> plain s a \/ n <> 0 -> world_ok s ->
  posts p (op_posts m a (view_setNonce n) s) (fun _ _ => False) s ->
  steps p (fun _ s' => effect m s s' a (view_setNonce n) /\ dirty s' a) s.
Proof.
  intros Hn Hp Hw Hposts. eapply posts_mono; [exact Hposts| |done]. intros u s' [[Ha He] Hd].
  split_and!; [|split|done|done].
  - apply (world_effect s s' a _ Hw Ha He). unfold plain, no_storage, has_code in Hp.
    intros v. destruct (the_view s a) as [w|] eqn:Hv; cbn in *; intros [= <-].
    + destruct (wo_view s Hw a w Hv). constructor; [done|done|]. cbn. intuition congruence.
    + constructor; cbn; [done|split; [by apply List.Forall_nil|by vm_compute]|done].
  - apply (carried_effect s s' a _ Ha He); unfold has_code; by destruct (the_view s a).
  - apply supply_less. intros b. rewrite (effect_bal _ _ _ _ b He). destruct (decide (a = b)); [rewrite bal_setNonce|]; lia.
Qed.

Lemma setNonce_steps a n s : is_u256 n -> plain s a \/ n <> 0 -> world_ok s ->
  steps (setNonce a n) (fun _ s' => effect m s s' a (view_setNonce n) /\ dirty s' a) s.
Proof. intros Hn Hp Hw. apply nonce_steps; [done|done|done|]. apply (setNonce_posts m). apply Hw. Qed.

Lemma incNonce_steps a s : plain s a -> world_ok s ->
  steps (incNonce a) (fun _ s' => effect m s s' a (view_incNonce (m_accountStartNonce s))) s.
Proof.
  intros Hp Hw. eapply posts_mono.
  - apply (nonce_steps (incNonce a) a (u256 (from_option v_nonce (m_accountStartNonce s) (the_view s a) + 1)) s (u256_range _) (or_introl Hp) Hw).
    eapply posts_mono; [apply (incNonce_posts m), Hw| |done]. intros u s' [[Ha He] Hd]. split; [split; [done|]|done].
    intros b. specialize (He b). unfold view_incNonce in He. destruct (decide (a = b)) as [<-|]; done.
  - intros u s' (Hw' & Hm & He & Hd). split_and!; [done..|]. intros b. specialize (He b). unfold view_incNonce.
    destruct (decide (a = b)) as [<-|]; done.
  - done.
Qed.

(** Writing storage. *)
Lemma setStorage_steps a k x s : is_Some (the_view s a) -> world_ok s -> steps (setStorage a k x) (fun _ _ => True) s.
Proof.
  intros Hex Hw. eapply posts_mono; [apply (setStorage_posts m); [apply Hw|done]| |done]. intros u s' [[Ha He] Hd].
  split_and!; [|split|done].
  - apply (world_effect s s' a _ Hw Ha He). intros v. destruct (the_view s a) as [w|] eqn:Hv; cbn; intros [= <-].
    destruct (wo_view s Hw a w Hv). by constructor.
  - apply (carried_effect s s' a _ Ha He); unfold has_code; by destruct (the_view s a).
  - apply supply_less. intros b. rewrite (effect_bal _ _ _ _ b He). destruct (decide (a = b)); [|lia]. by destruct (the_view s b).
Qed.

(** The new contract has no stored storage: there is nothing to clear. *)
Lemma clearStorage_steps a s : dirty s a -> no_storage s a -> world_ok s -> steps (clearStorage a) (fun _ s' => same s s') s.
Proof.
  intros Hd Hr Hw. destruct (dirty_Some s a Hd) as (acc & Hc & _). unfold no_storage in Hr. rewrite (the_view_cached m s a acc Hc) in Hr.
  cbn in Hr. unfold clearStorage.
  assert (quiet s (set_cache (<[a := acc]> (m_cache s)) s)) as Hq by
    (apply (quiet_update m s a acc); try done; [apply Hw|by apply (ok_cache _ _ (wo_state s Hw) a)]).
  assert (steps (update_at a (fun a => a) ;; s <- sget ;;
    let oldHash := m_storageRoot (cache_at a s) in
    if oldHash =? EmptyTrie then sret tt else log_change (StorageRoot a oldHash) ;; update_at a Account.clearStorage)
    (fun _ s' => True /\ quiet s s') s) as Hp.
  { apply steps_query; [done|]. assert (cache_at a s = acc) as Hca by (unfold cache_at; by rewrite Hc).
    assert (cache_at a (set_cache (<[a := acc]> (m_cache s)) s) = acc) as Hca1 by (unfold cache_at; cbn; by rewrite lookup_insert_eq).
    unfold posts, sbind, update_at, sget, smod. cbv beta zeta. rewrite Hca, Hca1, Hr, Z.eqb_refl. by split. }
  eapply posts_mono; [exact Hp| |done]. intros u s' (Hw' & Hm & _ & Hq'). split_and!; [done|done|apply Hq'].
Qed.

(** Giving code to a contract that has no stored storage. *)
Lemma setCode_effect a c s : dirty s a -> no_storage s a -> Forall (fun b => is_byte b) c -> lenZ c < 2 ^ 62 -> world_ok s ->
  posts (setCode a c) (fun _ s' => world_ok s' /\ ahead s s' /\ effect m s s' a (view_setCode c) /\ supply_le s s') (fun _ _ => False) s.
Proof.
  intros Hd Hr Hb Hl Hw. eapply posts_mono; [apply (setCode_posts m); [apply Hw|done]| |done]. intros u s' [[Ha He] Hd'].
  split_and!; [|done|done|].
  - apply (world_effect s s' a _ Hw Ha He). unfold no_storage in Hr. intros v. destruct (the_view s a) as [w|] eqn:Hv; cbn in *; intros [= <-].
    destruct (wo_view s Hw a w Hv). constructor; cbn; [done|destruct (_ =? _); [split; [by apply List.Forall_nil|by vm_compute]|done]|done].
  - apply supply_less. intros b. rewrite (effect_bal _ _ _ _ b He). destruct (decide (a = b)); [|lia]. by destruct (the_view s b).
Qed.

(** The same for a contract that had no code when its creation began. *)
Lemma setCode_steps a c s0 s : moved s0 s -> ~ has_code s0 a -> dirty s a -> no_storage s a ->
  Forall (fun b => is_byte b) c -> lenZ c < 2 ^ 62 -> world_ok s ->
  posts (setCode a c) (fun _ s' => world_ok s' /\ moved s0 s') (fun _ _ => False) s.
Proof.
  intros [Hc Hs] Hnc Hd Hr Hb Hl Hw. eapply posts_mono; [by apply setCode_effect| |done]. intros u s' (Hw' & Ha & He & Hs').
  split; [done|]. split; [|by eapply supply_trans]. destruct Hc as [Ha0 Hr0 Hc0]. constructor; [by eapply ahead_trans|..]; intros b Hb0;
    specialize (He b); unfold no_storage, has_code in *.
  - rewrite <- (root_of_eq _ _ He). specialize (Hr0 b Hb0). destruct (decide (a = b)) as [<-|]; [|done]. by destruct (the_view s a).
  - rewrite <- (hash_of_eq _ _ He). specialize (Hc0 b Hb0). destruct (decide (a = b)) as [<-|]; [|done]. done.
Qed.

(** Going back to a savepoint. *)
Lemma rollback_steps s0 s1 s : moved s0 s1 -> ahead s1 s -> world_ok s1 ->
  posts (rollback (savepoint s1)) (fun _ s' => world_ok s' /\ moved s0 s' /\ same s1 s') (fun _ _ => False) s.
Proof.
  intros Hm Ha Hw. eapply posts_mono; [by apply (rollback_posts m)| |done]. intros u s' (Hok & Hs & Hl).
  split_and!; [by eapply world_ok_same|eapply moved_trans; [exact Hm|by apply moved_same]|done].
Qed.
End Worlds.
End World.
