(* ===== verification/StateCommit.v ===== *)
(** * Committing

    [commit] writes the changed accounts to the trie and forgets the caches: the
    accounts of the state stay what they were, except for those that were killed
    or, when asked, left empty, and for the roots of their storage.  Before
    that, how an account is written to the trie and read back. *)
From stdpp Require Import base list gmap fin_sets.
From Stdlib Require Import ZArith Lia.
From S2P Require Import Prelude Words Result Rlp RlpSpec RlpRead RlpTheorems RlpInt StateMonad Account State StateSpec StateReads StateJournal StateOps.

(** ** Accounts in the trie

    What [commit] writes for an account, [account] reads back: the entry is the
    canonical list of its four values, and every value of the C++ types survives. *)

Section Codec.
  Open Scope result_scope.
  Context `{Sha3}.

(** The members of the C++ object hold values of their types. *)
Record typed (a : Account) : Prop := {
  ty_nonce : is_u256 (m_nonce a);
  ty_balance : is_u256 (m_balance a);
  ty_root : is_u256 (m_storageRoot a);
  ty_codeHash : is_u256 (m_codeHash a);
  ty_storage : map_Forall (fun k v => is_u256 k /\ is_u256 v) (m_storageOverlay a)
}.

Definition account_item (a : Account) (root : Z) : item :=
  Lst [Str (int_bytes (m_nonce a)); Str (int_bytes (m_balance a)); Str (h256_bytes root); Str (h256_bytes (m_codeHash a))].

Lemma account_item_ok a root : is_u256 (m_nonce a) -> is_u256 (m_balance a) ->
  item_ok (account_item a root) /\ 0 < lenZ (encode (account_item a root)) < 2 ^ 63.
Proof.
  intros Hn Hb. destruct (int_bytes_facts (m_nonce a) ltac:(lia)) as (Hnb & Hnl & _). destruct (int_bytes_facts (m_balance a) ltac:(lia)) as (Hbb & Hbl & _).
  destruct (h256_bytes_facts root) as [Hrb Hrl]. destruct (h256_bytes_facts (m_codeHash a)) as [Hcb Hcl].
  pose proof (u256_bytes _ Hn). pose proof (u256_bytes _ Hb). split; [apply ok_lst; repeat (apply Forall_cons; split); try (apply ok_str; assumption); apply Forall_nil_2|].
  cbn [encode account_item map concat]. cbv zeta. rewrite app_nil_r.
  pose proof (encode_str_length (int_bytes (m_nonce a)) ltac:(lia)). pose proof (encode_str_length (int_bytes (m_balance a)) ltac:(lia)).
  pose proof (encode_str_length (h256_bytes root) ltac:(lia)). pose proof (encode_str_length (h256_bytes (m_codeHash a)) ltac:(lia)).
  rewrite lenZ_app. match goal with |- context [header 192 (lenZ ?q)] => set (p := q) end. assert (0 < lenZ p < 2 ^ 10) by (unfold p; rewrite !lenZ_app; lia).
  pose proof (header_length 192 (lenZ p) ltac:(lia)). lia.
Qed.

Lemma encode_account_spec a root : is_u256 (m_nonce a) -> is_u256 (m_balance a) ->
  encode_account a root = Value (encode (account_item a root)).
Proof.
  intros Hn Hb. destruct (account_item_ok a root Hn Hb) as [Hok Hl].
  rewrite <- (append_item_empty _ Hok) by lia. unfold rlp_of, account_item. rewrite append_item_Lst. cbn [append_items]. unfold encode_account.
  change (lenZ _) with 4. destruct (appendList 4 empty_stream) as [s| | |]; [|done..]. cbn [rbind].
  rewrite append_int_item by done. destruct (append_item _ s) as [s1| | |]; [|done..]. cbn [rbind].
  rewrite append_int_item by done. destruct (append_item _ s1) as [s2| | |]; [|done..]. cbn [rbind append_item].
  destruct (append_bytes _ _ s2) as [s3| | |]; [|done..]. cbn [rbind]. by destruct (append_bytes _ _ s3).
Qed.

(** ** Reading it back *)

(** The account that the commit made of [a]. *)
Lemma decode_encode_account a root e : typed a -> is_u256 root -> encode_account a root = Value e ->
  decode_account e = Value (Account_full (m_nonce a) (m_balance a) root (m_codeHash a) Unchanged).
Proof.
  intros [Hn Hb _ Hc _] Hr He. rewrite encode_account_spec in He by done.
  assert (e = encode (account_item a root)) as -> by congruence. clear He.
  destruct (account_item_ok a root Hn Hb) as [Hok Hl]. unfold decode_account, account_item in *.
  set (l := [Str (int_bytes (m_nonce a)); Str (int_bytes (m_balance a)); Str (h256_bytes root); Str (h256_bytes (m_codeHash a))]) in *.
  rewrite mkRLP_framed by (exact (encode_framed (Lst l) Hok (proj2 Hl))). cbn [rbind].
  pose proof (cache_ok_fresh (encode (Lst l)) (map encode l)) as Hr0.
  destruct (subscript_item l 0 _ Hok ltac:(lia) ltac:(lia) Hr0) as (r1 & -> & Hr1). cbn [rbind fst snd].
  change (default [] (map encode l !! Z.to_nat 0)) with (encode_str (int_bytes (m_nonce a))). rewrite toInt_u256 by done. cbn [rbind].
  destruct (subscript_item l 1 _ Hok ltac:(lia) ltac:(lia) Hr1) as (r2 & -> & Hr2). cbn [rbind fst snd].
  change (default [] (map encode l !! Z.to_nat 1)) with (encode_str (int_bytes (m_balance a))). rewrite toInt_u256 by done. cbn [rbind].
  destruct (subscript_item l 2 _ Hok ltac:(lia) ltac:(lia) Hr2) as (r3 & -> & Hr3). cbn [rbind fst snd].
  change (default [] (map encode l !! Z.to_nat 2)) with (encode_str (h256_bytes root)).
  destruct (h256_bytes_facts root) as [Hrb Hrl]. rewrite toHash_encode by done. cbn [rbind].
  destruct (subscript_item l 3 _ Hok ltac:(lia) ltac:(lia) Hr3) as (r4 & -> & _). cbn [rbind fst snd].
  change (default [] (map encode l !! Z.to_nat 3)) with (encode_str (h256_bytes (m_codeHash a))).
  destruct (h256_bytes_facts (m_codeHash a)) as [Hcb Hcl]. rewrite toHash_encode by done. cbn [rbind].
  by rewrite !be_val_h256.
Qed.

(** A value of the storage. *)
Lemma storage_value_int v : is_u256 v -> storage_value (encode_str (int_bytes v)) = Value v.
Proof.
  intros Hv. pose proof (u256_bytes v Hv). destruct (int_bytes_facts v ltac:(lia)) as (Hb & Hl & _).
  destruct (encode_str_frame (int_bytes v) Hb ltac:(lia)) as (_ & Hlen & Hf). unfold storage_value.
  pose proof (framed_nonempty _ Hf). destruct (Z.eqb_spec (lenZ (encode_str (int_bytes v))) 0); [lia|].
  rewrite mkRLP_framed by done. cbn [rbind]. by apply toInt_u256.
Qed.

Lemma rlp_of_int v : is_u256 v -> rlp_of (append_int v) = Value (encode_str (int_bytes v)).
Proof.
  intros Hv. pose proof (u256_bytes v Hv). destruct (int_bytes_facts v ltac:(lia)) as (Hb & Hl & _).
  unfold rlp_of. rewrite append_int_item by done. apply (append_item_empty (Str (int_bytes v))); [by constructor|].
  apply (encode_str_frame _ Hb). lia.
Qed.
End Codec.

Open Scope sm_scope.

Section Commit.
  Context {DB G : Type} `{Sha3} `{!StateDB DB} `{!StateDBLaws DB} `{!RandomEngine G} `{!UnorderedMaps}.
  Notation st := (State DB G).

(** ** Clean runs

    The hash inputs of a commit, none of which may collide with what is stored. *)
Fixpoint clean_storage (overlay : list (Z * Z)) (root : Z) (db : DB) : Prop :=
  match overlay with
  | [] => True
  | (k, v) :: overlay =>
      (if negb (v =? 0) then insert_clean root (h256_bytes k) (encode_str (int_bytes v)) db
       else remove_clean root (h256_bytes k) db) /\
      forall db' root', (if negb (v =? 0) then trie_insert root (h256_bytes k) (encode_str (int_bytes v)) db
                         else trie_remove root (h256_bytes k) db) = Value (db', root') ->
        clean_storage overlay root' db'
  end.

(** The database and root after the storage of an account is written. *)
Definition written_storage (a : Account) (db : DB) : result state_error (DB * Z) :=
  if bool_decide (m_storageOverlay a = ∅) then Value (db, m_storageRoot a)
  else (db <- trie_open (m_storageRoot a) db ;; commit_storage (iterate (m_storageOverlay a)) (m_storageRoot a) db)%result.

Definition written_code (a : Account) (db : DB) : DB :=
  if m_hasNewCode a then insert_code (m_codeHash a) (m_codeCache a) db else db.

Definition clean_account (addr : Z) (a : Account) (s : st) : Prop :=
  if negb (m_isAlive a) then remove_clean (m_state s) (addr_bytes addr) (m_db s)
  else
    (forall db, trie_open (m_storageRoot a) (m_db s) = Value db -> clean_storage (iterate (m_storageOverlay a)) (m_storageRoot a) db) /\
    forall db root, written_storage a (m_db s) = Value (db, root) ->
      (m_hasNewCode a = true -> code_clean (m_codeCache a) db) /\
      insert_clean (m_state s) (addr_bytes addr) (encode (account_item a root)) (written_code a db).

Fixpoint clean_accounts (l : list (Z * Account)) (s : st) : Prop :=
  match l with
  | [] => True
  | (addr, a) :: l =>
      if isDirty a then clean_account addr a s /\ clean_accounts l (snd (commit_account addr a s)) else clean_accounts l s
  end.

(** ** Storage *)

Definition readable (sm : trie_map) : Prop := map_Forall (fun _ p => exists v, storage_value p = Value v) sm.

(** What a storage trie has for a key. *)
Definition value_in (sm : trie_map) (k : Z) : Z :=
  match storage_value (default [] (sm !! h256_bytes k)) with Value v => v | _ => 0 end.

Lemma encode_int_nonempty v : is_u256 v -> encode_str (int_bytes v) <> [].
Proof.
  intros Hv He. pose proof (storage_value_int v Hv) as Hs. rewrite He in Hs. destruct (Z.eq_dec v 0) as [->|]; [discriminate He|].
  vm_compute in Hs. congruence.
Qed.

(** The empty trie has no values. *)
Lemma trie_rep_EmptyTrie db sm k : trie_rep db EmptyTrie sm -> default [] (sm !! k) = [].
Proof.
  intros Hr. destruct (trie_open_empty db) as (db' & _ & Hle & Hr'). pose proof (trie_rep_le _ _ _ _ Hle Hr) as Hr2.
  pose proof (trie_at_ok db' EmptyTrie ∅ k Hr') as H1. rewrite (trie_at_ok db' EmptyTrie sm k Hr2) in H1. rewrite lookup_empty in H1.
  cbn in H1. by injection H1.
Qed.

Lemma stored_value_in db root sm k : trie_rep db root sm -> stored db root k = value_in sm k.
Proof.
  intros Hr. unfold stored, value_in. destruct (Z.eqb_spec root EmptyTrie) as [->|]; [by rewrite (trie_rep_EmptyTrie db sm)|].
  by rewrite (trie_at_ok _ _ _ _ Hr).
Qed.

Lemma value_in_insert sm k v k' : is_u256 k -> is_u256 v -> is_u256 k' ->
  value_in (<[h256_bytes k := encode_str (int_bytes v)]> sm) k' = if decide (k = k') then v else value_in sm k'.
Proof.
  intros Hk Hv Hk'. unfold value_in. destruct (decide (k = k')) as [<-|Hne].
  - rewrite lookup_insert_eq. cbn [default id]. by rewrite storage_value_int.
  - rewrite lookup_insert_ne; [done|]. intros He. by apply Hne, h256_bytes_inj.
Qed.

Lemma value_in_delete sm k k' : is_u256 k -> is_u256 k' ->
  value_in (delete (h256_bytes k) sm) k' = if decide (k = k') then 0 else value_in sm k'.
Proof.
  intros Hk Hk'. unfold value_in. destruct (decide (k = k')) as [<-|Hne]; [by rewrite lookup_delete_eq|].
  rewrite lookup_delete_ne; [done|]. intros He. by apply Hne, h256_bytes_inj.
Qed.

(** One write. *)
Definition write_storage (k v root : Z) (db : DB) : result state_error (DB * Z) :=
  if negb (v =? 0) then trie_insert root (h256_bytes k) (encode_str (int_bytes v)) db else trie_remove root (h256_bytes k) db.

Lemma write_storage_spec k v root db sm : trie_rep db root sm -> readable sm -> is_u256 k -> is_u256 v ->
  (if negb (v =? 0) then insert_clean root (h256_bytes k) (encode_str (int_bytes v)) db else remove_clean root (h256_bytes k) db) ->
  exists db' root' sm', write_storage k v root db = Value (db', root') /\ db_le db db' /\ trie_rep db' root' sm' /\ readable sm' /\
    forall k', is_u256 k' -> value_in sm' k' = if decide (k = k') then v else value_in sm k'.
Proof.
  intros Hr Hread Hk Hv Hc. unfold write_storage. destruct (Z.eqb_spec v 0) as [->|Hne]; cbn [negb] in *.
  - destruct (trie_remove_ok db root sm (h256_bytes k) Hr Hc) as (db' & root' & Hrun & Hle & Hr'). exists db', root', (delete (h256_bytes k) sm).
    split_and!; [done|done|done|by apply map_Forall_delete|]. intros k' Hk'. by apply value_in_delete.
  - destruct (trie_insert_ok db root sm (h256_bytes k) _ Hr (encode_int_nonempty v Hv) Hc) as (db' & root' & Hrun & Hle & Hr').
    exists db', root', (<[h256_bytes k := encode_str (int_bytes v)]> sm). split_and!; [done|done|done| |].
    + apply map_Forall_insert_2; [|done]. exists v. by apply storage_value_int.
    + intros k' Hk'. by apply value_in_insert.
Qed.

(** The loop writes the values of the overlay. *)
Lemma commit_storage_spec l root db sm :
  trie_rep db root sm -> readable sm -> NoDup l.*1 -> Forall (fun p => is_u256 p.1 /\ is_u256 p.2) l -> clean_storage l root db ->
  exists db' root' sm', commit_storage l root db = Value (db', root') /\ db_le db db' /\ trie_rep db' root' sm' /\ readable sm' /\
    forall k, is_u256 k -> value_in sm' k = from_option id (value_in sm k) ((list_to_map l : gmap Z Z) !! k).
Proof.
  revert root db sm. induction l as [|[k v] l IH]; intros root db sm Hr Hread Hnd Hty Hc; cbn [commit_storage].
  - exists db, root, sm. split_and!; [done|apply db_le_refl|done|done|done].
  - apply NoDup_cons in Hnd as [Hk Hnd]. apply Forall_cons in Hty as [[Hku Hvu] Hty]. cbn [fst snd fmap list_fmap] in *. destruct Hc as [Hc1 Hc].
    destruct (write_storage_spec k v root db sm Hr Hread Hku Hvu Hc1) as (db1 & root1 & sm1 & Hw & Hle1 & Hr1 & Hread1 & Hv1).
    specialize (Hc db1 root1 Hw). destruct (IH root1 db1 sm1 Hr1 Hread1 Hnd Hty Hc) as (db' & root' & sm' & Hrun & Hle & Hr' & Hread' & Hv').
    exists db', root', sm'. split_and!; [|by eapply db_le_trans|done|done|].
    + rewrite rlp_of_int by done. cbn [of_rlp rbind]. unfold write_storage in Hw. by rewrite Hw.
    + intros q Hq. rewrite (Hv' q Hq), (Hv1 q Hq). cbn [list_to_map foldr uncurry fst snd]. destruct (decide (k = q)) as [<-|Hne].
      * rewrite lookup_insert_eq. by rewrite not_elem_of_list_to_map_1.
      * by rewrite lookup_insert_ne.
Qed.
Lemma iterate_typed a : typed a -> NoDup (iterate (m_storageOverlay a)).*1 /\
  Forall (fun p => is_u256 p.1 /\ is_u256 p.2) (iterate (m_storageOverlay a)) /\
  (list_to_map (iterate (m_storageOverlay a)) : gmap Z Z) = m_storageOverlay a.
Proof.
  intros Hty. pose proof (iterate_perm (m_storageOverlay a)) as Hp. assert (NoDup (iterate (m_storageOverlay a)).*1) as Hnd
    by (rewrite Hp; apply NoDup_fst_map_to_list). split_and!; [done| |].
  - apply Forall_forall. intros [k v]. rewrite Hp, elem_of_map_to_list. apply (ty_storage _ Hty).
  - rewrite <- (list_to_map_to_list (m_storageOverlay a)) at 2. by apply list_to_map_proper.
Qed.

Lemma written_storage_spec a db : account_ok db a -> typed a ->
  (forall db', trie_open (m_storageRoot a) db = Value db' -> clean_storage (iterate (m_storageOverlay a)) (m_storageRoot a) db') ->
  exists db' root, written_storage a db = Value (db', root) /\ db_le db db' /\ is_u256 root /\
    (root = EmptyTrie \/ exists sm, trie_rep db' root sm /\ readable sm) /\
    forall k, is_u256 k -> stored db' root k = storage_of db a k.
Proof.
  intros Hok Hty Hc. unfold written_storage. case_bool_decide as He.
  { exists db, (m_storageRoot a). split; [done|]. split; [apply db_le_refl|]. split; [apply Hty|]. split; [apply Hok|].
    intros k _. unfold storage_of. by rewrite He, lookup_empty. }
  assert (exists db1 sm, trie_open (m_storageRoot a) db = Value db1 /\ db_le db db1 /\ trie_rep db1 (m_storageRoot a) sm /\ readable sm)
    as (db1 & sm & Hopen & Hle & Hr & Hread).
  { destruct (ao_storage _ _ Hok) as [Hr|(sm & Hr & Hread)].
    - rewrite Hr. destruct (trie_open_empty db) as (db1 & Hopen & Hle & Hr1). exists db1, ∅. by split_and!.
    - exists db, sm. split_and!; [by apply (trie_open_ok _ _ sm)|apply db_le_refl|done|done]. }
  rewrite Hopen. cbn [rbind]. destruct (iterate_typed a Hty) as (Hnd & Htl & Hmap).
  destruct (commit_storage_spec _ _ db1 sm Hr Hread Hnd Htl (Hc db1 Hopen)) as (db' & root & sm' & Hrun & Hle' & Hr' & Hread' & Hv).
  exists db', root. split; [done|]. split; [by eapply db_le_trans|]. split; [by eapply trie_rep_u256|]. split; [by right; exists sm'|].
  intros k Hk. rewrite (stored_value_in db' root sm' k Hr'), (Hv k Hk), Hmap. unfold storage_of.
  destruct (m_storageOverlay a !! k); [done|]. cbn. rewrite <- (stored_value_in db1 (m_storageRoot a) sm k Hr).
  by apply stored_le.
Qed.

(** ** Code *)

Lemma written_code_spec a db : account_ok db a -> m_isAlive a = true -> (m_hasNewCode a = true -> code_clean (m_codeCache a) db) ->
  db_le db (written_code a db) /\
  (if m_codeHash a =? EmptySHA3 then [] else lookup_code (written_code a db) (m_codeHash a)) = code_of db a.
Proof.
  intros Hok Hal Hc. unfold written_code, code_of. destruct (m_hasNewCode a) eqn:Hn.
  - pose proof (ao_newCode _ _ Hok Hn Hal) as Hh. rewrite <- Hh. split; [by apply insert_code_le, Hc|].
    rewrite insert_code_lookup. destruct (Z.eqb_spec (sha3 (m_codeCache a)) EmptySHA3) as [|Hne]; [done|].
    destruct (m_codeCache a) as [|x l]; [by destruct Hne|]. done.
  - split; [apply db_le_refl|]. destruct (Z.eqb_spec (m_codeHash a) EmptySHA3) as [|Hne]; [done|].
    destruct (ao_oldCode _ _ Hok Hn Hne) as [-> | ->]; [done|]. by destruct (lenZ _ =? 0).
Qed.

(** ** One account *)

(** [v] is what [u] was before a commit. *)
Record view_kept (u v : View) : Prop := {
  vk_alive : v_alive v = true;
  vk_nonce : v_nonce v = v_nonce u;
  vk_balance : v_balance v = v_balance u;
  vk_codeHash : v_codeHash v = v_codeHash u;
  vk_code : v_code v = v_code u;
  vk_storage : forall k, is_u256 k -> v_storage v k = v_storage u k
}.

(** The entry [commit] leaves for an account that was [a] over [db0]. *)
Definition entry_kept (db0 : DB) (a : Account) (db : DB) (o : option (list Z)) : Prop :=
  if m_isAlive a then
    exists e acc, o = Some e /\ decode_account e = Value acc /\ account_ok db acc /\ view_kept (view_of db0 a) (view_of db acc)
  else o = None.

Lemma entry_kept_le db0 a db db' o : db_le db db' -> entry_kept db0 a db o -> entry_kept db0 a db' o.
Proof.
  unfold entry_kept. destruct (m_isAlive a); [|done]. intros Hle (e & acc & He & Hd & Hok & []). exists e, acc.
  pose proof (view_of_le db db' acc Hle Hok) as []. split_and!; [done|done|by eapply account_ok_le|]. constructor; try congruence.
  intros k Hk. rewrite <- ve_storage. auto.
Qed.

Lemma entry_kept_base db0 db1 a db o : db_le db0 db1 -> account_ok db0 a -> entry_kept db1 a db o -> entry_kept db0 a db o.
Proof.
  unfold entry_kept. destruct (m_isAlive a); [|done]. intros Hle Hok (e & acc & He & Hd & Hok' & []). exists e, acc.
  pose proof (view_of_le db0 db1 a Hle Hok) as []. split_and!; [done|done|done|]. constructor; try congruence.
  intros k Hk. rewrite ve_storage. auto.
Qed.

(** Everything but the database, the trie and the cache of code sizes. *)
Record rest_eq (s s' : st) : Prop := {
  re_cache : m_cache s' = m_cache s;
  re_entries : m_unchangedCacheEntries s' = m_unchangedCacheEntries s;
  re_absent : m_nonExistingAccountsCache s' = m_nonExistingAccountsCache s;
  re_touched : m_touched s' = m_touched s;
  re_nonce : m_accountStartNonce s' = m_accountStartNonce s;
  re_log : m_changeLog s' = m_changeLog s
}.

Lemma rest_eq_trans s t u : rest_eq s t -> rest_eq t u -> rest_eq s u.
Proof. intros [] []. constructor; congruence. Qed.

Lemma codeSizes_rest h n (s : st) : exists s', codeSizes_store h n s = (Value tt, s') /\ rest_eq s s' /\ m_db s' = m_db s /\ m_state s' = m_state s.
Proof.
  unfold codeSizes_store, smod. cbv zeta. destruct (if c_maxSize <=? _ then _ else _) as [c g]. eexists. split; [done|]. by split_and!.
Qed.

(** The entry with the storage and the code written. *)
Lemma entry_kept_written a db0 db1 root db e : account_ok db0 a -> typed a -> m_isAlive a = true -> db_le db0 db1 -> is_u256 root ->
  root = EmptyTrie \/ (exists sm, trie_rep db1 root sm /\ readable sm) ->
  (forall k, is_u256 k -> stored db1 root k = storage_of db0 a k) ->
  (m_hasNewCode a = true -> code_clean (m_codeCache a) db1) ->
  db_le (written_code a db1) db -> encode_account a root = Value e -> entry_kept db0 a db (Some e).
Proof.
  intros Hok Hty Hal Hle Hu Hroot Hst Hcc Hle2 He. pose proof (account_ok_le _ _ _ Hle Hok) as Hok1.
  destruct (written_code_spec a db1 Hok1 Hal Hcc) as [Hle1 Hcode]. rewrite (code_of_le _ _ _ Hle Hok) in Hcode.
  set (acc := Account_full (m_nonce a) (m_balance a) root (m_codeHash a) Unchanged).
  assert (db_le db1 db) as Hle3 by (by eapply db_le_trans).
  assert (code_of db acc = code_of db0 a) as Hc.
  { pose proof (code_of_nonempty db0 a Hok) as Hne. rewrite <- Hcode in Hne |- *. unfold code_of. cbn.
    destruct (Z.eqb_spec (m_codeHash a) EmptySHA3); [done|]. apply lookup_code_le; auto. }
  assert (forall k, stored db root k = stored db1 root k) as Hst2.
  { intros k. destruct Hroot as [->|(sm & Hr & _)]; [unfold stored; by rewrite Z.eqb_refl|].
    by rewrite (stored_value_in db1 root sm k Hr), (stored_value_in db root sm k (trie_rep_le _ _ _ _ Hle3 Hr)). }
  unfold entry_kept. rewrite Hal. exists e, acc. split_and!; [done|by apply decode_encode_account| |].
  - constructor; cbn; [|by rewrite Hc; apply Hok|apply Hok|done|by left].
    destruct Hroot as [->|(sm & Hr & Hread)]; [by left|right]. exists sm. split; [by eapply trie_rep_le|exact Hread].
  - constructor; try done. intros k Hk. cbn [v_storage view_of]. rewrite <- (Hst k Hk), <- Hst2. unfold storage_of. cbn. by rewrite lookup_empty.
Qed.

Lemma set_db_id (s : st) : set_db (m_db s) s = s.
Proof. by destruct s. Qed.

(** The first part of [commit_account], on the storage. *)
Lemma commit_account_storage a (s : st) db root : written_storage a (m_db s) = Value (db, root) ->
  (if bool_decide (m_storageOverlay a = ∅) then sret (m_storageRoot a)
   else
     s <- sget ;;
     db <- slift (trie_open (m_storageRoot a) (m_db s)) ;;
     r <- slift (commit_storage (iterate (m_storageOverlay a)) (m_storageRoot a) db) ;;
     smod (set_db (fst r)) ;;
     sret (snd r)) s = (Value root, set_db db s).
Proof.
  unfold written_storage. case_bool_decide as He; intros Hw.
  - injection Hw as <- <-. by rewrite set_db_id.
  - apply rbind_Value in Hw as (db1 & Ho & Hc). unfold sbind, sget, slift, smod, sret. by rewrite Ho, Hc.
Qed.

(** The second part, on the code. *)
Lemma commit_account_code a (s : st) :
  exists s', (if m_hasNewCode a then
       codeSizes_store (m_codeHash a) (lenZ (m_codeCache a)) ;;
       smod (fun s => set_db (insert_code (m_codeHash a) (m_codeCache a) (m_db s)) s)
     else sret tt) s = (Value tt, s') /\ rest_eq s s' /\ m_db s' = written_code a (m_db s) /\ m_state s' = m_state s.
Proof.
  unfold written_code. destruct (m_hasNewCode a); [|by eexists].
  destruct (codeSizes_rest (m_codeHash a) (lenZ (m_codeCache a)) s) as (s1 & Hrun & Hrest & Hdb & Hst). unfold sbind. rewrite Hrun. unfold smod.
  eexists. split; [done|]. cbn. rewrite Hdb. split_and!; [|done|done]. destruct Hrest. by constructor.
Qed.

Lemma encode_account_nonempty a root e : typed a -> encode_account a root = Value e -> e = encode (account_item a root) /\ e <> [].
Proof.
  intros Hty. rewrite encode_account_spec by apply Hty. intros He. assert (e = encode (account_item a root)) as -> by congruence.
  split; [done|]. intros Hn. destruct (account_item_ok a root (ty_nonce _ Hty) (ty_balance _ Hty)) as [_ [Hl _]]. rewrite Hn in Hl. discriminate Hl.
Qed.

Lemma commit_account_spec addr a (s : st) mm :
  trie_rep (m_db s) (m_state s) mm -> account_ok (m_db s) a -> (m_isAlive a = true -> typed a) -> clean_account addr a s ->
  exists s' mm', commit_account addr a s = (Value tt, s') /\ rest_eq s s' /\ db_le (m_db s) (m_db s') /\
    trie_rep (m_db s') (m_state s') mm' /\ entry_kept (m_db s) a (m_db s') (mm' !! addr_bytes addr) /\
    forall key, key <> addr_bytes addr -> mm' !! key = mm !! key.
Proof.
  intros Hr Hok Hty Hc. unfold commit_account, clean_account in *. destruct (m_isAlive a) eqn:Hal; cbn [negb] in *.
  - specialize (Hty eq_refl). destruct Hc as [Hcs Hc]. destruct (written_storage_spec a (m_db s) Hok Hty Hcs) as (db1 & root & Hw & Hle1 & Hu & Hroot & Hst).
    destruct (Hc db1 root Hw) as [Hcc Hci]. unfold sbind at 1. rewrite (commit_account_storage a s db1 root Hw).
    destruct (commit_account_code a (set_db db1 s)) as (s2 & Hrun2 & Hrest2 & Hdb2 & Hst2). unfold sbind at 1. rewrite Hrun2. cbn in Hdb2, Hst2.
    rewrite encode_account_spec by apply Hty. cbn [of_rlp]. set (e := encode (account_item a root)) in *.
    assert (encode_account a root = Value e) as He by (apply encode_account_spec; apply Hty).
    destruct (encode_account_nonempty a root e Hty He) as [_ Hne].
    pose proof (written_code_spec a db1 (account_ok_le _ _ _ Hle1 Hok) Hal Hcc) as [Hle2 _].
    assert (trie_rep (m_db s2) (m_state s2) mm) as Hr2.
    { rewrite Hdb2, Hst2. eapply trie_rep_le; [|exact Hr]. by eapply db_le_trans. }
    rewrite <- Hdb2, <- Hst2 in Hci. destruct (trie_insert_ok (m_db s2) (m_state s2) mm (addr_bytes addr) e Hr2 Hne Hci) as (db' & r' & Hins & Hle' & Hr').
    unfold sbind, sget, slift, smod. rewrite Hins. cbn [fst snd]. exists (set_trie db' r' s2), (<[addr_bytes addr := e]> mm).
    rewrite Hdb2 in Hle'. split_and!; [done| | |exact Hr'| |].
    + destruct Hrest2. by constructor.
    + cbn. eapply db_le_trans; [exact Hle1|]. by eapply db_le_trans.
    + rewrite lookup_insert_eq. by eapply entry_kept_written.
    + intros key Hkey. by rewrite lookup_insert_ne.
  - destruct (trie_remove_ok (m_db s) (m_state s) mm (addr_bytes addr) Hr Hc) as (db' & r' & Hrem & Hle & Hr').
    unfold sbind, sget, slift, smod. rewrite Hrem. cbn [fst snd]. exists (set_trie db' r' s), (delete (addr_bytes addr) mm).
    split_and!; [done|by constructor|done|done| |].
    + unfold entry_kept. by rewrite Hal, lookup_delete_eq.
    + intros key Hkey. by rewrite lookup_delete_ne.
Qed.

(** ** The loop *)

Definition dirty_keys (l : list (Z * Account)) : list (list Z) := (fun p => addr_bytes p.1) <$> filter (fun p => isDirty p.2 = true) l.

Lemma commit_accounts_spec l ret (s : st) mm :
  trie_rep (m_db s) (m_state s) mm -> Forall (fun p => account_ok (m_db s) p.2 /\ (m_isAlive p.2 = true -> typed p.2)) l ->
  NoDup ((fun p => addr_bytes p.1) <$> l) -> clean_accounts l s ->
  exists s' mm' ret', commit_accounts l ret s = (Value ret', s') /\ rest_eq s s' /\ db_le (m_db s) (m_db s') /\
    trie_rep (m_db s') (m_state s') mm' /\
    (forall addr a, (addr, a) ∈ l -> isDirty a = true -> entry_kept (m_db s) a (m_db s') (mm' !! addr_bytes addr)) /\
    forall key, key ∉ dirty_keys l -> mm' !! key = mm !! key.
Proof.
  revert ret s mm. induction l as [|[addr a] l IH]; intros ret s mm Hr Hall Hnd Hc; cbn [commit_accounts clean_accounts] in *.
  - exists s, mm, ret. split_and!; [done|done|apply db_le_refl|done|set_solver|done].
  - apply Forall_cons in Hall as [[Hok Hty] Hall]. rewrite fmap_cons in Hnd. apply NoDup_cons in Hnd as [Hfresh Hnd]. cbn [fst snd] in *.
    unfold dirty_keys. destruct (isDirty a) eqn:Hd.
    + destruct Hc as [Hca Hc]. destruct (commit_account_spec addr a s mm Hr Hok Hty Hca) as (s1 & mm1 & Hrun1 & Hrest1 & Hle1 & Hr1 & He1 & Ho1).
      rewrite Hrun1 in Hc. cbn [snd] in Hc.
      destruct (IH ({[addr]} ∪ ret) s1 mm1 Hr1) as (s' & mm' & ret' & Hrun & Hrest & Hle & Hr' & He & Ho); [|done|done|].
      { eapply Forall_impl; [exact Hall|]. intros [b c] [Hokc Htyc]. split; [by eapply account_ok_le|done]. }
      assert (addr_bytes addr ∉ dirty_keys l) as Hnot.
      { unfold dirty_keys. intros Hin. apply Hfresh. revert Hin. rewrite !list_elem_of_fmap.
        intros (p & Hp & Hin). exists p. split; [done|]. by apply list_elem_of_filter in Hin as [_ ?]. }
      exists s', mm', ret'. unfold sbind. rewrite Hrun1. split_and!; [done|by eapply rest_eq_trans|by eapply db_le_trans|done| |].
      * intros b c [[= -> ->]|Hin]%elem_of_cons Hdc.
        -- rewrite (Ho _ Hnot). eapply entry_kept_le; [exact Hle|exact He1].
        -- eapply entry_kept_base; [exact Hle1| |by apply He]. apply (proj1 (Forall_forall _ _) Hall (b, c) Hin).
      * intros key. rewrite filter_cons_True by done. intros [Hne Hk]%not_elem_of_cons. rewrite (Ho key Hk). by apply Ho1.
    + destruct (IH ret s mm Hr Hall Hnd Hc) as (s' & mm' & ret' & Hrun & Hrest & Hle & Hr' & He & Ho). exists s', mm', ret'.
      split_and!; [done|done|done|done| |].
      * intros b c [[= -> ->]|Hin]%elem_of_cons Hdc; [congruence|by apply He].
      * rewrite filter_cons_False; [done|]. cbn. congruence.
Qed.

(** ** Commit *)

(** The values and keys of the C++ types. *)
Record committable (s : st) : Prop := {
  cm_addr : forall a acc, m_cache s !! a = Some acc -> 0 <= a < 2 ^ 160;
  cm_absent : forall a, a ∈ m_nonExistingAccountsCache s -> 0 <= a < 2 ^ 160;
  cm_typed : forall a acc, m_cache s !! a = Some acc -> m_isAlive acc = true -> typed acc
}.

Definition is_Remove (b : CommitBehaviour) : bool := match b with RemoveEmptyAccounts => true | KeepEmptyAccounts => false end.

(** What becomes of an account: it stays unless it was killed, or left empty
    when those are removed. *)
Definition commit_view (remove : bool) (u v : option View) : Prop :=
  match u with
  | Some x => if v_alive x && negb (remove && view_empty x) then exists y, v = Some y /\ view_kept x y else v = None
  | None => v = None
  end.

Lemma addr_bytes_inj a b : 0 <= a < 2 ^ 160 -> 0 <= b < 2 ^ 160 -> addr_bytes a = addr_bytes b -> a = b.
Proof.
  intros Ha Hb He. apply (f_equal be_val) in He. unfold addr_bytes in He. rewrite !be_val_toBigEndian in He by lia.
  change (2 ^ (8 * Z.of_nat 20)) with (2 ^ 160) in He. rewrite !Z.mod_small in He by lia. exact He.
Qed.

Lemma dirty_keys_spec (s : st) key : key ∈ dirty_keys (iterate (m_cache s)) <->
  exists a acc, m_cache s !! a = Some acc /\ isDirty acc = true /\ key = addr_bytes a.
Proof.
  unfold dirty_keys. rewrite list_elem_of_fmap. split.
  - intros ([a acc] & -> & Hin%list_elem_of_filter). destruct Hin as [Hd Hin]. rewrite iterate_perm, elem_of_map_to_list in Hin. by exists a, acc.
  - intros (a & acc & Hc & Hd & ->). exists (a, acc). split; [done|]. apply list_elem_of_filter. split; [done|].
    by rewrite iterate_perm, elem_of_map_to_list.
Qed.

Lemma iterate_keys (s : st) : committable s -> NoDup ((fun p => addr_bytes p.1) <$> iterate (m_cache s)).
Proof.
  intros Hcm. apply NoDup_fmap_2_strong.
  - intros [a x] [b y]. rewrite iterate_perm, !elem_of_map_to_list. intros Ha Hb He. assert (a = b) as <-
      by (by apply addr_bytes_inj; [eapply cm_addr|eapply cm_addr|]). congruence.
  - rewrite iterate_perm. apply NoDup_map_to_list.
Qed.

Lemma view_kept_eq u v w : view_eq u v -> view_kept v w -> view_kept u w.
Proof. intros [] []. constructor; try congruence. intros k Hk. rewrite ve_storage. auto. Qed.

Lemma view_kept_refl v : v_alive v = true -> view_kept v v.
Proof. by constructor. Qed.

Lemma decode_alive e acc : decode_account e = Value acc -> m_isAlive acc = true.
Proof. unfold decode_account. intros Hd. result_inv. by subst acc. Qed.

(** The accounts after the loop. *)
Lemma committed_kept m (s s' : st) mm' : state_ok m s -> committable s -> db_le (m_db s) (m_db s') ->
  (forall a acc, m_cache s !! a = Some acc -> isDirty acc = true -> entry_kept (m_db s) acc (m_db s') (mm' !! addr_bytes a)) ->
  (forall key, key ∉ dirty_keys (iterate (m_cache s)) -> mm' !! key = m !! key) ->
  forall a, 0 <= a < 2 ^ 160 -> commit_view false (the_view m s a) (committed mm' (m_db s') a).
Proof.
  intros Hs Hcm Hle Hd Ho a Ha. assert (dirty s a \/ ~ dirty s a) as [Hda|Hda] by (unfold dirty; destruct (m_cache s !! a) as [acc|]; [destruct (isDirty acc)|]; auto).
  - destruct (dirty_Some s a Hda) as (acc & Hc & Hdc). specialize (Hd a acc Hc Hdc). rewrite (the_view_cached m s a acc Hc).
    unfold entry_kept in Hd. unfold commit_view, committed. cbn [v_alive view_of andb negb]. rewrite andb_true_r. destruct (m_isAlive acc).
    + destruct Hd as (e & acc' & -> & -> & _ & Hk). by eexists.
    + by rewrite Hd.
  - assert (mm' !! addr_bytes a = m !! addr_bytes a) as Hm.
    { apply Ho. rewrite dirty_keys_spec. intros (b & acc & Hc & Hdb & He). assert (a = b) as -> by (apply addr_bytes_inj; eauto using cm_addr).
      apply Hda. unfold dirty. by rewrite Hc. }
    assert (committed mm' (m_db s') a = committed m (m_db s') a) as -> by (unfold committed; by rewrite Hm).
    assert (option_Forall2 view_eq (the_view m s a) (committed m (m_db s') a)) as Hv.
    { eapply option_view_trans; [|by apply (committed_le m s)]. destruct (m_cache s !! a) as [acc|] eqn:Hc; [|rewrite the_view_uncached by done; apply option_view_refl].
      rewrite (the_view_cached m s a acc Hc). apply clean_committed; [done|done|]. unfold dirty in Hda. rewrite Hc in Hda. by destruct (isDirty acc). }
    assert (forall v, committed m (m_db s') a = Some v -> v_alive v = true) as Hal.
    { unfold committed. intros v. destruct (m !! addr_bytes a) as [e|]; [|done]. destruct (decode_account e) as [acc| | |] eqn:Hde; try done.
      intros [= <-]. cbn. by eapply decode_alive. }
    destruct Hv as [u v Huv|]; cbn; [|done]. rewrite (ve_alive _ _ Huv), (Hal v eq_refl). cbn. exists v. split; [done|].
    eapply view_kept_eq; [exact Huv|]. by apply view_kept_refl, Hal.
Qed.

Lemma committed_ok m (s s' : st) mm' : state_ok m s -> committable s -> db_le (m_db s) (m_db s') -> trie_rep (m_db s') (m_state s') mm' ->
  (forall a acc, m_cache s !! a = Some acc -> isDirty acc = true -> entry_kept (m_db s) acc (m_db s') (mm' !! addr_bytes a)) ->
  (forall key, key ∉ dirty_keys (iterate (m_cache s)) -> mm' !! key = m !! key) ->
  m_cache s' = ∅ -> m_nonExistingAccountsCache s' = m_nonExistingAccountsCache s -> m_accountStartNonce s' = m_accountStartNonce s ->
  state_ok mm' s'.
Proof.
  intros Hs Hcm Hle Hr Hd Ho Hc Hab Hn. constructor; rewrite ?Hc, ?Hab, ?Hn; [done| | | | |apply Hs].
  - intros a e He. destruct (decide (addr_bytes a ∈ dirty_keys (iterate (m_cache s)))) as [Hin|Hin].
    + apply dirty_keys_spec in Hin as (b & acc & Hcb & Hdb & Heq). specialize (Hd b acc Hcb Hdb). rewrite <- Heq, He in Hd.
      unfold entry_kept in Hd. destruct (m_isAlive acc); [|done]. destruct Hd as (e' & acc' & [= <-] & Hde & Hok & _). by exists acc'.
    + rewrite (Ho _ Hin) in He. destruct (ok_entry m s Hs a e He) as (acc & Hde & Hok). exists acc. split; [done|by eapply account_ok_le].
  - intros a acc. by rewrite lookup_empty.
  - intros a Ha. destruct (ok_absent m s Hs a Ha) as [Hm Hca]. split; [|apply lookup_empty]. rewrite Ho; [done|].
    rewrite dirty_keys_spec. intros (b & acc & Hcb & _ & Heq). assert (a = b) as -> by (apply addr_bytes_inj; eauto using cm_addr, cm_absent). congruence.
  - intros a acc. by rewrite lookup_empty.
Qed.

(** The accounts to commit. *)
Definition to_commit (b : CommitBehaviour) (s : st) : st := if is_Remove b then snd (removeEmptyAccounts s) else s.
(** Nothing that the commit hashes collides. *)
Definition commit_clean (b : CommitBehaviour) (s : st) : Prop := clean_accounts (iterate (m_cache (to_commit b s))) (to_commit b s).

Definition is_dirty (s : st) (a : Z) : bool := match m_cache s !! a with Some acc => isDirty acc | None => false end.

(** [removeEmptyAccounts] kills the accounts that were changed and are empty. *)
Record emptied m (b : CommitBehaviour) (s s1 : st) : Prop := {
  em_ok : state_ok m s1;
  em_committable : committable s1;
  em_db : m_db s1 = m_db s;
  em_state : m_state s1 = m_state s;
  em_view : forall a w, commit_view false (the_view m s1 a) w -> commit_view (is_Remove b && is_dirty s a) (the_view m s a) w
}.

Lemma kill_ok db a : account_ok db (Account.kill a).
Proof. by apply account_ok_plain. Qed.

Lemma to_commit_spec m b (s : st) : state_ok m s -> committable s -> emptied m b s (to_commit b s) /\
  (match b with RemoveEmptyAccounts => removeEmptyAccounts | KeepEmptyAccounts => sret tt end) s = (Value tt, to_commit b s).
Proof.
  intros Hs Hcm. split; [|by destruct b]. destruct b; [by constructor|]. unfold to_commit, removeEmptyAccounts, smod. cbn [is_Remove snd].
  set (f := fun a : Account => if isDirty a && isEmpty a then Account.kill a else a).
  assert (forall acc, f acc = acc \/ f acc = Account.kill acc /\ isDirty acc = true /\ isEmpty acc = true) as Hf.
  { intros acc. unfold f. destruct (isDirty acc), (isEmpty acc); auto. }
  constructor; [| |done|done|].
  - constructor; cbn [m_db m_state m_cache m_nonExistingAccountsCache m_accountStartNonce set_cache]; try apply Hs.
    + intros a acc. rewrite lookup_fmap_Some. intros (acc0 & <- & Hc). destruct (Hf acc0) as [-> | [-> _]]; [by eapply ok_cache|apply kill_ok].
    + intros a Ha. destruct (ok_absent m s Hs a Ha) as [Hm Hc]. by rewrite lookup_fmap, Hc.
    + intros a acc. rewrite lookup_fmap_Some. intros (acc0 & <- & Hc). destruct (Hf acc0) as [-> | [-> [Hd _]]]; [by eapply ok_clean|done].
  - constructor; cbn [m_cache m_nonExistingAccountsCache set_cache].
    + intros a acc. rewrite lookup_fmap_Some. intros (acc0 & _ & Hc). by eapply cm_addr.
    + apply Hcm.
    + intros a acc. rewrite lookup_fmap_Some. intros (acc0 & <- & Hc). destruct (Hf acc0) as [-> | [-> _]]; [by eapply cm_typed|done].
  - intros a w. unfold the_view, the_account, is_dirty. cbn [m_cache m_db set_cache is_Remove andb]. rewrite lookup_fmap.
    destruct (m_cache s !! a) as [acc|]; cbn [fmap option_fmap option_map]; [|done]. unfold f, commit_view. destruct (isDirty acc) eqn:Hd; cbn [andb]; [|done].
    change (view_empty (view_of (m_db s) acc)) with (isEmpty acc). destruct (isEmpty acc); [|done].
    cbn. intros ->. by rewrite andb_false_r.
Qed.

(** [commit] writes every account and starts with empty caches; the trie it
    started from is still there. *)
Lemma commit_spec m b (s : st) : state_ok m s -> committable s -> commit_clean b s ->
  exists s' m', commit b s = (Value tt, s') /\ state_ok m' s' /\ db_le (m_db s) (m_db s') /\
    m_cache s' = ∅ /\ m_unchangedCacheEntries s' = [] /\ m_changeLog s' = [] /\
    forall a, 0 <= a < 2 ^ 160 -> commit_view (is_Remove b && is_dirty s a) (the_view m s a) (the_view m' s' a).
Proof.
  intros Hs Hcm Hcl. destruct (to_commit_spec m b s Hs Hcm) as [[Hs1 Hcm1 Hdb1 Hst1 Hv1] Hrun1]. unfold commit_clean in Hcl.
  set (s1 := to_commit b s) in *. clearbody s1.
  destruct (commit_accounts_spec (iterate (m_cache s1)) ∅ s1 m (ok_trie m s1 Hs1)) as (s2 & m' & ret & Hrun & Hrest & Hle & Hr & He & Ho); [|by apply iterate_keys|done|].
  { apply Forall_forall. intros [a acc]. rewrite iterate_perm, elem_of_map_to_list. intros Hc. split; [by eapply ok_cache|by eapply cm_typed]. }
  assert (forall a acc, m_cache s1 !! a = Some acc -> isDirty acc = true -> entry_kept (m_db s1) acc (m_db s2) (m' !! addr_bytes a)) as He'.
  { intros a acc Hc. apply He. by rewrite iterate_perm, elem_of_map_to_list. }
  unfold commit, sbind. rewrite Hrun1. cbn [sget]. rewrite Hrun. unfold smod.
  set (s3 := set_entries [] _). exists s3, m'. split; [done|].
  assert (state_ok m' s3) as Hok by (apply (committed_ok m s1 s3 m'); [done|done|exact Hle|exact Hr|exact He'|exact Ho|done|apply Hrest|apply Hrest]).
  split; [done|]. split; [by rewrite <- Hdb1|]. split_and!; [done|done|done|]. intros a Ha. apply Hv1.
  rewrite (the_view_uncached m' s3 a) by apply lookup_empty. by apply committed_kept.
Qed.

End Commit.
