(* ===== verification/TestDB.v ===== *)
(** * A concrete database

    The smallest database that keeps the laws [State] relies on: tries and code
    in maps, a new root for every new trie.  The hash is a small one; a code is
    found under its hash only.  The witnesses of the theorems about the state
    run on it. *)
From stdpp Require Import base list gmap fin_sets.
From Stdlib Require Import ZArith Lia.
From S2P Require Import Prelude Words Result Rlp Account StateMonad State.

#[export] Instance TestSha3 : Sha3 := fun l => foldl (fun h b => (h * 257 + b + 1) mod 2 ^ 61) 1 l.

Record TestDB := mkTestDB { d_tries : gmap Z trie_map; d_codes : gmap Z (list Z) }.

Definition test_trie (db : TestDB) (r : Z) : option trie_map := if r =? EmptyTrie then Some ∅ else d_tries db !! r.

(** A root that no trie has. *)
Definition test_root (db : TestDB) : Z := 1 + foldr Z.max EmptyTrie (map_to_list (d_tries db)).*1.

Definition test_put (db : TestDB) (t : trie_map) : TestDB * Z :=
  (mkTestDB (<[test_root db := t]> (d_tries db)) (d_codes db), test_root db).

#[export] Instance TestStateDB : StateDB TestDB := {
  lookup_code db h := match d_codes db !! h with Some c => if sha3 c =? h then c else [] | None => [] end;
  insert_code h c db := mkTestDB (d_tries db) (<[h := c]> (d_codes db));
  trie_open r db := match test_trie db r with Some _ => Value db | None => Error RootNotFound end;
  trie_at db r k := match test_trie db r with Some t => Value (default [] (t !! k)) | None => Error BadRoot end;
  trie_insert r k v db := match test_trie db r with Some t => Value (test_put db (<[k := v]> t)) | None => Error BadRoot end;
  trie_remove r k db := match test_trie db r with Some t => Value (test_put db (delete k t)) | None => Error BadRoot end
}.

Record test_le (db db' : TestDB) : Prop := {
  tl_tries : forall r t, test_trie db r = Some t -> test_trie db' r = Some t;
  tl_codes : forall h, lookup_code db h <> [] -> lookup_code db' h = lookup_code db h
}.

Lemma test_root_fresh db r : r ∈ (map_to_list (d_tries db)).*1 \/ r = EmptyTrie -> r < test_root db.
Proof.
  unfold test_root. induction (map_to_list (d_tries db)).*1 as [|x l IH]; cbn [foldr].
  - intros [Hr| ->]; [set_solver|lia].
  - intros [[Hr|Hr]%elem_of_cons|Hr]; [subst; lia|..]; assert (r < 1 + foldr Z.max EmptyTrie l) by auto; lia.
Qed.

Lemma test_put_le db t db' r : test_put db t = (db', r) ->
  test_le db db' /\ test_trie db' r = Some t /\ (test_root db < 2 ^ 256 -> is_u256 r).
Proof.
  intros [= <- <-]. pose proof (test_root_fresh db EmptyTrie (or_intror eq_refl)) as He. unfold test_trie.
  split_and!; [constructor|..]; unfold test_trie; cbn [d_tries]; [|done| |].
  - intros r t' Hr. destruct (Z.eqb_spec r EmptyTrie); [done|]. rewrite lookup_insert_ne; [done|]. intros Heq.
    assert (r < test_root db); [|lia]. apply test_root_fresh. left. apply list_elem_of_fmap. exists (r, t'). split; [done|].
    by apply elem_of_map_to_list.
  - destruct (Z.eqb_spec (test_root db) EmptyTrie); [lia|]. apply lookup_insert_eq.
  - intros Hlt. assert (0 <= EmptyTrie) by (by vm_compute). lia.
Qed.

Lemma test_le_refl db : test_le db db.
Proof. by constructor. Qed.

#[export] Program Instance TestStateDBLaws : StateDBLaws TestDB := {
  trie_rep db r t := test_trie db r = Some t /\ is_u256 r;
  db_le := test_le;
  insert_clean _ _ _ db := test_root db < 2 ^ 256;
  remove_clean _ _ db := test_root db < 2 ^ 256;
  code_clean c db := lookup_code db (sha3 c) = c \/ lookup_code db (sha3 c) = []
}.
Next Obligation. apply test_le_refl. Qed.
Next Obligation. intros db1 db2 db3 [] []. constructor; [auto|]. intros h Hh. rewrite tl_codes1; [auto|]. by rewrite tl_codes0. Qed.
Next Obligation. intros db r t [_ Hr]. exact Hr. Qed.
Next Obligation. intros db db' r t [] [Hr Hu]. split; [auto|exact Hu]. Qed.
Next Obligation. intros db db' h []. auto. Qed.
Next Obligation. intros db r t [Ht _]. cbn. by rewrite Ht. Qed.
Next Obligation.
  intros db. exists db. cbn. unfold test_trie. rewrite Z.eqb_refl. split_and!; [done|apply test_le_refl|done|by vm_compute..].
Qed.
Next Obligation. intros db r t k [Ht _]. cbn. by rewrite Ht. Qed.
Next Obligation.
  intros db r t k v [Ht _] _ Hc. cbn. rewrite Ht. destruct (test_put db (<[k := v]> t)) as [db' r'] eqn:Hp. exists db', r'.
  destruct (test_put_le _ _ _ _ Hp) as (? & ? & ?). split; [done|]. split; [done|]. split; auto.
Qed.
Next Obligation.
  intros db r t k [Ht _] Hc. cbn. rewrite Ht. destruct (test_put db (delete k t)) as [db' r'] eqn:Hp. exists db', r'.
  destruct (test_put_le _ _ _ _ Hp) as (? & ? & ?). split; [done|]. split; [done|]. split; auto.
Qed.
Next Obligation.
  intros db c Hc. constructor; [done|]. intros h Hh. cbn in *. destruct (decide (sha3 c = h)) as [<-|Hne].
  - rewrite lookup_insert_eq, Z.eqb_refl. by destruct Hc as [Hc|Hc]; [symmetry|].
  - by rewrite lookup_insert_ne.
Qed.
Next Obligation. intros db c. cbn. by rewrite lookup_insert_eq, Z.eqb_refl. Qed.

(** The engine draws the numbers in turn. *)
#[export] Program Instance TestEngine : RandomEngine Z := {
  uniform n g := (if n <? 0 then 0 else g mod (n + 1), g + 1);
  random_h256 g := (g, g + 1)
}.
Next Obligation. intros n g Hn. cbn. destruct (Z.ltb_spec n 0); [lia|]. pose proof (Z.mod_pos_bound g (n + 1)). lia. Qed.

#[export] Program Instance TestMaps : UnorderedMaps := { iterate _ m := map_to_list m }.
Next Obligation. done. Qed.

(** A committed state with two accounts: nonce 1 and balance 100 at 0xaa, and
    nothing but a balance of 5 at 0xbb. *)
Definition test_entry (nonce balance : Z) : list Z :=
  match of_rlp (encode_account (Account_new nonce balance Changed) EmptyTrie) with Value e => e | _ => [] end.
Definition test_map : trie_map := {[addr_bytes 0xaa := test_entry 1 100; addr_bytes 0xbb := test_entry 0 5]}.
Definition test_db : TestDB := mkTestDB {[7 := test_map]} ∅.
Definition test_state : State TestDB Z := mkState test_db 7 ∅ [] ∅ ∅ 0 [] ∅ 0.
