(* ===== verification/StateRefine.v ===== *)
(** * The state refines a map of accounts

    The abstract state is a function from addresses to views, with a stack of
    saved copies for the savepoints; a query looks at it, a change updates it at
    one address, and a rollback puts a saved copy back.  A client of [State]
    that runs a sequence of the operations gets the answers of the abstract
    state: no cache, eviction, database or change log shows.

    Two operations cannot be rolled back, and forfeit the saved copies: [kill],
    which is not in the change log, and [clearStorage] where storage was set since
    the last commit, for what was set is not in the log entry. *)
From stdpp Require Import base list gmap fin_sets.
From Stdlib Require Import ZArith Lia.
From S2P Require Import Prelude Words Result Rlp StateMonad Account State StateSpec StateReads StateJournal StateOps.
Open Scope sm_scope.

(** What a client calls. [Rollback n] is to the [n]th newest savepoint, which
    is used up with the newer ones; [Keep] forgets the newest. *)
Inductive Op : Type :=
| AddressInUse (a : Z) | AccountNonemptyAndExisting (a : Z) | AddressHasCode (a : Z)
| GetBalance (a : Z) | GetNonce (a : Z) | GetCodeHash (a : Z) | GetStorage (a k : Z) | GetCode (a : Z)
| GetCodeSize (a : Z) | GetStorageRoot (a : Z)
| IncNonce (a : Z) | SetNonce (a n : Z) | AddBalance (a x : Z) | SubBalance (a x : Z) | SetBalance (a x : Z)
| TransferBalance (from to x : Z) | SetStorage (a k x : Z) | SetCode (a : Z) (c : list Z) | CreateContract (a : Z)
| ClearStorage (a : Z) | Kill (a : Z)
| Savepoint | Rollback (n : nat) | Keep.

Inductive Answer : Type :=
| Done
| Flag (b : bool)
| Number (z : Z)
| Bytes (l : list Z)
| Threw (e : state_error).

Section Client.
  Context {DB G : Type} `{Sha3} `{!StateDB DB} `{!StateDBLaws DB} `{!RandomEngine G} `{!UnorderedMaps}.
  Notation st := (State DB G).
  Notation M := (SM st state_error).

(** A client that catches what is thrown; it never sees a crash. *)
Definition answer {A} (f : A -> Answer) (p : result state_error A * st) : option (Answer * st) :=
  match p with
  | (Value x, s) => Some (f x, s)
  | (Error e, s) => Some (Threw e, s)
  | _ => None
  end.
Notation done_ := (fun _ : unit => Done).

Definition call (op : Op) (s : st) : option (Answer * st) :=
  match op with
  | AddressInUse a => answer Flag (addressInUse a s)
  | AccountNonemptyAndExisting a => answer Flag (accountNonemptyAndExisting a s)
  | AddressHasCode a => answer Flag (addressHasCode a s)
  | GetBalance a => answer Number (balance a s)
  | GetNonce a => answer Number (getNonce a s)
  | GetCodeHash a => answer Number (codeHash a s)
  | GetStorage a k => answer Number (storage a k s)
  | GetCode a => answer Bytes (code a s)
  | GetCodeSize a => answer Number (codeSize a s)
  | GetStorageRoot a => answer Number (storageRoot a s)
  | IncNonce a => answer done_ (incNonce a s)
  | SetNonce a n => answer done_ (setNonce a n s)
  | AddBalance a x => answer done_ (addBalance a x s)
  | SubBalance a x => answer done_ (subBalance a x s)
  | SetBalance a x => answer done_ (setBalance a x s)
  | TransferBalance from to x => answer done_ (transferBalance from to x s)
  | SetStorage a k x => answer done_ (setStorage a k x s)
  | SetCode a c => answer done_ (setCode a c s)
  | CreateContract a => answer done_ (createContract a s)
  | ClearStorage a => answer done_ (clearStorage a s)
  | Kill a => answer done_ (kill a s)
  | _ => Some (Done, s)
  end.

(** The client's local variables: its savepoints. *)
Definition client_step (op : Op) (x : st * list Z) : option (Answer * (st * list Z)) :=
  let '(s, sps) := x in
  match op with
  | Savepoint => Some (Done, (s, savepoint s :: sps))
  | Rollback n =>
      match drop n sps with
      | sp :: sps => '(r, s) ← answer done_ (rollback sp s); Some (r, (s, sps))
      | [] => None
      end
  | Keep => match sps with _ :: sps => Some (Done, (s, sps)) | [] => None end
  | _ => '(r, s) ← call op s; Some (r, (s, sps))
  end.

Fixpoint client_run (ops : list Op) (x : st * list Z) : option (list Answer * (st * list Z)) :=
  match ops with
  | [] => Some ([], x)
  | op :: ops =>
      '(r, x) ← client_step op x;
      '(rs, x) ← client_run ops x;
      Some (r :: rs, x)
  end.
End Client.

(** ** The abstract state *)

Record Abs := mkAbs {
  accounts : Z -> option View;
  (** the accounts that were changed since the last commit *)
  touched : gset Z;
  (** those whose storage may have been set since *)
  written : gset Z
}.

(** What does not change between two commits: the nonce of new accounts
    ([m_accountStartNonce]), the roots of the storage that is committed, and codes
    with different hashes, among them those that occur. *)
Record Setting := mkSetting { start : Z; roots : Z -> Z; codes : list (list Z) }.

Section Abstract.
  Context `{Sha3} (fx : Setting).

(** A change of one account that succeeds. *)
Definition change (a : Z) (f : option View -> option View) (σ : Abs) : option (Answer * Abs) :=
  Some (Done, mkAbs (upd_view a f (accounts σ)) ({[a]} ∪ touched σ) (written σ)).
Definition funds (a : Z) (σ : Abs) : Z := from_option v_balance 0 (accounts σ a).
(** The operation is only specified where [b]. *)
Definition only (b : bool) {A} (o : option A) : option A := if b then o else None.
Definition u256b (x : Z) : bool := bool_decide (is_u256 x).

Definition abs_call (op : Op) (σ : Abs) : option (Answer * Abs) :=
  match op with
  | AddressInUse a => Some (Flag (from_option (fun _ => true) false (accounts σ a)), σ)
  | AccountNonemptyAndExisting a => Some (Flag (from_option (fun v => negb (view_empty v)) false (accounts σ a)), σ)
  | AddressHasCode a => Some (Flag (from_option (fun v => negb (v_codeHash v =? EmptySHA3)) false (accounts σ a)), σ)
  | GetBalance a => Some (Number (funds a σ), σ)
  (** the nonce new accounts get, where State.h promises 0 *)
  | GetNonce a => Some (Number (from_option v_nonce (start fx) (accounts σ a)), σ)
  | GetCodeHash a => Some (Number (from_option v_codeHash EmptySHA3 (accounts σ a)), σ)
  | GetStorage a k => Some (Number (from_option (fun v => v_storage v k) 0 (accounts σ a)), σ)
  | GetCode a => Some (Bytes (from_option v_code [] (accounts σ a)), σ)
  (** of an account that was not killed: [Account::kill] leaves its new code *)
  | GetCodeSize a => only (from_option v_alive true (accounts σ a)) (Some (Number (lenZ (from_option v_code [] (accounts σ a))), σ))
  (** what is committed *)
  | GetStorageRoot a => Some (Number (roots fx a), σ)
  | IncNonce a => change a (view_incNonce (start fx)) σ
  | SetNonce a n => change a (view_setNonce n) σ
  | AddBalance a x => only (u256b x) (change a (view_addBalance (start fx) x) σ)
  | SubBalance a x =>
      only (u256b x)
        (if x =? 0 then Some (Done, σ)
         else if funds a σ <? x then Some (Threw NotEnoughCash, σ)
         else change a (view_subBalance x) σ)
  | SetBalance a x => only (u256b x) (change a (view_setBalance (start fx) x) σ)
  | TransferBalance from to x =>
      only (u256b x)
        (if funds from σ <? x then Some (Threw NotEnoughCash, σ)
         else Some (Done, mkAbs (transfer (start fx) from to x (accounts σ))
                (({[to]} : gset Z) ∪ (if x =? 0 then ∅ else {[from]}) ∪ touched σ) (written σ)))
  (** of an account that exists *)
  | SetStorage a k x =>
      only (bool_decide (is_Some (accounts σ a)))
        (Some (Done, mkAbs (upd_view a (view_setStorage k x) (accounts σ)) ({[a]} ∪ touched σ) ({[a]} ∪ written σ)))
  (** of an account already changed: [Account::setCode] does not count as a
      change *)
  | SetCode a c => only (bool_decide (a ∈ touched σ) && bool_decide (c ∈ codes fx)) (change a (view_setCode c) σ)
  (** where there is no account *)
  | CreateContract a => only (bool_decide (accounts σ a = None)) (change a (view_setNonce (start fx)) σ)
  (** of an account already changed: where none is cached a dead one is made *)
  | ClearStorage a => only (bool_decide (a ∈ touched σ)) (change a view_clearStorage σ)
  | Kill a => match accounts σ a with Some _ => change a view_kill σ | None => Some (Done, σ) end
  | _ => None
  end.

(** Whether a rollback undoes the operation.  Where the committed storage of the
    account is empty [clearStorage] does nothing. *)
Definition undoable (op : Op) (σ : Abs) : bool :=
  match op with
  | ClearStorage a => bool_decide (a ∉ written σ) || (from_option v_root EmptyTrie (accounts σ a) =? EmptyTrie)
  | Kill _ => false
  | _ => true
  end.

Definition abs_step (op : Op) (x : Abs * list Abs) : option (Answer * (Abs * list Abs)) :=
  let '(σ, saved) := x in
  match op with
  | Savepoint => Some (Done, (σ, σ :: saved))
  | Rollback n => match drop n saved with σ :: saved => Some (Done, (σ, saved)) | [] => None end
  | Keep => match saved with _ :: saved => Some (Done, (σ, saved)) | [] => None end
  | _ => '(r, σ') ← abs_call op σ; Some (r, (σ', if undoable op σ then saved else []))
  end.

Fixpoint abs_run (ops : list Op) (x : Abs * list Abs) : option (list Answer * (Abs * list Abs)) :=
  match ops with
  | [] => Some ([], x)
  | op :: ops =>
      '(r, x) ← abs_step op x;
      '(rs, x) ← abs_run ops x;
      Some (r :: rs, x)
  end.

(** Every operation of the run can be undone. *)
Fixpoint all_undoable (ops : list Op) (x : Abs * list Abs) : bool :=
  match ops with
  | [] => true
  | op :: ops => undoable op x.1 && match abs_step op x with Some (_, x) => all_undoable ops x | None => true end
  end.
End Abstract.

(** ** The simulation *)

Section Refines.
  Context {DB G : Type} `{Sha3} `{!StateDB DB} `{!StateDBLaws DB} `{!RandomEngine G} `{!UnorderedMaps}.
  Notation st := (State DB G).
  Context (m : trie_map) (fx : Setting).
  Notation the_view := (the_view (DB := DB) (G := G) m).
  Notation same := (same (DB := DB) (G := G) m).
  Notation state_ok := (state_ok (DB := DB) (G := G) m).
  Notation quiet := (quiet (DB := DB) (G := G) m).
  Notation ahead := (ahead (DB := DB) (G := G) m).
  Notation represents := (represents (DB := DB) (G := G) m).

Record rep (s : st) (σ : Abs) : Prop := {
  rep_ok : state_ok s;
  rep_views : represents s (accounts σ);
  rep_touched : forall a, a ∈ touched σ -> dirty s a;
  rep_start : m_accountStartNonce s = start fx
}.

(** The storage that may have been set is for [undoable] only. *)
Lemma rep_written s A T W W' : rep s (mkAbs A T W) -> rep s (mkAbs A T W').
Proof. by intros []; constructor. Qed.

Lemma rep_quiet s s' σ : quiet s s' -> rep s σ -> rep s' σ.
Proof.
  intros Hq []. constructor; [apply Hq|by eapply represents_quiet| |].
  - intros a Ha. eapply dirty_same; [apply Hq|auto].
  - rewrite (sm_nonce _ _ _ (qu_same _ _ _ Hq)). done.
Qed.

Lemma rep_same s s' σ : state_ok s' -> same s s' -> rep s σ -> rep s' σ.
Proof.
  intros Hok Hq []. constructor; [done| | |].
  - intros b. eapply option_view_trans; [apply rep_views0|apply Hq].
  - intros a Ha. eapply dirty_same; [apply Hq|auto].
  - rewrite (sm_nonce _ _ _ Hq). done.
Qed.

(** A step of the client that simulates the abstract one. *)
Definition simulates (s : st) (o : option (Answer * st)) (r : Answer) (σ' : Abs) : Prop :=
  exists s', o = Some (r, s') /\ rep s' σ' /\ ahead s s'.

Lemma simulates_query {A} (q : SM st state_error A) (F : A -> Answer) (g : option View -> A) a s σ (P : A -> st -> Prop) :
  rep s σ -> posts q P (fun _ _ => False) s -> (forall x s', P x s' -> x = g (the_view s a) /\ quiet s s') ->
  (forall u v, option_Forall2 view_eq u v -> g u = g v) -> simulates s (answer F (q s)) (F (g (accounts σ a))) σ.
Proof.
  intros Hrep Hq HP Hg. unfold posts in Hq. destruct (q s) as [[x| | |] s']; try done. destruct (HP _ _ Hq) as [-> Hqu]. exists s'.
  split_and!; [|by eapply rep_quiet|by apply ahead_quiet]. cbn. by rewrite (Hg _ _ (rep_views _ _ Hrep a)).
Qed.

Lemma simulates_change (p : SM st state_error unit) a f s σ W : rep s σ -> respects f -> posts p (op_posts m a f s) (fun _ _ => False) s ->
  simulates s (answer (fun _ => Done) (p s)) Done (mkAbs (upd_view a f (accounts σ)) ({[a]} ∪ touched σ) W).
Proof.
  intros Hrep Hf Hp. unfold posts in Hp. destruct (p s) as [[x| | |] s']; try done. destruct Hp as [[Ha He] Hd]. exists s'.
  split_and!; [done| |done]. constructor; cbn; [apply Ha|by eapply represents_upd; [|apply Hrep|]| |].
  - intros b [->%elem_of_singleton|Hb]%elem_of_union; [done|]. by apply Ha, Hrep.
  - rewrite (ah_nonce _ _ _ Ha). apply Hrep.
Qed.

Lemma rep_funds s σ a : rep s σ -> funds a σ = from_option v_balance 0 (the_view s a).
Proof. intros Hr. unfold funds. by destruct (rep_views _ _ Hr a) as [? ? []|]. Qed.

Lemma rep_exists s σ a : rep s σ -> is_Some (accounts σ a) -> is_Some (the_view s a).
Proof. intros Hr [v Hv]. pose proof (rep_views _ _ Hr a) as Hx. rewrite Hv in Hx. inversion Hx. by eexists. Qed.

(** The queries, each by its lemma and the function of the view it answers. *)
Ltac query_tac Hrep F g a L :=
  eapply (simulates_query _ F g a); [exact Hrep|apply L, Hrep|
    let H' := fresh in intros ? ? H'; first [exact H'|destruct H' as (? & ? & ?); by split]|
    let x := fresh in let y := fresh in intros ? ? [x y []|]; cbn; unfold view_empty; congruence].

Lemma query_refines op s σ r σ' : rep s σ -> abs_call fx op σ = Some (r, σ') ->
  match op with
  | AddressInUse _ | AccountNonemptyAndExisting _ | AddressHasCode _ | GetBalance _ | GetNonce _ | GetCodeHash _ | GetStorage _ _
  | GetCode _ => simulates s (call op s) r σ'
  | _ => True
  end.
Proof.
  intros Hrep Hcall. pose proof (rep_start _ _ Hrep) as Hst. destruct op; try done; injection Hcall as <- <-; cbn [call].
  - query_tac Hrep Flag (from_option (fun _ : View => true) false) a (addressInUse_posts m a s).
  - query_tac Hrep Flag (from_option (fun v => negb (view_empty v)) false) a (accountNonemptyAndExisting_posts m a s).
  - query_tac Hrep Flag (from_option (fun v => negb (v_codeHash v =? EmptySHA3)) false) a (addressHasCode_posts m a s).
  - query_tac Hrep Number (from_option v_balance 0) a (balance_posts m a s).
  - rewrite <- Hst. query_tac Hrep Number (from_option v_nonce (m_accountStartNonce s)) a (getNonce_posts m a s).
  - query_tac Hrep Number (from_option v_codeHash EmptySHA3) a (codeHash_posts m a s).
  - query_tac Hrep Number (from_option (fun v => v_storage v k) 0) a (storage_posts m a k s).
  - query_tac Hrep Bytes (from_option v_code []) a (code_posts m a s).
Qed.

Lemma respects_setBalance n x : respects (view_setBalance n x).
Proof.
  intros u v Huv. unfold view_setBalance. assert (from_option v_balance 0 u = from_option v_balance 0 v) as -> by (by destruct Huv as [? ? []|]).
  by apply respects_addBalance.
Qed.

Lemma subBalance_refines a x s σ r σ' : rep s σ -> abs_call fx (SubBalance a x) σ = Some (r, σ') -> simulates s (call (SubBalance a x) s) r σ'.
Proof.
  intros Hrep Hcall. cbn [abs_call] in Hcall. unfold only, u256b in Hcall. case_bool_decide as Hx; [|done]. cbn [call].
  destruct (Z.eqb_spec x 0) as [->|Hne].
  - injection Hcall as <- <-. exists s. split_and!; [done|done|apply ahead_refl, Hrep].
  - rewrite (rep_funds s σ a Hrep) in Hcall. pose proof (subBalance_posts m a x s ltac:(lia) (rep_ok _ _ Hrep)) as Hp. unfold posts in Hp.
    destruct (Z.ltb_spec (from_option v_balance 0 (the_view s a)) x) as [Hlt|Hle].
    + injection Hcall as <- <-. destruct (subBalance a x s) as [[u|e| |] s']; [lia| |done..]. destruct Hp as (-> & _ & Hq).
      exists s'. split_and!; [done|by eapply rep_quiet|by apply ahead_quiet].
    + injection Hcall as <- <-. apply simulates_change; [done|apply respects_addBalance|].
      unfold posts. destruct (subBalance a x s) as [[u|e| |] s']; [apply Hp|lia|done..].
Qed.

Lemma transfer_refines from to x s σ r σ' : rep s σ -> abs_call fx (TransferBalance from to x) σ = Some (r, σ') ->
  simulates s (call (TransferBalance from to x) s) r σ'.
Proof.
  intros Hrep Hcall. cbn [abs_call] in Hcall. unfold only, u256b in Hcall. case_bool_decide as Hx; [|done]. cbn [call].
  rewrite (rep_funds s σ from Hrep) in Hcall.
  pose proof (transferBalance_posts m from to x s (accounts σ) Hx (rep_ok _ _ Hrep) (rep_views _ _ Hrep)) as Hp. unfold posts in Hp.
  rewrite (rep_start _ _ Hrep) in Hp. destruct (transferBalance from to x s) as [[u|e| |] s']; [| |done..].
  - destruct Hp as (Hle & Ha & Hr & Hd & Hd'). destruct (Z.ltb_spec (from_option v_balance 0 (the_view s from)) x); [lia|].
    injection Hcall as <- <-. exists s'. split_and!; [done| |done]. constructor; [apply Ha|exact Hr| |by rewrite (ah_nonce _ _ _ Ha), (rep_start _ _ Hrep)].
    cbn. intros b Hb. apply elem_of_union in Hb as [Hb|Hb]; [|by apply Ha, Hrep]. destruct (Z.eqb_spec x 0); set_solver.
  - destruct Hp as (-> & Hlt & Hq). destruct (Z.ltb_spec (from_option v_balance 0 (the_view s from)) x); [|lia].
    injection Hcall as <- <-. exists s'. split_and!; [done|by eapply rep_quiet|by apply ahead_quiet].
Qed.

(** The operations that only move ahead and leave the code sizes alone. *)
Definition plain (op : Op) : bool :=
  match op with GetCodeSize _ | GetStorageRoot _ | ClearStorage _ | Kill _ => false | _ => true end.

Lemma plain_refines op s σ r σ' : plain op = true -> rep s σ -> abs_call fx op σ = Some (r, σ') -> simulates s (call op s) r σ'.
Proof.
  intros Hp Hrep Hcall. pose proof (query_refines op s σ r σ' Hrep Hcall) as Hq. pose proof (rep_start _ _ Hrep) as Hst.
  pose proof (rep_ok _ _ Hrep) as Hok.
  destruct op; try exact Hq; try discriminate; clear Hq Hp; try (by eapply subBalance_refines); try (by eapply transfer_refines);
    cbn [abs_call] in Hcall; unfold only, u256b, change in Hcall;
    try (match type of Hcall with (if ?b then _ else _) = _ => destruct b eqn:Hx; [|done] end); injection Hcall as <- <-; cbn [call];
    apply simulates_change; auto using respects_incNonce, respects_setNonce, respects_addBalance, respects_setBalance, respects_setStorage, respects_setCode;
    try rewrite <- Hst; try (apply bool_decide_eq_true in Hx).
  - by apply incNonce_posts.
  - by apply setNonce_posts.
  - by apply addBalance_posts.
  - by apply setBalance_posts.
  - apply setStorage_posts; [done|]. by eapply rep_exists.
  - apply andb_true_iff in Hx as [Hx%bool_decide_eq_true _]. apply setCode_posts; [done|]. by apply Hrep.
  - apply createContract_posts; [done|]. pose proof (rep_views _ _ Hrep a) as Hv. rewrite Hx in Hv. by inversion Hv.
Qed.

(** ** The codes that occur *)

Definition new_code_ok (acc : Account) : Prop := m_hasNewCode acc = true -> m_codeCache acc ∈ codes fx.
Definition change_ok (c : Change) : Prop := match c with Code _ code => code ∈ codes fx | _ => True end.
Record code_inv (s : st) : Prop := {
  ci_sizes : map_Forall (fun h n => exists c, c ∈ codes fx /\ sha3 c = h /\ lenZ c = n) (codeSizeCache s);
  ci_cache : map_Forall (fun _ acc => new_code_ok acc) (m_cache s);
  ci_log : Forall change_ok (m_changeLog s)
}.
Definition knows {A} (p : SM st state_error A) : Prop := forall s, code_inv s -> code_inv (snd (p s)).

Lemma knows_bind {A B} (p : SM st state_error A) (f : A -> SM st state_error B) : knows p -> (forall x, knows (f x)) -> knows (x <- p ;; f x).
Proof. intros Hp Hf s Hs. specialize (Hp s Hs). unfold sbind. destruct (p s) as [[] s1]; try done. by apply Hf. Qed.
Lemma knows_ret {A} (x : A) : knows (sret x).
Proof. by intros s. Qed.
Lemma knows_get : knows sget.
Proof. by intros s. Qed.
Lemma knows_throw {A} e : knows (A := A) (sthrow e).
Proof. by intros s. Qed.
Lemma knows_lift {A} (r : result state_error A) : knows (slift r).
Proof. by intros s. Qed.
Lemma knows_mod f : (forall s, code_inv s -> code_inv (f s)) -> knows (smod f).
Proof. intros Hf s. apply Hf. Qed.

Lemma inv_cache (c : gmap Z Account) s : code_inv s -> map_Forall (fun _ acc => new_code_ok acc) c -> code_inv (set_cache c s).
Proof. by intros [] Hc; constructor. Qed.
Lemma inv_insert a acc s : code_inv s -> new_code_ok acc -> code_inv (set_cache (<[a := acc]> (m_cache s)) s).
Proof. intros Hs Ha. apply inv_cache; [done|]. apply map_Forall_insert_2; [done|apply Hs]. Qed.

Lemma knows_update a f : (forall acc, new_code_ok acc -> new_code_ok (f acc)) -> knows (update_account a f).
Proof.
  intros Hf. apply knows_mod. intros s Hs. apply inv_cache; [done|]. intros b acc. rewrite lookup_alter_Some.
  intros [(<- & acc0 & Hc & ->)|[_ Hc]]; [apply Hf|]; by eapply (ci_cache _ Hs).
Qed.
Lemma knows_update_at a f : (forall acc, new_code_ok acc -> new_code_ok (f acc)) -> knows (update_at a f).
Proof.
  intros Hf. apply knows_mod. intros s Hs. apply inv_insert; [done|]. apply Hf. unfold cache_at. destruct (m_cache s !! a) as [acc|] eqn:Hc; [|done].
  by eapply (ci_cache _ Hs).
Qed.
Lemma knows_log c : change_ok c -> knows (log_change c).
Proof. intros Hc. apply knows_mod. intros s []. constructor; try done. by constructor. Qed.
Lemma knows_create a acc : new_code_ok acc -> knows (createAccount a acc).
Proof.
  intros Ha. apply knows_bind; [apply knows_mod; intros s Hs; by apply inv_insert|intros _]. apply knows_bind; [apply knows_mod; intros s []; by constructor|].
  intros _. by apply knows_log.
Qed.

Lemma knows_evict fuel s : code_inv s -> code_inv (evict_loop fuel s).
Proof.
  revert s. induction fuel as [|fuel IH]; intros s Hs; cbn [evict_loop]; [done|]. destruct (_ <? _); [|done]. apply IH. unfold evict_one.
  destruct (uniform _ _) as [i g]. destruct Hs. constructor; try done. cbn. repeat case_match; try done. by apply map_Forall_delete.
Qed.

Lemma decode_old_code e acc : decode_account e = Value acc -> m_hasNewCode acc = false.
Proof. unfold decode_account. intros Hd. result_inv. by subst acc. Qed.

Lemma knows_account a : knows (account a).
Proof.
  unfold account. apply knows_bind; [apply knows_get|]. intros s0. destruct (m_cache s0 !! a); [apply knows_ret|]. case_bool_decide; [apply knows_ret|].
  apply knows_bind; [apply knows_lift|]. intros e. destruct (lenZ e =? 0).
  - apply knows_bind; [apply knows_mod; intros s []; by constructor|]. intros _. apply knows_ret.
  - apply knows_bind; [apply knows_mod; intros s; apply knows_evict|]. intros _ s Hs. unfold sbind, slift. destruct (decode_account e) as [acc| | |] eqn:Hd; try done.
    apply decode_old_code in Hd. assert (new_code_ok acc) as Ha by (intros ?; congruence). cbn [of_rlp]. unfold smod, sret. cbn [snd].
    pose proof (inv_insert a acc s Hs Ha) as []. by constructor.
Qed.

(** The operations that do not look at code. *)
Ltac keep_tac := repeat match goal with
  | |- knows (sbind _ _) => apply knows_bind; [|intros ?]
  | |- knows (account _) => apply knows_account
  | |- knows (sret _) => apply knows_ret
  | |- knows sget => apply knows_get
  | |- knows (sthrow _) => apply knows_throw
  | |- knows (slift _) => apply knows_lift
  | |- knows (createAccount _ _) => apply knows_create; done
  | |- knows (log_change _) => apply knows_log; exact I
  | |- knows (update_account _ _) => apply knows_update; done
  | |- knows (update_at _ _) => apply knows_update_at; done
  | |- knows (smod _) => apply knows_mod; intros ? []; constructor; done
  | |- knows (let _ := _ in _) => cbv zeta
  | |- knows (match ?x with _ => _ end) => destruct x
  end.

Lemma knows_requireStart : knows requireAccountStartNonce.
Proof. unfold requireAccountStartNonce. keep_tac. Qed.
Lemma knows_addBalance a x : knows (State.addBalance a x).
Proof.
  unfold State.addBalance. apply knows_bind; [apply knows_account|intros [acc|]; (apply knows_bind; [|intros _; keep_tac])].
  - keep_tac.
  - apply knows_bind; [apply knows_requireStart|intros n]. keep_tac.
Qed.
Lemma knows_subBalance a x : knows (subBalance a x).
Proof. unfold subBalance. keep_tac. apply knows_addBalance. Qed.
Lemma knows_storage a k : knows (storage a k).
Proof. unfold storage. keep_tac. Qed.
Lemma knows_storageRoot a : knows (storageRoot a).
Proof. unfold storageRoot. keep_tac. Qed.

Lemma answer_keeps {A} (f : A -> Answer) (p : SM st state_error A) s r s' : knows p -> code_inv s -> answer f (p s) = Some (r, s') -> code_inv s'.
Proof. intros Hp Hs. specialize (Hp s Hs). unfold answer. destruct (p s) as [[] s1]; try done; by intros [= _ <-]. Qed.

Lemma knows_call op s r s' : match op with GetCode _ | GetCodeSize _ | SetCode _ _ => False | _ => True end -> code_inv s -> call op s = Some (r, s') -> code_inv s'.
Proof.
  intros Hop Hs. destruct op; try done; cbn [call]; try (by intros [= _ <-]); apply answer_keeps; try done.
  - unfold addressInUse. keep_tac.
  - unfold accountNonemptyAndExisting. keep_tac.
  - unfold addressHasCode. keep_tac.
  - unfold balance. keep_tac.
  - unfold getNonce. keep_tac.
  - unfold codeHash. keep_tac.
  - apply knows_storage.
  - apply knows_storageRoot.
  - unfold incNonce. keep_tac. apply knows_requireStart.
  - unfold setNonce. keep_tac.
  - apply knows_addBalance.
  - apply knows_subBalance.
  - unfold setBalance. keep_tac; apply knows_addBalance.
  - unfold transferBalance. keep_tac; [apply knows_subBalance|apply knows_addBalance].
  - unfold setStorage. keep_tac. apply knows_storage.
  - unfold createContract. keep_tac. apply knows_requireStart.
  - unfold clearStorage. keep_tac.
  - unfold kill. keep_tac.
Qed.

Lemma knows_undo c : change_ok c -> knows (undo c).
Proof.
  intros Hc. unfold undo. apply knows_bind; [by apply knows_update_at|]. intros _. destruct c; keep_tac.
  - apply knows_mod. intros s Hs. apply inv_cache; [done|]. apply map_Forall_delete, Hs.
  - apply knows_update_at. by intros acc _ _.
Qed.

Lemma knows_rollback sp : knows (rollback sp).
Proof.
  intros s Hs. unfold rollback, sbind, sget. pose proof (ci_log _ Hs) as Hl. revert s Hs Hl. 
  assert (forall log, Forall change_ok log -> knows (rollback_loop log sp)) as Hall; [|intros s Hs Hl; by apply Hall].
  induction 1 as [|c log Hc Hl IH]; cbn [rollback_loop]; (destruct (sp =? _); [apply knows_ret|]); [apply knows_lift|].
  apply knows_bind; [by apply knows_undo|]. intros _. apply knows_bind; [|done]. apply knows_mod. intros s []. by constructor.
Qed.

Lemma posts_keeps {A} (p : SM st state_error A) P s : posts p P (fun _ _ => False) s -> knows p -> code_inv s ->
  posts p (fun x s' => P x s' /\ code_inv s') (fun _ _ => False) s.
Proof. intros Hp Hk Hs. specialize (Hk s Hs). unfold posts in *. by destruct (p s) as [[] s']. Qed.

Lemma knows_sizes h n s : code_inv s -> (exists c, c ∈ codes fx /\ sha3 c = h /\ lenZ c = n) -> code_inv (snd (codeSizes_store h n s)).
Proof.
  intros [] Hc. unfold codeSizes_store, smod. cbn [snd].
  assert (forall c, map_Forall (fun h n => exists c, c ∈ codes fx /\ sha3 c = h /\ lenZ c = n) c -> forall g, code_inv (set_codeSizes (<[h := n]> c) g s)) as Hall.
  { intros c Hall g. constructor; try done. cbn. by apply map_Forall_insert_2. }
  destruct (_ <=? _); [|by apply Hall]. destruct (random_h256 _) as [k g]. apply Hall. destruct (random_key _ _); [by apply map_Forall_delete|done].
Qed.

Lemma code_keeps a s : state_ok s -> (forall v, the_view s a = Some v -> v_code v ∈ codes fx) -> code_inv s -> code_inv (snd (code a s)).
Proof.
  intros Hs Hv Hi. enough (posts (code a) (fun _ s' => code_inv s') (fun _ _ => False) s) as Hp by (unfold posts in Hp; by destruct (code a s) as [[] s']).
  unfold code. eapply posts_bind; [apply posts_keeps; [by apply (account_posts m)|apply knows_account|done]|]. intros r s1 [Hl Hi1].
  pose proof (loaded_answer m _ _ _ _ Hl) as Ha. destruct Hl as [Hq Hc _].
  destruct r as [acc|]; [|done]. inversion Ha as [v v' Hve Hx Hy|]; subst. assert (code_of (m_db s1) acc ∈ codes fx) as Hin.
  { rewrite <- (ve_code _ _ Hve : v_code v = code_of (m_db s1) acc). by apply Hv. }
  pose proof (ao_code _ _ (ok_cache _ s1 (qu_ok _ _ _ Hq) a acc Hc)) as Hsha. unfold code_of in *.
  destruct (m_codeHash acc =? EmptySHA3); [done|]. destruct (lenZ (m_codeCache acc) =? 0); [|done].
  set (c := lookup_code (m_db s1) (m_codeHash acc)) in *. unfold posts, sbind, sget. cbv zeta. fold c. unfold update_account at 1, smod at 1.
  assert (code_inv (set_cache (alter (noteCode c) a (m_cache s1)) s1)) as Hi2.
  { rewrite (alter_insert_eq_gen s1 a acc) by done. apply inv_insert; [done|]. by intros _. }
  pose proof (knows_sizes (m_codeHash acc) (lenZ c) _ Hi2) as Hk. destruct (codeSizes_store _ _ _) as [[] s2] eqn:E; try (by injection E); [|by unfold codeSizes_store, smod in E..].
  apply Hk. by exists c.
Qed.

(** No two of the codes have the same hash, and the empty code is one of them. *)
Record codes_apart : Prop := {
  ca_nil : [] ∈ codes fx;
  ca_inj : forall c c', c ∈ codes fx -> c' ∈ codes fx -> sha3 c = sha3 c' -> c = c'
}.

Lemma codeSize_posts' a s : codes_apart -> state_ok s -> (forall v, the_view s a = Some v -> v_alive v = true /\ v_code v ∈ codes fx) -> code_inv s ->
  posts (codeSize a) (fun n s' => n = lenZ (from_option v_code [] (the_view s a)) /\ quiet s s' /\ code_inv s') (fun _ _ => False) s.
Proof.
  intros [_ Hinj] Hs Hv Hi. unfold codeSize. eapply posts_bind; [apply posts_keeps; [by apply (account_posts m)|apply knows_account|done]|]. intros r s1 [Hl Hi1].
  pose proof (loaded_answer m _ _ _ _ Hl) as Ha. destruct Hl as [Hq Hc _].
  destruct r as [acc|]; inversion Ha as [v v' Hve Hx Hy|Hx Hy]; subst; cbn [from_option]; [|done].
  destruct (Hv v (eq_sym Hx)) as [Hal Hin]. pose proof (ok_cache _ s1 (qu_ok _ _ _ Hq) a acc Hc) as [_ Hsha _ Hnew _].
  rewrite (ve_alive _ _ Hve) in Hal. rewrite <- (ve_code _ _ Hve : v_code v = code_of (m_db s1) acc) in Hsha.
  destruct (m_hasNewCode acc) eqn:Hn.
  { apply posts_ret. split_and!; [|done|done]. rewrite (Hinj (m_codeCache acc) (v_code v)); [done| |done|by rewrite Hsha, Hnew].
    by apply (ci_cache _ Hi1 a acc Hc). }
  eapply (posts_bind _ _ _ (fun x y => x = s1 /\ y = s1)); [done|]. intros x y [-> ->].
  destruct (codeSizeCache s1 !! m_codeHash acc) as [n|] eqn:Hsz.
  { apply posts_ret. split_and!; [|done|done]. destruct (ci_sizes _ Hi1 _ _ Hsz) as (c & Hcin & Hch & <-). by rewrite (Hinj c (v_code v)) by congruence. }
  assert (from_option v_code [] (the_view s1 a) = v_code v) as Hv1.
  { pose proof (sm_view _ _ _ (qu_same _ _ _ Hq) a) as Hx1. rewrite <- Hx in Hx1. inversion Hx1 as [? w Hw E1 E2|]; subst. cbn. symmetry. apply Hw. }
  assert (forall v1, the_view s1 a = Some v1 -> v_code v1 ∈ codes fx) as Hin1 by (intros v1 E1; rewrite E1 in Hv1; cbn in Hv1; by rewrite Hv1).
  eapply (posts_bind _ _ _ (fun c s2 => c = v_code v /\ quiet s s2 /\ code_inv s2)).
  { pose proof (code_posts m a s1 (qu_ok _ _ _ Hq)) as Hp. pose proof (code_keeps a s1 (qu_ok _ _ _ Hq) Hin1 Hi1) as Hk. unfold posts in *.
    destruct (code a s1) as [[] s2]; try done. destruct Hp as (-> & Hq2 & _). split_and!; [done|by eapply quiet_trans|done]. }
  intros c s2 (-> & Hq2 & Hi2). pose proof (codeSizes_quiet m (m_codeHash acc) (lenZ (v_code v)) s2 (qu_ok _ _ _ Hq2)) as Hp.
  pose proof (knows_sizes (m_codeHash acc) (lenZ (v_code v)) s2 Hi2) as Hk. unfold posts, sbind in *. destruct (codeSizes_store _ _ s2) as [[] s3]; try done.
  split_and!; [done|eapply quiet_trans; [exact Hq2|apply Hp]|]. apply Hk. by exists (v_code v).
Qed.

(** ** Clearing and killing *)

(** [clearStorage] in general: its effect, whether or not it can be undone. *)
Lemma clearStorage_effect a acc s : state_ok s -> m_cache s !! a = Some acc -> isDirty acc = true ->
  posts (clearStorage a) (fun _ s' => state_ok s' /\ effect m s s' a view_clearStorage /\ (forall b, dirty s b -> dirty s' b) /\
    db_le (m_db s) (m_db s') /\ m_accountStartNonce s' = m_accountStartNonce s) (fun _ _ => False) s.
Proof.
  intros Hs Hc Hd. pose proof (ok_cache _ _ Hs a acc Hc) as Hok. unfold clearStorage, posts, sbind, sget. unfold update_at at 1, smod at 1. cbv zeta.
  assert (cache_at a s = acc) as -> by (unfold cache_at; by rewrite Hc). rewrite (insert_id _ _ _ Hc).
  assert (quiet s (set_cache (m_cache s) s)) as Hq by (apply (quiet_frame m); try done; apply Hs). set (s1 := set_cache _ s) in *.
  assert (m_cache s1 !! a = Some acc) as Hc1 by done. assert (cache_at a s1 = acc) as -> by (unfold cache_at; by rewrite Hc1).
  pose proof (qu_ok _ _ _ Hq) as Hs1. destruct (Z.eqb_spec (m_storageRoot acc) EmptyTrie) as [He|He]; cbn [sret].
  { split_and!; [exact Hs1| |done|apply db_le_refl|done]. intros b. destruct (decide (a = b)) as [<-|]; [|apply option_view_refl].
    rewrite (the_view_cached m s a acc Hc), (the_view_cached m s1 a acc Hc1). cbn. rewrite He, Z.eqb_refl. by constructor. }
  change (match (log_change (StorageRoot a (m_storageRoot acc)) ;; update_at a Account.clearStorage) s1 with
    | (Value _, s') => state_ok s' /\ effect m s s' a view_clearStorage /\ (forall b, dirty s b -> dirty s' b) /\
        db_le (m_db s) (m_db s') /\ m_accountStartNonce s' = m_accountStartNonce s | _ => False end).
  rewrite (update_at_cached s1 a acc) by done. set (acc' := Account.clearStorage acc).
  pose proof (logged_updates m s1 a acc acc' (StorageRoot a (m_storageRoot acc)) Hs1 Hc1) as Hu.
  assert (account_ok (m_db s1) acc') as Hok' by (destruct Hok; constructor; [by left|done..]).
  split_and!; [by eapply updates_ok| | |apply db_le_refl|done].
  - eapply effect_quiet; [apply respects_clearStorage|exact Hq|]. eapply updates_effect; [exact Hu|]. rewrite (the_view_cached m s1 a acc Hc1). cbn.
    destruct (Z.eqb_spec (m_storageRoot acc) EmptyTrie); [done|]. constructor. constructor; try done. intros k. cbn. unfold storage_of. cbn.
    rewrite lookup_empty. unfold stored. by rewrite Z.eqb_refl.
  - intros b Hb. apply (updates_dirty _ _ _ _ b Hu). by case_decide.
Qed.

Lemma kill_keeps a s : state_ok s -> posts (kill a) (fun _ s' => db_le (m_db s) (m_db s') /\ (forall b, dirty s b -> dirty s' b) /\
  (is_Some (the_view s a) -> dirty s' a)) (fun _ _ => False) s.
Proof.
  intros Hs. unfold kill. eapply posts_bind; [by apply (account_posts m)|]. intros r s1 Hl. pose proof (loaded_answer m _ _ _ _ Hl) as Hv.
  destruct Hl as [[_ [Hdb _ _ _ Hd] _] Hc _]. destruct r as [acc|].
  - unfold posts, update_account, smod. rewrite (alter_insert_eq_gen s1 a acc) by done. split_and!; [done| |].
    + intros b Hb%Hd. unfold dirty in *. cbn. destruct (decide (a = b)) as [<-|]; [by rewrite lookup_insert_eq|by rewrite lookup_insert_ne].
    + intros _. unfold dirty. cbn. by rewrite lookup_insert_eq.
  - apply posts_ret. split_and!; [done|done|]. intros [v E]. rewrite E in Hv. inversion Hv.
Qed.

(** ** The accounts of the abstract state *)

(** Only codes that occur, and storage that is not the committed one only where
    it was written. *)
Definition good (db : DB) (w : Prop) (v : View) : Prop :=
  v_code v ∈ codes fx /\ (w \/ forall k, v_storage v k = stored db (v_root v) k).
Definition all_good (db : DB) (σ : Abs) : Prop := forall a v, accounts σ a = Some v -> good db (a ∈ written σ) v.
Definition tame (f : option View -> option View) : Prop := forall db w o, (forall v, o = Some v -> good db w v) -> forall v, f o = Some v -> good db w v.

Lemma stored_empty db k : stored db EmptyTrie k = 0.
Proof. unfold stored. by rewrite Z.eqb_refl. Qed.

Lemma good_le db db' σ s : state_ok s -> represents s (accounts σ) -> m_db s = db -> db_le db db' -> all_good db σ -> all_good db' σ.
Proof.
  intros Hs Hr <- Hle Hg a v Hv. destruct (Hg a v Hv) as [Hc Hst]. split; [done|]. destruct Hst as [|Hst]; [by left|right]. intros k. rewrite (Hst k).
  specialize (Hr a). rewrite Hv in Hr. inversion Hr as [? w Hvw E1 E2|]; subst. unfold StateSpec.the_view in E2.
  destruct (StateSpec.the_account m s a) as [acc|] eqn:Ha; [|done]. injection E2 as E2. subst w. rewrite (ve_root _ _ Hvw). cbn.
  symmetry. eapply stored_le; [exact Hle|]. by eapply the_account_ok.
Qed.

Section Tame.
  Context (Hca : codes_apart).

Lemma tame_new db w n b : good db w (new_view n b).
Proof. split; [apply Hca|right]. intros k. cbn. by rewrite stored_empty. Qed.
Lemma tame_addBalance n x : tame (view_addBalance n x).
Proof. intros db w [v|] Hv u; cbn; intros [= <-]; [exact (Hv v eq_refl)|apply tame_new]. Qed.
Lemma tame_setNonce n : tame (view_setNonce n).
Proof. intros db w [v|] Hv u; cbn; intros [= <-]; [exact (Hv v eq_refl)|apply tame_new]. Qed.
Lemma tame_incNonce n : tame (view_incNonce n).
Proof. intros db w o Ho v. apply (tame_setNonce _ db w o Ho). Qed.
Lemma tame_setBalance n x : tame (view_setBalance n x).
Proof. intros db w o Ho v. apply (tame_addBalance _ _ db w o Ho). Qed.
Lemma tame_setCode c : c ∈ codes fx -> tame (view_setCode c).
Proof. intros Hc db w [v|] Hv u; cbn; [|done]. intros [= <-]. destruct (Hv v eq_refl) as [_ Hst]. split; [|exact Hst]. cbn. destruct (_ =? _); [apply Hca|done]. Qed.
Lemma tame_clearStorage : tame view_clearStorage.
Proof.
  intros db w [v|] Hv u; cbn; [|done]. destruct (_ =? _); intros [= <-]; [exact (Hv v eq_refl)|]. split; [apply (Hv v eq_refl)|right].
  intros k. cbn. by rewrite stored_empty.
Qed.
Lemma tame_kill : tame view_kill.
Proof. intros db w [v|] Hv u; cbn; [|done]. intros [= <-]. split; [apply Hca|right]. intros k. cbn. by rewrite stored_empty. Qed.

Lemma good_upd db a f A T T' W : tame f -> all_good db (mkAbs A T W) -> all_good db (mkAbs (upd_view a f A) T' W).
Proof.
  intros Hf Hg b v. cbn. unfold upd_view. destruct (decide (a = b)) as [<-|]; [|apply (Hg b)]. apply Hf. intros u Hu. exact (Hg a u Hu).
Qed.

Lemma abs_call_good op σ r σ' db : abs_call fx op σ = Some (r, σ') -> all_good db σ -> all_good db σ'.
Proof.
  intros Hcall Hg. destruct σ as [A T W]. destruct op; cbn [abs_call accounts touched written] in Hcall; unfold only, change in Hcall; cbn [accounts touched written] in Hcall;
    repeat match type of Hcall with (if ?b then _ else _) = _ => destruct b eqn:?; [|try discriminate] | (match ?x with _ => _ end) = _ => destruct x eqn:? end;
    try discriminate; try (injection Hcall as <- <-); try done;
    try (apply (good_upd db _ _ A T _ W); [|done];
      first [apply tame_addBalance|apply tame_setBalance|apply tame_incNonce|apply tame_setNonce|apply tame_clearStorage|apply tame_kill|idtac]).
  - unfold transfer. cbn. apply (good_upd db _ _ _ T); [apply tame_addBalance|]. destruct (x =? 0); [done|].
    apply (good_upd db _ _ A T _ W); [apply tame_addBalance|done].
  - intros b v. cbn. unfold upd_view. destruct (decide (a = b)) as [<-|Hne].
    + destruct (A a) as [u|] eqn:Hu; [|done]. cbn. intros [= <-]. split; [apply (Hg a u Hu)|left; set_solver].
    + intros Hv. destruct (Hg b v Hv) as [Hc Hst]. split; [done|]. destruct Hst as [Hin|]; [left; cbn in *; set_solver|by right].
  - apply tame_setCode. apply andb_true_iff in Heqb as [_ Hin]. by apply bool_decide_eq_true in Hin.
Qed.
End Tame.

(** ** One call *)

Lemma undoes_db cs (s' s : st) : undoes m cs s' s -> db_le (m_db s) (m_db s').
Proof.
  induction 1 as [s' s Hs|c cs s' s Hd _ _ IH]; [apply Hs|]. destruct (dirty_Some s' _ Hd) as (acc & Ha & _).
  destruct (undo_spec c s' acc Ha) as [_ Hw]. by rewrite <- (wc_db _ _ _ Hw).
Qed.
Lemma ahead_db s s' : ahead s s' -> db_le (m_db s) (m_db s').
Proof. intros [_ _ _ _ (cs & _ & Hu)]. by eapply undoes_db. Qed.

Section Calls.
  Context (Hca : codes_apart) (Hroots : forall a, roots fx a = committed_root m a).

(** The state is one of these accounts, and what occurs in it is known. *)
Record full (s : st) (σ : Abs) : Prop := {
  fu_rep : rep s σ;
  fu_inv : code_inv s;
  fu_good : all_good (m_db s) σ
}.

Lemma full_view s σ a v : full s σ -> the_view s a = Some v -> exists u, accounts σ a = Some u /\ view_eq u v /\ v_code v ∈ codes fx.
Proof.
  intros [Hr _ Hg] Hv. pose proof (rep_views _ _ Hr a) as Hx. rewrite Hv in Hx. inversion Hx as [u w Huv E1 E2|]; subst. exists u.
  split_and!; [done|done|]. rewrite <- (ve_code _ _ Huv). by apply (Hg a u).
Qed.

Lemma full_next op s s' σ r σ' : full s σ -> abs_call fx op σ = Some (r, σ') -> db_le (m_db s) (m_db s') -> rep s' σ' -> code_inv s' -> full s' σ'.
Proof.
  intros [Hr _ Hg] Hcall Hle Hr' Hi. constructor; [done|done|]. eapply abs_call_good; [done|exact Hcall|]. eapply good_le; [apply Hr..|done|exact Hle|done].
Qed.

Lemma setCode_keeps a c s : state_ok s -> (forall v, the_view s a = Some v -> v_code v ∈ codes fx) -> c ∈ codes fx -> code_inv s ->
  code_inv (snd (setCode a c s)).
Proof.
  intros Hs Hv Hc Hi. pose proof (code_posts m a s Hs) as Hp. pose proof (code_keeps a s Hs Hv Hi) as Hk. unfold setCode.
  unfold sbind at 1. unfold posts in Hp. destruct (code a s) as [[old| | |] s1]; try done. destruct Hp as (-> & _ & _).
  assert (knows (log_change (Code a (from_option v_code [] (the_view s a))) ;; update_at a (Account.setCode c))) as Hkk; [|by apply Hkk].
  apply knows_bind; [apply knows_log|intros _; apply knows_update_at; intros acc _ _; exact Hc]. destruct (the_view s a) as [v|]; [by apply Hv|apply Hca].
Qed.

Lemma call_inv op s σ r σ' s' : full s σ -> abs_call fx op σ = Some (r, σ') -> call op s = Some (r, s') ->
  match op with GetCodeSize _ => False | _ => True end -> code_inv s'.
Proof.
  intros Hf Hcall Hs' Hne. assert (forall a v, the_view s a = Some v -> v_code v ∈ codes fx) as Hv.
  { intros a v Hv. by destruct (full_view s σ a v Hf Hv) as (_ & _ & _ & ?). }
  pose proof (rep_ok _ _ (fu_rep _ _ Hf)) as Hok. pose proof (fu_inv _ _ Hf) as Hi.
  destruct op; try (eapply (knows_call _ s r s'); [|exact Hi|exact Hs']; done); try done; cbn [call] in Hs'.
  - pose proof (code_keeps a s Hok (Hv a) Hi) as Hk. unfold answer in Hs'. destruct (code a s) as [[] ?]; try done; by injection Hs' as _ <-.
  - cbn [abs_call] in Hcall. unfold only in Hcall. destruct (bool_decide (a ∈ touched σ)); [|done]. destruct (bool_decide (c ∈ codes fx)) eqn:Hc; [|done].
    apply bool_decide_eq_true in Hc. pose proof (setCode_keeps a c s Hok (Hv a) Hc Hi) as Hk. unfold answer in Hs'.
    destruct (setCode a c s) as [[] ?]; try done; by injection Hs' as _ <-.
Qed.

(** What a call does: the answer and the accounts of the abstract state, and
    what came before can be had back if the operation can be undone. *)
Definition refined (op : Op) (s : st) (σ : Abs) (r : Answer) (σ' : Abs) : Prop :=
  exists s', call op s = Some (r, s') /\ full s' σ' /\ (undoable op σ = true -> ahead s s').

Lemma refined_simulates op s σ r σ' : plain op = true -> full s σ -> abs_call fx op σ = Some (r, σ') -> refined op s σ r σ'.
Proof.
  intros Hp Hf Hcall. destruct (plain_refines op s σ r σ' Hp (fu_rep _ _ Hf) Hcall) as (s' & Hs' & Hr' & Ha). exists s'.
  split_and!; [done| |done]. eapply full_next; [done|exact Hcall|by apply ahead_db|done|]. eapply call_inv; [done|exact Hcall|done|by destruct op].
Qed.

Lemma refined_codeSize a s σ r σ' : full s σ -> abs_call fx (GetCodeSize a) σ = Some (r, σ') -> refined (GetCodeSize a) s σ r σ'.
Proof.
  intros Hf Hcall. pose proof Hcall as Hc0. cbn [abs_call] in Hcall. unfold only in Hcall. destruct (from_option v_alive true _) eqn:Hal; [|done].
  injection Hcall as <- <-. pose proof (fu_rep _ _ Hf) as Hrep.
  assert (posts (codeSize a) (fun n s' => n = lenZ (from_option v_code [] (the_view s a)) /\ quiet s s' /\ code_inv s') (fun _ _ => False) s) as Hp.
  { apply codeSize_posts'; [done|apply Hrep| |apply Hf]. intros v Hv. destruct (full_view s σ a v Hf Hv) as (u & Hu & Huv & Hc).
    split; [|done]. rewrite Hu in Hal. cbn in Hal. by rewrite <- (ve_alive _ _ Huv). }
  unfold posts in Hp. unfold refined. cbn [call]. destruct (codeSize a s) as [[n| | |] s']; try done. destruct Hp as (-> & Hq & Hi). exists s'.
  split_and!; [| |intros _; by apply ahead_quiet].
  - cbn. pose proof (rep_views _ _ Hrep a) as Hx. by destruct Hx as [u v Huv|]; cbn; [rewrite (ve_code _ _ Huv)|].
  - eapply full_next; [done|exact Hc0|apply Hq|by eapply rep_quiet|done].
Qed.

Lemma refined_clearStorage a s σ r σ' : full s σ -> abs_call fx (ClearStorage a) σ = Some (r, σ') -> refined (ClearStorage a) s σ r σ'.
Proof.
  intros Hf Hcall. pose proof Hcall as Hc0. cbn [abs_call] in Hcall. unfold only, change in Hcall. case_bool_decide as Ht; [|done].
  injection Hcall as <- <-. pose proof (fu_rep _ _ Hf) as Hrep. pose proof (rep_ok _ _ Hrep) as Hok.
  destruct (dirty_Some s a (rep_touched _ _ Hrep a Ht)) as (acc & Hacc & Hd). pose proof (the_view_cached m s a acc Hacc) as Hv.
  destruct (full_view s σ a _ Hf Hv) as (u & Hu & Huv & _). destruct (fu_good _ _ Hf a u Hu) as [_ Hst].
  pose proof (clearStorage_effect a acc s Hok Hacc Hd) as Hp.
  assert (undoable (ClearStorage a) σ = true -> posts (clearStorage a) (fun _ s' => moves m s s' a view_clearStorage) (fun _ _ => False) s) as Hm.
  { cbn [undoable]. intros Hun. apply (clearStorage_posts m a acc); [done|done|]. apply orb_true_iff in Hun as [Hw|He].
    - apply bool_decide_eq_true in Hw. right. destruct Hst as [|Hst]; [done|]. intros k. rewrite <- (ve_storage _ _ Huv k : _ = storage_of (m_db s) acc k).
      rewrite Hst, (ve_root _ _ Huv). done.
    - left. rewrite Hu in He. cbn in He. rewrite (ve_root _ _ Huv) in He. by apply Z.eqb_eq in He. }
  unfold refined. unfold posts in *. destruct (clearStorage a s) as [[x| | |] s'] eqn:Hrun; try done. destruct Hp as (Hok' & He & Hdd & Hle & Hn). exists s'.
  assert (call (ClearStorage a) s = Some (Done, s')) as Hcl by (cbn [call]; by rewrite Hrun).
  split_and!; [done| |intros Hun; by apply Hm]. eapply full_next; [done|exact Hc0|done| |by eapply (call_inv (ClearStorage a))].
  constructor; [done|by eapply represents_upd; [apply respects_clearStorage|apply Hrep|]| |by rewrite Hn; apply Hrep].
  cbn. intros b [->%elem_of_singleton|Hb]%elem_of_union; apply Hdd, Hrep; done.
Qed.

Lemma refined_kill a s σ r σ' : full s σ -> abs_call fx (Kill a) σ = Some (r, σ') -> refined (Kill a) s σ r σ'.
Proof.
  intros Hf Hcall. pose proof Hcall as Hc0. cbn [abs_call] in Hcall. unfold change in Hcall. pose proof (fu_rep _ _ Hf) as Hrep.
  pose proof (rep_ok _ _ Hrep) as Hok. pose proof (kill_posts m a s Hok) as Hp. pose proof (kill_keeps a s Hok) as Hk. unfold posts in *.
  unfold refined. destruct (kill a s) as [[x| | |] s'] eqn:Hrun; try done. destruct Hp as (Hok' & He & _ & Hn), Hk as (Hle & Hdd & Hda).
  assert (call (Kill a) s = Some (Done, s')) as Hcl by (cbn [call]; by rewrite Hrun).
  assert (respects view_kill) as Hrk by (intros u v []; constructor; reflexivity).
  assert (r = Done) as -> by (destruct (accounts σ a); by injection Hcall as <- _).
  exists s'. split_and!; [done| |done]. eapply full_next; [done|exact Hc0|done| |by eapply (call_inv (Kill a))].
  pose proof (represents_upd m s s' (accounts σ) a view_kill Hrk (rep_views _ _ Hrep) He) as Hru.
  destruct (accounts σ a) as [v|] eqn:Hv; injection Hcall as <-.
  - constructor; [done|done| |by rewrite Hn; apply Hrep]. cbn. intros b [->%elem_of_singleton|Hb]%elem_of_union; [|by apply Hdd, Hrep].
    apply Hda. by eapply rep_exists.
  - constructor; [done| |intros b Hb; by apply Hdd, Hrep|by rewrite Hn; apply Hrep]. intros b. specialize (Hru b). unfold upd_view in Hru.
    destruct (decide (a = b)) as [<-|]; [|done]. rewrite Hv in *. done.
Qed.

Lemma call_refines op s σ r σ' : full s σ -> abs_call fx op σ = Some (r, σ') -> refined op s σ r σ'.
Proof.
  intros Hf Hcall. destruct op; try (by apply refined_simulates); [by apply refined_codeSize| |by apply refined_clearStorage|by apply refined_kill].
  pose proof Hcall as Hc0. injection Hcall as <- <-. exists s. cbn [call]. rewrite (storageRoot_posts m a s) by apply Hf.
  rewrite Hroots. split_and!; [done|done|]. intros _. apply ahead_refl, Hf.
Qed.

(** ** Savepoints *)

(** A state the client can go back to until it does what cannot be undone. *)
Context (base : option st).
Definition from_base (s : st) : Prop := forall b, base = Some b -> ahead b s.

(** The client's savepoints with the saved states of the specification; those
    that were forfeited the specification does not have. *)
Inductive saves : list Z -> list Abs -> st -> Prop :=
| saves_nil sps s : from_base s -> saves sps [] s
| saves_cons s0 s σ sps σs : ahead s0 s -> full s0 σ -> saves sps σs s0 -> saves (savepoint s0 :: sps) (σ :: σs) s.

Lemma saves_ahead s s' sps σs : ahead s s' -> saves sps σs s -> saves sps σs s'.
Proof.
  intros Ha Hs. destruct Hs as [sps s Hb|s0 s σ sps σs Hah Hr Hs]; constructor; [intros b Hbase; eapply ahead_trans; [by apply Hb|done]|by eapply ahead_trans|done|done].
Qed.

Lemma saves_base sps σs s : saves sps σs s -> from_base s.
Proof. intros Hs. induction Hs; [done|]. intros b Hb. eapply ahead_trans; [by apply IHHs|done]. Qed.

Lemma saves_drop n sps σs s : saves sps σs s -> state_ok s ->
  exists s0, saves (drop n sps) (drop n σs) s0 /\ ahead s0 s.
Proof.
  intros Hs. revert n. induction Hs as [sps s Hb|s0 s σ sps σs Hah Hr Hs IH]; intros n Hok.
  - exists s. rewrite drop_nil. split; [by constructor|by apply ahead_refl].
  - destruct n as [|n]; cbn [drop]; [exists s; split; [by constructor|by apply ahead_refl]|].
    destruct (IH n (rep_ok _ _ (fu_rep _ _ Hr))) as (s1 & Hs1 & Ha). exists s1. split; [done|by eapply ahead_trans].
Qed.

Lemma rollback_refines n sps σs s σ : saves sps σs s -> full s σ ->
  match drop n σs with
  | σ0 :: σs' => exists sp sps' s', drop n sps = sp :: sps' /\ rollback sp s = (Value tt, s') /\ full s' σ0 /\ saves sps' σs' s'
  | [] => True
  end.
Proof.
  intros Hs Hf. destruct (saves_drop n sps σs s Hs (rep_ok _ _ (fu_rep _ _ Hf))) as (s1 & Hs1 & Ha).
  inversion Hs1 as [|s0 ? σ0 sps' σs' Hah Hr0 Hs0 Hsps]; [done|]; subst. exists (savepoint s0), sps'.
  pose proof (rollback_posts m s0 s (ahead_trans _ _ _ _ Hah Ha)) as Hp. pose proof (knows_rollback (savepoint s0) s (fu_inv _ _ Hf)) as Hi. unfold posts in Hp.
  destruct (rollback (savepoint s0) s) as [[[]| | |] s']; try done. destruct Hp as (Hok & Hsm & Hl). exists s'. split_and!; [done|done| |].
  - constructor; [by eapply rep_same; [|exact Hsm|apply Hr0]|done|].
    eapply (good_le (m_db s0)); [apply Hr0..|done|apply Hsm|apply Hr0].
  - eapply saves_ahead; [by apply ahead_same|done].
Qed.

(** ** The runs *)

Record simulated (x : st * list Z) (y : Abs * list Abs) : Prop := {
  si_full : full x.1 y.1;
  si_saves : saves x.2 y.2 x.1
}.

Lemma step_refines op x y r y' : simulated x y -> abs_step fx op y = Some (r, y') -> base = None \/ undoable op y.1 = true ->
  exists x', client_step op x = Some (r, x') /\ simulated x' y'.
Proof.
  intros [Hf Hsaves] Hstep Hb. destruct x as [s sps], y as [σ σs]. cbn in Hf, Hsaves, Hb.
  assert (forall r σ', abs_call fx op σ = Some (r, σ') -> exists s', call op s = Some (r, s') /\
    simulated (s', sps) (σ', if undoable op σ then σs else [])) as Hcall.
  { intros r0 σ0 Hc. destruct (call_refines op s σ r0 σ0 Hf Hc) as (s' & Hs' & Hf' & Ha). exists s'. split; [done|]. constructor; [done|]. cbn.
    destruct (undoable op σ); [eapply saves_ahead; [by apply Ha|done]|]. constructor. intros b Hbase. destruct Hb; congruence. }
  destruct op; cbn [abs_step client_step] in *;
    try (destruct (abs_call fx _ σ) as [[r0 σ0]|]; [|done]; injection Hstep as <- <-; destruct (Hcall r0 σ0 eq_refl) as (s' & -> & Hsim); by eexists).
  - injection Hstep as <- <-. eexists. split; [done|]. constructor; [done|]. constructor; [apply ahead_refl, Hf|done|done].
  - pose proof (rollback_refines n sps σs s σ Hsaves Hf) as Hr. destruct (drop n σs) as [|σ0 σs']; [done|].
    injection Hstep as <- <-. destruct Hr as (sp & sps' & s' & -> & Hrun & Hf' & Hs'). rewrite Hrun. by eexists.
  - destruct Hsaves as [|s0 s σ0 sps σs Hah Hr Hs]; [done|]. injection Hstep as <- <-. eexists. split; [done|]. constructor; [done|].
    by eapply saves_ahead.
Qed.

Lemma run_refines ops x y rs y' : simulated x y -> abs_run fx ops y = Some (rs, y') -> base = None \/ all_undoable fx ops y = true ->
  exists x', client_run ops x = Some (rs, x') /\ simulated x' y'.
Proof.
  revert x y rs. induction ops as [|op ops IH]; intros x y rs Hsim Hrun Hb; cbn [abs_run client_run all_undoable] in *.
  - injection Hrun as <- <-. by exists x.
  - destruct (abs_step fx op y) as [[r y1]|] eqn:Hop; [|done]. rewrite andb_true_iff in Hb.
    destruct (step_refines op x y r y1 Hsim Hop) as (x1 & -> & Hsim1); [naive_solver|].
    cbn in *. destruct (abs_run fx ops y1) as [[rs1 y2]|] eqn:Hrest; [|done]. cbn in Hrun. injection Hrun as <- <-.
    destruct (IH x1 y1 rs1 Hsim1 Hrest) as (x2 & -> & Hsim2); [naive_solver|]. by exists x2.
Qed.
End Calls.
End Refines.
