(* ===== verification/StateTheorems.v ===== *)
(** * What the world state promises

    The theorems about [State] with their witnesses on a concrete database. *)
From stdpp Require Import base list gmap fin_sets.
From Stdlib Require Import ZArith Lia.
From S2P Require Import Prelude Words Result Rlp StateMonad Account State StateSpec StateReads StateJournal StateOps StateRefine StateCommit World TestDB.
Open Scope sm_scope.

Section Theorems.
  Context {DB G : Type} `{Sha3} `{!StateDB DB} `{!StateDBLaws DB} `{!RandomEngine G} `{!UnorderedMaps}.
  Notation st := (State DB G).

(** What a client starts from: the roots in the trie, and codes with different
    hashes that contain those of the accounts and of the caches. *)
Record starts_from (m : trie_map) (fx : Setting) (s : st) : Prop := {
  sf_ok : state_ok m s;
  sf_start : m_accountStartNonce s = start fx;
  sf_roots : forall a, roots fx a = committed_root m a;
  sf_apart : codes_apart fx;
  sf_caches : code_inv fx s;
  sf_codes : forall a v, the_view m s a = Some v -> v_code v ∈ codes fx
}.

(** Its accounts; the storage of those in the cache may have been set. *)
Definition accounts_of (m : trie_map) (s : st) : Abs := mkAbs (the_view m s) ∅ (dom (m_cache s)).

Lemma decode_overlay e acc : decode_account e = Value acc -> m_storageOverlay acc = ∅.
Proof. unfold decode_account. intros Hd. result_inv. by subst acc. Qed.

Lemma starts_full m fx s : starts_from m fx s -> full m fx s (accounts_of m s).
Proof.
  intros [Hs Hst _ _ Hi Hc]. constructor; [|done|].
  - constructor; [done| |by intros a Ha%not_elem_of_empty|done]. intros b. apply option_view_refl.
  - intros a v Hv. split; [exact (Hc a v Hv)|]. unfold accounts_of, the_view, the_account in Hv. cbn [accounts] in Hv. cbn [written accounts_of].
    destruct (m_cache s !! a) as [acc|] eqn:Ha; [left; by apply elem_of_dom_2 in Ha|right]. intros k.
    destruct (m !! addr_bytes a) as [e|]; [|done]. destruct (decode_account e) as [acc| | |] eqn:Hd; try done. injection Hv as <-. cbn [v_storage v_root view_of].
    unfold storage_of. by rewrite (decode_overlay _ _ Hd), lookup_empty.
Qed.

Lemma run_from (m : trie_map) (fx : Setting) (s : st) ops rs σ saved (base : option st) :
  starts_from m fx s -> abs_run fx ops (accounts_of m s, []) = Some (rs, (σ, saved)) ->
  base = None \/ base = Some s /\ all_undoable fx ops (accounts_of m s, []) = true ->
  exists s' sps, client_run ops (s, []) = Some (rs, (s', sps)) /\ simulated m fx base (s', sps) (σ, saved).
Proof.
  intros Hs Hrun Hb.
  destruct (run_refines m fx (sf_apart _ _ _ Hs) (sf_roots _ _ _ Hs) base ops (s, []) (accounts_of m s, []) rs (σ, saved)) as ([s' sps] & Hr & Hsim).
  - constructor; [by apply starts_full|]. constructor. intros b Hbase. assert (b = s) as -> by naive_solver. apply ahead_refl, Hs.
  - done.
  - naive_solver.
  - by exists s', sps.
Qed.

(** C7. A client of [State] gets from any sequence of queries, changes,
    savepoints and rollbacks the answers of a plain map from addresses to
    accounts that saves copies of itself, and the state left has the accounts of
    that map: the cache of accounts with its random eviction, the set of absent
    addresses, the cache of code sizes, the storage read ahead and the change
    log never show.  Every function of [State] on one account is among the
    operations, but for the listing of all its storage.  Two of them a rollback
    does not undo, [kill], and [clearStorage] of an account with storage that was
    set since the last commit; they drop the saved copies, and the run may not go
    back behind them.  Not specified are the code size of a killed account,
    [setStorage] where there is no account, [setCode] and [clearStorage] of an
    account that was not changed before, and [createContract] where there is an
    account.  The codes that occur have different hashes. *)
Theorem state_refines (m : trie_map) (fx : Setting) (s : st) ops rs σ saved :
  starts_from m fx s -> abs_run fx ops (accounts_of m s, []) = Some (rs, (σ, saved)) ->
  exists s' sps, client_run ops (s, []) = Some (rs, (s', sps)) /\ state_ok m s' /\ represents m s' (accounts σ).
Proof.
  intros Hs Hrun. destruct (run_from m fx s ops rs σ saved None Hs Hrun (or_introl eq_refl)) as (s' & sps & Hr & [Hf _]).
  exists s', sps. split_and!; [done|apply Hf..].
Qed.


(** C25. A transfer between two accounts, which may be the same, moves the amount
    and nothing else: the balances of any accounts that include the two have the
    sum they had.  It throws [NotEnoughCash], with every account as it was,
    exactly when the sender has less than the amount. *)
Theorem transfer_conserves (m : trie_map) (s : st) from to x l :
  state_ok m s -> is_u256 x -> NoDup l -> from ∈ l -> to ∈ l -> total (the_view m s) l < 2 ^ 256 ->
  posts (transferBalance from to x)
    (fun _ s' => state_ok m s' /\ x <= bal (the_view m s from) /\ total (the_view m s') l = total (the_view m s) l /\
      (from <> to -> bal (the_view m s' from) = bal (the_view m s from) - x /\ bal (the_view m s' to) = bal (the_view m s to) + x) /\
      forall a, a <> from -> a <> to -> option_Forall2 view_eq (the_view m s a) (the_view m s' a))
    (fun e s' => state_ok m s' /\ e = NotEnoughCash /\ bal (the_view m s from) < x /\ represents m s' (the_view m s)) s.
Proof.
  intros Hs Hx Hnd Hf Ht Hlt. assert (represents m s (the_view m s)) as Hr by (intros b; apply option_view_refl).
  assert (forall b, is_u256 (bal (the_view m s b))) as Hb by (intros b; by apply the_view_balance).
  eapply posts_mono; [by apply (transferBalance_posts m from to x s (the_view m s))| |].
  - intros _ s' (Hle & Ha & Hr' & _).
    destruct (transfer_total (m_accountStartNonce s) from to x (the_view m s) l Hx Hb Hle Hnd Hf Ht Hlt) as [Htot Hbal].
    split_and!; [apply Ha|done| | |].
    + rewrite <- Htot. apply total_ext. intros a _. symmetry. apply bal_eq, Hr'.
    + intros Hft. destruct (Hbal Hft) as [<- <-]. by rewrite !(bal_eq _ _ (Hr' _)).
    + intros a Hne1 Hne2. specialize (Hr' a). unfold transfer, upd_view in Hr'. destruct (decide (to = a)); [congruence|].
      destruct (x =? 0); [done|]. by destruct (decide (from = a)).
  - intros e s' (-> & Hlt' & Hq). split_and!; [apply Hq|done|done|exact (sm_view _ _ _ (qu_same _ _ _ Hq))].
Qed.

(** C19. A commit does not show.  It writes the accounts and drops the caches and
    the log, and every account is what it was, save for the root of its storage:
    only an account that was killed, or with [RemoveEmptyAccounts] one that was
    changed and is empty, is gone.  The trie before the commit can still be
    read. *)
Theorem commit_invisible (m : trie_map) b (s : st) :
  state_ok m s -> committable s -> commit_clean b s ->
  exists s' m', commit b s = (Value tt, s') /\ state_ok m' s' /\ trie_rep (m_db s') (m_state s) m /\
    m_cache s' = ∅ /\ m_unchangedCacheEntries s' = [] /\ m_changeLog s' = [] /\
    forall a, 0 <= a < 2 ^ 160 -> commit_view (is_Remove b && is_dirty s a) (the_view m s a) (the_view m' s' a).
Proof.
  intros Hs Hcm Hcl. destruct (commit_spec m b s Hs Hcm Hcl) as (s' & m' & Hrun & Hok & Hle & Hc & He & Hl & Hv).
  exists s', m'. split_and!; [done|done| |done|done|done|done]. eapply trie_rep_le; [exact Hle|apply Hs].
Qed.
End Theorems.

(** ** The theorems at work *)

Lemma test_world_ok : state_ok test_map test_state.
Proof.
  constructor.
  - split; [vm_compute; reflexivity|split; by vm_compute].
  - intros a e. unfold test_map. rewrite lookup_insert_Some, lookup_singleton_Some. intros [[_ <-]|[_ [_ <-]]].
    + destruct (decode_account (test_entry 1 100)) as [acc| | |] eqn:Hd; try (vm_compute in Hd; discriminate). exists acc. split; [done|].
      vm_compute in Hd. injection Hd as <-. by apply account_ok_plain.
    + destruct (decode_account (test_entry 0 5)) as [acc| | |] eqn:Hd; try (vm_compute in Hd; discriminate). exists acc. split; [done|].
      vm_compute in Hd. injection Hd as <-. by apply account_ok_plain.
  - intros a acc. unfold test_state. cbn [m_cache]. by rewrite lookup_empty.
  - intros a. unfold test_state. cbn [m_nonExistingAccountsCache]. set_solver.
  - intros a acc. unfold test_state. cbn [m_cache]. by rewrite lookup_empty.
  - discriminate.
Qed.

(** A contract at 0xaa with committed code and storage, 2 under the key 1, and a
    plain account at 0xbb. *)
Definition test_contract_code : list Z := [0x60; 0].
Definition contract_entry : list Z :=
  match of_rlp (encode_account (Account_full 1 100 8 (sha3 test_contract_code) Changed) 8) with Value e => e | _ => [] end.
Definition contract_map : trie_map := {[addr_bytes 0xaa := contract_entry; addr_bytes 0xbb := test_entry 0 5]}.
Definition contract_db : TestDB :=
  mkTestDB {[7 := contract_map; 8 := {[h256_bytes 1 := [2]]}]} {[sha3 test_contract_code := test_contract_code]}.
Definition contract_state : State TestDB Z := mkState contract_db 7 ∅ [] ∅ ∅ 0 [] ∅ 0.
Definition contract_setting : Setting := mkSetting 0 (committed_root contract_map) [[]; test_contract_code].

Lemma contract_account : decode_account contract_entry = Value (Account_full 1 100 8 (sha3 test_contract_code) Unchanged) /\
  account_ok contract_db (Account_full 1 100 8 (sha3 test_contract_code) Unchanged).
Proof.
  split; [vm_compute; reflexivity|]. constructor; [right| |done|done|by left].
  - exists {[h256_bytes 1 := [2]]}. split; [split; [vm_compute; reflexivity|done]|]. apply map_Forall_singleton. by exists 2.
  - vm_compute. reflexivity.
Qed.

Lemma contract_entries a e : contract_map !! addr_bytes a = Some e -> exists acc, decode_account e = Value acc /\ account_ok contract_db acc /\
  code_of contract_db acc ∈ codes contract_setting.
Proof.
  unfold contract_map. rewrite lookup_insert_Some, lookup_singleton_Some. intros [[_ <-]|[_ [_ <-]]].
  - destruct contract_account as [Hd Hok]. eexists. split_and!; [exact Hd|exact Hok|].
    apply (bool_decide_unpack _). vm_compute. reflexivity.
  - destruct (decode_account (test_entry 0 5)) as [acc| | |] eqn:Hd; try (vm_compute in Hd; discriminate). exists acc. split; [done|].
    vm_compute in Hd. injection Hd as <-. split; [by apply account_ok_plain|].
    apply (bool_decide_unpack _). vm_compute. reflexivity.
Qed.

Lemma contract_starts : starts_from contract_map contract_setting contract_state.
Proof.
  constructor; [|done|done| | |].
  - constructor.
    + split; [vm_compute; reflexivity|split; by vm_compute].
    + intros a e He. destruct (contract_entries a e He) as (acc & ? & ? & _). by exists acc.
    + intros a acc. unfold contract_state. cbn [m_cache]. by rewrite lookup_empty.
    + intros a. unfold contract_state. cbn [m_nonExistingAccountsCache]. set_solver.
    + intros a acc. unfold contract_state. cbn [m_cache]. by rewrite lookup_empty.
    + discriminate.
  - constructor; [by left|]. intros c c'. cbn [codes contract_setting]. rewrite !elem_of_cons, !elem_of_nil.
    intros [->|[->|[]]] [->|[->|[]]]; try done; by vm_compute.
  - constructor; [apply map_Forall_empty|apply map_Forall_empty|constructor].
  - intros a v. unfold the_view, the_account, contract_state. cbn [m_cache m_db]. rewrite lookup_empty.
    destruct (contract_map !! addr_bytes a) as [e|] eqn:He; [|done]. destruct (contract_entries a e He) as (acc & -> & _ & Hc). by intros [= <-].
Qed.

(** A new contract with storage and code that is rolled back inside of a longer
    transfer, and the storage of the old one cleared and rolled back. *)
Definition test_ops : list Op :=
  [TransferBalance 0xaa 0xbb 60; Savepoint; AddBalance 0xcc 7; SetStorage 0xcc 1 2; SetCode 0xcc [0x60; 0]; SetStorage 0xcc 1 3;
   Savepoint; IncNonce 0xaa; GetStorage 0xcc 1; SubBalance 0xaa 41; GetCodeSize 0xcc; Rollback 1; AddressInUse 0xcc; GetBalance 0xaa; IncNonce 0xbb;
   GetNonce 0xbb; GetBalance 0xbb; GetCodeSize 0xaa; GetCode 0xaa; GetStorageRoot 0xaa; Savepoint; ClearStorage 0xaa; GetStorage 0xaa 1;
   GetStorageRoot 0xaa; Rollback 0; GetStorage 0xaa 1].
Definition test_answers : list Answer :=
  [Done; Done; Done; Done; Done; Done; Done; Done; Number 3; Threw NotEnoughCash; Number 2; Done; Flag false; Number 40; Done; Number 1; Number 65;
   Number 2; Bytes [0x60; 0]; Number 8; Done; Done; Number 0; Number 8; Done; Number 2].

(** Then what cannot be rolled back. *)
Definition test_last : list Op := [SetStorage 0xaa 1 5; ClearStorage 0xaa; GetStorage 0xaa 1; Kill 0xbb; Savepoint; IncNonce 0xbb; Rollback 0; GetBalance 0xbb;
  GetNonce 0xbb; GetCodeSize 0xdd].
Definition last_answers : list Answer := [Done; Done; Number 0; Done; Done; Done; Done; Number 0; Number 0; Number 0].

(** What the abstract state answers. *)
Lemma test_abs_run ops answers : fst <$> abs_run contract_setting ops (accounts_of contract_map contract_state, []) = Some answers ->
  exists σ saved, abs_run contract_setting ops (accounts_of contract_map contract_state, []) = Some (answers, (σ, saved)).
Proof. destruct (abs_run _ _ _) as [[rs [σ saved]]|]; [|discriminate]. intros [= ->]. by exists σ, saved. Qed.

Example state_refines_witness : exists σ s' sps,
  client_run (test_ops ++ test_last) (contract_state, []) = Some (test_answers ++ last_answers, (s', sps)) /\
  state_ok contract_map s' /\ represents contract_map s' (accounts σ).
Proof.
  destruct (test_abs_run (test_ops ++ test_last) (test_answers ++ last_answers) ltac:(vm_compute; reflexivity)) as (σ & saved & Hrun). exists σ.
  exact (state_refines contract_map contract_setting contract_state _ _ σ saved contract_starts Hrun).
Defined.


(** What the two operations lose: storage that was set to 5 reads as the committed
    2 after the rollback of a [clearStorage], and the balance of a killed account
    is not given back. *)
Example clearStorage_not_undone :
  fst <$> client_run [SetStorage 0xaa 1 5; Savepoint; ClearStorage 0xaa; Rollback 0; GetStorage 0xaa 1] (contract_state, []) =
  Some [Done; Done; Done; Done; Number 2].
Proof. vm_compute. reflexivity. Qed.
Example kill_not_undone :
  fst <$> client_run [GetBalance 0xbb; Savepoint; Kill 0xbb; Rollback 0; GetBalance 0xbb] (contract_state, []) =
  Some [Number 5; Done; Done; Done; Number 0].
Proof. vm_compute. reflexivity. Qed.
(** A killed account that had new code keeps its size. *)
Example codeSize_of_killed :
  fst <$> client_run [IncNonce 0xbb; SetCode 0xbb [0x60; 0]; Kill 0xbb; GetCode 0xbb; GetCodeSize 0xbb] (contract_state, []) =
  Some [Done; Done; Done; Bytes []; Number 2].
Proof. vm_compute. reflexivity. Qed.

Example transfer_conserves_witness :
  total (the_view test_map test_state) [0xaa; 0xbb] = 105 /\
  posts (transferBalance 0xaa 0xbb 60)
    (fun _ s' => state_ok test_map s' /\ 60 <= bal (the_view test_map test_state 0xaa) /\
      total (the_view test_map s') [0xaa; 0xbb] = total (the_view test_map test_state) [0xaa; 0xbb] /\
      (0xaa <> 0xbb -> bal (the_view test_map s' 0xaa) = bal (the_view test_map test_state 0xaa) - 60 /\
        bal (the_view test_map s' 0xbb) = bal (the_view test_map test_state 0xbb) + 60) /\
      forall a, a <> 0xaa -> a <> 0xbb -> option_Forall2 view_eq (the_view test_map test_state a) (the_view test_map s' a))
    (fun e s' => state_ok test_map s' /\ e = NotEnoughCash /\ bal (the_view test_map test_state 0xaa) < 60 /\
      represents test_map s' (the_view test_map test_state)) test_state.
Proof.
  split; [vm_compute; reflexivity|]. apply (transfer_conserves test_map test_state 0xaa 0xbb 60 [0xaa; 0xbb] test_world_ok).
  - lia.
  - by apply (bool_decide_unpack (NoDup [0xaa; 0xbb])).
  - set_solver.
  - set_solver.
  - vm_compute. reflexivity.
Defined.

(** A contract with storage, and an account that was touched and is empty. *)
Definition test_dirty : State TestDB Z :=
  snd ((addBalance 0xcc 7 ;; setStorage 0xcc 1 2 ;; addBalance 0xdd 0 ;; incNonce 0xaa) test_state).

Lemma test_dirty_ok : state_ok test_map test_dirty.
Proof.
  assert (posts (addBalance 0xcc 7 ;; setStorage 0xcc 1 2 ;; addBalance 0xdd 0 ;; incNonce 0xaa)
    (fun _ s => state_ok test_map s) (fun _ _ => False) test_state) as Hp.
  { eapply posts_bind; [by apply (addBalance_posts test_map), test_world_ok|]. intros _ s1 [[Ha1 He1] _].
    eapply posts_bind; [apply (setStorage_posts test_map); [apply Ha1|]|].
    { specialize (He1 0xcc). destruct (decide (0xcc = 0xcc)); [|done]. cbn in He1. inversion He1. by eexists. }
    intros _ s2 [[Ha2 _] _]. eapply posts_bind; [by apply (addBalance_posts test_map), Ha2|]. intros _ s3 [[Ha3 _] _].
    eapply posts_mono; [by apply (incNonce_posts test_map), Ha3| |done]. intros u s4 [[Ha4 _] _]. apply Ha4. }
  revert Hp. unfold posts, test_dirty. destruct (sbind _ _ test_state) as [[u| | |] s]; done.
Qed.

Lemma test_dirty_cache : map_to_list (m_cache test_dirty) =
  [(0xdd, Account_new 0 0 Changed); (0xaa, mkAccount true false false 2 100 EmptyTrie EmptySHA3 ∅ []);
   (0xcc, mkAccount true false false 0 7 EmptyTrie EmptySHA3 {[1 := 2]} [])].
Proof. vm_compute. reflexivity. Qed.

Lemma test_dirty_absent : m_nonExistingAccountsCache test_dirty = ∅.
Proof. vm_compute. reflexivity. Qed.

Lemma test_dirty_committable : committable test_dirty.
Proof.
  assert (forall a acc, m_cache test_dirty !! a = Some acc -> 0 <= a < 2 ^ 160 /\ typed acc) as Hc.
  { intros a acc. rewrite <- elem_of_map_to_list, test_dirty_cache, !elem_of_cons, elem_of_nil.
    assert (is_u256 EmptyTrie /\ is_u256 EmptySHA3) as [] by (split; vm_compute; split; congruence).
    intros [[= -> ->]|[[= -> ->]|[[= -> ->]|[]]]]; (split; [lia|]); constructor; cbn; try done; try lia.
    apply map_Forall_singleton. lia. }
  constructor.
  - intros a acc Ha. apply (Hc a acc Ha).
  - rewrite test_dirty_absent. intros a []%not_elem_of_empty.
  - intros a acc Ha _. apply (Hc a acc Ha).
Qed.

Lemma test_clean_account addr a (s : State TestDB Z) db0 :
  m_hasNewCode a = false -> m_storageOverlay a = ∅ -> m_db s = db0 -> test_root db0 < 2 ^ 256 -> clean_account addr a s.
Proof.
  intros Hn Ho Hs Hr. unfold clean_account. destruct (negb (m_isAlive a)); [by rewrite Hs|]. split.
  - intros db _. rewrite Ho. done.
  - unfold written_storage, written_code. rewrite Ho, Hn, Hs. cbn. intros db root [= <- <-]. by split.
Qed.

Lemma test_dirty_clean : commit_clean RemoveEmptyAccounts test_dirty.
Proof.
  unfold commit_clean. cbn [iterate TestMaps]. set (s := to_commit _ _).
  assert (map_to_list (m_cache s) = [(0xdd, Account.kill (Account_new 0 0 Changed)); (0xaa, mkAccount true false false 2 100 EmptyTrie EmptySHA3 ∅ []);
   (0xcc, mkAccount true false false 0 7 EmptyTrie EmptySHA3 {[1 := 2]} [])]) as -> by (vm_compute; reflexivity).
  cbn [clean_accounts isDirty m_isUnchanged negb Account.kill Account_new is_Unchanged]. split; [|split; [|split; [|done]]].
  - apply (test_clean_account _ _ _ (m_db s)); [done|done|done|vm_compute; reflexivity].
  - eapply test_clean_account; [done|done|vm_compute; reflexivity|vm_compute; reflexivity].
  - set (s2 := snd _). set (a := mkAccount _ _ _ _ _ _ _ _ _).
    assert (forall db, trie_open (m_storageRoot a) (m_db s2) = Value db -> test_root db < 2 ^ 256) as Ho.
    { intros db Hdb. vm_compute in Hdb. injection Hdb as <-. vm_compute. reflexivity. }
    assert (forall db root, written_storage a (m_db s2) = Value (db, root) -> test_root (written_code a db) < 2 ^ 256) as Hw.
    { intros db root Hdb. vm_compute in Hdb. injection Hdb as <- <-. vm_compute. reflexivity. }
    unfold clean_account. split.
    + intros db Hdb. change (iterate (m_storageOverlay a)) with [(1, 2)]. by split; [apply Ho|].
    + intros db root Hdb. by split; [|apply (Hw db root)].
Qed.

Example commit_invisible_witness : exists s' m', commit RemoveEmptyAccounts test_dirty = (Value tt, s') /\ state_ok m' s' /\
  trie_rep (m_db s') (m_state test_dirty) test_map /\ m_cache s' = ∅ /\ m_unchangedCacheEntries s' = [] /\ m_changeLog s' = [] /\
  forall a, 0 <= a < 2 ^ 160 -> commit_view (true && is_dirty test_dirty a) (the_view test_map test_dirty a) (the_view m' s' a).
Proof.
  apply (commit_invisible test_map RemoveEmptyAccounts test_dirty).
  - exact test_dirty_ok.
  - exact test_dirty_committable.
  - exact test_dirty_clean.
Defined.
