(* ===== verification/Schedule.v ===== *)
(** * Gas schedules and chain parameters (libaeccore/EVMSchedule.h,
    ChainOperationParams.h, ChainOperationParams.cpp, libevm/EVMC.cpp)

    The costs of a protocol version, which version holds at a block, and the
    revision the interpreter is told to run. *)
From stdpp Require Import base list gmap.
From Stdlib Require Import ZArith Lia.
From S2P Require Import Prelude Words Evmc.

(** ** [EVMSchedule] *)

Record EVMSchedule := mkEVMSchedule {
  exceptionalFailedCodeDeposit : bool;
  haveDelegateCall : bool;
  eip150Mode : bool;
  eip158Mode : bool;
  haveBitwiseShifting : bool;
  haveRevert : bool;
  haveReturnData : bool;
  haveStaticCall : bool;
  haveCreate2 : bool;
  tierStepGas : list Z;
  expGas : Z;
  expByteGas : Z;
  sha3Gas : Z;
  sha3WordGas : Z;
  sloadGas : Z;
  sstoreSetGas : Z;
  sstoreResetGas : Z;
  sstoreRefundGas : Z;
  jumpdestGas : Z;
  logGas : Z;
  logDataGas : Z;
  logTopicGas : Z;
  createGas : Z;
  callGas : Z;
  callStipend : Z;
  callValueTransferGas : Z;
  callNewAccountGas : Z;
  suicideRefundGas : Z;
  memoryGas : Z;
  quadCoeffDiv : Z;
  createDataGas : Z;
  txGas : Z;
  txCreateGas : Z;
  txDataZeroGas : Z;
  txDataNonZeroGas : Z;
  copyGas : Z;
  extcodesizeGas : Z;
  extcodecopyGas : Z;
  balanceGas : Z;
  suicideGas : Z;
  blockhashGas : Z;
  maxCodeSize : Z;
  blockRewardOverwrite : option Z
}.

(** [EVMSchedule(_efcd, _hdc, _txCreateGas)], and [EVMSchedule()] with the
    defaults of the members. *)
Definition new_EVMSchedule (efcd hdc : bool) (txCreate : Z) : EVMSchedule :=
  mkEVMSchedule efcd hdc false false false false false false false [0; 2; 3; 5; 8; 10; 20; 0]
    10 10 30 6 50 20000 5000 15000 1 375 8 375 32000 40 2300 9000 25000 24000 3 512 200 21000 txCreate 4 68 3
    20 20 20 0 20 (2 ^ 32 - 1) None.

Definition DefaultSchedule : EVMSchedule := new_EVMSchedule true true 53000.
Definition FrontierSchedule : EVMSchedule := new_EVMSchedule false false 21000.
Definition HomesteadSchedule : EVMSchedule := new_EVMSchedule true true 53000.

Definition EIP150Schedule : EVMSchedule :=
  let s := HomesteadSchedule in
  mkEVMSchedule
    (exceptionalFailedCodeDeposit s) (haveDelegateCall s) true (eip158Mode s) (haveBitwiseShifting s)
    (haveRevert s) (haveReturnData s) (haveStaticCall s) (haveCreate2 s) (tierStepGas s) (expGas s)
    (expByteGas s) (sha3Gas s) (sha3WordGas s) 200 (sstoreSetGas s) (sstoreResetGas s) (sstoreRefundGas s)
    (jumpdestGas s) (logGas s) (logDataGas s) (logTopicGas s) (createGas s) 700 (callStipend s)
    (callValueTransferGas s) (callNewAccountGas s) (suicideRefundGas s) (memoryGas s) (quadCoeffDiv s)
    (createDataGas s) (txGas s) (txCreateGas s) (txDataZeroGas s) (txDataNonZeroGas s) (copyGas s) 700 700 400
    5000 (blockhashGas s) (maxCodeSize s) (blockRewardOverwrite s).

Definition EIP158Schedule : EVMSchedule :=
  let s := EIP150Schedule in
  mkEVMSchedule
    (exceptionalFailedCodeDeposit s) (haveDelegateCall s) (eip150Mode s) true (haveBitwiseShifting s)
    (haveRevert s) (haveReturnData s) (haveStaticCall s) (haveCreate2 s) (tierStepGas s) (expGas s) 50
    (sha3Gas s) (sha3WordGas s) (sloadGas s) (sstoreSetGas s) (sstoreResetGas s) (sstoreRefundGas s)
    (jumpdestGas s) (logGas s) (logDataGas s) (logTopicGas s) (createGas s) (callGas s) (callStipend s)
    (callValueTransferGas s) (callNewAccountGas s) (suicideRefundGas s) (memoryGas s) (quadCoeffDiv s)
    (createDataGas s) (txGas s) (txCreateGas s) (txDataZeroGas s) (txDataNonZeroGas s) (copyGas s)
    (extcodesizeGas s) (extcodecopyGas s) (balanceGas s) (suicideGas s) (blockhashGas s) 0x6000
    (blockRewardOverwrite s).

Definition ByzantiumSchedule : EVMSchedule :=
  let s := EIP158Schedule in
  mkEVMSchedule
    (exceptionalFailedCodeDeposit s) (haveDelegateCall s) (eip150Mode s) (eip158Mode s) (haveBitwiseShifting s)
    true true true (haveCreate2 s) (tierStepGas s) (expGas s) (expByteGas s) (sha3Gas s) (sha3WordGas s)
    (sloadGas s) (sstoreSetGas s) (sstoreResetGas s) (sstoreRefundGas s) (jumpdestGas s) (logGas s)
    (logDataGas s) (logTopicGas s) (createGas s) (callGas s) (callStipend s) (callValueTransferGas s)
    (callNewAccountGas s) (suicideRefundGas s) (memoryGas s) (quadCoeffDiv s) (createDataGas s) (txGas s)
    (txCreateGas s) (txDataZeroGas s) (txDataNonZeroGas s) (copyGas s) (extcodesizeGas s) (extcodecopyGas s)
    (balanceGas s) (suicideGas s) (blockhashGas s) (maxCodeSize s) (Some (3 * 10 ^ 18)).

Definition EWASMSchedule : EVMSchedule :=
  let s := ByzantiumSchedule in
  mkEVMSchedule
    (exceptionalFailedCodeDeposit s) (haveDelegateCall s) (eip150Mode s) (eip158Mode s) (haveBitwiseShifting s)
    (haveRevert s) (haveReturnData s) (haveStaticCall s) (haveCreate2 s) (tierStepGas s) (expGas s)
    (expByteGas s) (sha3Gas s) (sha3WordGas s) (sloadGas s) (sstoreSetGas s) (sstoreResetGas s)
    (sstoreRefundGas s) (jumpdestGas s) (logGas s) (logDataGas s) (logTopicGas s) (createGas s) (callGas s)
    (callStipend s) (callValueTransferGas s) (callNewAccountGas s) (suicideRefundGas s) (memoryGas s)
    (quadCoeffDiv s) (createDataGas s) (txGas s) (txCreateGas s) (txDataNonZeroGas s) (txDataNonZeroGas s)
    (copyGas s) (extcodesizeGas s) (extcodecopyGas s) (balanceGas s) (suicideGas s) (blockhashGas s)
    (2 ^ 32 - 1) (blockRewardOverwrite s).

Definition ConstantinopleSchedule : EVMSchedule :=
  let s := ByzantiumSchedule in
  mkEVMSchedule
    (exceptionalFailedCodeDeposit s) (haveDelegateCall s) (eip150Mode s) (eip158Mode s) true (haveRevert s)
    (haveReturnData s) (haveStaticCall s) true (tierStepGas s) (expGas s) (expByteGas s) (sha3Gas s)
    (sha3WordGas s) (sloadGas s) (sstoreSetGas s) (sstoreResetGas s) (sstoreRefundGas s) (jumpdestGas s)
    (logGas s) (logDataGas s) (logTopicGas s) (createGas s) (callGas s) (callStipend s)
    (callValueTransferGas s) (callNewAccountGas s) (suicideRefundGas s) (memoryGas s) (quadCoeffDiv s)
    (createDataGas s) (txGas s) (txCreateGas s) (txDataZeroGas s) (txDataNonZeroGas s) (copyGas s)
    (extcodesizeGas s) (extcodecopyGas s) (balanceGas s) (suicideGas s) 800 (maxCodeSize s)
    (blockRewardOverwrite s).

Definition staticCallDepthLimit (s : EVMSchedule) : bool := negb (eip150Mode s).
Definition suicideChargesNewAccountGas (s : EVMSchedule) : bool := eip150Mode s.
Definition emptinessIsNonexistence (s : EVMSchedule) : bool := eip158Mode s.
Definition zeroValueTransferChargesNewAccountGas (s : EVMSchedule) : bool := negb (eip158Mode s).

(** [toRevision] *)
Definition toRevision (s : EVMSchedule) : evmc_revision :=
  if haveCreate2 s then EVMC_CONSTANTINOPLE
  else if haveRevert s then EVMC_BYZANTIUM
  else if eip158Mode s then EVMC_SPURIOUS_DRAGON
  else if eip150Mode s then EVMC_TANGERINE_WHISTLE
  else if haveDelegateCall s then EVMC_HOMESTEAD
  else EVMC_FRONTIER.

(** ** [ChainOperationParams] *)

(** A precompiled contract: its price, a function of the input that does not
    wrap, and what it computes. *)
Record PrecompiledContract := mkPrecompiledContract {
  m_cost : list Z -> Z;
  m_execute : list Z -> bool * list Z;
  m_startingBlock : Z
}.

(** The constructor with a linear price. *)
Definition linear_PrecompiledContract (base word : Z) (exec : list Z -> bool * list Z) (startingBlock : Z) : PrecompiledContract :=
  mkPrecompiledContract (fun input => base + (lenZ input + 31) / 32 * word) exec startingBlock.

Record ChainOperationParams := mkChainOperationParams {
  m_blockReward : Z;
  maximumExtraDataSize : Z;
  accountStartNonce : Z;
  tieBreakingGas : bool;
  minGasLimit : Z;
  maxGasLimit : Z;
  gasLimitBoundDivisor : Z;
  homesteadForkBlock : Z;
  EIP150ForkBlock : Z;
  EIP158ForkBlock : Z;
  byzantiumForkBlock : Z;
  eWASMForkBlock : Z;
  constantinopleForkBlock : Z;
  daoHardforkBlock : Z;
  chainID : Z;
  networkID : Z;
  minimumDifficulty : Z;
  difficultyBoundDivisor : Z;
  durationLimit : Z;
  allowFutureBlocks : bool;
  precompiled : gmap Z PrecompiledContract
}.

Definition c_infiniteBlockNumer : Z := 2 ^ 63 - 1.

(** The default constructor. *)
Definition new_ChainOperationParams : ChainOperationParams :=
  mkChainOperationParams 0x4563918244F40000 1024 0 true 0x1388 0x7fffffffffffffff 0x0400
    c_infiniteBlockNumer c_infiniteBlockNumer c_infiniteBlockNumer c_infiniteBlockNumer c_infiniteBlockNumer
    c_infiniteBlockNumer c_infiniteBlockNumer 0 0 0x020000 0x0800 0x0d false ∅.

Definition scheduleForBlockNumber (p : ChainOperationParams) (blockNumber : Z) : EVMSchedule :=
  if constantinopleForkBlock p <=? blockNumber then ConstantinopleSchedule
  else if eWASMForkBlock p <=? blockNumber then EWASMSchedule
  else if byzantiumForkBlock p <=? blockNumber then ByzantiumSchedule
  else if EIP158ForkBlock p <=? blockNumber then EIP158Schedule
  else if EIP150ForkBlock p <=? blockNumber then EIP150Schedule
  else if homesteadForkBlock p <=? blockNumber then HomesteadSchedule
  else FrontierSchedule.

Definition blockReward (p : ChainOperationParams) (schedule : EVMSchedule) : Z :=
  match blockRewardOverwrite schedule with Some r => r | None => m_blockReward p end.

(** ** Facts *)

(** The numbers every schedule agrees on. *)
Lemma schedule_gas p n :
  let s := scheduleForBlockNumber p n in
  21000 <= txGas s <= txCreateGas s /\ 0 <= txDataZeroGas s <= txDataNonZeroGas s /\ createDataGas s = 200 /\
  txCreateGas s <= 53000 /\ txDataNonZeroGas s = 68 /\ 0 <= maxCodeSize s < 2 ^ 32 /\
  sstoreRefundGas s = 15000 /\ suicideRefundGas s = 24000.
Proof. unfold scheduleForBlockNumber. repeat case_match; cbn; lia. Qed.
