(* ===== verification/Transaction.v ===== *)
(** * Transactions (libaeccore/TransactionBase.h, TransactionBase.cpp,
    libaecereum/Transaction.h, Transaction.cpp)

    The members of a transaction, reading it from RLP and writing it, its
    sender, its hash, and the gas it pays before it runs.  Recovering a public
    key from a signature and signing are done by secp256k1, which is not part
    of the tree. *)
From stdpp Require Import base list.
From Stdlib Require Import ZArith Lia.
From S2P Require Import Prelude Words Result Rlp Account State Schedule.
Open Scope result_scope.

(** [struct SignatureStruct] (libdevcrypto/Common.h). *)
Record SignatureStruct := mkSignatureStruct { sig_r : Z; sig_s : Z; sig_v : Z }.

Definition c_secp256k1n : Z := 115792089237316195423570985008687907852837564279074904382605163141518161494337.

Definition isValid (s : SignatureStruct) : bool :=
  (sig_v s <=? 1) && (0 <? sig_r s) && (0 <? sig_s s)
  && (sig_r s <? 0xfffffffffffffffffffffffffffffffebaaedce6af48a03bbfd25e8cd0364141)
  && (sig_s s <? 0xfffffffffffffffffffffffffffffffebaaedce6af48a03bbfd25e8cd0364141).

(** libsecp256k1: the bytes of the public key, all zero when there is none, and
    the signature of a hash. *)
Class Secp256k1 := {
  recover : SignatureStruct -> Z -> list Z;
  sign_hash : Z -> Z -> SignatureStruct
}.

(** [enum class ImportResult] (libaeccore/Common.h): what the queues answer. *)
Inductive ImportResult : Set :=
| Success | UnknownParent | FutureTimeKnown | FutureTimeUnknown | AlreadyInChain | AlreadyKnown
| Malformed | OverbidGasPrice | BadChain | ZeroSignature.

#[export] Instance ImportResult_dec : EqDecision ImportResult.
Proof. solve_decision. Defined.

Inductive TransactionType : Set := NullTransaction | ContractCreation | MessageCall.

Inductive IncludeSignature : Set := WithoutSignature | WithSignature.

Inductive CheckTransaction : Set := CheckNone | CheckCheap | CheckEverything.

(** The members; [m_hashWith] and [m_sender] are caches, [0] when unset. *)
Record TransactionBase := mkTransactionBase {
  m_type : TransactionType;
  t_nonce : Z;
  t_value : Z;
  m_receiveAddress : Z;
  m_gasPrice : Z;
  t_gas : Z;
  t_data : list Z;
  m_vrs : option SignatureStruct;
  m_chainId : Z;
  m_hashWith : Z;
  m_sender : Z
}.

Inductive tx_error : Set :=
| TxRlp (e : rlp_error)
| InvalidTransactionFormat
| InvalidSignature
| TransactionIsUnsigned.

Definition tx_rlp {A} (r : res A) : result tx_error A :=
  match r with
  | Value a => Value a
  | Error e => Error (TxRlp e)
  | OutOfBounds => OutOfBounds
  | OutOfFuel => OutOfFuel
  end.

(** ** Construction *)

Definition null_transaction : TransactionBase := mkTransactionBase NullTransaction 0 0 0 0 0 [] None (-4) 0 0.

(** The unsigned constructors. *)
Definition message_transaction (value gasPrice gas dest : Z) (data : list Z) (nonce : Z) : TransactionBase :=
  mkTransactionBase MessageCall nonce value dest gasPrice gas data None (-4) 0 0.
Definition creation_transaction (value gasPrice gas : Z) (data : list Z) (nonce : Z) : TransactionBase :=
  mkTransactionBase ContractCreation nonce value 0 gasPrice gas data None (-4) 0 0.

Definition forceSender (a : Z) (t : TransactionBase) : TransactionBase :=
  mkTransactionBase (m_type t) (t_nonce t) (t_value t) (m_receiveAddress t) (m_gasPrice t) (t_gas t) (t_data t) (m_vrs t)
    (m_chainId t) (m_hashWith t) a.
Definition set_vrs (v : option SignatureStruct) (t : TransactionBase) : TransactionBase :=
  mkTransactionBase (m_type t) (t_nonce t) (t_value t) (m_receiveAddress t) (m_gasPrice t) (t_gas t) (t_data t) v
    (m_chainId t) (m_hashWith t) (m_sender t).
(** [setNonce] after [clearSignature]. *)
Definition setNonce (n : Z) (t : TransactionBase) : TransactionBase :=
  mkTransactionBase (m_type t) n (t_value t) (m_receiveAddress t) (m_gasPrice t) (t_gas t) (t_data t)
    (Some (mkSignatureStruct 0 0 0)) (m_chainId t) (m_hashWith t) (m_sender t).

(** ** Queries *)

Definition is_null (t : TransactionBase) : bool := match m_type t with NullTransaction => true | _ => false end.
Definition isCreation (t : TransactionBase) : bool := match m_type t with ContractCreation => true | _ => false end.
Definition isZeroSignature (r s : Z) : bool := (r =? 0) && (s =? 0).
Definition hasSignature (t : TransactionBase) : bool := match m_vrs t with Some _ => true | None => false end.
Definition hasZeroSignature (t : TransactionBase) : bool :=
  match m_vrs t with Some v => isZeroSignature (sig_r v) (sig_s v) | None => false end.
Definition isReplayProtected (t : TransactionBase) : bool := negb (m_chainId t =? -4).

Definition transaction_eqb (a b : TransactionBase) : bool :=
  match m_type a, m_type b with
  | NullTransaction, NullTransaction | MessageCall, MessageCall => m_receiveAddress a =? m_receiveAddress b
  | ContractCreation, ContractCreation => true
  | _, _ => false
  end && (t_value a =? t_value b) && bool_decide (t_data a = t_data b).

Definition checkLowS (t : TransactionBase) : result tx_error unit :=
  match m_vrs t with
  | None => Error TransactionIsUnsigned
  | Some v => throw_if (c_secp256k1n / 2 <? sig_s v) InvalidSignature
  end.

Definition checkChainId (chainId : Z) (t : TransactionBase) : result tx_error unit :=
  throw_if (negb (m_chainId t =? chainId) && negb (m_chainId t =? -4)) InvalidSignature.

(** [baseGasRequired]: an [int64_t]. *)
Definition baseGasRequired_of (contractCreation : bool) (data : list Z) (es : EVMSchedule) : Z :=
  foldl (fun g b => i64 (g + (if negb (b =? 0) then txDataNonZeroGas es else txDataZeroGas es)))
    (if contractCreation then txCreateGas es else txGas es) data.
Definition baseGasRequired (es : EVMSchedule) (t : TransactionBase) : Z := baseGasRequired_of (isCreation t) (t_data t) es.

(** ** Writing *)

(** [RLPStream::append(unsigned)] of an [int]. *)
Definition append_C_int (i : Z) (s : RLPStream) : res RLPStream := append_int (u32 i) s.

Definition streamRLP (sig : IncludeSignature) (forEip155hash : bool) (t : TransactionBase) (s : RLPStream)
    : result tx_error RLPStream :=
  let withSig := match sig with WithSignature => true | WithoutSignature => false end in
  if is_null t then Value s
  else
    s <- tx_rlp (appendList ((if withSig || forEip155hash then 3 else 0) + 6) s) ;;
    s <- tx_rlp (append_int (t_nonce t) s) ;;
    s <- tx_rlp (append_int (m_gasPrice t) s) ;;
    s <- tx_rlp (append_int (t_gas t) s) ;;
    s <- tx_rlp (match m_type t with
                 | MessageCall => append_bytes false (addr_bytes (m_receiveAddress t)) s
                 | _ => append_bytes false [] s
                 end) ;;
    s <- tx_rlp (append_int (t_value t) s) ;;
    s <- tx_rlp (append_bytes false (t_data t) s) ;;
    if withSig then
      match m_vrs t with
      | None => Error TransactionIsUnsigned
      | Some v =>
          s <- tx_rlp (if hasZeroSignature t then append_C_int (m_chainId t) s
                       else append_C_int (sig_v v + (m_chainId t * 2 + 35)) s) ;;
          s <- tx_rlp (append_int (sig_r v) s) ;;
          tx_rlp (append_int (sig_s v) s)
      end
    else if forEip155hash then
      s <- tx_rlp (append_C_int (m_chainId t) s) ;;
      s <- tx_rlp (append_C_int 0 s) ;;
      tx_rlp (append_C_int 0 s)
    else Value s.

(** [rlp(_sig)] *)
Definition tx_bytes (sig : IncludeSignature) (t : TransactionBase) : result tx_error (list Z) :=
  s <- streamRLP sig false t empty_stream ;; tx_rlp (stream_out s).

Section Crypto.
  Context `{Sha3} `{!Secp256k1}.

(** [sha3(_sig)], without and with the cache. *)
Definition tx_hash (sig : IncludeSignature) (t : TransactionBase) : result tx_error Z :=
  match sig with
  | WithSignature =>
      if negb (m_hashWith t =? 0) then Value (m_hashWith t)
      else s <- streamRLP sig false t empty_stream ;; o <- tx_rlp (stream_out s) ;; Value (sha3 o)
  | WithoutSignature =>
      s <- streamRLP sig (0 <? m_chainId t) t empty_stream ;; o <- tx_rlp (stream_out s) ;; Value (sha3 o)
  end.

(** [right160] *)
Definition right160 (h : Z) : Z := h mod 2 ^ 160.
Definition ZeroAddress : Z := 0.
Definition MaxAddress : Z := 2 ^ 160 - 1.
Definition SystemAddress : Z := 2 ^ 160 - 2.

(** [sender()]; the object remembers the answer. *)
Definition sender (t : TransactionBase) : result tx_error Z :=
  if negb (m_sender t =? 0) then Value (m_sender t)
  else if hasZeroSignature t then Value MaxAddress
  else
    match m_vrs t with
    | None => Error TransactionIsUnsigned
    | Some v =>
        h <- tx_hash WithoutSignature t ;;
        let p := recover v h in
        throw_if (forallb (Z.eqb 0) p) InvalidSignature ;;
        Value (right160 (sha3 p))
    end.
Definition with_sender (t : TransactionBase) : result tx_error TransactionBase :=
  a <- sender t ;; Value (forceSender a t).

(** [safeSender()]: no exception leaves it. *)
Definition safeSender (t : TransactionBase) : result tx_error Z :=
  match sender t with
  | Error _ => Value ZeroAddress
  | r => r
  end.

Definition sign (priv : Z) (t : TransactionBase) : result tx_error TransactionBase :=
  h <- tx_hash WithoutSignature t ;;
  let v := sign_hash priv h in
  Value (if isValid v then set_vrs (Some v) t else t).

(** ** Reading *)

(** [int] from RLP: the shifts are done in the type. *)
Definition i32 (z : Z) : Z := (z + 2 ^ 31) mod 2 ^ 32 - 2 ^ 31.
Definition T_int : IntType := mkIntType 4 i32.

(** The chain id and the signature of the last three fields. *)
Definition read_signature (checkSig : CheckTransaction) (v r s : Z) : result tx_error (Z * SignatureStruct) :=
  if isZeroSignature r s then Value (v, mkSignatureStruct r s 0)
  else
    chainId <- (if 36 <? v then Value (Z.quot (v - 35) 2)
                else if (v =? 27) || (v =? 28) then Value (-4)
                else Error InvalidSignature) ;;
    let vrs := mkSignatureStruct r s (u8 (v - (chainId * 2 + 35))) in
    throw_if (match checkSig with CheckNone => false | _ => negb (isValid vrs) end) InvalidSignature ;;
    Value (chainId, vrs).

(** [TransactionBase(_rlpData, _checkSig)].  The handler that adds the text of the
    transaction to the exception is left out: making the text may throw in turn, and
    then that exception leaves instead. *)
Definition parse_transaction (rlpData : list Z) (checkSig : CheckTransaction) : result tx_error TransactionBase :=
  d <- tx_rlp (mkRLP VeryStrict rlpData) ;;
  let rlp := fresh_RLP d in
  throw_if (negb (isList d)) InvalidTransactionFormat ;;
  i0 <- tx_rlp (subscript 0 rlp) ;; nonce <- tx_rlp (toInt T_u256 Strict (fst i0)) ;;
  i1 <- tx_rlp (subscript 1 (snd i0)) ;; gasPrice <- tx_rlp (toInt T_u256 Strict (fst i1)) ;;
  i2 <- tx_rlp (subscript 2 (snd i1)) ;; gas <- tx_rlp (toInt T_u256 Strict (fst i2)) ;;
  i3 <- tx_rlp (subscript 3 (snd i2)) ;;
  let type := if Rlp.isEmpty (fst i3) then ContractCreation else MessageCall in
  i3' <- tx_rlp (subscript 3 (snd i3)) ;;
  to <- (if Rlp.isEmpty (fst i3') then Value (replicate 20 0, snd i3')
         else i <- tx_rlp (subscript 3 (snd i3')) ;; a <- tx_rlp (toHash 20 VeryStrict (fst i)) ;; Value (a, snd i)) ;;
  i4 <- tx_rlp (subscript 4 (snd to)) ;; value <- tx_rlp (toInt T_u256 Strict (fst i4)) ;;
  i5 <- tx_rlp (subscript 5 (snd i4)) ;;
  throw_if (negb (isData (fst i5))) InvalidTransactionFormat ;;
  i5' <- tx_rlp (subscript 5 (snd i5)) ;; data <- tx_rlp (toBytes LaissezFaire (fst i5')) ;;
  i6 <- tx_rlp (subscript 6 (snd i5')) ;; v <- tx_rlp (toInt T_int Strict (fst i6)) ;;
  i7 <- tx_rlp (subscript 7 (snd i6)) ;; r <- tx_rlp (toInt T_u256 Strict (fst i7)) ;;
  i8 <- tx_rlp (subscript 8 (snd i7)) ;; s <- tx_rlp (toInt T_u256 Strict (fst i8)) ;;
  sg <- read_signature checkSig v r s ;;
  let t := mkTransactionBase type nonce value (be_val (fst to)) gasPrice gas data (Some (snd sg)) (fst sg) 0 0 in
  t <- (match checkSig with CheckEverything => with_sender t | _ => Value t end) ;;
  n <- tx_rlp (itemCount d) ;;
  throw_if (9 <? n) InvalidTransactionFormat ;;
  Value t.
End Crypto.
