(* ===== verification/SealEngine.v ===== *)
(** * Checks of transactions against the chain (libaeccore/SealEngine.h,
    SealEngine.cpp, libaecashseal/Ethash.cpp, libevm/ExtVMFace.h)

    The environment a block gives its transactions, the precompiled contracts
    of the chain, and what a transaction has to satisfy before it is run. *)
From stdpp Require Import base list gmap.
From Stdlib Require Import ZArith Lia.
From S2P Require Import Prelude Words Result Rlp Account State Schedule Transaction.
Open Scope result_scope.

(** [class EnvInfo]: what the header of the block says, the hashes of the blocks
    before it ([LastBlockHashesFace::precedingHashes] of the parent hash), and
    the gas used by the transactions before. *)
Record EnvInfo := mkEnvInfo {
  env_number : Z;
  env_author : Z;
  env_timestamp : Z;
  env_difficulty : Z;
  env_gasLimit : Z;
  env_lastHashes : list Z;
  env_gasUsed : Z
}.

Inductive verify_error : Set :=
| VTx (e : tx_error)
| InvalidZeroSignatureTransaction
| OutOfGasIntrinsic
| BlockGasLimitReached.

Definition verify_tx {A} (r : result tx_error A) : result verify_error A :=
  match r with
  | Value a => Value a
  | Error e => Error (VTx e)
  | OutOfBounds => OutOfBounds
  | OutOfFuel => OutOfFuel
  end.

(** [struct ImportRequirements] *)
Module ImportRequirements.
Definition ValidSeal : Z := 1.
Definition UncleBasic : Z := 4.
Definition TransactionBasic : Z := 8.
Definition UncleSeals : Z := 16.
Definition TransactionSignatures : Z := 32.
Definition Parent : Z := 64.
Definition UncleParent : Z := 128.
Definition CheckUncles : Z := Z.lor UncleBasic UncleSeals.
Definition CheckTransactions : Z := Z.lor TransactionBasic TransactionSignatures.
Definition Everything : Z := Z.lor (Z.lor (Z.lor ValidSeal CheckUncles) CheckTransactions) (Z.lor Parent UncleParent).
End ImportRequirements.

(** The seal engine: [NoProof] verifies what every engine does, [aecash] also
    the chain id. *)
Inductive SealEngineName : Set := NoProof | aecash.

Record SealEngine := mkSealEngine {
  sealEngineName : SealEngineName;
  chainParams : ChainOperationParams
}.

Definition evmSchedule (e : SealEngine) (blockNumber : Z) : EVMSchedule := scheduleForBlockNumber (chainParams e) blockNumber.
Definition block_reward (e : SealEngine) (blockNumber : Z) : Z := blockReward (chainParams e) (evmSchedule e blockNumber).

Definition isPrecompiled (e : SealEngine) (a blockNumber : Z) : bool :=
  match precompiled (chainParams e) !! a with
  | Some c => m_startingBlock c <=? blockNumber
  | None => false
  end.

(** [precompiled.at(_a)] throws [std::out_of_range]; the callers ask
    [isPrecompiled] first. *)
Definition costOfPrecompiled (e : SealEngine) (a : Z) (input : list Z) : option Z :=
  (fun c => m_cost c input) <$> precompiled (chainParams e) !! a.
Definition executePrecompiled (e : SealEngine) (a : Z) (input : list Z) : option (bool * list Z) :=
  (fun c => m_execute c input) <$> precompiled (chainParams e) !! a.

(** [SealEngineFace::verifyTransaction]: the sum of the gas does not wrap. *)
Definition SealEngineFace_verifyTransaction (e : SealEngine) (ir : Z) (t : TransactionBase) (number gasLimit gasUsed : Z)
    : result verify_error unit :=
  let p := chainParams e in
  throw_if (flag ImportRequirements.TransactionSignatures ir && (number <? EIP158ForkBlock p) && isReplayProtected t)
    (VTx InvalidSignature) ;;
  throw_if (flag ImportRequirements.TransactionSignatures ir && (number <? constantinopleForkBlock p) && hasZeroSignature t)
    (VTx InvalidSignature) ;;
  throw_if (flag ImportRequirements.TransactionBasic ir && (constantinopleForkBlock p <=? number) && hasZeroSignature t
            && (negb (t_value t =? 0) || negb (m_gasPrice t =? 0) || negb (t_nonce t =? 0)))
    InvalidZeroSignatureTransaction ;;
  (if (homesteadForkBlock p <=? number) && flag ImportRequirements.TransactionSignatures ir && hasSignature t
   then verify_tx (checkLowS t) else Value tt) ;;
  throw_if (flag ImportRequirements.TransactionBasic ir && (t_gas t <? baseGasRequired (evmSchedule e number) t))
    OutOfGasIntrinsic ;;
  throw_if (gasLimit <? gasUsed + t_gas t) BlockGasLimitReached.

(** [aecash::verifyTransaction], or the inherited function. *)
Definition verifyTransaction (e : SealEngine) (ir : Z) (t : TransactionBase) (number gasLimit gasUsed : Z)
    : result verify_error unit :=
  SealEngineFace_verifyTransaction e ir t number gasLimit gasUsed ;;
  match sealEngineName e with
  | NoProof => Value tt
  | aecash =>
      if flag ImportRequirements.TransactionSignatures ir then
        if EIP158ForkBlock (chainParams e) <=? number
        then verify_tx (checkChainId (chainID (chainParams e)) t)
        else verify_tx (checkChainId (-4) t)
      else Value tt
  end.

(** ** The gas a transaction pays first *)

Lemma baseGas_loop es data g :
  0 <= txDataZeroGas es <= txDataNonZeroGas es -> 0 <= g -> g + txDataNonZeroGas es * lenZ data < 2 ^ 63 ->
  g <= foldl (fun g b => i64 (g + (if negb (b =? 0) then txDataNonZeroGas es else txDataZeroGas es))) g data
    <= g + txDataNonZeroGas es * lenZ data.
Proof.
  intros Hes. revert g. induction data as [|b data IH]; intros g Hg Hl; [change (lenZ []) with 0; cbn; lia|].
  cbn [foldl]. unfold lenZ in *. cbn [length] in *. rewrite Nat2Z.inj_succ in *.
  set (c := if negb (b =? 0) then txDataNonZeroGas es else txDataZeroGas es).
  assert (0 <= c <= txDataNonZeroGas es) by (unfold c; case_match; lia).
  assert (0 <= txDataNonZeroGas es * Z.of_nat (length data)) by (apply Z.mul_nonneg_nonneg; lia). rewrite Z.mul_succ_r in *.
  rewrite (i64_small (g + c)) by lia. specialize (IH (g + c)). lia.
Qed.

(** The 64-bit sum does not overflow for any data that fits in memory. *)
Lemma baseGasRequired_range e number t : lenZ (t_data t) < 2 ^ 56 ->
  21000 <= baseGasRequired (evmSchedule e number) t <= 53000 + 68 * lenZ (t_data t).
Proof.
  intros Hl. pose proof (schedule_gas (chainParams e) number) as Hs. cbv zeta in Hs.
  change (scheduleForBlockNumber (chainParams e) number) with (evmSchedule e number) in Hs.
  unfold baseGasRequired, baseGasRequired_of. set (es := evmSchedule e number) in *.
  set (g := if isCreation t then txCreateGas es else txGas es). assert (21000 <= g <= 53000) by (unfold g; case_match; lia).
  pose proof (lenZ_nonneg (t_data t)). destruct Hs as (_ & Hz & _ & _ & Hnz & _).
  pose proof (baseGas_loop es (t_data t) g Hz ltac:(lia) ltac:(lia)) as Hb. lia.
Qed.
