(* ===== verification/Executive.v ===== *)
(** * Message-call and transaction execution (libaecereum/Executive.h,
    Executive.cpp, State.cpp, libevm/ExtVMFace.h, VMFace.h)

    An [Executive] runs one message call, one contract creation or one
    transaction on the state.  It prepares the environment ([ExtVM]) of the
    code, lets a virtual machine run it, and undoes the changes when that
    fails.  The machine is the parameter [VMFace]: ExtVM.v makes one of the
    interpreter. *)
From stdpp Require Import base list gmap sorting.
From Stdlib Require Import ZArith Lia.
From S2P Require Import Prelude Words Result Rlp StateMonad Account Evmc VMState State Schedule Transaction SealEngine.
Open Scope sm_scope.

(** ** Data *)

Record LogEntry := mkLogEntry { log_address : Z; log_topics : list Z; log_data : list Z }.

(** [struct SubState] *)
Record SubState := mkSubState {
  suicides : gset Z;
  logs : list LogEntry;
  refunds : Z
}.
Definition empty_SubState : SubState := mkSubState ∅ [] 0.

(** [operator+=] *)
Definition SubState_add (a b : SubState) : SubState :=
  mkSubState (suicides a ∪ suicides b) (logs a ++ logs b) (u256 (refunds a + refunds b)).

(** The environment of running code: [ExtVMFace] with [ExtVM], less the
    references to the state, the block and the seal engine. *)
Record ExtVM := mkExtVM {
  myAddress : Z;
  caller : Z;
  origin : Z;
  x_value : Z;
  x_gasPrice : Z;
  x_data : list Z;
  x_code : list Z;
  x_codeHash : Z;
  sub : SubState;
  x_depth : Z;
  isCreate : bool;
  staticCall : bool
}.
Definition new_ExtVM (my call orig value gasPrice : Z) (data code : list Z) (codeHash depth : Z) (create static : bool) : ExtVM :=
  mkExtVM my call orig value gasPrice data code codeHash empty_SubState depth create static.
Definition set_sub (u : SubState) (x : ExtVM) : ExtVM :=
  mkExtVM (myAddress x) (caller x) (origin x) (x_value x) (x_gasPrice x) (x_data x) (x_code x) (x_codeHash x) u
    (x_depth x) (isCreate x) (staticCall x).

(** [struct CallParameters] *)
Record CallParameters := mkCallParameters {
  senderAddress : Z;
  codeAddress : Z;
  receiveAddress : Z;
  valueTransfer : Z;
  apparentValue : Z;
  p_gas : Z;
  p_data : list Z;
  p_staticCall : bool
}.

Inductive TransactionException : Set :=
| TE_None | TE_Unknown | TE_BadRLP | TE_InvalidFormat | TE_OutOfGasIntrinsic | TE_InvalidSignature | TE_InvalidNonce
| TE_NotEnoughCash | TE_OutOfGasBase | TE_BlockGasLimitReached | TE_BadInstruction | TE_BadJumpDestination
| TE_OutOfGas | TE_OutOfStack | TE_StackUnderflow | TE_RevertInstruction | TE_InvalidZeroSignatureFormat
| TE_AddressAlreadyUsed.

#[export] Instance TransactionException_eq_dec : EqDecision TransactionException.
Proof. solve_decision. Defined.

Inductive CodeDeposit : Set := Deposit_None | Deposit_Failed | Deposit_Success.

(** [struct ExecutionResult] *)
Record ExecutionResult := mkExecutionResult {
  res_gasUsed : Z;
  res_excepted : TransactionException;
  res_newAddress : Z;
  res_output : list Z;
  res_codeDeposit : CodeDeposit;
  res_gasRefunded : Z;
  res_depositSize : Z;
  res_gasForDeposit : Z
}.
Definition new_ExecutionResult : ExecutionResult := mkExecutionResult 0 TE_Unknown 0 [] Deposit_None 0 0 0.

(** What the functions throw.  [XExit] is no exception: the process is over
    ([exit(1)], [std::terminate], or behaviour that is not defined). *)
Inductive exception :=
| XState (e : state_error)
| XVerify (e : verify_error)
| XInvalidNonce
| XNotEnoughCash
| XVM (e : VMException)
| XInternalVMError
| XExit.

(** [toTransactionException] *)
Definition verifyException (e : verify_error) : TransactionException :=
  match e with
  | VTx (TxRlp _) => TE_BadRLP
  | VTx InvalidSignature => TE_InvalidSignature
  | VTx _ => TE_Unknown
  | OutOfGasIntrinsic => TE_OutOfGasIntrinsic
  | BlockGasLimitReached => TE_BlockGasLimitReached
  | InvalidZeroSignatureTransaction => TE_Unknown
  end.
Definition vmException (e : VMException) : TransactionException :=
  match e with
  | BadInstruction => TE_BadInstruction
  | BadJumpDestination => TE_BadJumpDestination
  | OutOfGas => TE_OutOfGas
  | OutOfStack => TE_OutOfStack
  | StackUnderflow => TE_StackUnderflow
  | DisallowedStateChange | BufferOverrun | RevertInstruction _ => TE_Unknown
  end.
Definition toTransactionException (e : exception) : TransactionException :=
  match e with
  | XState (RlpError _) => TE_BadRLP
  | XState NotEnoughCash | XNotEnoughCash => TE_NotEnoughCash
  | XState _ => TE_Unknown
  | XVerify e => verifyException e
  | XInvalidNonce => TE_InvalidNonce
  | XVM e => vmException e
  | XInternalVMError | XExit => TE_Unknown
  end.

(** The members of the class. *)
Record Executive := mkExecutive {
  m_ext : option ExtVM;
  e_output : list Z;
  m_res : option ExecutionResult;
  m_depth : Z;
  m_excepted : TransactionException;
  m_baseGasRequired : Z;
  m_gas : Z;
  m_refunded : Z;
  m_t : TransactionBase;
  m_logs : list LogEntry;
  m_gasCost : Z;
  m_isCreation : bool;
  m_newAddress : Z;
  m_savepoint : Z
}.

Definition new_Executive (level : Z) : Executive :=
  mkExecutive None [] None level TE_None 0 0 0 null_transaction [] 0 false 0 0.

Definition set_ext (v : option ExtVM) (e : Executive) : Executive :=
  mkExecutive v (e_output e) (m_res e) (m_depth e) (m_excepted e) (m_baseGasRequired e) (m_gas e) (m_refunded e) (m_t e)
    (m_logs e) (m_gasCost e) (m_isCreation e) (m_newAddress e) (m_savepoint e).
Definition set_output (v : list Z) (e : Executive) : Executive :=
  mkExecutive (m_ext e) v (m_res e) (m_depth e) (m_excepted e) (m_baseGasRequired e) (m_gas e) (m_refunded e) (m_t e)
    (m_logs e) (m_gasCost e) (m_isCreation e) (m_newAddress e) (m_savepoint e).
Definition set_res (v : option ExecutionResult) (e : Executive) : Executive :=
  mkExecutive (m_ext e) (e_output e) v (m_depth e) (m_excepted e) (m_baseGasRequired e) (m_gas e) (m_refunded e) (m_t e)
    (m_logs e) (m_gasCost e) (m_isCreation e) (m_newAddress e) (m_savepoint e).
Definition set_excepted (v : TransactionException) (e : Executive) : Executive :=
  mkExecutive (m_ext e) (e_output e) (m_res e) (m_depth e) v (m_baseGasRequired e) (m_gas e) (m_refunded e) (m_t e)
    (m_logs e) (m_gasCost e) (m_isCreation e) (m_newAddress e) (m_savepoint e).
Definition set_baseGasRequired (v : Z) (e : Executive) : Executive :=
  mkExecutive (m_ext e) (e_output e) (m_res e) (m_depth e) (m_excepted e) v (m_gas e) (m_refunded e) (m_t e)
    (m_logs e) (m_gasCost e) (m_isCreation e) (m_newAddress e) (m_savepoint e).
Definition set_gas (v : Z) (e : Executive) : Executive :=
  mkExecutive (m_ext e) (e_output e) (m_res e) (m_depth e) (m_excepted e) (m_baseGasRequired e) v (m_refunded e) (m_t e)
    (m_logs e) (m_gasCost e) (m_isCreation e) (m_newAddress e) (m_savepoint e).
Definition set_refunded (v : Z) (e : Executive) : Executive :=
  mkExecutive (m_ext e) (e_output e) (m_res e) (m_depth e) (m_excepted e) (m_baseGasRequired e) (m_gas e) v (m_t e)
    (m_logs e) (m_gasCost e) (m_isCreation e) (m_newAddress e) (m_savepoint e).
Definition set_t (v : TransactionBase) (e : Executive) : Executive :=
  mkExecutive (m_ext e) (e_output e) (m_res e) (m_depth e) (m_excepted e) (m_baseGasRequired e) (m_gas e) (m_refunded e) v
    (m_logs e) (m_gasCost e) (m_isCreation e) (m_newAddress e) (m_savepoint e).
Definition set_logs (v : list LogEntry) (e : Executive) : Executive :=
  mkExecutive (m_ext e) (e_output e) (m_res e) (m_depth e) (m_excepted e) (m_baseGasRequired e) (m_gas e) (m_refunded e) (m_t e)
    v (m_gasCost e) (m_isCreation e) (m_newAddress e) (m_savepoint e).
Definition set_gasCost (v : Z) (e : Executive) : Executive :=
  mkExecutive (m_ext e) (e_output e) (m_res e) (m_depth e) (m_excepted e) (m_baseGasRequired e) (m_gas e) (m_refunded e) (m_t e)
    (m_logs e) v (m_isCreation e) (m_newAddress e) (m_savepoint e).
Definition set_isCreation (v : bool) (e : Executive) : Executive :=
  mkExecutive (m_ext e) (e_output e) (m_res e) (m_depth e) (m_excepted e) (m_baseGasRequired e) (m_gas e) (m_refunded e) (m_t e)
    (m_logs e) (m_gasCost e) v (m_newAddress e) (m_savepoint e).
Definition set_newAddress (v : Z) (e : Executive) : Executive :=
  mkExecutive (m_ext e) (e_output e) (m_res e) (m_depth e) (m_excepted e) (m_baseGasRequired e) (m_gas e) (m_refunded e) (m_t e)
    (m_logs e) (m_gasCost e) (m_isCreation e) v (m_savepoint e).
Definition set_savepoint (v : Z) (e : Executive) : Executive :=
  mkExecutive (m_ext e) (e_output e) (m_res e) (m_depth e) (m_excepted e) (m_baseGasRequired e) (m_gas e) (m_refunded e) (m_t e)
    (m_logs e) (m_gasCost e) (m_isCreation e) (m_newAddress e) v.

(** [if (m_res) ...] *)
Definition with_res (f : ExecutionResult -> ExecutionResult) (e : Executive) : Executive := set_res (f <$> m_res e) e.

(** ** The virtual machine

    [VMFace::exec]: what a machine returns or throws, the gas it leaves in
    [io_gas], the environment with its sub-state, and the state. *)
Section Executive.
  Context {DB G : Type} `{Sha3} `{!StateDB DB} `{!RandomEngine G} `{!UnorderedMaps} `{!Secp256k1}.
  Context (m_envInfo : EnvInfo) (m_sealEngine : SealEngine).
Notation st := (State DB G).

Definition VMFace : Type := Z -> ExtVM -> st -> result exception (list Z) * (Z * ExtVM * st).

Notation EM := (SM (Executive * st) exception).

(** An operation of the state, and a change of the members. *)
Definition on_state {A} (p : SM st state_error A) : EM A := fun es =>
  let '(r, s) := p (snd es) in (map_error XState r, (fst es, s)).
Definition mod_e (f : Executive -> Executive) : EM unit := smod (fun es => (f (fst es), snd es)).
Definition get_e {A} (f : Executive -> A) : EM A := es <- sget ;; sret (f (fst es)).

Definition schedule : EVMSchedule := evmSchedule m_sealEngine (env_number m_envInfo).
(** [m_envInfo.number() >= m_sealEngine.chainParams().EIP158ForkBlock] *)
Definition is_EIP158 : bool := EIP158ForkBlock (chainParams m_sealEngine) <=? env_number m_envInfo.
(** The condition marked EIP86. *)
Definition has_nonce (a : Z) : bool :=
  negb (a =? MaxAddress) || (env_number m_envInfo <? constantinopleForkBlock (chainParams m_sealEngine)).

Definition gasUsed (e : Executive) : Z := u256 (t_gas (m_t e) - m_gas e).

(** [accrueSubState(_parentContext)] *)
Definition accrueSubState (e : Executive) (parentContext : SubState) : SubState :=
  match m_ext e with Some x => SubState_add parentContext (sub x) | None => parentContext end.

Definition revert : EM unit :=
  mod_e (fun e => set_ext (set_sub empty_SubState <$> m_ext e) e) ;;
  mod_e (set_newAddress 0) ;;
  sp <- get_e m_savepoint ;;
  on_state (rollback sp).

(** ** Starting a call or a creation

    The result tells whether the execution is over, without [go]. *)

(** The precompiled branch of [call]: [Some] is its [return]. *)
Definition call_precompiled (p : CallParameters) : EM (option bool) :=
  g <- slift (rget (costOfPrecompiled m_sealEngine (codeAddress p) (p_data p))) ;;
  if p_gas p <? g then
    mod_e (set_excepted TE_OutOfGasBase) ;;
    (if is_EIP158 then on_state (addBalance (codeAddress p) 0) else sret tt) ;;
    sret (Some true)
  else
    mod_e (set_gas (u256 (p_gas p - g))) ;;
    out <- slift (rget (executePrecompiled m_sealEngine (codeAddress p) (p_data p))) ;;
    mod_e (set_output (snd out)) ;;
    if negb (fst out) then
      mod_e (set_gas 0) ;; mod_e (set_excepted TE_OutOfGas) ;; sret (Some true)
    else sret None.

(** The other branch. *)
Definition call_code (p : CallParameters) (gasPrice origin : Z) : EM (option bool) :=
  mod_e (set_gas (p_gas p)) ;;
  b <- on_state (addressHasCode (codeAddress p)) ;;
  if b then
    c <- on_state (code (codeAddress p)) ;;
    h <- on_state (codeHash (codeAddress p)) ;;
    mod_e (fun e => set_ext (Some (new_ExtVM (receiveAddress p) (senderAddress p) origin (apparentValue p) gasPrice
                                     (p_data p) c h (m_depth e) false (p_staticCall p))) e) ;;
    sret None
  else sret None.

(** [m_savepoint = m_s.savepoint()] *)
Definition save : EM unit := smod (fun es => (set_savepoint (savepoint (snd es)) (fst es), snd es)).

Definition call (p : CallParameters) (gasPrice origin : Z) : EM bool :=
  null <- get_e (fun e => is_null (m_t e)) ;;
  (if negb null && has_nonce (senderAddress p) then on_state (State.incNonce (senderAddress p)) else sret tt) ;;
  save ;;
  r <- (if isPrecompiled m_sealEngine (codeAddress p) (env_number m_envInfo) then call_precompiled p
        else call_code p gasPrice origin) ;;
  match r with
  | Some b => sret b
  | None =>
      on_state (transferBalance (senderAddress p) (receiveAddress p) (valueTransfer p)) ;;
      get_e (fun e => match m_ext e with None => true | Some _ => false end)
  end.

(** The other overload, for transactions. *)
Definition call_transaction (receiveAddress senderAddress value gasPrice : Z) (data : list Z) (gas : Z) : EM bool :=
  call (mkCallParameters senderAddress receiveAddress receiveAddress value value gas data false) gasPrice senderAddress.

Definition executeCreate (sender endowment gasPrice gas : Z) (init : list Z) (origin : Z) : EM bool :=
  (if has_nonce sender then on_state (State.incNonce sender) else sret tt) ;;
  save ;;
  mod_e (set_isCreation true) ;;
  mod_e (set_gas gas) ;;
  new <- get_e m_newAddress ;;
  hasCode <- on_state (addressHasCode new) ;;
  accountAlreadyExist <- (if (hasCode : bool) then sret true else n <- on_state (getNonce new) ;; sret (0 <? n)) ;;
  if (accountAlreadyExist : bool) then
    mod_e (set_gas 0) ;;
    mod_e (set_excepted TE_AddressAlreadyUsed) ;;
    revert ;;
    mod_e (set_ext None) ;;
    sret true
  else
    on_state (transferBalance sender new endowment) ;;
    n <- on_state requireAccountStartNonce ;;
    on_state (State.setNonce new (if is_EIP158 then u256 (n + 1) else n)) ;;
    (if negb (lenZ init =? 0) then
       mod_e (fun e => set_ext (Some (new_ExtVM new sender origin endowment gasPrice [] init (sha3 init) (m_depth e) true false)) e)
     else sret tt) ;;
    get_e (fun e => match m_ext e with None => true | Some _ => false end).

(** [rlpList(_sender, nonce)] *)
Definition create_rlp (sender nonce : Z) : res (list Z) :=
  (s <- appendList 2 empty_stream ;;
   s <- append_bytes false (addr_bytes sender) s ;;
   s <- append_int nonce s ;;
   stream_out s)%result.

Definition createOpcode (sender endowment gasPrice gas : Z) (init : list Z) (origin : Z) : EM bool :=
  nonce <- on_state (getNonce sender) ;;
  r <- on_state (slift (of_rlp (create_rlp sender nonce))) ;;
  mod_e (set_newAddress (right160 (sha3 r))) ;;
  executeCreate sender endowment gasPrice gas init origin.

Definition create2Opcode (sender endowment gasPrice gas : Z) (init : list Z) (origin salt : Z) : EM bool :=
  mod_e (set_newAddress (right160 (sha3 (addr_bytes sender ++ toBigEndian 32 salt ++ h256_bytes (sha3 init))))) ;;
  executeCreate sender endowment gasPrice gas init origin.

Definition create (txSender endowment gasPrice gas : Z) (init : list Z) (origin : Z) : EM bool :=
  createOpcode txSender endowment gasPrice gas init origin.

(** ** Running the code *)

Section Go.
  Context (vm : VMFace).

(** [vm->exec(m_gas, *m_ext, _onOp)] *)
Definition run_vm (x : ExtVM) : EM (list Z) := fun es =>
  let '(e, s) := es in
  let '(r, (g, x', s')) := vm (m_gas e) x s in
  (r, (set_ext (Some x') (set_gas g e), s')).

(** The price of the code [out], by [size_t] arithmetic. *)
Definition deposit_cost (out : list Z) : Z := u64 (lenZ out * createDataGas schedule).

(** The body of the [try]. *)
Definition go_create (x : ExtVM) : EM unit :=
  on_state (State.clearStorage (myAddress x)) ;;
  out <- run_vm x ;;
  mod_e (fun e => with_res (fun r => mkExecutionResult (res_gasUsed r) (res_excepted r) (res_newAddress r) (res_output r)
                                     (res_codeDeposit r) (res_gasRefunded r) (u32 (lenZ out)) (m_gas e)) e) ;;
  gas <- get_e m_gas ;;
  out <- (if maxCodeSize schedule <? lenZ out then sthrow (XVM OutOfGas)
          else if deposit_cost out <=? gas then
            mod_e (with_res (fun r => mkExecutionResult (res_gasUsed r) (res_excepted r) (res_newAddress r) (res_output r)
                                        Deposit_Success (res_gasRefunded r) (res_depositSize r) (res_gasForDeposit r))) ;;
            mod_e (fun e => set_gas (u256 (m_gas e - deposit_cost out)) e) ;;
            sret out
          else if exceptionalFailedCodeDeposit schedule then sthrow (XVM OutOfGas)
          else
            mod_e (with_res (fun r => mkExecutionResult (res_gasUsed r) (res_excepted r) (res_newAddress r) (res_output r)
                                        Deposit_Failed (res_gasRefunded r) (res_depositSize r) (res_gasForDeposit r))) ;;
            sret []) ;;
  mod_e (with_res (fun r => mkExecutionResult (res_gasUsed r) (res_excepted r) (res_newAddress r) out
                              (res_codeDeposit r) (res_gasRefunded r) (res_depositSize r) (res_gasForDeposit r))) ;;
  on_state (State.setCode (myAddress x) out).
Definition go_body (x : ExtVM) : EM unit :=
  create <- get_e m_isCreation ;;
  if (create : bool) then go_create x else out <- run_vm x ;; mod_e (set_output out).

(** The handlers. *)
Definition go_catch (ex : exception) : EM unit :=
  match ex with
  | XVM (RevertInstruction out) =>
      revert ;; mod_e (set_output out) ;; mod_e (set_excepted TE_RevertInstruction)
  | XVM e => mod_e (set_gas 0) ;; mod_e (set_excepted (vmException e)) ;; revert
  | XInternalVMError => sthrow XInternalVMError
  | _ => sthrow XExit
  end.

Definition try_catch (body : EM unit) (handler : exception -> EM unit) : EM unit := fun es =>
  match body es with
  | (Error ex, es') => handler ex es'
  | r => r
  end.

Definition go : EM bool :=
  ext <- get_e m_ext ;;
  match ext with
  | None => sret true
  | Some x =>
      try_catch (go_body x) go_catch ;;
      mod_e (fun e => if lenZ (e_output e) =? 0 then e
                      else with_res (fun r => mkExecutionResult (res_gasUsed r) (res_excepted r) (res_newAddress r) (e_output e)
                                                (res_codeDeposit r) (res_gasRefunded r) (res_depositSize r) (res_gasForDeposit r)) e) ;;
      sret true
  end.
End Go.

(** ** Transactions *)

(** [m_t.sender()] *)
Definition tx_sender : EM Z := fun es =>
  match with_sender (m_t (fst es)) with
  | Value t => (Value (m_sender t), (set_t t (fst es), snd es))
  | r => (map_error (fun e => XVerify (VTx e)) (rbind r (fun _ => Value 0)), es)
  end.

(** Note the exception and throw it again. *)
Definition noting {A} (body : EM A) (f : exception -> option TransactionException) : EM A := fun es =>
  match body es with
  | (Error ex, (e, s)) => (Error ex, (match f ex with Some x => set_excepted x e | None => e end, s))
  | r => r
  end.

Definition initialize (t : TransactionBase) : EM unit :=
  mod_e (set_t t) ;;
  mod_e (set_baseGasRequired (baseGasRequired schedule t)) ;;
  noting (slift (map_error XVerify (verifyTransaction m_sealEngine ImportRequirements.Everything t (env_number m_envInfo)
                                      (env_gasLimit m_envInfo) (env_gasUsed m_envInfo))))
    (fun ex => Some (toTransactionException ex)) ;;
  if hasZeroSignature t then sret tt
  else
    nonceReq <- noting (a <- tx_sender ;; on_state (getNonce a))
      (fun ex => match ex with XVerify (VTx InvalidSignature) => Some TE_InvalidSignature | _ => None end) ;;
    if negb (t_nonce t =? nonceReq) then
      mod_e (set_excepted TE_InvalidNonce) ;;
      sthrow XInvalidNonce
    else
      let gasCost := t_gas t * m_gasPrice t in
      let totalCost := t_value t + gasCost in
      a <- tx_sender ;;
      b <- on_state (balance a) ;;
      if b <? totalCost then
        mod_e (set_excepted TE_NotEnoughCash) ;;
        on_state (balance a) ;;
        sthrow XNotEnoughCash
      else mod_e (set_gasCost (u256 gasCost)).

Definition execute : EM bool :=
  a <- tx_sender ;;
  cost <- get_e m_gasCost ;;
  on_state (subBalance a cost) ;;
  t <- get_e m_t ;;
  base <- get_e m_baseGasRequired ;;
  let gas := u256 (t_gas t - base) in
  if isCreation t then create a (t_value t) (m_gasPrice t) gas (t_data t) a
  else call_transaction (m_receiveAddress t) a (t_value t) (m_gasPrice t) (t_data t) gas.

(** A [std::set<Address>] is iterated in the order of the addresses. *)
Definition ascending (l : gset Z) : list Z := merge_sort Z.le (elements l).

Fixpoint kill_all (l : list Z) : SM st state_error unit :=
  match l with [] => sret tt | a :: l => State.kill a ;; kill_all l end.

Definition finalize : EM bool :=
  mod_e (fun e => set_ext ((fun x => set_sub (mkSubState (suicides (sub x)) (logs (sub x))
                                                (u256 (refunds (sub x) + u64 (suicideRefundGas schedule * Z.of_nat (size (suicides (sub x)))))))
                                       x) <$> m_ext e) e) ;;
  mod_e (fun e => set_refunded (match m_ext e with
                                | Some x => Z.min (u256 (t_gas (m_t e) - m_gas e) / 2) (refunds (sub x))
                                | None => 0
                                end) e) ;;
  mod_e (fun e => set_gas (u256 (m_gas e + m_refunded e)) e) ;;
  null <- get_e (fun e => is_null (m_t e)) ;;
  (if negb null then
     a <- tx_sender ;;
     e <- get_e (fun e => e) ;;
     on_state (addBalance a (u256 (m_gas e * m_gasPrice (m_t e)))) ;;
     let feesEarned := u256 (u256 (t_gas (m_t e) - m_gas e) * m_gasPrice (m_t e)) in
     on_state (addBalance (env_author m_envInfo) feesEarned)
   else sret tt) ;;
  ext <- get_e m_ext ;;
  match ext with
  | Some x => on_state (kill_all (ascending (suicides (sub x)))) ;; mod_e (set_logs (logs (sub x)))
  | None => sret tt
  end ;;
  mod_e (fun e => with_res (fun r => mkExecutionResult (gasUsed e) (m_excepted e) (m_newAddress e) (res_output r) (res_codeDeposit r)
                                       (match m_ext e with Some x => refunds (sub x) | None => 0 end)
                                       (res_depositSize r) (res_gasForDeposit r)) e) ;;
  get_e (fun e => bool_decide (m_excepted e = TE_None)).

Section Transaction.
  Context (vm : VMFace).

(** [executeTransaction] *)
Definition executeTransaction (t : TransactionBase) : EM bool :=
  initialize t ;;
  done <- execute ;;
  (if (done : bool) then sret true else go vm) ;;
  finalize.

(** A receipt, less the bloom filter of its logs: it is made of these. *)
Record TransactionReceipt := mkTransactionReceipt {
  m_statusCodeOrStateRoot : bool + Z;
  r_gasUsed : Z;
  m_log : list LogEntry
}.

Inductive Permanence : Set := Reverted | Committed | Uncommitted.

(** [State::execute]: an exception leaves it without undoing anything. *)
Definition State_execute (t : TransactionBase) (p : Permanence)
    : SM st exception (ExecutionResult * TransactionReceipt) := fun s =>
  let '(r, (e, s)) := executeTransaction t (set_res (Some new_ExecutionResult) (new_Executive 0), s) in
  match r with
  | Value statusCode =>
      let commits := match p with
                     | Reverted => smod (set_cache ∅)
                     | Committed => State.commit (if is_EIP158 then RemoveEmptyAccounts else KeepEmptyAccounts)
                     | Uncommitted => sret tt
                     end in
      let '(c, s) := commits s in
      let receipt := mkTransactionReceipt
        (if byzantiumForkBlock (chainParams m_sealEngine) <=? env_number m_envInfo then inl statusCode else inr (m_state s))
        (u256 (env_gasUsed m_envInfo + gasUsed e)) (m_logs e) in
      (map_error XState (rbind c (fun _ => Value (default new_ExecutionResult (m_res e), receipt))), s)
  | Error ex => (Error ex, s)
  | OutOfBounds => (OutOfBounds, s)
  | OutOfFuel => (OutOfFuel, s)
  end.
End Transaction.
End Executive.
