(* ===== verification/ExecSpec.v ===== *)
(** * What an execution leaves

    The promise of a virtual machine, as the interface [VMLaws] to the functions
    of [Executive], and from it what a message call and a creation leave behind:
    a world that moved on, and when they fail one that stands still. *)
From stdpp Require Import base list gmap.
From Stdlib Require Import ZArith Lia.
From S2P Require Import Prelude Words Result Rlp RlpSpec StateMonad Account VMState VMSpec State StateSpec StateReads StateJournal StateOps World.
From S2P Require Import RlpRead RlpTheorems RlpInt StateCommit.
From S2P Require Import Schedule Transaction SealEngine Executive.
Open Scope sm_scope.

(** The precompiled contracts: prices are not negative and outputs are bytes. *)
Class EngineLaws (e : SealEngine) := {
  cost_nonneg : forall a input g, costOfPrecompiled e a input = Some g -> 0 <= g;
  precompiled_bytes : forall a input out, executePrecompiled e a input = Some out ->
    Forall (fun b => is_byte b) out.2 /\ lenZ out.2 < 2 ^ 62
}.

Section Spec.
  Context {DB G : Type} `{Sha3} `{!StateDB DB} `{!StateDBLaws DB} `{!RandomEngine G} `{!UnorderedMaps} `{!Secp256k1}.
  Context (m_envInfo : EnvInfo) (m_sealEngine : SealEngine) `{!EngineLaws m_sealEngine}.
  Context (m : trie_map).
Notation st := (State DB G).
Notation EM := (SM (Executive * st) exception).
Notation VMFace := (VMFace (DB := DB) (G := G)).
  Notation the_view := (the_view (DB := DB) (G := G) m).
  Notation same := (same (DB := DB) (G := G) m).
  Notation ahead := (ahead (DB := DB) (G := G) m).
  Notation world_ok := (world_ok (DB := DB) (G := G) m).
  Notation moved := (moved (DB := DB) (G := G) m).
  Notation still := (still (DB := DB) (G := G) m).
  Notation plain := (plain (DB := DB) (G := G) m).
  Notation has_code := (has_code (DB := DB) (G := G) m).
  Notation no_storage := (no_storage (DB := DB) (G := G) m).

(** ** Steps of the functions *)

Lemma then_state {A B} (p : SM st state_error A) (k : A -> EM B) P R Q e s :
  posts p P (fun _ _ => False) s -> (forall a s', P a s' -> posts (k a) R Q (e, s')) ->
  posts (sbind (on_state p) k) R Q (e, s).
Proof.
  unfold posts, sbind, on_state. cbn. intros Hp Hk. destruct (p s) as [[] s']; cbn; try done. by apply Hk.
Qed.
Lemma then_mod {B} f (k : unit -> EM B) R Q e s : posts (k tt) R Q (f e, s) -> posts (sbind (mod_e f) k) R Q (e, s).
Proof. done. Qed.
Lemma then_get {A B} (f : Executive -> A) (k : A -> EM B) R Q e s : posts (k (f e)) R Q (e, s) -> posts (sbind (get_e f) k) R Q (e, s).
Proof. done. Qed.
Lemma then_save {B} (k : unit -> EM B) R Q e s : posts (k tt) R Q (set_savepoint (savepoint s) e, s) -> posts (sbind save k) R Q (e, s).
Proof. done. Qed.
Lemma last_mod f (R : unit -> Executive * st -> Prop) Q e s : R tt (f e, s) -> posts (mod_e f) R Q (e, s).
Proof. done. Qed.
Lemma last_get {A} (f : Executive -> A) (R : A -> Executive * st -> Prop) Q e s : R (f e) (e, s) -> posts (get_e f) R Q (e, s).
Proof. done. Qed.
Lemma last_state {A} (p : SM st state_error A) P (R : A -> Executive * st -> Prop) Q e s :
  posts p P (fun _ _ => False) s -> (forall a s', P a s' -> R a (e, s')) -> posts (on_state p) R Q (e, s).
Proof. unfold posts, on_state. cbn. intros Hp HR. destruct (p s) as [[] s']; cbn; try done. by apply HR. Qed.

(** ** The machine *)

(** The code may run in this environment. *)
Record frame_ok (x : ExtVM) (s : st) : Prop := {
  fr_world : world_ok s;
  fr_exists : is_Some (the_view s (myAddress x));
  fr_plain : plain s (myAddress x);
  fr_address : 0 <= myAddress x < 2 ^ 160;
  fr_depth : 0 <= x_depth x <= 1024;
  fr_value : is_u256 (x_value x);
  fr_data : Forall (fun b => is_byte b) (x_data x) /\ lenZ (x_data x) < 2 ^ 62;
  fr_code : Forall (fun b => is_byte b) (x_code x) /\ lenZ (x_code x) < 2 ^ 62;
  fr_refunds : is_u256 (refunds (sub x))
}.

Definition output_ok (out : list Z) : Prop := Forall (fun b => is_byte b) out /\ lenZ out <= maxMem.

(** What a machine leaves: output or an exception of the EVM, no more gas than
    there was, and a world that moved on. *)
Record ran (x : ExtVM) (s : st) (gas : Z) (r : result exception (list Z)) (g' : Z) (x' : ExtVM) (s' : st) : Prop := {
  rn_outcome : match r with
               | Value out | Error (XVM (RevertInstruction out)) => output_ok out
               | Error (XVM _) => True
               | _ => False
               end;
  rn_gas : 0 <= g' <= gas;
  rn_frame : x' = set_sub (sub x') x;
  rn_refunds : is_u256 (refunds (sub x'));
  rn_world : world_ok s';
  rn_moved : moved s s';
  rn_static : staticCall x = true -> still s s' /\ sub x' = sub x
}.

(** The machine keeps the promise for frames at this depth and below. *)
Class VMLaws (vm : VMFace) (depth : Z) : Prop :=
  vm_runs : forall x s gas, frame_ok x s -> depth <= x_depth x -> 0 <= gas < 2 ^ 63 ->
    let '(r, (g', x', s')) := vm gas x s in ran x s gas r g' x' s'.

(** ** A call or a creation that is ready to run *)

(** The members of the transaction stay. *)
Record same_tx (e e' : Executive) : Prop := {
  st_t : m_t e' = m_t e;
  st_base : m_baseGasRequired e' = m_baseGasRequired e;
  st_cost : m_gasCost e' = m_gasCost e;
  st_depth : m_depth e' = m_depth e;
  st_res : is_Some (m_res e) -> is_Some (m_res e')
}.

Lemma same_tx_res f e e' : same_tx e e' -> same_tx e (with_res f e').
Proof. intros []. constructor; try done. cbn. intros Hs. rewrite fmap_is_Some. auto. Qed.

(** What [call] and the creations are given: nothing has run yet. *)
Record fresh (e : Executive) : Prop := {
  fs_ext : m_ext e = None;
  fs_excepted : m_excepted e = TE_None;
  fs_output : e_output e = [];
  fs_gas : m_gas e = 0;
  fs_creation : m_isCreation e = false;
  fs_depth : 0 <= m_depth e <= 1024
}.

Definition started (s s1 : st) (a : Z) : Prop := s1 = s \/ effect m s s1 a (view_incNonce (m_accountStartNonce s)).

Definition bytes_ok (out : list Z) : Prop := Forall (fun b => is_byte b) out /\ lenZ out < 2 ^ 62.

Lemma bytes_ok_nil : bytes_ok [].
Proof. split; [by apply List.Forall_nil|by vm_compute]. Qed.
Lemma output_bytes_ok out : output_ok out -> bytes_ok out.
Proof. intros [Hb Hl]. split; [done|]. unfold maxMem in Hl. lia. Qed.

(** [s1] is the state at the savepoint. *)
Record prepared (fin : bool) (gas : Z) (static : bool) (s1 : st) (e : Executive) (s : st) : Prop := {
  pp_world1 : world_ok s1;
  pp_world : world_ok s;
  pp_moved : moved s1 s;
  pp_save : m_savepoint e = savepoint s1;
  pp_gas : 0 <= m_gas e <= gas;
  pp_output : bytes_ok (e_output e);
  pp_static : static = true -> still s1 s;
  pp_done : fin = true -> m_ext e = None /\ (m_excepted e <> TE_None -> still s1 s);
  pp_go : fin = false -> m_excepted e = TE_None /\ exists x, m_ext e = Some x /\ frame_ok x s /\
    x_depth x = m_depth e /\ staticCall x = static /\ sub x = empty_SubState /\
    (m_isCreation e = true -> dirty s (myAddress x) /\ no_storage s (myAddress x) /\ ~ has_code s1 (myAddress x) /\ static = false)
}.

(** What the caller of [call] guarantees. *)
Record call_ok (p : CallParameters) (s : st) : Prop := {
  co_transfer : is_u256 (valueTransfer p);
  co_apparent : is_u256 (apparentValue p);
  co_funds : valueTransfer p = 0 \/ valueTransfer p <= bal (the_view s (senderAddress p));
  co_gas : 0 <= p_gas p < 2 ^ 63;
  co_data : bytes_ok (p_data p);
  co_address : 0 <= receiveAddress p < 2 ^ 160;
  co_receive : receiveAddress p = codeAddress p \/ plain s (receiveAddress p);
  co_static : p_staticCall p = true -> valueTransfer p = 0 \/ senderAddress p = receiveAddress p
}.

Lemma bal_started s s1 a : started s s1 a -> bal (the_view s1 a) = bal (the_view s a).
Proof.
  intros [->|He]; [done|]. rewrite (effect_bal m _ _ _ _ a He). destruct (decide (a = a)); [|done]. apply bal_setNonce.
Qed.

(** The nonce of the sender, when a transaction or a creation counts it. *)
Lemma then_count {B} (b : bool) a (k : unit -> EM B) R Q e s : (b = true -> plain s a) -> world_ok s ->
  (forall s1, world_ok s1 -> moved s s1 -> started s s1 a -> (b = false -> s1 = s) -> posts (k tt) R Q (e, s1)) ->
  posts (sbind (if b then on_state (State.incNonce a) else sret tt) k) R Q (e, s).
Proof.
  intros Hp Hw Hk. destruct b.
  - eapply then_state; [apply (incNonce_steps m a s); auto|]. intros [] s1 (Hw1 & Hm1 & He). apply Hk; [done|done|by right|done].
  - apply Hk; [done|apply moved_refl, Hw|by left|done].
Qed.

(** Look whether there is code. *)
Lemma hasCode_steps a s : world_ok s ->
  steps m (addressHasCode a) (fun b s' => (if b then has_code s a else ~ has_code s a) /\ quiet m s s') s.
Proof.
  intros Hw. apply steps_query; [done|]. eapply posts_mono; [apply (addressHasCode_posts m), Hw| |done]. intros b s' [-> Hq]. split; [|done].
  unfold World.has_code, hash_of. destruct (the_view s a) as [v|]; cbn; [|tauto]. destruct (Z.eqb_spec (v_codeHash v) EmptySHA3); cbn; tauto.
Qed.

Lemma view_bytes s a : world_ok s -> bytes_ok (from_option v_code [] (the_view s a)).
Proof.
  intros Hw. destruct (the_view s a) as [v|] eqn:Hv; [|apply bytes_ok_nil]. apply (vo_code _ (wo_view _ _ Hw a v Hv)).
Qed.

(** The two branches of [call]. *)
Record branched (p : CallParameters) (e : Executive) (s : st) (r : option bool) (e' : Executive) (s' : st) : Prop := {
  br_tx : same_tx e e';
  br_creation : m_isCreation e' = m_isCreation e;
  br_save : m_savepoint e' = m_savepoint e;
  br_gas : 0 <= m_gas e' <= p_gas p;
  br_output : bytes_ok (e_output e');
  br_world : world_ok s';
  br_moved : moved s s';
  br_still : still s s';
  br_done : r <> None -> r = Some true /\ m_ext e' = m_ext e;
  br_go : r = None -> quiet m s s' /\ m_excepted e' = m_excepted e /\
    (m_ext e' = m_ext e \/ exists g o, m_ext e' =
       Some (new_ExtVM (receiveAddress p) (senderAddress p) o (apparentValue p) g (p_data p)
               (from_option v_code [] (the_view s (codeAddress p))) (from_option v_codeHash EmptySHA3 (the_view s (codeAddress p)))
               (m_depth e) false (p_staticCall p)) /\ has_code s (codeAddress p))
}.

Lemma call_precompiled_posts p e s : call_ok p s -> world_ok s -> m_gas e = 0 -> e_output e = [] ->
  isPrecompiled m_sealEngine (codeAddress p) (env_number m_envInfo) = true ->
  posts (call_precompiled m_envInfo m_sealEngine p) (fun r es => branched p e s r es.1 es.2) (fun _ _ => False) (e, s).
Proof.
  intros [Ht Hap Hf Hg Hd Had Hrc Hst] Hw Hg0 Ho0 Hp. unfold isPrecompiled in Hp. unfold call_precompiled, costOfPrecompiled, executePrecompiled.
  destruct (precompiled (chainParams m_sealEngine) !! codeAddress p) as [c|] eqn:Hc; [|done]. cbn [fmap option_fmap option_map rget].
  assert (0 <= m_cost c (p_data p)) as Hcost by (apply (cost_nonneg (codeAddress p) (p_data p)); unfold costOfPrecompiled; by rewrite Hc).
  assert (bytes_ok (m_execute c (p_data p)).2) as Hout by (apply (precompiled_bytes (codeAddress p) (p_data p)); unfold executePrecompiled; by rewrite Hc).
  pose proof bytes_ok_nil as Hnil. eapply (posts_bind _ _ _ (fun g es => g = m_cost c (p_data p) /\ es = (e, s))); [done|]. intros ? ? [-> ->].
  pose proof (moved_refl m s (wo_state _ _ Hw)) as Hm. pose proof (still_refl m s) as Hs. pose proof (quiet_refl m s (wo_state _ _ Hw)) as Hq.
  destruct (Z.ltb_spec (p_gas p) (m_cost c (p_data p))).
  - apply then_mod. assert (forall s', world_ok s' -> moved s s' -> still s s' -> branched p e s (Some true) (set_excepted TE_OutOfGasBase e) s') as Hb.
    { intros s' Hw' Hm' Hs'. constructor; cbn; try done; [lia|by rewrite Ho0]. }
    destruct (is_EIP158 m_envInfo m_sealEngine).
    + eapply then_state; [by apply (add_nothing_steps m)|]. intros [] s' (Hw' & Hm' & Hs' & _). apply posts_ret. by apply Hb.
    + apply posts_ret. by apply Hb.
  - apply then_mod. eapply (posts_bind _ _ _ (fun o es => o = m_execute c (p_data p) /\ es = (set_gas (u256 (p_gas p - m_cost c (p_data p))) e, s))); [done|].
    intros ? ? [-> ->]. apply then_mod. destruct (m_execute c (p_data p)) as [[] out]; cbn [negb fst snd] in *.
    + apply posts_ret. constructor; cbn; try done; [rewrite u256_small; lia|]. intros _. split_and!; [done|done|by left].
    + apply then_mod, then_mod, posts_ret. constructor; cbn; try done. lia.
Qed.

Lemma call_code_posts p gasPrice orig e s : call_ok p s -> world_ok s -> e_output e = [] ->
  posts (call_code p gasPrice orig) (fun r es => branched p e s r es.1 es.2) (fun _ _ => False) (e, s).
Proof.
  intros Hco Hw Ho. unfold call_code. apply then_mod. pose proof bytes_ok_nil as Hnil. pose proof (co_gas _ _ Hco).
  eapply then_state; [by apply hasCode_steps|]. intros [] s1 (Hw1 & Hm1 & Hcode & Hq1).
  - eapply then_state; [apply (code_posts m), Hw1|]. intros c s2 (-> & Hq2 & _).
    eapply then_state; [apply (codeHash_posts m), Hq2|]. intros h s3 (-> & Hq3). apply then_mod, posts_ret.
    assert (quiet m s s3) as Hq by (eapply quiet_trans; [exact Hq1|]; by eapply quiet_trans).
    constructor; cbn; try done; [lia|by rewrite Ho|by eapply world_ok_quiet|by apply moved_quiet|apply still_same, Hq|].
    intros _. split_and!; [done|done|]. right. exists gasPrice, orig. split; [|done].
    pose proof (sm_view _ _ _ (qu_same _ _ _ Hq1) (codeAddress p)) as Hv1. pose proof (sm_view _ _ _ (qu_same _ _ _ Hq2) (codeAddress p)) as Hv2.
    do 2 f_equal.
    + destruct Hv1 as [u v []|]; cbn; congruence.
    + pose proof (hash_of_eq _ _ Hv1) as Hh1. pose proof (hash_of_eq _ _ Hv2) as Hh2. unfold hash_of in *. congruence.
  - apply posts_ret. constructor; cbn; try done; [lia|by rewrite Ho|apply still_same, Hq1|]. intros _. split_and!; [done|done|by left].
Qed.
(** [call]: [s1] is the state at the savepoint. *)
Lemma call_posts p gasPrice orig e s : fresh e -> call_ok p s -> world_ok s ->
  (is_null (m_t e) = false -> plain s (senderAddress p)) ->
  posts (call m_envInfo m_sealEngine p gasPrice orig)
    (fun fin es => exists s1, moved s s1 /\ started s s1 (senderAddress p) /\ (is_null (m_t e) = true -> s1 = s) /\ same_tx e es.1 /\
       m_isCreation es.1 = false /\ prepared fin (p_gas p) (p_staticCall p) s1 es.1 es.2) (fun _ _ => False) (e, s).
Proof.
  intros [Hext Hexc Hout Hgas Hcr Hdep] Hco Hw Hp. unfold call. apply then_get. eapply then_count; [|exact Hw|].
  { intros [Hn _]%andb_prop. apply Hp. by destruct (is_null (m_t e)). }
  intros s1 Hw1 Hm1 Hst1 Hsame. apply then_save. set (e1 := set_savepoint _ e).
  assert (call_ok p s1) as Hco1.
  { destruct Hco. constructor; try done; [|destruct co_receive0 as [|Hpl]; [by left|right]; by eapply carried_plain; [apply Hm1|]].
    by rewrite (bal_started _ _ _ Hst1). }
  eapply (posts_bind _ _ _ (fun r es => branched p e1 s1 r es.1 es.2)).
  { destruct (isPrecompiled _ _ _) eqn:Hpre; [by apply call_precompiled_posts|by apply call_code_posts]. }
  intros r [e2 s2] Hb. cbn [fst snd] in Hb. destruct Hb as [[Htt Htb Htc Htd] Hbc Hbs Hbg Hbo Hbw Hbm Hbst Hbd Hbgo].
  assert (is_null (m_t e) = true -> s1 = s) as Hnull by (intros Hn; apply Hsame; by rewrite Hn).
  assert (same_tx e e2) as Htx by (by constructor).
  assert (m_isCreation e2 = false) as Hcr2 by (rewrite Hbc; exact Hcr).
  destruct r as [b|].
  - destruct Hbd as [[= ->] Hbe]; [done|]. apply posts_ret. exists s1. split_and!; try done.
    constructor; cbn; try done. intros _. split; [by rewrite Hbe|done].
  - destruct (Hbgo eq_refl) as (Hq & Hbx & Hbe). change (m_excepted e1) with (m_excepted e) in Hbx. change (m_ext e1) with (m_ext e) in Hbe.
    change (m_depth e1) with (m_depth e) in *. rewrite Hexc in Hbx. rewrite Hext in Hbe. pose proof Hco1 as [Ht Hap Hf Hg Hd Had Hrc Hst].
    eapply then_state.
    { apply (transfer_steps m); [exact Ht| |exact Hbw]. destruct Hf as [|Hf]; [by left|right].
      by rewrite <- (bal_eq _ _ (sm_view _ _ _ (qu_same _ _ _ Hq) _)). }
    intros [] s3 (Hw3 & Hm3 & Hd3 & Hex3 & Hs3). apply last_get. exists s1. split_and!; try done.
    assert (moved s1 s3) as Hm13 by (by eapply moved_trans). constructor; cbn [fst snd]; try done.
    + intros Hsc. eapply still_trans; [exact Hbst|]. apply Hs3. by apply Hst.
    + intros Hf'. destruct Hbe as [Hbe|(g & o & Hbe & _)]; [|by rewrite Hbe in Hf']. by split; [rewrite Hbe|rewrite Hbx].
    + intros Hf'. split; [by rewrite Hbx|]. destruct Hbe as [Hbe|(g & o & Hbe & Hcode)]; [by rewrite Hbe in Hf'|].
      eexists. split; [exact Hbe|]. split_and!; cbn; try done.
      * constructor; cbn; try done; [|by apply view_bytes].
        destruct Hrc as [->|Hpl]; [right; by apply Hm13|by eapply carried_plain; [apply Hm13|]].
      * by rewrite Hcr2.
Qed.
(** [revert] to the savepoint. *)
Lemma then_revert {B} (k : unit -> EM B) R Q e s0 s1 s : m_savepoint e = savepoint s1 -> moved s0 s1 -> ahead s1 s -> world_ok s1 ->
  (forall s', world_ok s' -> moved s0 s' -> same s1 s' ->
     posts (k tt) R Q (set_newAddress 0 (set_ext (set_sub empty_SubState <$> m_ext e) e), s')) ->
  posts (sbind revert k) R Q (e, s).
Proof.
  intros Hsp Hm Ha Hw Hk. eapply (posts_bind _ _ _ (fun _ es =>
    exists s', es = (set_newAddress 0 (set_ext (set_sub empty_SubState <$> m_ext e) e), s') /\ world_ok s' /\ moved s0 s' /\ same s1 s')).
  - unfold revert. apply then_mod, then_mod, then_get. cbn [m_savepoint set_newAddress set_ext]. rewrite Hsp.
    eapply last_state; [by apply (rollback_steps m s0 s1 s)|]. intros [] s' (Hw' & Hm' & Hs'). by exists s'.
  - intros [] es (s' & -> & Hw' & Hm' & Hs'). by apply Hk.
Qed.

(** What the caller of a creation guarantees. *)
Record create_ok (sender endowment gas : Z) (init : list Z) (s : st) : Prop := {
  ko_sender : plain s sender;
  ko_endowment : is_u256 endowment;
  ko_funds : endowment = 0 \/ endowment <= bal (the_view s sender);
  ko_gas : 0 <= gas < 2 ^ 63;
  ko_init : bytes_ok init
}.

Lemma getNonce_steps a s : world_ok s ->
  steps m (getNonce a) (fun n s' => 0 <= n < 2 ^ 256 /\ n = from_option v_nonce (m_accountStartNonce s) (the_view s a) /\ quiet m s s') s.
Proof.
  intros Hw. eapply posts_mono; [apply steps_query; [exact Hw|apply (getNonce_posts m), Hw]| |done]. intros n s' (Hw' & Hm & -> & Hq).
  split_and!; try done; destruct (the_view s a) as [v|] eqn:Hv; cbn; try apply Hw; try (pose proof (wo_start _ _ Hw); lia);
    pose proof (vo_nonce _ (wo_view _ _ Hw a v Hv)); lia.
Qed.

(** An account without code and nonce has no storage. *)
Lemma unused_storage s a : world_ok s -> ~ has_code s a -> from_option v_nonce 0 (the_view s a) = 0 -> no_storage s a.
Proof.
  intros Hw Hc Hn. unfold World.has_code, World.no_storage, hash_of, root_of in *. destruct (the_view s a) as [v|] eqn:Hv; cbn in *; [|done].
  destruct (Z.eq_dec (v_root v) EmptyTrie); [done|]. destruct (vo_used _ (wo_view _ _ Hw a v Hv)); tauto.
Qed.

Lemma executeCreate_posts sender endowment gasPrice gas init orig e s :
  fresh e -> create_ok sender endowment gas init s -> world_ok s -> 0 <= m_newAddress e < 2 ^ 160 ->
  posts (executeCreate m_envInfo m_sealEngine sender endowment gasPrice gas init orig)
    (fun fin es => exists s1, moved s s1 /\ started s s1 sender /\ same_tx e es.1 /\ prepared fin gas false s1 es.1 es.2)
    (fun _ _ => False) (e, s).
Proof.
  intros [Hext Hexc Hout Hgas Hcr Hdep] [Hpl Hend Hfund Hg Hinit] Hw Hnew. unfold executeCreate. eapply then_count; [done|exact Hw|].
  intros s1 Hw1 Hm1 Hst1 _. apply then_save, then_mod, then_mod, then_get. set (e1 := set_gas gas _). set (new := m_newAddress e1).
  assert (same_tx e e1) as Htx1 by done. pose proof bytes_ok_nil as Hnil.
  eapply then_state; [by apply hasCode_steps|]. intros hasCode s2 (Hw2 & _ & Hcode & Hq2).
  eapply (posts_bind _ _ _ (fun (b : bool) es => exists s3, es = (e1, s3) /\ quiet m s1 s3 /\
    (b = false -> ~ has_code s1 new /\ from_option v_nonce 0 (the_view s1 new) = 0))).
  { destruct hasCode; [apply posts_ret; exists s2; by split_and!|]. eapply then_state; [by apply getNonce_steps|].
    intros n s3 (_ & _ & (Hn0 & Hn & Hq3)). apply posts_ret. exists s3. split; [done|]. split; [by eapply quiet_trans|].
    intros Hle%Z.ltb_ge. split; [done|]. assert (n = 0) as Hz by lia. rewrite Hz in Hn.
    destruct (sm_view _ _ _ (qu_same _ _ _ Hq2) new) as [u v []|]; cbn in *; congruence. }
  intros exist es (s3 & -> & Hq3 & Hfree). pose proof (world_ok_quiet m s1 s3 Hq3 Hw1) as Hw3. destruct exist.
  - apply then_mod, then_mod. eapply (then_revert _ _ _ _ s1 s1); [done|apply moved_refl, Hw1|by apply ahead_quiet|done|].
    intros s' Hw' Hm' Hs'. apply then_mod, posts_ret. exists s1. split_and!; [done..|]. constructor; cbn; try done; [lia|by rewrite Hout|].
    intros _. split; [done|]. intros _. by apply still_same.
  - destruct (Hfree eq_refl) as [Hnc Hn0]. pose proof (unused_storage s1 new Hw1 Hnc Hn0) as Hns.
    pose proof (moved_quiet m s1 s3 Hq3) as Hm3. eapply then_state.
    { apply (transfer_steps m); [exact Hend| |exact Hw3]. destruct Hfund as [|Hf]; [by left|right].
      by rewrite <- (bal_eq _ _ (sm_view _ _ _ (qu_same _ _ _ Hq3) _)), (bal_started _ _ _ Hst1). }
    intros [] s4 (Hw4 & Hm4 & Hd4 & Hex4 & _). assert (moved s1 s4) as Hm14 by (by eapply moved_trans).
    eapply then_state; [apply (requireAccountStartNonce_posts m), Hw4|]. intros n s5 [-> ->]. pose proof (wo_start _ _ Hw4) as Hstart.
    eapply then_state.
    { apply (setNonce_steps m new); [|left; left; by apply Hm14|exact Hw4]. destruct (is_EIP158 _ _); [apply u256_range|lia]. }
    intros [] s5 (Hw5 & Hm5 & _ & Hd5). assert (moved s1 s5) as Hm15 by (by eapply moved_trans).
    assert (forall e' : Executive, m_savepoint e' = savepoint s1 -> m_gas e' = gas -> e_output e' = [] -> m_excepted e' = TE_None -> m_ext e' = None ->
      prepared true gas false s1 e' s5) as Hdone.
    { intros e' Hs' Hg' Ho' Hx' Hxt'. constructor; try done; [rewrite Hg'; lia|by rewrite Ho']. }
    destruct (Z.eqb_spec (lenZ init) 0) as [Hi|Hi]; cbn [negb].
    + eapply (posts_bind _ _ _ (fun _ es => es = (e1, s5))); [done|]. intros [] ? ->. apply last_get.
      exists s1. split_and!; [done..|]. cbn [fst snd]. change (m_ext e1) with (m_ext e). rewrite Hext. by apply Hdone.
    + apply then_mod, last_get. exists s1. split_and!; [done..|]. constructor; cbn; try done; [lia|by rewrite Hout|].
      intros _. split; [done|]. eexists. split; [done|]. split_and!; cbn; try done; [|by intros _; split_and!; [|apply Hm15|..]].
      constructor; cbn; try done; [by apply Hm5|left; by apply Hm15].
Qed.
(** The bytes that are hashed to the address of a new contract. *)
Definition create_item (sender nonce : Z) : item := Lst [Str (addr_bytes sender); Str (int_bytes nonce)].

Lemma create_rlp_spec sender nonce : is_u256 nonce -> create_rlp sender nonce = Value (encode (create_item sender nonce)).
Proof.
  intros Hn. destruct (int_bytes_facts nonce ltac:(lia)) as (Hnb & Hnl & _). pose proof (u256_bytes _ Hn).
  assert (byte_list (addr_bytes sender) /\ lenZ (addr_bytes sender) = 20) as [Hab Hal] by (split; [apply toBigEndian_bytes|by apply (lenZ_toBigEndian 20)]).
  assert (item_ok (create_item sender nonce)) as Hok
    by (apply ok_lst; repeat (apply Forall_cons; split); try (apply ok_str; assumption); apply Forall_nil_2).
  assert (0 < lenZ (encode (create_item sender nonce)) < 2 ^ 63) as Hl.
  { cbn [encode create_item map concat]. cbv zeta. rewrite app_nil_r. pose proof (encode_str_length (int_bytes nonce) ltac:(lia)).
    pose proof (encode_str_length (addr_bytes sender) ltac:(lia)). rewrite lenZ_app.
    match goal with |- context [header 192 (lenZ ?q)] => set (p := q) end. assert (0 < lenZ p < 2 ^ 10) by (unfold p; rewrite !lenZ_app; lia).
    pose proof (header_length 192 (lenZ p) ltac:(lia)). lia. }
  rewrite <- (append_item_empty _ Hok) by lia. unfold rlp_of, create_item. rewrite append_item_Lst. cbn [append_items]. unfold create_rlp.
  change (lenZ _) with 2. destruct (appendList 2 empty_stream) as [s| | |]; [|done..]. cbn [rbind append_item].
  destruct (append_bytes _ _ s) as [s1| | |]; [|done..]. cbn [rbind]. rewrite append_int_item by done. cbn [append_item].
  by destruct (append_bytes _ _ s1) as [s2| | |].
Qed.

Lemma right160_range h : 0 <= right160 h < 2 ^ 160.
Proof. apply Z.mod_pos_bound. lia. Qed.

(** What the two instructions leave. *)
Definition create_posts (p : EM bool) (gas sender : Z) (e : Executive) (s : st) : Prop :=
  posts p (fun fin es => exists s0 s1, quiet m s s0 /\ moved s s1 /\ started s0 s1 sender /\ same_tx e es.1 /\ prepared fin gas false s1 es.1 es.2)
    (fun _ _ => False) (e, s).

Lemma create_ok_quiet sender endowment gas init s s1 : quiet m s s1 -> create_ok sender endowment gas init s -> create_ok sender endowment gas init s1.
Proof.
  intros Hq []. constructor; try done; [eapply carried_plain; [apply moved_quiet, Hq|done]|].
  by rewrite <- (bal_eq _ _ (sm_view _ _ _ (qu_same _ _ _ Hq) _)).
Qed.

Lemma createOpcode_posts sender endowment gasPrice gas init orig e s :
  fresh e -> create_ok sender endowment gas init s -> world_ok s ->
  create_posts (createOpcode m_envInfo m_sealEngine sender endowment gasPrice gas init orig) gas sender e s.
Proof.
  intros Hf Hk Hw. unfold createOpcode, create_posts. eapply then_state; [by apply getNonce_steps|]. intros n s0 (Hw0 & Hm0 & Hn & _ & Hq).
  eapply (then_state _ _ (fun _ s' => s' = s0)).
  { rewrite create_rlp_spec by lia. done. }
  intros r s' ->. apply then_mod. eapply posts_mono; [apply executeCreate_posts; [by destruct Hf|by eapply create_ok_quiet|done|apply right160_range]| |done].
  intros fin es (s1 & Hm1 & Hst & Htx & Hp). exists s0, s1. split; [done|]. split; [by eapply moved_trans|]. split_and!; [done|by destruct Htx|done].
Qed.

Lemma create2Opcode_posts sender endowment gasPrice gas init orig salt e s :
  fresh e -> create_ok sender endowment gas init s -> world_ok s ->
  create_posts (create2Opcode m_envInfo m_sealEngine sender endowment gasPrice gas init orig salt) gas sender e s.
Proof.
  intros Hf Hk Hw. unfold create2Opcode, create_posts. apply then_mod.
  eapply posts_mono; [apply executeCreate_posts; [by destruct Hf|done|done|apply right160_range]| |done].
  intros fin es (s1 & Hm1 & Hst & Htx & Hp). exists s, s1. split; [apply quiet_refl, Hw|]. split; [done|]. split_and!; [done|by destruct Htx|done].
Qed.
(** ** Running the code *)

(** [s1] is the state at the savepoint. *)
Record finished (gas : Z) (static : bool) (s1 : st) (e : Executive) (s : st) : Prop := {
  fi_world : world_ok s;
  fi_moved : moved s1 s;
  fi_gas : 0 <= m_gas e <= gas;
  fi_output : bytes_ok (e_output e);
  fi_static : static = true -> still s1 s;
  fi_failed : m_excepted e <> TE_None -> still s1 s;
  fi_sub : forall x, m_ext e = Some x -> is_u256 (refunds (sub x)) /\ (static = true \/ m_excepted e <> TE_None -> sub x = empty_SubState)
}.

Lemma prepared_finished gas static s1 e s : prepared true gas static s1 e s -> finished gas static s1 e s.
Proof. intros []. destruct (pp_done0 eq_refl) as [Hx Hf]. constructor; try done. by rewrite Hx. Qed.

Lemma frame_moved x s s' : world_ok s' -> carried m s s' -> frame_ok x s -> frame_ok x s'.
Proof. intros Hw Hm []. constructor; try done; [by eapply carried_exists|by eapply carried_plain]. Qed.

Lemma posts_try {A} (body : EM unit) (handler : exception -> EM unit) (P : unit -> Executive * st -> Prop) (Q : exception -> Executive * st -> Prop) Q' (k : unit -> EM A) R es :
  posts body P Q es -> (forall ex es', Q ex es' -> posts (handler ex) P (fun _ _ => False) es') ->
  (forall es', P tt es' -> posts (k tt) R Q' es') -> posts (sbind (try_catch body handler) k) R Q' es.
Proof.
  intros Hb Hh Hk. unfold posts, sbind, try_catch in *. destruct (body es) as [[[]|ex| |] es'] eqn:Hx; try done.
  - by apply Hk.
  - specialize (Hh ex es' Hb). destruct (handler ex es') as [[[]| | |] es2]; try done. by apply Hk.
Qed.

Section Go.
  Context (vm : VMFace).

Lemma run_vm_posts x e s `{!VMLaws vm (x_depth x)} : frame_ok x s -> 0 <= m_gas e < 2 ^ 63 ->
  posts (run_vm vm x) (fun out es => exists g x' s', es = (set_ext (Some x') (set_gas g e), s') /\ ran x s (m_gas e) (Value out) g x' s')
    (fun ex es => exists g x' s', es = (set_ext (Some x') (set_gas g e), s') /\ ran x s (m_gas e) (Error ex) g x' s') (e, s).
Proof.
  intros Hf Hg. unfold posts, run_vm. pose proof (VMLaws0 x s (m_gas e) Hf (Z.le_refl _) Hg) as Hr.
  destruct (vm (m_gas e) x s) as [r [[g x'] s']]. destruct r as [out|ex| |]; [by exists g, x', s'|by exists g, x', s'|by destruct Hr..].
Qed.

(** What the [try] block leaves when it throws. *)
Definition thrown (e : Executive) (s : st) (ex : exception) (es : Executive * st) : Prop :=
  same_tx e es.1 /\ m_savepoint es.1 = m_savepoint e /\ 0 <= m_gas es.1 <= m_gas e /\ bytes_ok (e_output es.1) /\ ahead s es.2 /\
  exists vme, ex = XVM vme /\ forall out, vme = RevertInstruction out -> output_ok out.

Lemma catch_posts gas static s1 e s ex es : prepared false gas static s1 e s -> thrown e s ex es ->
  posts (go_catch ex) (fun _ es' => same_tx e es'.1 /\ finished gas static s1 es'.1 es'.2) (fun _ _ => False) es.
Proof.
  intros Hp (Htx & Hsp & Hg & Ho & Ha & vme & -> & Hout). destruct Hp as [Hw1 Hw Hm Hs Hgas _ _ _ _]. destruct es as [e' s']. cbn [fst snd] in *.
  assert (ahead s1 s') as Ha1 by (eapply ahead_trans; [apply Hm|done]). pose proof (moved_refl m s1 (wo_state _ _ Hw1)) as Hrefl.
  assert (forall e2 s2 r out, world_ok s2 -> moved s1 s2 -> same s1 s2 -> same_tx e e2 -> 0 <= m_gas e2 <= gas -> bytes_ok (e_output e2) ->
    (exists x, m_ext e2 = set_sub empty_SubState <$> x) ->
    (fun (_ : unit) es' => same_tx e es'.1 /\ finished gas static s1 es'.1 es'.2) r (set_excepted out e2, s2)) as Hdone.
  { intros e2 s2 r out Hw2 Hm2 Hs2 Htx2 Hg2 Ho2 [x Hx]. cbn [fst snd]. split; [by destruct Htx2|]. constructor; cbn; try done; [intros _; by apply still_same..|].
    rewrite Hx. destruct x; cbn; intros y [= <-]; done. }
  assert (forall vme, (forall out, vme <> RevertInstruction out) ->
    posts (mod_e (set_gas 0) ;; mod_e (set_excepted (vmException vme)) ;; revert)
      (fun _ es' => same_tx e es'.1 /\ finished gas static s1 es'.1 es'.2) (fun _ _ => False) (e', s')) as Hthrow.
  { intros v _. apply then_mod, then_mod.
    assert (posts (revert ;; sret tt) (fun _ es' => same_tx e es'.1 /\ finished gas static s1 es'.1 es'.2) (fun _ _ => False)
      (set_excepted (vmException v) (set_gas 0 e'), s')) as Hp.
    { eapply (then_revert _ _ _ _ s1 s1); [cbn; by rewrite Hsp, Hs|done|done|done|]. intros s2 Hw2 Hm2 Hs2. apply posts_ret.
      apply (Hdone (set_newAddress 0 (set_ext (set_sub empty_SubState <$> m_ext e') (set_gas 0 e'))) s2 tt (vmException v)); try done; cbn; [by destruct Htx|lia|by eexists]. }
    unfold posts, sbind in *. by destruct (revert _) as [[[]| | |] ?]. }
  destruct vme as [| | | | | | |out]; cbn [go_catch]; try (by apply Hthrow).
  eapply (then_revert _ _ _ _ s1 s1); [by rewrite Hsp, Hs|done|done|done|]. intros s2 Hw2 Hm2 Hs2. apply then_mod, last_mod.
  apply (Hdone (set_output out (set_newAddress 0 (set_ext (set_sub empty_SubState <$> m_ext e') e')))); try done; cbn; [by destruct Htx|lia| |by eexists].
  by apply output_bytes_ok, Hout.
Qed.

(** What the [try] block leaves when it returns, before the results are
    copied. *)
Definition returned (gas : Z) (static : bool) (s1 : st) (e : Executive) (es : Executive * st) : Prop :=
  same_tx e es.1 /\ finished gas static s1 es.1 es.2.

Lemma thrown_ran e s s0 ex g x x' s' : carried m s s0 -> ran x s0 (m_gas e) (Error ex) g x' s' -> bytes_ok (e_output e) ->
  thrown e s ex (set_ext (Some x') (set_gas g e), s').
Proof.
  intros Hc [Ho Hg _ _ _ Hm _] Hout. do 4 (split; [done|]). split; [eapply ahead_trans; [apply Hc|apply Hm]|].
  destruct ex as [| | | |vme| |]; try done. exists vme. split; [done|]. intros out ->. exact Ho.
Qed.

(** The body for a message call. *)
Lemma go_call_posts x gas static s1 e s `{!VMLaws vm (x_depth x)} :
  prepared false gas static s1 e s -> gas < 2 ^ 63 -> m_ext e = Some x ->
  posts (out <- run_vm vm x ;; mod_e (set_output out)) (fun _ => returned gas static s1 e) (thrown e s) (e, s).
Proof.
  intros Hp Hgas Hx. pose proof Hp as [Hw1 Hw Hm Hs Hg Ho Hst _ Hgo]. destruct (Hgo eq_refl) as (Hexc & x' & Hx' & Hf & Hdp & Hsc & Hsub & _).
  assert (x' = x) as -> by congruence. clear Hgo Hx'. eapply posts_bind.
  - eapply posts_mono; [apply (run_vm_posts x e s Hf); lia|intros out es Hr; exact Hr|]. intros ex es (g & x' & s' & -> & Hr).
    eapply thrown_ran; [by apply moved_refl; apply Hw|exact Hr|done].
  - intros out es (g & x' & s' & -> & Hr). destruct Hr as [Hro Hrg Hrf Hrr Hrw Hrm Hrs]. apply last_mod. split; cbn [fst snd]; [done|].
    constructor; cbn; try done; [by eapply moved_trans|lia|by apply output_bytes_ok|..].
    + intros Hstat. eapply still_trans; [by apply Hst|]. apply Hrs. congruence.
    + intros y [= <-]. split; [done|]. intros [Hstat|Hx']; [|congruence]. destruct Hrs as [_ ->]; congruence.
Qed.

(** What the deposit of the code leaves. *)
Record deposited (e : Executive) (x : ExtVM) (gas : Z) (s : st) (out : list Z) (es : Executive * st) : Prop := {
  dp_state : es.2 = s;
  dp_tx : same_tx e es.1;
  dp_gas : 0 <= m_gas es.1 <= gas;
  dp_ext : m_ext es.1 = Some x;
  dp_output : e_output es.1 = e_output e;
  dp_excepted : m_excepted es.1 = m_excepted e;
  dp_bytes : bytes_ok out
}.

(** The body for a creation. *)
Lemma go_create_posts x gas s1 e s `{!VMLaws vm (x_depth x)} :
  prepared false gas false s1 e s -> gas < 2 ^ 63 -> m_ext e = Some x -> m_isCreation e = true ->
  posts (go_create m_envInfo m_sealEngine vm x) (fun _ => returned gas false s1 e) (thrown e s) (e, s).
Proof.
  intros Hp Hgas Hx Hcr. pose proof Hp as [Hw1 Hw Hm Hs Hg Ho _ _ Hgo]. destruct (Hgo eq_refl) as (Hexc & x' & Hx' & Hf & Hdp & Hsc & Hsub & Hcreate).
  assert (x' = x) as -> by congruence. destruct (Hcreate Hcr) as (Hd & Hns & Hnc & _). clear Hgo Hx' Hcreate. unfold go_create.
  eapply posts_bind.
  { eapply (last_state _ _ (fun _ es => exists s2, es = (e, s2) /\ world_ok s2 /\ moved s s2)); [by apply (clearStorage_steps m)|].
    intros [] s2 (Hw2 & Hm2 & _). by exists s2. }
  intros [] ? (s2 & -> & Hw2 & Hm2). assert (frame_ok x s2) as Hf2 by (eapply frame_moved; [done|apply Hm2|done]).
  eapply posts_bind.
  { eapply posts_mono; [apply (run_vm_posts x e s2 Hf2); lia|intros out es Hr; exact Hr|]. intros ex es (g & x' & s' & -> & Hr).
    eapply thrown_ran; [apply Hm2|exact Hr|done]. }
  intros out es (g & x' & s3 & -> & Hr). destruct Hr as [Hro Hrg Hrf Hrr Hrw Hrm Hrs]. apply then_mod, then_get.
  set (e1 := with_res _ _). assert (0 <= deposit_cost m_envInfo m_sealEngine out) as Hdc by apply u64_range.
  assert (forall e', same_tx e e' -> m_savepoint e' = m_savepoint e -> 0 <= m_gas e' <= m_gas e -> e_output e' = e_output e ->
    thrown e s (XVM OutOfGas) (e', s3)) as Hthrow.
  { intros e' Ht' Hs' Hg' Ho'. unfold thrown. cbn [fst snd]. rewrite Ho'. do 4 (split; [done|]). split; [|by exists OutOfGas].
    eapply ahead_trans; [apply Hm2|apply Hrm]. }
  assert (same_tx e e1) as Htx1 by (by apply same_tx_res). assert (forall g e', same_tx e e' -> same_tx e (set_gas g e')) as Hsg by (by intros ? ? []).
  eapply (posts_bind _ _ _ (deposited e x' gas s3)).
  { destruct (maxCodeSize _ <? _); [apply posts_throw; apply Hthrow; done|].
    destruct (Z.leb_spec (deposit_cost m_envInfo m_sealEngine out) (m_gas e1)) as [Hle|Hlt].
    - apply then_mod, then_mod, posts_ret. change (m_gas e1) with g in *.
      constructor; [done|by apply Hsg, same_tx_res|..]; cbn; try done; [rewrite u256_small; lia|by apply output_bytes_ok].
    - destruct (exceptionalFailedCodeDeposit _); [apply posts_throw; by apply Hthrow|].
      apply then_mod, posts_ret. constructor; [done|by apply same_tx_res|..]; cbn; try done; lia. }
  intros out' [e2 s'] []. cbn [fst snd] in *. subst s'. apply then_mod.
  assert (moved s s3) as Hm3 by (by eapply moved_trans). assert (moved s1 s3) as Hm13 by (by eapply moved_trans).
  eapply last_state.
  { apply (setCode_steps m (myAddress x) out' s1 s3); try done; [by eapply carried_dirty; [apply Hm3|]|by apply Hm3|apply dp_bytes0|apply dp_bytes0]. }
  intros [] s4 (Hw4 & Hm4). split; cbn [fst snd]; [by apply same_tx_res|]. constructor; cbn; try done; [by rewrite dp_output0|by rewrite dp_excepted0, Hexc|].
  rewrite dp_ext0. intros y [= <-]. split; [done|]. intros [|Hx']; [done|congruence].
Qed.

(** [go]: the execution is over, and what failed is undone. *)
Lemma go_posts gas static s1 e s `{!VMLaws vm (m_depth e)} : prepared false gas static s1 e s -> gas < 2 ^ 63 ->
  posts (go m_envInfo m_sealEngine vm) (fun r es => r = true /\ same_tx e es.1 /\ finished gas static s1 es.1 es.2) (fun _ _ => False) (e, s).
Proof.
  intros Hp Hgas. unfold go. apply then_get. destruct (pp_go _ _ _ _ _ _ Hp eq_refl) as (Hexc & x & Hx & Hf & Hdp & Hsc & Hsub & Hcreate).
  rewrite Hx. assert (VMLaws vm (x_depth x)) as Hvm by (by rewrite Hdp).
  apply (posts_try _ _ (fun _ => returned gas static s1 e) (thrown e s)).
  - unfold go_body. apply then_get. destruct (m_isCreation e) eqn:Hcr; [|by apply (go_call_posts x)].
    destruct (Hcreate eq_refl) as (_ & _ & _ & ->). by apply (go_create_posts x).
  - intros ex es Ht. by apply (catch_posts gas static s1 e s).
  - intros [e' s'] [Htx Hfin]. cbn [fst snd] in *. apply then_mod, posts_ret. split; [done|]. cbn [fst snd].
    destruct (lenZ (e_output e') =? 0); [done|]. split; [by apply same_tx_res|]. by destruct Hfin.
Qed.
End Go.
End Spec.
