(* ===== verification/ExtVM.v ===== *)
(** * The environment of running code (libaecereum/ExtVM.h, ExtVM.cpp,
    libevm/ExtVMFace.cpp, EVMC.h, EVMC.cpp)

    [ExtVM] answers the interpreter from the state: this file makes it the host
    of EVMC, and makes the interpreter with this host a [VMFace].  A call or a
    creation runs an [Executive] one level deeper, and that one runs the machine
    again: [vm_at] counts the levels.

    A callback that throws or ends the process stops the interpreter inside of
    it.  The host here notes how that ended in [h_end], and from then on answers
    without doing anything: what the interpreter computes after is lost. *)
From stdpp Require Import base list gmap.
From Stdlib Require Import ZArith Lia.
From S2P Require Import Prelude Words Result Rlp StateMonad Account Evmc VMState VMOps VMExec State Schedule Transaction SealEngine Executive.
Open Scope sm_scope.

Definition c_blockhashContractAddress : Z := 0xf0.

(** [transactionExceptionToEvmcStatusCode] *)
Definition transactionExceptionToEvmcStatusCode (ex : TransactionException) : evmc_status_code :=
  match ex with
  | TE_None => EVMC_SUCCESS
  | TE_RevertInstruction => EVMC_REVERT
  | TE_OutOfGas => EVMC_OUT_OF_GAS
  | TE_BadInstruction => EVMC_UNDEFINED_INSTRUCTION
  | TE_OutOfStack => EVMC_STACK_OVERFLOW
  | TE_StackUnderflow => EVMC_STACK_UNDERFLOW
  | TE_BadJumpDestination => EVMC_BAD_JUMP_DESTINATION
  | _ => EVMC_FAILURE
  end.

Section ExtVM.
  Context {DB G : Type} `{Sha3} `{!StateDB DB} `{!RandomEngine G} `{!UnorderedMaps} `{!Secp256k1}.
  Context (m_envInfo : EnvInfo) (m_sealEngine : SealEngine).
Notation st := (State DB G).
Notation VMFace := (VMFace (DB := DB) (G := G)).

(** How the interpreter was stopped. *)
Definition Ending : Type := result exception (list Z).

Record Host := mkHost { h_ext : ExtVM; h_state : st; h_end : option Ending }.

(** A function of [ExtVM]: it changes the environment and the state. *)
Notation XM := (SM (ExtVM * st) exception).

Definition x_state {A} (p : SM st state_error A) : XM A := fun xs =>
  let '(r, s) := p (snd xs) in (map_error XState r, (fst xs, s)).
Definition x_sub (f : SubState -> SubState) : XM unit := smod (fun xs => (set_sub (f (sub (fst xs))) (fst xs), snd xs)).
Definition x_get {A} (f : ExtVM -> A) : XM A := xs <- sget ;; sret (f (fst xs)).

(** ** [ExtVM] *)

Definition store (n : Z) : XM Z := a <- x_get myAddress ;; x_state (storage a n).
Definition setStore (n v : Z) : XM unit := a <- x_get myAddress ;; x_state (State.setStorage a n v).
Definition exists_ (a : Z) : XM bool :=
  if emptinessIsNonexistence (schedule m_envInfo m_sealEngine) then x_state (accountNonemptyAndExisting a)
  else x_state (addressInUse a).

Definition suicide (a : Z) : XM unit :=
  my <- x_get myAddress ;;
  x_state (b <- balance my ;; State.addBalance a b ;; setBalance my 0) ;;
  x_sub (fun u => mkSubState ({[my]} ∪ suicides u) (logs u) (refunds u)).

Definition log (topics : list Z) (data : list Z) : XM unit :=
  my <- x_get myAddress ;;
  x_sub (fun u => mkSubState (suicides u) (logs u ++ [mkLogEntry my topics data]) (refunds u)).

Section Calls.
  Context (vm : VMFace).

(** An [Executive] of the state runs; the parent is there for its sub-state. *)
Definition with_executive {A} (p : SM (Executive * st) exception A) : XM (A * Executive) := fun xs =>
  let '(r, (e, s)) := p (new_Executive (u32 (x_depth (fst xs) + 1)), snd xs) in
  (rbind r (fun a => Value (a, e)), (fst xs, s)).

(** The execution that [start] prepared: what both [call] and [create] do. *)
Definition run_executive (start : SM (Executive * st) exception bool) : XM Executive :=
  r <- with_executive (fin <- start ;; if (fin : bool) then sret true else go m_envInfo m_sealEngine vm ;; sret false) ;;
  let '(fin, e) := r in
  (if (fin : bool) then sret tt else x_sub (accrueSubState e)) ;;
  sret e.

(** [ExtVM::call]: the status, the output and the gas left. *)
Definition ExtVM_call (p : CallParameters) : XM (evmc_status_code * list Z * Z) :=
  x <- x_get (fun x => x) ;;
  e <- run_executive (call m_envInfo m_sealEngine p (x_gasPrice x) (origin x)) ;;
  sret (transactionExceptionToEvmcStatusCode (m_excepted e), e_output e, m_gas e).

(** [ExtVM::create]: also the new address. *)
Definition ExtVM_create (endowment gas : Z) (code : list Z) (create2 : bool) (salt : Z)
    : XM (evmc_status_code * list Z * Z * Z) :=
  x <- x_get (fun x => x) ;;
  e <- run_executive (if negb create2
                      then createOpcode m_envInfo m_sealEngine (myAddress x) endowment (x_gasPrice x) gas code (origin x)
                      else create2Opcode m_envInfo m_sealEngine (myAddress x) endowment (x_gasPrice x) gas code (origin x) salt) ;;
  sret (transactionExceptionToEvmcStatusCode (m_excepted e), e_output e, m_newAddress e, m_gas e).

(** [h256(bytes)] takes the bytes when there are 32, and is zero otherwise. *)
Definition h256_of_bytes (b : list Z) : Z := if lenZ b =? 32 then be_val b else 0.

Definition blockHash (number : Z) : XM Z :=
  let currentNumber := env_number m_envInfo in
  if (currentNumber <=? number) || (number <? Z.max 256 currentNumber - 256) then sret 0
  else if currentNumber <? u256 (constantinopleForkBlock (chainParams m_sealEngine) + 256) then
    slift (rget (env_lastHashes m_envInfo @@ u32 (currentNumber - 1 - number)))
  else
    c <- x_get caller ;;
    nonce <- x_state (getNonce c) ;;
    let tx := forceSender c (message_transaction 0 0 1000000 c_blockhashContractAddress (toBigEndian 32 number) nonce) in
    res <- (fun xs => let '(r, s) := State_execute m_envInfo m_sealEngine vm tx Reverted (snd xs) in (r, (fst xs, s))) ;;
    sret (h256_of_bytes (res_output (fst res))).

(** ** The callbacks *)

(** Run [p]; [f] says how the interpreter ends when [p] does not return, and
    [a] is the answer then. *)
Definition callback {A} (f : exception -> exception) (a : A) (p : XM A) (h : Host) : A * Host :=
  match h_end h with
  | Some _ => (a, h)
  | None =>
      let '(r, (x, s)) := p (h_ext h, h_state h) in
      match r with
      | Value b => (b, mkHost x s None)
      | Error e => (a, mkHost x s (Some (Error (f e))))
      | OutOfBounds => (a, mkHost x s (Some OutOfBounds))
      | OutOfFuel => (a, mkHost x s (Some OutOfFuel))
      end
  end.
(** An exception that leaves a [noexcept] function ends the process; one that
    leaves another callback is caught by [execute] of the interpreter. *)
Definition terminate (e : exception) : exception := XExit.
Definition internal_error (e : exception) : exception := match e with XExit => XExit | _ => XInternalVMError end.

Definition accountExists (addr : Z) : XM bool := exists_ (fromEvmC_address addr).
Definition getStorage (key : Z) : XM Z := store (fromEvmC_uint256 key).
Definition setStorage_callback (key val : Z) : XM unit :=
  let index := fromEvmC_uint256 key in
  let value := fromEvmC_uint256 val in
  (if value =? 0 then
     old <- store index ;;
     if negb (old =? 0) then
       x_sub (fun u => mkSubState (suicides u) (logs u) (u256 (refunds u + sstoreRefundGas (schedule m_envInfo m_sealEngine))))
     else sret tt
   else sret tt) ;;
  setStore index value.

Definition getBalance (addr : Z) : XM Z := x_state (balance (fromEvmC_address addr)).
Definition getCodeSize (addr : Z) : XM Z := x_state (codeSize (fromEvmC_address addr)).

Definition copyCode (addr codeOffset bufferSize : Z) : XM (list Z) :=
  code <- x_state (State.code (fromEvmC_address addr)) ;;
  sret (if lenZ code <=? codeOffset then []
        else take (Z.to_nat (Z.min (lenZ code - codeOffset) bufferSize)) (drop (Z.to_nat codeOffset) code)).

Definition selfdestruct (beneficiary : Z) : XM unit := suicide (fromEvmC_address beneficiary).
Definition log_callback (data : list Z) (topics : list Z) : XM unit := log topics data.

Definition getTxContext (x : ExtVM) : evmc_tx_context :=
  mkTxContext (x_gasPrice x) (origin x) (env_author m_envInfo) (i64 (env_number m_envInfo)) (i64 (env_timestamp m_envInfo))
    (i64 (env_gasLimit m_envInfo)) (env_difficulty m_envInfo).

(** The number comes as an [int64_t]. *)
Definition getBlockHash (number : Z) : XM Z := blockHash (u256 number).

Definition failed_result : evmc_result := mkResult EVMC_INTERNAL_ERROR 0 [] 0.

(** [create] of ExtVMFace.cpp. *)
Definition create_callback (m : evmc_message) : XM evmc_result :=
  r <- ExtVM_create (fromEvmC_uint256 (value m)) (u256 (msg_gas m)) (input_data m) false 0 ;;
  let '(status, output, address, gas) := r in
  sret (if decide (status = EVMC_SUCCESS) then mkResult status (i64 gas) [] address else mkResult status (i64 gas) output 0).

(** [call] of ExtVMFace.cpp. *)
Definition call_callback (m : evmc_message) : XM evmc_result :=
  if decide (kind m = EVMC_CREATE) then create_callback m
  else
    my <- x_get myAddress ;;
    let apparent := fromEvmC_uint256 (value m) in
    let codeAddress := fromEvmC_address (destination m) in
    r <- ExtVM_call (mkCallParameters (fromEvmC_address (Evmc.sender m)) codeAddress
                       (if decide (kind m = EVMC_CALL) then codeAddress else my)
                       (if decide (kind m = EVMC_DELEGATECALL) then 0 else apparent) apparent
                       (u256 (msg_gas m)) (input_data m) (is_static m)) ;;
    let '(status, output, gas) := r in
    sret (mkResult status (i64 gas) output 0).

(** [fnTable] *)
Definition fnTable : EvmcHost Host := {|
  fn_account_exists a := callback terminate false (accountExists a);
  fn_get_storage _ k := callback terminate 0 (getStorage k);
  fn_set_storage _ k v h := (callback terminate tt (setStorage_callback k v) h).2;
  fn_get_balance a := callback terminate 0 (getBalance a);
  fn_get_code_size a := callback internal_error 0 (getCodeSize a);
  fn_copy_code a off n := callback internal_error [] (copyCode a off n);
  fn_selfdestruct _ b h := (callback terminate tt (selfdestruct b) h).2;
  fn_call m := callback terminate failed_result (call_callback m);
  fn_get_tx_context h := (getTxContext (h_ext h), h);
  fn_get_block_hash n := callback internal_error 0 (getBlockHash n);
  fn_emit_log _ d t h := (callback terminate tt (log_callback d t) h).2
|}.
End Calls.

(** ** The interpreter as a [VMFace] *)

(** [EVM::execute] makes the message. *)
Definition exec_message (x : ExtVM) (gas : Z) : evmc_message :=
  mkMessage (if isCreate x then EVMC_CREATE else EVMC_CALL) (if staticCall x then EVMC_STATIC else 0)
    (x_depth x) gas (myAddress x) (caller x) (x_data x) (x_value x).

(** Default options: no optimisation; the dispatch makes no difference. *)
#[local] Instance interpreter_config : VMConfig := {| EVM_OPTIMIZE := false; EVM_JUMP_DISPATCH := false |}.

(** Rounds of the interpreter: twice the gas is enough. *)
Definition exec_fuel (gas : Z) : nat := Z.to_nat (2 * gas + 3).

(** [EVMC::exec] with the interpreter.  [EVMC_REJECTED], which hands over to the
    legacy machine, is not among its answers. *)
Definition EVMC_exec (vm : VMFace) : VMFace := fun io_gas x s =>
  let gas := i64 io_gas in
  let '(r, h) := VMExec.execute (H := Host) (EvmcHost0 := fnTable vm) (fun d => h256_bytes (sha3 d)) (exec_fuel gas)
                   (toRevision (schedule m_envInfo m_sealEngine)) (exec_message x gas) (x_code x) (mkHost x s None) in
  match h_end h with
  | Some ending => (ending, (io_gas, h_ext h, h_state h))
  | None =>
      match r with
      | None => (OutOfBounds, (io_gas, h_ext h, h_state h))
      | Some r =>
          match status_code r with
          | EVMC_SUCCESS => (Value (output_data r), (u256 (gas_left r), h_ext h, h_state h))
          | EVMC_REVERT => (Error (XVM (RevertInstruction (output_data r))), (u256 (gas_left r), h_ext h, h_state h))
          | EVMC_OUT_OF_GAS | EVMC_FAILURE => (Error (XVM OutOfGas), (io_gas, h_ext h, h_state h))
          | EVMC_UNDEFINED_INSTRUCTION => (Error (XVM BadInstruction), (io_gas, h_ext h, h_state h))
          | EVMC_BAD_JUMP_DESTINATION => (Error (XVM BadJumpDestination), (io_gas, h_ext h, h_state h))
          | EVMC_STACK_OVERFLOW => (Error (XVM OutOfStack), (io_gas, h_ext h, h_state h))
          | EVMC_STACK_UNDERFLOW => (Error (XVM StackUnderflow), (io_gas, h_ext h, h_state h))
          | EVMC_STATIC_MODE_VIOLATION => (Error (XVM DisallowedStateChange), (io_gas, h_ext h, h_state h))
          | EVMC_REJECTED => (Error XExit, (io_gas, h_ext h, h_state h))
          | EVMC_INTERNAL_ERROR => (Error XInternalVMError, (io_gas, h_ext h, h_state h))
          end
      end
  end.

(** The machine for [n] levels of calls. *)
Fixpoint vm_at (n : nat) : VMFace :=
  match n with
  | O => fun io_gas x s => (OutOfFuel, (io_gas, x, s))
  | S n => EVMC_exec (vm_at n)
  end.
End ExtVM.
