(* ===== verification/ExtVMSpec.v ===== *)
(** * The environment keeps the contract of EVMC

    Every callback of [fnTable] moves the world on and keeps the frame that runs,
    in a static frame it leaves the world still, and none of them ends the
    interpreter.  So the environment is a lawful host of the interpreter
    ([EvmcHostLaws]), the interpreter with it keeps the promise of a machine
    ([VMLaws]), and by induction on the levels of calls so does [vm_at]. *)
From stdpp Require Import base list gmap.
From Stdlib Require Import ZArith Lia.
From S2P Require Import Prelude Words Result Rlp StateMonad Account Evmc VMState VMOps VMSpec VMContract VMExec VMRun VMOptim TestHost VMTheorems.
From S2P Require Import State StateSpec StateReads StateJournal StateOps World Schedule Transaction SealEngine Executive ExecSpec ExtVM.
Open Scope sm_scope.

(** The block: its number is below the switch to the block hash contract, and
    the hashes before it are there. *)
Class EnvLaws (env : EnvInfo) (engine : SealEngine) := {
  env_before : env_number env < u256 (constantinopleForkBlock (chainParams engine) + 256);
  env_hashes : Z.min 256 (env_number env) <= lenZ (env_lastHashes env)
}.

Section Spec.
  Context {DB G : Type} `{Sha3} `{!StateDB DB} `{!StateDBLaws DB} `{!RandomEngine G} `{!UnorderedMaps} `{!Secp256k1}.
  Context (m_envInfo : EnvInfo) (m_sealEngine : SealEngine) `{!EngineLaws m_sealEngine} `{!EnvLaws m_envInfo m_sealEngine}.
  Context (m : trie_map).
Notation st := (State DB G).
Notation Host := (Host (DB := DB) (G := G)).
Notation VMFace := (VMFace (DB := DB) (G := G)).
Notation XM := (SM (ExtVM * st) exception).
  Notation the_view := (the_view (DB := DB) (G := G) m).
  Notation world_ok := (world_ok (DB := DB) (G := G) m).
  Notation moved := (moved (DB := DB) (G := G) m).
  Notation still := (still (DB := DB) (G := G) m).
  Notation frame_ok := (frame_ok (DB := DB) (G := G) m).

(** ** One step of the environment *)

Record stepped (x : ExtVM) (s : st) (x' : ExtVM) (s' : st) : Prop := {
  sp_frame : x' = set_sub (sub x') x;
  sp_refunds : is_u256 (refunds (sub x'));
  sp_world : world_ok s';
  sp_moved : moved s s';
  sp_static : staticCall x = true -> still s s' /\ sub x' = sub x
}.

Lemma set_sub_id x : x = set_sub (sub x) x.
Proof. by destruct x. Qed.

Lemma stepped_refl x s : frame_ok x s -> stepped x s x s.
Proof.
  intros Hf. constructor; [apply set_sub_id|apply Hf|apply Hf|apply moved_refl, Hf|]. intros _. split; [apply still_refl|done].
Qed.

Lemma stepped_trans x s x1 s1 x2 s2 : stepped x s x1 s1 -> stepped x1 s1 x2 s2 -> stepped x s x2 s2.
Proof.
  intros [Hf1 _ _ Hm1 Hs1] [Hf2 Hr2 Hw2 Hm2 Hs2]. constructor; [|done|done|by eapply moved_trans|].
  - rewrite Hf2, Hf1. by destruct x.
  - intros Hst. destruct (Hs1 Hst) as [Hs1' He1]. destruct Hs2 as [Hs2' He2]; [by rewrite Hf1; destruct x|].
    split; [by eapply still_trans|congruence].
Qed.

Lemma stepped_frame x s x' s' : frame_ok x s -> stepped x s x' s' -> frame_ok x' s'.
Proof.
  intros Hf [Hx Hr Hw Hm _]. pose proof (frame_moved m x s s' Hw (proj1 Hm) Hf) as []. rewrite Hx. by constructor.
Qed.

(** [p] returns, and has made a step. *)
Definition x_steps {A} (p : XM A) (P : A -> ExtVM * st -> Prop) (x : ExtVM) (s : st) : Prop :=
  posts p (fun r xs => stepped x s xs.1 xs.2 /\ P r xs) (fun _ _ => False) (x, s).

Lemma x_steps_bind {A B} (p : XM A) (k : A -> XM B) P Q x s : x_steps p P x s ->
  (forall a x' s', stepped x s x' s' -> P a (x', s') -> x_steps (k a) Q x' s') -> x_steps (sbind p k) Q x s.
Proof.
  intros Hp Hk. eapply posts_bind; [exact Hp|]. intros a [x' s'] [Hst HP]. eapply posts_mono; [by apply Hk| |done].
  intros b xs [Hst' HQ]. split; [by eapply stepped_trans|done].
Qed.

Lemma x_steps_get {A B} (f : ExtVM -> A) (k : A -> XM B) Q x s : x_steps (k (f x)) Q x s -> x_steps (sbind (x_get f) k) Q x s.
Proof. done. Qed.

Lemma x_steps_ret {A} (a : A) (P : A -> ExtVM * st -> Prop) x s : frame_ok x s -> P a (x, s) -> x_steps (sret a) P x s.
Proof. intros Hf HP. apply posts_ret. split; [by apply stepped_refl|done]. Qed.

Lemma x_steps_sub f (P : unit -> ExtVM * st -> Prop) x s : frame_ok x s -> is_u256 (refunds (f (sub x))) ->
  (staticCall x = true -> f (sub x) = sub x) -> (P tt (set_sub (f (sub x)) x, s)) -> x_steps (x_sub f) P x s.
Proof.
  intros Hf Hr Hs HP. apply posts_mod. split; [|done]. destruct x; constructor; cbn in *; try done; [apply Hf|apply moved_refl, Hf|].
  intros Hst. split; [apply still_refl|by apply Hs].
Qed.

(** An operation of the state. *)
Lemma x_steps_state {A} (p : SM st state_error A) (P : A -> st -> Prop) (Q : A -> ExtVM * st -> Prop) x s : frame_ok x s ->
  steps m p (fun r s' => P r s' /\ (staticCall x = true -> still s s')) s -> (forall r s', P r s' -> Q r (x, s')) -> x_steps (x_state p) Q x s.
Proof.
  intros Hf Hp HQ. unfold x_steps, posts, x_state, steps, posts in *. cbn [fst snd]. destruct (p s) as [[r| | |] s']; cbn; try done.
  destruct Hp as (Hw & Hm & HP & Hs). split; [|by apply HQ]. constructor; cbn; try done; [apply set_sub_id|apply Hf|]. intros Hst. auto.
Qed.

(** A query of the state. *)
Lemma x_steps_query {A} (p : SM st state_error A) (P : A -> st -> Prop) (Q : A -> ExtVM * st -> Prop) x s : frame_ok x s ->
  posts p (fun r s' => P r s' /\ quiet m s s') (fun _ _ => False) s -> (forall r s', P r s' -> quiet m s s' -> Q r (x, s')) ->
  x_steps (x_state p) Q x s.
Proof.
  intros Hf Hp HQ. eapply (x_steps_state p (fun r s' => P r s' /\ quiet m s s')); [done| |intros r s' [HP Hq]; by apply HQ].
  eapply posts_mono; [by apply steps_query; [apply Hf|exact Hp]| |done]. intros r s' (Hw & Hm & HP & Hq).
  split; [done|]. split; [done|]. split; [done|]. intros _. apply still_same, Hq.
Qed.

(** ** Executions inside *)

Section Calls.
  Context (vm : VMFace).

Lemma accrue_empty u : is_u256 (refunds u) -> SubState_add u empty_SubState = u.
Proof.
  intros Hr. unfold SubState_add. cbn. rewrite app_nil_r, Z.add_0_r, u256_small by done. destruct u; cbn. f_equal. set_solver.
Qed.

Lemma new_fresh l : 0 <= l <= 1024 -> fresh (new_Executive l).
Proof. intros Hl. by constructor. Qed.

(** What an execution inside of a frame leaves, for an execution that [start]
    prepares. *)
Lemma run_executive_posts start gas static (R : st -> Prop) x s `{!VMLaws m vm (x_depth x + 1)} :
  frame_ok x s -> x_depth x < 1024 -> gas < 2 ^ 63 -> (staticCall x = true -> static = true) ->
  posts start (fun fin es => exists s1, (moved s s1 /\ R s1 /\ (staticCall x = true -> s1 = s)) /\
      same_tx (new_Executive (x_depth x + 1)) es.1 /\ prepared m fin gas static s1 es.1 es.2)
    (fun _ _ => False) (new_Executive (x_depth x + 1), s) ->
  x_steps (run_executive m_envInfo m_sealEngine vm start)
    (fun e xs => (exists s1, R s1 /\ finished m gas static s1 e xs.2) /\ (static = true \/ m_excepted e <> TE_None -> sub xs.1 = sub x)) x s.
Proof.
  intros Hf Hd Hgas Hst Hp. pose proof (fr_depth _ _ _ Hf). unfold run_executive.
  eapply (posts_bind _ _ _ (fun r xs => xs.1 = x /\ exists s1, moved s s1 /\ R s1 /\ (staticCall x = true -> s1 = s) /\
     finished m gas static s1 r.2 xs.2 /\ (r.1 = true -> m_ext r.2 = None))).
  - unfold with_executive, posts. cbn [fst snd]. rewrite (u32_small (x_depth x + 1)) by lia.
    match goal with |- context [?q (new_Executive (x_depth x + 1), s)] => set (body := q) end.
    assert (posts body (fun fin es => exists s1, moved s s1 /\ R s1 /\ (staticCall x = true -> s1 = s) /\
      finished m gas static s1 es.1 es.2 /\ (fin = true -> m_ext es.1 = None)) (fun _ _ => False) (new_Executive (x_depth x + 1), s)) as Hb.
    { eapply posts_bind; [exact Hp|]. intros fin [e1 s2] (s1 & (Hm & HR & Hs1) & Htx & Hpr). cbn [fst snd] in *. destruct fin.
      - apply posts_ret. exists s1. cbn [fst snd]. split; [done|]. split; [done|]. split; [done|]. split; [by apply prepared_finished|].
        intros _. by apply (pp_done _ _ _ _ _ _ _ Hpr).
      - assert (VMLaws m vm (m_depth e1)) by (by rewrite (st_depth _ _ Htx)). eapply posts_bind; [by apply (go_posts _ _ m vm gas static s1 e1 s2)|].
        intros r [e3 s3] (_ & _ & Hfin). apply posts_ret. exists s1. cbn [fst snd] in *. split; [done|]. by split_and!. }
    unfold posts in Hb. by destruct (body _) as [[fin| | |] [e' s']].
  - intros [fin e] [x' s'] [Hx (s1 & Hm & HR & Hs1 & Hfin & Hext)]. cbn [fst snd] in *. subst x'.
    pose proof Hfin as [Hw Hm1 _ _ Hst1 _ Hsub]. assert (moved s s') as Hm' by (by eapply moved_trans).
    assert (staticCall x = true -> still s s') as Hstill.
    { intros Hstat. rewrite <- (Hs1 Hstat). by apply Hst1, Hst. }
    assert (forall u, is_u256 (refunds u) -> (staticCall x = true -> u = sub x) -> stepped x s (set_sub u x) s') as Hstep.
    { intros u Hu Hsu. constructor; cbn; try done. intros Hstat. split; [by apply Hstill|by apply Hsu]. }
    assert (posts ((if fin then sret tt else x_sub (accrueSubState e)) : XM unit)
      (fun _ xs => xs = (set_sub (if fin then sub x else accrueSubState e (sub x)) x, s')) (fun _ _ => False) (x, s')) as Ha.
    { destruct fin; [apply posts_ret; by rewrite <- set_sub_id|done]. }
    assert (static = true \/ m_excepted e <> TE_None -> (if fin then sub x else accrueSubState e (sub x)) = sub x) as Hkeep.
    { intros Hke. destruct fin; [done|]. unfold accrueSubState. destruct (m_ext e) as [y|] eqn:Hy; [|done].
      destruct (Hsub y eq_refl) as [_ Hempty]. rewrite (Hempty Hke). apply accrue_empty, Hf. }
    eapply posts_bind; [exact Ha|]. intros [] ? ->. apply posts_ret. cbn [fst snd]. split; [|split; [by exists s1|exact Hkeep]].
    apply Hstep; [|intros Hstat; apply Hkeep; left; by apply Hst].
    destruct fin; [apply Hf|]. unfold accrueSubState. destruct (m_ext e); [apply u256_range|apply Hf].
Qed.

Lemma success_none ex : transactionExceptionToEvmcStatusCode ex = EVMC_SUCCESS <-> ex = TE_None.
Proof. by destruct ex. Qed.

(** A message call from inside of a frame: what fails leaves the world still, and
    so does a static call. *)
Lemma ExtVM_call_steps p x s `{!VMLaws m vm (x_depth x + 1)} :
  frame_ok x s -> x_depth x < 1024 -> call_ok m p s -> (staticCall x = true -> p_staticCall p = true) ->
  x_steps (ExtVM_call m_envInfo m_sealEngine vm p)
    (fun r xs => let '(status, out, gas) := r in
       0 <= gas <= p_gas p /\ bytes_ok out /\
       (status <> EVMC_SUCCESS \/ p_staticCall p = true -> still s xs.2 /\ sub xs.1 = sub x)) x s.
Proof.
  intros Hf Hd Hco Hst. unfold ExtVM_call. apply x_steps_get. pose proof (fr_depth _ _ _ Hf).
  eapply x_steps_bind.
  - apply (run_executive_posts _ (p_gas p) (p_staticCall p) (fun s1 => s1 = s) x s); [done|done|apply Hco|done|].
    eapply posts_mono; [apply (call_posts m_envInfo m_sealEngine m); [by apply new_fresh; lia|done|apply Hf|done]| |done].
    intros fin es (s1 & Hm & _ & Hs1 & Htx & _ & Hp). rewrite Hs1 in * by done. by exists s.
  - intros e x' s' Hstep [(s1 & -> & Hfin) Hkeep]. pose proof Hfin as [Hw Hm Hg Ho Hstill Hfail _]. cbn [fst snd] in *.
    apply x_steps_ret; [by eapply stepped_frame|]. split; [done|]. split; [done|]. rewrite success_none. cbn [fst snd].
    intros [Hx|Hx]; split; auto.
Qed.

(** A creation: what fails only counts the nonce. *)
Lemma ExtVM_create_steps endowment gas init create2 salt x s `{!VMLaws m vm (x_depth x + 1)} :
  frame_ok x s -> x_depth x < 1024 -> staticCall x = false -> create_ok m (myAddress x) endowment gas init s ->
  x_steps (ExtVM_create m_envInfo m_sealEngine vm endowment gas init create2 salt)
    (fun r xs => let '(status, out, addr, g) := r in
       0 <= g <= gas /\ bytes_ok out /\
       (status <> EVMC_SUCCESS -> sub xs.1 = sub x /\
          exists s0 s1, quiet m s s0 /\ started m s0 s1 (myAddress x) /\ still s1 xs.2)) x s.
Proof.
  intros Hf Hd Hst Hk. unfold ExtVM_create. apply x_steps_get. pose proof (fr_depth _ _ _ Hf).
  eapply x_steps_bind.
  - apply (run_executive_posts _ gas false (fun s1 => exists s0, quiet m s s0 /\ started m s0 s1 (myAddress x)) x s);
      [done|done|apply Hk|by rewrite Hst|].
    assert (create_posts m (if negb create2
      then createOpcode m_envInfo m_sealEngine (myAddress x) endowment (x_gasPrice x) gas init (origin x)
      else create2Opcode m_envInfo m_sealEngine (myAddress x) endowment (x_gasPrice x) gas init (origin x) salt)
      gas (myAddress x) (new_Executive (x_depth x + 1)) s) as Hp.
    { destruct create2; [apply (create2Opcode_posts m_envInfo m_sealEngine m)|apply (createOpcode_posts m_envInfo m_sealEngine m)];
        try done; (by apply new_fresh; lia) || apply Hf. }
    eapply posts_mono; [exact Hp| |done]. intros fin es (s0 & s1 & Hq & Hm & Hs & Htx & Hpr). exists s1.
    split; [split; [done|]|by split]. split; [by exists s0|by rewrite Hst].
  - intros e x' s' Hstep [(s1 & (s0 & Hq & Hs) & Hfin) Hkeep]. pose proof Hfin as [Hw Hm Hg Ho _ Hfail _]. cbn [fst snd] in *.
    apply x_steps_ret; [by eapply stepped_frame|]. split; [done|]. split; [done|]. rewrite success_none. intros Hns. cbn [fst snd].
    split; [auto|]. exists s0, s1. split; [done|]. split; [done|]. by apply Hfail.
Qed.

(** ** The callbacks *)

Definition any {A B} (_ : A) (_ : B) : Prop := True.

Lemma exists_steps a x s : frame_ok x s -> x_steps (exists_ m_envInfo m_sealEngine a) any x s.
Proof.
  intros Hf. unfold exists_. destruct (emptinessIsNonexistence _);
    (eapply x_steps_query; [done|apply (accountNonemptyAndExisting_posts m) || apply (addressInUse_posts m); apply Hf|done]).
Qed.

Lemma balance_steps a x s : frame_ok x s -> x_steps (x_state (balance a)) (fun b xs => b = bal (the_view s a) /\ quiet m s xs.2) x s.
Proof. intros Hf. eapply x_steps_query; [done|apply (balance_posts m), Hf|]. done. Qed.

Lemma store_steps n x s : frame_ok x s -> x_steps (store n) any x s.
Proof.
  intros Hf. unfold store. apply x_steps_get. eapply (x_steps_query _ (fun _ _ => True)); [done| |done].
  eapply posts_mono; [apply (storage_posts m), Hf| |done]. by intros r s' (_ & Hq & _).
Qed.

Lemma setStore_steps n v x s : frame_ok x s -> staticCall x = false -> x_steps (setStore n v) any x s.
Proof.
  intros Hf Hst. unfold setStore. apply x_steps_get. eapply (x_steps_state _ (fun _ _ => True)); [done| |done].
  eapply posts_mono; [apply (setStorage_steps m); apply Hf| |done]. intros r s' (Hw & Hm & _). split_and!; try done. by rewrite Hst.
Qed.

Lemma setStorage_callback_steps k v x s : frame_ok x s -> staticCall x = false -> x_steps (setStorage_callback m_envInfo m_sealEngine k v) any x s.
Proof.
  intros Hf Hst. unfold setStorage_callback. cbv zeta. eapply (x_steps_bind _ _ any).
  - destruct (_ =? 0); [|by apply x_steps_ret]. eapply x_steps_bind; [by apply store_steps|]. intros old x1 s1 Hstep _.
    pose proof (stepped_frame x s x1 s1 Hf Hstep) as Hf1. destruct (negb _); [|by apply x_steps_ret].
    apply x_steps_sub; [done|apply u256_range| |done]. rewrite (sp_frame _ _ _ _ Hstep). cbn. by rewrite Hst.
  - intros [] x1 s1 Hstep _. apply setStore_steps; [by eapply stepped_frame|]. by rewrite (sp_frame _ _ _ _ Hstep).
Qed.

Lemma suicide_steps a x s : frame_ok x s -> staticCall x = false -> x_steps (suicide a) any x s.
Proof.
  intros Hf Hst. unfold suicide. apply x_steps_get. eapply (x_steps_bind _ _ any).
  - eapply (x_steps_state _ (fun _ _ => True)); [done| |done].
    eapply posts_mono; [apply (destroy_steps m (myAddress x) a s); apply Hf| |done]. intros r s' (Hw & Hm & _). split_and!; try done. by rewrite Hst.
  - intros [] x1 s1 Hstep _. pose proof (stepped_frame x s x1 s1 Hf Hstep) as Hf1. apply x_steps_sub; [done|apply Hf1| |done].
    rewrite (sp_frame _ _ _ _ Hstep). cbn. by rewrite Hst.
Qed.

Lemma log_steps t d x s : frame_ok x s -> staticCall x = false -> x_steps (log t d) any x s.
Proof.
  intros Hf Hst. unfold log. apply x_steps_get. apply x_steps_sub; [done|apply Hf| |done]. by rewrite Hst.
Qed.

Lemma codeSize_steps a x s : frame_ok x s -> x_steps (x_state (codeSize a)) any x s.
Proof.
  intros Hf. eapply (x_steps_query _ (fun _ _ => True)); [done| |done]. eapply posts_mono; [apply (codeSize_posts m), Hf| |done]. by intros r s' Hq.
Qed.

Lemma copyCode_steps a off n x s : frame_ok x s ->
  x_steps (copyCode a off n) (fun c _ => 0 <= n -> lenZ c <= n /\ Forall (fun b => is_byte b) c) x s.
Proof.
  intros Hf. unfold copyCode. eapply (x_steps_bind _ _ (fun c _ => Forall (fun b => is_byte b) c)).
  - eapply (x_steps_query _ (fun c _ => Forall (fun b => is_byte b) c)); [done| |done].
    eapply posts_mono; [apply (code_posts m), Hf| |done]. intros c s' (-> & Hq & _). split; [|done].
    apply (view_bytes m s (fromEvmC_address a) (fr_world _ _ _ Hf)).
  - intros c x' s' Hstep Hc. apply x_steps_ret; [by eapply stepped_frame|]. cbn in Hc. intros Hn. destruct (Z.leb_spec (lenZ c) off).
    + split; [unfold lenZ; cbn; lia|by apply List.Forall_nil].
    + split; [unfold lenZ; rewrite length_take; lia|]. by apply Forall_take, Forall_drop.
Qed.

Lemma blockHash_steps n x s : 0 <= n -> frame_ok x s -> x_steps (blockHash m_envInfo m_sealEngine vm n) any x s.
Proof.
  intros Hn Hf. unfold blockHash. cbv zeta. set (cur := env_number m_envInfo).
  destruct ((cur <=? n) || (n <? Z.max 256 cur - 256)) eqn:Hr; [by apply x_steps_ret|].
  apply orb_false_elim in Hr as [Hr1%Z.leb_gt Hr2%Z.ltb_ge]. pose proof env_before as Hb. pose proof env_hashes as Hh. fold cur in Hb, Hh.
  destruct (Z.ltb_spec cur (u256 (constantinopleForkBlock (chainParams m_sealEngine) + 256))); [|lia].
  assert (0 <= cur - 1 - n < lenZ (env_lastHashes m_envInfo)) as Hi by lia. rewrite u32_small by lia.
  destruct (getZ_lookup (env_lastHashes m_envInfo) (cur - 1 - n) Hi) as [h Hh']. rewrite Hh'. by apply x_steps_ret.
Qed.

(** A message the frame may send. *)
Lemma call_callback_steps g0 msg x s `{!VMLaws m vm (x_depth x + 1)} :
  frame_ok x s -> call_allowed (exec_message x g0) msg ->
  (kind msg <> EVMC_DELEGATECALL -> value msg = 0 \/ value msg <= bal (the_view s (myAddress x))) ->
  x_steps (call_callback m_envInfo m_sealEngine vm msg) (fun r _ => call_result_ok msg r) x s.
Proof.
  intros Hf [Hg Hd Hin [Hst Hsv] Hsnd Hdel] Hfund. cbn [depth exec_message destination] in *.
  assert (is_static (exec_message x g0) = staticCall x) as Hstat by (unfold exec_message, is_static; cbn; by destruct (staticCall x)).
  rewrite Hstat in Hst. unfold call_callback. assert (u256 (msg_gas msg) = msg_gas msg) as Hmg by (apply u256_small; lia).
  assert (forall a, 0 <= a < 2 ^ 160 -> fromEvmC_address a = a) as Hadr by (intros a Ha; by apply Z.mod_small).
  assert (forall i, 0 <= i <= msg_gas msg -> i64 i = i) as Hi64 by (intros i Hi; apply i64_small; lia).
  destruct (decide (kind msg = EVMC_CREATE)) as [Hk|Hk].
  - destruct Hsnd as [_ Hv]; [by rewrite Hk|]. assert (staticCall x = false) as Hns by (destruct (staticCall x); [by destruct (Hst eq_refl)|done]).
    unfold create_callback. eapply x_steps_bind.
    + apply ExtVM_create_steps; [done|done|done|done|]. rewrite Hmg. unfold fromEvmC_uint256. rewrite u256_small by done.
      constructor; [apply Hf|done|apply Hfund; by rewrite Hk|done|done].
    + intros [[[status out] addr] g] x' s' Hstep (Hgas & Ho & _). apply x_steps_ret; [by eapply stepped_frame|].
      destruct Ho as [Hb Hl]. case_decide; constructor; cbn; rewrite ?Hi64 by lia; try lia; done.
  - apply x_steps_get. cbv zeta. eapply x_steps_bind.
    + apply ExtVM_call_steps; [done|done|done| |intros Hs; cbn; by destruct (Hst Hs)].
      assert (is_u256 (fromEvmC_uint256 (value msg))) as Hap by apply u256_range.
      assert (kind msg <> EVMC_DELEGATECALL -> fromEvmC_uint256 (value msg) = value msg /\ fromEvmC_address (Evmc.sender msg) = myAddress x) as Hnd.
      { intros Hnd. destruct (Hsnd Hnd) as [-> Hv]. split; [by apply u256_small|]. apply Hadr, Hf. }
      constructor; cbn; try done; try lia.
      * by case_decide.
      * case_decide as Hdk; [by left|]. destruct (Hnd Hdk) as [-> ->]. by apply Hfund.
      * case_decide; [apply Z.mod_pos_bound; lia|apply Hf].
      * case_decide; [by left|right; apply Hf].
      * intros Hs. destruct (decide (kind msg = EVMC_DELEGATECALL)) as [|Hdk]; [by left|]. destruct (Hnd Hdk) as [-> ->].
        case_decide as Hkc; [left; by apply Hsv|by right].
    + intros [[status out] g] x' s' Hstep (Hgas & Ho & _). apply x_steps_ret; [by eapply stepped_frame|]. destruct Ho as [Hb Hl]. cbn in Hgas.
      constructor; cbn; rewrite ?Hi64 by lia; try lia; done.
Qed.

(** ** The host of a frame *)

Section Frame.
  Context (x : ExtVM) (g0 : Z) `{!VMLaws m vm (x_depth x + 1)}.
  #[local] Existing Instance fnTable.
  Notation table := (fnTable (DB := DB) (G := G) m_envInfo m_sealEngine vm).
  Notation ctx := (exec_message x g0).

(** The interpreter runs this frame, and nothing has stopped it. *)
Record on_frame (h : Host) : Prop := {
  of_end : h_end h = None;
  of_ext : h_ext h = set_sub (sub (h_ext h)) x;
  of_frame : frame_ok (h_ext h) (h_state h)
}.

Definition on_step (h h' : Host) : Prop := on_frame h -> on_frame h' /\ stepped (h_ext h) (h_state h) (h_ext h') (h_state h').

Lemma callback_step {A} f (a : A) p P h : on_frame h -> x_steps p P (h_ext h) (h_state h) ->
  let h' := (callback f a p h).2 in
  on_frame h' /\ stepped (h_ext h) (h_state h) (h_ext h') (h_state h') /\ P (callback f a p h).1 (h_ext h', h_state h').
Proof.
  intros [He Hx Hf] Hp. unfold callback. rewrite He. unfold x_steps, posts in Hp. destruct (p _) as [[b| | |] [x' s']]; try done.
  destruct Hp as [Hst HP]. cbn [fst snd h_ext h_state] in *. split_and!; [|done|done].
  constructor; cbn; [done| |by eapply stepped_frame]. rewrite (sp_frame _ _ _ _ Hst), Hx. by destruct x.
Qed.

(** The message of a frame does not change. *)
Lemma frame_message h : on_frame h -> myAddress (h_ext h) = myAddress x /\ staticCall (h_ext h) = staticCall x /\
  x_depth (h_ext h) = x_depth x /\ exec_message (h_ext h) g0 = ctx.
Proof. intros [_ -> _]. by destruct x. Qed.

Lemma static_message : is_static ctx = staticCall x.
Proof. unfold exec_message, is_static. cbn. by destruct (staticCall x). Qed.

(** A callback that only needs the frame. *)
Lemma callback_any {A} f (a : A) (p : XM A) h : (forall x s, frame_ok x s -> x_steps p any x s) -> on_step h (callback f a p h).2.
Proof.
  intros Hp Hh. destruct (callback_step f a p any h Hh (Hp _ _ (of_frame _ Hh))) as (H1' & H2' & _). by split.
Qed.

(** One that needs the frame not to be static. *)
Lemma callback_write {A} f (a : A) (p : XM A) h : is_static ctx = false ->
  (forall x s, frame_ok x s -> staticCall x = false -> x_steps p any x s) -> on_step h (callback f a p h).2.
Proof.
  intros Hst Hp Hh. destruct (frame_message h Hh) as (_ & Hs & _). rewrite static_message in Hst.
  assert (x_steps p any (h_ext h) (h_state h)) as Hx by (apply Hp; [apply Hh|congruence]).
  destruct (callback_step f a p any h Hh Hx) as (H1' & H2' & _). by split.
Qed.

Lemma balance_answer a h : on_frame h -> (fn_get_balance (EvmcHost := table) a h).1 = bal (the_view (h_state h) (fromEvmC_address a)).
Proof.
  intros Hh. cbn [fnTable fn_get_balance].
  destruct (callback_step terminate 0 (x_state (balance (fromEvmC_address a))) _ h Hh (balance_steps _ _ _ (of_frame _ Hh))) as (_ & _ & [Hb _]).
  exact Hb.
Qed.

Lemma message_steps msg h : on_frame h -> call_allowed ctx msg -> funded (H0 := table) ctx msg h ->
  x_steps (call_callback m_envInfo m_sealEngine vm msg) (fun r _ => call_result_ok msg r) (h_ext h) (h_state h).
Proof.
  intros Hh Hal Hfd. destruct (frame_message h Hh) as (Hmy & _ & Hd & Hm). assert (VMLaws m vm (x_depth (h_ext h) + 1)) by (by rewrite Hd).
  apply (call_callback_steps g0); [done|apply Hh|by rewrite Hm|]. intros Hk. destruct (Hfd Hk) as [|Hle]; [by left|right].
  rewrite balance_answer in Hle by done. cbn [destination exec_message] in Hle.
  assert (fromEvmC_address (myAddress x) = myAddress x) as Ha by (apply Z.mod_small; rewrite <- Hmy; apply Hh). rewrite Ha in Hle.
  unfold fromEvmC_uint256 in Hle. rewrite u256_small in Hle by (apply (the_view_balance m), Hh). by rewrite Hmy.
Qed.

(** Every callback the frame may use is a step. *)
Lemma step_account_exists a h : on_step h (fn_account_exists (EvmcHost := table) a h).2.
Proof. apply callback_any. intros. by apply exists_steps. Qed.
Lemma step_get_storage a k h : on_step h (fn_get_storage (EvmcHost := table) a k h).2.
Proof. apply callback_any. intros. by apply store_steps. Qed.
Lemma step_get_balance a h : on_step h (fn_get_balance (EvmcHost := table) a h).2.
Proof. apply callback_any. intros y s Hf. eapply posts_mono; [by apply balance_steps|by intros ? ? []|done]. Qed.
Lemma step_get_code_size a h : on_step h (fn_get_code_size (EvmcHost := table) a h).2.
Proof. apply callback_any. intros. by apply codeSize_steps. Qed.
Lemma step_copy_code a o n h : on_step h (fn_copy_code (EvmcHost := table) a o n h).2.
Proof. apply callback_any. intros y s Hf. eapply posts_mono; [by apply copyCode_steps|by intros ? ? []|done]. Qed.
Lemma step_get_tx_context h : on_step h (fn_get_tx_context (EvmcHost := table) h).2.
Proof. intros Hh. split; [done|]. apply stepped_refl, Hh. Qed.
Lemma step_get_block_hash n h : on_step h (fn_get_block_hash (EvmcHost := table) n h).2.
Proof. apply callback_any. intros. apply blockHash_steps; [apply u256_range|done]. Qed.
Lemma step_set_storage a k v h : is_static ctx = false -> on_step h (fn_set_storage (EvmcHost := table) a k v h).
Proof. intros Hst. apply (callback_write terminate tt); [done|]. intros. by apply setStorage_callback_steps. Qed.
Lemma step_selfdestruct a b h : is_static ctx = false -> on_step h (fn_selfdestruct (EvmcHost := table) a b h).
Proof. intros Hst. apply (callback_write terminate tt); [done|]. intros. by apply suicide_steps. Qed.
Lemma step_emit_log a d t h : is_static ctx = false -> on_step h (fn_emit_log (EvmcHost := table) a d t h).
Proof. intros Hst. apply (callback_write terminate tt); [done|]. intros. by apply log_steps. Qed.
Lemma step_call msg h : call_allowed ctx msg -> funded (H0 := table) ctx msg h -> on_step h (fn_call (EvmcHost := table) msg h).2.
Proof.
  intros Hal Hfd Hh. destruct (callback_step terminate failed_result _ _ h Hh (message_steps msg h Hh Hal Hfd)) as (H1' & H2' & _). by split.
Qed.

(** The environment keeps the contract of EVMC. *)
Definition host_laws : EvmcHostLaws Host (H0 := table) ctx.
Proof.
  refine {| host_ok := on_frame |}.
  - intros a h Hh. by apply step_account_exists.
  - intros k h Hh. by apply step_get_storage.
  - intros a h Hh. by apply step_get_balance.
  - intros a h Hh. by apply step_get_code_size.
  - intros a o n h Hh. by apply step_copy_code.
  - intros h Hh. by apply step_get_tx_context.
  - intros n h Hh. by apply step_get_block_hash.
  - intros Hst k v h Hh. by apply step_set_storage.
  - intros Hst b h Hh. by apply step_selfdestruct.
  - intros Hst d t h Hh. by apply step_emit_log.
  - intros msg h Hal Hfd Hh. by apply step_call.
  - intros a h Hh. destruct (step_get_balance a h Hh) as [Hh' _]. rewrite !balance_answer by done.
    destruct (callback_step terminate 0 _ _ h Hh (balance_steps (fromEvmC_address a) _ _ (of_frame _ Hh))) as (_ & _ & [_ Hq]).
    symmetry. apply bal_eq, (sm_view _ _ _ (qu_same _ _ _ Hq)).
  - intros a off n h Hn Hh.
    destruct (callback_step internal_error [] _ _ h Hh (copyCode_steps a off n _ _ (of_frame _ Hh))) as (_ & _ & Hc). by apply Hc.
  - intros msg h Hal Hfd Hh.
    destruct (callback_step terminate failed_result _ _ h Hh (message_steps msg h Hh Hal Hfd)) as (_ & _ & Hr). exact Hr.
Defined.

Lemma host_rel : HostRel (EvmcHost0 := table) ctx (EvmcHostLaws0 := host_laws) on_step.
Proof.
  constructor.
  - intros h Hh. split; [done|]. apply stepped_refl, Hh.
  - intros h1 h2 h3 H12 H23 Hh. destruct (H12 Hh) as [Hh2 Hs12]. destruct (H23 Hh2) as [Hh3 Hs23]. split; [done|]. by eapply stepped_trans.
  - intros a h _. apply step_account_exists.
  - intros k h _. apply step_get_storage.
  - intros a h _. apply step_get_balance.
  - intros a h _. apply step_get_code_size.
  - intros a o n h _. apply step_copy_code.
  - intros h _. apply step_get_tx_context.
  - intros n h _. apply step_get_block_hash.
  - intros Hst k v h _. by apply step_set_storage.
  - intros Hst b h _. by apply step_selfdestruct.
  - intros Hst d t h _. by apply step_emit_log.
  - intros msg h Hal Hfd _. by apply step_call.
Qed.
End Frame.
End Calls.

(** ** The machine *)

Lemma VMLaws_below (vm : VMFace) d d' : d <= d' -> VMLaws m vm d -> VMLaws m vm d'.
Proof. intros Hd Hvm x s gas Hf Hx Hg. apply Hvm; [done|lia|done]. Qed.

(** The interpreter with the environment as its host keeps the promise of a
    machine when the machine for the calls it makes does. *)
Lemma EVMC_exec_laws (vm : VMFace) d : VMLaws m vm (d + 1) -> VMLaws m (EVMC_exec m_envInfo m_sealEngine vm) d.
Proof.
  intros Hvm x s gas Hf Hd Hg. pose proof (VMLaws_below vm (d + 1) (x_depth x + 1) ltac:(lia) Hvm) as Hvm'.
  unfold EVMC_exec. rewrite (i64_small gas) by lia. set (r := toRevision _). set (h := mkHost x s None).
  assert (on_frame x h) as Hh by (constructor; cbn; [done|apply set_sub_id|done]).
  destruct (execute_plain (exec_message x gas) (EvmcHostLaws0 := host_laws vm x gas) (fun d => h256_bytes (sha3 d)) interpreter_config
    (on_step x) (HostRel0 := host_rel vm x gas) (exec_fuel gas) r (x_code x) h) as (result & h' & He & Hex).
  - done.
  - destruct (fr_data _ _ _ Hf), (fr_code _ _ _ Hf). constructor; cbn; try done. lia.
  - exact Hh.
  - unfold exec_fuel. rewrite Z2Nat.id; cbn; lia.
  - rewrite He. destruct Hex as [Hgas [Hob Hol] Hstat [Hok Hstep]]. cbn [host_ok host_laws] in Hok. destruct (Hstep Hh) as [_ Hst].
    rewrite (of_end _ _ Hok). destruct Hst as [Hsf Hsr Hsw Hsm Hss]. cbn [h_ext h_state h msg_gas exec_message] in *.
    destruct Hstat as [->|[->|(-> & _ & _)]]; constructor; try done; rewrite ?u256_small by lia; lia.
Qed.

(** The machine for [n] levels runs the frames from the depth [1025 - n]. *)
Lemma vm_at_laws n : VMLaws m (vm_at m_envInfo m_sealEngine n) (1025 - Z.of_nat n).
Proof.
  induction n as [|n IH].
  - intros x s gas Hf Hd _. pose proof (fr_depth _ _ _ Hf). lia.
  - cbn [vm_at]. apply EVMC_exec_laws. eapply VMLaws_below; [|exact IH]. lia.
Qed.
End Spec.
