(* ===== verification/TxSpec.v ===== *)
(** * What a transaction leaves

    A transaction is rejected before it touches an account, or it is paid for,
    runs, and is settled: whatever its code does, gas is metered, value is not
    created, and a transaction that fails changes nothing but the accounts that
    pay and are paid. *)
From stdpp Require Import base list gmap sorting.
From Stdlib Require Import ZArith Lia.
From S2P Require Import Prelude Words Result Rlp StateMonad Account VMState State StateSpec StateReads StateJournal StateOps World.
From S2P Require Import Schedule Transaction SealEngine Executive ExecSpec.
Open Scope sm_scope.

Lemma returns_check {E A} (b : bool) (e : E) (k : result E A) P :
  (b = false -> returns k P) -> returns (rbind (throw_if b e) (fun _ => k)) P.
Proof. destruct b; cbn; auto. Qed.

Section Spec.
  Context {DB G : Type} `{Sha3} `{!StateDB DB} `{!StateDBLaws DB} `{!RandomEngine G} `{!UnorderedMaps} `{!Secp256k1}.
  Context (m_envInfo : EnvInfo) (m_sealEngine : SealEngine) `{!EngineLaws m_sealEngine}.
  Context (m : trie_map).
Notation st := (State DB G).
Notation EM := (SM (Executive * st) exception).
Notation VMFace := (VMFace (DB := DB) (G := G)).
  Notation the_view := (the_view (DB := DB) (G := G) m).
  Notation world_ok := (world_ok (DB := DB) (G := G) m).
  Notation moved := (moved (DB := DB) (G := G) m).
  Notation carried := (carried (DB := DB) (G := G) m).
  Notation still := (still (DB := DB) (G := G) m).
  Notation plain := (plain (DB := DB) (G := G) m).
  Notation quiet := (quiet (DB := DB) (G := G) m).
  Notation supply_by := (supply_by (DB := DB) (G := G) m).
  Notation base t := (baseGasRequired (schedule m_envInfo m_sealEngine) t).

(** ** All but some accounts *)

(** Only these accounts change, and empty accounts may come to exist. *)
Record still_but (l : list Z) (s s' : st) : Prop := {
  sb_nonce : m_accountStartNonce s' = m_accountStartNonce s;
  sb_view : forall b, b ∉ l -> option_Forall2 view_eq (the_view s b) (the_view s' b) \/
    the_view s b = None /\ option_Forall2 view_eq (Some (new_view (m_accountStartNonce s) 0)) (the_view s' b)
}.

Lemma still_but_still l s s' : still s s' -> still_but l s s'.
Proof. intros []. by constructor. Qed.

Lemma still_but_trans l s t u : still_but l s t -> still_but l t u -> still_but l s u.
Proof.
  intros [Hn1 Hv1] [Hn2 Hv2]. constructor; [congruence|]. intros b Hb. destruct (Hv1 b Hb) as [Hb1|[Hb1 Hb']], (Hv2 b Hb) as [Hc|[Hc Hc']].
  - left. by eapply option_view_trans.
  - right. rewrite Hc in Hb1. inversion Hb1. by rewrite <- Hn1.
  - right. split; [done|]. by eapply option_view_trans.
  - rewrite Hc in Hb'. inversion Hb'.
Qed.

Lemma still_but_weaken l l' s s' : still_but l s s' -> l ⊆ l' -> still_but l' s s'.
Proof. intros [] Hl. constructor; [done|]. intros b Hb. apply sb_view0. set_solver. Qed.

Lemma still_but_effect l s s' a f : m_accountStartNonce s' = m_accountStartNonce s -> effect m s s' a f -> a ∈ l -> still_but l s s'.
Proof.
  intros Hn He Ha. constructor; [done|]. intros b Hb. left. specialize (He b). destruct (decide (a = b)) as [<-|]; done.
Qed.

Lemma still_but_started l s s1 a : m_accountStartNonce s1 = m_accountStartNonce s -> started m s s1 a -> a ∈ l -> still_but l s s1.
Proof. intros Hn [->|He] Ha; [apply still_but_still, still_refl|by eapply still_but_effect]. Qed.

(** ** Senders *)

Lemma sender_force a t : sender t = Value a -> sender (forceSender a t) = Value a.
Proof.
  intros Hs. unfold sender at 1. cbn [m_sender forceSender]. destruct (Z.eqb_spec a 0) as [->|Hne]; [|done]. cbn [negb].
  destruct (Z.eqb_spec (m_sender t) 0) as [Hz|Hz].
  - assert (forceSender 0 t = t) as -> by (unfold forceSender; destruct t; cbn in *; congruence).
    unfold sender in Hs. by rewrite Hz in Hs.
  - unfold sender in Hs. apply Z.eqb_neq in Hz. rewrite Hz in Hs. cbn in Hs. injection Hs as Hs. apply Z.eqb_neq in Hz. congruence.
Qed.

(** The transaction of the members is [t], with its sender remembered or not. *)
Definition runs (t : TransactionBase) (a : Z) (e : Executive) : Prop := m_t e = t \/ m_t e = forceSender a t.

Lemma then_sender {B} t a e (k : Z -> EM B) R Q s : sender t = Value a -> runs t a e ->
  posts (k a) R Q (set_t (forceSender a t) e, s) -> posts (sbind (tx_sender : EM Z) k) R Q (e, s).
Proof.
  intros Hs Hr. unfold posts, sbind, tx_sender, with_sender. cbn [fst snd].
  assert (sender (m_t e) = Value a) as Ha by (destruct Hr as [->| ->]; [done|by apply sender_force]).
  rewrite Ha. cbn [rbind m_sender forceSender]. by destruct Hr as [->| ->].
Qed.

Lemma runs_force t a e : runs t a (set_t (forceSender a t) e).
Proof. by right. Qed.

(** ** Transactions *)

(** The members have their types, and the sender is an account a transaction
    may come from. *)
Record tx_ok (t : TransactionBase) (a : Z) (s : st) : Prop := {
  tk_type : is_null t = false;
  tk_sender : sender t = Value a;
  tk_value : is_u256 (t_value t);
  tk_gas : is_u256 (t_gas t);
  tk_gasPrice : is_u256 (m_gasPrice t);
  tk_receive : 0 <= m_receiveAddress t < 2 ^ 160;
  tk_data : Forall (fun b => is_byte b) (t_data t) /\ lenZ (t_data t) < 2 ^ 56;
  tk_plain : plain s a
}.

(** What the verification guarantees. *)
Lemma verify_facts t : returns (verifyTransaction m_sealEngine ImportRequirements.Everything t (env_number m_envInfo)
    (env_gasLimit m_envInfo) (env_gasUsed m_envInfo))
  (fun _ => base t <= t_gas t /\ env_gasUsed m_envInfo + t_gas t <= env_gasLimit m_envInfo /\
     (hasZeroSignature t = true -> t_value t = 0 /\ m_gasPrice t = 0)).
Proof.
  unfold verifyTransaction. match goal with |- returns _ ?P => apply (returns_bind _ _ P) end.
  - unfold SealEngineFace_verifyTransaction. cbv zeta.
    change (flag ImportRequirements.TransactionSignatures ImportRequirements.Everything) with true.
    change (flag ImportRequirements.TransactionBasic ImportRequirements.Everything) with true. cbn [andb].
    apply returns_check; intros _. apply returns_check; intros Hn. apply returns_check; intros Hf.
    eapply (returns_bind _ _ (fun _ => True)); [|intros _ _ _].
    { match goal with |- returns (if ?b then _ else _) _ => destruct b end; [|exact I]. unfold checkLowS. destruct (m_vrs t) as [v|]; [|exact I].
      by destruct (c_secp256k1n / 2 <? sig_s v). }
    apply returns_check; intros Hb%Z.ltb_ge. apply returns_throw_if. intros Hl%Z.ltb_ge.
    split; [exact Hb|]. split; [exact Hl|]. intros Hz. rewrite Hz, ?andb_true_r in Hn, Hf.
    apply Z.ltb_ge, Z.leb_le in Hn. rewrite Hn in Hf. cbn in Hf. rewrite !orb_false_iff, !negb_false_iff, !Z.eqb_eq in Hf. tauto.
  - intros _ _ Hf. destruct (sealEngineName m_sealEngine); [exact Hf|].
    change (flag ImportRequirements.TransactionSignatures ImportRequirements.Everything) with true. cbv iota.
    unfold checkChainId. destruct (EIP158ForkBlock _ <=? _); (match goal with |- context [throw_if ?b _] => by destruct b end).
Qed.

(** Why a transaction is not run. *)
Definition rejected (ex : exception) : Prop := (exists e, ex = XVerify e) \/ ex = XInvalidNonce \/ ex = XNotEnoughCash.

Lemma noting_posts {A} (body : EM A) f (R : A -> Executive * st -> Prop) (Q : exception -> Executive * st -> Prop) es :
  posts body R Q es -> (forall ex e s x, Q ex (e, s) -> Q ex (set_excepted x e, s)) -> posts (noting body f) R Q es.
Proof.
  intros Hb HQ. unfold posts, noting in *. destruct (body es) as [[r|ex| |] [e s]]; try done. destruct (f ex); [by apply HQ|done].
Qed.

(** A transaction that may run. *)
Record initialized (t : TransactionBase) (a : Z) (s : st) (e : Executive) : Prop := {
  in_runs : runs t a e;
  in_base : m_baseGasRequired e = base t;
  in_gas : base t <= t_gas t;
  in_limit : env_gasUsed m_envInfo + t_gas t <= env_gasLimit m_envInfo;
  in_cost : m_gasCost e = t_gas t * m_gasPrice t;
  in_funds : t_value t + t_gas t * m_gasPrice t = 0 \/ t_value t + t_gas t * m_gasPrice t <= bal (the_view s a);
  in_fresh : fresh e;
  in_depth : m_depth e = 0;
  in_res : is_Some (m_res e)
}.

Lemma initialize_posts t a e s : tx_ok t a s -> world_ok s -> fresh e -> m_depth e = 0 -> m_gasCost e = 0 -> is_Some (m_res e) ->
  posts (initialize m_envInfo m_sealEngine t) (fun _ es => initialized t a es.2 es.1 /\ quiet s es.2)
    (fun ex es => rejected ex /\ quiet s es.2) (e, s).
Proof.
  intros [_ Hs Hv Hg Hp _ _ _] Hw Hf Hd Hc Hres. unfold initialize. apply then_mod, then_mod. set (e1 := set_baseGasRequired _ _).
  assert (fresh e1) as Hf1 by (by destruct Hf). assert (runs t a e1) as Hr1 by (by left). pose proof (quiet_refl m s (wo_state _ _ Hw)) as Hq.
  eapply (posts_bind _ _ _ (fun _ es => es = (e1, s) /\ base t <= t_gas t /\ env_gasUsed m_envInfo + t_gas t <= env_gasLimit m_envInfo /\
     (hasZeroSignature t = true -> t_value t = 0 /\ m_gasPrice t = 0))).
  { apply noting_posts; [|done]. pose proof (verify_facts t) as Hvf. unfold posts, slift. destruct (verifyTransaction _ _ _ _ _ _); try done.
    split; [|done]. left. by eexists. }
  intros [] es (-> & Hb & Hl & Hz). destruct (hasZeroSignature t).
  { destruct (Hz eq_refl) as [Hv0 Hp0]. apply posts_ret. cbn [fst snd]. split; [|done]. constructor; try done; rewrite ?Hp0; cbn; lia. }
  clear Hz. set (e2 := set_t (forceSender a t) e1).
  eapply (posts_bind _ _ _ (fun _ es => exists s1, es = (e2, s1) /\ quiet s s1)).
  { apply noting_posts; [|done]. eapply then_sender; [done..|].
    eapply last_state; [apply (getNonce_steps m), Hw|]. intros n s1 (_ & _ & _ & _ & Hq1). by exists s1. }
  intros nonce es (s1 & -> & Hq1). destruct (negb _).
  { apply then_mod, posts_throw. split; [right; by left|done]. }
  cbv zeta. apply (then_sender t a); [done|by right|]. change (set_t (forceSender a t) e2) with e2.
  pose proof (world_ok_quiet m s s1 Hq1 Hw) as Hw1. eapply then_state; [apply (balance_posts m), Hw1|]. intros b s2 [-> Hq2].
  assert (quiet s s2) as Hq' by (by eapply quiet_trans). destruct (Z.ltb_spec (from_option v_balance 0 (the_view s1 a)) (t_value t + t_gas t * m_gasPrice t)) as [Hlt|Hge].
  - apply then_mod. pose proof (world_ok_quiet m s s2 Hq' Hw) as Hw2. eapply then_state; [apply (balance_posts m), Hw2|]. intros b s3 [_ Hq3].
    apply posts_throw. split; [right; by right|]. by eapply quiet_trans.
  - apply last_mod. cbn [fst snd]. split; [|done]. fold (bal (the_view s1 a)) in Hge.
    rewrite (bal_eq _ _ (sm_view _ _ _ (qu_same _ _ _ Hq2) a)) in Hge.
    pose proof (the_view_balance m s2 a (wo_state _ _ (world_ok_quiet m s s2 Hq' Hw))) as Hba. fold (bal (the_view s2 a)) in Hba.
    assert (0 <= t_gas t * m_gasPrice t) by (apply Z.mul_nonneg_nonneg; lia).
    constructor; try done; [by right|apply u256_small; lia|by right|by destruct Hf1].
Qed.

(** The price of the gas is paid before anything runs. *)
Lemma pay_posts a cost s : 0 <= cost -> cost = 0 \/ cost <= bal (the_view s a) -> world_ok s ->
  posts (subBalance a cost) (fun _ s' => world_ok s' /\ carried s s' /\ supply_by (- cost) s s' /\ still_but [a] s s' /\
    bal (the_view s' a) = bal (the_view s a) - cost) (fun _ _ => False) s.
Proof.
  intros Hc Hfund Hw. destruct (Z.eq_dec cost 0) as [->|Hne].
  - apply (posts_ret tt (fun _ s' => _)). pose proof (moved_refl m s (wo_state _ _ Hw)) as [Hca Hs].
    split_and!; [done|done|done|apply still_but_still, still_refl|lia].
  - destruct Hfund as [|Hle]; [done|]. pose proof (the_view_balance m s a (wo_state _ _ Hw)) as Hb. fold (bal (the_view s a)) in Hb.
    eapply posts_mono; [apply (subBalance_carries m a cost s); [lia|done|done]| |done].
    intros u s' (Hw' & Hca & Hs & He & _). split_and!; [done|done|done| |].
    + eapply still_but_effect; [apply Hca|exact He|set_solver].
    + rewrite (effect_bal m _ _ _ _ a He). destruct (decide (a = a)); [|done]. apply bal_sub; [lia|apply Hb].
Qed.

(** What [execute] leaves: [s0] has paid, [s1] is the state at the savepoint. *)
Record paid (t : TransactionBase) (a : Z) (s s1 : st) : Prop := {
  pd_world : world_ok s1;
  pd_carried : carried s s1;
  pd_supply : supply_by (- (t_gas t * m_gasPrice t)) s s1;
  pd_still : still_but [a] s s1
}.

Lemma paid_quiet t a s s0 s1 : quiet s s0 -> paid t a s0 s1 -> paid t a s s1.
Proof.
  intros Hq []. destruct (moved_quiet m _ _ Hq) as [Hc Hs]. constructor; [done|by eapply carried_trans| |].
  - replace (- (t_gas t * m_gasPrice t)) with (0 + - (t_gas t * m_gasPrice t)) by lia. by eapply supply_sum.
  - eapply still_but_trans; [apply still_but_still, still_same, Hq|done].
Qed.

Lemma paid_moved t a s s0 s1 : paid t a s s0 -> world_ok s1 -> moved s0 s1 -> still_but [a] s0 s1 -> paid t a s s1.
Proof.
  intros [] Hw [Hc Hs] Hb. constructor; [done|by eapply carried_trans| |by eapply still_but_trans].
  replace (- (t_gas t * m_gasPrice t)) with (- (t_gas t * m_gasPrice t) + 0) by lia. by eapply supply_sum.
Qed.

Lemma moved_started t a s s0 s1 : paid t a s s0 -> started m s0 s1 a -> moved s0 s1 -> world_ok s1 -> paid t a s s1.
Proof.
  intros Hp Hst Hm Hw. eapply paid_moved; [done|done|done|]. eapply still_but_started; [apply Hm|done|set_solver].
Qed.

Lemma execute_posts t a e s : tx_ok t a s -> world_ok s -> env_gasLimit m_envInfo < 2 ^ 63 -> 0 <= env_gasUsed m_envInfo ->
  initialized t a s e ->
  posts (execute m_envInfo m_sealEngine) (fun fin es => exists s1, paid t a s s1 /\ runs t a es.1 /\ m_depth es.1 = 0 /\
      is_Some (m_res es.1) /\ prepared m fin (t_gas t - base t) false s1 es.1 es.2) (fun _ _ => False) (e, s).
Proof.
  intros [Hty Hs Hv Hg Hp Hrc [Hdb Hdl] Hpl] Hw Hlim Hused [Hr Hb Hbg Hl Hc Hf Hfr Hd Hres]. unfold execute.
  apply (then_sender t a); [done|done|]. set (e1 := set_t _ e). assert (fresh e1) as Hf1 by (by destruct Hfr).
  apply then_get. change (m_gasCost e1) with (m_gasCost e). rewrite Hc.
  assert (0 <= t_gas t * m_gasPrice t) as Hc0 by (apply Z.mul_nonneg_nonneg; lia).
  eapply then_state; [apply pay_posts; [done|lia|done]|]. intros [] s0 (Hw0 & Hca0 & Hs0 & Hst0 & Hb0).
  apply then_get, then_get. change (m_t e1) with (forceSender a t). change (m_baseGasRequired e1) with (m_baseGasRequired e). rewrite Hb.
  cbn [t_gas t_value m_gasPrice t_data m_receiveAddress forceSender]. change (isCreation (forceSender a t)) with (isCreation t).
  assert (21000 <= base t) as Hb21 by (apply baseGasRequired_range; done). rewrite u256_small by lia.
  assert (paid t a s s0) as Hpd by (by constructor). pose proof (carried_plain m s s0 a Hca0 Hpl) as Hpl0.
  assert (t_value t = 0 \/ t_value t <= bal (the_view s0 a)) as Hfund by (rewrite Hb0; lia).
  assert (forall fin es s1, paid t a s s1 -> same_tx e1 es.1 -> prepared m fin (t_gas t - base t) false s1 es.1 es.2 ->
    exists s1, paid t a s s1 /\ runs t a es.1 /\ m_depth es.1 = 0 /\ is_Some (m_res es.1) /\
      prepared m fin (t_gas t - base t) false s1 es.1 es.2) as Hdone.
  { intros fin es s1 Hp1 [Ht1 _ _ Hd1 Hr1] Hpr. exists s1. split_and!; [done|by right|by rewrite Hd1|by apply Hr1|done]. }
  assert (bytes_ok (t_data t)) as Hdata by (split; [done|lia]). destruct (isCreation t).
  - unfold create. eapply posts_mono; [apply (createOpcode_posts m_envInfo m_sealEngine m a (t_value t)); [done| |done]| |done].
    + constructor; try done; lia.
    + intros fin es (s2 & s1 & Hq & Hm & Hst & Htx & Hpr). apply (Hdone fin es s1); [|done|done].
      eapply (paid_moved t a s s0); [done|apply Hpr|done|]. eapply still_but_trans; [apply still_but_still, still_same, Hq|].
      apply (still_but_started [a] s2 s1 a); [|done|set_solver].
      rewrite (sm_nonce _ _ _ (qu_same _ _ _ Hq)). apply Hm.
  - unfold call_transaction. eapply posts_mono; [apply (call_posts m_envInfo m_sealEngine m); [done| |done|by intros _]| |done].
    + constructor; cbn; try done; try lia; by left.
    + intros fin es (s1 & Hm & Hst & _ & Htx & _ & Hpr). apply (Hdone fin es s1); [|done|done].
      by apply (moved_started t a s s0); [| | |apply Hpr].
Qed.

(** ** Settling *)

Lemma kill_all_posts l s : world_ok s ->
  posts (kill_all l) (fun _ s' => world_ok s' /\ supply_by 0 s s' /\ (l = [] -> s' = s)) (fun _ _ => False) s.
Proof.
  revert s. induction l as [|a l IH]; intros s Hw; cbn [kill_all].
  - apply posts_ret. split_and!; [done|apply (moved_refl m s (wo_state _ _ Hw))|done].
  - eapply posts_bind; [by apply kill_world|]. intros [] s1 (Hw1 & Hs1 & _). eapply posts_mono; [by apply IH| |done].
    intros [] s2 (Hw2 & Hs2 & _). split_and!; [done|by eapply supply_trans|done].
Qed.

(** Nothing is killed when nothing ended itself. *)
Lemma ascending_empty : ascending ∅ = [].
Proof. done. Qed.

Lemma posts_on_state {A B} (p : SM st state_error A) (k : A -> SM st state_error B) P e s :
  posts (sbind p k) P (fun _ _ => False) s ->
  posts (sbind (on_state p) (fun a => on_state (k a)) : EM B) (fun r es => es.1 = e /\ P r es.2) (fun _ _ => False) (e, s).
Proof.
  unfold posts, sbind, on_state. cbn. destruct (p s) as [[r| | |] s']; cbn; try done. by destruct (k r s') as [[]].
Qed.

(** The gas comes back as value, the rest goes to the author. *)
Lemma fees_posts a g g' p s : 0 <= g -> 0 <= g' -> 0 <= p -> (g + g') * p < 2 ^ 256 -> world_ok s ->
  posts (addBalance a (u256 (g * p)) ;; addBalance (env_author m_envInfo) (u256 (g' * p)))
    (fun _ s' => world_ok s' /\ supply_by ((g + g') * p) s s' /\ still_but [a; env_author m_envInfo] s s') (fun _ _ => False) s.
Proof.
  intros Hg Hg' Hp Hlt Hw. assert (0 <= g * p /\ 0 <= g' * p) as [] by (split; by apply Z.mul_nonneg_nonneg). rewrite !u256_small by lia.
  eapply posts_bind; [apply (addBalance_carries m a (g * p)); [lia|done]|]. intros [] s1 (Hw1 & Hc1 & Hs1 & He1 & _).
  eapply posts_mono; [apply (addBalance_carries m (env_author m_envInfo) (g' * p)); [lia|done]| |done].
  intros [] s2 (Hw2 & Hc2 & Hs2 & He2 & _). split_and!; [done|rewrite Z.mul_add_distr_r; by eapply supply_sum|].
  eapply still_but_trans; (eapply still_but_effect; [|eassumption|set_solver]); [apply Hc1|apply Hc2].
Qed.

(** A transaction that ran. *)
Record settled (t : TransactionBase) (a : Z) (s : st) (ok : bool) (e : Executive) (s' : st) : Prop := {
  se_world : world_ok s';
  se_supply : supply_by 0 s s';
  se_gas : base t <= 2 * gasUsed e /\ gasUsed e <= t_gas t;
  se_limit : env_gasUsed m_envInfo + gasUsed e <= env_gasLimit m_envInfo;
  se_ok : ok = true <-> m_excepted e = TE_None;
  se_res : exists r, m_res e = Some r /\ res_gasUsed r = gasUsed e /\ res_excepted r = m_excepted e;
  se_failed : ok = false -> still_but [a; env_author m_envInfo] s s'
}.

Lemma u256_half_bounds g g' r : 0 <= g' <= g -> 0 <= r -> let q := Z.min (u256 (g - g') / 2) r in 0 <= q /\ 2 * q <= u256 (g - g').
Proof. intros Hg Hr. pose proof (u256_range (g - g')). pose proof (Z.mul_div_le (u256 (g - g')) 2 ltac:(lia)).
  pose proof (Z.div_pos (u256 (g - g')) 2). cbv zeta. lia. Qed.

Lemma finalize_posts t a s s1 e s2 : tx_ok t a s -> world_ok s -> env_gasUsed m_envInfo + t_gas t <= env_gasLimit m_envInfo ->
  21000 <= base t <= t_gas t -> t_gas t * m_gasPrice t < 2 ^ 256 -> paid t a s s1 -> runs t a e -> is_Some (m_res e) ->
  finished m (t_gas t - base t) false s1 e s2 ->
  posts (finalize m_envInfo m_sealEngine) (fun ok es => settled t a s ok es.1 es.2) (fun _ _ => False) (e, s2).
Proof.
  intros [Hty Hs _ Hg Hp _ _ _] Hw Hl Hb Hcost [Hw1 _ Hs1 Hst1] Hr Hres [Hw2 [Hca2 Hs2] Hg2 _ _ Hfail Hsub]. unfold finalize. apply then_mod, then_mod, then_mod.
  set (e1 := set_ext _ e). set (e2 := set_refunded _ e1). set (e3 := set_gas _ e2).
  assert (t_gas (m_t e) = t_gas t /\ m_gasPrice (m_t e) = m_gasPrice t /\ is_null (m_t e) = false) as (Htg & Htp & Htn) by (by destruct Hr as [->| ->]).
  assert (0 <= m_refunded e2 /\ 2 * m_refunded e2 <= t_gas t - m_gas e) as [Hr0 Hr2].
  { unfold e2. cbn [m_refunded set_refunded]. unfold e1. cbn [m_ext set_ext m_t m_gas]. destruct (m_ext e) as [x|] eqn:Hx; cbn [fmap option_fmap option_map].
    - rewrite Htg. cbn [sub set_sub refunds]. pose proof (u256_half_bounds (t_gas t) (m_gas e) _ ltac:(lia) (proj1 (u256_range (refunds (sub x) +
        u64 (suicideRefundGas (schedule m_envInfo m_sealEngine) * Z.of_nat (size (suicides (sub x)))))))) as Hq. cbv zeta in Hq.
      rewrite (u256_small (t_gas t - m_gas e)) in * by lia. exact Hq.
    - lia. }
  assert (m_gas e3 = m_gas e + m_refunded e2) as Hg3 by (apply u256_small; change (m_gas e2) with (m_gas e); lia).
  assert (m_t e3 = m_t e) as Ht3 by done. assert (m_res e3 = m_res e) as Hres3 by done. assert (m_excepted e3 = m_excepted e) as Hx3 by done.
  assert (forall x, m_ext e3 = Some x -> m_excepted e <> TE_None -> suicides (sub x) = ∅) as Hnone.
  { intros x Hx Hne. unfold e3, e2, e1 in Hx. cbn in Hx. destruct (m_ext e) as [y|] eqn:Hy; [|done]. cbn in Hx. injection Hx as <-. cbn.
    destruct (Hsub y eq_refl) as [_ Hempty]. by rewrite Hempty by (by right). }
  assert (m_gas e <= m_gas e3 /\ 2 * (m_gas e3 - m_gas e) <= t_gas t - m_gas e) as [Hge Hhalf] by lia.
  clearbody e3. clear e1 e2 Hr2 Hr0 Hg3 Hsub. apply then_get. rewrite Ht3, Htn. cbn [negb].
  set (e4 := set_t (forceSender a t) e3). assert (0 <= t_gas t - m_gas e3) as Hrest by lia.
  eapply (posts_bind _ _ _ (fun _ es => es.1 = e4 /\ world_ok es.2 /\ supply_by 0 s es.2 /\ still_but [a; env_author m_envInfo] s2 es.2)).
  { apply (then_sender t a); [done|unfold runs; by rewrite Ht3|]. apply then_get. fold e4.
    change (m_gas e4) with (m_gas e3). change (t_gas (m_t e4)) with (t_gas t). change (m_gasPrice (m_t e4)) with (m_gasPrice t). rewrite (u256_small (t_gas t - m_gas e3)) by lia.
    eapply posts_mono; [eapply (posts_on_state _ _ _ e4), (fees_posts a (m_gas e3) (t_gas t - m_gas e3) (m_gasPrice t) s2); try done; lia| |done].
    intros [] [e' s3] (He & Hw3 & Hs3 & Hst3). cbn [fst snd] in *. split_and!; [done|done| |done].
    replace 0 with (- (t_gas t * m_gasPrice t) + 0 + (m_gas e3 + (t_gas t - m_gas e3)) * m_gasPrice t) by lia.
    eapply supply_sum; [|exact Hs3]. by eapply supply_sum. }
  intros [] [e' s3] (He4 & Hw3 & Hs3 & Hst3). cbn [fst snd] in *. subst e'. apply then_get. change (m_ext e4) with (m_ext e3).
  eapply (posts_bind _ _ _ (fun _ es => (exists l, es.1 = set_logs l e4) /\ world_ok es.2 /\ supply_by 0 s es.2 /\
    (m_excepted e <> TE_None -> es.2 = s3))).
  { destruct (m_ext e3) as [x|] eqn:Hx.
    - eapply then_state; [by apply kill_all_posts|]. intros [] s4 (Hw4 & Hs4 & Heq). apply last_mod. cbn [fst snd].
      split_and!; [by eexists|done|by eapply supply_trans|]. intros Hne. apply Heq. by rewrite (Hnone x eq_refl Hne).
    - apply posts_ret. split_and!; [|done..]. exists (m_logs e4). by destruct e4. }
  intros [] [e' s4] ([l Hl'] & Hw4 & Hs4 & Heq). cbn [fst snd] in *. subst e'. apply then_mod, last_get. cbn [fst snd].
  match goal with |- settled t a s _ ?x s4 => set (e5 := x) end. assert (gasUsed e5 = t_gas t - m_gas e3) as Hu.
  { unfold gasUsed. change (m_gas e5) with (m_gas e3). change (t_gas (m_t e5)) with (t_gas t). apply u256_small. lia. }
  assert (m_excepted e5 = m_excepted e) as Hx5 by exact Hx3. 
  match goal with |- settled t a s ?b e5 s4 => change b with (bool_decide (m_excepted e5 = TE_None)) end. rewrite Hx5.
  constructor; try done; rewrite ?Hu, ?Hx5; [lia|lia|apply bool_decide_eq_true| |].
  { destruct Hres as [r Hr']. rewrite <- Hres3 in Hr'. eexists. split; [cbn; rewrite Hr'; done|]. split; [done|exact Hx3]. }
  intros Hf%bool_decide_eq_false. rewrite (Heq Hf). eapply still_but_trans; [|exact Hst3].
  eapply still_but_trans; [eapply still_but_weaken; [exact Hst1|set_solver]|]. apply still_but_still. by apply Hfail.
Qed.

(** A transaction is rejected and changes nothing, or it runs, is paid for and
    settled. *)
Lemma executeTransaction_posts (vm : VMFace) t a e s `{!VMLaws m vm 0} :
  tx_ok t a s -> world_ok s -> env_gasLimit m_envInfo < 2 ^ 63 -> 0 <= env_gasUsed m_envInfo ->
  fresh e -> m_depth e = 0 -> m_gasCost e = 0 -> is_Some (m_res e) ->
  posts (executeTransaction m_envInfo m_sealEngine vm t) (fun ok es => settled t a s ok es.1 es.2)
    (fun ex es => rejected ex /\ quiet s es.2) (e, s).
Proof.
  intros Hok Hw Hlim Hused Hf Hd Hc Hres. unfold executeTransaction. eapply posts_bind; [by apply (initialize_posts t a)|].
  intros [] [e1 s0] [Hin Hq]. cbn [fst snd] in *. pose proof (world_ok_quiet m s s0 Hq Hw) as Hw0.
  assert (tx_ok t a s0) as Hok0 by (destruct Hok; constructor; try done; by eapply carried_plain; [apply moved_quiet|]).
  assert (21000 <= base t) as Hb21 by (apply baseGasRequired_range; apply Hok). pose proof (in_gas _ _ _ _ Hin) as Hbg. pose proof (in_limit _ _ _ _ Hin) as Hl.
  assert (t_gas t * m_gasPrice t < 2 ^ 256) as Hcost.
  { pose proof (the_view_balance m s0 a (wo_state _ _ Hw0)) as Hb. fold (bal (the_view s0 a)) in Hb. pose proof (tk_value _ _ _ Hok).
    destruct (in_funds _ _ _ _ Hin); lia. }
  eapply posts_bind; [eapply posts_mono; [by apply (execute_posts t a)|intros fin es Hx; exact Hx|done]|].
  intros fin [e2 s2] (s1 & Hpd & Hr & Hd2 & Hres2 & Hpr). cbn [fst snd] in *. pose proof (paid_quiet t a s s0 s1 Hq Hpd) as Hpd'.
  eapply (posts_bind _ _ _ (fun _ es => runs t a es.1 /\ is_Some (m_res es.1) /\ finished m (t_gas t - base t) false s1 es.1 es.2)).
  - destruct fin; [apply posts_ret; split; [done|]; split; [done|by apply prepared_finished]|].
    assert (VMLaws m vm (m_depth e2)) by (by rewrite Hd2). eapply posts_mono; [apply (go_posts m_envInfo m_sealEngine m vm (t_gas t - base t) false s1); (done || lia)| |done].
    intros r [e3 s3] (_ & [Ht3 _ _ _ Hr3] & Hfin). cbn [fst snd] in *. split; [unfold runs; by rewrite Ht3|]. by split; [apply Hr3|].
  - intros r [e3 s3] (Hr3 & Hres3 & Hfin). cbn [fst snd] in *.
    eapply posts_mono; [by apply (finalize_posts t a s s1)|by intros ok es|done].
Qed.
End Spec.
