(* ===== verification/ExecTheorems.v ===== *)
(** * Theorems about the execution of code and transactions

    The machine is the interpreter with the environment as its host, for as many
    levels of calls as the EVM allows.  A frame always comes to an end, calls
    and creations that fail leave nothing behind, a static call changes nothing,
    and a transaction is rejected or paid for and settled. *)
From stdpp Require Import base list gmap.
From Stdlib Require Import ZArith Lia.
From S2P Require Import Prelude Words Result Rlp StateMonad Account Evmc VMState State StateSpec StateReads StateJournal StateOps World.
From S2P Require Import TestDB StateTheorems Schedule Transaction SealEngine Executive ExecSpec ExtVM ExtVMSpec TxSpec.
Open Scope sm_scope.

Section Theorems.
  Context {DB G : Type} `{Sha3} `{!StateDB DB} `{!StateDBLaws DB} `{!RandomEngine G} `{!UnorderedMaps} `{!Secp256k1}.
  Context (env : EnvInfo) (engine : SealEngine) `{!EngineLaws engine} `{!EnvLaws env engine}.
  Context (m : trie_map).
Notation st := (State DB G).

(** Frames at the depths 0 to 1024. *)
Notation machine := (vm_at (DB := DB) (G := G) env engine 1025).

Lemma machine_laws d : 0 <= d -> VMLaws m machine d.
Proof. intros Hd. eapply VMLaws_below; [|apply (vm_at_laws env engine m 1025)]. lia. Qed.

(** C1. The code of any account comes to an end in any world, however deep its
    calls go: the machine returns output or throws an exception of the EVM, it
    never reads outside of a buffer, runs out of fuel, or ends the process.  It
    leaves no more gas than it was given, and a world in which everything it
    did can be undone, no account and no code has vanished and no value was
    created; a static frame leaves every account as it was, save for empty
    accounts that come to exist, and no log, refund or suicide. *)
Theorem execution_total x (s : st) gas : frame_ok m x s -> 0 <= gas < 2 ^ 63 ->
  let '(r, (g', x', s')) := machine gas x s in ran m x s gas r g' x' s'.
Proof.
  intros Hf Hg. pose proof (fr_depth _ _ _ Hf). apply (machine_laws 0 ltac:(lia) x s gas Hf); [lia|done].
Qed.

(** C8. A message call from a frame returns, with at most the gas it was given,
    and the frame can go on.  When it fails, or is static, it leaves every
    account as it was before it, its transfer of value included, save for empty
    accounts that come to exist, and the frame's logs, refunds and suicides
    too. *)
Theorem call_atomic x (s : st) p : frame_ok m x s -> x_depth x < 1024 -> call_ok m p s ->
  (staticCall x = true -> p_staticCall p = true) ->
  posts (ExtVM_call env engine machine p)
    (fun r xs => let '(status, out, gas) := r in
       frame_ok m xs.1 xs.2 /\ moved m s xs.2 /\ 0 <= gas <= p_gas p /\ bytes_ok out /\
       (status <> EVMC_SUCCESS \/ p_staticCall p = true -> still m s xs.2 /\ sub xs.1 = sub x))
    (fun _ _ => False) (x, s).
Proof.
  intros Hf Hd Hp Hst. pose proof (fr_depth _ _ _ Hf). pose proof (machine_laws (x_depth x + 1) ltac:(lia)).
  eapply posts_mono; [by apply (ExtVM_call_steps env engine m machine p x s)| |done].
  intros [[status out] gas] [x' s'] [Hs Hr]. cbn [fst snd] in *. split; [by eapply stepped_frame|]. by split; [apply Hs|].
Qed.

(** C22. A creation returns too.  When it fails, the accounts are those after the
    nonce of the creator was counted: neither the new account nor the endowment
    or the code is left behind. *)
Theorem create_atomic x (s : st) endowment gas init create2 salt : frame_ok m x s -> x_depth x < 1024 -> staticCall x = false ->
  create_ok m (myAddress x) endowment gas init s ->
  posts (ExtVM_create env engine machine endowment gas init create2 salt)
    (fun r xs => let '(status, out, addr, g) := r in
       frame_ok m xs.1 xs.2 /\ moved m s xs.2 /\ 0 <= g <= gas /\ bytes_ok out /\
       (status <> EVMC_SUCCESS -> sub xs.1 = sub x /\
          exists s0 s1, quiet m s s0 /\ started m s0 s1 (myAddress x) /\ still m s1 xs.2))
    (fun _ _ => False) (x, s).
Proof.
  intros Hf Hd Hst Hk. pose proof (fr_depth _ _ _ Hf). pose proof (machine_laws (x_depth x + 1) ltac:(lia)).
  eapply posts_mono; [by apply (ExtVM_create_steps env engine m machine endowment gas init create2 salt x s)| |done].
  intros [[[status out] addr] g] [x' s'] [Hs Hr]. cbn [fst snd] in *. split; [by eapply stepped_frame|]. by split; [apply Hs|].
Qed.

(** What [State::execute] reports of a transaction of [a] that ran. *)
Record reported (t : TransactionBase) (a : Z) (s : st) (res : ExecutionResult) (receipt : TransactionReceipt) (s' : st) : Prop := {
  rp_world : world_ok m s';
  rp_supply : supply_by m 0 s s';
  rp_gas : baseGasRequired (schedule env engine) t <= 2 * res_gasUsed res /\ res_gasUsed res <= t_gas t;
  rp_receipt : r_gasUsed receipt = env_gasUsed env + res_gasUsed res /\ r_gasUsed receipt <= env_gasLimit env;
  rp_status : forall ok, m_statusCodeOrStateRoot receipt = inl ok -> ok = true <-> res_excepted res = TE_None;
  rp_failed : res_excepted res <> TE_None -> still_but m [a; env_author env] s s'
}.

(** C2. A transaction is rejected for its signature, its format, its gas, its
    nonce or its funds, and then no account has changed; or it runs, whatever
    its code does: at least half of its base gas and at most its gas limit is
    used, the block's limit is kept, no value is created by paying for the gas,
    the refund and the fee, and the receipt says whether it succeeded.  When it
    did not, no account has changed but the sender's and the author's, save for
    empty ones that come to exist. *)
Theorem transaction_settles t a (s : st) : tx_ok m t a s -> world_ok m s -> env_gasLimit env < 2 ^ 63 -> 0 <= env_gasUsed env ->
  posts (State_execute env engine machine t Uncommitted) (fun r s' => reported t a s r.1 r.2 s')
    (fun ex s' => rejected ex /\ quiet m s s') s.
Proof.
  intros Hok Hw Hlim Hused. pose proof (machine_laws 0 ltac:(lia)). unfold posts, State_execute.
  pose proof (executeTransaction_posts env engine m machine t a (set_res (Some new_ExecutionResult) (new_Executive 0)) s
    Hok Hw Hlim Hused ltac:(by constructor) eq_refl eq_refl ltac:(by eexists)) as Hp. unfold posts in Hp.
  destruct (executeTransaction _ _ _ _ _) as [[ok|ex| |] [e s']]; try done. cbn [fst snd] in *.
  destruct Hp as [Hsw Hss Hsg Hsl Hok' (r & Hr & Hru & Hrx) Hsf]. cbn. rewrite Hr. unfold default, id; cbn [from_option].
  assert (21000 <= baseGasRequired (schedule env engine) t) by (apply baseGasRequired_range; apply Hok).
  constructor; cbn [r_gasUsed m_statusCodeOrStateRoot]; rewrite ?Hru, ?Hrx; try done.
  - rewrite u256_small by lia. done.
  - intros b. destruct (byzantiumForkBlock _ <=? _); [|done]. by intros [= ->].
  - intros Hne. apply Hsf. destruct ok; [|done]. by destruct Hne; apply Hok'.
Qed.
End Theorems.

(** ** The theorems at work *)

#[local] Instance TestSecp256k1 : Secp256k1 := {| recover _ _ := []; sign_hash _ _ := mkSignatureStruct 0 0 0 |}.

(** A chain with the rules of Byzantium, at its fifth block. *)
Definition test_params : ChainOperationParams :=
  mkChainOperationParams 0x4563918244F40000 1024 0 true 0x1388 0x7fffffffffffffff 0x0400
    0 0 0 0 c_infiniteBlockNumer c_infiniteBlockNumer c_infiniteBlockNumer 0 0 0x020000 0x0800 0x0d false ∅.
Definition test_engine : SealEngine := mkSealEngine NoProof test_params.
Definition test_env : EnvInfo := mkEnvInfo 5 0xcc 0 0 1000000 [1; 2; 3; 4; 5] 0.

(** Write 7 to the slot 0, then revert with one byte of output. *)
Definition test_code : list Z := [0x60; 7; 0x60; 0; 0x55; 0x60; 1; 0x60; 0; 0xfd].
Definition test_world : State TestDB Z := snd ((addBalance 0xdd 0 ;; setCode 0xdd test_code) test_state).

Definition test_frame : ExtVM := new_ExtVM 0xaa 0xbb 0xbb 0 1 [] [0] 0 0 false false.
Definition test_call : CallParameters := mkCallParameters 0xaa 0xdd 0xdd 5 5 50000 [] false.
Definition test_tx : TransactionBase := forceSender 0xaa (message_transaction 5 0 60000 0xdd [] 1).

#[local] Instance TestEngineLaws : EngineLaws test_engine.
Proof. by constructor. Qed.
#[local] Instance TestEnvLaws : EnvLaws test_env test_engine.
Proof. constructor; vm_compute; congruence. Qed.

Lemma test_state_world : world_ok test_map test_state.
Proof.
  constructor; [exact test_world_ok|vm_compute; split; congruence|]. intros a v. unfold the_view, the_account. cbn [m_cache test_state].
  rewrite lookup_empty. unfold test_map. destruct (_ !! addr_bytes a) as [e|] eqn:He; [|done].
  rewrite lookup_insert_Some, lookup_singleton_Some in He. destruct He as [[_ <-]|[_ [_ <-]]].
  - destruct (decode_account (test_entry 1 100)) as [acc| | |] eqn:Hd; try (vm_compute in Hd; discriminate).
    vm_compute in Hd. injection Hd as <-. intros [= <-]. constructor; cbn; [lia|split; [by apply List.Forall_nil|by vm_compute]|done].
  - destruct (decode_account (test_entry 0 5)) as [acc| | |] eqn:Hd; try (vm_compute in Hd; discriminate).
    vm_compute in Hd. injection Hd as <-. intros [= <-]. constructor; cbn; [lia|split; [by apply List.Forall_nil|by vm_compute]|done].
Qed.

Lemma test_bytes (l : list Z) : forallb (fun b => (0 <=? b) && (b <? 256)) l = true -> Forall (fun b => is_byte b) l.
Proof.
  intros Hl. apply List.Forall_forall. intros b Hb. rewrite forallb_forall in Hl. specialize (Hl b Hb). lia.
Qed.

Lemma test_code_ok : world_ok test_map test_world.
Proof.
  assert (posts (addBalance 0xdd 0 ;; setCode 0xdd test_code) (fun _ s => world_ok test_map s) (fun _ _ => False) test_state) as Hp.
  { eapply posts_bind; [apply (addBalance_carries test_map); [done|exact test_state_world]|]. intros [] s1 (Hw & _ & _ & He & Hd).
    eapply posts_mono; [apply (setCode_effect test_map); try done|by intros u s2 (Hw' & _)|done].
    - unfold no_storage. rewrite <- (root_of_eq _ _ (He 0xdd)). vm_compute. reflexivity.
    - apply test_bytes. vm_compute. reflexivity. }
  revert Hp. unfold posts, test_world. destruct (sbind _ _ test_state) as [[u| | |] s]; done.
Qed.

Lemma test_frame_ok : frame_ok test_map test_frame test_world.
Proof.
  constructor; [exact test_code_ok|vm_compute; by eexists|left; vm_compute; reflexivity|..]; cbn [test_frame new_ExtVM myAddress x_depth x_value x_data x_code sub]; [lia|lia|lia|..].
  - split; [by apply List.Forall_nil|by vm_compute].
  - split; [by apply test_bytes|by vm_compute].
  - by vm_compute.
Qed.

Example execution_total_witness :
  let '(r, (g', x', s')) := vm_at test_env test_engine 1025 30000 test_frame test_world in
  r = Value [] /\ ran test_map test_frame test_world 30000 r g' x' s'.
Proof.
  pose proof (execution_total test_env test_engine test_map test_frame test_world 30000 test_frame_ok ltac:(lia)) as Hr.
  assert (fst (vm_at test_env test_engine 1025 30000 test_frame test_world) = Value []) as He by (vm_compute; reflexivity).
  destruct (vm_at test_env test_engine 1025 30000 test_frame test_world) as [r [[g' x'] s']]. by split.
Defined.

Lemma test_call_ok : call_ok test_map test_call test_world.
Proof.
  constructor; [vm_compute; by split|vm_compute; by split|right; vm_compute; congruence|vm_compute; split; congruence|apply bytes_ok_nil| |by left|done].
  vm_compute. split; congruence.
Qed.

Example call_atomic_witness : exists x' s',
  ExtVM_call test_env test_engine (vm_at test_env test_engine 1025) test_call (test_frame, test_world)
    = (Value (EVMC_REVERT, [0], 29985), (x', s')) /\
  still test_map test_world s' /\ sub x' = empty_SubState.
Proof.
  pose proof (call_atomic test_env test_engine test_map test_frame test_world test_call test_frame_ok ltac:(done) test_call_ok ltac:(done)) as Hp.
  assert (fst (ExtVM_call test_env test_engine (vm_at test_env test_engine 1025) test_call (test_frame, test_world))
    = Value (EVMC_REVERT, [0], 29985)) as He by (vm_compute; reflexivity).
  unfold posts in Hp. destruct (ExtVM_call _ _ _ _ _) as [r [x' s']]. cbn [fst snd] in *. subst r. exists x', s'. split; [done|].
  apply Hp. by left.
Defined.

Lemma test_create_ok : create_ok test_map 0xaa 7 50000 [0xfe] test_world.
Proof.
  constructor; [left; vm_compute; reflexivity|by vm_compute|right; vm_compute; congruence|by vm_compute|].
  split; [by apply test_bytes|by vm_compute].
Qed.

Example create_atomic_witness : exists x' s',
  ExtVM_create test_env test_engine (vm_at test_env test_engine 1025) 7 50000 [0xfe] false 0 (test_frame, test_world)
    = (Value (EVMC_OUT_OF_GAS, [], 0, 0), (x', s')) /\
  exists s0 s1, quiet test_map test_world s0 /\ started test_map s0 s1 0xaa /\ still test_map s1 s'.
Proof.
  pose proof (create_atomic test_env test_engine test_map test_frame test_world 7 50000 [0xfe] false 0 test_frame_ok
    ltac:(done) eq_refl test_create_ok) as Hp.
  assert (fst (ExtVM_create test_env test_engine (vm_at test_env test_engine 1025) 7 50000 [0xfe] false 0 (test_frame, test_world))
    = Value (EVMC_OUT_OF_GAS, [], 0, 0)) as He by (vm_compute; reflexivity).
  unfold posts in Hp. destruct (ExtVM_create _ _ _ _ _ _ _ _ _) as [r [x' s']]. cbn [fst snd] in *. subst r. exists x', s'. split; [done|].
  by apply Hp.
Defined.

Lemma test_tx_ok : tx_ok test_map test_tx 0xaa test_world.
Proof.
  constructor; [by vm_compute..|split; [by apply List.Forall_nil|by vm_compute]|left; by vm_compute].
Qed.

(** The call is reverted: the gas is paid for, the value is not transferred. *)
Example transaction_settles_witness : exists res receipt s',
  State_execute test_env test_engine (vm_at test_env test_engine 1025) test_tx Uncommitted test_world = (Value (res, receipt), s') /\
  res_gasUsed res = 41015 /\ res_excepted res = TE_RevertInstruction /\ m_statusCodeOrStateRoot receipt = inl false /\
  reported test_env test_engine test_map test_tx 0xaa test_world res receipt s'.
Proof.
  assert (env_gasLimit test_env < 2 ^ 63 /\ 0 <= env_gasUsed test_env) as [Hl Hu] by (cbn; lia).
  pose proof (transaction_settles test_env test_engine test_map test_tx 0xaa test_world test_tx_ok test_code_ok Hl Hu) as Hp.
  assert (match fst (State_execute test_env test_engine (vm_at test_env test_engine 1025) test_tx Uncommitted test_world) with
    | Value (res, receipt) => res_gasUsed res = 41015 /\ res_excepted res = TE_RevertInstruction /\ m_statusCodeOrStateRoot receipt = inl false
    | _ => False
    end) as He by (vm_compute; split_and!; reflexivity).
  unfold posts in Hp. destruct (State_execute _ _ _ _ _ _) as [[[res receipt]| | |] s']; cbn [fst snd] in *; try (exfalso; exact He).
  destruct He as (H1' & H2' & H3'). exists res, receipt, s'. split; [reflexivity|]. split; [exact H1'|]. split; [exact H2'|]. split; [exact H3'|exact Hp].
Defined.
