(* ===== verification/TrieCommon.v ===== *)
(** * Keys of tries (libdevcore/TrieCommon.h, TrieCommon.cpp)

    The nibbles of a key, the views of them the trie walks along, and the
    hex-prefix encoding under which they are stored in a node.  An index out of
    a buffer and an assertion that fails are the outcome [OutOfBounds]: both end
    in behaviour the code does not define, or ends the process. *)
From stdpp Require Import base list.
From Stdlib Require Import ZArith Lia.
From S2P Require Import Prelude Words Result Rlp.
Open Scope result_scope.

(** [assert(b)] *)
Definition assert_ (b : bool) : res unit := if b then Value tt else OutOfBounds.

(** [_orig\[i\]] on an [RLP] that was just made: what it returns does not depend
    on the cache of the object (rlp_subscript). *)
Definition rlp_at (d : list Z) (i : Z) : res (list Z) := r <- subscript i (fresh_RLP d) ;; Value (fst r).

(** ** Nibbles *)

Definition nibble (data : list Z) (i : Z) : res Z :=
  b <- rget (data @@ (i / 2)) ;;
  Value (if Z.odd i then Z.land b 15 else Z.shiftr b 4).

(** [while (_beginFirst < _endFirst && ...) { ++_beginFirst; ++_beginSecond; ++ret; }] *)
Fixpoint sharedNibbles_loop (fuel : nat) (first : list Z) (beginFirst endFirst : Z)
    (second : list Z) (beginSecond endSecond : Z) (ret : Z) : res Z :=
  match fuel with
  | O => OutOfFuel
  | S f =>
      if (beginFirst <? endFirst) && (beginSecond <? endSecond) then
        a <- nibble first beginFirst ;;
        b <- nibble second beginSecond ;;
        if a =? b then sharedNibbles_loop f first (beginFirst + 1) endFirst second (beginSecond + 1) endSecond (ret + 1)
        else Value ret
      else Value ret
  end.
Definition sharedNibbles (first : list Z) (beginFirst endFirst : Z) (second : list Z) (beginSecond endSecond : Z) : res Z :=
  sharedNibbles_loop (S (Z.to_nat (endFirst - beginFirst))) first beginFirst endFirst second beginSecond endSecond 0.

(** [struct NibbleSlice] *)
Record NibbleSlice := mkNibbleSlice { data : list Z; offset : Z }.

Definition slice_index (s : NibbleSlice) (i : Z) : res Z := nibble (data s) (u32 (offset s + i)).
Definition slice_size (s : NibbleSlice) : Z := u32 (lenZ (data s) * 2 - offset s).
Definition slice_empty (s : NibbleSlice) : bool := slice_size s =? 0.
Definition mid (s : NibbleSlice) (i : Z) : NibbleSlice := mkNibbleSlice (data s) (u32 (offset s + i)).
Definition slice_clear : NibbleSlice := mkNibbleSlice [] 0.

Definition shared (s k : NibbleSlice) : res Z :=
  sharedNibbles (data s) (offset s) (u32 (offset s + slice_size s))
    (data k) (offset k) (u32 (offset k + slice_size k)).
Definition contains (s k : NibbleSlice) : res bool := n <- shared s k ;; Value (n =? slice_size k).
Definition slice_eq (s k : NibbleSlice) : res bool :=
  if slice_size k =? slice_size s then contains s k else Value false.

(** [for (; i < _k.size() && i < size(); ++i)] and the two tests after it. *)
Fixpoint isEarlierThan_loop (fuel : nat) (s k : NibbleSlice) (i : Z) : res bool :=
  match fuel with
  | O => OutOfFuel
  | S f =>
      if (i <? slice_size k) && (i <? slice_size s) then
        a <- slice_index s i ;;
        b <- slice_index k i ;;
        if a <? b then Value true
        else if b <? a then Value false
        else isEarlierThan_loop f s k (i + 1)
      else if slice_size k <=? i then Value false else Value true
  end.
Definition isEarlierThan (s k : NibbleSlice) : res bool := isEarlierThan_loop (S (Z.to_nat (slice_size k))) s k 0.

(** ** Hex-prefix encoding *)

Definition hp_flags (leaf odd : bool) : Z := Z.lor (if leaf then 2 else 0) (if odd then 1 else 0) * 16.

(** [ret.back() |= n] and [ret.push_back(n << 4)]; [ret] is kept reversed, and
    [d] counts without a bound since only its lowest bit is used. *)
Definition push_nibble (n d : Z) (ret : list Z) : list Z :=
  match ret with
  | b :: rest => if Z.odd d then Z.lor b n :: rest else u8 (Z.shiftl n 4) :: ret
  | [] => ret
  end.
Fixpoint push_nibbles (count : nat) (data : list Z) (i d : Z) (ret : list Z) : res (Z * list Z) :=
  match count with
  | O => Value (d, ret)
  | S c => n <- nibble data i ;; push_nibbles c data (i + 1) (d + 1) (push_nibble n d ret)
  end.

(** [hexPrefixEncode(bytes const&, bool, int, int)]: a vector of nibbles. *)
Fixpoint pack_vector (fuel : nat) (v : list Z) (i stop : Z) (ret : list Z) : res (list Z) :=
  match fuel with
  | O => OutOfFuel
  | S f =>
      if i <? stop then
        a <- rget (v @@ i) ;;
        b <- rget (v @@ (i + 1)) ;;
        pack_vector f v (i + 2) stop (ret ++ [u8 (a * 16 + b)])
      else Value ret
  end.
Definition hexPrefixEncode_vector (v : list Z) (leaf : bool) (begin_ end_ : Z) : res (list Z) :=
  let start := u32 begin_ in
  let stop := u32 (if end_ <? 0 then lenZ v + 1 + end_ else end_) in
  let odd := Z.odd (u32 (stop - start)) in
  let flags := hp_flags leaf odd in
  if odd then
    n <- rget (v @@ start) ;;
    pack_vector (S (Z.to_nat (stop - start))) v (start + 1) stop [Z.lor flags n]
  else pack_vector (S (Z.to_nat (stop - start))) v start stop [flags].

(** [hexPrefixEncode(bytesConstRef, bool, int, int, unsigned)] *)
Definition hexPrefixEncode_data (data : list Z) (leaf : bool) (beginNibble endNibble offset : Z) : res (list Z) :=
  let start := u32 (beginNibble + offset) in
  let stop := u32 ((if endNibble <? 0 then lenZ data * 2 - offset + 1 + endNibble else endNibble) + offset) in
  let odd := Z.odd (u32 (stop - start)) in
  r <- push_nibbles (Z.to_nat (stop - start)) data start (if odd then 1 else 2) [hp_flags leaf odd] ;;
  Value (rev (snd r)).

(** [hexPrefixEncode(bytesConstRef, unsigned, bytesConstRef, unsigned, bool)] *)
Definition hexPrefixEncode_two (d1 : list Z) (o1 : Z) (d2 : list Z) (o2 : Z) (leaf : bool) : res (list Z) :=
  let end1 := u32 (lenZ d1 * 2) in
  let end2 := u32 (lenZ d2 * 2) in
  let odd := Z.odd (u32 (end1 - o1 + end2 - o2)) in
  r1 <- push_nibbles (Z.to_nat (end1 - o1)) d1 o1 (if odd then 1 else 2) [hp_flags leaf odd] ;;
  r2 <- push_nibbles (Z.to_nat (end2 - o2)) d2 o2 (fst r1) (snd r1) ;;
  Value (rev (snd r2)).

Definition hexPrefixEncode (s : NibbleSlice) (leaf : bool) (begin_ end_ : Z) : res (list Z) :=
  hexPrefixEncode_data (data s) leaf begin_ end_ (offset s).
Definition hexPrefixEncode_slices (s1 s2 : NibbleSlice) (leaf : bool) : res (list Z) :=
  hexPrefixEncode_two (data s1) (offset s1) (data s2) (offset s2) leaf.

(** ** The two items of a node *)

Definition isLeaf (twoItem : list Z) : res bool :=
  n <- itemCount twoItem ;;
  assert_ (isList twoItem && (n =? 2)) ;;
  i <- rlp_at twoItem 0 ;;
  pl <- payload i ;;
  b <- rget (pl @@ 0) ;;
  Value (negb (Z.land b 0x20 =? 0)).

Definition keyOf_bytes (hpe : list Z) : NibbleSlice :=
  match hpe with
  | [] => mkNibbleSlice hpe 0
  | b :: _ => if negb (Z.land b 0x10 =? 0) then mkNibbleSlice hpe 1 else mkNibbleSlice hpe 2
  end.
Definition keyOf (twoItem : list Z) : res NibbleSlice :=
  i <- rlp_at twoItem 0 ;;
  pl <- payload i ;;
  Value (keyOf_bytes pl).

(** [for (unsigned i = 0; i < 17; ++i)]: the only item in use, or 255. *)
Fixpoint uniqueInUse_loop (n : nat) (i : Z) (orig : list Z) (except used : Z) : res Z :=
  match n with
  | O => Value used
  | S m =>
      if i =? except then uniqueInUse_loop m (i + 1) orig except used
      else
        it <- rlp_at orig i ;;
        if isEmpty it then uniqueInUse_loop m (i + 1) orig except used
        else if used =? 255 then uniqueInUse_loop m (i + 1) orig except (u8 i)
        else Value 255
  end.
Definition uniqueInUse (orig : list Z) (except : Z) : res Z := uniqueInUse_loop 17 0 orig except 255.
