(* ===== verification/TrieKeys.v ===== *)
(** * Nibbles and hex-prefix keys as lists

    A [NibbleSlice] stands for the list of its nibbles, the operations on slices
    are those on lists, and the hex-prefix encoding of a list of nibbles can be
    read back together with its flag. *)
From stdpp Require Import base list.
From Stdlib Require Import ZArith Lia.
From S2P Require Import Prelude Words Result Rlp RlpSpec RlpRead TrieCommon.
Open Scope result_scope.

Notation is_nibble n := (0 <= n < 16).
Notation nibble_list := (Forall (fun n => is_nibble n)).

(** The nibbles of a buffer, and of a slice. *)
Fixpoint nibs (d : list Z) : list Z :=
  match d with
  | [] => []
  | b :: r => Z.shiftr b 4 :: Z.land b 15 :: nibs r
  end.
Definition nibbles (s : NibbleSlice) : list Z := drop (Z.to_nat (offset s)) (nibs (data s)).

Record slice_ok (s : NibbleSlice) : Prop := {
  sl_bytes : byte_list (data s);
  sl_short : lenZ (data s) < 2 ^ 30;
  sl_offset : 0 <= offset s <= 2 * lenZ (data s)
}.

Lemma lenZ_nibs d : lenZ (nibs d) = 2 * lenZ d.
Proof. induction d as [|b d IH]; [done|]. cbn [nibs]. rewrite !lenZ_cons, IH. lia. Qed.

Lemma nibs_app d e : nibs (d ++ e) = nibs d ++ nibs e.
Proof. induction d as [|b d IH]; [done|]. cbn [nibs app]. by rewrite IH. Qed.

Lemma land_15 b : Z.land b 15 = b mod 16.
Proof. change 15 with (Z.ones 4). by rewrite Z.land_ones. Qed.

Lemma shiftr_4 b : Z.shiftr b 4 = b / 16.
Proof. by rewrite Z.shiftr_div_pow2. Qed.

Lemma nibs_nibbles d : byte_list d -> nibble_list (nibs d).
Proof.
  induction 1 as [|b d Hb _ IH]; [constructor|]. cbn [nibs]. rewrite land_15, shiftr_4.
  repeat constructor; [..|exact IH]; try (apply Z.mod_pos_bound; lia).
  - apply Z.div_pos; lia.
  - apply Z.div_lt_upper_bound; lia.
Qed.

Lemma nibble_lookup d i : 0 <= i -> nibble d i = rget (nibs d !! Z.to_nat i).
Proof.
  revert i. induction d as [|b d IH]; intros i Hi; unfold nibble.
  { unfold getZ. pose proof (Z.div_pos i 2). destruct (Z.ltb_spec (i / 2) 0); [lia|]. by rewrite lookup_nil. }
  destruct (Z.lt_ge_cases i 2).
  - destruct (Z.eq_dec i 0) as [->|]; [done|]. by assert (i = 1) as -> by lia.
  - assert (i / 2 = 1 + (i - 2) / 2) as Hd by (rewrite Z.add_comm, <- Z.div_add by lia; f_equal; lia).
    pose proof (Z.div_pos (i - 2) 2). rewrite Hd. assert ((b :: d) @@ (1 + (i - 2) / 2) = d @@ ((i - 2) / 2)) as ->.
    { unfold getZ. destruct (Z.ltb_spec (1 + (i - 2) / 2) 0), (Z.ltb_spec ((i - 2) / 2) 0); try lia.
      by rewrite Z2Nat.inj_add by lia. }
    assert (Z.odd i = Z.odd (i - 2)) as -> by (rewrite Z.odd_sub, Bool.xorb_false_r; done).
    fold (nibble d (i - 2)). rewrite IH by lia. replace (Z.to_nat i) with (S (S (Z.to_nat (i - 2)))) by lia. done.
Qed.

Lemma nibble_Value d i n : 0 <= i -> nibs d @@ i = Some n -> nibble d i = Value n.
Proof. intros Hi Hn. rewrite nibble_lookup by done. unfold getZ in Hn. case_match; [done|]. by rewrite Hn. Qed.

(** ** Slices *)

Section Slice.
  Context (s : NibbleSlice) (Hs : slice_ok s).

Lemma slice_nibbles : nibble_list (nibbles s).
Proof. apply Forall_drop, nibs_nibbles, Hs. Qed.

Lemma nibbles_length : lenZ (nibbles s) = 2 * lenZ (data s) - offset s.
Proof.
  destruct Hs as [_ _ Ho]. pose proof (lenZ_nibs (data s)) as Hl. unfold nibbles, lenZ in *. rewrite length_drop. lia.
Qed.

Lemma slice_size_spec : slice_size s = lenZ (nibbles s).
Proof.
  pose proof Hs as [_ Hl Ho]. unfold slice_size. rewrite nibbles_length, u32_small by lia. lia.
Qed.

Lemma slice_bound : 0 <= offset s + lenZ (nibbles s) < 2 ^ 32.
Proof. pose proof Hs as [_ Hl Ho]. rewrite nibbles_length. lia. Qed.

Lemma slice_at i : 0 <= i -> nibs (data s) @@ (offset s + i) = nibbles s @@ i.
Proof.
  intros Hi. pose proof Hs as [_ _ Ho]. unfold getZ, nibbles.
  destruct (Z.ltb_spec (offset s + i) 0), (Z.ltb_spec i 0); try lia.
  rewrite lookup_drop. f_equal. lia.
Qed.

Lemma slice_index_spec i n : nibbles s @@ i = Some n -> slice_index s i = Value n.
Proof.
  intros Hn. pose proof (getZ_Some_range _ _ _ Hn) as Hr. pose proof slice_bound. pose proof Hs as [_ _ Ho].
  unfold slice_index. rewrite u32_small by lia. apply nibble_Value; [lia|]. by rewrite slice_at by lia.
Qed.

Lemma mid_spec i : 0 <= i <= lenZ (nibbles s) -> slice_ok (mid s i) /\ nibbles (mid s i) = drop (Z.to_nat i) (nibbles s).
Proof.
  intros Hi. pose proof Hs as [Hb Hl Ho]. rewrite nibbles_length in Hi. unfold mid, nibbles. cbn [data offset].
  rewrite u32_small by lia. split; [constructor; cbn [data offset]; try done; lia|].
  rewrite drop_drop. f_equal. lia.
Qed.
End Slice.

(** The longest common prefix. *)
Fixpoint lcp (a b : list Z) : nat :=
  match a, b with
  | x :: a, y :: b => if x =? y then S (lcp a b) else 0
  | _, _ => 0
  end.

Lemma lcp_prefix a b : take (lcp a b) a = take (lcp a b) b.
Proof.
  revert b. induction a as [|x a IH]; intros [|y b]; try done. cbn [lcp].
  destruct (Z.eqb_spec x y) as [->|]; [|done]. cbn [take]. by rewrite IH.
Qed.

Lemma lcp_le a b : (lcp a b <= length a /\ lcp a b <= length b)%nat.
Proof.
  revert b. induction a as [|x a IH]; intros [|y b]; cbn [lcp length]; try lia.
  destruct (x =? y); [|lia]. specialize (IH b). lia.
Qed.

Lemma lcp_full a b : lcp a b = length b <-> b `prefix_of` a.
Proof.
  revert b. induction a as [|x a IH]; intros [|y b]; cbn [lcp length].
  - split; [intros; apply prefix_nil|done].
  - split; [done|]. by intros ?%prefix_nil_inv.
  - split; [intros; apply prefix_nil|done].
  - destruct (Z.eqb_spec x y) as [->|Hne].
    + rewrite Nat.succ_inj_wd, IH. split; [apply prefix_cons|apply prefix_cons_inv_2].
    + split; [done|]. intros Hp. by apply prefix_cons_inv_1 in Hp.
Qed.

Lemma lcp_differ a b x y p q : drop (lcp a b) a = x :: p -> drop (lcp a b) b = y :: q -> x <> y.
Proof.
  revert b. induction a as [|x' a IH]; intros [|y' b]; cbn [lcp]; try done.
  destruct (Z.eqb_spec x' y') as [->|Hne]; cbn [drop].
  - apply IH.
  - by intros [= -> _] [= -> _].
Qed.

Lemma lcp_zero a b : lcp a b = 0%nat -> match a, b with x :: _, y :: _ => x <> y | _, _ => True end.
Proof. destruct a as [|x a], b as [|y b]; try done. cbn [lcp]. by destruct (Z.eqb_spec x y). Qed.

Lemma sharedNibbles_loop_spec fuel da ia ea a db ib eb b ret :
  0 <= ia -> 0 <= ib -> ea = ia + lenZ a -> eb = ib + lenZ b ->
  (forall j n, a @@ j = Some n -> nibs da @@ (ia + j) = Some n) ->
  (forall j n, b @@ j = Some n -> nibs db @@ (ib + j) = Some n) ->
  (length a < fuel)%nat ->
  sharedNibbles_loop fuel da ia ea db ib eb ret = Value (ret + Z.of_nat (lcp a b)).
Proof.
  revert ia ea a ib eb b ret. induction fuel as [|fuel IH]; intros ia ea a ib eb b ret Hia Hib -> -> Ha Hb Hf; [lia|].
  cbn [sharedNibbles_loop]. destruct a as [|x a]; cbn [lcp].
  { change (lenZ []) with 0. destruct (Z.ltb_spec ia (ia + 0)); [lia|]. cbn [andb]. f_equal. lia. }
  pose proof (lenZ_nonneg a). rewrite lenZ_cons. destruct (Z.ltb_spec ia (ia + (1 + lenZ a))); [|lia]. cbn [andb].
  destruct b as [|y b].
  { change (lenZ []) with 0. destruct (Z.ltb_spec ib (ib + 0)); [lia|]. f_equal. lia. }
  pose proof (lenZ_nonneg b). rewrite lenZ_cons. destruct (Z.ltb_spec ib (ib + (1 + lenZ b))); [|lia].
  assert (nibble da ia = Value x) as -> by (apply nibble_Value; [done|]; rewrite <- (Z.add_0_r ia); by apply Ha).
  assert (nibble db ib = Value y) as -> by (apply nibble_Value; [done|]; rewrite <- (Z.add_0_r ib); by apply Hb).
  cbn [rbind]. destruct (Z.eqb_spec x y); [|f_equal; lia].
  rewrite (IH (ia + 1) _ a (ib + 1) _ b); try lia.
  - f_equal. lia.
  - intros j n Hj. pose proof (getZ_Some_range _ _ _ Hj). rewrite <- Z.add_assoc. apply Ha. unfold getZ in *.
    repeat case_match; try lia; try done. by rewrite Z2Nat.inj_add by lia.
  - intros j n Hj. pose proof (getZ_Some_range _ _ _ Hj). rewrite <- Z.add_assoc. apply Hb. unfold getZ in *.
    repeat case_match; try lia; try done. by rewrite Z2Nat.inj_add by lia.
  - cbn [length] in Hf. lia.
Qed.

Section Slices.
  Context (s k : NibbleSlice) (Hs : slice_ok s) (Hk : slice_ok k).

Lemma shared_spec : shared s k = Value (Z.of_nat (lcp (nibbles s) (nibbles k))).
Proof.
  pose proof (slice_bound s Hs) as Hbs. pose proof (slice_bound k Hk) as Hbk.
  pose proof (sl_offset s Hs) as Hos. pose proof (sl_offset k Hk) as Hok.
  unfold shared, sharedNibbles. rewrite !slice_size_spec, !u32_small by done.
  rewrite (sharedNibbles_loop_spec _ _ _ _ (nibbles s) _ _ _ (nibbles k)); [done|lia|lia|done|done|..].
  - intros j n Hj. pose proof (getZ_Some_range _ _ _ Hj). by rewrite slice_at by (done || lia).
  - intros j n Hj. pose proof (getZ_Some_range _ _ _ Hj). by rewrite slice_at by (done || lia).
  - unfold lenZ. lia.
Qed.

Lemma contains_spec : contains s k = Value (bool_decide (nibbles k `prefix_of` nibbles s)).
Proof.
  unfold contains. rewrite shared_spec. cbn [rbind]. rewrite slice_size_spec by done. f_equal. unfold lenZ.
  destruct (Z.eqb_spec (Z.of_nat (lcp (nibbles s) (nibbles k))) (Z.of_nat (length (nibbles k)))) as [He|Hne].
  - symmetry. apply bool_decide_eq_true, lcp_full. lia.
  - symmetry. apply bool_decide_eq_false. intros Hp%lcp_full. lia.
Qed.

Lemma slice_eq_spec : slice_eq s k = Value (bool_decide (nibbles s = nibbles k)).
Proof.
  unfold slice_eq. rewrite !slice_size_spec, contains_spec by done. unfold lenZ.
  destruct (Z.eqb_spec (Z.of_nat (length (nibbles k))) (Z.of_nat (length (nibbles s)))) as [He|Hne]; f_equal.
  - apply bool_decide_ext. split; [|by intros ->]. intros Hp. symmetry. apply prefix_length_eq; [done|lia].
  - symmetry. apply bool_decide_eq_false. intros He. by rewrite He in Hne.
Qed.

(** The key comes before every key that starts with the prefix. *)
Fixpoint earlier (a k : list Z) : bool :=
  match a, k with
  | _, [] => false
  | [], _ => true
  | x :: a, y :: k => if x <? y then true else if y <? x then false else earlier a k
  end.

Lemma isEarlierThan_loop_spec fuel i : 0 <= i -> (Z.of_nat (length (nibbles k)) - i < Z.of_nat fuel) ->
  i <= Z.of_nat (length (nibbles k)) ->
  isEarlierThan_loop fuel s k i = Value (earlier (drop (Z.to_nat i) (nibbles s)) (drop (Z.to_nat i) (nibbles k))).
Proof.
  revert i. induction fuel as [|fuel IH]; intros i Hi Hf Hle; [lia|]. cbn [isEarlierThan_loop]. rewrite !slice_size_spec by done. unfold lenZ.
  destruct (Z.ltb_spec i (Z.of_nat (length (nibbles k)))) as [Hk'|Hk']; cbn [andb].
  2:{ rewrite (drop_ge (nibbles k)) by lia. destruct (Z.leb_spec (Z.of_nat (length (nibbles k))) i); [|lia].
      by destruct (drop _ (nibbles s)). }
  destruct (lookup_lt_is_Some_2 (nibbles k) (Z.to_nat i)) as [y Hy]; [lia|].
  rewrite (drop_S (nibbles k) y) by done.
  destruct (Z.ltb_spec i (Z.of_nat (length (nibbles s)))) as [Hs'|Hs'].
  2:{ rewrite (drop_ge (nibbles s)) by lia. destruct (Z.leb_spec (Z.of_nat (length (nibbles k))) i); [lia|]. done. }
  destruct (lookup_lt_is_Some_2 (nibbles s) (Z.to_nat i)) as [x Hx]; [lia|].
  rewrite (drop_S (nibbles s) x) by done.
  assert (forall (l : list Z) n, l !! Z.to_nat i = Some n -> l @@ i = Some n) as Hat.
  { intros l n Hl. unfold getZ. by destruct (Z.ltb_spec i 0); [lia|]. }
  rewrite (slice_index_spec s Hs i x), (slice_index_spec k Hk i y) by auto. cbn [rbind earlier].
  destruct (x <? y); [done|]. destruct (y <? x); [done|]. rewrite IH by lia. by replace (Z.to_nat (i + 1)) with (S (Z.to_nat i)) by lia.
Qed.

Lemma isEarlierThan_spec : isEarlierThan s k = Value (earlier (nibbles s) (nibbles k)).
Proof.
  unfold isEarlierThan. rewrite slice_size_spec by done. unfold lenZ. by rewrite isEarlierThan_loop_spec by lia.
Qed.
End Slices.

(** ** The hex-prefix encoding *)

Fixpoint pack (ns : list Z) : list Z :=
  match ns with
  | a :: b :: r => a * 16 + b :: pack r
  | _ => []
  end.
Definition hp (leaf : bool) (ns : list Z) : list Z :=
  let f := if leaf then 32 else 0 in
  if Nat.odd (length ns) then match ns with n :: r => f + 16 + n :: pack r | [] => [] end
  else f :: pack ns.

(** Two at a time. *)
Lemma pairs_ind (P : list Z -> Prop) :
  P [] -> (forall a, P [a]) -> (forall a b r, P r -> P (a :: b :: r)) -> forall l, P l.
Proof. intros H0 H1 H2. fix IH 1. intros [|a [|b r]]; [exact H0|apply H1|apply H2, IH]. Qed.

Definition push_all (ns : list Z) (d : Z) (ret : list Z) : Z * list Z :=
  foldl (fun st n => (st.1 + 1, push_nibble n st.1 st.2)) (d, ret) ns.

Lemma push_all_cons n ns d ret : push_all (n :: ns) d ret = push_all ns (d + 1) (push_nibble n d ret).
Proof. done. Qed.

Lemma push_all_app ns ms d ret : push_all (ns ++ ms) d ret = push_all ms (push_all ns d ret).1 (push_all ns d ret).2.
Proof. unfold push_all. rewrite foldl_app. by destruct (foldl _ _ ns). Qed.

Lemma push_nibbles_spec ns d i e ret :
  0 <= i -> (forall j n, ns @@ j = Some n -> nibs d @@ (i + j) = Some n) ->
  push_nibbles (length ns) d i e ret = Value (push_all ns e ret).
Proof.
  revert i e ret. induction ns as [|n ns IH]; intros i e ret Hi Hns; [done|]. cbn [push_nibbles length].
  rewrite (nibble_Value d i n) by (try done; rewrite <- (Z.add_0_r i); by apply Hns). cbn [rbind].
  rewrite IH; [done|lia|]. intros j m Hj. pose proof (getZ_Some_range _ _ _ Hj). rewrite <- Z.add_assoc. apply Hns.
  unfold getZ in *. repeat case_match; try lia; try done. by rewrite Z2Nat.inj_add by lia.
Qed.

Lemma push_pair a b d ret : ret <> [] -> is_nibble a -> is_nibble b -> Z.odd d = false ->
  push_nibble b (d + 1) (push_nibble a d ret) = a * 16 + b :: ret.
Proof.
  intros Hr Ha Hb Hd. destruct ret as [|c ret]; [done|]. unfold push_nibble at 2. rewrite Hd. cbn [push_nibble].
  rewrite Z.odd_add, Hd. cbn [xorb]. change (Z.odd 1) with true. cbn iota. f_equal.
  unfold u8. rewrite Z.shiftl_mul_pow2, Z.mod_small by lia. rewrite <- Z.shiftl_mul_pow2, lor_shiftl_add by lia. done.
Qed.

Lemma push_all_even ns d ret : ret <> [] -> nibble_list ns -> Z.odd d = false -> Nat.odd (length ns) = false ->
  (push_all ns d ret).2 = rev (pack ns) ++ ret.
Proof.
  revert d ret. induction ns as [|a|a b ns IH] using pairs_ind; intros d ret Hr Hn Hd Ho; [done|done|].
  apply Forall_cons_1 in Hn as [Ha Hn]. apply Forall_cons_1 in Hn as [Hb Hn]. rewrite !push_all_cons, push_pair by done.
  rewrite IH; [|done|done| |done].
  - cbn [pack rev]. by rewrite <- app_assoc.
  - by rewrite <- Z.add_assoc, Z.odd_add, Hd.
Qed.

Lemma hp_flags_spec leaf odd : hp_flags leaf odd = (if leaf then 32 else 0) + (if odd then 16 else 0).
Proof. by destruct leaf, odd. Qed.

Lemma push_all_hp leaf ns : nibble_list ns ->
  rev (push_all ns (if Nat.odd (length ns) then 1 else 2) [hp_flags leaf (Nat.odd (length ns))]).2 = hp leaf ns.
Proof.
  intros Hn. unfold hp. destruct (Nat.odd (length ns)) eqn:Ho.
  - destruct ns as [|n ns]; [done|]. apply Forall_cons_1 in Hn as [Hb Hn]. rewrite push_all_cons.
    unfold push_nibble. change (Z.odd 1) with true. cbn iota. rewrite push_all_even; [|done|done|done|].
    + rewrite rev_app_distr, rev_involutive. cbn [rev app]. f_equal. rewrite hp_flags_spec.
      destruct leaf; [change (32 + 16) with (Z.shiftl 3 4)|change (0 + 16) with (Z.shiftl 1 4)]; by rewrite lor_shiftl_add by lia.
    + cbn [length] in Ho. by rewrite Nat.odd_succ, <- Nat.negb_odd, negb_true_iff in Ho.
  - rewrite push_all_even by done. rewrite rev_app_distr, rev_involutive, hp_flags_spec. cbn [rev app]. f_equal. lia.
Qed.

Lemma odd_lenZ (ns : list Z) : Z.odd (lenZ ns) = Nat.odd (length ns).
Proof.
  induction ns as [|a|a b ns IH] using pairs_ind; [done|done|]. rewrite !lenZ_cons, Z.odd_add, Z.odd_add, IH.
  cbn [length]. rewrite !Nat.odd_succ, Nat.even_succ. by destruct (Nat.odd _).
Qed.

Lemma take_drop_at (l : list Z) b n j x : 0 <= b -> take n (drop (Z.to_nat b) l) @@ j = Some x -> l @@ (b + j) = Some x.
Proof.
  intros Hb Hj. pose proof (getZ_Some_range _ _ _ Hj) as Hr. unfold getZ in *.
  destruct (Z.ltb_spec j 0), (Z.ltb_spec (b + j) 0); try lia. apply lookup_take_Some in Hj as [Hj _].
  rewrite lookup_drop in Hj. by replace (Z.to_nat (b + j)) with (Z.to_nat b + Z.to_nat j)%nat by lia.
Qed.

(** The part of a slice from [b] to before [e]. *)
Lemma hexPrefixEncode_range s leaf b e e' : slice_ok s -> e' = (if e <? 0 then lenZ (nibbles s) + 1 + e else e) ->
  0 <= b <= e' -> e' <= lenZ (nibbles s) ->
  hexPrefixEncode s leaf b e = Value (hp leaf (take (Z.to_nat (e' - b)) (drop (Z.to_nat b) (nibbles s)))).
Proof.
  intros Hs He Hb Hle. pose proof (nibbles_length s Hs) as Hlen. pose proof (slice_bound s Hs) as Hbd. pose proof (sl_offset s Hs) as Ho.
  unfold hexPrefixEncode, hexPrefixEncode_data.
  assert ((if e <? 0 then lenZ (data s) * 2 - offset s + 1 + e else e) + offset s = e' + offset s) as ->
    by (rewrite He; destruct (e <? 0); lia).
  rewrite (u32_small (b + offset s)), (u32_small (e' + offset s)) by lia.
  replace (e' + offset s - (b + offset s)) with (e' - b) by lia. rewrite u32_small by lia.
  set (ns := take (Z.to_nat (e' - b)) (drop (Z.to_nat b) (nibbles s))).
  assert (length ns = Z.to_nat (e' - b)) as Hn by (unfold ns, lenZ in *; rewrite length_take, length_drop; lia).
  assert (Z.odd (e' - b) = Nat.odd (length ns)) as -> by (rewrite <- odd_lenZ; unfold lenZ; f_equal; lia).
  rewrite <- Hn, (push_nibbles_spec ns); [cbn [rbind snd]; f_equal|lia|].
  - apply push_all_hp. apply Forall_take, Forall_drop, slice_nibbles, Hs.
  - intros j n Hj. pose proof (getZ_Some_range _ _ _ Hj). apply take_drop_at in Hj; [|lia].
    rewrite <- (slice_at s Hs) in Hj by lia. by replace (b + offset s + j) with (offset s + (b + j)) by lia.
Qed.

Lemma hexPrefixEncode_all s leaf : slice_ok s -> hexPrefixEncode s leaf 0 (-1) = Value (hp leaf (nibbles s)).
Proof.
  intros Hs. pose proof (lenZ_nonneg (nibbles s)). rewrite (hexPrefixEncode_range s leaf 0 (-1) (lenZ (nibbles s))); [|done|cbn; lia..].
  rewrite drop_0, take_ge by (unfold lenZ; lia). done.
Qed.

Lemma hexPrefixEncode_slices_spec s1 s2 leaf : slice_ok s1 -> slice_ok s2 ->
  hexPrefixEncode_slices s1 s2 leaf = Value (hp leaf (nibbles s1 ++ nibbles s2)).
Proof.
  intros H1 H2. unfold hexPrefixEncode_slices, hexPrefixEncode_two.
  pose proof (nibbles_length s1 H1) as L1. pose proof (nibbles_length s2 H2) as L2.
  pose proof (sl_offset s1 H1). pose proof (sl_offset s2 H2). pose proof (sl_short s1 H1). pose proof (sl_short s2 H2).
  rewrite (u32_small (lenZ (data s1) * 2)), (u32_small (lenZ (data s2) * 2)) by lia.
  rewrite u32_small by lia.
  assert (Z.odd (lenZ (data s1) * 2 - offset s1 + lenZ (data s2) * 2 - offset s2) = Nat.odd (length (nibbles s1 ++ nibbles s2))) as ->
    by (rewrite <- odd_lenZ, lenZ_app; f_equal; lia).
  assert (forall s, slice_ok s -> lenZ (nibbles s) = 2 * lenZ (data s) - offset s ->
            forall e ret, push_nibbles (Z.to_nat (lenZ (data s) * 2 - offset s)) (data s) (offset s) e ret = Value (push_all (nibbles s) e ret)) as Hp.
  { intros s Hs Hl e ret. replace (Z.to_nat (lenZ (data s) * 2 - offset s)) with (length (nibbles s)) by (unfold lenZ in *; lia).
    apply push_nibbles_spec; [apply Hs|]. intros j n Hj. pose proof (getZ_Some_range _ _ _ Hj). by rewrite slice_at by (done || lia). }
  rewrite Hp by done. cbn [rbind]. rewrite Hp by done. cbn [rbind]. rewrite <- push_all_app. f_equal.
  apply push_all_hp, Forall_app. split; by apply slice_nibbles.
Qed.

Lemma getZ_tail {A} (a : A) l j x : l @@ j = Some x -> (a :: l) @@ (1 + j) = Some x.
Proof.
  intros Hj. pose proof (getZ_Some_range _ _ _ Hj). unfold getZ in *.
  destruct (Z.ltb_spec j 0), (Z.ltb_spec (1 + j) 0); try lia. by rewrite Z2Nat.inj_add by lia.
Qed.

Lemma pack_vector_spec ns fuel v i ret : 0 <= i -> (length ns < fuel)%nat -> Nat.odd (length ns) = false -> nibble_list ns ->
  (forall j n, ns @@ j = Some n -> v @@ (i + j) = Some n) ->
  pack_vector fuel v i (i + lenZ ns) ret = Value (ret ++ pack ns).
Proof.
  revert fuel i ret. induction ns as [|a|a b ns IH] using pairs_ind; intros fuel i ret Hi Hf Ho Hn Hv; (destruct fuel as [|fuel]; [lia|]);
    cbn [pack_vector].
  - change (lenZ []) with 0. destruct (Z.ltb_spec i (i + 0)); [lia|]. by rewrite app_nil_r.
  - done.
  - rewrite !lenZ_cons. pose proof (lenZ_nonneg ns). destruct (Z.ltb_spec i (i + (1 + (1 + lenZ ns)))); [|lia].
    assert (v @@ i = Some a) as -> by (rewrite <- (Z.add_0_r i); by apply Hv).
    assert (v @@ (i + 1) = Some b) as -> by (by apply Hv). cbn [rget rbind].
    apply Forall_cons_1 in Hn as [Ha Hn]. apply Forall_cons_1 in Hn as [Hb Hn].
    replace (i + (1 + (1 + lenZ ns))) with (i + 2 + lenZ ns) by lia. rewrite IH; try done; [| | |].
    + rewrite <- app_assoc. cbn [pack app]. unfold u8. by rewrite Z.mod_small by lia.
    + lia.
    + cbn [length] in Hf. lia.
    + intros j n Hj. replace (i + 2 + j) with (i + (1 + (1 + j))) by lia. by apply Hv, getZ_tail, getZ_tail.
Qed.

(** The nibbles of a vector from [b] to before [e]. *)
Lemma hexPrefixEncode_vector_range v leaf b e e' : nibble_list v -> lenZ v < 2 ^ 31 ->
  e' = (if e <? 0 then lenZ v + 1 + e else e) -> 0 <= b <= e' -> e' <= lenZ v ->
  hexPrefixEncode_vector v leaf b e = Value (hp leaf (take (Z.to_nat (e' - b)) (drop (Z.to_nat b) v))).
Proof.
  intros Hv Hl He Hb Hle. unfold hexPrefixEncode_vector. rewrite <- He. rewrite (u32_small e'), (u32_small b), (u32_small (e' - b)) by lia.
  set (ns := take (Z.to_nat (e' - b)) (drop (Z.to_nat b) v)).
  assert (lenZ ns = e' - b) as Hn by (unfold ns, lenZ in *; rewrite length_take, length_drop; lia).
  assert (forall j n, ns @@ j = Some n -> v @@ (b + j) = Some n) as Hat by (intros j n; apply take_drop_at; lia).
  assert (nibble_list ns) as Hns by (by apply Forall_take, Forall_drop).
  rewrite <- Hn, odd_lenZ, hp_flags_spec. unfold hp. destruct (Nat.odd (length ns)) eqn:Ho.
  - destruct ns as [|n ns]; [done|]. rewrite <- (Z.add_0_r b), (Hat 0 n) by done. rewrite Z.add_0_r. cbn [rget rbind].
    replace e' with (b + 1 + lenZ ns) by (rewrite lenZ_cons in Hn; lia). apply Forall_cons_1 in Hns as [Hnn Hns].
    rewrite pack_vector_spec; try done.
    + cbn [app]. f_equal. f_equal.
      destruct leaf; [change (32 + 16) with (Z.shiftl 3 4)|change (0 + 16) with (Z.shiftl 1 4)]; by rewrite lor_shiftl_add by lia.
    + lia.
    + rewrite lenZ_cons. unfold lenZ. lia.
    + cbn [length] in Ho. by rewrite Nat.odd_succ, <- Nat.negb_odd, negb_true_iff in Ho.
    + intros j m Hj. rewrite <- Z.add_assoc. by apply Hat, getZ_tail.
  - replace e' with (b + lenZ ns) by lia. rewrite pack_vector_spec; try done.
    + cbn [app]. do 2 f_equal. lia.
    + lia.
    + unfold lenZ. lia.
Qed.

(** ** Reading a key back *)

Lemma nibs_pack ns : nibble_list ns -> Nat.odd (length ns) = false -> nibs (pack ns) = ns.
Proof.
  induction ns as [|a|a b ns IH] using pairs_ind; intros Hn Ho; [done|done|].
  apply Forall_cons_1 in Hn as [Ha Hn]. apply Forall_cons_1 in Hn as [Hb Hn]. cbn [pack nibs]. rewrite IH, land_15, shiftr_4 by done.
  rewrite Z.div_add_l, (Z.div_small b) by lia. rewrite (Z.add_comm (a * 16)), Z.mod_add, Z.mod_small by lia. f_equal. lia.
Qed.

Lemma pack_bytes ns : nibble_list ns -> byte_list (pack ns) /\ 2 * lenZ (pack ns) <= lenZ ns.
Proof.
  induction ns as [|a|a b ns IH] using pairs_ind; intros Hn; cbn [pack]; [done|split; [done|unfold lenZ; cbn; lia]|].
  apply Forall_cons_1 in Hn as [Ha Hn]. apply Forall_cons_1 in Hn as [Hb Hn]. destruct (IH Hn) as [Hp Hl].
  split; [constructor; [lia|done]|]. rewrite !lenZ_cons. lia.
Qed.

Definition hp_head (leaf : bool) (ns : list Z) : Z :=
  (if leaf then 32 else 0) + (if Nat.odd (length ns) then 16 + hd 0 ns else 0).
Definition hp_tail (ns : list Z) : list Z := if Nat.odd (length ns) then pack (tl ns) else pack ns.

Lemma hp_cons leaf ns : hp leaf ns = hp_head leaf ns :: hp_tail ns.
Proof.
  unfold hp, hp_head, hp_tail. destruct (Nat.odd (length ns)) eqn:Ho; [|f_equal; lia].
  destruct ns; [done|]. cbn [hd tl]. f_equal. lia.
Qed.

Lemma hp_head_range leaf ns : nibble_list ns -> 0 <= hp_head leaf ns < 64.
Proof. intros Hn. unfold hp_head. destruct ns as [|n ns]; [by destruct leaf|]. apply Forall_cons_1 in Hn as [Hn _]. cbn [hd]. destruct leaf, (Nat.odd _); lia. Qed.

Lemma pack_length ns : Nat.odd (length ns) = false -> lenZ (pack ns) = lenZ ns / 2.
Proof.
  induction ns as [|a|a b ns IH] using pairs_ind; intros Ho; [done|done|]. cbn [pack]. rewrite !lenZ_cons, IH by done.
  rewrite (Z.add_assoc 1 1), <- (Z.div_add_l 1 2) by lia. done.
Qed.

Lemma hp_length leaf ns : lenZ (hp leaf ns) = lenZ ns / 2 + 1.
Proof.
  rewrite hp_cons, lenZ_cons. unfold hp_tail. destruct (Nat.odd (length ns)) eqn:Ho; [|rewrite pack_length by done; lia].
  destruct ns as [|n ns]; [done|]. cbn [tl]. cbn [length] in Ho. rewrite Nat.odd_succ, <- Nat.negb_odd in Ho. apply negb_true_iff in Ho.
  rewrite pack_length, lenZ_cons by done. rewrite <- odd_lenZ in Ho. pose proof (Z.div_mod (lenZ ns) 2 ltac:(lia)) as E. rewrite Zmod_odd, Ho in E.
  rewrite (Z.div_unique (1 + lenZ ns) 2 (lenZ ns / 2) 1); lia.
Qed.

Lemma hp_bytes leaf ns : nibble_list ns -> byte_list (hp leaf ns) /\ lenZ (hp leaf ns) <= 1 + lenZ ns.
Proof.
  intros Hn. rewrite hp_cons. assert (byte_list (hp_tail ns) /\ lenZ (hp_tail ns) <= lenZ ns) as [Hb Hl].
  { unfold hp_tail. destruct (Nat.odd _).
    - destruct ns as [|n ns]; [by cbn|]. apply Forall_cons_1 in Hn as [_ Hn]. destruct (pack_bytes ns Hn). cbn [tl].
      rewrite lenZ_cons. pose proof (lenZ_nonneg (pack ns)). split; [done|lia].
    - destruct (pack_bytes ns Hn). pose proof (lenZ_nonneg (pack ns)). split; [done|lia]. }
  pose proof (hp_head_range leaf ns Hn). split; [constructor; [lia|done]|]. rewrite lenZ_cons. lia.
Qed.

(** A fact about small integers holds if it holds of each of them. *)
Lemma all_below (n : Z) (f : Z -> bool) : forallb f (seqZ 0 n) = true -> forall h, 0 <= h < n -> f h = true.
Proof. intros Hf h Hh. eapply forallb_forall in Hf; [exact Hf|]. apply list_elem_of_In, elem_of_seqZ. lia. Qed.

Lemma land_flags h : 0 <= h < 64 ->
  negb (Z.land h 0x20 =? 0) = (32 <=? h) /\ negb (Z.land h 0x10 =? 0) = (16 <=? h mod 32).
Proof.
  intros Hh. pose proof (all_below 64 (fun h => Bool.eqb (negb (Z.land h 0x20 =? 0)) (32 <=? h)
    && Bool.eqb (negb (Z.land h 0x10 =? 0)) (16 <=? h mod 32)) ltac:(by vm_compute) h Hh) as Hb.
  cbv beta in Hb. by apply andb_prop in Hb as [?%Bool.eqb_prop ?%Bool.eqb_prop].
Qed.

Section HpHead.
  Context (leaf : bool) (ns : list Z) (Hn : nibble_list ns).

Lemma hp_head_low : hp_head leaf ns mod 32 = if Nat.odd (length ns) then 16 + hd 0 ns else 0.
Proof.
  unfold hp_head. set (x := if Nat.odd (length ns) then 16 + hd 0 ns else 0).
  assert (0 <= x < 32) as Hx.
  { unfold x. destruct ns as [|n r]; [by cbn|]. apply Forall_cons_1 in Hn as [Hn' _]. cbn [hd]. destruct (Nat.odd _); lia. }
  destruct leaf; [rewrite Z.add_comm; change 32 with (1 * 32) at 1; rewrite Z.mod_add by lia|]; by rewrite Z.mod_small by lia.
Qed.

Lemma hp_head_leaf : negb (Z.land (hp_head leaf ns) 0x20 =? 0) = leaf.
Proof.
  pose proof (hp_head_range leaf ns Hn) as Hr. rewrite (proj1 (land_flags _ Hr)). pose proof hp_head_low as Hl.
  pose proof (Z.div_mod (hp_head leaf ns) 32 ltac:(lia)). unfold hp_head in *.
  destruct ns as [|n r]; [by destruct leaf|]. apply Forall_cons_1 in Hn as [Hn' _]. cbn [hd] in *.
  destruct leaf, (Nat.odd _); match goal with |- (?a <=? ?b) = _ => destruct (Z.leb_spec a b) end; lia.
Qed.

(** [keyOf] reads what [hexPrefixEncode] wrote. *)
Lemma keyOf_hp : lenZ ns < 2 ^ 29 -> slice_ok (keyOf_bytes (hp leaf ns)) /\ nibbles (keyOf_bytes (hp leaf ns)) = ns.
Proof.
  intros Hl. destruct (hp_bytes leaf ns Hn) as [Hb Hlen]. rewrite hp_cons in *. unfold keyOf_bytes.
  pose proof (hp_head_range leaf ns Hn) as Hr. rewrite (proj2 (land_flags _ Hr)), hp_head_low. rewrite lenZ_cons in Hlen.
  pose proof (lenZ_nonneg (hp_tail ns)). destruct (Nat.odd (length ns)) eqn:Ho.
  - destruct ns as [|n r]; [done|]. apply Forall_cons_1 in Hn as [Hn' Hr']. cbn [hd] in *. destruct (Z.leb_spec 16 (16 + n)); [|lia].
    split; [constructor; cbn [data offset]; [done|rewrite lenZ_cons; lia..]|].
    unfold nibbles. cbn [data offset nibs]. change (Z.to_nat 1) with 1%nat. cbn [drop].
    rewrite land_15.
    assert (hp_head leaf (n :: r) mod 16 = n) as ->.
    { unfold hp_head. rewrite Ho. cbn [hd]. destruct leaf; [replace (32 + (16 + n)) with (n + 3 * 16) by lia|replace (0 + (16 + n)) with (n + 1 * 16) by lia];
        rewrite Z.mod_add by lia; by apply Z.mod_small. }
    f_equal. unfold hp_tail. rewrite Ho. cbn [tl]. apply nibs_pack; [done|].
    cbn [length] in Ho. by rewrite Nat.odd_succ, <- Nat.negb_odd, negb_true_iff in Ho.
  - cbn iota. destruct (Z.leb_spec 16 0); [lia|].
    split; [constructor; cbn [data offset]; [done|rewrite lenZ_cons; lia..]|].
    unfold nibbles. cbn [data offset nibs]. change (Z.to_nat 2) with 2%nat. cbn [drop].
    unfold hp_tail. rewrite Ho. by apply nibs_pack.
Qed.
End HpHead.

Lemma hp_inj leaf1 leaf2 ns1 ns2 : nibble_list ns1 -> nibble_list ns2 -> lenZ ns1 < 2 ^ 29 -> lenZ ns2 < 2 ^ 29 ->
  hp leaf1 ns1 = hp leaf2 ns2 -> leaf1 = leaf2 /\ ns1 = ns2.
Proof.
  intros H1 H2 L1 L2 He. pose proof He as Hh. rewrite !hp_cons in Hh. injection Hh as Hh _. split.
  - by rewrite <- (hp_head_leaf leaf1 ns1), <- (hp_head_leaf leaf2 ns2), Hh.
  - destruct (keyOf_hp leaf1 ns1 H1 L1) as [_ <-]. destruct (keyOf_hp leaf2 ns2 H2 L2) as [_ <-]. by rewrite He.
Qed.
