(* ===== verification/NodeDB.v ===== *)
(** * Programs over a database of nodes (libdevcore/TrieDB.h, MemoryDB.h)

    [GenericTrieDB] is a template over its database.  Its functions are modelled
    as programs whose effects are the operations of the database; [run] runs
    them on any type with these operations.  A program can then be asked what it
    would write before it does: a run is [clean] when nothing it writes has the
    hash of something else that is stored, which is all that Keccak promises.
    [ends] is the logic of clean runs. *)
From stdpp Require Import base list.
From Stdlib Require Import ZArith Lia.
From S2P Require Import Prelude Words Result Rlp StateMonad Account.

(** What [GenericTrieDB] calls of [DB]; reading the disk may throw. *)
Class NodeDB (DB : Type) := {
  db_lookup : DB -> Z -> result state_error (list Z);
  db_exists : DB -> Z -> result state_error bool;
  db_insert : Z -> list Z -> DB -> DB;
  db_kill : Z -> DB -> result state_error DB;
  db_insertAux : Z -> list Z -> DB -> DB
}.

(** While the database can be read ([db_ok]), a node that was inserted is found,
    killing one only says that it need not be written to the disk, and the other
    operations leave what is found. *)
Class NodeDBLaws (DB : Type) `{!NodeDB DB} := {
  db_ok : DB -> Prop;
  db_node : DB -> Z -> list Z;
  db_has : DB -> Z -> bool;
  lookup_ok : forall h db, db_ok db -> db_lookup db h = Value (db_node db h);
  exists_ok : forall h db, db_ok db -> db_exists db h = Value (db_has db h);
  has_node : forall h db, db_ok db -> db_has db h = false -> db_node db h = [];
  insert_ok : forall h v db, db_ok db -> db_ok (db_insert h v db);
  node_insert : forall h v db, v <> [] -> db_node (db_insert h v db) h = v;
  node_insert_other : forall h h' v db, h <> h' -> db_node (db_insert h v db) h' = db_node db h';
  has_insert : forall h v h' db, db_has (db_insert h v db) h' = true -> h = h' \/ db_has db h' = true;
  kill_ok : forall h db, db_ok db -> exists db', db_kill h db = Value db' /\ db_ok db' /\
    (forall h', db_node db' h' = db_node db h') /\ (forall h', db_has db' h' = db_has db h');
  insertAux_ok : forall h v db, db_ok db -> db_ok (db_insertAux h v db) /\
    (forall h', db_node (db_insertAux h v db) h' = db_node db h') /\
    (forall h', db_has (db_insertAux h v db) h' = db_has db h')
}.

(** ** Programs *)

Inductive prog (A : Type) : Type :=
| Done (r : result state_error A)
| Lookup (h : Z) (k : list Z -> prog A)
| Exists (h : Z) (k : bool -> prog A)
| Insert (h : Z) (v : list Z) (k : prog A)
| Kill (h : Z) (k : prog A)
| InsertAux (h : Z) (v : list Z) (k : prog A).
Arguments Done {A} r.
Arguments Lookup {A} h k.
Arguments Exists {A} h k.
Arguments Insert {A} h v k.
Arguments Kill {A} h k.
Arguments InsertAux {A} h v k.

Definition pret {A} (a : A) : prog A := Done (Value a).
Definition plift {A} (r : res A) : prog A := Done (of_rlp r).
Definition pthrow {A} (e : state_error) : prog A := Done (Error e).

Fixpoint pbind {A B} (p : prog A) (f : A -> prog B) : prog B :=
  match p with
  | Done (Value a) => f a
  | Done (Error e) => Done (Error e)
  | Done OutOfBounds => Done OutOfBounds
  | Done OutOfFuel => Done OutOfFuel
  | Lookup h k => Lookup h (fun v => pbind (k v) f)
  | Exists h k => Exists h (fun b => pbind (k b) f)
  | Insert h v k => Insert h v (pbind k f)
  | Kill h k => Kill h (pbind k f)
  | InsertAux h v k => InsertAux h v (pbind k f)
  end.

Declare Scope prog_scope.
Delimit Scope prog_scope with prog.
Notation "x <- m ;; k" := (pbind m (fun x => k))
  (at level 100, m at next level, right associativity) : prog_scope.
Notation "m ;; k" := (pbind m (fun _ => k)) (at level 100, right associativity) : prog_scope.

Section Run.
  Context {DB : Type} `{!NodeDB DB}.

(** An exception leaves what was written before it. *)
Definition then_ {A B} (r : result state_error B) (db : DB) (k : B -> result state_error A * DB) : result state_error A * DB :=
  match r with
  | Value b => k b
  | Error e => (Error e, db)
  | OutOfBounds => (OutOfBounds, db)
  | OutOfFuel => (OutOfFuel, db)
  end.
Fixpoint run {A} (p : prog A) (db : DB) : result state_error A * DB :=
  match p with
  | Done r => (r, db)
  | Lookup h k => then_ (db_lookup db h) db (fun v => run (k v) db)
  | Exists h k => then_ (db_exists db h) db (fun b => run (k b) db)
  | Insert h v k => run k (db_insert h v db)
  | Kill h k => then_ (db_kill h db) db (fun db' => run k db')
  | InsertAux h v k => run k (db_insertAux h v db)
  end.

Context `{Sha3} `{!NodeDBLaws DB}.

(** Writing [v] at [h] does not hide anything. *)
Definition fresh (h : Z) (v : list Z) (db : DB) : Prop :=
  (db_node db h = [] \/ db_node db h = v) /\ (h = EmptyTrie -> v = [0x80]).

Fixpoint clean {A} (p : prog A) (db : DB) : Prop :=
  match p with
  | Done _ => True
  | Lookup h k => clean (k (db_node db h)) db
  | Exists h k => clean (k (db_has db h)) db
  | Insert h v k => fresh h v db /\ clean k (db_insert h v db)
  | Kill h k => match db_kill h db with Value db' => clean k db' | _ => True end
  | InsertAux h v k => clean k (db_insertAux h v db)
  end.

Lemma run_bind {A B} (p : prog A) (f : A -> prog B) db :
  run (pbind p f) db = let '(r, db') := run p db in then_ r db' (fun a => run (f a) db').
Proof.
  revert db. induction p as [[]|h k IH|h k IH|h v k IH|h k IH|h v k IH]; intros db; cbn; auto.
  - destruct (db_lookup db h); cbn; auto.
  - destruct (db_exists db h); cbn; auto.
  - destruct (db_kill h db); cbn; auto.
Qed.

Lemma clean_bind {A B} (p : prog A) (f : A -> prog B) db : db_ok db ->
  clean (pbind p f) db -> clean p db /\ match run p db with (Value a, db') => clean (f a) db' | _ => True end.
Proof.
  revert db. induction p as [[]|h k IH|h k IH|h v k IH|h k IH|h v k IH]; intros db Hok; cbn; try by auto.
  - rewrite lookup_ok by done. cbn. auto.
  - rewrite exists_ok by done. cbn. auto.
  - intros [Hf Hc]. destruct (IH _ (insert_ok h v db Hok) Hc). auto.
  - destruct (kill_ok h db Hok) as (db' & -> & Hok' & _). cbn. auto.
  - intros Hc. destruct (IH _ (proj1 (insertAux_ok h v db Hok)) Hc). auto.
Qed.

(** ** Clean runs *)

(** Nothing but the empty trie is stored at the root of the empty trie. *)
Definition fine (db : DB) : Prop := db_ok db /\ (db_has db EmptyTrie = true -> db_node db EmptyTrie = [0x80]).

(** Everything that could be looked up still can. *)
Record le (db db' : DB) : Prop := {
  le_node : forall h, db_node db h <> [] -> db_node db' h = db_node db h;
  le_fine : fine db -> fine db'
}.

Lemma le_refl db : le db db.
Proof. by constructor. Qed.

Lemma le_trans db1 db2 db3 : le db1 db2 -> le db2 db3 -> le db1 db3.
Proof.
  intros [L1 F1] [L2 F2]. constructor; [|auto]. intros h Hh. rewrite L2; [auto|]. by rewrite L1.
Qed.

Lemma le_has db db' h v : le db db' -> v <> [] -> db_node db h = v -> db_node db' h = v.
Proof. intros [L _] Hv Hl. rewrite L; [done|]. by rewrite Hl. Qed.

(** A clean run of [p] from [db] ends in a value and a database that satisfy
    [Q], and hides nothing. *)
Definition ends {A} (p : prog A) (db : DB) (Q : A -> DB -> Prop) : Prop :=
  fine db -> clean p db -> exists a db', run p db = (Value a, db') /\ le db db' /\ Q a db'.

Lemma ends_ret {A} (a : A) db (Q : A -> DB -> Prop) : Q a db -> ends (pret a) db Q.
Proof. intros HQ _ _. exists a, db. split; [done|]. split; [apply le_refl|done]. Qed.

Lemma ends_lift {A} (r : res A) a db (Q : A -> DB -> Prop) : r = Value a -> Q a db -> ends (plift r) db Q.
Proof. intros -> HQ. by apply ends_ret. Qed.

Lemma ends_bind {A B} (p : prog A) (f : A -> prog B) db P Q :
  ends p db P -> (forall a db', le db db' -> P a db' -> ends (f a) db' Q) -> ends (pbind p f) db Q.
Proof.
  intros Hp Hf Hfine [Hc1 Hc2]%clean_bind; [|apply Hfine]. destruct (Hp Hfine Hc1) as (a & db1 & Hr & Hle & HP). rewrite Hr in Hc2.
  destruct (Hf a db1 Hle HP (le_fine _ _ Hle Hfine) Hc2) as (b & db2 & Hr2 & Hle2 & HQ).
  exists b, db2. split; [by rewrite run_bind, Hr|]. split; [by eapply le_trans|done].
Qed.

Lemma ends_lift_bind {A B} (r : res A) a (f : A -> prog B) db Q :
  r = Value a -> ends (f a) db Q -> ends (pbind (plift r) f) db Q.
Proof. intros -> Hf. exact Hf. Qed.

Lemma ends_mono {A} (p : prog A) db (P Q : A -> DB -> Prop) :
  ends p db P -> (forall a db', le db db' -> P a db' -> Q a db') -> ends p db Q.
Proof.
  intros Hp HPQ Hf Hc. destruct (Hp Hf Hc) as (a & db' & ? & ? & ?). exists a, db'. auto.
Qed.

Lemma ends_lookup {A} h v (k : list Z -> prog A) db Q :
  db_node db h = v -> ends (k v) db Q -> ends (Lookup h k) db Q.
Proof. intros Hl Hk Hf Hc. cbn in *. rewrite lookup_ok by apply Hf. rewrite Hl in *. by apply Hk. Qed.

Lemma ends_exists {A} h (k : bool -> prog A) db Q :
  (fine db -> ends (k (db_has db h)) db Q) -> ends (Exists h k) db Q.
Proof. intros Hk Hf Hc. cbn in *. rewrite exists_ok by apply Hf. by apply Hk. Qed.

Lemma le_same db db' : db_ok db' -> (forall h, db_node db' h = db_node db h) -> (forall h, db_has db' h = db_has db h) -> le db db'.
Proof.
  intros Hok Hn Hh. constructor; [auto|]. intros [_ He]. split; [done|]. rewrite Hn, Hh. done.
Qed.

Lemma le_insert h v db : db_ok db -> v <> [] -> fresh h v db -> le db (db_insert h v db).
Proof.
  intros Hok Hv [Hfr He]. constructor.
  - intros h' Hh'. destruct (decide (h = h')) as [<-|Hne]; [|by apply node_insert_other].
    rewrite node_insert by done. by destruct Hfr.
  - intros [_ Hf]. split; [by apply insert_ok|]. intros Hex. destruct (decide (h = EmptyTrie)) as [->|Hne].
    + rewrite node_insert by done. by apply He.
    + rewrite node_insert_other by done. apply Hf. by destruct (has_insert _ _ _ _ Hex).
Qed.

Lemma ends_kill {A} h (k : prog A) db Q : (forall db', le db db' -> ends k db' Q) -> ends (Kill h k) db Q.
Proof.
  intros Hk Hf Hc. cbn in *. destruct (kill_ok h db (proj1 Hf)) as (db1 & Hkill & Hok & Hn & Hh). rewrite Hkill in *.
  pose proof (le_same db db1 Hok Hn Hh) as Hle. destruct (Hk db1 Hle (le_fine _ _ Hle Hf) Hc) as (a & db' & Hr & Hle2 & HQ).
  exists a, db'. split; [done|]. split; [by eapply le_trans|done].
Qed.

Lemma ends_insertAux {A} h v (k : prog A) db Q : (forall db', le db db' -> ends k db' Q) -> ends (InsertAux h v k) db Q.
Proof.
  intros Hk Hf Hc. destruct (insertAux_ok h v db (proj1 Hf)) as (Hok & Hn & Hh). pose proof (le_same _ _ Hok Hn Hh) as Hle.
  destruct (Hk _ Hle (le_fine _ _ Hle Hf) Hc) as (a & db' & Hr & Hle2 & HQ).
  exists a, db'. split; [done|]. split; [by eapply le_trans|done].
Qed.

Lemma ends_insert {A} h v (k : prog A) db (Q : A -> DB -> Prop) : v <> [] ->
  (forall db', le db db' -> db_node db' h = v -> ends k db' Q) -> ends (Insert h v k) db Q.
Proof.
  intros Hv Hk Hf [Hfr Hc]. pose proof (le_insert h v db (proj1 Hf) Hv Hfr) as Hle.
  destruct (Hk _ Hle (node_insert _ _ _ Hv) (le_fine _ _ Hle Hf) Hc) as (a & db' & Hr & Hle2 & HQ).
  exists a, db'. split; [done|]. split; [by eapply le_trans|done].
Qed.
Lemma ends_assoc {A B C} (p : prog A) (f : A -> prog B) (g : B -> prog C) db Q :
  ends (pbind p (fun a => pbind (f a) g)) db Q -> ends (pbind (pbind p f) g) db Q.
Proof.
  unfold ends. enough (run (pbind (pbind p f) g) db = run (pbind p (fun a => pbind (f a) g)) db /\
    (clean (pbind (pbind p f) g) db <-> clean (pbind p (fun a => pbind (f a) g)) db)) as [-> ->] by done.
  revert db. induction p as [[]|h k IH|h k IH|h v k IH|h k IH|h v k IH]; intros db; try done; cbn.
  - split; [|apply IH]. destruct (db_lookup db h); try done. apply IH.
  - split; [|apply IH]. destruct (db_exists db h); try done. apply IH.
  - destruct (IH (db_insert h v db)) as [-> ->]. done.
  - destruct (db_kill h db) as [db'| | |]; try done. apply IH.
  - apply IH.
Qed.
End Run.

(** ** Programs that only read *)

Fixpoint reads {A} (p : prog A) : Prop :=
  match p with
  | Done _ => True
  | Lookup _ k => forall v, reads (k v)
  | Exists _ k => forall b, reads (k b)
  | _ => False
  end.

Lemma reads_bind {A B} (p : prog A) (f : A -> prog B) : reads p -> (forall a, reads (f a)) -> reads (pbind p f).
Proof. intros Hp Hf. induction p as [[]|h k IH|h k IH|h v k IH|h k IH|h v k IH]; cbn in *; auto. Qed.

Lemma clean_reads `{NodeDBLaws DB} `{Sha3} {A} (p : prog A) (db : DB) : reads p -> clean p db.
Proof. induction p; cbn; try done; auto. Qed.

Ltac reading := repeat first [apply reads_bind; [|intros ?] | exact I | case_match | assumption].

(** Whether a run is clean can be computed. *)
#[export] Instance fresh_dec `{NodeDBLaws DB} `{Sha3} h v (db : DB) : Decision (fresh h v db).
Proof. unfold fresh. apply _. Defined.

#[export] Instance clean_dec `{NodeDBLaws DB} `{Sha3} {A} (p : prog A) (db : DB) : Decision (clean p db).
Proof.
  revert db. induction p as [r|h k IH|h k IH|h v k IH|h k IH|h v k IH]; intros db; cbn.
  - by left.
  - apply IH.
  - apply IH.
  - apply and_dec; [apply fresh_dec|apply IH].
  - destruct (db_kill h db) as [db'| | |]; [apply IH|by left..].
  - apply IH.
Defined.

(** Go over what is known. *)
Ltac pstep :=
  repeat first [progress change (pbind (plift (Value ?a)) ?g) with (g a) | progress change (pbind (pret ?a) ?g) with (g a)];
  cbv beta.
Tactic Notation "pget" uconstr(H) := rewrite H; pstep.
