(* ===== verification/MemoryDB.v ===== *)
(** * Databases of nodes (libdevcore/MemoryDB.h, MemoryDB.cpp, OverlayDB.h,
    OverlayDB.cpp, LevelDB.cpp)

    [MemoryDB] keeps nodes with the number of references to them; [OverlayDB]
    keeps what has changed in a [MemoryDB] over a database on the disk, and
    writes what is still referred to when it is committed.  [leveldb::DB] is the
    class [LevelDBLib]. *)
From stdpp Require Import base list gmap.
From Stdlib Require Import ZArith Lia.
From S2P Require Import Prelude Words Result StateMonad Account NodeDB.

(** ** [MemoryDB] *)

Record MemoryDB := mkMemoryDB {
  m_main : gmap Z (list Z * Z);
  m_aux : gmap Z (list Z * bool);
  m_enforceRefs : bool
}.

Definition new_MemoryDB : MemoryDB := mkMemoryDB ∅ ∅ false.
Definition assign_MemoryDB (c this : MemoryDB) : MemoryDB := mkMemoryDB (m_main c) (m_aux c) (m_enforceRefs this).

(** [EnforceRefs] sets the flag and its destructor sets it back. *)
Definition EnforceRefs (r : bool) (o : MemoryDB) : MemoryDB := mkMemoryDB (m_main o) (m_aux o) r.

Definition clear (db : MemoryDB) : MemoryDB := mkMemoryDB ∅ ∅ (m_enforceRefs db).

(** [!m_enforceRefs || it->second.second > 0] *)
Definition counts (db : MemoryDB) (refs : Z) : bool := negb (m_enforceRefs db) || (0 <? refs).

Definition get (db : MemoryDB) : gmap Z (list Z) :=
  omap (fun e : list Z * Z => if counts db e.2 then Some e.1 else None) (m_main db).

Definition lookup (db : MemoryDB) (h : Z) : list Z :=
  match m_main db !! h with
  | Some (v, refs) => if counts db refs then v else []
  | None => []
  end.

Definition exists_ (db : MemoryDB) (h : Z) : bool :=
  match m_main db !! h with Some (_, refs) => counts db refs | None => false end.

Definition insert (h : Z) (v : list Z) (db : MemoryDB) : MemoryDB :=
  let refs := match m_main db !! h with Some (_, refs) => u32 (refs + 1) | None => 1 end in
  mkMemoryDB (<[h := (v, refs)]> (m_main db)) (m_aux db) (m_enforceRefs db).

Definition kill (h : Z) (db : MemoryDB) : bool * MemoryDB :=
  match m_main db !! h with
  | Some (v, refs) =>
      if 0 <? refs then (true, mkMemoryDB (<[h := (v, refs - 1)]> (m_main db)) (m_aux db) (m_enforceRefs db))
      else (false, db)
  | None => (false, db)
  end.

Definition lookupAux (db : MemoryDB) (h : Z) : list Z :=
  match m_aux db !! h with
  | Some (v, there) => if negb (m_enforceRefs db) || there then v else []
  | None => []
  end.

(** [m_aux\[_h\].second = false]: makes an entry when there is none. *)
Definition removeAux (h : Z) (db : MemoryDB) : MemoryDB :=
  let v := match m_aux db !! h with Some (v, _) => v | None => [] end in
  mkMemoryDB (m_main db) (<[h := (v, false)]> (m_aux db)) (m_enforceRefs db).

Definition insertAux (h : Z) (v : list Z) (db : MemoryDB) : MemoryDB :=
  mkMemoryDB (m_main db) (<[h := (v, true)]> (m_aux db)) (m_enforceRefs db).

Definition purge (db : MemoryDB) : MemoryDB :=
  mkMemoryDB (filter (fun '(_, (_, refs)) => negb (refs =? 0) = true) (m_main db))
    (filter (fun '(_, (_, there)) => there = true) (m_aux db)) (m_enforceRefs db).

Definition keys (db : MemoryDB) : gset Z :=
  dom (filter (fun '(_, (_, refs)) => negb (refs =? 0) = true) (m_main db)).

#[export] Instance MemoryNodeDB : NodeDB MemoryDB := {
  db_lookup db h := Value (lookup db h);
  db_exists db h := Value (exists_ db h);
  db_insert := insert;
  db_kill h db := Value (snd (kill h db));
  db_insertAux := insertAux
}.

(** ** [LevelDB] *)

(** What a batch writes: [Put] and [Delete] in the order they were noted. *)
Inductive write : Set :=
| Put (key value : list Z)
| Delete (key : list Z).

Inductive Status : Set := StatusOk | StatusNotFound | StatusIOError | StatusCorruption | StatusOther.

(** [leveldb::DB] *)
Class LevelDBLib (D : Type) := {
  ldb_Get : D -> list Z -> Status * list Z;
  ldb_Write : list write -> D -> Status * D
}.

Definition toDatabaseStatus (s : Status) : DatabaseStatus :=
  match s with
  | StatusOk => Ok
  | StatusIOError => IOError
  | StatusCorruption => Corruption
  | StatusNotFound => NotFound
  | StatusOther => Unknown
  end.

Definition checkStatus (s : Status) : result DatabaseError unit :=
  match s with StatusOk => Value tt | _ => Error (StatusError (toDatabaseStatus s)) end.

Open Scope result_scope.

Section LevelDB.
  Context {D : Type} `{!LevelDBLib D}.

Definition LevelDB_lookup (d : D) (key : list Z) : result DatabaseError (list Z) :=
  let (status, value) := ldb_Get d key in
  match status with
  | StatusNotFound => Value []
  | _ => checkStatus status ;; Value value
  end.

Definition LevelDB_exists (d : D) (key : list Z) : result DatabaseError bool :=
  let (status, _) := ldb_Get d key in
  match status with
  | StatusNotFound => Value false
  | _ => checkStatus status ;; Value true
  end.

Definition LevelDB_insert (key value : list Z) (d : D) : result DatabaseError unit * D :=
  let (status, d') := ldb_Write [Put key value] d in (checkStatus status, d').

Definition LevelDB_kill (key : list Z) (d : D) : result DatabaseError unit * D :=
  let (status, d') := ldb_Write [Delete key] d in (checkStatus status, d').

(** [commit(std::unique_ptr<WriteBatchFace>)]: no batch is the null pointer. *)
Definition LevelDB_commit (batch : option (list write)) (d : D) : result DatabaseError unit * D :=
  match batch with
  | None => (Error CommentError, d)
  | Some b => let (status, d') := ldb_Write b d in (checkStatus status, d')
  end.
End LevelDB.

(** ** [OverlayDB] *)

Record OverlayDB (D : Type) := mkOverlayDB { mem : MemoryDB; m_db : option D }.
Arguments mkOverlayDB {D} mem m_db.
Arguments mem {D} o.
Arguments m_db {D} o.

(** [h256::asBytes()], and with 255 at the end for the auxiliary data. *)
Definition aux_key (h : Z) : list Z := h256_bytes h ++ [255].

Section OverlayDB.
  Context {D : Type} `{!LevelDBLib D} `{!UnorderedMaps}.

Definition new_OverlayDB (d : option D) : OverlayDB D := mkOverlayDB new_MemoryDB d.

Definition overlay_lookup (o : OverlayDB D) (h : Z) : result DatabaseError (list Z) :=
  let ret := lookup (mem o) h in
  match m_db o with
  | Some d => if negb (lenZ ret =? 0) then Value ret else LevelDB_lookup d (h256_bytes h)
  | None => Value ret
  end.

Definition overlay_exists (o : OverlayDB D) (h : Z) : result DatabaseError bool :=
  if exists_ (mem o) h then Value true
  else match m_db o with Some d => LevelDB_exists d (h256_bytes h) | None => Value false end.

(** What the disk says is only logged. *)
Definition overlay_kill (h : Z) (o : OverlayDB D) : result DatabaseError (OverlayDB D) :=
  let (killed, mem') := kill h (mem o) in
  if killed then Value (mkOverlayDB mem' (m_db o))
  else
    match m_db o with
    | Some d => LevelDB_exists d (h256_bytes h) ;; Value (mkOverlayDB mem' (m_db o))
    | None => Value (mkOverlayDB mem' (m_db o))
    end.

Definition overlay_lookupAux (o : OverlayDB D) (h : Z) : result DatabaseError (list Z) :=
  let ret := lookupAux (mem o) h in
  match m_db o with
  | Some d => if negb (lenZ ret =? 0) then Value ret else LevelDB_lookup d (aux_key h)
  | None => Value ret
  end.

Definition rollback (o : OverlayDB D) : OverlayDB D :=
  mkOverlayDB (mkMemoryDB ∅ (m_aux (mem o)) (m_enforceRefs (mem o))) (m_db o).

(** The batch of a commit. *)
Definition commit_batch (db : MemoryDB) : list write :=
  omap (fun '(h, (v, refs)) => if negb (refs =? 0) then Some (Put (h256_bytes h) v) else None) (iterate (m_main db)) ++
  omap (fun '(h, (v, there)) => if (there : bool) then Some (Put (aux_key h) v) else None) (iterate (m_aux db)).

(** [for (unsigned i = 0; i < 10; ++i)]: the pointer to the batch is moved into
    the first call, and is null for the calls after it.  No value: the process
    ends. *)
Fixpoint commit_tries (n : nat) (batch : option (list write)) (d : D) : option unit * D :=
  match n with
  | O => (None, d)
  | S m =>
      match LevelDB_commit batch d with
      | (Value _, d') => (Some tt, d')
      | (_, d') => commit_tries m None d'
      end
  end.

Definition commit (o : OverlayDB D) : option (OverlayDB D) :=
  match m_db o with
  | None => Some o
  | Some d =>
      match commit_tries 10 (Some (commit_batch (mem o))) d with
      | (Some _, d') => Some (mkOverlayDB (clear (mem o)) (Some d'))
      | (None, _) => None
      end
  end.

#[export] Instance OverlayNodeDB : NodeDB (OverlayDB D) := {
  db_lookup o h := map_error DbError (overlay_lookup o h);
  db_exists o h := map_error DbError (overlay_exists o h);
  db_insert h v o := mkOverlayDB (insert h v (mem o)) (m_db o);
  db_kill h o := map_error DbError (overlay_kill h o);
  db_insertAux h v o := mkOverlayDB (insertAux h v (mem o)) (m_db o)
}.
End OverlayDB.
