(* ===== verification/TrieDB.v ===== *)
(** * Merkle-Patricia tries (libdevcore/TrieDB.h)

    [GenericTrieDB] over a database of nodes.  A node is its RLP; a node of at
    least 32 bytes is stored under its hash and its parent holds the hash, a
    shorter one is a part of its parent.  The object's [m_root] is an argument
    of the functions that read it and a result of those that change it.  A trie
    function recurses along the key, which is the fuel. *)
From stdpp Require Import base list.
From Stdlib Require Import ZArith Lia.
From S2P Require Import Prelude Words Result Account Rlp StateMonad TrieCommon NodeDB.
Open Scope prog_scope.

Definition RLPNull : list Z := [0x80].

Inductive Verification : Set := Skip | Normal.

(** [a && b]: [b] is looked at when [a] holds. *)
Definition both (a b : res bool) : res bool := (x <- a ;; if x then b else Value false)%result.
Definition not_ (a : res bool) : res bool := (x <- a ;; Value (negb x))%result.

Section TrieDB.
  Context `{Sha3}.

(** ** Nodes *)

Definition node (h : Z) : prog (list Z) := Lookup h pret.
Definition forceInsertNode (v : list Z) : prog Z := Insert (sha3 v) v (pret (sha3 v)).
Definition forceKillNode (h : Z) : prog unit := Kill h (pret tt).
Definition killNode (d : list Z) (h : Z) : prog unit :=
  if 32 <=? lenZ d then forceKillNode h else pret tt.

(** [RLP(node(_i.toHash<h256>()))] *)
Definition node_of (i : list Z) : prog (list Z) :=
  h <- plift (toHash 32 Strict i) ;;
  s <- node (fromBigEndian h) ;;
  plift (mkRLP VeryStrict s).

Definition append_rlp (i : list Z) (s : RLPStream) : res RLPStream := appendRaw i 1 s.
Definition append_string (bs : list Z) (s : RLPStream) : res RLPStream := append_bytes false bs s.

Definition streamNode (b : list Z) (s : RLPStream) : prog RLPStream :=
  if lenZ b <? 32 then plift (appendRaw b 1 s)
  else h <- forceInsertNode b ;; plift (append_string (h256_bytes h) s).

(** [rlpList(a, b)] *)
Definition rlpList2 (a b : RLPStream -> res RLPStream) : res (list Z) :=
  (s <- appendList 2 empty_stream ;; s <- a s ;; s <- b s ;; stream_out s)%result.

Definition deref (n : list Z) : prog (list Z) :=
  if isList n then pret n else h <- plift (toHash 32 Strict n) ;; node (fromBigEndian h).

Definition isTwoItemNode (n : list Z) : prog bool :=
  if isData n then
    r <- node_of n ;;
    c <- plift (itemCount r) ;;
    pret (c =? 2)
  else if isList n then
    c <- plift (itemCount n) ;;
    pret (c =? 2)
  else pret false.

(** [assert(_n.isList() && (itemCount == 2 || itemCount == 17))] and the count. *)
Definition two_or_seventeen (n : list Z) : prog Z :=
  c <- plift (itemCount n) ;;
  plift (assert_ (isList n && ((c =? 2) || (c =? 17)))) ;;
  pret c.

(** [for (byte i = 0; i < count; ++i) if (i == n) f(r, _orig\[i\]) else r << _orig\[i\];],
    where [f] may leave the loop. *)
Fixpoint for_items (count : nat) (i n : Z) (orig : list Z) (f : list Z -> RLPStream -> prog (option RLPStream))
    (s : RLPStream) : prog (option RLPStream) :=
  match count with
  | O => pret (Some s)
  | S c =>
      it <- plift (rlp_at orig i) ;;
      s' <- (if i =? n then f it s else s' <- plift (append_rlp it s) ;; pret (Some s')) ;;
      match s' with
      | Some s' => for_items c (i + 1) n orig f s'
      | None => pret None
      end
  end.

(** ** The transformations of nodes *)

Definition place (orig : list Z) (k : NibbleSlice) (v : list Z) : prog (list Z) :=
  killNode orig (sha3 orig) ;;
  if isEmpty orig then
    hpe <- plift (hexPrefixEncode k true 0 (-1)) ;;
    plift (rlpList2 (append_string hpe) (append_string v))
  else
    c <- two_or_seventeen orig ;;
    if c =? 2 then
      i <- plift (rlp_at orig 0) ;;
      plift (rlpList2 (append_rlp i) (append_string v))
    else
      s <- plift (appendList 17 empty_stream) ;;
      s <- for_items 16 0 255 orig (fun _ s => pret (Some s)) s ;;
      match s with
      | Some s => s <- plift (append_string v s) ;; plift (stream_out s)
      | None => pret []
      end.

(** [remove(RLP const&)] *)
Definition remove_node (orig : list Z) : prog (list Z) :=
  killNode orig (sha3 orig) ;;
  c <- two_or_seventeen orig ;;
  if c =? 2 then pret RLPNull
  else
    s <- plift (appendList 17 empty_stream) ;;
    s <- for_items 16 0 255 orig (fun _ s => pret (Some s)) s ;;
    match s with
    | Some s => s <- plift (append_string [] s) ;; plift (stream_out s)
    | None => pret []
    end.

Definition is_two_item (orig : list Z) : prog unit :=
  c <- plift (itemCount orig) ;;
  plift (assert_ (isList orig && (c =? 2))).

Definition cleve (orig : list Z) (s : Z) : prog (list Z) :=
  killNode orig (sha3 orig) ;;
  is_two_item orig ;;
  k <- plift (keyOf orig) ;;
  plift (assert_ (negb (s =? 0) && (s <=? slice_size k))) ;;
  leaf <- plift (isLeaf orig) ;;
  hpe <- plift (hexPrefixEncode k leaf s (-1)) ;;
  i <- plift (rlp_at orig 1) ;;
  bottom <- plift (rlpList2 (append_string hpe) (append_rlp i)) ;;
  hpe <- plift (hexPrefixEncode k false 0 s) ;;
  top <- plift (appendList 2 empty_stream) ;;
  top <- plift (append_string hpe top) ;;
  top <- streamNode bottom top ;;
  plift (stream_out top).

Definition graft (orig : list Z) : prog (list Z) :=
  is_two_item orig ;;
  i <- plift (rlp_at orig 1) ;;
  n <- (if isList i then pret i
        else
          lh <- plift (toHash 32 Strict i) ;;
          s <- node (fromBigEndian lh) ;;
          forceKillNode (fromBigEndian lh) ;;
          plift (mkRLP VeryStrict s)) ;;
  c <- plift (itemCount n) ;;
  plift (assert_ (c =? 2)) ;;
  k <- plift (keyOf orig) ;;
  kn <- plift (keyOf n) ;;
  leaf <- plift (isLeaf n) ;;
  hpe <- plift (hexPrefixEncode_slices k kn leaf) ;;
  v <- plift (rlp_at n 1) ;;
  plift (rlpList2 (append_string hpe) (append_rlp v)).

Definition merge (orig : list Z) (i : Z) : prog (list Z) :=
  c <- plift (itemCount orig) ;;
  plift (assert_ (isList orig && (c =? 17))) ;;
  it <- plift (rlp_at orig i) ;;
  hpe <- (if negb (i =? 16)
          then plift (assert_ (negb (isEmpty it))) ;; plift (hexPrefixEncode_data [i] false 1 2 0)
          else plift (hexPrefixEncode_vector [] true 0 (-1))) ;;
  plift (rlpList2 (append_string hpe) (append_rlp it)).

(** [for (unsigned i = 0; i < count; ++i) r << "";] with one other item at [b]. *)
Fixpoint for_empty (count : nat) (i b : Z) (f : RLPStream -> prog RLPStream) (s : RLPStream) : prog RLPStream :=
  match count with
  | O => pret s
  | S c =>
      s <- (if i =? b then f s else plift (append_string [] s)) ;;
      for_empty c (i + 1) b f s
  end.

Definition branch (orig : list Z) : prog (list Z) :=
  is_two_item orig ;;
  killNode orig (sha3 orig) ;;
  k <- plift (keyOf orig) ;;
  r <- plift (appendList 17 empty_stream) ;;
  leaf <- plift (isLeaf orig) ;;
  it <- plift (rlp_at orig 1) ;;
  if slice_size k =? 0 then
    plift (assert_ leaf) ;;
    r <- for_empty 16 0 255 pret r ;;
    r <- plift (append_rlp it r) ;;
    plift (stream_out r)
  else
    b <- plift (slice_index k 0) ;;
    r <- for_empty 16 0 b (fun r =>
           if leaf || (1 <? slice_size k) then
             hpe <- plift (hexPrefixEncode (mid k 1) leaf 0 (-1)) ;;
             n <- plift (rlpList2 (append_string hpe) (append_rlp it)) ;;
             streamNode n r
           else plift (append_rlp it r)) r ;;
    r <- plift (append_string [] r) ;;
    plift (stream_out r).

(** ** Lookup *)

Fixpoint atAux (fuel : nat) (here : list Z) (key : NibbleSlice) : prog (list Z) :=
  match fuel with
  | O => Done OutOfFuel
  | S f =>
      if isEmpty here || isNull here then pret []
      else
        c <- two_or_seventeen here ;;
        if c =? 2 then
          k <- plift (keyOf here) ;;
          us <- plift (both (slice_eq key k) (isLeaf here)) ;;
          if us then i <- plift (rlp_at here 1) ;; plift (toString LaissezFaire i)
          else
            below <- plift (both (contains key k) (not_ (isLeaf here))) ;;
            if below then
              i <- plift (rlp_at here 1) ;;
              n <- (if isList i then pret i else node_of i) ;;
              atAux f n (mid key (slice_size k))
            else pret []
        else if slice_size key =? 0 then i <- plift (rlp_at here 16) ;; plift (toString LaissezFaire i)
        else
          b <- plift (slice_index key 0) ;;
          n <- plift (rlp_at here b) ;;
          if isEmpty n then pret []
          else n <- (if isList n then pret n else node_of n) ;; atAux f n (mid key 1)
  end.

(** Every level takes a nibble of the key, save the first extension, the leaf,
    and the few levels an insertion makes. *)
Definition key_fuel (key : NibbleSlice) : nat := Z.to_nat (slice_size key) + 5.

(** ** Insertion *)

(** The parameter [mergeAt] is the function below. *)
Definition mergeAtAux (mergeAt : list Z -> Z -> NibbleSlice -> list Z -> bool -> prog (list Z))
    (orig : list Z) (k : NibbleSlice) (v : list Z) (out : RLPStream) : prog RLPStream :=
  r <- (if negb (isList orig) && negb (isEmpty orig) then
          r <- node_of orig ;;
          plift (assert_ (negb (isNull r))) ;;
          pret (r, true)
        else pret (orig, false)) ;;
  let (r, isRemovable) := r : list Z * bool in
  b <- mergeAt r (sha3 r) k v (negb isRemovable) ;;
  streamNode b out.

Fixpoint mergeAt (fuel : nat) (orig : list Z) (origHash : Z) (k_ : NibbleSlice) (v : list Z) (inLine : bool) : prog (list Z) :=
  match fuel with
  | O => Done OutOfFuel
  | S f =>
      if isEmpty orig then place orig k_ v
      else
        c <- two_or_seventeen orig ;;
        if c =? 2 then
          k <- plift (keyOf orig) ;;
          us <- plift (both (slice_eq k k_) (isLeaf orig)) ;;
          if us then place orig k_ v
          else
            below <- plift (both (contains k_ k) (not_ (isLeaf orig))) ;;
            if below then
              (if negb inLine then killNode orig origHash else pret tt) ;;
              s <- plift (appendList 2 empty_stream) ;;
              i <- plift (rlp_at orig 0) ;;
              s <- plift (append_rlp i s) ;;
              i <- plift (rlp_at orig 1) ;;
              s <- mergeAtAux (mergeAt f) i (mid k_ (slice_size k)) v s ;;
              plift (stream_out s)
            else
              sh <- plift (shared k_ k) ;;
              if negb (sh =? 0) then
                cleved <- cleve orig sh ;;
                r <- plift (mkRLP VeryStrict cleved) ;;
                mergeAt f r (sha3 r) k_ v true
              else
                branched <- branch orig ;;
                r <- plift (mkRLP VeryStrict branched) ;;
                mergeAt f r (sha3 r) k_ v true
        else if slice_size k_ =? 0 then place orig k_ v
        else
          (if negb inLine then killNode orig origHash else pret tt) ;;
          n <- plift (slice_index k_ 0) ;;
          r <- plift (appendList 17 empty_stream) ;;
          r <- for_items 17 0 n orig (fun it r => r <- mergeAtAux (mergeAt f) it (mid k_ 1) v r ;; pret (Some r)) r ;;
          match r with
          | Some r => plift (stream_out r)
          | None => pret []
          end
  end.

(** ** Deletion *)

(** The parameter [deleteAt] is the function below.  No value: the key was not
    found ([false]). *)
Definition deleteAtAux (deleteAt : list Z -> NibbleSlice -> prog (list Z))
    (orig : list Z) (k : NibbleSlice) (out : RLPStream) : prog (option RLPStream) :=
  b <- (if isEmpty orig then pret []
        else n <- (if isList orig then pret orig else node_of orig) ;; deleteAt n k) ;;
  if lenZ b =? 0 then pret None
  else out <- streamNode b out ;; pret (Some out).

Fixpoint deleteAt (fuel : nat) (orig : list Z) (k_ : NibbleSlice) : prog (list Z) :=
  match fuel with
  | O => Done OutOfFuel
  | S f =>
      if isEmpty orig then pret []
      else
        c <- two_or_seventeen orig ;;
        if c =? 2 then
          k <- plift (keyOf orig) ;;
          us <- plift (both (slice_eq k k_) (isLeaf orig)) ;;
          if us then killNode orig (sha3 orig) ;; pret RLPNull
          else
            below <- plift (contains k_ k) ;;
            if below then
              s <- plift (appendList 2 empty_stream) ;;
              i <- plift (rlp_at orig 0) ;;
              s <- plift (append_rlp i s) ;;
              i <- plift (rlp_at orig 1) ;;
              s <- deleteAtAux (deleteAt f) i (mid k_ (slice_size k)) s ;;
              match s with
              | None => pret []
              | Some s =>
                  killNode orig (sha3 orig) ;;
                  out <- plift (stream_out s) ;;
                  r <- plift (mkRLP VeryStrict out) ;;
                  i <- plift (rlp_at r 1) ;;
                  two <- isTwoItemNode i ;;
                  if two then graft r else pret out
              end
            else pret []
        else
          value <- plift (rlp_at orig 16) ;;
          if (slice_size k_ =? 0) && negb (isEmpty value) then
            killNode orig (sha3 orig) ;;
            used <- plift (uniqueInUse orig 16) ;;
            if negb (used =? 255) then
              i <- plift (rlp_at orig used) ;;
              two <- isTwoItemNode i ;;
              merged <- merge orig used ;;
              if two then r <- plift (mkRLP VeryStrict merged) ;; graft r else pret merged
            else
              s <- plift (appendList 17 empty_stream) ;;
              s <- for_items 16 0 255 orig (fun _ s => pret (Some s)) s ;;
              match s with
              | Some s => s <- plift (append_string [] s) ;; plift (stream_out s)
              | None => pret []
              end
          else
            r <- plift (appendList 17 empty_stream) ;;
            n <- plift (slice_index k_ 0) ;;
            r <- for_items 17 0 n orig (fun it r => deleteAtAux (deleteAt f) it (mid k_ 1) r) r ;;
            match r with
            | None => pret []
            | Some r =>
                killNode orig (sha3 orig) ;;
                out <- plift (stream_out r) ;;
                rlp <- plift (mkRLP VeryStrict out) ;;
                used <- plift (uniqueInUse rlp 255) ;;
                if used =? 255 then pret out
                else
                  i <- plift (rlp_at rlp used) ;;
                  two <- isTwoItemNode i ;;
                  merged <- merge rlp used ;;
                  if two then r <- plift (mkRLP VeryStrict merged) ;; graft r else pret merged
            end
  end.

(** ** The trie *)

(** [NibbleSlice(_key)] *)
Definition slice_of (key : list Z) : NibbleSlice := mkNibbleSlice key 0.

(** [setRoot] and [init], which call each other: the root [init] inserts is in
    the database when [setRoot] is called again. *)
Fixpoint setRoot_rec (fuel : nat) (root : Z) : prog Z :=
  match fuel with
  | O => Done OutOfFuel
  | S f =>
      ex <- (if root =? EmptyTrie then Exists root pret else pret true) ;;
      root <- (if negb ex then
                 h <- forceInsertNode RLPNull ;;
                 root <- setRoot_rec f h ;;
                 v <- node root ;;
                 plift (assert_ (negb (lenZ v =? 0))) ;;
                 pret root
               else pret root) ;;
      v <- node root ;;
      if lenZ v =? 0 then pthrow RootNotFound else pret root
  end.
Definition setRoot (root : Z) (v : Verification) : prog Z :=
  match v with Normal => setRoot_rec 2 root | Skip => pret root end.
Definition init : prog Z :=
  h <- forceInsertNode RLPNull ;;
  root <- setRoot h Normal ;;
  v <- node root ;;
  plift (assert_ (negb (lenZ v =? 0))) ;;
  pret root.

Definition trie_isNull (m_root : Z) : prog bool := v <- node m_root ;; pret (lenZ v =? 0).
Definition trie_isEmpty (m_root : Z) : prog bool :=
  if m_root =? EmptyTrie then v <- node m_root ;; pret (negb (lenZ v =? 0)) else pret false.
Definition root (m_root : Z) : prog Z :=
  v <- node m_root ;;
  if lenZ v =? 0 then pthrow BadRoot else pret m_root.

Definition at_ (m_root : Z) (key : list Z) : prog (list Z) :=
  v <- node m_root ;;
  here <- plift (mkRLP VeryStrict v) ;;
  atAux (key_fuel (slice_of key)) here (slice_of key).

Definition contains_key (m_root : Z) (key : list Z) : prog bool :=
  v <- at_ m_root key ;; pret (negb (lenZ v =? 0)).

Definition insert (m_root : Z) (key value : list Z) : prog Z :=
  rootValue <- node m_root ;;
  plift (assert_ (negb (lenZ rootValue =? 0))) ;;
  r <- plift (mkRLP VeryStrict rootValue) ;;
  b <- mergeAt (key_fuel (slice_of key)) r m_root (slice_of key) value false ;;
  (if lenZ rootValue <? 32 then forceKillNode m_root else pret tt) ;;
  forceInsertNode b.

Definition remove (m_root : Z) (key : list Z) : prog Z :=
  rv <- node m_root ;;
  r <- plift (mkRLP VeryStrict rv) ;;
  b <- deleteAt (key_fuel (slice_of key)) r (slice_of key) ;;
  if negb (lenZ b =? 0) then
    (if lenZ rv <? 32 then forceKillNode m_root else pret tt) ;;
    forceInsertNode b
  else pret m_root.

(** ** [FatGenericTrieDB]: keys are hashed, and kept beside the trie *)

Definition hashed_key (key : list Z) : list Z := h256_bytes (sha3 key).
Definition fat_at (m_root : Z) (key : list Z) : prog (list Z) := at_ m_root (hashed_key key).
Definition fat_contains (m_root : Z) (key : list Z) : prog bool := contains_key m_root (hashed_key key).
Definition fat_insert (m_root : Z) (key value : list Z) : prog Z :=
  root <- insert m_root (hashed_key key) value ;;
  InsertAux (sha3 key) key (pret root).
Definition fat_remove (m_root : Z) (key : list Z) : prog Z := remove m_root (hashed_key key).
End TrieDB.
