(* ===== verification/TrieItems.v ===== *)
(** * Reading and writing nodes

    A node is the encoding of a list of items.  Reading one returns the
    encodings of its items, and a stream that was opened for [n] items and has
    got some of them is [partial]. *)
From stdpp Require Import base list.
From Stdlib Require Import ZArith Lia.
From S2P Require Import Prelude Words Result Account Rlp RlpSpec RlpRead RlpTheorems RlpInt.
From S2P Require Import StateMonad TrieCommon TrieKeys NodeDB TrieDB.
Open Scope result_scope.

(** An item that may be part of a node. *)
Definition small (it : item) : Prop := item_ok it /\ lenZ (encode it) <= 2 ^ 36.

Lemma small_ok it : small it -> item_ok it.
Proof. by intros []. Qed.

Lemma small_str bs : byte_list bs -> lenZ bs <= 2 ^ 35 -> small (Str bs).
Proof.
  intros Hb Hl. split; [by constructor|]. cbn [encode]. pose proof (encode_str_length bs ltac:(lia)). lia.
Qed.

Lemma concat_small l : Forall small l -> lenZ (concat (map encode l)) <= lenZ l * 2 ^ 36.
Proof.
  induction 1 as [|it l [_ Hit] _ IH]; [done|]. cbn [map concat]. rewrite lenZ_app, lenZ_cons. lia.
Qed.

(** A node: a list of two or seventeen small items. *)
Record node_items (l : list item) : Prop := {
  ni_small : Forall small l;
  ni_count : 0 < lenZ l <= 17
}.

Section Node.
  Context (l : list item) (Hl : node_items l).

Lemma node_item_ok : item_ok (Lst l).
Proof. constructor. eapply Forall_impl; [apply Hl|]. apply small_ok. Qed.

Lemma node_concat : lenZ (concat (map encode l)) <= 17 * 2 ^ 36.
Proof. pose proof (concat_small l (ni_small l Hl)). pose proof (ni_count l Hl). nia. Qed.

Lemma node_length : 1 <= lenZ (encode (Lst l)) <= 2 ^ 42.
Proof.
  pose proof node_concat. pose proof (lenZ_nonneg (concat (map encode l))). cbn [encode]. cbv zeta. rewrite lenZ_app.
  pose proof (header_length 0xc0 (lenZ (concat (map encode l))) ltac:(lia)). lia.
Qed.

Lemma node_frame : frame_facts (encode (Lst l)) true (concat (map encode l)).
Proof.
  pose proof node_length. pose proof node_concat. apply frame_of_facts; [|lia]. apply (encode_frame (Lst l)); [apply node_item_ok|lia].
Qed.

Lemma node_framed : framed (encode (Lst l)).
Proof. pose proof node_length. apply encode_framed; [apply node_item_ok|lia]. Qed.

Lemma node_isList : isList (encode (Lst l)) = true.
Proof. apply node_frame. Qed.

Lemma node_isData : isData (encode (Lst l)) = false.
Proof. exact (fr_data _ _ _ node_frame). Qed.

Lemma node_isNull : isNull (encode (Lst l)) = false.
Proof. apply node_frame. Qed.

Lemma node_mkRLP : mkRLP VeryStrict (encode (Lst l)) = Value (encode (Lst l)).
Proof. apply mkRLP_framed, node_framed. Qed.

Lemma items_framed : Forall framed (map encode l).
Proof.
  apply Forall_map. eapply Forall_impl; [apply Hl|]. intros it [Hok Hlen]. apply encode_framed; [done|lia].
Qed.

Lemma node_itemCount : itemCount (encode (Lst l)) = Value (lenZ l).
Proof.
  pose proof node_length. unfold itemCount, items. rewrite node_isList, (fr_payload _ _ _ node_frame). cbn [rbind].
  rewrite items_loop_framed; [unfold lenZ; by rewrite length_map|apply items_framed|].
  rewrite length_map. enough (length l <= length (concat (map encode l)))%nat by lia.
  pose proof items_framed as Hf. clear -Hf. induction l as [|it r IH]; [done|]. cbn [map concat length] in *.
  apply Forall_cons_1 in Hf as [Hf Hr]. apply framed_nonempty in Hf. rewrite length_app. unfold lenZ in Hf. specialize (IH Hr). lia.
Qed.

Lemma node_at i : 0 <= i < 2 ^ 32 -> rlp_at (encode (Lst l)) i = Value (default [] (map encode l !! Z.to_nat i)).
Proof.
  intros Hi. pose proof node_length. unfold rlp_at.
  destruct (subscript_item l i (fresh_RLP (encode (Lst l))) node_item_ok ltac:(lia) ltac:(lia) (cache_ok_fresh _ _)) as (r' & -> & _).
  done.
Qed.

Lemma node_concat_pos : 0 < lenZ (concat (map encode l)).
Proof.
  pose proof (ni_count l Hl) as Hc. pose proof items_framed as Hf. clear -Hc Hf.
  destruct l as [|it r]; [unfold lenZ in Hc; cbn in Hc; lia|]. cbn [map concat] in *.
  apply Forall_cons_1 in Hf as [Hf _]. apply framed_nonempty in Hf. rewrite lenZ_app. pose proof (lenZ_nonneg (concat (map encode r))). lia.
Qed.

Lemma node_not_empty : isEmpty (encode (Lst l)) = false.
Proof.
  pose proof node_concat. pose proof node_concat_pos as Hpos.
  unfold isEmpty. rewrite node_isNull. cbn [negb andb encode]. cbv zeta. unfold header. rlp_consts.
  destruct (lenZ (concat (map encode l)) <? 56) eqn:Hlt; cbn [app first_byte].
  - destruct (Z.eqb_spec (192 + lenZ (concat (map encode l))) 128), (Z.eqb_spec (192 + lenZ (concat (map encode l))) 192); try lia; done.
  - pose proof (byte_size_pos (lenZ (concat (map encode l))) Hpos) as [Hbs _].
    destruct (Z.eqb_spec (192 + 55 + byte_size (lenZ (concat (map encode l)))) 128),
      (Z.eqb_spec (192 + 55 + byte_size (lenZ (concat (map encode l)))) 192); try lia; done.
Qed.
End Node.

(** ** Strings *)

Section Str.
  Context (bs : list Z) (Hb : byte_list bs) (Hl : lenZ bs <= 2 ^ 35).

Lemma str_facts : frame_facts (encode (Str bs)) false bs.
Proof. apply (encode_str_frame bs Hb). lia. Qed.

Lemma str_payload : payload (encode (Str bs)) = Value bs.
Proof. apply str_facts. Qed.

Lemma str_isList : isList (encode (Str bs)) = false.
Proof. apply str_facts. Qed.

Lemma str_isData : isData (encode (Str bs)) = true.
Proof. exact (fr_data _ _ _ str_facts). Qed.

Lemma str_toString : toString LaissezFaire (encode (Str bs)) = Value bs.
Proof.
  unfold toString. rewrite str_isData, str_payload, (fr_length _ _ _ str_facts). cbn [negb rbind].
  f_equal. pose proof (cropped_exact [] bs []) as Hc. cbn [app] in Hc. rewrite app_nil_r in Hc. apply Hc. lia.
Qed.

Lemma str_isEmpty : isEmpty (encode (Str bs)) = bool_decide (bs = []).
Proof.
  pose proof (fr_null _ _ _ str_facts) as Hnull. destruct bs as [|b r]; [done|]. unfold isEmpty. rewrite Hnull. cbn [negb andb].
  rewrite bool_decide_eq_false_2 by done. cbn [encode encode_str]. rlp_consts.
  apply Forall_cons_1 in Hb as [Hb0 _]. destruct r as [|c r].
  - destruct (Z.ltb_spec b 128); cbn [first_byte].
    + destruct (Z.eqb_spec b 128), (Z.eqb_spec b 192); try lia; done.
    + done.
  - unfold header. rewrite !lenZ_cons in *. pose proof (lenZ_nonneg r). case_match eqn:Hlt; cbn [app first_byte].
    + destruct (Z.eqb_spec (128 + (1 + (1 + lenZ r))) 128), (Z.eqb_spec (128 + (1 + (1 + lenZ r))) 192); try lia; done.
    + pose proof (byte_size_pos (1 + (1 + lenZ r)) ltac:(lia)) as [Hbs _]. pose proof (byte_size_le (1 + (1 + lenZ r)) 8 ltac:(lia) ltac:(lia)).
      destruct (Z.eqb_spec (128 + 55 + byte_size (1 + (1 + lenZ r))) 128), (Z.eqb_spec (128 + 55 + byte_size (1 + (1 + lenZ r))) 192); try lia; done.
Qed.
End Str.

(** ** Writing *)

(** A stream for [n] items after [l] of them. *)
Definition partial (n : Z) (l : list item) : RLPStream :=
  if lenZ l <? n then mkRLPStream (concat (map encode l)) [(n - lenZ l, 0)] else mkRLPStream (encode (Lst l)) [].

Lemma partial_nil n : 0 < n -> appendList n empty_stream = Value (partial n []).
Proof.
  intros Hn. unfold appendList, partial. destruct (Z.eqb_spec n 0); [lia|]. cbn [negb]. change (lenZ []) with 0.
  destruct (Z.ltb_spec 0 n); [|lia]. cbn. by rewrite Z.sub_0_r.
Qed.

Section Write.
  Context (n : Z) (l : list item) (it : item) (Hs : Forall small l) (Hit : small it) (Hn : lenZ l < n <= 17).

Lemma partial_noted :
  noteAppended 1 (mkRLPStream (m_out (partial n l) ++ encode it) (m_listStack (partial n l))) = Value (partial n (l ++ [it])).
Proof.
  pose proof (concat_small l Hs) as Hc. pose proof Hit as [_ Hi]. pose proof (lenZ_nonneg l). pose proof (lenZ_nonneg (encode it)).
  pose proof (lenZ_nonneg (concat (map encode l))).
  assert (concat (map encode (l ++ [it])) = concat (map encode l) ++ encode it) as Ec.
  { rewrite map_app, concat_app. cbn [map concat]. by rewrite app_nil_r. }
  unfold partial. destruct (Z.ltb_spec (lenZ l) n); [|lia]. cbn [m_out m_listStack].
  rewrite noteAppended_top; [|lia|split; [lia|apply lenZ_nonneg]|rewrite lenZ_app; nia].
  rewrite (lenZ_app l [it]). change (lenZ [it]) with 1.
  destruct (Z.eqb_spec (n - lenZ l) 1), (Z.ltb_spec (lenZ l + 1) n); try lia.
  - cbn [encode]. cbv zeta. rewrite Ec. change (Z.to_nat 0) with 0%nat. rewrite take_0, drop_0, Z.sub_0_r, ?lenZ_app. reflexivity.
  - rewrite Ec. do 4 f_equal. lia.
Qed.

Lemma partial_item : append_item it (partial n l) = Value (partial n (l ++ [it])).
Proof. pose proof Hit as [Hok Hi]. rewrite append_item_spec; [|done|lia]. apply partial_noted. Qed.

Lemma partial_rlp : append_rlp (encode it) (partial n l) = Value (partial n (l ++ [it])).
Proof. unfold append_rlp, appendRaw. apply partial_noted. Qed.
End Write.

Lemma partial_string n l bs : Forall small l -> small (Str bs) -> lenZ l < n <= 17 ->
  append_string bs (partial n l) = Value (partial n (l ++ [Str bs])).
Proof. intros. by apply (partial_item n l (Str bs)). Qed.

Lemma partial_out n l : lenZ l = n -> stream_out (partial n l) = Value (encode (Lst l)).
Proof. intros <-. unfold partial. by rewrite Z.ltb_irrefl. Qed.

Lemma rlpList2_spec (a b : RLPStream -> res RLPStream) x y :
  a (partial 2 []) = Value (partial 2 [x]) -> b (partial 2 [x]) = Value (partial 2 [x; y]) ->
  rlpList2 a b = Value (encode (Lst [x; y])).
Proof.
  intros Ha Hb. unfold rlpList2. rewrite partial_nil by lia. cbn [rbind]. rewrite Ha. cbn [rbind]. rewrite Hb. cbn [rbind].
  by apply partial_out.
Qed.
