(* ===== verification/TrieSpec.v ===== *)
(** * Tries as trees

    The tree a stored trie stands for, what a database has to hold for it
    ([stored]), and what the functions on single nodes read and write in terms
    of trees.  A node of less than 32 bytes is a part of its parent ([ref]). *)
From stdpp Require Import base list.
From Stdlib Require Import ZArith Lia.
From S2P Require Import Prelude Words Result Account Rlp RlpSpec RlpRead RlpTheorems RlpInt.
From S2P Require Import StateMonad TrieCommon TrieKeys NodeDB TrieDB TrieItems.
Open Scope prog_scope.

(** A hash has 32 bytes. *)
Class Sha3Range `{Sha3} := sha3_range : forall d, is_u256 (sha3 d).

Inductive trie : Type :=
| Null
| Leaf (k v : list Z)
| Ext (k : list Z) (t : trie)
| Branch (cs : list trie) (v : list Z).

#[export] Instance Null_dec t : Decision (t = Null).
Proof. destruct t; [by left|by right..]. Defined.

(** Induction with the hypothesis for every child of a branch. *)
Lemma trie_ind_all (P : trie -> Prop) :
  P Null -> (forall k v, P (Leaf k v)) -> (forall k t, P t -> P (Ext k t)) ->
  (forall cs v, Forall P cs -> P (Branch cs v)) -> forall t, P t.
Proof.
  intros H0 H1 H2 H3. fix IH 1. intros [|k v|k t|cs v]; [exact H0|apply H1|apply H2, IH|apply H3].
  induction cs as [|c cs IHcs]; constructor; [apply IH|exact IHcs].
Qed.

(** ** Shape

    The keys below a node are nibbles, at most [d] of them. *)
Definition val_ok (v : list Z) : Prop := byte_list v /\ lenZ v <= 2 ^ 32.
Definition key_ok (d : nat) (k : list Z) : Prop := nibble_list k /\ (length k <= d)%nat.

Fixpoint trie_ok (d : nat) (t : trie) : Prop :=
  match t with
  | Null => True
  | Leaf k v => key_ok d k /\ val_ok v
  | Ext k c => key_ok d k /\ k <> [] /\ c <> Null /\ trie_ok (d - length k) c
  | Branch cs w => length cs = 16%nat /\ val_ok w /\
      foldr (fun c P => (c = Null \/ (0 < d)%nat /\ trie_ok (d - 1) c) /\ P) True cs
  end.

Notation max_depth := (Z.to_nat (2 ^ 28)).

Lemma foldr_Forall {A} (P : A -> Prop) l : foldr (fun c Q => P c /\ Q) True l <-> Forall P l.
Proof. induction l as [|a l IH]; cbn; [done|]. by rewrite IH, Forall_cons. Qed.

Lemma trie_ok_branch d cs w : trie_ok d (Branch cs w) <->
  length cs = 16%nat /\ val_ok w /\ Forall (fun c => c = Null \/ (0 < d)%nat /\ trie_ok (d - 1) c) cs.
Proof. cbn [trie_ok]. by rewrite foldr_Forall. Qed.

Lemma trie_ok_mono d e t : (d <= e)%nat -> trie_ok d t -> trie_ok e t.
Proof.
  revert d e. induction t as [|k v|k t IH|cs w IH] using trie_ind_all; intros d e Hde; cbn [trie_ok]; [done|..].
  - intros [[? ?] ?]. split; [split; [done|lia]|done].
  - intros ([? ?] & ? & ? & ?). split; [split; [done|lia]|]. split; [done|]. split; [done|]. eapply IH; [|done]. lia.
  - rewrite !foldr_Forall. intros (? & ? & Hc). split; [done|]. split; [done|]. rewrite Forall_forall in *.
    intros c Hin. destruct (Hc c Hin) as [->|[? ?]]; [by left|right]. split; [lia|]. eapply (IH c Hin); [|done]. lia.
Qed.

Section Spec.
  Context `{Sha3} `{!Sha3Range}.

(** ** Encoding *)

Definition ref_item (it : item) : item :=
  if lenZ (encode it) <? 32 then it else Str (h256_bytes (sha3 (encode it))).
Fixpoint item_of (t : trie) : item :=
  match t with
  | Null => Str []
  | Leaf k v => Lst [Str (hp true k); Str v]
  | Ext k c => Lst [Str (hp false k); ref_item (item_of c)]
  | Branch cs w => Lst (map (fun c => ref_item (item_of c)) cs ++ [Str w])
  end.
Definition enc (t : trie) : list Z := encode (item_of t).
Definition ref (t : trie) : item := ref_item (item_of t).

Definition items_of (t : trie) : list item :=
  match t with
  | Null => []
  | Leaf k v => [Str (hp true k); Str v]
  | Ext k c => [Str (hp false k); ref c]
  | Branch cs w => map ref cs ++ [Str w]
  end.

Lemma enc_node t : t <> Null -> enc t = encode (Lst (items_of t)).
Proof. by destruct t. Qed.

Lemma hash_small h : small (Str (h256_bytes h)).
Proof. destruct (h256_bytes_facts h). apply small_str; [done|lia]. Qed.

Lemma hp_small leaf k : nibble_list k -> (length k <= max_depth)%nat -> small (Str (hp leaf k)).
Proof. intros Hk Hl. destruct (hp_bytes leaf k Hk). apply small_str; [done|unfold lenZ in *; lia]. Qed.

Lemma val_small v : val_ok v -> small (Str v).
Proof. intros [Hb Hl]. apply small_str; [done|lia]. Qed.

Lemma item_of_ok d t : (d <= max_depth)%nat -> trie_ok d t -> item_ok (item_of t) /\ small (ref t) /\ (t <> Null -> node_items (items_of t)).
Proof.
  revert d. induction t as [|k v|k t IH|cs w IH] using trie_ind_all; intros d Hd Hok.
  - split; [by repeat constructor|]. split; [by apply small_str|done].
  - destruct Hok as ([Hk Hkl] & Hv). assert (node_items [Str (hp true k); Str v]) as Hn.
    { constructor; [|by split]. apply Forall_cons; split; [apply hp_small; [done|lia]|]. by apply Forall_singleton, val_small. }
    enough (small (ref (Leaf k v))) by (split; [by apply (node_item_ok [Str (hp true k); Str v])|by split]).
    unfold ref, ref_item. destruct (Z.ltb_spec (lenZ (encode (item_of (Leaf k v)))) 32); [|apply hash_small].
    split; [by apply (node_item_ok [Str (hp true k); Str v])|lia].
  - destruct Hok as ([Hk Hkl] & _ & _ & Hc). destruct (IH (d - length k)%nat ltac:(lia) Hc) as (_ & Hs & _).
    assert (node_items [Str (hp false k); ref t]) as Hn.
    { constructor; [|by split]. apply Forall_cons; split; [apply hp_small; [done|lia]|]. by apply Forall_singleton. }
    enough (small (ref (Ext k t))) by (split; [by apply (node_item_ok [Str (hp false k); ref t])|by split]).
    unfold ref, ref_item. destruct (Z.ltb_spec (lenZ (encode (item_of (Ext k t)))) 32); [|apply hash_small].
    split; [by apply (node_item_ok [Str (hp false k); ref t])|lia].
  - rewrite trie_ok_branch in Hok. destruct Hok as (Hl & Hw & Hcs).
    assert (Forall small (map ref cs)) as Hs.
    { apply Forall_map, Forall_forall. intros c Hc. rewrite Forall_forall in IH, Hcs.
      destruct (Hcs c Hc) as [->|[Hpos Hok]]; [apply small_str; [done|unfold lenZ; cbn; lia]|]. by destruct (IH c Hc (d - 1)%nat ltac:(lia) Hok) as (_ & ? & _). }
    assert (node_items (map ref cs ++ [Str w])) as Hn.
    { constructor; [apply Forall_app; split; [done|]; apply Forall_singleton; by apply val_small|].
      rewrite lenZ_app. unfold lenZ. rewrite length_map, Hl. cbn. lia. }
    enough (small (ref (Branch cs w))) by (split; [by apply (node_item_ok (map ref cs ++ [Str w]))|by split]).
    unfold ref, ref_item. destruct (Z.ltb_spec (lenZ (encode (item_of (Branch cs w)))) 32); [|apply hash_small].
    split; [by apply (node_item_ok (map ref cs ++ [Str w]))|lia].
Qed.

Section Ok.
  Context (d : nat) (t : trie) (Hd : (d <= max_depth)%nat) (Hok : trie_ok d t).

Lemma ref_small : small (ref t).
Proof. by destruct (item_of_ok d t Hd Hok) as (_ & ? & _). Qed.

Lemma node_ok : t <> Null -> node_items (items_of t).
Proof. by destruct (item_of_ok d t Hd Hok) as (_ & _ & ?). Qed.

Lemma enc_isEmpty : isEmpty (enc t) = bool_decide (t = Null).
Proof.
  destruct (decide (t = Null)) as [E|E]; [subst; done|]. rewrite bool_decide_eq_false_2 by done. rewrite enc_node by done.
  by apply node_not_empty, node_ok.
Qed.

Lemma enc_isNull : isNull (enc t) = false.
Proof.
  destruct (decide (t = Null)) as [E|E]; [subst; done|]. rewrite enc_node by done. by apply node_isNull, node_ok.
Qed.

Lemma enc_mkRLP : mkRLP VeryStrict (enc t) = Value (enc t).
Proof.
  destruct (decide (t = Null)) as [E|E]; [subst; done|]. rewrite enc_node by done. by apply node_mkRLP, node_ok.
Qed.

Lemma enc_length : 1 <= lenZ (enc t) <= 2 ^ 42.
Proof.
  destruct (decide (t = Null)) as [E|E]; [subst; by cbn|]. rewrite enc_node by done. by apply node_length, node_ok.
Qed.

(** How a parent holds the node. *)
Lemma ref_short : lenZ (enc t) < 32 -> encode (ref t) = enc t /\ isList (enc t) = negb (bool_decide (t = Null)).
Proof.
  intros Hs. unfold ref, ref_item. fold (enc t). destruct (Z.ltb_spec (lenZ (enc t)) 32); [|lia]. split; [done|].
  destruct (decide (t = Null)) as [E|E]; [by subst|]. rewrite bool_decide_eq_false_2 by done. rewrite enc_node by done.
  by apply node_isList, node_ok.
Qed.

Lemma ref_long : 32 <= lenZ (enc t) ->
  encode (ref t) = encode (Str (h256_bytes (sha3 (enc t)))) /\ isList (encode (ref t)) = false /\ isData (encode (ref t)) = true /\
  isEmpty (encode (ref t)) = false /\ toHash 32 Strict (encode (ref t)) = Value (h256_bytes (sha3 (enc t))) /\ t <> Null.
Proof.
  intros Hl. assert (t <> Null) by (intros E; subst; by vm_compute in Hl).
  unfold ref, ref_item. fold (enc t). destruct (Z.ltb_spec (lenZ (enc t)) 32); [lia|].
  destruct (h256_bytes_facts (sha3 (enc t))) as [Hb Hlen]. split; [done|]. split; [apply str_isList; [done|lia]|].
  split; [apply str_isData; [done|lia]|]. split; [|split; [by apply toHash_encode|done]].
  rewrite str_isEmpty by (done || lia). apply bool_decide_eq_false. intros E. by rewrite E in Hlen.
Qed.

Lemma ref_isEmpty : isEmpty (encode (ref t)) = bool_decide (t = Null).
Proof.
  destruct (Z.lt_ge_cases (lenZ (enc t)) 32) as [Hs|Hl].
  - destruct (ref_short Hs) as [-> _]. apply enc_isEmpty.
  - destruct (ref_long Hl) as (_ & _ & _ & -> & _ & ?). by rewrite bool_decide_eq_false_2.
Qed.
End Ok.

Lemma h256_value h : is_u256 h -> fromBigEndian (h256_bytes h) = h.
Proof. intros Hh. by apply fromBigEndian_toBigEndian. Qed.
End Spec.
