(* ===== verification/TrieNodes.v ===== *)
(** * The transformations of single nodes

    What the functions of [GenericTrieDB] that look at one node return, and what
    they leave in the database: a tree is [kept] when every node below it, and
    the node itself if its parent holds its hash, can be looked up. *)
From stdpp Require Import base list.
From Stdlib Require Import ZArith Lia.
From S2P Require Import Prelude Words Result Account Rlp RlpSpec RlpRead RlpTheorems RlpInt.
From S2P Require Import StateMonad TrieCommon TrieKeys NodeDB TrieDB TrieItems TrieSpec.
Open Scope prog_scope.

(** ** Reading *)

Section Pair.
  Context (leaf : bool) (k : list Z) (x : item).
  Context (Hk : nibble_list k) (Hl : (length k <= max_depth)%nat) (Hx : small x).
  Notation pair := (encode (Lst [Str (hp leaf k); x])).

Lemma pair_items : node_items [Str (hp leaf k); x].
Proof. constructor; [|by split]. apply Forall_cons; split; [by apply hp_small|]. by apply Forall_singleton. Qed.

Lemma pair_at0 : rlp_at pair 0 = Value (encode (Str (hp leaf k))).
Proof. by rewrite (node_at _ pair_items) by lia. Qed.

Lemma pair_at1 : rlp_at pair 1 = Value (encode x).
Proof. by rewrite (node_at _ pair_items) by lia. Qed.

Lemma pair_payload : payload (encode (Str (hp leaf k))) = Value (hp leaf k).
Proof. destruct (hp_bytes leaf k Hk). apply str_payload; [done|unfold lenZ in *; lia]. Qed.

Lemma pair_count : itemCount pair = Value 2.
Proof. exact (node_itemCount _ pair_items). Qed.

Lemma pair_two : two_or_seventeen pair = pret 2.
Proof. unfold two_or_seventeen. rewrite pair_count, (node_isList _ pair_items). done. Qed.

Lemma pair_is_two : is_two_item pair = pret tt.
Proof. unfold is_two_item. rewrite pair_count, (node_isList _ pair_items). done. Qed.

Lemma pair_leaf : isLeaf pair = Value leaf.
Proof.
  unfold isLeaf. rewrite pair_count, (node_isList _ pair_items). cbn [rbind]. change (assert_ _) with (@Value rlp_error _ tt). cbn [rbind].
  rewrite pair_at0. cbn [rbind]. rewrite pair_payload. cbn [rbind]. rewrite hp_cons. change ((?a :: ?l) @@ 0) with (Some a). cbn [rget rbind].
  by rewrite hp_head_leaf.
Qed.

Lemma pair_key : keyOf pair = Value (keyOf_bytes (hp leaf k)).
Proof. unfold keyOf. rewrite pair_at0. cbn [rbind]. rewrite pair_payload. done. Qed.

Lemma pair_slice : slice_ok (keyOf_bytes (hp leaf k)) /\ nibbles (keyOf_bytes (hp leaf k)) = k.
Proof. apply keyOf_hp; [done|]. unfold lenZ. lia. Qed.
End Pair.

Lemma branch_count l : node_items l -> lenZ l = 17 -> itemCount (encode (Lst l)) = Value 17.
Proof. intros Hl <-. by apply node_itemCount. Qed.

Lemma branch_seventeen l : node_items l -> lenZ l = 17 -> two_or_seventeen (encode (Lst l)) = pret 17.
Proof. intros Hl Hc. unfold two_or_seventeen. rewrite branch_count, (node_isList _ Hl) by done. done. Qed.

(** ** The loops over the items of a branch *)

Section Items.
  Context (L : list item) (HL : node_items L) (Hc : length L = 17%nat) (f : list Z -> RLPStream -> prog (option RLPStream)).

Lemma for_items_step c i n l it : L !! i = Some it -> n <> Z.of_nat i -> Forall small l -> lenZ l < 17 ->
  for_items (S c) (Z.of_nat i) n (encode (Lst L)) f (partial 17 l)
  = for_items c (Z.of_nat (S i)) n (encode (Lst L)) f (partial 17 (l ++ [it])).
Proof.
  intros Hit Hn Hs Hlen. pose proof (lookup_lt_Some _ _ _ Hit). cbn [for_items]. rewrite (node_at _ HL) by lia.
  rewrite Nat2Z.id, list_lookup_fmap, Hit. cbn [default fmap option_fmap option_map from_option id].
  change (pbind (plift (Value ?a)) ?g) with (g a). cbv beta. destruct (Z.eqb_spec (Z.of_nat i) n); [lia|].
  assert (small it) as Hsm by (eapply Forall_lookup_1; [apply HL|done]).
  rewrite partial_rlp by (done || lia). change (pbind (pbind (plift (Value ?a)) ?g) ?h) with (pbind (g a) h). cbv beta.
  change (pbind (pret ?a) ?g) with (g a). cbv beta. f_equal. lia.
Qed.

(** No item is special. *)
Lemma for_items_copy c i n l : (i + c <= 17)%nat -> (forall j, (i <= j < i + c)%nat -> n <> Z.of_nat j) -> Forall small l -> length l = i ->
  for_items c (Z.of_nat i) n (encode (Lst L)) f (partial 17 l) = pret (Some (partial 17 (l ++ take c (drop i L)))).
Proof.
  revert i l. induction c as [|c IH]; intros i l Hi Hn Hs Hlen; [cbn; by rewrite app_nil_r|].
  destruct (lookup_lt_is_Some_2 L i) as [it Hit]; [lia|]. assert (small it) as Hsm by (eapply Forall_lookup_1; [apply HL|done]).
  rewrite (for_items_step c i n l it) by (done || (unfold lenZ; lia) || (apply Hn; lia)).
  rewrite IH; [|lia|intros j Hj; apply Hn; lia|apply Forall_app; by split; [|apply Forall_singleton]|rewrite length_app; cbn; lia].
  rewrite <- app_assoc, (drop_S L it i) by done. done.
Qed.

(** The items before the special one are copied. *)
Lemma for_items_prefix c i n l : (i <= n)%nat -> (n < i + c)%nat -> (i + c <= 17)%nat -> Forall small l -> length l = i ->
  for_items c (Z.of_nat i) (Z.of_nat n) (encode (Lst L)) f (partial 17 l)
  = for_items (c - (n - i)) (Z.of_nat n) (Z.of_nat n) (encode (Lst L)) f (partial 17 (l ++ take (n - i) (drop i L))).
Proof.
  revert i l. induction c as [|c IH]; intros i l H1 H2 H3 Hs Hlen; [lia|].
  destruct (decide (i = n)) as [->|Hne]; [rewrite Nat.sub_diag, take_0, app_nil_r; done|].
  destruct (lookup_lt_is_Some_2 L i) as [it Hit]; [lia|]. assert (small it) as Hsm by (eapply Forall_lookup_1; [apply HL|done]).
  rewrite (for_items_step c i _ l it) by (done || lia || (unfold lenZ; lia)).
  rewrite IH; [|lia..|apply Forall_app; by split; [|apply Forall_singleton]|rewrite length_app; cbn; lia].
  rewrite <- app_assoc, (drop_S L it i) by done. replace (n - i)%nat with (S (n - S i)) by lia. done.
Qed.

(** The item at [n] goes to [f]. *)
Lemma for_items_at n it : (n < 17)%nat -> L !! n = Some it ->
  for_items 17 0 (Z.of_nat n) (encode (Lst L)) f (partial 17 []) =
  (s <- f (encode it) (partial 17 (take n L)) ;;
   match s with
   | Some s => for_items (16 - n) (Z.of_nat (S n)) (Z.of_nat n) (encode (Lst L)) f s
   | None => pret None
   end).
Proof.
  intros Hn Hit. change 0 with (Z.of_nat 0). rewrite (for_items_prefix 17 0 n []) by (done || lia). rewrite Nat.sub_0_r.
  cbn [app drop]. replace (17 - n)%nat with (S (16 - n)) by lia. cbn [for_items]. rewrite (node_at _ HL) by lia.
  rewrite Nat2Z.id, list_lookup_fmap, Hit. cbn [default fmap option_fmap option_map from_option id].
  change (pbind (plift (Value ?a)) ?g) with (g a). cbv beta. rewrite Z.eqb_refl. by replace (Z.of_nat n + 1) with (Z.of_nat (S n)) by lia.
Qed.

Lemma for_items_rest n l : Forall small l -> length l = S n -> (n < 17)%nat ->
  for_items (16 - n) (Z.of_nat (S n)) (Z.of_nat n) (encode (Lst L)) f (partial 17 l) = pret (Some (partial 17 (l ++ drop (S n) L))).
Proof.
  intros Hs Hl Hn. rewrite for_items_copy; [|lia|lia|done|done]. do 4 f_equal. apply take_ge. rewrite length_drop. lia.
Qed.
End Items.

Lemma for_empty_step c i b f l : (i <> b) -> Forall small l -> lenZ l < 17 ->
  for_empty (S c) i b f (partial 17 l) = for_empty c (i + 1) b f (partial 17 (l ++ [Str []])).
Proof.
  intros Hb Hs Hl. cbn [for_empty]. destruct (Z.eqb_spec i b); [done|]. rewrite partial_string; [done|done|by apply small_str|lia].
Qed.

Lemma for_empty_copy c i b f l : (i + c <= 17)%nat -> (forall j, (i <= j < i + c)%nat -> b <> Z.of_nat j) -> Forall small l -> length l = i ->
  for_empty c (Z.of_nat i) b f (partial 17 l) = pret (partial 17 (l ++ replicate c (Str []))).
Proof.
  revert i l. induction c as [|c IH]; intros i l Hi Hn Hs Hlen; [cbn; by rewrite app_nil_r|].
  assert (small (Str [])) as Hsm by (by apply small_str).
  rewrite for_empty_step; [|intros E; by apply (Hn i); [lia|]|done|unfold lenZ; lia].
  replace (Z.of_nat i + 1) with (Z.of_nat (S i)) by lia.
  rewrite IH; [|lia|intros j Hj; apply Hn; lia|apply Forall_app; by split; [|apply Forall_singleton]|rewrite length_app; cbn; lia].
  by rewrite <- app_assoc.
Qed.

Lemma for_empty_at n f : (n < 16)%nat ->
  for_empty 16 0 (Z.of_nat n) f (partial 17 []) =
  (s <- f (partial 17 (replicate n (Str []))) ;; for_empty (15 - n) (Z.of_nat (S n)) (Z.of_nat n) f s).
Proof.
  intros Hn. enough (forall i l, (i <= n)%nat -> l = replicate i (Str []) ->
    for_empty (16 - i) (Z.of_nat i) (Z.of_nat n) f (partial 17 l) =
    (s <- f (partial 17 (replicate n (Str []))) ;; for_empty (15 - n) (Z.of_nat (S n)) (Z.of_nat n) f s)) as He.
  { exact (He 0%nat [] ltac:(lia) eq_refl). }
  intros i l Hi ->. remember (n - i)%nat as m eqn:Hm. revert i Hi Hm. induction m as [|m IH]; intros i Hi Hm.
  - replace i with n by lia. replace (16 - n)%nat with (S (15 - n)) by lia. cbn [for_empty]. rewrite Z.eqb_refl.
    by replace (Z.of_nat n + 1) with (Z.of_nat (S n)) by lia.
  - replace (16 - i)%nat with (S (16 - S i)) by lia.
    rewrite for_empty_step; [|lia|apply Forall_replicate; by apply small_str|unfold lenZ; rewrite length_replicate; lia].
    replace (Z.of_nat i + 1) with (Z.of_nat (S i)) by lia. rewrite <- (replicate_S_end i). apply IH; lia.
Qed.

(** ** The transformations *)

Section Nodes.
  Context {DB : Type} `{!NodeDB DB} `{!NodeDBLaws DB} `{Sha3} `{!Sha3Range}.

(** The parent has the node, or its hash and the database the node. *)
Definition held (db : DB) (t : trie) : Prop := 32 <= lenZ (enc t) -> db_node db (sha3 (enc t)) = enc t.
Fixpoint stored (db : DB) (t : trie) : Prop :=
  match t with
  | Null | Leaf _ _ => True
  | Ext _ c => stored db c /\ held db c
  | Branch cs _ => foldr (fun c P => (stored db c /\ held db c) /\ P) True cs
  end.
Definition kept (db : DB) (t : trie) : Prop := stored db t /\ held db t.

Lemma stored_branch db cs w : stored db (Branch cs w) <-> Forall (kept db) cs.
Proof. cbn [stored]. apply (foldr_Forall (kept db)). Qed.

Lemma kept_null db : kept db Null.
Proof. split; [done|]. intros Hl. by vm_compute in Hl. Qed.

Lemma held_le db db' t : le db db' -> held db t -> held db' t.
Proof.
  intros Hle Hh Hl. eapply le_has; [done| |by apply Hh]. intros E. rewrite E in Hl. by vm_compute in Hl.
Qed.

Lemma stored_grows db db' t : le db db' -> stored db t -> stored db' t.
Proof.
  intros Hle. induction t as [|k v|k t IH|cs w IH] using trie_ind_all; [done|done|..].
  - intros [Hs Hh]. split; [auto|by eapply held_le].
  - rewrite !stored_branch. intros Hs. rewrite Forall_forall in *. intros c Hc. destruct (Hs c Hc). split; [auto|by eapply held_le].
Qed.

Lemma kept_le db db' t : le db db' -> kept db t -> kept db' t.
Proof. intros Hle [Hs Hh]. split; [by eapply stored_grows|by eapply held_le]. Qed.

Section Ok.
  Context (d : nat) (t : trie) (Hd : (d <= max_depth)%nat) (Hok : trie_ok d t).

(** Looking a node up by the hash its parent has. *)
Lemma ends_node_of {A} (k : list Z -> prog A) db Q :
  held db t -> 32 <= lenZ (enc t) -> ends (k (enc t)) db Q -> ends (pbind (node_of (encode (ref t))) k) db Q.
Proof.
  intros Hh Hl Hk. destruct (ref_long d t Hd Hok Hl) as (_ & _ & _ & _ & Hhash & _). unfold node_of. rewrite Hhash.
  change (pbind (plift (Value ?a)) ?g) with (g a). cbv beta. rewrite h256_value by apply sha3_range.
  unfold node. cbn [pbind]. apply (ends_lookup _ (enc t)); [by apply Hh|]. change (pbind (pret ?a) ?g) with (g a). cbv beta.
  rewrite (enc_mkRLP d t Hd Hok). exact Hk.
Qed.

Lemma ends_streamNode {A} (k : RLPStream -> prog A) n l db Q : Forall small l -> lenZ l < n <= 17 ->
  (forall db', le db db' -> held db' t -> ends (k (partial n (l ++ [ref t]))) db' Q) ->
  ends (pbind (streamNode (enc t) (partial n l)) k) db Q.
Proof.
  intros Hs Hn Hk. pose proof (ref_small d t Hd Hok) as Hsm. unfold streamNode. destruct (Z.ltb_spec (lenZ (enc t)) 32) as [Hl|Hl].
  - destruct (ref_short d t Hd Hok Hl) as [E _]. rewrite <- E. pose proof (partial_rlp n l (ref t) Hs Hsm Hn) as Hp.
    unfold append_rlp in Hp. rewrite Hp. apply Hk; [apply le_refl|]. intros ?. lia.
  - destruct (ref_long d t Hd Hok Hl) as (E & _). unfold forceInsertNode. cbn [pbind].
    apply ends_insert; [intros E'; rewrite E' in Hl; by vm_compute in Hl|]. intros db' Hle Hnode.
    change (pbind (pret ?a) ?g) with (g a). cbv beta.
    assert (ref t = Str (h256_bytes (sha3 (enc t)))) as Er.
    { unfold ref, ref_item. fold (enc t). by destruct (Z.ltb_spec (lenZ (enc t)) 32); [lia|]. }
    rewrite partial_string; [|done|rewrite <- Er; done|done]. rewrite <- Er. apply Hk; [done|]. by intros _.
Qed.
End Ok.

Lemma ends_killNode {A} (k : prog A) x h db Q : (forall db', le db db' -> ends k db' Q) -> ends (pbind (killNode x h) (fun _ => k)) db Q.
Proof.
  intros Hk. unfold killNode. destruct (32 <=? lenZ x); [|apply Hk, le_refl]. by apply ends_kill.
Qed.

Lemma ends_forceKill {A} (k : prog A) h db Q : (forall db', le db db' -> ends k db' Q) -> ends (pbind (forceKillNode h) (fun _ => k)) db Q.
Proof. intros Hk. by apply ends_kill. Qed.

(** The two items of a leaf or an extension. *)
Inductive is_pair : trie -> bool -> list Z -> item -> Prop :=
| pair_of_leaf k v : is_pair (Leaf k v) true k (Str v)
| pair_of_ext k c : is_pair (Ext k c) false k (ref c).

Definition with_key (k : list Z) (t : trie) : trie :=
  match t with Leaf _ v => Leaf k v | Ext _ c => Ext k c | _ => t end.

Record pair_facts (t : trie) (leaf : bool) (k : list Z) (x : item) : Prop := {
  pf_enc : forall k', enc (with_key k' t) = encode (Lst [Str (hp leaf k'); x]);
  pf_self : with_key k t = t;
  pf_nibbles : nibble_list k;
  pf_length : (length k <= max_depth)%nat;
  pf_small : small x;
  pf_stored : forall db k', stored db t -> stored db (with_key k' t);
  pf_null : t <> Null
}.

Lemma is_pair_facts d t leaf k x : is_pair t leaf k x -> (d <= max_depth)%nat -> trie_ok d t -> pair_facts t leaf k x.
Proof.
  intros [k' v|k' c] Hd; cbn [trie_ok].
  - intros ([Hk Hl] & Hv). constructor; try done; [lia|by apply val_small].
  - intros ([Hk Hl] & _ & _ & Hc). constructor; try done; [lia|]. eapply (ref_small (d - length k')); [lia|done].
Qed.

Section PairNode.
  Context (t : trie) (leaf : bool) (k : list Z) (x : item) (Hp : pair_facts t leaf k x).

Lemma pf_enc_self : enc t = encode (Lst [Str (hp leaf k); x]).
Proof. rewrite <- (pf_self _ _ _ _ Hp) at 1. apply Hp. Qed.

Lemma pf_items : node_items [Str (hp leaf k); x].
Proof. destruct Hp. by apply pair_items. Qed.

Lemma enc_two : two_or_seventeen (enc t) = pret 2.
Proof. destruct Hp. rewrite pf_enc_self. by apply pair_two. Qed.

Lemma enc_is_two : is_two_item (enc t) = pret tt.
Proof. destruct Hp. rewrite pf_enc_self. by apply pair_is_two. Qed.

Lemma enc_count : itemCount (enc t) = Value 2.
Proof. destruct Hp. rewrite pf_enc_self. by apply pair_count. Qed.

Lemma enc_leaf : isLeaf (enc t) = Value leaf.
Proof. destruct Hp. rewrite pf_enc_self. by apply pair_leaf. Qed.

Lemma enc_key : keyOf (enc t) = Value (keyOf_bytes (hp leaf k)).
Proof. destruct Hp. rewrite pf_enc_self. by apply pair_key. Qed.

Lemma enc_at0 : rlp_at (enc t) 0 = Value (encode (Str (hp leaf k))).
Proof. destruct Hp. rewrite pf_enc_self. by apply pair_at0. Qed.

Lemma enc_at1 : rlp_at (enc t) 1 = Value (encode x).
Proof. destruct Hp. rewrite pf_enc_self. by apply pair_at1. Qed.

Lemma key_slice : slice_ok (keyOf_bytes (hp leaf k)) /\ nibbles (keyOf_bytes (hp leaf k)) = k.
Proof. destruct Hp. by apply pair_slice. Qed.

Lemma key_small : small (Str (hp leaf k)).
Proof. destruct Hp. by apply hp_small. Qed.
End PairNode.

(** ** [place], [cleve], [graft], [merge], [branch] *)

Lemma place_null (s : NibbleSlice) v db (Q : list Z -> DB -> Prop) : slice_ok s -> (length (nibbles s) <= max_depth)%nat -> val_ok v ->
  (forall db', le db db' -> Q (enc (Leaf (nibbles s) v)) db') -> ends (place (enc Null) s v) db Q.
Proof.
  intros Hs Hl Hv HQ. unfold place. apply ends_killNode. intros db' Hle. change (isEmpty (enc Null)) with true. cbv iota.
  pget (hexPrefixEncode_all s true Hs). pose proof (slice_nibbles s Hs) as Hn.
  apply ends_lift with (a := enc (Leaf (nibbles s) v)); [|by apply HQ]. unfold enc. cbn [item_of].
  apply rlpList2_spec.
  - apply partial_string; [constructor|by apply hp_small|done].
  - apply partial_string; [by apply Forall_singleton, hp_small|by apply val_small|done].
Qed.

Lemma place_leaf d k v0 (s : NibbleSlice) v db (Q : list Z -> DB -> Prop) : (d <= max_depth)%nat -> trie_ok d (Leaf k v0) -> val_ok v ->
  (forall db', le db db' -> Q (enc (Leaf k v)) db') -> ends (place (enc (Leaf k v0)) s v) db Q.
Proof.
  intros Hd Hok Hv HQ. pose proof (is_pair_facts d _ _ _ _ (pair_of_leaf k v0) Hd Hok) as Hp.
  unfold place. apply ends_killNode. intros db' Hle. rewrite (enc_isEmpty d _ Hd Hok). cbn [bool_decide decide_rel].
  rewrite bool_decide_eq_false_2 by done. pget (enc_two _ _ _ _ Hp). change (2 =? 2) with true. cbv iota.
  pget (enc_at0 _ _ _ _ Hp). apply ends_lift with (a := enc (Leaf k v)); [|by apply HQ]. unfold enc. cbn [item_of].
  pose proof (key_small _ _ _ _ Hp) as Hk. apply rlpList2_spec.
  - by apply partial_rlp.
  - apply partial_string; [by apply Forall_singleton|by apply val_small|done].
Qed.

Lemma branch_items d cs w : (d <= max_depth)%nat -> trie_ok d (Branch cs w) ->
  node_items (map ref cs ++ [Str w]) /\ length (map ref cs ++ [Str w]) = 17%nat /\ Forall small (map ref cs) /\ length (map ref cs) = 16%nat.
Proof.
  intros Hd Hok. pose proof (node_ok d (Branch cs w) Hd Hok ltac:(done)) as Hn. apply trie_ok_branch in Hok as (Hl & _ & _).
  split; [exact Hn|]. rewrite length_app, length_map, Hl. split; [done|]. split; [|done].
  by apply (proj1 (proj1 (Forall_app _ _ _) (ni_small _ Hn))).
Qed.

(** The sixteen children, then a value. *)
Lemma copy_children {A} (g : option RLPStream -> prog A) cs w f : node_items (map ref cs ++ [Str w]) -> length (map ref cs) = 16%nat ->
  Forall small (map ref cs) ->
  pbind (for_items 16 0 255 (encode (Lst (map ref cs ++ [Str w]))) f (partial 17 [])) g = g (Some (partial 17 (map ref cs))).
Proof.
  intros Hn Hl Hs. pose proof (for_items_copy (map ref cs ++ [Str w]) Hn) as Hc. rewrite length_app, Hl in Hc.
  specialize (Hc eq_refl f 16%nat 0%nat 255 [] ltac:(lia) ltac:(lia) ltac:(constructor) eq_refl).
  change (Z.of_nat 0) with 0 in Hc. rewrite Hc. pstep. rewrite drop_0. by rewrite take_app_length'.
Qed.

Lemma place_branch d cs w (s : NibbleSlice) v db (Q : list Z -> DB -> Prop) :
  (d <= max_depth)%nat -> trie_ok d (Branch cs w) -> val_ok v ->
  (forall db', le db db' -> Q (enc (Branch cs v)) db') -> ends (place (enc (Branch cs w)) s v) db Q.
Proof.
  intros Hd Hok Hv HQ. destruct (branch_items d cs w Hd Hok) as (Hn & Hl17 & Hs & Hl16).
  unfold place. apply ends_killNode. intros db' Hle. rewrite (enc_isEmpty d _ Hd Hok), bool_decide_eq_false_2 by done.
  change (enc (Branch cs w)) with (encode (Lst (map ref cs ++ [Str w]))).
  pget (branch_seventeen _ Hn ltac:(unfold lenZ; lia)). change (17 =? 2) with false. cbv iota.
  pget (partial_nil 17 ltac:(lia)). rewrite copy_children by done.
  assert (lenZ (map ref cs) = 16) as Hl by (unfold lenZ; lia).
  pget (partial_string 17 (map ref cs) v Hs (val_small v Hv) ltac:(lia)).
  apply ends_lift with (a := enc (Branch cs v)); [|by apply HQ]. apply partial_out. rewrite lenZ_app, Hl. done.
Qed.

Lemma ends_cleve {A} (g : list Z -> prog A) t leaf k x d sh db Q : pair_facts t leaf k x -> (0 < sh <= length k)%nat ->
  (d <= max_depth)%nat -> trie_ok d (with_key (drop sh k) t) -> stored db t ->
  (forall db', le db db' -> stored db' (Ext (take sh k) (with_key (drop sh k) t)) ->
    ends (g (enc (Ext (take sh k) (with_key (drop sh k) t)))) db' Q) ->
  ends (pbind (cleve (enc t) (Z.of_nat sh)) g) db Q.
Proof.
  intros Hp Hsh Hd Hok Hst HQ. pose proof (pf_nibbles _ _ _ _ Hp) as Hk. pose proof (pf_length _ _ _ _ Hp) as Hkl.
  destruct (key_slice _ _ _ _ Hp) as [Hslice Hnib]. pose proof (pf_small _ _ _ _ Hp) as Hx.
  assert (slice_size (keyOf_bytes (hp leaf k)) = Z.of_nat (length k)) as Hsize by (rewrite slice_size_spec, Hnib by done; done).
  unfold cleve. apply ends_assoc. apply ends_killNode. intros db1 Hle1. rewrite (enc_is_two _ _ _ _ Hp). pstep.
  rewrite (enc_key _ _ _ _ Hp). pstep. rewrite Hsize.
  destruct (Z.eqb_spec (Z.of_nat sh) 0), (Z.leb_spec (Z.of_nat sh) (Z.of_nat (length k))); try lia. cbn [negb andb assert_]. pstep.
  rewrite (enc_leaf _ _ _ _ Hp). pstep.
  rewrite (hexPrefixEncode_range _ leaf (Z.of_nat sh) (-1) (Z.of_nat (length k))) by (rewrite ?Hnib; unfold lenZ; cbn; (done || lia)).
  pstep. rewrite Hnib, take_ge by (rewrite length_drop; lia). rewrite Nat2Z.id. rewrite (enc_at1 _ _ _ _ Hp). pstep.
  assert (small (Str (hp leaf (drop sh k)))) as Hb by (apply hp_small; [by apply Forall_drop|rewrite length_drop; lia]).
  assert (small (Str (hp false (take sh k)))) as Ht by (apply hp_small; [by apply Forall_take|rewrite length_take; lia]).
  rewrite (rlpList2_spec _ _ (Str (hp leaf (drop sh k))) x); [|by apply partial_string|by apply partial_rlp; [apply Forall_singleton|..]].
  pstep. rewrite (hexPrefixEncode_range _ false 0 (Z.of_nat sh) (Z.of_nat sh)) by (rewrite ?Hnib; unfold lenZ; try case_match; (done || lia)).
  pstep. rewrite Z.sub_0_r, Nat2Z.id, Hnib. change (Z.to_nat 0) with 0%nat. rewrite drop_0.
  rewrite partial_nil by lia. pstep. rewrite partial_string by done. pstep. rewrite <- (pf_enc _ _ _ _ Hp (drop sh k)).
  apply ends_assoc. cbn [app]. eapply (ends_streamNode d); [done|done|by apply Forall_singleton|done|]. intros db2 Hle2 Hheld.
  cbn [app]. rewrite partial_out by done. pstep. apply HQ; [by eapply le_trans|]. split; [|done].
  apply (pf_stored _ _ _ _ Hp). eapply stored_grows; [|done]. by eapply le_trans.
Qed.

(** A branch with one child, or with a value only. *)
Definition nulls : list trie := replicate 16 Null.
Definition one_child (a : Z) (c : trie) : trie := Branch (<[Z.to_nat a := c]> nulls) [].
Definition branch1 (t : trie) : trie :=
  match t with
  | Leaf [] v => Branch nulls v
  | Leaf (a :: r) v => one_child a (Leaf r v)
  | Ext [a] c => one_child a c
  | Ext (a :: r) c => one_child a (Ext r c)
  | _ => t
  end.

Lemma one_child_items n c : (n < 16)%nat ->
  items_of (Branch (<[n := c]> nulls) []) = replicate n (Str []) ++ [ref c] ++ replicate (15 - n) (Str []) ++ [Str []].
Proof.
  intros Hn. cbn [items_of]. unfold nulls. rewrite insert_take_drop by (rewrite length_replicate; lia).
  rewrite take_replicate, drop_replicate, map_app. cbn [map]. rewrite Nat.min_l by lia.
  assert (forall m, map ref (replicate m Null) = replicate m (Str [])) as Hr by (intros m; induction m as [|m IH]; [done|]; cbn; by rewrite IH).
  rewrite !Hr, <- app_assoc. by replace (16 - S n)%nat with (15 - n)%nat by lia.
Qed.

Lemma stored_one_child db n c : kept db c -> stored db (Branch (<[n := c]> nulls) []).
Proof.
  intros Hc. apply stored_branch. apply Forall_insert; [|done]. apply Forall_replicate, kept_null.
Qed.

(** [r] with the new node at [a], and nothing anywhere else. *)
Lemma ends_one_child {A} (g : list Z -> prog A) a c f db Q : is_nibble a -> small (ref c) ->
  (forall l k db', l = replicate (Z.to_nat a) (Str []) -> le db db' ->
     (forall db'', le db' db'' -> kept db'' c -> ends (k (partial 17 (l ++ [ref c]))) db'' Q) ->
     ends (pbind (f (partial 17 l)) k) db' Q) ->
  (forall db', le db db' -> kept db' c -> ends (g (enc (one_child a c))) db' Q) ->
  ends (pbind (pbind (for_empty 16 0 a f (partial 17 [])) (fun r => pbind (plift (append_string [] r)) (fun r => plift (stream_out r)))) g) db Q.
Proof.
  intros Ha Hc Hf Hg. remember (Z.to_nat a) as n eqn:En. assert (a = Z.of_nat n) as -> by lia.
  assert (small (Str [])) as He by (by apply small_str).
  assert (Forall small (replicate n (Str []))) as Hn by (by apply Forall_replicate).
  rewrite for_empty_at by lia. apply ends_assoc, ends_assoc. apply (Hf (replicate n (Str []))); [done|apply le_refl|].
  intros db' Hle Hk.
  assert (Forall small (replicate n (Str []) ++ [ref c])) as Hs by (apply Forall_app; split; [done|by apply Forall_singleton]).
  pose proof (for_empty_copy (15 - n) (S n) (Z.of_nat n) f (replicate n (Str []) ++ [ref c]) ltac:(lia) ltac:(lia) Hs
    ltac:(rewrite length_app, length_replicate; cbn; lia)) as Hcopy.
  assert (Forall small ((replicate n (Str []) ++ [ref c]) ++ replicate (15 - n) (Str []))) as Hs2 by (apply Forall_app; split; [done|by apply Forall_replicate]).
  assert (lenZ ((replicate n (Str []) ++ [ref c]) ++ replicate (15 - n) (Str [])) = 16) as Hlen
    by (unfold lenZ; rewrite !length_app, !length_replicate; cbn; lia).
  rewrite Hcopy. pstep. rewrite partial_string by (done || lia). pstep.
  rewrite partial_out by (rewrite lenZ_app, Hlen; done). pstep.
  assert (encode (Lst (((replicate n (Str []) ++ [ref c]) ++ replicate (15 - n) (Str [])) ++ [Str []])) = enc (one_child (Z.of_nat n) c)) as ->.
  { unfold one_child. rewrite Nat2Z.id, enc_node by done. rewrite one_child_items by lia. by rewrite <- !app_assoc. }
  by apply Hg.
Qed.

Lemma ends_branch {A} (g : list Z -> prog A) t leaf k x d db Q : is_pair t leaf k x -> trie_ok d t -> (d <= max_depth)%nat ->
  stored db t ->
  (forall db', le db db' -> stored db' (branch1 t) -> ends (g (enc (branch1 t))) db' Q) ->
  ends (pbind (branch (enc t)) g) db Q.
Proof.
  intros Hip Hok Hd Hst HQ. pose proof (is_pair_facts d _ _ _ _ Hip Hd Hok) as Hp.
  pose proof (pf_nibbles _ _ _ _ Hp) as Hk. pose proof (pf_length _ _ _ _ Hp) as Hkl. pose proof (pf_small _ _ _ _ Hp) as Hx.
  destruct (key_slice _ _ _ _ Hp) as [Hslice Hnib].
  assert (slice_size (keyOf_bytes (hp leaf k)) = lenZ k) as Hsize by (rewrite slice_size_spec, Hnib by done; done).
  unfold branch. apply ends_assoc. rewrite (enc_is_two _ _ _ _ Hp). pstep. apply ends_assoc. apply ends_killNode. intros db1 Hle1.
  assert (stored db1 t) as Hst1 by (by eapply stored_grows).
  rewrite (enc_key _ _ _ _ Hp). pstep. rewrite partial_nil by lia. pstep.
  rewrite (enc_leaf _ _ _ _ Hp). pstep. rewrite (enc_at1 _ _ _ _ Hp). pstep. rewrite Hsize.
  destruct k as [|a r].
  - change (lenZ [] =? 0) with true. cbv iota. inversion Hip; subst; [|by destruct Hok as (_ & ? & _)]. cbn [assert_]. pstep.
    pose proof (for_empty_copy 16 0 255 pret [] ltac:(lia) ltac:(lia) ltac:(constructor) eq_refl) as Hcopy. change (Z.of_nat 0) with 0 in Hcopy.
    rewrite Hcopy. pstep. cbn [app].
    assert (Forall small (replicate 16 (Str []))) as Hs by (apply Forall_replicate; by apply small_str).
    rewrite partial_rlp by done. pstep. rewrite partial_out by done. pstep. apply HQ; [done|]. apply stored_branch, Forall_replicate, kept_null.
  - rewrite lenZ_cons. pose proof (lenZ_nonneg r). destruct (Z.eqb_spec (1 + lenZ r) 0); [lia|]. cbv iota.
    rewrite (slice_index_spec _ Hslice 0 a) by (by rewrite Hnib). pstep.
    pose proof (Forall_inv Hk) as Ha. cbv beta in Ha. pose proof (Forall_inv_tail Hk) as Hr.
    destruct (mid_spec _ Hslice 1 ltac:(rewrite Hnib, lenZ_cons; lia)) as [Hmid Hmn]. rewrite Hnib in Hmn. change (Z.to_nat 1) with 1%nat in Hmn. cbn [drop] in Hmn. rewrite drop_0 in Hmn.
    cbn [length] in Hkl.
    inversion Hip as [k' v E1 E2 E3 E4|k' c E1 E2 E3 E4]; subst t leaf k' x.
    + (* a leaf *)
      cbn [orb]. apply (ends_one_child g a (Leaf r v)); [done| | |].
      * eapply (ref_small d); [done|]. cbn [trie_ok] in *. destruct Hok as ([? ?] & ?). split; [|done]. split; [done|cbn [length] in *; lia].
      * intros l k db' -> Hle' Hk'. apply ends_assoc. rewrite hexPrefixEncode_all, Hmn by done. pstep. apply ends_assoc.
        rewrite (rlpList2_spec _ _ (Str (hp true r)) (Str v));
          [|apply partial_string; [constructor|apply hp_small; [done|lia]|done]|apply partial_rlp; [apply Forall_singleton, hp_small; [done|lia]|done|done]].
        pstep. eapply (ends_streamNode d (Leaf r v)); [done| |apply Forall_replicate; by apply small_str|unfold lenZ; rewrite length_replicate; lia|].
        { cbn [trie_ok] in *. destruct Hok as ([? ?] & ?). split; [|done]. split; [done|cbn [length] in *; lia]. }
        intros db2 Hle2 Hh. apply Hk'; [done|]. by split.
      * intros db' Hle' Hkept. apply HQ; [by eapply le_trans|]. by apply stored_one_child.
    + destruct Hok as ([? ?] & _ & Hcn & Hc). destruct Hst1 as [Hcs Hch]. destruct r as [|b r].
      * (* an extension of one nibble: its child *)
        change (false || (1 <? 1 + lenZ [])) with false. cbv iota. apply (ends_one_child g a c); [done|done| |].
        -- intros l k db' -> Hle' Hk'. rewrite partial_rlp; [|apply Forall_replicate; by apply small_str|done|unfold lenZ; rewrite length_replicate; lia].
           pstep. apply Hk'; [apply le_refl|]. split; [by eapply stored_grows|by eapply held_le].
        -- intros db' Hle' Hkept. apply HQ; [by eapply le_trans|]. by apply stored_one_child.
      * rewrite lenZ_cons. pose proof (lenZ_nonneg r). destruct (Z.ltb_spec 1 (1 + (1 + lenZ r))); [|lia]. cbn [orb].
        assert (trie_ok d (Ext (b :: r) c)) as Hok'.
        { cbn [trie_ok length] in *. split; [split; [done|cbn; lia]|]. split; [done|]. split; [done|].
          eapply trie_ok_mono; [|exact Hc]. lia. }
        apply (ends_one_child g a (Ext (b :: r) c)); [done| | |].
        -- by eapply (ref_small d).
        -- intros l k db' -> Hle' Hk'. apply ends_assoc. rewrite hexPrefixEncode_all, Hmn by done. pstep. apply ends_assoc.
           rewrite (rlpList2_spec _ _ (Str (hp false (b :: r))) (ref c));
             [|apply partial_string; [constructor|apply hp_small; [done|lia]|done]|apply partial_rlp; [apply Forall_singleton, hp_small; [done|lia]|done|done]].
           pstep. eapply (ends_streamNode d (Ext (b :: r) c)); [done|done|apply Forall_replicate; by apply small_str|unfold lenZ; rewrite length_replicate; lia|].
           intros db2 Hle2 Hh. apply Hk'; [done|]. split; [|done]. split.
           ++ eapply stored_grows; [|exact Hcs]. by eapply le_trans.
           ++ eapply held_le; [|exact Hch]. by eapply le_trans.
        -- intros db' Hle' Hkept. apply HQ; [by eapply le_trans|]. by apply stored_one_child.
Qed.

(** An extension of a leaf or of an extension becomes one node. *)
Lemma ends_graft {A} (g : list Z -> prog A) k0 c leaf k1 x d e db Q : is_pair c leaf k1 x -> trie_ok d (Ext k0 c) -> trie_ok e c ->
  (d <= max_depth)%nat -> (e <= max_depth)%nat -> (length (k0 ++ k1) <= max_depth)%nat -> kept db c ->
  (forall db', le db db' -> ends (g (enc (with_key (k0 ++ k1) c))) db' Q) ->
  ends (pbind (graft (enc (Ext k0 c))) g) db Q.
Proof.
  intros Hip Hok Hoc Hd He Hlen [Hcs Hch] HQ.
  pose proof (is_pair_facts d _ _ _ _ (pair_of_ext k0 c) Hd Hok) as Hp. pose proof (is_pair_facts e _ _ _ _ Hip He Hoc) as Hpc.
  pose proof (pf_nibbles _ _ _ _ Hp) as Hk0. pose proof (pf_nibbles _ _ _ _ Hpc) as Hk1. pose proof (pf_small _ _ _ _ Hpc) as Hx.
  destruct (key_slice _ _ _ _ Hp) as [Hs0 Hn0]. destruct (key_slice _ _ _ _ Hpc) as [Hs1 Hn1].
  assert (forall db', le db db' -> ends (pbind (n <- pret (enc c) ;;
    c0 <- plift (itemCount n) ;; plift (assert_ (c0 =? 2)) ;; k <- plift (keyOf (enc (Ext k0 c))) ;; kn <- plift (keyOf n) ;;
    leaf <- plift (isLeaf n) ;; hpe <- plift (hexPrefixEncode_slices k kn leaf) ;; v <- plift (rlp_at n 1) ;;
    plift (rlpList2 (append_string hpe) (append_rlp v))) g) db' Q) as Hend.
  { intros db' Hle. pstep. rewrite (enc_count _ _ _ _ Hpc). pstep. change (assert_ (2 =? 2)) with (@Value rlp_error _ tt). pstep.
    rewrite (enc_key _ _ _ _ Hp), (enc_key _ _ _ _ Hpc). pstep. rewrite (enc_leaf _ _ _ _ Hpc). pstep.
    rewrite hexPrefixEncode_slices_spec, Hn0, Hn1 by done. pstep. rewrite (enc_at1 _ _ _ _ Hpc). pstep.
    assert (small (Str (hp leaf (k0 ++ k1)))) by (apply hp_small; [by apply Forall_app|done]).
    rewrite (rlpList2_spec _ _ (Str (hp leaf (k0 ++ k1))) x);
      [|by apply partial_string; [constructor|..]|by apply partial_rlp; [apply Forall_singleton|..]].
    pstep. rewrite <- (pf_enc _ _ _ _ Hpc). by apply HQ. }
  unfold graft. rewrite (enc_is_two _ _ _ _ Hp). pstep. rewrite (enc_at1 _ _ _ _ Hp). pstep.
  destruct (Z.lt_ge_cases (lenZ (enc c)) 32) as [Hl|Hl].
  - destruct (ref_short e c He Hoc Hl) as [-> ->]. rewrite bool_decide_eq_false_2 by apply Hpc. cbn [negb]. cbv iota. apply Hend, le_refl.
  - destruct (ref_long e c He Hoc Hl) as (_ & -> & _ & _ & Hh & _). cbv iota. apply ends_assoc, ends_assoc. rewrite Hh. pstep.
    rewrite h256_value by apply sha3_range. unfold node. cbn [pbind]. apply (ends_lookup _ (enc c)); [by apply Hch|]. pstep.
    apply ends_assoc, ends_forceKill. intros db' Hle. rewrite (enc_mkRLP e c He Hoc). exact (Hend db' Hle).
Qed.

Lemma merge_child L i it : node_items L -> length L = 17%nat -> (i < 16)%nat -> L !! i = Some it -> isEmpty (encode it) = false ->
  merge (encode (Lst L)) (Z.of_nat i) = pret (encode (Lst [Str (hp false [Z.of_nat i]); it])).
Proof.
  intros HL Hc Hi Hit He. assert (small it) as Hsm by (eapply Forall_lookup_1; [apply HL|done]).
  unfold merge. rewrite (branch_count _ HL), (node_isList _ HL) by (unfold lenZ; lia). pstep. change (assert_ (true && (17 =? 17))) with (@Value rlp_error _ tt). pstep.
  rewrite (node_at _ HL) by lia. rewrite Nat2Z.id, list_lookup_fmap, Hit. cbn [default fmap option_fmap option_map from_option id]. pstep.
  destruct (Z.eqb_spec (Z.of_nat i) 16); [lia|]. cbn [negb]. cbv iota. rewrite He. cbn [negb assert_]. pstep.
  assert (slice_ok (mkNibbleSlice [Z.of_nat i] 0)) as Hs by (constructor; cbn [data offset]; [repeat constructor; lia|unfold lenZ; cbn; lia..]).
  assert (nibbles (mkNibbleSlice [Z.of_nat i] 0) = [0; Z.of_nat i]) as Hn.
  { unfold nibbles. cbn [data offset nibs]. rewrite drop_0, land_15, shiftr_4, Z.div_small, Z.mod_small by lia. done. }
  pose proof (hexPrefixEncode_range _ false 1 2 2 Hs) as Hr. unfold hexPrefixEncode in Hr. cbn [data offset] in Hr. rewrite Hr by (rewrite ?Hn; unfold lenZ; cbn; (done || lia)).
  pstep. rewrite Hn. change (take (Z.to_nat (2 - 1)) (drop (Z.to_nat 1) [0; Z.of_nat i])) with [Z.of_nat i].
  assert (small (Str (hp false [Z.of_nat i]))) by (apply hp_small; [repeat constructor; lia|cbn; lia]).
  by rewrite (rlpList2_spec _ _ (Str (hp false [Z.of_nat i])) it);
    [|by apply partial_string; [constructor|..]|by apply partial_rlp; [apply Forall_singleton|..]].
Qed.

Definition is_two (t : trie) : bool := match t with Leaf _ _ | Ext _ _ => true | _ => false end.

Lemma two_pair t : is_two t = true -> exists leaf k x, is_pair t leaf k x.
Proof. destruct t; try done; intros _; do 3 eexists; constructor. Qed.

Lemma enc_two_count d t : (d <= max_depth)%nat -> trie_ok d t -> t <> Null -> exists n, itemCount (enc t) = Value n /\ (n =? 2) = is_two t.
Proof.
  intros Hd Hok Hn. rewrite enc_node by done. rewrite (node_itemCount _ (node_ok d t Hd Hok Hn)). eexists. split; [done|].
  destruct t as [|k v|k c|cs w]; try done. apply trie_ok_branch in Hok as (Hl & _ & _). cbn [items_of is_two].
  rewrite lenZ_app. unfold lenZ. rewrite length_map, Hl. done.
Qed.

Lemma ends_isTwo {A} (g : bool -> prog A) d t db Q : (d <= max_depth)%nat -> trie_ok d t -> t <> Null -> held db t ->
  ends (g (is_two t)) db Q -> ends (pbind (isTwoItemNode (encode (ref t))) g) db Q.
Proof.
  intros Hd Hok Hn Hh Hg. destruct (enc_two_count d t Hd Hok Hn) as (n & Hc & Htwo). unfold isTwoItemNode.
  destruct (Z.lt_ge_cases (lenZ (enc t)) 32) as [Hl|Hl].
  - destruct (ref_short d t Hd Hok Hl) as [-> ->]. rewrite enc_node at 1 by done. rewrite (node_isData _ (node_ok d t Hd Hok Hn)).
    rewrite bool_decide_eq_false_2 by done. cbn [negb]. cbv iota. rewrite Hc. pstep. by rewrite Htwo.
  - destruct (ref_long d t Hd Hok Hl) as (_ & _ & -> & _ & _ & _). apply ends_assoc. eapply (ends_node_of d); [done|done|done|done|].
    rewrite Hc. pstep. by rewrite Htwo.
Qed.

(** The only place in use, or 255. *)
Fixpoint only (i : Z) (bs : list bool) (used : Z) : Z :=
  match bs with
  | [] => used
  | b :: bs => if b then if used =? 255 then only (i + 1) bs i else 255 else only (i + 1) bs used
  end.

Lemma uniqueInUse_spec L : node_items L -> length L = 17%nat ->
  uniqueInUse (encode (Lst L)) 255 = Value (only 0 (map (fun it => negb (isEmpty (encode it))) L) 255).
Proof.
  intros HL Hc. unfold uniqueInUse.
  enough (forall n i used, (i + n = 17)%nat ->
    uniqueInUse_loop n (Z.of_nat i) (encode (Lst L)) 255 used = Value (only (Z.of_nat i) (map (fun it => negb (isEmpty (encode it))) (drop i L)) used)) as Hloop.
  { exact (Hloop 17%nat 0%nat 255 eq_refl). }
  intros n. induction n as [|n IH]; intros i used Hi.
  - rewrite drop_ge by lia. done.
  - destruct (lookup_lt_is_Some_2 L i) as [it Hit]; [lia|]. cbn [uniqueInUse_loop].
    destruct (Z.eqb_spec (Z.of_nat i) 255); [lia|]. rewrite (node_at _ HL) by lia.
    rewrite Nat2Z.id, list_lookup_fmap, Hit. cbn [default fmap option_fmap option_map from_option id rbind].
    rewrite (drop_S L it i) by done. cbn [map only]. replace (Z.of_nat i + 1) with (Z.of_nat (S i)) by lia.
    destruct (isEmpty (encode it)); cbn [negb]; [by apply IH; lia|]. destruct (used =? 255); [|done].
    rewrite IH by lia. unfold u8. by rewrite Z.mod_small by lia.
Qed.
End Nodes.
