(* ===== verification/TrieTree.v ===== *)
(** * Trees as maps

    What a tree maps a key to, and insertion and deletion on trees.  The trees
    that insertion and deletion make are [canon]: a tree of this shape is
    determined by the keys and values it holds. *)
From stdpp Require Import base list.
From Stdlib Require Import ZArith Lia.
From S2P Require Import Prelude Words Result Account Rlp RlpSpec.
From S2P Require Import TrieKeys TrieSpec TrieNodes.

Definition child (cs : list trie) (n : Z) : trie := nth (Z.to_nat n) cs Null.

(** The value of a key; no value is the empty string. *)
Fixpoint tget (t : trie) (k : list Z) : list Z :=
  match t with
  | Null => []
  | Leaf k0 v => if decide (k0 = k) then v else []
  | Ext k0 c => if decide (k0 `prefix_of` k) then tget c (drop (length k0) k) else []
  | Branch cs w => match k with [] => w | n :: k' => nth (Z.to_nat n) (map (fun c => tget c k') cs) [] end
  end.

Lemma tget_child cs w n k : tget (Branch cs w) (n :: k) = tget (child cs n) k.
Proof. cbn [tget]. unfold child. rewrite <- (map_nth (fun c => tget c k) cs Null). done. Qed.

Lemma child_lookup cs n c : cs !! Z.to_nat n = Some c -> child cs n = c.
Proof. intros Hc. unfold child. by apply nth_lookup_Some. Qed.

Lemma child_insert cs n m c : is_nibble n -> is_nibble m -> length cs = 16%nat ->
  child (<[Z.to_nat n := c]> cs) m = if decide (m = n) then c else child cs m.
Proof.
  intros Hn Hm Hl. destruct (decide (m = n)) as [->|Hne].
  - apply child_lookup, list_lookup_insert_eq. lia.
  - unfold child. rewrite !nth_lookup, list_lookup_insert_ne by lia. done.
Qed.

Lemma child_in cs n : is_nibble n -> length cs = 16%nat -> child cs n ∈ cs.
Proof.
  intros Hn Hl. destruct (lookup_lt_is_Some_2 cs (Z.to_nat n)) as [c Hc]; [lia|]. rewrite (child_lookup _ _ _ Hc).
  by eapply list_elem_of_lookup_2.
Qed.

Lemma tget_Ext k0 c k : tget (Ext k0 c) (k0 ++ k) = tget c k.
Proof. cbn [tget]. rewrite decide_True by (by exists k). by rewrite drop_app_length. Qed.

Lemma tget_Ext_other k0 c k : ~ k0 `prefix_of` k -> tget (Ext k0 c) k = [].
Proof. intros Hn. cbn [tget]. by rewrite decide_False. Qed.

(** ** Insertion *)

Definition mkext (p : list Z) (t : trie) : trie := match p with [] => t | _ => Ext p t end.
Definition put (b : trie) (k v : list Z) : trie :=
  match b with
  | Branch cs w => match k with [] => Branch cs v | n :: k' => Branch (<[Z.to_nat n := Leaf k' v]> cs) w end
  | _ => b
  end.
Definition split_at (k0 : list Z) (t : trie) (k v : list Z) : trie :=
  mkext (take (lcp k k0) k0) (put (branch1 (with_key (drop (lcp k k0) k0) t)) (drop (lcp k k0) k) v).

Fixpoint tinsert (t : trie) (k v : list Z) : trie :=
  match t with
  | Null => Leaf k v
  | Leaf k0 v0 => if decide (k0 = k) then Leaf k v else split_at k0 t k v
  | Ext k0 c => if decide (k0 `prefix_of` k) then Ext k0 (tinsert c (drop (length k0) k) v) else split_at k0 t k v
  | Branch cs w =>
      match k with
      | [] => Branch cs v
      | n :: k' => Branch (alter (fun c => tinsert c k' v) (Z.to_nat n) cs) w
      end
  end.

Lemma tinsert_child cs w n k v : is_nibble n -> length cs = 16%nat ->
  tinsert (Branch cs w) (n :: k) v = Branch (<[Z.to_nat n := tinsert (child cs n) k v]> cs) w.
Proof.
  intros Hn Hl. cbn [tinsert]. f_equal. destruct (lookup_lt_is_Some_2 cs (Z.to_nat n)) as [c Hc]; [lia|].
  rewrite (child_lookup _ _ _ Hc). apply list_eq. intros i. destruct (decide (i = Z.to_nat n)) as [->|Hne].
  - rewrite list_lookup_alter_eq, list_lookup_insert_eq, Hc by lia. done.
  - by rewrite list_lookup_alter_ne, list_lookup_insert_ne by done.
Qed.

Definition is_branch (t : trie) : Prop := match t with Branch _ _ => True | _ => False end.

(** *** What it maps *)

Lemma child_nulls n : child nulls n = Null.
Proof.
  unfold child, nulls. rewrite nth_lookup. destruct (replicate 16 Null !! Z.to_nat n) eqn:E; [|done].
  by apply lookup_replicate in E as [-> _].
Qed.

Lemma tget_one_child a c k : is_nibble a -> nibble_list k ->
  tget (one_child a c) k = match k with [] => [] | n :: k' => if decide (n = a) then tget c k' else [] end.
Proof.
  intros Ha Hk. destruct k as [|n k']; [done|]. apply Forall_cons_1 in Hk as [Hn _]. unfold one_child.
  rewrite tget_child, child_insert by done. destruct (decide (n = a)); [done|]. by rewrite child_nulls.
Qed.

Definition tkey (t : trie) : list Z := match t with Leaf k _ | Ext k _ => k | _ => [] end.

(** A pair whose key is cut. *)
Lemma tget_with_key t p k k' : is_two t = true -> tkey t = p ++ k -> tget t (p ++ k') = tget (with_key k t) k'.
Proof.
  destruct t as [|k0 v|k0 c|]; try done; cbn [tkey with_key tget]; intros _ ->.
  - destruct (decide (p ++ k = p ++ k')) as [E|E], (decide (k = k')) as [E'|E']; try done.
    + by apply app_inv_head in E.
    + by subst.
  - destruct (decide (p ++ k `prefix_of` p ++ k')) as [E|E], (decide (k `prefix_of` k')) as [E'|E']; try done.
    + rewrite length_app, <- drop_drop, drop_app_length. done.
    + by apply prefix_app_inv in E.
    + destruct E. by apply prefix_app.
Qed.

Lemma tget_two_prefix t p k : is_two t = true -> p `prefix_of` tkey t -> ~ p `prefix_of` k -> tget t k = [].
Proof.
  destruct t as [|k0 v|k0 c|]; try done; cbn [tkey tget]; intros _ Hp Hk.
  - destruct (decide (k0 = k)); [by subst|done].
  - rewrite decide_False; [done|]. intros Hk'. apply Hk. by etrans.
Qed.

Lemma tget_branch1 t k : is_two t = true -> nibble_list (tkey t) -> (forall k0 c, t = Ext k0 c -> k0 <> []) -> nibble_list k ->
  tget (branch1 t) k = tget t k.
Proof.
  intros Ht Hk0 Hne Hk. destruct t as [|k0 v|k0 c|]; try done; cbn [tkey] in Hk0.
  - destruct k0 as [|a r]; cbn [branch1].
    + destruct k as [|n k']; [done|]. by rewrite tget_child, child_nulls.
    + apply Forall_cons_1 in Hk0 as [Ha _]. rewrite tget_one_child by done. destruct k as [|n k']; [done|].
      cbn [tget]. destruct (decide (n = a)) as [->|]; [|rewrite decide_False by congruence; done].
      destruct (decide (r = k')), (decide (a :: r = a :: k')); congruence.
  - destruct k0 as [|a r]; [by destruct (Hne _ _ eq_refl)|]. apply Forall_cons_1 in Hk0 as [Ha _].
    assert (branch1 (Ext (a :: r) c) = one_child a (mkext r c)) as -> by (by destruct r).
    rewrite tget_one_child by done. destruct k as [|n k']; [done|].
    destruct (decide (n = a)) as [->|].
    + destruct r as [|b r]; [symmetry; exact (tget_Ext [a] c k')|]. cbn [mkext]. symmetry. by apply (tget_with_key (Ext (a :: b :: r) c) [a]).
    + rewrite tget_Ext_other; [done|]. intros Hp. by apply prefix_cons_inv_1 in Hp.
Qed.

Lemma tget_put cs w k v k' : length cs = 16%nat -> nibble_list k -> nibble_list k' ->
  match k with [] => True | n :: _ => child cs n = Null end ->
  tget (put (Branch cs w) k v) k' = if decide (k' = k) then v else tget (Branch cs w) k'.
Proof.
  intros Hl Hk Hk' Hfree. destruct k as [|n k]; cbn [put].
  - by destruct k'.
  - apply Forall_cons_1 in Hk as [Hn _]. destruct k' as [|m k']; [done|]. apply Forall_cons_1 in Hk' as [Hm _].
    rewrite !tget_child, child_insert by done. destruct (decide (m = n)) as [->|Hne].
    + rewrite Hfree. cbn [tget]. destruct (decide (k = k')), (decide (n :: k' = n :: k)); congruence.
    + rewrite (decide_False (P := m :: k' = n :: k)) by congruence. done.
Qed.

Lemma tget_mkext p t k : tget (mkext p t) k = if decide (p `prefix_of` k) then tget t (drop (length p) k) else [].
Proof. destruct p as [|a p]; cbn [mkext]; [|done]. rewrite decide_True by apply prefix_nil. by rewrite drop_0. Qed.

(** The node that [branch] makes, and that there is room for a key that shares nothing. *)
Lemma branch1_shape t : is_two t = true -> (forall k0 c, t = Ext k0 c -> k0 <> []) ->
  exists cs w, branch1 t = Branch cs w /\ length cs = 16%nat /\
    forall k, nibble_list k -> nibble_list (tkey t) -> lcp k (tkey t) = 0%nat -> match k with [] => True | n :: _ => child cs n = Null end.
Proof.
  intros Ht Hne. assert (forall a c, is_nibble a -> length (<[Z.to_nat a := c]> nulls) = 16%nat) as Hlen by (intros; by rewrite length_insert).
  assert (forall a r c, exists cs w, one_child a c = Branch cs w /\ length cs = 16%nat /\
    forall k, nibble_list k -> nibble_list (a :: r) -> lcp k (a :: r) = 0%nat -> match k with [] => True | n :: _ => child cs n = Null end) as Hone.
  { intros a r c. exists (<[Z.to_nat a := c]> nulls), []. split; [done|]. split; [by rewrite length_insert|].
    intros [|n k] Hk Ha Hz; [done|]. apply Forall_cons_1 in Ha as [Ha _]. apply Forall_cons_1 in Hk as [Hn _].
    apply lcp_zero in Hz. rewrite child_insert, decide_False by done. apply child_nulls. }
  destruct t as [|k0 v|k0 c|]; try done; cbn [tkey].
  - destruct k0 as [|a r]; [|apply Hone]. exists nulls, v. split; [done|]. split; [done|]. intros [|n k] _ _ _; [done|]. apply child_nulls.
  - destruct k0 as [|a r]; [by destruct (Hne _ _ eq_refl)|].
    assert (branch1 (Ext (a :: r) c) = one_child a (mkext r c)) as -> by (by destruct r). apply Hone.
Qed.

Lemma tget_split t k v k' : is_two t = true -> nibble_list (tkey t) -> nibble_list k -> nibble_list k' ->
  (forall k0 c, t = Ext k0 c -> ~ k0 `prefix_of` k) ->
  tget (split_at (tkey t) t k v) k' = if decide (k' = k) then v else tget t k'.
Proof.
  intros Ht Hk0 Hk Hk' Hne. unfold split_at. remember (lcp k (tkey t)) as sh eqn:Esh.
  pose proof (lcp_prefix k (tkey t)) as Hpre. rewrite <- Esh in Hpre. pose proof (lcp_le k (tkey t)) as Hle. rewrite <- Esh in Hle.
  pose proof (take_drop sh (tkey t)) as Et. symmetry in Et. pose proof (take_drop sh k) as Ek. symmetry in Ek. rewrite Hpre in Ek.
  set (p := take sh (tkey t)) in *. set (k1 := drop sh (tkey t)) in *. set (k2 := drop sh k) in *.
  assert (is_two (with_key k1 t) = true /\ tkey (with_key k1 t) = k1) as [Ht1 Ek1] by (by destruct t).
  assert (forall k0 c, with_key k1 t = Ext k0 c -> k0 <> []) as Hne1.
  { intros k0 c E E0. destruct t as [|?|k3 c3|]; try done. cbn [with_key] in E. injection E as E1 _. cbn [tkey] in *.
    apply (Hne k3 c3 eq_refl). rewrite Et, Ek. rewrite E1, E0. rewrite app_nil_r. by apply prefix_app_r. }
  assert (lcp k2 k1 = 0%nat) as Hz.
  { unfold k1, k2. rewrite Esh. destruct (drop (lcp k (tkey t)) k) as [|x q] eqn:E1, (drop (lcp k (tkey t)) (tkey t)) as [|y q'] eqn:E2; try done.
    cbn [lcp]. destruct (Z.eqb_spec x y); [|done]. by destruct (lcp_differ _ _ _ _ _ _ E1 E2). }
  rewrite tget_mkext. destruct (decide (p `prefix_of` k')) as [[q ->]|Hnp].
  2:{ assert (p `prefix_of` k) as Hpk by (rewrite Ek; by apply prefix_app_r).
      rewrite decide_False by (by intros ->). symmetry. apply (tget_two_prefix t p); [done| |done]. rewrite Et. by apply prefix_app_r. }
  rewrite drop_app_length. apply Forall_app in Hk' as [_ Hq].
  destruct (branch1_shape (with_key k1 t) Ht1 Hne1) as (cs & w & Eb & Hcs & Hfree). rewrite Eb.
  assert (nibble_list k1) as Hnk1 by (by apply Forall_drop). assert (nibble_list k2) as Hnk2 by (by apply Forall_drop).
  rewrite tget_put; [|done|done|done|apply Hfree; by rewrite ?Ek1]. rewrite <- Eb, tget_branch1 by (rewrite ?Ek1; done).
  rewrite <- (tget_with_key t p k1 q Ht Et). destruct (decide (q = k2)) as [->|Hqn].
  - by rewrite decide_True by (by rewrite Ek).
  - rewrite decide_False; [done|]. rewrite Ek. intros E. by apply app_inv_head in E.
Qed.

Lemma tget_tinsert d t k v k' : trie_ok d t -> nibble_list k -> nibble_list k' ->
  tget (tinsert t k v) k' = if decide (k' = k) then v else tget t k'.
Proof.
  revert d k k'. induction t as [|k0 v0|k0 c IH|cs w IH] using trie_ind_all; intros d k k' Hok Hk Hk'.
  - cbn [tinsert tget]. destruct (decide (k = k')), (decide (k' = k)); congruence.
  - destruct Hok as ([Hk0 _] & _). cbn [tinsert]. destruct (decide (k0 = k)) as [->|Hne].
    + cbn [tget]. destruct (decide (k = k')), (decide (k' = k)); congruence.
    + by apply (tget_split (Leaf k0 v0)).
  - destruct Hok as ([Hk0 _] & _ & _ & Hc). cbn [tinsert]. destruct (decide (k0 `prefix_of` k)) as [[q ->]|Hne].
    + rewrite drop_app_length. apply Forall_app in Hk as [_ Hq]. destruct (decide (k0 `prefix_of` k')) as [[q' ->]|Hne'].
      * rewrite !tget_Ext. apply Forall_app in Hk' as [_ Hq']. rewrite (IH _ q q' Hc Hq Hq').
        destruct (decide (q' = q)) as [->|]; [by rewrite decide_True|]. rewrite decide_False; [done|]. intros E. by apply app_inv_head in E.
      * rewrite !tget_Ext_other by done. rewrite decide_False; [done|]. intros ->. apply Hne'. by apply prefix_app_r.
    + apply (tget_split (Ext k0 c)); try done. by intros ? ? [= -> ->].
  - apply trie_ok_branch in Hok as (Hl & _ & Hcs). destruct k as [|n k]; [cbn [tinsert]; by destruct k'|].
    apply Forall_cons_1 in Hk as [Hn Hk]. rewrite tinsert_child by done. destruct k' as [|m k']; [done|].
    apply Forall_cons_1 in Hk' as [Hm Hk']. rewrite !tget_child, child_insert by done. destruct (decide (m = n)) as [->|Hmn].
    + pose proof (child_in cs n Hn Hl) as Hin. rewrite Forall_forall in IH, Hcs.
      assert (exists e, trie_ok e (child cs n)) as [e He] by (destruct (Hcs _ Hin) as [->|[_ ?]]; [by exists 0%nat|eauto]).
      rewrite (IH _ Hin e k k' He Hk Hk'). destruct (decide (k' = k)), (decide (n :: k' = n :: k)); congruence.
    + by rewrite (decide_False (P := m :: k' = n :: k)) by congruence.
Qed.

(** *** Shape *)

Lemma nulls_ok d : Forall (fun c => c = Null \/ (0 < d)%nat /\ trie_ok (d - 1) c) nulls.
Proof. apply Forall_replicate. by left. Qed.

Lemma one_child_ok d a c : (0 < d)%nat -> trie_ok (d - 1) c -> trie_ok d (one_child a c).
Proof.
  intros Hd Hc. apply trie_ok_branch. split; [by rewrite length_insert|]. split; [split; [constructor|unfold lenZ; cbn; lia]|].
  apply Forall_insert; [apply nulls_ok|]. by right.
Qed.

Lemma with_key_ok d t p k : is_two t = true -> trie_ok d t -> tkey t = p ++ k -> (forall k0 c, t = Ext k0 c -> k <> []) ->
  trie_ok (d - length p) (with_key k t).
Proof.
  destruct t as [|k0 v|k0 c|]; try done; cbn [tkey with_key trie_ok]; intros _.
  - intros ([Hk Hl] & Hv) -> _. apply Forall_app in Hk as [_ Hk]. rewrite length_app in Hl. split; [split; [done|lia]|done].
  - intros ([Hk Hl] & _ & Hn & Hc) -> Hne. apply Forall_app in Hk as [_ Hk]. rewrite length_app in *.
    split; [split; [done|lia]|]. split; [by eapply Hne|]. split; [done|]. by replace (d - length p - length k)%nat with (d - (length p + length k))%nat by lia.
Qed.

Lemma branch1_ok d t : is_two t = true -> trie_ok d t -> (length (tkey t) <= d)%nat -> trie_ok d (branch1 t).
Proof.
  destruct t as [|k0 v|k0 c|]; try done; intros _ Hok; cbn [tkey] in *.
  - destruct Hok as ([Hk _] & Hv). destruct k0 as [|a r]; intros Hl; cbn [branch1].
    + apply trie_ok_branch. split; [done|]. split; [done|apply nulls_ok].
    + cbn [length] in Hl. apply one_child_ok; [lia|]. apply Forall_inv_tail in Hk. split; [split; [done|lia]|done].
  - destruct Hok as ([Hk _] & Hne & Hn & Hc). destruct k0 as [|a r]; [done|]. intros Hl. cbn [length] in *.
    assert (branch1 (Ext (a :: r) c) = one_child a (mkext r c)) as -> by (by destruct r).
    apply one_child_ok; [lia|]. apply Forall_inv_tail in Hk. destruct r as [|b r]; [by cbn in *|].
    cbn [mkext trie_ok length] in *. split; [split; [done|cbn; lia]|]. split; [done|]. split; [done|].
    by replace (d - 1 - S (length r))%nat with (d - S (S (length r)))%nat by lia.
Qed.

Lemma put_ok d cs w k v : trie_ok d (Branch cs w) -> key_ok d k -> val_ok v -> trie_ok d (put (Branch cs w) k v).
Proof.
  rewrite trie_ok_branch. intros (Hl & Hw & Hcs) [Hk Hkl] Hv. destruct k as [|n k]; cbn [put].
  - by apply trie_ok_branch.
  - cbn [length] in Hkl. apply trie_ok_branch. rewrite length_insert. split; [done|]. split; [done|]. apply Forall_insert; [done|]. right.
    split; [lia|]. apply Forall_inv_tail in Hk. split; [split; [done|lia]|done].
Qed.

Lemma put_branch b k v : is_branch b -> is_branch (put b k v).
Proof. destruct b; try done. by destruct k. Qed.

Lemma mkext_ok d p t : nibble_list p -> (length p <= d)%nat -> trie_ok (d - length p) t -> t <> Null -> trie_ok d (mkext p t) /\ mkext p t <> Null.
Proof.
  intros Hp Hl Ht Hn. destruct p as [|a p]; cbn [mkext].
  - cbn [length] in Ht. rewrite Nat.sub_0_r in Ht. done.
  - split; [|done]. cbn [trie_ok]. split; [by split|]. done.
Qed.

Section Split.
  Context (d : nat) (t : trie) (k v : list Z).
  Context (Ht : is_two t = true) (Hok : trie_ok d t) (Hk : key_ok d k) (Hv : val_ok v) (Hne : forall k0 c, t = Ext k0 c -> ~ k0 `prefix_of` k).

Lemma split_key_ok : key_ok d (tkey t).
Proof. destruct t as [|?|?|]; try done; cbn [trie_ok tkey] in *; by destruct Hok. Qed.

Lemma split_rest : forall k0 c, t = Ext k0 c -> drop (lcp k (tkey t)) (tkey t) <> [].
Proof.
  intros k0 c E He. apply (Hne k0 c E). apply lcp_full. subst t. cbn [tkey] in *. pose proof (lcp_le k k0).
  apply (f_equal length) in He. rewrite length_drop in He. cbn in He. lia.
Qed.

Lemma split_with_key_ok : trie_ok (d - lcp k (tkey t)) (with_key (drop (lcp k (tkey t)) (tkey t)) t).
Proof.
  pose proof (lcp_le k (tkey t)). replace (lcp k (tkey t)) with (length (take (lcp k (tkey t)) (tkey t))) at 1 by (rewrite length_take; lia).
  apply with_key_ok; [done|done|by rewrite take_drop|apply split_rest].
Qed.

Lemma split_ok : trie_ok d (split_at (tkey t) t k v) /\ split_at (tkey t) t k v <> Null.
Proof.
  pose proof (lcp_le k (tkey t)) as Hle. pose proof split_key_ok as [Hk0 Hk0l]. pose proof Hk as [Hkn Hkl].
  pose proof split_with_key_ok as Hw. pose proof split_rest as Hr. unfold split_at.
  set (sh := lcp k (tkey t)) in *. set (k1 := drop sh (tkey t)) in *.
  assert (is_two (with_key k1 t) = true /\ tkey (with_key k1 t) = k1) as [Ht1 Ek1] by (by destruct t).
  assert (forall k0 c, with_key k1 t = Ext k0 c -> k0 <> []) as Hne1.
  { intros k0 c E. destruct t as [|?|k3 c3|]; try done. cbn [with_key] in E. injection E as <- _. by eapply Hr. }
  destruct (branch1_shape _ Ht1 Hne1) as (cs & w & Eb & Hcs & _).
  assert (trie_ok (d - sh) (branch1 (with_key k1 t))) as Hb.
  { apply branch1_ok; [done|done|]. rewrite Ek1. unfold k1. rewrite length_drop. lia. }
  apply mkext_ok.
  - by apply Forall_take.
  - rewrite length_take. lia.
  - rewrite length_take, Nat.min_l by lia. rewrite Eb in *. apply put_ok; [done| |done]. split; [by apply Forall_drop|rewrite length_drop; lia].
  - rewrite Eb. cbn [put]. by destruct (drop sh k).
Qed.
End Split.

Lemma tinsert_ok d t k v : trie_ok d t -> key_ok d k -> val_ok v -> trie_ok d (tinsert t k v) /\ tinsert t k v <> Null.
Proof.
  revert d k. induction t as [|k0 v0|k0 c IH|cs w IH] using trie_ind_all; intros d k Hok Hk Hv; cbn [tinsert].
  - by split.
  - destruct (decide (k0 = k)) as [->|Hne]; [by split|]. by apply (split_ok d (Leaf k0 v0)).
  - destruct (decide (k0 `prefix_of` k)) as [[q ->]|Hne].
    + destruct Hok as ([Hk0 Hl0] & Hn0 & Hnull & Hc). rewrite drop_app_length. destruct Hk as [Hk Hl]. apply Forall_app in Hk as [_ Hq].
      rewrite length_app in Hl. destruct (IH (d - length k0)%nat q Hc ltac:(split; [done|lia]) Hv) as [Hok' Hn']. split; [|done]. by split.
    + apply (split_ok d (Ext k0 c)); try done. by intros ? ? [= -> ->].
  - pose proof Hok as Hok'. apply trie_ok_branch in Hok as (Hl & Hw & Hcs). destruct k as [|n k]; [split; [|done]; by apply trie_ok_branch|].
    destruct Hk as [Hk Hkl]. apply Forall_cons_1 in Hk as [Hn Hk]. cbn [length] in Hkl.
    assert (is_nibble n) as Hn' by done. pose proof (tinsert_child cs w n k v Hn' Hl) as E. cbn [tinsert] in E. rewrite E. split; [|done].
    apply trie_ok_branch. rewrite length_insert. split; [done|]. split; [done|]. apply Forall_insert; [done|]. right. split; [lia|].
    pose proof (child_in cs n Hn' Hl) as Hin. rewrite Forall_forall in IH, Hcs.
    apply (IH _ Hin (d - 1)%nat k); [|split; [done|lia]|done]. by destruct (Hcs _ Hin) as [->|[_ ?]].
Qed.

(** ** The shape that is determined by the map *)

Fixpoint count (bs : list bool) : nat :=
  match bs with [] => 0%nat | b :: bs => ((if b then 1 else 0) + count bs)%nat end.
Definition in_use (cs : list trie) (w : list Z) : list bool := map (fun c => negb (bool_decide (c = Null))) cs ++ [negb (bool_decide (w = []))].

Fixpoint canon (t : trie) : Prop :=
  match t with
  | Null => True
  | Leaf _ v => v <> []
  | Ext _ c => is_branch c /\ canon c
  | Branch cs w => foldr (fun c P => canon c /\ P) True cs /\ (2 <= count (in_use cs w))%nat
  end.

Lemma canon_branch cs w : canon (Branch cs w) <-> Forall canon cs /\ (2 <= count (in_use cs w))%nat.
Proof. cbn [canon]. by rewrite (foldr_Forall canon). Qed.

Lemma count_app bs ds : count (bs ++ ds) = (count bs + count ds)%nat.
Proof. induction bs as [|b bs IH]; [done|]. cbn [count app]. lia. Qed.

Lemma count_insert (bs : list bool) (n : nat) (b c : bool) : bs !! n = Some c -> (count (<[n := b]> bs) + (if c then 1 else 0) = count bs + (if b then 1 else 0))%nat.
Proof.
  revert n. induction bs as [|x bs IH]; intros [|n] Hn; try done.
  - injection Hn as ->. cbn. lia.
  - cbn [count list_insert]. specialize (IH n Hn). change (<[S n := b]> (x :: bs)) with (x :: <[n := b]> bs). cbn [count]. lia.
Qed.

Lemma in_use_insert cs w n c : (n < length cs)%nat -> in_use (<[n := c]> cs) w = <[n := negb (bool_decide (c = Null))]> (in_use cs w).
Proof.
  intros Hn. unfold in_use. rewrite (list_fmap_insert (fun c : trie => negb (bool_decide (c = Null)))). by rewrite insert_app_l by (by rewrite length_map).
Qed.

Lemma count_children cs w n c old : cs !! n = Some old -> c <> Null ->
  (count (in_use cs w) <= count (in_use (<[n := c]> cs) w))%nat /\
  (old = Null -> count (in_use (<[n := c]> cs) w) = S (count (in_use cs w))).
Proof.
  intros Hold Hc. pose proof (lookup_lt_Some _ _ _ Hold) as Hlt. rewrite in_use_insert by done.
  assert (in_use cs w !! n = Some (negb (bool_decide (old = Null)))) as Hu.
  { unfold in_use. rewrite lookup_app_l by (by rewrite length_map). by rewrite list_lookup_fmap, Hold. }
  pose proof (count_insert _ n (negb (bool_decide (c = Null))) _ Hu) as Hcount. rewrite (bool_decide_eq_false_2 (c = Null)) in * by done. cbn [negb] in *.
  destruct (decide (old = Null)) as [->|Hne]; [rewrite bool_decide_eq_true_2 in Hcount by done|rewrite bool_decide_eq_false_2 in Hcount by done]; cbn [negb] in *;
    split; try done; lia.
Qed.

Lemma count_value cs w v : v <> [] -> (count (in_use cs w) <= count (in_use cs v))%nat /\ (w = [] -> count (in_use cs v) = S (count (in_use cs w))).
Proof.
  intros Hv. unfold in_use. rewrite !count_app. rewrite (bool_decide_eq_false_2 (v = [])) by done. cbn [negb count].
  split; [destruct (negb (bool_decide (w = []))); lia|]. intros ->. cbn. lia.
Qed.

Lemma count_nulls w : count (in_use nulls w) = if decide (w = []) then 0%nat else 1%nat.
Proof. unfold in_use, nulls. rewrite count_app. destruct (decide (w = [])) as [->|]; [done|]. rewrite bool_decide_eq_false_2 by done. done. Qed.

Lemma canon_mkext r c : canon c -> is_branch c -> canon (mkext r c).
Proof. by destruct r. Qed.

Lemma one_child_canon a c : is_nibble a -> canon c -> c <> Null ->
  exists cs w, one_child a c = Branch cs w /\ length cs = 16%nat /\ Forall canon cs /\ count (in_use cs w) = 1%nat /\ w = [].
Proof.
  intros Ha Hc Hn. exists (<[Z.to_nat a := c]> nulls), []. split; [done|]. split; [by rewrite length_insert|]. split; [|split; [|done]].
  - apply Forall_insert; [|done]. by apply Forall_replicate.
  - assert (nulls !! Z.to_nat a = Some Null) as Hl by (apply lookup_replicate; split; [done|lia]).
    destruct (count_children nulls [] _ c Null Hl Hn) as [_ ->]; done.
Qed.

Lemma branch1_canon t : is_two t = true -> canon t -> nibble_list (tkey t) -> (forall k0 c, t = Ext k0 c -> k0 <> []) ->
  exists cs w, branch1 t = Branch cs w /\ length cs = 16%nat /\ Forall canon cs /\ count (in_use cs w) = 1%nat /\ (tkey t <> [] -> w = []).
Proof.
  intros Ht Hc Hk Hne. destruct t as [|k0 v|k0 c|]; try done; cbn [tkey canon] in *.
  - destruct k0 as [|a r]; cbn [branch1].
    + exists nulls, v. split; [done|]. split; [done|]. split; [by apply Forall_replicate|]. split; [|done].
      rewrite count_nulls. by destruct (decide (v = [])).
    + apply Forall_inv in Hk. destruct (one_child_canon a (Leaf r v)) as (cs & w & ? & ? & ? & ? & ?); try done. exists cs, w. done.
  - destruct k0 as [|a r]; [by destruct (Hne _ _ eq_refl)|].
    assert (branch1 (Ext (a :: r) c) = one_child a (mkext r c)) as -> by (by destruct r). destruct Hc as [Hb Hc].
    apply Forall_inv in Hk. destruct (one_child_canon a (mkext r c)) as (cs & w & ? & ? & ? & ? & ?); [done|by apply canon_mkext| |].
    + intros E. destruct r; [|done]. cbn [mkext] in E. by subst.
    + exists cs, w. done.
Qed.

Lemma split_canon d t k v : is_two t = true -> canon t -> trie_ok d t -> nibble_list k -> v <> [] -> tkey t <> k ->
  (forall k0 c, t = Ext k0 c -> ~ k0 `prefix_of` k) -> canon (split_at (tkey t) t k v).
Proof.
  intros Ht Hc Hok Hk Hv Hkey Hne.
  assert (nibble_list (tkey t)) as Hk0 by (destruct t as [|?|?|]; try done; cbn [trie_ok tkey] in *; by destruct Hok as ([? ?] & _)).
  pose proof (split_rest d t k Ht Hok Hne) as Hr. unfold split_at.
  pose proof (lcp_prefix k (tkey t)) as Hpre. pose proof (lcp_le k (tkey t)) as Hle.
  assert (lcp (drop (lcp k (tkey t)) k) (drop (lcp k (tkey t)) (tkey t)) = 0%nat) as Hz.
  { destruct (drop (lcp k (tkey t)) k) as [|x q] eqn:E1, (drop (lcp k (tkey t)) (tkey t)) as [|y q'] eqn:E2; try done.
    cbn [lcp]. destruct (Z.eqb_spec x y); [|done]. by destruct (lcp_differ _ _ _ _ _ _ E1 E2). }
  set (sh := lcp k (tkey t)) in *. set (k1 := drop sh (tkey t)) in *. set (k2 := drop sh k) in *.
  assert (is_two (with_key k1 t) = true /\ tkey (with_key k1 t) = k1) as [Ht1 Ek1] by (by destruct t).
  assert (canon (with_key k1 t)) as Hc1 by (by destruct t).
  assert (forall k0 c, with_key k1 t = Ext k0 c -> k0 <> []) as Hne1.
  { intros k0 c E. destruct t as [|?|k3 c3|]; try done. cbn [with_key] in E. injection E as <- _. by eapply Hr. }
  assert (nibble_list k1) as Hk1 by (by apply Forall_drop). assert (nibble_list k2) as Hk2 by (by apply Forall_drop).
  destruct (branch1_canon _ Ht1 Hc1 ltac:(by rewrite Ek1) Hne1) as (cs & w & Eb & Hcs & Hcc & Hcount & Hw). rewrite Ek1 in Hw.
  destruct (branch1_shape _ Ht1 Hne1) as (cs' & w' & Eb' & _ & Hfree). rewrite Eb in Eb'. injection Eb' as <- <-. rewrite Ek1 in Hfree.
  rewrite Eb. apply canon_mkext; [|by apply (put_branch (Branch cs w))]. destruct k2 as [|n k2'] eqn:E2; cbn [put].
  - apply canon_branch. split; [done|]. destruct (count_value cs w v Hv) as [_ ->]; [lia|]. apply Hw. intros E1.
    apply Hkey. rewrite <- (take_drop sh (tkey t)), <- (take_drop sh k). fold k1 k2. by rewrite E1, E2, Hpre.
  - specialize (Hfree (n :: k2') Hk2 Hk1 Hz). cbn in Hfree. apply Forall_inv in Hk2. cbv beta in Hk2.
    destruct (lookup_lt_is_Some_2 cs (Z.to_nat n)) as [c Hn]; [lia|]. rewrite (child_lookup _ _ _ Hn) in Hfree. subst c.
    apply canon_branch. split; [by apply Forall_insert|]. destruct (count_children cs w _ (Leaf k2' v) Null Hn) as [_ ->]; [done|lia|done].
Qed.

Lemma tinsert_canon d t k v : trie_ok d t -> canon t -> key_ok d k -> val_ok v -> v <> [] ->
  canon (tinsert t k v) /\ (is_branch t -> is_branch (tinsert t k v)).
Proof.
  revert d k. induction t as [|k0 v0|k0 c IH|cs w IH] using trie_ind_all; intros d k Hok Hc Hk Hv Hne; cbn [tinsert].
  - done.
  - destruct (decide (k0 = k)) as [->|Hkne]; [done|]. split; [|done]. destruct Hk. by apply (split_canon d (Leaf k0 v0)).
  - split; [|done]. destruct (decide (k0 `prefix_of` k)) as [[q ->]|Hkne].
    + destruct Hok as ([Hk0 Hl0] & Hn0 & Hnull & Hco), Hc as [Hb Hc]. rewrite drop_app_length. destruct Hk as [Hk Hl].
      apply Forall_app in Hk as [_ Hq]. rewrite length_app in Hl.
      destruct (IH (d - length k0)%nat q Hco Hc ltac:(split; [done|lia]) Hv Hne) as [Hc' Hb']. split; [by apply Hb'|done].
    + destruct Hk. apply (split_canon d (Ext k0 c)); try done; [by intros <-|by intros ? ? [= -> ->]].
  - split; [|by destruct k]. apply canon_branch in Hc as [Hcc Hcount]. pose proof Hok as Hok'. apply trie_ok_branch in Hok as (Hl & Hw & Hcs).
    destruct k as [|n k].
    + apply canon_branch. split; [done|]. pose proof (count_value cs w v Hne). lia.
    + destruct Hk as [Hk Hkl]. apply Forall_cons_1 in Hk as [Hn Hk]. cbn [length] in Hkl.
      pose proof (tinsert_child cs w n k v Hn Hl) as E. cbn [tinsert] in E. rewrite E.
      pose proof (child_in cs n Hn Hl) as Hin. rewrite Forall_forall in IH, Hcs.
      assert (trie_ok (d - 1) (child cs n)) as Hco by (by destruct (Hcs _ Hin) as [->|[_ ?]]).
      assert (canon (child cs n)) as Hcn by (rewrite Forall_forall in Hcc; by apply Hcc).
      assert (key_ok (d - 1) k) as Hkok by (split; [done|lia]).
      destruct (IH _ Hin _ k Hco Hcn Hkok Hv Hne) as [Hc' _]. destruct (tinsert_ok _ _ _ _ Hco Hkok Hv) as [_ Hnn].
      apply canon_branch. split; [by apply Forall_insert|]. destruct (lookup_lt_is_Some_2 cs (Z.to_nat n)) as [c Hnc]; [lia|].
      pose proof (count_children cs w _ _ _ Hnc Hnn). lia.
Qed.

(** ** A canonical tree is determined by what it maps *)

Lemma count_two bs : (2 <= count bs)%nat -> exists i j, (i < j)%nat /\ bs !! i = Some true /\ bs !! j = Some true.
Proof.
  assert (forall bs, (1 <= count bs)%nat -> exists i, bs !! i = Some true) as Hone.
  { clear. induction bs as [|[] bs IH]; cbn; [lia|by exists 0%nat|]. intros Hc. destruct (IH Hc) as [i ?]. by exists (S i). }
  induction bs as [|[] bs IH]; cbn [count]; [lia| |].
  - intros Hc. destruct (Hone bs ltac:(lia)) as [i Hi]. exists 0%nat, (S i). split; [lia|done].
  - intros Hc. destruct (IH Hc) as (i & j & ? & ? & ?). exists (S i), (S j). split; [lia|done].
Qed.

(** A key that is mapped: every used slot of a branch has one. *)
Lemma slot_key cs w i : length cs = 16%nat -> in_use cs w !! i = Some true ->
  (forall c, c ∈ cs -> c <> Null -> exists k, nibble_list k /\ tget c k <> []) ->
  exists k, nibble_list k /\ tget (Branch cs w) k <> [] /\ match k with [] => i = 16%nat | n :: _ => n = Z.of_nat i /\ (i < 16)%nat end.
Proof.
  intros Hl Hi Hc. pose proof (lookup_lt_Some _ _ _ Hi) as Hlt. unfold in_use in *. rewrite length_app, length_map, Hl in Hlt. cbn in Hlt.
  destruct (decide (i = 16%nat)) as [->|Hne].
  - exists []. split; [constructor|]. split; [|done]. cbn [tget]. rewrite lookup_app_r in Hi by (rewrite length_map; lia).
    rewrite length_map, Hl in Hi. cbn in Hi. injection Hi as Hi. by apply negb_true_iff, bool_decide_eq_false in Hi.
  - rewrite lookup_app_l in Hi by (rewrite length_map; lia). rewrite list_lookup_fmap in Hi.
    destruct (cs !! i) as [c|] eqn:E; [|done]. cbn in Hi. injection Hi as Hi. apply negb_true_iff, bool_decide_eq_false in Hi.
    destruct (Hc c) as (k & Hk & Hg); [by eapply list_elem_of_lookup_2|done|]. exists (Z.of_nat i :: k). split; [constructor; [lia|done]|].
    split; [|split; [done|lia]]. rewrite tget_child, (child_lookup cs _ c) by (by rewrite Nat2Z.id). done.
Qed.

Lemma canon_some d t : trie_ok d t -> canon t -> t <> Null -> exists k, nibble_list k /\ tget t k <> [].
Proof.
  revert d. induction t as [|k v|k c IH|cs w IH] using trie_ind_all; intros d Hok Hc Hn; [done|..].
  - destruct Hok as ([Hk _] & _). exists k. split; [done|]. cbn [tget]. by rewrite decide_True.
  - destruct Hok as ([Hk _] & _ & Hnull & Hco), Hc as [_ Hc]. destruct (IH _ Hco Hc Hnull) as (k' & ? & ?).
    exists (k ++ k'). split; [by apply Forall_app|]. by rewrite tget_Ext.
  - apply trie_ok_branch in Hok as (Hl & _ & Hcs). apply canon_branch in Hc as [Hcc Hcount].
    destruct (count_two _ Hcount) as (i & _ & _ & Hi & _). rewrite Forall_forall in IH, Hcs, Hcc.
    destruct (slot_key cs w i Hl Hi) as (k & ? & ? & _); [|by exists k].
    intros c Hin Hnn. destruct (Hcs c Hin) as [|[_ ?]]; [done|]. by eapply IH; eauto.
Qed.

(** A branch maps two keys that share nothing. *)
Lemma branch_two d t : is_branch t -> trie_ok d t -> canon t ->
  exists k1 k2, nibble_list k1 /\ nibble_list k2 /\ tget t k1 <> [] /\ tget t k2 <> [] /\ k1 <> k2 /\ lcp k1 k2 = 0%nat.
Proof.
  destruct t as [| | |cs w]; try done. intros _ Hok Hc. apply trie_ok_branch in Hok as (Hl & _ & Hcs).
  apply canon_branch in Hc as [Hcc Hcount]. destruct (count_two _ Hcount) as (i & j & Hij & Hi & Hj). rewrite Forall_forall in Hcs, Hcc.
  assert (forall c, c ∈ cs -> c <> Null -> exists k, nibble_list k /\ tget c k <> []) as Hsome.
  { intros c Hin Hnn. destruct (Hcs c Hin) as [|[_ ?]]; [done|]. eapply canon_some; eauto. }
  destruct (slot_key cs w i Hl Hi Hsome) as (k1 & ? & ? & H1). destruct (slot_key cs w j Hl Hj Hsome) as (k2 & ? & ? & H2).
  exists k1, k2. split_and!; try done.
  - intros ->. destruct k2; [lia|]. destruct H1, H2. lia.
  - destruct k1 as [|a k1]; [done|]. destruct k2 as [|b k2]; [done|]. cbn [lcp]. destruct (Z.eqb_spec a b); [|done]. destruct H1, H2. lia.
Qed.

Lemma lcp_app p k1 k2 : lcp (p ++ k1) (p ++ k2) = (length p + lcp k1 k2)%nat.
Proof. induction p as [|a p IH]; [done|]. cbn [app lcp length]. rewrite Z.eqb_refl, IH. done. Qed.

Lemma lcp_shorter q k1 k2 : q `prefix_of` k1 -> q `prefix_of` k2 -> (length q <= lcp k1 k2)%nat.
Proof. intros [r1 ->] [r2 ->]. rewrite lcp_app. lia. Qed.

Lemma tget_Ext_prefix k c k' : tget (Ext k c) k' <> [] -> k `prefix_of` k'.
Proof. cbn [tget]. by destruct (decide (k `prefix_of` k')). Qed.

(** The keys of an extension: they start with its key, which cannot be longer. *)
Lemma ext_two d k c : trie_ok d (Ext k c) -> canon (Ext k c) ->
  exists k1 k2, nibble_list (k ++ k1) /\ nibble_list (k ++ k2) /\ tget (Ext k c) (k ++ k1) <> [] /\ tget (Ext k c) (k ++ k2) <> [] /\
    k1 <> k2 /\ lcp (k ++ k1) (k ++ k2) = length k.
Proof.
  intros ([Hk _] & _ & _ & Hco) [Hb Hc]. destruct (branch_two _ c Hb Hco Hc) as (k1 & k2 & ? & ? & ? & ? & ? & Hz).
  exists k1, k2. rewrite !tget_Ext, lcp_app, Hz. split_and!; try done; by apply Forall_app.
Qed.

Lemma prefix_same_length {A} (p q l : list A) : p `prefix_of` l -> q `prefix_of` l -> length p = length q -> p = q.
Proof. intros [r ->] [s E] Hl. by apply app_inj_1 in E as [? _]. Qed.

Section Same.
  Context (d e : nat) (t1 t2 : trie).
  Context (Hok1 : trie_ok d t1) (Hok2 : trie_ok e t2) (Hc1 : canon t1) (Hc2 : canon t2).
  Context (Hsame : forall k, nibble_list k -> tget t1 k = tget t2 k).

Lemma same_null : t1 = Null -> t2 = Null.
Proof.
  intros E. destruct (decide (t2 = Null)) as [|Hn]; [done|]. destruct (canon_some e t2 Hok2 Hc2 Hn) as (k & Hk & Hg).
  by rewrite <- Hsame, E in Hg.
Qed.

Lemma same_leaf k v : t1 = Leaf k v -> t2 = Leaf k v.
Proof.
  intros E. assert (forall k', nibble_list k' -> tget t2 k' <> [] -> k' = k) as Hall.
  { intros k' Hk' Hg. rewrite <- Hsame, E in Hg by done. cbn [tget] in Hg. by destruct (decide (k = k')). }
  assert (nibble_list k /\ tget t2 k = v /\ v <> []) as (Hk & Hg & Hv).
  { subst t1. destruct Hok1 as ([? _] & _). rewrite <- Hsame by done. cbn [tget]. by rewrite decide_True. }
  destruct t2 as [|k2 v2|k2 c|cs w]; [done|..].
  - cbn [tget] in Hg. destruct (decide (k2 = k)); [by subst|done].
  - destruct (ext_two e k2 c Hok2 Hc2) as (k3 & k4 & ? & ? & H3 & H4 & Hne & _). apply Hall in H3, H4; try done. subst k.
    by apply app_inv_head in H4.
  - destruct (branch_two e (Branch cs w) I Hok2 Hc2) as (k3 & k4 & ? & ? & H3 & H4 & Hne & _). apply Hall in H3, H4; try done. by subst.
Qed.

Lemma same_ext k c : t1 = Ext k c -> exists c', t2 = Ext k c' /\ forall k', nibble_list k' -> tget c k' = tget c' k'.
Proof.
  intros E. subst t1. destruct (ext_two d k c Hok1 Hc1) as (k1 & k2 & Hn1 & Hn2 & H1 & H2 & Hne & Hlcp).
  rewrite !Hsame in H1, H2 by done. pose proof Hok1 as ([Hk _] & Hknil & _). destruct t2 as [|k0 v0|k0 c0|cs w]; [done|..].
  - cbn [tget] in H1, H2. destruct (decide (k0 = k ++ k1)), (decide (k0 = k ++ k2)); try done. subst. by apply app_inv_head in e1.
  - pose proof (tget_Ext_prefix _ _ _ H1) as P1. pose proof (tget_Ext_prefix _ _ _ H2) as P2. pose proof (lcp_shorter _ _ _ P1 P2) as Hle.
    destruct (ext_two e k0 c0 Hok2 Hc2) as (k3 & k4 & Hn3 & Hn4 & H3 & H4 & _ & Hlcp'). rewrite <- !Hsame in H3, H4 by done.
    pose proof (lcp_shorter _ _ _ (tget_Ext_prefix _ _ _ H3) (tget_Ext_prefix _ _ _ H4)) as Hle'.
    assert (k = k0) as <- by (eapply prefix_same_length; [by apply prefix_app_r|exact P1|lia]).
    exists c0. split; [done|]. intros k' Hk'. specialize (Hsame (k ++ k') ltac:(by apply Forall_app)). by rewrite !tget_Ext in Hsame.
  - destruct (branch_two e (Branch cs w) I Hok2 Hc2) as (k3 & k4 & ? & ? & H3 & H4 & _ & Hz). rewrite <- !Hsame in H3, H4 by done.
    pose proof (lcp_shorter _ _ _ (tget_Ext_prefix _ _ _ H3) (tget_Ext_prefix _ _ _ H4)). destruct k; [done|]. cbn in *. lia.
Qed.
End Same.

Lemma same_branch d e cs w t2 : trie_ok d (Branch cs w) -> trie_ok e t2 -> canon (Branch cs w) -> canon t2 ->
  (forall k, nibble_list k -> tget (Branch cs w) k = tget t2 k) -> exists cs', t2 = Branch cs' w.
Proof.
  intros Hok1 Hok2 Hc1 Hc2 Hsame. destruct t2 as [|k0 v0|k0 c0|cs' w'].
  - by pose proof (same_null d _ _ Hok1 Hc1 (fun k Hk => eq_sym (Hsame k Hk)) eq_refl).
  - by pose proof (same_leaf e d _ _ Hok2 Hok1 Hc2 Hc1 (fun k Hk => eq_sym (Hsame k Hk)) _ _ eq_refl).
  - by destruct (same_ext e d _ _ Hok2 Hok1 Hc2 Hc1 (fun k Hk => eq_sym (Hsame k Hk)) _ _ eq_refl) as (? & ? & _).
  - specialize (Hsame [] ltac:(constructor)). cbn [tget] in Hsame. subst. by exists cs'.
Qed.

Lemma canon_unique d e t1 t2 : trie_ok d t1 -> trie_ok e t2 -> canon t1 -> canon t2 ->
  (forall k, nibble_list k -> tget t1 k = tget t2 k) -> t1 = t2.
Proof.
  revert d e t2. induction t1 as [|k v|k c IH|cs w IH] using trie_ind_all; intros d e t2 Hok1 Hok2 Hc1 Hc2 Hsame.
  - symmetry. by apply (same_null e _ _ Hok2 Hc2 Hsame).
  - symmetry. by apply (same_leaf d e _ _ Hok1 Hok2 Hc1 Hc2 Hsame).
  - destruct (same_ext d e _ _ Hok1 Hok2 Hc1 Hc2 Hsame _ _ eq_refl) as (c' & -> & Hs). f_equal.
    destruct Hok1 as (_ & _ & _ & Ho1), Hok2 as (_ & _ & _ & Ho2), Hc1 as [_ Hc1], Hc2 as [_ Hc2]. by eapply IH.
  - destruct (same_branch d e cs w t2 Hok1 Hok2 Hc1 Hc2 Hsame) as (cs' & ->). f_equal.
    apply trie_ok_branch in Hok1 as (Hl1 & _ & Ho1), Hok2 as (Hl2 & _ & Ho2). apply canon_branch in Hc1 as [Hc1 _], Hc2 as [Hc2 _].
    rewrite Forall_forall in IH, Ho1, Hc1, Ho2, Hc2. apply (list_eq_same_length _ _ 16); [done|done|].
    intros i c c' Hi Hci Hci'. pose proof (list_elem_of_lookup_2 _ _ _ Hci) as Hin. pose proof (list_elem_of_lookup_2 _ _ _ Hci') as Hin'.
    apply (IH c Hin (d - 1)%nat (e - 1)%nat c'); [by destruct (Ho1 c Hin) as [->|[_ ?]]|by destruct (Ho2 c' Hin') as [->|[_ ?]]|auto|auto|].
    intros k Hk. specialize (Hsame (Z.of_nat i :: k) ltac:(constructor; [lia|done])). rewrite !tget_child in Hsame.
    by rewrite (child_lookup cs _ c), (child_lookup cs' _ c') in Hsame by (by rewrite Nat2Z.id).
Qed.

(** ** Deletion *)

Definition tgraft (k0 : list Z) (c : trie) : trie :=
  match c with Leaf k1 v => Leaf (k0 ++ k1) v | Ext k1 c => Ext (k0 ++ k1) c | _ => Ext k0 c end.

(** A branch with one slot left becomes an extension of it. *)
Definition collapse (cs : list trie) (w : list Z) : trie :=
  let u := only 0 (in_use cs w) 255 in
  if u =? 255 then Branch cs w else tgraft [u] (child cs u).

(** No value: the key is not there. *)
Fixpoint tdelete (t : trie) (k : list Z) : option trie :=
  match t with
  | Null => None
  | Leaf k0 _ => if decide (k0 = k) then Some Null else None
  | Ext k0 c =>
      if decide (k0 `prefix_of` k) then
        match tdelete c (drop (length k0) k) with Some c' => Some (tgraft k0 c') | None => None end
      else None
  | Branch cs w =>
      match k with
      | [] => None
      | n :: k' =>
          match nth (Z.to_nat n) (map (fun c => tdelete c k') cs) None with
          | Some c' => Some (collapse (<[Z.to_nat n := c']> cs) w)
          | None => None
          end
      end
  end.

Lemma tdelete_child cs w n k : tdelete (Branch cs w) (n :: k) =
  match tdelete (child cs n) k with Some c' => Some (collapse (<[Z.to_nat n := c']> cs) w) | None => None end.
Proof.
  cbn [tdelete]. unfold child. rewrite <- (map_nth (fun c => tdelete c k) cs Null). done.
Qed.

(** No value is at a branch: no key is a prefix of another. *)
Fixpoint flat (t : trie) : Prop :=
  match t with
  | Null | Leaf _ _ => True
  | Ext _ c => flat c
  | Branch cs w => foldr (fun c P => flat c /\ P) True cs /\ w = []
  end.

Lemma flat_branch cs w : flat (Branch cs w) <-> Forall flat cs /\ w = [].
Proof. cbn [flat]. by rewrite (foldr_Forall flat). Qed.

(** *** The slot in use *)

Lemma only_used bs i u : u <> 255 -> only i bs u = if decide (count bs = 0%nat) then u else 255.
Proof.
  revert i. induction bs as [|[] bs IH]; intros i Hu; cbn [only count]; [done| |by apply IH].
  destruct (Z.eqb_spec u 255); [done|]. by destruct (decide (_ = _)).
Qed.

Lemma only_spec bs i : 0 <= i -> i + lenZ bs <= 255 ->
  (count bs <> 1%nat /\ only i bs 255 = 255) \/
  (exists j, count bs = 1%nat /\ bs !! j = Some true /\ only i bs 255 = i + Z.of_nat j).
Proof.
  revert i. induction bs as [|[] bs IH]; intros i Hi Hl; cbn [only count].
  - by left.
  - change (255 =? 255) with true. cbv iota. rewrite lenZ_cons in Hl. pose proof (lenZ_nonneg bs). rewrite only_used by lia.
    destruct (decide (count bs = 0%nat)) as [->|Hn]; [right; exists 0%nat; split; [done|]; split; [done|lia]|left; split; [lia|done]].
  - rewrite lenZ_cons in Hl. destruct (IH (i + 1) ltac:(lia) ltac:(lia)) as [[? ?]|(j & ? & ? & ?)]; [by left|right].
    exists (S j). split; [done|]. split; [done|lia].
Qed.

Lemma in_use_length cs w : length cs = 16%nat -> lenZ (in_use cs w) = 17.
Proof. intros Hl. unfold in_use, lenZ. rewrite length_app, length_map, Hl. done. Qed.

Lemma count_unique bs i j : count bs = 1%nat -> bs !! i = Some true -> bs !! j = Some true -> i = j.
Proof.
  assert (forall bs i, count bs = 0%nat -> bs !! i <> Some true) as Hz.
  { clear. induction bs as [|[] bs IH]; intros [|i]; cbn; try done. apply IH. }
  revert i j. induction bs as [|[] bs IH]; intros [|i] [|j]; cbn; try done; intros Hc Hi Hj.
  - exfalso. eapply (Hz bs j); [lia|done].
  - exfalso. eapply (Hz bs i); [lia|done].
  - exfalso. eapply (Hz bs i); [lia|done].
  - f_equal. eauto.
Qed.

(** A branch without a value that has children: it stays, or has one. *)
Lemma collapse_cases cs : length cs = 16%nat -> (1 <= count (in_use cs []))%nat ->
  ((2 <= count (in_use cs []))%nat /\ collapse cs [] = Branch cs []) \/
  (exists i c, (i < 16)%nat /\ cs !! i = Some c /\ c <> Null /\ (forall j c', cs !! j = Some c' -> j <> i -> c' = Null) /\
    only 0 (in_use cs []) 255 = Z.of_nat i /\ collapse cs [] = tgraft [Z.of_nat i] c).
Proof.
  intros Hl Hcount. pose proof (in_use_length cs [] Hl) as Hlen. unfold collapse.
  destruct (only_spec (in_use cs []) 0 ltac:(lia) ltac:(lia)) as [[Hne ->]|(i & Hone & Hi & E)].
  - left. split; [lia|done].
  - right. rewrite Z.add_0_l in E. rewrite E. pose proof (lookup_lt_Some _ _ _ Hi) as Hlt. unfold lenZ in Hlen.
    assert (i < 16)%nat as Hi16.
    { destruct (decide (i = 16%nat)) as [->|]; [|lia]. unfold in_use in Hi. rewrite lookup_app_r in Hi by (rewrite length_map; lia).
      rewrite length_map, Hl in Hi. done. }
    assert (forall j c, cs !! j = Some c -> in_use cs [] !! j = Some (negb (bool_decide (c = Null)))) as Hslot.
    { intros j c Hj. unfold in_use. rewrite lookup_app_l by (rewrite length_map; by eapply lookup_lt_Some). by rewrite list_lookup_fmap, Hj. }
    destruct (lookup_lt_is_Some_2 cs i) as [c Hc]; [lia|]. exists i, c. pose proof (Hslot i c Hc) as Hic. rewrite Hi in Hic. injection Hic as Hic.
    split; [done|]. split; [done|]. split; [intros ->; done|]. split.
    + intros j c' Hj Hji. destruct (decide (c' = Null)) as [|Hn]; [done|]. exfalso. apply Hji. apply (count_unique _ _ _ Hone); [|done].
      rewrite (Hslot _ _ Hj), bool_decide_eq_false_2 by done. done.
    + split; [done|]. destruct (Z.eqb_spec (Z.of_nat i) 255); [lia|]. by rewrite (child_lookup cs _ c) by (by rewrite Nat2Z.id).
Qed.

(** *** Grafting *)

Lemma tget_tgraft k0 c k : tget (tgraft k0 c) k = if decide (k0 `prefix_of` k) then tget c (drop (length k0) k) else [].
Proof.
  destruct c as [|k1 v|k1 c|cs w]; cbn [tgraft]; try done.
  - destruct (decide (k0 `prefix_of` k)) as [[q ->]|Hn].
    + rewrite drop_app_length. cbn [tget]. destruct (decide (k0 ++ k1 = k0 ++ q)) as [E|E], (decide (k1 = q)); try done; [by apply app_inv_head in E|by subst].
    + cbn [tget]. rewrite decide_False; [done|]. intros <-. apply Hn. by apply prefix_app_r.
  - destruct (decide (k0 `prefix_of` k)) as [[q ->]|Hn].
    + rewrite drop_app_length. cbn [tget]. destruct (decide (k0 ++ k1 `prefix_of` k0 ++ q)) as [E|E], (decide (k1 `prefix_of` q)) as [E'|E']; try done.
      * by rewrite length_app, <- drop_drop, drop_app_length.
      * by apply prefix_app_inv in E.
      * destruct E. by apply prefix_app.
    + apply tget_Ext_other. intros Hp. apply Hn. etrans; [|exact Hp]. by apply prefix_app_r.
Qed.

Lemma tgraft_ok d k0 c : key_ok d k0 -> k0 <> [] -> c <> Null -> trie_ok (d - length k0) c -> canon c -> flat c ->
  trie_ok d (tgraft k0 c) /\ canon (tgraft k0 c) /\ flat (tgraft k0 c) /\ tgraft k0 c <> Null.
Proof.
  intros [Hk Hl] Hne Hn Hok Hc Hf. destruct c as [|k1 v|k1 c|cs w]; cbn [tgraft]; [done|..].
  - destruct Hok as ([Hk1 Hl1] & Hv). split; [|done]. split; [|done]. split; [by apply Forall_app|rewrite length_app; lia].
  - destruct Hok as ([Hk1 Hl1] & Hne1 & Hn1 & Hc1). split; [|done]. cbn [trie_ok]. rewrite length_app.
    split; [split; [by apply Forall_app|rewrite length_app; lia]|]. split; [by destruct k0|]. split; [done|].
    by replace (d - (length k0 + length k1))%nat with (d - length k0 - length k1)%nat by lia.
  - split; [|done]. cbn [trie_ok]. split; [by split|]. done.
Qed.

Lemma tget_collapse cs k : length cs = 16%nat -> (1 <= count (in_use cs []))%nat -> nibble_list k ->
  tget (collapse cs []) k = tget (Branch cs []) k.
Proof.
  intros Hl Hc Hk. destruct (collapse_cases cs Hl Hc) as [[_ ->]|(i & c & Hi & Hic & _ & Hothers & _ & ->)]; [done|].
  rewrite tget_tgraft. destruct k as [|n k]; [rewrite decide_False; [done|by intros ?%prefix_nil_inv]|].
  apply Forall_cons_1 in Hk as [Hn _]. rewrite tget_child. destruct (decide (n = Z.of_nat i)) as [->|Hne].
  - rewrite decide_True by (apply prefix_cons, prefix_nil). cbn [length drop]. rewrite drop_0. by rewrite (child_lookup cs _ c) by (by rewrite Nat2Z.id).
  - rewrite decide_False by (intros Hp; by apply prefix_cons_inv_1 in Hp).
    destruct (lookup_lt_is_Some_2 cs (Z.to_nat n)) as [c' Hc']; [lia|]. rewrite (child_lookup cs _ c') by done.
    by rewrite (Hothers _ _ Hc') by lia.
Qed.

Lemma collapse_ok d cs : trie_ok d (Branch cs []) -> Forall canon cs -> Forall flat cs -> (1 <= count (in_use cs []))%nat ->
  trie_ok d (collapse cs []) /\ canon (collapse cs []) /\ flat (collapse cs []) /\ collapse cs [] <> Null.
Proof.
  intros Hok Hcc Hff Hc. pose proof Hok as Hok'. apply trie_ok_branch in Hok as (Hl & _ & Hcs).
  destruct (collapse_cases cs Hl Hc) as [[H2 ->]|(i & c & Hi & Hic & Hn & _ & _ & ->)].
  - split; [done|]. split; [by apply canon_branch|]. split; [by apply flat_branch|done].
  - pose proof (list_elem_of_lookup_2 _ _ _ Hic) as Hin. rewrite Forall_forall in Hcs, Hcc, Hff.
    destruct (Hcs c Hin) as [|[Hd Hoc]]; [done|]. apply tgraft_ok; auto. split; [constructor; [lia|done]|cbn; lia].
Qed.

(** A branch without a value, in which a child is replaced. *)
Lemma replaced_child d cs n c : trie_ok d (Branch cs []) -> is_nibble n -> child cs n <> Null -> trie_ok (d - 1) c ->
  trie_ok d (Branch (<[Z.to_nat n := c]> cs) []) /\ ((2 <= count (in_use cs []))%nat -> (1 <= count (in_use (<[Z.to_nat n := c]> cs) []))%nat).
Proof.
  intros Hok Hn Hnn Hc. apply trie_ok_branch in Hok as (Hl & Hw & Hcs). destruct (lookup_lt_is_Some_2 cs (Z.to_nat n)) as [old Ho]; [lia|].
  rewrite (child_lookup _ _ _ Ho) in Hnn. split.
  - apply trie_ok_branch. rewrite length_insert. split; [done|]. split; [done|]. apply Forall_insert; [done|].
    rewrite Forall_forall in Hcs. destruct (Hcs old (list_elem_of_lookup_2 _ _ _ Ho)) as [|[? _]]; [done|]. by right.
  - intros Hcount. rewrite in_use_insert by lia. assert (in_use cs [] !! Z.to_nat n = Some true) as Hu.
    { unfold in_use. rewrite lookup_app_l by (rewrite length_map; lia). rewrite list_lookup_fmap, Ho. cbn. by rewrite bool_decide_eq_false_2. }
    pose proof (count_insert _ _ (negb (bool_decide (c = Null))) _ Hu). cbv iota in *. lia.
Qed.

Lemma tdelete_spec d t k : trie_ok d t -> canon t -> flat t -> nibble_list k ->
  match tdelete t k with
  | None => tget t k = []
  | Some t' => trie_ok d t' /\ canon t' /\ flat t' /\ (is_branch t -> t' <> Null) /\ tget t k <> [] /\
      forall k', nibble_list k' -> tget t' k' = if decide (k' = k) then [] else tget t k'
  end.
Proof.
  revert d k. induction t as [|k0 v0|k0 c IH|cs w IH] using trie_ind_all; intros d k Hok Hc Hf Hk.
  - done.
  - cbn [tdelete tget]. destruct (decide (k0 = k)) as [->|Hne]; [|done]. cbn [canon] in Hc.
    do 3 (split; [done|]). split; [done|]. split; [done|].
    intros k' _. cbn [tget]. destruct (decide (k' = k)), (decide (k = k')); congruence.
  - destruct Hok as ([Hk0 Hl0] & Hn0 & Hnull & Hco), Hc as [Hb Hc]. cbn [tdelete tget flat] in *.
    destruct (decide (k0 `prefix_of` k)) as [[q ->]|Hne]; [|done]. rewrite drop_app_length. apply Forall_app in Hk as [_ Hq].
    specialize (IH _ q Hco Hc Hf Hq). destruct (tdelete c q) as [c'|]; [|done]. destruct IH as (Ho' & Hc' & Hf' & Hn' & Hg & Hget).
    destruct (tgraft_ok d k0 c') as (? & ? & ? & ?); [by split|done|by apply Hn'|done..|]. do 3 (split; [done|]). split; [done|]. split; [done|].
    intros k' Hk'. rewrite tget_tgraft. destruct (decide (k0 `prefix_of` k')) as [[q' ->]|Hne'].
    + rewrite drop_app_length. apply Forall_app in Hk' as [_ Hq']. rewrite Hget by done.
      destruct (decide (q' = q)) as [->|]; [by rewrite decide_True|]. rewrite decide_False; [done|]. intros E. by apply app_inv_head in E.
    + rewrite decide_False; [done|]. intros ->. apply Hne'. by apply prefix_app_r.
  - pose proof Hok as Hok'. apply trie_ok_branch in Hok as (Hl & Hw & Hcs). apply canon_branch in Hc as [Hcc Hcount]. apply flat_branch in Hf as [Hff ->].
    destruct k as [|n k]; [done|]. apply Forall_cons_1 in Hk as [Hn Hk]. rewrite tdelete_child, tget_child.
    pose proof (child_in cs n Hn Hl) as Hin. rewrite Forall_forall in IH.
    assert (trie_ok (d - 1) (child cs n)) as Hco by (rewrite Forall_forall in Hcs; by destruct (Hcs _ Hin) as [->|[_ ?]]).
    assert (canon (child cs n)) as Hcn by (rewrite Forall_forall in Hcc; auto).
    assert (flat (child cs n)) as Hfn by (rewrite Forall_forall in Hff; auto).
    specialize (IH _ Hin _ k Hco Hcn Hfn Hk). destruct (tdelete (child cs n) k) as [c'|]; [|done].
    destruct IH as (Ho' & Hc' & Hf' & _ & Hg & Hget).
    assert (child cs n <> Null) as Hcnn by (intros E; by rewrite E in Hg).
    destruct (replaced_child d cs n c' Hok' Hn Hcnn Ho') as [Hob H1]. specialize (H1 Hcount).
    destruct (collapse_ok d _ Hob ltac:(by apply Forall_insert) ltac:(by apply Forall_insert) H1) as (? & ? & ? & ?).
    do 3 (split; [done|]). split; [done|]. split; [done|]. intros k' Hk'. rewrite tget_collapse by (done || by rewrite length_insert).
    destruct k' as [|m k']; [done|]. apply Forall_cons_1 in Hk' as [Hm Hk']. rewrite !tget_child, child_insert by done.
    destruct (decide (m = n)) as [->|Hmn].
    + rewrite Hget by done. destruct (decide (k' = k)), (decide (n :: k' = n :: k)); congruence.
    + by rewrite (decide_False (P := m :: k' = n :: k)) by congruence.
Qed.
