(* ===== verification/TrieOps.v ===== *)
(** * The trie functions compute the functions on trees

    [atAux], [mergeAt] and [deleteAt] walk the stored tree as [tget], [tinsert]
    and [tdelete] walk the tree, with the fuel the length of the key gives, and
    leave a database that holds the new tree. *)
From stdpp Require Import base list.
From Stdlib Require Import ZArith Lia.
From S2P Require Import Prelude Words Result Account Rlp RlpSpec RlpRead RlpTheorems RlpInt.
From S2P Require Import StateMonad TrieCommon TrieKeys NodeDB TrieDB TrieItems TrieSpec TrieNodes TrieTree.
Open Scope prog_scope.

Section Ops.
  Context {DB : Type} `{!NodeDB DB} `{!NodeDBLaws DB} `{Sha3} `{!Sha3Range}.

Lemma both_Value a b x : a = Value x -> (x = true -> exists y, b = Value y) -> both a b = Value (x && match b with Value y => y | _ => false end).
Proof. intros -> Hb. unfold both. cbn [rbind]. destruct x; [|done]. by destruct (Hb eq_refl) as [y ->]. Qed.

Section PairKey.
  Context (t : trie) (leaf : bool) (k : list Z) (x : item) (s : NibbleSlice) (Hp : pair_facts t leaf k x) (Hs : slice_ok s).

Lemma key_is : both (slice_eq s (keyOf_bytes (hp leaf k))) (isLeaf (enc t)) = Value (bool_decide (nibbles s = k) && leaf).
Proof.
  destruct (key_slice _ _ _ _ Hp) as [Hk Hn]. rewrite (enc_leaf _ _ _ _ Hp). rewrite slice_eq_spec, Hn by done. unfold both. cbn [rbind].
  by destruct (bool_decide _).
Qed.

Lemma key_is' : both (slice_eq (keyOf_bytes (hp leaf k)) s) (isLeaf (enc t)) = Value (bool_decide (k = nibbles s) && leaf).
Proof.
  destruct (key_slice _ _ _ _ Hp) as [Hk Hn]. rewrite (enc_leaf _ _ _ _ Hp). rewrite slice_eq_spec, Hn by done. unfold both. cbn [rbind].
  by destruct (bool_decide _).
Qed.

Lemma key_below : both (contains s (keyOf_bytes (hp leaf k))) (not_ (isLeaf (enc t))) = Value (bool_decide (k `prefix_of` nibbles s) && negb leaf).
Proof.
  destruct (key_slice _ _ _ _ Hp) as [Hk Hn]. rewrite (enc_leaf _ _ _ _ Hp). rewrite contains_spec, Hn by done. unfold both, not_. cbn [rbind].
  by destruct (bool_decide _).
Qed.

Lemma key_size : slice_size (keyOf_bytes (hp leaf k)) = Z.of_nat (length k).
Proof. destruct (key_slice _ _ _ _ Hp) as [Hk Hn]. rewrite slice_size_spec, Hn by done. done. Qed.

Lemma key_mid : k `prefix_of` nibbles s ->
  slice_ok (mid s (Z.of_nat (length k))) /\ nibbles (mid s (Z.of_nat (length k))) = drop (length k) (nibbles s).
Proof.
  intros Hpre. pose proof (prefix_length _ _ Hpre). destruct (mid_spec s Hs (Z.of_nat (length k))) as [? E]; [unfold lenZ; lia|].
  split; [done|]. by rewrite E, Nat2Z.id.
Qed.
End PairKey.

Lemma slice_cons s n k : slice_ok s -> nibbles s = n :: k ->
  (slice_size s =? 0) = false /\ slice_index s 0 = Value n /\ is_nibble n /\ slice_ok (mid s 1) /\ nibbles (mid s 1) = k.
Proof.
  intros Hs E. pose proof (slice_nibbles s Hs) as Hn. rewrite E in Hn. apply Forall_inv in Hn.
  rewrite slice_size_spec by done. destruct (mid_spec s Hs 1) as [Hm Hmn]; [rewrite E, lenZ_cons; pose proof (lenZ_nonneg k); lia|].
  split; [rewrite E, lenZ_cons; pose proof (lenZ_nonneg k); apply Z.eqb_neq; lia|]. split; [by apply slice_index_spec; [done|rewrite E]|].
  split; [done|]. split; [done|]. rewrite Hmn, E. change (Z.to_nat 1) with 1%nat. cbn [drop]. by rewrite drop_0.
Qed.

Lemma slice_nil s : slice_ok s -> nibbles s = [] -> (slice_size s =? 0) = true.
Proof. intros Hs E. by rewrite slice_size_spec, E by done. Qed.

(** ** Going down *)

(** A child, wherever it is. *)
Lemma ends_down {A} (g : list Z -> prog A) d t db Q : (d <= max_depth)%nat -> trie_ok d t -> t <> Null -> kept db t ->
  ends (g (enc t)) db Q ->
  ends (n <- (if isList (encode (ref t)) then pret (encode (ref t)) else node_of (encode (ref t))) ;; g n) db Q.
Proof.
  intros Hd Hok Hn [_ Hh] Hg. destruct (Z.lt_ge_cases (lenZ (enc t)) 32) as [Hl|Hl].
  - destruct (ref_short d t Hd Hok Hl) as [-> ->]. by rewrite bool_decide_eq_false_2.
  - destruct (ref_long d t Hd Hok Hl) as (_ & -> & _). by eapply (ends_node_of d).
Qed.

Lemma branch_at d cs w n : (d <= max_depth)%nat -> trie_ok d (Branch cs w) -> is_nibble n ->
  rlp_at (enc (Branch cs w)) n = Value (encode (ref (child cs n))).
Proof.
  intros Hd Hok Hn. destruct (branch_items d cs w Hd Hok) as (Hni & _ & _ & Hl). change (enc (Branch cs w)) with (encode (Lst (map ref cs ++ [Str w]))).
  rewrite (node_at _ Hni) by lia. rewrite length_map in Hl. destruct (lookup_lt_is_Some_2 cs (Z.to_nat n)) as [c Hc]; [lia|].
  rewrite (child_lookup cs n c Hc). rewrite list_lookup_fmap, lookup_app_l by (rewrite length_map; lia). rewrite list_lookup_fmap, Hc. done.
Qed.

Lemma branch_at16 d cs w : (d <= max_depth)%nat -> trie_ok d (Branch cs w) -> rlp_at (enc (Branch cs w)) 16 = Value (encode (Str w)).
Proof.
  intros Hd Hok. destruct (branch_items d cs w Hd Hok) as (Hni & _ & _ & Hl). change (enc (Branch cs w)) with (encode (Lst (map ref cs ++ [Str w]))).
  rewrite (node_at _ Hni) by lia. rewrite list_lookup_fmap, lookup_app_r by lia. rewrite Hl. done.
Qed.

Lemma branch_two17 d cs w : (d <= max_depth)%nat -> trie_ok d (Branch cs w) -> two_or_seventeen (enc (Branch cs w)) = pret 17.
Proof. intros Hd Hok. destruct (branch_items d cs w Hd Hok) as (Hni & Hl & _ & _). apply (branch_seventeen _ Hni). unfold lenZ. lia. Qed.

Lemma child_facts d cs w n db : trie_ok d (Branch cs w) -> is_nibble n -> stored db (Branch cs w) ->
  kept db (child cs n) /\ trie_ok (d - 1) (child cs n).
Proof.
  intros Hok Hn Hst. apply trie_ok_branch in Hok as (Hl & _ & Hcs). apply stored_branch in Hst. pose proof (child_in cs n Hn Hl) as Hin.
  rewrite Forall_forall in Hcs, Hst. split; [auto|]. by destruct (Hcs _ Hin) as [->|[_ ?]].
Qed.

Lemma ends_atAux d fuel t s db (Q : list Z -> DB -> Prop) : (d <= max_depth)%nat -> trie_ok d t -> stored db t -> slice_ok s ->
  (length (nibbles s) < fuel)%nat -> Q (tget t (nibbles s)) db -> ends (atAux fuel (enc t) s) db Q.
Proof.
  revert d t s. induction fuel as [|fuel IH]; intros d t s Hd Hok Hst Hs Hfuel HQ; [lia|]. cbn [atAux].
  rewrite (enc_isNull d t Hd Hok), (enc_isEmpty d t Hd Hok), orb_false_r.
  destruct t as [|k0 v|k0 c|cs w]; [by apply ends_ret|..]; rewrite bool_decide_eq_false_2 by done; cbv iota.
  - pose proof (is_pair_facts d _ _ _ _ (pair_of_leaf k0 v) Hd Hok) as Hp. rewrite (enc_two _ _ _ _ Hp). pstep. change (2 =? 2) with true. cbv iota.
    rewrite (enc_key _ _ _ _ Hp). pstep. rewrite (key_is _ _ _ _ s Hp Hs). pstep. rewrite andb_true_r. cbn [tget] in HQ.
    destruct (decide (k0 = nibbles s)) as [E|E].
    + rewrite bool_decide_eq_true_2 by done. rewrite (enc_at1 _ _ _ _ Hp). pstep. destruct Hok as (_ & [Hvb Hvl]).
      apply ends_lift with (a := v); [apply str_toString; [done|lia]|done].
    + rewrite bool_decide_eq_false_2 by congruence. rewrite (key_below _ _ _ _ s Hp Hs). pstep. rewrite andb_false_r. by apply ends_ret.
  - pose proof (is_pair_facts d _ _ _ _ (pair_of_ext k0 c) Hd Hok) as Hp. rewrite (enc_two _ _ _ _ Hp). pstep. change (2 =? 2) with true. cbv iota.
    rewrite (enc_key _ _ _ _ Hp). pstep. rewrite (key_is _ _ _ _ s Hp Hs). pstep. rewrite andb_false_r. cbv iota.
    rewrite (key_below _ _ _ _ s Hp Hs). pstep. rewrite andb_true_r. cbn [tget] in HQ. destruct Hok as ([Hk0 Hl0] & Hne & Hnull & Hco).
    destruct (decide (k0 `prefix_of` nibbles s)) as [E|E].
    + rewrite bool_decide_eq_true_2 by done. rewrite (enc_at1 _ _ _ _ Hp). pstep. rewrite (key_size _ _ _ _ Hp).
      destruct (key_mid k0 s Hs E) as [Hms Hmn]. apply (ends_down _ (d - length k0)); [lia|done|done|exact Hst|].
      apply (IH (d - length k0)%nat); [lia|done|apply Hst|done| |by rewrite Hmn].
      rewrite Hmn, length_drop. pose proof (prefix_length _ _ E). destruct k0; [done|]. cbn [length] in *. lia.
    + rewrite bool_decide_eq_false_2 by done. by apply ends_ret.
  - rewrite (branch_two17 d cs w Hd Hok). pstep. change (17 =? 2) with false. cbv iota. destruct (nibbles s) as [|n k] eqn:E.
    + rewrite (slice_nil s Hs E). rewrite (branch_at16 d cs w Hd Hok). pstep. apply trie_ok_branch in Hok as (_ & [Hwb Hwl] & _).
      apply ends_lift with (a := w); [apply str_toString; [done|lia]|done].
    + destruct (slice_cons s n k Hs E) as (-> & Hidx & Hn & Hms & Hmn). rewrite Hidx. pstep. rewrite (branch_at d cs w n Hd Hok Hn). pstep.
      destruct (child_facts d cs w n db Hok Hn Hst) as [Hkept Hco]. rewrite (ref_isEmpty (d - 1) _ ltac:(lia) Hco). rewrite tget_child in HQ.
      destruct (decide (child cs n = Null)) as [En|En].
      * rewrite bool_decide_eq_true_2 by done. rewrite En in HQ. by apply ends_ret.
      * rewrite bool_decide_eq_false_2 by done. apply (ends_down _ (d - 1)); [lia|done|done|done|].
        apply (IH (d - 1)%nat); [lia|done|apply Hkept|done|rewrite Hmn; cbn [length] in Hfuel; lia|by rewrite Hmn].
Qed.

(** The items of a branch, and the items of a branch with another child. *)
Lemma child_ref cs w n : is_nibble n -> length cs = 16%nat -> (map ref cs ++ [Str w]) !! Z.to_nat n = Some (ref (child cs n)).
Proof.
  intros Hn Hl. rewrite lookup_app_l by (rewrite length_map; lia). destruct (lookup_lt_is_Some_2 cs (Z.to_nat n)) as [c Hc]; [lia|].
  by rewrite list_lookup_fmap, Hc, (child_lookup _ _ _ Hc).
Qed.

Lemma replace_child cs w m c : (m < 16)%nat -> length cs = 16%nat ->
  (take m (map ref cs ++ [Str w]) ++ [ref c]) ++ drop (S m) (map ref cs ++ [Str w]) = map ref (<[m := c]> cs) ++ [Str w].
Proof.
  intros Hm Hl. rewrite <- app_assoc. cbn [app]. rewrite <- insert_take_drop by (rewrite length_app, length_map; lia).
  rewrite insert_app_l by (rewrite length_map; lia). f_equal. symmetry. apply list_fmap_insert.
Qed.

Lemma stored_insert db db' cs w m c : stored db (Branch cs w) -> le db db' -> kept db' c -> stored db' (Branch (<[m := c]> cs) w).
Proof.
  intros Hst Hle Hk. apply stored_branch, Forall_insert; [|done]. apply (Forall_impl (kept db)); [by apply stored_branch in Hst|].
  intros c' Hc. by eapply kept_le.
Qed.

(** ** Insertion *)

(** The rounds a key takes. *)
Fixpoint need (t : trie) (k : list Z) : nat :=
  match t with
  | Null => 1
  | Leaf k0 _ => if decide (k0 = k) then 1 else if decide (lcp k k0 = 0%nat) then 3 else 5
  | Ext k0 c => if decide (k0 `prefix_of` k) then S (need c (drop (length k0) k)) else if decide (lcp k k0 = 0%nat) then 3 else 5
  | Branch cs _ => match k with [] => 1 | n :: k' => S (nth (Z.to_nat n) (map (fun c => need c k') cs) 1%nat) end
  end.

Lemma need_child cs w n k : need (Branch cs w) (n :: k) = S (need (child cs n) k).
Proof. cbn [need]. unfold child. rewrite <- (map_nth (fun c => need c k) cs Null). done. Qed.

Lemma need_bound d t k : trie_ok d t -> nibble_list k -> (need t k <= length k + 5)%nat.
Proof.
  revert d k. induction t as [|k0 v0|k0 c IH|cs w IH] using trie_ind_all; intros d k Hok Hk.
  - cbn. lia.
  - cbn [need]. repeat case_decide; lia.
  - cbn [need]. destruct Hok as (_ & Hne & _ & Hc). case_decide as E; [|case_decide; lia]. destruct E as [q ->]. rewrite drop_app_length.
    apply Forall_app in Hk as [_ Hq]. specialize (IH _ q Hc Hq). rewrite length_app. destruct k0; [done|]. cbn [length]. lia.
  - destruct k as [|n k]; [cbn; lia|]. rewrite need_child. apply trie_ok_branch in Hok as (Hl & _ & Hcs). apply Forall_cons_1 in Hk as [Hn Hk].
    rewrite Forall_forall in IH, Hcs. pose proof (child_in cs n Hn Hl) as Hin.
    assert (trie_ok (d - 1) (child cs n)) as Hc by (by destruct (Hcs _ Hin) as [->|[_ ?]]).
    pose proof (IH _ Hin _ k Hc Hk). cbn [length]. lia.
Qed.

(** [rec] inserts into [t]. *)
Definition inserts (rec : list Z -> Z -> NibbleSlice -> list Z -> bool -> prog (list Z)) (t : trie) (s : NibbleSlice) (v : list Z) : Prop :=
  forall A (g : list Z -> prog A) h inl db Q, stored db t ->
    (forall db', le db db' -> stored db' (tinsert t (nibbles s) v) -> ends (g (enc (tinsert t (nibbles s) v))) db' Q) ->
    ends (pbind (rec (enc t) h s v inl) g) db Q.

(** The new child is written to the parent's stream. *)
Lemma ends_mergeAtAux {A} (g : RLPStream -> prog A) rec d t s v n l db Q : (d <= max_depth)%nat -> trie_ok d t ->
  trie_ok d (tinsert t (nibbles s) v) -> kept db t -> inserts rec t s v -> Forall small l -> lenZ l < n <= 17 ->
  (forall db', le db db' -> kept db' (tinsert t (nibbles s) v) -> ends (g (partial n (l ++ [ref (tinsert t (nibbles s) v)]))) db' Q) ->
  ends (pbind (mergeAtAux rec (encode (ref t)) s v (partial n l)) g) db Q.
Proof.
  intros Hd Hok Hok' [Hst Hh] Hrec Hsm Hn Hg. unfold mergeAtAux.
  assert (forall inl, ends (b <- rec (enc t) (sha3 (enc t)) s v inl ;; (r <- streamNode b (partial n l) ;; g r)) db Q) as Hcont.
  { intros inl. apply Hrec; [done|]. intros db' Hle Hst'. apply (ends_streamNode d); [done|done|done|done|].
    intros db2 Hle2 Hh'. apply Hg; [by eapply le_trans|]. split; [by eapply stored_grows|done]. }
  destruct (Z.lt_ge_cases (lenZ (enc t)) 32) as [Hl|Hl].
  - destruct (ref_short d t Hd Hok Hl) as [-> ->]. rewrite (enc_isEmpty d t Hd Hok), negb_involutive.
    rewrite andb_negb_r. pstep. apply ends_assoc. apply Hcont.
  - destruct (ref_long d t Hd Hok Hl) as (_ & -> & _ & -> & _ & _). cbn [negb andb]. apply ends_assoc, ends_assoc.
    apply (ends_node_of d); [done|done|done|done|]. rewrite (enc_isNull d t Hd Hok). cbn [negb assert_]. pstep. apply ends_assoc, Hcont.
Qed.

Lemma inserts_place rec t s v : (forall h inl, rec (enc t) h s v inl = place (enc t) s v) ->
  (forall db (Q : list Z -> DB -> Prop), (forall db', le db db' -> Q (enc (tinsert t (nibbles s) v)) db') -> ends (place (enc t) s v) db Q) ->
  (forall db, stored db t -> stored db (tinsert t (nibbles s) v)) -> inserts rec t s v.
Proof.
  intros He Hp Hs A g h inl db Q Hst Hg. rewrite He.
  eapply ends_bind; [apply (Hp _ (fun b db' => b = enc (tinsert t (nibbles s) v) /\ le db db')); done|].
  intros b db' _ [-> Hle]. apply Hg; [done|]. apply Hs. by eapply stored_grows.
Qed.

Lemma pair_tkey t leaf k x : is_pair t leaf k x -> is_two t = true /\ tkey t = k.
Proof. by intros []. Qed.

Lemma pair_key_ok d t leaf k x : is_pair t leaf k x -> trie_ok d t -> key_ok d k.
Proof. intros []; cbn [trie_ok]; by intros (? & _). Qed.

Lemma with_tkey t : is_two t = true -> with_key (tkey t) t = t.
Proof. by destruct t. Qed.

Lemma tinsert_differ t k k' v : is_two t = true -> tkey t = k -> (forall k0 v0, t = Leaf k0 v0 -> k' <> k0) ->
  (forall k0 c, t = Ext k0 c -> ~ k0 `prefix_of` k') -> tinsert t k' v = split_at k t k' v.
Proof.
  destruct t as [|k0 v0|k0 c|]; try done; cbn [tkey]; intros _ <- Hl He; cbn [tinsert].
  - rewrite decide_False; [done|]. intros ->. by eapply Hl.
  - rewrite decide_False; [done|]. by eapply He.
Qed.

Section Merge.
  Context (d : nat) (s : NibbleSlice) (v : list Z) (Hd : (d <= max_depth)%nat) (Hs : slice_ok s) (Hv : val_ok v).

Lemma merge_null f : (length (nibbles s) <= d)%nat -> inserts (mergeAt (S f)) Null s v.
Proof.
  intros Hl. apply inserts_place; [done| |done]. intros db Q HQ. by apply place_null; [|lia|..].
Qed.

Lemma merge_leaf f v0 : trie_ok d (Leaf (nibbles s) v0) -> inserts (mergeAt (S f)) (Leaf (nibbles s) v0) s v.
Proof.
  intros Hok. pose proof (is_pair_facts d _ _ _ _ (pair_of_leaf _ v0) Hd Hok) as Hp. apply inserts_place.
  - intros h inl. cbn [mergeAt]. rewrite (enc_isEmpty d _ Hd Hok), bool_decide_eq_false_2, (enc_two _ _ _ _ Hp) by done. pstep.
    change (2 =? 2) with true. cbv iota. rewrite (enc_key _ _ _ _ Hp). pstep. rewrite (key_is' _ _ _ _ s Hp Hs). pstep.
    by rewrite bool_decide_eq_true_2.
  - intros db Q HQ. cbn [tinsert] in HQ. rewrite decide_True in HQ by done. by apply (place_leaf d).
  - intros db _. cbn [tinsert]. by rewrite decide_True.
Qed.

Lemma merge_value f cs w : trie_ok d (Branch cs w) -> nibbles s = [] -> inserts (mergeAt (S f)) (Branch cs w) s v.
Proof.
  intros Hok E. apply inserts_place.
  - intros h inl. cbn [mergeAt]. rewrite (enc_isEmpty d _ Hd Hok), bool_decide_eq_false_2, (branch_two17 d cs w Hd Hok) by done. pstep.
    change (17 =? 2) with false. cbv iota. by rewrite (slice_nil s Hs E).
  - intros db Q HQ. rewrite E in HQ. by apply (place_branch d).
  - intros db Hst. by rewrite E.
Qed.

(** Below an extension. *)
Lemma merge_ext f k0 c : trie_ok d (Ext k0 c) -> (length (nibbles s) <= d)%nat -> k0 `prefix_of` nibbles s ->
  inserts (mergeAt f) c (mid s (Z.of_nat (length k0))) v -> inserts (mergeAt (S f)) (Ext k0 c) s v.
Proof.
  intros Hok Hl Hpre Hrec A g h inl db Q Hst Hg. pose proof (is_pair_facts d _ _ _ _ (pair_of_ext k0 c) Hd Hok) as Hp.
  destruct (key_mid k0 s Hs Hpre) as [Hms Hmn]. pose proof (prefix_length _ _ Hpre) as Hpl. pose proof (slice_nibbles s Hs) as Hns.
  destruct Hok as ([Hk0 Hl0] & Hne & Hnull & Hco).
  cbn [tinsert] in Hg. rewrite decide_True in Hg by done. rewrite <- Hmn in Hg. cbn [mergeAt].
  assert (isEmpty (enc (Ext k0 c)) = false) as ->.
  { rewrite enc_node by done. apply node_not_empty. exact (pf_items _ _ _ _ Hp). }
  rewrite (enc_two _ _ _ _ Hp). pstep. change (2 =? 2) with true. cbv iota. rewrite (enc_key _ _ _ _ Hp). pstep.
  rewrite (key_is' _ _ _ _ s Hp Hs). pstep. rewrite andb_false_r. cbv iota. rewrite (key_below _ _ _ _ s Hp Hs). pstep.
  rewrite bool_decide_eq_true_2 by done. cbn [andb negb]. cbv iota. apply ends_assoc.
  assert (forall db', le db db' -> ends (pbind (s0 <- plift (appendList 2 empty_stream) ;; i <- plift (rlp_at (enc (Ext k0 c)) 0) ;;
     s1 <- plift (append_rlp i s0) ;; i0 <- plift (rlp_at (enc (Ext k0 c)) 1) ;;
     s2 <- mergeAtAux (mergeAt f) i0 (mid s (slice_size (keyOf_bytes (hp false k0)))) v s1 ;; plift (stream_out s2)) g) db' Q) as Hrest.
  { intros db' Hle. rewrite partial_nil by lia. pstep. rewrite (enc_at0 _ _ _ _ Hp). pstep.
    rewrite partial_rlp; [|constructor|exact (key_small _ _ _ _ Hp)|done]. pstep. rewrite (enc_at1 _ _ _ _ Hp). pstep.
    rewrite (key_size _ _ _ _ Hp). apply ends_assoc.
    assert (trie_ok (d - length k0) (tinsert c (nibbles (mid s (Z.of_nat (length k0)))) v)) as Hco'.
    { apply tinsert_ok; [done| |done]. rewrite Hmn. split; [by apply Forall_drop|rewrite length_drop; lia]. }
    apply (ends_mergeAtAux _ _ (d - length k0)%nat); [lia|done|done| |done|by apply Forall_singleton, (key_small _ _ _ _ Hp)|done|].
    - destruct Hst. split; [by eapply stored_grows|by eapply held_le].
    - intros db2 Hle2 Hk2. rewrite partial_out by done. pstep. apply Hg; [by eapply le_trans|done]. }
  destruct inl; cbn [negb]; cbv iota; [apply Hrest, le_refl|]. apply ends_killNode. exact Hrest.
Qed.

(** Below a branch. *)
Lemma merge_branch f cs w n k : trie_ok d (Branch cs w) -> nibbles s = n :: k -> (length (nibbles s) <= d)%nat ->
  inserts (mergeAt f) (child cs n) (mid s 1) v -> inserts (mergeAt (S f)) (Branch cs w) s v.
Proof.
  intros Hok E Hl Hrec A g h inl db Q Hst Hg. destruct (slice_cons s n k Hs E) as (Hsz & Hidx & Hn & Hms & Hmn).
  destruct (branch_items d cs w Hd Hok) as (Hni & Hl17 & Hsm & Hl16). pose proof (slice_nibbles s Hs) as Hns. rewrite E in Hns, Hl. cbn [length] in Hl.
  destruct (child_facts d cs w n db Hok Hn Hst) as [Hkept Hco].
  pose proof (proj1 (trie_ok_branch _ _ _) Hok) as (Hlc & Hw & _). rewrite E, (tinsert_child cs w n k v Hn Hlc), <- Hmn in Hg.
  assert (trie_ok (d - 1) (tinsert (child cs n) (nibbles (mid s 1)) v)) as Hco'.
  { apply tinsert_ok; [done| |done]. rewrite Hmn. split; [by apply Forall_inv_tail in Hns|lia]. }
  cbn [mergeAt]. rewrite (enc_isEmpty d _ Hd Hok), bool_decide_eq_false_2, (branch_two17 d cs w Hd Hok) by done. pstep.
  change (17 =? 2) with false. cbv iota. rewrite Hsz. apply ends_assoc.
  set (c' := tinsert (child cs n) (nibbles (mid s 1)) v) in *.
  assert (forall db', le db db' -> ends (pbind (n0 <- plift (slice_index s 0) ;; r <- plift (appendList 17 empty_stream) ;;
     r0 <- for_items 17 0 n0 (enc (Branch cs w)) (fun it r => r <- mergeAtAux (mergeAt f) it (mid s 1) v r ;; pret (Some r)) r ;;
     match r0 with Some r => plift (stream_out r) | None => pret [] end) g) db' Q) as Hrest.
  { intros db' Hle. rewrite Hidx. pstep. rewrite partial_nil by lia. pstep. change (enc (Branch cs w)) with (encode (Lst (map ref cs ++ [Str w]))).
    pose proof (child_ref cs w n Hn Hlc) as Hat.
    clear Hidx E. remember (Z.to_nat n) as m eqn:Em. assert (n = Z.of_nat m) as -> by lia.
    rewrite (for_items_at _ Hni Hl17 _ m _ ltac:(lia) Hat). apply ends_assoc, ends_assoc, ends_assoc.
    assert (Forall small (take m (map ref cs ++ [Str w]))) as Hsmall by (apply Forall_take, Hni).
    assert (length (take m (map ref cs ++ [Str w])) = m) as Hlen by (rewrite length_take; lia).
    apply (ends_mergeAtAux _ _ (d - 1)%nat); [lia|done|done|by eapply kept_le|done|done|unfold lenZ; lia|].
    intros db2 Hle2 Hk2. pstep. fold c'.
    assert (small (ref c')) as Hsc by (eapply (ref_small (d - 1)); [lia|done]).
    cbv iota. rewrite (for_items_rest _ Hni Hl17 _ m); [|apply Forall_app; split; [done|by apply Forall_singleton]|rewrite length_app, Hlen; cbn; lia|lia].
    pstep. rewrite replace_child by (done || lia).
    rewrite partial_out by (rewrite lenZ_app; unfold lenZ; rewrite length_map, length_insert, Hlc; done). pstep.
    apply Hg; [by eapply le_trans|]. eapply stored_insert; [exact Hst|by eapply le_trans|exact Hk2]. }
  destruct inl; cbn [negb]; cbv iota; [apply Hrest, le_refl|]. apply ends_killNode. exact Hrest.
Qed.

(** A pair whose key is not the key, and not below it. *)
Lemma merge_differ f t leaf k x h inl : pair_facts t leaf k x -> (leaf = true -> nibbles s <> k) -> (leaf = false -> ~ k `prefix_of` nibbles s) ->
  mergeAt (S f) (enc t) h s v inl =
  (if negb (Z.of_nat (lcp (nibbles s) k) =? 0) then
     cleved <- cleve (enc t) (Z.of_nat (lcp (nibbles s) k)) ;; r <- plift (mkRLP VeryStrict cleved) ;; mergeAt f r (sha3 r) s v true
   else branched <- branch (enc t) ;; r <- plift (mkRLP VeryStrict branched) ;; mergeAt f r (sha3 r) s v true).
Proof.
  intros Hp Hleaf Hext. destruct (key_slice _ _ _ _ Hp) as [Hk Hn]. cbn [mergeAt].
  assert (isEmpty (enc t) = false) as -> by (rewrite (pf_enc_self _ _ _ _ Hp); apply node_not_empty, (pf_items _ _ _ _ Hp)).
  rewrite (enc_two _ _ _ _ Hp). pstep. change (2 =? 2) with true. cbv iota. rewrite (enc_key _ _ _ _ Hp). pstep.
  rewrite (key_is' _ _ _ _ s Hp Hs), (key_below _ _ _ _ s Hp Hs). pstep. rewrite shared_spec, Hn by done. pstep.
  destruct leaf; cbn [negb]; rewrite ?andb_true_r, ?andb_false_r.
  - rewrite bool_decide_eq_false_2 by (intros ->; by apply Hleaf). done.
  - rewrite bool_decide_eq_false_2 by auto. done.
Qed.

(** Nothing shared: the pair becomes a branch. *)
Lemma merge_zero f t leaf k x : is_pair t leaf k x -> trie_ok d t -> (length (nibbles s) <= d)%nat -> lcp (nibbles s) k = 0%nat ->
  (leaf = true -> nibbles s <> k) -> inserts (mergeAt (S (S (S f)))) t s v.
Proof.
  intros Hip Hok Hl Hz Hleaf A g h inl db Q Hst Hg. pose proof (is_pair_facts d _ _ _ _ Hip Hd Hok) as Hp.
  destruct (pair_tkey _ _ _ _ Hip) as [Ht Ek]. pose proof (slice_nibbles s Hs) as Hns. pose proof (pf_nibbles _ _ _ _ Hp) as Hkn.
  assert (forall k0 c, t = Ext k0 c -> ~ k0 `prefix_of` nibbles s) as Hne.
  { intros k0 c ->. inversion Hip; subst. destruct Hok as (_ & Hk0 & _). intros Hpre%lcp_full. rewrite Hz in Hpre. by destruct k0. }
  assert (forall k0 v0, t = Leaf k0 v0 -> nibbles s <> k0) as Hlf by (intros k0 v0 ->; inversion Hip; subst; by apply Hleaf).
  rewrite (tinsert_differ t k) in Hg by done.
  rewrite (merge_differ _ _ _ _ _ _ _ Hp Hleaf) by (intros ->; inversion Hip; subst; by eapply Hne). rewrite Hz. cbn [Z.of_nat Z.eqb negb].
  unfold split_at in Hg. rewrite Hz in Hg. cbn [take drop mkext] in Hg. rewrite <- Ek in Hg, Hz, Hkn. rewrite !drop_0, with_tkey in Hg by done.
  destruct (branch1_shape t Ht) as (cs & w & Eb & Hcs & Hfree); [intros k0 c ->; by destruct Hok as (_ & ? & _)|].
  specialize (Hfree _ Hns Hkn Hz). pose proof (branch1_ok d t Ht Hok) as Hob. rewrite Eb in *.
  assert (trie_ok d (Branch cs w)) as Hok' by (apply Hob; rewrite Ek; by destruct (pair_key_ok d _ _ _ _ Hip Hok)).
  apply ends_assoc. apply (ends_branch _ t leaf k x d); [done|done|done|done|]. rewrite Eb. intros db' Hle Hst'. apply ends_assoc.
  rewrite (enc_mkRLP d _ Hd Hok'). pstep. destruct (nibbles s) as [|n k'] eqn:E.
  - apply (merge_value _ cs w); [done|done|done|]. rewrite E. intros db2 Hle2. cbn [tinsert put] in *. apply Hg. by eapply le_trans.
  - destruct (slice_cons s n k' Hs E) as (_ & _ & Hn & Hms & Hmn).
    apply (merge_branch _ cs w n k'); [done|done|by rewrite E| |done|].
    + rewrite Hfree. cbn [length] in Hl. intros A' g' h' inl' db2 Q'.
      eapply inserts_place; [done| |done]. intros db3 Q3. apply place_null; [done|rewrite Hmn; lia|done].
    + rewrite E, tinsert_child by done. rewrite Hfree. intros db2 Hle2. cbn [put tinsert] in *. apply Hg. by eapply le_trans.
Qed.
End Merge.

Lemma lcp_rest k k0 : lcp (drop (lcp k k0) k) (drop (lcp k k0) k0) = 0%nat.
Proof.
  destruct (drop (lcp k k0) k) as [|x q] eqn:E1, (drop (lcp k k0) k0) as [|y q'] eqn:E2; try done.
  cbn [lcp]. destruct (Z.eqb_spec x y); [|done]. by destruct (lcp_differ _ _ _ _ _ _ E1 E2).
Qed.

Lemma lcp_shared k k0 : take (lcp k k0) k0 `prefix_of` k.
Proof. rewrite <- lcp_prefix. exists (drop (lcp k k0) k). by rewrite take_drop. Qed.

(** What a key shares with a pair, as an extension of the rest of the pair. *)
Lemma tinsert_cleve t k v : is_two t = true -> (0 < lcp k (tkey t))%nat -> k <> tkey t \/ (exists k0 c, t = Ext k0 c) ->
  (forall k0 c, t = Ext k0 c -> ~ k0 `prefix_of` k) ->
  tinsert (Ext (take (lcp k (tkey t)) (tkey t)) (with_key (drop (lcp k (tkey t)) (tkey t)) t)) k v = tinsert t k v.
Proof.
  intros Ht Hz Hk Hne. pose proof (lcp_rest k (tkey t)) as Hrest. pose proof (lcp_prefix k (tkey t)) as Hpre. pose proof (lcp_le k (tkey t)).
  rewrite (tinsert_differ t (tkey t) k) by (done || (intros k0 v0 ->; destruct Hk as [|(? & ? & ?)]; done)).
  unfold split_at. set (sh := lcp k (tkey t)) in *. cbn [tinsert]. rewrite decide_True by apply lcp_shared.
  rewrite length_take, Nat.min_l by lia. assert (forall c, mkext (take sh (tkey t)) c = Ext (take sh (tkey t)) c) as ->.
  { intros c. destruct (take sh (tkey t)) eqn:E; [|done]. apply (f_equal length) in E. rewrite length_take in E. cbn in E. lia. }
  f_equal. set (k1 := drop sh (tkey t)) in *.
  rewrite (tinsert_differ _ k1).
  - unfold split_at. rewrite Hrest. cbn [take drop mkext]. rewrite !drop_0. by destruct t.
  - by destruct t.
  - by destruct t.
  - intros k0 v0 E E'. destruct t as [|k3 v3| |]; try done. cbn [with_key] in E. injection E as E1 _. rewrite <- E1 in E'.
    destruct Hk as [Hk|(? & ? & ?)]; [|done]. apply Hk. etrans; [symmetry; apply (take_drop sh k)|]. rewrite E', Hpre. apply take_drop.
  - intros k0 c E Hp. destruct t as [| |k3 c3|]; try done. cbn [with_key] in E. injection E as <- ->. apply (Hne k3 c eq_refl).
    rewrite <- (take_drop sh k), <- (take_drop sh k3). cbn [tkey] in Hpre. rewrite Hpre. by apply prefix_app.
Qed.

Lemma merge_more d s v f t leaf k x : (d <= max_depth)%nat -> slice_ok s -> val_ok v ->
  is_pair t leaf k x -> trie_ok d t -> (length (nibbles s) <= d)%nat -> (0 < lcp (nibbles s) k)%nat ->
  (leaf = true -> nibbles s <> k) -> (leaf = false -> ~ k `prefix_of` nibbles s) -> inserts (mergeAt (S (S (S (S (S f)))))) t s v.
Proof.
  intros Hd Hs Hv Hip Hok Hl Hz Hleaf Hext A g h inl db Q Hst Hg. pose proof (is_pair_facts d _ _ _ _ Hip Hd Hok) as Hp.
  destruct (pair_tkey _ _ _ _ Hip) as [Ht Ek]. pose proof (pair_key_ok d _ _ _ _ Hip Hok) as [Hkn Hkl].
  assert (forall k0 c, t = Ext k0 c -> ~ k0 `prefix_of` nibbles s) as Hne by (intros k0 c ->; inversion Hip; subst; auto).
  rewrite (merge_differ s v Hs _ _ _ _ _ _ _ Hp Hleaf Hext). rewrite <- (tinsert_cleve t (nibbles s) v Ht) in Hg;
    [|by rewrite Ek|destruct Hip; [left; cbn; auto|right; eauto]|done]. rewrite Ek in Hg.
  pose proof (split_with_key_ok d t (nibbles s) Ht Hok Hne) as Hw. pose proof (split_rest d t (nibbles s) Ht Hok Hne) as Hr. rewrite Ek in Hw, Hr.
  set (sh := lcp (nibbles s) k) in *. set (t1 := with_key (drop sh k) t) in *. pose proof (lcp_le (nibbles s) k) as Hle. fold sh in Hle.
  assert (Z.of_nat sh =? 0 = false) as -> by (apply Z.eqb_neq; lia). cbn [negb].
  assert (length (take sh k) = sh) as Hlp by (rewrite length_take; lia).
  assert (is_pair t1 leaf (drop sh k) x) as Hip1 by (unfold t1; destruct Hip; constructor).
  pose proof (lcp_shared (nibbles s) k : take sh k `prefix_of` nibbles s) as Hpre.
  assert (trie_ok d (Ext (take sh k) t1)) as Hoke.
  { cbn [trie_ok]. rewrite Hlp. split; [split; [by apply Forall_take|rewrite Hlp; lia]|]. split; [intros E; rewrite E in Hlp; cbn in Hlp; lia|].
    split; [by destruct (is_pair_facts (d - sh) _ _ _ _ Hip1 ltac:(lia) Hw)|done]. }
  destruct (key_mid (take sh k) s Hs Hpre) as [Hms Hmn]. rewrite Hlp in Hmn.
  apply ends_assoc. apply (ends_cleve _ t leaf k x d); [done|lia|done|eapply trie_ok_mono; [|exact Hw]; lia|done|]. fold t1. intros db' Hle' Hst'. apply ends_assoc.
  rewrite (enc_mkRLP d _ Hd Hoke). pstep. apply (merge_ext d s v Hd Hs Hv _ (take sh k) t1); [done|done|done| |done|].
  - rewrite Hlp in *. apply (merge_zero (d - sh) _ v ltac:(lia) Hms Hv _ t1 leaf (drop sh k) x Hip1 Hw).
    + rewrite Hmn, length_drop. lia.
    + rewrite Hmn. apply lcp_rest.
    + intros ->. rewrite Hmn. intros E. apply Hleaf; [done|]. etrans; [symmetry; apply (take_drop sh)|].
      rewrite E, (lcp_prefix (nibbles s) k : take sh (nibbles s) = take sh k). apply take_drop.
  - intros db2 Hle2. apply Hg. by eapply le_trans.
Qed.

(** [mergeAt] computes [tinsert]. *)
Lemma mergeAt_inserts d t s v fuel : (d <= max_depth)%nat -> trie_ok d t -> slice_ok s -> val_ok v -> (length (nibbles s) <= d)%nat ->
  (need t (nibbles s) <= fuel)%nat -> inserts (mergeAt fuel) t s v.
Proof.
  intros Hd Hok Hs Hv. revert d s fuel Hd Hok Hs. induction t as [|k0 v0|k0 c IH|cs w IH] using trie_ind_all; intros d s fuel Hd Hok Hs Hl Hfuel; cbn [need] in Hfuel.
  - destruct fuel as [|f]; [lia|]. by apply (merge_null d).
  - destruct (decide (k0 = nibbles s)) as [->|Hne].
    + destruct fuel as [|f]; [lia|]. by apply (merge_leaf d).
    + destruct (decide (lcp (nibbles s) k0 = 0%nat)).
      * destruct fuel as [|[|[|f]]]; [lia..|]. apply (merge_zero d s v Hd Hs Hv f _ true k0 (Str v0)); by (apply pair_of_leaf || lia || congruence || auto).
      * destruct fuel as [|[|[|[|[|f]]]]]; [lia..|]. apply (merge_more d s v f _ true k0 (Str v0)); by (apply pair_of_leaf || lia || congruence || auto).
  - destruct (decide (k0 `prefix_of` nibbles s)) as [Hpre|Hne].
    + destruct fuel as [|f]; [lia|]. destruct (key_mid k0 s Hs Hpre) as [Hms Hmn]. pose proof Hok as (_ & _ & _ & Hco).
      apply (merge_ext d); [done..|]. apply (IH (d - length k0)%nat); [lia|done|done|rewrite Hmn, length_drop; lia|rewrite Hmn; lia].
    + destruct (decide (lcp (nibbles s) k0 = 0%nat)).
      * destruct fuel as [|[|[|f]]]; [lia..|]. apply (merge_zero d s v Hd Hs Hv f _ false k0 (ref c)); by (apply pair_of_ext || lia || congruence || auto).
      * destruct fuel as [|[|[|[|[|f]]]]]; [lia..|]. apply (merge_more d s v f _ false k0 (ref c)); by (apply pair_of_ext || lia || congruence || auto).
  - destruct (nibbles s) as [|n k] eqn:E; [destruct fuel as [|f]; [lia|]; by apply (merge_value d)|].
    change (need (Branch cs w) (n :: k) <= fuel)%nat in Hfuel. rewrite need_child in Hfuel. destruct fuel as [|f]; [lia|].
    destruct (slice_cons s n k Hs E) as (_ & _ & Hn & Hms & Hmn). pose proof (proj1 (trie_ok_branch _ _ _) Hok) as (Hlc & _ & Hcs).
    pose proof (child_in cs n Hn Hlc) as Hin. rewrite Forall_forall in IH, Hcs. cbn [length] in Hl.
    apply (merge_branch d s v Hd Hs Hv f cs w n k); [done|done|rewrite E; cbn; lia|].
    apply (IH _ Hin (d - 1)%nat); [lia|by destruct (Hcs _ Hin) as [->|[_ ?]]|done|rewrite Hmn; lia|rewrite Hmn; lia].
Qed.
End Ops.
