(* ===== verification/TrieDelete.v ===== *)
(** * Deletion computes the deletion on trees

    [deleteAt] on a stored tree whose keys are not prefixes of one another: it
    says that the key is not there, or makes the tree without it, in which every
    branch that is left with one child is joined with it. *)
From stdpp Require Import base list.
From Stdlib Require Import ZArith Lia.
From S2P Require Import Prelude Words Result Account Rlp RlpSpec RlpRead RlpTheorems RlpInt.
From S2P Require Import StateMonad TrieCommon TrieKeys NodeDB TrieDB TrieItems TrieSpec TrieNodes TrieTree TrieOps.
Open Scope prog_scope.

(** No key that is mapped is a prefix of [k], or [k] of it, save itself. *)
Definition compat (t : trie) (k : list Z) : Prop :=
  forall k', nibble_list k' -> tget t k' <> [] -> k' `prefix_of` k \/ k `prefix_of` k' -> k' = k.

Lemma compat_leaf k0 v k : compat (Leaf k0 v) k -> nibble_list k0 -> v <> [] -> k0 `prefix_of` k -> k0 = k.
Proof. intros Hc Hk Hv Hp. apply Hc; [done| |by left]. cbn [tget]. by rewrite decide_True. Qed.

Lemma compat_ext k0 c k : compat (Ext k0 c) (k0 ++ k) -> nibble_list k0 -> compat c k.
Proof.
  intros Hc Hk k' Hk' Hg Hp. apply (app_inv_head k0). apply Hc; [by apply Forall_app|by rewrite tget_Ext|].
  destruct Hp; [left|right]; by apply prefix_app.
Qed.

Lemma compat_child cs w n k : compat (Branch cs w) (n :: k) -> is_nibble n -> compat (child cs n) k.
Proof.
  intros Hc Hn k' Hk' Hg Hp. enough (n :: k' = n :: k) by congruence. apply Hc; [by constructor|by rewrite tget_child|].
  destruct Hp; [left|right]; by apply prefix_cons.
Qed.

Lemma compat_nil d cs : trie_ok d (Branch cs []) -> canon (Branch cs []) -> ~ compat (Branch cs []) [].
Proof.
  intros Hok Hc Hcompat. destruct (canon_some d _ Hok Hc ltac:(done)) as (k & Hk & Hg).
  rewrite (Hcompat k Hk Hg) in Hg; [done|]. right. apply prefix_nil.
Qed.

Section Delete.
  Context {DB : Type} `{!NodeDB DB} `{!NodeDBLaws DB} `{Sha3} `{!Sha3Range}.

(** [rec] deletes from [t]. *)
Definition deletes (rec : list Z -> NibbleSlice -> prog (list Z)) (t : trie) (s : NibbleSlice) : Prop :=
  forall A (g : list Z -> prog A) db Q, stored db t ->
    match tdelete t (nibbles s) with
    | None => forall db', le db db' -> ends (g []) db' Q
    | Some t' => forall db', le db db' -> stored db' t' -> ends (g (enc t')) db' Q
    end -> ends (pbind (rec (enc t) s) g) db Q.

Lemma deletes_child {A} (g : list Z -> prog A) rec d t s db Q : (d <= max_depth)%nat -> trie_ok d t -> kept db t ->
  (t <> Null -> deletes rec t s) ->
  match tdelete t (nibbles s) with
  | None => forall db', le db db' -> ends (g []) db' Q
  | Some t' => forall db', le db db' -> stored db' t' -> ends (g (enc t')) db' Q
  end ->
  ends (pbind (if isEmpty (encode (ref t)) then pret []
               else n <- (if isList (encode (ref t)) then pret (encode (ref t)) else node_of (encode (ref t))) ;; rec n s) g) db Q.
Proof.
  intros Hd Hok Hkept Hrec Hg. rewrite (ref_isEmpty d t Hd Hok). destruct (decide (t = Null)) as [->|Hn].
  - rewrite bool_decide_eq_true_2 by done. pstep. cbn [tdelete] in Hg. apply Hg, le_refl.
  - rewrite bool_decide_eq_false_2 by done. apply ends_assoc. apply (ends_down _ d); [done|done|done|done|]. apply Hrec; [done|apply Hkept|done].
Qed.

Lemma ends_deleteAtAux {A} (g : option RLPStream -> prog A) rec d t s n l db Q : (d <= max_depth)%nat -> trie_ok d t ->
  canon t -> flat t -> nibble_list (nibbles s) -> kept db t -> (t <> Null -> deletes rec t s) -> Forall small l -> lenZ l < n <= 17 ->
  match tdelete t (nibbles s) with
  | None => forall db', le db db' -> ends (g None) db' Q
  | Some t' => forall db', le db db' -> kept db' t' -> ends (g (Some (partial n (l ++ [ref t'])))) db' Q
  end -> ends (pbind (deleteAtAux rec (encode (ref t)) s (partial n l)) g) db Q.
Proof.
  intros Hd Hok Hc Hf Hns Hkept Hrec Hsm Hn Hg. unfold deleteAtAux. apply ends_assoc. apply (deletes_child _ _ d t); [done|done|done|done|].
  pose proof (tdelete_spec d t (nibbles s) Hok Hc Hf Hns) as Hspec. destruct (tdelete t (nibbles s)) as [t'|].
  - intros db' Hle Hst'. destruct Hspec as (Hok' & _). pose proof (enc_length d t' Hd Hok') as Hlen.
    destruct (Z.eqb_spec (lenZ (enc t')) 0); [lia|]. apply ends_assoc. apply (ends_streamNode d); [done|done|done|done|].
    intros db2 Hle2 Hh. pstep. apply Hg; [by eapply le_trans|]. split; [by eapply stored_grows|done].
  - intros db' Hle. change (lenZ [] =? 0) with true. cbv iota. pstep. by apply Hg.
Qed.

Lemma stored_tgraft db k0 c : kept db c -> stored db (tgraft k0 c).
Proof. intros [Hs Hh]. by destruct c. Qed.

(** An extension of a pair becomes one node. *)
Lemma ends_join {A} (g : list Z -> prog A) d k0 c db (Q : A -> DB -> Prop) : (d <= max_depth)%nat -> trie_ok d (Ext k0 c) -> kept db c ->
  (forall db', le db db' -> stored db' (tgraft k0 c) -> ends (g (enc (tgraft k0 c))) db' Q) ->
  ends (pbind (if is_two c then graft (enc (Ext k0 c)) else pret (enc (Ext k0 c))) g) db Q.
Proof.
  intros Hd Hok Hkept Hg. pose proof Hok as ([Hk0 Hl0] & _ & Hnull & Hco). destruct (is_two c) eqn:Ht.
  - destruct (two_pair c Ht) as (leaf & k1 & x & Hip). destruct (pair_key_ok _ _ _ _ _ Hip Hco) as [Hk1 Hl1].
    assert (tgraft k0 c = with_key (k0 ++ k1) c) as Et by (by destruct Hip). rewrite Et in Hg.
    apply (ends_graft g k0 c leaf k1 x d (d - length k0)); [done|done|done|done|lia|rewrite length_app; lia|done|].
    intros db' Hle. apply Hg; [done|]. rewrite <- Et. apply stored_tgraft. by eapply kept_le.
  - assert (tgraft k0 c = Ext k0 c) as Et by (by destruct c). rewrite Et in Hg. pstep. apply Hg; [apply le_refl|]. by destruct Hkept.
Qed.

Section Step.
  Context (d : nat) (s : NibbleSlice) (Hd : (d <= max_depth)%nat) (Hs : slice_ok s).

Lemma delete_null f : deletes (deleteAt (S f)) Null s.
Proof. intros A g db Q Hst Hg. cbn [deleteAt]. change (isEmpty (enc Null)) with true. cbv iota. pstep. apply Hg, le_refl. Qed.

Lemma delete_leaf f k0 v : trie_ok d (Leaf k0 v) -> canon (Leaf k0 v) -> compat (Leaf k0 v) (nibbles s) -> deletes (deleteAt (S f)) (Leaf k0 v) s.
Proof.
  intros Hok Hc Hcomp A g db Q Hst Hg. pose proof (is_pair_facts d _ _ _ _ (pair_of_leaf k0 v) Hd Hok) as Hp. cbn [deleteAt].
  rewrite (enc_isEmpty d _ Hd Hok), bool_decide_eq_false_2, (enc_two _ _ _ _ Hp) by done. pstep. change (2 =? 2) with true. cbv iota.
  rewrite (enc_key _ _ _ _ Hp). pstep. rewrite (key_is' _ _ _ _ s Hp Hs). pstep. rewrite andb_true_r. cbn [tdelete] in Hg.
  destruct (decide (k0 = nibbles s)) as [E|E].
  - rewrite bool_decide_eq_true_2 by done. apply ends_assoc, ends_killNode. intros db' Hle. pstep. by apply Hg.
  - rewrite bool_decide_eq_false_2 by done. destruct (key_slice _ _ _ _ Hp) as [Hks Hkn]. rewrite contains_spec, Hkn by done. pstep.
    rewrite bool_decide_eq_false_2; [pstep; apply Hg, le_refl|]. intros Hpre. apply E. eapply compat_leaf; [done|apply Hp|done|done].
Qed.

Lemma delete_ext f k0 c : trie_ok d (Ext k0 c) -> canon (Ext k0 c) -> flat (Ext k0 c) ->
  (k0 `prefix_of` nibbles s -> deletes (deleteAt f) c (mid s (Z.of_nat (length k0)))) -> deletes (deleteAt (S f)) (Ext k0 c) s.
Proof.
  intros Hok Hc Hf Hrec A g db Q Hst Hg. pose proof (is_pair_facts d _ _ _ _ (pair_of_ext k0 c) Hd Hok) as Hp. cbn [deleteAt].
  rewrite (enc_isEmpty d _ Hd Hok), bool_decide_eq_false_2, (enc_two _ _ _ _ Hp) by done. pstep. change (2 =? 2) with true. cbv iota.
  rewrite (enc_key _ _ _ _ Hp). pstep. rewrite (key_is' _ _ _ _ s Hp Hs). pstep. rewrite andb_false_r. cbv iota.
  destruct (key_slice _ _ _ _ Hp) as [Hks Hkn]. rewrite contains_spec, Hkn by done. pstep. cbn [tdelete] in Hg.
  destruct (decide (k0 `prefix_of` nibbles s)) as [Hpre|Hpre];
    [rewrite bool_decide_eq_true_2 by done|rewrite bool_decide_eq_false_2 by done; cbv iota; pstep; apply Hg, le_refl].
  cbv iota. destruct (key_mid k0 s Hs Hpre) as [Hms Hmn]. rewrite <- Hmn in Hg. pose proof Hok as ([Hk0 Hl0] & Hne & Hnull & Hco).
  pose proof Hc as [Hb Hcc]. cbn [flat] in Hf.
  rewrite partial_nil by lia. pstep. rewrite (enc_at0 _ _ _ _ Hp). pstep.
  rewrite partial_rlp; [|constructor|exact (key_small _ _ _ _ Hp)|done]. pstep. rewrite (enc_at1 _ _ _ _ Hp). pstep.
  rewrite (key_size _ _ _ _ Hp). apply ends_assoc.
  pose proof (slice_nibbles _ Hms) as Hns.
  pose proof (tdelete_spec _ c _ Hco Hcc Hf Hns) as Hspec.
  apply (ends_deleteAtAux _ _ (d - length k0)%nat); [lia|done|done|done|done|exact Hst|by intros _; apply Hrec|by apply Forall_singleton, (key_small _ _ _ _ Hp)|done|].
  destruct (tdelete c _) as [c'|]; [|intros db' Hle; pstep; by apply Hg].
  destruct Hspec as (Hok' & _ & _ & Hn' & _). specialize (Hn' Hb). intros db' Hle Hkept.
  assert (trie_ok d (Ext k0 c')) as Hoke by (cbn [trie_ok]; done).
  apply ends_assoc, ends_killNode. intros db2 Hle2. rewrite partial_out by done. pstep.
  change (encode (Lst (([] ++ [Str (hp false k0)]) ++ [ref c']))) with (enc (Ext k0 c')). rewrite (enc_mkRLP d _ Hd Hoke). pstep.
  pose proof (is_pair_facts d _ _ _ _ (pair_of_ext k0 c') Hd Hoke) as Hp'. rewrite (enc_at1 _ _ _ _ Hp'). pstep. apply ends_assoc.
  assert (kept db2 c') as Hk2 by (by eapply kept_le). apply (ends_isTwo _ (d - length k0)); [lia|done|done|apply Hk2|].
  apply (ends_join _ d); [done|done|done|]. intros db3 Hle3. apply Hg. eapply le_trans; [done|]. by eapply le_trans.
Qed.
(** What [deleteAt] does once a child is written. *)
Definition finish (out : list Z) : prog (list Z) :=
  rlp <- plift (mkRLP VeryStrict out) ;;
  used <- plift (uniqueInUse rlp 255) ;;
  if used =? 255 then pret out
  else
    i <- plift (rlp_at rlp used) ;;
    two <- isTwoItemNode i ;;
    merged <- merge rlp used ;;
    if two then r <- plift (mkRLP VeryStrict merged) ;; graft r else pret merged.

Lemma used_items cs w db : trie_ok d (Branch cs w) -> stored db (Branch cs w) ->
  map (fun it => negb (isEmpty (encode it))) (map ref cs ++ [Str w]) = in_use cs w.
Proof.
  intros Hok Hst. apply trie_ok_branch in Hok as (_ & [Hwb Hwl] & Hcs). unfold in_use. rewrite map_app. f_equal.
  - rewrite map_map. apply map_ext_in. intros c Hin%list_elem_of_In. rewrite Forall_forall in Hcs.
    destruct (Hcs c Hin) as [->|[_ Hco]]; [done|]. by rewrite (ref_isEmpty (d - 1) c ltac:(lia) Hco).
  - cbn [map]. rewrite str_isEmpty by (done || lia). done.
Qed.

Lemma ends_finish {A} (g : list Z -> prog A) cs db (Q : A -> DB -> Prop) : trie_ok d (Branch cs []) -> Forall canon cs -> Forall flat cs ->
  (1 <= count (in_use cs []))%nat -> stored db (Branch cs []) ->
  (forall db', le db db' -> stored db' (collapse cs []) -> ends (g (enc (collapse cs []))) db' Q) ->
  ends (pbind (finish (enc (Branch cs []))) g) db Q.
Proof.
  intros Hok Hcc Hff Hcount Hst Hg. unfold finish. rewrite (enc_mkRLP d _ Hd Hok). pstep.
  destruct (branch_items d cs [] Hd Hok) as (Hni & Hl17 & Hsm & Hl16). pose proof (proj1 (trie_ok_branch _ _ _) Hok) as (Hl & _ & Hcs).
  change (enc (Branch cs [])) with (encode (Lst (map ref cs ++ [Str []]))). rewrite (uniqueInUse_spec _ Hni Hl17), (used_items cs [] db Hok Hst). pstep.
  destruct (collapse_cases cs Hl Hcount) as [[H2 E]|(i & c & Hi & Hic & Hn & _ & Eonly & E)].
  - destruct (only_spec (in_use cs []) 0 ltac:(lia)) as [[_ ->]|(j & Hj & _)]; [by rewrite in_use_length|..|lia].
    change (255 =? 255) with true. cbv iota. pstep. rewrite E in Hg. apply Hg; [apply le_refl|done].
  - rewrite Eonly. destruct (Z.eqb_spec (Z.of_nat i) 255); [lia|]. pose proof (list_elem_of_lookup_2 _ _ _ Hic) as Hin.
    rewrite Forall_forall in Hcs. destruct (Hcs c Hin) as [|[Hd0 Hco]]; [done|].
    assert ((map ref cs ++ [Str []]) !! i = Some (ref c)) as Hat by (rewrite lookup_app_l by lia; by rewrite list_lookup_fmap, Hic).
    assert (kept db c) as Hkept by (apply stored_branch in Hst; rewrite Forall_forall in Hst; auto).
    assert (trie_ok d (Ext [Z.of_nat i] c)) as Hoke.
    { cbn [trie_ok length]. split; [split; [repeat constructor; lia|cbn; lia]|]. done. }
    rewrite (node_at _ Hni) by lia. rewrite Nat2Z.id, list_lookup_fmap, Hat. cbn [default fmap option_fmap option_map from_option id]. pstep.
    apply ends_assoc, (ends_isTwo _ (d - 1)); [lia|done|done|apply Hkept|].
    rewrite (merge_child _ i (ref c) Hni Hl17 Hi Hat); [|by rewrite (ref_isEmpty (d - 1) c ltac:(lia) Hco), bool_decide_eq_false_2].
    pstep. change (encode (Lst [Str (hp false [Z.of_nat i]); ref c])) with (enc (Ext [Z.of_nat i] c)). rewrite (enc_mkRLP d _ Hd Hoke). pstep.
    apply (ends_join _ d); [done|done|done|]. by rewrite <- E.
Qed.

Lemma delete_branch f cs n k : trie_ok d (Branch cs []) -> canon (Branch cs []) -> flat (Branch cs []) -> nibbles s = n :: k ->
  (child cs n <> Null -> deletes (deleteAt f) (child cs n) (mid s 1)) -> deletes (deleteAt (S f)) (Branch cs []) s.
Proof.
  intros Hok Hc Hf E Hrec A g db Q Hst Hg. destruct (slice_cons s n k Hs E) as (Hsz & Hidx & Hn & Hms & Hmn).
  destruct (branch_items d cs [] Hd Hok) as (Hni & Hl17 & Hsm & Hl16). pose proof (proj1 (trie_ok_branch _ _ _) Hok) as (Hl & _ & Hcs).
  destruct (child_facts d cs [] n db Hok Hn Hst) as [Hkept Hco]. pose proof Hc as [Hcc Hcount]%canon_branch. pose proof Hf as [Hff _]%flat_branch.
  pose proof (child_in cs n Hn Hl) as Hin. pose proof (slice_nibbles _ Hms) as Hns.
  assert (canon (child cs n) /\ flat (child cs n)) as [Hcn Hfn] by (rewrite Forall_forall in Hcc, Hff; auto).
  rewrite E, tdelete_child, <- Hmn in Hg. cbn [deleteAt].
  rewrite (enc_isEmpty d _ Hd Hok), bool_decide_eq_false_2, (branch_two17 d cs [] Hd Hok) by done. pstep.
  change (17 =? 2) with false. cbv iota. rewrite (branch_at16 d cs [] Hd Hok). pstep. change (isEmpty (encode (Str []))) with true. rewrite andb_false_r. cbv iota.
  rewrite partial_nil by lia. pstep. rewrite Hidx. pstep. change (enc (Branch cs [])) with (encode (Lst (map ref cs ++ [Str []]))).
  pose proof (child_ref cs [] n Hn Hl) as Hat.
  clear Hidx E. remember (Z.to_nat n) as m eqn:Em. assert (n = Z.of_nat m) as -> by lia.
  rewrite (for_items_at _ Hni Hl17 _ m _ ltac:(lia) Hat). apply ends_assoc, ends_assoc.
  assert (Forall small (take m (map ref cs ++ [Str []]))) as Hsmall by (apply Forall_take, Hni).
  assert (length (take m (map ref cs ++ [Str []])) = m) as Hlen by (rewrite length_take; lia).
  pose proof (tdelete_spec (d - 1) _ _ Hco Hcn Hfn Hns) as Hspec.
  apply (ends_deleteAtAux _ _ (d - 1)%nat); [lia|done|done|done|done|done|done|done|unfold lenZ; lia|].
  destruct (tdelete (child cs (Z.of_nat m)) _) as [c'|]; [|intros db' Hle; pstep; by apply Hg].
  destruct Hspec as (Hok' & Hc' & Hf' & _ & Hget & _). intros db' Hle Hk'. pstep.
  assert (small (ref c')) as Hsc by (eapply (ref_small (d - 1)); [lia|done]).
  cbv iota. rewrite (for_items_rest _ Hni Hl17 _ m); [|apply Forall_app; split; [done|by apply Forall_singleton]|rewrite length_app, Hlen; cbn; lia|lia].
  pstep. apply ends_assoc, ends_killNode. intros db2 Hle2.
  rewrite replace_child by (done || lia).
  rewrite partial_out by (rewrite lenZ_app; unfold lenZ; rewrite length_map, length_insert, Hl; done). pstep.
  change (encode (Lst (map ref (<[m := c']> cs) ++ [Str []]))) with (enc (Branch (<[m := c']> cs) [])).
  assert (child cs (Z.of_nat m) <> Null) as Hnn by (intros E; by rewrite E in Hget).
  destruct (replaced_child d cs (Z.of_nat m) c' Hok Hn Hnn Hok') as [Hob H1]. rewrite Nat2Z.id in Hob, H1.
  apply (ends_finish g); [done|by apply Forall_insert|by apply Forall_insert|by apply H1|..].
  - eapply stored_insert; [exact Hst|by eapply le_trans|by eapply kept_le].
  - intros db3 Hle3. apply Hg. eapply le_trans; [done|]. by eapply le_trans.
Qed.
End Step.

(** [deleteAt] computes [tdelete]. *)
Lemma deleteAt_deletes d t s fuel : (d <= max_depth)%nat -> trie_ok d t -> slice_ok s -> canon t -> flat t -> compat t (nibbles s) ->
  (length (nibbles s) < fuel)%nat -> deletes (deleteAt fuel) t s.
Proof.
  intros Hd Hok Hs Hc Hf. revert d s fuel Hd Hok Hs. induction t as [|k0 v0|k0 c IH|cs w IH] using trie_ind_all; intros d s fuel Hd Hok Hs Hcomp Hfuel;
    (destruct fuel as [|f]; [lia|]).
  - apply delete_null.
  - by apply (delete_leaf d).
  - apply (delete_ext d); [done..|]. intros Hpre. destruct (key_mid k0 s Hs Hpre) as [Hms Hmn]. pose proof Hok as ([Hk0 _] & Hne & _ & Hco).
    destruct Hc as [_ Hc]. destruct Hpre as [q Hq]. rewrite Hq, drop_app_length in Hmn. rewrite Hq in Hcomp, Hfuel. rewrite length_app in Hfuel.
    apply (IH Hc Hf (d - length k0)%nat); [lia|done|done|rewrite Hmn; by eapply compat_ext|rewrite Hmn].
    destruct k0; [done|]. cbn [length] in Hfuel. lia.
  - pose proof Hf as [Hff ->]%flat_branch. pose proof Hc as [Hcc _]%canon_branch. destruct (nibbles s) as [|n k] eqn:E; [by destruct (compat_nil d cs Hok Hc)|].
    destruct (slice_cons s n k Hs E) as (_ & _ & Hn & Hms & Hmn). pose proof (proj1 (trie_ok_branch _ _ _) Hok) as (Hlc & _ & Hcs).
    pose proof (child_in cs n Hn Hlc) as Hin. rewrite Forall_forall in IH, Hcs, Hcc, Hff. cbn [length] in Hfuel.
    apply (delete_branch d s Hd Hs f cs n k); [done..|]. intros Hnn. destruct (Hcs _ Hin) as [|[_ Hco]]; [done|].
    apply (IH _ Hin ltac:(auto) ltac:(auto) (d - 1)%nat); [lia|done|done|rewrite Hmn; by eapply compat_child|rewrite Hmn; lia].
Qed.
End Delete.
