(* ===== verification/TrieMap.v ===== *)
(** * A trie is a map

    A root whose tree is in the database [holds] a map from byte strings to
    values.  Reading, inserting and removing on the root are reading, inserting
    and removing on the map, and the root is determined by the map. *)
From stdpp Require Import base list gmap.
From Stdlib Require Import ZArith Lia.
From S2P Require Import Prelude Words Result Account Rlp RlpSpec RlpRead RlpTheorems RlpInt.
From S2P Require Import StateMonad TrieCommon TrieKeys NodeDB TrieDB TrieItems TrieSpec TrieNodes TrieTree TrieOps TrieDelete.
Open Scope prog_scope.

(** ** Keys *)

Definition key_bytes (key : list Z) : Prop := byte_list key /\ lenZ key <= 2 ^ 27.

Lemma slice_of_ok key : key_bytes key ->
  slice_ok (slice_of key) /\ nibbles (slice_of key) = nibs key /\ (length (nibs key) <= max_depth)%nat /\
  key_fuel (slice_of key) = (length (nibs key) + 5)%nat.
Proof.
  intros [Hb Hl]. pose proof (lenZ_nibs key) as Hn. pose proof (lenZ_nonneg key).
  assert (slice_ok (slice_of key)) as Hs by (constructor; cbn [data offset slice_of]; [done|lia|lia]).
  assert (nibbles (slice_of key) = nibs key) as En by done. split; [done|]. split; [done|]. unfold lenZ in *. split; [lia|].
  unfold key_fuel. rewrite slice_size_spec, En by done. unfold lenZ. by rewrite Nat2Z.id.
Qed.

Lemma nibble_pair b : 0 <= b < 256 -> b = 16 * Z.shiftr b 4 + Z.land b 15.
Proof. intros Hb. rewrite land_15, shiftr_4. apply Z.div_mod. lia. Qed.

Lemma nibs_prefix a b : byte_list a -> byte_list b -> nibs a `prefix_of` nibs b -> a `prefix_of` b.
Proof.
  intros Ha. revert b. induction Ha as [|x a Hx _ IH]; intros b Hb Hp; [apply prefix_nil|].
  destruct Hb as [|y b Hy Hb]; [by apply prefix_nil_inv in Hp|]. cbn [nibs] in Hp.
  pose proof (prefix_cons_inv_1 _ _ _ _ Hp) as E1. apply prefix_cons_inv_2 in Hp.
  pose proof (prefix_cons_inv_1 _ _ _ _ Hp) as E2. apply prefix_cons_inv_2 in Hp.
  rewrite (nibble_pair x Hx), (nibble_pair y Hy), E1, E2. by apply prefix_cons, IH.
Qed.

Lemma nibs_inj a b : byte_list a -> byte_list b -> nibs a = nibs b -> a = b.
Proof.
  intros Ha Hb E. pose proof (lenZ_nibs a) as La. pose proof (lenZ_nibs b) as Lb. rewrite E in La. unfold lenZ in *.
  apply prefix_length_eq; [|lia]. apply nibs_prefix; [done..|]. by rewrite E.
Qed.

Notation bytes_map := (gmap (list Z) (list Z)).

(** Keys are bytes, and values are not empty. *)
Definition map_ok (m : bytes_map) : Prop := forall key v, m !! key = Some v -> byte_list key /\ v <> [].

(** No key is a prefix of another: keys of one length are not. *)
Definition prefix_free (m : bytes_map) : Prop :=
  forall k1 k2, is_Some (m !! k1) -> is_Some (m !! k2) -> k1 `prefix_of` k2 -> k1 = k2.
Definition unrelated (m : bytes_map) (key : list Z) : Prop :=
  forall k, is_Some (m !! k) -> k `prefix_of` key \/ key `prefix_of` k -> k = key.
Definition keys_have (n : nat) (m : bytes_map) : Prop := forall key, is_Some (m !! key) -> length key = n.

Lemma keys_have_prefix_free n m : keys_have n m -> prefix_free m.
Proof. intros Hk k1 k2 H1 H2 Hp. apply prefix_length_eq; [done|]. rewrite (Hk _ H1), (Hk _ H2). done. Qed.

Lemma keys_have_unrelated n m key : keys_have n m -> length key = n -> unrelated m key.
Proof.
  intros Hk Hl k H [Hp|Hp]; [|symmetry]; (apply prefix_length_eq; [done|]); rewrite (Hk _ H); lia.
Qed.

(** The tree maps the nibbles of the keys. *)
Record maps (t : trie) (m : bytes_map) : Prop := {
  maps_get : forall key, byte_list key -> tget t (nibs key) = default [] (m !! key);
  maps_some : forall k, nibble_list k -> tget t k <> [] -> exists key, k = nibs key /\ byte_list key /\ is_Some (m !! key)
}.

Lemma maps_tinsert d t m key v : trie_ok d t -> map_ok m -> maps t m -> byte_list key ->
  v <> [] -> maps (tinsert t (nibs key) v) (<[key := v]> m) /\ map_ok (<[key := v]> m).
Proof.
  intros Hok Hm [Hg Hs] Hb Hv. pose proof (nibs_nibbles key Hb) as Hn. split.
  - constructor.
    + intros key' Hb'. rewrite (tget_tinsert d) by (done || by apply nibs_nibbles). destruct (decide (key' = key)) as [->|Hne].
      * by rewrite decide_True, lookup_insert_eq.
      * rewrite decide_False, lookup_insert_ne by (done || intros E; by apply Hne, nibs_inj). auto.
    + intros k Hk. rewrite (tget_tinsert d) by done. destruct (decide (k = nibs key)) as [->|Hne].
      * intros _. exists key. split; [done|]. split; [done|]. by rewrite lookup_insert_eq.
      * intros Hgk. destruct (Hs k Hk Hgk) as (key' & -> & Hb' & His). exists key'. split; [done|]. split; [done|].
        rewrite lookup_insert_ne; [done|congruence].
  - intros key' v'. rewrite lookup_insert_Some. intros [[<- <-]|[_ Hl]]; [done|by apply (Hm _ _ Hl)].
Qed.

Lemma maps_delete t t' m key : map_ok m -> maps t m -> byte_list key ->
  (forall k, nibble_list k -> tget t' k = if decide (k = nibs key) then [] else tget t k) ->
  maps t' (delete key m) /\ map_ok (delete key m).
Proof.
  intros Hm [Hg Hs] Hb Ht. split.
  - constructor.
    + intros key' Hb'. rewrite Ht by (by apply nibs_nibbles). destruct (decide (key' = key)) as [->|Hne].
      * by rewrite decide_True, lookup_delete_eq.
      * rewrite decide_False, lookup_delete_ne by (done || intros E; by apply Hne, nibs_inj). auto.
    + intros k Hk. rewrite Ht by done. destruct (decide (k = nibs key)) as [->|Hne]; [done|].
      intros Hgk. destruct (Hs k Hk Hgk) as (key' & -> & Hb' & His). exists key'. split; [done|]. split; [done|].
      rewrite lookup_delete_ne; [done|congruence].
  - intros key' v' Hl. rewrite lookup_delete_Some in Hl. destruct Hl as [_ Hl]. by apply (Hm _ _ Hl).
Qed.

(** A tree without a key that is a prefix of another has no value at a branch. *)
Lemma canon_flat d t : trie_ok d t -> canon t ->
  (forall k1 k2, nibble_list k1 -> nibble_list k2 -> tget t k1 <> [] -> tget t k2 <> [] -> k1 `prefix_of` k2 -> k1 = k2) -> flat t.
Proof.
  revert d. induction t as [|k v|k c IH|cs w IH] using trie_ind_all; intros d Hok Hc Hfree; [done|done|..].
  - cbn [flat]. destruct Hok as ([Hk _] & _ & _ & Hco), Hc as [_ Hc]. apply (IH _ Hco Hc). intros k1 k2 H1 H2 G1 G2 Hp.
    apply (app_inv_head k). apply Hfree; [by apply Forall_app..|by rewrite tget_Ext|by rewrite tget_Ext|by apply prefix_app].
  - apply flat_branch. split.
    + pose proof (proj1 (trie_ok_branch _ _ _) Hok) as (Hl & _ & Hcs). apply canon_branch in Hc as [Hcc _].
      apply Forall_forall. intros c Hin. rewrite Forall_forall in IH, Hcs, Hcc. destruct (proj1 (list_elem_of_lookup _ _) Hin) as [i Hi].
      pose proof (lookup_lt_Some _ _ _ Hi). assert (trie_ok (d - 1) c) as Hco by (by destruct (Hcs _ Hin) as [->|[_ ?]]).
      apply (IH _ Hin _ Hco (Hcc _ Hin)). intros k1 k2 H1 H2 G1 G2 Hp.
      enough (Z.of_nat i :: k1 = Z.of_nat i :: k2) by congruence.
      apply Hfree; [constructor; [lia|done]|constructor; [lia|done]|..|by apply prefix_cons]; by rewrite tget_child, (child_lookup cs _ c) by (by rewrite Nat2Z.id).
    + destruct (decide (w = [])) as [|Hw]; [done|]. exfalso. destruct (branch_two d (Branch cs w) I Hok Hc) as (k1 & k2 & ? & ? & G1 & G2 & Hne & _).
      assert (forall k, nibble_list k -> tget (Branch cs w) k <> [] -> k = []) as Hnil.
      { intros k Hk G. symmetry. apply Hfree; [constructor|done|done|done|apply prefix_nil]. }
      apply Hne. rewrite (Hnil k1), (Hnil k2) by done. done.
Qed.

Lemma maps_flat d t m : trie_ok d t -> canon t -> maps t m -> prefix_free m -> flat t.
Proof.
  intros Hok Hc [_ Hs] Hfree. apply (canon_flat d); [done|done|]. intros k1 k2 H1 H2 G1 G2 Hp.
  destruct (Hs k1 H1 G1) as (key1 & -> & Hb1 & S1), (Hs k2 H2 G2) as (key2 & -> & Hb2 & S2). f_equal.
  apply Hfree; [done|done|]. by apply nibs_prefix.
Qed.

Lemma maps_compat t m key : maps t m -> byte_list key -> unrelated m key -> compat t (nibs key).
Proof.
  intros [_ Hs] Hb Hu k Hk G Hp. destruct (Hs k Hk G) as (key1 & -> & Hb1 & S1). f_equal. apply Hu; [done|].
  destruct Hp; [left|right]; by apply nibs_prefix.
Qed.

(** ** Roots *)

Section Roots.
  Context {DB : Type} `{!NodeDB DB} `{!NodeDBLaws DB} `{Sha3} `{!Sha3Range}.

Record roots (db : DB) (r : Z) (t : trie) : Prop := {
  r_hash : r = sha3 (enc t);
  r_node : db_node db r = enc t;
  r_stored : stored db t;
  r_ok : trie_ok max_depth t;
  r_canon : canon t
}.

Definition holds (db : DB) (r : Z) (m : bytes_map) : Prop := map_ok m /\ exists t, roots db r t /\ maps t m.

Lemma enc_not_nil d t : (d <= max_depth)%nat -> trie_ok d t -> enc t <> [].
Proof. intros Hd Hok E. pose proof (enc_length d t Hd Hok) as Hl. rewrite E in Hl. by destruct Hl. Qed.

Lemma roots_le db db' r t : le db db' -> roots db r t -> roots db' r t.
Proof.
  intros Hle [Hh Hn Hs Hok Hc]. constructor; try done; [|by eapply stored_grows].
  eapply le_has; [done|by eapply enc_not_nil|done].
Qed.

(** Nothing a clean run writes changes what a root holds. *)
Lemma holds_le db db' r m : le db db' -> holds db r m -> holds db' r m.
Proof. intros Hle [Hm (t & Hr & Hmap)]. split; [done|]. exists t. split; [by eapply roots_le|done]. Qed.

Lemma holds_value db r m key v : holds db r m -> byte_list key -> m !! key = Some v -> byte_list v.
Proof.
  intros [_ (t & Hr & [Hg _])] Hb Hl. specialize (Hg key Hb). rewrite Hl in Hg. cbn in Hg. rewrite <- Hg.
  pose proof (r_ok _ _ _ Hr) as Hok. clear - Hok. generalize dependent (nibs key). generalize dependent (max_depth).
  induction t as [|k0 v0|k0 c IH|cs w IH] using trie_ind_all; intros d Hok k.
  - constructor.
  - cbn [tget]. destruct Hok as (_ & [? _]). by destruct (decide _).
  - cbn [tget]. destruct Hok as (_ & _ & _ & Hco). destruct (decide _); [by eapply IH|constructor].
  - apply trie_ok_branch in Hok as (_ & [? _] & Hcs). destruct k as [|n k]; [done|]. rewrite tget_child. unfold child.
    rewrite nth_lookup. destruct (cs !! Z.to_nat n) as [c|] eqn:E; [|constructor]. cbn. apply list_elem_of_lookup_2 in E.
    rewrite Forall_forall in IH, Hcs. destruct (Hcs c E) as [->|[_ ?]]; [constructor|]. by eapply IH.
Qed.

Lemma roots_forceInsert d t db (Q : Z -> DB -> Prop) : (d <= max_depth)%nat -> trie_ok d t -> canon t -> stored db t ->
  (forall db', le db db' -> roots db' (sha3 (enc t)) t -> Q (sha3 (enc t)) db') -> ends (forceInsertNode (enc t)) db Q.
Proof.
  intros Hd Hok Hc Hst HQ. apply ends_insert; [by eapply enc_not_nil|]. intros db' Hle Hn. apply ends_ret, HQ; [done|].
  constructor; [done|done|by eapply stored_grows|by eapply trie_ok_mono|done].
Qed.

(** *** Reading *)

Lemma ends_at db r m key : holds db r m -> key_bytes key -> ends (at_ r key) db (fun v db' => v = default [] (m !! key) /\ db' = db).
Proof.
  intros [_ (t & [Hh Hn Hst Hok Hc] & [Hg _])] Hkey. destruct (slice_of_ok key Hkey) as (Hs & En & Hl & Ef).
  unfold at_, node. cbn [pbind]. apply (ends_lookup _ (enc t)); [done|]. pstep. rewrite (enc_mkRLP max_depth t ltac:(done) Hok). pstep.
  apply (ends_atAux max_depth); [done|done|done|done|rewrite Ef, En; lia|]. rewrite En. split; [apply Hg, Hkey|done].
Qed.

Lemma reads_lift {A} (r : res A) : reads (plift r).
Proof. by destruct r. Qed.

Lemma reads_node h : reads (node h).
Proof. done. Qed.

Lemma reads_atAux fuel here s : reads (atAux fuel here s).
Proof.
  revert here s. induction fuel as [|fuel IH]; intros here s; [done|]. cbn [atAux]. unfold two_or_seventeen.
  reading; auto using reads_lift, reads_node.
Qed.

Lemma reads_at r key : reads (at_ r key).
Proof. unfold at_. reading; auto using reads_lift, reads_node, reads_atAux. Qed.

Lemma run_at db r m key : fine db -> holds db r m -> key_bytes key -> run (at_ r key) db = (Value (default [] (m !! key)), db).
Proof.
  intros Hf Hh Hk. destruct (ends_at db r m key Hh Hk Hf) as (v & db' & Hr & _ & -> & ->); [|done].
  apply clean_reads, reads_at.
Qed.

(** *** Inserting *)

Lemma ends_trie_insert db r m key v : holds db r m -> key_bytes key -> val_ok v -> v <> [] ->
  ends (TrieDB.insert r key v) db (fun r' db' => holds db' r' (<[key := v]> m)).
Proof.
  intros [Hm (t & [Hh Hn Hst Hok Hc] & Hmap)] Hkey Hv Hne. destruct (slice_of_ok key Hkey) as (Hs & En & Hl & Ef). pose proof Hkey as [Hb _].
  unfold TrieDB.insert, node. cbn [pbind]. apply (ends_lookup _ (enc t)); [done|]. pstep. pose proof (enc_length max_depth t ltac:(done) Hok) as Hlen.
  destruct (Z.eqb_spec (lenZ (enc t)) 0); [lia|]. cbn [negb assert_]. pstep. rewrite (enc_mkRLP max_depth t ltac:(done) Hok). pstep.
  pose proof (nibs_nibbles key Hb) as Hnib.
  apply (mergeAt_inserts max_depth); [done|done|done|done|by rewrite En| |done|].
  { rewrite Ef, En. by eapply need_bound. }
  rewrite En. intros db' Hle Hst'. destruct (maps_tinsert max_depth t m key v Hok Hm Hmap Hb Hne) as [Hmap' Hm'].
  assert (key_ok max_depth (nibs key)) as Hko by done. destruct (tinsert_ok max_depth t _ v Hok Hko Hv) as [Hok' _].
  destruct (tinsert_canon max_depth t _ v Hok Hc Hko Hv Hne) as [Hc' _].
  assert (forall db2, le db' db2 -> ends (forceInsertNode (enc (tinsert t (nibs key) v))) db2 (fun r' db3 => holds db3 r' (<[key := v]> m))) as Hend.
  { intros db2 Hle2. apply (roots_forceInsert max_depth); [done|done|done|by eapply stored_grows|]. intros db3 Hle3 Hr. split; [done|]. eauto. }
  destruct (lenZ (enc t) <? 32); [apply ends_forceKill; exact Hend|pstep; apply Hend, le_refl].
Qed.

(** *** Removing *)

Lemma ends_remove db r m key : holds db r m -> key_bytes key -> prefix_free m -> unrelated m key ->
  ends (TrieDB.remove r key) db (fun r' db' => holds db' r' (delete key m)).
Proof.
  intros [Hm (t & Hr & Hmap)] Hkey Hfree Hu. pose proof Hr as [Hh Hn Hst Hok Hc]. destruct (slice_of_ok key Hkey) as (Hs & En & Hl & Ef). pose proof Hkey as [Hb _].
  pose proof (nibs_nibbles key Hb) as Hnib. pose proof (maps_flat _ _ _ Hok Hc Hmap Hfree) as Hf.
  unfold TrieDB.remove, node. cbn [pbind]. apply (ends_lookup _ (enc t)); [done|]. pstep. rewrite (enc_mkRLP max_depth t ltac:(done) Hok). pstep.
  apply (deleteAt_deletes max_depth); [done|done|done|done|done|rewrite En; by eapply maps_compat|rewrite Ef, En; lia|done|].
  rewrite En. pose proof (tdelete_spec max_depth t (nibs key) Hok Hc Hf Hnib) as Hspec. destruct (tdelete t (nibs key)) as [t'|].
  - intros db' Hle Hst'. destruct Hspec as (Hok' & Hc' & _ & _ & _ & Hget). pose proof (enc_length max_depth t' ltac:(done) Hok') as Hlen.
    destruct (maps_delete t t' m key Hm Hmap Hb Hget) as [Hmap' Hm'].
    destruct (Z.eqb_spec (lenZ (enc t')) 0); [lia|]. cbn [negb].
    assert (forall db2, le db' db2 -> ends (forceInsertNode (enc t')) db2 (fun r' db3 => holds db3 r' (delete key m))) as Hend.
    { intros db2 Hle2. apply (roots_forceInsert max_depth); [done|done|done|by eapply stored_grows|]. intros db3 Hle3 Hr'. split; [done|]. eauto. }
    destruct (lenZ (enc t) <? 32); [apply ends_forceKill; exact Hend|pstep; apply Hend, le_refl].
  - intros db' Hle. change (negb (lenZ [] =? 0)) with false. cbv iota. apply ends_ret.
    assert (m !! key = None) as Hnone.
    { rewrite (maps_get _ _ Hmap) in Hspec by done. destruct (m !! key) as [v|] eqn:E; [|done]. cbn in Hspec. by destruct (Hm _ _ E). }
    rewrite delete_id by done. apply (holds_le db); [done|]. split; [done|]. by exists t.
Qed.

(** *** The empty trie *)

Lemma holds_empty db : db_node db EmptyTrie = [0x80] -> holds db EmptyTrie ∅.
Proof.
  intros Hn. split; [done|]. exists Null. split; [by constructor|]. by constructor.
Qed.

Lemma ends_setRoot_found f db r m : holds db r m -> ends (setRoot_rec (S f) r) db (fun r' db' => r' = r /\ db' = db).
Proof.
  intros [_ (t & [Hh Hn _ Hok _] & _)]. pose proof (enc_length max_depth t ltac:(done) Hok) as Hlen. cbn [setRoot_rec].
  assert (ends (v <- node r ;; (if lenZ v =? 0 then pthrow RootNotFound else pret r)) db (fun r' db' => r' = r /\ db' = db)) as Hend.
  { unfold node. cbn [pbind]. apply (ends_lookup _ (enc t)); [done|]. pstep. destruct (Z.eqb_spec (lenZ (enc t)) 0); [lia|]. by apply ends_ret. }
  destruct (r =? EmptyTrie); [|by pstep].
  cbn [pbind]. apply ends_exists. intros [Hok' _]. destruct (db_has db r) eqn:E; [by pstep|].
  rewrite (has_node _ _ Hok' E) in Hn. rewrite <- Hn in Hlen. unfold lenZ in Hlen. cbn in Hlen. lia.
Qed.

Lemma ends_init db : ends init db (fun r db' => r = EmptyTrie /\ holds db' r ∅).
Proof.
  unfold init, forceInsertNode. cbn [pbind]. apply ends_insert; [done|]. intros db' Hle Hn. pstep. change (sha3 RLPNull) with EmptyTrie in *.
  pose proof (holds_empty db' Hn) as Hh. unfold setRoot. eapply ends_bind; [by apply (ends_setRoot_found 1 db' _ ∅)|].
  intros r db2 _ [-> ->]. unfold node. cbn [pbind]. apply (ends_lookup _ RLPNull); [done|]. pstep. by apply ends_ret.
Qed.

(** [setRoot] on the root of the empty trie makes it. *)
Lemma ends_setRoot_empty db : ends (setRoot EmptyTrie Normal) db (fun r db' => r = EmptyTrie /\ holds db' r ∅).
Proof.
  cbn [setRoot]. cbn [setRoot_rec]. rewrite Z.eqb_refl. cbn [pbind]. apply ends_exists. intros [Hok Hf]. destruct (db_has db EmptyTrie) eqn:E.
  - pstep. cbn [negb]. pstep. unfold node. cbn [pbind]. apply (ends_lookup _ [0x80]); [auto|]. pstep. change (lenZ [0x80] =? 0) with false. cbv iota.
    apply ends_ret. split; [done|]. apply holds_empty. auto.
  - pstep. cbn [negb]. cbv iota. apply ends_assoc. unfold forceInsertNode. cbn [pbind]. apply ends_insert; [done|]. intros db' Hle Hn. pstep.
    change (sha3 RLPNull) with EmptyTrie in *. pose proof (holds_empty db' Hn) as Hh. apply ends_assoc.
    eapply ends_bind; [by apply (ends_setRoot_found 0 db' _ ∅)|]. intros r db2 _ [-> ->]. unfold node. apply ends_assoc.
    apply (ends_lookup _ RLPNull); [done|]. pstep. change (negb (lenZ RLPNull =? 0)) with true. cbn [assert_]. pstep.
    apply (ends_lookup _ RLPNull); [done|]. pstep. by apply ends_ret.
Qed.
End Roots.

(** The root is determined by the map. *)
Lemma holds_root {DB1 DB2 : Type} `{!NodeDB DB1} `{!NodeDBLaws DB1} `{!NodeDB DB2} `{!NodeDBLaws DB2} `{Sha3} `{!Sha3Range}
    (db1 : DB1) (db2 : DB2) r1 r2 m : holds db1 r1 m -> holds db2 r2 m -> r1 = r2.
Proof.
  intros [_ (t1 & H1 & M1)] [_ (t2 & H2 & M2)]. rewrite (r_hash _ _ _ H1), (r_hash _ _ _ H2). do 2 f_equal.
  apply (canon_unique max_depth max_depth); [apply H1|apply H2|apply H1|apply H2|].
  assert (forall (ta tb : trie), maps ta m -> maps tb m -> forall k, nibble_list k -> tget ta k <> [] -> tget ta k = tget tb k) as Hsame.
  { intros ta tb Ma Mb k Hk G. destruct (maps_some _ _ Ma k Hk G) as (key & -> & Hb & _). by rewrite (maps_get _ _ Ma), (maps_get _ _ Mb). }
  intros k Hk. destruct (decide (tget t1 k = [])) as [E1|G1]; [|by apply Hsame].
  destruct (decide (tget t2 k = [])) as [E2|G2]; [congruence|]. symmetry. by apply Hsame.
Qed.
