(* ===== verification/MemoryDBLaws.v ===== *)
(** * The databases of nodes keep their promises

    [MemoryDB] and [OverlayDB] implement what the tries rely on ([NodeDBLaws]),
    as long as references are not enforced and the disk can be read, and a commit
    of an [OverlayDB] puts on the disk what is still referred to. *)
From stdpp Require Import base list gmap.
From Stdlib Require Import ZArith Lia.
From S2P Require Import TrieDB TrieSpec TestDB Prelude Words Result Rlp RlpSpec RlpInt StateMonad Account NodeDB MemoryDB.

(** ** [MemoryDB] *)

Definition m_node (db : MemoryDB) (h : Z) : list Z := match m_main db !! h with Some (v, _) => v | None => [] end.
Definition m_has (db : MemoryDB) (h : Z) : bool := match m_main db !! h with Some _ => true | None => false end.

Lemma counts_all db refs : m_enforceRefs db = false -> counts db refs = true.
Proof. intros Hr. unfold counts. by rewrite Hr. Qed.

Lemma lookup_all db h : m_enforceRefs db = false -> lookup db h = m_node db h.
Proof. intros Hr. unfold lookup, m_node. destruct (m_main db !! h) as [[v refs]|]; [|done]. by rewrite counts_all. Qed.

Lemma exists_all db h : m_enforceRefs db = false -> exists_ db h = m_has db h.
Proof. intros Hr. unfold exists_, m_has. destruct (m_main db !! h) as [[v refs]|]; [|done]. by rewrite counts_all. Qed.

Lemma m_node_insert h h' v db : m_node (insert h v db) h' = if decide (h = h') then v else m_node db h'.
Proof.
  unfold m_node, insert. cbn [m_main]. destruct (decide (h = h')) as [<-|Hne]; [by rewrite lookup_insert_eq|by rewrite lookup_insert_ne].
Qed.

Lemma m_has_insert h h' v db : m_has (insert h v db) h' = if decide (h = h') then true else m_has db h'.
Proof.
  unfold m_has, insert. cbn [m_main]. destruct (decide (h = h')) as [<-|Hne]; [by rewrite lookup_insert_eq|by rewrite lookup_insert_ne].
Qed.

Lemma kill_facts h db : m_enforceRefs (kill h db).2 = m_enforceRefs db /\
  (forall h', m_node (kill h db).2 h' = m_node db h') /\ (forall h', m_has (kill h db).2 h' = m_has db h').
Proof.
  unfold kill. destruct (m_main db !! h) as [[v refs]|] eqn:E; [|done]. destruct (0 <? refs); [|done]. split; [done|].
  unfold m_node, m_has. cbn [snd m_main].
  split; intros h'; (destruct (decide (h = h')) as [<-|Hne]; [by rewrite lookup_insert_eq, E|by rewrite lookup_insert_ne]).
Qed.

Lemma has_node_m h db : m_has db h = false -> m_node db h = [].
Proof. unfold m_has, m_node. by destruct (m_main db !! h) as [[]|]. Qed.

#[export] Program Instance MemoryNodeDBLaws : NodeDBLaws MemoryDB := {
  db_ok db := m_enforceRefs db = false;
  db_node := m_node;
  db_has := m_has
}.
Next Obligation. intros h db Hok. cbn. by rewrite lookup_all. Qed.
Next Obligation. intros h db Hok. cbn. by rewrite exists_all. Qed.
Next Obligation. intros h db _. apply has_node_m. Qed.
Next Obligation. done. Qed.
Next Obligation. intros h v db _. cbn. rewrite m_node_insert. by rewrite decide_True. Qed.
Next Obligation. intros h h' v db Hne. cbn. rewrite m_node_insert. by rewrite decide_False. Qed.
Next Obligation. intros h v h' db. cbn. rewrite m_has_insert. destruct (decide (h = h')); auto. Qed.
Next Obligation.
  intros h db Hok. destruct (kill_facts h db) as (He & Hn & Hh). exists (kill h db).2. split; [done|]. split; [by rewrite He|done].
Qed.
Next Obligation. done. Qed.

(** ** [OverlayDB] *)

(** A read of [key] from the disk finds something or nothing. *)
Definition readable {D} `{!LevelDBLib D} (d : D) (key : list Z) : Prop :=
  (ldb_Get d key).1 = StatusOk \/ (ldb_Get d key).1 = StatusNotFound.

Section Overlay.
  Context {D : Type} `{!LevelDBLib D}.

Definition disk_node (d : D) (key : list Z) : list Z := let (status, v) := ldb_Get d key in match status with StatusOk => v | _ => [] end.
Definition disk_has (d : D) (key : list Z) : bool := match (ldb_Get d key).1 with StatusOk => true | _ => false end.

Lemma LevelDB_lookup_ok d key : readable d key -> LevelDB_lookup d key = Value (disk_node d key).
Proof.
  unfold readable, LevelDB_lookup, disk_node. destruct (ldb_Get d key) as [status v]. cbn [fst]. by intros [-> | ->].
Qed.

Lemma LevelDB_exists_ok d key : readable d key -> LevelDB_exists d key = Value (disk_has d key).
Proof.
  unfold readable, LevelDB_exists, disk_has. destruct (ldb_Get d key) as [status v]. cbn [fst]. by intros [-> | ->].
Qed.

Lemma disk_has_node d key : readable d key -> disk_has d key = false -> disk_node d key = [].
Proof. unfold readable, disk_has, disk_node. destruct (ldb_Get d key) as [status v]. cbn [fst]. by intros [-> | ->]. Qed.

Definition o_node (o : OverlayDB D) (h : Z) : list Z :=
  match m_node (mem o) h with
  | [] => match m_db o with Some d => disk_node d (h256_bytes h) | None => [] end
  | v => v
  end.
Definition o_has (o : OverlayDB D) (h : Z) : bool :=
  m_has (mem o) h || match m_db o with Some d => disk_has d (h256_bytes h) | None => false end.
Definition o_ok (o : OverlayDB D) : Prop :=
  m_enforceRefs (mem o) = false /\ forall d, m_db o = Some d -> forall h, readable d (h256_bytes h).

Lemma overlay_lookup_ok o h : o_ok o -> overlay_lookup o h = Value (o_node o h).
Proof.
  intros [Hr Hd]. unfold overlay_lookup, o_node. rewrite lookup_all by done. destruct (m_db o) as [d|].
  - destruct (m_node (mem o) h) as [|b v]; [apply (LevelDB_lookup_ok d), Hd; done|].
    rewrite lenZ_cons. pose proof (lenZ_nonneg v). destruct (Z.eqb_spec (1 + lenZ v) 0); [lia|done].
  - by destruct (m_node (mem o) h).
Qed.

Lemma overlay_exists_ok o h : o_ok o -> overlay_exists o h = Value (o_has o h).
Proof.
  intros [Hr Hd]. unfold overlay_exists, o_has. rewrite exists_all by done. destruct (m_has (mem o) h); [done|]. cbn [orb].
  destruct (m_db o) as [d|]; [|done]. by apply LevelDB_exists_ok, Hd.
Qed.

Lemma o_kill h (o : OverlayDB D) : o_ok o -> overlay_kill h o = Value (mkOverlayDB (kill h (mem o)).2 (m_db o)).
Proof.
  intros [Hr Hd]. unfold overlay_kill. destruct (kill h (mem o)) as [killed mem'] eqn:E. cbn [snd]. destruct killed; [done|].
  destruct (m_db o) as [d|]; [|done]. by rewrite LevelDB_exists_ok by (by apply Hd).
Qed.
End Overlay.

#[export] Program Instance OverlayNodeDBLaws {D} `{!LevelDBLib D} : NodeDBLaws (OverlayDB D) := {
  db_ok := o_ok;
  db_node := o_node;
  db_has := o_has
}.
Next Obligation. intros D ? h o Hok. cbn. by rewrite overlay_lookup_ok. Qed.
Next Obligation. intros D ? h o Hok. cbn. by rewrite overlay_exists_ok. Qed.
Next Obligation.
  intros D ? h o [_ Hd] [Hm Hdisk]%orb_false_iff. unfold o_node. rewrite has_node_m by done. destruct (m_db o) as [d|]; [|done].
  by apply disk_has_node, Hdisk; apply Hd.
Qed.
Next Obligation. intros D ? h v o [Hr Hd]. by split. Qed.
Next Obligation. intros D ? h v o Hv. unfold o_node. cbn [db_insert OverlayNodeDB mem]. rewrite m_node_insert, decide_True by done. by destruct v. Qed.
Next Obligation. intros D ? h h' v o Hne. unfold o_node. cbn [db_insert OverlayNodeDB mem m_db]. by rewrite m_node_insert, decide_False by done. Qed.
Next Obligation.
  intros D ? h v h' o. unfold o_has. cbn [db_insert OverlayNodeDB mem m_db]. rewrite m_has_insert. destruct (decide (h = h')); auto.
Qed.
Next Obligation.
  intros D ? h o Hok. cbn. rewrite o_kill by done. destruct (kill_facts h (mem o)) as (He & Hn & Hh). eexists. split; [done|]. destruct Hok as [Hr Hd].
  split; [split; cbn [mem m_db]; [by rewrite He|done]|]. split; intros h'; [unfold o_node|unfold o_has]; cbn [mem m_db]; [by rewrite Hn|by rewrite Hh].
Qed.
Next Obligation. intros D ? h v o [Hr Hd]. by split. Qed.

(** ** Commits *)

(** What a batch says of a key, the last write counting. *)
Definition write_key (w : write) : list Z := match w with Put k _ | Delete k => k end.
Fixpoint last_write (b : list write) (key : list Z) : option write :=
  match b with
  | [] => None
  | w :: b =>
      match last_write b key with
      | Some w' => Some w'
      | None => if decide (write_key w = key) then Some w else None
      end
  end.

(** LevelDB: a batch that is written is applied as a whole, and can be read back. *)
Class LevelDBLaws (D : Type) `{!LevelDBLib D} := {
  ldb_written : forall b d d' key, ldb_Write b d = (StatusOk, d') ->
    match last_write b key with
    | Some (Put _ v) => ldb_Get d' key = (StatusOk, v)
    | Some (Delete _) => (ldb_Get d' key).1 = StatusNotFound
    | None => ldb_Get d' key = ldb_Get d key
    end
}.

Lemma last_write_Some b key w : last_write b key = Some w -> w ∈ b /\ write_key w = key.
Proof.
  induction b as [|x b IH]; [done|]. cbn [last_write]. destruct (last_write b key) as [w'|].
  - intros [= ->]. destruct IH; [done|]. split; [by right|done].
  - destruct (decide (write_key x = key)); [|done]. intros [= ->]. split; [by left|done].
Qed.

Lemma last_write_None b key : last_write b key = None -> forall w, w ∈ b -> write_key w <> key.
Proof.
  induction b as [|x b IH]; [set_solver|]. cbn [last_write]. destruct (last_write b key) as [w'|]; [done|].
  destruct (decide (write_key x = key)); [done|]. intros _ w [->|Hw]%elem_of_cons; [done|auto].
Qed.

Lemma aux_key_other h h' : aux_key h <> h256_bytes h'.
Proof.
  intros E. apply (f_equal lenZ) in E. unfold aux_key in E. rewrite lenZ_app in E.
  destruct (h256_bytes_facts h) as [_ L1]. destruct (h256_bytes_facts h') as [_ L2]. rewrite L1, L2 in E. by cbn in E.
Qed.

Definition main_ok (db : MemoryDB) : Prop := forall h v refs, m_main db !! h = Some (v, refs) -> is_u256 h /\ v <> [].

Section Commit.
  Context `{!UnorderedMaps}.

Lemma iterate_elem {A} (m : gmap Z A) h x : (h, x) ∈ iterate m <-> m !! h = Some x.
Proof. rewrite (iterate_perm m). apply elem_of_map_to_list. Qed.

(** What the batch of a commit says of a node. *)
Lemma commit_batch_key db h : main_ok db -> is_u256 h ->
  last_write (commit_batch db) (h256_bytes h) =
  match m_main db !! h with Some (v, refs) => if refs =? 0 then None else Some (Put (h256_bytes h) v) | None => None end.
Proof.
  intros Hok Hh. assert (forall w, w ∈ commit_batch db -> write_key w = h256_bytes h ->
    exists v refs, m_main db !! h = Some (v, refs) /\ refs <> 0 /\ w = Put (h256_bytes h) v) as Hin.
  { intros w. unfold commit_batch. rewrite elem_of_app, !list_elem_of_omap. intros [([h' [v refs]] & Hit & Hw)|([h' [v there]] & Hit & Hw)] Hk.
    - apply iterate_elem in Hit. destruct (Z.eqb_spec refs 0); [done|]. cbn in Hw. injection Hw as <-. cbn [write_key] in Hk.
      destruct (Hok _ _ _ Hit) as [Hu _]. apply h256_bytes_inj in Hk; [subst; eauto|done|done].
    - destruct there; [|done]. cbn in Hw. injection Hw as <-. by apply aux_key_other in Hk. }
  destruct (last_write (commit_batch db) (h256_bytes h)) as [w|] eqn:E.
  - apply last_write_Some in E as [Hw Hk]. destruct (Hin w Hw Hk) as (v & refs & -> & Hr & ->). by destruct (Z.eqb_spec refs 0).
  - destruct (m_main db !! h) as [[v refs]|] eqn:Em; [|done]. destruct (Z.eqb_spec refs 0); [done|]. exfalso.
    eapply (last_write_None _ _ E (Put (h256_bytes h) v)); [|done]. unfold commit_batch. rewrite elem_of_app, list_elem_of_omap. left.
    exists (h, (v, refs)). split; [by apply iterate_elem|]. by destruct (Z.eqb_spec refs 0).
Qed.
End Commit.

(** ** A concrete disk

    A disk in a map that may refuse to be written, over the hash of [TestDB].
    The witnesses of the theorems about tries run on it. *)

#[export] Instance TestSha3Range : Sha3Range (H := TestSha3).
Proof.
  intros l. unfold sha3, TestSha3. destruct l as [|b l] using rev_ind; [by vm_compute|]. rewrite foldl_app. cbn [foldl].
  pose proof (Z.mod_pos_bound (foldl (fun h b => (h * 257 + b + 1) mod 2 ^ 61) 1 l * 257 + b + 1) (2 ^ 61) ltac:(lia)). lia.
Qed.

(** The order of the map. *)
#[export] Program Instance TestUnordered : UnorderedMaps := { iterate A m := map_to_list m }.
Next Obligation. done. Qed.

Record TestDisk := mkTestDisk { disk : gmap (list Z) (list Z); full : bool }.

Definition disk_write (w : write) (m : gmap (list Z) (list Z)) : gmap (list Z) (list Z) :=
  match w with Put k v => <[k := v]> m | Delete k => delete k m end.

#[export] Instance TestLevelDB : LevelDBLib TestDisk := {
  ldb_Get d k := match disk d !! k with Some v => (StatusOk, v) | None => (StatusNotFound, []) end;
  ldb_Write b d := if full d then (StatusIOError, d) else (StatusOk, mkTestDisk (foldl (fun m w => disk_write w m) (disk d) b) false)
}.

Lemma foldl_last_write b m key :
  foldl (fun m w => disk_write w m) m b !! key =
  match last_write b key with Some (Put _ v) => Some v | Some (Delete _) => None | None => m !! key end.
Proof.
  revert m. induction b as [|w b IH]; intros m; [done|]. cbn [foldl last_write]. rewrite IH. destruct (last_write b key); [done|].
  destruct w as [k v|k]; cbn [disk_write write_key]; (destruct (decide (k = key)) as [->|]);
    by rewrite ?lookup_insert_eq, ?lookup_delete_eq, ?lookup_insert_ne, ?lookup_delete_ne.
Qed.

#[export] Program Instance TestLevelDBLaws : LevelDBLaws TestDisk.
Next Obligation.
  intros b d d' key. cbn. destruct (full d); [done|]. intros [= <-]. cbn [disk]. rewrite foldl_last_write.
  by destruct (last_write b key) as [[]|].
Qed.
