(* ===== verification/TrieTheorems.v ===== *)
(** * What the tries and their databases promise

    The theorems about [GenericTrieDB] and [OverlayDB], with their witnesses on
    concrete ones. *)
From stdpp Require Import base list gmap.
From Stdlib Require Import ZArith Lia.
From S2P Require Import Prelude Words Result Account Rlp RlpSpec RlpRead RlpTheorems RlpInt StateMonad.
From S2P Require Import TrieCommon TrieKeys NodeDB MemoryDB TrieDB TrieItems TrieSpec TrieNodes TrieTree TrieOps TrieDelete TrieMap.
From S2P Require Import MemoryDBLaws TestDB.
Open Scope prog_scope.

(** ** Histories *)

Inductive trie_op : Set := OpInsert (key value : list Z) | OpRemove (key : list Z).

Fixpoint apply `{Sha3} (r : Z) (ops : list trie_op) : prog Z :=
  match ops with
  | [] => pret r
  | OpInsert k v :: ops => r <- TrieDB.insert r k v ;; apply r ops
  | OpRemove k :: ops => r <- TrieDB.remove r k ;; apply r ops
  end.

Definition map_op (m : bytes_map) (op : trie_op) : bytes_map :=
  match op with OpInsert k v => <[k := v]> m | OpRemove k => delete k m end.

(** What the operations need: values that are not empty, and a key that is
    removed is no prefix of another and has none, as when all have one length. *)
Fixpoint ops_ok (m : bytes_map) (ops : list trie_op) : Prop :=
  match ops with
  | [] => True
  | OpInsert k v :: ops => key_bytes k /\ val_ok v /\ v <> [] /\ ops_ok (<[k := v]> m) ops
  | OpRemove k :: ops => key_bytes k /\ prefix_free m /\ unrelated m k /\ ops_ok (delete k m) ops
  end.

(** Keys of one length. *)
Definition op_ok (n : nat) (op : trie_op) : Prop :=
  match op with
  | OpInsert k v => byte_list k /\ length k = n /\ byte_list v /\ lenZ v <= 2 ^ 32 /\ v <> []
  | OpRemove k => byte_list k /\ length k = n
  end.
#[export] Instance op_ok_dec n op : Decision (op_ok n op).
Proof. destruct op; cbn; apply _. Defined.

Lemma ops_ok_length n m ops : Z.of_nat n <= 2 ^ 27 -> keys_have n m -> Forall (op_ok n) ops -> ops_ok m ops.
Proof.
  intros Hn Hm Hops. revert m Hm. induction Hops as [|[k v|k] ops Hop _ IH]; intros m Hm; cbn [ops_ok op_ok] in *; [done|..].
  - destruct Hop as (? & <- & ? & ? & ?). split; [by split|]. split; [by split|]. split; [done|]. apply IH.
    intros k' [v' Hl]. apply lookup_insert_Some in Hl as [[<- _]|[_ Hl]]; [done|by apply Hm].
  - destruct Hop as (? & <-). split; [by split|]. split; [by eapply keys_have_prefix_free|]. split; [by eapply keys_have_unrelated|]. apply IH.
    intros k' [v' Hl]. apply lookup_delete_Some in Hl as [_ Hl]. by apply Hm.
Qed.

Section Histories.
  Context {DB : Type} `{!NodeDB DB} `{!NodeDBLaws DB} `{Sha3} `{!Sha3Range}.

Lemma ends_apply (db : DB) r m ops : holds db r m -> ops_ok m ops ->
  ends (apply r ops) db (fun r' db' => holds db' r' (foldl map_op m ops)).
Proof.
  revert db r m. induction ops as [|[k v|k] ops IH]; intros db r m Hh Hok; cbn [apply foldl ops_ok map_op] in *.
  - by apply ends_ret.
  - destruct Hok as (? & ? & ? & ?). eapply ends_bind; [by apply ends_trie_insert|]. intros r' db' _ Hh'. by apply IH.
  - destruct Hok as (? & ? & ? & ?). eapply ends_bind; [by apply ends_remove|]. intros r' db' _ Hh'. by apply IH.
Qed.
End Histories.

Section Theorems.
  Context {DB : Type} `{!NodeDB DB} `{!NodeDBLaws DB} `{Sha3} `{!Sha3Range}.

(** C4. Over any database that keeps nodes, a history of insertions and
    removals on a root is the history on a map from keys to values: it runs to its
    end, the new root reads as the new map at every key, no node of it can be
    missing, and every root there was before still holds what it held.  The run
    must not write two different nodes with one hash. *)
Theorem trie_refines_map (db : DB) r m ops : fine db -> holds db r m -> ops_ok m ops -> clean (apply r ops) db ->
  exists r' db', run (apply r ops) db = (Value r', db') /\ fine db' /\ holds db' r' (foldl map_op m ops) /\
    (forall key, key_bytes key ->
       run (at_ r' key) db' = (Value (default [] (foldl map_op m ops !! key)), db') /\
       run (contains_key r' key) db' = (Value (bool_decide (is_Some (foldl map_op m ops !! key))), db')) /\
    (forall r0 m0, holds db r0 m0 -> holds db' r0 m0).
Proof.
  intros Hf Hh Hok Hc. destruct (ends_apply db r m ops Hh Hok Hf Hc) as (r' & db' & Hr & Hle & Hh'). exists r', db'.
  pose proof (le_fine _ _ Hle Hf) as Hf'. split; [done|]. split; [done|]. split; [done|]. split; [|intros r0 m0; by apply holds_le].
  intros key Hk. pose proof (run_at db' r' _ key Hf' Hh' Hk) as Hat. split; [done|]. unfold contains_key. rewrite run_bind, Hat. cbn [then_ run pret].
  do 2 f_equal. destruct Hh' as [Hm _]. destruct (foldl map_op m ops !! key) as [v|] eqn:E; [|done]. destruct (Hm _ _ E) as [_ Hv].
  rewrite (bool_decide_eq_true_2 (is_Some (Some v))) by done. cbn [default from_option id]. destruct v as [|b v]; [done|]. 
  rewrite lenZ_cons. pose proof (lenZ_nonneg v). by destruct (Z.eqb_spec (1 + lenZ v) 0); [lia|].
Qed.

(** C20. The root says what the trie holds and nothing of how it came to be: two
    histories from the empty trie that end in one map, in any order and over any
    two databases, end in one root. *)
Theorem trie_root_canonical {DB2 : Type} `{!NodeDB DB2} `{!NodeDBLaws DB2} (db : DB) (db2 : DB2) ops ops2 :
  fine db -> fine db2 -> ops_ok ∅ ops -> ops_ok ∅ ops2 ->
  clean (r <- init ;; apply r ops) db -> clean (r <- init ;; apply r ops2) db2 -> foldl map_op ∅ ops = foldl map_op ∅ ops2 ->
  exists r db' db2', run (r <- init ;; apply r ops) db = (Value r, db') /\ run (r <- init ;; apply r ops2) db2 = (Value r, db2').
Proof.
  intros Hf Hf2 Hok Hok2 Hc Hc2 Hsame.
  assert (ends (r <- init ;; apply r ops) db (fun r' db' => holds db' r' (foldl map_op ∅ ops))) as He.
  { eapply ends_bind; [apply ends_init|]. intros r db' _ [_ Hh]. by apply ends_apply. }
  assert (ends (r <- init ;; apply r ops2) db2 (fun r' db' => holds db' r' (foldl map_op ∅ ops2))) as He2.
  { eapply ends_bind; [apply ends_init|]. intros r db' _ [_ Hh]. by apply ends_apply. }
  destruct (He Hf Hc) as (r1 & db1' & Hr1 & _ & Hh1), (He2 Hf2 Hc2) as (r2 & db2' & Hr2 & _ & Hh2).
  exists r1, db1', db2'. split; [done|]. rewrite <- Hsame in Hh2. by rewrite (holds_root db1' db2' r1 r2 _ Hh1 Hh2).
Qed.
End Theorems.

(** The key of a node reads back: the hex-prefix encoding of any nibbles,
    from a vector or from a slice, is at most half as many bytes and one, and
    from the node that holds it [keyOf] and [isLeaf] return the nibbles and the
    kind of the node. *)
Theorem hex_prefix_roundtrip leaf ns x : nibble_list ns -> lenZ ns <= 2 ^ 28 -> small x ->
  exists b k, hexPrefixEncode_vector ns leaf 0 (-1) = Value b /\
    (forall s, slice_ok s -> nibbles s = ns -> hexPrefixEncode s leaf 0 (-1) = Value b) /\
    byte_list b /\ lenZ b = lenZ ns / 2 + 1 /\
    keyOf (encode (Lst [Str b; x])) = Value k /\ nibbles k = ns /\ isLeaf (encode (Lst [Str b; x])) = Value leaf.
Proof.
  intros Hn Hl Hx. pose proof (lenZ_nonneg ns). destruct (hp_bytes leaf ns Hn) as [Hb _]. destruct (keyOf_hp leaf ns Hn ltac:(lia)) as [_ Hk].
  exists (hp leaf ns), (keyOf_bytes (hp leaf ns)). split.
  - rewrite (hexPrefixEncode_vector_range ns leaf 0 (-1) (lenZ ns)) by (done || cbn; lia). rewrite drop_0, take_ge by (unfold lenZ; lia). done.
  - split; [intros s Hs <-; by apply hexPrefixEncode_all|]. split; [done|]. split; [by apply hp_length|].
    split; [apply pair_key; try done; unfold lenZ in *; lia|]. split; [done|]. apply pair_leaf; try done. unfold lenZ in *; lia.
Qed.

(** ** [OverlayDB] *)

Section Commits.
  Context {D : Type} `{!LevelDBLib D} `{!LevelDBLaws D} `{!UnorderedMaps}.

(** C27. A commit that returns leaves nothing in memory; a node with references
    is then read from the disk, a node without any is what the disk had of it,
    and every other node is what it was. *)
Theorem commit_writes_nodes (o o' : OverlayDB D) d : m_db o = Some d -> o_ok o -> main_ok (mem o) -> commit o = Some o' ->
  o_ok o' /\ m_main (mem o') = ∅ /\ m_aux (mem o') = ∅ /\
  forall h, is_u256 h ->
    overlay_lookup o' h = Value (match m_main (mem o) !! h with
                                 | Some (v, refs) => if refs =? 0 then disk_node d (h256_bytes h) else v
                                 | None => o_node o h
                                 end).
Proof.
  intros Hd [Hr Hread] Hm Hc. unfold commit in Hc. rewrite Hd in Hc. cbn [commit_tries LevelDB_commit] in Hc.
  destruct (ldb_Write (commit_batch (mem o)) d) as [status d'] eqn:Hw.
  assert (status = StatusOk /\ o' = mkOverlayDB (clear (mem o)) (Some d')) as [-> ->].
  { destruct status; cbn in Hc; try done. split; [done|congruence]. }
  assert (forall h, readable d' (h256_bytes h)) as Hread'.
  { intros h. pose proof (ldb_written _ _ _ (h256_bytes h) Hw) as Hl. specialize (Hread d Hd h). unfold readable in *.
    destruct (last_write (commit_batch (mem o)) (h256_bytes h)) as [[k v|k]|]; rewrite ?Hl; cbn; auto. }
  assert (o_ok (mkOverlayDB (clear (mem o)) (Some d'))) as Hok' by (split; [done|intros d2 [= <-]; auto]).
  split; [done|]. split; [done|]. split; [done|]. intros h Hh. rewrite overlay_lookup_ok by done. f_equal.
  change (o_node (mkOverlayDB (clear (mem o)) (Some d')) h) with (disk_node d' (h256_bytes h)).
  pose proof (ldb_written _ _ _ (h256_bytes h) Hw) as Hl. rewrite (commit_batch_key (mem o) h Hm Hh) in Hl.
  unfold o_node, m_node. rewrite Hd. unfold disk_node. destruct (m_main (mem o) !! h) as [[v refs]|]; [|by rewrite Hl].
  destruct (Z.eqb_spec refs 0); by rewrite Hl.
Qed.

(** A commit writes once: if the disk refuses the batch the process ends,
    whatever the disk would do later, for the nine attempts that follow are made
    with the pointer that the first has moved away. *)
Theorem commit_tries_once (o : OverlayDB D) d : m_db o = Some d ->
  commit o = match ldb_Write (commit_batch (mem o)) d with
             | (StatusOk, d') => Some (mkOverlayDB (clear (mem o)) (Some d'))
             | _ => None
             end.
Proof.
  intros Hd. unfold commit. rewrite Hd. cbn [commit_tries LevelDB_commit]. by destruct (ldb_Write (commit_batch (mem o)) d) as [[] d'].
Qed.
End Commits.

(** ** Keys that are prefixes of others *)

(** What a history from the empty trie returns, on a [MemoryDB]. *)
Definition history (ops : list trie_op) : result state_error Z := (run (r <- init ;; apply r ops) new_MemoryDB).1.

(** Removal does not bear keys that are prefixes of others: at a branch
    without a value for the key it reads behind the end of the key, below a leaf
    with a shorter key it takes the leaf's value for a node and throws, and it
    throws when it leaves a branch with nothing but a value of more than 32
    bytes, so that the other key cannot be removed at all. *)
Theorem remove_prefix_fails :
  history [OpInsert [1; 2] [7]; OpInsert [1; 0x32] [8]; OpRemove [1]] = OutOfBounds /\
  history [OpInsert [1; 2; 3] (replicate 40 1); OpInsert [1; 2; 4] (replicate 40 2); OpRemove [1; 2; 3; 4]] = Error (RlpError BadCast) /\
  history [OpInsert [1; 2; 3] (replicate 40 1); OpInsert [1; 2; 3; 5] [2]; OpRemove [1; 2; 3; 5]] = Error (RlpError BadCast).
Proof. by vm_compute. Qed.

(** ** Witnesses *)

Definition example_db : MemoryDB := (run init new_MemoryDB).2.
Definition example_ops : list trie_op := [OpInsert [1; 2] (replicate 33 1); OpInsert [1; 0x32] [7]; OpRemove [1; 2]].
Definition other_ops : list trie_op := [OpInsert [1; 0x32] [9]; OpInsert [1; 0x32] [7]].

Lemma fine_new : fine (DB := MemoryDB) new_MemoryDB.
Proof. split; [done|]. by vm_compute. Defined.

Lemma fine_example : fine (DB := MemoryDB) example_db.
Proof. split; [done|]. by vm_compute. Defined.

Lemma trie_refines_map_witness : fine example_db /\ exists r' db',
  run (apply EmptyTrie example_ops) example_db = (Value r', db') /\ (run (at_ r' [1; 0x32]) db').1 = Value [7].
Proof.
  split; [exact fine_example|].
  destruct (trie_refines_map example_db EmptyTrie ∅ example_ops) as (r' & db' & Hr & _ & _ & Hat & _).
  - exact fine_example.
  - apply holds_empty. by vm_compute.
  - apply (ops_ok_length 2); [done| |decide_compute]. intros k [v Hv]. done.
  - decide_compute.
  - exists r', db'. split; [exact Hr|]. destruct (Hat [1; 0x32]) as [-> _]; [split; [decide_compute|done]|]. by vm_compute.
Defined.

Lemma trie_root_canonical_witness : example_ops <> other_ops /\ exists r, history example_ops = Value r /\ history other_ops = Value r.
Proof.
  split; [done|]. unfold history.
  destruct (trie_root_canonical new_MemoryDB new_MemoryDB example_ops other_ops) as (r & db1 & db2 & -> & ->).
  - exact fine_new.
  - exact fine_new.
  - apply (ops_ok_length 2); [done| |decide_compute]. intros k [v Hv]. done.
  - apply (ops_ok_length 2); [done| |decide_compute]. intros k [v Hv]. done.
  - decide_compute.
  - decide_compute.
  - by vm_compute.
  - by exists r.
Defined.

Lemma hex_prefix_roundtrip_witness : exists b, hexPrefixEncode_vector [1; 2; 3] true 0 (-1) = Value b /\ b = [0x31; 0x23].
Proof.
  destruct (hex_prefix_roundtrip true [1; 2; 3] (Str [5])) as (b & k & Hb & _); [decide_compute|by vm_compute|apply small_str; [decide_compute|done]|].
  exists b. split; [exact Hb|]. vm_compute in Hb. congruence.
Defined.

Definition example_overlay : OverlayDB TestDisk :=
  mkOverlayDB (mkMemoryDB {[ 1 := ([10], 1); 2 := ([20], 0) ]} ∅ false) (Some (mkTestDisk {[ h256_bytes 2 := [21] ]} false)).

Lemma commit_writes_nodes_witness : exists o', commit example_overlay = Some o' /\ overlay_lookup o' 1 = Value [10] /\ overlay_lookup o' 2 = Value [21].
Proof.
  destruct (commit example_overlay) as [o'|] eqn:E; [|by vm_compute in E]. exists o'. split; [done|].
  destruct (commit_writes_nodes example_overlay o' (mkTestDisk {[ h256_bytes 2 := [21] ]} false)) as (_ & _ & _ & Hl).
  - done.
  - split; [done|]. intros d [= <-] h. unfold readable. cbn. destruct (_ !! _); auto.
  - intros h v refs Hl. cbn in Hl. apply lookup_insert_Some in Hl as [[<- [= <- <-]]|[_ Hl]]; [split; [lia|done]|].
    apply lookup_singleton_Some in Hl as [<- [= <- <-]]. split; [lia|done].
  - done.
  - split; [rewrite Hl by lia; by vm_compute|rewrite Hl by lia; by vm_compute].
Defined.

Lemma commit_tries_once_witness : commit (mkOverlayDB new_MemoryDB (Some (mkTestDisk ∅ true))) = None.
Proof. rewrite (commit_tries_once _ (mkTestDisk ∅ true)); [done|]. done. Defined.
