(* ===== verification/TrieHash.v ===== *)
(** * Roots of tries at once (libdevcore/TrieHash.h, TrieHash.cpp)

    The root of the trie that holds a map, computed from the map without a
    database of nodes.  The maps are the ordered maps of the standard library,
    as the lists of their entries in the order of their keys; a range of
    iterators is the list of the entries it runs over. *)
From stdpp Require Import base list.
From Stdlib Require Import ZArith Lia.
From S2P Require Import Prelude Words Result Account Rlp Transaction TrieCommon TrieDB.
Open Scope result_scope.

(** ** [std::map<bytes, bytes>] *)

Notation BytesMap := (list (list Z * list Z)).

(** [std::less<bytes>]: lexicographical. *)
Fixpoint bytes_ltb (a b : list Z) : bool :=
  match a, b with
  | _, [] => false
  | [], _ :: _ => true
  | x :: a, y :: b => (x <? y) || (x =? y) && bytes_ltb a b
  end.

(** [m\[k\] = v] *)
Fixpoint map_set (k v : list Z) (m : BytesMap) : BytesMap :=
  match m with
  | [] => [(k, v)]
  | (k', v') :: m' =>
      if bytes_ltb k k' then (k, v) :: m
      else if bytes_ltb k' k then (k', v') :: map_set k v m'
      else (k', v) :: m'
  end.

(** [asNibbles] (CommonData.cpp) *)
Fixpoint asNibbles (s : list Z) : list Z :=
  match s with
  | [] => []
  | i :: s => i / 16 :: i mod 16 :: asNibbles s
  end.

(** ** The nibbles that all keys share *)

(** [for (; shared < x && _begin->first\[shared\] == i->first\[shared\]; ++shared) {}] *)
Fixpoint shared_loop (fuel : nat) (first other : list Z) (x shared : Z) : res Z :=
  match fuel with
  | O => OutOfFuel
  | S f =>
      if shared <? x then
        a <- rget (first @@ shared) ;;
        b <- rget (other @@ shared) ;;
        if a =? b then shared_loop f first other x (u32 (shared + 1)) else Value shared
      else Value shared
  end.

(** [for (auto i = std::next(_begin); i != _end && sharedPre; ++i, ++c)] *)
Fixpoint sharedPre_loop (first : list Z) (rest : BytesMap) (preLen sharedPre : Z) : res Z :=
  match rest with
  | [] => Value sharedPre
  | (k, _) :: rest =>
      if sharedPre =? 0 then Value sharedPre
      else
        let x := Z.min sharedPre (Z.min (u32 (lenZ first)) (u32 (lenZ k))) in
        shared <- shared_loop (S (Z.to_nat (x - preLen))) first k x preLen ;;
        sharedPre_loop first rest preLen (Z.min shared sharedPre)
  end.

(** ** The sixteen ranges of a branch *)

(** [for (; n != _end && n->first\[_preLen\] == i; ++n) {}]: the ranges before
    and after [n]. *)
Fixpoint slot (i preLen : Z) (b : BytesMap) : res (BytesMap * BytesMap) :=
  match b with
  | [] => Value ([], [])
  | (k, v) :: b' =>
      c <- rget (k @@ preLen) ;;
      if c =? i then r <- slot i preLen b' ;; Value ((k, v) :: fst r, snd r) else Value ([], b)
  end.

(** [for (auto i = 0; i < 16; ++i)] *)
Fixpoint slots (aux : BytesMap -> RLPStream -> res RLPStream) (count : nat) (i preLen : Z) (b : BytesMap) (s : RLPStream) : res RLPStream :=
  match count with
  | O => Value s
  | S c =>
      r <- slot i preLen b ;;
      s <- (match fst r with [] => append_string [] s | n => aux n s end) ;;
      slots aux c (i + 1) preLen (snd r) s
  end.

Section TrieHash.
  Context `{Sha3}.

(** ** Nodes *)

(** [hash256aux], over the [hash256rlp] it calls. *)
Definition hash256aux (hash256rlp : BytesMap -> Z -> RLPStream -> res RLPStream) (l : BytesMap) (preLen : Z) (s : RLPStream) : res RLPStream :=
  r <- hash256rlp l preLen empty_stream ;;
  out <- stream_out r ;;
  if lenZ out <? 32 then appendRaw out 1 s else append_string (h256_bytes (sha3 out)) s.

Fixpoint hash256rlp (fuel : nat) (l : BytesMap) (preLen : Z) (s : RLPStream) : res RLPStream :=
  match fuel with
  | O => OutOfFuel
  | S f =>
      match l with
      | [] => append_string [] s
      | [(k, v)] =>
          hpe <- hexPrefixEncode_vector k true preLen (-1) ;;
          s <- appendList 2 s ;;
          s <- append_string hpe s ;;
          append_string v s
      | (k, v) :: rest =>
          sharedPre <- sharedPre_loop k rest preLen (2 ^ 32 - 1) ;;
          if preLen <? sharedPre then
            hpe <- hexPrefixEncode_vector k false preLen (i32 sharedPre) ;;
            s <- appendList 2 s ;;
            s <- append_string hpe s ;;
            hash256aux (hash256rlp f) l sharedPre s
          else
            s <- appendList 17 s ;;
            let b := if preLen =? lenZ k then rest else l in
            s <- slots (fun n => hash256aux (hash256rlp f) n (u32 (preLen + 1))) 16 0 preLen b s ;;
            append_string (if preLen =? lenZ k then v else []) s
      end
  end.

(** A range of more than one key has a key longer than what they share. *)
Definition hash_fuel (l : BytesMap) : nat := S (list_max (map (fun e => length (fst e)) l)).

(** ** Roots *)

(** [for (auto i = _s.rbegin(); i != _s.rend(); ++i) hexMap\[asNibbles(i->first)\] = i->second] *)
Definition to_hexMap (m : BytesMap) : BytesMap := foldl (fun h e => map_set (asNibbles (fst e)) (snd e) h) [] (rev m).

Definition rlp256 (m : BytesMap) : res (list Z) :=
  match m with
  | [] => rlp_of (append_string [])
  | _ =>
      let hexMap := to_hexMap m in
      s <- hash256rlp (hash_fuel hexMap) hexMap 0 empty_stream ;;
      stream_out s
  end.

Definition hash256 (m : BytesMap) : res Z := d <- rlp256 m ;; Value (sha3 d).

(** [rlp(j)] of an [unsigned]. *)
Definition rlp_unsigned (j : Z) : res (list Z) := rlp_of (append_C_int j).

(** [for (auto i: _data) m\[rlp(j++)\] = i] *)
Fixpoint ordered_loop (data : list (list Z)) (j : Z) (m : BytesMap) : res BytesMap :=
  match data with
  | [] => Value m
  | i :: data => k <- rlp_unsigned j ;; ordered_loop data (u32 (j + 1)) (map_set k i m)
  end.
Definition orderedTrieRoot (data : list (list Z)) : res Z := m <- ordered_loop data 0 [] ;; hash256 m.

(** [trieRootOver]: [for (unsigned i = 0; i < _itemCount; ++i) m\[_getKey(i)\] = _getValue(i)];
    [_getValue] may change the object it reads. *)
Fixpoint over_loop {E S} (count : nat) (i : Z) (getKey : Z -> result E (list Z)) (getValue : Z -> S -> result E (list Z * S))
    (o : S) (m : BytesMap) : result E (BytesMap * S) :=
  match count with
  | O => Value (m, o)
  | Datatypes.S c =>
      v <- getValue i o ;;
      k <- getKey i ;;
      over_loop c (i + 1) getKey getValue (snd v) (map_set k (fst v) m)
  end.
End TrieHash.
