(* ===== verification/TrieHashSpec.v ===== *)
(** * The entries of a tree

    Ordered maps, and the map a tree of a trie holds as the list of its entries
    in order: [hash256rlp] on these entries writes the root node of the tree. *)
From stdpp Require Import base list gmap sorting.
From Stdlib Require Import ZArith Lia.
From S2P Require Import Prelude Words Result Account Rlp RlpSpec RlpRead RlpTheorems RlpInt.
From S2P Require Import TrieCommon TrieKeys TrieDB TrieItems TrieSpec TrieNodes TrieTree TrieMap Transaction TrieHash.
Open Scope result_scope.

(** ** Ordered maps *)

Lemma ltb_irrefl a : bytes_ltb a a = false.
Proof. induction a as [|x a IH]; [done|]. cbn [bytes_ltb]. by rewrite Z.ltb_irrefl, Z.eqb_refl. Qed.

Lemma ltb_trans a b c : bytes_ltb a b = true -> bytes_ltb b c = true -> bytes_ltb a c = true.
Proof.
  revert b c. induction a as [|x a IH]; intros [|y b] [|z c]; try done. cbn [bytes_ltb].
  rewrite !orb_true_iff, !andb_true_iff, !Z.ltb_lt, !Z.eqb_eq. intros [H1|[-> H1]] [H2|[-> H2]]; [left; lia..|]. right. eauto.
Qed.

Lemma ltb_total a b : bytes_ltb a b = false -> bytes_ltb b a = false -> a = b.
Proof.
  revert b. induction a as [|x a IH]; intros [|y b]; try done. cbn [bytes_ltb].
  rewrite !orb_false_iff, !andb_false_iff, !Z.ltb_ge, !Z.eqb_neq. intros [H1 H2] [H3 H4]. assert (x = y) as -> by lia.
  f_equal. apply IH; tauto.
Qed.

Lemma ltb_app p a b : bytes_ltb (p ++ a) (p ++ b) = bytes_ltb a b.
Proof. induction p as [|x p IH]; [done|]. cbn [app bytes_ltb]. by rewrite Z.ltb_irrefl, Z.eqb_refl, IH. Qed.

Lemma ltb_nibs a b : byte_list a -> byte_list b -> bytes_ltb (nibs a) (nibs b) = bytes_ltb a b.
Proof.
  intros Ha. revert b. induction Ha as [|x a Hx _ IH]; intros b Hb; [by destruct b|]. destruct Hb as [|y b Hy Hb]; [done|].
  cbn [nibs bytes_ltb]. rewrite IH by done. pose proof (nibble_pair x Hx) as Ex. pose proof (nibble_pair y Hy) as Ey. rewrite land_15 in *.
  pose proof (Z.mod_pos_bound x 16 ltac:(lia)). pose proof (Z.mod_pos_bound y 16 ltac:(lia)). rewrite land_15.
  repeat match goal with |- context [?u <? ?v] => destruct (Z.ltb_spec u v) | |- context [?u =? ?v] => destruct (Z.eqb_spec u v) end; cbn; try done; lia.
Qed.

Lemma asNibbles_nibs s : asNibbles s = nibs s.
Proof. induction s as [|b s IH]; [done|]. cbn [asNibbles nibs]. by rewrite land_15, shiftr_4, IH. Qed.

Definition before (e e' : list Z * list Z) : Prop := bytes_ltb e.1 e'.1 = true.
Notation sorted := (StronglySorted before).

#[export] Instance before_dec e e' : Decision (before e e').
Proof. unfold before. apply _. Defined.

Lemma sorted_antisym m1 m2 : sorted m1 -> sorted m2 -> m1 ≡ₚ m2 -> m1 = m2.
Proof.
  apply StronglySorted_unique_strong. intros [k1 v1] [k2 v2] _ _ H1 H2. unfold before in *. pose proof (ltb_trans _ _ _ H1 H2) as H3.
  by rewrite ltb_irrefl in H3.
Qed.

Lemma entries_NoDup m : sorted m -> NoDup m.*1.
Proof.
  induction 1 as [|[k v] m _ IH Hk]; cbn; [constructor|]. constructor; [|done]. intros ([k' v'] & -> & Hin)%list_elem_of_fmap.
  rewrite Forall_forall in Hk. specialize (Hk _ Hin). unfold before in Hk. cbn in Hk. by rewrite ltb_irrefl in Hk.
Qed.

Lemma sorted_app m1 m2 : sorted m1 -> sorted m2 -> (forall e1 e2, e1 ∈ m1 -> e2 ∈ m2 -> before e1 e2) -> sorted (m1 ++ m2).
Proof.
  intros H1 H2 H12. induction H1 as [|e m1 H1 IH He]; [done|]. cbn. constructor.
  - apply IH. intros. apply H12; [by right|done].
  - apply Forall_app. split; [done|]. apply Forall_forall. intros. apply H12; [by left|done].
Qed.

Lemma map_set_front k v m : Forall (before (k, v)) m -> map_set k v m = (k, v) :: m.
Proof. intros Hm. destruct m as [|[k' v'] m]; [done|]. apply Forall_inv in Hm. cbn [map_set]. unfold before in Hm. cbn in Hm. by rewrite Hm. Qed.

Lemma map_set_before e k v m : before e (k, v) -> Forall (before e) m -> Forall (before e) (map_set k v m).
Proof.
  intros He. induction m as [|[k' v'] m IH]; intros Hm; cbn [map_set]; [by apply Forall_singleton|]. apply Forall_cons_1 in Hm as [H1 H2].
  destruct (bytes_ltb k k'); [by repeat constructor|]. destruct (bytes_ltb k' k); constructor; auto.
Qed.

(** Assignment keeps the order, and is insertion into the map. *)
Lemma map_set_sorted k v m : sorted m -> sorted (map_set k v m).
Proof.
  induction 1 as [|[k' v'] m Hs IH Hm]; cbn [map_set]; [by repeat constructor|]. destruct (bytes_ltb k k') eqn:E1.
  - constructor; [by constructor|]. constructor; [exact E1|]. eapply Forall_impl; [exact Hm|]. intros e. unfold before. by apply ltb_trans.
  - destruct (bytes_ltb k' k) eqn:E2; constructor; try done. by apply map_set_before.
Qed.

Lemma map_set_map k v m : (list_to_map (map_set k v m) : bytes_map) = <[k := v]> (list_to_map m).
Proof.
  induction m as [|[k' v'] m IH]; [done|]. cbn [map_set]. destruct (bytes_ltb k k') eqn:E1; [done|]. destruct (bytes_ltb k' k) eqn:E2.
  - cbn. rewrite IH. apply insert_insert_ne. intros ->. by rewrite ltb_irrefl in E2.
  - pose proof (ltb_total _ _ E1 E2) as ->. cbn. by rewrite insert_insert_eq.
Qed.

Definition nib_entries (m : BytesMap) : BytesMap := map (fun e => (nibs e.1, e.2)) m.
Definition byte_keys (m : BytesMap) : Prop := Forall (fun e => byte_list e.1) m.

Lemma nib_entries_sorted m : byte_keys m -> sorted m -> sorted (nib_entries m).
Proof.
  intros Hb. induction 1 as [|[k v] m Hs IH Hm]; [constructor|]. apply Forall_cons_1 in Hb as [Hk Hb]. cbn. constructor; [by apply IH|].
  apply Forall_map. unfold byte_keys in Hb. rewrite Forall_forall in *. intros e Hin. unfold before in *. cbn in *.
  rewrite ltb_nibs; [by apply (Hm e)|done|by apply Hb].
Qed.

(** The map of nibbles is the map, key by key. *)
Lemma to_hexMap_spec m : byte_keys m -> sorted m -> to_hexMap m = nib_entries m.
Proof.
  intros Hb Hs. unfold to_hexMap. induction Hs as [|[k v] m Hs IH Hm]; [done|]. apply Forall_cons_1 in Hb as [Hk Hb]. cbn [rev].
  rewrite foldl_app, IH by done. cbn [foldl fst snd]. rewrite asNibbles_nibs. apply map_set_front, Forall_map.
  unfold byte_keys in Hb. rewrite Forall_forall in *. intros e Hin. unfold before. cbn. rewrite ltb_nibs; [by apply (Hm e)|done|by apply Hb].
Qed.

(** ** The entries of a tree *)

Definition prefixed (p : list Z) (l : BytesMap) : BytesMap := map (fun e => (p ++ e.1, e.2)) l.

Fixpoint entries (t : trie) : BytesMap :=
  match t with
  | Null => []
  | Leaf k v => [(k, v)]
  | Ext k c => prefixed k (entries c)
  | Branch cs w => (if bool_decide (w = []) then [] else [([], w)]) ++ concat (zip_with (fun i es => prefixed [i] es) (seqZ 0 16) (map entries cs))
  end.

(** The entries of the children from the [i]th on. *)
Definition child_entries (i : Z) (cs : list trie) : BytesMap := concat (zip_with (fun i es => prefixed [i] es) (seqZ i (lenZ cs)) (map entries cs)).

Lemma entries_branch cs w : length cs = 16%nat -> entries (Branch cs w) = (if bool_decide (w = []) then [] else [([], w)]) ++ child_entries 0 cs.
Proof. intros Hl. cbn [entries]. unfold child_entries, lenZ. by rewrite Hl. Qed.

Lemma child_entries_cons i c cs : child_entries i (c :: cs) = prefixed [i] (entries c) ++ child_entries (i + 1) cs.
Proof.
  unfold child_entries. rewrite lenZ_cons. pose proof (lenZ_nonneg cs). rewrite (seqZ_cons i (1 + lenZ cs)) by lia. cbn [map zip_with concat].
  replace (Z.pred (1 + lenZ cs)) with (lenZ cs) by lia. by rewrite <- Z.add_1_r.
Qed.

Lemma elem_prefixed p l k v : (k, v) ∈ prefixed p l <-> exists k', k = p ++ k' /\ (k', v) ∈ l.
Proof.
  unfold prefixed. rewrite list_elem_of_fmap. split.
  - intros ([k' v'] & [= -> ->] & Hin). by exists k'.
  - intros (k' & -> & Hin). by exists (k', v).
Qed.

Lemma elem_child_entries i cs k v : (k, v) ∈ child_entries i cs <-> exists j k' c, k = (i + Z.of_nat j) :: k' /\ cs !! j = Some c /\ (k', v) ∈ entries c.
Proof.
  revert i. induction cs as [|c cs IH]; intros i.
  - unfold child_entries. cbn. split; [by intros ?%not_elem_of_nil|]. by intros (? & ? & ? & _ & ? & _).
  - rewrite child_entries_cons, elem_of_app, elem_prefixed, IH. split.
    + intros [(k' & -> & Hin)|(j & k' & c' & -> & Hl & Hin)]; [exists 0%nat, k', c; split; [cbn; f_equal; lia|done]|].
      exists (S j), k', c'. split; [f_equal; lia|done].
    + intros ([|j] & k' & c' & -> & Hl & Hin); [left; exists k'; injection Hl as ->; split; [cbn; f_equal; lia|done]|].
      right. exists j, k', c'. split; [f_equal; lia|done].
Qed.

Lemma prefixed_app p q l : prefixed p (prefixed q l) = prefixed (p ++ q) l.
Proof. unfold prefixed. rewrite map_map. apply map_ext. intros [k v]. cbn. by rewrite app_assoc. Qed.

Lemma prefixed_nil l : prefixed [] l = l.
Proof. unfold prefixed. rewrite <- (map_id l) at 2. by apply map_ext; intros []. Qed.

(** The entries are the keys with a value. *)
Lemma entries_spec d t k v : trie_ok d t -> canon t -> (k, v) ∈ entries t <-> nibble_list k /\ tget t k = v /\ v <> [].
Proof.
  revert d k v. induction t as [|k0 v0|k0 c IH|cs w IH] using trie_ind_all; intros d k v Hok Hc.
  - cbn. split; [by intros ?%not_elem_of_nil|]. by intros (_ & <- & ?).
  - destruct Hok as ([Hk _] & _). cbn [entries tget canon] in *. rewrite list_elem_of_singleton. split.
    + intros [= -> ->]. by rewrite decide_True.
    + destruct (decide (k0 = k)) as [->|]; intros (_ & <- & ?); done.
  - destruct Hok as ([Hk0 _] & _ & _ & Hco). destruct Hc as [_ Hc]. cbn [entries]. rewrite elem_prefixed. split.
    + intros (k' & -> & Hin). rewrite tget_Ext. apply (IH _ _ _ Hco Hc) in Hin as (? & ? & ?). split; [by apply Forall_app|done].
    + intros (Hk & Hg & Hv). destruct (tget_Ext_prefix k0 c k) as [k' ->]; [by rewrite Hg|]. rewrite tget_Ext in Hg. apply Forall_app in Hk as [_ Hk].
      exists k'. split; [done|]. by apply (IH _ _ _ Hco Hc).
  - apply trie_ok_branch in Hok as (Hl & _ & Hcs). apply canon_branch in Hc as [Hcc _]. rewrite entries_branch, elem_of_app, elem_child_entries by done.
    rewrite Forall_forall in IH, Hcs, Hcc.
    assert (forall c k v, c ∈ cs -> (k, v) ∈ entries c <-> nibble_list k /\ tget c k = v /\ v <> []) as Hch.
    { intros c k1 v1 Hin. assert (exists e, trie_ok e c) as [e He] by (destruct (Hcs _ Hin) as [->|[_ ?]]; [by exists 0%nat|eauto]). by apply (IH c Hin e); auto. }
    split.
    + intros [Hin|(j & k' & c & -> & Hj & Hin)].
      * case_bool_decide; [by apply not_elem_of_nil in Hin|]. apply list_elem_of_singleton in Hin as [= -> ->]. done.
      * apply Hch in Hin as (Hk & Hg & Hv); [|by eapply list_elem_of_lookup_2]. rewrite tget_child, (child_lookup _ _ c) by (by rewrite Z.add_0_l, Nat2Z.id).
        pose proof (lookup_lt_Some _ _ _ Hj). split; [constructor; [lia|done]|done].
    + intros (Hk & Hg & Hv). destruct k as [|n k]; [left; cbn in Hg; subst; rewrite bool_decide_eq_false_2 by done; by apply list_elem_of_singleton|right].
      apply Forall_cons_1 in Hk as [Hn Hk]. destruct (lookup_lt_is_Some_2 cs (Z.to_nat n)) as [c Hj]; [lia|].
      rewrite tget_child, (child_lookup _ _ c) in Hg by done. exists (Z.to_nat n), k, c. split; [f_equal; lia|]. split; [done|].
      apply Hch; [by eapply list_elem_of_lookup_2|done].
Qed.

Lemma prefixed_sorted p l : sorted l -> sorted (prefixed p l).
Proof.
  induction 1 as [|e l Hs IH He]; cbn; constructor; [done|]. apply Forall_map. eapply Forall_impl; [exact He|].
  intros e'. unfold before. cbn. by rewrite ltb_app.
Qed.

Lemma entries_sorted d t : trie_ok d t -> sorted (entries t).
Proof.
  revert d. induction t as [|k0 v0|k0 c IH|cs w IH] using trie_ind_all; intros d Hok; [constructor|repeat constructor|..].
  - destruct Hok as (_ & _ & _ & Hco). by eapply prefixed_sorted, IH.
  - apply trie_ok_branch in Hok as (Hl & _ & Hcs). rewrite entries_branch by done. apply sorted_app.
    + case_bool_decide; repeat constructor.
    + clear Hl. generalize 0. induction cs as [|c cs IHcs]; intros i; [constructor|]. rewrite child_entries_cons.
      apply Forall_cons_1 in IH as [IHc IH]. apply Forall_cons_1 in Hcs as [Hc Hcs]. apply sorted_app.
      * apply prefixed_sorted. destruct Hc as [->|[_ Hc]]; [constructor|by eapply IHc].
      * by apply IHcs.
      * intros [k1 v1] [k2 v2] (k1' & -> & _)%elem_prefixed (j & k2' & c' & -> & _)%elem_child_entries. unfold before. cbn.
        destruct (Z.ltb_spec i (i + 1 + Z.of_nat j)); [done|lia].
    + intros [k1 v1] [k2 v2] H1 (j & k2' & c' & -> & _)%elem_child_entries. case_bool_decide; [by apply not_elem_of_nil in H1|].
      by apply list_elem_of_singleton in H1 as [= -> ->].
Qed.

(** * Writing a trie from its entries

    Each function of TrieHash.cpp on the entries of a tree, below the nibbles
    [p] that lead to it, writes what stands for the tree. *)

(** ** The nibbles that are shared *)

Lemma shared_loop_spec fuel A B x i : 0 <= i -> x <= lenZ A -> x <= lenZ B -> x < 2 ^ 32 -> (Z.to_nat (x - i) < fuel)%nat ->
  shared_loop fuel A B x i = Value (Z.min (i + Z.of_nat (lcp (drop (Z.to_nat i) A) (drop (Z.to_nat i) B))) (Z.max x i)).
Proof.
  revert i. induction fuel as [|fuel IH]; intros i Hi HA HB Hx Hf; [lia|]. cbn [shared_loop]. destruct (Z.ltb_spec i x); [|f_equal; lia].
  destruct (getZ_lookup A i ltac:(lia)) as [a Ha], (getZ_lookup B i ltac:(lia)) as [b Hb]. rewrite Ha, Hb. cbn [rget rbind].
  unfold getZ in Ha, Hb. destruct (Z.ltb_spec i 0); [lia|]. rewrite (drop_S _ _ _ Ha), (drop_S _ _ _ Hb). cbn [lcp].
  destruct (a =? b); [|f_equal; lia]. rewrite u32_small by lia. rewrite IH by lia. replace (Z.to_nat (i + 1)) with (S (Z.to_nat i)) by lia. f_equal. lia.
Qed.

Lemma sharedPre_loop_spec p k r sp n : lenZ (p ++ k) < 2 ^ 32 -> Forall (fun e => lenZ (p ++ e.1) < 2 ^ 32) r -> sp < 2 ^ 32 ->
  Forall (fun e => n <= lcp k e.1)%nat r -> Exists (fun e => lcp k e.1 = n) r \/ sp = lenZ p + Z.of_nat n -> lenZ p + Z.of_nat n <= sp ->
  sharedPre_loop (p ++ k) (prefixed p r) (lenZ p) sp = Value (lenZ p + Z.of_nat n).
Proof.
  intros Hk Hr Hsp Hall. revert sp Hsp. induction r as [|[k' v] r IH]; intros sp Hsp Hex Hle; cbn [prefixed map sharedPre_loop fst snd].
  { destruct Hex as [Hex| ->]; [by inversion Hex|done]. }
  pose proof (lenZ_nonneg p). destruct (Z.eqb_spec sp 0); [f_equal; lia|]. apply Forall_cons_1 in Hr as [Hk' Hr]; apply Forall_cons_1 in Hall as [Hn Hall]. cbn [fst] in *.
  pose proof (lenZ_nonneg k). pose proof (lenZ_nonneg k'). pose proof (lcp_le k k'). pose proof (lenZ_app p k). pose proof (lenZ_app p k').
  rewrite (u32_small (lenZ (p ++ k))), (u32_small (lenZ (p ++ k'))) by lia. rewrite shared_loop_spec by lia. cbn [rbind].
  assert (Z.to_nat (lenZ p) = length p) as -> by (unfold lenZ; lia). rewrite !drop_app_length.
  unfold prefixed in IH. rewrite IH; try done; try lia.
  - destruct Hex as [Hex| ->]; [apply Exists_cons in Hex as [Heq|Hex]; [cbn in Heq; right|by left]|right]; unfold lenZ in *; lia.
  - unfold lenZ in *. lia.
Qed.

(** ** The ranges of a branch *)

Lemma getZ_middle (p : list Z) x q : (p ++ x :: q) @@ lenZ p = Some x.
Proof.
  unfold getZ. pose proof (lenZ_nonneg p). destruct (Z.ltb_spec (lenZ p) 0); [lia|]. unfold lenZ. rewrite Nat2Z.id. by apply list_lookup_middle.
Qed.

Lemma slot_spec p i es rest : Forall (fun e => exists j q, e.1 = p ++ j :: q /\ j <> i) rest ->
  slot i (lenZ p) (prefixed (p ++ [i]) es ++ rest) = Value (prefixed (p ++ [i]) es, rest).
Proof.
  intros Hrest. induction es as [|[k v] es IH]; cbn [prefixed map app fst snd slot].
  - destruct Hrest as [|[k v] rest (j & q & Hk & Hj) _]; [done|]. cbn [slot fst] in *. rewrite Hk, getZ_middle. cbn [rget rbind].
    by destruct (Z.eqb_spec j i).
  - cbn [slot]. rewrite <- app_assoc. cbn [app]. rewrite getZ_middle. cbn [rget rbind]. rewrite Z.eqb_refl. unfold prefixed in IH. rewrite IH. done.
Qed.

Lemma child_entries_differ p i j cs : j < i -> Forall (fun e => exists n q, e.1 = p ++ n :: q /\ n <> j) (prefixed p (child_entries i cs)).
Proof.
  intros Hj. apply Forall_map, Forall_forall. intros [k v] (n & q & c & -> & _)%elem_child_entries. cbn. eexists _, _. split; [done|lia].
Qed.

Section Nodes.
  Context `{Sha3} `{!Sha3Range}.

Lemma slots_spec aux p i cs s :
  (forall j c s, cs !! j = Some c -> c <> Null ->
    entries c <> [] /\ aux (prefixed (p ++ [i + Z.of_nat j]) (entries c)) s = append_item (ref c) s) ->
  slots aux (length cs) i (lenZ p) (prefixed p (child_entries i cs)) s = append_items (map ref cs) s.
Proof.
  revert i s. induction cs as [|c cs IH]; intros i s Haux; [done|]. cbn [slots length map append_items].
  rewrite child_entries_cons. unfold prefixed at 1. rewrite map_app. change (map _ (prefixed [i] (entries c))) with (prefixed p (prefixed [i] (entries c))).
  change (map _ (child_entries (i + 1) cs)) with (prefixed p (child_entries (i + 1) cs)). rewrite prefixed_app.
  rewrite slot_spec by (apply child_entries_differ; lia). cbn [rbind fst snd].
  assert (Hone : match prefixed (p ++ [i]) (entries c) with [] => append_string [] s | e :: l => aux (e :: l) s end = append_item (ref c) s).
  { destruct (decide (c = Null)) as [->|Hn]; [done|]. destruct (Haux 0%nat c s eq_refl Hn) as [Hne Ha]. rewrite Z.add_0_r in Ha.
    by destruct (entries c) as [|e l]. }
  rewrite Hone. destruct (append_item (ref c) s) as [s'| | |]; cbn [rbind]; [|done..]. apply IH. intros j c' s2 Hc Hn.
  replace (i + 1 + Z.of_nat j) with (i + Z.of_nat (S j)) by lia. by apply Haux.
Qed.

(** A node below 32 bytes is written as it is, a longer one by its hash. *)
Lemma aux_spec rec l preLen it s : item_ok it -> lenZ (encode it) < 2 ^ 63 -> (forall s, rec l preLen s = append_item it s) ->
  hash256aux rec l preLen s = append_item (ref_item it) s.
Proof.
  intros Hok Hl Hrec. unfold hash256aux. rewrite Hrec. pose proof (append_item_empty it Hok Hl) as He. unfold rlp_of in He.
  destruct (append_item it empty_stream) as [r| | |]; cbn [rbind] in *; [|done..]. rewrite He. cbn [rbind]. unfold ref_item.
  destruct (lenZ (encode it) <? 32); [|done]. rewrite append_item_spec by (done || lia). done.
Qed.

Lemma entries_key_ok d t k v : trie_ok d t -> (k, v) ∈ entries t -> key_ok d k.
Proof.
  revert d k. induction t as [|k0 v0|k0 c IH|cs w IH] using trie_ind_all; intros d k Hok Hin.
  - by apply not_elem_of_nil in Hin.
  - apply list_elem_of_singleton in Hin as [= -> ->]. by destruct Hok.
  - destruct Hok as ([Hk0 Hl0] & _ & _ & Hco). apply elem_prefixed in Hin as (k' & -> & Hin). destruct (IH _ _ Hco Hin) as [Hk' Hl'].
    split; [by apply Forall_app|rewrite length_app; lia].
  - apply trie_ok_branch in Hok as (Hl & _ & Hcs). rewrite entries_branch, elem_of_app, elem_child_entries in Hin by done.
    destruct Hin as [Hin|(j & k' & c & -> & Hj & Hin)].
    + case_bool_decide; [by apply not_elem_of_nil in Hin|]. apply list_elem_of_singleton in Hin as [= -> ->]. split; [constructor|cbn; lia].
    + pose proof (lookup_lt_Some _ _ _ Hj). rewrite Forall_forall in IH, Hcs. apply list_elem_of_lookup_2 in Hj. destruct (Hcs c Hj) as [->|[Hd Hco]].
      { by apply not_elem_of_nil in Hin. }
      destruct (IH c Hj _ _ Hco Hin) as [Hk' Hl']. split; [constructor; [lia|done]|cbn; lia].
Qed.

Lemma entries_nonempty d t : trie_ok d t -> canon t -> t <> Null -> entries t <> [].
Proof.
  intros Hok Hc Hn E. destruct (canon_some d t Hok Hc Hn) as (k & Hk & Hg). apply (not_elem_of_nil (A := list Z * list Z) (k, tget t k)).
  rewrite <- E. by apply (entries_spec d).
Qed.

(** The entries of a branch are at least two, and two of them share nothing. *)
Lemma branch_entries d t : is_branch t -> trie_ok d t -> canon t ->
  exists k v e r, entries t = (k, v) :: e :: r /\ Exists (fun e => lcp k e.1 = 0%nat) (e :: r).
Proof.
  intros Hb Hok Hc. destruct (branch_two d t Hb Hok Hc) as (k1 & k2 & H1 & H2 & G1 & G2 & Hne & Hz).
  assert ((k1, tget t k1) ∈ entries t) as I1 by (by apply (entries_spec d)). assert ((k2, tget t k2) ∈ entries t) as I2 by (by apply (entries_spec d)).
  destruct (entries t) as [|[k v] r]; [by apply not_elem_of_nil in I1|]. exists k, v.
  assert (Exists (fun e => lcp k e.1 = 0%nat) r) as Hex.
  { apply Exists_exists. apply elem_of_cons in I1 as [[= <- _]|I1]; [apply elem_of_cons in I2 as [[= <- _]|I2]; [done|by eexists]|].
    apply elem_of_cons in I2 as [[= <- _]|I2].
    - eexists. split; [exact I1|]. cbn. pose proof (lcp_zero _ _ Hz). destruct k1 as [|a k1], k2 as [|b k2]; try done. cbn [lcp]. by destruct (Z.eqb_spec b a).
    - pose proof (lcp_zero _ _ Hz) as Hd. destruct k as [|a k]; [by eexists|]. destruct k1 as [|b k1]; [eexists; split; [exact I1|done]|].
      destruct (Z.eq_dec a b) as [->|Hab]; [|eexists; split; [exact I1|]; cbn [fst lcp]; by destruct (Z.eqb_spec a b)].
      eexists. split; [exact I2|]. destruct k2 as [|c k2]; [done|]. cbn [fst lcp]. by destruct (Z.eqb_spec b c). }
  destruct r as [|e r]; [by inversion Hex|]. by exists e, r.
Qed.
End Nodes.
