(* ===== verification/TrieHashTheorems.v ===== *)
(** * The root at once is the root of the trie

    [hash256] returns for a map the root [GenericTrieDB] ends with when the map
    is built by insertions and removals, and [orderedTrieRoot] the one it ends
    with when a list is inserted under its indices. *)
From stdpp Require Import base list gmap sorting.
From Stdlib Require Import ZArith Lia.
From S2P Require Import Prelude Words Result Account Rlp RlpSpec RlpRead RlpTheorems RlpInt StateMonad.
From S2P Require Import TrieCommon TrieKeys NodeDB MemoryDB TrieDB TrieItems TrieSpec TrieNodes TrieTree TrieMap MemoryDBLaws TestDB TrieTheorems.
From S2P Require Import Transaction TrieHash TrieHashSpec.
Open Scope result_scope.

Section Write.
  Context `{Sha3} `{!Sha3Range}.

Definition below (fuel : nat) (l : BytesMap) : Prop := Forall (fun e => (length e.1 < fuel)%nat) l.

Lemma below_fuel fuel l : l <> [] -> below fuel l -> exists f, fuel = S f.
Proof. intros Hl Hb. destruct l as [|e l]; [done|]. apply Forall_cons_1 in Hb as [Hb _]. destruct fuel as [|f]; [lia|by exists f]. Qed.

Lemma below_prefixed fuel k l : k <> [] -> below (S fuel) (prefixed k l) -> below fuel l.
Proof.
  intros Hk Hb. apply Forall_map in Hb. eapply Forall_impl; [exact Hb|]. intros e. cbn. rewrite length_app. destruct k; [done|]. cbn. lia.
Qed.

Lemma entries_lengths d t p : trie_ok d t -> lenZ p + Z.of_nat d <= 2 ^ 28 -> Forall (fun e => lenZ (p ++ e.1) <= 2 ^ 28) (entries t).
Proof.
  intros Hok Hd. apply Forall_forall. intros [k v] Hin. destruct (entries_key_ok d t k v Hok Hin) as [_ Hl]. cbn. rewrite lenZ_app. unfold lenZ in *. lia.
Qed.

Lemma writes_pair d leaf k b : key_ok d k -> (d <= max_depth)%nat -> forall s,
  (s <- appendList 2 s ;; s <- append_string (hp leaf k) s ;; append_item b s) = append_item (Lst [Str (hp leaf k); b]) s.
Proof.
  intros Hk Hd s. rewrite append_item_Lst. change (lenZ _) with 2. destruct (appendList 2 s) as [s1| | |]; [|done..]. cbn [rbind append_items append_item].
  unfold append_string. destruct (append_bytes false (hp leaf k) s1) as [s2| | |]; [|done..]. cbn [rbind]. by destruct (append_item b s2).
Qed.

Lemma hp_range p k k' leaf e : nibble_list (p ++ k ++ k') -> lenZ (p ++ k ++ k') <= 2 ^ 28 ->
  (if e <? 0 then lenZ (p ++ k ++ k') + 1 + e else e) = lenZ p + lenZ k ->
  hexPrefixEncode_vector (p ++ k ++ k') leaf (lenZ p) e = Value (hp leaf k).
Proof.
  intros Hn Hl He. pose proof (lenZ_nonneg p). pose proof (lenZ_nonneg k). pose proof (lenZ_nonneg k').
  rewrite (hexPrefixEncode_vector_range _ _ _ _ (lenZ p + lenZ k)); [|done|lia|done|lia|rewrite !lenZ_app; lia].
  unfold lenZ. rewrite Nat2Z.id, drop_app_length. replace (Z.to_nat (Z.of_nat (length p) + Z.of_nat (length k) - Z.of_nat (length p))) with (length k) by lia.
  by rewrite take_app_length.
Qed.

(** The tree [t] is written from its entries. *)
Definition writes (fuel : nat) (p : list Z) (t : trie) : Prop :=
  forall s, hash256rlp fuel (prefixed p (entries t)) (lenZ p) s = append_item (item_of t) s.

Lemma writes_aux d fuel p q t : writes fuel q t -> prefixed p (entries t) = prefixed q (entries t) -> trie_ok d t -> (d <= max_depth)%nat -> forall s,
  hash256aux (hash256rlp fuel) (prefixed p (entries t)) (lenZ q) s = append_item (ref t) s.
Proof.
  intros Hw -> Hok Hd s. destruct (item_of_ok d t Hd Hok) as (Hio & _). pose proof (enc_length d t Hd Hok). unfold enc in *.
  apply aux_spec; [done|lia|exact Hw].
Qed.

Lemma writes_leaf d fuel p k v : key_ok d k -> nibble_list p -> lenZ p + Z.of_nat d <= 2 ^ 28 -> writes (S fuel) p (Leaf k v).
Proof.
  intros [Hk Hl] Hp Hd s. pose proof (lenZ_nonneg p). cbn [entries prefixed map fst snd hash256rlp]. rewrite <- (app_nil_r k), (hp_range p k []).
  - rewrite app_nil_r. cbn [rbind]. by apply (writes_pair d true k (Str v)); [split|lia].
  - rewrite app_nil_r. by apply Forall_app.
  - rewrite app_nil_r, lenZ_app. unfold lenZ in *. lia.
  - rewrite app_nil_r, lenZ_app. cbn. lia.
Qed.

Lemma exists_prefixed (k k1 : list Z) (r : BytesMap) : List.Exists (fun e : list Z * list Z => lcp k1 e.1 = 0%nat) r -> List.Exists (fun e : list Z * list Z => lcp (k ++ k1) e.1 = length k) (prefixed k r).
Proof.
  intros (e & Hin & Hz)%Exists_exists. apply Exists_exists. exists (k ++ e.1, e.2). split; [apply list_elem_of_fmap; by exists e|].
  cbn [fst]. rewrite lcp_app. lia.
Qed.

Lemma writes_ext d fuel p k c : trie_ok d (Ext k c) -> canon (Ext k c) -> nibble_list p -> lenZ p + Z.of_nat d <= 2 ^ 28 ->
  writes fuel (p ++ k) c -> writes (S fuel) p (Ext k c).
Proof.
  intros Hok [Hb Hc] Hp Hd Hw s. pose proof Hok as ([Hk Hkl] & Hkne & _ & Hco).
  destruct (branch_entries _ c Hb Hco Hc) as (k1 & v1 & e & r & He & Hex).
  assert (Hhead : key_ok (d - length k) k1) by (apply (entries_key_ok _ c _ v1 Hco); rewrite He; by left).
  pose proof (entries_lengths d (Ext k c) p Hok Hd) as Hlen. cbn [entries] in *. rewrite He in Hlen. apply Forall_cons_1 in Hlen as [Hl1 Hlr]. cbn [fst snd] in Hl1.
  assert (Hsh : sharedPre_loop (p ++ k ++ k1) (prefixed p (prefixed k (e :: r))) (lenZ p) (2 ^ 32 - 1) = Value (lenZ p + lenZ k)).
  { change (lenZ k) with (Z.of_nat (length k)). apply sharedPre_loop_spec; [lia| |lia| |left; by apply exists_prefixed|].
    - eapply Forall_impl; [exact Hlr|]. cbn. intros. lia.
    - apply Forall_map, Forall_forall. intros e' _. cbn. rewrite lcp_app. lia.
    - rewrite !lenZ_app in Hl1. pose proof (lenZ_nonneg k1). unfold lenZ in *. lia. }
  assert (Hkpos : 0 < lenZ k) by (destruct k; [done|rewrite lenZ_cons; pose proof (lenZ_nonneg k); lia]).
  rewrite !lenZ_app in Hl1. pose proof (lenZ_nonneg k1). pose proof (lenZ_nonneg p).
  assert (Hn : nibble_list (p ++ k ++ k1)) by (destruct Hhead; rewrite !Forall_app; done).
  rewrite He. cbn [hash256rlp prefixed map fst snd] in *. rewrite Hsh. cbn [rbind]. destruct (Z.ltb_spec (lenZ p) (lenZ p + lenZ k)); [|lia].
  assert (Hi : i32 (lenZ p + lenZ k) = lenZ p + lenZ k) by (unfold i32; rewrite Z.mod_small; lia). rewrite Hi.
  rewrite hp_range; [|done|rewrite !lenZ_app; lia|destruct (Z.ltb_spec (lenZ p + lenZ k) 0); [lia|done]]. cbn [rbind].
  cbn [item_of]. rewrite <- (writes_pair d false k (ref_item (item_of c))) by (done || lia || (split; done)).
  destruct (appendList 2 s) as [s1| | |]; cbn [rbind]; [|done..]. destruct (append_string (hp false k) s1) as [s2| | |]; cbn [rbind]; [|done..].
  fold (ref c). rewrite <- lenZ_app.
  pose proof (writes_aux (d - length k) fuel (p ++ k) (p ++ k) c Hw eq_refl Hco ltac:(lia) s2) as Ha. rewrite He in Ha.
  unfold prefixed in Ha. cbn [map fst snd] in Ha. rewrite <- Ha. unfold prefixed. rewrite map_map. cbn [fst snd].
  assert (Hm : map (fun x : list Z * list Z => (p ++ k ++ x.1, x.2)) r = map (fun e0 => ((p ++ k) ++ e0.1, e0.2)) r) by (apply map_ext; intros; by rewrite app_assoc).
  by rewrite Hm, !app_assoc.
Qed.

Lemma writes_branch d fuel p cs w : trie_ok d (Branch cs w) -> canon (Branch cs w) -> lenZ p + Z.of_nat d <= 2 ^ 28 ->
  (forall j c, cs !! j = Some c -> c <> Null -> writes fuel (p ++ [Z.of_nat j]) c) -> writes (S fuel) p (Branch cs w).
Proof.
  intros Hok Hcan Hd Hw s. pose proof Hok as Hok'. apply trie_ok_branch in Hok' as (Hl & _ & Hcs). pose proof Hcan as Hcan'. apply canon_branch in Hcan' as [Hcc _].
  destruct (branch_entries d (Branch cs w) I Hok Hcan) as (k1 & v1 & e & r & He & Hex).
  pose proof (entries_lengths d (Branch cs w) p Hok Hd) as Hlen. rewrite He in Hlen. apply Forall_cons_1 in Hlen as [Hl1 Hlr]. cbn [fst snd] in Hl1.
  pose proof (lenZ_nonneg p). pose proof (lenZ_nonneg k1).
  assert (Hsh : sharedPre_loop (p ++ k1) (prefixed p (e :: r)) (lenZ p) (2 ^ 32 - 1) = Value (lenZ p)).
  { rewrite <- (Z.add_0_r (lenZ p)) at 2. apply (sharedPre_loop_spec p k1 (e :: r) _ 0); [lia| |lia| |by left|lia].
    - eapply Forall_impl; [exact Hlr|]. cbn. intros. lia.
    - apply Forall_forall. intros e' _. lia. }
  assert (Hfold : forall b, slots (fun n => hash256aux (hash256rlp fuel) n (u32 (lenZ p + 1))) 16 0 (lenZ p) (prefixed p (child_entries 0 cs)) b = append_items (map ref cs) b).
  { intros b. rewrite <- Hl. apply slots_spec. intros j c s' Hj Hn. pose proof (list_elem_of_lookup_2 _ _ _ Hj) as Hin. rewrite Forall_forall in Hcs, Hcc.
    destruct (Hcs c Hin) as [|[Hpos Hco]]; [done|]. split; [by eapply entries_nonempty; eauto|]. rewrite u32_small by lia.
    replace (lenZ p + 1) with (lenZ (p ++ [0 + Z.of_nat j])) by (rewrite lenZ_app; done). apply (writes_aux (d - 1)); [by apply Hw|done|done|lia]. }
  assert (Hb : (if lenZ p =? lenZ (p ++ k1) then prefixed p (e :: r) else prefixed p ((k1, v1) :: e :: r)) = prefixed p (child_entries 0 cs) /\
    (if lenZ p =? lenZ (p ++ k1) then v1 else []) = w).
  { rewrite entries_branch in He by done. rewrite lenZ_app. case_bool_decide as Hwn.
    - cbn [app] in He. assert ((k1, v1) ∈ child_entries 0 cs) as Hin by (rewrite He; by left). apply elem_child_entries in Hin as (j & k' & c & -> & _).
      rewrite lenZ_cons. pose proof (lenZ_nonneg k'). destruct (Z.eqb_spec (lenZ p) (lenZ p + (1 + lenZ k'))); [lia|]. by rewrite He.
    - injection He as <- <- He. rewrite He. change (lenZ []) with 0. rewrite Z.add_0_r, Z.eqb_refl. done. }
  destruct Hb as [Hb Hv]. rewrite He. cbn [hash256rlp prefixed map fst snd] in *. rewrite Hsh. cbn [rbind]. rewrite Z.ltb_irrefl.
  cbn [item_of]. rewrite append_item_Lst. assert (Hc : lenZ (map (fun c => ref_item (item_of c)) cs ++ [Str w]) = 17) by (rewrite lenZ_app; unfold lenZ; by rewrite length_map, Hl).
  rewrite Hc. destruct (appendList 17 s) as [s1| | |]; cbn [rbind]; [|done..]. cbv zeta. rewrite Hb, Hv, Hfold, append_items_app.
  change (map (fun c => ref_item (item_of c)) cs) with (map ref cs). destruct (append_items (map ref cs) s1) as [s2| | |]; cbn [rbind]; [|done..].
  cbn [append_items append_item]. unfold append_string. by destruct (append_bytes false w s2).
Qed.

(** A tree that is not empty is written from its entries. *)
Lemma writes_all d fuel p t : t <> Null -> trie_ok d t -> canon t -> nibble_list p -> lenZ p + Z.of_nat d <= 2 ^ 28 -> below fuel (entries t) -> writes fuel p t.
Proof.
  revert d fuel p. induction t as [|k v|k c IH|cs w IH] using trie_ind_all; intros d fuel p Hn Hok Hc Hp Hd Hb; [done|..];
    pose proof (entries_nonempty d _ Hok Hc Hn) as Hne;
    destruct (below_fuel _ _ Hne Hb) as [f ->]; rename f into fuel.
  - destruct Hok as [Hk _]. by apply (writes_leaf d).
  - pose proof Hok as ([Hk Hkl] & Hkne & Hcn & Hco). pose proof Hc as [_ Hcc]. apply (writes_ext d); try done.
    apply (IH (d - length k)%nat); [done|done|done|by apply Forall_app|rewrite lenZ_app; unfold lenZ in *; lia|]. by eapply below_prefixed.
  - pose proof (proj1 (trie_ok_branch _ _ _) Hok) as (Hl & _ & Hcs). pose proof (proj1 (canon_branch _ _) Hc) as [Hcc _]. apply (writes_branch d); try done.
    intros j c Hj Hcn. pose proof (list_elem_of_lookup_2 _ _ _ Hj) as Hin. pose proof (lookup_lt_Some _ _ _ Hj). rewrite Forall_forall in IH, Hcs, Hcc.
    destruct (Hcs c Hin) as [|[Hpos Hco]]; [done|]. apply (IH c Hin (d - 1)%nat); [done|done|by apply Hcc| | |].
    + apply Forall_app. split; [done|]. apply Forall_singleton. lia.
    + rewrite lenZ_app. change (lenZ [Z.of_nat j]) with 1. lia.
    + apply Forall_forall. intros [k v] Hin'. unfold below in Hb. rewrite Forall_forall in Hb.
      assert ((Z.of_nat j :: k, v) ∈ entries (Branch cs w)) as Hin2.
      { rewrite entries_branch by done. apply elem_of_app. right. apply elem_child_entries. by exists j, k, c. }
      specialize (Hb _ Hin2). cbn [fst length] in *. lia.
Qed.
End Write.

(** ** Roots *)

Section Roots.
  Context `{Sha3} `{!Sha3Range}.

Lemma entries_map t l : trie_ok max_depth t -> canon t -> sorted l -> map_ok (list_to_map l) -> maps t (list_to_map l) -> byte_keys l -> entries t = nib_entries l.
Proof.
  intros Hok Hc Hs Hm [Hg Hsome] Hb. pose proof (entries_sorted _ t Hok) as Hes. pose proof (nib_entries_sorted l Hb Hs) as Hns.
  pose proof (entries_NoDup l Hs) as Hnd. apply sorted_antisym; [done|done|].
  apply NoDup_Permutation; [by eapply NoDup_fmap_1, entries_NoDup|by eapply NoDup_fmap_1, entries_NoDup|].
  intros [k v]. rewrite (entries_spec max_depth t k v Hok Hc). unfold nib_entries. rewrite list_elem_of_fmap. split.
  - intros (Hk & <- & Hv). destruct (Hsome k Hk Hv) as (key & -> & Hkb & [v Hl]). exists (key, v). rewrite Hg, Hl by done. split; [done|].
    by apply elem_of_list_to_map_2.
  - intros ([key v'] & [= -> ->] & Hin). apply (elem_of_list_to_map_1 (M := gmap (list Z))) in Hin; [|done]. destruct (Hm _ _ Hin) as [Hkb Hv].
    split; [by apply nibs_nibbles|]. by rewrite Hg, Hin by done.
Qed.

Lemma list_max_below (l : BytesMap) : below (hash_fuel l) l.
Proof.
  unfold hash_fuel, below. induction l as [|e l IH]; constructor; cbn [map list_max foldr].
  - unfold list_max. cbn. lia.
  - eapply Forall_impl; [exact IH|]. intros e'. cbn. unfold list_max. lia.
Qed.

Lemma map_ok_keys (l : BytesMap) : sorted l -> map_ok (list_to_map l) -> byte_keys l.
Proof.
  intros Hs Hm. apply Forall_forall. intros [k v] Hin. apply (Hm k v). by apply elem_of_list_to_map_1; [apply entries_NoDup|].
Qed.

Lemma hash256_tree t l : trie_ok max_depth t -> canon t -> sorted l -> map_ok (list_to_map l) -> maps t (list_to_map l) -> hash256 l = Value (sha3 (enc t)).
Proof.
  intros Hok Hc Hs Hm Hmap. pose proof (map_ok_keys l Hs Hm) as Hb. pose proof (entries_map t l Hok Hc Hs Hm Hmap Hb) as He.
  unfold hash256, rlp256. destruct (decide (t = Null)) as [->|Hn].
  { destruct l as [|e l]; [done|]. done. }
  pose proof (entries_nonempty _ t Hok Hc Hn) as Hne. destruct l as [|e l]; [by rewrite He in Hne|].
  rewrite to_hexMap_spec, <- He by done. destruct (item_of_ok _ t ltac:(done) Hok) as (Hio & _). pose proof (enc_length _ t ltac:(done) Hok).
  assert (Hw : writes (hash_fuel (entries t)) [] t).
  { apply (writes_all max_depth); [done|done|done|constructor| |apply list_max_below]. change (lenZ []) with 0. rewrite Z2Nat.id by done. lia. }
  specialize (Hw empty_stream). rewrite prefixed_nil in Hw. change (lenZ []) with 0 in Hw. rewrite Hw.
  pose proof (append_item_empty (item_of t) Hio ltac:(unfold enc in *; lia)) as Ha. unfold rlp_of in Ha. rewrite Ha. done.
Qed.

(** The root of a trie that holds the map is what [hash256] returns for it. *)
Lemma hash256_holds {DB : Type} `{!NodeDB DB} `{!NodeDBLaws DB} (db : DB) r l : sorted l -> holds db r (list_to_map l) -> hash256 l = Value r.
Proof. intros Hs [Hm (t & [-> _ _ Hok Hc] & Hmap)]. by apply hash256_tree. Qed.

(** ** Lists *)

Definition index_key (j : Z) : list Z := encode_str (int_bytes j).

Lemma rlp_unsigned_spec j : 0 <= j < 2 ^ 32 -> rlp_unsigned j = Value (index_key j).
Proof.
  intros Hj. unfold rlp_unsigned, rlp_of, append_C_int. rewrite u32_small by done. rewrite append_int_item by lia.
  pose proof (u256_bytes j ltac:(lia)). destruct (int_bytes_facts j ltac:(lia)) as (Hb & Hl & _).
  apply (append_item_empty (Str (int_bytes j))); [by constructor|]. apply (encode_str_frame _ Hb). lia.
Qed.

Lemma encode_str_bytes bs : byte_list bs -> lenZ bs < 2 ^ 62 -> byte_list (encode_str bs).
Proof.
  intros Hb Hl. pose proof (lenZ_nonneg bs). assert (Hh : byte_list (header 0x80 (lenZ bs))).
  { unfold header. destruct (Z.ltb_spec (lenZ bs) 56); [apply Forall_singleton; lia|]. pose proof (byte_size_le (lenZ bs) 8 ltac:(lia) ltac:(lia)).
    constructor; [lia|apply toBigEndian_bytes]. }
  destruct bs as [|b [|c bs]]; [done| |]; cbn [encode_str]; [destruct (b <? 0x80); [done|]|]; by apply Forall_app.
Qed.

Lemma index_key_bytes j : 0 <= j < 2 ^ 32 -> key_bytes (index_key j).
Proof.
  intros Hj. pose proof (u256_bytes j ltac:(lia)). destruct (int_bytes_facts j ltac:(lia)) as (Hb & Hl & _). split.
  - apply encode_str_bytes; [done|lia].
  - unfold index_key. pose proof (encode_str_length (int_bytes j) ltac:(lia)). lia.
Qed.

(** The insertions of a list under its indices. *)
Fixpoint list_ops (j : Z) (data : list (list Z)) : list trie_op :=
  match data with [] => [] | v :: data => OpInsert (index_key j) v :: list_ops (j + 1) data end.

Definition data_ok (data : list (list Z)) : Prop := Forall (fun v => val_ok v /\ v <> []) data.

Lemma list_ops_ok m j data : 0 <= j -> j + lenZ data <= 2 ^ 32 -> data_ok data -> ops_ok m (list_ops j data).
Proof.
  intros Hj Hl Hd. revert m j Hj Hl. induction Hd as [|v data [Hv Hne] _ IH]; intros m j Hj Hl; [done|]. cbn [list_ops ops_ok].
  rewrite lenZ_cons in Hl. pose proof (lenZ_nonneg data). split; [apply index_key_bytes; lia|]. split; [done|]. split; [done|]. apply IH; lia.
Qed.

Lemma ordered_loop_spec data j m : 0 <= j -> j + lenZ data <= 2 ^ 32 -> sorted m ->
  exists m', ordered_loop data j m = Value m' /\ sorted m' /\ (list_to_map m' : bytes_map) = foldl map_op (list_to_map m) (list_ops j data).
Proof.
  revert j m. induction data as [|v data IH]; intros j m Hj Hl Hs; cbn [ordered_loop list_ops foldl]; [by exists m|].
  rewrite lenZ_cons in Hl. pose proof (lenZ_nonneg data). rewrite rlp_unsigned_spec by lia. cbn [rbind map_op]. rewrite <- map_set_map.
  destruct data as [|v2 data]; [eexists; split; [done|]; split; [by apply map_set_sorted|done]|]. rewrite lenZ_cons in *. pose proof (lenZ_nonneg data).
  rewrite u32_small by lia. apply IH; [lia|lia|]. by apply map_set_sorted.
Qed.
End Roots.

Section Theorems.
  Context {DB : Type} `{!NodeDB DB} `{!NodeDBLaws DB} `{Sha3} `{!Sha3Range}.

Lemma history_holds (db : DB) ops : fine db -> ops_ok ∅ ops -> clean (pbind init (fun r => apply r ops)) db ->
  exists r db', run (pbind init (fun r => apply r ops)) db = (Value r, db') /\ holds db' r (foldl map_op ∅ ops).
Proof.
  intros Hf Hok Hc. assert (He : ends (pbind init (fun r => apply r ops)) db (fun r' db' => holds db' r' (foldl map_op ∅ ops))).
  { eapply ends_bind; [apply ends_init|]. intros r db' _ [_ Hh]. by apply ends_apply. }
  destruct (He Hf Hc) as (r & db' & Hr & _ & Hh). by exists r, db'.
Qed.

(** C11. The root that [hash256] computes at once from an ordered map is the
    root of the trie that was made by any history of insertions and removals
    that ends in this map, in any order and over any database. *)
Theorem hash256_is_trie_root (db : DB) ops l : fine db -> ops_ok ∅ ops -> clean (pbind init (fun r => apply r ops)) db ->
  sorted l -> foldl map_op ∅ ops = list_to_map l ->
  exists r db', run (pbind init (fun r => apply r ops)) db = (Value r, db') /\ hash256 l = Value r.
Proof.
  intros Hf Hok Hc Hs Hl. destruct (history_holds db ops Hf Hok Hc) as (r & db' & Hr & Hh). exists r, db'. split; [done|].
  rewrite Hl in Hh. by apply (hash256_holds db').
Qed.

(** The root that [orderedTrieRoot] computes of a list is the root of the
    trie into which the elements were inserted under the RLP of their indices. *)
Theorem ordered_root_is_trie_root (db : DB) data : fine db -> data_ok data -> lenZ data <= 2 ^ 32 ->
  clean (pbind init (fun r => apply r (list_ops 0 data))) db ->
  exists r db', run (pbind init (fun r => apply r (list_ops 0 data))) db = (Value r, db') /\ orderedTrieRoot data = Value r.
Proof.
  intros Hf Hd Hl Hc. destruct (history_holds db _ Hf (list_ops_ok ∅ 0 data ltac:(lia) ltac:(lia) Hd) Hc) as (r & db' & Hr & Hh).
  exists r, db'. split; [done|]. destruct (ordered_loop_spec data 0 [] ltac:(lia) ltac:(lia) ltac:(constructor)) as (m & Hm & Hs & Hlm).
  unfold orderedTrieRoot. rewrite Hm. cbn [rbind]. apply (hash256_holds db'); [done|]. rewrite Hlm. exact Hh.
Qed.
End Theorems.

(** ** Witnesses *)

Definition example_entries : BytesMap := [([1], [6; 7]); ([1; 2], [5]); ([1; 2; 3], replicate 40 1); ([1; 0x23], [9]); ([0x31; 0x23], [9])].
Definition entry_ops : list trie_op := map (fun e => OpInsert e.1 e.2) (([1; 2], [8]) :: rev example_entries).

Lemma sorted_example : sorted example_entries.
Proof. decide_compute. Defined.

Lemma hash256_is_trie_root_witness : exists r db', run (pbind init (fun r => apply r entry_ops)) new_MemoryDB = (Value r, db') /\ hash256 example_entries = Value r.
Proof.
  apply (hash256_is_trie_root new_MemoryDB entry_ops example_entries).
  - exact fine_new.
  - repeat (split; [split; [decide_compute|done]|]; split; [split; [decide_compute|done]|]; split; [done|]). exact I.
  - decide_compute.
  - exact sorted_example.
  - decide_compute.
Defined.

Definition example_data : list (list Z) := [[1]; replicate 40 2; [3; 4]].

Lemma ordered_root_is_trie_root_witness : exists r db',
  run (pbind init (fun r => apply r (list_ops 0 example_data))) new_MemoryDB = (Value r, db') /\ orderedTrieRoot example_data = Value r.
Proof.
  apply (ordered_root_is_trie_root new_MemoryDB example_data).
  - exact fine_new.
  - repeat (apply Forall_cons; split; [split; [split; [decide_compute|done]|done]|]). apply Forall_nil_2.
  - done.
  - decide_compute.
Defined.
