(* ===== verification/BlockHeader.v ===== *)
(** * Headers of blocks (libaeccore/BlockHeader.h, BlockHeader.cpp)

    The data of a header, its RLP and its hashes, which the object remembers,
    how it is read from a block, and what it is checked for alone, after its
    parent and against the block.  The member functions that are [const] and
    remember a hash return the object. *)
From stdpp Require Import base list.
From Stdlib Require Import ZArith Lia.
From S2P Require Import Prelude Words Result Account State Rlp StateMonad NodeDB MemoryDB TrieDB Transaction TrieHash.
Open Scope result_scope.

Inductive header_error : Set :=
| HRlp (e : rlp_error)
| HState (e : state_error)
| InvalidBlockFormat
| InvalidNumber
| TooMuchGasUsed
| InvalidParentHash
| InvalidTimestamp
| InvalidTransactionsRoot
| InvalidUnclesHash
| InvalidDifficulty
| InvalidGasLimit
| ExtraDataTooBig
| ExtraDataIncorrect
| InvalidBlockNonce
| GenesisBlockCannotBeCalculated
| DivisionByZero.

Definition hdr_rlp {A} (r : res A) : result header_error A :=
  match r with
  | Value a => Value a
  | Error e => Error (HRlp e)
  | OutOfBounds => OutOfBounds
  | OutOfFuel => OutOfFuel
  end.
Definition hdr_state {A} (r : result state_error A) : result header_error A :=
  match r with
  | Value a => Value a
  | Error e => Error (HState e)
  | OutOfBounds => OutOfBounds
  | OutOfFuel => OutOfFuel
  end.

Inductive IncludeSeal : Set := WithoutSeal | WithSeal | OnlySeal.
Inductive Strictness : Set := CheckEverything | JustSeal | QuickNonce | IgnoreSeal | CheckNothingNew.
Inductive BlockDataType : Set := HeaderData | BlockData.

(** The bloom filter is a number of 2048 bits, the seal a list of RLPs. *)
Record BlockHeader := mkBlockHeader {
  h_parentHash : Z;
  h_sha3Uncles : Z;
  h_author : Z;
  h_stateRoot : Z;
  h_transactionsRoot : Z;
  h_receiptsRoot : Z;
  h_logBloom : Z;
  h_difficulty : Z;
  h_number : Z;
  h_gasLimit : Z;
  h_gasUsed : Z;
  h_timestamp : Z;
  h_extraData : list Z;
  h_seal : list (list Z);
  h_hash : Z;
  h_hashWithout : Z
}.

Definition new_BlockHeader : BlockHeader := mkBlockHeader 0 0 0 0 0 0 0 0 0 0 0 (-1) [] [] 0 0.

(** An [int64_t] beside a [u256]. *)
Definition to_u256 (i : Z) : Z := i mod 2 ^ 256.

(** [explicit operator bool()]: [m_timestamp != Invalid256]. *)
Definition is_header (h : BlockHeader) : bool := negb (to_u256 (h_timestamp h) =? Invalid256).

(** [operator==]: the hashes and the seal are not compared. *)
Definition header_eqb (a b : BlockHeader) : bool :=
  (h_parentHash a =? h_parentHash b) && (h_sha3Uncles a =? h_sha3Uncles b) && (h_author a =? h_author b) &&
  (h_stateRoot a =? h_stateRoot b) && (h_transactionsRoot a =? h_transactionsRoot b) && (h_receiptsRoot a =? h_receiptsRoot b) &&
  (h_logBloom a =? h_logBloom b) && (h_difficulty a =? h_difficulty b) && (h_number a =? h_number b) && (h_gasLimit a =? h_gasLimit b) &&
  (h_gasUsed a =? h_gasUsed b) && (h_timestamp a =? h_timestamp b) && bool_decide (h_extraData a = h_extraData b).

(** ** Setters *)

Definition with_hashes (x y : Z) (h : BlockHeader) : BlockHeader :=
  mkBlockHeader (h_parentHash h) (h_sha3Uncles h) (h_author h) (h_stateRoot h) (h_transactionsRoot h) (h_receiptsRoot h) (h_logBloom h)
    (h_difficulty h) (h_number h) (h_gasLimit h) (h_gasUsed h) (h_timestamp h) (h_extraData h) (h_seal h) x y.
Definition noteDirty (h : BlockHeader) : BlockHeader := with_hashes 0 0 h.

Definition setParentHash (v : Z) (h : BlockHeader) : BlockHeader := noteDirty
  (mkBlockHeader v (h_sha3Uncles h) (h_author h) (h_stateRoot h) (h_transactionsRoot h) (h_receiptsRoot h) (h_logBloom h)
    (h_difficulty h) (h_number h) (h_gasLimit h) (h_gasUsed h) (h_timestamp h) (h_extraData h) (h_seal h) 0 0).
Definition setSha3Uncles (v : Z) (h : BlockHeader) : BlockHeader := noteDirty
  (mkBlockHeader (h_parentHash h) v (h_author h) (h_stateRoot h) (h_transactionsRoot h) (h_receiptsRoot h) (h_logBloom h)
    (h_difficulty h) (h_number h) (h_gasLimit h) (h_gasUsed h) (h_timestamp h) (h_extraData h) (h_seal h) 0 0).
Definition setNumber (v : Z) (h : BlockHeader) : BlockHeader := noteDirty
  (mkBlockHeader (h_parentHash h) (h_sha3Uncles h) (h_author h) (h_stateRoot h) (h_transactionsRoot h) (h_receiptsRoot h) (h_logBloom h)
    (h_difficulty h) v (h_gasLimit h) (h_gasUsed h) (h_timestamp h) (h_extraData h) (h_seal h) 0 0).
Definition setTimestamp (v : Z) (h : BlockHeader) : BlockHeader := noteDirty
  (mkBlockHeader (h_parentHash h) (h_sha3Uncles h) (h_author h) (h_stateRoot h) (h_transactionsRoot h) (h_receiptsRoot h) (h_logBloom h)
    (h_difficulty h) (h_number h) (h_gasLimit h) (h_gasUsed h) v (h_extraData h) (h_seal h) 0 0).
Definition setAuthor (v : Z) (h : BlockHeader) : BlockHeader := noteDirty
  (mkBlockHeader (h_parentHash h) (h_sha3Uncles h) v (h_stateRoot h) (h_transactionsRoot h) (h_receiptsRoot h) (h_logBloom h)
    (h_difficulty h) (h_number h) (h_gasLimit h) (h_gasUsed h) (h_timestamp h) (h_extraData h) (h_seal h) 0 0).
Definition setRoots (t r u s : Z) (h : BlockHeader) : BlockHeader := noteDirty
  (mkBlockHeader (h_parentHash h) u (h_author h) s t r (h_logBloom h)
    (h_difficulty h) (h_number h) (h_gasLimit h) (h_gasUsed h) (h_timestamp h) (h_extraData h) (h_seal h) 0 0).
Definition setGasUsed (v : Z) (h : BlockHeader) : BlockHeader := noteDirty
  (mkBlockHeader (h_parentHash h) (h_sha3Uncles h) (h_author h) (h_stateRoot h) (h_transactionsRoot h) (h_receiptsRoot h) (h_logBloom h)
    (h_difficulty h) (h_number h) (h_gasLimit h) v (h_timestamp h) (h_extraData h) (h_seal h) 0 0).
Definition setGasLimit (v : Z) (h : BlockHeader) : BlockHeader := noteDirty
  (mkBlockHeader (h_parentHash h) (h_sha3Uncles h) (h_author h) (h_stateRoot h) (h_transactionsRoot h) (h_receiptsRoot h) (h_logBloom h)
    (h_difficulty h) (h_number h) v (h_gasUsed h) (h_timestamp h) (h_extraData h) (h_seal h) 0 0).
Definition setExtraData (v : list Z) (h : BlockHeader) : BlockHeader := noteDirty
  (mkBlockHeader (h_parentHash h) (h_sha3Uncles h) (h_author h) (h_stateRoot h) (h_transactionsRoot h) (h_receiptsRoot h) (h_logBloom h)
    (h_difficulty h) (h_number h) (h_gasLimit h) (h_gasUsed h) (h_timestamp h) v (h_seal h) 0 0).
Definition setLogBloom (v : Z) (h : BlockHeader) : BlockHeader := noteDirty
  (mkBlockHeader (h_parentHash h) (h_sha3Uncles h) (h_author h) (h_stateRoot h) (h_transactionsRoot h) (h_receiptsRoot h) v
    (h_difficulty h) (h_number h) (h_gasLimit h) (h_gasUsed h) (h_timestamp h) (h_extraData h) (h_seal h) 0 0).
Definition setDifficulty (v : Z) (h : BlockHeader) : BlockHeader := noteDirty
  (mkBlockHeader (h_parentHash h) (h_sha3Uncles h) (h_author h) (h_stateRoot h) (h_transactionsRoot h) (h_receiptsRoot h) (h_logBloom h)
    v (h_number h) (h_gasLimit h) (h_gasUsed h) (h_timestamp h) (h_extraData h) (h_seal h) 0 0).

(** [setSeal(_offset, _value)], where [rlp(_value)] is [value]. *)
Definition setSeal (offset : nat) (value : list Z) (h : BlockHeader) : BlockHeader :=
  let seal := if (length (h_seal h) <=? offset)%nat then h_seal h ++ replicate (S offset - length (h_seal h)) [] else h_seal h in
  noteDirty
  (mkBlockHeader (h_parentHash h) (h_sha3Uncles h) (h_author h) (h_stateRoot h) (h_transactionsRoot h) (h_receiptsRoot h) (h_logBloom h)
    (h_difficulty h) (h_number h) (h_gasLimit h) (h_gasUsed h) (h_timestamp h) (h_extraData h) (<[offset := value]> seal) 0 0).

(** [seal<FixedHash<N> >(_offset)]: zero where there is none. *)
Definition seal_hash (N : Z) (offset : nat) (h : BlockHeader) : result header_error Z :=
  match h_seal h !! offset with
  | Some b => d <- hdr_rlp (mkRLP VeryStrict b) ;; v <- hdr_rlp (toHash N VeryStrict d) ;; Value (be_val v)
  | None => Value 0
  end.

(** ** Writing *)

Definition BasicFields : Z := 13.
Definition bloom_bytes (b : Z) : list Z := toBigEndian 256 b.

(** [m_number] and [m_timestamp] are [int64_t]; of the functions [append] the
    one for [unsigned] takes them. *)
Definition streamRLPFields (h : BlockHeader) (s : RLPStream) : res RLPStream :=
  s <- append_bytes false (h256_bytes (h_parentHash h)) s ;;
  s <- append_bytes false (h256_bytes (h_sha3Uncles h)) s ;;
  s <- append_bytes false (addr_bytes (h_author h)) s ;;
  s <- append_bytes false (h256_bytes (h_stateRoot h)) s ;;
  s <- append_bytes false (h256_bytes (h_transactionsRoot h)) s ;;
  s <- append_bytes false (h256_bytes (h_receiptsRoot h)) s ;;
  s <- append_bytes false (bloom_bytes (h_logBloom h)) s ;;
  s <- append_int (h_difficulty h) s ;;
  s <- append_C_int (h_number h) s ;;
  s <- append_int (h_gasLimit h) s ;;
  s <- append_int (h_gasUsed h) s ;;
  s <- append_C_int (h_timestamp h) s ;;
  append_bytes false (h_extraData h) s.

(** [for (unsigned i = 0; i < m_seal.size(); ++i) _s.appendRaw(m_seal\[i\])] *)
Fixpoint append_seal (l : list (list Z)) (s : RLPStream) : res RLPStream :=
  match l with [] => Value s | b :: l => s <- appendRaw b 1 s ;; append_seal l s end.

Definition streamRLP (i : IncludeSeal) (h : BlockHeader) (s : RLPStream) : res RLPStream :=
  s <- (match i with
        | OnlySeal => Value s
        | WithoutSeal => s <- appendList BasicFields s ;; streamRLPFields h s
        | WithSeal => s <- appendList (BasicFields + lenZ (h_seal h)) s ;; streamRLPFields h s
        end) ;;
  match i with WithoutSeal => Value s | _ => append_seal (h_seal h) s end.

(** [for (; i < _header.itemCount(); ++i) m_seal.push_back(_header\[i\].data().toBytes())] *)
Fixpoint read_seal (count : nat) (i : Z) (r : RLP) : result header_error (list (list Z)) :=
  match count with
  | O => Value []
  | S c => x <- hdr_rlp (subscript i r) ;; l <- read_seal c (i + 1) (snd x) ;; Value (fst x :: l)
  end.

(** [_header\[k\].f()] *)
Definition read_field {A} (k : Z) (r : RLP) (f : list Z -> res A) : result header_error (A * RLP) :=
  x <- hdr_rlp (subscript k r) ;; v <- hdr_rlp (f (fst x)) ;; Value (v, snd x).

Definition read_hash (N : Z) (d : list Z) : res Z := h <- toHash N VeryStrict d ;; Value (be_val h).
Definition T_int64 : IntType := mkIntType 8 i64.
Definition toPositiveInt64 (flags : Z) (d : list Z) : res Z :=
  i <- toInt T_int64 flags d ;;
  throw_if (flag ThrowOnFail flags && (i <? 0)) BadCast ;;
  Value i.

Section Hashes.
  Context `{Sha3}.

Definition EmptyListSHA3 : Z := sha3 [0xc0].
Definition hasUncles (h : BlockHeader) : bool := negb (h_sha3Uncles h =? EmptyListSHA3).

Definition clear : BlockHeader :=
  mkBlockHeader 0 EmptyListSHA3 0 EmptyTrie EmptyTrie EmptyTrie 0 0 0 0 0 (-1) [] [] 0 0.

Definition compute_hash (i : IncludeSeal) (h : BlockHeader) : result header_error Z :=
  s <- hdr_rlp (streamRLP i h empty_stream) ;; o <- hdr_rlp (stream_out s) ;; Value (sha3 o).

(** [hash(_i)]: what is remembered is returned, or computed and remembered. *)
Definition hash (i : IncludeSeal) (h : BlockHeader) : result header_error (Z * BlockHeader) :=
  match i with
  | WithSeal => if h_hash h =? 0 then x <- compute_hash i h ;; Value (x, with_hashes x (h_hashWithout h) h) else Value (h_hash h, h)
  | WithoutSeal =>
      if h_hashWithout h =? 0 then x <- compute_hash i h ;; Value (x, with_hashes (h_hash h) x h) else Value (h_hashWithout h, h)
  | OnlySeal => x <- compute_hash i h ;; Value (x, h)
  end.

(** ** Reading *)

Definition headerHashFromBlock (block : list Z) : result header_error Z :=
  d <- hdr_rlp (mkRLP VeryStrict block) ;; x <- hdr_rlp (subscript 0 (fresh_RLP d)) ;; Value (sha3 (fst x)).

Definition extractHeader (block : list Z) : result header_error (list Z) :=
  d <- hdr_rlp (mkRLP VeryStrict block) ;;
  throw_if (negb (isList d)) InvalidBlockFormat ;;
  x0 <- hdr_rlp (subscript 0 (fresh_RLP d)) ;;
  throw_if (negb (isList (fst x0))) InvalidBlockFormat ;;
  x1 <- hdr_rlp (subscript 1 (snd x0)) ;;
  throw_if (negb (isList (fst x1))) InvalidBlockFormat ;;
  x2 <- hdr_rlp (subscript 2 (snd x1)) ;;
  throw_if (negb (isList (fst x2))) InvalidBlockFormat ;;
  Value (fst x0).

(** The handler of exceptions adds the bytes of the field and throws the
    exception again.  It reads the field once more, which ends as it did before. *)
Definition populate (d : list Z) (h : BlockHeader) : result header_error BlockHeader :=
  parentHash <- read_field 0 (fresh_RLP d) (read_hash 32) ;;
  sha3Uncles <- read_field 1 (snd parentHash) (read_hash 32) ;;
  author <- read_field 2 (snd sha3Uncles) (read_hash 20) ;;
  stateRoot <- read_field 3 (snd author) (read_hash 32) ;;
  transactionsRoot <- read_field 4 (snd stateRoot) (read_hash 32) ;;
  receiptsRoot <- read_field 5 (snd transactionsRoot) (read_hash 32) ;;
  logBloom <- read_field 6 (snd receiptsRoot) (read_hash 256) ;;
  difficulty <- read_field 7 (snd logBloom) (toInt T_u256 Strict) ;;
  number <- read_field 8 (snd difficulty) (toPositiveInt64 Strict) ;;
  gasLimit <- read_field 9 (snd number) (toInt T_u256 Strict) ;;
  gasUsed <- read_field 10 (snd gasLimit) (toInt T_u256 Strict) ;;
  timestamp <- read_field 11 (snd gasUsed) (toPositiveInt64 Strict) ;;
  extraData <- read_field 12 (snd timestamp) (toBytes LaissezFaire) ;;
  n <- hdr_rlp (itemCount d) ;;
  seal <- read_seal (Z.to_nat (n - 13)) 13 (snd extraData) ;;
  Value (mkBlockHeader (fst parentHash) (fst sha3Uncles) (fst author) (fst stateRoot) (fst transactionsRoot) (fst receiptsRoot) (fst logBloom)
    (fst difficulty) (fst number) (fst gasLimit) (fst gasUsed) (fst timestamp) (fst extraData) seal (h_hash h) (h_hashWithout h)).

(** [BlockHeader(_block, _bdt, _hashWith)] *)
Definition parse_header (block : list Z) (bdt : BlockDataType) (hashWith : Z) : result header_error BlockHeader :=
  header <- (match bdt with BlockData => extractHeader block | HeaderData => hdr_rlp (mkRLP VeryStrict block) end) ;;
  populate header (with_hashes (if negb (hashWith =? 0) then hashWith else sha3 header) 0 new_BlockHeader).

(** ** After the parent *)

(** The hash of the parent is the one the parent remembers; the hashes of the
    header are kept. *)
Definition populateFromParent (parent h : BlockHeader) : BlockHeader :=
  mkBlockHeader (h_hash parent) (h_sha3Uncles h) (h_author h) (h_stateRoot parent) (h_transactionsRoot h) (h_receiptsRoot h) (h_logBloom h)
    (h_difficulty parent) (i64 (h_number parent + 1)) (h_gasLimit parent) 0 (h_timestamp h) (h_extraData h) (h_seal h) (h_hash h) (h_hashWithout h).

(** ** Checks *)

Definition item_value (i : Z) (r : RLP) : result header_error (list Z * RLP) := hdr_rlp (subscript i r).

(** The trie that is built to report a root that does not match: [transactionsTrie.insert(&k.out(), txList\[i\].data())]. *)
Fixpoint report_loop (count : nat) (i root : Z) (r : RLP) (db : MemoryDB) : result header_error unit :=
  match count with
  | O => Value tt
  | S c =>
      k <- hdr_rlp (rlp_unsigned i) ;;
      x <- item_value i r ;;
      let (root', db') := run (TrieDB.insert root k (fst x)) db in
      root' <- hdr_state root' ;;
      report_loop c (i + 1) root' (snd x) db'
  end.
Definition report (count : nat) (txList : RLP) : result header_error unit :=
  let (root, db) := run init new_MemoryDB in
  root <- hdr_state root ;; report_loop count 0 root txList db.

(** The checks against the block. *)
Definition verify_block (h : BlockHeader) (block : list Z) : result header_error unit :=
  d <- hdr_rlp (mkRLP VeryStrict block) ;;
  x1 <- hdr_rlp (subscript 1 (fresh_RLP d)) ;;
  let txList := fst x1 in
  n <- hdr_rlp (itemCount txList) ;;
  m <- over_loop (Z.to_nat (u32 n)) 0 (fun i => hdr_rlp (rlp_unsigned i)) item_value (fresh_RLP txList) [] ;;
  expectedRoot <- hdr_rlp (hash256 (fst m)) ;;
  (if negb (h_transactionsRoot h =? expectedRoot) then report (Z.to_nat n) (snd m) ;; Error InvalidTransactionsRoot else Value tt) ;;
  x2 <- hdr_rlp (subscript 2 (snd x1)) ;;
  throw_if (negb (h_sha3Uncles h =? sha3 (fst x2))) InvalidUnclesHash.

(** [verify(_s, _parent, _block)]: the parent, which remembers its hash. *)
Definition verify (s : Strictness) (h parent : BlockHeader) (block : list Z) : result header_error BlockHeader :=
  throw_if (2 ^ 32 - 1 <? h_number h) InvalidNumber ;;
  throw_if (match s with CheckNothingNew => false | _ => true end && (h_gasLimit h <? h_gasUsed h)) TooMuchGasUsed ;;
  parent <- (if is_header parent then
      parent <- (if negb (h_parentHash h =? 0) then
                   x <- hash WithSeal parent ;; throw_if (negb (fst x =? h_parentHash h)) InvalidParentHash ;; Value (snd x)
                 else Value parent) ;;
      throw_if (h_timestamp h <=? h_timestamp parent) InvalidTimestamp ;;
      throw_if (negb (h_number h =? i64 (h_number parent + 1))) InvalidNumber ;;
      Value parent
    else Value parent) ;;
  (if lenZ block =? 0 then Value tt else verify_block h block) ;;
  Value parent.
End Hashes.
