(* ===== verification/Ethash.v ===== *)
(** * Proof of work and the rules of the chain (libaecashseal/Ethash.cpp,
    Ethash.h, libaeccore/SealEngine.cpp)

    What [aecash] requires of a header and what it puts into the header of a new
    block: the difficulty, the limit of the gas and the seal.  Whether a seal is
    a proof of work is a question to the aecash library. *)
From stdpp Require Import base list.
From Stdlib Require Import ZArith Lia.
From S2P Require Import Prelude Words Result Account State Rlp Schedule SealEngine BlockHeader.
Open Scope result_scope.

(** The aecash library: [verify_final_hash(header, mix, nonce, boundary)],
    [verify(context, header, mix, nonce, boundary)] with the context of an epoch,
    and [get_epoch_number]. *)
Class AecashLib := {
  verify_final_hash : Z -> Z -> Z -> Z -> bool;
  get_epoch_number : Z -> Z;
  aecash_verify : Z -> Z -> Z -> Z -> Z -> bool
}.

(** [a / b] of [u256] numbers. *)
Definition udiv (a b : Z) : result header_error Z := if b =? 0 then Error DivisionByZero else Value (a / b).

Section Ethash.
  Context `{Sha3} `{!AecashLib} (p : ChainOperationParams).

(** ** The seal *)

Definition MixHashField : nat := 0.
Definition NonceField : nat := 1.

Definition nonce (h : BlockHeader) : result header_error Z := seal_hash 8 NonceField h.
Definition mixHash (h : BlockHeader) : result header_error Z := seal_hash 32 MixHashField h.

(** [(h256)u256((bigint(1) << 256) / d)] *)
Definition boundary (h : BlockHeader) : Z := if h_difficulty h =? 0 then 0 else u256 (2 ^ 256 / h_difficulty h).

Definition setNonce (rlp_nonce : list Z) (h : BlockHeader) : BlockHeader := setSeal NonceField rlp_nonce h.
Definition setMixHash (rlp_mix : list Z) (h : BlockHeader) : BlockHeader := setSeal MixHashField rlp_mix h.

Definition quickVerifySeal (h : BlockHeader) : result header_error (bool * BlockHeader) :=
  x <- hash WithoutSeal h ;;
  n <- nonce h ;;
  m <- mixHash h ;;
  Value (verify_final_hash (fst x) m n (boundary h), snd x).

Definition verifySeal (h : BlockHeader) : result header_error (bool * BlockHeader) :=
  x <- hash WithoutSeal h ;;
  n <- nonce h ;;
  m <- mixHash h ;;
  Value (aecash_verify (get_epoch_number (h_number h)) (fst x) m n (boundary h), snd x).

(** ** Difficulty *)

Definition c_expDiffPeriod : Z := 100000.

(** The number of the block as the bomb counts it: EIP-649 delays it. *)
Definition iceAge (bi parent : BlockHeader) : Z :=
  let n := u32 (h_number parent + 1) in
  if byzantiumForkBlock p <=? to_u256 (h_number bi) then (if 3000000 <=? n then n - 3000000 else 0) else n.

Definition adjFactor (bi parent : BlockHeader) : Z :=
  let timestampDiff := h_timestamp bi - h_timestamp parent in
  if to_u256 (h_number bi) <? byzantiumForkBlock p then Z.max (1 - Z.quot timestampDiff 10) (-99)
  else Z.max ((if hasUncles parent then 2 else 1) - Z.quot timestampDiff 9) (-99).

Definition target (bi parent : BlockHeader) : result header_error Z :=
  if to_u256 (h_number bi) <? homesteadForkBlock p then
    q <- udiv (h_difficulty parent) (difficultyBoundDivisor p) ;;
    Value (if u256 (h_timestamp parent + durationLimit p) <=? to_u256 (h_timestamp bi)
           then u256 (h_difficulty parent - q) else u256 (h_difficulty parent + q))
  else Value (h_difficulty parent + h_difficulty parent / 2048 * adjFactor bi parent).

Definition calculateDifficulty (bi parent : BlockHeader) : result header_error Z :=
  throw_if (h_number bi =? 0) GenesisBlockCannotBeCalculated ;;
  target <- target bi parent ;;
  let periodCount := iceAge bi parent / c_expDiffPeriod in
  let o := if 1 <? periodCount then target + Z.shiftl 1 (periodCount - 2) else target in
  let o := Z.max (minimumDifficulty p) o in
  Value (Z.min o (2 ^ 256 - 1)).

(** ** The limit of the gas *)

Definition childGasLimit (bi : BlockHeader) (gasFloorTarget : Z) : result header_error Z :=
  let gasFloorTarget := if gasFloorTarget =? Invalid256 then 3141562 else gasFloorTarget in
  let gasLimit := h_gasLimit bi in
  let boundDivisor := gasLimitBoundDivisor p in
  q <- udiv gasLimit boundDivisor ;;
  if gasLimit <? gasFloorTarget then Value (Z.min gasFloorTarget (u256 (gasLimit + q - 1)))
  else
    u <- udiv (u256 (h_gasUsed bi * 6) / 5) boundDivisor ;;
    Value (Z.max gasFloorTarget (u256 (gasLimit - q + 1 + u))).

Definition aecash_populateFromParent (bi parent : BlockHeader) : result header_error BlockHeader :=
  let bi := populateFromParent parent bi in
  d <- calculateDifficulty bi parent ;;
  let bi := setDifficulty d bi in
  g <- childGasLimit parent Invalid256 ;;
  Value (setGasLimit g bi).

(** ** Checks *)

(** [fromHex("0x64616f2d686172642d666f726b")] *)
Definition dao_hard_fork : list Z := [0x64; 0x61; 0x6f; 0x2d; 0x68; 0x61; 0x72; 0x64; 0x2d; 0x66; 0x6f; 0x72; 0x6b].

(** The checks of a header alone. *)
Definition verify_limits (bi : BlockHeader) : result header_error unit :=
  throw_if (h_difficulty bi <? minimumDifficulty p) InvalidDifficulty ;;
  throw_if (h_gasLimit bi <? minGasLimit p) InvalidGasLimit ;;
  throw_if (maxGasLimit p <? h_gasLimit bi) InvalidGasLimit ;;
  throw_if (negb (h_number bi =? 0) && (maximumExtraDataSize p <? lenZ (h_extraData bi))) ExtraDataTooBig ;;
  let dao := daoHardforkBlock p in
  throw_if (negb (dao =? 0) && (dao <=? u256 (dao + 9)) && (dao <=? to_u256 (h_number bi)) && (to_u256 (h_number bi) <=? u256 (dao + 9))
            && negb (bool_decide (h_extraData bi = dao_hard_fork))) ExtraDataIncorrect.

(** The checks against the parent; the exception says what the limits are. *)
Definition verify_parent (bi parent : BlockHeader) : result header_error unit :=
  expected <- calculateDifficulty bi parent ;;
  throw_if (negb (h_difficulty bi =? expected)) InvalidDifficulty ;;
  let gasLimit := h_gasLimit bi in
  let parentGasLimit := h_gasLimit parent in
  bad <- (if (gasLimit <? minGasLimit p) || (maxGasLimit p <? gasLimit) then Value true
          else
            q <- udiv parentGasLimit (gasLimitBoundDivisor p) ;;
            Value ((gasLimit <=? u256 (parentGasLimit - q)) || (u256 (parentGasLimit + q) <=? gasLimit))) ;;
  if bad : bool then udiv parentGasLimit (gasLimitBoundDivisor p) ;; Error InvalidGasLimit else Value tt.

(** The checks of the proof of work; the genesis block needs none. *)
Definition seal_check (s : Strictness) (bi : BlockHeader) : result header_error BlockHeader :=
  match s with
  | CheckEverything =>
      if h_parentHash bi =? 0 then Value bi
      else x <- verifySeal bi ;; throw_if (negb (fst x)) InvalidBlockNonce ;; Value (snd x)
  | QuickNonce =>
      if h_parentHash bi =? 0 then Value bi
      else x <- quickVerifySeal bi ;; throw_if (negb (fst x)) InvalidBlockNonce ;; Value (snd x)
  | _ => Value bi
  end.

(** [verify(_s, _bi, _parent, _block)]: the header and its parent, which
    remember hashes. *)
Definition aecash_verify_header (s : Strictness) (bi parent : BlockHeader) (block : list Z) : result header_error (BlockHeader * BlockHeader) :=
  parent <- BlockHeader.verify s bi parent block ;;
  (match s with CheckNothingNew => Value tt | _ => verify_limits bi end) ;;
  (if is_header parent then verify_parent bi parent else Value tt) ;;
  bi <- seal_check s bi ;;
  Value (bi, parent).
End Ethash.

(** ** Engines

    [SealEngineFace::verify] and [SealEngineFace::populateFromParent], which
    [NoProof] inherits and [aecash] overrides. *)
Section Engines.
  Context `{Sha3} `{!AecashLib}.

Definition engine_verify (e : SealEngine) (s : Strictness) (bi parent : BlockHeader) (block : list Z) : result header_error (BlockHeader * BlockHeader) :=
  match sealEngineName e with
  | NoProof => parent <- BlockHeader.verify s bi parent block ;; Value (bi, parent)
  | aecash => aecash_verify_header (chainParams e) s bi parent block
  end.

Definition engine_populateFromParent (e : SealEngine) (bi parent : BlockHeader) : result header_error BlockHeader :=
  match sealEngineName e with
  | NoProof => Value (populateFromParent parent bi)
  | aecash => aecash_populateFromParent (chainParams e) bi parent
  end.
End Engines.
