(* ===== verification/BlockChain.v ===== *)
(** * Blocks that arrive (libaecereum/BlockChain.cpp, VerifiedBlock.h)

    [BlockChain::verifyBlock], by which the queue of blocks and the chain check
    the bytes of a block: its header, its uncles and its transactions, as much of
    each as the caller asks for.  The rest of the chain is not modelled; what is
    asked of it is a [ChainView], the answers of the chain at one moment. *)
From stdpp Require Import base list.
From Stdlib Require Import ZArith Lia.
From S2P Require Import Prelude Words Result Rlp Account Schedule Transaction SealEngine BlockHeader Ethash.
Open Scope result_scope.

(** [headerData] is empty for a hash that is not known. *)
Record ChainView := mkChainView { isKnown : Z -> bool; headerData : Z -> list Z }.

(** The exceptions of [verifyBlock]: the first three are told to [_onBad] with
    the index of what was wrong, the last is thrown as it is. *)
Inductive block_error : Set :=
| BadHeader (e : header_error)
| BadUncle (index : Z) (e : header_error)
| BadTransaction (index : Z) (e : verify_error)
| Unreported (e : header_error).

Definition blk {A} (f : header_error -> block_error) (r : result header_error A) : result block_error A :=
  match r with
  | Value a => Value a
  | Error e => Error (f e)
  | OutOfBounds => OutOfBounds
  | OutOfFuel => OutOfFuel
  end.
Definition blk_tx {A} (i : Z) (r : result verify_error A) : result block_error A :=
  match r with
  | Value a => Value a
  | Error e => Error (BadTransaction i e)
  | OutOfBounds => OutOfBounds
  | OutOfFuel => OutOfFuel
  end.
Definition blk_rlp {A} (r : res A) : result block_error A := blk Unreported (hdr_rlp r).

(** [struct VerifiedBlockRef]: [vr_block] is what [block] refers to. *)
Record VerifiedBlockRef := mkVerifiedBlockRef {
  vr_block : list Z;
  vr_info : BlockHeader;
  vr_transactions : list TransactionBase
}.

(** Requirements that [SealEngine] does not ask for. *)
Definition PostGenesis : Z := 256.
Definition OutOfOrderChecks : Z :=
  Z.lor (Z.lor ImportRequirements.ValidSeal ImportRequirements.CheckUncles) ImportRequirements.CheckTransactions.
Definition InOrderChecks : Z := Z.lor ImportRequirements.Parent ImportRequirements.UncleParent.

(** [for (auto const& item: rlp) f(i++, item)], where [f] returns what it adds
    to the result. *)
Fixpoint range_loop {B} (fuel : nat) (d : list Z) (it : iterator) (i : Z) (f : Z -> list Z -> result block_error (list B)) (ret : list B)
    : result block_error (list B) :=
  match fuel with
  | O => OutOfFuel
  | S n =>
      if (it_pos it =? it_pos (iterator_end d)) && (it_count it =? it_count (iterator_end d)) then Value ret
      else
        r <- blk_rlp (mkRLP VeryStrict (view (it_pos it) (it_count it) d)) ;;
        b <- f i r ;;
        it' <- blk_rlp (iterator_next d it) ;;
        range_loop n d it' (u32 (i + 1)) f (ret ++ b)
  end.
Definition for_rlp {B} (d : list Z) (f : Z -> list Z -> result block_error (list B)) : result block_error (list B) :=
  it <- blk_rlp (iterator_begin d) ;; range_loop (S (length d)) d it 0 f [].

Section VerifyBlock.
  Context `{Sha3} `{!AecashLib} `{!Secp256k1} (e : SealEngine) (chain : ChainView).

(** [parent = BlockHeader(headerData(h), HeaderData, h)] *)
Definition parent_header (h : Z) : result header_error BlockHeader :=
  throw_if (bool_decide (headerData chain h = [])) InvalidParentHash ;;
  parse_header (headerData chain h) HeaderData h.

(** The first phase: the header. *)
Definition verify_phase1 (ir : Z) (block : list Z) : result header_error BlockHeader :=
  h <- parse_header block BlockData 0 ;;
  throw_if (flag PostGenesis ir && ((h_parentHash h =? 0) || (h_number h =? 0))) InvalidParentHash ;;
  parent <- (if flag ImportRequirements.Parent ir then parent_header (h_parentHash h) else Value new_BlockHeader) ;;
  x <- engine_verify e (if flag ImportRequirements.ValidSeal ir then CheckEverything else QuickNonce) h parent block ;;
  Value (fst x).

Definition verify_uncle (ir i : Z) (uncle : list Z) : result block_error (list BlockHeader) :=
  uh <- blk Unreported (parse_header uncle HeaderData 0) ;;
  blk (BadUncle i)
    (parent <- (if flag ImportRequirements.UncleParent ir then parent_header (h_parentHash uh) else Value new_BlockHeader) ;;
     engine_verify e (if flag ImportRequirements.UncleSeals ir then CheckEverything else IgnoreSeal) uh parent []) ;;
  Value [].

Definition verify_tx_of (ir : Z) (h : BlockHeader) (i : Z) (d : list Z) : result block_error (list TransactionBase) :=
  blk_tx i
    (t <- verify_tx (parse_transaction d (if flag ImportRequirements.TransactionSignatures ir then Transaction.CheckEverything else CheckNone)) ;;
     verifyTransaction e ir t (h_number h) (h_gasLimit h) 0 ;;
     Value [t]).

(** [if (_ir & (UncleBasic | UncleParent | UncleSeals))] *)
Definition wants_uncles (ir : Z) : bool :=
  flag (Z.lor (Z.lor ImportRequirements.UncleBasic ImportRequirements.UncleParent) ImportRequirements.UncleSeals) ir.
Definition wants_transactions (ir : Z) : bool :=
  flag (Z.lor ImportRequirements.TransactionBasic ImportRequirements.TransactionSignatures) ir.

Definition verifyBlock (ir : Z) (block : list Z) : result block_error VerifiedBlockRef :=
  h <- blk BadHeader (verify_phase1 ir block) ;;
  d <- blk_rlp (mkRLP VeryStrict block) ;;
  r <- (if wants_uncles ir then
          x <- blk_rlp (subscript 2 (fresh_RLP d)) ;;
          for_rlp (fst x) (verify_uncle ir) ;;
          Value (snd x)
        else Value (fresh_RLP d)) ;;
  txs <- (if wants_transactions ir then
            x <- blk_rlp (subscript 1 r) ;;
            for_rlp (fst x) (verify_tx_of ir h)
          else Value []) ;;
  Value (mkVerifiedBlockRef block h txs).

(** ** The header of a verified block *)

Lemma blk_Value {A} f (r : result header_error A) a : blk f r = Value a <-> r = Value a.
Proof. destruct r; cbn; split; congruence. Qed.

Lemma hash_WithoutSeal_kept h x h' : hash WithoutSeal h = Value (x, h') ->
  h_hash h' = h_hash h /\ h_parentHash h' = h_parentHash h /\ h_sha3Uncles h' = h_sha3Uncles h.
Proof. unfold hash. destruct (_ =? _); intros Hx; result_inv; by subst. Qed.

Lemma seal_check_kept s h h' : seal_check s h = Value h' ->
  h_hash h' = h_hash h /\ h_parentHash h' = h_parentHash h /\ h_sha3Uncles h' = h_sha3Uncles h.
Proof.
  unfold seal_check. destruct s; try (intros [= <-]; done); (destruct (_ =? 0); [intros [= <-]; done|]); intros Hs; apply rbind_Value in Hs as ([b h1] & Hv & Hs); cbn [fst snd] in Hs; result_inv; subst h1;
    [unfold verifySeal in Hv|unfold quickVerifySeal in Hv]; apply rbind_Value in Hv as ([y h2] & Hh & Hv); result_inv; cbn [fst snd] in *; simplify_eq; by eapply hash_WithoutSeal_kept.
Qed.

Lemma engine_verify_kept s h parent block x : engine_verify e s h parent block = Value x ->
  h_hash (fst x) = h_hash h /\ h_parentHash (fst x) = h_parentHash h /\ h_sha3Uncles (fst x) = h_sha3Uncles h.
Proof.
  unfold engine_verify. destruct (sealEngineName e); intros Hv; result_inv; subst; [done|]. unfold aecash_verify_header in Hv. result_inv. subst x. cbn [fst].
  by eapply seal_check_kept.
Qed.

Lemma populate_hash d h h' : populate d h = Value h' -> h_hash h' = h_hash h.
Proof. unfold populate. intros Hp. result_inv. by subst. Qed.

(** A block that is accepted has the hash that was taken of its bytes first,
    whatever was asked for, and its parent does not depend on it either. *)
Lemma verifyBlock_header ir block v h : verifyBlock ir block = Value v -> headerHashFromBlock block = Value h ->
  exists bi, parse_header block BlockData 0 = Value bi /\ h_hash (vr_info v) = h /\
    h_parentHash (vr_info v) = h_parentHash bi /\ h_sha3Uncles (vr_info v) = h_sha3Uncles bi.
Proof.
  unfold verifyBlock. intros Hv Hh. apply rbind_Value in Hv as (h1 & Hp & Hv). rewrite blk_Value in Hp. result_inv. subst v. cbn [vr_info].
  unfold verify_phase1 in Hp. apply rbind_Value in Hp as (bi & Hbi & Hp). exists bi. split; [done|]. result_inv. subst h1.
  match goal with H : engine_verify _ _ _ _ _ = Value _ |- _ => apply engine_verify_kept in H as (-> & -> & ->) end. split_and!; [|done|done].
  unfold parse_header in Hbi. apply rbind_Value in Hbi as (hd & He & Hbi). apply populate_hash in Hbi. cbn in Hbi. rewrite Hbi.
  unfold headerHashFromBlock in Hh. unfold extractHeader in He. result_inv. congruence.
Qed.

Lemma verifyBlock_block ir block v : verifyBlock ir block = Value v -> vr_block v = block.
Proof. unfold verifyBlock. intros Hv. result_inv. by subst. Qed.
End VerifyBlock.
