(* ===== verification/BlockQueue.v ===== *)
(** * The queue of blocks (libaecereum/BlockQueue.h, BlockQueue.cpp)

    Blocks on their way from the network into the chain.  A block whose parent is
    neither in the chain nor on its way waits in [m_unknown], one from the future
    in [m_future]; the others pass through [m_unverified], [m_verifying], where
    they stand while some thread verifies them, and [m_verified], from which the
    client drains them.

    Every public function holds [m_lock], so that their calls are some sequence of
    calls; only [tick] gives it back before it imports the blocks whose time has
    come, one call each.  A verifier takes its work under [m_verification] only and hands the
    result in under both locks: these are two steps of its own, and between them
    its work is one of the [jobs].  A function that gives the second lock back in
    between only adds to the end of [m_unverified], which is no other than taking
    the front before or after. *)
From stdpp Require Import base list gmap fin_sets.
From Stdlib Require Import ZArith Lia.
From S2P Require Import Prelude Words Result Rlp Account Schedule Transaction SealEngine BlockHeader Ethash BlockChain.
Open Scope result_scope.

Definition c_maxKnownCount : Z := 100000.
Definition c_maxKnownSize : Z := 128 * 1024 * 1024.
Definition c_maxUnknownCount : Z := 100000.
Definition c_maxUnknownSize : Z := 512 * 1024 * 1024.

(** ** Queues and maps that know the size of their blocks *)

(** What a queue holds: the bytes of its block, and what a move leaves of it
    (a vector that was moved from is empty, hashes and headers are copied). *)
Class Queued (T : Type) := { blockData : T -> list Z; moved : T -> T }.

Record SizedBlockQueue (T : Type) := mkQueue { m_queue : list T; q_size : Z }.
Arguments mkQueue {T} _ _.
Arguments m_queue {T} _.
Arguments q_size {T} _.

Section SizedQueue.
  Context {T : Type} `{!Queued T}.

Definition empty_queue : SizedBlockQueue T := mkQueue [] 0.
Definition q_count (q : SizedBlockQueue T) : Z := lenZ (m_queue q).
Definition q_isEmpty (q : SizedBlockQueue T) : bool := match m_queue q with [] => true | _ => false end.

Definition q_enqueue (t : T) (q : SizedBlockQueue T) : SizedBlockQueue T :=
  mkQueue (m_queue q ++ [t]) (u64 (q_size q + lenZ (blockData t))).
Definition q_dequeue (q : SizedBlockQueue T) : option (T * SizedBlockQueue T) :=
  match m_queue q with [] => None | t :: l => Some (t, mkQueue l (u64 (q_size q - lenZ (blockData t)))) end.

(** [removeRange]: [removed] is moved out, [kept] is what stays. *)
Definition size_without (size : Z) (removed : list T) : Z := foldl (fun s t => u64 (s - lenZ (blockData t))) size removed.
Definition removeRange (kept removed : list T) (q : SizedBlockQueue T) : list T * SizedBlockQueue T :=
  (removed, mkQueue kept (size_without (q_size q) removed)).

Definition dequeueMultiple (n : Z) (q : SizedBlockQueue T) : list T * SizedBlockQueue T :=
  removeRange (drop (Z.to_nat n) (m_queue q)) (take (Z.to_nat n) (m_queue q)) q.

(** [std::remove_if] moves the elements that stay to the front.  What is behind
    them is what stood there before, moved from if it stays. *)
Definition remove_if (p : T -> bool) (l : list T) : list T * list T :=
  let kept := filter (fun t => p t = false) l in
  (kept, drop (length kept) (map (fun t => if p t then t else moved t) l)).
Definition removeIf (p : T -> bool) (q : SizedBlockQueue T) : list T * SizedBlockQueue T :=
  let (kept, rest) := remove_if p (m_queue q) in removeRange kept rest q.
End SizedQueue.

(** [std::multimap]: in the order of the keys, equal keys in the order in which
    they came. *)
Record SizedBlockMap := mkBlockMap { m_map : list (Z * (Z * list Z)); m_size : Z }.

Definition empty_map : SizedBlockMap := mkBlockMap [] 0.
Definition m_count (m : SizedBlockMap) : Z := lenZ (m_map m).
Definition m_isEmpty (m : SizedBlockMap) : bool := match m_map m with [] => true | _ => false end.
Definition firstKey (m : SizedBlockMap) : option Z := fst <$> head (m_map m).

Fixpoint multimap_insert (key : Z) (value : Z * list Z) (l : list (Z * (Z * list Z))) : list (Z * (Z * list Z)) :=
  match l with
  | [] => [(key, value)]
  | x :: l => if key <? x.1 then (key, value) :: x :: l else x :: multimap_insert key value l
  end.

(** The size is read after the data was moved into the map. *)
Definition moved_bytes (data : list Z) : list Z := [].
Definition map_insert (key hash : Z) (data : list Z) (m : SizedBlockMap) : SizedBlockMap :=
  mkBlockMap (multimap_insert key (hash, data) (m_map m)) (u64 (m_size m + lenZ (moved_bytes data))).

Definition data_size (l : list (Z * list Z)) : Z := foldl (fun s e => u64 (s + lenZ e.2)) 0 l.
(** The elements whose keys satisfy [p], which stand together. *)
Definition map_removeRange (p : Z -> bool) (m : SizedBlockMap) : list (Z * list Z) * SizedBlockMap :=
  let removed := map snd (filter (fun x => p x.1 = true) (m_map m)) in
  (removed, mkBlockMap (filter (fun x => p x.1 = false) (m_map m)) (u64 (m_size m - data_size removed))).
Definition removeByKeyEqual (key : Z) : SizedBlockMap -> list (Z * list Z) * SizedBlockMap := map_removeRange (fun k => k =? key).
Definition removeByKeyNotGreater (key : Z) : SizedBlockMap -> list (Z * list Z) * SizedBlockMap := map_removeRange (fun k => k <=? key).

(** ** The blocks *)

Record UnverifiedBlock := mkUnverifiedBlock { ub_hash : Z; ub_parentHash : Z; ub_blockData : list Z }.
(** [struct VerifiedBlock]: while the data is empty it stands for a block that is
    being verified, with the hash of the block for its hash of the uncles. *)
Record VerifiedBlock := mkVerifiedBlock { vb_verified : VerifiedBlockRef; vb_blockData : list Z }.

Definition vb_info (b : VerifiedBlock) : BlockHeader := vr_info (vb_verified b).
Definition vb_parentHash (b : VerifiedBlock) : Z := h_parentHash (vb_info b).
Definition vb_sha3Uncles (b : VerifiedBlock) : Z := h_sha3Uncles (vb_info b).

#[export] Instance UnverifiedQueued : Queued UnverifiedBlock :=
  {| blockData := ub_blockData; moved b := mkUnverifiedBlock (ub_hash b) (ub_parentHash b) (moved_bytes (ub_blockData b)) |}.
#[export] Instance VerifiedQueued : Queued VerifiedBlock := {|
  blockData := vb_blockData;
  moved b := mkVerifiedBlock (mkVerifiedBlockRef (vr_block (vb_verified b)) (vb_info b) []) (moved_bytes (vb_blockData b))
|}.

(** [VerifiedBlock(move(bi))] in [verifierBody] *)
Definition being_verified (w : UnverifiedBlock) : VerifiedBlock :=
  mkVerifiedBlock (mkVerifiedBlockRef [] (setParentHash (ub_parentHash w) (setSha3Uncles (ub_hash w) new_BlockHeader)) []) [].

Definition sha3UnclesEquals (hash : Z) (b : VerifiedBlock) : bool := vb_sha3Uncles b =? hash.
(** [nextHash()] *)
Definition nextHash (q : SizedBlockQueue VerifiedBlock) : option Z := vb_sha3Uncles <$> head (m_queue q).
(** [remove(_hash)] *)
Definition q_remove (hash : Z) (q : SizedBlockQueue VerifiedBlock) : bool * SizedBlockQueue VerifiedBlock :=
  let (removed, q) := removeIf (sha3UnclesEquals hash) q in (match removed with [] => false | _ => true end, q).
(** [replace(_hash, _t)] *)
Definition q_replace (hash : Z) (t : VerifiedBlock) (q : SizedBlockQueue VerifiedBlock) : bool * SizedBlockQueue VerifiedBlock :=
  match list_find (fun b => sha3UnclesEquals hash b = true) (m_queue q) with
  | None => (false, q)
  | Some (i, b) => (true, mkQueue (<[i := t]> (m_queue q)) (u64 (u64 (q_size q - lenZ (blockData b)) + lenZ (blockData t))))
  end.

(** ** The state *)

Inductive queue_signal : Set := onReady | onRoomAvailable.

Record BlockQueue := mkBlockQueue {
  m_drainingSet : gset Z;
  m_readySet : gset Z;
  m_unknownSet : gset Z;
  m_unknown : SizedBlockMap;
  m_knownBad : gset Z;
  m_future : SizedBlockMap;
  m_verified : SizedBlockQueue VerifiedBlock;
  m_verifying : SizedBlockQueue VerifiedBlock;
  m_unverified : SizedBlockQueue UnverifiedBlock;
  m_difficulty : Z;
  m_drainingDifficulty : Z;
  m_deleting : bool;
  jobs : list UnverifiedBlock;
  q_signals : list queue_signal
}.

Definition new_BlockQueue : BlockQueue :=
  mkBlockQueue ∅ ∅ ∅ empty_map ∅ empty_map empty_queue empty_queue empty_queue 0 0 false [] [].

Definition set_draining (s : gset Z) (d : Z) (q : BlockQueue) : BlockQueue :=
  mkBlockQueue s (m_readySet q) (m_unknownSet q) (m_unknown q) (m_knownBad q) (m_future q) (m_verified q) (m_verifying q) (m_unverified q)
    (m_difficulty q) d (m_deleting q) (jobs q) (q_signals q).
Definition set_ready (s : gset Z) (q : BlockQueue) : BlockQueue :=
  mkBlockQueue (m_drainingSet q) s (m_unknownSet q) (m_unknown q) (m_knownBad q) (m_future q) (m_verified q) (m_verifying q) (m_unverified q)
    (m_difficulty q) (m_drainingDifficulty q) (m_deleting q) (jobs q) (q_signals q).
Definition set_unknown (s : gset Z) (m : SizedBlockMap) (q : BlockQueue) : BlockQueue :=
  mkBlockQueue (m_drainingSet q) (m_readySet q) s m (m_knownBad q) (m_future q) (m_verified q) (m_verifying q) (m_unverified q)
    (m_difficulty q) (m_drainingDifficulty q) (m_deleting q) (jobs q) (q_signals q).
Definition set_bad (s : gset Z) (q : BlockQueue) : BlockQueue :=
  mkBlockQueue (m_drainingSet q) (m_readySet q) (m_unknownSet q) (m_unknown q) s (m_future q) (m_verified q) (m_verifying q) (m_unverified q)
    (m_difficulty q) (m_drainingDifficulty q) (m_deleting q) (jobs q) (q_signals q).
Definition set_future (m : SizedBlockMap) (q : BlockQueue) : BlockQueue :=
  mkBlockQueue (m_drainingSet q) (m_readySet q) (m_unknownSet q) (m_unknown q) (m_knownBad q) m (m_verified q) (m_verifying q) (m_unverified q)
    (m_difficulty q) (m_drainingDifficulty q) (m_deleting q) (jobs q) (q_signals q).
Definition set_verified (v : SizedBlockQueue VerifiedBlock) (q : BlockQueue) : BlockQueue :=
  mkBlockQueue (m_drainingSet q) (m_readySet q) (m_unknownSet q) (m_unknown q) (m_knownBad q) (m_future q) v (m_verifying q) (m_unverified q)
    (m_difficulty q) (m_drainingDifficulty q) (m_deleting q) (jobs q) (q_signals q).
Definition set_verifying (v : SizedBlockQueue VerifiedBlock) (q : BlockQueue) : BlockQueue :=
  mkBlockQueue (m_drainingSet q) (m_readySet q) (m_unknownSet q) (m_unknown q) (m_knownBad q) (m_future q) (m_verified q) v (m_unverified q)
    (m_difficulty q) (m_drainingDifficulty q) (m_deleting q) (jobs q) (q_signals q).
Definition set_unverified (u : SizedBlockQueue UnverifiedBlock) (q : BlockQueue) : BlockQueue :=
  mkBlockQueue (m_drainingSet q) (m_readySet q) (m_unknownSet q) (m_unknown q) (m_knownBad q) (m_future q) (m_verified q) (m_verifying q) u
    (m_difficulty q) (m_drainingDifficulty q) (m_deleting q) (jobs q) (q_signals q).
Definition set_difficulty (d : Z) (q : BlockQueue) : BlockQueue :=
  mkBlockQueue (m_drainingSet q) (m_readySet q) (m_unknownSet q) (m_unknown q) (m_knownBad q) (m_future q) (m_verified q) (m_verifying q) (m_unverified q)
    d (m_drainingDifficulty q) (m_deleting q) (jobs q) (q_signals q).
Definition set_jobs (l : list UnverifiedBlock) (q : BlockQueue) : BlockQueue :=
  mkBlockQueue (m_drainingSet q) (m_readySet q) (m_unknownSet q) (m_unknown q) (m_knownBad q) (m_future q) (m_verified q) (m_verifying q) (m_unverified q)
    (m_difficulty q) (m_drainingDifficulty q) (m_deleting q) l (q_signals q).
Definition notify (s : queue_signal) (q : BlockQueue) : BlockQueue :=
  mkBlockQueue (m_drainingSet q) (m_readySet q) (m_unknownSet q) (m_unknown q) (m_knownBad q) (m_future q) (m_verified q) (m_verifying q) (m_unverified q)
    (m_difficulty q) (m_drainingDifficulty q) (m_deleting q) (jobs q) (q_signals q ++ [s]).
Definition stop (q : BlockQueue) : BlockQueue :=
  mkBlockQueue (m_drainingSet q) (m_readySet q) (m_unknownSet q) (m_unknown q) (m_knownBad q) (m_future q) (m_verified q) (m_verifying q) (m_unverified q)
    (m_difficulty q) (m_drainingDifficulty q) true (jobs q) (q_signals q).

(** What the verifiers work on and what they know about bad blocks is kept. *)
Definition clear (q : BlockQueue) : BlockQueue :=
  mkBlockQueue ∅ ∅ ∅ empty_map (m_knownBad q) empty_map empty_queue empty_queue empty_queue 0 0 (m_deleting q) (jobs q) (q_signals q).

Definition knownSize (q : BlockQueue) : Z := u64 (q_size (m_verified q) + q_size (m_unverified q) + q_size (m_verifying q)).
Definition knownCount (q : BlockQueue) : Z := q_count (m_verified q) + q_count (m_unverified q) + q_count (m_verifying q).
Definition knownFull (q : BlockQueue) : bool := (c_maxKnownSize <? knownSize q) || (c_maxKnownCount <? knownCount q).
Definition unknownSize (q : BlockQueue) : Z := u64 (m_size (m_future q) + m_size (m_unknown q)).
Definition unknownCount (q : BlockQueue) : Z := m_count (m_future q) + m_count (m_unknown q).
Definition unknownFull (q : BlockQueue) : bool := (c_maxUnknownSize <? unknownSize q) || (c_maxUnknownCount <? unknownCount q).

(** What the queue checks of itself in a debug build. *)
Definition invariants (q : BlockQueue) : bool := Z.of_nat (size (m_readySet q)) =? knownCount q.

Inductive QueueStatus : Set := Ready | Importing | StatusUnknownParent | Bad | StatusUnknown.
Definition blockStatus (h : Z) (q : BlockQueue) : QueueStatus :=
  if decide (h ∈ m_readySet q) then Ready
  else if decide (h ∈ m_drainingSet q) then Importing
  else if decide (h ∈ m_unknownSet q) then StatusUnknownParent
  else if decide (h ∈ m_knownBad q) then Bad
  else StatusUnknown.

Record BlockQueueStatus := mkStatus {
  importing : Z; verified : Z; verifying : Z; unverified : Z; future : Z; unknown : Z; bad : Z
}.
Definition status (q : BlockQueue) : BlockQueueStatus :=
  mkStatus (Z.of_nat (size (m_drainingSet q))) (q_count (m_verified q)) (q_count (m_verifying q)) (q_count (m_unverified q))
    (m_count (m_future q)) (m_count (m_unknown q)) (Z.of_nat (size (m_knownBad q))).
Definition items (q : BlockQueue) : Z * Z := (u32 (Z.of_nat (size (m_readySet q))), u32 (Z.of_nat (size (m_unknownSet q)))).
Definition isActive (q : BlockQueue) : bool :=
  negb (bool_decide (m_readySet q = ∅) && bool_decide (m_drainingSet q = ∅) &&
        q_isEmpty (m_verified q) && q_isEmpty (m_verifying q) && q_isEmpty (m_unverified q)).

(** ** Operations *)

Section Queue.
  Context `{Sha3} `{!AecashLib} `{!Secp256k1} (e : SealEngine).
  Notation R := (result header_error).

(** [hash()] of a header that was read: it remembers the hash of its bytes, and
    nothing has to be written to compute one. *)
Definition info_hash (bi : BlockHeader) : Z := match hash WithSeal bi with Value x => x.1 | _ => 0 end.
Definition vb_hash (b : VerifiedBlock) : Z := info_hash (vb_info b).

(** [drainVerified_WITH_BOTH_LOCKS]: the blocks at the front that are verified,
    at most [fuel] of them. *)
Definition accept (b : VerifiedBlock) (q : BlockQueue) : BlockQueue :=
  if decide (vb_parentHash b ∈ m_knownBad q) then
    set_bad ({[vb_hash b]} ∪ m_knownBad q) (set_ready (m_readySet q ∖ {[vb_hash b]}) q)
  else set_verified (q_enqueue b (m_verified q)) q.
Fixpoint drain_loop (fuel : nat) (q : BlockQueue) : BlockQueue :=
  match fuel, q_dequeue (m_verifying q) with
  | S f, Some (b, v) => match vb_blockData b with [] => q | _ => drain_loop f (accept b (set_verifying v q)) end
  | _, _ => q
  end.
Definition drainVerified (q : BlockQueue) : BlockQueue := drain_loop (length (m_queue (m_verifying q))) q.

(** [verifierBody], up to [verifyBlock]; a verifier that has nothing to do waits. *)
Definition take_work (q : BlockQueue) : option BlockQueue :=
  if m_deleting q then None
  else
    match q_dequeue (m_unverified q) with
    | None => None
    | Some (work, u) =>
        Some (set_jobs (jobs q ++ [work]) (set_verifying (q_enqueue (being_verified work) (m_verifying q)) (set_unverified u q)))
    end.

(** The rest of it: the block was bad, or it is the next, or others are before it. *)
Definition drop_failed (work : UnverifiedBlock) (q : BlockQueue) : BlockQueue :=
  let q := set_ready (m_readySet q ∖ {[ub_hash work]}) q in
  let q := set_bad ({[ub_hash work]} ∪ m_knownBad q) q in
  set_verifying (q_remove (ub_hash work) (m_verifying q)).2 q.
Definition verify_failed (work : UnverifiedBlock) (q : BlockQueue) : BlockQueue := drainVerified (drop_failed work q).
Definition verify_passed (work : UnverifiedBlock) (res : VerifiedBlock) (q : BlockQueue) : BlockQueue :=
  match q_dequeue (m_verifying q) with
  | Some (b, v) =>
      if vb_sha3Uncles b =? ub_hash work then notify onReady (drainVerified (accept res (set_verifying v q)))
      else set_verifying (q_replace (ub_hash work) res (m_verifying q)).2 q
  | None => set_verifying (q_replace (ub_hash work) res (m_verifying q)).2 q
  end.
(** The verifier with the job [i] is done. *)
Definition finish_work (chain : ChainView) (i : nat) (q : BlockQueue) : R BlockQueue :=
  work <- rget (jobs q !! i) ;;
  let q := set_jobs (delete i (jobs q)) q in
  match verifyBlock e chain OutOfOrderChecks (ub_blockData work) with
  | Value v => Value (verify_passed work (mkVerifiedBlock v (ub_blockData work)) q)
  | Error _ => Value (verify_failed work q)
  | OutOfBounds => OutOfBounds
  | OutOfFuel => OutOfFuel
  end.

(** [collectUnknownBad_WITH_BOTH_LOCKS]: the blocks that wait for a bad one are
    bad, and those that wait for them. *)
Definition collect_fuel (q : BlockQueue) : nat := S (length (m_map (m_unknown q))).
Definition note_unknown_bad (q : BlockQueue) (newBad : Z * list Z) : BlockQueue :=
  set_bad ({[newBad.1]} ∪ m_knownBad q) (set_unknown (m_unknownSet q ∖ {[newBad.1]}) (m_unknown q) q).
Fixpoint collect_loop (fuel : nat) (badQueue : list Z) (q : BlockQueue) : R BlockQueue :=
  match badQueue with
  | [] => Value q
  | b :: badQueue =>
      match fuel with
      | O => OutOfFuel
      | S f =>
          let (removed, m) := removeByKeyEqual b (m_unknown q) in
          collect_loop f (badQueue ++ map fst removed) (foldl note_unknown_bad (set_unknown (m_unknownSet q) m q) removed)
      end
  end.
Definition collectUnknownBad (b : Z) (q : BlockQueue) : R BlockQueue := collect_loop (collect_fuel q) [b] q.

(** [updateBad_WITH_LOCK]: what was removed from the queues is bad. *)
Definition is_bad (q : BlockQueue) (h : Z) : bool := bool_decide (h ∈ m_knownBad q).
Fixpoint note_bad (l : list Z) (q : BlockQueue) : R BlockQueue :=
  match l with
  | [] => Value q
  | h :: l => q <- collectUnknownBad h (set_ready (m_readySet q ∖ {[h]}) (set_bad ({[h]} ∪ m_knownBad q) q)) ;; note_bad l q
  end.
Definition verified_bad (q : BlockQueue) (b : VerifiedBlock) : bool := is_bad q (vb_parentHash b) || is_bad q (vb_hash b).
Definition unverified_bad (q : BlockQueue) (b : UnverifiedBlock) : bool := is_bad q (ub_parentHash b) || is_bad q (ub_hash b).
Definition verifying_bad (q : BlockQueue) (b : VerifiedBlock) : bool := is_bad q (vb_parentHash b) || is_bad q (vb_sha3Uncles b).
Definition verifying_hash (b : VerifiedBlock) : Z := if negb (lenZ (vb_blockData b) =? 0) then vb_hash b else vb_sha3Uncles b.
Definition update_pass (q : BlockQueue) : R (bool * BlockQueue) :=
  let (badVerified, v) := removeIf (verified_bad q) (m_verified q) in
  q <- note_bad (map vb_hash badVerified) (set_verified v q) ;;
  let (badUnverified, u) := removeIf (unverified_bad q) (m_unverified q) in
  q <- note_bad (map ub_hash badUnverified) (set_unverified u q) ;;
  let (badVerifying, w) := removeIf (verifying_bad q) (m_verifying q) in
  q <- note_bad (map verifying_hash badVerifying) (set_verifying w q) ;;
  Value (negb (bool_decide (badVerified = [] /\ badUnverified = [] /\ badVerifying = [])), q).
Fixpoint update_loop (fuel : nat) (q : BlockQueue) : R BlockQueue :=
  match fuel with
  | O => OutOfFuel
  | S f => x <- update_pass q ;; if fst x : bool then update_loop f (snd x) else Value (snd x)
  end.
Definition update_fuel (q : BlockQueue) : nat :=
  S (length (m_queue (m_verified q)) + length (m_queue (m_unverified q)) + length (m_queue (m_verifying q))).
Definition updateBad (b : Z) (q : BlockQueue) : R BlockQueue :=
  q <- collectUnknownBad b q ;; update_loop (update_fuel q) q.

(** [noteReady_WITH_LOCK]: the blocks that wait for [good] can be verified, and
    those that wait for them. *)
Definition note_ready (parent : Z) (q : BlockQueue) (newReady : Z * list Z) : BlockQueue :=
  let q := set_unverified (q_enqueue (mkUnverifiedBlock newReady.1 parent newReady.2) (m_unverified q)) q in
  set_ready ({[newReady.1]} ∪ m_readySet q) (set_unknown (m_unknownSet q ∖ {[newReady.1]}) (m_unknown q) q).
Fixpoint ready_loop (fuel : nat) (goodQueue : list Z) (q : BlockQueue) : R BlockQueue :=
  match goodQueue with
  | [] => Value q
  | parent :: goodQueue =>
      match fuel with
      | O => OutOfFuel
      | S f =>
          let (removed, m) := removeByKeyEqual parent (m_unknown q) in
          ready_loop f (goodQueue ++ map fst removed) (foldl (note_ready parent) (set_unknown (m_unknownSet q) m q) removed)
      end
  end.
Definition noteReady (good : Z) (q : BlockQueue) : R BlockQueue := ready_loop (collect_fuel q) [good] q.

(** [retryAllUnknown] *)
Fixpoint retry_loop (fuel : nat) (q : BlockQueue) : R BlockQueue :=
  match firstKey (m_unknown q) with
  | None => Value q
  | Some parent =>
      match fuel with
      | O => OutOfFuel
      | S f =>
          let (removed, m) := removeByKeyEqual parent (m_unknown q) in
          retry_loop f (foldl (note_ready parent) (set_unknown (m_unknownSet q) m q) removed)
      end
  end.
Definition retryAllUnknown (q : BlockQueue) : R BlockQueue := retry_loop (length (m_map (m_unknown q))) q.

(** [import]; [now] is the time. *)
Definition parent_ready (chain : ChainView) (parent : Z) (q : BlockQueue) : bool :=
  bool_decide (parent ∈ m_readySet q) || bool_decide (parent ∈ m_drainingSet q) || isKnown chain parent.
Definition import_known (h : Z) (q : BlockQueue) : bool :=
  bool_decide (h ∈ m_readySet q) || bool_decide (h ∈ m_drainingSet q) || bool_decide (h ∈ m_unknownSet q) || is_bad q h.

Definition import_future (chain : ChainView) (h : Z) (bi : BlockHeader) (block : list Z) (q : BlockQueue) : ImportResult * BlockQueue :=
  let q := set_future (map_insert (h_timestamp bi) h block (m_future q)) q in
  let q := set_difficulty (u256 (m_difficulty q + h_difficulty bi)) q in
  (if parent_ready chain (h_parentHash bi) q then FutureTimeKnown else FutureTimeUnknown, q).

Definition import_now (chain : ChainView) (h : Z) (bi : BlockHeader) (block : list Z) (q : BlockQueue) : R (ImportResult * BlockQueue) :=
  let parent := h_parentHash bi in
  if is_bad q parent then
    q <- updateBad (info_hash bi) (set_bad ({[info_hash bi]} ∪ m_knownBad q) q) ;;
    Value (BadChain, q)
  else if negb (parent_ready chain parent q) then
    let q := set_unknown ({[h]} ∪ m_unknownSet q) (map_insert parent h block (m_unknown q)) q in
    Value (UnknownParent, set_difficulty (u256 (m_difficulty q + h_difficulty bi)) q)
  else
    let q := set_unverified (q_enqueue (mkUnverifiedBlock h parent block) (m_unverified q)) q in
    let q := set_ready ({[h]} ∪ m_readySet q) q in
    let q := set_difficulty (u256 (m_difficulty q + h_difficulty bi)) q in
    q <- noteReady h q ;;
    Value (Success, q).

Definition import (chain : ChainView) (now : Z) (block : list Z) (isOurs : bool) (q : BlockQueue) : R (ImportResult * BlockQueue) :=
  h <- headerHashFromBlock block ;;
  if import_known h q then Value (AlreadyKnown, q)
  else
    match verifyBlock e chain PostGenesis block with
    | Error _ => Value (Malformed, q)
    | OutOfBounds => OutOfBounds
    | OutOfFuel => OutOfFuel
    | Value v =>
        let bi := vr_info v in
        if isKnown chain h then Value (AlreadyInChain, q)
        else if (now <? h_timestamp bi) && negb isOurs then Value (import_future chain h bi block q)
        else import_now chain h bi block q
    end.

(** [tick] *)
Fixpoint import_all (chain : ChainView) (now : Z) (todo : list (Z * list Z)) (q : BlockQueue) : R BlockQueue :=
  match todo with
  | [] => Value q
  | b :: todo => x <- import chain now b.2 false q ;; import_all chain now todo (snd x)
  end.
(** The blocks from the future whose time has come.  The lock is given back before
    they are imported: these imports are calls like any others, in between which
    other threads may come. *)
Definition past_future (now : Z) (q : BlockQueue) : list (Z * list Z) * BlockQueue :=
  match firstKey (m_future q) with
  | None => ([], q)
  | Some first =>
      if now <? first then ([], q)
      else let (todo, m) := removeByKeyNotGreater now (m_future q) in (todo, set_future m q)
  end.
Definition tick (chain : ChainView) (now : Z) (q : BlockQueue) : R BlockQueue :=
  let (todo, q) := past_future now q in import_all chain now todo q.

(** [drain]: what it gives out, unless blocks are still draining. *)
Definition note_draining (q : BlockQueue) (b : VerifiedBlock) : BlockQueue :=
  let h := vb_hash b in
  set_ready (m_readySet q ∖ {[h]})
    (set_draining ({[h]} ∪ m_drainingSet q) (u256 (m_drainingDifficulty q + h_difficulty (vb_info b))) q).
Definition drain_now (max : Z) (q : BlockQueue) : option (list VerifiedBlock) * BlockQueue :=
  if bool_decide (m_drainingSet q = ∅) then
    let (out, v) := dequeueMultiple (Z.min max (u32 (q_count (m_verified q)))) (m_verified q) in
    (Some out, foldl note_draining (set_verified v (set_draining (m_drainingSet q) 0 q)) out)
  else (None, q).
Definition drain (max : Z) (q : BlockQueue) : option (list VerifiedBlock) * BlockQueue :=
  let (out, q') := drain_now max q in
  (out, if knownFull q && negb (knownFull q') then notify onRoomAvailable q' else q').

(** [doneDrain] *)
Fixpoint update_all (l : list Z) (q : BlockQueue) : R BlockQueue :=
  match l with [] => Value q | b :: l => q <- updateBad b q ;; update_all l q end.
Definition doneDrain (bad : list Z) (q : BlockQueue) : R (bool * BlockQueue) :=
  let q := set_difficulty (u256 (m_difficulty q - m_drainingDifficulty q)) (set_draining ∅ 0 q) in
  q <- (match bad with [] => Value q | _ => update_all bad (set_bad (m_knownBad q ∪ list_to_set bad) q) end) ;;
  Value (negb (bool_decide (m_readySet q = ∅)), q).
End Queue.
