(* ===== verification/BlockQueueSpec.v ===== *)
(** * The blocks of the queue

    What holds of the queue of blocks between any two of its steps: where a block
    stands, in which order, and what is known about it. *)
From stdpp Require Import base list gmap fin_sets.
From Stdlib Require Import ZArith Lia.
From S2P Require Import Prelude Words Result Rlp RlpSpec Account Schedule Transaction SealEngine BlockHeader Ethash BlockChain BlockQueue.
Open Scope Z_scope.

(** ** A line of blocks

    An entry is the hash of a block with the hash of its parent. *)
Notation entry := (Z * Z)%type.

(** Each parent satisfies [P] or is earlier in the line. *)
Fixpoint ordered (P : Z -> Prop) (l : list entry) : Prop :=
  match l with [] => True | x :: l => P x.2 /\ ordered (fun p => P p \/ p = x.1) l end.

Lemma ordered_mono (P Q : Z -> Prop) l : (forall p, P p -> Q p) -> ordered P l -> ordered Q l.
Proof. revert P Q. induction l as [|x l IH]; intros P Q HPQ; [done|]. intros [Hx Hl]. split; [auto|]. eapply IH; [|exact Hl]. naive_solver. Qed.

Lemma ordered_app P l1 l2 : ordered P (l1 ++ l2) <-> ordered P l1 /\ ordered (fun p => P p \/ p ∈ l1.*1) l2.
Proof.
  revert P. induction l1 as [|x l1 IH]; intros P; cbn [app ordered].
  - split; [intros Hl; split; [done|]; eapply ordered_mono; [|exact Hl]; auto|]. intros [_ Hl]. eapply ordered_mono; [|exact Hl].
    intros p [?|Hp]; [done|]. by apply elem_of_nil in Hp.
  - rewrite IH. assert (forall p, ((P p \/ p = x.1) \/ p ∈ l1.*1) <-> (P p \/ p ∈ (x :: l1).*1)) as Heq.
    { intros p. rewrite fmap_cons, elem_of_cons. tauto. }
    split; intros (H1 & H2); [destruct H2 as [H2 H3]|destruct H1 as [H1 H3]]; split_and!; try done; eapply ordered_mono; try done; intros p; apply Heq.
Qed.

Lemma ordered_on (P Q : Z -> Prop) l : (forall x, x ∈ l -> P x.2 -> Q x.2) -> ordered P l -> ordered Q l.
Proof.
  revert P Q. induction l as [|x l IH]; intros P Q HPQ; [done|]. intros [Hx Hl]. split; [apply HPQ; [left|done]|]. eapply IH; [|exact Hl]. cbn.
  intros y Hy [?|?]; [left; apply HPQ; [by right|done]|by right].
Qed.

(** What the definition says of each entry. *)
Lemma ordered_split P l1 x l2 : ordered P (l1 ++ x :: l2) -> P x.2 \/ x.2 ∈ l1.*1.
Proof. rewrite ordered_app. intros [_ [Hx _]]. exact Hx. Qed.

Lemma ordered_drop P l1 x l2 : ordered P (l1 ++ x :: l2) -> ordered (fun p => P p \/ p = x.1) (l1 ++ l2).
Proof.
  rewrite !ordered_app. intros [H1 [_ H2]]. split; [eapply ordered_mono; [|done]; auto|]. eapply ordered_mono; [|exact H2]. naive_solver.
Qed.

(** The line with the four sets of the queue: what is ready, draining, waiting
    and bad. *)
Record lined (K : Z -> Prop) (l : list entry) (R D U B : gset Z) : Prop := {
  ln_nodup : NoDup l.*1;
  ln_ready : forall h, h ∈ R <-> h ∈ l.*1;
  ln_RD : R ## D;
  ln_RU : R ## U;
  ln_RB : R ## B;
  ln_DU : D ## U;
  ln_DB : D ## B;
  ln_UB : U ## B;
  ln_ordered : ordered (fun p => K p \/ p ∈ D \/ p ∈ B) l
}.

(** Disjointness of sets, from that of others. *)
Ltac disjoint := match goal with |- _ ## _ => idtac end;
  repeat match goal with H : NoDup _ |- _ => clear H | H : ordered _ _ |- _ => clear H | H : forall h, h ∈ _ <-> _ |- _ => clear H end; set_solver.

Section Lined.
  Context (K : Z -> Prop).

Lemma lined_size l R D U B : lined K l R D U B -> size R = length l.
Proof.
  intros []. assert (R = list_to_set l.*1) as -> by (apply set_eq; intros h; rewrite elem_of_list_to_set; auto).
  rewrite size_list_to_set by done. apply length_fmap.
Qed.

Lemma lined_mono K' l R D U B : (forall p, K p -> K' p) -> lined K l R D U B -> lined K' l R D U B.
Proof. intros HK []. constructor; try done. eapply ordered_mono; [|done]. naive_solver. Qed.

Lemma ids_middle (l1 l2 : list entry) x : NoDup (l1 ++ x :: l2).*1 -> x.1 ∉ (l1 ++ l2).*1 /\ NoDup (l1 ++ l2).*1.
Proof. rewrite fmap_app, fmap_cons. intros Hnd. rewrite <- Permutation_middle, <- fmap_app in Hnd. by apply NoDup_cons in Hnd. Qed.

Lemma lined_drop l1 x l2 R D U B : lined K (l1 ++ x :: l2) R D U B -> lined K (l1 ++ l2) (R ∖ {[x.1]}) D U ({[x.1]} ∪ B).
Proof.
  intros []. destruct (ids_middle _ _ _ ln_nodup0) as [Hx Hnd].
  assert (x.1 ∈ R) by (apply ln_ready0; rewrite fmap_app, fmap_cons, elem_of_app; right; left).
  constructor; try done; try disjoint.
  - intros h. rewrite elem_of_difference, ln_ready0, elem_of_singleton. rewrite !fmap_app, fmap_cons in *. rewrite elem_of_app, elem_of_cons in *.
    rewrite elem_of_app. split; [tauto|]. intros Hh. split; [tauto|]. by intros ->.
  - eapply ordered_mono; [|by apply ordered_drop]. intros p. rewrite elem_of_union, elem_of_singleton. tauto.
Qed.

Lemma lined_push l R D U U' B h p : lined K l R D U B -> h ∉ R -> h ∉ D -> h ∉ B -> h ∉ U' -> (forall x, x ∈ U' -> x ∈ U) ->
  K p \/ p ∈ D \/ p ∈ B \/ p ∈ R -> lined K (l ++ [(h, p)]) ({[h]} ∪ R) D U' B.
Proof.
  intros [] HR HD HB HU' HU Hp. constructor; try disjoint.
  - rewrite fmap_app. apply NoDup_app. split_and!; [done| |apply NoDup_singleton]. cbn. intros x Hx ->%list_elem_of_singleton. by apply HR, ln_ready0.
  - intros x. rewrite fmap_app, elem_of_union, elem_of_app, elem_of_singleton, ln_ready0. cbn. rewrite list_elem_of_singleton. tauto.
  - apply ordered_app. split; [done|]. cbn. split; [|done]. rewrite <- ln_ready0. naive_solver.
Qed.

Lemma lined_drain x l R D U B : lined K (x :: l) R D U B -> lined K l (R ∖ {[x.1]}) ({[x.1]} ∪ D) U B.
Proof.
  intros []. rewrite fmap_cons in *. apply NoDup_cons in ln_nodup0 as [Hx Hnd]. assert (x.1 ∈ R) by (apply ln_ready0; by left).
  constructor; try done; try disjoint.
  - intros h. rewrite elem_of_difference, ln_ready0, elem_of_singleton, elem_of_cons. split; [tauto|]. intros Hh. split; [tauto|]. by intros ->.
  - destruct ln_ordered0 as [_ Ho]. eapply ordered_mono; [|exact Ho]. intros p. rewrite elem_of_union, elem_of_singleton. tauto.
Qed.

Lemma lined_wait l R D U B h : lined K l R D U B -> h ∉ R -> h ∉ D -> h ∉ B -> lined K l R D ({[h]} ∪ U) B.
Proof. intros [] ???. constructor; try done; disjoint. Qed.

(** The drained blocks are in the chain, or bad. *)
Lemma lined_done l R D U B B' : lined K l R D U B -> B' ⊆ D -> (forall h, h ∈ D -> K h \/ h ∈ B') -> lined K l R ∅ U (B ∪ B').
Proof. intros [] HB' HD. constructor; try done; try disjoint. eapply ordered_mono; [|done]. intros p. specialize (HD p). cbn. rewrite elem_of_union. tauto. Qed.

Lemma lined_blame l R D U B h : lined K l R D U B -> h ∉ R -> h ∉ D -> h ∉ U -> lined K l R D U ({[h]} ∪ B).
Proof. intros [] ???. constructor; try done; try disjoint. eapply ordered_mono; [|done]. intros p. rewrite elem_of_union. tauto. Qed.

(** Blocks that waited are bad. *)
Lemma lined_waste l R D U B W : lined K l R D U B -> W ⊆ U -> lined K l R D (U ∖ W) (W ∪ B).
Proof. intros [] HW. constructor; try done; try disjoint. eapply ordered_mono; [|done]. intros p. rewrite elem_of_union. tauto. Qed.

Lemma lined_drops l1 xs l2 R D U B : lined K (l1 ++ xs ++ l2) R D U B -> lined K (l1 ++ l2) (R ∖ list_to_set xs.*1) D U (list_to_set xs.*1 ∪ B).
Proof.
  revert R B. induction xs as [|x xs IH]; intros R B Hl; cbn [app fmap list_fmap list_to_set] in *.
  - assert (R ∖ ∅ = R) as -> by set_solver. assert (∅ ∪ B = B) as -> by set_solver. done.
  - apply lined_drop, IH in Hl. rewrite difference_difference_l_L in Hl. assert ({[x.1]} ∪ list_to_set xs.*1 ∪ B = list_to_set xs.*1 ∪ ({[x.1]} ∪ B)) as -> by set_solver. done.
Qed.
End Lined.

(** ** The queue *)

Section Core.
  Context `{Sha3} `{!AecashLib} `{!Secp256k1} (e : SealEngine) (blocks : list Z -> Prop).

(** The hash of a block that arrives with a header that can be read. *)
Definition arrived (h : Z) : Prop :=
  exists b bi, blocks b /\ headerHashFromBlock b = Value h /\ parse_header b BlockData 0 = Value bi.

(** What Keccak-256 is trusted for: no block that arrives has the hash zero, and
    no header has the hash of the list of uncles of a verified block.  The bytes
    differ, for the first item of a header is a string and that of a list of uncles
    is a list; and that [h_sha3Uncles] is the hash of these bytes [verifyBlock] has
    checked. *)
Record hashes_apart : Prop := {
  ha_nonzero : forall b h, blocks b -> headerHashFromBlock b = Value h -> h <> 0;
  ha_uncles : forall h b chain v, arrived h -> blocks b -> verifyBlock e chain OutOfOrderChecks b = Value v -> h_sha3Uncles (vr_info v) <> h
}.

(** A block whose verification lies ahead, and one that was verified. *)
Definition sound (w : UnverifiedBlock) : Prop :=
  blocks (ub_blockData w) /\ headerHashFromBlock (ub_blockData w) = Value (ub_hash w) /\
  exists bi, parse_header (ub_blockData w) BlockData 0 = Value bi /\ h_parentHash bi = ub_parentHash w.
Definition checked (b : VerifiedBlock) : Prop :=
  blocks (vb_blockData b) /\ headerHashFromBlock (vb_blockData b) = Value (h_hash (vb_info b)) /\
  exists chain, verifyBlock e chain OutOfOrderChecks (vb_blockData b) = Value (vb_verified b).

Lemma checked_nonempty b : checked b -> vb_blockData b <> [].
Proof.
  intros (_ & _ & chain & Hv) E. rewrite E in Hv. unfold verifyBlock, verify_phase1 in Hv.
  assert (parse_header [] BlockData 0 = Error InvalidBlockFormat) as E' by reflexivity. by rewrite E' in Hv.
Qed.

Lemma info_hash_known bi : h_hash bi <> 0 -> info_hash bi = h_hash bi.
Proof. unfold info_hash, hash. intros Hh. by destruct (Z.eqb_spec (h_hash bi) 0). Qed.

Lemma checked_hash b : hashes_apart -> checked b -> headerHashFromBlock (vb_blockData b) = Value (vb_hash b).
Proof. intros Ha (Hb & Hh & _). unfold vb_hash. by rewrite info_hash_known by (by eapply ha_nonzero). Qed.

(** What is verified is the block that was queued. *)
Lemma sound_checked chain w v : sound w -> verifyBlock e chain OutOfOrderChecks (ub_blockData w) = Value v ->
  let b := mkVerifiedBlock v (ub_blockData w) in checked b /\ h_hash (vb_info b) = ub_hash w /\ vb_parentHash b = ub_parentHash w.
Proof.
  intros (Hb & Hh & bi & Hbi & Hp) Hv b. destruct (verifyBlock_header e chain _ _ _ _ Hv Hh) as (bi' & Hbi' & E1 & E2 & _).
  assert (bi' = bi) as -> by congruence. split_and!; [|exact E1|unfold vb_parentHash, vb_info; cbn [b vb_verified]; congruence].
  split; [done|]. split; [|by exists chain]. exact (eq_trans Hh (f_equal _ (eq_sym E1))).
Qed.

Lemma checked_sound chain w v : hashes_apart -> sound w -> verifyBlock e chain OutOfOrderChecks (ub_blockData w) = Value v ->
  let b := mkVerifiedBlock v (ub_blockData w) in checked b /\ vb_hash b = ub_hash w /\ vb_parentHash b = ub_parentHash w.
Proof.
  intros Ha Hw Hv b. destruct (sound_checked chain w v Hw Hv) as (Hc & E & Ep). split_and!; [done| |done].
  assert (ub_hash w <> 0) as Hn by (destruct Hw as (? & ? & _); by eapply ha_nonzero).
  unfold vb_hash. rewrite info_hash_known; [exact E|]. intros Ez. apply Hn. exact (eq_trans (eq_sym E) Ez).
Qed.

(** A verified block is never taken for one that is being verified. *)
Lemma checked_apart b w : hashes_apart -> checked b -> sound w -> sha3UnclesEquals (ub_hash w) b = false.
Proof.
  intros Ha (Hb & _ & chain & Hv) (Hbw & Hhw & bi & Hbi & _). apply Z.eqb_neq. apply (ha_uncles Ha (ub_hash w) _ _ _ ltac:(by exists (ub_blockData w), bi) Hb Hv).
Qed.

Lemma checked_arrived b : hashes_apart -> checked b -> arrived (vb_hash b).
Proof.
  intros Ha Hc. pose proof (checked_hash b Ha Hc) as Hh. destruct Hc as (Hb & Hh' & chain & Hv).
  destruct (verifyBlock_header e chain _ _ _ _ Hv Hh) as (bi & Hbi & _). by exists (vb_blockData b), bi.
Qed.

Definition v_entry (b : VerifiedBlock) : entry := (vb_hash b, vb_parentHash b).
Definition w_entry (b : VerifiedBlock) : entry := (verifying_hash b, vb_parentHash b).
Definition u_entry (b : UnverifiedBlock) : entry := (ub_hash b, ub_parentHash b).
(** The blocks on their way, those that leave first in front. *)
Definition pipeline (q : BlockQueue) : list entry :=
  map v_entry (m_queue (m_verified q)) ++ map w_entry (m_queue (m_verifying q)) ++ map u_entry (m_queue (m_unverified q)).

Lemma w_entry_being w : w_entry (being_verified w) = u_entry w.
Proof. done. Qed.

Lemma w_entry_checked b : checked b -> w_entry b = v_entry b.
Proof.
  intros Hc%checked_nonempty. unfold w_entry, v_entry, verifying_hash. destruct (vb_blockData b) as [|x d]; [done|].
  rewrite lenZ_cons. pose proof (lenZ_nonneg d). by destruct (Z.eqb_spec (1 + lenZ d) 0); [lia|].
Qed.

(** An entry of [m_unknown]: the parent with what waits for it. *)
Notation waiting := (Z * (Z * list Z))%type.
Definition waiting_hash (x : waiting) : Z := x.2.1.
Definition waiting_block (x : waiting) : UnverifiedBlock := mkUnverifiedBlock x.2.1 x.1 x.2.2.

Definition in_progress (b : VerifiedBlock) : bool := match vb_blockData b with [] => true | _ => false end.

(** Each block that is being verified is the job of a verifier; the other jobs are
    stale, those of blocks that were found to be bad and removed. *)
Definition jobs_matched (js : list UnverifiedBlock) (working : list VerifiedBlock) (B : gset Z) : Prop :=
  exists live stale, js ≡ₚ live ++ stale /\ working ≡ₚ map being_verified live /\ Forall (fun w => ub_hash w ∈ B) stale.

Lemma matched_mono js l B B' : B ⊆ B' -> jobs_matched js l B -> jobs_matched js l B'.
Proof. intros HB (live & stale & E1 & E2 & Hs). exists live, stale. split_and!; [done..|]. eapply Forall_impl; [exact Hs|]. set_solver. Qed.

Lemma matched_take js l B w : jobs_matched js l B -> jobs_matched (js ++ [w]) (l ++ [being_verified w]) B.
Proof.
  intros (live & stale & E1 & E2 & Hs). exists (live ++ [w]), stale. split_and!; [|by rewrite map_app, E2|done].
  rewrite E1, <- !app_assoc. apply Permutation_app_head, Permutation_app_comm.
Qed.

(** A job whose block is not bad is that of a block in [m_verifying]. *)
Lemma matched_live js l B i w : jobs_matched js l B -> js !! i = Some w -> ub_hash w ∉ B ->
  being_verified w ∈ l /\ forall l', l ≡ₚ being_verified w :: l' -> jobs_matched (delete i js) l' B.
Proof.
  intros (live & stale & E1 & E2 & Hs) Hi Hw. pose proof (delete_Permutation _ _ _ Hi) as Hd. rewrite Forall_forall in Hs.
  assert (w ∈ live) as (la & lb & ->)%list_elem_of_split.
  { assert (w ∈ live ++ stale) as Hin by (rewrite <- E1; by eapply list_elem_of_lookup_2). apply elem_of_app in Hin as [?|Hin]; [done|]. by apply Hs in Hin. }
  split; [rewrite E2, map_app, elem_of_app; right; left|]. intros l' El. exists (la ++ lb), stale. rewrite El, map_app in E2. cbn [map] in E2.
  rewrite <- Permutation_middle in E2. apply Permutation_cons_inv in E2. split_and!; [|by rewrite map_app|by apply Forall_forall].
  apply (Permutation_cons_inv (a := w)). rewrite <- Hd, E1. by rewrite <- Permutation_middle.
Qed.

(** A job of a bad block is stale, if no block in [m_verifying] is bad. *)
Lemma matched_stale js l B i w : jobs_matched js l B -> js !! i = Some w -> ub_hash w ∈ B ->
  (forall b, b ∈ l -> vb_sha3Uncles b ∉ B) -> jobs_matched (delete i js) l B.
Proof.
  intros (live & stale & E1 & E2 & Hs) Hi Hw Hl. pose proof (delete_Permutation _ _ _ Hi) as Hd.
  assert (w ∈ stale) as (sa & sb & ->)%list_elem_of_split.
  { assert (w ∈ live ++ stale) as Hin by (rewrite <- E1; by eapply list_elem_of_lookup_2). apply elem_of_app in Hin as [Hin|?]; [|done].
    exfalso. apply (Hl (being_verified w)); [|done]. rewrite E2. apply list_elem_of_In, in_map, list_elem_of_In, Hin. }
  exists live, (sa ++ sb). split; [|split; [exact E2|rewrite !Forall_app, Forall_cons in *; tauto]].
  apply (Permutation_cons_inv (a := w)). rewrite <- Hd, E1. rewrite <- Permutation_middle. symmetry. apply Permutation_middle.
Qed.

(** Blocks that are found to be bad leave their verifiers with stale jobs. *)
Lemma matched_drop js l1 l2 B B' : B ⊆ B' -> (forall b, b ∈ l2 -> vb_sha3Uncles b ∈ B') -> jobs_matched js (l1 ++ l2) B -> jobs_matched js l1 B'.
Proof.
  intros HB Hl (live & stale & E1 & E2 & Hs). apply Permutation_map_inv in E2 as (live' & E2 & Ep). symmetry in E2. apply map_eq_app in E2 as (la & lb & -> & <- & <-).
  exists la, (lb ++ stale). split_and!; [|done|].
  - by rewrite E1, Ep, <- app_assoc.
  - apply Forall_app. split; [|eapply Forall_impl; [exact Hs|]; set_solver]. apply Forall_forall. intros w Hw.
    apply (Hl (being_verified w)). apply list_elem_of_In, in_map, list_elem_of_In, Hw.
Qed.

(** [extra] has left [m_unknown], but is still in [m_unknownSet].  [V] are parents
    that verified blocks may have for the moment. *)
Record core_but (V K : Z -> Prop) (extra : list waiting) (q : BlockQueue) : Prop := {
  co_lined : lined K (pipeline q) (m_readySet q) (m_drainingSet q) (m_unknownSet q) (m_knownBad q);
  co_verified : ordered (fun p => K p \/ p ∈ m_drainingSet q \/ V p) (map v_entry (m_queue (m_verified q)));
  co_unknown : forall h, h ∈ m_unknownSet q <-> h ∈ map waiting_hash (m_map (m_unknown q) ++ extra);
  co_unknown_nodup : NoDup (map waiting_hash (m_map (m_unknown q) ++ extra));
  co_waiting : Forall (fun x => sound (waiting_block x)) (m_map (m_unknown q) ++ extra);
  co_unverified : Forall sound (m_queue (m_unverified q));
  co_jobs_sound : Forall sound (jobs q);
  co_future : Forall (fun x => blocks x.2.2) (m_map (m_future q));
  co_checked : Forall checked (m_queue (m_verified q));
  co_verifying : Forall (fun b => in_progress b = true \/ checked b) (m_queue (m_verifying q));
  co_jobs : jobs_matched (jobs q) (filter (fun b => in_progress b = true) (m_queue (m_verifying q))) (m_knownBad q)
}.
Notation core := (core_but (fun _ => False)).

(** The first block in [m_verifying] is being verified: if it were not, it would
    have gone on. *)
Definition head_in_progress (q : BlockQueue) : Prop :=
  match m_queue (m_verifying q) with [] => True | b :: _ => in_progress b = true end.

(** ** Between the queues *)

Lemma core_mono (V V' K K' : Z -> Prop) extra q : (forall p, V p -> V' p) -> (forall p, K p -> K' p) -> core_but V K extra q -> core_but V' K' extra q.
Proof.
  intros HV HK []. constructor; try done; [by eapply lined_mono|]. eapply ordered_mono; [|done]. naive_solver.
Qed.

Lemma core_notify K extra s q : core K extra q -> core K extra (notify s q).
Proof. by intros []; constructor. Qed.
Lemma core_difficulty K extra d q : core K extra q -> core K extra (set_difficulty d q).
Proof. by intros []; constructor. Qed.

(** A block at the front of [m_verifying] that was verified goes on, or out. *)
Lemma core_accept K q b l s s' : core K [] (set_verifying (mkQueue (b :: l) s) q) -> checked b ->
  core K [] (accept b (set_verifying (mkQueue l s') q)).
Proof.
  intros [] Hc. unfold accept. cbn in *. unfold pipeline in co_lined0. cbn in co_lined0. rewrite w_entry_checked in co_lined0 by done.
  assert (in_progress b = false) as Hp by (pose proof (checked_nonempty _ Hc); unfold in_progress; by destruct (vb_blockData b)).
  rewrite decide_False in co_jobs0 by congruence. apply Forall_cons in co_verifying0 as [_ Hl].
  destruct (decide (vb_parentHash b ∈ m_knownBad q)) as [Hbad|Hgood].
  - constructor; try done; cbn; [by apply (lined_drop K _ (v_entry b))|]. eapply matched_mono; [|done]. set_solver.
  - constructor; try done; cbn; unfold pipeline; cbn.
    + by rewrite map_app, <- app_assoc.
    + rewrite map_app. apply ordered_app. split; [done|]. cbn. split; [|done].
      destruct co_lined0 as [_ _ _ _ _ _ _ _ Ho]. apply ordered_split in Ho. cbn in Ho. naive_solver.
    + apply Forall_app. by split; [|constructor].
Qed.

Lemma core_drain_loop K fuel q : core K [] q -> core K [] (drain_loop fuel q).
Proof.
  revert q. induction fuel as [|f IH]; intros q Hq; [done|]. cbn [drain_loop]. unfold q_dequeue.
  destruct (m_queue (m_verifying q)) as [|b l] eqn:El; [done|]. destruct (vb_blockData b) as [|x d] eqn:Ed; [done|]. apply IH.
  pose proof (co_verifying _ _ _ _ Hq) as Hv. rewrite El in Hv. apply Forall_cons in Hv as [[Hp|Hc] _]; [unfold in_progress in Hp; by rewrite Ed in Hp|].
  eapply (core_accept K q b l (q_size (m_verifying q))); [|done]. destruct q as [? ? ? ? ? ? ? [vl vs] ? ? ? ? ? ?]. cbn in El |- *. by subst vl.
Qed.

Lemma head_drain_loop q fuel : (length (m_queue (m_verifying q)) <= fuel)%nat -> head_in_progress (drain_loop fuel q).
Proof.
  revert q. induction fuel as [|f IH]; intros q Hl; unfold head_in_progress; cbn [drain_loop].
  - by destruct (m_queue (m_verifying q)); [|cbn in Hl; lia].
  - unfold q_dequeue. destruct (m_queue (m_verifying q)) as [|b l] eqn:El; [by rewrite El|]. destruct (vb_blockData b) as [|x d] eqn:Ed.
    + rewrite El. unfold in_progress. by rewrite Ed.
    + apply IH. unfold accept. cbn in Hl. destruct (decide _); cbn; lia.
Qed.

Lemma core_drainVerified K q : core K [] q -> core K [] (drainVerified q) /\ head_in_progress (drainVerified q).
Proof. intros Hq. split; [by apply core_drain_loop|by apply head_drain_loop]. Qed.

(** A verifier takes the first block. *)
Lemma core_take K q q' : core K [] q -> head_in_progress q -> take_work q = Some q' -> core K [] q' /\ head_in_progress q'.
Proof.
  intros [] Hh. unfold take_work, q_dequeue. destruct (m_deleting q); [done|]. destruct (m_queue (m_unverified q)) as [|w u] eqn:Eu; [done|]. intros [= <-].
  split.
  - unfold pipeline in co_lined0. rewrite Eu in co_lined0. apply Forall_cons in co_unverified0 as [Hw Hu].
    constructor; try done; cbn.
    + unfold pipeline. cbn. by rewrite map_app, <- app_assoc.
    + apply Forall_app. by split; [|constructor].
    + apply Forall_app. split; [done|]. constructor; [by left|constructor].
    + rewrite filter_app. by apply matched_take.
  - unfold head_in_progress in *. cbn. by destruct (m_queue (m_verifying q)).
Qed.
(** ** A verifier is done *)

Lemma in_progress_hash b : in_progress b = true -> verifying_hash b = vb_sha3Uncles b.
Proof. unfold in_progress, verifying_hash. by destruct (vb_blockData b). Qed.

Lemma elem_of_map {A B} (f : A -> B) l x : x ∈ l -> f x ∈ map f l.
Proof. intros Hx. by apply list_elem_of_In, in_map, list_elem_of_In. Qed.

Lemma pipeline_middle q l1 l2 b : m_queue (m_verifying q) = l1 ++ b :: l2 ->
  pipeline q = (map v_entry (m_queue (m_verified q)) ++ map w_entry l1) ++ w_entry b :: map w_entry l2 ++ map u_entry (m_queue (m_unverified q)).
Proof. intros El. unfold pipeline. rewrite El, map_app. cbn [map]. by rewrite <- !app_assoc. Qed.

(** No block in [m_verifying] is bad. *)
Lemma verifying_not_bad V K q b : core_but V K [] q -> b ∈ m_queue (m_verifying q) -> verifying_hash b ∈ m_readySet q /\ verifying_hash b ∉ m_knownBad q.
Proof.
  intros [[]] Hb. assert (verifying_hash b ∈ m_readySet q); [|set_solver]. apply ln_ready0. unfold pipeline. rewrite !fmap_app, !elem_of_app. right. left.
  apply list_elem_of_fmap. exists (w_entry b). split; [done|]. by apply elem_of_map.
Qed.

(** The place of a job in [m_verifying]. *)
Lemma core_job K q i w : hashes_apart -> core K [] q -> jobs q !! i = Some w -> ub_hash w ∉ m_knownBad q ->
  exists l1 l2, m_queue (m_verifying q) = l1 ++ being_verified w :: l2 /\
    (forall b, b ∈ l1 ++ l2 -> sha3UnclesEquals (ub_hash w) b = false) /\
    jobs_matched (delete i (jobs q)) (filter (fun b => in_progress b = true) (l1 ++ l2)) (m_knownBad q).
Proof.
  intros Ha [] Hi Hnb. destruct (matched_live _ _ _ _ _ co_jobs0 Hi Hnb) as [Hin Hmatch].
  apply list_elem_of_filter in Hin as [_ (l1 & l2 & El)%list_elem_of_split].
  exists l1, l2. split; [done|]. rewrite El in *. split.
  - intros b Hb. assert (sound w) as Hw by (by eapply Forall_lookup_1 in Hi).
    assert (b ∈ l1 ++ being_verified w :: l2) as Hin by (rewrite elem_of_app in *; rewrite elem_of_cons; tauto).
    rewrite Forall_forall in co_verifying0. destruct (co_verifying0 b Hin) as [Hp|Hc]; [|by apply checked_apart].
    unfold sha3UnclesEquals. apply Z.eqb_neq. rewrite <- in_progress_hash by done. intros E.
    pose proof (ln_nodup _ _ _ _ _ _ co_lined0) as Hnd. rewrite (pipeline_middle q l1 l2 _ El) in Hnd. apply ids_middle in Hnd as [Hn _]. apply Hn.
    change (w_entry (being_verified w)).1 with (ub_hash w). rewrite <- E. apply list_elem_of_fmap. exists (w_entry b). split; [done|].
    rewrite !elem_of_app in *. destruct Hb as [Hb|Hb]; [left; right|right; left]; by apply elem_of_map.
  - apply Hmatch. rewrite !filter_app, filter_cons_True by done. symmetry. apply Permutation_middle.
Qed.

Lemma remove_sha3Uncles w l1 l2 : (forall b, b ∈ l1 ++ l2 -> sha3UnclesEquals (ub_hash w) b = false) ->
  filter (fun b => sha3UnclesEquals (ub_hash w) b = false) (l1 ++ being_verified w :: l2) = l1 ++ l2.
Proof.
  intros Hb. assert (forall l : list VerifiedBlock, (forall b, b ∈ l -> sha3UnclesEquals (ub_hash w) b = false) -> filter (fun b => sha3UnclesEquals (ub_hash w) b = false) l = l) as Hf.
  { induction l as [|b l IH]; intros Hl; [done|]. rewrite filter_cons_True by (apply Hl; left). f_equal. apply IH. intros ??. apply Hl. by right. }
  rewrite filter_app, filter_cons_False; [|unfold sha3UnclesEquals; cbn; by rewrite Z.eqb_refl].
  rewrite !Hf; [done|intros; apply Hb, elem_of_app; by right|intros; apply Hb, elem_of_app; by left].
Qed.

(** The block leaves [m_verifying] and is bad. *)
Lemma core_dropped K q i w : hashes_apart -> core K [] q -> jobs q !! i = Some w -> ub_hash w ∉ m_knownBad q ->
  core K [] (drop_failed w (set_jobs (delete i (jobs q)) q)).
Proof.
  intros Ha Hq Hi Hnb. destruct (core_job K q i w Ha Hq Hi Hnb) as (l1 & l2 & El & Hb & Hj).
  destruct Hq. rewrite (pipeline_middle q l1 l2 _ El) in co_lined0. rewrite El in *. constructor; try done; cbn.
  - unfold pipeline. cbn. unfold q_remove, removeIf, remove_if. cbn. rewrite El, remove_sha3Uncles by done. cbn. rewrite map_app, <- !app_assoc, app_assoc.
    by apply (lined_drop K _ (w_entry (being_verified w))).
  - apply Forall_delete. done.
  - unfold q_remove, removeIf, remove_if. cbn. rewrite El, remove_sha3Uncles by done. cbn. rewrite Forall_app in *. rewrite Forall_cons in co_verifying0. naive_solver.
  - unfold q_remove, removeIf, remove_if. cbn. rewrite El, remove_sha3Uncles by done. eapply matched_mono; [|exact Hj]. set_solver.
Qed.

Lemma core_failed K q i w : hashes_apart -> core K [] q -> jobs q !! i = Some w -> ub_hash w ∉ m_knownBad q ->
  let q' := verify_failed w (set_jobs (delete i (jobs q)) q) in core K [] q' /\ head_in_progress q'.
Proof. intros Ha Hq Hi Hnb. by apply core_drainVerified, core_dropped. Qed.

(** The block takes the place of the one that was being verified. *)
Lemma core_replace K q i w res l1 l2 s : core K [] q -> jobs q !! i = Some w -> m_queue (m_verifying q) = l1 ++ being_verified w :: l2 ->
  jobs_matched (delete i (jobs q)) (filter (fun b => in_progress b = true) (l1 ++ l2)) (m_knownBad q) ->
  checked res -> v_entry res = u_entry w ->
  core K [] (set_verifying (mkQueue (l1 ++ res :: l2) s) (set_jobs (delete i (jobs q)) q)).
Proof.
  intros [] Hi El Hj Hc He. rewrite (pipeline_middle q l1 l2 _ El) in co_lined0. rewrite El in *. rewrite w_entry_being, <- He in co_lined0.
  constructor; try done; cbn.
  - unfold pipeline. cbn. rewrite map_app. cbn [map]. rewrite w_entry_checked by done. by rewrite <- !app_assoc, app_assoc in *.
  - by apply Forall_delete.
  - rewrite Forall_app, Forall_cons in *. naive_solver.
  - rewrite filter_app in Hj |- *. rewrite filter_cons_False; [done|]. apply checked_nonempty in Hc. unfold in_progress. by destruct (vb_blockData res).
Qed.

Lemma find_sha3Uncles w l1 l2 : (forall b, b ∈ l1 ++ l2 -> sha3UnclesEquals (ub_hash w) b = false) ->
  list_find (fun b => sha3UnclesEquals (ub_hash w) b = true) (l1 ++ being_verified w :: l2) = Some (length l1, being_verified w).
Proof.
  intros Hb. apply list_find_Some. split_and!.
  - by rewrite lookup_app_r, Nat.sub_diag by lia.
  - unfold sha3UnclesEquals. cbn. apply Z.eqb_refl.
  - intros j b Hj Hlt. rewrite lookup_app_l in Hj by done. rewrite Hb; [done|]. apply elem_of_app. left. by apply list_elem_of_lookup_2 in Hj.
Qed.

Lemma core_passed K q i w res : hashes_apart -> core K [] q -> head_in_progress q -> jobs q !! i = Some w -> ub_hash w ∉ m_knownBad q ->
  checked res -> v_entry res = u_entry w ->
  let q' := verify_passed w res (set_jobs (delete i (jobs q)) q) in core K [] q' /\ head_in_progress q'.
Proof.
  intros Ha Hq Hh Hi Hnb Hc He q'. destruct (core_job K q i w Ha Hq Hi Hnb) as (l1 & l2 & El & Hb & Hj).
  pose proof (fun s => core_replace K q i w res l1 l2 s Hq Hi El Hj Hc He) as Hr. unfold q', verify_passed, q_dequeue. cbn. rewrite El.
  destruct l1 as [|b l1]; cbn [app].
  - change (vb_sha3Uncles (being_verified w)) with (ub_hash w). rewrite Z.eqb_refl.
    destruct (core_drainVerified K _ (core_accept K _ res l2 0 (u64 (q_size (m_verifying q) - lenZ (blockData (being_verified w)))) (Hr 0) Hc)) as [Hd Hh'].
    split; [|exact Hh']. apply core_notify. exact Hd.
  - change (vb_sha3Uncles b =? ub_hash w) with (sha3UnclesEquals (ub_hash w) b). rewrite Hb by left.
    unfold q_replace. cbn. rewrite El. rewrite (find_sha3Uncles w (b :: l1) l2 Hb). cbn [snd].
    replace (<[length (b :: l1):=res]> ((b :: l1) ++ being_verified w :: l2)) with ((b :: l1) ++ res :: l2)
      by (rewrite (insert_app_r_alt (b :: l1)), Nat.sub_diag; done).
    split; [apply Hr|]. unfold head_in_progress in *. rewrite El in Hh. exact Hh.
Qed.

(** The job of a block that is bad by now changes nothing. *)
Lemma drain_head q : head_in_progress q -> drainVerified q = q.
Proof.
  unfold head_in_progress, drainVerified. destruct (m_queue (m_verifying q)) as [|b l] eqn:El; [done|]. cbn [length drain_loop]. unfold q_dequeue. rewrite El.
  unfold in_progress. by destruct (vb_blockData b).
Qed.

Lemma filter_all {A} (p : A -> bool) (l : list A) : (forall x, x ∈ l -> p x = false) -> filter (fun x => p x = false) l = l.
Proof. induction l as [|x l IH]; intros Hl; [done|]. rewrite filter_cons_True by (apply Hl; left). f_equal. apply IH. intros y Hy. apply Hl. by right. Qed.

Lemma removeIf_none {T} `{!Queued T} (p : T -> bool) (q : SizedBlockQueue T) : (forall b, b ∈ m_queue q -> p b = false) -> removeIf p q = ([], q).
Proof.
  intros Hp. unfold removeIf, remove_if. rewrite filter_all by done. rewrite drop_ge by (rewrite length_map; lia). by destruct q.
Qed.

Lemma finish_stale K q view i w q' : hashes_apart -> core K [] q -> head_in_progress q -> jobs q !! i = Some w -> ub_hash w ∈ m_knownBad q ->
  finish_work e view i q = Value q' -> q' = set_jobs (delete i (jobs q)) q /\ core K [] q'.
Proof.
  intros Ha Hq Hh Hi Hb E. assert (forall b, b ∈ m_queue (m_verifying q) -> sha3UnclesEquals (ub_hash w) b = false) as Hne.
  { intros b Hin. destruct (verifying_not_bad _ K q b Hq Hin) as [_ Hn]. pose proof (co_verifying _ _ _ _ Hq) as Hv. rewrite Forall_forall in Hv.
    destruct (Hv b Hin) as [Hp|Hc].
    - apply Z.eqb_neq. rewrite <- in_progress_hash by done. congruence.
    - pose proof (co_jobs_sound _ _ _ _ Hq) as Hs. apply checked_apart; [done..|]. by eapply Forall_lookup_1 in Hi. }
  assert (q' = set_jobs (delete i (jobs q)) q) as ->.
  { unfold finish_work in E. rewrite Hi in E. cbn [rget rbind] in E. set (q1 := set_jobs (delete i (jobs q)) q) in *.
    assert (head_in_progress q1) as Hh1 by exact Hh. destruct (verifyBlock e view OutOfOrderChecks (ub_blockData w)) as [v|err| |]; [|..|done|done]; injection E as <-.
    - unfold verify_passed, q_dequeue, q_replace. change (m_verifying q1) with (m_verifying q).
      assert (list_find (fun b => sha3UnclesEquals (ub_hash w) b = true) (m_queue (m_verifying q)) = None) as ->.
      { apply list_find_None, Forall_forall. intros b Hin. rewrite Hne by done. done. }
      destruct (m_queue (m_verifying q)) as [|b l] eqn:El; [|change (vb_sha3Uncles b =? ub_hash w) with (sha3UnclesEquals (ub_hash w) b); rewrite Hne by left];
        unfold q1; by destruct q.
    - unfold verify_failed. replace (drop_failed w q1) with q1; [by apply drain_head|]. unfold drop_failed, q_remove. cbn -[removeIf].
      change (m_verifying q1) with (m_verifying q). rewrite removeIf_none by done. cbn. pose proof (ln_RB _ _ _ _ _ _ (co_lined _ _ _ _ Hq)) as HRB.
      assert (m_readySet q ∖ {[ub_hash w]} = m_readySet q) as E1 by (clear -HRB Hb; set_solver).
      assert ({[ub_hash w]} ∪ m_knownBad q = m_knownBad q) as E2 by (clear -HRB Hb; set_solver).
      unfold q1. destruct q; cbn in *. unfold set_bad, set_ready, set_verifying. cbn. by rewrite E1, E2. }
  split; [done|]. pose proof (fun b => verifying_not_bad _ K q b Hq) as Hn. destruct Hq. constructor; try done; cbn; [by apply Forall_delete|].
  apply (matched_stale _ _ _ _ w); try done. intros b [Hp Hin]%list_elem_of_filter. rewrite <- in_progress_hash by done. by apply Hn.
Qed.

Lemma core_finish K q chain i q' : hashes_apart -> core K [] q -> head_in_progress q -> finish_work e chain i q = Value q' ->
  core K [] q' /\ head_in_progress q'.
Proof.
  intros Ha Hq Hh E. destruct (jobs q !! i) as [w|] eqn:Hi; [|unfold finish_work in E; by rewrite Hi in E].
  destruct (decide (ub_hash w ∈ m_knownBad q)) as [Hb|Hnb]; [by destruct (finish_stale K q chain i w q' Ha Hq Hh Hi Hb E) as [-> ?]|].
  revert E. unfold finish_work. rewrite Hi. cbn [rget rbind].
  assert (sound w) as Hw by (pose proof (co_jobs_sound _ _ _ _ Hq) as Hs; by eapply Forall_lookup_1 in Hi).
  destruct (verifyBlock e chain OutOfOrderChecks (ub_blockData w)) as [v|err| |] eqn:Hv; [|intros [= <-]; by apply core_failed|done|done].
  intros [= <-]. destruct (checked_sound chain w v Ha Hw Hv) as (Hc & E1 & E2). apply core_passed; try done. unfold v_entry. by rewrite E1, E2.
Qed.
(** ** What waits for a block *)

Lemma filter_split {A} (p : A -> bool) l : l ≡ₚ filter (fun x => p x = false) l ++ filter (fun x => p x = true) l.
Proof.
  induction l as [|x l IH]; [done|]. destruct (p x) eqn:E.
  - rewrite filter_cons_False, (filter_cons_True (fun x => p x = true)) by congruence. rewrite <- Permutation_middle. by constructor.
  - rewrite filter_cons_True, (filter_cons_False (fun x => p x = true)) by congruence. by constructor.
Qed.

Lemma core_extra K x1 m x2 s q : m_map (m_unknown q) ++ x1 ≡ₚ m ++ x2 -> core K x1 q -> core K x2 (set_unknown (m_unknownSet q) (mkBlockMap m s) q).
Proof.
  intros Hp []. constructor; try done; cbn.
  - intros h. rewrite co_unknown0. by rewrite Hp.
  - by rewrite <- Hp.
  - by rewrite <- Hp.
Qed.

Definition waiting_for (parent : Z) (q : BlockQueue) : list waiting := filter (fun x => (x.1 =? parent) = true) (m_map (m_unknown q)).
Definition not_waiting_for (parent : Z) (q : BlockQueue) : list waiting := filter (fun x => (x.1 =? parent) = false) (m_map (m_unknown q)).

Lemma waiting_for_snd parent q : map (fun r => (parent, r)) (map snd (waiting_for parent q)) = waiting_for parent q.
Proof.
  unfold waiting_for. induction (m_map (m_unknown q)) as [|x l IH]; [done|]. rewrite filter_cons. case_decide as E; [|done]. cbn [map]. rewrite IH.
  apply Z.eqb_eq in E. subst. by destruct x.
Qed.

Lemma core_take_waiting K parent q s : core K [] q ->
  core K (map (fun r => (parent, r)) (map snd (waiting_for parent q))) (set_unknown (m_unknownSet q) (mkBlockMap (not_waiting_for parent q) s) q).
Proof. intros Hq. rewrite waiting_for_snd. eapply core_extra; [|exact Hq]. rewrite app_nil_r. apply filter_split. Qed.

Definition parent_ok (K : Z -> Prop) (q : BlockQueue) (p : Z) : Prop := K p \/ p ∈ m_drainingSet q \/ p ∈ m_knownBad q \/ p ∈ m_readySet q.

Lemma pipeline_enqueue q w : map v_entry (m_queue (m_verified q)) ++ map w_entry (m_queue (m_verifying q)) ++ map u_entry (m_queue (m_unverified q) ++ [w]) =
  pipeline q ++ [u_entry w].
Proof. unfold pipeline. by rewrite map_app, <- !app_assoc. Qed.

Lemma core_note_ready K parent r extra q : core K ((parent, r) :: extra) q -> parent_ok K q parent -> core K extra (note_ready parent q r).
Proof.
  intros [] Hp. rewrite <- Permutation_middle in co_unknown_nodup0. rewrite <- Permutation_middle, Forall_cons in co_waiting0. destruct co_waiting0 as [Hr Hw].
  cbn [map] in co_unknown_nodup0. apply NoDup_cons in co_unknown_nodup0 as [Hn Hnd]. change (waiting_hash (parent, r)) with r.1 in *.
  assert (forall h, h ∈ m_unknownSet q <-> h = r.1 \/ h ∈ map waiting_hash (m_map (m_unknown q) ++ extra)) as Hu.
  { intros h. rewrite co_unknown0. rewrite <- Permutation_middle. cbn [map]. apply elem_of_cons. }
  assert (r.1 ∈ m_unknownSet q) as Hin by (apply Hu; by left). pose proof co_lined0 as [_ _ _ HRU _ HDU _ HUB _].
  constructor; try done; cbn.
  - unfold pipeline. cbn. rewrite pipeline_enqueue. eapply lined_push; [exact co_lined0|..]; try (clear -Hin HRU HDU HUB; set_solver). destruct Hp as [?|[?|[?|?]]]; auto.
  - intros h. rewrite elem_of_difference, elem_of_singleton, Hu. split; [tauto|]. intros Hh. split; [by right|]. by intros ->.
  - apply Forall_app. split; [done|]. by constructor.
Qed.

Lemma core_notes_ready K parent rs q : core K (map (fun r => (parent, r)) rs) q -> parent_ok K q parent -> core K [] (foldl (note_ready parent) q rs).
Proof.
  revert q. induction rs as [|r rs IH]; intros q Hq Hp; [done|]. cbn [map foldl] in *. apply IH; [by apply core_note_ready|].
  unfold parent_ok in *. cbn. set_solver.
Qed.

(** What the notes leave as it was. *)
Record same_but_new (q q' : BlockQueue) : Prop := {
  sn_verified : m_verified q' = m_verified q;
  sn_verifying : m_verifying q' = m_verifying q;
  sn_draining : m_drainingSet q' = m_drainingSet q;
  sn_bad : m_knownBad q' = m_knownBad q;
  sn_future : m_future q' = m_future q;
  sn_jobs : jobs q' = jobs q;
  sn_ready : m_readySet q ⊆ m_readySet q';
  sn_unknown : forall x, x ∈ m_map (m_unknown q') -> x ∈ m_map (m_unknown q)
}.

Lemma same_new_refl q : same_but_new q q.
Proof. by constructor. Qed.
Lemma same_new_trans q1 q2 q3 : same_but_new q1 q2 -> same_but_new q2 q3 -> same_but_new q1 q3.
Proof. intros [] []. constructor; try congruence; [set_solver|auto]. Qed.

Lemma notes_ready_same parent rs q : same_but_new q (foldl (note_ready parent) q rs) /\
  m_map (m_unknown (foldl (note_ready parent) q rs)) = m_map (m_unknown q) /\
  (forall h, h ∈ m_readySet (foldl (note_ready parent) q rs) <-> h ∈ m_readySet q \/ h ∈ map fst rs).
Proof.
  revert q. induction rs as [|r rs IH]; intros q; [split; [apply same_new_refl|split; [done|]]; intros h; cbn; rewrite elem_of_nil; tauto|].
  cbn [foldl]. destruct (IH (note_ready parent q r)) as (E1 & E2 & E3). split_and!.
  - eapply same_new_trans; [|exact E1]. constructor; try done. cbn. set_solver.
  - by rewrite E2.
  - intros h. rewrite E3. cbn. rewrite elem_of_union, elem_of_singleton, elem_of_cons. tauto.
Qed.

Lemma waiting_lengths parent q : (length (waiting_for parent q) + length (not_waiting_for parent q) = length (m_map (m_unknown q)))%nat.
Proof.
  rewrite (Permutation_length (filter_split (fun x : waiting => x.1 =? parent) (m_map (m_unknown q)))), length_app. unfold waiting_for, not_waiting_for. lia.
Qed.

(** The loop ends, and nothing waits any more for what it went through. *)
Lemma ready_loop_total fuel gq q : (length gq + length (m_map (m_unknown q)) <= fuel)%nat ->
  exists q', ready_loop fuel gq q = Value q' /\ same_but_new q q' /\
    forall x, x ∈ m_map (m_unknown q') -> x.1 ∉ gq /\ (x.1 ∈ m_readySet q' -> x.1 ∈ m_readySet q).
Proof.
  revert gq q. induction fuel as [|f IH]; intros gq q Hl; (destruct gq as [|g gq]; cbn [ready_loop]; [exists q; split; [done|]; split; [apply same_new_refl|]; intros x _; split; [apply not_elem_of_nil|done]|]); [cbn in Hl; lia|].
  unfold removeByKeyEqual, map_removeRange. fold (waiting_for g q) (not_waiting_for g q).
  match goal with |- context [foldl (note_ready g) ?q0 ?rs] => set (q1 := q0); set (removed := rs) end.
  destruct (notes_ready_same g removed q1) as (Hs & Hm & Hr). pose proof (waiting_lengths g q) as Hlen.
  assert (length removed = length (waiting_for g q)) as Hrl by (unfold removed; by rewrite length_map).
  destruct (IH (gq ++ map fst removed) (foldl (note_ready g) q1 removed)) as (q' & E & Hs' & Hx).
  { rewrite Hm. unfold q1. cbn. rewrite length_app, length_map, Hrl. cbn in Hl. lia. }
  exists q'. split; [done|]. split; [eapply same_new_trans; [|exact Hs']; eapply same_new_trans; [|exact Hs]|].
  - unfold q1. constructor; try done. cbn. intros x Hx'. by apply list_elem_of_filter in Hx' as [_ ?].
  - intros x Hin. destruct (Hx x Hin) as [Hn Hrd]. rewrite elem_of_app in Hn. split.
    + rewrite elem_of_cons. intros [Eg|?]; [|tauto]. apply (sn_unknown _ _ Hs') in Hin. rewrite Hm in Hin. cbn in Hin.
      apply list_elem_of_filter in Hin as [Hin _]. by apply Z.eqb_neq in Hin.
    + intros Hq'. apply Hrd in Hq'. rewrite Hr in Hq'. cbn in Hq'. tauto.
Qed.

Lemma core_ready_loop K fuel gq q q' : core K [] q -> Forall (parent_ok K q) gq -> ready_loop fuel gq q = Value q' -> core K [] q'.
Proof.
  revert gq q. induction fuel as [|f IH]; intros [|g gq] q Hq Hg; cbn [ready_loop]; [by intros [= <-]|done|by intros [= <-]|].
  unfold removeByKeyEqual, map_removeRange. fold (waiting_for g q) (not_waiting_for g q). apply Forall_cons in Hg as [Hp Hg].
  match goal with |- context [foldl (note_ready g) ?q0 ?rs] => set (q1 := q0); set (removed := rs) end.
  destruct (notes_ready_same g removed q1) as (Hs & _ & Hr). intros E. eapply IH; [| |exact E]; [by apply core_notes_ready; [apply core_take_waiting|]|].
  assert (forall p, parent_ok K q p -> parent_ok K (foldl (note_ready g) q1 removed) p) as Hmono.
  { intros p Hok. unfold parent_ok in *. rewrite (sn_draining _ _ Hs), (sn_bad _ _ Hs), Hr. cbn. tauto. }
  apply Forall_app. split; [by eapply Forall_impl|]. apply Forall_forall. intros h Hh. unfold parent_ok. rewrite Hr. tauto.
Qed.

Lemma core_noteReady K g q q' : core K [] q -> parent_ok K q g -> noteReady g q = Value q' -> core K [] q'.
Proof. intros Hq Hg. apply core_ready_loop; [done|]. by constructor. Qed.

Lemma noteReady_total g q : exists q', noteReady g q = Value q' /\ same_but_new q q' /\
  forall x, x ∈ m_map (m_unknown q') -> x.1 <> g /\ (x.1 ∈ m_readySet q' -> x.1 ∈ m_readySet q).
Proof.
  destruct (ready_loop_total (collect_fuel q) [g] q) as (q' & E & Hs & Hx); [unfold collect_fuel; cbn; lia|]. exists q'. split_and!; [done..|].
  intros x Hin. destruct (Hx x Hin) as [Hn ?]. rewrite list_elem_of_singleton in Hn. done.
Qed.
End Core.
