(* ===== verification/TxQueue.v ===== *)
(** * The transaction queue (libaecereum/TransactionQueue.h, TransactionQueue.cpp)

    Transactions that can be executed next ([m_current], with two indices) and
    those that wait for one with an earlier nonce ([m_future]).  Every member
    function holds the queue's lock from its first access to its last, so that
    the calls of several threads are some sequence of calls.  An iterator into
    [m_current] is the number its element got when it was made. *)
From stdpp Require Import base list gmap sorting.
From Stdlib Require Import ZArith Lia.
From S2P Require Import Prelude Words Result Rlp StateMonad Account Transaction.
Open Scope sm_scope.

Inductive IfDropped : Set := Ignore | Retry.

(** [std::map]: what [begin], [rbegin] and iteration rely on is the order of the
    keys. *)
Definition ordered_keys {A} (m : gmap Z A) : list Z := merge_sort Z.le (map_to_list m).*1.
Definition first_key {A} (m : gmap Z A) : option Z := head (ordered_keys m).
Definition last_key {A} (m : gmap Z A) : option Z := last (ordered_keys m).
(** The keys from [lower_bound(k)] to the end. *)
Definition keys_from {A} (k : Z) (m : gmap Z A) : list Z := filter (fun n => k <= n) (ordered_keys m).

(** The keys [ks] of the inner map of [from] are erased, and that map when
    nothing is left of it. *)
Definition erase_keys {A} (from : Z) (ks : list Z) (m : gmap Z (gmap Z A)) : gmap Z (gmap Z A) :=
  let inner := foldl (fun m k => delete k m) (default ∅ (m !! from)) ks in
  if decide (inner = ∅) then delete from m else <[from := inner]> m.

(** [std::multiset::emplace] with a comparison that may throw: the other
    elements stay as they are, and an exception of the comparison leaves the set
    as it was.  Nothing is compared in an empty set and something in any other. *)
Class Multiset := {
  emplace : forall {E A}, (A -> A -> result E bool) -> A -> list A -> result E (list A);
  emplace_empty : forall {E A} (less : A -> A -> result E bool) x, emplace less x [] = Value [x];
  emplace_total : forall {E A} (less : A -> A -> result E bool) x l,
    (forall a, a ∈ l -> (exists b, less x a = Value b) /\ (exists b, less a x = Value b)) ->
    exists l1 l2, l = l1 ++ l2 /\ emplace less x l = Value (l1 ++ x :: l2);
  emplace_throws : forall {E A} (less : A -> A -> result E bool) x l e, l <> [] ->
    (forall a, a ∈ l -> less x a = Error e /\ less a x = Error e) -> emplace less x l = Error e
}.

(** What the queue tells its listeners. *)
Inductive signal : Set :=
| onReady
| onReplaced (h : Z)
| onImport (ir : ImportResult) (h nodeId : Z).

Record UnverifiedTransaction := mkUnverified { u_transaction : list Z; u_nodeId : Z }.

Record TransactionQueue := mkTransactionQueue {
  m_known : gset Z;
  m_dropped : gset Z;
  m_current : list (Z * TransactionBase);
  m_currentByHash : gmap Z Z;
  m_currentByAddressAndNonce : gmap Z (gmap Z Z);
  m_future : gmap Z (gmap Z TransactionBase);
  m_limit : Z;
  m_futureLimit : Z;
  m_futureSize : Z;
  m_unverified : list UnverifiedTransaction;
  next_handle : Z;
  signals : list signal
}.

Definition new_TransactionQueue (limit futureLimit : Z) : TransactionQueue :=
  mkTransactionQueue ∅ ∅ [] ∅ ∅ ∅ limit futureLimit 0 [] 1 [].

Definition set_known (s : gset Z) (q : TransactionQueue) : TransactionQueue :=
  mkTransactionQueue s (m_dropped q) (m_current q) (m_currentByHash q) (m_currentByAddressAndNonce q) (m_future q)
    (m_limit q) (m_futureLimit q) (m_futureSize q) (m_unverified q) (next_handle q) (signals q).
Definition set_dropped (s : gset Z) (q : TransactionQueue) : TransactionQueue :=
  mkTransactionQueue (m_known q) s (m_current q) (m_currentByHash q) (m_currentByAddressAndNonce q) (m_future q)
    (m_limit q) (m_futureLimit q) (m_futureSize q) (m_unverified q) (next_handle q) (signals q).
Definition set_current (l : list (Z * TransactionBase)) (next : Z) (q : TransactionQueue) : TransactionQueue :=
  mkTransactionQueue (m_known q) (m_dropped q) l (m_currentByHash q) (m_currentByAddressAndNonce q) (m_future q)
    (m_limit q) (m_futureLimit q) (m_futureSize q) (m_unverified q) next (signals q).
Definition set_byHash (m : gmap Z Z) (q : TransactionQueue) : TransactionQueue :=
  mkTransactionQueue (m_known q) (m_dropped q) (m_current q) m (m_currentByAddressAndNonce q) (m_future q)
    (m_limit q) (m_futureLimit q) (m_futureSize q) (m_unverified q) (next_handle q) (signals q).
Definition set_byNonce (m : gmap Z (gmap Z Z)) (q : TransactionQueue) : TransactionQueue :=
  mkTransactionQueue (m_known q) (m_dropped q) (m_current q) (m_currentByHash q) m (m_future q)
    (m_limit q) (m_futureLimit q) (m_futureSize q) (m_unverified q) (next_handle q) (signals q).
Definition set_future (m : gmap Z (gmap Z TransactionBase)) (size : Z) (q : TransactionQueue) : TransactionQueue :=
  mkTransactionQueue (m_known q) (m_dropped q) (m_current q) (m_currentByHash q) (m_currentByAddressAndNonce q) m
    (m_limit q) (m_futureLimit q) size (m_unverified q) (next_handle q) (signals q).
Definition set_unverified (l : list UnverifiedTransaction) (q : TransactionQueue) : TransactionQueue :=
  mkTransactionQueue (m_known q) (m_dropped q) (m_current q) (m_currentByHash q) (m_currentByAddressAndNonce q) (m_future q)
    (m_limit q) (m_futureLimit q) (m_futureSize q) l (next_handle q) (signals q).
Definition emit (s : signal) (q : TransactionQueue) : TransactionQueue :=
  mkTransactionQueue (m_known q) (m_dropped q) (m_current q) (m_currentByHash q) (m_currentByAddressAndNonce q) (m_future q)
    (m_limit q) (m_futureLimit q) (m_futureSize q) (m_unverified q) (next_handle q) (signals q ++ [s]).

Section Queue.
  Context `{Sha3} `{!Secp256k1} `{!UnorderedMaps} `{!Multiset}.
  Notation M := (SM TransactionQueue tx_error).

(** [*it] *)
Definition deref_it (it : Z) (q : TransactionQueue) : option TransactionBase :=
  match list_find (fun e => e.1 = it) (m_current q) with Some (_, e) => Some e.2 | None => None end.
Definition erase_it (it : Z) (q : TransactionQueue) : TransactionQueue :=
  set_current (filter (fun e => e.1 <> it) (m_current q)) (next_handle q) q.

(** [PriorityCompare]: the height of a transaction is its nonce less the first
    nonce of its sender. *)
Definition first_nonce (q : TransactionQueue) (a : Z) : option Z :=
  match m_currentByAddressAndNonce q !! a with Some m => first_key m | None => None end.
Definition height (q : TransactionQueue) (t : TransactionBase) : result tx_error Z :=
  (a <- sender t ;; n <- rget (first_nonce q a) ;; Value (u256 (t_nonce t - n)))%result.
Definition PriorityCompare (q : TransactionQueue) (a b : TransactionBase) : result tx_error bool :=
  (height1 <- height q a ;; height2 <- height q b ;;
   Value ((height1 <? height2) || ((height1 =? height2) && (m_gasPrice b <? m_gasPrice a))))%result.

(** [m_current.emplace] *)
Definition emplace_current (t : TransactionBase) : M Z :=
  q <- sget ;;
  l <- slift (emplace (fun a b => PriorityCompare q a.2 b.2) (next_handle q, t) (m_current q)) ;;
  smod (set_current l (next_handle q + 1)) ;;
  sret (next_handle q).

Definition sha3_of (t : TransactionBase) : M Z := slift (tx_hash WithSignature t).
Definition from_of (t : TransactionBase) : M Z := slift (safeSender t).

Definition remove_WITH_LOCK (txHash : Z) : M bool :=
  q <- sget ;;
  match m_currentByHash q !! txHash with
  | None => sret false
  | Some it =>
      t <- slift (rget (deref_it it q)) ;;
      from <- from_of t ;;
      nonces <- slift (rget (m_currentByAddressAndNonce q !! from)) ;;
      let nonces := delete (t_nonce t) nonces in
      smod (set_byNonce (<[from := nonces]> (m_currentByAddressAndNonce q))) ;;
      smod (erase_it it) ;;
      smod (set_byHash (delete txHash (m_currentByHash q))) ;;
      (if decide (nonces = ∅) then q <- sget ;; smod (set_byNonce (delete from (m_currentByAddressAndNonce q))) else sret tt) ;;
      q <- sget ;;
      smod (set_known (m_known q ∖ {[txHash]})) ;;
      sret true
  end.

(** Makes [t] the transaction of its sender with its nonce. *)
Definition insert_handle (from : Z) (t : TransactionBase) : M Z :=
  q <- sget ;;
  let nonces := default ∅ (m_currentByAddressAndNonce q !! from) in
  (match nonces !! t_nonce t with
   | Some _ => sret tt
   | None => smod (set_byNonce (<[from := <[t_nonce t := 0]> nonces]> (m_currentByAddressAndNonce q)))
   end) ;;
  handle <- emplace_current t ;;
  q <- sget ;;
  let nonces := default ∅ (m_currentByAddressAndNonce q !! from) in
  smod (set_byNonce (<[from := <[t_nonce t := handle]> nonces]> (m_currentByAddressAndNonce q))) ;;
  sret handle.

(** What a move leaves of the object it moved from. *)
Definition moved_from (t : TransactionBase) : TransactionBase :=
  mkTransactionBase (m_type t) (t_nonce t) (t_value t) (m_receiveAddress t) (m_gasPrice t) (t_gas t) [] (m_vrs t)
    (m_chainId t) (m_hashWith t) (m_sender t).
Definition mark_moved (from k : Z) (t : TransactionBase) (q : TransactionQueue) : TransactionQueue :=
  set_future (<[from := <[k := moved_from t]> (default ∅ (m_future q !! from))]> (m_future q)) (m_futureSize q) q.

(** The run of future transactions of [from] that starts with [nonce]; [ft] goes
    through the keys.  Returns the keys of the run. *)
Fixpoint promote (ft : list Z) (from nonce : Z) : M (list Z) :=
  match ft with
  | [] => sret []
  | k :: ft =>
      q <- sget ;;
      t <- slift (rget (m_future q !! from ≫= lookup k)) ;;
      if t_nonce t =? nonce then
        smod (mark_moved from k t) ;;
        handle <- insert_handle from t ;;
        h <- sha3_of t ;;
        q <- sget ;;
        smod (set_byHash (<[h := handle]> (m_currentByHash q))) ;;
        smod (set_future (m_future q) (u32 (m_futureSize q - 1))) ;;
        moved <- promote ft from (u256 (nonce + 1)) ;;
        sret (k :: moved)
      else sret []
  end.

(** The last transaction of some sender is dropped while there are too many. *)
Fixpoint limit_future (fuel : nat) : M unit :=
  q <- sget ;;
  if m_futureLimit q <? m_futureSize q then
    match fuel with
    | O => slift OutOfFuel
    | S f =>
        e <- slift (rget (head (iterate (m_future q)))) ;;
        k <- slift (rget (last_key e.2)) ;;
        smod (set_future (erase_keys e.1 [k] (m_future q)) (u32 (m_futureSize q - 1))) ;;
        limit_future f
    end
  else sret tt.

Definition makeCurrent_WITH_LOCK (t : TransactionBase) : M unit :=
  q <- sget ;;
  from <- from_of t ;;
  newCurrent <-
    match m_future q !! from with
    | None => sret false
    | Some fm =>
        let nonce := u256 (t_nonce t + 1) in
        match fm !! nonce with
        | None => sret false
        | Some _ =>
            moved <- promote (keys_from nonce fm) from nonce ;;
            smod (fun q => set_future (erase_keys from moved (m_future q)) (m_futureSize q) q) ;;
            sret (negb (lenZ moved =? 0))
        end
    end ;;
  q <- sget ;;
  limit_future (Z.to_nat (m_futureSize q)) ;;
  if newCurrent : bool then smod (emit onReady) else sret tt.

Definition insertCurrent_WITH_LOCK (h : Z) (t : TransactionBase) : M unit :=
  q <- sget ;;
  match m_currentByHash q !! h with
  | Some _ => sret tt
  | None =>
      from <- from_of t ;;
      handle <- insert_handle from t ;;
      q <- sget ;;
      smod (set_byHash (<[h := handle]> (m_currentByHash q))) ;;
      makeCurrent_WITH_LOCK t ;;
      q <- sget ;;
      smod (set_known ({[h]} ∪ m_known q))
  end.

(** [while (m_current.size() > m_limit)]: the last of the queue is removed. *)
Fixpoint limit_current (fuel : nat) : M unit :=
  q <- sget ;;
  if m_limit q <? lenZ (m_current q) then
    match fuel with
    | O => slift OutOfFuel
    | S f =>
        e <- slift (rget (last (m_current q))) ;;
        h <- sha3_of e.2 ;;
        remove_WITH_LOCK h ;;
        limit_current f
    end
  else sret tt.

Definition check_WITH_LOCK (q : TransactionQueue) (h : Z) (ik : IfDropped) : ImportResult :=
  if decide (h ∈ m_known q) then AlreadyKnown
  else if decide (h ∈ m_dropped q) then match ik with Ignore => AlreadyInChain | Retry => Success end
  else Success.

(** [catch (Exception const&)]: what was done before it stays done. *)
Definition or_malformed (m : M ImportResult) : M ImportResult := fun q =>
  match m q with
  | (Error _, q') => (Value Malformed, q')
  | r => r
  end.

(** A prior transaction with the nonce: better, replaced or none. *)
Definition replace_current (t : TransactionBase) (from : Z) : M bool :=
  q <- sget ;;
  match m_currentByAddressAndNonce q !! from with
  | None => sret true
  | Some nonces =>
      match nonces !! t_nonce t with
      | None => sret true
      | Some it =>
          old <- slift (rget (deref_it it q)) ;;
          if m_gasPrice t <? m_gasPrice old then sret false
          else
            dropped <- sha3_of old ;;
            remove_WITH_LOCK dropped ;;
            smod (emit (onReplaced dropped)) ;;
            sret true
      end
  end.
Definition replace_future (t : TransactionBase) (from : Z) : M bool :=
  q <- sget ;;
  match m_future q !! from with
  | None => sret true
  | Some fm =>
      match fm !! t_nonce t with
      | None => sret true
      | Some old =>
          if m_gasPrice t <? m_gasPrice old then sret false
          else
            smod (set_future (erase_keys from [t_nonce t] (m_future q)) (u32 (m_futureSize q - 1))) ;;
            sret true
      end
  end.

Definition manageImport_WITH_LOCK (h : Z) (t : TransactionBase) : M ImportResult :=
  or_malformed (
    h' <- sha3_of t ;;
    (if h =? h' then sret tt else slift OutOfBounds) ;;
    from <- from_of t ;;
    free <- replace_current t from ;;
    if negb free then sret OverbidGasPrice
    else
      free <- replace_future t from ;;
      if negb free then sret OverbidGasPrice
      else
        insertCurrent_WITH_LOCK h t ;;
        q <- sget ;;
        limit_current (length (m_current q)) ;;
        smod (emit onReady) ;;
        sret Success).

(** The object remembers its sender, if it has one. *)
Definition remember_sender (t : TransactionBase) : TransactionBase :=
  match with_sender t with Value t' => t' | _ => t end.

Definition import_transaction (t : TransactionBase) (ik : IfDropped) : M ImportResult :=
  if hasZeroSignature t then sret ZeroSignature
  else
    h <- sha3_of t ;;
    q <- sget ;;
    match check_WITH_LOCK q h ik with
    | Success => manageImport_WITH_LOCK h (remember_sender t)
    | ir => sret ir
    end.

Definition import_bytes (rlp : list Z) (ik : IfDropped) : M ImportResult :=
  or_malformed (t <- slift (parse_transaction rlp CheckEverything) ;; import_transaction t ik).

Definition topTransactions (limit : Z) (avoid : gset Z) (q : TransactionQueue) : result tx_error (list TransactionBase) :=
  (fix top (l : list (Z * TransactionBase)) (ret : list TransactionBase) : result tx_error (list TransactionBase) :=
     match l with
     | [] => Value ret
     | e :: l =>
         if lenZ ret <? limit then
           (h <- tx_hash WithSignature e.2 ;; top l (if decide (h ∈ avoid) then ret else ret ++ [e.2]))%result
         else Value ret
     end) (m_current q) [].

Definition knownTransactions (q : TransactionQueue) : gset Z := m_known q.

Definition maxNonce_WITH_LOCK (q : TransactionQueue) (a : Z) : Z :=
  let ret := match m_currentByAddressAndNonce q !! a with
             | Some m => match last_key m with Some n => u256 (n + 1) | None => 0 end
             | None => 0
             end in
  match m_future q !! a with
  | Some m => match last_key m with Some n => Z.max ret (u256 (n + 1)) | None => ret end
  | None => ret
  end.
Definition maxNonce := maxNonce_WITH_LOCK.

Definition waiting (q : TransactionQueue) (a : Z) : Z :=
  let ret := match m_currentByAddressAndNonce q !! a with Some m => u32 (Z.of_nat (size m)) | None => 0 end in
  match m_future q !! a with Some m => u32 (ret + Z.of_nat (size m)) | None => ret end.

(** The transactions from [cutoff] on go to the future ones. *)
Fixpoint defer (ms : list Z) (nonces : gmap Z Z) (from : Z) : M unit :=
  match ms with
  | [] => sret tt
  | k :: ms =>
      q <- sget ;;
      it <- slift (rget (nonces !! k)) ;;
      t <- slift (rget (deref_it it q)) ;;
      h <- sha3_of t ;;
      smod (set_byHash (delete h (m_currentByHash q))) ;;
      let target := default ∅ (m_future q !! from) in
      let target := match target !! t_nonce t with Some _ => target | None => <[t_nonce t := t]> target end in
      smod (erase_it it) ;;
      smod (set_future (<[from := target]> (m_future q)) (u32 (m_futureSize q + 1))) ;;
      defer ms nonces from
  end.

Definition setFuture (txHash : Z) : M unit :=
  q <- sget ;;
  match m_currentByHash q !! txHash with
  | None => sret tt
  | Some it =>
      st <- slift (rget (deref_it it q)) ;;
      from <- from_of st ;;
      let nonces := default ∅ (m_currentByAddressAndNonce q !! from) in
      smod (set_future (<[from := default ∅ (m_future q !! from)]> (m_future q)) (m_futureSize q)) ;;
      let cutoff := keys_from (t_nonce st) nonces in
      defer cutoff nonces from ;;
      smod (fun q => set_byNonce (erase_keys from cutoff (m_currentByAddressAndNonce q)) q)
  end.

Definition drop_transaction (txHash : Z) : M unit :=
  q <- sget ;;
  if decide (txHash ∈ m_known q) then
    smod (set_dropped ({[txHash]} ∪ m_dropped q)) ;;
    remove_WITH_LOCK txHash ;;
    sret tt
  else sret tt.

Definition dropGood (t : TransactionBase) : M unit :=
  makeCurrent_WITH_LOCK t ;;
  h <- sha3_of t ;;
  q <- sget ;;
  if decide (h ∈ m_known q) then
    h' <- sha3_of t ;;
    remove_WITH_LOCK h' ;;
    sret tt
  else sret tt.

Definition clear_queue (q : TransactionQueue) : TransactionQueue :=
  mkTransactionQueue ∅ ∅ [] ∅ ∅ ∅ (m_limit q) (m_futureLimit q) 0 (m_unverified q) (next_handle q) (signals q).

Record Status := mkStatus { s_current : Z; s_future : Z; s_unverified : Z; s_dropped : Z }.
Definition status (q : TransactionQueue) : Status :=
  mkStatus (Z.of_nat (size (m_currentByHash q))) (Z.of_nat (size (m_future q))) (lenZ (m_unverified q)) (Z.of_nat (size (m_dropped q))).

(** ** Verification *)

Definition c_maxVerificationQueueSize : Z := 8192.

(** [for (i = i; i < itemCount; ++i)] *)
Fixpoint enqueue_loop (fuel : nat) (i itemCount : Z) (data : RLP) (nodeId : Z) : M unit :=
  match fuel with
  | O => sret tt
  | S f =>
      if i <? itemCount then
        q <- sget ;;
        if c_maxVerificationQueueSize <=? lenZ (m_unverified q) then sret tt
        else
          r <- slift (tx_rlp (subscript i data)) ;;
          smod (set_unverified (m_unverified q ++ [mkUnverified (fst r) nodeId])) ;;
          enqueue_loop f (i + 1) itemCount (snd r) nodeId
      else sret tt
  end.
Definition enqueue (data : list Z) (nodeId : Z) : M unit :=
  n <- slift (tx_rlp (itemCount data)) ;;
  enqueue_loop (Z.to_nat (u32 n)) 0 (u32 n) (fresh_RLP data) nodeId.

(** One turn of [verifierBody], when there is something to verify: a bad
    transaction is dropped. *)
Definition verify_next : M unit :=
  q <- sget ;;
  match m_unverified q with
  | [] => sret tt
  | work :: rest =>
      smod (set_unverified rest) ;;
      (fun q =>
         match (t <- slift (parse_transaction (u_transaction work) CheckCheap) ;;
                ir <- import_transaction t Ignore ;;
                h <- sha3_of t ;;
                smod (emit (onImport ir h (u_nodeId work)))) q with
         | (Error _, q') => (Value tt, q')
         | r => r
         end)
  end.
End Queue.
