(* ===== verification/TxCodec.v ===== *)
(** * Transactions on the wire

    A transaction is a list of nine items; what [streamRLP] writes for it,
    [TransactionBase(rlp, checkSig)] reads back, and its hash is defined.  The instances that the witnesses about
    transactions and their queue run on come first. *)
From stdpp Require Import base list gmap.
From Stdlib Require Import ZArith Lia.
From S2P Require Import Prelude Words Result Rlp RlpSpec RlpRead RlpTheorems RlpInt Account State Schedule Transaction TxQueue TestDB.

(** ** Executable instances

    A recovery that knows nobody for small [r], a multiset that inserts before
    the first greater element, and a transaction. *)

(** libsecp256k1: the public key is found in [r]. *)
#[export] Instance TestRecover : Secp256k1 := {|
  recover v _ := if sig_r v <? 100 then [0; 0] else [sig_r v mod 256; 1];
  sign_hash _ h := mkSignatureStruct (h mod 1000 + 100) 7 0
|}.

Fixpoint insert_before {E A} (less : A -> A -> result E bool) (x : A) (l : list A) : result E (list A) :=
  match l with
  | [] => Value [x]
  | y :: l => (b <- less x y ;; if b : bool then Value (x :: y :: l) else r <- insert_before less x l ;; Value (y :: r))%result
  end.

#[export] Program Instance TestMultiset : Multiset := { emplace E A less x l := insert_before less x l }.
Next Obligation. done. Qed.
Next Obligation.
  intros E A less x l Hl. induction l as [|y l IH]; [by exists [], []|]. destruct (Hl y) as [[b Hb] _]; [left|].
  cbn. rewrite Hb. cbn. destruct b; [by exists [], (y :: l)|].
  destruct IH as (l1 & l2 & -> & ->); [intros a Ha; apply Hl; by right|]. by exists (y :: l1), l2.
Qed.
Next Obligation. intros E A less x [|y l] e Hne Hl; [done|]. cbn. destruct (Hl y) as [-> _]; [left|]. done. Qed.

(** A call to [0xdd], signed with [r]. *)
Definition test_transfer (nonce gasPrice r : Z) : TransactionBase :=
  mkTransactionBase MessageCall nonce 0 0xdd gasPrice 21000 [] (Some (mkSignatureStruct r 7 0)) (-4) 0 0.

Open Scope result_scope.

(** The ranges of the members' types. *)
Record tx_ok (t : TransactionBase) : Prop := {
  ok_nonce : is_u256 (t_nonce t);
  ok_gasPrice : is_u256 (m_gasPrice t);
  ok_gas : is_u256 (t_gas t);
  ok_value : is_u256 (t_value t);
  ok_to : 0 <= m_receiveAddress t < 2 ^ 160;
  ok_data : byte_list (t_data t) /\ lenZ (t_data t) < 2 ^ 62;
  ok_chain : - 2 ^ 31 <= m_chainId t < 2 ^ 31;
  ok_vrs : forall v, m_vrs t = Some v -> is_u256 (sig_r v) /\ is_u256 (sig_s v) /\ 0 <= sig_v v < 256
}.

(** ** Writing *)

Definition to_bytes (t : TransactionBase) : list Z := match m_type t with MessageCall => addr_bytes (m_receiveAddress t) | _ => [] end.
Definition tx_fields (t : TransactionBase) : list item :=
  [Str (int_bytes (t_nonce t)); Str (int_bytes (m_gasPrice t)); Str (int_bytes (t_gas t)); Str (to_bytes t);
   Str (int_bytes (t_value t)); Str (t_data t)].
Definition sig_fields (v r s : Z) : list item := [Str (int_bytes v); Str (int_bytes r); Str (int_bytes s)].
Definition v_field (t : TransactionBase) (v : SignatureStruct) : Z :=
  u32 (if hasZeroSignature t then m_chainId t else sig_v v + (m_chainId t * 2 + 35)).

Lemma tx_rlp_bind {A B} (m : res A) (f : A -> res B) : tx_rlp (rbind m f) = rbind (tx_rlp m) (fun a => tx_rlp (f a)).
Proof. by destruct m. Qed.

Lemma u32_u256 z : is_u256 (u32 z).
Proof. unfold u32. pose proof (Z.mod_pos_bound z (2 ^ 32) ltac:(lia)). lia. Qed.

Lemma append_int_items (v : Z) its s : is_u256 v -> append_items (Str (int_bytes v) :: its) s = (s <- append_int v s ;; append_items its s).
Proof. intros Hv. cbn [append_items]. by rewrite append_int_item. Qed.

(** The fields of the transaction, before the end of the list. *)
Lemma stream_fields t s {A} (k : RLPStream -> result tx_error A) : tx_ok t ->
  (s <- tx_rlp (append_int (t_nonce t) s) ;; s <- tx_rlp (append_int (m_gasPrice t) s) ;; s <- tx_rlp (append_int (t_gas t) s) ;;
   s <- tx_rlp (match m_type t with MessageCall => append_bytes false (addr_bytes (m_receiveAddress t)) s | _ => append_bytes false [] s end) ;;
   s <- tx_rlp (append_int (t_value t) s) ;; s <- tx_rlp (append_bytes false (t_data t) s) ;; k s) =
  rbind (tx_rlp (append_items (tx_fields t) s)) k.
Proof.
  intros []. unfold tx_fields. rewrite append_int_items, tx_rlp_bind by done. destruct (tx_rlp (append_int (t_nonce t) s)) as [s1| | |]; try done. cbn [rbind].
  rewrite append_int_items, tx_rlp_bind by done. destruct (tx_rlp (append_int (m_gasPrice t) s1)) as [s2| | |]; try done. cbn [rbind].
  rewrite append_int_items, tx_rlp_bind by done. destruct (tx_rlp (append_int (t_gas t) s2)) as [s3| | |]; try done. cbn [rbind].
  cbn [append_items append_item]. rewrite tx_rlp_bind. unfold to_bytes.
  replace (match m_type t with MessageCall => append_bytes false (addr_bytes (m_receiveAddress t)) s3 | _ => append_bytes false [] s3 end)
    with (append_bytes false match m_type t with MessageCall => addr_bytes (m_receiveAddress t) | _ => [] end s3) by (by destruct (m_type t)).
  destruct (tx_rlp (append_bytes false _ s3)) as [s4| | |]; try done. cbn [rbind].
  rewrite tx_rlp_bind, append_int_item by done. cbn [append_item]. destruct (tx_rlp (append_bytes false (int_bytes (t_value t)) s4)) as [s5| | |]; try done. cbn [rbind].
  rewrite tx_rlp_bind. by destruct (tx_rlp (append_bytes false (t_data t) s5)).
Qed.

Lemma addr_bytes_facts a : byte_list (addr_bytes a) /\ lenZ (addr_bytes a) = 20.
Proof. split; [apply toBigEndian_bytes|by apply (lenZ_toBigEndian 20)]. Qed.

Definition tx_item (t : TransactionBase) (extra : list item) : item := Lst (tx_fields t ++ extra).

Definition fields_ok (extra : list item) : Prop := Forall (fun it => exists bs, it = Str bs /\ byte_list bs /\ lenZ bs <= 32) extra /\ lenZ extra <= 3.

Lemma int_bytes_ok i : is_u256 i -> byte_list (int_bytes i) /\ lenZ (int_bytes i) <= 32.
Proof. intros Hi. destruct (int_bytes_facts i ltac:(lia)) as (Hb & Hl & _). pose proof (u256_bytes i Hi). split; [done|lia]. Qed.

Lemma fields_length (l : list item) : Forall (fun it => exists bs, it = Str bs /\ byte_list bs /\ lenZ bs <= 32) l ->
  lenZ (concat (map encode l)) <= 41 * lenZ l.
Proof.
  induction 1 as [|it l (bs & -> & Hb & Hl) _ IH]; [done|]. cbn [map concat encode]. rewrite lenZ_app, lenZ_cons.
  pose proof (encode_str_length bs ltac:(lia)). lia.
Qed.

Lemma tx_item_ok t extra : tx_ok t -> fields_ok extra ->
  item_ok (tx_item t extra) /\ 0 < lenZ (encode (tx_item t extra)) < 2 ^ 63.
Proof.
  intros [Hn Hgp Hg Hv Hto [Hdb Hdl] _ _] [Hex Hexl].
  assert (Hadr : byte_list (to_bytes t) /\ lenZ (to_bytes t) <= 32).
  { destruct (addr_bytes_facts (m_receiveAddress t)). unfold to_bytes. destruct (m_type t); (split; [done || constructor|done || lia]). }
  set (small := [Str (int_bytes (t_nonce t)); Str (int_bytes (m_gasPrice t)); Str (int_bytes (t_gas t)); Str (to_bytes t); Str (int_bytes (t_value t))]).
  assert (Hsmall : Forall (fun it => exists bs, it = Str bs /\ byte_list bs /\ lenZ bs <= 32) small).
  { unfold small. repeat (apply Forall_cons; split); try apply Forall_nil_2; eexists; (split; [done|]); auto using int_bytes_ok. }
  assert (Hitems : forall l, Forall (fun it => exists bs, it = Str bs /\ byte_list bs /\ lenZ bs <= 32) l -> Forall item_ok l).
  { intros l Hl. eapply Forall_impl; [exact Hl|]. intros it (bs & -> & Hb & Hlen). by apply ok_str. }
  assert (Hsplit : tx_fields t ++ extra = small ++ [Str (t_data t)] ++ extra) by done.
  unfold tx_item. rewrite Hsplit. split.
  - apply ok_lst. rewrite !Forall_app. split_and!; [by apply Hitems| |by apply Hitems]. by apply Forall_singleton, ok_str.
  - cbn [encode]. cbv zeta. rewrite !map_app, !concat_app. rewrite lenZ_app.
    match goal with |- context [header 192 (lenZ ?q)] => set (p := q) end.
    assert (Hp : 0 < lenZ p < 2 ^ 62 + 1000).
    { unfold p. rewrite !lenZ_app. pose proof (fields_length small Hsmall) as H1. pose proof (fields_length extra Hex).
      change (lenZ small) with 5 in H1. cbn [map concat encode]. rewrite app_nil_r. pose proof (encode_str_length (t_data t) ltac:(lia)).
      pose proof (lenZ_nonneg (concat (map encode small))). pose proof (lenZ_nonneg (concat (map encode extra))). lia. }
    pose proof (header_length 192 (lenZ p) ltac:(lia)). lia.
Qed.

Lemma stream_tail t extra tail : tx_ok t -> fields_ok extra -> (forall s, tail s = tx_rlp (append_items extra s)) ->
  (s <- (s <- tx_rlp (appendList (lenZ extra + 6) empty_stream) ;; rbind (tx_rlp (append_items (tx_fields t) s)) tail) ;; tx_rlp (stream_out s)) =
  Value (encode (tx_item t extra)).
Proof.
  intros Ht He Htail. destruct (tx_item_ok t extra Ht He) as [Hok Hl].
  pose proof (append_item_empty _ Hok ltac:(lia)) as Happ. unfold rlp_of, tx_item in Happ. rewrite append_item_Lst in Happ.
  assert (Hlen : lenZ (tx_fields t ++ extra) = lenZ extra + 6) by (rewrite lenZ_app; change (lenZ (tx_fields t)) with 6; lia).
  rewrite Hlen in Happ. destruct (appendList (lenZ extra + 6) empty_stream) as [s| | |]; try done. cbn [rbind tx_rlp] in *.
  rewrite append_items_app in Happ. destruct (append_items (tx_fields t) s) as [s1| | |]; try done. cbn [rbind tx_rlp] in *.
  rewrite Htail. destruct (append_items extra s1) as [s2| | |]; try done. cbn [rbind tx_rlp] in *.
  destruct (stream_out s2); try done. cbn in *. congruence.
Qed.

Lemma sig_fields_ok v r s : is_u256 v -> is_u256 r -> is_u256 s -> fields_ok (sig_fields v r s).
Proof.
  intros. split; [|done]. unfold sig_fields. repeat (apply Forall_cons; split); try apply Forall_nil_2; eexists; (split; [done|]); by apply int_bytes_ok.
Qed.

Lemma sig_tail v r s0 s : is_u256 r -> is_u256 s0 ->
  (s <- tx_rlp (append_C_int v s) ;; s <- tx_rlp (append_int r s) ;; tx_rlp (append_int s0 s)) = tx_rlp (append_items (sig_fields (u32 v) r s0) s).
Proof.
  intros Hr Hs. unfold sig_fields, append_C_int. pose proof (u32_u256 v).
  rewrite append_int_items, tx_rlp_bind by done. destruct (tx_rlp (append_int (u32 v) s)) as [s1| | |]; try done. cbn [rbind].
  rewrite append_int_items, tx_rlp_bind by done. destruct (tx_rlp (append_int r s1)) as [s2| | |]; try done. cbn [rbind].
  rewrite append_int_items, tx_rlp_bind by done. by destruct (append_int s0 s2).
Qed.

(** What is written: the transaction with its signature, and what is hashed to
    be signed, with the chain id in its place or not. *)
Lemma stream_signed t v e : tx_ok t -> is_null t = false -> m_vrs t = Some v ->
  (s <- streamRLP WithSignature e t empty_stream ;; tx_rlp (stream_out s)) =
  Value (encode (tx_item t (sig_fields (v_field t v) (sig_r v) (sig_s v)))).
Proof.
  intros Ht Hn Hv. destruct (ok_vrs t Ht v Hv) as (Hr & Hs & _). unfold streamRLP. rewrite Hn. cbn [orb].
  rewrite <- (stream_tail t _ (fun s => s <- tx_rlp (if hasZeroSignature t then append_C_int (m_chainId t) s
     else append_C_int (sig_v v + (m_chainId t * 2 + 35)) s) ;; s <- tx_rlp (append_int (sig_r v) s) ;; tx_rlp (append_int (sig_s v) s)));
    [|done|by apply sig_fields_ok; [apply u32_u256|..]|].
  - change (lenZ (sig_fields _ _ _) + 6) with (3 + 6). destruct (tx_rlp (appendList (3 + 6) empty_stream)) as [s| | |]; try done. cbn [rbind].
    by rewrite stream_fields, Hv.
  - intros s. unfold v_field. destruct (hasZeroSignature t); by apply sig_tail.
Qed.

Lemma stream_unsigned t e : tx_ok t -> is_null t = false ->
  (s <- streamRLP WithoutSignature e t empty_stream ;; tx_rlp (stream_out s)) =
  Value (encode (tx_item t (if e then sig_fields (u32 (m_chainId t)) 0 0 else []))).
Proof.
  intros Ht Hn. unfold streamRLP. rewrite Hn. cbn [orb]. destruct e.
  - rewrite <- (stream_tail t _ (fun s => s <- tx_rlp (append_C_int (m_chainId t) s) ;; s <- tx_rlp (append_C_int 0 s) ;; tx_rlp (append_C_int 0 s)));
      [|done|by apply sig_fields_ok; [apply u32_u256|..]|].
    + change (lenZ (sig_fields _ _ _) + 6) with (3 + 6). destruct (tx_rlp (appendList (3 + 6) empty_stream)) as [s| | |]; try done. cbn [rbind].
      by rewrite stream_fields.
    + intros s. change 0 with (u32 0) at 3 4. by apply (sig_tail (m_chainId t) 0 0).
  - rewrite <- (stream_tail t [] (fun s => Value s)); [|done|by split; [constructor|]|done].
    change (lenZ [] + 6) with (0 + 6). destruct (tx_rlp (appendList (0 + 6) empty_stream)) as [s| | |]; try done. cbn [rbind].
    by rewrite stream_fields.
Qed.

(** ** Hashes and senders *)

Section Hash.
  Context `{Sha3} `{!Secp256k1}.

(** A transaction has a hash, unless it is asked for the hash of the signature it
    does not have. *)
Lemma tx_hash_signed t v : tx_ok t -> is_null t = false -> m_vrs t = Some v -> exists h, tx_hash WithSignature t = Value h.
Proof.
  intros Ht Hn Hv. unfold tx_hash. destruct (negb (m_hashWith t =? 0)); [by eexists|].
  pose proof (stream_signed t v false Ht Hn Hv) as Hst. destruct (streamRLP WithSignature false t empty_stream) as [s| | |]; try done. cbn [rbind] in *.
  rewrite Hst. cbn. by eexists.
Qed.

Lemma tx_hash_unsigned t : tx_ok t -> is_null t = false -> exists h, tx_hash WithoutSignature t = Value h.
Proof.
  intros Ht Hn. unfold tx_hash. pose proof (stream_unsigned t (0 <? m_chainId t) Ht Hn) as Hst.
  destruct (streamRLP WithoutSignature _ t empty_stream) as [s| | |]; try done. cbn [rbind] in *. rewrite Hst. cbn. by eexists.
Qed.

Lemma sender_returns t : tx_ok t -> is_null t = false -> returns (sender t) (fun _ => True).
Proof.
  intros Ht Hn. unfold sender. destruct (negb _); [done|]. destruct (hasZeroSignature t); [done|]. destruct (m_vrs t) as [v|]; [|done].
  destruct (tx_hash_unsigned t Ht Hn) as [h ->]. cbn. by destruct (forallb _ _).
Qed.

Lemma safeSender_value t : tx_ok t -> is_null t = false -> exists a, safeSender t = Value a.
Proof. intros Ht Hn. pose proof (sender_returns t Ht Hn) as Hs. unfold safeSender. destruct (sender t); try done; by eexists. Qed.
End Hash.

(** ** Reading *)

(** Two's complement in [n] bits. *)
Definition signed (n z : Z) : Z := (z + 2 ^ (n - 1)) mod 2 ^ n - 2 ^ (n - 1).

Lemma signed_mod n z : signed n z mod 2 ^ n = z mod 2 ^ n.
Proof. unfold signed. rewrite Zminus_mod_idemp_l. f_equal. lia. Qed.

Lemma signed_eq n a b : a mod 2 ^ n = b mod 2 ^ n -> signed n a = signed n b.
Proof. intros Hab. unfold signed. by rewrite <- (Zplus_mod_idemp_l a), Hab, Zplus_mod_idemp_l. Qed.

(** A signed integer is read modulo its width. *)
Lemma fromBigEndianT_signed n size bs : byte_list bs -> fromBigEndianT (mkIntType size (signed n)) bs = signed n (be_val bs).
Proof.
  unfold fromBigEndianT, be_val. induction bs as [|b bs IH] using rev_ind; intros Hb.
  { cbn. unfold signed. destruct (Z.lt_ge_cases n 0).
    - rewrite (Z.pow_neg_r 2 n), (Z.pow_neg_r 2 (n - 1)) by lia. done.
    - destruct (Z.eq_dec n 0) as [->|]; [done|]. pose proof (Z.pow_pos_nonneg 2 (n - 1)). replace n with (Z.succ (n - 1)) at 2 by lia.
      rewrite Z.pow_succ_r, Z.mod_small by lia. lia. }
  apply Forall_app in Hb as [Hbs Hb]. apply Forall_cons_1 in Hb as [Hb _]. cbv beta in Hb.
  rewrite !foldl_app. cbn [foldl]. rewrite IH by done. fold (be_val bs). cbn [wrap].
  rewrite !lor_shiftl_add by lia. apply signed_eq.
  by rewrite <- Zplus_mod_idemp_l, <- Zmult_mod_idemp_l, signed_mod, Zmult_mod_idemp_l, Zplus_mod_idemp_l.
Qed.

Lemma i32_eq a b : a mod 2 ^ 32 = b mod 2 ^ 32 -> i32 a = i32 b.
Proof. apply (signed_eq 32). Qed.

Lemma i32_small z : - 2 ^ 31 <= z < 2 ^ 31 -> i32 z = z.
Proof. intros Hz. unfold i32. rewrite Z.mod_small; lia. Qed.

Lemma i32_u32 z : i32 (u32 z) = i32 z.
Proof. apply i32_eq. unfold u32. by apply Z.mod_mod. Qed.

(** An [int] is read modulo its width. *)
Lemma fromBigEndianT_int bs : byte_list bs -> fromBigEndianT T_int bs = i32 (be_val bs).
Proof. apply (fromBigEndianT_signed 32 4). Qed.

Lemma toInt_int z : toInt T_int Strict (encode_str (int_bytes (u32 z))) = Value (i32 z).
Proof.
  pose proof (Z.mod_pos_bound z (2 ^ 32) ltac:(lia)) as Hz. fold (u32 z) in Hz.
  destruct (int_bytes_facts (u32 z) ltac:(lia)) as (Hb & Hl & Hv & Hnz). pose proof (byte_size_le (u32 z) 4 ltac:(lia) ltac:(lia)).
  rewrite toInt_encode by (done || lia). rewrite Hnz, Hl. change (maxSize T_int) with 4. cbn [negb].
  destruct (Z.ltb_spec 4 (byte_size (u32 z))); [lia|]. by rewrite fromBigEndianT_int, Hv, i32_u32.
Qed.

Lemma isEmpty_addr a : Rlp.isEmpty (encode_str (addr_bytes a)) = false.
Proof.
  destruct (addr_bytes_facts a) as [_ Hl]. destruct (addr_bytes a) as [|b [|c bs]] eqn:E; [done..|]. cbn [encode_str]. rewrite <- E, Hl in *. done.
Qed.

Lemma isData_str bs : byte_list bs -> lenZ bs < 2 ^ 62 -> isData (encode_str bs) = true.
Proof. intros Hb Hl. destruct (encode_str_frame bs Hb Hl) as [Hf _]. by rewrite (fr_data _ _ _ Hf). Qed.

Lemma be_val_addr a : 0 <= a < 2 ^ 160 -> be_val (addr_bytes a) = a.
Proof. intros Ha. unfold addr_bytes. rewrite be_val_toBigEndian by lia. by apply Z.mod_small. Qed.

(** The transaction as its bytes have it: nothing is remembered. *)
Definition received (t : TransactionBase) : TransactionBase :=
  mkTransactionBase (m_type t) (t_nonce t) (t_value t) (m_receiveAddress t) (m_gasPrice t) (t_gas t) (t_data t) (m_vrs t) (m_chainId t) 0 0.

(** The signatures whose bytes say which chain they are for: the chain ids are
    positive, or absent. *)
Definition readable (c : CheckTransaction) (t : TransactionBase) (v : SignatureStruct) : Prop :=
  (isZeroSignature (sig_r v) (sig_s v) = true /\ sig_v v = 0) \/
  (isZeroSignature (sig_r v) (sig_s v) = false /\ (sig_v v = 0 \/ sig_v v = 1) /\ (m_chainId t = -4 \/ 1 <= m_chainId t < 2 ^ 30 - 18) /\
   (c = CheckNone \/ isValid v = true)).

Lemma read_signature_spec c t v : tx_ok t -> m_vrs t = Some v -> readable c t v ->
  read_signature c (i32 (v_field t v)) (sig_r v) (sig_s v) = Value (m_chainId t, v).
Proof.
  intros Ht Hv Hr. pose proof (ok_chain t Ht) as Hc. unfold v_field, read_signature, hasZeroSignature. rewrite Hv, i32_u32.
  destruct v as [r s w]. unfold readable in Hr. cbn [sig_r sig_s sig_v] in *. destruct Hr as [[Hz ->]|(Hz & Hw & Hch & Hval)]; rewrite Hz.
  { by rewrite i32_small by lia. }
  assert (Hi : i32 (w + (m_chainId t * 2 + 35)) = w + (m_chainId t * 2 + 35)) by (apply i32_small; lia). rewrite Hi.
  assert (Hcid : (if 36 <? w + (m_chainId t * 2 + 35) then Value (Z.quot (w + (m_chainId t * 2 + 35) - 35) 2)
    else if (w + (m_chainId t * 2 + 35) =? 27) || (w + (m_chainId t * 2 + 35) =? 28) then Value (-4) else Error InvalidSignature) = Value (E := tx_error) (m_chainId t)).
  { destruct (Z.ltb_spec 36 (w + (m_chainId t * 2 + 35))).
    - f_equal. replace (w + (m_chainId t * 2 + 35) - 35) with (w + m_chainId t * 2) by lia. rewrite Z.quot_div_nonneg, Z.div_add by lia.
      rewrite Z.div_small; lia.
    - assert (m_chainId t = -4) as -> by lia. by destruct Hw as [-> | ->]. }
  rewrite Hcid. cbn [rbind].
  assert (Hu : u8 (w + (m_chainId t * 2 + 35) - (m_chainId t * 2 + 35)) = w) by (rewrite Z.add_simpl_r; unfold u8; apply Z.mod_small; lia).
  rewrite Hu. destruct Hval as [->|Hval]; [done|]. rewrite Hval. by destruct c.
Qed.

(** The encoding of a list is accepted and has its number of items. *)
Lemma list_facts l : item_ok (Lst l) -> lenZ (encode (Lst l)) < 2 ^ 63 ->
  mkRLP VeryStrict (encode (Lst l)) = Value (encode (Lst l)) /\ isList (encode (Lst l)) = true /\ itemCount (encode (Lst l)) = Value (lenZ l).
Proof.
  intros Hok Hl. pose proof (encode_frame _ Hok Hl) as Hf. cbv beta iota in Hf. pose proof (frame_of_payload _ _ _ Hf) as [Hp _].
  destruct (frame_of_facts _ _ _ Hf ltac:(lia)) as [_ Hpay Hlist _ _ _ _ _].
  split; [by apply mkRLP_framed, encode_framed|]. split; [done|].
  assert (Hframes : Forall framed (map encode l)).
  { inversion Hok as [|? Hall]; subst. apply Forall_fmap, Forall_forall. intros it Hin. apply encode_framed.
    - by apply (proj1 (Forall_forall _ _) Hall).
    - pose proof (encode_members l it ltac:(lia) Hin). lia. }
  unfold itemCount, items. rewrite Hlist, Hpay. cbn [rbind]. pose proof (concat_framed_length _ Hframes).
  rewrite items_loop_framed by (done || lia). f_equal. unfold lenZ. rewrite length_map. lia.
Qed.

(** The next read is of the item [k], which is [b]. *)
Ltac next_item Hat Hc k b :=
  let r := fresh "r" in let Hc' := fresh "Hc" in
  destruct (Hat k _ ltac:(lia) Hc) as (r & -> & Hc'); clear Hc; rename Hc' into Hc; cbn [tx_rlp rbind fst snd];
  change (default [] (map encode _ !! Z.to_nat k)) with b.

Section Parse.
  Context `{Sha3} `{!Secp256k1}.

(** The constructor on the encoding of a list of items that start with the nine
    of a transaction. *)
Lemma parse_items c t v e l : tx_ok t -> is_null t = false -> (isCreation t = true -> m_receiveAddress t = 0) ->
  m_vrs t = Some v -> readable c t v -> l = tx_fields t ++ sig_fields (v_field t v) (sig_r v) (sig_s v) ->
  mkRLP VeryStrict e = Value e -> isList e = true -> itemCount e = Value 9 ->
  (forall k r, 0 <= k < 2 ^ 64 - 1 -> cache_ok e (map encode l) r ->
    exists r', subscript k r = Value (default [] (map encode l !! Z.to_nat k), r') /\ cache_ok e (map encode l) r') ->
  parse_transaction e c = match c with CheckEverything => with_sender (received t) | _ => Value (received t) end.
Proof.
  intros Ht Hn Hcr Hv Hread -> Hmk Hlist Hcount Hat. destruct (ok_vrs t Ht v Hv) as (Hr & Hs & Hw).
  pose proof Ht as [Hno Hgp Hg Hva Hto [Hdb Hdl] _ _]. pose proof (cache_ok_fresh e (map encode (tx_fields t ++ sig_fields (v_field t v) (sig_r v) (sig_s v)))) as Hc.
  assert (Hadr : forall r0, cache_ok e (map encode (tx_fields t ++ sig_fields (v_field t v) (sig_r v) (sig_s v))) r0 ->
    exists r', cache_ok e (map encode (tx_fields t ++ sig_fields (v_field t v) (sig_r v) (sig_s v))) r' /\
    (if Rlp.isEmpty (encode_str (to_bytes t)) then Value (replicate 20 0, r0)
     else i <- tx_rlp (subscript 3 r0) ;; a <- tx_rlp (toHash 20 VeryStrict (fst i)) ;; Value (a, snd i)) =
      Value (E := tx_error) (match m_type t with MessageCall => addr_bytes (m_receiveAddress t) | _ => replicate 20 0 end, r')).
  { intros r0 Hr0. unfold to_bytes. destruct (m_type t) eqn:Ety; [by exists r0..|]. rewrite isEmpty_addr.
    destruct (Hat 3 _ ltac:(lia) Hr0) as (r' & -> & Hc'). exists r'. split; [done|]. cbn [tx_rlp rbind fst snd].
    assert (Hto3 : to_bytes t = addr_bytes (m_receiveAddress t)) by (unfold to_bytes; by rewrite Ety).
    change (default [] (map encode _ !! Z.to_nat 3)) with (encode_str (to_bytes t)). rewrite Hto3.
    destruct (addr_bytes_facts (m_receiveAddress t)) as [Hab Hal]. by rewrite (toHash_encode_any 20). }
  unfold parse_transaction. rewrite Hmk. cbn [tx_rlp rbind]. rewrite Hlist. cbn [negb throw_if rbind].
  next_item Hat Hc 0 (encode_str (int_bytes (t_nonce t))). rewrite toInt_u256 by done. cbn [tx_rlp rbind].
  next_item Hat Hc 1 (encode_str (int_bytes (m_gasPrice t))). rewrite toInt_u256 by done. cbn [tx_rlp rbind].
  next_item Hat Hc 2 (encode_str (int_bytes (t_gas t))). rewrite toInt_u256 by done. cbn [tx_rlp rbind].
  next_item Hat Hc 3 (encode_str (to_bytes t)). next_item Hat Hc 3 (encode_str (to_bytes t)).
  match type of Hc with cache_ok _ _ ?r3 => destruct (Hadr r3 Hc) as (ra & Hca & ->) end. clear Hc. rename Hca into Hc. cbn [rbind fst snd].
  next_item Hat Hc 4 (encode_str (int_bytes (t_value t))). rewrite toInt_u256 by done. cbn [tx_rlp rbind].
  next_item Hat Hc 5 (encode_str (t_data t)). rewrite isData_str by done. cbn [negb throw_if rbind].
  next_item Hat Hc 5 (encode_str (t_data t)). rewrite toBytes_encode by done. cbn [tx_rlp rbind].
  next_item Hat Hc 6 (encode_str (int_bytes (v_field t v))). unfold v_field at 1. rewrite toInt_int. cbn [tx_rlp rbind].
  next_item Hat Hc 7 (encode_str (int_bytes (sig_r v))). rewrite toInt_u256 by done. cbn [tx_rlp rbind].
  next_item Hat Hc 8 (encode_str (int_bytes (sig_s v))). rewrite toInt_u256 by done. cbn [tx_rlp rbind].
  rewrite <- i32_u32. fold (v_field t v). rewrite read_signature_spec by done. cbn [rbind fst snd].
  assert (Hrec : mkTransactionBase (if Rlp.isEmpty (encode_str (to_bytes t)) then ContractCreation else MessageCall) (t_nonce t) (t_value t)
    (be_val (match m_type t with MessageCall => addr_bytes (m_receiveAddress t) | _ => replicate 20 0 end)) (m_gasPrice t) (t_gas t) (t_data t)
    (Some v) (m_chainId t) 0 0 = received t).
  { unfold received, to_bytes. rewrite Hv. unfold is_null, isCreation in *. destruct (m_type t); [done| |].
    - rewrite Hcr by done. done.
    - by rewrite isEmpty_addr, be_val_addr. }
  rewrite Hrec. destruct c; cbn [rbind]; try by rewrite Hcount.
  destruct (with_sender (received t)) as [t'| | |]; cbn [rbind]; by rewrite ?Hcount.
Qed.
End Parse.

(** ** What is read is a transaction *)

Lemma returns_tx_rlp {A} (m : res A) P : returns m P -> returns (tx_rlp m) P.
Proof. by destruct m. Qed.

Lemma fromBigEndianT_wrap T bs : fromBigEndianT T bs = 0 \/ exists x, fromBigEndianT T bs = wrap T x.
Proof. destruct bs as [|b bs _] using rev_ind; [by left|right]. unfold fromBigEndianT. rewrite foldl_app. cbn [foldl]. by eexists. Qed.

Lemma toInt_wrap T flags d : byte_list d -> returns (toInt T flags d) (fun z => z = 0 \/ exists x, z = wrap T x).
Proof.
  intros Hb. unfold toInt. eapply returns_bind; [apply requireGood_returns|]. intros [] _ _.
  eapply returns_bind; [by apply isInt_returns|]. intros int _ _. destruct (_ || _ || _); [destruct (flag _ _); [done|by left]|].
  eapply returns_bind; [by apply payload_returns|]. intros p _ _. destruct (_ && _); [destruct (flag _ _); [done|by left]|].
  apply fromBigEndianT_wrap.
Qed.

Lemma read_u256 d : byte_list d -> returns (tx_rlp (toInt T_u256 Strict d)) (fun z => is_u256 z).
Proof.
  intros Hb. apply returns_tx_rlp. eapply returns_mono; [by apply toInt_wrap|]. intros z [->|[x ->]]; [lia|]. apply Z.mod_pos_bound. lia.
Qed.

Lemma read_int d : byte_list d -> returns (tx_rlp (toInt T_int Strict d)) (fun z => - 2 ^ 31 <= z < 2 ^ 31).
Proof.
  intros Hb. apply returns_tx_rlp. eapply returns_mono; [by apply toInt_wrap|]. intros z [->|[x ->]]; [lia|]. cbn [wrap T_int]. unfold i32.
  pose proof (Z.mod_pos_bound (x + 2 ^ 31) (2 ^ 32) ltac:(lia)). lia.
Qed.

Lemma read_address d : byte_list d -> returns (tx_rlp (toHash 20 VeryStrict d)) (fun h => byte_list h /\ lenZ h = 20).
Proof.
  intros Hb. apply returns_tx_rlp. unfold toHash. eapply returns_bind; [apply requireGood_returns|]. intros [] _ _.
  eapply returns_bind; [by apply payload_returns|]. intros p _ [Hbp _]. change (flag FailIfTooBig VeryStrict) with true. change (flag FailIfTooSmall VeryStrict) with true.
  rewrite !andb_true_r. destruct (negb (isData d) || (20 <? lenZ p) || (lenZ p <? 20)) eqn:E; [done|].
  apply orb_false_iff in E as [[_ E1]%orb_false_iff E2]. assert (lenZ p = 20) as Hp by lia. rewrite Hp.
  change (Z.to_nat (20 - Z.min 20 20)) with 0%nat. change (Z.to_nat (Z.min 20 20)) with 20%nat. cbn [replicate app returns].
  split; [by apply Forall_take|]. unfold lenZ in *. rewrite length_take. lia.
Qed.

Lemma read_data d f : item_fine d f -> lenZ d < 2 ^ 62 -> returns (tx_rlp (toBytes LaissezFaire f)) (fun bs => byte_list bs /\ lenZ bs < 2 ^ 62).
Proof.
  intros (Hb & Hf & Hl) Hd. apply returns_tx_rlp. unfold toBytes. destruct (isData f) eqn:E; cbn [negb]; [|done].
  destruct Hf as [->|Hf]; [done|]. destruct (framed_facts f Hf ltac:(lia)) as (b & p & [Hlen Hpay _ Hdata _ _ (h & Hh & _) _] & Hfo).
  destruct (frame_of_payload _ _ _ Hfo) as [Hp _].
  assert (byte_list p) as Hbp by (rewrite Hh in Hb; by apply Forall_app in Hb as [_ ?]).
  rewrite Hpay. cbn [rbind]. rewrite Hlen. cbn [rbind].
  destruct (slice_Some 0 (lenZ p) p) as (bs & Hs & Hbs); [lia|apply lenZ_nonneg|right; lia|]. rewrite Hs. cbn. split; [by eapply slice_Forall|lia].
Qed.

Lemma read_signature_returns c v r s : - 2 ^ 31 <= v < 2 ^ 31 -> is_u256 r -> is_u256 s ->
  returns (read_signature c v r s) (fun x => - 2 ^ 31 <= fst x < 2 ^ 31 /\ is_u256 (sig_r (snd x)) /\ is_u256 (sig_s (snd x)) /\ 0 <= sig_v (snd x) < 256).
Proof.
  intros Hv Hr Hs. unfold read_signature. destruct (isZeroSignature r s); [cbn; split_and!; done || lia|].
  apply (returns_bind _ _ (fun c => - 2 ^ 31 <= c < 2 ^ 31)).
  - destruct (Z.ltb_spec 36 v).
    + cbn. rewrite Z.quot_div_nonneg by lia. pose proof (Z.div_pos (v - 35) 2 ltac:(lia) ltac:(lia)). pose proof (Z.div_lt_upper_bound (v - 35) 2 (2 ^ 31)). lia.
    + destruct (_ || _); [cbn; lia|done].
  - intros chain _ Hch. eapply returns_bind; [by apply (returns_throw_if _ _ (fun _ => True))|]. intros _ _ _. cbn [returns fst snd sig_r sig_s sig_v].
    split_and!; try lia; apply (u8_range).
Qed.

(** The item that was read last is read again. *)
Lemma subscript_loop_stops fuel i : forall r r', subscript_loop fuel i r = Value r' -> m_lastIndex r <= i ->
  m_lastIndex r' <= i /\ (m_lastIndex r' <? i) && negb (lenZ (m_lastItem r') =? 0) = false.
Proof.
  induction fuel as [|fuel IH]; intros r r' Hl Hi; [done|]. cbn [subscript_loop] in Hl.
  destruct ((m_lastIndex r <? i) && negb (lenZ (m_lastItem r) =? 0)) eqn:E; [|by injection Hl as <-].
  apply andb_true_iff in E as [E _]. apply rbind_Value in Hl as (p & _ & Hl). apply rbind_Value in Hl as (n & _ & Hl).
  apply IH in Hl; [done|]. cbn [m_lastIndex]. lia.
Qed.

Lemma subscript_again i r f r' : 0 <= i -> subscript i r = Value (f, r') -> subscript i r' = Value (f, r').
Proof.
  intros Hi0 Hs. unfold subscript in Hs. apply rbind_Value in Hs as (r1 & H1 & Hs). apply rbind_Value in Hs as (r2 & H2 & Hs).
  apply rbind_Value in Hs as (f' & H3 & Hs). injection Hs as -> ->.
  assert (Hi1 : m_lastIndex r1 <= i).
  { destruct (Z.ltb_spec i (m_lastIndex r)) as [Hlt|Hge]; [|by injection H1 as <-].
    apply rbind_Value in H1 as (p & _ & H1). apply rbind_Value in H1 as (n & _ & H1). injection H1 as <-. done. }
  destruct (subscript_loop_stops _ _ _ _ H2 Hi1) as [Hi2 Hstop].
  unfold subscript. destruct (Z.ltb_spec i (m_lastIndex r')); [lia|]. cbn [rbind subscript_loop]. rewrite Hstop. cbn [rbind]. by rewrite H3.
Qed.

(** Reads the item [k] of the object whose cache [Hc] is about. *)
Ltac fine_item Hb Hl Hc k :=
  eapply returns_bind; [apply returns_tx_rlp, (subscript_fine _ k _ Hb ltac:(lia) ltac:(lia) Hc)|];
  clear Hc; let f := fresh "f" in let r := fresh "r" in let Hf := fresh "Hf" in let He := fresh "He" in
  intros [f r] He [Hc Hf]; cbn [fst snd] in *.
Ltac fine_read lem := eapply returns_bind; [apply lem; match goal with H : item_fine _ ?f |- byte_list ?f => apply H end|].

Lemma itemCount_returns d : byte_list d -> returns (itemCount d) (fun _ => True).
Proof.
  intros Hb. unfold itemCount, items. destruct (isList d); [|done]. eapply returns_bind; [by apply payload_returns|]. intros p _ [Hbp _].
  apply items_loop_returns; [done|lia].
Qed.

Section Received.
  Context `{Sha3} `{!Secp256k1}.

(** What the constructor makes is a transaction with a signature. *)
Record well_received (c : CheckTransaction) (t : TransactionBase) : Prop := {
  wr_ok : tx_ok t;
  wr_null : is_null t = false;
  wr_creation : isCreation t = true -> m_receiveAddress t = 0;
  wr_vrs : exists v, m_vrs t = Some v;
  wr_hash : m_hashWith t = 0;
  wr_sender : c = CheckEverything -> exists a, sender t = Value a
}.

Lemma sender_forced t a : sender t = Value a -> sender (forceSender a t) = Value a.
Proof.
  intros Hs. unfold sender in *. cbn [m_sender forceSender]. destruct (Z.eqb_spec a 0) as [->|Hne]; [|done]. cbn [negb].
  destruct (Z.eqb_spec (m_sender t) 0) as [E|Hne]; cbn [negb] in *; [exact Hs|congruence].
Qed.

Lemma parse_returns d c : byte_list d -> lenZ d < 2 ^ 62 -> returns (parse_transaction d c) (well_received c).
Proof.
  intros Hb Hl. unfold parse_transaction. eapply returns_bind; [by apply returns_tx_rlp, mkRLP_VeryStrict_returns|]. intros ? _ [-> _].
  eapply returns_bind; [by apply (returns_throw_if _ _ (fun _ => True))|]. intros _ _ _. pose proof (cache_fine_fresh d) as Hc.
  fine_item Hb Hl Hc 0. fine_read read_u256. intros nonce _ Hno.
  fine_item Hb Hl Hc 1. fine_read read_u256. intros gasPrice _ Hgp.
  fine_item Hb Hl Hc 2. fine_read read_u256. intros gas _ Hga.
  fine_item Hb Hl Hc 3. eapply returns_bind.
  { apply returns_tx_rlp, (subscript_fine _ 3 _ Hb ltac:(lia) ltac:(lia) Hc). }
  intros i3' He3 _. assert (i3' = (f2, r2)) as ->.
  { destruct (subscript 3 r1) as [x| | |] eqn:E; try done. injection He2 as ->. apply subscript_again in E; [|done]. rewrite E in He3. by injection He3. }
  cbn [fst snd]. clear He3.
  apply (returns_bind _ _ (fun x => (byte_list (fst x) /\ lenZ (fst x) = 20) /\ cache_fine d (snd x) /\ (Rlp.isEmpty f2 = true -> fst x = replicate 20 0))).
  { destruct (Rlp.isEmpty f2) eqn:E; [cbn; split; [split; [by apply byte_list_dec|done]|done]|].
    fine_item Hb Hl Hc 3. fine_read read_address. intros a _ Ha. cbn. done. }
  intros to Hto' ([Htb Htl] & Hct & Hte). clear Hc. rename Hct into Hc. fine_item Hb Hl Hc 4. fine_read read_u256. intros value _ Hva.
  fine_item Hb Hl Hc 5. eapply returns_bind; [by apply (returns_throw_if _ _ (fun _ => True))|]. intros _ _ _.
  fine_item Hb Hl Hc 5. eapply returns_bind; [eapply read_data; [eassumption|done]|]. intros data _ [Hdb Hdl].
  fine_item Hb Hl Hc 6. fine_read read_int. intros v _ Hv. fine_item Hb Hl Hc 7. fine_read read_u256. intros sr _ Hr.
  fine_item Hb Hl Hc 8. fine_read read_u256. intros ss _ Hs.
  eapply returns_bind; [by apply read_signature_returns|]. intros sg _ (Hch & Hsr & Hss & Hsv).
  set (t := mkTransactionBase _ _ _ _ _ _ _ _ _ _ _).
  assert (Hwr : well_received CheckCheap t).
  { constructor; try done.
    - constructor; try done.
      + pose proof (be_val_range _ Htb) as Hx. rewrite Htl in Hx. exact Hx.
      + intros v' [= <-]. done.
    - unfold t. by destruct (Rlp.isEmpty f2).
    - unfold t, isCreation. cbn [m_type m_receiveAddress]. destruct (Rlp.isEmpty f2); [|done]. intros _. by rewrite Hte.
    - by exists (snd sg). }
  apply (returns_bind _ _ (well_received c)).
  { destruct Hwr as [Hok Hn Hcr Hvrs Hh _]. destruct c; [by constructor..|]. unfold with_sender. pose proof (sender_returns t Hok Hn) as Hs'.
    destruct (sender t) as [a| | |] eqn:Es; try done. cbn. constructor; try done; [by destruct Hok|]. intros _. exists a. by apply sender_forced. }
  intros t' _ Ht'. eapply returns_bind; [by apply returns_tx_rlp, itemCount_returns|]. intros n _ _. eapply returns_bind; [by apply (returns_throw_if _ _ (fun _ => True))|]. done.
Qed.
End Received.

Section Theorems.
  Context `{Sha3} `{!Secp256k1}.

(** C15. A transaction survives the wire.  What [streamRLP] writes for a signed
    transaction, the constructor reads back with every check it can be asked
    for: the same transaction, its sender recovered when that is asked for.  The
    chain id travels in the recovery value, and comes back when it is positive
    or absent. *)
Theorem transaction_roundtrip c t v :
  tx_ok t -> is_null t = false -> (isCreation t = true -> m_receiveAddress t = 0) -> m_vrs t = Some v -> readable c t v ->
  exists d, tx_bytes WithSignature t = Value d /\
    parse_transaction d c = match c with CheckEverything => with_sender (received t) | _ => Value (received t) end.
Proof.
  intros Ht Hn Hcr Hv Hread. destruct (ok_vrs t Ht v Hv) as (Hr & Hs & _).
  pose proof (u32_u256 (if hasZeroSignature t then m_chainId t else sig_v v + (m_chainId t * 2 + 35))) as Hvf. fold (v_field t v) in Hvf.
  exists (encode (tx_item t (sig_fields (v_field t v) (sig_r v) (sig_s v)))). split; [by apply stream_signed|].
  destruct (tx_item_ok t _ Ht (sig_fields_ok (v_field t v) _ _ Hvf Hr Hs)) as [Hok Hl]. unfold tx_item in *.
  set (l := tx_fields t ++ sig_fields (v_field t v) (sig_r v) (sig_s v)) in *.
  destruct (list_facts l Hok ltac:(lia)) as (Hmk & Hlist & Hcount). apply (parse_items c t v _ l); try done.
  intros k r Hk Hc. apply subscript_item; [done|lia|done|done].
Qed.

(** C37. What is accepted is a transaction.  Whatever bytes arrive, the
    constructor reads inside of them and ends; it throws, or it makes a
    transaction whose members are within their types, that has a signature and
    so a hash, and whose sender is known when it was to be recovered. *)
Theorem transaction_parse_typed d c : byte_list d -> lenZ d < 2 ^ 62 ->
  returns (parse_transaction d c) (fun t => tx_ok t /\ (isCreation t = true -> m_receiveAddress t = 0) /\
    (exists h, tx_hash WithSignature t = Value h) /\ (c = CheckEverything -> exists a, sender t = Value a)).
Proof.
  intros Hb Hl. eapply returns_mono; [by apply parse_returns|]. intros t [Hok Hn Hcr [v Hv] _ Hs]. split_and!; try done.
  by apply (tx_hash_signed t v).
Qed.
End Theorems.

(** ** The theorems at work *)

Lemma test_transfer_ok n p r : is_u256 n -> is_u256 p -> is_u256 r -> tx_ok (test_transfer n p r).
Proof. intros. constructor; cbn; try lia; try done. intros v [= <-]. cbn. lia. Qed.

Example transaction_roundtrip_witness : exists d, tx_bytes WithSignature (test_transfer 6 10 200) = Value d /\
  parse_transaction d CheckEverything = with_sender (received (test_transfer 6 10 200)).
Proof.
  apply (transaction_roundtrip CheckEverything (test_transfer 6 10 200) (mkSignatureStruct 200 7 0)); try done.
  - apply test_transfer_ok; lia.
  - right. vm_compute. auto 10.
Defined.

Example transaction_parse_typed_witness : returns (parse_transaction [0xc2; 0x05; 0x80] CheckEverything) (fun t => tx_ok t /\
  (isCreation t = true -> m_receiveAddress t = 0) /\
  (exists h, tx_hash WithSignature t = Value h) /\ (CheckEverything = CheckEverything -> exists a, sender t = Value a)).
Proof. apply (transaction_parse_typed [0xc2; 0x05; 0x80] CheckEverything); [by apply byte_list_dec|done]. Defined.
