(* ===== verification/HeaderCodec.v ===== *)
(** * Headers on the wire

    A header is a list of thirteen items and its seal; what [streamRLP] writes
    for it is read back from it and from a block, and what is read has its
    members in the ranges of their types. *)
From stdpp Require Import base list.
From Stdlib Require Import ZArith Lia.
From S2P Require Import Prelude Words Result Account Rlp RlpSpec RlpRead RlpTheorems RlpInt Transaction TxCodec BlockHeader.
Open Scope result_scope.

(** The ranges of the members' types. *)
Record header_typed (h : BlockHeader) : Prop := {
  ho_parentHash : is_u256 (h_parentHash h);
  ho_sha3Uncles : is_u256 (h_sha3Uncles h);
  ho_author : 0 <= h_author h < 2 ^ 160;
  ho_stateRoot : is_u256 (h_stateRoot h);
  ho_transactionsRoot : is_u256 (h_transactionsRoot h);
  ho_receiptsRoot : is_u256 (h_receiptsRoot h);
  ho_logBloom : 0 <= h_logBloom h < 2 ^ 2048;
  ho_difficulty : is_u256 (h_difficulty h);
  ho_number : - 2 ^ 63 <= h_number h < 2 ^ 63;
  ho_gasLimit : is_u256 (h_gasLimit h);
  ho_gasUsed : is_u256 (h_gasUsed h);
  ho_timestamp : - 2 ^ 63 <= h_timestamp h < 2 ^ 63;
  ho_extraData : byte_list (h_extraData h) /\ lenZ (h_extraData h) < 2 ^ 62
}.

(** ** Writing *)

Definition fixed_fields (h : BlockHeader) : list item :=
  [Str (h256_bytes (h_parentHash h)); Str (h256_bytes (h_sha3Uncles h)); Str (addr_bytes (h_author h)); Str (h256_bytes (h_stateRoot h));
   Str (h256_bytes (h_transactionsRoot h)); Str (h256_bytes (h_receiptsRoot h)); Str (bloom_bytes (h_logBloom h));
   Str (int_bytes (h_difficulty h)); Str (int_bytes (u32 (h_number h))); Str (int_bytes (h_gasLimit h)); Str (int_bytes (h_gasUsed h));
   Str (int_bytes (u32 (h_timestamp h)))].
Definition header_fields (h : BlockHeader) : list item := fixed_fields h ++ [Str (h_extraData h)].

Lemma append_items_cons it l s : append_items (it :: l) s = (s <- append_item it s ;; append_items l s).
Proof. done. Qed.

Lemma stream_header_fields h s : header_typed h -> streamRLPFields h s = append_items (header_fields h) s.
Proof.
  intros []. unfold streamRLPFields, header_fields, fixed_fields, append_C_int. cbn [app].
  rewrite append_items_cons. cbn [append_item]. destruct (append_bytes false (h256_bytes (h_parentHash h)) s) as [s1| | |]; cbn [rbind]; try done.
  rewrite append_items_cons. cbn [append_item]. destruct (append_bytes false (h256_bytes (h_sha3Uncles h)) s1) as [s2| | |]; cbn [rbind]; try done.
  rewrite append_items_cons. cbn [append_item]. destruct (append_bytes false (addr_bytes (h_author h)) s2) as [s3| | |]; cbn [rbind]; try done.
  rewrite append_items_cons. cbn [append_item]. destruct (append_bytes false (h256_bytes (h_stateRoot h)) s3) as [s4| | |]; cbn [rbind]; try done.
  rewrite append_items_cons. cbn [append_item]. destruct (append_bytes false (h256_bytes (h_transactionsRoot h)) s4) as [s5| | |]; cbn [rbind]; try done.
  rewrite append_items_cons. cbn [append_item]. destruct (append_bytes false (h256_bytes (h_receiptsRoot h)) s5) as [s6| | |]; cbn [rbind]; try done.
  rewrite append_items_cons. cbn [append_item]. destruct (append_bytes false (bloom_bytes (h_logBloom h)) s6) as [s7| | |]; cbn [rbind]; try done.
  pose proof (u32_u256 (h_number h)). pose proof (u32_u256 (h_timestamp h)). rewrite append_int_items by done.
  destruct (append_int (h_difficulty h) s7) as [s8| | |]; cbn [rbind]; try done. rewrite append_int_items by done.
  destruct (append_int (u32 (h_number h)) s8) as [s9| | |]; cbn [rbind]; try done. rewrite append_int_items by done.
  destruct (append_int (h_gasLimit h) s9) as [s10| | |]; cbn [rbind]; try done. rewrite append_int_items by done.
  destruct (append_int (h_gasUsed h) s10) as [s11| | |]; cbn [rbind]; try done. rewrite append_int_items by done.
  destruct (append_int (u32 (h_timestamp h)) s11) as [s12| | |]; cbn [rbind]; try done. cbn [append_items append_item]. by destruct (append_bytes false (h_extraData h) s12).
Qed.

Lemma append_seal_items its s : Forall item_ok its -> Forall (fun it => lenZ (encode it) < 2 ^ 62) its ->
  append_seal (map encode its) s = append_items its s.
Proof.
  intros Hok. revert s. induction Hok as [|it its Hit _ IH]; intros s Hl; [done|]. apply Forall_cons_1 in Hl as [Hl Hls]. cbn [map append_seal append_items].
  rewrite append_item_spec by (done || lia). unfold appendRaw. destruct (noteAppended 1 _) as [s1| | |]; cbn [rbind]; [by apply IH|done..].
Qed.

(** The seal is made of items, and all of it fits. *)
Definition seal_ok (its : list item) : Prop := Forall item_ok its /\ lenZ (concat (map encode its)) < 2 ^ 61.

Lemma seal_item_length its : lenZ (concat (map encode its)) < 2 ^ 61 -> Forall (fun it => lenZ (encode it) < 2 ^ 62) its.
Proof.
  induction its as [|it its IH]; intros Hl; constructor; cbn [map concat] in Hl; rewrite lenZ_app in Hl; pose proof (lenZ_nonneg (encode it));
    pose proof (lenZ_nonneg (concat (map encode its))); [lia|]. apply IH. lia.
Qed.

Definition header_item (h : BlockHeader) (its : list item) : item := Lst (header_fields h ++ its).

Lemma str_fits bs n : byte_list bs -> lenZ bs = n -> byte_list bs /\ lenZ bs <= n.
Proof. intros Hb <-. done. Qed.

Lemma fixed_strings h : header_typed h -> Forall (fun it => exists bs, it = Str bs /\ byte_list bs /\ lenZ bs <= 256) (fixed_fields h).
Proof.
  intros []. pose proof (u32_u256 (h_number h)). pose proof (u32_u256 (h_timestamp h)).
  assert (Hh : forall z, byte_list (h256_bytes z) /\ lenZ (h256_bytes z) <= 256) by (intros z; destruct (h256_bytes_facts z); split; [done|lia]).
  assert (Hi : forall z, is_u256 z -> byte_list (int_bytes z) /\ lenZ (int_bytes z) <= 256) by (intros z Hz; destruct (int_bytes_ok z Hz); split; [done|lia]).
  unfold fixed_fields. repeat (apply Forall_cons; split); try apply Forall_nil_2; eexists; (split; [done|]); auto.
  - destruct (addr_bytes_facts (h_author h)). split; [done|lia].
  - split; [apply toBigEndian_bytes|]. unfold bloom_bytes. rewrite (lenZ_toBigEndian 256) by lia. lia.
Qed.

Lemma strings_length (l : list item) n : 0 <= n < 2 ^ 60 -> Forall (fun it => exists bs, it = Str bs /\ byte_list bs /\ lenZ bs <= n) l ->
  lenZ (concat (map encode l)) <= (n + 9) * lenZ l /\ Forall item_ok l.
Proof.
  intros Hn. induction 1 as [|it l (bs & -> & Hb & Hl) _ [IH1 IH2]]; [split; [unfold lenZ; cbn; lia|constructor]|]. split; [|constructor; [by apply ok_str|done]].
  cbn [map concat encode]. rewrite lenZ_app, lenZ_cons. pose proof (encode_str_length bs ltac:(lia)). lia.
Qed.

Lemma header_item_ok h its : header_typed h -> seal_ok its -> item_ok (header_item h its) /\ 0 < lenZ (encode (header_item h its)) < 2 ^ 63.
Proof.
  intros Hh [Hok Hlen]. pose proof (ho_extraData h Hh) as [Heb Hel]. destruct (strings_length _ 256 ltac:(lia) (fixed_strings h Hh)) as [Hfl Hfo].
  change (lenZ (fixed_fields h)) with 12 in Hfl. unfold header_item, header_fields. split.
  - apply ok_lst. rewrite !Forall_app. split_and!; [done| |done]. by apply Forall_singleton, ok_str.
  - cbn [encode]. cbv zeta. rewrite !map_app, !concat_app, lenZ_app.
    match goal with |- context [header 192 (lenZ ?q)] => set (p := q) end.
    assert (Hp : 0 < lenZ p < 2 ^ 62 + 2 ^ 61 + 10000).
    { unfold p. rewrite !lenZ_app. cbn [map concat encode]. rewrite app_nil_r. pose proof (encode_str_length (h_extraData h) ltac:(lia)).
      pose proof (lenZ_nonneg (concat (map encode (fixed_fields h)))). pose proof (lenZ_nonneg (concat (map encode its))). lia. }
    pose proof (header_length 192 (lenZ p) ltac:(lia)). lia.
Qed.

(** What is written with and without the seal. *)
Definition sealed (i : IncludeSeal) (its : list item) : list item := match i with WithoutSeal => [] | _ => its end.

Lemma seal_nil_ok : seal_ok [].
Proof. by split; [constructor|]. Qed.

Lemma sealed_ok i its : seal_ok its -> seal_ok (sealed i its).
Proof. intros Hs. destruct i; [apply seal_nil_ok|done..]. Qed.

Lemma stream_header h its i : header_typed h -> seal_ok its -> h_seal h = map encode its -> i <> OnlySeal ->
  rlp_of (streamRLP i h) = Value (encode (header_item h (sealed i its))).
Proof.
  intros Hh Hs Hseal Hi. destruct (header_item_ok h _ Hh (sealed_ok i its Hs)) as [Hok Hl]. rewrite <- (append_item_empty _ Hok) by lia.
  unfold rlp_of, header_item. rewrite append_item_Lst. destruct Hs as [Hits Hlen]. pose proof (seal_item_length its Hlen) as Hil. unfold streamRLP, BasicFields.
  destruct i; [..|done]; cbn [sealed].
  - rewrite app_nil_r. change (lenZ (header_fields h)) with 13. destruct (appendList 13 empty_stream) as [s| | |]; cbn [rbind]; try done.
    rewrite stream_header_fields by done. by destruct (append_items (header_fields h) s).
  - rewrite Hseal. replace (lenZ (header_fields h ++ its)) with (13 + lenZ (map encode its)) by (rewrite lenZ_app; unfold lenZ; by rewrite length_map).
    destruct (appendList (13 + _) empty_stream) as [s| | |]; cbn [rbind]; try done. rewrite stream_header_fields, append_items_app by done.
    destruct (append_items (header_fields h) s) as [s1| | |]; cbn [rbind]; try done. by rewrite append_seal_items.
Qed.

(** ** Reading *)

Lemma toInt_int64 z : 0 <= z < 2 ^ 63 -> toInt T_int64 Strict (encode_str (int_bytes z)) = Value z.
Proof.
  intros Hz. destruct (int_bytes_facts z ltac:(lia)) as (Hb & Hl & Hv & Hnz). pose proof (byte_size_le z 8 ltac:(lia) ltac:(lia)).
  rewrite toInt_encode by (done || lia). rewrite Hnz, Hl. change (maxSize T_int64) with 8. cbn [negb].
  destruct (Z.ltb_spec 8 (byte_size z)); [lia|]. f_equal.
  rewrite (fromBigEndianT_signed 64 8) by done. rewrite Hv. exact (i64_small z ltac:(lia)).
Qed.

Section Items.
  Context (e : list Z) (l : list item).
  Context (Hat : forall k r, 0 <= k < 2 ^ 64 - 1 -> cache_ok e (map encode l) r ->
    exists r', subscript k r = Value (default [] (map encode l !! Z.to_nat k), r') /\ cache_ok e (map encode l) r').

Lemma read_header_item {A} k r (f : list Z -> res A) it v : 0 <= k < 2 ^ 64 - 1 -> cache_ok e (map encode l) r -> l !! Z.to_nat k = Some it ->
  f (encode it) = Value v -> exists r', read_field k r f = Value (v, r') /\ cache_ok e (map encode l) r'.
Proof.
  intros Hk Hc Hit Hf. destruct (Hat k r Hk Hc) as (r' & Hs & Hc'). exists r'. split; [|done]. unfold read_field. rewrite Hs. cbn [hdr_rlp rbind fst snd].
  rewrite list_lookup_fmap, Hit. cbn [fmap option_fmap option_map default from_option id]. by rewrite Hf.
Qed.

Lemma read_seal_items its pre r : l = pre ++ its -> cache_ok e (map encode l) r -> lenZ l < 2 ^ 63 ->
  read_seal (length its) (lenZ pre) r = Value (map encode its).
Proof.
  revert pre r. induction its as [|it its IH]; intros pre r Hl Hc Hlen; [done|]. cbn [length read_seal map].
  pose proof (lenZ_nonneg pre). pose proof (lenZ_nonneg its). assert (Hll : lenZ l = lenZ pre + (1 + lenZ its)) by (by rewrite Hl, lenZ_app, lenZ_cons).
  destruct (Hat (lenZ pre) r ltac:(lia) Hc) as (r' & -> & Hc'). cbn [hdr_rlp rbind fst snd].
  assert (Hhere : map encode l !! Z.to_nat (lenZ pre) = Some (encode it)).
  { rewrite Hl, map_app. unfold lenZ. rewrite Nat2Z.id. rewrite lookup_app_r by (by rewrite length_map). by rewrite length_map, Nat.sub_diag. }
  rewrite Hhere. replace (lenZ pre + 1) with (lenZ (pre ++ [it])) by (by rewrite lenZ_app).
  rewrite (IH (pre ++ [it]) r'); [done|by rewrite <- app_assoc|done|done].
Qed.
End Items.

Lemma read_h256 z : is_u256 z -> read_hash 32 (encode (Str (h256_bytes z))) = Value z.
Proof.
  intros Hz. destruct (h256_bytes_facts z) as [Hb Hl]. unfold read_hash. cbn [encode]. rewrite (toHash_encode_any 32) by (done || lia).
  cbn [rbind]. by rewrite be_val_h256.
Qed.

Lemma read_addr a : 0 <= a < 2 ^ 160 -> read_hash 20 (encode (Str (addr_bytes a))) = Value a.
Proof.
  intros Ha. destruct (addr_bytes_facts a) as [Hb Hl]. unfold read_hash. cbn [encode]. rewrite (toHash_encode_any 20) by (done || lia).
  cbn [rbind]. by rewrite be_val_addr.
Qed.

Lemma read_bloom b : 0 <= b < 2 ^ 2048 -> read_hash 256 (encode (Str (bloom_bytes b))) = Value b.
Proof.
  intros Hb. unfold read_hash, bloom_bytes. cbn [encode]. rewrite (toHash_encode_any 256); [|apply toBigEndian_bytes|by apply (lenZ_toBigEndian 256)|lia].
  cbn [rbind]. rewrite be_val_toBigEndian by lia. f_equal. by apply Z.mod_small.
Qed.

Lemma read_positive z : 0 <= z < 2 ^ 32 -> toPositiveInt64 Strict (encode (Str (int_bytes (u32 z)))) = Value z.
Proof.
  intros Hz. unfold toPositiveInt64. cbn [encode]. rewrite u32_small by lia. rewrite toInt_int64 by lia. cbn [rbind].
  destruct (Z.ltb_spec z 0); [lia|]. by rewrite andb_false_r.
Qed.

(** The header as its bytes have it. *)
Definition received_header (hash : Z) (h : BlockHeader) : BlockHeader := with_hashes hash 0 h.

(** Reads the item [k], which is [it]: it has the value [v]. *)
Ltac next_field Hat Hc k it v lem :=
  let r := fresh "r" in let Hc' := fresh "Hc" in let Hf := fresh "Hf" in
  match goal with |- context [read_field k _ ?f] =>
    assert (Hf : f (encode it) = Value v) by (by apply lem); destruct (read_header_item _ _ Hat k _ f it v ltac:(lia) Hc eq_refl Hf) as (r & -> & Hc') end;
  clear Hc Hf; rename Hc' into Hc; cbn [rbind fst snd].

Lemma populate_items h its e l h0 : header_typed h -> 0 <= h_number h < 2 ^ 32 -> 0 <= h_timestamp h < 2 ^ 32 ->
  l = header_fields h ++ its -> h_seal h = map encode its -> itemCount e = Value (lenZ l) -> lenZ l < 2 ^ 63 ->
  (forall k r, 0 <= k < 2 ^ 64 - 1 -> cache_ok e (map encode l) r ->
    exists r', subscript k r = Value (default [] (map encode l !! Z.to_nat k), r') /\ cache_ok e (map encode l) r') ->
  populate e h0 = Value (with_hashes (h_hash h0) (h_hashWithout h0) h).
Proof.
  intros Hh Hn Ht Hl Hseal Hcount Hlen Hat. pose proof Hh as []. pose proof (ho_extraData h Hh) as [Heb Hel]. pose proof (cache_ok_fresh e (map encode l)) as Hc. unfold populate. subst l.
  next_field Hat Hc 0 (Str (h256_bytes (h_parentHash h))) (h_parentHash h) read_h256.
  next_field Hat Hc 1 (Str (h256_bytes (h_sha3Uncles h))) (h_sha3Uncles h) read_h256.
  next_field Hat Hc 2 (Str (addr_bytes (h_author h))) (h_author h) read_addr.
  next_field Hat Hc 3 (Str (h256_bytes (h_stateRoot h))) (h_stateRoot h) read_h256.
  next_field Hat Hc 4 (Str (h256_bytes (h_transactionsRoot h))) (h_transactionsRoot h) read_h256.
  next_field Hat Hc 5 (Str (h256_bytes (h_receiptsRoot h))) (h_receiptsRoot h) read_h256.
  next_field Hat Hc 6 (Str (bloom_bytes (h_logBloom h))) (h_logBloom h) read_bloom.
  next_field Hat Hc 7 (Str (int_bytes (h_difficulty h))) (h_difficulty h) toInt_u256.
  next_field Hat Hc 8 (Str (int_bytes (u32 (h_number h)))) (h_number h) read_positive.
  next_field Hat Hc 9 (Str (int_bytes (h_gasLimit h))) (h_gasLimit h) toInt_u256.
  next_field Hat Hc 10 (Str (int_bytes (h_gasUsed h))) (h_gasUsed h) toInt_u256.
  next_field Hat Hc 11 (Str (int_bytes (u32 (h_timestamp h)))) (h_timestamp h) read_positive.
  next_field Hat Hc 12 (Str (h_extraData h)) (h_extraData h) toBytes_encode.
  rewrite Hcount. cbn [hdr_rlp rbind]. rewrite lenZ_app. change (lenZ (header_fields h)) with 13.
  replace (Z.to_nat (13 + lenZ its - 13)) with (length its) by (unfold lenZ; lia).
  rewrite (read_seal_items _ _ Hat its (header_fields h)) by done. cbn [rbind]. unfold with_hashes. by rewrite Hseal.
Qed.

(** The members of a list that fits. *)
Lemma list_sizes l : item_ok (Lst l) -> lenZ (encode (Lst l)) < 2 ^ 63 ->
  lenZ l < 2 ^ 63 /\ forall it, it ∈ l -> item_ok it /\ lenZ (encode it) < 2 ^ 63.
Proof.
  intros Hok Hl. assert (Hp : lenZ (concat (map encode l)) < 2 ^ 63).
  { cbn [encode] in Hl. cbv zeta in Hl. rewrite lenZ_app in Hl. pose proof (lenZ_nonneg (header 192 (lenZ (concat (map encode l))))). lia. }
  assert (Hin : forall it, it ∈ l -> item_ok it /\ lenZ (encode it) < 2 ^ 63).
  { intros it Hin. inversion Hok as [|? Hall]; subst. split; [by apply (proj1 (Forall_forall _ _) Hall)|].
    pose proof (encode_members l it Hp Hin). lia. }
  split; [|done]. assert (Hfr : Forall framed (map encode l)).
  { apply Forall_fmap, Forall_forall. intros it Hit. destruct (Hin it Hit). by apply encode_framed. }
  pose proof (concat_framed_length _ Hfr) as Hcl. rewrite length_map in Hcl. unfold lenZ in *. lia.
Qed.

Lemma list_isList l : item_ok (Lst l) -> lenZ (encode (Lst l)) < 2 ^ 63 -> isList (encode (Lst l)) = true.
Proof. intros Hok Hl. by destruct (list_facts l Hok Hl) as (_ & ? & _). Qed.

(** A block: its header, its transactions and its uncles. *)
Definition block_item (header : list item) (txs uncles : list item) : item := Lst [Lst header; Lst txs; Lst uncles].

Lemma extractHeader_block hl txs us : item_ok (block_item hl txs us) -> lenZ (encode (block_item hl txs us)) < 2 ^ 63 ->
  extractHeader (encode (block_item hl txs us)) = Value (encode (Lst hl)).
Proof.
  unfold block_item. intros Hok Hl. set (l := [Lst hl; Lst txs; Lst us]) in *. destruct (list_facts l Hok Hl) as (Hmk & Hlist & _).
  destruct (list_sizes l Hok Hl) as [_ Hin].
  assert (Hil : forall k, Lst k ∈ l -> isList (encode (Lst k)) = true) by (intros k Hk; destruct (Hin _ Hk); by apply list_isList).
  unfold extractHeader. rewrite Hmk. cbn [hdr_rlp rbind]. rewrite Hlist. cbn [negb throw_if rbind].
  pose proof (cache_ok_fresh (encode (Lst l)) (map encode l)) as Hc.
  destruct (subscript_item l 0 _ Hok ltac:(lia) ltac:(lia) Hc) as (r0 & -> & Hc0). cbn [hdr_rlp rbind fst snd].
  change (default [] (map encode l !! Z.to_nat 0)) with (encode (Lst hl)). rewrite Hil by (by left). cbn [negb throw_if rbind].
  destruct (subscript_item l 1 _ Hok ltac:(lia) ltac:(lia) Hc0) as (r1 & -> & Hc1). cbn [hdr_rlp rbind fst snd].
  change (default [] (map encode l !! Z.to_nat 1)) with (encode (Lst txs)). rewrite Hil by (right; by left). cbn [negb throw_if rbind].
  destruct (subscript_item l 2 _ Hok ltac:(lia) ltac:(lia) Hc1) as (r2 & -> & Hc2). cbn [hdr_rlp rbind fst snd].
  change (default [] (map encode l !! Z.to_nat 2)) with (encode (Lst us)). rewrite Hil by (right; right; by left). done.
Qed.

Section Hashes.
  Context `{Sha3}.

Lemma compute_hash_spec h its i : header_typed h -> seal_ok its -> h_seal h = map encode its -> i <> OnlySeal ->
  compute_hash i h = Value (sha3 (encode (header_item h (sealed i its)))).
Proof.
  intros Hh Hs Hseal Hi. pose proof (stream_header h its i Hh Hs Hseal Hi) as Hst. unfold compute_hash, rlp_of in *.
  destruct (streamRLP i h empty_stream) as [s| | |]; cbn [hdr_rlp rbind] in *; try done. by rewrite Hst.
Qed.

Lemma parse_header_data h its hashWith : header_typed h -> seal_ok its -> h_seal h = map encode its ->
  0 <= h_number h < 2 ^ 32 -> 0 <= h_timestamp h < 2 ^ 32 ->
  populate (encode (header_item h its)) (with_hashes hashWith 0 new_BlockHeader) = Value (received_header hashWith h).
Proof.
  intros Hh Hs Hseal Hn Ht. destruct (header_item_ok h its Hh Hs) as [Hok Hl]. unfold header_item in *. set (l := header_fields h ++ its) in *.
  destruct (list_facts l Hok ltac:(lia)) as (Hmk & Hlist & Hcount). rewrite (populate_items h its _ l); try done.
  - exact (proj1 (list_sizes l Hok ltac:(lia))).
  - intros k r Hk Hc. apply subscript_item; [done|lia|done|done].
Qed.
End Hashes.

(** ** What is read is a header *)

Lemma returns_hdr_rlp {A} (m : res A) P : returns m P -> returns (hdr_rlp m) P.
Proof. by destruct m. Qed.

Lemma hash_returns N d : byte_list d -> 0 <= N -> returns (read_hash N d) (fun z => 0 <= z < 2 ^ (8 * N)).
Proof.
  intros Hb HN. unfold read_hash, toHash. apply (returns_bind _ _ (fun h => 0 <= be_val h < 2 ^ (8 * N))); [|intros h _ Hh; exact Hh].
  eapply returns_bind; [apply requireGood_returns|]. intros [] _ _. eapply returns_bind; [by apply payload_returns|]. intros p _ [Hbp _].
  change (flag FailIfTooBig VeryStrict) with true. change (flag FailIfTooSmall VeryStrict) with true.
  rewrite !andb_true_r. destruct (negb (isData d) || (N <? lenZ p) || (lenZ p <? N)) eqn:E; [done|].
  apply orb_false_iff in E as [[_ E1]%orb_false_iff E2]. assert (lenZ p = N) as Hp by lia. rewrite Hp, Z.min_id, Z.sub_diag. cbn [replicate Z.to_nat app returns].
  assert (Ht : byte_list (take (Z.to_nat N) p)) by (by apply Forall_take). pose proof (be_val_range _ Ht) as Hr.
  assert (Hlt : lenZ (take (Z.to_nat N) p) = N) by (unfold lenZ in *; rewrite length_take; lia). by rewrite Hlt in Hr.
Qed.

Lemma u256_returns d : byte_list d -> returns (toInt T_u256 Strict d) (fun z => is_u256 z).
Proof.
  intros Hb. eapply returns_mono; [by apply toInt_wrap|]. intros z [->|[x ->]]; [lia|]. apply Z.mod_pos_bound. lia.
Qed.

Lemma positive_returns d : byte_list d -> returns (toPositiveInt64 Strict d) (fun z => 0 <= z < 2 ^ 63).
Proof.
  intros Hb. unfold toPositiveInt64. apply (returns_bind _ _ (fun z => - 2 ^ 63 <= z < 2 ^ 63)).
  { eapply returns_mono; [by apply toInt_wrap|]. intros z [->|[x ->]]; [lia|]. cbn [wrap T_int64]. unfold i64.
    pose proof (Z.mod_pos_bound (x + 2 ^ 63) (2 ^ 64) ltac:(lia)). lia. }
  intros i _ Hi. change (flag ThrowOnFail Strict) with true. destruct (Z.ltb_spec i 0); [done|]. cbn. lia.
Qed.

Lemma read_field_returns {A} d k r (f : list Z -> res A) P : byte_list d -> lenZ d < 2 ^ 62 -> k < 2 ^ 64 -> cache_fine d r ->
  (forall x, item_fine d x -> returns (f x) P) -> returns (read_field k r f) (fun v => P (fst v) /\ cache_fine d (snd v)).
Proof.
  intros Hb Hl Hk Hc Hf. unfold read_field. eapply returns_bind; [apply returns_hdr_rlp, (subscript_fine d k r Hb ltac:(lia) Hk Hc)|].
  intros x _ [Hc' Hx]. eapply returns_bind; [by apply returns_hdr_rlp, Hf|]. intros v _ Hv. done.
Qed.

Lemma read_seal_returns d count k r : byte_list d -> lenZ d < 2 ^ 62 -> 0 <= k -> k + Z.of_nat count < 2 ^ 64 -> cache_fine d r ->
  returns (read_seal count k r) (Forall (fun b => byte_list b)).
Proof.
  intros Hb Hl. revert k r. induction count as [|count IH]; intros k r Hk Hkc Hc; [constructor|]. cbn [read_seal].
  eapply returns_bind; [apply returns_hdr_rlp, (subscript_fine d k r Hb ltac:(lia) ltac:(lia) Hc)|]. intros x _ [Hc' (Hx & _)].
  eapply returns_bind; [apply IH; [lia|lia|done]|]. intros l _ Hall. by constructor.
Qed.

(** What the constructor makes of bytes. *)
Record well_read (h : BlockHeader) : Prop := {
  hr_ok : header_typed h;
  hr_number : 0 <= h_number h;
  hr_timestamp : 0 <= h_timestamp h;
  hr_seal : Forall (fun b => byte_list b) (h_seal h)
}.

(** Reads the field [k] of the object whose cache [Hc] is about. *)
Ltac typed_field Hb Hl Hc k P lem :=
  eapply returns_bind; [apply (read_field_returns _ k _ _ P Hb ltac:(lia) ltac:(lia) Hc); intros ? ?Hx; apply lem; first [done|apply Hx]|];
  clear Hc; let Hv := fresh "Hv" in intros ? _ [Hv Hc].

Lemma data_returns d x : lenZ d < 2 ^ 62 -> item_fine d x -> returns (toBytes LaissezFaire x) (fun bs => byte_list bs /\ lenZ bs < 2 ^ 62).
Proof. intros Hd Hx. pose proof (read_data d x Hx Hd) as Hr. by destruct (toBytes LaissezFaire x). Qed.

Lemma items_loop_le fuel : forall d i n, items_loop fuel d i = Value n -> n <= i + Z.of_nat fuel.
Proof.
  induction fuel as [|fuel IH]; intros d i n Hn; [done|]. cbn [items_loop] in Hn. destruct (lenZ d =? 0); [injection Hn as <-; lia|].
  apply rbind_Value in Hn as (k & _ & Hn). apply IH in Hn. lia.
Qed.

Lemma itemCount_le d : byte_list d -> lenZ d < 2 ^ 62 -> returns (itemCount d) (fun n => n < 2 ^ 63).
Proof.
  intros Hb Hl. pose proof (itemCount_returns d Hb) as Hr. destruct (itemCount d) as [n| | |] eqn:E; try done. cbn.
  unfold itemCount, items in E. destruct (isList d); [|injection E as <-; lia]. apply rbind_Value in E as (p & Hp & E).
  apply items_loop_le in E. pose proof (payload_returns d Hb) as Hpr. rewrite Hp in Hpr. destruct Hpr as [_ Hpl]. unfold lenZ in *. lia.
Qed.

Lemma populate_returns d h : byte_list d -> lenZ d < 2 ^ 62 -> returns (populate d h) well_read.
Proof.
  intros Hb Hl. unfold populate. pose proof (cache_fine_fresh d) as Hc.
  typed_field Hb Hl Hc 0 (fun z => 0 <= z < 2 ^ (8 * 32)) hash_returns.
  typed_field Hb Hl Hc 1 (fun z => 0 <= z < 2 ^ (8 * 32)) hash_returns.
  typed_field Hb Hl Hc 2 (fun z => 0 <= z < 2 ^ (8 * 20)) hash_returns.
  typed_field Hb Hl Hc 3 (fun z => 0 <= z < 2 ^ (8 * 32)) hash_returns.
  typed_field Hb Hl Hc 4 (fun z => 0 <= z < 2 ^ (8 * 32)) hash_returns.
  typed_field Hb Hl Hc 5 (fun z => 0 <= z < 2 ^ (8 * 32)) hash_returns.
  typed_field Hb Hl Hc 6 (fun z => 0 <= z < 2 ^ (8 * 256)) hash_returns.
  typed_field Hb Hl Hc 7 (fun z => is_u256 z) u256_returns.
  typed_field Hb Hl Hc 8 (fun z => 0 <= z < 2 ^ 63) positive_returns.
  typed_field Hb Hl Hc 9 (fun z => is_u256 z) u256_returns.
  typed_field Hb Hl Hc 10 (fun z => is_u256 z) u256_returns.
  typed_field Hb Hl Hc 11 (fun z => 0 <= z < 2 ^ 63) positive_returns.
  typed_field Hb Hl Hc 12 (fun bs => byte_list bs /\ lenZ bs < 2 ^ 62) (data_returns d).
  eapply returns_bind; [by apply returns_hdr_rlp, itemCount_le|]. intros n _ Hn. cbv beta in Hn.
  eapply returns_bind; [apply (read_seal_returns d); done || lia|]. intros seal _ Hseal.
  cbn [returns]. constructor; cbn; [constructor; cbn; done || lia|lia|lia|done].
Qed.

Lemma extractHeader_returns d : byte_list d -> lenZ d < 2 ^ 62 -> returns (extractHeader d) (fun x => byte_list x /\ lenZ x < 2 ^ 62).
Proof.
  intros Hb Hl. unfold extractHeader. eapply returns_bind; [by apply returns_hdr_rlp, mkRLP_VeryStrict_returns|]. intros ? _ [-> _].
  pose proof (cache_fine_fresh d) as Hc.
  assert (Hth : forall b e, returns (throw_if (E := header_error) b e) (fun _ => True)) by (intros; by apply returns_throw_if).
  eapply returns_bind; [apply Hth|]. intros _ _ _. eapply returns_bind; [apply returns_hdr_rlp, (subscript_fine d 0 _ Hb ltac:(lia) ltac:(lia) Hc)|].
  intros x0 _ [Hc0 (Hx & _ & Hxl)]. eapply returns_bind; [apply Hth|]. intros _ _ _.
  eapply returns_bind; [apply returns_hdr_rlp, (subscript_fine d 1 _ Hb ltac:(lia) ltac:(lia) Hc0)|]. intros x1 _ [Hc1 _].
  eapply returns_bind; [apply Hth|]. intros _ _ _.
  eapply returns_bind; [apply returns_hdr_rlp, (subscript_fine d 2 _ Hb ltac:(lia) ltac:(lia) Hc1)|]. intros x2 _ _.
  eapply returns_bind; [apply Hth|]. intros _ _ _. cbn. split; [done|lia].
Qed.

Lemma parse_header_returns `{Sha3} d bdt hw : byte_list d -> lenZ d < 2 ^ 62 -> returns (parse_header d bdt hw) well_read.
Proof.
  intros Hb Hl. unfold parse_header. apply (returns_bind _ _ (fun x => byte_list x /\ lenZ x < 2 ^ 62)).
  - destruct bdt; [|by apply extractHeader_returns]. apply returns_hdr_rlp. eapply returns_mono; [by apply mkRLP_VeryStrict_returns|]. by intros ? [-> _].
  - intros x _ [Hxb Hxl]. by apply populate_returns.
Qed.
