(* ===== verification/HeaderTheorems.v ===== *)
(** * What headers promise

    The theorems about [BlockHeader], with their witnesses on concrete headers. *)
From stdpp Require Import base list gmap.
From Stdlib Require Import ZArith Lia.
From S2P Require Import Prelude Words Result Account State Rlp RlpSpec RlpRead RlpTheorems RlpInt StateMonad.
From S2P Require Import TrieCommon NodeDB MemoryDB TrieDB TrieItems TrieSpec TrieMap MemoryDBLaws TestDB TrieTheorems.
From S2P Require Import Transaction TxCodec TrieHash TrieHashSpec TrieHashTheorems BlockHeader HeaderCodec.
Open Scope result_scope.

(** ** The transactions of a block *)

Section Block.
  Context `{Sha3}.

Lemma over_loop_items e (l : list item) pre rest r m :
  (forall k r, 0 <= k < 2 ^ 64 - 1 -> cache_ok e (map encode l) r ->
    exists r', subscript k r = Value (default [] (map encode l !! Z.to_nat k), r') /\ cache_ok e (map encode l) r') ->
  l = pre ++ rest -> lenZ l < 2 ^ 32 -> cache_ok e (map encode l) r ->
  exists r', cache_ok e (map encode l) r' /\
    over_loop (length rest) (lenZ pre) (fun i => hdr_rlp (rlp_unsigned i)) item_value r m =
      hdr_rlp (m <- ordered_loop (map encode rest) (lenZ pre) m ;; Value (m, r')).
Proof.
  intros Hat. revert pre r m. induction rest as [|it rest IH]; intros pre r m Hl Hlen Hc; [by exists r|]. cbn [length over_loop map ordered_loop].
  pose proof (lenZ_nonneg pre). pose proof (lenZ_nonneg rest). assert (Hll : lenZ l = lenZ pre + (1 + lenZ rest)) by (by rewrite Hl, lenZ_app, lenZ_cons).
  destruct (Hat (lenZ pre) r ltac:(lia) Hc) as (r1 & Hs & Hc1). unfold item_value at 1. rewrite Hs. cbn [hdr_rlp rbind fst snd].
  assert (Hhere : map encode l !! Z.to_nat (lenZ pre) = Some (encode it)).
  { rewrite Hl, map_app. unfold lenZ. rewrite Nat2Z.id. rewrite lookup_app_r by (by rewrite length_map). by rewrite length_map, Nat.sub_diag. }
  rewrite Hhere. rewrite rlp_unsigned_spec by lia. cbn [hdr_rlp rbind default from_option id]. rewrite u32_small by lia.
  replace (lenZ pre + 1) with (lenZ (pre ++ [it])) by (by rewrite lenZ_app). apply IH; [by rewrite <- app_assoc|done|done].
Qed.

(** The check of a block that is a list of three lists. *)
Lemma verify_block_spec h hl txs us root : item_ok (block_item hl txs us) -> lenZ (encode (block_item hl txs us)) < 2 ^ 63 -> lenZ txs < 2 ^ 32 ->
  orderedTrieRoot (map encode txs) = Value root ->
  verify_block h (encode (block_item hl txs us)) = Value tt <-> h_transactionsRoot h = root /\ h_sha3Uncles h = sha3 (encode (Lst us)).
Proof.
  intros Hok Hl Htxs Hroot. unfold block_item in *. set (l := [Lst hl; Lst txs; Lst us]) in *. destruct (list_facts l Hok Hl) as (Hmk & _ & _).
  destruct (list_sizes l Hok Hl) as [_ Hin]. destruct (Hin (Lst txs)) as [Htok Htl]; [right; by left|]. destruct (list_facts txs Htok Htl) as (_ & _ & Hcount).
  unfold verify_block. rewrite Hmk. cbn [hdr_rlp rbind]. pose proof (cache_ok_fresh (encode (Lst l)) (map encode l)) as Hc.
  destruct (subscript_item l 1 _ Hok ltac:(lia) ltac:(lia) Hc) as (r1 & -> & Hc1). cbn [hdr_rlp rbind fst snd].
  change (default [] (map encode l !! Z.to_nat 1)) with (encode (Lst txs)). rewrite Hcount. cbn [hdr_rlp rbind].
  pose proof (lenZ_nonneg txs). rewrite u32_small by lia. replace (Z.to_nat (lenZ txs)) with (length txs) by (unfold lenZ; lia).
  destruct (over_loop_items (encode (Lst txs)) txs [] txs (fresh_RLP (encode (Lst txs))) []) as (r' & _ & Hover).
  { intros k r Hk Hcr. apply subscript_item; [done|lia|done|done]. }
  { done. } { done. } { apply cache_ok_fresh. }
  change (lenZ []) with 0 in Hover. rewrite Hover. unfold orderedTrieRoot in Hroot. apply rbind_Value in Hroot as (m & -> & Hroot).
  cbn [rbind hdr_rlp fst snd]. rewrite Hroot. cbn [hdr_rlp rbind].
  destruct (subscript_item l 2 _ Hok ltac:(lia) ltac:(lia) Hc1) as (r2 & Hs2 & _). rewrite Hs2. cbn [hdr_rlp rbind fst snd].
  change (default [] (map encode l !! Z.to_nat 2)) with (encode (Lst us)).
  destruct (Z.eqb_spec (h_transactionsRoot h) root) as [E1|E1]; cbn [negb].
  - cbn [rbind]. destruct (Z.eqb_spec (h_sha3Uncles h) (sha3 (encode (Lst us)))) as [E2|E2]; cbn; split; [done|done|done|by intros [_ ?]].
  - split; [|by intros [? _]]. destruct (report _ r') as [[]| | |]; done.
Qed.
End Block.

Section Theorems.
  Context `{Sha3}.

(** C16. A header survives the wire.  What [streamRLP] writes for it, the
    constructor reads back, from the header alone and from a block around it;
    the hash it then remembers is the one that is computed from its members, and
    the one that [headerHashFromBlock] takes of the block.  Its number and its
    time have to fit in 32 bits. *)
Theorem header_roundtrip h its txs us : header_typed h -> seal_ok its -> h_seal h = map encode its ->
  0 <= h_number h < 2 ^ 32 -> 0 <= h_timestamp h < 2 ^ 32 ->
  item_ok (block_item (header_fields h ++ its) txs us) -> lenZ (encode (block_item (header_fields h ++ its) txs us)) < 2 ^ 63 ->
  exists e, rlp_of (streamRLP WithSeal h) = Value e /\
    parse_header e HeaderData 0 = Value (received_header (sha3 e) h) /\
    parse_header (encode (block_item (header_fields h ++ its) txs us)) BlockData 0 = Value (received_header (sha3 e) h) /\
    headerHashFromBlock (encode (block_item (header_fields h ++ its) txs us)) = Value (sha3 e) /\
    hash WithSeal (noteDirty h) = Value (sha3 e, with_hashes (sha3 e) 0 h).
Proof.
  intros Hh Hs Hseal Hn Ht Hok Hl. destruct (header_item_ok h its Hh Hs) as [Hhok Hhl]. exists (encode (header_item h its)).
  pose proof (stream_header h its WithSeal Hh Hs Hseal ltac:(done)) as Hst. cbn [sealed] in Hst. split; [done|].
  destruct (list_facts _ Hhok ltac:(unfold header_item in *; lia)) as (Hmk & _). unfold header_item in Hmk |- *.
  assert (Hpop : populate (encode (header_item h its)) (with_hashes (sha3 (encode (header_item h its))) 0 new_BlockHeader) =
    Value (received_header (sha3 (encode (header_item h its))) h)) by (by apply parse_header_data).
  unfold header_item in Hpop. split_and!.
  - unfold parse_header. rewrite Hmk. exact Hpop.
  - unfold parse_header. rewrite extractHeader_block by done. exact Hpop.
  - unfold headerHashFromBlock, block_item in *. destruct (list_facts _ Hok Hl) as (Hmkb & _). rewrite Hmkb. cbn [hdr_rlp rbind].
    match goal with |- context [fresh_RLP (encode (Lst ?l))] =>
      destruct (subscript_item l 0 (fresh_RLP (encode (Lst l))) Hok ltac:(lia) ltac:(lia) (cache_ok_fresh _ _)) as (r & -> & _) end. done.
  - unfold hash, noteDirty. cbn [h_hash with_hashes]. change (0 =? 0) with true. cbv iota.
    assert (Hh0 : header_typed (with_hashes 0 0 h)) by (destruct Hh; by constructor).
    rewrite (compute_hash_spec (with_hashes 0 0 h) its WithSeal Hh0 Hs Hseal) by done. done.
Qed.

(** Whatever bytes arrive as a header or as a block, the constructor reads
    inside of them and ends; it throws, or it makes a header whose members are
    within their types, with a number and a time that are not negative, so that
    it is a header in the sense of [operator bool]. *)
Theorem header_parse_typed d bdt hashWith : byte_list d -> lenZ d < 2 ^ 62 ->
  returns (parse_header d bdt hashWith) (fun h => header_typed h /\ 0 <= h_number h /\ 0 <= h_timestamp h /\ is_header h = true).
Proof.
  intros Hb Hl. eapply returns_mono; [by apply parse_header_returns|]. intros h [Hok Hn Ht _]. split_and!; try done.
  destruct Hok. unfold is_header, to_u256, Invalid256. rewrite Z.mod_small by lia. destruct (Z.eqb_spec (h_timestamp h) (2 ^ 256 - 1)); [lia|done].
Qed.

(** The time of a header is hashed modulo 2^32: two headers whose times
    differ by 2^32 seconds are written as the same bytes, so they have one hash
    and one proof of work, though they are not equal. *)
Theorem header_time_truncated i h : 0 <= h_timestamp h < 2 ^ 32 ->
  compute_hash i (setTimestamp (h_timestamp h + 2 ^ 32) h) = compute_hash i (setTimestamp (h_timestamp h) h) /\
  header_eqb (setTimestamp (h_timestamp h + 2 ^ 32) h) (setTimestamp (h_timestamp h) h) = false.
Proof.
  intros Ht. split.
  - assert (Hu : forall s, append_C_int (h_timestamp h + 2 ^ 32) s = append_C_int (h_timestamp h) s).
    { intros s. unfold append_C_int. f_equal. unfold u32. rewrite <- Zplus_mod_idemp_r, Z.mod_same, Z.add_0_r by lia. done. }
    assert (Hf : forall s, streamRLPFields (setTimestamp (h_timestamp h + 2 ^ 32) h) s = streamRLPFields (setTimestamp (h_timestamp h) h) s).
    { intros s. unfold streamRLPFields. cbn [setTimestamp noteDirty with_hashes h_parentHash h_sha3Uncles h_author h_stateRoot h_transactionsRoot h_receiptsRoot h_logBloom
        h_difficulty h_number h_gasLimit h_gasUsed h_timestamp h_extraData].
      repeat match goal with |- rbind ?m _ = rbind ?m _ => destruct m as [?| | |]; cbn [rbind]; [|done..] end. rewrite Hu. done. }
    unfold compute_hash, streamRLP. cbn [setTimestamp noteDirty with_hashes h_seal].
    destruct i; cbn [rbind]; try done; (destruct (appendList _ empty_stream) as [s| | |]; cbn [rbind]; [|done..]); rewrite Hf; done.
  - unfold header_eqb. cbn. destruct (Z.eqb_spec (h_timestamp h + 2 ^ 32) (h_timestamp h)); [lia|]. by rewrite !andb_false_r.
Qed.
End Theorems.

Section Blocks.
  Context {DB : Type} `{!NodeDB DB} `{!NodeDBLaws DB} `{Sha3} `{!Sha3Range}.

(** C17. The checks of a header against its block accept it exactly when its
    transactions root is the root of the trie into which the transactions were
    inserted in order under the RLP of their indices, and its hash of the uncles
    is the hash of the list of uncles. *)
Theorem block_body_checked (db : DB) h hl txs us : fine db -> item_ok (block_item hl txs us) -> lenZ (encode (block_item hl txs us)) < 2 ^ 63 ->
  lenZ txs < 2 ^ 32 -> data_ok (map encode txs) ->
  clean (pbind init (fun r => apply r (list_ops 0 (map encode txs)))) db ->
  exists root db', run (pbind init (fun r => apply r (list_ops 0 (map encode txs)))) db = (Value root, db') /\
    (verify_block h (encode (block_item hl txs us)) = Value tt <-> h_transactionsRoot h = root /\ h_sha3Uncles h = sha3 (encode (Lst us))).
Proof.
  intros Hf Hok Hl Htxs Hd Hc.
  assert (Hlen : lenZ (map encode txs) <= 2 ^ 32) by (unfold lenZ in *; rewrite length_map; lia).
  pose proof (history_holds db _ Hf (list_ops_ok ∅ 0 (map encode txs) ltac:(lia) ltac:(lia) Hd) Hc) as (root & db' & Hr & Hh).
  destruct (ordered_loop_spec (map encode txs) 0 [] ltac:(lia) ltac:(lia) ltac:(constructor)) as (m & Hm & Hs & Hlm).
  exists root, db'. split; [done|]. apply verify_block_spec; try done. unfold orderedTrieRoot. rewrite Hm. cbn [rbind].
  apply (hash256_holds db'); [done|]. rewrite Hlm. exact Hh.
Qed.
End Blocks.

(** ** Witnesses *)

Definition test_seal : list item := [Str (h256_bytes 88); Str [1; 2; 3; 4; 5; 6; 7; 8]].
Definition test_header : BlockHeader :=
  mkBlockHeader 11 22 33 44 55 66 77 131072 7 5000000 21000 1500000000 [1; 2; 3] (map encode test_seal) 0 0.
Definition test_txs : list item := [Lst [Str [1]; Str [2]]; Lst [Str (replicate 60 3)]].

Lemma test_header_ok : header_typed test_header.
Proof. constructor; cbn; try lia. split; [by apply byte_list_dec|done]. Qed.

Lemma test_seal_ok : seal_ok test_seal.
Proof. split; [|done]. repeat (apply Forall_cons; split; [apply ok_str; by apply byte_list_dec|]). apply Forall_nil_2. Qed.

(** [item_ok] of items that are given. *)
Ltac item_ok_compute := repeat first [apply Forall_nil_2 | apply Forall_cons; split | apply ok_lst | apply ok_str; by apply byte_list_dec].

Lemma header_roundtrip_witness : exists e, rlp_of (streamRLP WithSeal test_header) = Value e /\
  parse_header e HeaderData 0 = Value (received_header (sha3 e) test_header) /\
  parse_header (encode (block_item (header_fields test_header ++ test_seal) test_txs [])) BlockData 0 = Value (received_header (sha3 e) test_header).
Proof.
  destruct (header_roundtrip test_header test_seal test_txs []) as (e & H1 & H2 & H3 & _).
  - exact test_header_ok.
  - exact test_seal_ok.
  - reflexivity.
  - cbn. lia.
  - cbn. lia.
  - unfold block_item, header_fields, fixed_fields, test_seal, test_txs. cbn [app]. item_ok_compute.
  - vm_compute. done.
  - exists e. split; [exact H1|]. split; [exact H2|exact H3].
Defined.

Lemma header_parse_typed_witness : returns (parse_header [0xc2; 0x05; 0x80] HeaderData 0)
  (fun h => header_typed h /\ 0 <= h_number h /\ 0 <= h_timestamp h /\ is_header h = true).
Proof. apply (header_parse_typed [0xc2; 0x05; 0x80] HeaderData 0); [by apply byte_list_dec|done]. Defined.

Lemma header_time_truncated_witness : compute_hash WithSeal (setTimestamp (1500000000 + 2 ^ 32) test_header) = compute_hash WithSeal (setTimestamp 1500000000 test_header).
Proof. destruct (header_time_truncated WithSeal test_header) as [E _]; [cbn; lia|exact E]. Defined.

Lemma block_body_checked_witness : exists root db',
  run (pbind init (fun r => apply r (list_ops 0 (map encode test_txs)))) new_MemoryDB = (Value root, db') /\
  (verify_block test_header (encode (block_item [] test_txs [])) = Value tt <-> h_transactionsRoot test_header = root /\ h_sha3Uncles test_header = sha3 (encode (Lst []))).
Proof.
  apply (block_body_checked new_MemoryDB test_header [] test_txs []).
  - exact fine_new.
  - unfold block_item, test_txs. item_ok_compute.
  - vm_compute. done.
  - done.
  - repeat (apply Forall_cons; split; [split; [split; [decide_compute|done]|done]|]). apply Forall_nil_2.
  - decide_compute.
Defined.
