(* ===== verification/EthashTheorems.v ===== *)
(** * What the rules of the chain promise

    The difficulty and the limit of the gas that a new block gets, and that the
    block which is made from them passes the checks of the same engine. *)
From stdpp Require Import base list gmap.
From Stdlib Require Import ZArith Lia.
From S2P Require Import Prelude Words Result Account State Rlp RlpSpec RlpInt TestDB Schedule BlockHeader HeaderCodec Ethash.
Open Scope result_scope.

(** The parameters of a chain: divisors are positive, the floor of the gas limit
    lies between its bounds, and the upper bound leaves room to compute. *)
Record chain_ok (p : ChainOperationParams) : Prop := {
  co_minimumDifficulty : is_u256 (minimumDifficulty p);
  co_difficultyBoundDivisor : 0 < difficultyBoundDivisor p;
  co_durationLimit : 0 <= durationLimit p < 2 ^ 255;
  co_gasLimitBoundDivisor : 0 < gasLimitBoundDivisor p;
  co_minGasLimit : 0 <= minGasLimit p <= 3141562;
  co_maxGasLimit : 3141562 <= maxGasLimit p < 2 ^ 253;
  co_daoHardforkBlock : is_u256 (daoHardforkBlock p)
}.

Lemma u256_id z : is_u256 z -> u256 z = z.
Proof. intros Hz. unfold u256. by apply Z.mod_small. Qed.

Lemma to_u256_id z : 0 <= z < 2 ^ 63 -> to_u256 z = z.
Proof. intros Hz. unfold to_u256. apply Z.mod_small. lia. Qed.

Section Difficulty.
  Context `{Sha3} (p : ChainOperationParams).

Lemma calculateDifficulty_ext b1 b2 parent : h_number b1 = h_number b2 -> h_timestamp b1 = h_timestamp b2 ->
  calculateDifficulty p b1 parent = calculateDifficulty p b2 parent.
Proof. intros Hn Ht. unfold calculateDifficulty, target, iceAge, adjFactor. by rewrite Hn, Ht. Qed.

(** What the time adds to the difficulty of the parent, before the bomb: less
    for a later time, but never so much less that it is negative. *)
Lemma target_antitone b1 b2 parent : chain_ok p -> header_typed parent -> 0 <= h_timestamp parent -> h_number b1 = h_number b2 ->
  0 <= h_timestamp b1 -> h_timestamp b1 <= h_timestamp b2 < 2 ^ 63 ->
  h_difficulty parent + h_difficulty parent / difficultyBoundDivisor p < 2 ^ 256 ->
  exists t1 t2, target p b1 parent = Value t1 /\ target p b2 parent = Value t2 /\ 0 <= t2 <= t1.
Proof.
  intros [] [] Htp Hn Ht1 Ht Hroom. unfold target. rewrite Hn. destruct (to_u256 (h_number b2) <? homesteadForkBlock p).
  - unfold udiv. destruct (Z.eqb_spec (difficultyBoundDivisor p) 0); [lia|]. cbn [rbind].
    set (q := h_difficulty parent / difficultyBoundDivisor p) in *. assert (Hq : 0 <= q <= h_difficulty parent) by (unfold q; split; [by apply Z.div_pos; lia|apply Z.div_le_upper_bound; nia]).
    rewrite (u256_id (h_difficulty parent - q)), (u256_id (h_difficulty parent + q)), (u256_id (h_timestamp parent + durationLimit p)) by lia.
    rewrite !to_u256_id by lia. do 2 eexists. split; [done|]. split; [done|].
    destruct (Z.leb_spec (h_timestamp parent + durationLimit p) (h_timestamp b1)), (Z.leb_spec (h_timestamp parent + durationLimit p) (h_timestamp b2)); lia.
  - do 2 eexists. split; [done|]. split; [done|]. unfold adjFactor. rewrite Hn.
    assert (Hd : 0 <= h_difficulty parent / 2048) by (apply Z.div_pos; lia). pose proof (Z.mul_div_le (h_difficulty parent) 2048 ltac:(lia)).
    destruct (to_u256 (h_number b2) <? byzantiumForkBlock p).
    + pose proof (Z.quot_le_mono (h_timestamp b1 - h_timestamp parent) (h_timestamp b2 - h_timestamp parent) 10 ltac:(lia) ltac:(lia)). nia.
    + pose proof (Z.quot_le_mono (h_timestamp b1 - h_timestamp parent) (h_timestamp b2 - h_timestamp parent) 9 ltac:(lia) ltac:(lia)).
      destruct (hasUncles parent); nia.
Qed.

Lemma difficulty_of_target b parent t : h_number b <> 0 -> target p b parent = Value t ->
  calculateDifficulty p b parent = Value (Z.min (Z.max (minimumDifficulty p)
    (if 1 <? iceAge p b parent / c_expDiffPeriod then t + Z.shiftl 1 (iceAge p b parent / c_expDiffPeriod - 2) else t)) (2 ^ 256 - 1)).
Proof. intros Hn Ht. unfold calculateDifficulty. destruct (Z.eqb_spec (h_number b) 0); [done|]. cbn [throw_if rbind]. by rewrite Ht. Qed.

(** C26. The difficulty of a block that is not the first is defined, at least
    the minimum of the chain and within 256 bits, before and after each fork and
    however large the bomb has grown; and of two blocks after one parent the
    later one is not the more difficult. *)
Theorem difficulty_antitone b1 b2 parent : chain_ok p -> header_typed parent -> 0 <= h_timestamp parent ->
  h_number b1 = h_number b2 -> h_number b1 <> 0 -> 0 <= h_timestamp b1 -> h_timestamp b1 <= h_timestamp b2 < 2 ^ 63 ->
  h_difficulty parent + h_difficulty parent / difficultyBoundDivisor p < 2 ^ 256 ->
  exists d1 d2, calculateDifficulty p b1 parent = Value d1 /\ calculateDifficulty p b2 parent = Value d2 /\
    minimumDifficulty p <= d2 <= d1 /\ d1 < 2 ^ 256.
Proof.
  intros Hp Hok Htp Hn Hn0 Ht1 Ht Hroom. destruct (target_antitone b1 b2 parent Hp Hok Htp Hn Ht1 Ht Hroom) as (t1 & t2 & E1 & E2 & Hle).
  rewrite (difficulty_of_target b1 parent t1 Hn0 E1), (difficulty_of_target b2 parent t2) by (done || by rewrite <- Hn).
  do 2 eexists. split; [done|]. split; [done|]. destruct Hp. unfold iceAge. rewrite Hn. set (c := _ / c_expDiffPeriod). destruct (1 <? c); lia.
Qed.
End Difficulty.

(** ** The limit of the gas *)

Section Blocks.
  Context `{Sha3} `{!AecashLib} (p : ChainOperationParams).

(** A parent after which a block can be made: its gas is within the limits, and
    the upper limit leaves room for one step. *)
Record gas_ok (parent : BlockHeader) : Prop := {
  go_used : h_gasUsed parent <= h_gasLimit parent;
  go_min : minGasLimit p <= h_gasLimit parent;
  go_step : 3 <= h_gasLimit parent / gasLimitBoundDivisor p;
  go_max : h_gasLimit parent + h_gasLimit parent / gasLimitBoundDivisor p <= maxGasLimit p
}.

(** The share of the gas that was used raises the limit by less than a step. *)
Lemma used_share u g d : 0 < d -> 0 <= u <= g -> 3 <= g / d -> 0 <= u * 6 / 5 / d /\ u * 6 / 5 / d + 1 < 2 * (g / d).
Proof.
  intros Hd Hu Hg. assert (H1 : 0 <= u * 6 / 5) by (apply Z.div_pos; lia). split; [by apply Z.div_pos|].
  pose proof (Z.mul_div_le (u * 6 / 5) d Hd) as H2. pose proof (Z.mul_div_le (u * 6) 5 ltac:(lia)) as H3.
  pose proof (Z.mul_succ_div_gt g d Hd) as H4. set (q := u * 6 / 5 / d) in *. set (k := g / d) in *. nia.
Qed.

(** The limit the engine chooses is one that it accepts. *)
Lemma childGasLimit_ok parent : chain_ok p -> header_typed parent -> gas_ok parent ->
  exists g, childGasLimit p parent Invalid256 = Value g /\ minGasLimit p <= g <= maxGasLimit p /\
    h_gasLimit parent - h_gasLimit parent / gasLimitBoundDivisor p < g < h_gasLimit parent + h_gasLimit parent / gasLimitBoundDivisor p.
Proof.
  intros [] [] []. unfold childGasLimit, udiv. rewrite Z.eqb_refl. destruct (Z.eqb_spec (gasLimitBoundDivisor p) 0); [lia|]. cbn [rbind].
  destruct (used_share (h_gasUsed parent) (h_gasLimit parent) (gasLimitBoundDivisor p)) as [Hs1 Hs2]; [lia|lia|done|].
  set (q := h_gasLimit parent / gasLimitBoundDivisor p) in *. assert (q <= h_gasLimit parent) by (unfold q; apply Z.div_le_upper_bound; nia).
  destruct (Z.ltb_spec (h_gasLimit parent) 3141562).
  - rewrite u256_id by lia. eexists. split; [done|]. lia.
  - rewrite (u256_id (h_gasUsed parent * 6)) by lia. cbn [rbind]. set (u := h_gasUsed parent * 6 / 5 / gasLimitBoundDivisor p) in *.
    rewrite u256_id by lia. eexists. split; [done|]. lia.
Qed.

(** ** Blocks after a parent *)

(** What the chain says about the extra data of a header. *)
Definition extra_ok (c : BlockHeader) : Prop :=
  lenZ (h_extraData c) <= maximumExtraDataSize p /\
  (0 < daoHardforkBlock p <= h_number c -> h_number c <= daoHardforkBlock p + 9 -> h_extraData c = dao_hard_fork).

(** The header [c] is made from the template [t]: what the engine chose is kept. *)
Record made_from (t c : BlockHeader) : Prop := {
  mf_parentHash : h_parentHash c = h_parentHash t;
  mf_number : h_number c = h_number t;
  mf_difficulty : h_difficulty c = h_difficulty t;
  mf_gasLimit : h_gasLimit c = h_gasLimit t;
  mf_timestamp : h_timestamp c = h_timestamp t
}.

Lemma verify_limits_ok c : chain_ok p -> 0 <= h_number c < 2 ^ 32 -> minimumDifficulty p <= h_difficulty c -> minGasLimit p <= h_gasLimit c <= maxGasLimit p ->
  extra_ok c -> verify_limits p c = Value tt.
Proof.
  intros [] Hn Hd Hg [He Hdao]. unfold verify_limits.
  destruct (Z.ltb_spec (h_difficulty c) (minimumDifficulty p)); [lia|]. destruct (Z.ltb_spec (h_gasLimit c) (minGasLimit p)); [lia|].
  destruct (Z.ltb_spec (maxGasLimit p) (h_gasLimit c)); [lia|]. destruct (Z.ltb_spec (maximumExtraDataSize p) (lenZ (h_extraData c))); [lia|].
  rewrite andb_false_r. cbn [throw_if rbind]. rewrite (to_u256_id (h_number c)) by lia.
  match goal with |- throw_if ?b _ = _ => destruct b eqn:E end; [|done]. exfalso.
  apply andb_true_iff in E as [E E5]. apply andb_true_iff in E as [E E4]. apply andb_true_iff in E as [E E3]. apply andb_true_iff in E as [E1 E2].
  apply negb_true_iff, bool_decide_eq_false in E5. apply E5, Hdao; [lia|].
  assert (Hu : u256 (daoHardforkBlock p + 9) <= daoHardforkBlock p + 9) by (unfold u256; apply Z.mod_le; lia). lia.
Qed.

Lemma verify_parent_ok c parent : chain_ok p -> header_typed parent -> gas_ok parent -> calculateDifficulty p c parent = Value (h_difficulty c) ->
  minGasLimit p <= h_gasLimit c <= maxGasLimit p ->
  h_gasLimit parent - h_gasLimit parent / gasLimitBoundDivisor p < h_gasLimit c < h_gasLimit parent + h_gasLimit parent / gasLimitBoundDivisor p ->
  verify_parent p c parent = Value tt.
Proof.
  intros [] [] [] Hd Hg Hs. unfold verify_parent, udiv. rewrite Hd. cbn [rbind]. rewrite Z.eqb_refl. cbn [negb throw_if rbind].
  destruct (Z.ltb_spec (h_gasLimit c) (minGasLimit p)); [lia|]. destruct (Z.ltb_spec (maxGasLimit p) (h_gasLimit c)); [lia|]. cbn [orb].
  destruct (Z.eqb_spec (gasLimitBoundDivisor p) 0); [lia|]. cbn [rbind].
  set (q := h_gasLimit parent / gasLimitBoundDivisor p) in *. assert (q <= h_gasLimit parent) by (unfold q; apply Z.div_le_upper_bound; nia).
  rewrite !u256_id by lia. destruct (Z.leb_spec (h_gasLimit c) (h_gasLimit parent - q)); [lia|].
  destruct (Z.leb_spec (h_gasLimit parent + q) (h_gasLimit c)); [lia|]. done.
Qed.

(** The checks of the header against its parent. *)
Lemma verify_after s c parent : 0 <= h_number parent < 2 ^ 32 - 1 -> is_header parent = true -> h_hash parent <> 0 ->
  h_number c = h_number parent + 1 -> h_gasUsed c <= h_gasLimit c -> h_parentHash c = h_hash parent -> h_timestamp parent < h_timestamp c ->
  BlockHeader.verify s c parent [] = Value parent.
Proof.
  intros Hn Hp Hh Hcn Hg Hph Ht. unfold BlockHeader.verify. rewrite Hp, Hph, Hcn. destruct (Z.ltb_spec (2 ^ 32 - 1) (h_number parent + 1)); [lia|].
  destruct (Z.ltb_spec (h_gasLimit c) (h_gasUsed c)); [lia|]. rewrite andb_false_r. cbn [throw_if rbind].
  destruct (Z.eqb_spec (h_hash parent) 0); [done|]. cbn [negb]. unfold hash. destruct (Z.eqb_spec (h_hash parent) 0); [done|]. cbn [rbind fst snd].
  rewrite Z.eqb_refl. cbn [negb throw_if rbind]. destruct (Z.leb_spec (h_timestamp c) (h_timestamp parent)); [lia|]. cbn [throw_if rbind].
  rewrite i64_small, Z.eqb_refl by lia. done.
Qed.

(** C13. The engine accepts the blocks it makes.  [populateFromParent] gives a
    header, whose time was set, the number after the parent, the hash the parent
    remembers, a difficulty and a limit of the gas; whatever is filled in
    afterwards within this limit, with extra data the chain allows, [verify]
    after the same parent finds nothing wrong but, if it is asked to look at it,
    the seal. *)
Theorem template_accepted bi parent : chain_ok p -> header_typed parent -> 0 <= h_number parent < 2 ^ 32 - 1 -> 0 <= h_timestamp parent ->
  h_hash parent <> 0 -> gas_ok parent -> h_timestamp parent < h_timestamp bi < 2 ^ 63 ->
  exists t, aecash_populateFromParent p bi parent = Value t /\ h_parentHash t = h_hash parent /\ h_number t = h_number parent + 1 /\
    h_timestamp t = h_timestamp bi /\
    forall s c, made_from t c -> h_gasUsed c <= h_gasLimit c -> extra_ok c ->
      aecash_verify_header p s c parent [] = (c <- seal_check s c ;; Value (c, parent)).
Proof.
  intros Hp Hok Hn Htp Hh Hg Ht. pose proof Hok as []. destruct (childGasLimit_ok parent Hp Hok Hg) as (g & Eg & Hgr & Hgs).
  set (b := populateFromParent parent bi). assert (Hbn : h_number b = h_number parent + 1) by (cbn; apply i64_small; lia).
  assert (Hd : exists d, calculateDifficulty p b parent = Value d /\ minimumDifficulty p <= d).
  { assert (Htg : exists t, target p b parent = Value t).
    { unfold target, udiv. destruct (_ <? _); [|by eexists]. pose proof (co_difficultyBoundDivisor p Hp). destruct (Z.eqb_spec (difficultyBoundDivisor p) 0); [lia|by eexists]. }
    destruct Htg as [t Et]. eexists. split; [apply difficulty_of_target; [lia|exact Et]|]. pose proof (co_minimumDifficulty p Hp). lia. }
  destruct Hd as (d & Ed & Hdm). unfold aecash_populateFromParent. fold b. rewrite Ed. cbn [rbind]. rewrite Eg. cbn [rbind].
  eexists. split; [done|]. cbn [h_parentHash h_number h_timestamp setGasLimit setDifficulty noteDirty with_hashes]. rewrite Hbn.
  split; [done|]. split; [done|]. split; [done|]. intros s c [M1 M2 M3 M4 M5] Hu He.
  cbn [h_parentHash h_number h_timestamp h_difficulty h_gasLimit setGasLimit setDifficulty noteDirty with_hashes] in M1, M2, M3, M4, M5. rewrite Hbn in M2.
  change (h_timestamp b) with (h_timestamp bi) in M5. change (h_parentHash b) with (h_hash parent) in M1.
  assert (Hreal : is_header parent = true).
  { unfold is_header, Invalid256. rewrite to_u256_id by lia. destruct (Z.eqb_spec (h_timestamp parent) (2 ^ 256 - 1)); [lia|done]. }
  unfold aecash_verify_header. rewrite (verify_after s c parent) by (done || lia). cbn [rbind].
  rewrite (verify_limits_ok c Hp ltac:(lia) ltac:(lia) ltac:(lia) He).
  assert (Hmatch : match s with CheckNothingNew => Value tt | _ => Value (E := header_error) tt end = Value tt) by (by destruct s). rewrite Hmatch. cbn [rbind].
  assert (Hcd : calculateDifficulty p c parent = Value (h_difficulty c)).
  { rewrite M3, <- Ed. apply calculateDifficulty_ext; [by rewrite Hbn|done]. }
  rewrite Hreal, (verify_parent_ok c parent Hp Hok Hg Hcd) by lia. done.
Qed.
End Blocks.

(** ** Where the rules are tight *)

(** The target of difficulty one is [2^256], which is no [u256]: it wraps to
    zero, and no hash is below it. *)
Lemma boundary_wraps h : h_difficulty h = 1 -> boundary h = 0.
Proof. intros Hd. unfold boundary. by rewrite Hd. Qed.

(** ** Witnesses *)

Definition test_chain : ChainOperationParams :=
  mkChainOperationParams 0 1024 0 true 5000 4000000 1024 10 20 30 40 50 60 0 1 1 131072 2048 13 false ∅.
Definition test_parent : BlockHeader := mkBlockHeader 1 2 3 4 5 6 7 1000000 8 3990000 3900000 1500000000 [] [] 99 0.
Definition test_template : BlockHeader := setTimestamp 1500000010 (setAuthor 12 new_BlockHeader).

(** The aecash library: the proof of work is the nonce 5. *)
#[export] Instance TestAecash : AecashLib :=
  {| verify_final_hash _ _ n _ := n =? 5; get_epoch_number n := n / 30000; aecash_verify _ _ _ n _ := n =? 5 |}.

Lemma test_chain_ok : chain_ok test_chain.
Proof. constructor; cbn; lia. Qed.

Lemma test_parent_ok : header_typed test_parent.
Proof. constructor; cbn; try lia. split; [constructor|done]. Qed.

Lemma difficulty_antitone_witness : exists d1 d2, calculateDifficulty test_chain (setTimestamp 1500000010 (populateFromParent test_parent new_BlockHeader)) test_parent = Value d1 /\
  calculateDifficulty test_chain (setTimestamp 1500000100 (populateFromParent test_parent new_BlockHeader)) test_parent = Value d2 /\ d2 <= d1.
Proof.
  destruct (difficulty_antitone test_chain (setTimestamp 1500000010 (populateFromParent test_parent new_BlockHeader))
    (setTimestamp 1500000100 (populateFromParent test_parent new_BlockHeader)) test_parent) as (d1 & d2 & E1 & E2 & [_ Hle] & _).
  - exact test_chain_ok.
  - exact test_parent_ok.
  - cbn. lia.
  - reflexivity.
  - done.
  - cbn. lia.
  - cbn. lia.
  - vm_compute. done.
  - exists d1, d2. split; [exact E1|]. split; [exact E2|exact Hle].
Defined.

Lemma test_gas_ok : gas_ok test_chain test_parent.
Proof. constructor; vm_compute; done. Qed.

Lemma template_accepted_witness : exists t, aecash_populateFromParent test_chain test_template test_parent = Value t /\
  aecash_verify_header test_chain IgnoreSeal (setGasUsed 21000 t) test_parent [] = Value (setGasUsed 21000 t, test_parent).
Proof.
  destruct (template_accepted test_chain test_template test_parent) as (t & Et & _ & _ & _ & Hall).
  - exact test_chain_ok.
  - exact test_parent_ok.
  - cbn. lia.
  - cbn. lia.
  - done.
  - exact test_gas_ok.
  - cbn. lia.
  - exists t. split; [exact Et|]. apply (Hall IgnoreSeal); vm_compute in Et; injection Et as <-.
    + constructor; reflexivity.
    + vm_compute. done.
    + split; [vm_compute; done|]. cbn. lia.
Defined.

(** A parent that has used all its gas, with the upper limit of the chain: the
    limit the engine chooses for the next block is above it. *)
Definition full_parent : BlockHeader := mkBlockHeader 1 2 3 4 5 6 7 1000000 8 4000000 4000000 1500000000 [] [] 99 0.

Example full_blocks_exceed_limit : exists t, aecash_populateFromParent test_chain test_template full_parent = Value t /\
  maxGasLimit test_chain < h_gasLimit t /\ aecash_verify_header test_chain IgnoreSeal t full_parent [] = Error InvalidGasLimit.
Proof. eexists. split; [vm_compute; reflexivity|]. split; vm_compute; reflexivity. Qed.
