(* ===== verification/TxQueueSpec.v ===== *)
(** * The transaction queue: its invariant, and what each operation does

    [queue_ok]: the two indices lead to exactly the elements of [m_current]; what
    waits is filed under its own sender and nonce; no two transactions of the
    queue, current or future, have the same sender and nonce or the same hash;
    [m_futureSize] is their number.  Each operation is specified by what
    [in_current] and [in_future] say afterwards. *)
From stdpp Require Import base list gmap sorting.
From Stdlib Require Import ZArith Lia.
From S2P Require Import Prelude Words Result Rlp StateMonad Account Transaction TxQueue.

Section Spec.
  Context `{Sha3} `{!Secp256k1} `{!UnorderedMaps} `{!Multiset}.

Definition in_current (q : TransactionQueue) (a n : Z) (t : TransactionBase) : Prop :=
  exists it, (it, t) ∈ m_current q /\ sender t = Value a /\ t_nonce t = n.
Definition in_future (q : TransactionQueue) (a n : Z) (t : TransactionBase) : Prop :=
  m_future q !! a ≫= lookup n = Some t.
Definition in_queue q a n t : Prop := in_current q a n t \/ in_future q a n t.

Definition indexed (q : TransactionQueue) (a n it : Z) : Prop := m_currentByAddressAndNonce q !! a ≫= lookup n = Some it.

Definition count_future (m : gmap Z (gmap Z TransactionBase)) : Z := map_fold (fun _ fm n => Z.of_nat (size fm) + n) 0 m.

(** What [t] is filed under: its sender and its hash. *)
Definition tx_key (t : TransactionBase) (a h : Z) : Prop :=
  sender t = Value a /\ tx_hash WithSignature t = Value h /\ 0 <= t_nonce t < 2 ^ 256.

Record queue_ok (q : TransactionQueue) : Prop := {
  ok_handles : NoDup (m_current q).*1;
  ok_next : forall it t, (it, t) ∈ m_current q -> it < next_handle q;
  ok_current : forall it t, (it, t) ∈ m_current q -> exists a h, tx_key t a h /\
    m_currentByHash q !! h = Some it /\ indexed q a (t_nonce t) it;
  ok_byHash : forall h it, m_currentByHash q !! h = Some it -> exists t, (it, t) ∈ m_current q /\ tx_hash WithSignature t = Value h;
  ok_byNonce : forall a n it, indexed q a n it -> exists t, (it, t) ∈ m_current q /\ sender t = Value a /\ t_nonce t = n;
  ok_nonces : forall a, m_currentByAddressAndNonce q !! a <> Some ∅;
  ok_future : forall a n t, in_future q a n t -> t_nonce t = n /\ exists h, tx_key t a h;
  ok_futures : forall a, m_future q !! a <> Some ∅;
  ok_disjoint : forall a n t it, in_future q a n t -> ~ indexed q a n it;
  ok_hashes : forall a n t a' n' t', in_queue q a n t -> in_queue q a' n' t' ->
    tx_hash WithSignature t = tx_hash WithSignature t' -> a = a' /\ n = n';
  ok_size : m_futureSize q = count_future (m_future q);
  ok_small : m_futureSize q < 2 ^ 32
}.

(** ** The containers *)

Lemma deref_it_elem q it t : NoDup (m_current q).*1 -> (it, t) ∈ m_current q -> deref_it it q = Some t.
Proof.
  intros Hnd Hin. unfold deref_it.
  destruct (list_find (fun e => e.1 = it) (m_current q)) as [[i [it' t']]|] eqn:E.
  - apply list_find_Some in E as (Hi & Hit & _). cbn in Hit. subst it'. cbn. f_equal.
    apply list_elem_of_lookup in Hin as [j Hj].
    assert (i = j) as ->.
    { eapply NoDup_lookup; [exact Hnd | |]; rewrite list_lookup_fmap; [rewrite Hi|rewrite Hj]; done. }
    congruence.
  - apply list_find_None in E. rewrite Forall_forall in E. by destruct (E _ Hin).
Qed.

Lemma deref_it_lookup q it t : deref_it it q = Some t -> (it, t) ∈ m_current q.
Proof.
  unfold deref_it. destruct list_find as [[i [it' t']]|] eqn:E; [|done].
  apply list_find_Some in E as (Hi & Hit & _). intros [= <-]. cbn in *. subst. by eapply list_elem_of_lookup_2.
Qed.

Lemma length_erase_it (l : list (Z * TransactionBase)) it t : NoDup l.*1 -> (it, t) ∈ l ->
  length l = S (length (filter (fun e => e.1 <> it) l)).
Proof.
  intros Hnd Hin. apply list_elem_of_split in Hin as (l1 & l2 & ->). rewrite filter_app, filter_cons_False by (cbn; auto).
  rewrite fmap_app, fmap_cons in Hnd. cbn in Hnd. apply NoDup_app in Hnd as (_ & Hd1 & Hd2). apply NoDup_cons in Hd2 as [Hd2 _].
  assert (Hk : forall l : list (Z * TransactionBase), it ∉ l.*1 -> filter (fun e => e.1 <> it) l = l).
  { intros l Hl. induction l as [|[it' t'] l IH]; [done|]. rewrite fmap_cons in Hl. apply not_elem_of_cons in Hl as [Hl1 Hl2].
    rewrite filter_cons_True by (cbn in *; congruence). by rewrite IH. }
  rewrite (Hk l1), (Hk l2); [rewrite !length_app; cbn; lia| done |].
  intros Hit. apply (Hd1 _ Hit). left.
Qed.

Lemma ordered_keys_elem {A} (m : gmap Z A) k : k ∈ ordered_keys m <-> is_Some (m !! k).
Proof.
  unfold ordered_keys. rewrite merge_sort_Permutation, list_elem_of_fmap. split.
  - intros ([k' a] & -> & Hin). apply elem_of_map_to_list in Hin. cbn. eauto.
  - intros [a Ha]. exists (k, a). split; [done|]. by apply elem_of_map_to_list.
Qed.

Lemma ordered_keys_sorted {A} (m : gmap Z A) : StronglySorted Z.lt (ordered_keys m).
Proof.
  assert (Hs : StronglySorted Z.le (ordered_keys m)).
  { apply Sorted_StronglySorted; [intros ? ? ?; lia|]. apply Sorted_merge_sort. intros ? ?. lia. }
  assert (Hnd : NoDup (ordered_keys m)).
  { unfold ordered_keys. rewrite merge_sort_Permutation. apply NoDup_fst_map_to_list. }
  induction Hs as [|k l Hs IH Hf]; [constructor|]. apply NoDup_cons in Hnd as [Hk Hnd].
  constructor; [by apply IH|]. rewrite Forall_forall in Hf |- *. intros k' Hk'.
  specialize (Hf k' Hk'). assert (k <> k') by (intros ->; done). lia.
Qed.

Lemma first_key_some {A} (m : gmap Z A) : m <> ∅ -> exists k, first_key m = Some k.
Proof.
  intros Hm. apply map_choose in Hm as (k & a & Hk). unfold first_key.
  destruct (ordered_keys m) as [|k' l] eqn:E; [|by eexists].
  assert (Hin : k ∈ ordered_keys m) by (apply ordered_keys_elem; eauto). rewrite E in Hin. by apply elem_of_nil in Hin.
Qed.

Lemma last_key_some {A} (m : gmap Z A) : m <> ∅ -> exists k a, last_key m = Some k /\ m !! k = Some a.
Proof.
  intros Hm. apply map_choose in Hm as (k & a & Hk). unfold last_key.
  assert (Hin : k ∈ ordered_keys m) by (apply ordered_keys_elem; eauto).
  destruct (last (ordered_keys m)) as [k'|] eqn:E; [|apply last_None in E; rewrite E in Hin; by apply elem_of_nil in Hin].
  exists k'. assert (Hin' : k' ∈ ordered_keys m) by (apply last_Some in E as [l' ->]; apply elem_of_app; right; apply list_elem_of_singleton; done).
  apply ordered_keys_elem in Hin' as [a' Ha']. eauto.
Qed.

Lemma count_future_insert m a fm : m !! a = None -> count_future (<[a := fm]> m) = Z.of_nat (size fm) + count_future m.
Proof. intros Ha. unfold count_future. apply (map_fold_insert_L (fun _ fm n => Z.of_nat (size fm) + n)); [|done]. intros; lia. Qed.

Lemma count_future_delete m a fm : m !! a = Some fm -> count_future m = Z.of_nat (size fm) + count_future (delete a m).
Proof.
  intros Ha. rewrite <- (insert_delete_id m a fm) at 1 by done. rewrite count_future_insert; [done|]. by rewrite lookup_delete_eq.
Qed.

Lemma count_future_nonneg m : 0 <= count_future m.
Proof. induction m as [|a fm m Ha IH] using map_ind; [done|]. rewrite count_future_insert by done. lia. Qed.

(** Replacing what waits of one sender. *)
Lemma count_future_alter (m : gmap Z (gmap Z TransactionBase)) a (fm : gmap Z TransactionBase) :
  count_future (if decide (fm = ∅) then delete a m else <[a := fm]> m) =
  count_future m + Z.of_nat (size fm) - Z.of_nat (size (default ∅ (m !! a))).
Proof.
  assert (Hd : count_future m = Z.of_nat (size (default ∅ (m !! a))) + count_future (delete a m)).
  { destruct (m !! a) as [fm'|] eqn:E; cbn; [by apply count_future_delete|]. rewrite delete_id by done. by rewrite map_size_empty. }
  case_decide as Hf; [subst; rewrite map_size_empty; lia|].
  rewrite <- insert_delete_eq, count_future_insert by (by rewrite lookup_delete_eq). lia.
Qed.

Lemma foldl_delete_lookup {A} ks : forall (m : gmap Z A) k,
  foldl (fun m k => delete k m) m ks !! k = if decide (k ∈ ks) then None else m !! k.
Proof.
  induction ks as [|k' ks IH]; intros m k; cbn [foldl].
  - rewrite decide_False; [done|]. by apply not_elem_of_nil.
  - rewrite IH. case_decide as E; [by rewrite decide_True by (right; done)|].
    destruct (decide (k = k')) as [->|Hne].
    + rewrite decide_True by left. by apply lookup_delete_eq.
    + rewrite decide_False, lookup_delete_ne; [done|done|]. intros [?|?]%elem_of_cons; done.
Qed.

Lemma erase_keys_lookup {A} from ks (m : gmap Z (gmap Z A)) a : erase_keys from ks m !! a =
  if decide (a = from) then
    let fm := foldl (fun m k => delete k m) (default ∅ (m !! from)) ks in if decide (fm = ∅) then None else Some fm
  else m !! a.
Proof.
  unfold erase_keys. destruct (decide (a = from)) as [->|Hne]; cbn; case_decide.
  - by rewrite lookup_delete_eq.
  - by rewrite lookup_insert_eq.
  - by rewrite lookup_delete_ne.
  - by rewrite lookup_insert_ne.
Qed.

Lemma erase_keys_waits {A} from ks (m : gmap Z (gmap Z A)) a n :
  erase_keys from ks m !! a ≫= lookup n = if decide (a = from /\ n ∈ ks) then None else m !! a ≫= lookup n.
Proof.
  rewrite erase_keys_lookup. destruct (decide (a = from)) as [->|Hne]; [|by rewrite decide_False by naive_solver]. cbn.
  transitivity (foldl (fun m k => delete k m) (default ∅ (m !! from)) ks !! n).
  { case_decide as E; [by rewrite E, lookup_empty|done]. }
  rewrite foldl_delete_lookup.
  assert (Hx : default ∅ (m !! from) !! n = m !! from ≫= lookup n) by (destruct (m !! from); cbn; [done|apply lookup_empty]).
  rewrite Hx. repeat case_decide; naive_solver.
Qed.

Lemma erase_keys_nonempty {A} from ks (m : gmap Z (gmap Z A)) a : (forall a, m !! a <> Some ∅) -> erase_keys from ks m !! a <> Some ∅.
Proof. intros Hm. rewrite erase_keys_lookup. case_decide; [|done]. cbn. case_decide; congruence. Qed.

Lemma erase_keys_count from k m t : m !! from ≫= lookup k = Some t ->
  count_future (erase_keys from [k] m) = count_future m - 1.
Proof.
  intros Hk. unfold erase_keys. cbn [foldl]. rewrite count_future_alter.
  destruct (m !! from) as [fm|] eqn:E; [|done]. cbn in *. rewrite map_size_delete, Hk.
  assert (size fm <> 0%nat) by (intros Hz; apply map_size_empty_iff in Hz; subst; by rewrite lookup_empty in Hk). lia.
Qed.

Lemma erase_keys_app {A} from ks1 ks2 (m : gmap Z (gmap Z A)) : erase_keys from (ks1 ++ ks2) m = erase_keys from ks2 (erase_keys from ks1 m).
Proof.
  apply map_eq. intros a. rewrite !erase_keys_lookup. destruct (decide (a = from)) as [->|Hne]; [|done].
  rewrite foldl_app, !(decide_True (P := from = from)) by done. cbn zeta.
  assert (Hx : default ∅ (if decide (foldl (fun m k => delete k m) (default ∅ (m !! from)) ks1 = ∅) then None
    else Some (foldl (fun m k => delete k m) (default ∅ (m !! from)) ks1)) = foldl (fun m k => delete k m) (default ∅ (m !! from)) ks1).
  { case_decide as E1; [by rewrite E1|done]. }
  by rewrite Hx.
Qed.

Lemma erase_keys_insert {A} from ks k (x : A) (m : gmap Z (gmap Z A)) : k ∈ ks ->
  erase_keys from ks (<[from := <[k := x]> (default ∅ (m !! from))]> m) = erase_keys from ks m.
Proof.
  intros Hk. apply map_eq. intros a. rewrite !erase_keys_lookup. destruct (decide (a = from)) as [->|Hne]; [|by rewrite lookup_insert_ne].
  rewrite lookup_insert_eq. cbn.
  assert (Hx : foldl (fun m k => delete k m) (<[k := x]> (default ∅ (m !! from))) ks = foldl (fun m k => delete k m) (default ∅ (m !! from)) ks).
  { apply map_eq. intros k'. rewrite !foldl_delete_lookup. case_decide; [done|]. rewrite lookup_insert_ne; [done|]. by intros ->. }
  by rewrite Hx.
Qed.
End Spec.
