(* ===== verification/TxQueueOps.v ===== *)
(** * The transaction queue: the operations keep the invariant

    Inserting a transaction, removing one, moving the run of future transactions
    that follows one, and sending transactions back to wait.  Each lemma gives
    the state the operation ends in, the invariant of it, and its contents. *)
From stdpp Require Import base list gmap sorting.
From Stdlib Require Import ZArith Lia.
From S2P Require Import Prelude Words Result Rlp StateMonad Account Transaction TxQueue TxQueueSpec.
Open Scope sm_scope.

Section Ops.
  Context `{Sha3} `{!Secp256k1} `{!UnorderedMaps} `{!Multiset}.

(** ** Insertion *)

Definition inserted (from : Z) (t : TransactionBase) (l1 l2 : list (Z * TransactionBase)) (q : TransactionQueue) : TransactionQueue :=
  set_byNonce (<[from := <[t_nonce t := next_handle q]> (default ∅ (m_currentByAddressAndNonce q !! from))]> (m_currentByAddressAndNonce q))
    (set_current (l1 ++ (next_handle q, t) :: l2) (next_handle q + 1) q).

(** Every element has a sender, and its sender a first nonce. *)
Definition comparable (q : TransactionQueue) : Prop :=
  forall it t, (it, t) ∈ m_current q -> exists a n, sender t = Value a /\ first_nonce q a = Some n.

Lemma first_nonce_insert q a' a n h nonces : nonces = default ∅ (m_currentByAddressAndNonce q !! a) ->
  is_Some (first_nonce q a') -> is_Some (first_nonce (set_byNonce (<[a := <[n := h]> nonces]> (m_currentByAddressAndNonce q)) q) a').
Proof.
  intros -> Hs. unfold first_nonce. cbn. destruct (decide (a' = a)) as [->|Hne].
  - rewrite lookup_insert_eq. destruct (first_key_some (<[n := h]> (default ∅ (m_currentByAddressAndNonce q !! a)))) as [k ->]; [apply insert_non_empty|eauto].
  - rewrite lookup_insert_ne by done. exact Hs.
Qed.

Lemma height_value q t a n : sender t = Value a -> first_nonce q a = Some n -> exists v, height q t = Value v.
Proof. intros Hs Hn. unfold height. rewrite Hs. cbn. rewrite Hn. cbn. eauto. Qed.

Lemma compare_value q t t' a n a' n' : sender t = Value a -> first_nonce q a = Some n -> sender t' = Value a' -> first_nonce q a' = Some n' ->
  exists b, PriorityCompare q t t' = Value b.
Proof.
  intros Hs Hn Hs' Hn'. unfold PriorityCompare.
  destruct (height_value q t a n Hs Hn) as [v ->], (height_value q t' a' n' Hs' Hn') as [v' ->]. cbn. eauto.
Qed.

Lemma emplace_current_eq q t a n : comparable q -> sender t = Value a -> first_nonce q a = Some n ->
  exists l1 l2, m_current q = l1 ++ l2 /\
    emplace_current t q = (Value (next_handle q), set_current (l1 ++ (next_handle q, t) :: l2) (next_handle q + 1) q).
Proof.
  intros Hc Hs Hn.
  destruct (emplace_total (fun a b : Z * TransactionBase => PriorityCompare q a.2 b.2) (next_handle q, t) (m_current q)) as (l1 & l2 & Hl & He).
  { intros [it t'] Hin. destruct (Hc it t' Hin) as (a' & n' & Hs' & Hn'). cbn.
    split; eapply compare_value; eauto. }
  exists l1, l2. split; [done|]. unfold emplace_current, sbind, sget, slift, smod, sret. by rewrite He.
Qed.

Lemma insert_handle_eq q from t : comparable q -> sender t = Value from ->
  exists l1 l2, m_current q = l1 ++ l2 /\ insert_handle from t q = (Value (next_handle q), inserted from t l1 l2 q).
Proof.
  intros Hc Hs. unfold insert_handle. cbn [sbind sget]. unfold sbind at 1, sget at 1. cbn beta iota.
  set (nonces := default ∅ (m_currentByAddressAndNonce q !! from)).
  set (q0 := match nonces !! t_nonce t with Some _ => q
             | None => set_byNonce (<[from := <[t_nonce t := 0]> nonces]> (m_currentByAddressAndNonce q)) q end).
  unfold sbind at 1. 
  assert (E0 : (match nonces !! t_nonce t with Some _ => sret tt
     | None => smod (set_byNonce (<[from := <[t_nonce t := 0]> nonces]> (m_currentByAddressAndNonce q))) end) q = (@Value tx_error _ tt, q0)).
  { unfold q0. by destruct (nonces !! t_nonce t). }
  rewrite E0. clear E0.
  assert (Hcur : m_current q0 = m_current q) by (unfold q0; by destruct (nonces !! t_nonce t)).
  assert (Hnext : next_handle q0 = next_handle q) by (unfold q0; by destruct (nonces !! t_nonce t)).
  assert (Hfirst : is_Some (first_nonce q0 from)).
  { unfold q0. destruct (nonces !! t_nonce t) as [it|] eqn:E.
    - unfold first_nonce. unfold nonces in E. destruct (m_currentByAddressAndNonce q !! from) as [m|]; cbn in E; [|by rewrite lookup_empty in E].
      destruct (first_key_some m) as [k ->]; [|eauto]. intros ->. by rewrite lookup_empty in E.
    - unfold first_nonce. cbn. rewrite lookup_insert_eq. destruct (first_key_some (<[t_nonce t := 0]> nonces)) as [k ->]; [apply insert_non_empty|eauto]. }
  assert (Hc0 : comparable q0).
  { intros it t'. rewrite Hcur. intros Hin. destruct (Hc it t' Hin) as (a & n & Hs' & Hn). exists a.
    assert (Hx : is_Some (first_nonce q0 a)); [|destruct Hx; eauto].
    unfold q0. destruct (nonces !! t_nonce t); [eauto|]. by apply first_nonce_insert; eauto. }
  destruct Hfirst as [n Hn]. destruct (emplace_current_eq q0 t from n Hc0 Hs Hn) as (l1 & l2 & Hl & He).
  exists l1, l2. rewrite Hcur in Hl. split; [done|].
  unfold sbind. rewrite He. cbn. rewrite Hnext. f_equal. unfold inserted.
  assert (Hfold : <[from := <[t_nonce t := next_handle q]> (default ∅ (m_currentByAddressAndNonce q0 !! from))]> (m_currentByAddressAndNonce q0) =
     <[from := <[t_nonce t := next_handle q]> nonces]> (m_currentByAddressAndNonce q)).
  { unfold q0. destruct (nonces !! t_nonce t); [done|]. cbn. rewrite lookup_insert_eq. cbn. by rewrite !insert_insert_eq. }
  rewrite Hfold. fold nonces. unfold q0. by destruct (nonces !! t_nonce t).
Qed.

Lemma queue_comparable q : queue_ok q -> comparable q.
Proof.
  intros Hq it t Hin. destruct (ok_current q Hq it t Hin) as (a & h & (Hs & _) & _ & Hn). exists a.
  unfold first_nonce. unfold indexed in Hn. destruct (m_currentByAddressAndNonce q !! a) as [m|]; cbn in Hn; [|done].
  destruct (first_key_some m) as [k ->]; [|eauto]. intros ->. by rewrite lookup_empty in Hn.
Qed.

(** [t] with the hash [h] filed. *)
Definition filed (from h : Z) (t : TransactionBase) (l1 l2 : list (Z * TransactionBase)) (q : TransactionQueue) : TransactionQueue :=
  set_byHash (<[h := next_handle q]> (m_currentByHash q)) (inserted from t l1 l2 q).

Lemma indexed_insert q a n it from k h :
  (<[from := <[k := h]> (default ∅ (m_currentByAddressAndNonce q !! from))]> (m_currentByAddressAndNonce q) !! a ≫= lookup n = Some it <->
   (a = from /\ n = k /\ it = h) \/ (~ (a = from /\ n = k) /\ indexed q a n it)).
Proof.
  unfold indexed. destruct (decide (a = from)) as [->|Hne].
  - rewrite lookup_insert_eq. cbn. destruct (decide (n = k)) as [->|Hn].
    + rewrite lookup_insert_eq. naive_solver.
    + rewrite lookup_insert_ne by done.
      assert (Hx : default ∅ (m_currentByAddressAndNonce q !! from) !! n = m_currentByAddressAndNonce q !! from ≫= lookup n)
        by (destruct (m_currentByAddressAndNonce q !! from); cbn; [done|apply lookup_empty]).
      rewrite Hx. naive_solver.
  - rewrite lookup_insert_ne by done. naive_solver.
Qed.

Lemma filed_elem from h t l1 l2 q it t' : m_current q = l1 ++ l2 ->
  (it, t') ∈ m_current (filed from h t l1 l2 q) <-> (it = next_handle q /\ t' = t) \/ (it, t') ∈ m_current q.
Proof. intros ->. cbn. rewrite !elem_of_app, elem_of_cons. naive_solver. Qed.

Lemma filed_current from h t l1 l2 q a n t' : m_current q = l1 ++ l2 -> sender t = Value from ->
  in_current (filed from h t l1 l2 q) a n t' <-> (a = from /\ n = t_nonce t /\ t' = t) \/ in_current q a n t'.
Proof.
  intros Hl Hs. unfold in_current. setoid_rewrite (filed_elem from h t l1 l2 q _ _ Hl). split.
  - intros (it & [[-> ->]|Hin] & Ha & Hn); [left; split_and!; congruence|right; eauto].
  - intros [(-> & -> & ->)|(it & Hin & Ha & Hn)]; eauto 10.
Qed.

(** A transaction with a new hash, under a sender and nonce that are free. *)
Lemma filed_ok from h t l1 l2 q : queue_ok q -> m_current q = l1 ++ l2 -> tx_key t from h ->
  (forall t', ~ in_queue q from (t_nonce t) t') -> (forall a n t', in_queue q a n t' -> tx_hash WithSignature t' <> Value h) ->
  queue_ok (filed from h t l1 l2 q).
Proof.
  intros Hq Hl Hk Hfree Hnew. pose proof Hk as (Hs & Hh & Hr).
  pose proof (fun it t' => filed_elem from h t l1 l2 q it t' Hl) as He.
  assert (Hi : forall a n it, indexed (filed from h t l1 l2 q) a n it <->
    (a = from /\ n = t_nonce t /\ it = next_handle q) \/ (~ (a = from /\ n = t_nonce t) /\ indexed q a n it))
    by (intros; apply indexed_insert).
  assert (Hfi : forall n it, indexed q from n it -> n = t_nonce t -> False).
  { intros n it Hit ->. destruct (ok_byNonce q Hq _ _ _ Hit) as (t' & Hin & Hs' & Hn'). apply (Hfree t'). left. by exists it. }
  constructor.
  - assert (Hp : (m_current (filed from h t l1 l2 q)).*1 ≡ₚ next_handle q :: (m_current q).*1).
    { rewrite Hl. cbn -[fmap]. rewrite !fmap_app, fmap_cons. by rewrite <- Permutation_middle. }
    rewrite Hp. apply NoDup_cons. split; [|apply (ok_handles q Hq)].
    rewrite list_elem_of_fmap. intros ([it t'] & Hit & Hin). cbn in Hit. apply (ok_next q Hq) in Hin. lia.
  - intros it t'. rewrite He. cbn. intros [[-> _]|Hin]; [lia|]. apply (ok_next q Hq) in Hin. lia.
  - intros it t'. rewrite He. intros [[-> ->]|Hin].
    + exists from, h. split; [done|]. cbn. rewrite lookup_insert_eq. split; [done|]. apply Hi. by left.
    + destruct (ok_current q Hq it t' Hin) as (a & h' & Hk' & Hb & Hn). exists a, h'. split; [done|].
      assert (h' <> h). { intros ->. apply (Hnew a (t_nonce t') t'); [left; exists it|]; destruct Hk' as (? & ? & ?); auto. }
      cbn. rewrite lookup_insert_ne by done. split; [done|]. apply Hi. right. split; [|done]. intros [-> E]. by eapply Hfi.
  - intros h' it. cbn. destruct (decide (h' = h)) as [->|Hne].
    + rewrite lookup_insert_eq. intros [= <-]. exists t. split; [|done]. apply He. by left.
    + rewrite lookup_insert_ne by done. intros Hb. destruct (ok_byHash q Hq h' it Hb) as (t' & Hin & Hh'). exists t'. split; [|done]. apply He. by right.
  - intros a n it. rewrite Hi. intros [(-> & -> & ->)|[_ Hit]].
    + exists t. split; [apply He; by left|done].
    + destruct (ok_byNonce q Hq a n it Hit) as (t' & Hin & Hx). exists t'. split; [|done]. apply He. by right.
  - intros a. cbn. destruct (decide (a = from)) as [->|Hne].
    + rewrite lookup_insert_eq. intros [= Hx]. by apply insert_non_empty in Hx.
    + rewrite lookup_insert_ne by done. apply (ok_nonces q Hq).
  - exact (ok_future q Hq).
  - exact (ok_futures q Hq).
  - intros a n t' it Hf. rewrite Hi. intros [(-> & -> & ->)|[_ Hit]]; [|by eapply (ok_disjoint q Hq)].
    apply (Hfree t'). by right.
  - assert (Hiq : forall a n t', in_queue (filed from h t l1 l2 q) a n t' <-> (a = from /\ n = t_nonce t /\ t' = t) \/ in_queue q a n t').
    { intros a n t'. unfold in_queue. rewrite (filed_current from h t l1 l2 q a n t' Hl Hs). unfold in_future. cbn. tauto. }
    intros a n t1 a' n' t2. rewrite !Hiq. intros [(-> & -> & ->)|H1q] [(-> & -> & ->)|H2q] Heq; [done| | |].
    + destruct (Hnew _ _ _ H2q). congruence.
    + destruct (Hnew _ _ _ H1q). congruence.
    + by eapply (ok_hashes q Hq).
  - exact (ok_size q Hq).
  - exact (ok_small q Hq).
Qed.

(** ** Removal *)

(** What waits under [from] and [k] is gone. *)
Definition unwait (from k : Z) (q : TransactionQueue) : TransactionQueue :=
  set_future (erase_keys from [k] (m_future q)) (u32 (m_futureSize q - 1)) q.

Lemma unwait_future from k q a n t : in_future (unwait from k q) a n t <-> in_future q a n t /\ ~ (a = from /\ n = k).
Proof.
  unfold in_future. cbn. rewrite erase_keys_waits. case_decide as E.
  - destruct E as [-> ->%list_elem_of_singleton]. naive_solver.
  - assert (~ (a = from /\ n = k)) by (intros [-> ->]; apply E; split; [done|left]). naive_solver.
Qed.

Lemma size_pos q a n t : queue_ok q -> in_future q a n t -> 0 < m_futureSize q.
Proof.
  intros Hq Hf. rewrite (ok_size q Hq). pose proof (erase_keys_count a n (m_future q) t Hf) as Hc.
  pose proof (count_future_nonneg (erase_keys a [n] (m_future q))). lia.
Qed.

Lemma unwait_size from k q t : queue_ok q -> in_future q from k t -> m_futureSize (unwait from k q) = m_futureSize q - 1.
Proof.
  intros Hq Hf. pose proof (size_pos q _ _ _ Hq Hf). pose proof (ok_small q Hq). cbn. apply u32_small. lia.
Qed.

Lemma unwait_ok from k q t : queue_ok q -> in_future q from k t -> queue_ok (unwait from k q).
Proof.
  intros Hq Hf. pose proof (unwait_size from k q t Hq Hf) as Hsz. pose proof Hq as [].
  assert (Hiq : forall a n t', in_queue (unwait from k q) a n t' -> in_queue q a n t').
  { intros a n t' [Hc|Hx]; [by left|right]. by apply unwait_future in Hx as [? _]. }
  constructor; try done.
  - intros a n t' [Hx _]%unwait_future. by apply ok_future.
  - intros a. by apply erase_keys_nonempty.
  - intros a n t' it [Hx _]%unwait_future. by eapply ok_disjoint.
  - intros a n t1 a' n' t2 H1q%Hiq H2q%Hiq. by eapply ok_hashes.
  - rewrite Hsz. cbn. rewrite (erase_keys_count _ _ _ t) by done. lia.
  - rewrite Hsz. lia.
Qed.

(** The element [it] is gone from [m_current] and both indices. *)
Definition removed (it from n h : Z) (q : TransactionQueue) : TransactionQueue :=
  set_byNonce (erase_keys from [n] (m_currentByAddressAndNonce q)) (set_byHash (delete h (m_currentByHash q)) (erase_it it q)).

Lemma removed_indexed it0 from k h q a n it : indexed (removed it0 from k h q) a n it <-> indexed q a n it /\ ~ (a = from /\ n = k).
Proof.
  unfold indexed, removed. cbn. rewrite erase_keys_waits. case_decide as E.
  - destruct E as [-> ->%list_elem_of_singleton]. naive_solver.
  - assert (~ (a = from /\ n = k)) by (intros [-> ->]; apply E; split; [done|left]). naive_solver.
Qed.

Lemma removed_elem it0 from k h q it t : (it, t) ∈ m_current (removed it0 from k h q) <-> (it, t) ∈ m_current q /\ it <> it0.
Proof. cbn. rewrite list_elem_of_filter. cbn. naive_solver. Qed.

(** Two elements of the queue are one if they have the same sender and nonce. *)
Lemma queue_elem_inj q it t it' t' a : queue_ok q -> (it, t) ∈ m_current q -> (it', t') ∈ m_current q ->
  sender t = Value a -> sender t' = Value a -> t_nonce t = t_nonce t' -> it = it' /\ t = t'.
Proof.
  intros Hq Hin Hin' Hs Hs' Hn. destruct (ok_current q Hq _ _ Hin) as (b & h & (Hb & _) & _ & Hi), (ok_current q Hq _ _ Hin') as (b' & h' & (Hb' & _) & _ & Hi').
  assert (b = b') as <- by congruence. rewrite Hn in Hi. unfold indexed in *. assert (it = it') as <- by congruence. split; [done|].
  pose proof (deref_it_elem q it t (ok_handles q Hq) Hin). pose proof (deref_it_elem q it t' (ok_handles q Hq) Hin'). congruence.
Qed.

Lemma removed_current it from h q t a n t' : queue_ok q -> (it, t) ∈ m_current q -> tx_key t from h ->
  in_current (removed it from (t_nonce t) h q) a n t' <-> in_current q a n t' /\ ~ (a = from /\ n = t_nonce t).
Proof.
  intros Hq Hin (Hs & _ & _). unfold in_current. setoid_rewrite removed_elem. split.
  - intros (it' & [Hin' Hne] & Hs' & Hn). split; [eauto|]. intros [-> ->].
    by destruct (queue_elem_inj q it' t' it t from Hq Hin' Hin Hs' Hs Hn).
  - intros [(it' & Hin' & Hs' & Hn) Hne]. exists it'. split_and!; try done. intros ->. apply Hne.
    pose proof (deref_it_elem q it t (ok_handles q Hq) Hin). pose proof (deref_it_elem q it t' (ok_handles q Hq) Hin').
    split; congruence.
Qed.

Lemma removed_ok it from h q t : queue_ok q -> (it, t) ∈ m_current q -> tx_key t from h ->
  queue_ok (removed it from (t_nonce t) h q).
Proof.
  intros Hq Hin Hk. pose proof (fun a n t' => removed_current it from h q t a n t' Hq Hin Hk) as Hc. pose proof Hk as (Hs & Hh & Hr).
  assert (Hiq : forall a n t', in_queue (removed it from (t_nonce t) h q) a n t' -> in_queue q a n t').
  { intros a n t' [Hx|Hx]; [left|by right]. by apply Hc in Hx as [? _]. }
  constructor.
  - cbn. eapply sublist_NoDup; [exact (ok_handles q Hq)|]. apply fmap_sublist.
    clear. induction (m_current q) as [|e l IH]; [constructor|]. rewrite filter_cons.
    case_decide; [by apply sublist_skip|by apply sublist_cons].
  - intros it' t' [Hin' _]%removed_elem. by apply (ok_next q Hq) in Hin'.
  - intros it' t' [Hin' Hne]%removed_elem. destruct (ok_current q Hq it' t' Hin') as (a & h' & Hk' & Hb & Hi).
    pose proof Hk' as (Hs' & Hh' & _).
    assert (Hne2 : ~ (a = from /\ t_nonce t' = t_nonce t)).
    { intros [-> E]. by destruct (queue_elem_inj q it' t' it t from Hq Hin' Hin Hs' Hs E). }
    exists a, h'. split; [done|]. split; [|by apply removed_indexed].
    cbn. rewrite lookup_delete_ne; [done|]. intros <-. apply Hne2.
    eapply (ok_hashes q Hq a _ t' from _ t); [left; by exists it'|left; by exists it|congruence].
  - intros h' it'. cbn. rewrite lookup_delete. case_decide as E; [done|]. intros Hb.
    destruct (ok_byHash q Hq h' it' Hb) as (t' & Hin' & Hh'). exists t'. split; [|done].
    apply list_elem_of_filter. split; [|done]. cbn. intros ->.
    pose proof (deref_it_elem q it t (ok_handles q Hq) Hin). pose proof (deref_it_elem q it t' (ok_handles q Hq) Hin'). congruence.
  - intros a n it' [Hi Hne]%removed_indexed. destruct (ok_byNonce q Hq a n it' Hi) as (t' & Hin' & Hs' & Hn').
    exists t'. split; [|done]. apply removed_elem. split; [done|]. intros ->. apply Hne.
    pose proof (deref_it_elem q it t (ok_handles q Hq) Hin). pose proof (deref_it_elem q it t' (ok_handles q Hq) Hin').
    split; congruence.
  - intros a. by apply erase_keys_nonempty, (ok_nonces q Hq).
  - exact (ok_future q Hq).
  - exact (ok_futures q Hq).
  - intros a n t' it' Hf [Hi _]%removed_indexed. by eapply (ok_disjoint q Hq).
  - intros a n t1 a' n' t2 H1q%Hiq H2q%Hiq. by eapply (ok_hashes q Hq).
  - exact (ok_size q Hq).
  - exact (ok_small q Hq).
Qed.

Lemma remove_eq q it t from h : queue_ok q -> (it, t) ∈ m_current q -> tx_key t from h ->
  remove_WITH_LOCK h q = (Value true, set_known (m_known q ∖ {[h]}) (removed it from (t_nonce t) h q)).
Proof.
  intros Hq Hin Hk. pose proof Hk as (Hs & Hh & _).
  destruct (ok_current q Hq it t Hin) as (a & h' & (Hs' & Hh' & _) & Hb & Hi).
  assert (a = from) as -> by congruence. assert (h' = h) as -> by congruence.
  unfold remove_WITH_LOCK, sbind, sget, slift, smod, sret, from_of. rewrite Hb, (deref_it_elem q it t) by (done || apply ok_handles, Hq).
  cbn. unfold safeSender. rewrite Hs. unfold indexed in Hi. unfold removed, erase_keys.
  destruct (m_currentByAddressAndNonce q !! from) as [m|] eqn:E; [|done]. cbn.
  repeat case_decide; try done. cbn. by rewrite delete_insert_eq.
Qed.

Lemma remove_none q h : m_currentByHash q !! h = None -> remove_WITH_LOCK h q = (Value false, q).
Proof. intros Hb. unfold remove_WITH_LOCK, sbind, sget. by rewrite Hb. Qed.

(** ** Promotion *)

(** What the operations on the queue's contents leave alone. *)
Record same_rest (q q' : TransactionQueue) : Prop := {
  same_known : m_known q' = m_known q;
  same_dropped : m_dropped q' = m_dropped q;
  same_limit : m_limit q' = m_limit q;
  same_futureLimit : m_futureLimit q' = m_futureLimit q;
  same_unverified : m_unverified q' = m_unverified q
}.

Lemma same_rest_refl q : same_rest q q.
Proof. done. Qed.
Lemma same_rest_trans q1 q2 q3 : same_rest q1 q2 -> same_rest q2 q3 -> same_rest q1 q3.
Proof. intros [] []. constructor; congruence. Qed.

(** The keys of the run that starts with [nonce]. *)
Fixpoint run_of (ft : list Z) (nonce : Z) : list Z :=
  match ft with
  | [] => []
  | k :: ft => if k =? nonce then k :: run_of ft (u256 (nonce + 1)) else []
  end.

(** One after the other, what waits under [ks] becomes current. *)
Inductive moves (from : Z) : list Z -> TransactionQueue -> TransactionQueue -> Prop :=
| moves_nil q : moves from [] q q
| moves_cons k ks t h l1 l2 q q' : in_future q from k t -> tx_key t from h -> m_current q = l1 ++ l2 ->
    moves from ks (filed from h t l1 l2 (unwait from k q)) q' -> moves from (k :: ks) q q'.

Lemma move_ok from k t h l1 l2 q : queue_ok q -> in_future q from k t -> tx_key t from h -> m_current q = l1 ++ l2 ->
  queue_ok (filed from h t l1 l2 (unwait from k q)).
Proof.
  intros Hq Hf Hk Hl. destruct (ok_future q Hq _ _ _ Hf) as [Hn _]. subst k. pose proof Hk as (Hs & Hh & _).
  apply filed_ok; [by eapply unwait_ok|done|done| |].
  - intros t' [(it & Hin & Hs' & Hn')|[_ Hx]%unwait_future]; [|by apply Hx].
    destruct (ok_current q Hq it t' Hin) as (a & h' & (Hs2 & _) & _ & Hi). assert (a = from) as -> by congruence.
    rewrite Hn' in Hi. by apply (ok_disjoint q Hq _ _ _ _ Hf) in Hi.
  - intros a n t' Hiq Hh'. assert (Hiq' : in_queue q a n t').
    { destruct Hiq as [Hx|[Hx _]%unwait_future]; [by left|by right]. }
    destruct (ok_hashes q Hq a n t' from (t_nonce t) t Hiq') as [-> ->]; [by right|congruence|].
    destruct Hiq as [(it & Hin & Hs' & Hn')|[_ Hx]%unwait_future]; [|by apply Hx].
    destruct (ok_current q Hq it t' Hin) as (a & h' & (Hs2 & _) & _ & Hi). assert (a = from) as -> by congruence.
    rewrite Hn' in Hi. by apply (ok_disjoint q Hq _ _ _ _ Hf) in Hi.
Qed.

Lemma moves_ok from ks q q' : moves from ks q q' -> queue_ok q -> queue_ok q'.
Proof. induction 1 as [|k ks t h l1 l2 q q' Hf Hk Hl _ IH]; [done|]. intros Hq. apply IH. by eapply move_ok. Qed.

Lemma moves_same from ks q q' : moves from ks q q' -> same_rest q q'.
Proof. induction 1 as [|k ks t h l1 l2 q q' Hf Hk Hl _ IH]; [apply same_rest_refl|]. eapply same_rest_trans; [|exact IH]. done. Qed.

Lemma moves_future from ks q q' a n t : moves from ks q q' -> in_future q' a n t <-> in_future q a n t /\ ~ (a = from /\ n ∈ ks).
Proof.
  induction 1 as [|k ks t' h l1 l2 q q' Hf Hk Hl _ IH]; [split; [|by intros []]; intros Hx; split; [done|]; by intros [_ ?%elem_of_nil]|].
  rewrite IH. change (in_future (filed from h t' l1 l2 (unwait from k q)) a n t) with (in_future (unwait from k q) a n t).
  rewrite unwait_future, elem_of_cons. tauto.
Qed.

Lemma moves_current from ks q q' a n t : moves from ks q q' -> queue_ok q -> NoDup ks ->
  in_current q' a n t <-> in_current q a n t \/ (a = from /\ n ∈ ks /\ in_future q a n t).
Proof.
  induction 1 as [|k ks t' h l1 l2 q q' Hf Hk Hl _ IH]; intros Hq Hnd.
  { split; [auto|]. intros [?|(_ & ?%elem_of_nil & _)]; done. }
  apply NoDup_cons in Hnd as [Hnk Hnd]. pose proof Hk as (Hs & _). destruct (ok_future q Hq _ _ _ Hf) as [Hn _].
  rewrite IH; [|by eapply move_ok|done]. rewrite filed_current by done.
  change (in_future (filed from h t' l1 l2 (unwait from k q)) a n t) with (in_future (unwait from k q) a n t).
  change (in_current (unwait from k q) a n t) with (in_current q a n t).
  rewrite unwait_future, elem_of_cons, Hn. split.
  - intros [[(-> & -> & ->)|?]|(-> & ? & ? & ?)]; auto 10.
  - intros [?|(-> & [->|Hin] & Hf')]; [auto| |].
    + left. left. split_and!; try done. unfold in_future in *. congruence.
    + right. split_and!; try done. intros [_ ->]. done.
Qed.

Lemma moves_size from ks q q' : moves from ks q q' -> queue_ok q ->
  m_futureSize q' = m_futureSize q - lenZ ks /\ lenZ (m_current q') = lenZ (m_current q) + lenZ ks.
Proof.
  induction 1 as [|k ks t h l1 l2 q q' Hf Hk Hl _ IH]; intros Hq; [unfold lenZ; cbn; lia|].
  destruct IH as [IH1 IH2]; [by eapply move_ok|]. rewrite IH1, IH2.
  assert (Hc : lenZ (k :: ks) = lenZ ks + 1) by (unfold lenZ; cbn [length]; lia).
  change (m_futureSize (filed from h t l1 l2 (unwait from k q))) with (m_futureSize (unwait from k q)).
  rewrite (unwait_size from k q t Hq Hf).
  assert (Hlen : lenZ (m_current (filed from h t l1 l2 (unwait from k q))) = lenZ (m_current q) + 1).
  { rewrite Hl. unfold lenZ. cbn -[length]. rewrite !length_app. cbn [length]. lia. }
  lia.
Qed.

(** The queue as it is when the moved-from transactions are erased. *)
Definition cleaned (from : Z) (ks : list Z) (q : TransactionQueue) : TransactionQueue :=
  set_future (erase_keys from ks (m_future q)) (m_futureSize q) q.

Lemma promote_moves from ft : forall before nonce q, queue_ok (cleaned from before q) -> NoDup ft ->
  (forall k, k ∈ ft -> k ∉ before /\ exists t, in_future q from k t) ->
  exists q', promote ft from nonce q = (Value (run_of ft nonce), q') /\
    moves from (run_of ft nonce) (cleaned from before q) (cleaned from (before ++ run_of ft nonce) q').
Proof.
  induction ft as [|k ft IH]; intros before nonce q Hq Hnd Hft.
  { exists q. split; [done|]. cbn [run_of]. rewrite app_nil_r. constructor. }
  apply NoDup_cons in Hnd as [Hkft Hnd]. destruct (Hft k) as [Hkb [t Hf]]; [left|].
  assert (Hfc : in_future (cleaned from before q) from k t).
  { unfold in_future. cbn. rewrite erase_keys_waits, decide_False by naive_solver. exact Hf. }
  destruct (ok_future _ Hq _ _ _ Hfc) as (Hn & h & Hk). pose proof Hk as (Hs & Hh & Hr).
  cbn [promote run_of]. unfold sbind at 1, sget at 1. cbn beta iota.
  unfold in_future in Hf. unfold sbind at 1. rewrite Hf. cbn [slift rget]. rewrite Hn. destruct (k =? nonce) eqn:Ek.
  2:{ exists q. split; [done|]. rewrite app_nil_r. constructor. }
  set (qm := mark_moved from k t q).
  destruct (insert_handle_eq qm from t) as (l1 & l2 & Hl & Hins); [exact (queue_comparable _ Hq)|done|].
  set (q1 := set_future (m_future (inserted from t l1 l2 qm)) (u32 (m_futureSize q - 1)) (filed from h t l1 l2 qm)).
  assert (Hq1 : cleaned from (before ++ [k]) q1 = filed from h t l1 l2 (unwait from k (cleaned from before q))).
  { unfold cleaned, q1, qm, filed, unwait, mark_moved, inserted. cbn.
    rewrite erase_keys_insert by (apply elem_of_app; right; left). by rewrite erase_keys_app. }
  destruct (IH (before ++ [k]) (u256 (nonce + 1)) q1) as (q' & Hp & Hm); [|done| |].
  { rewrite Hq1. by eapply move_ok. }
  { intros k' Hk'. destruct (Hft k') as [Hb [t' Hf']]; [by right|]. assert (k' <> k) by (intros ->; done).
    split; [intros [?|Hx%list_elem_of_singleton]%elem_of_app; done|].
    exists t'. unfold in_future, q1. cbn. rewrite lookup_insert_eq. cbn. rewrite lookup_insert_ne by done.
    unfold in_future in Hf'. destruct (m_future q !! from); done. }
  exists q'. split.
  - unfold sbind, smod, sget, slift, sret, sha3_of in *. fold qm. rewrite Hins. cbn beta iota. rewrite Hh. cbn beta iota.
    unfold slift. cbn beta iota.
    change (set_future _ _ _) with q1. by rewrite Hp.
  - rewrite Hq1 in Hm. rewrite <- app_assoc in Hm. econstructor; done.
Qed.

(** The run is what waits under consecutive nonces. *)
Lemma run_of_elem ft : forall n k, StronglySorted Z.lt ft -> (forall k, k ∈ ft -> n <= k < 2 ^ 256) -> 0 <= n ->
  k ∈ run_of ft n <-> n <= k /\ forall m, n <= m <= k -> m ∈ ft.
Proof.
  induction ft as [|k0 ft IH]; intros n k Hs Hr Hn; cbn [run_of].
  { split; [by intros ?%elem_of_nil|]. intros [Hle Hall]. specialize (Hall n ltac:(lia)). by apply elem_of_nil in Hall. }
  apply StronglySorted_inv in Hs as [Hs Hk0]. rewrite Forall_forall in Hk0. pose proof (Hr k0 ltac:(left)).
  destruct (Z.eqb_spec k0 n) as [->|Hne].
  - assert (Hft : forall k, k ∈ ft -> n + 1 <= k < 2 ^ 256).
    { intros k' Hk'. specialize (Hk0 k' Hk'). specialize (Hr k' ltac:(by right)). lia. }
    destruct (decide (n + 1 < 2 ^ 256)) as [Hlt|Hge].
    + assert (u256 (n + 1) = n + 1) as -> by (unfold u256; rewrite Z.mod_small by lia; done).
      rewrite elem_of_cons, (IH (n + 1) k) by (done || lia). split.
      * intros [->|[Hle Hall]]; (split; [lia|]); intros m Hm; apply elem_of_cons.
        { left. lia. }
        destruct (decide (m = n)); [by left|right]. apply Hall. lia.
      * intros [Hle Hall]. destruct (decide (k = n)) as [->|]; [by left|right]. split; [lia|].
        intros m Hm. specialize (Hall m ltac:(lia)). apply elem_of_cons in Hall as [->|?]; [lia|done].
    + assert (ft = []) as -> by (destruct ft as [|k' ft']; [done|]; specialize (Hft k' ltac:(left)); lia).
      cbn [run_of]. rewrite list_elem_of_singleton. split.
      * intros ->. split; [lia|]. intros m Hm. apply elem_of_cons. left. lia.
      * intros [Hle Hall]. specialize (Hall k ltac:(lia)). by apply list_elem_of_singleton in Hall.
  - split; [by intros ?%elem_of_nil|]. intros [Hle Hall]. specialize (Hall n ltac:(lia)).
    apply elem_of_cons in Hall as [?|Hx]; [congruence|]. specialize (Hk0 n Hx). lia.
Qed.

Lemma run_of_sub ft : forall n k, k ∈ run_of ft n -> k ∈ ft.
Proof.
  induction ft as [|k0 ft IH]; intros n k; cbn [run_of]; [done|].
  destruct (k0 =? n); [|by intros ?%elem_of_nil]. intros [->|Hk]%elem_of_cons; [left|right]. by eapply IH.
Qed.

Lemma run_of_NoDup ft n : NoDup ft -> NoDup (run_of ft n).
Proof.
  revert n. induction ft as [|k0 ft IH]; intros n Hnd; cbn [run_of]; [constructor|].
  apply NoDup_cons in Hnd as [Hk Hnd]. destruct (k0 =? n); [|constructor]. apply NoDup_cons. split; [|by apply IH].
  by intros ?%run_of_sub.
Qed.

Lemma keys_from_elem {A} n (m : gmap Z A) k : k ∈ keys_from n m <-> n <= k /\ is_Some (m !! k).
Proof. unfold keys_from. by rewrite list_elem_of_filter, ordered_keys_elem. Qed.

Lemma keys_from_sorted {A} n (m : gmap Z A) : StronglySorted Z.lt (keys_from n m).
Proof.
  unfold keys_from. induction (ordered_keys_sorted m) as [|k l Hs IH Hk]; [constructor|]. rewrite filter_cons. case_decide; [|done].
  constructor; [done|]. rewrite Forall_forall in Hk |- *. intros k' [_ Hk']%list_elem_of_filter. by apply Hk.
Qed.

Lemma sorted_NoDup l : StronglySorted Z.lt l -> NoDup l.
Proof.
  induction 1 as [|k l Hs IH Hk]; constructor; [|done]. intros Hin. rewrite Forall_forall in Hk. specialize (Hk k Hin). lia.
Qed.

(** The future transactions of [a] with consecutive nonces from [n] on. *)
Definition run (q : TransactionQueue) (a n : Z) : list Z := run_of (keys_from n (default ∅ (m_future q !! a))) n.

Lemma waits_default q a n t : in_future q a n t <-> default ∅ (m_future q !! a) !! n = Some t.
Proof. unfold in_future. destruct (m_future q !! a); cbn; [done|]. by rewrite lookup_empty. Qed.

Lemma run_elem q a n k : queue_ok q -> 0 <= n ->
  k ∈ run q a n <-> n <= k /\ forall m, n <= m <= k -> exists t, in_future q a m t.
Proof.
  intros Hq Hn. unfold run. rewrite run_of_elem; [| apply keys_from_sorted | | done].
  - setoid_rewrite keys_from_elem. setoid_rewrite waits_default. split; intros [Hle Hall]; (split; [done|]); intros m Hm.
    + by destruct (Hall m Hm) as [_ Ht].
    + split; [lia|]. apply (Hall m Hm).
  - intros k' [Hle [t Ht]]%keys_from_elem. apply waits_default in Ht as Hf.
    destruct (ok_future q Hq _ _ _ Hf) as (<- & h & _ & _ & Hr). lia.
Qed.

(** ** Limits *)

(** Some of what waits is gone. *)
Record fewer (q q' : TransactionQueue) : Prop := {
  fewer_rest : same_rest q q';
  fewer_current : forall a n t, in_current q' a n t <-> in_current q a n t;
  fewer_length : lenZ (m_current q') = lenZ (m_current q);
  fewer_future : forall a n t, in_future q' a n t -> in_future q a n t;
  fewer_size : m_futureSize q' <= m_futureSize q
}.

Lemma fewer_refl q : fewer q q.
Proof. done. Qed.

Lemma fewer_trans q1 q2 q3 : fewer q1 q2 -> fewer q2 q3 -> fewer q1 q3.
Proof.
  intros [H1r H1c H1l H1f H1s] [H2r H2c H2l H2f H2s]. constructor; [by eapply same_rest_trans| |lia|auto|lia].
  intros a n t. by rewrite H2c.
Qed.

Lemma unwait_fewer a k q t : queue_ok q -> in_future q a k t -> fewer q (unwait a k q).
Proof.
  intros Hq Hf. constructor; try done; [|rewrite (unwait_size a k q t Hq Hf); lia].
  intros a' n t' [? _]%unwait_future. done.
Qed.

Lemma first_waiting q : queue_ok q -> 0 < m_futureSize q ->
  exists e k t, head (iterate (m_future q)) = Some e /\ last_key e.2 = Some k /\ in_future q e.1 k t.
Proof.
  intros Hq Hpos. pose proof (iterate_perm (m_future q)) as Hp. destruct (iterate (m_future q)) as [|[a fm] l] eqn:E.
  { apply Permutation_nil_l in Hp. symmetry in Hp. apply map_to_list_empty_iff in Hp.
    rewrite (ok_size q Hq), Hp in Hpos. by vm_compute in Hpos. }
  assert (Ha : m_future q !! a = Some fm) by (apply elem_of_map_to_list; rewrite <- Hp; left).
  destruct (last_key_some fm) as (k & t & Hk & Ht).
  { intros ->. by apply (ok_futures q Hq) in Ha. }
  exists (a, fm), k, t. split_and!; try done. unfold in_future. cbn. by rewrite Ha.
Qed.

Lemma limit_future_spec fuel : forall q, queue_ok q -> 0 <= m_futureLimit q -> m_futureSize q <= Z.of_nat fuel ->
  exists q', limit_future fuel q = (Value tt, q') /\ queue_ok q' /\ fewer q q' /\ m_futureSize q' <= m_futureLimit q /\
    (m_futureSize q <= m_futureLimit q -> q' = q).
Proof.
  induction fuel as [|f IH]; intros q Hq Hlim Hf; cbn [limit_future]; unfold sbind at 1, sget at 1; cbn beta iota;
    (destruct (Z.ltb_spec (m_futureLimit q) (m_futureSize q)) as [Hlt|Hge]; [|exists q; split_and!; try done]).
  { lia. }
  destruct (first_waiting q Hq ltac:(lia)) as (e & k & t & He & Hk & Hw).
  pose proof (unwait_size _ _ _ _ Hq Hw) as Hsz.
  destruct (IH (unwait e.1 k q)) as (q' & Hr & Hok & Hfew & Hle & _); [by eapply unwait_ok|done|lia|].
  exists q'. split; [|split; [done|split; [|split; [exact Hle|lia]]]].
  - unfold sbind, slift, smod. rewrite He. cbn [rget]. cbn beta iota. rewrite Hk. cbn [rget]. cbn beta iota.
    change (set_future _ _ q) with (unwait e.1 k q). exact Hr.
  - eapply fewer_trans; [by eapply unwait_fewer|done].
Qed.

(** [makeCurrent_WITH_LOCK]: the run after [t] becomes current, and the future
    ones are limited. *)
Lemma makeCurrent_spec q t a : queue_ok q -> safeSender t = Value a -> 0 <= m_futureLimit q ->
  exists q1 q2 q', moves a (run q a (u256 (t_nonce t + 1))) q q1 /\ queue_ok q2 /\ fewer q1 q2 /\
    m_futureSize q2 <= m_futureLimit q /\ (m_futureSize q1 <= m_futureLimit q -> q2 = q1) /\
    (q' = q2 \/ q' = emit onReady q2) /\ makeCurrent_WITH_LOCK t q = (Value tt, q').
Proof.
  intros Hq Hs Hlim. set (nonce := u256 (t_nonce t + 1)).
  assert (Hmake : exists q1 b, moves a (run q a nonce) q q1 /\
    (match m_future q !! a with
     | None => sret false
     | Some fm =>
         match fm !! nonce with
         | None => sret false
         | Some _ =>
             moved <- promote (keys_from nonce fm) a nonce ;;
             smod (fun q => set_future (erase_keys a moved (m_future q)) (m_futureSize q) q) ;;
             sret (negb (lenZ moved =? 0))
         end
     end) q = (@Value tx_error bool b, q1)).
  { destruct (m_future q !! a) as [fm|] eqn:E.
    2:{ exists q, false. split; [|done]. unfold run. rewrite E. cbn. replace (keys_from nonce (∅ : gmap Z TransactionBase)) with (@nil Z); [constructor|].
        destruct (keys_from nonce ∅) as [|k l] eqn:Ek; [done|]. assert (Hin : k ∈ keys_from nonce (∅ : gmap Z TransactionBase)) by (rewrite Ek; left).
        apply keys_from_elem in Hin as [_ [? Hx]]. by rewrite lookup_empty in Hx. }
    unfold run. rewrite E. cbn [default from_option id]. destruct (fm !! nonce) as [t0|] eqn:Et.
    - destruct (promote_moves a (keys_from nonce fm) [] nonce q) as (q1 & Hp & Hm).
      { unfold cleaned. replace (erase_keys a [] (m_future q)) with (m_future q); [by destruct q|].
        unfold erase_keys. rewrite E. cbn. rewrite decide_False; [by rewrite insert_id|]. intros ->. by apply (ok_futures q Hq) in E. }
      { apply sorted_NoDup, keys_from_sorted. }
      { intros k [_ [t' Ht']]%keys_from_elem. split; [apply not_elem_of_nil|]. exists t'. unfold in_future. by rewrite E. }
      exists (cleaned a (run_of (keys_from nonce fm) nonce) q1), (negb (lenZ (run_of (keys_from nonce fm) nonce) =? 0)). split.
      + cbn [app] in Hm. replace (cleaned a [] q) with q in Hm; [done|]. unfold cleaned. destruct q as [? ? ? ? ? mf]. cbn in *. f_equal.
        unfold erase_keys. rewrite E. cbn. rewrite decide_False; [by rewrite insert_id|]. intros ->. by apply (ok_futures _ Hq) in E.
      + unfold sbind. rewrite Hp. done.
    - exists q, false. split; [|done]. replace (run_of (keys_from nonce fm) nonce) with (@nil Z); [constructor|].
      destruct (keys_from nonce fm) as [|k l] eqn:Ek; [done|]. cbn [run_of]. destruct (Z.eqb_spec k nonce) as [->|]; [|done].
      assert (Hin : nonce ∈ keys_from nonce fm) by (rewrite Ek; left). apply keys_from_elem in Hin as [_ [? Hx]]. congruence. }
  destruct Hmake as (q1 & b & Hm & Hrun). pose proof (moves_ok _ _ _ _ Hm Hq) as Hq1. pose proof (moves_same _ _ _ _ Hm) as [_ _ _ Hfl _].
  destruct (limit_future_spec (Z.to_nat (m_futureSize q1)) q1 Hq1) as (q2 & Hl & Hq2 & Hfew & Hle & Hid); [congruence| |].
  { pose proof (ok_size q1 Hq1). pose proof (count_future_nonneg (m_future q1)). lia. }
  rewrite Hfl in *. exists q1, q2, (if b then emit onReady q2 else q2). split; [done|]. split; [done|]. split; [done|]. split; [done|]. split; [done|].
  split; [destruct b; auto|]. unfold makeCurrent_WITH_LOCK, sbind at 1, sget at 1. cbn beta iota. unfold from_of at 1, sbind at 1, slift at 1. rewrite Hs.
  cbn beta iota. fold nonce. unfold sbind at 1. setoid_rewrite Hrun. cbn beta iota. unfold sbind, sget. rewrite Hl. by destruct b.
Qed.

(** ** States that differ in what they know and have told only *)

Record same_view (q q' : TransactionQueue) : Prop := {
  view_current : m_current q' = m_current q;
  view_byHash : m_currentByHash q' = m_currentByHash q;
  view_byNonce : m_currentByAddressAndNonce q' = m_currentByAddressAndNonce q;
  view_future : m_future q' = m_future q;
  view_size : m_futureSize q' = m_futureSize q;
  view_next : next_handle q' = next_handle q;
  view_dropped : m_dropped q' = m_dropped q;
  view_limit : m_limit q' = m_limit q;
  view_futureLimit : m_futureLimit q' = m_futureLimit q;
  view_unverified : m_unverified q' = m_unverified q
}.

Lemma same_view_trans q1 q2 q3 : same_view q1 q2 -> same_view q2 q3 -> same_view q1 q3.
Proof. intros [] []. constructor; congruence. Qed.

Lemma same_view_current q q' a n t : same_view q q' -> in_current q' a n t <-> in_current q a n t.
Proof. intros Hv. unfold in_current. by rewrite (view_current _ _ Hv). Qed.
Lemma same_view_future q q' a n t : same_view q q' -> in_future q' a n t <-> in_future q a n t.
Proof. intros Hv. unfold in_future. by rewrite (view_future _ _ Hv). Qed.

Lemma same_view_ok q q' : same_view q q' -> queue_ok q -> queue_ok q'.
Proof.
  intros Hv [].
  assert (Hiq : forall a n t, in_queue q' a n t <-> in_queue q a n t)
    by (intros; unfold in_queue; by rewrite (same_view_current q q'), (same_view_future q q')).
  destruct Hv. constructor; unfold indexed in *; rewrite ?view_current0, ?view_byHash0, ?view_byNonce0, ?view_future0, ?view_size0, ?view_next0; try done.
  - unfold in_future in *. by rewrite view_future0.
  - unfold in_future in *. by rewrite view_future0.
  - intros a n t a' n' t'. rewrite !Hiq. apply ok_hashes.
Qed.

(** Some of the queue's contents is gone; what is left is known as it was. *)
Record less (q q' : TransactionQueue) : Prop := {
  less_current : forall a n t, in_current q' a n t -> in_current q a n t;
  less_future : forall a n t, in_future q' a n t -> in_future q a n t;
  less_length : lenZ (m_current q') <= lenZ (m_current q);
  less_size : m_futureSize q' <= m_futureSize q;
  less_known : m_known q' ⊆ m_known q;
  less_kept : forall a n t h, in_queue q' a n t -> tx_hash WithSignature t = Value h -> h ∈ m_known q -> h ∈ m_known q';
  less_dropped : m_dropped q' = m_dropped q;
  less_limit : m_limit q' = m_limit q;
  less_futureLimit : m_futureLimit q' = m_futureLimit q;
  less_unverified : m_unverified q' = m_unverified q
}.

Lemma less_queue q q' a n t : less q q' -> in_queue q' a n t -> in_queue q a n t.
Proof. intros Hl [?|?]; [left; by apply (less_current _ _ Hl)|right; by apply (less_future _ _ Hl)]. Qed.

Lemma less_trans q1 q2 q3 : less q1 q2 -> less q2 q3 -> less q1 q3.
Proof.
  intros Hl1 Hl2. pose proof (fun a n t => less_queue q2 q3 a n t Hl2) as Hiq. destruct Hl1, Hl2. constructor; try (eauto || congruence || lia).
  set_solver.
Qed.

Lemma less_view q q' : same_view q q' -> m_known q' = m_known q -> less q q'.
Proof.
  intros Hv Hk. constructor; try apply Hv; rewrite ?Hk; try done.
  - intros a n t. by rewrite (same_view_current q q').
  - intros a n t. by rewrite (same_view_future q q').
  - by rewrite (view_current _ _ Hv).
  - by rewrite (view_size _ _ Hv).
Qed.

Lemma less_refl q : less q q.
Proof. by apply less_view. Qed.

Lemma less_emit s q : less q (emit s q).
Proof. by apply less_view. Qed.

Lemma fewer_less q q' : fewer q q' -> less q q'.
Proof.
  intros [[] Hc Hlen Hf Hs]. constructor; try done; [|lia|by rewrite same_known0|by rewrite same_known0].
  intros a n t. by rewrite Hc.
Qed.

(** [m_known] has the hash of everything in the queue. *)
Definition known_ok (q : TransactionQueue) : Prop :=
  forall a n t h, in_queue q a n t -> tx_hash WithSignature t = Value h -> h ∈ m_known q.

Lemma less_known_ok q q' : less q q' -> known_ok q -> known_ok q'.
Proof. intros Hl Hk a n t h Hin Hh. eapply (less_kept _ _ Hl); [done..|]. eapply Hk; [|done]. by eapply less_queue. Qed.

(** ** One element *)

Lemma in_current_inj q a n t t' : queue_ok q -> in_current q a n t -> in_current q a n t' -> t = t'.
Proof.
  intros Hq (it & Hin & Hs & Hn) (it' & Hin' & Hs' & Hn').
  by destruct (queue_elem_inj q it t it' t' a Hq Hin Hin' Hs Hs' ltac:(congruence)).
Qed.

Lemma in_current_indexed q a n t : queue_ok q -> in_current q a n t -> exists it h, (it, t) ∈ m_current q /\ tx_key t a h /\
  t_nonce t = n /\ m_currentByHash q !! h = Some it /\ indexed q a n it /\ deref_it it q = Some t.
Proof.
  intros Hq (it & Hin & Hs & Hn). destruct (ok_current q Hq it t Hin) as (a' & h & Hk & Hb & Hi). pose proof Hk as (Hs' & _).
  assert (a' = a) as -> by congruence. exists it, h. rewrite Hn in Hi. split_and!; try done; try apply Hk. by apply deref_it_elem; [apply ok_handles|].
Qed.

Lemma indexed_current q a n it : queue_ok q -> indexed q a n it -> exists t, in_current q a n t.
Proof. intros Hq Hi. destruct (ok_byNonce q Hq a n it Hi) as (t & Hin & Hs & Hn). exists t, it. done. Qed.

Lemma not_both q a n t t' : queue_ok q -> in_current q a n t -> in_future q a n t' -> False.
Proof.
  intros Hq Hc Hf. destruct (in_current_indexed q a n t Hq Hc) as (it & h & _ & _ & _ & _ & Hi & _). by apply (ok_disjoint q Hq a n t' it Hf).
Qed.

(** Without the current transaction of [a] with nonce [n] and hash [h]. *)
Record without (a n h : Z) (q q' : TransactionQueue) : Prop := {
  without_current : forall a' n' t, in_current q' a' n' t <-> in_current q a' n' t /\ ~ (a' = a /\ n' = n);
  without_future : m_future q' = m_future q;
  without_length : lenZ (m_current q') = lenZ (m_current q) - 1;
  without_known : m_known q' = m_known q ∖ {[h]};
  without_less : less q q'
}.

Lemma remove_spec q a n t : queue_ok q -> in_current q a n t -> exists h q', tx_hash WithSignature t = Value h /\
  remove_WITH_LOCK h q = (Value true, q') /\ queue_ok q' /\ without a n h q q' /\ signals q' = signals q.
Proof.
  intros Hq Hc. destruct (in_current_indexed q a n t Hq Hc) as (it & h & Hin & Hk & <- & Hb & Hi & _).
  exists h, (set_known (m_known q ∖ {[h]}) (removed it a (t_nonce t) h q)). pose proof Hk as (Hs & Hh & _).
  pose proof (fun a' n' t' => removed_current it a h q t a' n' t' Hq Hin Hk) as Hrc.
  assert (Hlen : lenZ (m_current (removed it a (t_nonce t) h q)) = lenZ (m_current q) - 1).
  { unfold lenZ. rewrite (length_erase_it (m_current q) it t) by (done || apply ok_handles, Hq). cbn -[length]. lia. }
  split_and!; [done|by apply remove_eq| | |done].
  { apply (same_view_ok (removed it a (t_nonce t) h q)); [done|by apply removed_ok]. }
  constructor; [exact Hrc|done|exact Hlen|done|]. constructor; try done.
  - intros a' n' t' [? _]%Hrc. done.
  - change (lenZ (m_current (removed it a (t_nonce t) h q)) <= lenZ (m_current q)). lia.
  - cbn. set_solver.
  - intros a' n' t' h' Hin' Hh' Hkn. cbn. apply elem_of_difference. split; [done|]. intros ->%elem_of_singleton.
    assert (Hne : ~ (a' = a /\ n' = t_nonce t)).
    { destruct Hin' as [[_ Hx]%Hrc|Hf]; [done|]. intros [-> ->]. by eapply (not_both q a (t_nonce t)). }
    apply Hne. apply (ok_hashes q Hq a' n' t' a (t_nonce t) t); [|by left|congruence]. destruct Hin' as [[? _]%Hrc|?]; [by left|by right].
Qed.
End Ops.
