(* ===== verification/TxQueueImport.v ===== *)
(** * The transaction queue: importing a transaction

    The limit on [m_current], what a transaction with the same sender and nonce
    does to an import, and the outcome of an import. *)
From stdpp Require Import base list gmap sorting.
From Stdlib Require Import ZArith Lia.
From S2P Require Import Prelude Words Result Rlp StateMonad Account Transaction TxQueue TxQueueSpec TxQueueOps.
Open Scope sm_scope.

Section Importing.
  Context `{Sha3} `{!Secp256k1} `{!UnorderedMaps} `{!Multiset}.

Lemma limit_current_spec fuel : forall q, queue_ok q -> 0 <= m_limit q -> lenZ (m_current q) <= Z.of_nat fuel ->
  exists q', limit_current fuel q = (Value tt, q') /\ queue_ok q' /\ less q q' /\ m_future q' = m_future q /\
    lenZ (m_current q') <= m_limit q /\ (lenZ (m_current q) <= m_limit q -> q' = q).
Proof.
  induction fuel as [|f IH]; intros q Hq Hlim Hf; cbn [limit_current]; unfold sbind at 1, sget at 1; cbn beta iota;
    (destruct (Z.ltb_spec (m_limit q) (lenZ (m_current q))) as [Hlt|Hge]; [|exists q; split_and!; try done; apply less_refl]).
  { lia. }
  destruct (last (m_current q)) as [[it t]|] eqn:El; [|apply last_None in El; rewrite El in Hlt; unfold lenZ in Hlt; cbn in Hlt; lia].
  assert (Hin : (it, t) ∈ m_current q) by (apply last_Some in El as [l ->]; apply elem_of_app; right; by left).
  destruct (ok_current q Hq it t Hin) as (a & h0 & (Hs & _) & _).
  destruct (remove_spec q a (t_nonce t) t Hq ltac:(by exists it)) as (h & q1 & Hh & Hr & Hq1 & Hw & _).
  pose proof (without_length _ _ _ _ _ Hw). pose proof (less_limit _ _ (without_less _ _ _ _ _ Hw)) as Hl.
  destruct (IH q1 Hq1) as (q' & Hrun & Hok & Hless & Hfut & Hle & _); [lia|lia|].
  exists q'. split; [|split; [done|split; [by eapply less_trans; [apply Hw|]|split; [|split; [lia|lia]]]]].
  - unfold sbind, slift, sha3_of. cbn [rget snd]. cbn beta iota. cbn [snd]. rewrite Hh. unfold slift. cbn beta iota. by rewrite Hr.
  - rewrite Hfut. apply Hw.
Qed.

(** ** The transaction with the same sender and nonce *)

Lemma replace_current_none q t a : queue_ok q -> (forall old, ~ in_current q a (t_nonce t) old) -> replace_current t a q = (Value true, q).
Proof.
  intros Hq Hnone. unfold replace_current, sbind, sget, sret. destruct (m_currentByAddressAndNonce q !! a) as [m|] eqn:E; [|done].
  destruct (m !! t_nonce t) as [it|] eqn:En; [|done]. destruct (indexed_current q a (t_nonce t) it Hq) as [old Hold]; [unfold indexed; by rewrite E|].
  by destruct (Hnone old).
Qed.

Lemma replace_current_some q t a old : queue_ok q -> in_current q a (t_nonce t) old ->
  if m_gasPrice t <? m_gasPrice old then replace_current t a q = (Value false, q)
  else exists h q', tx_hash WithSignature old = Value h /\ replace_current t a q = (Value true, emit (onReplaced h) q') /\
    queue_ok q' /\ without a (t_nonce t) h q q'.
Proof.
  intros Hq Hc. destruct (in_current_indexed q a _ old Hq Hc) as (it & h0 & _ & (_ & Hh0 & _) & _ & _ & Hi & Hd).
  destruct (remove_spec q a _ old Hq Hc) as (h & q' & Hh & Hr & Hq' & Hw & _).
  unfold replace_current, sha3_of, sbind, sget, slift, sret, smod. unfold indexed in Hi.
  destruct (m_currentByAddressAndNonce q !! a) as [m|] eqn:E; [|done]. cbn in Hi. rewrite Hi, Hd. cbn [rget]. cbn beta iota.
  destruct (m_gasPrice t <? m_gasPrice old); [done|]. exists h, q'. rewrite Hh. cbn beta iota. rewrite Hr. by split_and!.
Qed.

Lemma replace_future_none q t a : (forall old, ~ in_future q a (t_nonce t) old) -> replace_future t a q = (Value true, q).
Proof.
  intros Hnone. unfold replace_future, sbind, sget, sret. destruct (m_future q !! a) as [m|] eqn:E; [|done].
  destruct (m !! t_nonce t) as [old|] eqn:En; [|done]. destruct (Hnone old). unfold in_future. by rewrite E.
Qed.

Lemma replace_future_some q t a old : in_future q a (t_nonce t) old ->
  replace_future t a q = if m_gasPrice t <? m_gasPrice old then (Value false, q) else (Value true, unwait a (t_nonce t) q).
Proof.
  unfold in_future, replace_future, sbind, sget, sret. destruct (m_future q !! a) as [m|] eqn:E; [|done]. cbn. intros ->.
  by destruct (m_gasPrice t <? m_gasPrice old).
Qed.

(** What becomes of the queue when [t] is imported, before its limits: the
    transaction with the sender [a] and nonce of [t] is [t], and the run after
    it is current. *)
Record imported (a : Z) (t : TransactionBase) (q q' : TransactionQueue) : Prop := {
  imported_current : forall a' n t', in_current q' a' n t' <-> (a' = a /\ n = t_nonce t /\ t' = t) \/
    (~ (a' = a /\ n = t_nonce t) /\ in_current q a' n t') \/
    (~ (a' = a /\ n = t_nonce t) /\ a' = a /\ n ∈ run q a (u256 (t_nonce t + 1)) /\ in_future q a n t');
  imported_future : forall a' n t', in_future q' a' n t' <->
    in_future q a' n t' /\ ~ (a' = a /\ n = t_nonce t) /\ ~ (a' = a /\ n ∈ run q a (u256 (t_nonce t + 1)));
  imported_length : lenZ (m_current q') + m_futureSize q' <= lenZ (m_current q) + m_futureSize q + 1
}.

(** The run does not contain the nonce before it. *)
Lemma run_not_before q a n : queue_ok q -> 0 <= n < 2 ^ 256 -> n ∉ run q a (u256 (n + 1)) \/ n = 2 ^ 256 - 1.
Proof.
  intros Hq Hn. destruct (decide (n = 2 ^ 256 - 1)) as [|Hne]; [by right|left].
  assert (u256 (n + 1) = n + 1) as -> by (unfold u256; apply Z.mod_small; lia).
  rewrite run_elem by (done || lia). lia.
Qed.

Lemma run_unwait q a n k : queue_ok q -> 0 <= n < 2 ^ 256 -> k <> n -> queue_ok (unwait a n q) ->
  k ∈ run (unwait a n q) a (u256 (n + 1)) <-> k ∈ run q a (u256 (n + 1)).
Proof.
  intros Hq Hn Hk Hq'. assert (Hu : 0 <= u256 (n + 1) < 2 ^ 256) by (apply Z.mod_pos_bound; lia).
  rewrite !run_elem by (done || lia). setoid_rewrite unwait_future.
  destruct (decide (n = 2 ^ 256 - 1)) as [->|Hne].
  - split; intros [Hle Hall]; (split; [done|]); intros m Hm; destruct (Hall m Hm) as [t Ht]; exists t; [tauto|].
    split; [done|]. intros [_ ->]. destruct (Hall k ltac:(lia)) as [t' Ht'].
    destruct (ok_future q Hq _ _ _ Ht') as (<- & h & _ & _ & Hr). lia.
  - assert (u256 (n + 1) = n + 1) as -> by (unfold u256; apply Z.mod_small; lia).
    split; intros [Hle Hall]; (split; [done|]); intros m Hm; destruct (Hall m Hm) as [t Ht]; exists t; [tauto|].
    split; [done|]. intros [_ ->]. lia.
Qed.

Lemma fewer_view q q1 q2 : fewer q q1 -> same_view q1 q2 -> m_known q2 = m_known q1 -> fewer q q2.
Proof.
  intros [[] Hc Hl Hf Hs] Hv Hk. constructor; [constructor; rewrite ?Hk; destruct Hv; congruence| | | |].
  - intros a n t. by rewrite (same_view_current q1 q2), Hc.
  - by rewrite (view_current _ _ Hv).
  - intros a n t. rewrite (same_view_future q1 q2) by done. apply Hf.
  - by rewrite (view_size _ _ Hv).
Qed.

(** [insertCurrent_WITH_LOCK] of a new transaction under a free nonce. *)
Lemma insertCurrent_spec q t a h : queue_ok q -> known_ok q -> tx_key t a h -> h ∉ m_known q -> 0 <= m_futureLimit q ->
  (forall t', ~ in_queue q a (t_nonce t) t') ->
  exists q1 q2 q', insertCurrent_WITH_LOCK h t q = (Value tt, q') /\
    queue_ok q1 /\ imported a t q q1 /\ same_rest q q1 /\
    queue_ok q2 /\ fewer q1 q2 /\ m_futureSize q2 <= m_futureLimit q /\ (m_futureSize q1 <= m_futureLimit q -> m_future q2 = m_future q1) /\
    same_view q2 q' /\ m_known q' = {[h]} ∪ m_known q.
Proof.
  intros Hq Hkn Hk Hnew Hlim Hfree. pose proof Hk as (Hs & Hh & Hr).
  assert (Hfresh : forall a n t', in_queue q a n t' -> tx_hash WithSignature t' <> Value h).
  { intros a' n t' Hin E. apply Hnew. by eapply Hkn. }
  assert (Hbh : m_currentByHash q !! h = None).
  { destruct (m_currentByHash q !! h) as [it|] eqn:E; [|done]. destruct (ok_byHash q Hq h it E) as (t' & Hin & Hh').
    destruct (ok_current q Hq it t' Hin) as (a' & h' & (Hs' & _) & _). destruct (Hfresh a' (t_nonce t') t'); [|done]. left. by exists it. }
  destruct (insert_handle_eq q a t (queue_comparable q Hq) Hs) as (l1 & l2 & Hl & Hins).
  pose proof (filed_ok a h t l1 l2 q Hq Hl Hk Hfree Hfresh) as Hq0.
  assert (Hsafe : safeSender t = Value a) by (unfold safeSender; by rewrite Hs).
  destruct (makeCurrent_spec (filed a h t l1 l2 q) t a Hq0 Hsafe Hlim) as (q1 & q2 & q3 & Hm & Hq2 & Hfew & Hle & Hid & Hq3 & Hrun).
  change (run (filed a h t l1 l2 q) a) with (run q a) in Hm.
  pose proof (moves_ok _ _ _ _ Hm Hq0) as Hq1.
  assert (Hnd : NoDup (run q a (u256 (t_nonce t + 1)))) by (apply run_of_NoDup, sorted_NoDup, keys_from_sorted).
  assert (Hv3 : same_view q2 q3) by (destruct Hq3 as [->| ->]; done).
  assert (Hk3 : m_known q3 = m_known q).
  { pose proof (same_known _ _ (fewer_rest _ _ Hfew)). pose proof (same_known _ _ (moves_same _ _ _ _ Hm)) as Hx. cbn in Hx.
    destruct Hq3 as [->| ->]; cbn; congruence. }
  exists q1, q2, (set_known ({[h]} ∪ m_known q3) q3). split_and!; try done.
  - unfold insertCurrent_WITH_LOCK, from_of, sbind, sget, smod, slift. rewrite Hbh. cbn beta iota. rewrite Hsafe. cbn beta iota. rewrite Hins. cbn beta iota.
    change (set_byHash _ _) with (filed a h t l1 l2 q). by rewrite Hrun.
  - destruct (moves_size _ _ _ _ Hm Hq0) as [Hsz Hln]. constructor.
    + intros a' n t'. rewrite (moves_current _ _ _ _ a' n t' Hm Hq0 Hnd), filed_current by done.
      change (in_future (filed a h t l1 l2 q) a' n t') with (in_future q a' n t'). split.
      * intros [[?|Hc]|(-> & Hin & Hf)]; [by left|right; left|right; right].
        -- split; [|done]. intros [-> ->]. apply (Hfree t'). by left.
        -- split_and!; try done. intros [_ ->]. apply (Hfree t'). by right.
      * intros [?|[[_ ?]|(_ & -> & ?)]]; tauto.
    + intros a' n t'. rewrite (moves_future _ _ _ _ a' n t' Hm).
      change (in_future (filed a h t l1 l2 q) a' n t') with (in_future q a' n t'). split; [|tauto].
      intros [Hf Hn]. split_and!; try done. intros [-> ->]. apply (Hfree t'). by right.
    + change (m_futureSize (filed a h t l1 l2 q)) with (m_futureSize q) in Hsz. rewrite Hsz, Hln.
      assert (lenZ (m_current (filed a h t l1 l2 q)) = lenZ (m_current q) + 1); [|lia].
      rewrite Hl. unfold lenZ. cbn -[length]. rewrite !length_app. cbn [length]. lia.
  - eapply same_rest_trans; [|by eapply moves_same]. done.
  - intros Hx. by rewrite Hid.
  - destruct Hv3. constructor; cbn; done.
  - cbn. by rewrite Hk3.
Qed.

Lemma queue_lookup q a n : queue_ok q -> (exists t, in_current q a n t) \/ (exists t, in_future q a n t /\ forall t', ~ in_current q a n t') \/
  (forall t, ~ in_queue q a n t).
Proof.
  intros Hq. destruct (m_currentByAddressAndNonce q !! a ≫= lookup n) as [it|] eqn:E.
  { left. by eapply indexed_current. }
  assert (Hnc : forall t, ~ in_current q a n t).
  { intros t Hc. destruct (in_current_indexed q a n t Hq Hc) as (it & h & _ & _ & _ & _ & Hi & _). unfold indexed in Hi. congruence. }
  right. destruct (m_future q !! a ≫= lookup n) as [t|] eqn:F; [left; by exists t|right].
  intros t [Hc|Hf]; [by eapply Hnc|]. unfold in_future in Hf. congruence.
Qed.

(** ** The outcome *)

(** There is a better transaction with the same sender and nonce. *)
Definition overbid (q : TransactionQueue) (a : Z) (t : TransactionBase) : Prop :=
  exists old, in_queue q a (t_nonce t) old /\ m_gasPrice t < m_gasPrice old.

(** The place of [t] is free, and nothing else has changed. *)
Record made_room (a : Z) (t : TransactionBase) (q qb : TransactionQueue) : Prop := {
  room_ok : queue_ok qb;
  room_less : less q qb;
  room_current : forall a' n t', in_current qb a' n t' <-> in_current q a' n t' /\ ~ (a' = a /\ n = t_nonce t);
  room_future : forall a' n t', in_future qb a' n t' <-> in_future q a' n t' /\ ~ (a' = a /\ n = t_nonce t);
  room_run : forall k, k <> t_nonce t -> k ∈ run qb a (u256 (t_nonce t + 1)) <-> k ∈ run q a (u256 (t_nonce t + 1))
}.

Lemma manage_room q t a (K : SM TransactionQueue tx_error ImportResult) : queue_ok q -> 0 <= t_nonce t < 2 ^ 256 ->
  let body := free <- replace_current t a ;;
              if negb free then sret OverbidGasPrice
              else free <- replace_future t a ;; if negb free then sret OverbidGasPrice else K in
  (overbid q a t /\ body q = (Value OverbidGasPrice, q)) \/
  (~ overbid q a t /\ exists qb, made_room a t q qb /\ body q = K qb).
Proof.
  intros Hq Hr body.
  destruct (queue_lookup q a (t_nonce t) Hq) as [[old Hc]|[[old [Hf Hnc]]|Hnone]].
  - pose proof (replace_current_some q t a old Hq Hc) as Hrep. destruct (Z.ltb_spec (m_gasPrice t) (m_gasPrice old)) as [Hlt|Hge].
    + left. split; [exists old; split; [by left|done]|]. unfold body, sbind. by rewrite Hrep.
    + right. split.
      { intros (old' & [Hc'|Hf'] & Hlt); [|by eapply (not_both q a)]. by rewrite (in_current_inj q a _ old old' Hq Hc Hc') in Hge; lia. }
      destruct Hrep as (h & q' & Hh & Hrun & Hq' & Hw). exists (emit (onReplaced h) q'). split.
      { constructor.
        - by apply (same_view_ok q').
        - eapply less_trans; [apply Hw|apply less_emit].
        - intros a' n t'. exact (without_current _ _ _ _ _ Hw a' n t').
        - intros a' n t'. unfold in_future. cbn. rewrite (without_future _ _ _ _ _ Hw). split; [|tauto]. intros Hf. split; [done|].
          intros [-> ->]. by eapply (not_both q a).
        - intros k _. unfold run. cbn. by rewrite (without_future _ _ _ _ _ Hw). }
      unfold body, sbind at 1. rewrite Hrun. cbn [negb]. unfold sbind. rewrite replace_future_none; [done|].
      intros old' Hf. unfold in_future in Hf. cbn in Hf. rewrite (without_future _ _ _ _ _ Hw) in Hf. by eapply (not_both q a).
  - pose proof (replace_future_some q t a old Hf) as Hrep.
    assert (Hcur : replace_current t a q = (Value true, q)) by (by apply replace_current_none).
    destruct (Z.ltb_spec (m_gasPrice t) (m_gasPrice old)) as [Hlt|Hge].
    + left. split; [exists old; split; [by right|done]|]. unfold body, sbind. rewrite Hcur. cbn [negb]. by rewrite Hrep.
    + right. split.
      { intros (old' & [Hc'|Hf'] & Hlt); [by destruct (Hnc old')|]. unfold in_future in *. assert (old' = old) as -> by congruence. lia. }
      exists (unwait a (t_nonce t) q). assert (Hq' : queue_ok (unwait a (t_nonce t) q)) by (by eapply unwait_ok). split.
      { constructor; [done| | | |].
        - eapply fewer_less, unwait_fewer; done.
        - intros a' n t'. change (in_current (unwait a (t_nonce t) q) a' n t') with (in_current q a' n t'). split; [|tauto].
          intros Hc. split; [done|]. intros [-> ->]. by destruct (Hnc t').
        - intros a' n t'. apply unwait_future.
        - intros k Hk. by apply run_unwait. }
      unfold body, sbind. rewrite Hcur. cbn [negb]. by rewrite Hrep.
  - right. split; [intros (old & Hin & _); by apply (Hnone old)|]. exists q. split.
    { constructor; [done|apply less_refl| | |done]; intros a' n t'; (split; [|tauto]); intros Hx; (split; [done|]); intros [-> ->];
        apply (Hnone t'); [by left|by right]. }
    unfold body, sbind. rewrite replace_current_none; [|done|intros old Hx; apply (Hnone old); by left]. cbn [negb].
    by rewrite replace_future_none by (intros old Hx; apply (Hnone old); by right).
Qed.

(** [q'] is [q1] within the limits of [q]. *)
Record limited (q q1 q' : TransactionQueue) : Prop := {
  limited_current : forall a n t, in_current q' a n t -> in_current q1 a n t;
  limited_future : forall a n t, in_future q' a n t -> in_future q1 a n t;
  limited_length : lenZ (m_current q') <= m_limit q;
  limited_size : m_futureSize q' <= m_futureLimit q;
  limited_all_current : lenZ (m_current q1) <= m_limit q -> forall a n t, in_current q1 a n t -> in_current q' a n t;
  limited_all_future : m_futureSize q1 <= m_futureLimit q -> forall a n t, in_future q1 a n t -> in_future q' a n t;
  limited_limits : m_limit q' = m_limit q /\ m_futureLimit q' = m_futureLimit q;
  limited_rest : m_dropped q' = m_dropped q /\ m_unverified q' = m_unverified q
}.

Lemma imported_room a t q qb q1 : made_room a t q qb -> imported a t qb q1 -> imported a t q q1.
Proof.
  intros Hr Hi. constructor.
  - intros a' n t'. rewrite (imported_current _ _ _ _ Hi), (room_current _ _ _ _ Hr), (room_future _ _ _ _ Hr).
    split; [intros [?|[[? ?]|(? & -> & Hk & ?)]]|intros [?|[[? ?]|(? & -> & Hk & ?)]]]; try tauto; right; right; split_and!; try tauto.
    + apply (room_run _ _ _ _ Hr); [by intros ->; auto|done].
    + apply (room_run _ _ _ _ Hr); [by intros ->; auto|done].
  - intros a' n t'. rewrite (imported_future _ _ _ _ Hi), (room_future _ _ _ _ Hr). split.
    + intros ([Hf Hne] & _ & Hk). split_and!; [done|done|]. intros [-> Hx]. apply Hk. split; [done|].
      apply (room_run _ _ _ _ Hr); [by intros ->; auto|done].
    + intros (Hf & Hne & Hk). split_and!; [done|done|done|]. intros [-> Hx]. apply Hk. split; [done|].
      apply (room_run _ _ _ _ Hr); [by intros ->; auto|done].
  - pose proof (imported_length _ _ _ _ Hi). pose proof (less_length _ _ (room_less _ _ _ _ Hr)). pose proof (less_size _ _ (room_less _ _ _ _ Hr)). lia.
Qed.

Lemma imported_known a t h q q1 q2 : queue_ok q -> known_ok q -> tx_key t a h -> imported a t q q1 ->
  (forall a n t, in_queue q2 a n t -> in_queue q1 a n t) -> m_known q2 = {[h]} ∪ m_known q -> known_ok q2.
Proof.
  intros Hq Hkn (Hs & Hh & _) Hi Hsub Hk a' n t' h' Hin Hh'. rewrite Hk. apply elem_of_union.
  apply Hsub in Hin. destruct Hin as [Hin|Hin].
  - apply (imported_current _ _ _ _ Hi) in Hin as [(-> & -> & ->)|[[_ Hc]|(_ & -> & _ & Hf)]].
    + left. apply elem_of_singleton. congruence.
    + right. eapply Hkn; [by left|done].
    + right. eapply Hkn; [by right|done].
  - apply (imported_future _ _ _ _ Hi) in Hin as [Hf _]. right. eapply Hkn; [by right|done].
Qed.

Lemma manageImport_spec q t a h : queue_ok q -> known_ok q -> tx_key t a h -> h ∉ m_known q -> 0 <= m_limit q -> 0 <= m_futureLimit q ->
  (overbid q a t /\ manageImport_WITH_LOCK h t q = (Value OverbidGasPrice, q)) \/
  (~ overbid q a t /\ exists q1 q', manageImport_WITH_LOCK h t q = (Value Success, q') /\ queue_ok q' /\ known_ok q' /\
    imported a t q q1 /\ limited q q1 q').
Proof.
  intros Hq Hkn Hk Hnew Hlim Hflim. pose proof Hk as (Hs & Hh & Hr).
  assert (Hsafe : safeSender t = Value a) by (unfold safeSender; by rewrite Hs).
  set (K := insertCurrent_WITH_LOCK h t ;; q <- sget ;; limit_current (length (m_current q)) ;; smod (emit onReady) ;; sret Success).
  assert (Hbody : manageImport_WITH_LOCK h t q = or_malformed (free <- replace_current t a ;;
    if negb free then sret OverbidGasPrice else free <- replace_future t a ;; if negb free then sret OverbidGasPrice else K) q).
  { unfold manageImport_WITH_LOCK, or_malformed, sha3_of, from_of. unfold sbind at 1. unfold slift at 1. rewrite Hh. cbn beta iota.
    unfold sbind at 1. rewrite Z.eqb_refl. unfold sret at 1. cbn beta iota. unfold sbind at 1, slift at 1. rewrite Hsafe. done. }
  rewrite Hbody. clear Hbody.
  destruct (manage_room q t a K Hq Hr) as [[Hover Hb]|(Hover & qb & Hroom & Hb)]; [left|right]; (split; [done|]).
  { unfold or_malformed. by rewrite Hb. }
  pose proof (room_less _ _ _ _ Hroom) as Hless. pose proof (room_ok _ _ _ _ Hroom) as Hqb.
  destruct (insertCurrent_spec qb t a h Hqb) as (q1 & q2 & q3 & Hins & Hq1 & Himp & Hsame & Hq2 & Hfew & Hsz & Hall & Hv & Hkn3); [by eapply less_known_ok|done| | | |].
  { intros Hx. apply Hnew. by apply (less_known _ _ Hless). }
  { by rewrite (less_futureLimit _ _ Hless). }
  { intros t' [Hx|Hx]; [apply (room_current _ _ _ _ Hroom) in Hx as [_ Hx]|apply (room_future _ _ _ _ Hroom) in Hx as [_ Hx]]; by apply Hx. }
  pose proof (same_view_ok _ _ Hv Hq2) as Hq3.
  assert (Hlim3 : m_limit q3 = m_limit q /\ m_futureLimit q3 = m_futureLimit q /\ m_dropped q3 = m_dropped q /\ m_unverified q3 = m_unverified q).
  { destruct Hv, Hless, (fewer_rest _ _ Hfew), Hsame. split_and!; congruence. }
  destruct Hlim3 as (Hl3 & Hfl3 & Hd3 & Hu3).
  destruct (limit_current_spec (length (m_current q3)) q3 Hq3) as (q4 & Hrun & Hq4 & Hless4 & Hfut4 & Hlen4 & Hid4); [lia|unfold lenZ; lia|].
  assert (Hcur : forall a n t, in_current q3 a n t <-> in_current q1 a n t).
  { intros a' n t'. by rewrite (same_view_current q2 q3), (fewer_current _ _ Hfew). }
  assert (Hfut : forall a n t, in_future q3 a n t -> in_future q1 a n t).
  { intros a' n t' Hx. apply (fewer_future _ _ Hfew). by apply (same_view_future q2 q3). }
  assert (Hkb : m_known qb ⊆ m_known q) by apply (less_known _ _ Hless).
  exists q1, (emit onReady q4). split; [|split; [|split; [|split]]].
  - unfold or_malformed. rewrite Hb. unfold K, sbind, sget, smod, sret. rewrite Hins. cbn beta iota. by rewrite Hrun.
  - by apply (same_view_ok q4).
  - apply (less_known_ok q4); [apply less_emit|]. apply (less_known_ok q3); [done|].
    eapply (imported_known a t h qb q1); [done|by eapply less_known_ok|done|done| |done].
    intros a' n t' [Hx|Hx]; [left; by apply Hcur|right; by apply Hfut].
  - by eapply imported_room.
  - constructor.
    + intros a' n t' Hx. apply Hcur. by apply (less_current _ _ Hless4).
    + intros a' n t' Hx. apply Hfut. by apply (less_future _ _ Hless4).
    + cbn. lia.
    + cbn. pose proof (less_size _ _ Hless4). rewrite (view_size _ _ Hv) in *. rewrite (less_futureLimit _ _ Hless) in Hsz. lia.
    + intros Hx a' n t' Hc. assert (Hlen : lenZ (m_current q3) = lenZ (m_current q1)) by (rewrite (view_current _ _ Hv); apply (fewer_length _ _ Hfew)).
      rewrite Hid4 by lia. change (in_current q3 a' n t'). by apply Hcur.
    + intros Hx a' n t' Hc. unfold in_future in *. cbn. rewrite Hfut4, (view_future _ _ Hv), Hall; [done|]. by rewrite (less_futureLimit _ _ Hless).
    + cbn. rewrite (less_limit _ _ Hless4), (less_futureLimit _ _ Hless4). done.
    + cbn. rewrite (less_dropped _ _ Hless4), (less_unverified _ _ Hless4). done.
Qed.
End Importing.
