(* ===== verification/TxQueueFuture.v ===== *)
(** * The transaction queue: sending transactions back to wait

    [setFuture] moves the transactions of a sender, from one nonce on, from
    [m_current] to [m_future]. *)
From stdpp Require Import base list gmap sorting.
From Stdlib Require Import ZArith Lia.
From S2P Require Import Prelude Words Result Rlp StateMonad Account Transaction TxQueue TxQueueSpec TxQueueOps.
Open Scope sm_scope.

Section Future.
  Context `{Sha3} `{!Secp256k1} `{!UnorderedMaps} `{!Multiset}.

(** The element [it], which is [t], waits. *)
Definition deferred (it a h : Z) (t : TransactionBase) (q : TransactionQueue) : TransactionQueue :=
  set_future (<[a := <[t_nonce t := t]> (default ∅ (m_future q !! a))]> (m_future q)) (u32 (m_futureSize q + 1))
    (removed it a (t_nonce t) h q).

Lemma deferred_future it a h t q a' n t' : in_future (deferred it a h t q) a' n t' <->
  (a' = a /\ n = t_nonce t /\ t' = t) \/ (~ (a' = a /\ n = t_nonce t) /\ in_future q a' n t').
Proof.
  unfold in_future. cbn. destruct (decide (a' = a)) as [->|Hne]; [|rewrite lookup_insert_ne by done; naive_solver].
  rewrite lookup_insert_eq. cbn. destruct (decide (n = t_nonce t)) as [->|Hn]; [rewrite lookup_insert_eq; naive_solver|].
  rewrite lookup_insert_ne by done. destruct (m_future q !! a); cbn; [|rewrite lookup_empty]; naive_solver.
Qed.

Lemma count_future_put m a k t : m !! a ≫= lookup k = None ->
  count_future (<[a := <[k := t]> (default ∅ (m !! a))]> m) = count_future m + 1.
Proof.
  intros Hn. pose proof (count_future_alter m a (<[k := t]> (default ∅ (m !! a)))) as Hc.
  rewrite decide_False in Hc by apply insert_non_empty. rewrite Hc, map_size_insert.
  assert (default ∅ (m !! a) !! k = None) as -> by (destruct (m !! a); cbn in *; [done|apply lookup_empty]). lia.
Qed.

Lemma deferred_size it a h t q : queue_ok q -> m_futureSize q + 1 < 2 ^ 32 -> m_futureSize (deferred it a h t q) = m_futureSize q + 1.
Proof. intros Hq Hs. cbn. pose proof (ok_size q Hq). pose proof (count_future_nonneg (m_future q)). apply u32_small. lia. Qed.

Lemma deferred_ok it a h t q : queue_ok q -> (it, t) ∈ m_current q -> tx_key t a h -> m_futureSize q + 1 < 2 ^ 32 ->
  queue_ok (deferred it a h t q).
Proof.
  intros Hq Hin Hk Hsz. pose proof (removed_ok it a h q t Hq Hin Hk) as Hr. pose proof Hk as (Hs & Hh & _).
  pose proof (fun a' n t' => removed_current it a h q t a' n t' Hq Hin Hk) as Hrc.
  assert (Hc : in_current q a (t_nonce t) t) by (by exists it).
  assert (Hnf : forall t', ~ in_future q a (t_nonce t) t') by (intros t' Hf; by eapply (not_both q a)).
  assert (Hiq : forall a' n t', in_queue (deferred it a h t q) a' n t' -> in_queue q a' n t').
  { intros a' n t' [Hx|[(-> & -> & ->)|[_ Hx]]%deferred_future]; [left; by apply Hrc|by left|by right]. }
  pose proof (deferred_size it a h t q Hq Hsz) as Hds.
  constructor; try apply Hr; rewrite ?Hds.
  - intros a' n t' [(-> & -> & ->)|[_ Hx]]%deferred_future; [split; [done|by exists h]|by apply (ok_future q Hq)].
  - intros a'. cbn. rewrite lookup_insert. case_decide; [|apply (ok_futures q Hq)]. intros [= Hx]. by apply insert_non_empty in Hx.
  - intros a' n t' it' [(-> & -> & ->)|[_ Hx]]%deferred_future.
    + intros Hi. apply (removed_indexed it a (t_nonce t) h q) in Hi as [_ Hne]. by apply Hne.
    + by apply (ok_disjoint _ Hr a' n t').
  - intros a1 n1 t1 a2 n2 t2 H1q%Hiq H2q%Hiq. by apply (ok_hashes q Hq).
  - cbn. rewrite count_future_put, (ok_size q Hq); [done|]. destruct (m_future q !! a ≫= lookup (t_nonce t)) as [t'|] eqn:E; [|done].
    by destruct (Hnf t').
  - lia.
Qed.

(** One after the other, what is current under [ks] waits. *)
Inductive defers (a : Z) : list Z -> TransactionQueue -> TransactionQueue -> Prop :=
| defers_nil q : defers a [] q q
| defers_cons k ks it t h q q' : (it, t) ∈ m_current q -> tx_key t a h -> t_nonce t = k ->
    defers a ks (deferred it a h t q) q' -> defers a (k :: ks) q q'.

Definition room (q : TransactionQueue) : Prop := lenZ (m_current q) + m_futureSize q < 2 ^ 32.

Lemma deferred_length it a h t q : queue_ok q -> (it, t) ∈ m_current q -> lenZ (m_current (deferred it a h t q)) = lenZ (m_current q) - 1.
Proof.
  intros Hq Hin. unfold lenZ. rewrite (length_erase_it (m_current q) it t) by (done || apply ok_handles, Hq). cbn -[length]. lia.
Qed.

Lemma room_deferred it a h t q : queue_ok q -> room q -> (it, t) ∈ m_current q -> m_futureSize q + 1 < 2 ^ 32 /\ room (deferred it a h t q).
Proof.
  intros Hq Hr Hin. pose proof (deferred_length it a h t q Hq Hin) as Hl. pose proof (lenZ_nonneg (m_current (deferred it a h t q))). unfold room in *.
  assert (Hs : m_futureSize q + 1 < 2 ^ 32) by lia. rewrite Hl, (deferred_size it a h t q Hq Hs). split; lia.
Qed.

Lemma defers_ok a ks q q' : defers a ks q q' -> queue_ok q -> room q -> queue_ok q'.
Proof.
  induction 1 as [|k ks it t h q q' Hin Hk Hn _ IH]; [done|]. intros Hq Hr. destruct (room_deferred it a h t q Hq Hr Hin) as [Hs Hr'].
  apply IH; [by apply deferred_ok|done].
Qed.

Lemma defers_same a ks q q' : defers a ks q q' -> same_rest q q'.
Proof. induction 1 as [|k ks it t h q q' Hin Hk Hn _ IH]; [done|]. eapply same_rest_trans; [|exact IH]. done. Qed.

Lemma defers_size a ks q q' : defers a ks q q' -> queue_ok q -> room q ->
  lenZ (m_current q') + m_futureSize q' = lenZ (m_current q) + m_futureSize q.
Proof.
  induction 1 as [|k ks it t h q q' Hin Hk Hn _ IH]; [done|]. intros Hq Hr. destruct (room_deferred it a h t q Hq Hr Hin) as [Hs Hr'].
  rewrite IH by (done || by apply deferred_ok). rewrite deferred_length, deferred_size by done. lia.
Qed.

Lemma defers_current a ks q q' a' n t : defers a ks q q' -> queue_ok q -> room q ->
  in_current q' a' n t <-> in_current q a' n t /\ ~ (a' = a /\ n ∈ ks).
Proof.
  induction 1 as [|k ks it t' h q q' Hin Hk Hn _ IH]; intros Hq Hr.
  { split; [intros Hx; split; [done|]; by intros [_ ?%elem_of_nil]|tauto]. }
  destruct (room_deferred it a h t' q Hq Hr Hin) as [Hs Hr']. rewrite IH by (done || by apply deferred_ok).
  rewrite (removed_current it a h q t' a' n t Hq Hin Hk : in_current (deferred it a h t' q) a' n t <-> _), elem_of_cons, Hn. tauto.
Qed.

Lemma defers_future a ks q q' a' n t : defers a ks q q' -> queue_ok q -> room q -> NoDup ks ->
  in_future q' a' n t <-> in_future q a' n t \/ (a' = a /\ n ∈ ks /\ in_current q a' n t).
Proof.
  induction 1 as [|k ks it t' h q q' Hin Hk Hn _ IH]; intros Hq Hr Hnd.
  { split; [auto|]. intros [?|(_ & ?%elem_of_nil & _)]; done. }
  apply NoDup_cons in Hnd as [Hnk Hnd]. destruct (room_deferred it a h t' q Hq Hr Hin) as [Hs Hr']. pose proof Hk as (Hst & _).
  assert (Hct : in_current q a (t_nonce t') t') by (by exists it).
  rewrite IH by (done || by apply deferred_ok).
  rewrite deferred_future, (removed_current it a h q t' a' n t Hq Hin Hk : in_current (deferred it a h t' q) a' n t <-> _), elem_of_cons, <- Hn.
  rewrite <- Hn in Hnk. split.
  - intros [[(-> & -> & ->)|[_ ?]]|(-> & Hks & [? _])]; eauto 10.
  - intros [Hf|(-> & [->|Hks] & Hc)].
    + left. right. split; [|done]. intros [-> ->]. by eapply (not_both q a).
    + left. left. split_and!; try done. by eapply in_current_inj.
    + right. split_and!; try done. intros [_ ->]. done.
Qed.

(** The queue as it is when the handles of what has moved are erased. *)
Definition settled (a : Z) (ks : list Z) (q : TransactionQueue) : TransactionQueue :=
  set_byNonce (erase_keys a ks (m_currentByAddressAndNonce q)) (set_future (erase_keys a [] (m_future q)) (m_futureSize q) q).

Lemma erase_none_default {A} a (m : gmap Z (gmap Z A)) : default ∅ (erase_keys a [] m !! a) = default ∅ (m !! a).
Proof. rewrite erase_keys_lookup, decide_True by done. cbn. by case_decide as E. Qed.

Lemma erase_none_put {A} a k (x : A) (m : gmap Z (gmap Z A)) :
  erase_keys a [] (<[a := <[k := x]> (default ∅ (m !! a))]> m) = <[a := <[k := x]> (default ∅ (erase_keys a [] m !! a))]> (erase_keys a [] m).
Proof.
  apply map_eq. intros a'. rewrite erase_none_default, erase_keys_lookup. destruct (decide (a' = a)) as [->|Hne].
  - rewrite !lookup_insert_eq. cbn. rewrite decide_False; [done|]. apply insert_non_empty.
  - by rewrite !lookup_insert_ne, erase_keys_lookup, decide_False.
Qed.

Lemma defer_defers a nonces ks : forall before q, queue_ok (settled a before q) -> room q -> NoDup ks ->
  (forall k, k ∈ ks -> k ∉ before /\ exists it, nonces !! k = Some it /\ indexed q a k it) ->
  exists q', defer ks nonces a q = (Value tt, q') /\ defers a ks (settled a before q) (settled a (before ++ ks) q').
Proof.
  induction ks as [|k ks IH]; intros before q Hq Hr Hnd Hks.
  { exists q. split; [done|]. rewrite app_nil_r. constructor. }
  apply NoDup_cons in Hnd as [Hnk Hnd]. destruct (Hks k) as [Hkb (it & Hit & Hi)]; [left|].
  assert (Hic : indexed (settled a before q) a k it).
  { unfold indexed. cbn. rewrite erase_keys_waits, decide_False by naive_solver. exact Hi. }
  destruct (ok_byNonce _ Hq a k it Hic) as (t & Hin & Hs & Hn).
  destruct (ok_current _ Hq it t Hin) as (a' & h & Hk & Hb & _). pose proof Hk as (Hs' & Hh & _). assert (a' = a) as -> by congruence.
  assert (Hnt : default ∅ (m_future q !! a) !! k = None).
  { destruct (default ∅ (m_future q !! a) !! k) as [t'|] eqn:E; [|done]. exfalso.
    apply (ok_disjoint _ Hq a k t' it); [|done]. apply waits_default. unfold settled. cbn. by rewrite erase_none_default. }
  set (q1 := set_future (<[a := <[k := t]> (default ∅ (m_future q !! a))]> (m_future q)) (u32 (m_futureSize q + 1))
    (erase_it it (set_byHash (delete h (m_currentByHash q)) q))).
  assert (Hq1 : settled a (before ++ [k]) q1 = deferred it a h t (settled a before q)).
  { unfold settled, q1, deferred, removed. cbn. rewrite erase_none_put, erase_keys_app, Hn. done. }
  destruct (room_deferred it a h t (settled a before q) Hq Hr Hin) as [Hsz Hr1].
  destruct (IH (before ++ [k]) q1) as (q' & Hrun & Hd); [|exact Hr1|done| |].
  { rewrite Hq1. by apply deferred_ok. }
  { intros k' Hk'. destruct (Hks k') as [Hb' (it' & Hit' & Hi')]; [by right|]. split; [|by exists it'].
    intros [?|Hx%list_elem_of_singleton]%elem_of_app; [done|]. subst. done. }
  exists q'. split.
  - cbn [defer]. unfold sha3_of, sbind, sget, slift, smod. rewrite Hit. cbn [rget]. cbn beta iota.
    assert (Hd' : deref_it it q = Some t) by (apply deref_it_elem; [apply (ok_handles _ Hq)|exact Hin]).
    rewrite Hd'. cbn [rget]. cbn beta iota. rewrite Hh. cbn beta iota. cbn [m_future set_byHash]. rewrite Hn, Hnt. exact Hrun.
  - rewrite Hq1, <- app_assoc in Hd. econstructor; done.
Qed.

(** The nonces from [n] on under which [a] has current transactions. *)
Definition nonces_from (q : TransactionQueue) (a n : Z) : list Z := keys_from n (default ∅ (m_currentByAddressAndNonce q !! a)).

Lemma nonces_from_elem q a n k : queue_ok q -> k ∈ nonces_from q a n <-> n <= k /\ exists t, in_current q a k t.
Proof.
  intros Hq. unfold nonces_from. rewrite keys_from_elem.
  assert (Hx : default ∅ (m_currentByAddressAndNonce q !! a) !! k = m_currentByAddressAndNonce q !! a ≫= lookup k)
    by (destruct (m_currentByAddressAndNonce q !! a); cbn; [done|apply lookup_empty]).
  rewrite Hx. split; intros [Hle [x Hy]]; (split; [done|]).
  - by apply (indexed_current q a k x).
  - destruct (in_current_indexed q a k x Hq Hy) as (it & h & _ & _ & _ & _ & Hi & _). by exists it.
Qed.

Lemma erase_none_id {A} a (m : gmap Z (gmap Z A)) : m !! a <> Some ∅ -> erase_keys a [] m = m.
Proof.
  intros Hm. unfold erase_keys. cbn. destruct (m !! a) as [x|] eqn:E; cbn.
  - rewrite decide_False by congruence. by apply insert_id.
  - rewrite decide_True by done. by apply delete_id.
Qed.

Lemma settled_id a q : queue_ok q -> settled a [] q = q.
Proof.
  intros Hq. unfold settled. rewrite (erase_none_id a _ (ok_nonces q Hq a)), (erase_none_id a _ (ok_futures q Hq a)). by destruct q.
Qed.

(** [setFuture] of a current transaction. *)
Lemma setFuture_spec q a n t h : queue_ok q -> room q -> in_current q a n t -> tx_hash WithSignature t = Value h ->
  exists q', setFuture h q = (Value tt, q') /\ defers a (nonces_from q a n) q q'.
Proof.
  intros Hq Hr Hc Hh. destruct (in_current_indexed q a n t Hq Hc) as (it & h' & Hin & Hk & Hn & Hb & Hi & Hd).
  pose proof Hk as (Hs & Hh' & _). assert (h' = h) as -> by congruence.
  set (q0 := set_future (<[a := default ∅ (m_future q !! a)]> (m_future q)) (m_futureSize q) q).
  assert (Hq0 : settled a [] q0 = q).
  { transitivity (settled a [] q); [|by apply settled_id].
    assert (Hm : erase_keys a [] (<[a := default ∅ (m_future q !! a)]> (m_future q)) = erase_keys a [] (m_future q)).
    { apply map_eq. intros a'. rewrite !erase_keys_lookup. case_decide as E; [by rewrite lookup_insert_eq|by rewrite lookup_insert_ne]. }
    unfold settled, q0. cbn. by rewrite Hm. }
  destruct (defer_defers a (default ∅ (m_currentByAddressAndNonce q !! a)) (nonces_from q a n) [] q0) as (q' & Hrun & Hdef).
  { by rewrite Hq0. }
  { exact Hr. }
  { apply sorted_NoDup, keys_from_sorted. }
  { intros k Hk'. split; [apply not_elem_of_nil|]. apply keys_from_elem in Hk' as [_ [it' Hit']]. exists it'. split; [done|].
    unfold indexed. change (m_currentByAddressAndNonce q0) with (m_currentByAddressAndNonce q).
    destruct (m_currentByAddressAndNonce q !! a); [done|]. cbn in Hit'. by rewrite lookup_empty in Hit'. }
  rewrite Hq0 in Hdef. cbn [app] in Hdef.
  exists (set_byNonce (erase_keys a (nonces_from q a n) (m_currentByAddressAndNonce q')) q'). split.
  - unfold setFuture, from_of, sbind, sget, slift, smod. rewrite Hb, Hd. cbn [rget]. cbn beta iota. unfold safeSender. rewrite Hs. cbn beta iota.
    rewrite Hn. change (keys_from n _) with (nonces_from q a n). fold q0. by rewrite Hrun.
  - assert (Hset : set_byNonce (erase_keys a (nonces_from q a n) (m_currentByAddressAndNonce q')) q' = settled a (nonces_from q a n) q'); [|by rewrite Hset].
    assert (Hf : in_future (settled a (nonces_from q a n) q') a n t).
    { apply (defers_future _ _ _ _ a n t Hdef); [done|done|apply sorted_NoDup, keys_from_sorted|]. right. split_and!; [done| |done].
      apply nonces_from_elem; [done|]. split; [lia|by exists t]. }
    apply waits_default in Hf. unfold settled in Hf. cbn in Hf. rewrite erase_none_default in Hf.
    unfold settled. rewrite erase_none_id; [by destruct q'|]. intros E. rewrite E in Hf. cbn in Hf. by rewrite lookup_empty in Hf.
Qed.
End Future.
