(* ===== verification/TxQueueTheorems.v ===== *)
(** * The transaction queue: what its callers rely on

    The calls of a node, in any order, keep the queue's invariant; what an
    import answers and does; what is offered to a block; and two ways in which
    the queue fails: its order, and signatures of nobody. *)
From stdpp Require Import base list gmap sorting.
From Stdlib Require Import ZArith Lia.
From S2P Require Import Prelude Words Result Rlp RlpSpec RlpRead RlpTheorems StateMonad Account Transaction TestDB TxQueue TxCodec TxQueueSpec TxQueueOps TxQueueImport TxQueueFuture.
Open Scope sm_scope.

Section Theorems.
  Context `{Sha3} `{!Secp256k1} `{!UnorderedMaps} `{!Multiset}.

(** ** The calls *)

Inductive call : Set :=
| Import (t : TransactionBase) (ik : IfDropped)
| ImportBytes (rlp : list Z) (ik : IfDropped)
| Drop (txHash : Z)
| SetFuture (txHash : Z)
| DropGood (t : TransactionBase)
| Clear
| Enqueue (data : list Z) (nodeId : Z)
| Verify.

Definition run_call (c : call) : SM TransactionQueue tx_error unit :=
  match c with
  | Import t ik => import_transaction t ik ;; sret tt
  | ImportBytes rlp ik => import_bytes rlp ik ;; sret tt
  | Drop h => drop_transaction h
  | SetFuture h => setFuture h
  | DropGood t => dropGood t
  | Clear => smod clear_queue
  | Enqueue data n => enqueue data n
  | Verify => verify_next
  end.

Definition wire_ok (d : list Z) : Prop := byte_list d /\ lenZ d < 2 ^ 62.

(** The signature of a transaction that is given to the queue is somebody's, or
    zero. *)
Definition signed_ok (t : TransactionBase) : Prop := hasZeroSignature t = true \/ exists a, sender t = Value a.

Definition call_ok (q : TransactionQueue) (c : call) : Prop :=
  match c with
  | Import t _ => tx_ok t /\ is_null t = false /\ m_vrs t <> None /\ signed_ok t
  | ImportBytes d _ | Enqueue d _ => wire_ok d
  | DropGood t => tx_ok t /\ is_null t = false /\ m_vrs t <> None
  | Verify => forall w rest t, m_unverified q = w :: rest -> parse_transaction (u_transaction w) CheckCheap = Value t -> signed_ok t
  | _ => True
  end.

Record queue_inv (q : TransactionQueue) : Prop := {
  inv_ok : queue_ok q;
  inv_known : known_ok q;
  inv_limits : 0 <= m_limit q /\ 0 <= m_futureLimit q /\ m_limit q + m_futureLimit q < 2 ^ 32;
  inv_total : lenZ (m_current q) + m_futureSize q <= m_limit q + m_futureLimit q;
  inv_unverified : Forall (fun w => wire_ok (u_transaction w)) (m_unverified q) /\ lenZ (m_unverified q) <= c_maxVerificationQueueSize
}.

(** A call returns or throws, and keeps the invariant. *)
Definition keeps {A} (m : SM TransactionQueue tx_error A) (q : TransactionQueue) : Prop :=
  posts m (fun _ q' => queue_inv q') (fun _ q' => queue_inv q') q.

Lemma inv_less q q' : queue_inv q -> queue_ok q' -> less q q' -> queue_inv q'.
Proof.
  intros [Hok Hk Hl Ht Hu] Hok' Hless. constructor; [done|by eapply less_known_ok| | |].
  - rewrite (less_limit _ _ Hless), (less_futureLimit _ _ Hless). done.
  - pose proof (less_length _ _ Hless). pose proof (less_size _ _ Hless). rewrite (less_limit _ _ Hless), (less_futureLimit _ _ Hless). lia.
  - by rewrite (less_unverified _ _ Hless).
Qed.

Lemma inv_limited q q1 q' : queue_inv q -> queue_ok q' -> known_ok q' -> limited q q1 q' -> queue_inv q'.
Proof.
  intros [Hok Hk Hl Ht Hu] Hok' Hk' Hlim. destruct (limited_limits _ _ _ Hlim) as [E1 E2]. destruct (limited_rest _ _ _ Hlim) as [_ E3].
  pose proof (limited_length _ _ _ Hlim). pose proof (limited_size _ _ _ Hlim). constructor; rewrite ?E1, ?E2, ?E3; try done. lia.
Qed.

Lemma inv_emit s q : queue_inv q -> queue_inv (emit s q).
Proof. intros Hi. apply (inv_less q); [done|by apply (same_view_ok q), Hi|apply less_emit]. Qed.

(** ** Importing *)

Lemma remember_sender_key t a h : sender t = Value a -> tx_hash WithSignature t = Value h -> is_u256 (t_nonce t) -> tx_key (remember_sender t) a h.
Proof.
  intros Hs Hh Hr. assert (Hrem : remember_sender t = forceSender a t) by (unfold remember_sender, with_sender; by rewrite Hs).
  rewrite Hrem. split; [by apply sender_forced|]. split; [|done]. unfold tx_hash in *. done.
Qed.

(** What an import answers. *)
Definition import_answer (q : TransactionQueue) (h a : Z) (t : TransactionBase) (ik : IfDropped) (ir : ImportResult) : Prop :=
  match ir with
  | AlreadyKnown => h ∈ m_known q
  | AlreadyInChain => h ∉ m_known q /\ h ∈ m_dropped q /\ ik = Ignore
  | OverbidGasPrice => check_WITH_LOCK q h ik = Success /\ overbid q a t
  | Success => check_WITH_LOCK q h ik = Success /\ ~ overbid q a t
  | _ => False
  end.

Lemma import_spec q t ik a h : queue_inv q -> hasZeroSignature t = false -> sender t = Value a -> tx_hash WithSignature t = Value h -> is_u256 (t_nonce t) ->
  exists ir q', import_transaction t ik q = (Value ir, q') /\ import_answer q h a t ik ir /\
    (ir <> Success -> q' = q) /\
    (ir = Success -> queue_ok q' /\ known_ok q' /\ exists q1, imported a (remember_sender t) q q1 /\ limited q q1 q').
Proof.
  intros Hi Hz Hs Hh Hr. pose proof (remember_sender_key t a h Hs Hh Hr) as Hk.
  assert (Hrem : m_gasPrice (remember_sender t) = m_gasPrice t /\ t_nonce (remember_sender t) = t_nonce t)
    by (unfold remember_sender, with_sender; rewrite Hs; done). destruct Hrem as [Hgp Hno].
  assert (Hover : overbid q a (remember_sender t) <-> overbid q a t) by (unfold overbid; by rewrite Hgp, Hno).
  destruct (inv_limits q Hi) as (Hl1 & Hl2 & _).
  unfold import_transaction, sha3_of. rewrite Hz. unfold sbind, slift, sget. rewrite Hh. cbn beta iota.
  unfold check_WITH_LOCK in *. destruct (decide (h ∈ m_known q)) as [Hin|Hnin].
  { exists AlreadyKnown, q. split_and!; try done. }
  assert (Hmanage : exists ir q', manageImport_WITH_LOCK h (remember_sender t) q = (Value ir, q') /\
    (ir = OverbidGasPrice /\ overbid q a t \/ ir = Success /\ ~ overbid q a t) /\ (ir <> Success -> q' = q) /\
    (ir = Success -> queue_ok q' /\ known_ok q' /\ exists q1, imported a (remember_sender t) q q1 /\ limited q q1 q')).
  { destruct (manageImport_spec q (remember_sender t) a h (inv_ok q Hi) (inv_known q Hi) Hk Hnin Hl1 Hl2) as [[Ho Hm]|(Ho & q1 & q' & Hm & Hq' & Hk' & Himp & Hlim)].
    - exists OverbidGasPrice, q. split_and!; try done. left. split; [done|by apply Hover].
    - exists Success, q'. split_and!; try done; [right; split; [done|by rewrite <- Hover]|]. intros _. split_and!; try done. by exists q1. }
  destruct Hmanage as (ir & q' & Hm & Hir & Hne & Heq).
  destruct (decide (h ∈ m_dropped q)) as [Hd|Hd]; [destruct ik|].
  - exists AlreadyInChain, q. split_and!; try done.
  - exists ir, q'. split_and!; try done. destruct Hir as [[-> ?]|[-> ?]]; cbn; unfold check_WITH_LOCK; rewrite decide_False, decide_True by done; done.
  - exists ir, q'. split_and!; try done. destruct Hir as [[-> ?]|[-> ?]]; cbn; unfold check_WITH_LOCK; rewrite !decide_False by done; done.
Qed.

Lemma import_keeps q t ik : queue_inv q -> tx_ok t -> is_null t = false -> m_vrs t <> None -> signed_ok t -> keeps (import_transaction t ik) q.
Proof.
  intros Hi Ht Hn Hv Hs. unfold keeps, posts. destruct (hasZeroSignature t) eqn:Hz.
  { unfold import_transaction. rewrite Hz. done. }
  destruct Hs as [?|[a Hs]]; [congruence|]. destruct (m_vrs t) as [v|] eqn:Ev; [|done]. destruct (tx_hash_signed t v Ht Hn Ev) as [h Hh].
  destruct (import_spec q t ik a h Hi Hz Hs Hh (ok_nonce t Ht)) as (ir & q' & -> & _ & Hne & Heq).
  destruct (decide (ir = Success)) as [->|Hns]; [|by rewrite (Hne Hns)]. destruct (Heq eq_refl) as (Hq' & Hk' & q1 & _ & Hlim). by eapply inv_limited.
Qed.

Lemma keeps_bind {A B} (m : SM TransactionQueue tx_error A) (k : A -> SM TransactionQueue tx_error B) q :
  keeps m q -> (forall a q', queue_inv q' -> keeps (k a) q') -> keeps (sbind m k) q.
Proof. intros Hm Hk. eapply posts_bind; [exact Hm|]. exact Hk. Qed.

Lemma keeps_ret {A} (a : A) q : queue_inv q -> keeps (sret a) q.
Proof. done. Qed.

Lemma keeps_lift {A} (r : result tx_error A) P q : queue_inv q -> returns r P -> keeps (slift r) q.
Proof. intros Hi Hr. unfold keeps, posts, slift. by destruct r. Qed.

Lemma import_bytes_keeps q d ik : queue_inv q -> wire_ok d -> keeps (import_bytes d ik) q.
Proof.
  intros Hi [Hb Hl]. unfold import_bytes, or_malformed, keeps, posts, sbind, slift. pose proof (parse_returns d CheckEverything Hb Hl) as Hp.
  destruct (parse_transaction d CheckEverything) as [t|e| |]; try done. cbn in Hp. destruct Hp as [Ht Hn _ [v Hv] _ Hs].
  pose proof (import_keeps q t ik Hi Ht Hn ltac:(congruence) ltac:(right; auto)) as Hk. unfold keeps, posts in Hk.
  by destruct (import_transaction t ik q) as [[] q'].
Qed.

(** ** The other calls *)

Lemma remove_keeps q h : queue_inv q -> keeps (remove_WITH_LOCK h) q.
Proof.
  intros Hi. unfold keeps, posts. destruct (m_currentByHash q !! h) as [it|] eqn:E; [|by rewrite remove_none].
  destruct (ok_byHash q (inv_ok q Hi) h it E) as (t & Hin & Hh). destruct (ok_current q (inv_ok q Hi) it t Hin) as (a & h' & (Hs & _) & _).
  destruct (remove_spec q a (t_nonce t) t (inv_ok q Hi) ltac:(by exists it)) as (h2 & q' & Hh2 & Hr & Hq' & Hw & _).
  assert (h2 = h) as -> by congruence. rewrite Hr. eapply inv_less; [done|done|apply Hw].
Qed.

Lemma drop_keeps q h : queue_inv q -> keeps (drop_transaction h) q.
Proof.
  intros Hi. unfold drop_transaction. eapply posts_bind; [by apply (posts_get (fun q0 q' => q0 = q' /\ queue_inv q'))|]. intros q0 q1 [-> Hi1].
  destruct (decide _); [|done]. eapply (posts_bind _ _ _ (fun _ => queue_inv)).
  - apply posts_mod. destruct Hi1 as [Hok Hk Hl Ht Hu]. constructor; try done. by destruct Hok; constructor.
  - intros _ q2 Hi2. eapply keeps_bind; [by apply remove_keeps|]. done.
Qed.

Lemma setFuture_keeps q h : queue_inv q -> keeps (setFuture h) q.
Proof.
  intros Hi. unfold keeps, posts. destruct (m_currentByHash q !! h) as [it|] eqn:E.
  2:{ unfold setFuture, sbind, sget. by rewrite E. }
  pose proof (inv_ok q Hi) as Hq. pose proof (inv_limits q Hi) as Hl. pose proof (inv_total q Hi) as Ht. assert (Hr : room q) by (unfold room; lia).
  destruct (ok_byHash q Hq h it E) as (t & Hin & Hh). destruct (ok_current q Hq it t Hin) as (a & h' & (Hs & _) & _).
  destruct (setFuture_spec q a (t_nonce t) t h Hq Hr ltac:(by exists it) Hh) as (q' & -> & Hd).
  pose proof (defers_same _ _ _ _ Hd) as [E1 _ E3 E4 E5]. constructor; rewrite ?E3, ?E4, ?E5; try done.
  - by eapply defers_ok.
  - intros a' n t' h2 Hin' Hh'. rewrite E1. eapply (inv_known q Hi); [|exact Hh'].
    assert (Hnd : NoDup (nonces_from q a (t_nonce t))) by apply sorted_NoDup, keys_from_sorted.
    destruct Hin' as [Hc|Hf]; [left; by apply (defers_current _ _ _ _ _ _ _ Hd Hq Hr) in Hc as [? _]|].
    apply (defers_future _ _ _ _ _ _ _ Hd Hq Hr Hnd) in Hf as [?|(_ & _ & ?)]; [by right|by left].
  - rewrite (defers_size _ _ _ _ Hd Hq Hr). lia.
  - apply Hi.
Qed.

Lemma makeCurrent_keeps q t : queue_inv q -> tx_ok t -> is_null t = false -> keeps (makeCurrent_WITH_LOCK t) q.
Proof.
  intros Hi Ht Hn. pose proof (inv_ok q Hi) as Hq. destruct (inv_limits q Hi) as (_ & Hl & _). destruct (safeSender_value t Ht Hn) as [a Hs].
  destruct (makeCurrent_spec q t a Hq Hs Hl) as (q1 & q2 & q' & Hm & Hq2 & Hfew & _ & _ & Hq' & Hrun). unfold keeps, posts. rewrite Hrun.
  pose proof (moves_ok _ _ _ _ Hm Hq) as Hq1. destruct (moves_size _ _ _ _ Hm Hq) as [Hs1 Hs2].
  assert (Hnd : NoDup (run q a (u256 (t_nonce t + 1)))) by apply run_of_NoDup, sorted_NoDup, keys_from_sorted.
  assert (Hi1 : queue_inv q1).
  { pose proof (moves_same _ _ _ _ Hm) as [E1 _ E3 E4 E5]. constructor; rewrite ?E3, ?E4, ?E5; try done; try apply Hi.
    - intros a' n t' h2 Hin Hh'. rewrite E1. eapply (inv_known q Hi); [|exact Hh'].
      destruct Hin as [Hc|Hf]; [|right; by apply (moves_future _ _ _ _ _ _ _ Hm) in Hf as [? _]].
      apply (moves_current _ _ _ _ _ _ _ Hm Hq Hnd) in Hc as [?|(_ & _ & ?)]; [by left|by right].
    - pose proof (inv_total q Hi). lia. }
  assert (Hi2 : queue_inv q2) by (eapply inv_less; [done|done|by apply fewer_less]). destruct Hq' as [->| ->]; [done|by apply inv_emit].
Qed.

Lemma dropGood_keeps q t : queue_inv q -> tx_ok t -> is_null t = false -> m_vrs t <> None -> keeps (dropGood t) q.
Proof.
  intros Hi Ht Hn Hv. destruct (m_vrs t) as [v|] eqn:E; [|done]. destruct (tx_hash_signed t v Ht Hn E) as [h Hh].
  unfold dropGood. apply keeps_bind; [by apply makeCurrent_keeps|]. intros _ q1 Hi1. unfold sha3_of. rewrite Hh.
  unfold keeps, posts, sbind at 1 2, slift at 1, sget at 1. cbn beta iota. destruct (decide (h ∈ m_known q1)); [|done].
  unfold sbind at 1, slift. pose proof (remove_keeps q1 h Hi1) as Hk. unfold keeps, posts in Hk.
  unfold sbind. by destruct (remove_WITH_LOCK h q1) as [[] q2].
Qed.

(** An empty queue. *)
Lemma empty_inv q : m_current q = [] -> m_currentByHash q = ∅ -> m_currentByAddressAndNonce q = ∅ -> m_future q = ∅ -> m_futureSize q = 0 ->
  0 <= m_limit q /\ 0 <= m_futureLimit q /\ m_limit q + m_futureLimit q < 2 ^ 32 ->
  Forall (fun w => wire_ok (u_transaction w)) (m_unverified q) /\ lenZ (m_unverified q) <= c_maxVerificationQueueSize -> queue_inv q.
Proof.
  intros Ec Eh En Ef Es Hl Hu. assert (Hnq : forall a n t, ~ in_queue q a n t).
  { intros a n t [(it & Hin & _)|Hf]; [rewrite Ec in Hin; by apply elem_of_nil in Hin|]. unfold in_future in Hf. by rewrite Ef in Hf. }
  assert (Hni : forall a n it, ~ indexed q a n it) by (intros a n it Hi; unfold indexed in Hi; by rewrite En in Hi).
  assert (Hnc : forall e, e ∉ m_current q) by (intros e He; rewrite Ec in He; by apply elem_of_nil in He).
  constructor; [constructor|..]; try done.
  - rewrite Ec. constructor.
  - intros it t Hin. by destruct (Hnc _ Hin).
  - intros it t Hin. by destruct (Hnc _ Hin).
  - intros h it. by rewrite Eh.
  - intros a n it Hi. by destruct (Hni _ _ _ Hi).
  - intros a. by rewrite En.
  - intros a n t Hf. destruct (Hnq a n t). by right.
  - intros a. by rewrite Ef.
  - intros a n t a' n' t' Hin. by destruct (Hnq _ _ _ Hin).
  - by rewrite Es, Ef.
  - by rewrite Es.
  - intros a n t h Hin. by destruct (Hnq _ _ _ Hin).
  - rewrite Ec, Es. change (lenZ []) with 0. lia.
Qed.

Lemma clear_inv q : queue_inv q -> queue_inv (clear_queue q).
Proof. intros [_ _ Hl _ Hu]. by apply empty_inv. Qed.

Lemma unverified_inv l q : queue_inv q -> Forall (fun w => wire_ok (u_transaction w)) l -> lenZ l <= c_maxVerificationQueueSize -> queue_inv (set_unverified l q).
Proof. intros [Hok Hk Hl Ht Hu] Hf Hlen. constructor; try done. by destruct Hok; constructor. Qed.

Lemma enqueue_loop_keeps fuel : forall i n d r node q, queue_inv q -> byte_list d -> lenZ d < 2 ^ 62 -> cache_fine d r -> n < 2 ^ 32 ->
  keeps (enqueue_loop fuel i n r node) q.
Proof.
  induction fuel as [|fuel IH]; intros i n d r node q Hi Hb Hl Hc Hn; [done|]. cbn [enqueue_loop].
  destruct (Z.ltb_spec i n) as [Hlt|]; [|done]. eapply posts_bind; [by apply (posts_get (fun q0 q' => q0 = q' /\ queue_inv q'))|]. intros q0 q1 [-> Hi1].
  destruct (Z.leb_spec c_maxVerificationQueueSize (lenZ (m_unverified q1))) as [|Hroom]; [done|].
  pose proof (returns_tx_rlp _ _ (subscript_fine d i r Hb ltac:(lia) ltac:(lia) Hc)) as Hs.
  destruct (tx_rlp (subscript i r)) as [[f r']|e| |]; try done. cbn in Hs. destruct Hs as [Hc' (Hfb & _ & Hfl)].
  eapply (posts_bind _ _ _ (fun x q' => x = (f, r') /\ queue_inv q')); [done|]. intros x q2 [-> Hi2]. cbn [fst snd].
  eapply (posts_bind _ _ _ (fun _ => queue_inv)); [|intros _ q3 Hi3; by apply (IH _ _ d)].
  apply posts_mod. apply unverified_inv; [done| |].
  - apply Forall_app. split; [apply Hi1|]. apply Forall_singleton. split; [done|]. cbn. lia.
  - unfold lenZ in *. rewrite length_app. cbn [length]. unfold c_maxVerificationQueueSize in *. lia.
Qed.

Lemma enqueue_keeps q d node : queue_inv q -> wire_ok d -> keeps (enqueue d node) q.
Proof.
  intros Hi [Hb Hl]. unfold enqueue. pose proof (itemCount_returns d Hb) as Hc.
  eapply (posts_bind _ _ _ (fun _ => queue_inv)); [unfold posts, slift; by destruct (itemCount d)|]. intros n q1 Hi1.
  apply (enqueue_loop_keeps _ _ _ d); [done|done|done|apply cache_fine_fresh|]. unfold u32. apply Z.mod_pos_bound. lia.
Qed.

Lemma verify_keeps q : queue_inv q -> call_ok q Verify -> keeps verify_next q.
Proof.
  intros Hi Hs. unfold verify_next. eapply posts_bind; [by apply (posts_get (fun q0 q' => q0 = q /\ q' = q))|]. intros q0 q1 [-> ->].
  destruct (m_unverified q) as [|w rest] eqn:E; [done|]. pose proof (inv_unverified q Hi) as [Hf Hl]. rewrite E in Hf, Hl.
  apply Forall_cons_1 in Hf as [[Hb Hwl] Hf].
  eapply (posts_bind _ _ _ (fun _ q' => queue_inv q')).
  { apply posts_mod. apply unverified_inv; [done|done|]. unfold lenZ in *. cbn [length] in Hl. lia. }
  intros _ q2 Hi2. unfold posts. pose proof (parse_returns _ CheckCheap Hb Hwl) as Hp. specialize (fun t => Hs w rest t E).
  unfold sbind at 1, slift at 1. destruct (parse_transaction (u_transaction w) CheckCheap) as [t|e| |]; try done.
  cbn in Hp. destruct Hp as [Ht Hn _ [v Hv] _ _]. destruct (tx_hash_signed t v Ht Hn Hv) as [h Hh].
  pose proof (import_keeps q2 t Ignore Hi2 Ht Hn ltac:(congruence) (Hs t eq_refl)) as Hk. unfold keeps, posts in Hk.
  unfold sbind at 1. destruct (import_transaction t Ignore q2) as [[ir|e| |] q3]; try done.
  unfold sha3_of, sbind, slift, smod. rewrite Hh. cbn. by apply inv_emit.
Qed.

Lemma call_keeps q c : queue_inv q -> call_ok q c -> keeps (run_call c) q.
Proof.
  intros Hi Hc. destruct c as [t ik|d ik|h|h|t| |d n|]; cbn [run_call].
  - destruct Hc as (Ht & Hn & Hv & Hs). apply keeps_bind; [by apply import_keeps|done].
  - apply keeps_bind; [by apply import_bytes_keeps|done].
  - by apply drop_keeps.
  - by apply setFuture_keeps.
  - destruct Hc as (Ht & Hn & Hv). by apply dropGood_keeps.
  - apply posts_mod. by apply clear_inv.
  - by apply enqueue_keeps.
  - by apply verify_keeps.
Qed.

(** ** What the queue offers *)

(** [m_current] without what is to be avoided. *)
Definition offered (avoid : gset Z) (t : TransactionBase) : bool :=
  match tx_hash WithSignature t with Value h => negb (bool_decide (h ∈ avoid)) | _ => false end.

Lemma top_loop limit avoid (l : list (Z * TransactionBase)) : forall ret, (forall e, e ∈ l -> exists h, tx_hash WithSignature e.2 = Value h) ->
  lenZ ret <= limit ->
  (fix top (l : list (Z * TransactionBase)) (ret : list TransactionBase) : result tx_error (list TransactionBase) :=
     match l with
     | [] => Value ret
     | e :: l =>
         if lenZ ret <? limit then
           (h <- tx_hash WithSignature e.2 ;; top l (if decide (h ∈ avoid) then ret else ret ++ [e.2]))%result
         else Value ret
     end) l ret = Value (ret ++ take (Z.to_nat (limit - lenZ ret)) (List.filter (offered avoid) l.*2)).
Proof.
  induction l as [|e l IH]; intros ret Hl Hr; cbn [fmap list_fmap List.filter]; [by rewrite take_nil, app_nil_r|].
  destruct (Z.ltb_spec (lenZ ret) limit) as [Hlt|Hge].
  - destruct (Hl e) as [h Hh]; [left|]. rewrite Hh. cbn [rbind]. unfold offered at 1. rewrite Hh.
    destruct (decide (h ∈ avoid)) as [Hin|Hnin].
    + rewrite bool_decide_eq_true_2 by done. cbn [negb]. apply IH; [intros e' He'; apply Hl; by right|done].
    + rewrite bool_decide_eq_false_2 by done. cbn [negb].
      assert (Hlen : lenZ (ret ++ [e.2]) = lenZ ret + 1) by (unfold lenZ; rewrite length_app; cbn [length]; lia).
      rewrite IH, Hlen; [|intros e' He'; apply Hl; by right|lia]. rewrite <- app_assoc. f_equal. f_equal.
      replace (Z.to_nat (limit - lenZ ret)) with (S (Z.to_nat (limit - (lenZ ret + 1)))) by lia. done.
  - replace (Z.to_nat (limit - lenZ ret)) with 0%nat by lia. cbn [take]. by rewrite app_nil_r.
Qed.

Lemma last_key_max {A} (m : gmap Z A) k : last_key m = Some k -> is_Some (m !! k) /\ forall n, is_Some (m !! n) -> n <= k.
Proof.
  unfold last_key. intros Hl. pose proof (ordered_keys_sorted m) as Hs. setoid_rewrite <- ordered_keys_elem.
  apply last_Some in Hl as [l El]. rewrite El in *. split; [apply elem_of_app; right; left|].
  intros n [Hn|Hn%list_elem_of_singleton]%elem_of_app; [|lia]. clear El. induction l as [|x l IH]; [by apply elem_of_nil in Hn|].
  apply StronglySorted_inv in Hs as [Hs Hx]. apply elem_of_cons in Hn as [->|Hn]; [|by apply IH].
  rewrite Forall_forall in Hx. specialize (Hx k ltac:(apply elem_of_app; right; left)). lia.
Qed.

(** The last key of a sender's map, if it has one. *)
Lemma map_last {A} (m : gmap Z (gmap Z A)) a : (forall a, m !! a <> Some ∅) ->
  match m !! a with
  | Some fm => exists k x, last_key fm = Some k /\ m !! a ≫= lookup k = Some x /\ forall n y, m !! a ≫= lookup n = Some y -> n <= k
  | None => forall n y, m !! a ≫= lookup n = Some y -> False
  end.
Proof.
  intros Hne. destruct (m !! a) as [fm|] eqn:E; [|done]. destruct (last_key_some fm) as (k & x & Hk & Hx); [by intros ->; apply (Hne a)|].
  exists k, x. split_and!; [done|done|]. intros n y Hy. apply (last_key_max fm k Hk). by exists y.
Qed.

Lemma current_last q a : queue_ok q ->
  match m_currentByAddressAndNonce q !! a with
  | Some fm => exists k t, last_key fm = Some k /\ in_current q a k t /\ forall n t, in_current q a n t -> n <= k
  | None => forall n t, ~ in_current q a n t
  end.
Proof.
  intros Hq. assert (Hci : forall n t, in_current q a n t -> exists it, indexed q a n it).
  { intros n t Hx. destruct (in_current_indexed q a n t Hq Hx) as (it & h & _ & _ & _ & _ & Hix & _). by exists it. }
  pose proof (map_last (m_currentByAddressAndNonce q) a (ok_nonces q Hq)) as Hl. destruct (m_currentByAddressAndNonce q !! a) as [fm|] eqn:E.
  - destruct Hl as (k & it & Hk & Hx & Hm). destruct (indexed_current q a k it Hq) as [t Ht]; [unfold indexed; by rewrite E|]. exists k, t. split_and!; try done.
    intros n t' Ht'. destruct (Hci n t' Ht') as [it' Hy]. unfold indexed in Hy. rewrite E in Hy. by eapply Hm.
  - intros n t Ht. destruct (Hci n t Ht) as [it Hy]. unfold indexed in Hy. by rewrite E in Hy.
Qed.

Lemma future_last q a : queue_ok q ->
  match m_future q !! a with
  | Some fm => exists k t, last_key fm = Some k /\ in_future q a k t /\ forall n t, in_future q a n t -> n <= k
  | None => forall n t, ~ in_future q a n t
  end.
Proof. intros Hq. exact (map_last (m_future q) a (ok_futures q Hq)). Qed.

(** ** Signatures of nobody *)

Lemma nobody_emplace q t e a n : m_current q <> [] -> (forall it t', (it, t') ∈ m_current q -> sender t' = Error e) ->
  sender t = Value a -> first_nonce q a = Some n -> emplace_current t q = (Error e, q).
Proof.
  intros Hne Hall Hs Hn. unfold emplace_current, sbind, sget, slift.
  rewrite (emplace_throws (fun a b : Z * TransactionBase => PriorityCompare q a.2 b.2) (next_handle q, t) (m_current q) e Hne); [done|].
  intros [it t'] Hin. specialize (Hall it t' Hin). cbn [snd]. unfold PriorityCompare, height. rewrite Hall, Hs. cbn. rewrite Hn. done.
Qed.

(** ** Properties *)

(** The states of a queue that was made with two limits. *)
Inductive reachable (limit futureLimit : Z) : TransactionQueue -> Prop :=
| reachable_new : reachable limit futureLimit (new_TransactionQueue limit futureLimit)
| reachable_call q c : reachable limit futureLimit q -> call_ok q c -> reachable limit futureLimit (snd (run_call c q)).

Lemma reachable_inv l f q : 0 <= l -> 0 <= f -> l + f < 2 ^ 32 -> reachable l f q -> queue_inv q.
Proof.
  intros Hl Hf Hs. induction 1 as [|q c _ IH Hc].
  - by apply empty_inv.
  - pose proof (call_keeps q c IH Hc) as Hk. unfold keeps, posts in Hk. by destruct (run_call c q) as [[] q'].
Qed.

(** C5. The queue stays consistent.  After any calls, as long as the signatures
    that are imported are somebody's: both indices of [m_current] lead to its
    elements and to nothing else, everything in the queue is known, no two
    transactions of the queue have the same sender and nonce or the same hash,
    [m_futureSize] is what waits, and the limits bound the sum of both parts. *)
Theorem queue_consistent l f q : 0 <= l -> 0 <= f -> l + f < 2 ^ 32 -> reachable l f q ->
  queue_inv q /\
  (forall a n t t', in_queue q a n t -> in_queue q a n t' -> t = t') /\
  (forall h it, m_currentByHash q !! h = Some it <-> exists t, (it, t) ∈ m_current q /\ tx_hash WithSignature t = Value h).
Proof.
  intros Hl Hf Hs Hr. pose proof (reachable_inv l f q Hl Hf Hs Hr) as Hi. pose proof (inv_ok q Hi) as Hq. split; [done|]. split.
  - intros a n t t' [Hc|Hw] [Hc'|Hw'].
    + by eapply in_current_inj.
    + by destruct (not_both q a n t t' Hq Hc Hw').
    + by destruct (not_both q a n t' t Hq Hc' Hw).
    + unfold in_future in *. congruence.
  - intros h it. split; [apply (ok_byHash q Hq)|]. intros (t & Hin & Hh). destruct (ok_current q Hq it t Hin) as (a & h' & (_ & Hh' & _) & Hb & _).
    assert (h' = h) as -> by congruence. done.
Qed.

(** C21. Calling the queue is safe.  In each of these states each call returns
    or throws: no iterator it goes through dangles, [begin] and [rbegin] are
    asked of containers that are not empty, the assertion holds, and the loops
    over the limits end. *)
Theorem queue_calls_safe l f q c : 0 <= l -> 0 <= f -> l + f < 2 ^ 32 -> reachable l f q -> call_ok q c ->
  match fst (run_call c q) with Value _ | Error _ => True | _ => False end.
Proof.
  intros Hl Hf Hs Hr Hc. pose proof (call_keeps q c (reachable_inv l f q Hl Hf Hs Hr) Hc) as Hk. unfold keeps, posts in Hk.
  by destruct (run_call c q) as [[] q'].
Qed.

(** C34. What an import answers.  A zero signature, a known hash, a dropped hash
    and a better transaction with the same sender and nonce are each reported,
    in this order, and leave the queue as it was; everything else is a success. *)
Theorem import_outcome q t ik a h :
  queue_inv q -> tx_ok t -> sender t = Value a -> tx_hash WithSignature t = Value h ->
  exists ir q', import_transaction t ik q = (Value ir, q') /\ (ir <> Success -> q' = q) /\
    if hasZeroSignature t then ir = ZeroSignature else import_answer q h a t ik ir.
Proof.
  intros Hi Ht Hs Hh. destruct (hasZeroSignature t) eqn:Hz.
  { exists ZeroSignature, q. unfold import_transaction. by rewrite Hz. }
  destruct (import_spec q t ik a h Hi Hz Hs Hh (ok_nonce t Ht)) as (ir & q' & E & Ha & Hne & _). by exists ir, q'.
Qed.

(** C10. What an import does.  When it succeeds, what is current is the
    transaction in the place of its sender and nonce, what was current
    elsewhere, and the run of waiting transactions with the nonces that follow;
    what waits is what did, less that place and that run.  Limits take
    transactions away, never more than that, and only when they are reached. *)
Theorem import_contents q q' t ik a :
  queue_inv q -> tx_ok t -> sender t = Value a -> import_transaction t ik q = (Value Success, q') ->
  exists q1, imported a (remember_sender t) q q1 /\ limited q q1 q'.
Proof.
  intros Hi Ht Hs Hr. destruct (hasZeroSignature t) eqn:Hz.
  { unfold import_transaction in Hr. by rewrite Hz in Hr. }
  destruct (tx_hash WithSignature t) as [h|e| |] eqn:Hh.
  2-4: unfold import_transaction, sha3_of, sbind, slift in Hr; by rewrite Hz, Hh in Hr.
  destruct (import_spec q t ik a h Hi Hz Hs Hh (ok_nonce t Ht)) as (ir & q2 & E & _ & _ & Heq). rewrite E in Hr. injection Hr as -> ->.
  by destruct (Heq eq_refl) as (_ & _ & ?).
Qed.

(** C35. Waiting ends.  When a transaction is mined, every transaction of its
    sender that waits under a nonce from the next one on without a gap becomes
    current, whatever else the queue holds (as long as the hash of the mined
    transaction is not the hash of another). *)
Theorem mined_makes_current q t a v k :
  queue_inv q -> tx_ok t -> is_null t = false -> m_vrs t = Some v -> sender t = Value a -> t_nonce t < k < 2 ^ 256 ->
  (forall m, t_nonce t < m <= k -> exists t', in_future q a m t') ->
  (forall n t', in_queue q a n t' -> tx_hash WithSignature t' = tx_hash WithSignature t -> n = t_nonce t) ->
  exists q' tk, dropGood t q = (Value tt, q') /\ in_future q a k tk /\ in_current q' a k tk.
Proof.
  intros Hi Ht Hn Hv Hs Hk Hrun Hcol. pose proof (inv_ok q Hi) as Hq. destruct (inv_limits q Hi) as (_ & Hl & _).
  destruct (tx_hash_signed t v Ht Hn Hv) as [h Hh]. destruct (Hrun k ltac:(lia)) as [tk Hfk]. pose proof (ok_nonce t Ht) as Hno.
  assert (Hu : u256 (t_nonce t + 1) = t_nonce t + 1) by (unfold u256; apply Z.mod_small; lia).
  assert (Hin : k ∈ run q a (u256 (t_nonce t + 1))) by (rewrite Hu; apply run_elem; [done|lia|]; split; [lia|]; intros m Hm; apply Hrun; lia).
  destruct (makeCurrent_spec q t a Hq ltac:(unfold safeSender; by rewrite Hs) Hl) as (q1 & q2 & q3 & Hm & Hq2 & Hfew & _ & _ & Hq3 & Hmake).
  assert (Hnd : NoDup (run q a (u256 (t_nonce t + 1)))) by apply run_of_NoDup, sorted_NoDup, keys_from_sorted.
  assert (Hc1 : in_current q1 a k tk) by (apply (moves_current _ _ _ _ _ _ _ Hm Hq Hnd); by right).
  assert (Hv3 : same_view q2 q3) by (destruct Hq3 as [->| ->]; done).
  assert (Hc3 : in_current q3 a k tk) by (apply (same_view_current q2 q3); [done|]; by apply (fewer_current _ _ Hfew)).
  pose proof (same_view_ok _ _ Hv3 Hq2) as Hok3.
  unfold dropGood, sha3_of. unfold sbind at 1. rewrite Hmake. unfold sbind at 1, slift at 1. rewrite Hh. cbn beta iota.
  unfold sbind at 1, sget at 1. cbn beta iota. destruct (decide (h ∈ m_known q3)); [|exists q3, tk; split_and!; done].
  unfold sbind at 1, slift at 1. cbn beta iota. destruct (m_currentByHash q3 !! h) as [it|] eqn:E.
  2:{ exists q3, tk. unfold sbind. rewrite remove_none by done. by split_and!. }
  destruct (ok_byHash q3 Hok3 h it E) as (t2 & Hin2 & Hh2). destruct (ok_current q3 Hok3 it t2 Hin2) as (a2 & h2 & (Hs2 & _) & _).
  destruct (remove_spec q3 a2 (t_nonce t2) t2 Hok3 ltac:(by exists it)) as (h3 & q4 & Hh3 & Hr & Hq4 & Hw & _).
  assert (h3 = h) as -> by congruence. exists q4, tk. unfold sbind. rewrite Hr. split_and!; [done|done|].
  apply (without_current _ _ _ _ _ Hw). split; [done|]. intros [-> Ek]. assert (t2 = tk) as -> by (eapply (in_current_inj q3); [done| |done]; exists it; done).
  assert (k = t_nonce t) by (apply (Hcol k tk); [by right|congruence]). lia.
Qed.

(** What is set back waits.  [setFuture] moves the transaction and those of
    its sender with later nonces from what is current to what waits, and
    nothing else. *)
Theorem set_future_contents q a n t h :
  queue_inv q -> in_current q a n t -> tx_hash WithSignature t = Value h ->
  exists q', setFuture h q = (Value tt, q') /\
    (forall a' n' t', in_current q' a' n' t' <-> in_current q a' n' t' /\ ~ (a' = a /\ n <= n')) /\
    (forall a' n' t', in_future q' a' n' t' <-> in_future q a' n' t' \/ (a' = a /\ n <= n' /\ in_current q a' n' t')).
Proof.
  intros Hi Hc Hh. pose proof (inv_ok q Hi) as Hq. assert (Hr : room q) by (pose proof (inv_total q Hi); pose proof (inv_limits q Hi); unfold room; lia).
  destruct (setFuture_spec q a n t h Hq Hr Hc Hh) as (q' & Hrun & Hd). exists q'. split; [done|].
  assert (Hnd : NoDup (nonces_from q a n)) by apply sorted_NoDup, keys_from_sorted. split; intros a' n' t'.
  - rewrite (defers_current _ _ _ _ a' n' t' Hd Hq Hr), nonces_from_elem by done. split; intros [Hx Hne]; (split; [done|]); intros [-> Hle]; apply Hne.
    + split; [done|]. split; [done|by exists t'].
    + by destruct Hle.
  - rewrite (defers_future _ _ _ _ a' n' t' Hd Hq Hr Hnd), nonces_from_elem by done. split.
    + intros [?|(-> & [? _] & ?)]; auto.
    + intros [?|(-> & ? & Hx)]; [auto|]. right. split_and!; try done. by exists t'.
Qed.

(** What a block is offered.  [topTransactions] returns, in the order of
    [m_current], the first [limit] transactions whose hash is not to be
    avoided. *)
Theorem top_transactions_reference q limit avoid : queue_inv q -> 0 <= limit ->
  topTransactions limit avoid q = Value (take (Z.to_nat limit) (List.filter (offered avoid) (m_current q).*2)).
Proof.
  intros Hi Hl. unfold topTransactions. rewrite top_loop.
  - change (lenZ []) with 0. by rewrite Z.sub_0_r.
  - intros [it t] Hin. destruct (ok_current q (inv_ok q Hi) it t Hin) as (a & h & (_ & Hh & _) & _). by exists h.
  - exact Hl.
Qed.

(** The next nonce of an account.  [maxNonce] is one more than the greatest
    nonce of the account's transactions in the queue, and zero when there are
    none. *)
Theorem max_nonce_spec q a : queue_inv q -> (forall n t, in_queue q a n t -> n < 2 ^ 256 - 1) ->
  (forall n t, in_queue q a n t -> n < maxNonce q a) /\ (maxNonce q a = 0 \/ exists t, in_queue q a (maxNonce q a - 1) t).
Proof.
  intros Hi Hmax. pose proof (inv_ok q Hi) as Hq. unfold maxNonce, maxNonce_WITH_LOCK.
  pose proof (current_last q a Hq) as Hc. pose proof (future_last q a Hq) as Hf.
  assert (Hnn : forall n t, in_queue q a n t -> 0 <= n).
  { intros n t [Hx|Hx]; [destruct (in_current_indexed q a n t Hq Hx) as (it & h & _ & (_ & _ & ?) & <- & _)|destruct (ok_future q Hq _ _ _ Hx) as (<- & h & _ & _ & ?)]; lia. }
  assert (Hu : forall n t, in_queue q a n t -> u256 (n + 1) = n + 1).
  { intros n t Hx. pose proof (Hmax n t Hx). pose proof (Hnn n t Hx). unfold u256. apply Z.mod_small. lia. }
  destruct (m_currentByAddressAndNonce q !! a) as [mc|].
  - destruct Hc as (kc & tc & -> & Hkc & Hcm). rewrite (Hu kc tc) by (by left). destruct (m_future q !! a) as [mf|].
    + destruct Hf as (kf & tf & -> & Hkf & Hfm). rewrite (Hu kf tf) by (by right). split.
      * intros n t [Hx%Hcm|Hx%Hfm]; lia.
      * right. destruct (Z.max_spec (kc + 1) (kf + 1)) as [[_ ->]|[_ ->]]; rewrite Z.add_simpl_r; [exists tf; by right|exists tc; by left].
    + split; [|right; rewrite Z.add_simpl_r; exists tc; by left]. intros n t [Hx%Hcm|Hx%Hf]; [lia|done].
  - destruct (m_future q !! a) as [mf|].
    + destruct Hf as (kf & tf & -> & Hkf & Hfm). rewrite (Hu kf tf) by (by right). pose proof (Hnn kf tf ltac:(by right)). rewrite Z.max_r by lia. split.
      * intros n t [Hx%Hc|Hx%Hfm]; [done|lia].
      * right. rewrite Z.add_simpl_r. exists tf. by right.
    + split; [|by left]. intros n t [Hx%Hc|Hx%Hf]; done.
Qed.

(** C36. A signature of nobody stops the queue.  [safeSender] gives such a
    transaction the zero address, so that it is imported into an empty queue;
    but the comparison asks for [sender], which throws.  As long as it is there,
    every import of a new account answers [Malformed], and leaves an iterator
    that was never set under the account's nonce; the next import of the same
    transaction goes through it. *)
Theorem nobody_stops_the_queue q t a h e :
  m_current q <> [] -> (forall it t', (it, t') ∈ m_current q -> sender t' = Error e /\ 0 < it) ->
  hasZeroSignature t = false -> sender t = Value a -> tx_hash WithSignature t = Value h -> h ∉ m_known q -> m_currentByHash q !! h = None ->
  m_currentByAddressAndNonce q !! a = None -> m_future q !! a = None ->
  exists q', import_transaction t Retry q = (Value Malformed, q') /\ import_transaction t Retry q' = (OutOfBounds, q').
Proof.
  intros Hne Hall Hz Hs Hh Hk Hbh Hbn Hf.
  assert (Hrem : remember_sender t = forceSender a t) by (unfold remember_sender, with_sender; by rewrite Hs).
  set (t' := forceSender a t) in *. assert (Hs' : sender t' = Value a) by (by apply sender_forced).
  assert (Hh' : tx_hash WithSignature t' = Value h) by exact Hh.
  assert (Hsafe : safeSender t' = Value a) by (unfold safeSender; by rewrite Hs').
  set (q' := set_byNonce (<[a := <[t_nonce t := 0]> ∅]> (m_currentByAddressAndNonce q)) q). exists q'.
  assert (Hfirst : exists n, first_nonce q' a = Some n).
  { unfold first_nonce, q'. cbn. rewrite lookup_insert_eq. apply first_key_some, insert_non_empty. }
  destruct Hfirst as [n Hn].
  pose proof (nobody_emplace q' t' e a n Hne (fun it x Hin => proj1 (Hall it x Hin)) Hs' Hn) as Hemp.
  assert (Hcheck : forall q0, m_known q0 = m_known q -> check_WITH_LOCK q0 h Retry = Success).
  { intros q0 E. unfold check_WITH_LOCK. rewrite E, decide_False by done. by destruct (decide _). }
  assert (Himp : forall q0, m_known q0 = m_known q -> import_transaction t Retry q0 = manageImport_WITH_LOCK h t' q0).
  { intros q0 E. unfold import_transaction, sha3_of, sbind, slift, sget. by rewrite Hz, Hh, Hcheck, Hrem. }
  assert (Hbody : forall q0, manageImport_WITH_LOCK h t' q0 = or_malformed (free <- replace_current t' a ;;
    if negb free then sret OverbidGasPrice else free <- replace_future t' a ;; if negb free then sret OverbidGasPrice
    else insertCurrent_WITH_LOCK h t' ;; q <- sget ;; limit_current (length (m_current q)) ;; smod (emit onReady) ;; sret Success) q0).
  { intros q0. unfold manageImport_WITH_LOCK, or_malformed, sha3_of, from_of. unfold sbind at 1. unfold slift at 1. rewrite Hh'. cbn beta iota.
    unfold sbind at 1. rewrite Z.eqb_refl. unfold sret at 1. cbn beta iota. unfold sbind at 1, slift at 1. rewrite Hsafe. done. }
  rewrite !Himp, !Hbody by done. split.
  - unfold or_malformed, replace_current, replace_future, insertCurrent_WITH_LOCK, insert_handle, from_of, sbind, sget, slift, smod, sret.
    rewrite Hbn. cbn [negb]. cbn beta iota. rewrite Hf. cbn [negb]. cbn beta iota. rewrite Hbh. cbn beta iota. rewrite Hsafe. cbn beta iota. rewrite Hbn. cbn [default from_option id].
    rewrite lookup_empty. cbn beta iota. change (t_nonce t') with (t_nonce t). fold q'. by rewrite Hemp.
  - assert (Hd : deref_it 0 q' = None).
    { destruct (deref_it 0 q') as [x|] eqn:E; [|done]. apply deref_it_lookup in E. destruct (Hall 0 x E). lia. }
    unfold or_malformed, replace_current, sbind, sget, slift. assert (Hm : m_currentByAddressAndNonce q' !! a = Some (<[t_nonce t := 0]> ∅)) by apply lookup_insert_eq.
    rewrite Hm. change (t_nonce t') with (t_nonce t). rewrite lookup_insert_eq. by rewrite Hd.
Qed.
End Theorems.

(** ** The theorems at work *)

(** What the queue is after some calls. *)
Definition after (cs : list call) (q : TransactionQueue) : TransactionQueue := foldl (fun q c => snd (run_call c q)) q cs.
Definition imports (l : list (Z * Z * Z)) : list call := map (fun x => Import (test_transfer x.1.1 x.1.2 x.2) Ignore) l.
Definition test_from (r : Z) : Z := right160 (sha3 [r mod 256; 1]).
Definition test_hash (t : TransactionBase) : Z := match tx_hash WithSignature t with Value h => h | _ => 0 end.

Lemma after_reachable l f cs : forall q, reachable l f q -> (forall q c, c ∈ cs -> call_ok q c) -> reachable l f (after cs q).
Proof.
  induction cs as [|c cs IH]; intros q Hr Hc; [done|]. cbn. apply IH; [|intros q' c' Hin; apply Hc; by right].
  apply reachable_call; [done|apply Hc; left].
Qed.

(** The imports of these transactions are calls as they should be. *)
Definition transfer_okb (x : Z * Z * Z) : bool :=
  (0 <=? x.1.1) && (x.1.1 <? 2 ^ 256) && (0 <=? x.1.2) && (x.1.2 <? 2 ^ 256) && (0 <=? x.2) && (x.2 <? 2 ^ 256)
  && match sender (test_transfer x.1.1 x.1.2 x.2) with Value _ => true | _ => false end.

Lemma imports_ok l q c : forallb transfer_okb l = true -> c ∈ imports l -> call_ok q c.
Proof.
  intros Hl Hin. apply list_elem_of_fmap in Hin as (x & -> & Hx). rewrite forallb_forall in Hl. apply list_elem_of_In in Hx. specialize (Hl x Hx).
  unfold transfer_okb in Hl. rewrite !andb_true_iff in Hl. destruct Hl as [Hr Hs]. cbn [call_ok].
  split; [apply test_transfer_ok; lia|]. split; [done|]. split; [done|]. right. destruct (sender _); try done. by eexists.
Qed.

(** Two accounts, the first with three transactions, the last two of which wait. *)
Definition test_calls : list call := imports [(6, 10, 200); (7, 10, 200); (5, 10, 200); (0, 5, 201)] ++ [SetFuture (test_hash (test_transfer 6 10 200))].
Definition test_queue : TransactionQueue := after test_calls (new_TransactionQueue 8 8).

Lemma test_reachable : reachable 8 8 test_queue.
Proof.
  apply after_reachable; [constructor|]. intros q c [Hin|Hin]%elem_of_app; [by apply (imports_ok _ q c) in Hin|].
  apply list_elem_of_singleton in Hin as ->. done.
Qed.

Lemma test_inv : queue_inv test_queue.
Proof. apply (reachable_inv 8 8); [done..|apply test_reachable]. Qed.

Example queue_consistent_witness : queue_inv test_queue /\
  (forall a n t t', in_queue test_queue a n t -> in_queue test_queue a n t' -> t = t') /\
  (forall h it, m_currentByHash test_queue !! h = Some it <-> exists t, (it, t) ∈ m_current test_queue /\ tx_hash WithSignature t = Value h).
Proof. apply (queue_consistent 8 8); [done..|apply test_reachable]. Defined.

Example queue_calls_safe_witness : match fst (run_call (DropGood (test_transfer 5 10 200)) test_queue) with Value _ | Error _ => True | _ => False end.
Proof. apply (queue_calls_safe 8 8); [done..|apply test_reachable|]. split; [by apply test_transfer_ok|done]. Defined.

(** A better transaction for a nonce that waits: refused when it is cheaper. *)
Example import_outcome_witness : exists ir q', import_transaction (test_transfer 6 9 200) Ignore test_queue = (Value ir, q') /\
  (ir <> Success -> q' = test_queue) /\
  if hasZeroSignature (test_transfer 6 9 200) then ir = ZeroSignature else import_answer test_queue (test_hash (test_transfer 6 9 200)) (test_from 200) (test_transfer 6 9 200) Ignore ir.
Proof.
  apply (import_outcome test_queue (test_transfer 6 9 200) Ignore (test_from 200) (test_hash (test_transfer 6 9 200)));
    [apply test_inv|by apply test_transfer_ok|by vm_compute|by vm_compute].
Defined.

Lemma surjective_run {A B} (p : A * B) a : p.1 = a -> p = (a, p.2).
Proof. destruct p. by intros <-. Qed.

#[local] Notation test_import := (import_transaction (test_transfer 6 11 200) Ignore test_queue).

Lemma test_import_success : fst test_import = Value Success.
Proof. vm_compute. reflexivity. Qed.
Lemma test_import_run : import_transaction (test_transfer 6 11 200) Ignore test_queue = (Value Success, snd test_import).
Proof. exact (surjective_run test_import _ test_import_success). Qed.

Example import_contents_witness : exists q1, imported (test_from 200) (remember_sender (test_transfer 6 11 200)) test_queue q1 /\ limited test_queue q1 (snd test_import).
Proof.
  apply (import_contents test_queue (snd test_import) (test_transfer 6 11 200) Ignore); [apply test_inv|by apply test_transfer_ok|by vm_compute|exact test_import_run].
Defined.

(** What is in the test queue. *)
Lemma test_queue_waits n : n = 6 \/ n = 7 -> exists t, in_future test_queue (test_from 200) n t.
Proof. intros [-> | ->]; eexists; by vm_compute. Qed.

Lemma test_queue_current : in_current test_queue (test_from 200) 5 (forceSender (test_from 200) (test_transfer 5 10 200)).
Proof. exists 3. split; [|by vm_compute]. apply (deref_it_lookup test_queue). vm_compute. reflexivity. Qed.

(** The transaction with the nonce 5 is mined, and the last one is no longer
    waiting. *)
Example mined_makes_current_witness : exists q' tk, dropGood (test_transfer 5 10 200) test_queue = (Value tt, q') /\
  in_future test_queue (test_from 200) 7 tk /\ in_current q' (test_from 200) 7 tk.
Proof.
  apply (mined_makes_current test_queue (test_transfer 5 10 200) (test_from 200) (mkSignatureStruct 200 7 0) 7);
    [apply test_inv|by apply test_transfer_ok|done|done|by vm_compute|done| |].
  - intros m Hm. apply test_queue_waits. change (t_nonce (test_transfer 5 10 200)) with 5 in Hm. lia.
  - intros n t Hin Hh. eapply (ok_hashes _ (inv_ok _ test_inv)); [exact Hin|left; exact test_queue_current|]. rewrite Hh. vm_compute. reflexivity.
Defined.

Example set_future_contents_witness : exists q', setFuture (test_hash (test_transfer 5 10 200)) test_queue = (Value tt, q') /\
  (forall a' n' t', in_current q' a' n' t' <-> in_current test_queue a' n' t' /\ ~ (a' = test_from 200 /\ 5 <= n')) /\
  (forall a' n' t', in_future q' a' n' t' <-> in_future test_queue a' n' t' \/ (a' = test_from 200 /\ 5 <= n' /\ in_current test_queue a' n' t')).
Proof. apply (set_future_contents test_queue (test_from 200) 5 _ _ test_inv test_queue_current). vm_compute. reflexivity. Defined.

Example top_transactions_reference_witness : topTransactions 1 ∅ test_queue = Value (take 1 (List.filter (offered ∅) (m_current test_queue).*2)).
Proof. by apply (top_transactions_reference test_queue 1 ∅ test_inv). Defined.

Lemma test_nonces n t : in_queue test_queue (test_from 200) n t -> n < 2 ^ 256 - 1.
Proof.
  assert (Hc : Forall (fun e => t_nonce e.2 < 100) (m_current test_queue)) by (vm_compute; repeat constructor).
  assert (Hf : map_Forall (fun _ fm => map_Forall (fun n (_ : TransactionBase) => n < 100) fm) (m_future test_queue)) by (apply (bool_decide_unpack _); vm_compute; exact I).
  intros [(it & Hin & _ & <-)|Hw].
  - rewrite Forall_forall in Hc. specialize (Hc (it, t) Hin). cbn [snd] in Hc. lia.
  - unfold in_future in Hw. destruct (m_future test_queue !! test_from 200) as [fm|] eqn:E; [|done]. cbn in Hw.
    specialize (Hf _ _ E _ _ Hw). cbv beta in Hf. lia.
Qed.

Example max_nonce_spec_witness : (forall n t, in_queue test_queue (test_from 200) n t -> n < maxNonce test_queue (test_from 200)) /\
  (maxNonce test_queue (test_from 200) = 0 \/ exists t, in_queue test_queue (test_from 200) (maxNonce test_queue (test_from 200) - 1) t).
Proof. exact (max_nonce_spec test_queue (test_from 200) test_inv test_nonces). Defined.

Lemma forallb_elem {A} (f : A -> bool) l x : forallb f l = true -> x ∈ l -> f x = true.
Proof. rewrite forallb_forall, list_elem_of_In. auto. Qed.

(** A transaction that nobody signed is in the queue. *)
Definition nobody_queue : TransactionQueue := after (imports [(3, 10, 5)]) (new_TransactionQueue 8 8).

Lemma nobody_queue_current it t : (it, t) ∈ m_current nobody_queue -> sender t = Error InvalidSignature /\ 0 < it.
Proof.
  assert (Hc : forallb (fun e => match sender e.2 with Error InvalidSignature => 0 <? e.1 | _ => false end) (m_current nobody_queue) = true) by (vm_compute; reflexivity).
  intros Hin. pose proof (forallb_elem _ _ _ Hc Hin) as Hb. clear Hc Hin. cbn [fst snd] in Hb.
  destruct (sender t) as [a|[]| |]; try done. split; [done|lia].
Qed.

Example nobody_stops_the_queue_witness : exists q', import_transaction (test_transfer 6 10 200) Retry nobody_queue = (Value Malformed, q') /\
  import_transaction (test_transfer 6 10 200) Retry q' = (OutOfBounds, q').
Proof.
  apply (nobody_stops_the_queue nobody_queue (test_transfer 6 10 200) (test_from 200) (test_hash (test_transfer 6 10 200)) InvalidSignature);
    [vm_compute; done|exact nobody_queue_current|done|vm_compute; reflexivity|vm_compute; reflexivity| |vm_compute; reflexivity..].
  apply (bool_decide_unpack _). vm_compute. exact I.
Defined.

(** The comparison changes under the elements: the account [201] is compared with
    the first transaction of [200], then that account gets an earlier one.  What
    is offered first is no longer the least. *)
Definition order_calls : list call := imports [(5, 10, 200); (0, 5, 201); (4, 1, 200)].

(** The order is not kept.  After three imports a transaction is less, by
    the comparison of the queue, than one that comes before it. *)
Theorem queue_order_lost : exists q t t' l1 l2 l3, reachable 8 8 q /\ (m_current q).*2 = l1 ++ t :: l2 ++ t' :: l3 /\ PriorityCompare q t' t = Value true.
Proof.
  exists (after order_calls (new_TransactionQueue 8 8)), (forceSender (test_from 200) (test_transfer 5 10 200)), (forceSender (test_from 201) (test_transfer 0 5 201)),
    [forceSender (test_from 200) (test_transfer 4 1 200)], [], [].
  split; [|split; vm_compute; reflexivity]. apply after_reachable; [constructor|]. intros q c Hin. by apply (imports_ok _ q c) in Hin.
Qed.
