(* ===== verification/BlockQueueTheorems.v ===== *)
(** * What the queue of blocks promises

    The theorems about [BlockQueue], with their witnesses on concrete blocks. *)
From stdpp Require Import base list gmap fin_sets.
From Stdlib Require Import ZArith Lia.
From S2P Require Import Prelude Words Result Rlp RlpSpec RlpRead RlpTheorems RlpInt Account Schedule Transaction SealEngine BlockHeader Ethash.
From S2P Require Import TestDB TxCodec HeaderCodec EthashTheorems BlockChain BlockQueue BlockQueueSpec.
Open Scope Z_scope.

Section Bad.
  Context `{Sha3}.
  Notation waiting := (Z * (Z * list Z))%type.

(** ** What is bad spreads *)

(** What marking blocks as bad leaves as it was. *)
Record marked (q q' : BlockQueue) : Prop := {
  mk_draining : m_drainingSet q' = m_drainingSet q;
  mk_future : m_future q' = m_future q;
  mk_bad : m_knownBad q ⊆ m_knownBad q';
  mk_ready : m_readySet q' ⊆ m_readySet q;
  mk_unknown : forall x, x ∈ m_map (m_unknown q') -> x ∈ m_map (m_unknown q)
}.

Record queues_same (q q' : BlockQueue) : Prop := {
  qs_verified : m_verified q' = m_verified q;
  qs_verifying : m_verifying q' = m_verifying q;
  qs_unverified : m_unverified q' = m_unverified q
}.

Lemma marked_refl q : marked q q.
Proof. by constructor. Qed.
Lemma marked_trans q1 q2 q3 : marked q1 q2 -> marked q2 q3 -> marked q1 q3.
Proof. intros [] []. constructor; try congruence; [set_solver|set_solver|auto]. Qed.
Lemma queues_refl q : queues_same q q.
Proof. by constructor. Qed.
Lemma queues_trans q1 q2 q3 : queues_same q1 q2 -> queues_same q2 q3 -> queues_same q1 q3.
Proof. intros [] []. constructor; congruence. Qed.

(** Nothing waits for a block that became bad. *)
Definition bad_followed (q q' : BlockQueue) : Prop :=
  forall x, x ∈ m_map (m_unknown q') -> x.1 ∈ m_knownBad q' -> x.1 ∈ m_knownBad q.

Lemma followed_trans q1 q2 q3 : (forall x, x ∈ m_map (m_unknown q3) -> x ∈ m_map (m_unknown q2)) ->
  bad_followed q1 q2 -> bad_followed q2 q3 -> bad_followed q1 q3.
Proof. unfold bad_followed. naive_solver. Qed.

Lemma notes_bad rs q : let q' := foldl note_unknown_bad q rs in
  marked q q' /\ queues_same q q' /\ m_map (m_unknown q') = m_map (m_unknown q) /\ (forall h, h ∈ m_knownBad q' <-> h ∈ m_knownBad q \/ h ∈ map fst rs).
Proof.
  revert q. induction rs as [|r rs IH]; intros q; cbn [foldl]; [split_and!; [apply marked_refl|apply queues_refl|done|]; intros h; cbn; rewrite elem_of_nil; tauto|].
  destruct (IH (note_unknown_bad q r)) as (E1 & E2 & E3 & E4). split_and!.
  - eapply marked_trans; [|exact E1]. constructor; try done. cbn. set_solver.
  - eapply queues_trans; [|exact E2]. by constructor.
  - by rewrite E3.
  - intros h. rewrite E4. cbn. rewrite elem_of_union, elem_of_singleton, elem_of_cons. tauto.
Qed.

Lemma collect_loop_total fuel bq q : (length bq + length (m_map (m_unknown q)) <= fuel)%nat ->
  exists q', collect_loop fuel bq q = Value q' /\ marked q q' /\ queues_same q q' /\
    forall x, x ∈ m_map (m_unknown q') -> x.1 ∉ bq /\ (x.1 ∈ m_knownBad q' -> x.1 ∈ m_knownBad q).
Proof.
  revert bq q. induction fuel as [|f IH]; intros bq q Hl; (destruct bq as [|b bq]; cbn [collect_loop];
    [exists q; split; [done|]; split; [apply marked_refl|]; split; [apply queues_refl|]; intros x _; split; [apply not_elem_of_nil|done]|]); [cbn in Hl; lia|].
  unfold removeByKeyEqual, map_removeRange. fold (waiting_for b q) (not_waiting_for b q).
  match goal with |- context [foldl note_unknown_bad ?q0 ?rs] => set (q1 := q0); set (removed := rs) end.
  destruct (notes_bad removed q1) as (Hs & Hq & Hm & Hr). pose proof (waiting_lengths b q) as Hlen.
  assert (length removed = length (waiting_for b q)) as Hrl by (unfold removed; by rewrite length_map).
  destruct (IH (bq ++ map fst removed) (foldl note_unknown_bad q1 removed)) as (q' & E & Hs' & Hq' & Hx).
  { rewrite Hm. unfold q1. cbn. rewrite length_app, length_map, Hrl. cbn in Hl. lia. }
  exists q'. split; [done|]. split; [|split].
  - eapply marked_trans; [|exact Hs']. eapply marked_trans; [|exact Hs]. constructor; try done. cbn. intros x Hx'. by apply list_elem_of_filter in Hx' as [_ ?].
  - eapply queues_trans; [|exact Hq']. eapply queues_trans; [|exact Hq]. by constructor.
  - intros x Hin. destruct (Hx x Hin) as [Hn Hrd]. rewrite elem_of_app in Hn. split.
    + rewrite elem_of_cons. intros [Eb|?]; [|tauto]. apply (mk_unknown _ _ Hs') in Hin. rewrite Hm in Hin. cbn in Hin.
      apply list_elem_of_filter in Hin as [Hin _]. by apply Z.eqb_neq in Hin.
    + intros Hb. apply Hrd in Hb. rewrite Hr in Hb. cbn in Hb. tauto.
Qed.

Lemma collect_total b q : exists q', collectUnknownBad b q = Value q' /\ marked q q' /\ queues_same q q' /\
  forall x, x ∈ m_map (m_unknown q') -> x.1 <> b /\ (x.1 ∈ m_knownBad q' -> x.1 ∈ m_knownBad q).
Proof.
  destruct (collect_loop_total (collect_fuel q) [b] q) as (q' & E & Hm & Hq & Hx); [unfold collect_fuel; cbn; lia|].
  exists q'. split_and!; [done..|]. intros x Hin. destruct (Hx x Hin) as [Hn ?]. by rewrite list_elem_of_singleton in Hn.
Qed.

Lemma note_bad_total l q : exists q', note_bad l q = Value q' /\ marked q q' /\ queues_same q q' /\ bad_followed q q' /\
  (forall h, h ∈ l -> h ∈ m_knownBad q').
Proof.
  revert q. induction l as [|h l IH]; intros q; cbn [note_bad].
  { exists q. split; [done|]. split; [apply marked_refl|]. split; [apply queues_refl|]. split; [by intros x|]. intros h Hh. by apply elem_of_nil in Hh. }
  destruct (collect_total h (set_ready (m_readySet q ∖ {[h]}) (set_bad ({[h]} ∪ m_knownBad q) q))) as (q1 & -> & Hm & Hq & Hx).
  cbn [rbind]. destruct (IH q1) as (q2 & -> & Hm2 & Hq2 & Hf2 & Hb2). exists q2. split; [done|].
  assert (marked q q1) as Hm1 by (eapply marked_trans; [|exact Hm]; constructor; try done; cbn; set_solver). split_and!.
  - by eapply marked_trans.
  - eapply queues_trans; [|exact Hq2]. eapply queues_trans; [|exact Hq]. by constructor.
  - eapply followed_trans; [apply Hm2| |exact Hf2]. intros x Hin Hb. destruct (Hx x Hin) as [Hn Hb']. apply Hb' in Hb. cbn in Hb. set_solver.
  - intros x. rewrite elem_of_cons. intros [->|?]; [|auto]. apply Hm2, Hm. cbn. set_solver.
Qed.

(** What marking blocks as bad does: [l] is noted, and blocks that waited with it. *)
Record effect (l : list Z) (q q' : BlockQueue) : Prop := {
  ef_waiting : exists W, m_map (m_unknown q) ≡ₚ m_map (m_unknown q') ++ W /\
    m_unknownSet q' = m_unknownSet q ∖ list_to_set (map waiting_hash W) /\
    m_knownBad q' = list_to_set l ∪ list_to_set (map waiting_hash W) ∪ m_knownBad q;
  ef_ready : m_readySet q' = m_readySet q ∖ list_to_set l;
  ef_queues : queues_same q q';
  ef_draining : m_drainingSet q' = m_drainingSet q;
  ef_future : m_future q' = m_future q;
  ef_jobs : jobs q' = jobs q
}.

Lemma effect_refl q : effect [] q q.
Proof. constructor; try done. exists []. split_and!; [by rewrite app_nil_r|set_solver|set_solver]. set_solver. Qed.

Lemma effect_trans l1 l2 q1 q2 q3 : effect l1 q1 q2 -> effect l2 q2 q3 -> effect (l1 ++ l2) q1 q3.
Proof.
  intros [(W1 & P1 & U1 & B1) R1 Q1 D1 F1 J1] [(W2 & P2 & U2 & B2) R2 Q2 D2 F2 J2]. constructor; try congruence.
  - exists (W2 ++ W1). rewrite P1, P2, U2, U1, B2, B1, map_app, <- app_assoc. split_and!; [done|set_solver|set_solver].
  - rewrite R2, R1. set_solver.
  - by eapply queues_trans.
Qed.

Lemma notes_bad_sets (W : list waiting) q : let q' := foldl note_unknown_bad q (map snd W) in
  m_unknownSet q' = m_unknownSet q ∖ list_to_set (map waiting_hash W) /\ m_knownBad q' = list_to_set (map waiting_hash W) ∪ m_knownBad q /\
  m_readySet q' = m_readySet q /\ jobs q' = jobs q.
Proof.
  revert q. induction W as [|x W IH]; intros q; [cbn; split_and!; try done; set_solver|]. cbn [map foldl].
  destruct (IH (note_unknown_bad q x.2)) as (E1 & E2 & E3 & E4). cbn zeta in *. rewrite E1, E2, E3, E4. cbn. split_and!; try done; unfold waiting_hash; set_solver.
Qed.

Lemma collect_loop_effect fuel bq q q' : collect_loop fuel bq q = Value q' -> effect [] q q'.
Proof.
  revert bq q. induction fuel as [|f IH]; intros [|b bq] q; cbn [collect_loop]; [intros [= <-]; apply effect_refl|done|intros [= <-]; apply effect_refl|].
  unfold removeByKeyEqual, map_removeRange. fold (waiting_for b q) (not_waiting_for b q).
  match goal with |- context [foldl note_unknown_bad ?q0 _] => set (q1 := q0) end. intros E%IH. refine (effect_trans [] [] _ _ _ _ E).
  destruct (notes_bad (map snd (waiting_for b q)) q1) as ([E1 E2 _ _ _] & [E3 E4 E5] & Em & _). destruct (notes_bad_sets (waiting_for b q) q1) as (E6 & E7 & E8 & E9).
  constructor; try done.
  - exists (waiting_for b q). rewrite Em, E6, E7. split_and!; [apply filter_split|done|set_solver].
  - rewrite E8. set_solver.
Qed.

Lemma note_bad_effect l q q' : note_bad l q = Value q' -> effect l q q'.
Proof.
  revert q. induction l as [|h l IH]; intros q; cbn [note_bad]; [intros [= <-]; apply effect_refl|]. intros E. apply rbind_Value in E as (q1 & E1 & E%IH).
  unfold collectUnknownBad in E1. apply collect_loop_effect in E1. refine (effect_trans [h] l q q1 q' _ E). destruct E1 as [(W & P & U & B) R0 [Q1 Q2 Q3] D F J].
  constructor; try done; cbn in *.
  - exists W. split_and!; [done|done|]. rewrite B. set_solver.
  - rewrite R0. set_solver.
Qed.

(** ** What is removed *)

Lemma length_filter_le {A} (p : A -> bool) l : (length (filter (fun x => p x = false) l) <= length l)%nat.
Proof. apply length_filter. Qed.

Lemma removeIf_spec {T} `{!Queued T} (p : T -> bool) q : let (removed, q') := removeIf p q in
  m_queue q' = filter (fun x => p x = false) (m_queue q) /\ (length removed + length (m_queue q') = length (m_queue q))%nat /\
  (removed = [] -> m_queue q' = m_queue q /\ forall b, b ∈ m_queue q -> p b = false).
Proof.
  unfold removeIf, remove_if, removeRange. cbn. pose proof (length_filter_le p (m_queue q)) as Hl.
  rewrite length_drop, length_map. split; [done|]. split; [lia|]. intros E. apply (f_equal length) in E. rewrite length_drop, length_map in E. cbn in E.
  assert (filter (fun x => p x = false) (m_queue q) = m_queue q) as Ef.
  { clear -E Hl. induction (m_queue q) as [|x l IH]; [done|]. rewrite filter_cons in *. case_decide; cbn in *; [f_equal; apply IH; lia|].
    pose proof (length_filter_le p l). lia. }
  split; [done|]. intros b Hb. rewrite <- Ef in Hb. by apply list_elem_of_filter in Hb as [? _].
Qed.

Definition queued (q : BlockQueue) : nat :=
  length (m_queue (m_verified q)) + length (m_queue (m_unverified q)) + length (m_queue (m_verifying q)).

(** No block in the queues is bad or has a bad parent, as the code tests it. *)
Record no_bad_queued (q : BlockQueue) : Prop := {
  nb_verified : forall b, b ∈ m_queue (m_verified q) -> verified_bad q b = false;
  nb_unverified : forall b, b ∈ m_queue (m_unverified q) -> unverified_bad q b = false;
  nb_verifying : forall b, b ∈ m_queue (m_verifying q) -> verifying_bad q b = false
}.

Lemma queued_same q q' : queues_same q q' -> queued q' = queued q.
Proof. intros [E1 E2 E3]. unfold queued. by rewrite E1, E2, E3. Qed.

Lemma marked_verified q v : marked q (set_verified v q).
Proof. by constructor. Qed.
Lemma marked_unverified q u : marked q (set_unverified u q).
Proof. by constructor. Qed.
Lemma marked_verifying q w : marked q (set_verifying w q).
Proof. by constructor. Qed.

Lemma removed_none {T} `{!Queued T} (p : T -> bool) q q' : removeIf p q = ([], q') -> m_queue q' = m_queue q /\ forall b, b ∈ m_queue q -> p b = false.
Proof. intros E. pose proof (removeIf_spec p q) as Hs. rewrite E in Hs. by apply Hs. Qed.

Lemma removed_length {T} `{!Queued T} (p : T -> bool) q r q' : removeIf p q = (r, q') -> (length r + length (m_queue q') = length (m_queue q))%nat.
Proof. intros E. pose proof (removeIf_spec p q) as Hs. rewrite E in Hs. by apply Hs. Qed.

Lemma update_pass_total q : exists more q', update_pass q = Value (more, q') /\ marked q q' /\ bad_followed q q' /\
  if more : bool then (queued q' < queued q)%nat else no_bad_queued q'.
Proof.
  unfold update_pass. destruct (removeIf (verified_bad q) (m_verified q)) as [bv v] eqn:E1.
  destruct (note_bad_total (map vb_hash bv) (set_verified v q)) as (q1 & N1 & M1 & Q1 & F1 & _). rewrite N1. cbn [rbind].
  destruct (removeIf (unverified_bad q1) (m_unverified q1)) as [bu u] eqn:E2.
  destruct (note_bad_total (map ub_hash bu) (set_unverified u q1)) as (q2 & N2 & M2 & Q2 & F2 & _). rewrite N2. cbn [rbind].
  destruct (removeIf (verifying_bad q2) (m_verifying q2)) as [bw w] eqn:E3.
  destruct (note_bad_total (map verifying_hash bw) (set_verifying w q2)) as (q3 & N3 & M3 & Q3 & F3 & _). rewrite N3. cbn [rbind].
  eexists _, q3. split; [done|]. split; [|split].
  - eapply marked_trans; [apply marked_verified|]. eapply marked_trans; [exact M1|]. eapply marked_trans; [apply marked_unverified|].
    eapply marked_trans; [exact M2|]. eapply marked_trans; [apply marked_verifying|exact M3].
  - eapply (followed_trans q q2); [apply M3| |exact F3]. eapply (followed_trans q q1); [apply M2|exact F1|exact F2].
  - case_bool_decide as Hd; cbn [negb].
    + destruct Hd as (-> & -> & ->). cbn [map note_bad] in N1, N2, N3. injection N1 as <-. injection N2 as <-. injection N3 as <-.
      apply removed_none in E1 as [K1 P1], E2 as [K2 P2], E3 as [K3 P3]. cbn in *. constructor; cbn.
      * by rewrite K1.
      * by rewrite K2.
      * by rewrite K3.
    + apply removed_length in E1, E2, E3. destruct Q1 as [V1 W1 U1], Q2 as [V2 W2 U2], Q3 as [V3 W3 U3]. cbn in *.
      unfold queued. rewrite V3, V2, V1, U3, U2, W3. rewrite W2, W1 in E3. rewrite U1 in E2.
      destruct bv, bu, bw; cbn in *; try lia. tauto.
Qed.

Lemma update_loop_total fuel q : (queued q < fuel)%nat -> exists q', update_loop fuel q = Value q' /\ marked q q' /\ bad_followed q q' /\ no_bad_queued q'.
Proof.
  revert q. induction fuel as [|f IH]; intros q Hl; [lia|]. cbn [update_loop]. destruct (update_pass_total q) as (more & q1 & -> & Hm & Hf & Hc). cbn [rbind fst snd].
  destruct more; [|by exists q1]. destruct (IH q1) as (q2 & -> & Hm2 & Hf2 & Hn); [lia|]. exists q2. split; [done|]. split; [by eapply marked_trans|].
  split; [|done]. eapply followed_trans; [apply Hm2|done|done].
Qed.

Lemma updateBad_facts b q : exists q', updateBad b q = Value q' /\ marked q q' /\ no_bad_queued q' /\
  forall x, x ∈ m_map (m_unknown q') -> x.1 <> b /\ (x.1 ∈ m_knownBad q' -> x.1 ∈ m_knownBad q).
Proof.
  unfold updateBad. destruct (collect_total b q) as (q1 & -> & Hm & Hq & Hx). cbn [rbind].
  destruct (update_loop_total (update_fuel q1) q1) as (q2 & -> & Hm2 & Hf & Hn); [unfold update_fuel, queued; lia|]. exists q2. split; [done|].
  split; [by eapply marked_trans|]. split; [done|]. intros x Hin. destruct (Hx x) as [? Hb]; [by apply Hm2|]. split; [done|]. auto.
Qed.

Lemma update_all_facts l q : exists q', update_all l q = Value q' /\ marked q q'.
Proof.
  revert q. induction l as [|b l IH]; intros q; cbn [update_all]; [exists q; split; [done|apply marked_refl]|].
  destruct (updateBad_facts b q) as (q1 & -> & Hm & _). cbn [rbind]. destruct (IH q1) as (q2 & -> & Hm2). exists q2. split; [done|by eapply marked_trans].
Qed.

Lemma update_all_settled l q q' : update_all l q = Value q' -> marked q q' /\ (forall x, x ∈ m_map (m_unknown q') -> x.1 ∈ m_knownBad q' -> x.1 ∈ m_knownBad q) /\
  (l <> [] -> no_bad_queued q').
Proof.
  revert q. induction l as [|b l IH]; intros q; cbn [update_all]; [intros [= <-]; split; [apply marked_refl|]; split; [auto|done]|].
  destruct (updateBad_facts b q) as (q1 & -> & Hm & Hn & Hx). cbn [rbind]. intros E. destruct (IH q1 E) as (Hm2 & Hx2 & Hn2).
  split; [by eapply marked_trans|]. split.
  - intros x Hin Hb. apply Hx; [by apply Hm2|auto].
  - intros _. destruct l; [by injection E as <-|by apply Hn2].
Qed.

(** C38. What is bad spreads: [updateBad] ends, whatever the queue holds, and
    what it knew to be bad stays bad.  Afterwards no block in [m_verified] or
    [m_unverified] is known to be bad or has a parent that is.  In [m_verifying]
    none has a bad parent, nor a bad hash of its uncles, which is what the code
    looks at: this is the hash of the block as long as it is being verified, but
    not of one that waits there verified.  And nothing waits for the block that
    [updateBad] was called for or for one that it found to be bad. *)
Theorem bad_spreads b q : exists q', updateBad b q = Value q' /\ m_knownBad q ⊆ m_knownBad q' /\
  (forall x, x ∈ m_queue (m_verified q') -> vb_parentHash x ∉ m_knownBad q' /\ vb_hash x ∉ m_knownBad q') /\
  (forall x, x ∈ m_queue (m_unverified q') -> ub_parentHash x ∉ m_knownBad q' /\ ub_hash x ∉ m_knownBad q') /\
  (forall x, x ∈ m_queue (m_verifying q') -> vb_parentHash x ∉ m_knownBad q' /\ vb_sha3Uncles x ∉ m_knownBad q' /\
    (vb_blockData x = [] -> verifying_hash x ∉ m_knownBad q')) /\
  forall x, x ∈ m_map (m_unknown q') -> x.1 <> b /\ (x.1 ∈ m_knownBad q' -> x.1 ∈ m_knownBad q).
Proof.
  destruct (updateBad_facts b q) as (q' & E & Hm & [N1 N2 N3] & Hx). exists q'. split; [done|]. split; [apply Hm|].
  split_and!; [intros x Hin%N1|intros x Hin%N2|intros x Hin%N3|exact Hx]; apply orb_false_iff in Hin as [Ha%bool_decide_eq_false Hb%bool_decide_eq_false]; split; try done.
  split; [done|]. intros Hd. unfold verifying_hash. by rewrite Hd.
Qed.
End Bad.

(** ** The bytes in the queues *)

Section Sizes.
  Context {T : Type} `{!Queued T}.

Definition bytes (l : list T) : Z := foldr (fun t s => lenZ (blockData t) + s) 0 l.
Definition queue_sized (q : SizedBlockQueue T) : Prop := q_size q = u64 (bytes (m_queue q)).

Lemma bytes_cons t l : bytes (t :: l) = lenZ (blockData t) + bytes l.
Proof. done. Qed.
Lemma bytes_app l k : bytes (l ++ k) = bytes l + bytes k.
Proof. induction l as [|t l IH]; [done|]. cbn [app]. rewrite !bytes_cons. lia. Qed.

Lemma size_without_bytes l s : 0 <= s < 2 ^ 64 -> size_without s l = u64 (s - bytes l).
Proof.
  revert s. induction l as [|t l IH]; intros s Hs; [cbn; rewrite Z.sub_0_r; symmetry; by apply Z.mod_small|]. unfold size_without in IH |- *. cbn [foldl].
  rewrite IH by apply Z.mod_pos_bound, eq_refl. rewrite bytes_cons. unfold u64. rewrite Zminus_mod_idemp_l. f_equal. lia.
Qed.

Lemma sized_enqueue t q : queue_sized q -> queue_sized (q_enqueue t q).
Proof. unfold queue_sized. intros E. cbn [q_size m_queue q_enqueue removeRange snd]. rewrite E, bytes_app, bytes_cons. unfold u64. rewrite Zplus_mod_idemp_l. f_equal. change (bytes []) with 0. lia. Qed.

Lemma sized_dequeue t l q : queue_sized q -> m_queue q = t :: l -> queue_sized (mkQueue l (u64 (q_size q - lenZ (blockData t)))).
Proof. unfold queue_sized. intros E El. cbn [q_size m_queue q_enqueue removeRange snd]. rewrite E, El, bytes_cons. unfold u64. rewrite Zminus_mod_idemp_l. f_equal. lia. Qed.

Lemma sized_range kept removed q : queue_sized q -> bytes (m_queue q) = bytes removed + bytes kept -> queue_sized (removeRange kept removed q).2.
Proof.
  unfold queue_sized. intros E Eb. cbn [q_size m_queue q_enqueue removeRange snd]. rewrite size_without_bytes by (rewrite E; by apply Z.mod_pos_bound). rewrite E, Eb. unfold u64.
  rewrite Zminus_mod_idemp_l. f_equal. lia.
Qed.

Lemma sized_multiple n q : queue_sized q -> queue_sized (dequeueMultiple n q).2.
Proof. intros Hq. apply sized_range; [done|]. rewrite <- (take_drop (Z.to_nat n) (m_queue q)) at 1. apply bytes_app. Qed.

Lemma sized_empty : queue_sized empty_queue.
Proof. done. Qed.

(** What [removeIf] takes out is what it was to take out, that is, this stood at
    the end. *)
Definition takes_bad (p : T -> bool) (q : SizedBlockQueue T) : Prop := Forall (fun t => p t = true) (removeIf p q).1.

Lemma filter_length_all (p : T -> bool) (l : list T) : (length l <= length (filter (fun t => p t = false) l))%nat -> filter (fun t => p t = false) l = l.
Proof.
  induction l as [|x l IH]; [done|]. rewrite filter_cons. pose proof (length_filter (fun t => p t = false) l). case_decide; cbn; intros Hl; [f_equal; apply IH; lia|lia].
Qed.

Lemma removed_bad (p : T -> bool) (l : list T) : (forall t, p (moved t) = p t) -> Forall (fun t => p t = true) (map (fun t => if p t then t else moved t) l) ->
  map (fun t => if p t then t else moved t) l = l /\ filter (fun t => p t = false) l = [].
Proof.
  intros Hm. induction l as [|x l IH]; [done|]. cbn [map]. intros [Hx Hl]%Forall_cons. destruct (IH Hl) as [-> E]. rewrite filter_cons.
  destruct (p x) eqn:Ex; [by rewrite decide_False|]. by rewrite Hm, Ex in Hx.
Qed.

Lemma takes_bad_split p q : (forall t, p (moved t) = p t) -> takes_bad p q ->
  m_queue q = m_queue (removeIf p q).2 ++ (removeIf p q).1 /\ (queue_sized q -> queue_sized (removeIf p q).2).
Proof.
  intros Hm Ht. unfold takes_bad, removeIf, remove_if, removeRange in *. cbn [fst snd m_queue] in *. set (kept := filter _ (m_queue q)) in *.
  rewrite skipn_map in Ht |- *. destruct (removed_bad p _ Hm Ht) as [E Ef]. rewrite E. assert (kept = take (length kept) (m_queue q)) as Ek.
  { assert (kept = filter (fun t => p t = false) (take (length kept) (m_queue q))) as E1.
    { rewrite <- (app_nil_r (filter _ (take _ _))), <- Ef, <- filter_app. by rewrite take_drop. }
    rewrite E1 at 1. apply filter_length_all. rewrite <- E1. rewrite length_take. lia. }
  assert (m_queue q = kept ++ drop (length kept) (m_queue q)) as El by (rewrite Ek at 1; by rewrite take_drop). split; [done|].
  intros Hq. apply (sized_range kept _ q Hq). rewrite El at 1. rewrite bytes_app. lia.
Qed.
End Sizes.

Section Reach.
  Context `{Sha3} `{!AecashLib} `{!Secp256k1} (e : SealEngine) (blocks : list Z -> Prop).
  Notation core_but := (core_but e blocks).
  Notation core := (core_but (fun _ => False)).
  Notation checked := (checked e blocks).

Record sized (q : BlockQueue) : Prop := {
  sz_verified : queue_sized (m_verified q);
  sz_verifying : queue_sized (m_verifying q);
  sz_unverified : queue_sized (m_unverified q)
}.

Lemma sized_accept b q : sized q -> sized (accept b q).
Proof. intros []. unfold accept. case_decide; constructor; try done. cbn. by apply sized_enqueue. Qed.

Lemma sized_drain_loop fuel q : sized q -> sized (drain_loop fuel q).
Proof.
  revert q. induction fuel as [|f IH]; intros q Hq; [done|]. cbn [drain_loop]. unfold q_dequeue.
  destruct (m_queue (m_verifying q)) as [|b l] eqn:El; [done|]. destruct (vb_blockData b) eqn:Ed; [done|]. apply IH, sized_accept.
  destruct Hq. constructor; try done. by eapply (sized_dequeue b).
Qed.

Lemma sized_take q q' : sized q -> take_work q = Some q' -> sized q'.
Proof.
  intros []. unfold take_work, q_dequeue. destruct (m_deleting q); [done|]. destruct (m_queue (m_unverified q)) as [|w u] eqn:Eu; [done|]. intros [= <-].
  constructor; try done; cbn; [by apply sized_enqueue|]. exact (sized_dequeue w u _ sz_unverified0 Eu).
Qed.

(** What stands behind the blocks that stay after the removal of a block that is
    being verified is empty. *)
Lemma sized_remove w l1 l2 q : queue_sized q -> m_queue q = l1 ++ being_verified w :: l2 ->
  (forall b, b ∈ l1 ++ l2 -> sha3UnclesEquals (ub_hash w) b = false) -> queue_sized (q_remove (ub_hash w) q).2.
Proof.
  intros Hq El Hb. unfold q_remove, removeIf, remove_if. rewrite El, remove_sha3Uncles by done.
  match goal with |- context [removeRange _ ?r _] => set (rest := r) end.
  assert (bytes rest = 0) as Er.
  { unfold rest. rewrite length_app. destruct l2 as [|x l2] using rev_ind.
    - rewrite Nat.add_0_r, map_app. rewrite drop_app_length' by (by rewrite length_map). cbn. by case_match.
    - clear IHl2. rewrite app_comm_cons, app_assoc, map_app. rewrite length_app. cbn [length].
      rewrite drop_app_length' by (rewrite length_map, length_app; cbn; lia). cbn. rewrite Hb; [done|]. rewrite !elem_of_app, list_elem_of_singleton. auto. }
  unfold removeRange. cbn [snd]. apply (sized_range (l1 ++ l2) rest q Hq). rewrite El, Er, !bytes_app, bytes_cons. change (lenZ (blockData (being_verified w))) with 0. lia.
Qed.

Lemma sized_failed K q i w : hashes_apart e blocks -> core K [] q -> jobs q !! i = Some w -> ub_hash w ∉ m_knownBad q -> sized q -> sized (verify_failed w (set_jobs (delete i (jobs q)) q)).
Proof.
  intros Ha Hq Hi Hnb []. destruct (core_job e blocks K q i w Ha Hq Hi Hnb) as (l1 & l2 & El & Hb & _). apply sized_drain_loop. constructor; try done. cbn.
  by eapply sized_remove.
Qed.

Lemma sized_passed K q i w res : hashes_apart e blocks -> core K [] q -> jobs q !! i = Some w -> ub_hash w ∉ m_knownBad q -> sized q ->
  sized (verify_passed w res (set_jobs (delete i (jobs q)) q)).
Proof.
  intros Ha Hq Hi Hnb Hs. destruct (core_job e blocks K q i w Ha Hq Hi Hnb) as (l1 & l2 & El & Hb & _). pose proof Hs as [].
  unfold verify_passed, q_dequeue. cbn. rewrite El. destruct l1 as [|b l1]; cbn [app].
  - change (vb_sha3Uncles (being_verified w)) with (ub_hash w). rewrite Z.eqb_refl.
    destruct (sized_drain_loop (length (m_queue (m_verifying (accept res (set_verifying (mkQueue l2 (u64 (q_size (m_verifying q) - lenZ (blockData (being_verified w)))))
      (set_jobs (delete i (jobs q)) q)))))) (accept res (set_verifying (mkQueue l2 (u64 (q_size (m_verifying q) - lenZ (blockData (being_verified w))))) (set_jobs (delete i (jobs q)) q)))).
    { apply sized_accept. constructor; try done. by eapply (sized_dequeue (being_verified w)). }
    by constructor.
  - change (vb_sha3Uncles b =? ub_hash w) with (sha3UnclesEquals (ub_hash w) b). rewrite Hb by left.
    constructor; try done. cbn. unfold q_replace. cbn. rewrite El, (find_sha3Uncles w (b :: l1) l2 Hb). cbn [snd].
    unfold queue_sized in *. cbn [m_queue q_size]. rewrite (insert_app_r_alt (b :: l1)), Nat.sub_diag by done. cbn [list_insert insert].
    rewrite sz_verifying0, El, !bytes_app, !bytes_cons. change (lenZ (blockData (being_verified w))) with 0. unfold u64. rewrite Z.sub_0_r, Zmod_mod, Zplus_mod_idemp_l. change (blockData res) with (vb_blockData res). f_equal. lia.
Qed.

Lemma sized_finish K q chain i q' : hashes_apart e blocks -> core K [] q -> head_in_progress q -> sized q -> finish_work e chain i q = Value q' -> sized q'.
Proof.
  intros Ha Hq Hh Hs E. destruct (jobs q !! i) as [w|] eqn:Hi; [|unfold finish_work in E; by rewrite Hi in E].
  destruct (decide (ub_hash w ∈ m_knownBad q)) as [Hb|Hnb]; [destruct (finish_stale e blocks K q chain i w q' Ha Hq Hh Hi Hb E) as [-> _]; by destruct Hs|].
  revert E. unfold finish_work. rewrite Hi. cbn [rget rbind].
  destruct (verifyBlock e chain OutOfOrderChecks (ub_blockData w)); [intros [= <-]; by eapply sized_passed|intros [= <-]; by eapply sized_failed|done|done].
Qed.

Lemma sized_notes parent rs q : sized q -> sized (foldl (note_ready parent) q rs).
Proof. revert q. induction rs as [|r rs IH]; intros q []; [by constructor|]. apply IH. constructor; try done. cbn. by apply sized_enqueue. Qed.

Lemma sized_ready_loop fuel gq q q' : sized q -> ready_loop fuel gq q = Value q' -> sized q'.
Proof.
  revert gq q. induction fuel as [|f IH]; intros [|g gq] q Hq; cbn [ready_loop]; [by intros [= <-]|done|by intros [= <-]|].
  unfold removeByKeyEqual, map_removeRange. intros E. eapply IH; [|exact E]. apply sized_notes. by destruct Hq.
Qed.
(** ** Nothing waits for a block that is on its way *)

Definition away (q : BlockQueue) : Prop :=
  forall x, x ∈ m_map (m_unknown q) -> x.1 ∉ m_readySet q /\ x.1 ∉ m_drainingSet q /\ x.1 ∉ m_knownBad q.

(** No block comes to be known. *)
Definition none_new (q q' : BlockQueue) : Prop :=
  m_unknown q' = m_unknown q /\
  forall h, h ∈ m_readySet q' \/ h ∈ m_drainingSet q' \/ h ∈ m_knownBad q' -> h ∈ m_readySet q \/ h ∈ m_drainingSet q \/ h ∈ m_knownBad q.

Lemma none_new_trans q1 q2 q3 : none_new q1 q2 -> none_new q2 q3 -> none_new q1 q3.
Proof. intros [E1 S1] [E2 S2]. split; [congruence|auto]. Qed.

Lemma none_new_away q q' : none_new q q' -> away q -> away q'.
Proof.
  intros [E Hs] Ha x. rewrite E. intros Hin. destruct (Ha x Hin) as (? & ? & ?). specialize (Hs x.1). tauto.
Qed.

Lemma none_new_bad q q' h : h ∈ m_readySet q -> m_unknown q' = m_unknown q -> m_readySet q' = m_readySet q ∖ {[h]} ->
  m_drainingSet q' = m_drainingSet q -> m_knownBad q' = {[h]} ∪ m_knownBad q -> none_new q q'.
Proof.
  intros Hh Eu Er Ed Eb. split; [done|]. intros x. rewrite Er, Ed, Eb, elem_of_difference, elem_of_union, elem_of_singleton.
  intros [[? _]|[?|[->|?]]]; auto.
Qed.

Lemma none_new_accept K b l s s' q : core K [] (set_verifying (mkQueue (b :: l) s) q) -> checked b -> none_new q (accept b (set_verifying (mkQueue l s') q)).
Proof.
  intros Hq Hc. unfold accept. case_decide; [|split; [done|]; cbn; auto]. apply (none_new_bad _ _ (vb_hash b)); try done.
  apply (ln_ready _ _ _ _ _ _ (co_lined _ _ _ _ _ _ Hq)). unfold pipeline. cbn. rewrite (w_entry_checked e blocks) by done.
  rewrite fmap_app, fmap_cons, elem_of_app. right. left.
Qed.

Lemma none_new_drain_loop K fuel q : core K [] q -> none_new q (drain_loop fuel q).
Proof.
  revert q. induction fuel as [|f IH]; intros q Hq; [by split|]. cbn [drain_loop]. unfold q_dequeue.
  destruct (m_queue (m_verifying q)) as [|b l] eqn:El; [by split|]. destruct (vb_blockData b) as [|x d] eqn:Ed; [by split|].
  pose proof (co_verifying _ _ _ _ _ _ Hq) as Hv. rewrite El in Hv. apply Forall_cons in Hv as [[Hp|Hc] _]; [unfold in_progress in Hp; by rewrite Ed in Hp|].
  assert (core K [] (set_verifying (mkQueue (b :: l) (q_size (m_verifying q))) q)) as Hq' by (destruct q as [? ? ? ? ? ? ? [vl vs] ? ? ? ? ? ?]; cbn in El |- *; by subst vl).
  eapply none_new_trans; [by eapply none_new_accept|]. apply IH. by eapply core_accept.
Qed.

Lemma none_new_drain K q : core K [] q -> none_new q (drainVerified q).
Proof. apply none_new_drain_loop. Qed.

Lemma none_new_failed K q i w : hashes_apart e blocks -> core K [] q -> jobs q !! i = Some w -> ub_hash w ∉ m_knownBad q ->
  none_new q (verify_failed w (set_jobs (delete i (jobs q)) q)).
Proof.
  intros Ha Hq Hi Hnb. destruct (core_job e blocks K q i w Ha Hq Hi Hnb) as (l1 & l2 & El & Hb & _).
  eapply none_new_trans; [|eapply none_new_drain_loop; by apply core_dropped]. apply (none_new_bad _ _ (ub_hash w)); try done.
  apply (ln_ready _ _ _ _ _ _ (co_lined _ _ _ _ _ _ Hq)). rewrite (pipeline_middle q l1 l2 _ El), fmap_app, fmap_cons, elem_of_app. right. left.
Qed.

Lemma none_new_passed K q i w res : hashes_apart e blocks -> core K [] q -> jobs q !! i = Some w -> ub_hash w ∉ m_knownBad q -> checked res -> v_entry res = u_entry w ->
  none_new q (verify_passed w res (set_jobs (delete i (jobs q)) q)).
Proof.
  intros Ha Hq Hi Hnb Hc He. destruct (core_job e blocks K q i w Ha Hq Hi Hnb) as (l1 & l2 & El & Hb & Hj).
  pose proof (fun s => core_replace e blocks K q i w res l1 l2 s Hq Hi El Hj Hc He) as Hr. unfold verify_passed, q_dequeue. cbn. rewrite El.
  destruct l1 as [|b l1]; cbn [app].
  - change (vb_sha3Uncles (being_verified w)) with (ub_hash w). rewrite Z.eqb_refl. set (s' := u64 (q_size (m_verifying q) - lenZ _)).
    eapply (none_new_trans q (set_jobs (delete i (jobs q)) q)); [by split|].
    eapply none_new_trans; [exact (none_new_accept K res l2 0 s' _ (Hr 0) Hc)|].
    eapply none_new_trans; [exact (none_new_drain K _ (core_accept e blocks K _ res l2 0 s' (Hr 0) Hc))|]. by split.
  - change (vb_sha3Uncles b =? ub_hash w) with (sha3UnclesEquals (ub_hash w) b). rewrite Hb by left. by split.
Qed.

Lemma none_new_finish K q chain i q' : hashes_apart e blocks -> core K [] q -> head_in_progress q -> finish_work e chain i q = Value q' -> none_new q q'.
Proof.
  intros Ha Hq Hh E. destruct (jobs q !! i) as [w|] eqn:Hi; [|unfold finish_work in E; by rewrite Hi in E].
  destruct (decide (ub_hash w ∈ m_knownBad q)) as [Hb|Hnb]; [by destruct (finish_stale e blocks K q chain i w q' Ha Hq Hh Hi Hb E) as [-> _]|].
  revert E. unfold finish_work. rewrite Hi. cbn [rget rbind].
  assert (sound blocks w) as Hw by (pose proof (co_jobs_sound _ _ _ _ _ _ Hq) as Hs; by eapply Forall_lookup_1 in Hi).
  destruct (verifyBlock e chain OutOfOrderChecks (ub_blockData w)) as [v|err| |] eqn:Hv; [|intros [= <-]; by eapply none_new_failed|done|done].
  intros [= <-]. destruct (checked_sound e blocks chain w v Ha Hw Hv) as (Hc & E1 & E2). eapply none_new_passed; try done. unfold v_entry. by rewrite E1, E2.
Qed.
(** ** The queue between two steps *)

Record steady (K : Z -> Prop) (q : BlockQueue) : Prop := {
  st_core : core K [] q;
  st_head : head_in_progress q;
  st_away : away q;
  st_sized : sized q
}.

Lemma multimap_insert_perm key v l : multimap_insert key v l ≡ₚ (key, v) :: l.
Proof. induction l as [|x l IH]; [done|]. cbn. case_match; [done|]. rewrite IH. apply perm_swap. Qed.

Lemma arrived_sound chain ir block h v : blocks block -> headerHashFromBlock block = Value h -> verifyBlock e chain ir block = Value v ->
  sound blocks (mkUnverifiedBlock h (h_parentHash (vr_info v)) block).
Proof. intros Hb Hh Hv. destruct (verifyBlock_header e chain _ _ _ _ Hv Hh) as (bi & Hbi & E1 & E2 & _). split; [done|]. split; [done|]. by exists bi. Qed.

Lemma imported_sound chain ir block h v : hashes_apart e blocks -> blocks block -> headerHashFromBlock block = Value h ->
  verifyBlock e chain ir block = Value v -> info_hash (vr_info v) = h /\ sound blocks (mkUnverifiedBlock h (h_parentHash (vr_info v)) block).
Proof.
  intros Ha Hb Hh Hv. split; [|by eapply arrived_sound]. destruct (verifyBlock_header e chain _ _ _ _ Hv Hh) as (bi & _ & E1 & _).
  rewrite info_hash_known; [done|]. rewrite E1. by eapply ha_nonzero.
Qed.

Lemma import_known_false h q : import_known h q = false -> h ∉ m_readySet q /\ h ∉ m_drainingSet q /\ h ∉ m_unknownSet q /\ h ∉ m_knownBad q.
Proof. unfold import_known, is_bad. rewrite !orb_false_iff, !bool_decide_eq_false. tauto. Qed.

Lemma parent_ready_true chain p q : parent_ready chain p q = true -> p ∈ m_readySet q \/ p ∈ m_drainingSet q \/ isKnown chain p = true.
Proof. unfold parent_ready. rewrite !orb_true_iff, !bool_decide_eq_true. tauto. Qed.
Lemma parent_ready_false chain p q : parent_ready chain p q = false -> p ∉ m_readySet q /\ p ∉ m_drainingSet q /\ isKnown chain p = false.
Proof. unfold parent_ready. rewrite !orb_false_iff, !bool_decide_eq_false. tauto. Qed.

(** The answers of a view of the chain, at some time, satisfy [K]. *)
Definition within (view : ChainView) (K : Z -> Prop) : Prop := forall p, isKnown view p = true -> K p.

Lemma steady_wait K q h p block d : steady K q -> h ∉ m_readySet q -> h ∉ m_drainingSet q -> h ∉ m_unknownSet q -> h ∉ m_knownBad q ->
  sound blocks (mkUnverifiedBlock h p block) -> p ∉ m_readySet q -> p ∉ m_drainingSet q -> p ∉ m_knownBad q ->
  steady K (set_difficulty d (set_unknown ({[h]} ∪ m_unknownSet q) (map_insert p h block (m_unknown q)) q)).
Proof.
  intros [[] Hh Ha []] HR HD HU HB Hs Hp1 Hp2 Hp3. constructor; [|done| |by constructor].
  - constructor; try done; cbn; rewrite ?multimap_insert_perm; cbn.
    + by apply lined_wait.
    + intros x. rewrite elem_of_union, elem_of_singleton, co_unknown. rewrite multimap_insert_perm. cbn. rewrite elem_of_cons. done.
    + apply NoDup_cons. split; [|done]. change (waiting_hash (p, (h, block))) with h. by rewrite <- co_unknown.
    + by constructor.
  - intros x. cbn. rewrite multimap_insert_perm, elem_of_cons. intros [->|Hx]; [done|]. by apply Ha.
Qed.

Lemma steady_enqueue view K q h p block d q' : within view K -> steady K q -> h ∉ m_readySet q -> h ∉ m_drainingSet q -> h ∉ m_unknownSet q ->
  h ∉ m_knownBad q -> sound blocks (mkUnverifiedBlock h p block) -> parent_ready view p q = true ->
  noteReady h (set_difficulty d (set_ready ({[h]} ∪ m_readySet q) (set_unverified (q_enqueue (mkUnverifiedBlock h p block) (m_unverified q)) q))) = Value q' ->
  steady K q'.
Proof.
  intros HK [Hq Hh Ha Hz] HR HD HU HB Hs Hp. match goal with |- noteReady h ?q0 = _ -> _ => set (q1 := q0) end. intros E.
  destruct (noteReady_total blocks h q1) as (q2 & E' & Hsame & Hx). assert (q2 = q') as -> by congruence. destruct Hsame.
  assert (core K [] q1) as Hq1.
  { destruct Hq. constructor; try done; cbn.
    - unfold pipeline. cbn. rewrite pipeline_enqueue. eapply lined_push; try done. apply parent_ready_true in Hp. specialize (HK p). tauto.
    - apply Forall_app. by split; [|constructor]. }
  constructor.
  - eapply core_noteReady; [done| |done]. right. right. right. cbn. set_solver.
  - unfold head_in_progress in *. by rewrite sn_verifying.
  - intros x Hin. destruct (Hx x Hin) as [Hne Hr]. destruct (Ha x) as (H1' & H2' & H3'); [by apply sn_unknown in Hin|]. rewrite sn_draining, sn_bad. cbn.
    split; [|done]. intros Hr'. apply Hr in Hr'. cbn in Hr'. set_solver.
  - eapply sized_ready_loop; [|exact E]. destruct Hz. constructor; try done. cbn. by apply sized_enqueue.
Qed.

(** ** Blocks that are found to be bad *)

(** A pass of [updateBad], all its passes, and all its calls with the blocks of a
    list, take out of the queues what they found to be bad. *)
Definition pass_accurate (q : BlockQueue) : Prop :=
  let (bv, v) := removeIf (verified_bad q) (m_verified q) in
  takes_bad (verified_bad q) (m_verified q) /\ forall q1, note_bad (map vb_hash bv) (set_verified v q) = Value q1 ->
    let (bu, u) := removeIf (unverified_bad q1) (m_unverified q1) in
    takes_bad (unverified_bad q1) (m_unverified q1) /\ forall q2, note_bad (map ub_hash bu) (set_unverified u q1) = Value q2 ->
      takes_bad (verifying_bad q2) (m_verifying q2).
Inductive accurate : BlockQueue -> Prop :=
  accurate_intro q : pass_accurate q -> (forall q', update_pass q = Value (true, q') -> accurate q') -> accurate q.
Definition update_accurate (b : Z) (q : BlockQueue) : Prop := forall q', collectUnknownBad b q = Value q' -> accurate q'.
Fixpoint updates_accurate (l : list Z) (q : BlockQueue) : Prop :=
  match l with [] => True | b :: l => update_accurate b q /\ forall q', updateBad b q = Value q' -> updates_accurate l q' end.

(** The queue while blocks are found to be bad: verified blocks may have bad
    parents. *)
Notation any := (fun _ : Z => True).
Record midway (K : Z -> Prop) (q : BlockQueue) : Prop := {
  mw_core : core_but any K [] q;
  mw_head : head_in_progress q;
  mw_sized : sized q
}.

Definition mark (l : list Z) (q : BlockQueue) : BlockQueue := set_ready (m_readySet q ∖ list_to_set l) (set_bad (list_to_set l ∪ m_knownBad q) q).

Lemma effect_mark l q q' : effect l q q' -> effect [] (mark l q) q'.
Proof.
  intros [(W & P & U & B) R Q D F J]. constructor; try done.
  - exists W. split_and!; [done|done|]. rewrite B. cbn. set_solver.
  - rewrite R. cbn. set_solver.
  - by destruct Q.
Qed.

(** Blocks that waited are found to be bad. *)
Lemma core_wasted V K q q' : core_but V K [] q -> effect [] q q' -> core_but V K [] q'.
Proof.
  intros [] [(W & P & U & B) R [Qv Qw Qu] D F J]. rewrite app_nil_r in *. cbn [list_to_set] in *. rewrite difference_empty_L in R. rewrite union_empty_l_L in B.
  rewrite P, map_app in co_unknown_nodup. apply NoDup_app in co_unknown_nodup as (Hnd & Hdis & _). rewrite P, Forall_app in co_waiting.
  assert (list_to_set (map waiting_hash W) ⊆ m_unknownSet q) as HW.
  { intros h. rewrite elem_of_list_to_set, co_unknown, P, map_app, elem_of_app. auto. }
  constructor; rewrite ?app_nil_r, ?Qv, ?Qw, ?Qu, ?D, ?F, ?J; try done.
  - unfold pipeline. rewrite Qv, Qw, Qu, R, U, B. by apply lined_waste.
  - intros h. rewrite U, elem_of_difference, elem_of_list_to_set, co_unknown, P, map_app, elem_of_app. split; [tauto|]. intros Hh. specialize (Hdis h Hh). tauto.
  - tauto.
  - eapply matched_mono; [|done]. rewrite B. set_solver.
Qed.

Lemma u_entry_ids l : (map u_entry l).*1 = map ub_hash l.
Proof. induction l as [|b l IH]; [done|]. cbn. by f_equal. Qed.
Lemma w_entry_ids l : (map w_entry l).*1 = map verifying_hash l.
Proof. induction l as [|b l IH]; [done|]. cbn. by f_equal. Qed.
Lemma v_entry_ids l : (map v_entry l).*1 = map vb_hash l.
Proof. induction l as [|b l IH]; [done|]. cbn. by f_equal. Qed.

(** The blocks at the end of a queue leave it and are bad. *)
Lemma core_trim_verified V K q v l : core_but V K [] q -> m_queue (m_verified q) = m_queue v ++ l -> core_but V K [] (mark (map vb_hash l) (set_verified v q)).
Proof.
  intros [] El. unfold pipeline in co_lined. rewrite El in *. rewrite map_app in co_verified. rewrite map_app, <- app_assoc in co_lined. apply (lined_drops K _ (map v_entry l)) in co_lined. rewrite v_entry_ids in co_lined.
  apply ordered_app in co_verified as [? _]. apply Forall_app in co_checked as [? _].
  constructor; try done. eapply matched_mono; [|done]. cbn. set_solver.
Qed.

Lemma core_trim_unverified V K q u l : core_but V K [] q -> m_queue (m_unverified q) = m_queue u ++ l -> core_but V K [] (mark (map ub_hash l) (set_unverified u q)).
Proof.
  intros [] El. unfold pipeline in co_lined. rewrite El, map_app, !app_assoc in co_lined. rewrite El in co_unverified. rewrite <- (app_nil_r (map u_entry l)), app_assoc, <- app_assoc in co_lined.
  apply lined_drops in co_lined. rewrite u_entry_ids, app_nil_r, <- app_assoc in co_lined. apply Forall_app in co_unverified as [? _].
  constructor; try done. eapply matched_mono; [|done]. cbn. set_solver.
Qed.

Lemma core_trim_verifying V K q w l : core_but V K [] q -> m_queue (m_verifying q) = m_queue w ++ l -> core_but V K [] (mark (map verifying_hash l) (set_verifying w q)).
Proof.
  intros [] El. unfold pipeline in co_lined. rewrite El in *. rewrite map_app, <- app_assoc, app_assoc in co_lined. apply lined_drops in co_lined.
  rewrite w_entry_ids, <- app_assoc in co_lined. apply Forall_app in co_verifying as [? _]. rewrite filter_app in co_jobs.
  constructor; try done. cbn. eapply matched_drop; [| |exact co_jobs]; [set_solver|]. intros b [Hp Hb]%list_elem_of_filter. rewrite <- in_progress_hash by done.
  apply elem_of_union_l, elem_of_list_to_set. by apply elem_of_map.
Qed.

Lemma sized_effect l q q' : sized q -> effect l q q' -> sized q'.
Proof. intros [] [_ _ [Q1 Q2 Q3] _ _ _]. constructor; congruence. Qed.
Lemma head_effect l q q' : head_in_progress q -> effect l q q' -> head_in_progress q'.
Proof. intros Hh [_ _ [_ Q _] _ _ _]. unfold head_in_progress in *. by rewrite Q. Qed.

Lemma midway_verified K q q' : midway K q -> takes_bad (verified_bad q) (m_verified q) ->
  note_bad (map vb_hash (removeIf (verified_bad q) (m_verified q)).1) (set_verified (removeIf (verified_bad q) (m_verified q)).2 q) = Value q' -> midway K q'.
Proof.
  intros [Hq Hh []] Ht E%note_bad_effect. apply takes_bad_split in Ht as [El Hz]; [|done]. constructor.
  - eapply core_wasted; [|by apply effect_mark]. by apply core_trim_verified.
  - exact (head_effect _ (set_verified _ q) _ Hh E).
  - eapply sized_effect; [|done]. constructor; auto.
Qed.

Lemma midway_unverified K q q' : midway K q -> takes_bad (unverified_bad q) (m_unverified q) ->
  note_bad (map ub_hash (removeIf (unverified_bad q) (m_unverified q)).1) (set_unverified (removeIf (unverified_bad q) (m_unverified q)).2 q) = Value q' -> midway K q'.
Proof.
  intros [Hq Hh []] Ht E%note_bad_effect. apply takes_bad_split in Ht as [El Hz]; [|done]. constructor.
  - eapply core_wasted; [|by apply effect_mark]. by apply core_trim_unverified.
  - exact (head_effect _ (set_unverified _ q) _ Hh E).
  - eapply sized_effect; [|done]. constructor; auto.
Qed.

Lemma midway_verifying K q q' : midway K q -> takes_bad (verifying_bad q) (m_verifying q) ->
  note_bad (map verifying_hash (removeIf (verifying_bad q) (m_verifying q)).1) (set_verifying (removeIf (verifying_bad q) (m_verifying q)).2 q) = Value q' -> midway K q'.
Proof.
  intros [Hq Hh []] Ht E%note_bad_effect. apply takes_bad_split in Ht as [El Hz]; [|done]. constructor.
  - eapply core_wasted; [|by apply effect_mark]. by apply core_trim_verifying.
  - eapply head_effect; [|done]. unfold head_in_progress in *. cbn -[removeIf]. rewrite El in Hh. by destruct (m_queue (removeIf (verifying_bad q) (m_verifying q)).2).
  - eapply sized_effect; [|done]. constructor; auto.
Qed.

Lemma midway_pass K q more q' : midway K q -> pass_accurate q -> update_pass q = Value (more, q') -> midway K q'.
Proof.
  unfold pass_accurate, update_pass. intros Hq. pose proof (midway_verified K q) as S1. destruct (removeIf (verified_bad q) (m_verified q)) as [bv v].
  intros [T1 Ha] E. apply rbind_Value in E as (q1 & E1 & E). specialize (Ha q1 E1). apply S1 in E1; [|done..].
  pose proof (midway_unverified K q1) as S2. destruct (removeIf (unverified_bad q1) (m_unverified q1)) as [bu u].
  destruct Ha as [T2 Ha]. apply rbind_Value in E as (q2 & E2 & E). specialize (Ha q2 E2). apply S2 in E2; [|done..].
  pose proof (midway_verifying K q2) as S3. destruct (removeIf (verifying_bad q2) (m_verifying q2)) as [bw w].
  apply rbind_Value in E as (q3 & E3 & E). injection E as _ <-. by apply S3.
Qed.

Lemma midway_loop K fuel q q' : midway K q -> accurate q -> update_loop fuel q = Value q' -> midway K q'.
Proof.
  revert q. induction fuel as [|f IH]; intros q Hq Ha; [done|]. cbn [update_loop]. intros E. apply rbind_Value in E as ([more q1] & E1 & E).
  destruct Ha as [q Hp Ha]. pose proof (midway_pass K q more q1 Hq Hp E1) as Hq1. cbn [fst snd] in E. destruct more; [|by injection E as <-]. apply (IH q1); auto.
Qed.

Lemma midway_update K b q q' : midway K q -> update_accurate b q -> updateBad b q = Value q' -> midway K q'.
Proof.
  intros [Hq Hh Hz] Ha. unfold updateBad. intros E. apply rbind_Value in E as (q1 & E1 & E). specialize (Ha q1 E1).
  eapply midway_loop; [|exact Ha|exact E]. unfold collectUnknownBad in E1. apply collect_loop_effect in E1. constructor; [by eapply core_wasted|by eapply head_effect|by eapply sized_effect].
Qed.

Lemma midway_updates K l q q' : midway K q -> updates_accurate l q -> update_all l q = Value q' -> midway K q'.
Proof.
  revert q. induction l as [|b l IH]; intros q Hq; cbn [update_all updates_accurate]; [by intros _ [= <-]|]. intros [Ha Hl] E.
  apply rbind_Value in E as (q1 & E1 & E). apply (IH q1); auto. by eapply midway_update.
Qed.

(** When no queued block is bad any more, the queue is as before. *)
Lemma steady_settled K q : midway K q -> no_bad_queued q -> away q -> steady K q.
Proof.
  intros [[] Hh Hz] [Hb _ _] Ha. constructor; [|done..]. constructor; try done. destruct co_lined. unfold pipeline in ln_ordered. apply ordered_app in ln_ordered as [Ho _].
  eapply ordered_on; [|exact Ho]. intros x Hx%list_elem_of_In%in_map_iff. destruct Hx as (b & <- & Hx%list_elem_of_In). apply Hb in Hx.
  apply orb_false_iff in Hx as [Hx%bool_decide_eq_false _]. cbn. tauto.
Qed.

Lemma steady_midway K q : steady K q -> midway K q.
Proof. intros [Hq Hh _ Hz]. constructor; [|done..]. by eapply core_mono; [..|exact Hq]. Qed.

(** ** The operations *)

(** An import; if it finds the parent to be bad, as far as [updateBad] takes out
    what is bad. *)
Lemma steady_import view K now block ours q r q' : hashes_apart e blocks -> within view K -> steady K q -> blocks block ->
  import e view now block ours q = Value (r, q') ->
  (r = BadChain -> forall h, headerHashFromBlock block = Value h -> update_accurate h (set_bad ({[h]} ∪ m_knownBad q) q)) -> steady K q'.
Proof.
  intros Ha HK Hq Hb. unfold import. intros E Hacc. apply rbind_Value in E as (h & Hh & E). destruct (import_known h q) eqn:Ek; [by injection E as _ <-|].
  apply import_known_false in Ek as (HR & HD & HU & HB).
  destruct (verifyBlock e view PostGenesis block) as [v| | |] eqn:Ev; try done; [|by injection E as _ <-].
  destruct (imported_sound view PostGenesis block h v Ha Hb Hh Ev) as [Ei Hs].
  destruct (isKnown view h); [by injection E as _ <-|]. destruct (_ && _).
  { injection E as _ <-. destruct Hq as [[] ?? []]. constructor; [|done..|by constructor]. constructor; try done. cbn.
    rewrite multimap_insert_perm. by constructor. }
  unfold import_now in E. cbv zeta in E. destruct (is_bad q _) eqn:Eb.
  - apply rbind_Value in E as (q1 & Eu & E). injection E as <- <-. rewrite Ei in Eu. specialize (Hacc eq_refl h Hh).
    match type of Eu with updateBad ?b ?q0 = _ => destruct (updateBad_facts b q0) as (q2 & Eu' & Hm & Hn & Hx) end. assert (q2 = q1) as -> by congruence.
    apply steady_settled; [|done|].
    + eapply midway_update; [|exact Hacc|exact Eu]. pose proof (steady_midway K q Hq) as [[] Hh' []]. constructor; [|done|by constructor].
      constructor; try done; [by apply lined_blame|]. eapply matched_mono; [|done]. cbn. set_solver.
    + intros x Hin. destruct (Hx x Hin) as [Hne Hbad]. apply Hm in Hin. destruct (st_away _ _ Hq x Hin) as (? & ? & ?). destruct Hm. cbn in *. set_solver.
  - apply bool_decide_eq_false in Eb. destruct (parent_ready view (h_parentHash (vr_info v)) q) eqn:Ep; cbn [negb] in E.
    + apply rbind_Value in E as (q1 & En & E). injection E as _ <-. by eapply steady_enqueue.
    + injection E as _ <-. apply parent_ready_false in Ep as (? & ? & _). by apply steady_wait.
Qed.

Lemma past_future_cases now q todo q' : past_future now q = (todo, q') ->
  exists m, q' = set_future m q /\ (forall x, x ∈ m_map m -> x ∈ m_map (m_future q)) /\ forall b, b ∈ todo -> b ∈ map snd (m_map (m_future q)).
Proof.
  unfold past_future. assert (q = set_future (m_future q) q) as Eq by by destruct q.
  destruct (firstKey (m_future q)) as [first|]; [|intros [= <- <-]; exists (m_future q); split_and!; [done|done|set_solver]].
  destruct (now <? first); [intros [= <- <-]; exists (m_future q); split_and!; [done|done|set_solver]|].
  unfold removeByKeyNotGreater, map_removeRange. intros [= <- <-]. eexists. split; [done|]. cbn. split.
  - intros x Hx. by apply list_elem_of_filter in Hx as [_ ?].
  - intros b Hb. apply list_elem_of_In, in_map_iff in Hb as (x & <- & Hx%list_elem_of_In). apply list_elem_of_filter in Hx as [_ ?]. by apply elem_of_map.
Qed.

Lemma steady_past K now q todo q' : steady K q -> past_future now q = (todo, q') -> steady K q'.
Proof.
  intros [[] ?? []] (m & -> & Hm & _)%past_future_cases. constructor; [|done..|by constructor]. constructor; try done. cbn. rewrite Forall_forall in *. auto.
Qed.

Lemma steady_take K q q' : steady K q -> take_work q = Some q' -> steady K q'.
Proof.
  intros [Hq Hh Ha Hz] E. destruct (core_take e blocks K q q' Hq Hh E) as [??]. constructor; [done..| |by eapply sized_take].
  revert E. unfold take_work, q_dequeue. destruct (m_deleting q); [done|]. destruct (m_queue (m_unverified q)); [done|]. intros [= <-]. exact Ha.
Qed.

Lemma steady_finish K view i q q' : hashes_apart e blocks -> steady K q -> finish_work e view i q = Value q' -> steady K q'.
Proof.
  intros Hap [Hq Hh Ha Hz] E. destruct (core_finish e blocks K q view i q' Hap Hq Hh E) as [??].
  constructor; [done..| |exact (sized_finish K q view i q' Hap Hq Hh Hz E)]. exact (none_new_away q q' (none_new_finish K q view i q' Hap Hq Hh E) Ha).
Qed.

Lemma steady_noteReady (K : Z -> Prop) g q q' : steady K q -> K g -> noteReady g q = Value q' -> steady K q'.
Proof.
  intros [Hq Hh Ha Hz] Hg E. destruct (noteReady_total blocks g q) as (q2 & E' & Hsame & Hx). assert (q2 = q') as -> by congruence. destruct Hsame.
  constructor; [by eapply core_noteReady; [|by left|]| | |by eapply sized_ready_loop].
  - unfold head_in_progress in *. by rewrite sn_verifying.
  - intros x Hin. destruct (Hx x Hin) as [Hne Hr]. destruct (Ha x) as (? & ? & ?); [by apply sn_unknown in Hin|]. rewrite sn_draining, sn_bad. tauto.
Qed.

(** [retryAllUnknown] takes the parents of what waits on trust. *)
Lemma retry_loop_kept (K : Z -> Prop) fuel q q' : core K [] q -> sized q -> Forall (fun x => K x.1) (m_map (m_unknown q)) -> retry_loop fuel q = Value q' ->
  core K [] q' /\ sized q' /\ m_verifying q' = m_verifying q /\ m_map (m_unknown q') = [].
Proof.
  revert q. induction fuel as [|f IH]; intros q Hq Hz HK; cbn [retry_loop]; (destruct (firstKey (m_unknown q)) as [p|] eqn:Ef; [|intros [= <-]; split_and!; try done; unfold firstKey in Ef; by destruct (m_map (m_unknown q))]); [done|].
  assert (K p) as Hp. { unfold firstKey in Ef. destruct (m_map (m_unknown q)) as [|x l]; [done|]. injection Ef as <-. by apply Forall_cons in HK as [? _]. }
  unfold removeByKeyEqual, map_removeRange. fold (waiting_for p q) (not_waiting_for p q).
  match goal with |- context [foldl (note_ready p) ?q0 ?rs] => set (q1 := q0); set (removed := rs) end.
  destruct (notes_ready_same p removed q1) as (Hs & Em & _). intros E. apply IH in E as (? & ? & E1 & ?).
  - split_and!; [done|done| |done]. rewrite E1. exact (sn_verifying _ _ Hs).
  - apply core_notes_ready; [by apply core_take_waiting|by left].
  - apply sized_notes. by destruct Hz.
  - rewrite Em. unfold q1. cbn. rewrite Forall_forall in *. intros x [_ Hx]%list_elem_of_filter. auto.
Qed.

Lemma steady_retry (K : Z -> Prop) q q' : steady K q -> Forall (fun x => K x.1) (m_map (m_unknown q)) -> retryAllUnknown q = Value q' -> steady K q'.
Proof.
  intros [Hq Hh Ha Hz] HK E. destruct (retry_loop_kept K _ q q' Hq Hz HK E) as (? & ? & Ev & Em). constructor; [done| | |done].
  - unfold head_in_progress in *. by rewrite Ev.
  - intros x. rewrite Em. intros Hx. by apply elem_of_nil in Hx.
Qed.

(** ** Draining *)

(** The first block of [m_verified] drains. *)
Lemma core_drain_one K q b l s : core K [] (set_verified (mkQueue (b :: l) s) q) -> core K [] (set_verified (mkQueue l s) (note_draining q b)).
Proof.
  intros []. cbn in *. apply Forall_cons in co_checked as [Hc Hl]. destruct co_verified as [_ Hv]. constructor; try done; cbn.
  - unfold pipeline in *. cbn in *. by apply (lined_drain K (v_entry b)).
  - eapply ordered_mono; [|exact Hv]. cbn. set_solver.
Qed.

Lemma core_drain_all K out l s s' q : core K [] (set_verified (mkQueue (out ++ l) s) q) -> core K [] (foldl note_draining (set_verified (mkQueue l s') q) out).
Proof.
  revert q. induction out as [|b out IH]; intros q Hq; cbn [app foldl]; [by destruct Hq|].
  change (note_draining (set_verified (mkQueue l s') q) b) with (set_verified (mkQueue l s') (note_draining q b)). apply IH. by apply core_drain_one.
Qed.

Lemma notes_draining out q : let q' := foldl note_draining q out in
  m_verifying q' = m_verifying q /\ m_verified q' = m_verified q /\ m_unverified q' = m_unverified q /\ m_unknown q' = m_unknown q /\ m_knownBad q' = m_knownBad q /\
  m_readySet q' ⊆ m_readySet q /\ (forall h, h ∈ m_drainingSet q' <-> h ∈ m_drainingSet q \/ h ∈ map vb_hash out).
Proof.
  revert q. induction out as [|b out IH]; intros q; cbn [foldl]; [split_and!; try done; intros h; cbn; rewrite elem_of_nil; tauto|].
  destruct (IH (note_draining q b)) as (E1 & E2 & E3 & E4 & E5 & E6 & E7). split_and!; try done.
  - cbn in E6. set_solver.
  - intros h. rewrite E7. cbn. rewrite elem_of_union, elem_of_singleton, elem_of_cons. tauto.
Qed.

Lemma drain_now_out max q out q' : drain_now max q = (Some out, q') -> m_drainingSet q = ∅ /\ exists l,
  m_queue (m_verified q) = out ++ l /\ q' = foldl note_draining (set_verified (mkQueue l (size_without (q_size (m_verified q)) out)) (set_draining ∅ 0 q)) out.
Proof.
  unfold drain_now. case_bool_decide as Hd; [|done]. unfold dequeueMultiple, removeRange. intros [= <- <-]. split; [done|].
  eexists. split; [by rewrite take_drop|]. by rewrite Hd.
Qed.

Lemma steady_drain_now K max q out q' : steady K q -> drain_now max q = (out, q') -> steady K q'.
Proof.
  intros Hq E. destruct out as [out|]; [|unfold drain_now in E; case_bool_decide; [done|by injection E as <-]].
  destruct (drain_now_out _ _ _ _ E) as (Hd & l & El & Eq). rewrite Eq. destruct Hq as [Hq Hh Ha []].
  match goal with |- steady K (foldl note_draining ?q0 out) => set (q1 := q0) end.
  destruct (notes_draining out q1) as (E1 & E2 & E3 & E4 & E5 & E6 & E7). constructor.
  - unfold q1. eapply (core_drain_all K out l (q_size (m_verified q))). rewrite <- El. destruct Hq. constructor; try done; cbn; rewrite <- ?Hd; try done.
  - unfold head_in_progress. by rewrite E1.
  - eapply none_new_away; [|exact Ha]. split; [by rewrite E4|]. intros h. rewrite E5, E7. cbn. intros [Hh'|[[Hh'|Hh']|Hh']]; [left; by apply E6|set_solver| |auto].
    left. apply (ln_ready _ _ _ _ _ _ (co_lined _ _ _ _ _ _ Hq)). unfold pipeline. rewrite El, map_app, !fmap_app, !elem_of_app. left. left.
    apply list_elem_of_fmap in Hh' as (b & -> & Hb). apply list_elem_of_fmap. exists (v_entry b). split; [done|]. by apply elem_of_map.
  - constructor; rewrite ?E1, ?E2, ?E3; try done. unfold q1. cbn.
    assert (l = drop (length out) (m_queue (m_verified q)) /\ out = take (length out) (m_queue (m_verified q))) as [El1 El2] by (rewrite El, drop_app_length, take_app_length; done).
    apply (sized_range l out (m_verified q)); [done|]. rewrite El. apply bytes_app.
Qed.

Lemma steady_drain K max q out q' : steady K q -> drain max q = (out, q') -> steady K q'.
Proof.
  intros Hq. unfold drain. destruct (drain_now max q) as [o q1] eqn:E. intros [= <- <-]. apply (steady_drain_now K) in E; [|done].
  destruct (_ && _); [|done]. destruct E as [? ? ? []]. constructor; [by apply core_notify|done|done|by constructor].
Qed.

(** [doneDrain]: the drained blocks are in the chain, or bad, or [K] knows why
    not. *)
Lemma steady_done (K : Z -> Prop) q bad b q' : steady K q -> list_to_set bad ⊆ m_drainingSet q -> (forall h, h ∈ m_drainingSet q -> K h \/ h ∈ bad) ->
  (forall d, updates_accurate bad (set_bad (m_knownBad q ∪ list_to_set bad) (set_difficulty d (set_draining ∅ 0 q)))) ->
  doneDrain bad q = Value (b, q') -> steady K q'.
Proof.
  intros Hq Hbad Hd Hacc. unfold doneDrain. set (d := u256 _). intros E. apply rbind_Value in E as (q1 & Eu & E). injection E as _ <-. specialize (Hacc d).
  assert (midway K (set_bad (m_knownBad q ∪ list_to_set bad) (set_difficulty d (set_draining ∅ 0 q)))) as Hm.
  { pose proof (steady_midway K q Hq) as [[] Hh []]. constructor; [|done|by constructor]. constructor; try done; cbn.
    - apply lined_done with (D := m_drainingSet q); [done|done|]. intros h Hh'. rewrite elem_of_list_to_set. auto.
    - eapply ordered_mono; [|exact co_verified]. cbn. tauto.
    - eapply matched_mono; [|done]. set_solver. }
  assert (away (set_bad (m_knownBad q ∪ list_to_set bad) (set_difficulty d (set_draining ∅ 0 q)))) as Haw.
  { intros x Hx. cbn in *. destruct (st_away _ _ Hq x Hx) as (? & ? & ?). set_solver. }
  destruct bad as [|b0 bad].
  - injection Eu as <-. cbn in *. pose proof (co_verified _ _ _ _ _ _ (st_core _ _ Hq)) as Hv. destruct Hm as [[] Hh []]. constructor; [|done| |by constructor].
    + rewrite union_empty_r_L in *. constructor; try done. cbn. eapply ordered_mono; [|exact Hv].
      cbn. intros p [?|[Hp|[]]]; [by left|]. destruct (Hd p Hp) as [?|Hin]; [by left|]. by apply elem_of_nil in Hin.
    + by rewrite union_empty_r_L in Haw.
  - pose proof (midway_updates K _ _ _ Hm Hacc Eu) as Hm'. destruct (update_all_settled (b0 :: bad) _ q1 Eu) as (Hmk & Hx & Hn). apply steady_settled; [done|by apply Hn|].
    intros x Hin. specialize (Hx x Hin). destruct Hmk. destruct (Haw x) as (? & ? & ?); [auto|]. cbn in *. set_solver.
Qed.

Lemma steady_clear K q : jobs q = [] -> steady K (clear q).
Proof.
  intros Hj. constructor; [|done|by intros x Hx%elem_of_nil|by constructor]. constructor; cbn; rewrite ?Hj; try apply NoDup_nil_2; try apply Forall_nil_2; try done.
  - constructor; cbn; try done; [apply NoDup_nil_2|..]; set_solver.
  - set_solver.
  - by exists [], [].
Qed.

Lemma steady_new K : steady K new_BlockQueue.
Proof. by apply (steady_clear K new_BlockQueue). Qed.

Lemma steady_mono (K K' : Z -> Prop) q : (forall p, K p -> K' p) -> steady K q -> steady K' q.
Proof. intros HK []. constructor; [|done..]. by eapply core_mono; [| |done]. Qed.

Lemma steady_stop K q : steady K q -> steady K (stop q).
Proof. intros [[] ?? []]. constructor; [by constructor|done|done|by constructor]. Qed.

(** ** Runs *)

(** All that can happen to the queue: blocks arrive, the time of others comes,
    verifiers take blocks and are done with them, the client drains blocks and
    tells which of them are bad, and the rest of the interface, whatever the chain
    answers at the time; and the queue is cleared. *)
Inductive call : BlockQueue -> BlockQueue -> Prop :=
| call_import view now block ours q r q' : blocks block -> import e view now block ours q = Value (r, q') -> call q q'
| call_past now q todo q' : past_future now q = (todo, q') -> call q q'
| call_take q q' : take_work q = Some q' -> call q q'
| call_finish view i q q' : finish_work e view i q = Value q' -> call q q'
| call_drain max out q q' : drain max q = (out, q') -> call q q'
| call_done bad more q q' : doneDrain bad q = Value (more, q') -> call q q'
| call_noteReady h q q' : noteReady h q = Value q' -> call q q'
| call_retry q q' : retryAllUnknown q = Value q' -> call q q'
| call_stop q : call q (stop q).

(** The queue with the chain, which only grows, and the blocks that were taken on
    trust: their children went on although nobody saw them in the chain. *)
Record world := mkWorld { w_chain : ChainView; w_trusted : gset Z; w_queue : BlockQueue }.
Definition accepted (w : world) (p : Z) : Prop := isKnown (w_chain w) p = true \/ p ∈ w_trusted w.

Definition older (view chain : ChainView) : Prop := forall h, isKnown view h = true -> isKnown chain h = true.
Definition with_queue (w : world) (trusted : gset Z) (q : BlockQueue) : world := mkWorld (w_chain w) (w_trusted w ∪ trusted) q.

(** Orderly runs.  All these steps, with the answers of a chain that only grows,
    except that: [updateBad] takes out of the queues what it found to be bad, and
    not others in its place as [removeIf] does when this does not stand at the end
    ([good_block_blamed]); the blocks that the client calls bad are draining; and
    the queue is not cleared under a verifier at work.  The parents that
    [noteReady] and [retryAllUnknown] do not ask for are trusted, and so are
    drained blocks that the client neither took into the chain nor called bad. *)
Inductive orderly_step : world -> world -> Prop :=
| orderly_chain w chain : older (w_chain w) chain -> orderly_step w (mkWorld chain (w_trusted w) (w_queue w))
| orderly_import w view now block ours r q' : older view (w_chain w) -> blocks block -> import e view now block ours (w_queue w) = Value (r, q') ->
    (r = BadChain -> forall h, headerHashFromBlock block = Value h -> update_accurate h (set_bad ({[h]} ∪ m_knownBad (w_queue w)) (w_queue w))) ->
    orderly_step w (with_queue w ∅ q')
| orderly_past w now todo q' : past_future now (w_queue w) = (todo, q') -> orderly_step w (with_queue w ∅ q')
| orderly_take w q' : take_work (w_queue w) = Some q' -> orderly_step w (with_queue w ∅ q')
| orderly_finish w view i q' : finish_work e view i (w_queue w) = Value q' -> orderly_step w (with_queue w ∅ q')
| orderly_drain w max out q' : drain max (w_queue w) = (out, q') -> orderly_step w (with_queue w ∅ q')
| orderly_done w bad more q' : list_to_set bad ⊆ m_drainingSet (w_queue w) ->
    (forall d, updates_accurate bad (set_bad (m_knownBad (w_queue w) ∪ list_to_set bad) (set_difficulty d (set_draining ∅ 0 (w_queue w))))) ->
    doneDrain bad (w_queue w) = Value (more, q') ->
    orderly_step w (with_queue w (filter (fun h => isKnown (w_chain w) h = false) (m_drainingSet (w_queue w) ∖ list_to_set bad)) q')
| orderly_noteReady w h q' : noteReady h (w_queue w) = Value q' -> orderly_step w (with_queue w {[h]} q')
| orderly_retry w q' : retryAllUnknown (w_queue w) = Value q' -> orderly_step w (with_queue w (list_to_set (map fst (m_map (m_unknown (w_queue w))))) q')
| orderly_clear w : jobs (w_queue w) = [] -> orderly_step w (with_queue w ∅ (clear (w_queue w)))
| orderly_stop w : orderly_step w (with_queue w ∅ (stop (w_queue w))).

Definition orderly (w : world) : Prop := exists chain, rtc orderly_step (mkWorld chain ∅ new_BlockQueue) w.



Lemma accepted_with w trusted q p : accepted w p -> accepted (with_queue w trusted q) p.
Proof. intros [?|?]; [by left|right]. cbn. set_solver. Qed.

Lemma steady_step w w' : hashes_apart e blocks -> orderly_step w w' -> steady (accepted w) (w_queue w) -> steady (accepted w') (w_queue w').
Proof.
  intros Ha Hs Hq. assert (forall trusted q, steady (accepted w) q -> steady (accepted (with_queue w trusted q)) q) as Hw.
  { intros trusted q. apply steady_mono, accepted_with. }
  destruct Hs as [w chain Ho|w view now block ours r q' Ho Hb E Hacc|w now todo q' E|w q' E|w view i q' E|w max out q' E|w bad more q' Hbad Hacc E|w h q' E|w q' E|w Hj|w]; cbn [w_queue with_queue].
  - eapply steady_mono; [|exact Hq]. intros p [?|?]; [left; by apply Ho|by right].
  - apply Hw. eapply steady_import; [done| |exact Hq|exact Hb|exact E|exact Hacc]. intros p Hp. left. by apply Ho.
  - apply Hw. by eapply steady_past.
  - apply Hw. by eapply steady_take.
  - apply Hw. by eapply steady_finish.
  - apply Hw. by eapply steady_drain.
  - eapply steady_done; [eapply steady_mono; [apply accepted_with|exact Hq]|exact Hbad| |exact Hacc|exact E]. intros h Hh.
    destruct (isKnown (w_chain w) h) eqn:Ek; [left; by left|]. destruct (decide (h ∈ bad)); [by right|]. left. right. cbn.
    apply elem_of_union_r, elem_of_filter. split; [done|]. rewrite elem_of_difference, elem_of_list_to_set. done.
  - eapply steady_noteReady; [eapply steady_mono; [apply accepted_with|exact Hq]| |exact E]. right. cbn. set_solver.
  - eapply steady_retry; [eapply steady_mono; [apply accepted_with|exact Hq]| |exact E]. apply Forall_forall. intros x Hx. right. cbn.
    apply elem_of_union_r, elem_of_list_to_set. by apply elem_of_map.
  - by apply steady_clear.
  - apply Hw. by apply steady_stop.
Qed.

Lemma steady_orderly w : hashes_apart e blocks -> orderly w -> steady (accepted w) (w_queue w).
Proof.
  intros Ha [chain Hr]. pose proof (steady_new (accepted (mkWorld chain ∅ new_BlockQueue))) as Hc.
  change new_BlockQueue with (w_queue (mkWorld chain ∅ new_BlockQueue)) in Hc at 2. 
  induction Hr as [|w1 w2 w3 Hs _ IH]; [done|]. apply IH. by eapply steady_step.
Qed.

(** ** What holds of every block in the queue *)

Lemma Forall_kept {A} (P : A -> Prop) (p : A -> bool) (l : list A) : Forall P l -> Forall P (filter (fun x => p x = false) l).
Proof. rewrite !Forall_forall. intros Hl x [_ Hx]%list_elem_of_filter. auto. Qed.

Section Everywhere.
  Context (V W : VerifiedBlock -> Prop) (U : UnverifiedBlock -> Prop).
  Context (HWV : forall b, W b -> in_progress b = false -> V b) (HUW : forall w, U w -> W (being_verified w)).
  Context (HUV : forall view w v, U w -> verifyBlock e view OutOfOrderChecks (ub_blockData w) = Value v ->
    V (mkVerifiedBlock v (ub_blockData w)) /\ W (mkVerifiedBlock v (ub_blockData w))).

Record everywhere (q : BlockQueue) : Prop := {
  ev_verified : Forall V (m_queue (m_verified q));
  ev_verifying : Forall W (m_queue (m_verifying q));
  ev_unverified : Forall U (m_queue (m_unverified q));
  ev_jobs : Forall U (jobs q);
  ev_waiting : Forall (fun x => U (waiting_block x)) (m_map (m_unknown q))
}.

Lemma everywhere_accept b q : V b -> everywhere q -> everywhere (accept b q).
Proof. intros Hb []. unfold accept. case_decide; constructor; try done. apply Forall_app. by split; [|constructor]. Qed.

Lemma everywhere_drain_loop fuel q : everywhere q -> everywhere (drain_loop fuel q).
Proof.
  revert q. induction fuel as [|f IH]; intros q Hq; [done|]. cbn [drain_loop]. unfold q_dequeue.
  destruct (m_queue (m_verifying q)) as [|b l] eqn:El; [done|]. destruct (vb_blockData b) eqn:Ed; [done|]. destruct Hq. rewrite El in *.
  apply Forall_cons in ev_verifying0 as [Hb Hl]. apply IH, everywhere_accept; [|by constructor]. apply HWV; [done|]. unfold in_progress. by rewrite Ed.
Qed.

Lemma everywhere_take q q' : everywhere q -> take_work q = Some q' -> everywhere q'.
Proof.
  intros []. unfold take_work, q_dequeue. destruct (m_deleting q); [done|]. destruct (m_queue (m_unverified q)) as [|w u]; [done|]. intros [= <-].
  apply Forall_cons in ev_unverified0 as [Hw Hu]. constructor; try done; apply Forall_app; (split; [done|]); constructor; auto.
Qed.

Lemma everywhere_finish view i q q' : everywhere q -> finish_work e view i q = Value q' -> everywhere q'.
Proof.
  intros Hq. unfold finish_work. destruct (jobs q !! i) as [w|] eqn:Hi; [|done]. cbn [rget rbind].
  assert (U w) as Hw by (destruct Hq; by eapply Forall_lookup_1 in Hi).
  assert (everywhere (set_jobs (delete i (jobs q)) q)) as Hq1 by (destruct Hq; constructor; try done; by apply Forall_delete).
  set (q1 := set_jobs (delete i (jobs q)) q) in *. destruct (verifyBlock e view OutOfOrderChecks (ub_blockData w)) as [v| | |] eqn:Ev; try done; intros [= <-].
  - destruct (HUV view w v Hw Ev) as [HV HW]. set (res := mkVerifiedBlock v (ub_blockData w)) in *.
    assert (everywhere (set_verifying (q_replace (ub_hash w) res (m_verifying q1)).2 q1)) as Hr.
    { destruct Hq1. constructor; try done. cbn. unfold q_replace. destruct (list_find _ _) as [[j b]|]; [|done]. by apply Forall_insert. }
    unfold verify_passed, q_dequeue. destruct (m_queue (m_verifying q1)) as [|b l] eqn:El; [done|]. destruct (_ =? _); [|done].
    assert (forall s, everywhere (drainVerified (accept res (set_verifying (mkQueue l s) q1)))) as Hd.
    { intros s. apply everywhere_drain_loop, everywhere_accept; [done|]. destruct Hq1. rewrite El in *. apply Forall_cons in ev_verifying0 as [_ Hl]. by constructor. }
    destruct (Hd (u64 (q_size (m_verifying q1) - lenZ (blockData b)))). by constructor.
  - apply everywhere_drain_loop. unfold drop_failed. unfold q_remove. cbn -[removeIf].
    destruct (removeIf (sha3UnclesEquals (ub_hash w)) (m_verifying q)) as [rem v] eqn:Er. destruct Hq1. constructor; try done. cbn.
    pose proof (removeIf_spec (sha3UnclesEquals (ub_hash w)) (m_verifying q)) as Hs. rewrite Er in Hs. destruct Hs as [-> _]. by apply Forall_kept.
Qed.

Lemma everywhere_notes parent rs q : everywhere q -> Forall (fun r => U (waiting_block (parent, r))) rs -> everywhere (foldl (note_ready parent) q rs).
Proof.
  revert q. induction rs as [|r rs IH]; intros q Hq; [done|]. cbn [foldl]. intros [Hr Hrs]%Forall_cons. apply IH; [|done].
  destruct Hq. constructor; try done. apply Forall_app. by split; [|constructor].
Qed.

Lemma everywhere_waiting parent s q : everywhere q ->
  everywhere (foldl (note_ready parent) (set_unknown (m_unknownSet q) (mkBlockMap (not_waiting_for parent q) s) q) (map snd (waiting_for parent q))).
Proof.
  intros []. pose proof (proj1 (Forall_forall _ _) ev_waiting0) as Hw. apply everywhere_notes.
  - constructor; try done. cbn. apply Forall_forall. intros x [_ Hx]%list_elem_of_filter. auto.
  - apply Forall_forall. intros r Hr%list_elem_of_In%in_map_iff. destruct Hr as (x & <- & Hx%list_elem_of_In).
    apply list_elem_of_filter in Hx as [Hp%Z.eqb_eq Hx]. specialize (Hw x Hx). by rewrite <- Hp.
Qed.

Lemma everywhere_ready_loop fuel gq q q' : everywhere q -> ready_loop fuel gq q = Value q' -> everywhere q'.
Proof.
  revert gq q. induction fuel as [|f IH]; intros [|g gq] q Hq; cbn [ready_loop]; [by intros [= <-]|done|by intros [= <-]|].
  unfold removeByKeyEqual, map_removeRange. fold (waiting_for g q) (not_waiting_for g q). intros E. eapply IH; [|exact E]. by apply everywhere_waiting.
Qed.

Lemma everywhere_retry_loop fuel q q' : everywhere q -> retry_loop fuel q = Value q' -> everywhere q'.
Proof.
  revert q. induction fuel as [|f IH]; intros q Hq; cbn [retry_loop]; (destruct (firstKey (m_unknown q)) as [p|]; [|by intros [= <-]]); [done|].
  unfold removeByKeyEqual, map_removeRange. fold (waiting_for p q) (not_waiting_for p q). intros E. eapply IH; [|exact E]. by apply everywhere_waiting.
Qed.

Lemma everywhere_effect l q q' : everywhere q -> effect l q q' -> everywhere q'.
Proof.
  intros [] [(X & P & _) _ [Q1 Q2 Q3] _ _ J]. rewrite P, Forall_app in ev_waiting0. constructor; rewrite ?Q1, ?Q2, ?Q3, ?J; tauto.
Qed.

(** A pass of [updateBad], with what it notes. *)
Lemma update_pass_stages q more q' : update_pass q = Value (more, q') -> exists q1 q2,
  effect (map vb_hash (removeIf (verified_bad q) (m_verified q)).1) (set_verified (removeIf (verified_bad q) (m_verified q)).2 q) q1 /\
  effect (map ub_hash (removeIf (unverified_bad q1) (m_unverified q1)).1) (set_unverified (removeIf (unverified_bad q1) (m_unverified q1)).2 q1) q2 /\
  effect (map verifying_hash (removeIf (verifying_bad q2) (m_verifying q2)).1) (set_verifying (removeIf (verifying_bad q2) (m_verifying q2)).2 q2) q'.
Proof.
  unfold update_pass. destruct (removeIf (verified_bad q) (m_verified q)) as [bv v]. intros E. apply rbind_Value in E as (q1 & E1%note_bad_effect & E).
  destruct (removeIf (unverified_bad q1) (m_unverified q1)) as [bu u] eqn:Eu. apply rbind_Value in E as (q2 & E2%note_bad_effect & E).
  destruct (removeIf (verifying_bad q2) (m_verifying q2)) as [bw w] eqn:Ew. apply rbind_Value in E as (q3 & E3%note_bad_effect & E). injection E as _ <-.
  exists q1, q2. rewrite Eu, Ew. done.
Qed.
(** [q'] comes from [q] by noting [l] as bad after blocks left the queues. *)
Lemma everywhere_verified q p : everywhere q -> everywhere (set_verified (removeIf p (m_verified q)).2 q).
Proof. intros []. constructor; try done. cbn. by apply Forall_kept. Qed.
Lemma everywhere_unverified q p : everywhere q -> everywhere (set_unverified (removeIf p (m_unverified q)).2 q).
Proof. intros []. constructor; try done. cbn. by apply Forall_kept. Qed.
Lemma everywhere_verifying q p : everywhere q -> everywhere (set_verifying (removeIf p (m_verifying q)).2 q).
Proof. intros []. constructor; try done. cbn. by apply Forall_kept. Qed.

Lemma everywhere_pass q more q' : everywhere q -> update_pass q = Value (more, q') -> everywhere q'.
Proof.
  intros Hq (q1 & q2 & E1 & E2 & E3)%update_pass_stages. eapply everywhere_effect; [|exact E3]. apply everywhere_verifying.
  eapply everywhere_effect; [|exact E2]. apply everywhere_unverified. eapply everywhere_effect; [|exact E1]. by apply everywhere_verified.
Qed.

Lemma everywhere_loop fuel q q' : everywhere q -> update_loop fuel q = Value q' -> everywhere q'.
Proof.
  revert q. induction fuel as [|f IH]; intros q Hq; [done|]. cbn [update_loop]. intros E. apply rbind_Value in E as ([more q1] & E1 & E).
  apply everywhere_pass in E1; [|done]. destruct more; [by apply (IH q1)|by injection E as <-].
Qed.

Lemma everywhere_update b q q' : everywhere q -> updateBad b q = Value q' -> everywhere q'.
Proof.
  intros Hq. unfold updateBad. intros E. apply rbind_Value in E as (q1 & E1 & E). unfold collectUnknownBad in E1. apply collect_loop_effect in E1.
  eapply everywhere_loop; [|exact E]. by eapply everywhere_effect.
Qed.

Lemma everywhere_updates l q q' : everywhere q -> update_all l q = Value q' -> everywhere q'.
Proof.
  revert q. induction l as [|b l IH]; intros q Hq; cbn [update_all]; [by intros [= <-]|]. intros E. apply rbind_Value in E as (q1 & E1 & E).
  apply (IH q1); [by eapply everywhere_update|done].
Qed.

Lemma everywhere_import view now block ours q r q' : everywhere q -> import e view now block ours q = Value (r, q') ->
  (forall h v, headerHashFromBlock block = Value h -> verifyBlock e view PostGenesis block = Value v -> import_known h q = false ->
    U (mkUnverifiedBlock h (h_parentHash (vr_info v)) block)) -> everywhere q'.
Proof.
  intros Hq. unfold import. intros E HU. apply rbind_Value in E as (h & Hh & E). destruct (import_known h q) eqn:Ek; [by injection E as _ <-|].
  destruct (verifyBlock e view PostGenesis block) as [v| | |] eqn:Ev; try done; [|by injection E as _ <-]. specialize (HU h v Hh eq_refl Ek).
  destruct (isKnown view h); [by injection E as _ <-|]. destruct (_ && _); [injection E as _ <-; by destruct Hq|].
  unfold import_now in E. cbv zeta in E. destruct (is_bad q _).
  - apply rbind_Value in E as (q1 & E1 & E). injection E as _ <-. eapply everywhere_update; [|exact E1]. by destruct Hq.
  - destruct (negb _).
    + injection E as _ <-. destruct Hq. constructor; try done. cbn. rewrite multimap_insert_perm. by constructor.
    + apply rbind_Value in E as (q1 & E1 & E). injection E as _ <-. eapply everywhere_ready_loop; [|exact E1]. destruct Hq. constructor; try done.
      apply Forall_app. by split; [|constructor].
Qed.

Lemma everywhere_drain max q out q' : everywhere q -> drain max q = (out, q') -> everywhere q'.
Proof.
  intros Hq. unfold drain. destruct (drain_now max q) as [o q1] eqn:E. intros [= <- <-].
  assert (everywhere q1) as Hq1; [|destruct (_ && _); [by destruct Hq1|done]].
  unfold drain_now in E. case_bool_decide; [|by injection E as _ <-]. unfold dequeueMultiple, removeRange in E. injection E as _ <-.
  match goal with |- everywhere (foldl note_draining ?q0 _) => assert (everywhere q0) as Hq0 by (destruct Hq; constructor; try done; cbn [set_verified m_verified m_queue]; by apply Forall_drop); revert Hq0; generalize q0 end.
  generalize (take (Z.to_nat (max `min` u32 (q_count (m_verified q)))) (m_queue (m_verified q))). intros l q0 Hq0. revert q0 Hq0.
  induction l as [|b l IH]; intros q0 Hq0; [done|]. apply IH. by destruct Hq0.
Qed.

Lemma everywhere_call q q' : (forall view block h v, blocks block -> headerHashFromBlock block = Value h -> verifyBlock e view PostGenesis block = Value v ->
    import_known h q = false -> U (mkUnverifiedBlock h (h_parentHash (vr_info v)) block)) -> call q q' -> everywhere q -> everywhere q'.
Proof.
  intros HU Hc Hq. destruct Hc as [view now block ours q r q' Hb E|now q todo q' E|q q' E|view i q q' E|max out q q' E|bad more q q' E|g q q' E|q q' E|q].
  - eapply everywhere_import; [done..|]. intros. by eapply HU.
  - apply past_future_cases in E as (m & -> & _). by destruct Hq.
  - by eapply everywhere_take.
  - by eapply everywhere_finish.
  - by eapply everywhere_drain.
  - unfold doneDrain in E. apply rbind_Value in E as (q1 & E1 & E). injection E as _ <-. destruct bad; [injection E1 as <-; by destruct Hq|].
    eapply everywhere_updates; [|exact E1]. by destruct Hq.
  - by eapply everywhere_ready_loop.
  - by eapply everywhere_retry_loop.
  - by destruct Hq.
Qed.

(** ** What stays ready *)

Section Lasting.
  Context (h : Z) (HVh : forall b, V b -> vb_hash b <> h) (HUh : forall w, U w -> ub_hash w <> h).
  Context (HWh : forall b, W b -> verifying_hash b <> h /\ vb_sha3Uncles b <> h).

Lemma lasting_effect l q q' : effect l q q' -> h ∉ l -> h ∈ m_readySet q -> h ∈ m_readySet q'.
Proof. intros [_ -> _ _ _ _] Hl. rewrite elem_of_difference, elem_of_list_to_set. done. Qed.

Lemma removed_from {T} `{!Queued T} (p : T -> bool) (q : SizedBlockQueue T) (P : T -> Prop) :
  Forall P (m_queue q) -> (forall b, P b -> P (moved b)) -> Forall P (removeIf p q).1.
Proof.
  intros Hq Hm. unfold removeIf, remove_if. cbn. rewrite skipn_map. apply Forall_forall. intros x Hx%list_elem_of_In%in_map_iff.
  destruct Hx as (b & <- & Hb%list_elem_of_In). assert (P b) as Hb'.
  { rewrite Forall_forall in Hq. apply Hq. rewrite <- (take_drop (length (filter (fun t => p t = false) (m_queue q))) (m_queue q)). apply elem_of_app. by right. }
  destruct (p b); auto.
Qed.

Lemma not_among {A} (f : A -> Z) l : Forall (fun b => f b <> h) l -> h ∉ map f l.
Proof. rewrite Forall_forall. intros Hl (b & E & Hb)%list_elem_of_In%in_map_iff. apply list_elem_of_In in Hb. by apply (Hl b). Qed.

Lemma lasting_pass q more q' : everywhere q -> update_pass q = Value (more, q') -> h ∈ m_readySet q -> h ∈ m_readySet q'.
Proof.
  intros Hq (q1 & q2 & E1 & E2 & E3)%update_pass_stages Hh.
  assert (everywhere q1) as Hq1 by (eapply everywhere_effect; [|exact E1]; by apply everywhere_verified).
  assert (everywhere q2) as Hq2 by (eapply everywhere_effect; [|exact E2]; by apply everywhere_unverified).
  assert (h ∈ m_readySet q1) as Hh1.
  { apply (lasting_effect _ _ _ E1); [|done]. apply not_among, (removed_from _ _ (fun b => vb_hash b <> h)); [|done]. eapply Forall_impl; [apply Hq|exact HVh]. }
  assert (h ∈ m_readySet q2) as Hh2.
  { apply (lasting_effect _ _ _ E2); [|done]. apply not_among, (removed_from _ _ (fun b => ub_hash b <> h)); [|done]. eapply Forall_impl; [apply Hq1|exact HUh]. }
  apply (lasting_effect _ _ _ E3); [|done]. apply not_among. eapply Forall_impl; [apply (removed_from _ _ (fun b => verifying_hash b <> h /\ vb_sha3Uncles b <> h))|naive_solver].
  - eapply Forall_impl; [apply Hq2|exact HWh].
  - by intros b [_ Hb].
Qed.

Lemma lasting_loop fuel q q' : everywhere q -> update_loop fuel q = Value q' -> h ∈ m_readySet q -> h ∈ m_readySet q'.
Proof.
  revert q. induction fuel as [|f IH]; intros q Hq; [done|]. cbn [update_loop]. intros E Hh. apply rbind_Value in E as ([more q1] & E1 & E).
  pose proof (lasting_pass _ _ _ Hq E1 Hh). apply everywhere_pass in E1; [|done]. destruct more; [by apply (IH q1)|by injection E as <-].
Qed.

Lemma lasting_update b q q' : everywhere q -> updateBad b q = Value q' -> h ∈ m_readySet q -> h ∈ m_readySet q'.
Proof.
  intros Hq. unfold updateBad. intros E Hh. apply rbind_Value in E as (q1 & E1 & E). unfold collectUnknownBad in E1. apply collect_loop_effect in E1.
  eapply lasting_loop; [|exact E|eapply lasting_effect; [done| |done]; apply not_elem_of_nil]. by eapply everywhere_effect.
Qed.

Lemma lasting_updates l q q' : everywhere q -> update_all l q = Value q' -> h ∈ m_readySet q -> h ∈ m_readySet q'.
Proof.
  revert q. induction l as [|b l IH]; intros q Hq; cbn [update_all]; [by intros [= <-]|]. intros E Hh. apply rbind_Value in E as (q1 & E1 & E).
  apply (IH q1); [by eapply everywhere_update|done|by eapply lasting_update].
Qed.

Lemma lasting_accept b q : V b -> h ∈ m_readySet q -> h ∈ m_readySet (accept b q).
Proof. intros Hb%HVh Hh. unfold accept. case_decide; [|done]. cbn. set_solver. Qed.

Lemma lasting_drain_loop fuel q : everywhere q -> h ∈ m_readySet q -> h ∈ m_readySet (drain_loop fuel q).
Proof.
  revert q. induction fuel as [|f IH]; intros q Hq Hh; [done|]. cbn [drain_loop]. unfold q_dequeue.
  destruct (m_queue (m_verifying q)) as [|b l] eqn:El; [done|]. destruct (vb_blockData b) eqn:Ed; [done|]. destruct Hq. rewrite El in *.
  apply Forall_cons in ev_verifying0 as [Hb Hl]. assert (V b) as HV by (apply HWV; [done|]; unfold in_progress; by rewrite Ed).
  apply IH; [by apply everywhere_accept; [|constructor]|by apply lasting_accept].
Qed.

Lemma lasting_finish view i q q' : everywhere q -> finish_work e view i q = Value q' -> h ∈ m_readySet q -> h ∈ m_readySet q'.
Proof.
  intros Hq. unfold finish_work. destruct (jobs q !! i) as [w|] eqn:Hi; [|done]. cbn [rget rbind].
  assert (U w) as Hw by (destruct Hq; by eapply Forall_lookup_1 in Hi).
  assert (everywhere (set_jobs (delete i (jobs q)) q)) as Hq1 by (destruct Hq; constructor; try done; by apply Forall_delete).
  intros E Hh. assert (h ∈ m_readySet (set_jobs (delete i (jobs q)) q)) as Hh1 by done. revert E.
  set (q1 := set_jobs (delete i (jobs q)) q) in *. destruct (verifyBlock e view OutOfOrderChecks (ub_blockData w)) as [v| | |] eqn:Ev; try done; intros [= <-].
  - destruct (HUV view w v Hw Ev) as [HV HW]. unfold verify_passed, q_dequeue. destruct (m_queue (m_verifying q1)) as [|b l] eqn:El; [done|].
    destruct (_ =? _); [|done]. cbn [notify m_readySet]. apply lasting_drain_loop; [|by apply lasting_accept]. apply everywhere_accept; [done|].
    destruct Hq1. rewrite El in *. apply Forall_cons in ev_verifying0 as [_ Hl]. by constructor.
  - apply lasting_drain_loop; [|apply HUh in Hw; cbn; set_solver]. unfold drop_failed, q_remove.
    pose proof (everywhere_verifying q1 (sha3UnclesEquals (ub_hash w)) Hq1) as Hr. cbn -[removeIf] in *.
    destruct (removeIf (sha3UnclesEquals (ub_hash w)) (m_verifying q)) as [rem v]. by destruct Hr.
Qed.

Lemma lasting_noteReady g q q' : noteReady g q = Value q' -> h ∈ m_readySet q -> h ∈ m_readySet q'.
Proof.
  intros E. destruct (noteReady_total blocks g q) as (q2 & E' & [_ _ _ _ _ _ Hs _] & _). assert (q2 = q') as -> by congruence. set_solver.
Qed.

Lemma lasting_import view now block ours q r q' : everywhere q -> import e view now block ours q = Value (r, q') -> h ∈ m_readySet q -> h ∈ m_readySet q'.
Proof.
  intros Hq. unfold import. intros E Hh. apply rbind_Value in E as (g & _ & E). destruct (import_known g q); [by injection E as _ <-|].
  destruct (verifyBlock e view PostGenesis block) as [v| | |]; try done; [|by injection E as _ <-].
  destruct (isKnown view g); [by injection E as _ <-|]. destruct (_ && _); [by injection E as _ <-|].
  unfold import_now in E. cbv zeta in E. destruct (is_bad q _).
  - apply rbind_Value in E as (q1 & E1 & E). injection E as _ <-. eapply lasting_update; [|exact E1|done]. by destruct Hq.
  - destruct (negb _); [by injection E as _ <-|]. apply rbind_Value in E as (q1 & E1 & E). injection E as _ <-.
    eapply lasting_noteReady; [exact E1|]. cbn. set_solver.
Qed.

Lemma lasting_retry fuel q q' : retry_loop fuel q = Value q' -> h ∈ m_readySet q -> h ∈ m_readySet q'.
Proof.
  revert q. induction fuel as [|f IH]; intros q; cbn [retry_loop]; (destruct (firstKey (m_unknown q)) as [p|]; [|by intros [= <-]]); [done|].
  unfold removeByKeyEqual, map_removeRange. fold (waiting_for p q) (not_waiting_for p q). intros E Hh. eapply IH; [exact E|].
  match goal with |- context [foldl (note_ready p) ?q0 ?rs] => destruct (notes_ready_same p rs q0) as ([_ _ _ _ _ _ Hs _] & _) end. cbn in Hs. set_solver.
Qed.

Lemma lasting_notes l q : Forall V l -> h ∈ m_readySet q -> h ∈ m_readySet (foldl note_draining q l).
Proof. intros Hl. revert q. induction Hl as [|b l Hb%HVh _ IH]; intros q Hq; [done|]. apply IH. cbn. set_solver. Qed.

Lemma lasting_drain max q out q' : everywhere q -> drain max q = (out, q') -> h ∈ m_readySet q -> h ∈ m_readySet q'.
Proof.
  intros [Hv _ _ _ _]. unfold drain. destruct (drain_now max q) as [o q1] eqn:E. intros [= <- <-] Hh.
  assert (h ∈ m_readySet q1) as Hq1; [|by destruct (_ && _)].
  unfold drain_now in E. case_bool_decide; [|by injection E as _ <-]. unfold dequeueMultiple, removeRange in E. injection E as _ <-.
  apply lasting_notes; [by apply Forall_take|done].
Qed.

Lemma lasting_call q q' : call q q' -> everywhere q -> h ∈ m_readySet q -> h ∈ m_readySet q'.
Proof.
  intros Hc Hq Hh. destruct Hc as [view now block ours q r q' Hb E|now q todo q' E|q q' E|view i q q' E|max out q q' E|bad more q q' E|g q q' E|q q' E|q].
  - by eapply lasting_import.
  - by apply past_future_cases in E as (m & -> & _).
  - revert E. unfold take_work, q_dequeue. destruct (m_deleting q); [done|]. destruct (m_queue (m_unverified q)); [done|]. by intros [= <-].
  - by eapply lasting_finish.
  - by eapply lasting_drain.
  - unfold doneDrain in E. apply rbind_Value in E as (q1 & E1 & E). injection E as _ <-. destruct bad; [by injection E1 as <-|].
    eapply lasting_updates; [|exact E1|done]. by destruct Hq.
  - by eapply lasting_noteReady.
  - by eapply lasting_retry.
  - done.
Qed.
End Lasting.
End Everywhere.


(** ** The theorems *)



Lemma u64_add3 a b c : u64 (u64 a + u64 b + u64 c) = u64 (a + b + c).
Proof.
  unfold u64. rewrite Zplus_mod_idemp_r. rewrite <- Z.add_assoc, (Z.add_comm (b mod 2 ^ 64)), Z.add_assoc, Zplus_mod_idemp_r, <- Z.add_assoc, Zplus_mod_idemp_l.
  f_equal. lia.
Qed.

(** C12. Every block is accounted for, after every orderly run (see
    [orderly_step]; when [removeIf] takes out a good block for a bad one this is
    lost, [good_block_blamed]).  The invariant that a debug build checks holds: the
    ready blocks are those in the three queues, each once.  A block is ready,
    draining, waiting or bad, but never two of these, so that [blockStatus] tells
    all; the blocks that wait are those of [m_unknown], each waits for a block that
    the queue knows nothing of; and the bytes in the queues are counted, modulo
    2^64. *)
Theorem queue_accounted w : hashes_apart e blocks -> orderly w -> let q := w_queue w in
  invariants q = true /\ NoDup (pipeline q).*1 /\ (forall h, h ∈ m_readySet q <-> h ∈ (pipeline q).*1) /\
  (m_readySet q ## m_drainingSet q /\ m_readySet q ## m_unknownSet q /\ m_readySet q ## m_knownBad q /\
   m_drainingSet q ## m_unknownSet q /\ m_drainingSet q ## m_knownBad q /\ m_unknownSet q ## m_knownBad q) /\
  (forall h, h ∈ m_unknownSet q <-> exists x, x ∈ m_map (m_unknown q) /\ waiting_hash x = h) /\ away q /\
  knownSize q = u64 (bytes (m_queue (m_verified q)) + bytes (m_queue (m_unverified q)) + bytes (m_queue (m_verifying q))).
Proof.
  intros Ha Hr q. destruct (steady_orderly w Ha Hr) as [[] _ Haw [Z1 Z2 Z3]]. fold q in Haw, Z1, Z2, Z3, co_lined, co_unknown.
  pose proof (lined_size _ _ _ _ _ _ co_lined) as Hsz. destruct co_lined. split_and!; try done.
  - unfold invariants, knownCount, q_count, lenZ. rewrite Hsz. unfold pipeline. rewrite !length_app, !length_map. apply Z.eqb_eq. lia.
  - intros h. rewrite co_unknown, app_nil_r. split.
    + intros Hin%list_elem_of_In%in_map_iff. destruct Hin as (x & <- & Hx). exists x. split; [by apply list_elem_of_In|done].
    + intros (x & Hx & <-). by apply elem_of_map.
  - unfold knownSize. rewrite Z1, Z2, Z3. apply u64_add3.
Qed.

(** C18. No block gets stuck, after an orderly run (see [orderly_step]; a block
    whose place [removeIf] gave to another is stuck, [good_block_blamed]).  As long
    as the queue is not stopped, a verifier can take a block, or the block at the
    front of [m_verifying] is the job of a verifier at work, or every ready block is
    verified and can be drained, and the verifiers at work have blocks that are
    known to be bad by now. *)
Theorem nothing_stuck w : hashes_apart e blocks -> orderly w -> let q := w_queue w in m_deleting q = false ->
  (exists q', take_work q = Some q') \/
  (exists i u l, jobs q !! i = Some u /\ m_queue (m_verifying q) = being_verified u :: l) \/
  ((forall u, u ∈ jobs q -> ub_hash u ∈ m_knownBad q) /\ forall h, h ∈ m_readySet q <-> h ∈ map vb_hash (m_queue (m_verified q))).
Proof.
  intros Ha Hr q Hd. destruct (steady_orderly w Ha Hr) as [[] Hh _ _]. fold q in co_lined, co_jobs, Hh. unfold take_work, q_dequeue. rewrite Hd.
  destruct (m_queue (m_unverified q)) as [|u us] eqn:Eu; [|left; by eexists]. right. unfold head_in_progress in Hh. destruct co_jobs as (live & stale & Ej & El & Hs).
  destruct (m_queue (m_verifying q)) as [|b l] eqn:Ev.
  - right. cbn in El. apply Permutation_nil_l in El. destruct live; [|done]. split.
    + intros u. rewrite Ej. exact (proj1 (Forall_forall _ _) Hs u).
    + intros h. rewrite (ln_ready _ _ _ _ _ _ co_lined). unfold pipeline. rewrite Ev, Eu. cbn. by rewrite app_nil_r, v_entry_ids.
  - left. assert (b ∈ map being_verified live) as Hb by (rewrite <- El, filter_cons_True by done; left).
    apply list_elem_of_In, in_map_iff in Hb as (u & <- & Hu%list_elem_of_In). assert (u ∈ jobs q) as (i & Hi)%list_elem_of_lookup by (rewrite Ej, elem_of_app; by left).
    by exists i, u, l.
Qed.

(** ** A good block that takes the blame *)

Lemma effect_grows l q q' : effect l q q' -> list_to_set l ∪ m_knownBad q ⊆ m_knownBad q'.
Proof. intros [(X & _ & _ & ->) _ _ _ _ _]. set_solver. Qed.

Lemma pass_grows q more q' : update_pass q = Value (more, q') -> m_knownBad q ⊆ m_knownBad q'.
Proof. intros (q1 & q2 & E1%effect_grows & E2%effect_grows & E3%effect_grows)%update_pass_stages. cbn -[removeIf] in *. set_solver. Qed.

Lemma loop_grows fuel q q' : update_loop fuel q = Value q' -> m_knownBad q ⊆ m_knownBad q'.
Proof.
  revert q. induction fuel as [|f IH]; intros q; [done|]. cbn [update_loop]. intros E. apply rbind_Value in E as ([more q1] & E1%pass_grows & E).
  cbn [fst snd] in E. destruct more; [apply IH in E; set_solver|by injection E as <-].
Qed.

(** The ready set against the queues, while blocks are found to be bad: what was
    noted may still stand in a queue. *)
Record tracked (q : BlockQueue) : Prop := {
  tr_nodup : NoDup (pipeline q).*1;
  tr_ready : forall h, h ∈ (pipeline q).*1 -> h ∈ m_readySet q \/ h ∈ m_knownBad q;
  tr_verifying : m_queue (m_verifying q) = []
}.

Lemma tracked_effect l q q' : tracked q -> effect l q q' -> tracked q'.
Proof.
  intros [] E. pose proof (effect_grows _ _ _ E) as HB. destruct E as [_ R [Q1 Q2 Q3] _ _ _].
  assert (pipeline q' = pipeline q) as Ep by (unfold pipeline; by rewrite Q1, Q2, Q3). constructor; rewrite ?Ep, ?Q2; try done.
  intros h Hh. rewrite R, elem_of_difference, elem_of_list_to_set. destruct (decide (h ∈ l)) as [Hl|Hl]; [right; apply HB, elem_of_union_l, elem_of_list_to_set, Hl|].
  destruct (tr_ready0 h Hh); [by left|right]. set_solver.
Qed.

Lemma tracked_sub q q' : tracked q -> sublist (pipeline q') (pipeline q) -> m_readySet q' = m_readySet q -> m_knownBad q' = m_knownBad q ->
  m_queue (m_verifying q') = [] -> tracked q'.
Proof.
  intros [] Hs ER EB Ev. assert (sublist (pipeline q').*1 (pipeline q).*1) as Hs1 by by apply fmap_sublist. constructor; [by eapply sublist_NoDup| |done].
  rewrite ER, EB. intros h Hh. apply tr_ready0. eapply elem_of_sublist; [exact Hh|done].
Qed.

Lemma tracked_pass q more q' : tracked q -> update_pass q = Value (more, q') -> tracked q'.
Proof.
  intros Hq (q1 & q2 & E1 & E2 & E3)%update_pass_stages.
  assert (tracked q1) as Hq1.
  { eapply tracked_effect; [|exact E1]. eapply (tracked_sub q); [done| |done|done|apply Hq]. unfold pipeline. cbn. apply sublist_app; [|done].
    change (sublist (v_entry <$> filter (fun t => verified_bad q t = false) (m_queue (m_verified q))) (v_entry <$> m_queue (m_verified q))). apply fmap_sublist, sublist_filter. }
  assert (tracked q2) as Hq2.
  { eapply tracked_effect; [|exact E2]. eapply (tracked_sub q1); [done| |done|done|apply Hq1]. unfold pipeline. cbn. do 2 (apply sublist_app; [done|]).
    change (sublist (u_entry <$> filter (fun t => unverified_bad q1 t = false) (m_queue (m_unverified q1))) (u_entry <$> m_queue (m_unverified q1))). apply fmap_sublist, sublist_filter. }
  eapply tracked_effect; [|exact E3]. pose proof (tr_verifying _ Hq2) as Ev.
  assert (m_queue (removeIf (verifying_bad q2) (m_verifying q2)).2 = []) as Er by (unfold removeIf, remove_if; cbn; by rewrite Ev).
  eapply (tracked_sub q2); [done| |done|done|exact Er]. unfold pipeline. cbn -[removeIf]. rewrite Er, Ev. done.
Qed.

Lemma tracked_loop fuel q q' : tracked q -> update_loop fuel q = Value q' -> tracked q'.
Proof.
  revert q. induction fuel as [|f IH]; intros q Hq; [done|]. cbn [update_loop]. intros E. apply rbind_Value in E as ([more q1] & E1 & E).
  apply tracked_pass in E1; [|done]. destruct more; [by apply (IH q1)|by injection E as <-].
Qed.

Lemma tracked_updates l q q' : tracked q -> update_all l q = Value q' -> tracked q'.
Proof.
  revert q. induction l as [|b l IH]; intros q Hq; cbn [update_all]; [by intros [= <-]|]. intros E. apply rbind_Value in E as (q1 & E1 & E).
  apply (IH q1); [|done]. unfold updateBad in E1. apply rbind_Value in E1 as (q2 & E2 & E1). unfold collectUnknownBad in E2. apply collect_loop_effect in E2.
  eapply tracked_loop; [|exact E1]. by eapply tracked_effect.
Qed.

(** A ready block that is in no queue breaks the invariant. *)
Lemma tracked_broken q h : tracked q -> no_bad_queued q -> h ∈ m_readySet q -> h ∉ (pipeline q).*1 -> invariants q = false.
Proof.
  intros [] [Nv Nu _] Hh Hn. assert (list_to_set (h :: (pipeline q).*1) ⊆ m_readySet q) as Hs%subseteq_size.
  { intros x. rewrite elem_of_list_to_set, elem_of_cons. intros [->|Hx]; [done|]. destruct (tr_ready0 x Hx) as [?|Hb]; [done|exfalso].
    unfold pipeline in Hx. rewrite tr_verifying0 in Hx. cbn in Hx. rewrite fmap_app, elem_of_app, v_entry_ids, u_entry_ids in Hx.
    destruct Hx as [Hx|Hx]; apply list_elem_of_In, in_map_iff in Hx as (b & <- & Hx%list_elem_of_In).
    - apply Nv, orb_false_iff in Hx as [_ Hx%bool_decide_eq_false]. done.
    - apply Nu, orb_false_iff in Hx as [_ Hx%bool_decide_eq_false]. done. }
  rewrite size_list_to_set in Hs by (by constructor). cbn in Hs. rewrite length_fmap in Hs. unfold pipeline in Hs. rewrite !length_app, !length_map in Hs.
  unfold invariants, knownCount, q_count, lenZ. apply Z.eqb_neq. lia.
Qed.

Lemma collect_idle b q : (forall x, x ∈ m_map (m_unknown q) -> x.1 <> b) ->
  exists m, collectUnknownBad b q = Value (set_unknown (m_unknownSet q) m q) /\ m_map m = m_map (m_unknown q).
Proof.
  intros Hb. assert (filter (fun x : Z * (Z * list Z) => (x.1 =? b) = true) (m_map (m_unknown q)) = []) as E1.
  { induction (m_map (m_unknown q)) as [|x l IH]; [done|]. rewrite filter_cons_False; [apply IH; intros y Hy; apply Hb; by right|].
    rewrite Z.eqb_eq. apply Hb. left. }
  assert (filter (fun x : Z * (Z * list Z) => (x.1 =? b) = false) (m_map (m_unknown q)) = m_map (m_unknown q)) as E2.
  { apply filter_all. intros x Hx. apply Z.eqb_neq, Hb, Hx. }
  unfold collectUnknownBad, collect_fuel. cbn [collect_loop]. unfold removeByKeyEqual, map_removeRange. rewrite E1, E2. cbn. eexists. split; [destruct (length _); reflexivity|done].
Qed.

(** The blocks other than the one with the hash [h]. *)
Definition not_v (h : Z) (b : VerifiedBlock) : Prop := checked b /\ vb_hash b <> h.
Definition not_w (h : Z) (b : VerifiedBlock) : Prop := (in_progress b = true \/ checked b) /\ verifying_hash b <> h /\ vb_sha3Uncles b <> h.
Definition not_u (h : Z) (w : UnverifiedBlock) : Prop := sound blocks w /\ ub_hash w <> h.
Definition absent (h : Z) (q : BlockQueue) : Prop := everywhere (not_v h) (not_w h) (not_u h) q.

Lemma not_hash b : checked b -> in_progress b = false /\ verifying_hash b = vb_hash b.
Proof.
  intros Hc. pose proof (w_entry_checked e blocks b Hc) as E. injection E as E. apply checked_nonempty in Hc. split; [|done]. unfold in_progress. by destruct (vb_blockData b).
Qed.

Section Absent.
  Context (Ha : hashes_apart e blocks) (h : Z) (Hh : arrived blocks h).

Lemma absent_WV b : not_w h b -> in_progress b = false -> not_v h b.
Proof. intros [[Hp|Hc] [Hn _]] Hp'; [congruence|]. destruct (not_hash b Hc) as [_ E]. split; [done|congruence]. Qed.

Lemma absent_UW w : not_u h w -> not_w h (being_verified w).
Proof. intros [_ Hn]. split; [by left|]. by split. Qed.

Lemma absent_UV view w v : not_u h w -> verifyBlock e view OutOfOrderChecks (ub_blockData w) = Value v ->
  not_v h (mkVerifiedBlock v (ub_blockData w)) /\ not_w h (mkVerifiedBlock v (ub_blockData w)).
Proof.
  intros [Hw Hn] Hv. destruct (checked_sound e blocks view w v Ha Hw Hv) as (Hc & E & _). destruct (not_hash _ Hc) as [_ E']. split; [by split; [|congruence]|].
  split; [by right|]. split; [congruence|]. destruct Hw as (Hbw & _). exact (ha_uncles _ _ Ha _ _ _ _ Hh Hbw Hv).
Qed.

Lemma absent_call q q' : call q q' -> absent h q -> h ∈ m_readySet q -> absent h q' /\ h ∈ m_readySet q'.
Proof.
  intros Hc Hq Hr. split.
  - eapply everywhere_call; [exact absent_WV|exact absent_UW|exact absent_UV| |exact Hc|exact Hq].
    intros view block g v Hb Hg Hv Hk. split; [by eapply arrived_sound|]. cbn. intros ->. apply import_known_false in Hk as (Hk & _). done.
  - eapply lasting_call; [exact absent_WV|exact absent_UW|exact absent_UV| | | |exact Hc|exact Hq|exact Hr]; [by intros ? []|by intros ? []|by intros ? [_ []]].
Qed.

Lemma absent_calls q q' : rtc call q q' -> absent h q -> h ∈ m_readySet q -> absent h q' /\ h ∈ m_readySet q'.
Proof. induction 1 as [|q1 q2 q3 Hc _ IH]; [done|]. intros Hq Hr. destruct (absent_call _ _ Hc Hq Hr). by apply IH. Qed.

Lemma absent_pipeline q : absent h q -> h ∉ (pipeline q).*1.
Proof.
  intros [Hv Hw Hu _ _]. unfold pipeline. rewrite !fmap_app, !elem_of_app, v_entry_ids, w_entry_ids, u_entry_ids. intros [Hin|[Hin|Hin]]; revert Hin; apply not_among.
  - eapply Forall_impl; [exact Hv|]. by intros b [].
  - eapply Forall_impl; [exact Hw|]. by intros b [_ []].
  - eapply Forall_impl; [exact Hu|]. by intros b [].
Qed.

(** A block in [m_verified] is nowhere else. *)
Lemma absent_elsewhere V K q v : core_but V K [] q -> h ∈ map vb_hash (m_queue (m_verified q)) -> Forall (not_v h) (m_queue v) -> absent h (set_verified v q).
Proof.
  intros Hq Hin Hv. pose proof (fun b => verifying_not_bad e blocks V K q b Hq) as Hw. destruct Hq. destruct co_lined. rewrite app_nil_r in *.
  assert (h ∈ m_readySet q) as Hr by (apply ln_ready; unfold pipeline; rewrite fmap_app, v_entry_ids, elem_of_app; by left).
  unfold pipeline in ln_nodup. rewrite !fmap_app, v_entry_ids, w_entry_ids, u_entry_ids in ln_nodup. apply NoDup_app in ln_nodup as (_ & Hd & _).
  specialize (Hd h Hin). rewrite elem_of_app in Hd.
  assert (forall b, b ∈ m_queue (m_verifying q) -> verifying_hash b <> h) as Hwh by (intros b Hb <-; apply Hd; left; by apply elem_of_map).
  constructor; cbn; [done|..].
  - apply Forall_forall. intros b Hb. pose proof (proj1 (Forall_forall _ _) co_verifying b Hb) as Hc. split; [done|]. split; [auto|].
    destruct Hc as [Hp|(Hbb & _ & chain & Hc)]; [rewrite <- in_progress_hash by done; auto|]. exact (ha_uncles _ _ Ha _ _ _ _ Hh Hbb Hc).
  - apply Forall_forall. intros u Hu. split; [by eapply (proj1 (Forall_forall _ _) co_unverified)|]. intros <-. apply Hd. right. by apply elem_of_map.
  - apply Forall_forall. intros u Hu. split; [by eapply (proj1 (Forall_forall _ _) co_jobs_sound)|]. intros E. destruct co_jobs as (live & stale & Ej & El & Hs).
    rewrite Ej, elem_of_app in Hu. destruct Hu as [Hu|Hu].
    + assert (being_verified u ∈ m_queue (m_verifying q)) as Hb; [|by apply Hwh in Hb]. eapply list_elem_of_filter. rewrite El. by apply elem_of_map.
    + pose proof (proj1 (Forall_forall _ _) Hs u Hu) as Hb. cbn in Hb. rewrite E in Hb. set_solver.
  - apply Forall_forall. intros x Hx. split; [by eapply (proj1 (Forall_forall _ _) co_waiting)|]. intros E. assert (h ∈ m_unknownSet q); [|set_solver].
    apply co_unknown. rewrite <- E. exact (elem_of_map waiting_hash _ _ Hx).
Qed.
End Absent.

(** What [removeIf] takes out when a bad block stands before a good one at the end. *)
Lemma removed_front {T} `{!Queued T} (p : T -> bool) (q : SizedBlockQueue T) l1 (a : T) l2 b : m_queue q = l1 ++ a :: l2 ++ [b] ->
  Forall (fun t => p t = false) (l1 ++ [b]) -> p a = true ->
  moved b ∈ (removeIf p q).1 /\ forall x, x ∈ (removeIf p q).1 -> exists t, t ∈ l2 ++ [b] /\ (x = t \/ x = moved t).
Proof.
  intros El [H1' H2']%Forall_app Hpa. apply Forall_cons in H2' as [Hpb _]. unfold removeIf, remove_if, removeRange. cbn [fst]. rewrite El.
  rewrite filter_app, filter_all, filter_cons_False, filter_app by (try congruence; by apply Forall_forall).
  rewrite (filter_cons_True _ b) by done. rewrite filter_nil, map_app. cbn [map]. rewrite !length_app, <- (length_map (fun t => if p t then t else moved t) l1).
  rewrite <- drop_drop, drop_app_length. cbn [length]. rewrite Nat.add_1_r. cbn [drop skipn]. set (n := length (filter _ l2)).
  assert (n <= length l2)%nat as Hn by apply length_filter. rewrite map_app. cbn [map]. rewrite Hpb. rewrite drop_app_le by (by rewrite length_map). split.
  - apply elem_of_app. right. left.
  - intros x Hx. assert (x ∈ map (fun t => if p t then t else moved t) (l2 ++ [b])) as Hin.
    { rewrite map_app. cbn [map]. rewrite Hpb. rewrite elem_of_app in *. destruct Hx as [Hx|?]; [left; by eapply elem_of_sublist; [|apply sublist_drop]|by right]. }
    apply list_elem_of_In, in_map_iff in Hin as (t & <- & Ht%list_elem_of_In). exists t. split; [done|]. destruct (p t); auto.
Qed.

(** The first pass, when the bad block [A] stands in [m_verified] before the good
    block [B] at its end. *)
Lemma blamed_pass K q l1 A l2 B more q' : hashes_apart e blocks -> core_but any K [] q -> m_queue (m_verified q) = l1 ++ A :: l2 ++ [B] ->
  Forall (fun b => verified_bad q b = false) (l1 ++ [B]) -> verified_bad q A = true -> update_pass q = Value (more, q') ->
  absent (vb_hash A) q' /\ vb_hash A ∈ m_readySet q' /\ vb_hash B ∈ m_knownBad q'.
Proof.
  intros Ha Hq El Hgood HA (q1 & q2 & E1 & E2 & E3)%update_pass_stages. set (h := vb_hash A).
  destruct (removed_front (verified_bad q) (m_verified q) l1 A l2 B El Hgood HA) as [HB Hrem].
  pose proof (co_checked _ _ _ _ _ _ Hq) as Hc. rewrite El in Hc. assert (checked A) as HcA by (apply (proj1 (Forall_forall _ _) Hc); rewrite elem_of_app; right; left).
  pose proof (checked_arrived e blocks A Ha HcA : arrived blocks h) as Hh.
  pose proof (ln_nodup _ _ _ _ _ _ (co_lined _ _ _ _ _ _ Hq)) as Hnd. unfold pipeline in Hnd. rewrite !fmap_app, v_entry_ids in Hnd.
  apply NoDup_app in Hnd as (Hnd & _ & _). rewrite El, map_app in Hnd. cbn [map] in Hnd. rewrite <- Permutation_middle in Hnd. apply NoDup_cons in Hnd as [Hna _].
  rewrite elem_of_app in Hna. change (vb_hash A) with h in Hna.
  assert (h ∈ map vb_hash (m_queue (m_verified q))) as HhA by (rewrite El, map_app, elem_of_app; right; left).
  assert (absent h q1) as A1.
  { eapply everywhere_effect; [|exact E1]. eapply absent_elsewhere; [exact Ha|exact Hh|exact Hq|exact HhA|]. cbn. rewrite El. apply Forall_forall.
    intros b [Hb Hin]%list_elem_of_filter. split; [by apply (proj1 (Forall_forall _ _) Hc)|]. intros E. rewrite elem_of_app, elem_of_cons in Hin.
    destruct Hin as [Hin|[->|Hin]]; [|congruence|]; apply Hna; [left|right]; rewrite <- E; by apply elem_of_map. }
  assert (h ∈ m_readySet q1) as R1.
  { apply (lasting_effect h _ _ _ E1).
    - intros Hin. apply list_elem_of_In, in_map_iff in Hin as (x & E & Hx%list_elem_of_In). apply Hrem in Hx as (t & Ht & Ex). apply Hna. right.
      rewrite <- E. destruct Ex as [-> | ->]; [by apply elem_of_map|]. change (vb_hash (moved t)) with (vb_hash t). by apply elem_of_map.
    - cbn. apply (ln_ready _ _ _ _ _ _ (co_lined _ _ _ _ _ _ Hq)). unfold pipeline. rewrite fmap_app, v_entry_ids, elem_of_app. by left. }
  assert (absent h q2) as A2 by (eapply everywhere_effect; [|exact E2]; by apply everywhere_unverified). split_and!.
  - eapply everywhere_effect; [|exact E3]. by apply everywhere_verifying.
  - apply (lasting_effect h _ _ _ E3).
    + apply not_among. eapply Forall_impl; [apply (removed_from _ _ (fun b => verifying_hash b <> h /\ vb_sha3Uncles b <> h))|naive_solver].
      * eapply Forall_impl; [apply A2|]. by intros b [_ ?].
      * by intros b [_ Hb].
    + apply (lasting_effect h _ _ _ E2); [|done]. apply not_among, (removed_from _ _ (fun b => ub_hash b <> h)); [|done]. eapply Forall_impl; [apply A1|]. by intros b [_ ?].
  - apply effect_grows in E3, E2, E1. cbn -[removeIf] in *. assert (vb_hash B ∈ m_knownBad q1); [|set_solver]. apply E1, elem_of_union_l, elem_of_list_to_set.
    change (vb_hash B) with (vb_hash (moved B)). by apply elem_of_map.
Qed.

Lemma doneDrain_bad bad q more q' : bad <> [] -> doneDrain bad q = Value (more, q') ->
  exists d, update_all bad (set_bad (m_knownBad q ∪ list_to_set bad) (set_difficulty d (set_draining ∅ 0 q))) = Value q'.
Proof.
  intros Hb. unfold doneDrain. set (d := u256 _). intros E. apply rbind_Value in E as (q1 & E & E'). injection E' as _ <-. exists d. by destruct bad.
Qed.

(** C40. A good block takes the blame.  Let the client find drained blocks to be
    bad, let the verified block [A] have a bad parent, and let the last verified
    block [B], behind [A] in the queue, have none, like the blocks before [A].  Then
    [removeIf] takes out [B] in the place of [A]: [B] is noted as bad.  And [A] is in
    no queue, but ready, and stays so through all further calls, until the queue is
    cleared.  The invariant of a debug build is broken, if no block was in
    [m_verifying]. *)
Theorem good_block_blamed w bad more q' l1 A l2 B : hashes_apart e blocks -> orderly w -> let q := w_queue w in
  list_to_set bad ⊆ m_drainingSet q -> m_queue (m_verified q) = l1 ++ A :: l2 ++ [B] ->
  Forall (fun b => vb_parentHash b ∉ m_knownBad q /\ vb_parentHash b ∉ bad) (l1 ++ [B]) -> vb_parentHash A ∈ bad ->
  doneDrain bad q = Value (more, q') ->
  vb_hash B ∈ m_knownBad q' /\ (m_queue (m_verifying q) = [] -> invariants q' = false) /\
  forall q'', rtc call q' q'' -> blockStatus (vb_hash A) q'' = Ready /\ vb_hash A ∉ (pipeline q'').*1.
Proof.
  intros Ha Hr q Hbad El Hgood HA E. pose proof (steady_orderly w Ha Hr) as Hq. fold q in Hq.
  assert (bad <> []) as Hne by (intros ->; by apply elem_of_nil in HA). destruct (doneDrain_bad bad q more q' Hne E) as (d & E'). clear E. rename E' into E.
  set (q0 := set_bad _ _) in E. rename q' into q3. pose proof (st_core _ _ Hq) as [[] _ _ _ _ _ _ _ Hc _ _].
  assert (core_but any (fun _ => True) [] q0) as Hq0.
  { pose proof (steady_midway _ q (steady_mono _ (fun _ => True) q (fun _ _ => I) Hq)) as [[] _ _]. constructor; try done; cbn.
    - apply lined_done with (D := m_drainingSet q); [done|done|by left].
    - eapply ordered_mono; [|exact co_verified]. cbn. tauto.
    - eapply matched_mono; [|done]. set_solver. }
  assert (tracked q0 \/ m_queue (m_verifying q) <> []) as Htr.
  { destruct (m_queue (m_verifying q)) eqn:Ev; [left|by right]. constructor; [exact ln_nodup| |exact Ev]. intros h Hh. left. by apply ln_ready. }
  assert (m_queue (m_verifying q) = [] -> tracked q3) as Htr3 by (intros Ev; destruct Htr; [by eapply tracked_updates|done]).
  destruct (update_all_settled bad q0 q3 E) as (_ & _ & Hset). specialize (Hset Hne).
  assert (exists b0 bad', bad = b0 :: bad') as (b0 & bad' & Eb) by (destruct bad; [done|by eexists _, _]).
  rewrite Eb in E. cbn [update_all] in E. apply rbind_Value in E as (q2 & Eu & E). unfold updateBad in Eu.
  destruct (collect_idle b0 q0) as (m & Ec & Em).
  { intros x Hx Ex. destruct (st_away _ _ Hq x Hx) as (_ & Hn & _). apply Hn, Hbad. rewrite Ex, Eb. set_solver. }
  rewrite Ec in Eu. cbn [rbind] in Eu. set (q1 := set_unknown (m_unknownSet q0) m q0) in *.
  assert (core_but any (fun _ => True) [] q1) as Hq1 by (destruct Hq0; constructor; rewrite ?app_nil_r in *; try done; cbn; by rewrite Em).
  unfold update_fuel in Eu. cbn [update_loop] in Eu. apply rbind_Value in Eu as ([more1 qa] & Ep & Eu). cbn [fst snd] in Eu.
  assert (forall b, b ∈ m_queue (m_verified q) -> vb_hash b ∉ m_knownBad q ∪ list_to_set bad) as Hown.
  { intros b Hb. assert (vb_hash b ∈ m_readySet q); [|set_solver]. apply ln_ready. unfold pipeline. rewrite fmap_app, v_entry_ids, elem_of_app. left. by apply elem_of_map. }
  destruct (blamed_pass (fun _ => True) q1 l1 A l2 B more1 qa Ha Hq1 El) as (Aa & Ra & Ba); [| |exact Ep|].
  - apply Forall_forall. intros b Hb. pose proof (proj1 (Forall_forall _ _) Hgood b Hb) as [Hp1 Hp2]. apply orb_false_iff.
    split; apply bool_decide_eq_false; cbn; [rewrite elem_of_union, elem_of_list_to_set; tauto|]. apply Hown. rewrite El. rewrite elem_of_app in Hb. rewrite elem_of_app, elem_of_cons, elem_of_app. tauto.
  - apply orb_true_iff. left. apply bool_decide_eq_true. cbn. rewrite elem_of_union, elem_of_list_to_set. by right.
  - assert (arrived blocks (vb_hash A)) as Hh.
    { apply (checked_arrived e); [done|]. apply (proj1 (Forall_forall _ _) Hc). rewrite El, elem_of_app. right. left. }
    assert (absent (vb_hash A) q2 /\ vb_hash A ∈ m_readySet q2 /\ vb_hash B ∈ m_knownBad q2) as (A2 & R2 & B2).
    { destruct more1; [|by injection Eu as <-]. split_and!; [by eapply everywhere_loop| |by apply loop_grows in Eu; apply Eu].
      eapply lasting_loop; [exact (absent_UV Ha _ Hh)| | | |exact Aa|exact Eu|exact Ra]; [by intros ? []|by intros ? []|by intros ? [_ []]]. }
    assert (absent (vb_hash A) q3) as A3 by (by eapply everywhere_updates).
    assert (vb_hash A ∈ m_readySet q3) as R3.
    { eapply lasting_updates; [exact (absent_UV Ha _ Hh)| | | |exact A2|exact E|exact R2]; [by intros ? []|by intros ? []|by intros ? [_ []]]. }
    split_and!.
    + destruct (update_all_settled bad' q2 q3 E) as ([_ _ Hg _ _] & _). by apply Hg.
    + intros Ev. eapply tracked_broken; [by apply Htr3|done|exact R3|by apply absent_pipeline].
    + intros q4 Hcs. destruct (absent_calls Ha (vb_hash A) Hh q3 q4 Hcs A3 R3) as [A4 R4]. split; [|by apply absent_pipeline].
      unfold blockStatus. by rewrite decide_True.
Qed.

(** ** Runs that are computed *)

Inductive event : Set := Arrive (now : Z) (block : list Z) | Take | Finish (i : nat) | Drain (max : Z).

Definition occur (chain : ChainView) (q : option BlockQueue) (ev : event) : option BlockQueue :=
  match q with
  | None => None
  | Some q =>
      match ev with
      | Arrive now block => match import e chain now block false q with Value (BadChain, _) => None | Value (_, q') => Some q' | _ => None end
      | Take => take_work q
      | Finish i => match finish_work e chain i q with Value q' => Some q' | _ => None end
      | Drain max => Some (drain max q).2
      end
  end.

Lemma occur_step chain q ev q' : (forall now block, ev = Arrive now block -> blocks block) -> occur chain (Some q) ev = Some q' ->
  orderly_step (mkWorld chain ∅ q) (mkWorld chain ∅ q').
Proof.
  intros Hb E. assert (mkWorld chain ∅ q' = with_queue (mkWorld chain ∅ q) ∅ q') as -> by (unfold with_queue; cbn; by rewrite union_empty_l_L). revert E.
  destruct ev as [now block| |i|max]; cbn [occur].
  - destruct (import e chain now block false q) as [[r q1]| | |] eqn:Ei; try done. intros E.
    assert (r <> BadChain /\ q1 = q') as [Hr ->] by (destruct r; try done; by injection E as ->).
    eapply (orderly_import (mkWorld chain ∅ q)); [by intros h|by eapply Hb|done|done].
  - apply (orderly_take (mkWorld chain ∅ q)).
  - destruct (finish_work e chain i q) eqn:Ef; try done. intros [= <-]. by eapply (orderly_finish (mkWorld chain ∅ q)).
  - intros [= <-]. destruct (drain max q) eqn:Ed. by eapply (orderly_drain (mkWorld chain ∅ q)).
Qed.

Lemma occur_orderly chain q0 evs q : orderly (mkWorld chain ∅ q0) -> (forall now block, Arrive now block ∈ evs -> blocks block) ->
  foldl (occur chain) (Some q0) evs = Some q -> orderly (mkWorld chain ∅ q).
Proof.
  revert q0. induction evs as [|ev evs IH]; intros q0 Hr Hb; cbn [foldl]; [by intros [= <-]|]. destruct (occur chain (Some q0) ev) as [q1|] eqn:E1.
  - apply IH; [|intros now block Hin; apply (Hb now); by right]. destruct Hr as [chain0 Hr]. exists chain0. eapply rtc_r; [exact Hr|].
    eapply occur_step; [|done]. intros now block ->. apply (Hb now). left.
  - intros E. exfalso. clear -E. induction evs as [|ev' evs IH]; [done|]. auto.
Qed.

Lemma orderly_new chain : orderly (mkWorld chain ∅ new_BlockQueue).
Proof. by exists chain. Qed.
End Reach.
(** ** The sizes of the maps *)

Inductive map_op : Set := MapInsert (key hash : Z) (data : list Z) | RemoveEqual (key : Z) | RemoveNotGreater (key : Z).

Definition apply_op (m : SizedBlockMap) (op : map_op) : SizedBlockMap :=
  match op with
  | MapInsert key hash data => map_insert key hash data m
  | RemoveEqual key => (removeByKeyEqual key m).2
  | RemoveNotGreater key => (removeByKeyNotGreater key m).2
  end.

Definition map_bytes (l : list (Z * (Z * list Z))) : Z := foldr (fun x s => lenZ x.2.2 + s) 0 l.
Definition inserted (ops : list map_op) : Z := foldr (fun op s => match op with MapInsert _ _ data => lenZ data + s | _ => s end) 0 ops.

Lemma map_bytes_cons x l : map_bytes (x :: l) = lenZ x.2.2 + map_bytes l.
Proof. done. Qed.
Lemma map_bytes_perm l k : l ≡ₚ k -> map_bytes l = map_bytes k.
Proof. induction 1; rewrite ?map_bytes_cons in *; try done; lia. Qed.
Lemma map_bytes_app l k : map_bytes (l ++ k) = map_bytes l + map_bytes k.
Proof. induction l as [|x l IH]; [done|]. cbn [app]. rewrite !map_bytes_cons. lia. Qed.

Lemma data_size_bytes l : data_size (map snd l) = u64 (map_bytes l).
Proof.
  unfold data_size. assert (forall s, foldl (fun s e => u64 (s + lenZ e.2)) (u64 s) (map snd l) = u64 (s + map_bytes l)) as Hall; [|exact (Hall 0)].
  induction l as [|x l IH]; intros s; [cbn; by rewrite Z.add_0_r|]. cbn [map foldl]. rewrite map_bytes_cons.
  assert (u64 (u64 s + lenZ x.2.2) = u64 (s + lenZ x.2.2)) as -> by (unfold u64; by rewrite Zplus_mod_idemp_l). rewrite IH. f_equal. lia.
Qed.

Lemma removeRange_size p m n : m_size m = u64 (map_bytes (m_map m) - n) -> m_size (map_removeRange p m).2 = u64 (map_bytes (m_map (map_removeRange p m).2) - n).
Proof.
  intros E. cbn [map_removeRange snd m_size m_map]. rewrite data_size_bytes, E.
  rewrite (map_bytes_perm _ _ (filter_split (fun x => p x.1) (m_map m))), map_bytes_app. unfold u64. rewrite Zminus_mod_idemp_l, Zminus_mod_idemp_r. f_equal. lia.
Qed.

Lemma inserted_app l k : inserted (l ++ k) = inserted l + inserted k.
Proof.
  induction l as [|op l IH]; [done|]. cbn [app]. unfold inserted in *. cbn [foldr]. destruct op; [|exact IH..]. lia.
Qed.

(** C39. The size of a map of blocks counts what leaves and not what comes: the
    data was moved into the map when its size is read, and is empty.  After any
    operations the size is the bytes in the map less all that ever came, modulo
    2^64.  So once blocks have waited and gone, an empty [m_unknown] makes the
    queue full. *)
Theorem unknown_size_wraps ops : let m := foldl apply_op empty_map ops in
  m_size m = u64 (map_bytes (m_map m) - inserted ops) /\
  forall q, m_unknown q = m -> m_future q = empty_map -> m_map m = [] -> 0 < inserted ops < 2 ^ 63 -> unknownCount q = 0 /\ unknownFull q = true.
Proof.
  intros m. assert (m_size m = u64 (map_bytes (m_map m) - inserted ops)) as Hs.
  { unfold m. clear m. induction ops as [|op ops IH] using rev_ind; [done|]. rewrite foldl_snoc.
    assert (inserted (ops ++ [op]) = inserted ops + inserted [op]) as -> by apply inserted_app.
    set (m := foldl apply_op empty_map ops) in *. destruct op as [key h data|key|key]; cbn [apply_op inserted foldr]; rewrite ?Z.add_0_r;
      [|by apply removeRange_size|by apply removeRange_size]. cbn [map_insert m_size m_map moved_bytes].
    rewrite (map_bytes_perm _ _ (multimap_insert_perm key (h, data) (m_map m))), IH. change (lenZ []) with 0. unfold u64. rewrite Z.add_0_r, Zmod_mod. f_equal.
    rewrite map_bytes_cons. cbn [fst snd]. lia. }
  split; [done|]. intros q Eu Ef Em Hi. unfold unknownCount, unknownFull, unknownSize, m_count. rewrite Eu, Ef, Em. split; [done|].
  rewrite Hs, Em. cbn [map_bytes foldr]. assert (u64 (0 + u64 (0 - inserted ops)) = 2 ^ 64 - inserted ops) as E.
  { unfold u64. rewrite Zplus_mod_idemp_r. rewrite <- (Z.mod_add _ 1) by lia. rewrite Z.mod_small; lia. }
  cbn [m_size empty_map]. rewrite E. apply orb_true_iff. left. apply Z.ltb_lt. unfold c_maxUnknownSize. lia.
Qed.

(** ** Concrete blocks *)

Definition test_engine : SealEngine := mkSealEngine NoProof test_chain.
Definition test_view : ChainView := mkChainView (fun h => h =? 17) (fun _ => []).
Definition test_block (parent author number : Z) : list Z :=
  encode (block_item (header_fields (mkBlockHeader parent EmptyListSHA3 author 1 EmptyTrie 1 0 131072 number 5000000 0 1500000000 [] [] 0 0)) [] []).
Definition hash_of (b : list Z) : Z := match headerHashFromBlock b with Value h => h | _ => 0 end.

(** A child of the genesis block, its child, and another child of the genesis
    block. *)
Definition block_P : list Z := test_block 17 1 1.
Definition block_A : list Z := test_block (hash_of block_P) 2 2.
Definition block_B : list Z := test_block 17 3 1.
Definition test_blocks (b : list Z) : Prop := b = block_P \/ b = block_A \/ b = block_B.

Definition busy_run : list event :=
  [Arrive 1600000000 block_P; Arrive 1600000000 block_A; Arrive 1600000000 block_B; Take; Take; Take; Finish 0].
Definition test_occurs (q : BlockQueue) (evs : list event) : BlockQueue := default q (foldl (occur test_engine test_view) (Some q) evs).

(** The queue with the first of the three blocks verified, with all of them
    verified, and with the first draining. *)
Definition busy_queue : BlockQueue := Eval vm_compute in test_occurs new_BlockQueue busy_run.
Definition verified_queue : BlockQueue := Eval vm_compute in test_occurs busy_queue [Finish 1; Finish 0].
Definition draining_queue : BlockQueue := Eval vm_compute in test_occurs verified_queue [Drain 1].

Lemma arrives_cons now block ev evs : Arrive now block ∈ ev :: evs ->
  (match ev with Arrive _ b => block = b | _ => False end) \/ Arrive now block ∈ evs.
Proof. intros [<-|?]%elem_of_cons; auto. Qed.

Lemma test_arrives now block : Arrive now block ∈ busy_run -> test_blocks block.
Proof.
  unfold test_blocks. intros H. do 3 (apply arrives_cons in H as [H|H]; [by auto|]). do 4 (apply arrives_cons in H as [[]|H]). by apply elem_of_nil in H.
Qed.

Notation test_world q := (mkWorld test_view ∅ q).
Notation test_orderly q := (orderly test_engine test_blocks (test_world q)).

Lemma busy_orderly : test_orderly busy_queue.
Proof. apply (occur_orderly test_engine test_blocks test_view new_BlockQueue busy_run); [apply orderly_new|exact test_arrives|by vm_compute]. Qed.

Lemma verified_orderly : test_orderly verified_queue.
Proof.
  apply (occur_orderly test_engine test_blocks test_view busy_queue [Finish 1; Finish 0]); [exact busy_orderly| |by vm_compute].
  intros now block H. do 2 (apply arrives_cons in H as [[]|H]). by apply elem_of_nil in H.
Qed.

Lemma draining_orderly : test_orderly draining_queue.
Proof.
  apply (occur_orderly test_engine test_blocks test_view verified_queue [Drain 1]); [exact verified_orderly| |by vm_compute].
  intros now block H. apply arrives_cons in H as [[]|H]. by apply elem_of_nil in H.
Qed.

(** The hashes of the three blocks, and what is read from them. *)
Lemma test_block_header b : test_blocks b ->
  headerHashFromBlock b = Value (hash_of b) /\ hash_of b <> 0 /\ hash_of b <> EmptyListSHA3 /\
  exists bi, parse_header b BlockData 0 = Value bi /\ h_sha3Uncles bi = EmptyListSHA3.
Proof.
  intros [-> | [-> | ->]]; (split; [vm_compute; reflexivity|]; split; [vm_compute; discriminate|]; split; [vm_compute; discriminate|];
    eexists; split; [vm_compute; reflexivity|vm_compute; reflexivity]).
Qed.

Lemma test_apart : hashes_apart test_engine test_blocks.
Proof.
  constructor.
  - intros b h Hb Hh. apply test_block_header in Hb as (E & Hn & _). congruence.
  - intros h b' chain v (b & bi0 & Hb & Hh & _) Hb' Hv. apply test_block_header in Hb as (E & _ & Hn & _), Hb' as (E' & _ & _ & bi' & Hp' & Hu).
    destruct (verifyBlock_header test_engine chain _ _ _ _ Hv E') as (bi & Hp & _ & _ & Eu). congruence.
Qed.


Lemma queue_accounted_witness : invariants busy_queue = true /\ m_readySet busy_queue ## m_knownBad busy_queue.
Proof.
  destruct (queue_accounted test_engine test_blocks (test_world busy_queue)) as (E & _ & _ & (_ & _ & D & _) & _).
  - exact test_apart.
  - exact busy_orderly.
  - split; [exact E|exact D].
Defined.

Lemma nothing_stuck_witness : (exists q', take_work busy_queue = Some q') \/
  (exists i u l, jobs busy_queue !! i = Some u /\ m_queue (m_verifying busy_queue) = being_verified u :: l) \/
  ((forall u, u ∈ jobs busy_queue -> ub_hash u ∈ m_knownBad busy_queue) /\ forall h, h ∈ m_readySet busy_queue <-> h ∈ map vb_hash (m_queue (m_verified busy_queue))).
Proof.
  apply (nothing_stuck test_engine test_blocks (test_world busy_queue)).
  - exact test_apart.
  - exact busy_orderly.
  - vm_compute. reflexivity.
Defined.

(** The first of the three blocks, which drains, turns out to be bad.  Its child
    stays, and the block behind, whose parent is in the chain, is blamed. *)
Definition blamed_queue : BlockQueue :=
  Eval vm_compute in match doneDrain [hash_of block_P] draining_queue with Value (_, q) => q | _ => draining_queue end.
Definition verified_at (i : nat) (q : BlockQueue) : VerifiedBlock := nth i (m_queue (m_verified q)) (being_verified (mkUnverifiedBlock 0 0 [])).

Lemma good_block_blamed_witness : doneDrain [hash_of block_P] draining_queue = Value (true, blamed_queue) /\
  (exists v, verifyBlock test_engine test_view OutOfOrderChecks block_B = Value v /\ isKnown test_view (h_parentHash (vr_info v)) = true) /\
  hash_of block_B ∈ m_knownBad blamed_queue /\ invariants draining_queue = true /\ invariants blamed_queue = false /\
  forall q'', rtc (call test_engine test_blocks) blamed_queue q'' -> blockStatus (hash_of block_A) q'' = Ready /\ hash_of block_A ∉ (pipeline q'').*1.
Proof.
  assert (doneDrain [hash_of block_P] draining_queue = Value (true, blamed_queue)) as Ed by (vm_compute; reflexivity). split; [exact Ed|].
  split; [eexists; split; vm_compute; reflexivity|].
  destruct (good_block_blamed test_engine test_blocks (test_world draining_queue) [hash_of block_P] true blamed_queue [] (verified_at 0 draining_queue)
    [] (verified_at 1 draining_queue)) as (HB & Hi & HA).
  - exact test_apart.
  - exact draining_orderly.
  - decide_compute.
  - vm_compute. reflexivity.
  - apply Forall_cons. split; [|apply Forall_nil_2]. split; decide_compute.
  - decide_compute.
  - exact Ed.
  - assert (vb_hash (verified_at 0 draining_queue) = hash_of block_A) as EA by (vm_compute; reflexivity).
    assert (vb_hash (verified_at 1 draining_queue) = hash_of block_B) as EB by (vm_compute; reflexivity). rewrite EA in HA. rewrite EB in HB.
    split; [exact HB|]. split; [vm_compute; reflexivity|]. split; [apply Hi; reflexivity|exact HA].
Defined.
